(* ===== verification/_CoqProject ===== *)
-Q . S2P
Prelude.v
Text.v
Floats.v
Crc.v
Protocol.v
RingFrames.v
Client.v
PollQueue.v
WriteLease.v
Reduction.v
RingReader.v
Readout.v
CanFrame.v
SdoMap.v
CanClients.v
CanMerge.v
CanRing.v
CanRingWriter.v
CanRingSnapshot.v
Endpoint.v
Literals.v
Regex.v
EDS.v
Broker.v
DeviceBridge.v
BridgePayload.v
BridgeLogic.v
BridgeFrames.v
BridgeTypes.v
BridgeCache.v
BridgeBulk.v
Router.v
RouterFrames.v
Routing.v
RoutedRead.v
CommandCache.v
AddressZero.v
Fanout.v
RouteDaemon.v
Puppet.v
PuppetOracle.v
CanAdapter.v
CanMap.v
CanMapLive.v
CanMapGateway.v
Commander.v
GatewayWrite.v
Hub.v
Channels.v
Subscriber.v
Poller.v
GraphKeys.v
GraphHistory.v
GraphExchange.v
GatewayConfig.v
PowerControl.v
GatewayPoll.v
GraphText.v
ParamRegistry.v
PdoControl.v
GraphTile.v
GatewayHTTP.v
GatewayRead.v
Catalogue.v
Peltier.v
PollingCapacity.v
ParamSetter.v
TecCatalogue.v
CatalogueLDD.v
GatewayViews.v
