(* ===== verification/Prelude.v ===== *)
(** * A verification development for meerstetter-go

    meerstetter-go talks to Meerstetter TEC and LDD controllers in their MeCom
    protocol: over serial lines and TCP in ASCII, over CAN in a binary form, and
    over CANopen through an object map.  On top of the protocol it has an
    oversampling reader of the device's ring buffer, a readout scheduler, a
    crash-tolerant capture file for CAN traffic, a write lease, and a server that
    lets many clients share devices and puts ASCII clients in front of CANopen
    devices.  The development follows the Go packages:

    - [mecom/]
      - frames: [Text], [Floats], [Crc] (the parts of the standard library
        in use, and [CRC16]), [Protocol] ([protocol.go]: builders, splitter,
        response parsers), [RingFrames] ([ParseRingFrames] and the decoder);
      - [Client] ([protocol.go], type [Client]): one exchange over a
        connection, and the typed reads, writes and ring calls;
      - [PollQueue] ([pollqueue.go]), [Reduction] ([reduction.go]),
        [RingReader] ([ring_reader.go]), [Readout] ([readout.go]), [Peltier]
        ([peltier_model.go], [readout_derived.go]), [PollingCapacity]
        ([polling_capacity.go]);
      - [Catalogue], [TecCatalogue], [CatalogueLDD] ([catalogue.go] and the
        catalogue it loads, [catalogues/tec.json]);
      - [WriteLease] ([writelease/writelease.go]); [Endpoint] ([transport.go]);
      - [SdoMap] ([canopen_sdo_map.go]) and [CanClients] ([can_client.go],
        [canopen_client.go], the binary codec of [protocol.go]);
    - [canopen/]: [CanFrame] ([frame.go]), [EDS] ([eds/eds.go], into the
      dictionary of [objectdict/objectdict.go]);
    - [mecomdict/]: [ParamRegistry] ([registry.go]); integer literals: [Literals];
      matchers for expressions: [Regex];
    - [canadapter/]: [CanAdapter] ([catalogue.go], [socketcan_status.go]:
      profiles of adapters, the status of an interface);
    - [canring/]: [CanRing] ([ring.go]: file format, writer, recovery),
      [CanRingWriter] and [CanRingSnapshot] (its refinement proof and the
      reader), [CanMerge] (merging two rings);
    - [mecomserver/]
      - [Broker] ([server.go], [stats.go]): the owner of a connection;
      - [DeviceBridge], [BridgePayload] ([device_bridge.go]: state, codec,
        commands) with [BridgeLogic], [BridgeFrames], [BridgeTypes],
        [BridgeCache] and [BridgeBulk] for its theorems;
      - [Router] ([router.go]) with [RouterFrames], [Routing], [RoutedRead],
        [CommandCache] and [AddressZero] for its theorems;
      - [Fanout] ([fanout.go], [runtime_client.go]);
      - [Hub] ([hub.go]): one passthrough per configured device;
      - [Channels], [Poller] ([poller.go]): readout plans over the router and the
        bounded channels of their subscribers;
    - telecommands and push telemetry ([mecom/]): [Commander] ([commander.go]),
      [Subscriber] ([subscriber.go]);
    - [canmap/]: [CanMap] ([registry.go], [pattern.go]), [CanMapLive]
      ([observe.go], [diff.go]);
    - the gateway, [cmd/mecomgw/]
      - [GatewayConfig], [GatewayPoll], [PowerControl] ([main.go]: configuration,
        the slow poll, the power controller);
      - [GatewayHTTP], [GatewayRead], [GatewayWrite], [GatewayViews]
        ([handlers.go]: the way of a request to its handler; reads and streams;
        leases and writes; what a browser is shown), [CanMapGateway]
        ([canmap.go]);
      - [GraphKeys], [GraphHistory], [GraphExchange], [GraphText], [GraphTile]
        ([graph_tiles.go]: names, histories, import and export, tiles);
    - other programs under [cmd/]: [RouteDaemon] ([mecomvseriald/main.go]: the
      router as a program, with [mecom/factory.go]), [Puppet], [PuppetOracle]
      ([coso-puppet/]: requests by hand, traces, the oracle), [PdoControl] ([canpdoctl/main.go]: PDO
      mappings over CANopen), [ParamSetter] ([mecomset/main.go]: writing,
      verifying and saving parameters).

    ** State and effects

    A Go struct is a record with the fields' names, a method that changes it a
    function that returns it, an enumeration an inductive type; an error is an
    inductive type per package, with the arguments of its message.  Integers are
    [Z] and wrap where the code converts them ([u8], [u16], [u32], [i32], ...);
    floats are [SpecFloat] values; wire bytes are lists of [byte].

    What the world does is data: a connection is the list of what its future
    reads deliver ([Client.exchange], [Broker.broker_call], the bus script of
    [CanClients]), a clock is the readings a call makes, a disk the number of
    bytes a write got through.  A component that another one uses is a class:
    [RingReader.RingEnv] (a ring client, a clock, a sample channel),
    [Readout.ReadClient], the typed client of [BridgePayload], and
    [Router.RouteEnv] (queues of brokers).  Theorems about the user hold for
    every instance, with laws as hypotheses where a theorem needs them, and the
    components of this development give the instances: [Client] for the reader,
    [CanClients] for the bridge, the bridge and the router's own client for the
    router and the readout.  The gateway's parts share one server state,
    [GatewayWrite.gateway], whose devices hold a client of any instance.

    A mutex that covers a whole method makes the method one step.  Where the
    lock is given up in between (the command cache around a request, the leases
    of address zero between connections) the steps are a relation and the
    theorems hold for every interleaving; a request queue serves one request at
    a time, so a broker's history is a list of its calls.

    ** The theorems

    - Frames.  [CRC16] is division by the CCITT polynomial, so bursts up to
      sixteen bits are caught; ring frames decode to what the device encoded,
      also when a read cuts them; a lone first byte of a marker is dropped.
    - Clients.  End to end: the bytes on the wire are one request with the value
      in them, and the result is what the device sent, over a serial line or TCP
      ([Client]), binary CAN and CANopen ([CanClients]); which errors send
      nothing.
    - Readout.  The invariant of the scheduler, no parameter is lost or starved,
      a reader that fell behind catches up in one tick, one-pass reduction is
      reduction per slot; every channel with a measured value gets its derived
      values, the estimator claims heat flows only where mode and module data
      allow, and the capacity estimate accounts for every value.
    - Catalogue, sheets and registries.  A catalogue that loads is well formed and
      is left alone by a second load; the entries of the LDD have distinct
      numbers; a data sheet and a parameter registry are read back as written.
    - Gateway.  A request needs the token; a write needs the live lease and
      excludes other writers; reads and streams show the registers of the device;
      every parameter is polled; a failed poll stops its channel; an import
      changes everything or nothing and reads what an export writes; a tile shows
      what its histories hold; the views show the routes and the catalogue.
    - Programs.  The router daemon serves the routes of its flags; the puppet
      shows the metadata of the device and accepts only public oracles.  The
      plan for a PDO leaves the node with the mapping that was asked for, and a
      refused step ends it; parameters are saved only after every write was
      acknowledged and, if asked for, read back as written.  What [ip] says of a CAN
      interface is read back, and diagnosed as its state and the profile say
      ([CanAdapter]).
    - Capture ring.  A ring file refines a list of chunks over any sequence of
      sessions; a torn superblock does not lose it; the fast merge is the plain
      merge.
    - Leases.  Write authority is exclusive; lazy sweeping is not observable.
    - Bridge.  One well-formed answer per request; read-only parameters are not
      written; the stores stay well typed and survive a restart; a bulk read is
      the concatenation of single reads, with zeros for what is refused; an ASCII
      client reads what the CANopen device holds.
    - Router.  A read goes in one order over the routes of its device, at most
      twice each; a command is sent once, to one route, and not repeated while
      the cache keeps it; address zero is invisible to both sides; a fan-out
      addresses each device; a read through client, router and device returns
      the device's value; the brokers stay in step.
    - What the code does not do as meant has theorems too: a late response is
      taken for the next one ([Client]), a partial frame outlives its stream
      ([Readout]), a full buffer after a failed flush panics ([CanRing]), a
      refusal is not seen over binary CAN ([CanClients]), the results of
      commands cross devices and a checksum acknowledgement is lost at address
      zero ([CommandCache], [RouterFrames]).

    ** Bounds and fuel

    Structural recursion has none.  Elsewhere the fuel is a length that every
    round shortens: the splitters and [ParseRingFrames] take the length of the
    buffer ([ParseRingFrames_total]), the merges the lengths of both lists, the
    clearing of a ring file its size.  Digits need sixteen rounds in hexadecimal
    and nineteen in decimal for 64-bit values.  A client waits for at most as
    many frames as its connection still delivers; past the end the deadline
    expires, as the program always sets one.  Retries are the program's own
    constants.

    ** Not modelled

    - Sockets, serial ports, CAN sockets, files, goroutine start-up, logging:
      their results are arguments, as above.
    - JSON text: the loaders start from decoded documents, and the bridge's
      cache ends in one ([DeviceBridge.json_document] has what encoding does to values).
    - The window statistics and the telemetry framework are external modules.
    - The Arrow and HDF5 forms of tiles and archives, the tables of the RMM-1182
      and of the automation package, and the command-line programs under [cmd/]
      not named above, which print what the packages compute; flag parsing.
    - Times are nanoseconds in [Z]; differences beyond the 292 years of a Go
      duration are not considered. *)
From stdpp Require Import prelude gmap strings list sorting.
From Stdlib Require Import Strings.Byte.

(** ** Results: the [(value, error)] pairs of Go

    A Go function that returns [(T, error)] returns one of the two in every
    place of this program (the zero value accompanies an error), so a fallible
    function is a function into [result]. *)
Inductive result (E A : Type) : Type :=
  | Ok (a : A)
  | Err (e : E).
Arguments Ok {E A} a.
Arguments Err {E A} e.

Global Instance result_ret {E} : MRet (result E) := fun _ a => Ok a.
Global Instance result_bind {E} : MBind (result E) := fun _ _ f r =>
  match r with Ok a => f a | Err e => Err e end.
Global Instance result_fmap {E} : FMap (result E) := fun _ _ f r =>
  match r with Ok a => Ok (f a) | Err e => Err e end.

Global Instance result_eq_dec {E A} `{EqDecision E, EqDecision A} :
  EqDecision (result E A).
Proof. solve_decision. Defined.

Definition is_Ok {E A} (r : result E A) : bool :=
  match r with Ok _ => true | Err _ => false end.

Section result_lemmas.
Context {E A B : Type}.
Implicit Types (r : result E A) (f : A → result E B).

Lemma bind_Ok_inv r f b : (r ≫= f) = Ok b → ∃ a, r = Ok a ∧ f a = Ok b.
Proof. destruct r as [a|e]; simpl; [eauto|done]. Qed.

Lemma bind_Err_inv r f e :
  (r ≫= f) = Err e → r = Err e ∨ ∃ a, r = Ok a ∧ f a = Err e.
Proof. destruct r as [a|e']; simpl; [eauto|intros [= ->]; auto]. Qed.

Lemma is_Ok_true r : is_Ok r = true ↔ ∃ a, r = Ok a.
Proof. destruct r as [a|e]; simpl; (split; [by eauto|by intros [? [=]]]). Qed.
End result_lemmas.

(** [mfold f a l]: a loop that may return early with an error. *)
Fixpoint mfold {E A B} (f : A → B → result E A) (a : A) (l : list B) : result E A :=
  match l with
  | [] => Ok a
  | b :: l' => a' ← f a b; mfold f a' l'
  end.

Lemma mfold_app {E A B} (f : A → B → result E A) a l1 l2 :
  mfold f a (l1 ++ l2) = (a' ← mfold f a l1; mfold f a' l2).
Proof.
  revert a. induction l1 as [|b l1 IH]; intros a; simpl; [done|].
  destruct (f a b); simpl; [apply IH|done].
Qed.

(** What every successful round of a loop keeps, the loop keeps. *)
Lemma mfold_inv {E A B} (P : A → Prop) (f : A → B → result E A) a l a' :
  (∀ x b x', P x → f x b = Ok x' → P x') → P a → mfold f a l = Ok a' → P a'.
Proof.
  intros Hf. revert a. induction l as [|b l IH]; intros a Ha H; simpl in H.
  - by injection H as <-.
  - apply bind_Ok_inv in H as (x & Hx & H). eauto.
Qed.

Lemma mapM_app_Ok {E A B} (f : A → result E B) l1 l2 bs : mapM f (l1 ++ l2) = Ok bs →
  ∃ b1 b2, mapM f l1 = Ok b1 ∧ mapM f l2 = Ok b2 ∧ bs = b1 ++ b2.
Proof.
  revert bs. induction l1 as [|a l1 IH]; intros bs H; cbn [app mapM] in *.
  - by exists [], bs.
  - apply bind_Ok_inv in H as (b & Hb & H). apply bind_Ok_inv in H as (bs' & Hbs & H).
    injection H as <-. apply IH in Hbs as (b1 & b2 & H1 & H2 & ->).
    exists (b :: b1), b2. by rewrite Hb, H1.
Qed.

(** ** Errors

    An error value keeps what the program can observe of it: the sentinel it
    wraps ([errors.Is]), the structured abort it carries ([errors.As]), its
    format string and its integer arguments.  The other arguments of the format
    (quoted text, durations) are dropped: nothing branches on them. *)
Inductive sentinel : Type :=
  | ErrUnreachable
  | ErrTimeout
  | ErrBadAddress
  | ErrUnknownParameter
  | ErrParameterReadOnly
  | ErrWriteRejected
  | ErrTransportNotSupported
  | ErrInvalidArgument
  | ErrReadbackMismatch
  | ErrLeaseHeld
  | ErrInvalidToken
  | ErrExpired
  | ErrUnknownDevice
  | ContextCanceled
  | ContextDeadlineExceeded
  | NetTimeout
  | IoEOF
  | IoErrClosedPipe
  | NetErrClosed
  | EPIPE
  | ECONNRESET
  | ECONNABORTED.

Global Instance sentinel_eq_dec : EqDecision sentinel.
Proof. solve_decision. Defined.

Inductive error : Type :=
  | Sentinel (s : sentinel)
  | Errorf (format : string) (args : list Z)
  | Wrapf (format : string) (args : list Z) (e : error)
  | SDOAbortError (index subindex code : Z)
  | ErrJoin (e1 e2 : error)
  | CommandRejectedError (e : error).

Global Instance error_eq_dec : EqDecision error.
Proof. solve_decision. Defined.

(** [errors.Is]. *)
Fixpoint errors_is (e : error) (s : sentinel) : bool :=
  match e with
  | Sentinel s' => bool_decide (s' = s)
  | Errorf _ _ => false
  | Wrapf _ _ e' => errors_is e' s
  | SDOAbortError _ _ _ => false
  | ErrJoin e1 e2 => errors_is e1 s || errors_is e2 s
  | CommandRejectedError e' => errors_is e' s
  end.

(** [errors.As] for the abort type of the CANopen package. *)
Fixpoint as_SDOAbort (e : error) : option (Z * Z * Z) :=
  match e with
  | SDOAbortError i s c => Some (i, s, c)
  | Wrapf _ _ e' => as_SDOAbort e'
  | ErrJoin e1 e2 =>
      match as_SDOAbort e1 with Some a => Some a | None => as_SDOAbort e2 end
  | CommandRejectedError e' => as_SDOAbort e'
  | _ => None
  end.

Abbreviation res := (result error).

(** ** Bytes *)
Abbreviation bytes := (list byte).

Global Instance byte_eq_decision : EqDecision byte := Byte.byte_eq_dec.

Global Instance byte_countable : Countable byte :=
  inj_countable Byte.to_N Byte.of_N Byte.of_to_N.

(** The value of a byte, and the byte a Go conversion [byte(z)] yields. *)
Definition bz (b : byte) : Z := Z.of_N (Byte.to_N b).
Definition zb (z : Z) : byte :=
  match Byte.of_N (Z.to_N (z mod 256)) with Some b => b | None => x00 end.

Lemma bz_range b : (0 ≤ bz b < 256)%Z.
Proof. unfold bz. pose proof (Byte.to_N_bounded b). lia. Qed.

Lemma bz_zb z : bz (zb z) = (z mod 256)%Z.
Proof.
  unfold bz, zb. pose proof (Z.mod_pos_bound z 256 ltac:(lia)) as Hb.
  destruct (Byte.of_N (Z.to_N (z mod 256))) as [b|] eqn:Hof.
  - apply Byte.to_of_N in Hof. rewrite Hof. lia.
  - apply Byte.of_N_None_iff in Hof. lia.
Qed.

Lemma zb_bz b : zb (bz b) = b.
Proof.
  unfold zb. pose proof (bz_range b). rewrite Z.mod_small by lia.
  unfold bz. by rewrite N2Z.id, Byte.of_to_N.
Qed.

Lemma bz_zb_small z : (0 ≤ z < 256)%Z → bz (zb z) = z.
Proof. intros. by rewrite bz_zb, Z.mod_small. Qed.

Global Instance bz_inj : Inj (=) (=) bz.
Proof. intros b1 b2 H. by rewrite <-(zb_bz b1), <-(zb_bz b2), H. Qed.

Lemma zb_eq_mod a b : (a mod 256 = b mod 256)%Z → zb a = zb b.
Proof. unfold zb. by intros ->. Qed.

(** String literals as the bytes Go compiles them to. *)
Definition str (s : string) : bytes := String.list_byte_of_string s.
Arguments str s%_string_scope.
Arguments Errorf format%_string_scope args%_list_scope.
Arguments Wrapf format%_string_scope args%_list_scope e.

(** ** Slices *)

(** [l[i:j]] for indices in range, which every use guards. *)
Definition slice {A} (l : list A) (i j : nat) : list A := take (j - i) (drop i l).

(** [l[len(l)-n:]] and [l[:len(l)-n]]. *)
Definition lastn {A} (n : nat) (l : list A) : list A := drop (length l - n) l.
Definition droplast {A} (n : nat) (l : list A) : list A := take (length l - n) l.

Lemma lastn_app {A} (l k : list A) : lastn (length k) (l ++ k) = k.
Proof. unfold lastn. rewrite length_app. replace (_ - _)%nat with (length l) by lia. apply drop_app_length. Qed.

Lemma droplast_app {A} (l k : list A) : droplast (length k) (l ++ k) = l.
Proof. unfold droplast. rewrite length_app. replace (_ - _)%nat with (length l) by lia. apply take_app_length. Qed.

Lemma droplast_lastn {A} n (l : list A) : droplast n l ++ lastn n l = l.
Proof. apply take_drop. Qed.

Lemma length_lastn {A} n (l : list A) : (n ≤ length l)%nat → length (lastn n l) = n.
Proof. intros. unfold lastn. rewrite length_drop. lia. Qed.

Lemma length_droplast {A} n (l : list A) : length (droplast n l) = (length l - n)%nat.
Proof. unfold droplast. rewrite length_take. lia. Qed.

Lemma length_slice {A} (l : list A) i j :
  (i ≤ j)%nat → (j ≤ length l)%nat → length (slice l i j) = (j - i)%nat.
Proof. intros. unfold slice. rewrite length_take, length_drop. lia. Qed.

Lemma slice_app_l {A} (l k : list A) i j :
  (j ≤ length l)%nat → slice (l ++ k) i j = slice l i j.
Proof.
  intros Hj. unfold slice. destruct (decide (i ≤ length l)%nat) as [Hi|Hi].
  - rewrite drop_app_le by lia. rewrite take_app_le; [done|]. rewrite length_drop; lia.
  - replace (j - i)%nat with 0%nat by lia. by rewrite !take_0.
Qed.

Lemma slice_skip {A} (l k : list A) i j :
  slice (l ++ k) (length l + i) (length l + j) = slice k i j.
Proof.
  unfold slice. rewrite <-drop_drop, drop_app_length.
  by replace (length l + j - (length l + i))%nat with (j - i)%nat by lia.
Qed.

(** A field of a concatenation: skip what lies before it, then take it. *)
Lemma slice_after {A} (l k : list A) i j :
  (length l ≤ i)%nat → (i ≤ j)%nat → slice (l ++ k) i j = slice k (i - length l) (j - length l).
Proof.
  intros Hi Hj. replace i with (length l + (i - length l))%nat at 1 by lia.
  replace j with (length l + (j - length l))%nat at 1 by lia. apply slice_skip.
Qed.
Lemma slice_head {A} (l k : list A) j : j = length l → slice (l ++ k) 0 j = l.
Proof. intros ->. unfold slice. rewrite Nat.sub_0_r. apply take_app_length. Qed.
Lemma slice_all {A} (l : list A) j : j = length l → slice l 0 j = l.
Proof. intros ->. unfold slice. rewrite Nat.sub_0_r. apply take_ge. done. Qed.

(** [copy(dst[off:], data)] where there is room. *)
Definition put_at {A} (l : list A) (off : nat) (data : list A) : list A :=
  take off l ++ data ++ drop (off + length data) l.

Lemma length_put_at {A} (l : list A) off data :
  (off + length data ≤ length l)%nat → length (put_at l off data) = length l.
Proof. intros. unfold put_at. rewrite !length_app, length_take, length_drop. lia. Qed.

Lemma slice_put_at {A} (l : list A) off data : (off + length data ≤ length l)%nat →
  slice (put_at l off data) off (off + length data) = data.
Proof.
  intros. unfold put_at. rewrite slice_after by (rewrite ?length_take; lia).
  rewrite length_take. replace (off - off `min` length l)%nat with 0%nat by lia.
  by rewrite slice_head by lia.
Qed.

Lemma slice_put_at_before {A} (l : list A) off data i j : (j ≤ off)%nat →
  (off ≤ length l)%nat → slice (put_at l off data) i j = slice l i j.
Proof.
  intros. unfold put_at. rewrite slice_app_l by (rewrite length_take; lia).
  unfold slice. rewrite skipn_firstn_comm, take_take. f_equal. lia.
Qed.

Lemma slice_put_at_after {A} (l : list A) off data i j : (off + length data ≤ i)%nat →
  (i ≤ j)%nat → (off + length data ≤ length l)%nat → slice (put_at l off data) i j = slice l i j.
Proof.
  intros. unfold put_at. rewrite app_assoc.
  rewrite slice_after by (rewrite ?length_app, ?length_take; lia).
  rewrite length_app, length_take. unfold slice. rewrite drop_drop.
  f_equal; [lia|f_equal; lia].
Qed.

(** ** Machine integers *)
Definition u8 (z : Z) : Z := z mod 2 ^ 8.
Definition u16 (z : Z) : Z := z mod 2 ^ 16.
Definition u32 (z : Z) : Z := z mod 2 ^ 32.
Definition u64 (z : Z) : Z := z mod 2 ^ 64.

(** Two's complement reading of a [w]-bit word: [int32(u)], [int64(u)]. *)
Definition signed (w z : Z) : Z :=
  (let u := z mod 2 ^ w in if u <? 2 ^ (w - 1) then u else u - 2 ^ w)%Z.
Definition i32 (z : Z) : Z := signed 32 z.
Definition i64 (z : Z) : Z := signed 64 z.

Lemma u8_range z : (0 ≤ u8 z < 256)%Z.
Proof. apply Z.mod_pos_bound. lia. Qed.
Lemma u16_range z : (0 ≤ u16 z < 65536)%Z.
Proof. apply Z.mod_pos_bound. lia. Qed.
Lemma u32_range z : (0 ≤ u32 z < 4294967296)%Z.
Proof. apply Z.mod_pos_bound. lia. Qed.
Lemma u64_range z : (0 ≤ u64 z < 2 ^ 64)%Z.
Proof. apply Z.mod_pos_bound. lia. Qed.

Lemma signed_range w z : (0 < w)%Z → (- 2 ^ (w - 1) ≤ signed w z < 2 ^ (w - 1))%Z.
Proof.
  intros Hw. unfold signed.
  assert (Hp : (2 ^ w = 2 * 2 ^ (w - 1))%Z).
  { rewrite <-Z.pow_succ_r by lia. f_equal. lia. }
  pose proof (Z.mod_pos_bound z (2 ^ w) ltac:(lia)).
  destruct (Z.ltb_spec (z mod 2 ^ w) (2 ^ (w - 1))); lia.
Qed.

Lemma signed_small w z :
  (0 < w)%Z → (- 2 ^ (w - 1) ≤ z < 2 ^ (w - 1))%Z → signed w (z mod 2 ^ w) = z.
Proof.
  intros Hw Hz. unfold signed.
  assert (Hp : (2 ^ w = 2 * 2 ^ (w - 1))%Z).
  { rewrite <-Z.pow_succ_r by lia. f_equal. lia. }
  rewrite Z.mod_mod by lia.
  destruct (decide (0 ≤ z)%Z).
  - rewrite Z.mod_small by lia. destruct (Z.ltb_spec z (2 ^ (w - 1))); lia.
  - replace (z mod 2 ^ w)%Z with (z + 2 ^ w)%Z.
    2: { rewrite <-(Z.mod_small (z + 2 ^ w) (2 ^ w)) by lia.
         rewrite <-(Z.mul_1_l (2 ^ w)) at 1. by rewrite Z.mod_add by lia. }
    destruct (Z.ltb_spec (z + 2 ^ w) (2 ^ (w - 1))); lia.
Qed.

Lemma i32_u32 z : (- 2 ^ 31 ≤ z < 2 ^ 31)%Z → i32 (u32 z) = z.
Proof. intros. apply (signed_small 32); lia. Qed.

Lemma i32_id z : (- 2 ^ 31 ≤ z < 2 ^ 31)%Z → i32 z = z.
Proof.
  intros Hz. rewrite <-(i32_u32 z) at 2 by done. unfold i32, u32, signed. by rewrite Z.mod_mod.
Qed.

Lemma i64_u64 z : (- 2 ^ 63 ≤ z < 2 ^ 63)%Z → i64 (u64 z) = z.
Proof. intros. apply (signed_small 64); lia. Qed.

Lemma i64_id z : (- 2 ^ 63 ≤ z < 2 ^ 63)%Z → i64 z = z.
Proof.
  intros Hz. rewrite <-(i64_u64 z) at 2 by done. unfold i64, u64, signed. by rewrite Z.mod_mod.
Qed.
Lemma i32_range z : (- 2 ^ 31 ≤ i32 z < 2 ^ 31)%Z.
Proof. apply (signed_range 32). lia. Qed.

(** ** Little- and big-endian integers ([encoding/binary]) *)
Fixpoint le_get (l : bytes) : Z :=
  match l with [] => 0%Z | b :: l' => (bz b + 256 * le_get l')%Z end.
Fixpoint le_put (n : nat) (z : Z) : bytes :=
  match n with O => [] | S n' => zb z :: le_put n' (z / 256) end.
Definition be_get (l : bytes) : Z := le_get (reverse l).
Definition be_put (n : nat) (z : Z) : bytes := reverse (le_put n z).

Lemma length_le_put n z : length (le_put n z) = n.
Proof. revert z. induction n; intros; simpl; auto. Qed.

Lemma length_be_put n z : length (be_put n z) = n.
Proof. unfold be_put. by rewrite length_reverse, length_le_put. Qed.

Lemma le_get_range l : (0 ≤ le_get l < 256 ^ Z.of_nat (length l))%Z.
Proof.
  induction l as [|b l IH]; simpl; [lia|].
  pose proof (bz_range b). rewrite Nat2Z.inj_succ, Z.pow_succ_r by lia. lia.
Qed.

Lemma le_get_put n z : le_get (le_put n z) = (z mod 256 ^ Z.of_nat n)%Z.
Proof.
  revert z. induction n as [|n IH]; intros z.
  - simpl. by rewrite Z.mod_1_r.
  - cbn [le_put le_get]. rewrite IH, bz_zb, Nat2Z.inj_succ, Z.pow_succ_r by lia.
    rewrite Z.rem_mul_r by lia. lia.
Qed.

Lemma le_get_put_small n z :
  (0 ≤ z < 256 ^ Z.of_nat n)%Z → le_get (le_put n z) = z.
Proof. intros. by rewrite le_get_put, Z.mod_small. Qed.

Lemma be_get_put n z : be_get (be_put n z) = (z mod 256 ^ Z.of_nat n)%Z.
Proof. unfold be_get, be_put. by rewrite reverse_involutive, le_get_put. Qed.

Lemma be_get_put_small n z :
  (0 ≤ z < 256 ^ Z.of_nat n)%Z → be_get (be_put n z) = z.
Proof. intros. by rewrite be_get_put, Z.mod_small. Qed.

Lemma le_put_get l : le_put (length l) (le_get l) = l.
Proof.
  induction l as [|b l IH]; simpl; [done|]. pose proof (bz_range b).
  f_equal.
  - rewrite <-(zb_bz b) at 2. apply zb_eq_mod.
    rewrite Z.mul_comm, Z.mod_add by lia. done.
  - rewrite Z.mul_comm, Z.div_add by lia. rewrite Z.div_small by lia. by rewrite Z.add_0_l.
Qed.

(** ** Finite checks: a boolean test that holds on a range, by evaluation *)
Lemma range_check (P : Z → bool) (n : nat) :
  forallb P (Z.of_nat <$> seq 0 n) = true → ∀ z, (0 ≤ z < Z.of_nat n)%Z → P z = true.
Proof.
  intros H z Hz. rewrite forallb_forall in H. apply H, list_elem_of_In, list_elem_of_fmap.
  exists (Z.to_nat z). split; [lia|]. apply elem_of_seq. lia.
Qed.

(** ** Automation *)
Create HintDb mecom discriminated.
#[export] Hint Resolve bz_range u8_range u16_range u32_range u64_range i32_range le_get_range : mecom.
Create Rewrite HintDb mecom_len.
#[export] Hint Rewrite @length_app @length_take @length_drop @length_reverse @length_cons
  @length_nil @length_replicate length_le_put length_be_put @length_fmap
  @length_lastn @length_droplast : mecom_len.

(** Length goals over concatenations, slices and encodings. *)
Ltac len := autorewrite with mecom_len in *; simpl in *; try lia.

(** Linear arithmetic with division and remainder by constants. *)
Ltac zdiv := Z.to_euclidean_division_equations; lia.

(** Split the monadic hypotheses of a goal into the steps that succeeded. *)
Ltac inv_result :=
  repeat match goal with
  | H : Ok _ = Ok _ |- _ => injection H as H; try subst
  | H : Err _ = Err _ |- _ => injection H as H; try subst
  | H : Ok _ = Err _ |- _ => discriminate H
  | H : Err _ = Ok _ |- _ => discriminate H
  | H : mret _ = _ |- _ => unfold mret, result_ret in H
  | H : (_ ≫= _) = Ok _ |- _ => apply bind_Ok_inv in H as (? & ? & ?)
  | H : mbind _ _ = Ok _ |- _ => apply bind_Ok_inv in H as (? & ? & ?)
  end.

(** Case on the [if]/[match] scrutinee of a hypothesis, keeping the equation. *)
Ltac case_in H :=
  match type of H with
  | context [match ?x with _ => _ end] => destruct x eqn:?; simplify_eq/=
  end.
Ltac case_goal :=
  match goal with
  | |- context [match ?x with _ => _ end] => destruct x eqn:?; simplify_eq/=
  end.

(** ** Sorting

    [sort.SliceStable] by insertion: [less] is the program's comparison, and equal
    elements keep their order. *)
Fixpoint sort_insert {A} (less : A → A → bool) (x : A) (l : list A) : list A :=
  match l with
  | [] => [x]
  | y :: l' => if less y x then y :: sort_insert less x l' else x :: l
  end.
Definition sort_stable {A} (less : A → A → bool) (l : list A) : list A := foldr (sort_insert less) [] l.

Section sorting.
Context {A : Type} (less : A → A → bool).
Lemma sort_insert_Permutation x l : sort_insert less x l ≡ₚ x :: l.
Proof.
  induction l as [|y l IH]; cbn [sort_insert]; [done|]. destruct (less y x); [|done]. rewrite IH. apply Permutation_swap.
Qed.
Lemma sort_stable_Permutation l : sort_stable less l ≡ₚ l.
Proof. induction l as [|x l IH]; cbn [sort_stable foldr]; [done|]. rewrite sort_insert_Permutation. by constructor. Qed.

(** Not after each other: an order if [less] is a strict weak one. *)
Definition not_after (a b : A) : Prop := less b a = false.
Hypothesis less_asym : ∀ a b, less a b = true → less b a = false.
Hypothesis not_after_trans : ∀ a b c, not_after a b → not_after b c → not_after a c.
Lemma insert_by_sorted x l : StronglySorted not_after l → StronglySorted not_after (sort_insert less x l).
Proof using less_asym not_after_trans.
  induction 1 as [|y l Hl IH Hy]; cbn [sort_insert]; [repeat constructor|]. destruct (less y x) eqn:E.
  - constructor; [done|]. rewrite sort_insert_Permutation. constructor; [by apply less_asym|done].
  - constructor; [by constructor|]. constructor; [done|]. eapply Forall_impl; [exact Hy|]. intros z Hz. by apply (not_after_trans x y z).
Qed.
Lemma sort_stable_sorted l : StronglySorted not_after (sort_stable less l).
Proof using less_asym not_after_trans.
  induction l as [|x l IH]; cbn [sort_stable foldr]; [constructor|]. by apply insert_by_sorted.
Qed.
End sorting.

Lemma StronglySorted_weaken {A} (R R' : relation A) l : (∀ a b, R a b → R' a b) → StronglySorted R l → StronglySorted R' l.
Proof. intros HR. induction 1 as [|x l Hl IH Hx]; constructor; [done|]. eapply Forall_impl; [exact Hx|]. intros y. apply HR. Qed.

(** Sorting by a number. *)
Lemma sort_by_key {A} (key : A → Z) (l : list A) :
  StronglySorted (λ a b, (key a ≤ key b)%Z) (sort_stable (λ a b, (key a <? key b)%Z) l).
Proof.
  eapply (StronglySorted_weaken (not_after (λ a b, (key a <? key b)%Z))).
  - intros a b. unfold not_after. rewrite Z.ltb_ge. lia.
  - apply sort_stable_sorted; unfold not_after.
    + intros a b Hab. apply Z.ltb_lt in Hab. apply Z.ltb_ge. lia.
    + intros a b c. rewrite !Z.ltb_ge. lia.
Qed.
Lemma sorted_keys {A} (key : A → Z) (l : list A) : StronglySorted (λ a b, (key a ≤ key b)%Z) l → NoDup (key <$> l) → StronglySorted Z.lt (key <$> l).
Proof.
  induction 1 as [|a l Hl IH Ha]; intros Hnd; [constructor|]. rewrite fmap_cons in *. apply NoDup_cons in Hnd as [Hn Hnd].
  constructor; [by apply IH|]. apply Forall_fmap. rewrite Forall_forall in Ha |- *. intros b Hb. specialize (Ha b Hb). cbn.
  assert (key a ≠ key b); [|lia]. intros E. apply Hn. rewrite E. by apply list_elem_of_fmap_2.
Qed.

Lemma filter_none {A} (Q : A → Prop) `{∀ x, Decision (Q x)} (l : list A) : Forall (λ x, ¬ Q x) l → filter Q l = [].
Proof. induction 1 as [|x l Hx _ IH]; [done|]. by rewrite filter_cons_False. Qed.
