(* ===== verification/Text.v ===== *)
(** * Text: the parts of [strconv], [fmt], [strings], [bytes] and
    [encoding/hex] the program formats and parses frames with.

    Wire text is a list of bytes, as in Go.  Case mapping and trimming are the
    ASCII cases of the Go functions: MeCom frames are ASCII, and a byte above
    0x7F is left as it is. *)
From stdpp Require Import prelude strings list.
From Stdlib Require Import Strings.Byte.
From S2P Require Import Prelude.
Open Scope Z_scope.

(** ** strings and bytes *)
Definition is_space (b : byte) : bool :=
  let c := bz b in (c =? 32) || ((9 <=? c) && (c <=? 13)).

Fixpoint trim_left (l : bytes) : bytes :=
  match l with
  | b :: l' => if is_space b then trim_left l' else l
  | [] => []
  end.
Definition trim_right (l : bytes) : bytes := reverse (trim_left (reverse l)).
Definition TrimSpace (l : bytes) : bytes := trim_right (trim_left l).

Definition upper_byte (b : byte) : byte :=
  let c := bz b in if (97 <=? c) && (c <=? 122) then zb (c - 32) else b.
Definition lower_byte (b : byte) : byte :=
  let c := bz b in if (65 <=? c) && (c <=? 90) then zb (c + 32) else b.
Definition ToUpper (l : bytes) : bytes := upper_byte <$> l.
Definition ToLower (l : bytes) : bytes := lower_byte <$> l.

Definition HasPrefix (l p : bytes) : bool := bool_decide (take (length p) l = p).
Definition TrimPrefix (l p : bytes) : bytes :=
  if HasPrefix l p then drop (length p) l else l.
Definition HasSuffix (l p : bytes) : bool := bool_decide (lastn (length p) l = p).
Definition TrimSuffix (l p : bytes) : bytes :=
  if HasSuffix l p then droplast (length p) l else l.

(** [a < b] on strings. *)
Fixpoint bytes_ltb (a b : bytes) : bool :=
  match a, b with
  | _, [] => false
  | [], _ :: _ => true
  | x :: a', y :: b' => if bz x =? bz y then bytes_ltb a' b' else bz x <? bz y
  end.

(** [strings.Contains]. *)
Fixpoint contains (sub l : bytes) : bool :=
  match l with
  | [] => bool_decide (sub = [])
  | _ :: l' => HasPrefix l sub || contains sub l'
  end.
(** [strings.Index], up to the position and from there on. *)
Fixpoint split_at (sub l : bytes) : option (bytes * bytes) :=
  if HasPrefix l sub then Some ([], l)
  else match l with
       | [] => None
       | b :: l' => '(before, from) ← split_at sub l'; Some (b :: before, from)
       end.

(** [strings.Join]. *)
Fixpoint JoinText (sep : bytes) (parts : list bytes) : bytes :=
  match parts with
  | [] => []
  | [p] => p
  | p :: parts => p ++ sep ++ JoinText sep parts
  end.
(** [strings.Cut] at one byte. *)
Fixpoint cut_at (c : byte) (l : bytes) : bytes * option bytes :=
  match l with
  | [] => ([], None)
  | b :: l => if bool_decide (b = c) then ([], Some l) else let '(before, after) := cut_at c l in (b :: before, after)
  end.
(** [strings.Split] at a byte, and [strings.Join] with it. *)
Fixpoint SplitByte (c : byte) (l : bytes) : list bytes :=
  match l with
  | [] => [[]]
  | a :: l' =>
      if bool_decide (a = c) then [] :: SplitByte c l'
      else match SplitByte c l' with
           | part :: parts => (a :: part) :: parts
           | [] => [[a]]
           end
  end.
Fixpoint JoinByte (c : byte) (parts : list bytes) : bytes :=
  match parts with
  | [] => []
  | [p] => p
  | p :: ps => p ++ c :: JoinByte c ps
  end.

(** [strings.FieldsFunc]: the non-empty pieces between separators. *)
Fixpoint fields_go (sep : byte → bool) (word : bytes) (l : bytes) : list bytes :=
  match l with
  | [] => if bool_decide (word = []) then [] else [word]
  | b :: l =>
      if sep b then (if bool_decide (word = []) then [] else [word]) ++ fields_go sep [] l
      else fields_go sep (word ++ [b]) l
  end.
Definition FieldsFunc (sep : byte → bool) (l : bytes) : list bytes := fields_go sep [] l.
Definition Fields (l : bytes) : list bytes := FieldsFunc is_space l.
Definition has_text (sub : string) (l : bytes) : bool := contains (str sub) l.

(** [bytes.TrimRight(data, 0)]. *)
Fixpoint drop_nul (l : bytes) : bytes :=
  match l with b :: l' => if bool_decide (b = x00) then drop_nul l' else l | [] => [] end.
Definition TrimRightNul (l : bytes) : bytes := reverse (drop_nul (reverse l)).

(** ** Hexadecimal output *)
Definition hex_char (d : Z) : byte := if d <? 10 then zb (48 + d) else zb (55 + d).
Definition hex_char_lower (d : Z) : byte := if d <? 10 then zb (48 + d) else zb (87 + d).

(** The digits of [z] without leading zeros, most significant first.  A Go
    integer has at most 64 bits, so 16 units of fuel give all of them. *)
Fixpoint hex_digits (fuel : nat) (z : Z) : bytes :=
  match fuel with
  | O => []
  | S f => if z <? 16 then [hex_char z] else hex_digits f (z / 16) ++ [hex_char (z mod 16)]
  end.
Definition pad0 (w : nat) (l : bytes) : bytes := replicate (w - length l) "0"%byte ++ l.

(** [fmt.Sprintf] of the verb [%0wX], negative integers included. *)
Definition fmtX (w : nat) (z : Z) : bytes :=
  if z <? 0 then "-"%byte :: pad0 (w - 1) (hex_digits 16 (- z))
  else pad0 w (hex_digits 16 z).

(** Exactly [w] digits: the reference for the fixed-width fields of a frame. *)
Fixpoint hex_fix (w : nat) (z : Z) : bytes :=
  match w with O => [] | S w' => hex_fix w' (z / 16) ++ [hex_char (z mod 16)] end.

(** [hex.EncodeToString], lower case as in Go. *)
Definition EncodeToString (l : bytes) : bytes :=
  b ← l; [hex_char_lower (bz b / 16); hex_char_lower (bz b mod 16)].

(** ** Hexadecimal and decimal input *)
Definition digit_val (b : byte) : option Z :=
  let c := bz b in
  if (48 <=? c) && (c <=? 57) then Some (c - 48)
  else if (97 <=? c) && (c <=? 122) then Some (c - 87)
  else if (65 <=? c) && (c <=? 90) then Some (c - 55)
  else None.

Definition ErrSyntax : error := Errorf "strconv.ParseUint: invalid syntax" [].
Definition ErrRange : error := Errorf "strconv.ParseUint: value out of range" [].

Fixpoint parse_uint_go (base maxVal acc : Z) (l : bytes) : res Z :=
  match l with
  | [] => Ok acc
  | b :: l' =>
      match digit_val b with
      | None => Err ErrSyntax
      | Some d =>
          if base <=? d then Err ErrSyntax
          else let n := acc * base + d in
               if maxVal <? n then Err ErrRange else parse_uint_go base maxVal n l'
      end
  end.

(** [strconv.ParseUint(s, base, bits)] for the bases 10 and 16. *)
Definition ParseUint (l : bytes) (base bits : Z) : res Z :=
  match l with
  | [] => Err ErrSyntax
  | _ => parse_uint_go base (2 ^ bits - 1) 0 l
  end.

(** [strconv.Atoi]: a sign and the range of an [int]. *)
Definition Atoi (l : bytes) : option Z :=
  let digits l := match ParseUint l 10 64 with Ok z => Some z | Err _ => None end in
  let in_range z := if (- 2 ^ 63 <=? z) && (z <? 2 ^ 63) then Some z else None in
  match l with
  | "-"%byte :: l' => z ← digits l'; in_range (- z)
  | "+"%byte :: l' => z ← digits l'; in_range z
  | _ => z ← digits l; in_range z
  end.

(** [strconv.Atoi], or [ParseInt] in base 10 and 64 bits, without its error: a number
    out of range gives the nearest one, and other text 0. *)
Definition Atoi_nearest (l : bytes) : Z :=
  match Atoi l with
  | Some n => n
  | None =>
      let '(neg, digits) := match l with "-"%byte :: l => (true, l) | "+"%byte :: l => (false, l) | _ => (false, l) end in
      if bool_decide (digits = []) || negb (forallb (λ b, (48 <=? bz b) && (bz b <=? 57)) digits) then 0
      else if neg then - 2 ^ 63 else 2 ^ 63 - 1
  end.

Definition hex_val (b : byte) : option Z :=
  match digit_val b with Some d => if d <? 16 then Some d else None | None => None end.

(** [hex.DecodeString]. *)
Fixpoint DecodeString (l : bytes) : res bytes :=
  match l with
  | [] => Ok []
  | [b] => match hex_val b with
           | None => Err (Errorf "encoding/hex: invalid byte" [bz b])
           | Some _ => Err (Errorf "encoding/hex: odd length hex string" [])
           end
  | b1 :: b2 :: l' =>
      match hex_val b1 with
      | None => Err (Errorf "encoding/hex: invalid byte" [bz b1])
      | Some h =>
          match hex_val b2 with
          | None => Err (Errorf "encoding/hex: invalid byte" [bz b2])
          | Some d => r ← DecodeString l'; Ok (zb (16 * h + d) :: r)
          end
      end
  end.

(** ** The runes of a string ([for _, r := range s]) *)
Definition RuneError : Z := 0xFFFD.
Definition in_range (b : byte) (lo hi : Z) : bool := (lo <=? bz b) && (bz b <=? hi).

Fixpoint runes (l : bytes) : list Z :=
  match l with
  | [] => []
  | b0 :: l0 =>
      let c := bz b0 in
      if c <? 0x80 then c :: runes l0
      else if (0xC2 <=? c) && (c <=? 0xDF) then
        match l0 with
        | b1 :: l1 =>
            if in_range b1 0x80 0xBF then (Z.land c 0x1F * 64 + Z.land (bz b1) 0x3F) :: runes l1
            else RuneError :: runes l0
        | [] => [RuneError]
        end
      else if (0xE0 <=? c) && (c <=? 0xEF) then
        match l0 with
        | b1 :: b2 :: l2 =>
            if in_range b1 (if c =? 0xE0 then 0xA0 else 0x80) (if c =? 0xED then 0x9F else 0xBF)
               && in_range b2 0x80 0xBF
            then (Z.land c 0x0F * 4096 + Z.land (bz b1) 0x3F * 64 + Z.land (bz b2) 0x3F) :: runes l2
            else RuneError :: runes l0
        | _ => RuneError :: runes l0
        end
      else if (0xF0 <=? c) && (c <=? 0xF4) then
        match l0 with
        | b1 :: b2 :: b3 :: l3 =>
            if in_range b1 (if c =? 0xF0 then 0x90 else 0x80) (if c =? 0xF4 then 0x8F else 0xBF)
               && in_range b2 0x80 0xBF && in_range b3 0x80 0xBF
            then (Z.land c 0x07 * 262144 + Z.land (bz b1) 0x3F * 4096
                  + Z.land (bz b2) 0x3F * 64 + Z.land (bz b3) 0x3F) :: runes l3
            else RuneError :: runes l0
        | _ => RuneError :: runes l0
        end
      else RuneError :: runes l0
  end.

(** ** Lemmas: fixed-width hexadecimal *)
Lemma pow16_succ (w : nat) : 16 ^ Z.of_nat (S w) = 16 * 16 ^ Z.of_nat w.
Proof. rewrite Nat2Z.inj_succ, Z.pow_succ_r by lia. done. Qed.

Lemma length_hex_fix w z : length (hex_fix w z) = w.
Proof. revert z. induction w; intros z; simpl; [done|]. rewrite length_app, IHw. simpl. lia. Qed.

Lemma hex_fix_0 w : hex_fix w 0 = replicate w "0"%byte.
Proof.
  induction w as [|w IH]; [done|]. cbn [hex_fix]. rewrite Z.div_0_l, IH by lia.
  change (hex_char (0 mod 16)) with "0"%byte. change [_] with (replicate 1 "0"%byte).
  rewrite <-replicate_add. by rewrite Nat.add_comm.
Qed.

Lemma pad0_snoc w l c : (length l ≤ w)%nat → pad0 (S w) (l ++ [c]) = pad0 w l ++ [c].
Proof.
  intros Hl. unfold pad0. rewrite length_app. simpl.
  replace (S w - (length l + 1))%nat with (w - length l)%nat by lia. by rewrite app_assoc.
Qed.

Lemma length_hex_digits fuel w z :
  (0 < w)%nat → 0 ≤ z < 16 ^ Z.of_nat w → (length (hex_digits fuel z) ≤ w)%nat.
Proof.
  revert w z. induction fuel as [|f IH]; intros w z Hw Hz; cbn [hex_digits]; [simpl; lia|].
  destruct (Z.ltb_spec z 16); [simpl; lia|].
  destruct w as [|[|w]]; [lia| |].
  { change (16 ^ Z.of_nat 1) with 16 in Hz. lia. }
  rewrite pow16_succ in Hz. rewrite length_app; simpl.
  specialize (IH (S w) (z / 16) ltac:(lia)).
  assert (0 ≤ z / 16 < 16 ^ Z.of_nat (S w)).
  { split; [apply Z.div_pos; lia|]. apply Z.div_lt_upper_bound; lia. }
  specialize (IH ltac:(done)). lia.
Qed.

Lemma pad0_hex_digits fuel w z :
  (0 < w ≤ fuel)%nat → 0 ≤ z < 16 ^ Z.of_nat w → pad0 w (hex_digits fuel z) = hex_fix w z.
Proof.
  revert fuel z. induction w as [|w IH]; intros fuel z Hw Hz; [lia|].
  destruct fuel as [|f]; [lia|]. cbn [hex_digits hex_fix].
  destruct (Z.ltb_spec z 16).
  - rewrite Z.div_small, Z.mod_small by lia. rewrite hex_fix_0. unfold pad0. simpl.
    by rewrite Nat.sub_0_r.
  - destruct w as [|w].
    { change (16 ^ Z.of_nat 1) with 16 in Hz. lia. }
    assert (0 ≤ z / 16 < 16 ^ Z.of_nat (S w)).
    { rewrite pow16_succ in Hz. split; [apply Z.div_pos; lia|]. apply Z.div_lt_upper_bound; lia. }
    rewrite pad0_snoc by (apply length_hex_digits; [lia|done]).
    by rewrite IH by (done || lia).
Qed.

(** A value that fits its field prints at the field's width. *)
Lemma fmtX_fix w z : (0 < w ≤ 16)%nat → 0 ≤ z < 16 ^ Z.of_nat w → fmtX w z = hex_fix w z.
Proof.
  intros Hw Hz. unfold fmtX. destruct (Z.ltb_spec z 0); [lia|].
  by apply pad0_hex_digits.
Qed.

Lemma hex_char_digits d : 0 ≤ d < 16 →
  digit_val (hex_char d) = Some d ∧ digit_val (hex_char_lower d) = Some d.
Proof.
  intros Hd.
  pose proof (range_check (λ d, bool_decide (digit_val (hex_char d) = Some d) &&
    bool_decide (digit_val (hex_char_lower d) = Some d)) 16 eq_refl d Hd) as H.
  apply andb_prop in H as [H1%bool_decide_eq_true H2%bool_decide_eq_true]. done.
Qed.

Lemma digit_val_hex_char d : 0 ≤ d < 16 → digit_val (hex_char d) = Some d.
Proof. intros. by apply hex_char_digits. Qed.

Lemma parse_uint_go_app base maxVal acc l1 l2 :
  parse_uint_go base maxVal acc (l1 ++ l2) =
  (a ← parse_uint_go base maxVal acc l1; parse_uint_go base maxVal a l2).
Proof.
  revert acc. induction l1 as [|b l1 IH]; intros acc; [done|]. cbn [app parse_uint_go].
  destruct (digit_val b) as [d|]; [|done]. destruct (base <=? d); [done|].
  cbv zeta. destruct (maxVal <? _); [done|]. apply IH.
Qed.

Lemma parse_uint_go_hex_fix maxVal w z :
  0 ≤ z < 16 ^ Z.of_nat w → z ≤ maxVal → parse_uint_go 16 maxVal 0 (hex_fix w z) = Ok z.
Proof.
  revert z. induction w as [|w IH]; intros z Hz Hm.
  - simpl in *. f_equal. lia.
  - cbn [hex_fix]. rewrite parse_uint_go_app, pow16_succ in *.
    assert (z / 16 < 16 ^ Z.of_nat w) by (apply Z.div_lt_upper_bound; lia).
    assert (0 ≤ z / 16) by (apply Z.div_pos; lia).
    pose proof (Z.mod_pos_bound z 16 ltac:(lia)). pose proof (Z.div_mod z 16 ltac:(lia)).
    rewrite IH by lia. cbn [mbind result_bind parse_uint_go].
    rewrite digit_val_hex_char by lia.
    destruct (Z.leb_spec 16 (z mod 16)); [lia|]. cbv zeta.
    destruct (Z.ltb_spec maxVal (z / 16 * 16 + z mod 16)); [lia|]. f_equal. lia.
Qed.

(** Parsing a fixed-width field gives back its value. *)
Lemma ParseUint_hex_fix w bits z :
  (0 < w)%nat → 0 ≤ z < 16 ^ Z.of_nat w → z < 2 ^ bits → ParseUint (hex_fix w z) 16 bits = Ok z.
Proof.
  intros Hw Hz Hb. unfold ParseUint. pose proof (length_hex_fix w z).
  destruct (hex_fix w z) as [|b l] eqn:E; [simpl in *; lia|].
  rewrite <-E. apply parse_uint_go_hex_fix; lia.
Qed.

Lemma parse_uint_go_range base maxVal acc l z :
  0 ≤ base → 0 ≤ acc ≤ maxVal → parse_uint_go base maxVal acc l = Ok z → 0 ≤ z ≤ maxVal.
Proof.
  intros Hbase. revert acc. induction l as [|b l IH]; intros acc Hacc H; cbn [parse_uint_go] in H.
  - by inv_result.
  - destruct (digit_val b) as [d|] eqn:Hd; [|done].
    assert (0 ≤ d). { unfold digit_val in Hd. repeat case_in Hd; lia. }
    destruct (base <=? d); [done|]. cbv zeta in H.
    destruct (Z.ltb_spec maxVal (acc * base + d)); [done|]. eapply IH; [|done]. nia.
Qed.

Lemma ParseUint_range l base bits z :
  0 ≤ base → 0 ≤ bits → ParseUint l base bits = Ok z → 0 ≤ z < 2 ^ bits.
Proof.
  intros Hb Hbits H. unfold ParseUint in H. destruct l; [done|].
  apply parse_uint_go_range in H; [lia|done|]. assert (0 < 2 ^ bits) by lia. lia.
Qed.

(** ** Lemmas: encoded byte strings *)
Lemma upper_hex_char_lower d : 0 ≤ d < 16 → upper_byte (hex_char_lower d) = hex_char d.
Proof.
  intros Hd.
  pose proof (range_check (λ d, bool_decide (upper_byte (hex_char_lower d) = hex_char d))
    16 eq_refl d Hd) as H. by apply bool_decide_eq_true in H.
Qed.

Lemma byte_nibbles b : 0 ≤ bz b / 16 < 16 ∧ 0 ≤ bz b mod 16 < 16.
Proof.
  pose proof (bz_range b). split; [|apply Z.mod_pos_bound; lia].
  split; [apply Z.div_pos; lia|apply Z.div_lt_upper_bound; lia].
Qed.

Lemma hex_val_char d : 0 ≤ d < 16 →
  hex_val (hex_char d) = Some d ∧ hex_val (hex_char_lower d) = Some d.
Proof.
  intros Hd. unfold hex_val. destruct (hex_char_digits d Hd) as [-> ->].
  destruct (Z.ltb_spec d 16); [done|lia].
Qed.

Lemma ToUpper_app l1 l2 : ToUpper (l1 ++ l2) = ToUpper l1 ++ ToUpper l2.
Proof. apply fmap_app. Qed.

Lemma ToUpper_Encode_cons b l :
  ToUpper (EncodeToString (b :: l)) =
  hex_char (bz b / 16) :: hex_char (bz b mod 16) :: ToUpper (EncodeToString l).
Proof.
  destruct (byte_nibbles b). change (EncodeToString (b :: l)) with
    ([hex_char_lower (bz b / 16); hex_char_lower (bz b mod 16)] ++ EncodeToString l).
  rewrite ToUpper_app. unfold ToUpper at 1. cbn. by rewrite !upper_hex_char_lower.
Qed.

Lemma length_ToUpper l : length (ToUpper l) = length l.
Proof. apply length_fmap. Qed.

Lemma length_EncodeToString l : length (EncodeToString l) = (2 * length l)%nat.
Proof. induction l as [|b l IH]; [done|]. change (EncodeToString (b :: l)) with
    ([hex_char_lower (bz b / 16); hex_char_lower (bz b mod 16)] ++ EncodeToString l).
  rewrite length_app, IH. simpl. lia.
Qed.

(** [hex.DecodeString(strings.ToUpper(hex.EncodeToString(data)))] is [data]. *)
Lemma Decode_upper_Encode l : DecodeString (ToUpper (EncodeToString l)) = Ok l.
Proof.
  induction l as [|b l IH]; [done|]. rewrite ToUpper_Encode_cons. cbn [DecodeString].
  destruct (byte_nibbles b).
  rewrite (proj1 (hex_val_char (bz b / 16) ltac:(done))).
  rewrite (proj1 (hex_val_char (bz b mod 16) ltac:(done))).
  rewrite IH. cbn. f_equal. f_equal. rewrite <-(zb_bz b) at 3. f_equal.
  symmetry. apply Z.div_mod. lia.
Qed.

#[export] Hint Rewrite length_hex_fix length_ToUpper length_EncodeToString : mecom_len.

(** ** Lemmas: prefixes, suffixes and case *)
Lemma Split_none c l : c ∉ l → SplitByte c l = [l].
Proof.
  induction l as [|a l IH]; simpl; [done|]. intros [Ha Hl]%not_elem_of_cons.
  rewrite bool_decide_false by congruence. by rewrite IH.
Qed.
Lemma Split_first c p l : c ∉ p → SplitByte c (p ++ c :: l) = p :: SplitByte c l.
Proof.
  induction p as [|b p IH]; cbn [SplitByte app]; [by rewrite bool_decide_eq_true_2|].
  intros [Hb Hp]%not_elem_of_cons. rewrite bool_decide_eq_false_2 by congruence. by rewrite IH.
Qed.
Lemma Split_Join c parts : parts ≠ [] → Forall (λ p, c ∉ p) parts → SplitByte c (JoinByte c parts) = parts.
Proof.
  intros Hne. induction 1 as [|p parts Hp Hps IH]; [done|]. destruct parts as [|p' parts]; [by apply Split_none|].
  change (JoinByte c (p :: p' :: parts)) with (p ++ c :: JoinByte c (p' :: parts)).
  rewrite Split_first by done. by rewrite IH.
Qed.
Lemma HasPrefix_app p l : HasPrefix (p ++ l) p = true.
Proof. unfold HasPrefix. rewrite take_app_length. by apply bool_decide_true. Qed.

Lemma HasPrefix_head b c l p : b ≠ c → HasPrefix (b :: l) (c :: p) = false.
Proof. intros Hne. unfold HasPrefix. apply bool_decide_eq_false_2. cbn [length take]. by intros [= ->]. Qed.
Lemma HasPrefix_inv l p : HasPrefix l p = true → l = p ++ drop (length p) l.
Proof. unfold HasPrefix. intros H%bool_decide_eq_true. rewrite <-H at 1. by rewrite take_drop. Qed.

Lemma HasPrefix_true l p : HasPrefix l p = true ↔ ∃ q, l = p ++ q.
Proof. split; [intros H; eexists; by apply HasPrefix_inv|intros [q ->]; apply HasPrefix_app]. Qed.
Lemma contains_true sub l : contains sub l = true ↔ ∃ p q, l = p ++ sub ++ q.
Proof.
  induction l as [|b l IH]; cbn [contains].
  - rewrite bool_decide_eq_true. split; [intros ->; by exists [], []|]. intros (p & q & E). symmetry in E.
    apply app_nil in E as [_ E]. by apply app_nil in E as [-> _].
  - rewrite orb_true_iff, HasPrefix_true, IH. split.
    + intros [(q & E)|(p & q & E)]; [by exists [], q|]. exists (b :: p), q. by rewrite E.
    + intros ([|c p] & q & E); [left; by exists q|]. right. injection E as _ E. by exists p, q.
Qed.
Lemma TrimSuffix_snoc l b : TrimSuffix (l ++ [b]) [b] = l.
Proof.
  unfold TrimSuffix, HasSuffix. rewrite (lastn_app l [b]), bool_decide_true by done.
  apply (droplast_app l [b]).
Qed.

Lemma TrimSuffix_other l b c : b ≠ c → TrimSuffix (l ++ [c]) [b] = l ++ [c].
Proof.
  intros Hne. unfold TrimSuffix, HasSuffix. change (length [b]) with (length [c]).
  rewrite lastn_app, bool_decide_false by congruence. done.
Qed.

Lemma TrimSpace_keep b l c :
  is_space b = false → is_space c = false → TrimSpace (b :: l ++ [c]) = b :: l ++ [c].
Proof.
  intros Hb Hc. unfold TrimSpace, trim_right. cbn [trim_left]. rewrite Hb.
  assert (reverse (b :: l ++ [c]) = c :: reverse l ++ [b]) as ->
    by (by rewrite reverse_cons, reverse_app).
  cbn [trim_left]. rewrite Hc. by rewrite reverse_cons, reverse_app, reverse_involutive.
Qed.

Lemma trim_left_spaces s l : Forall (λ b, is_space b = true) s → trim_left (s ++ l) = trim_left l.
Proof. induction 1 as [|b s Hb _ IH]; [done|]. cbn [app trim_left]. by rewrite Hb. Qed.

(** Leading or trailing white space does not survive [TrimSpace]. *)
Lemma TrimSpace_snoc_space l b : is_space b = true → TrimSpace (l ++ [b]) = TrimSpace l.
Proof.
  intros Hb. unfold TrimSpace.
  assert (Hl : trim_left (l ++ [b]) = [] ∧ trim_left l = [] ∨
          trim_left (l ++ [b]) = trim_left l ++ [b]).
  { induction l as [|a l IH]; cbn [app trim_left]; [rewrite Hb; by left|].
    destruct (is_space a); [done|by right]. }
  destruct Hl as [[-> ->]| ->]; [done|].
  unfold trim_right. rewrite reverse_app. cbn. by rewrite Hb.
Qed.

Lemma trim_left_head l b t : trim_left l = b :: t → is_space b = false.
Proof. induction l as [|a l IH]; [done|]. cbn [trim_left]. destruct (is_space a) eqn:E; [done|]. by intros [= <- _]. Qed.
Lemma trim_left_snoc l b : is_space b = false → ∃ u, trim_left (l ++ [b]) = u ++ [b].
Proof.
  intros Hb. induction l as [|a l IH]; cbn [app trim_left]; [rewrite Hb; by exists []|].
  destruct (is_space a); [done|]. by exists (a :: l).
Qed.
Lemma trim_left_idem l : trim_left (trim_left l) = trim_left l.
Proof.
  destruct (trim_left l) as [|b t] eqn:E; [done|]. apply trim_left_head in E. cbn [trim_left]. by rewrite E.
Qed.
Lemma TrimSpace_idem l : TrimSpace (TrimSpace l) = TrimSpace l.
Proof.
  unfold TrimSpace at 1 2 3. destruct (trim_left l) as [|b t] eqn:E; [done|]. apply trim_left_head in E as Hb.
  unfold trim_right at 2 3. rewrite reverse_cons. destruct (trim_left_snoc (reverse t) b Hb) as [u Hu]. rewrite Hu.
  rewrite reverse_snoc. cbn [trim_left]. rewrite Hb. unfold trim_right. rewrite reverse_cons, reverse_involutive.
  rewrite <-Hu, trim_left_idem, Hu. by rewrite reverse_snoc.
Qed.

(** ** The order of texts *)
Lemma bytes_ltb_irrefl a : bytes_ltb a a = false.
Proof. induction a as [|x a IH]; simpl; [done|]. by rewrite Z.eqb_refl. Qed.

(** Negative transitivity: what is not before the middle cannot be before the end. *)
Lemma bytes_ltb_split a b c : bytes_ltb a c = true → bytes_ltb a b = true ∨ bytes_ltb b c = true.
Proof.
  revert b c. induction a as [|x a IH]; intros [|y b] [|z c]; simpl; auto; try discriminate.
  destruct (Z.eqb_spec (bz x) (bz z)); destruct (Z.eqb_spec (bz x) (bz y));
    destruct (Z.eqb_spec (bz y) (bz z)); try lia; [by apply IH|..]; intros H;
    rewrite ?Z.ltb_lt in *; lia.
Qed.

Lemma bytes_ltb_asym a b : bytes_ltb a b = true → bytes_ltb b a = false.
Proof.
  revert b. induction a as [|x a IH]; intros [|y b]; simpl; try done.
  rewrite Z.eqb_sym. destruct (Z.eqb_spec (bz y) (bz x)); [apply IH|].
  rewrite Z.ltb_lt, Z.ltb_ge. lia.
Qed.

Lemma bytes_ltb_total a b : bytes_ltb a b = false → bytes_ltb b a = false → a = b.
Proof.
  revert b. induction a as [|x a IH]; intros [|y b]; simpl; try done.
  rewrite (Z.eqb_sym (bz y)). destruct (Z.eqb_spec (bz x) (bz y)) as [E|]; [|rewrite !Z.ltb_ge; lia].
  intros Ha Hb. f_equal; [by apply (inj bz)|by apply IH].
Qed.
Lemma bytes_ltb_trans a b c : bytes_ltb a b = true → bytes_ltb b c = true → bytes_ltb a c = true.
Proof.
  intros Hab Hbc. destruct (bytes_ltb_split _ c _ Hab) as [H|H]; [done|]. by rewrite (bytes_ltb_asym _ _ Hbc) in H.
Qed.
