(* ===== verification/Floats.v ===== *)
(** * Floats: the float32 and float64 values of the program

    A Go float is an IEEE value of [SpecFloat]: sign, mantissa and exponent,
    with one NaN (payloads are not modelled).  [to_f64] and [to_f32] are the
    conversions [float64(x)] and [float32(x)], [Float32frombits] and
    [Float32bits] those of package [math], [of_int] and [to_int] the conversions
    between integers and floats. *)
From stdpp Require Import prelude.
From Stdlib Require Import Floats.SpecFloat.
From S2P Require Import Prelude.
Open Scope Z_scope.

Abbreviation f64 := spec_float.
Abbreviation f32 := spec_float.

Global Instance spec_float_eq_dec : EqDecision spec_float.
Proof. solve_decision. Defined.

Definition valid32 (f : f32) : bool := valid_binary 24 128 f.
Definition valid64 (f : f64) : bool := valid_binary 53 1024 f.

(** ** Bits *)
Definition Float32frombits (u : Z) : f32 :=
  let s := 2 ^ 31 <=? u mod 2 ^ 32 in
  let e := (u / 2 ^ 23) mod 256 in
  let m := u mod 2 ^ 23 in
  if e =? 255 then (if m =? 0 then S754_infinity s else S754_nan)
  else if e =? 0 then
    match m with Z.pos p => S754_finite s p (-149) | _ => S754_zero s end
  else match m + 2 ^ 23 with Z.pos p => S754_finite s p (e - 150) | _ => S754_zero s end.

Definition sign_bit (s : bool) : Z := if s then 2 ^ 31 else 0.

Definition Float32bits (f : f32) : Z :=
  match f with
  | S754_zero s => sign_bit s
  | S754_infinity s => sign_bit s + 255 * 2 ^ 23
  | S754_nan => 0x7FC00000
  | S754_finite s m e =>
      if Z.pos m <? 2 ^ 23 then sign_bit s + Z.pos m
      else sign_bit s + (e + 150) * 2 ^ 23 + (Z.pos m - 2 ^ 23)
  end.

(** ** Conversions *)
Definition convert (prec emax : Z) (f : spec_float) : spec_float :=
  match f with
  | S754_finite s m e => binary_round prec emax s m e
  | _ => f
  end.
Definition to_f64 (f : f32) : f64 := convert 53 1024 f.
Definition to_f32 (f : f64) : f32 := convert 24 128 f.

Definition of_int (z : Z) : f64 := binary_normalize 53 1024 z 0 false.

(** Truncation towards zero; the infinities and NaN have no integer value (Go
    leaves the conversion to the machine) and are given 0 here. *)
Definition to_int (f : f64) : Z :=
  match f with
  | S754_finite s m e =>
      let a := if 0 <=? e then Z.pos m * 2 ^ e else Z.pos m / 2 ^ (- e) in
      if s then - a else a
  | _ => 0
  end.

Definition is_nan (f : f64) : bool := match f with S754_nan => true | _ => false end.
Definition is_inf (f : f64) : bool := match f with S754_infinity _ => true | _ => false end.

(** [float32] equality as Go's [==] decides it: NaN differs from itself and the
    two zeros are equal. *)
Definition feq (a b : f64) : bool := SFeqb a b.

(** [math.Round]: to the nearest integer, halves away from zero. *)
Definition Round (v : f64) : f64 :=
  match v with
  | S754_finite s m e =>
      if 0 <=? e then v
      else let a := (Z.pos m + 2 ^ (- e - 1)) / 2 ^ (- e) in of_int (if s then - a else a)
  | _ => v
  end.
(** A conversion to [int32] or [int] that does not fit is what amd64 makes of it. *)
Definition int32_of_float (v : f64) : Z :=
  if is_nan v || is_inf v then - 2 ^ 31
  else let z := to_int v in if (- 2 ^ 31 <=? z) && (z <? 2 ^ 31) then z else - 2 ^ 31.

(** ** Arithmetic of [float64] *)
Definition fadd (a b : f64) : f64 := SFadd 53 1024 a b.
Definition fsub (a b : f64) : f64 := SFsub 53 1024 a b.
Definition fmul (a b : f64) : f64 := SFmul 53 1024 a b.
Definition fdiv (a b : f64) : f64 := SFdiv 53 1024 a b.
(** The float nearest to [n / d]: a decimal constant of the program. *)
Definition decimal (n d : Z) : f64 := fdiv (of_int n) (of_int d).
(** [math.Max] and [math.Min], for a positive first argument. *)
Definition fmax (a b : f64) : f64 := if is_nan b then S754_nan else if SFltb a b then b else a.
Definition fmin (a b : f64) : f64 := if is_nan b then S754_nan else if SFltb b a then b else a.

(** The order of the floats; NaN is neither below nor above anything. *)
Lemma SFltb_trans a b c : SFltb a b = true → SFltb b c = true → SFltb a c = true.
Proof.
  unfold SFltb, SFcompare.
  destruct a as [[]|[]| |[] ma ea], b as [[]|[]| |[] mb eb], c as [[]|[]| |[] mc ec]; try done.
  all: destruct (ea ?= eb) eqn:E1, (eb ?= ec) eqn:E2; try done;
    try (apply Z.compare_eq in E1 as ->); try (apply Z.compare_eq in E2 as ->); rewrite ?Z.compare_refl, ?E1, ?E2; try done.
  all: change (Pos.compare_cont Eq) with Pos.compare.
  all: try (rewrite Z.compare_lt_iff in E1; rewrite Z.compare_lt_iff in E2);
    try (rewrite Z.compare_gt_iff in E1; rewrite Z.compare_gt_iff in E2).
  all: try (destruct (Pos.compare_spec ma mb), (Pos.compare_spec mb mc), (Pos.compare_spec ma mc); (done || lia)).
  all: intros _ _; destruct (Z.compare_spec ea ec); first [done|exfalso; lia].
Qed.

Lemma SFltb_irrefl a : SFltb a a = true → False.
Proof. unfold SFltb, SFcompare. destruct a as [[]|[]| |[] m e]; try done; rewrite Z.compare_refl; change (Pos.compare_cont Eq m m) with (m ?= m)%positive; by rewrite Pos.compare_refl. Qed.

(** Comparisons of numbers. *)
Lemma compare_swap a b : is_nan a = false → is_nan b = false → SFcompare b a = CompOpp <$> SFcompare a b.
Proof.
  destruct a as [[]|[]| |[] m e], b as [[]|[]| |[] m' e']; try done; intros _ _; unfold SFcompare; change (?f <$> Some ?x) with (Some (f x));
    try done; rewrite (Z.compare_antisym e e'); destruct (e ?= e'); cbn [CompOpp]; try done;
    change (Pos.compare_cont Eq ?x ?y) with (Pos.compare x y); rewrite (Pos.compare_antisym m m'); by destruct (m ?= m')%positive.
Qed.
Lemma compare_some a b : is_nan a = false → is_nan b = false → ∃ c, SFcompare a b = Some c.
Proof. by destruct a as [[]|[]| |[] m e], b as [[]|[]| |[] m' e']; try done; intros _ _; eexists. Qed.
Lemma not_leb_ltb a b : is_nan b = false → SFleb a b = false → is_nan a = true ∨ SFltb b a = true.
Proof.
  intros Hb H. destruct (is_nan a) eqn:Ha; [by left|right]. unfold SFltb, SFleb in *. rewrite compare_swap by done.
  destruct (compare_some a b Ha Hb) as [[] E]; by rewrite E in *.
Qed.
Lemma not_ltb_leb a b : is_nan a = false → SFltb a b = false → is_nan b = true ∨ SFleb b a = true.
Proof.
  intros Ha H. destruct (is_nan b) eqn:Hb; [by left|right]. unfold SFltb, SFleb in *. rewrite compare_swap by done.
  destruct (compare_some a b Ha Hb) as [[] E]; by rewrite E in *.
Qed.
Lemma ltb_not_leb a b : SFltb b a = true → SFleb a b = false.
Proof.
  intros H. destruct (is_nan a) eqn:Ha; [by destruct a|]. destruct (is_nan b) eqn:Hb; [by destruct b, a|].
  unfold SFltb, SFleb in *. rewrite compare_swap in H by done. by destruct (SFcompare a b) as [[]|].
Qed.
Lemma leb_not_ltb a b : SFleb b a = true → SFltb a b = false.
Proof.
  intros H. destruct (SFltb a b) eqn:E; [|done]. apply ltb_not_leb in E. congruence.
Qed.
Lemma nan_leb a b : is_nan a = true → SFleb a b = false.
Proof. by destruct a. Qed.
Lemma nan_ltb a b : is_nan b = true → SFltb a b = false.
Proof. destruct b; try done. by destruct a as [[]|[]| |[] ? ?]. Qed.

(** ** Digits *)
Lemma digits2_pos_bounds m :
  2 ^ (Z.pos (digits2_pos m) - 1) ≤ Z.pos m < 2 ^ Z.pos (digits2_pos m).
Proof.
  induction m as [m IH|m IH|]; cbn [digits2_pos]; [| |simpl; lia];
    rewrite Pos2Z.inj_succ;
    replace (Z.succ (Z.pos (digits2_pos m)) - 1) with (Z.succ (Z.pos (digits2_pos m) - 1)) by lia;
    rewrite !Z.pow_succ_r by lia; lia.
Qed.

Lemma digits2_pos_le m n : Z.pos m < 2 ^ n → 0 ≤ n → Z.pos (digits2_pos m) ≤ n.
Proof.
  intros Hm Hn. destruct (digits2_pos_bounds m) as [Hl _].
  destruct (decide (Z.pos (digits2_pos m) ≤ n)) as [|Hgt]; [done|].
  assert (2 ^ n ≤ 2 ^ (Z.pos (digits2_pos m) - 1)) by (apply Z.pow_le_mono_r; lia). lia.
Qed.

Lemma digits2_pos_ge m n : 2 ^ n ≤ Z.pos m → n < Z.pos (digits2_pos m).
Proof.
  intros Hm. destruct (digits2_pos_bounds m) as [_ Hu].
  destruct (decide (n < Z.pos (digits2_pos m))) as [|Hle]; [done|].
  assert (2 ^ Z.pos (digits2_pos m) ≤ 2 ^ n) by (apply Z.pow_le_mono_r; lia). lia.
Qed.

Lemma digits_shift m p :
  Z.pos (digits2_pos (Pos.iter xO m p)) = Z.pos (digits2_pos m) + Z.pos p.
Proof.
  induction p as [|p IH] using Pos.peano_ind; [simpl; lia|].
  rewrite Pos.iter_succ. cbn [digits2_pos]. rewrite Pos2Z.inj_succ, IH. lia.
Qed.

Lemma shift_value m p : Z.pos (Pos.iter xO m p) = Z.pos m * 2 ^ Z.pos p.
Proof.
  induction p as [|p IH] using Pos.peano_ind; [simpl; lia|].
  rewrite Pos.iter_succ, Pos2Z.inj_xO, IH, Pos2Z.inj_succ, Z.pow_succ_r by lia. lia.
Qed.

(** ** Rounding an exactly representable value *)
Lemma iter_pos_iter {A} (f : A → A) n x : iter_pos f n x = Pos.iter f x n.
Proof.
  revert x. induction n as [n IH|n IH|]; intros x; cbn [iter_pos]; rewrite ?IH; [|done..].
  cbn [Pos.iter]. by rewrite <-!Pos.iter_swap.
Qed.

Lemma shr_shift m p :
  Pos.iter shr_1 (Build_shr_record (Z.pos (Pos.iter xO m p)) false false) p =
  Build_shr_record (Z.pos m) false false.
Proof.
  induction p as [|p IH] using Pos.peano_ind; [done|].
  rewrite Pos.iter_succ_r, Pos.iter_succ. exact IH.
Qed.

Lemma round_aux_canonical prec emax s m e :
  fexp prec emax (Z.pos (digits2_pos m) + e) = e → e ≤ emax - prec →
  binary_round_aux prec emax s (Z.pos m) e loc_Exact = S754_finite s m e.
Proof.
  intros Hf He. unfold binary_round_aux, shr_fexp. cbn [Zdigits2].
  rewrite Hf, Z.sub_diag. cbn. rewrite Hf, Z.sub_diag. cbn.
  by rewrite (proj2 (Z.leb_le _ _) He).
Qed.

Lemma round_aux_shift prec emax s m p e :
  fexp prec emax (Z.pos (digits2_pos m) + (e + Z.pos p)) = e + Z.pos p →
  e + Z.pos p ≤ emax - prec →
  binary_round_aux prec emax s (Z.pos (Pos.iter xO m p)) e loc_Exact =
  S754_finite s m (e + Z.pos p).
Proof.
  intros Hf He. unfold binary_round_aux at 1, shr_fexp at 1. cbn [Zdigits2].
  rewrite digits_shift.
  replace (Z.pos (digits2_pos m) + Z.pos p + e) with (Z.pos (digits2_pos m) + (e + Z.pos p)) by lia.
  rewrite Hf. replace (e + Z.pos p - e) with (Z.pos p) by lia.
  cbn [shr shr_record_of_loc]. rewrite iter_pos_iter, shr_shift.
  cbn. unfold shr_fexp. cbn [Zdigits2]. rewrite Hf, Z.sub_diag. cbn.
  by rewrite (proj2 (Z.leb_le _ _) He).
Qed.

Definition shift_by (m : positive) (k : Z) : positive :=
  match k with Z.pos p => Pos.iter xO m p | _ => m end.

Lemma shift_by_value m k : 0 ≤ k → Z.pos (shift_by m k) = Z.pos m * 2 ^ k.
Proof. intros. destruct k as [|p|p]; cbn [shift_by]; [lia|apply shift_value|lia]. Qed.

Lemma digits_shift_by m k : 0 ≤ k → Z.pos (digits2_pos (shift_by m k)) = Z.pos (digits2_pos m) + k.
Proof. intros. destruct k as [|p|p]; cbn [shift_by]; [lia|apply digits_shift|lia]. Qed.

(** A mantissa that fits the format is only realigned. *)
Lemma round_exact prec emax s m e :
  let e0 := fexp prec emax (Z.pos (digits2_pos m) + e) in
  e0 ≤ e → e0 ≤ emax - prec →
  binary_round prec emax s m e = S754_finite s (shift_by m (e - e0)) e0.
Proof.
  intros e0 He Hmax. unfold binary_round. fold e0. unfold shl_align.
  destruct (e0 - e) as [|p|p] eqn:Hd; [| lia |].
  - assert (e0 = e) as Heq by lia. rewrite Heq, Z.sub_diag. cbn [shift_by].
    apply round_aux_canonical; [exact Heq|lia].
  - replace (e - e0) with (Z.pos p) by lia. cbn [shift_by].
    apply round_aux_canonical; [|done]. rewrite digits_shift.
    replace (Z.pos (digits2_pos m) + Z.pos p + e0) with (Z.pos (digits2_pos m) + e) by lia. done.
Qed.

(** A mantissa padded with zero bits rounds back to its canonical form. *)
Lemma round_shifted prec emax s m k e :
  0 ≤ k → fexp prec emax (Z.pos (digits2_pos m) + e) = e → e ≤ emax - prec →
  binary_round prec emax s (shift_by m k) (e - k) = S754_finite s m e.
Proof.
  intros Hk Hf He. unfold binary_round. rewrite digits_shift_by by done.
  replace (Z.pos (digits2_pos m) + k + (e - k)) with (Z.pos (digits2_pos m) + e) by lia.
  rewrite Hf. unfold shl_align. replace (e - (e - k)) with k by lia.
  destruct k as [|p|p]; [| |lia]; cbn [shift_by].
  - rewrite Z.sub_0_r. by apply round_aux_canonical.
  - rewrite (round_aux_shift prec emax s m p (e - Z.pos p)); [f_equal; lia|..];
      replace (e - Z.pos p + Z.pos p) with e by lia; done.
Qed.

Lemma valid32_finite s m e : valid32 (S754_finite s m e) = true →
  fexp 24 128 (Z.pos (digits2_pos m) + e) = e ∧ -149 ≤ e ≤ 104 ∧ Z.pos (digits2_pos m) ≤ 24 ∧
  (e = -149 ∨ Z.pos (digits2_pos m) = 24).
Proof.
  unfold valid32, valid_binary, bounded, canonical_mantissa.
  intros [H1%Z.eqb_eq H2%Z.leb_le]%andb_prop. revert H1. unfold fexp, emin. lia.
Qed.

Lemma to_f64_finite s m e : valid32 (S754_finite s m e) = true →
  ∃ k, 0 ≤ k ∧ to_f64 (S754_finite s m e) = S754_finite s (shift_by m k) (e - k).
Proof.
  intros Hv. apply valid32_finite in Hv as (_ & He & Hd & _).
  assert (Hfe : fexp 53 1024 (Z.pos (digits2_pos m) + e) ≤ e ∧
          fexp 53 1024 (Z.pos (digits2_pos m) + e) ≤ 1024 - 53) by (unfold fexp, emin; lia).
  unfold to_f64, convert. rewrite round_exact by tauto.
  eexists (e - _). split; [|do 2 f_equal; lia]. lia.
Qed.

(** [float32(float64(x)) = x]: a float32 goes through float64 unchanged. *)
Lemma to_f32_to_f64 f : valid32 f = true → to_f32 (to_f64 f) = f.
Proof.
  destruct f as [s|s| |s m e]; [done..|]. intros Hv.
  destruct (to_f64_finite s m e Hv) as (k & Hk & ->). unfold to_f32, convert.
  apply valid32_finite in Hv as (Hf & He & _). apply round_shifted; [done|done|lia].
Qed.

(** ** Round trips with bits *)
Lemma Float32_bits_roundtrip f : valid32 f = true → Float32frombits (Float32bits f) = f.
Proof.
  destruct f as [[]|[]| |s m e]; [done..|]. intros Hv.
  apply valid32_finite in Hv as (_ & He & Hd & Hc).
  pose proof (digits2_pos_bounds m) as Hm.
  assert (Z.pos m < 2 ^ 24).
  { apply Z.lt_le_trans with (2 ^ Z.pos (digits2_pos m)); [tauto|]. apply Z.pow_le_mono_r; lia. }
  unfold Float32bits, sign_bit. destruct (Z.ltb_spec (Z.pos m) (2 ^ 23)) as [Hs|Hs].
  - assert (e = -149) as ->.
    { destruct Hc as [|Hc]; [done|]. rewrite Hc in Hm. simpl in Hm. lia. }
    unfold Float32frombits. destruct s.
    + assert (((2 ^ 31 + Z.pos m) / 2 ^ 23) mod 256 = 0) as -> by zdiv.
      replace ((2 ^ 31 + Z.pos m) mod 2 ^ 23) with (Z.pos m) by zdiv.
      by rewrite (proj2 (Z.leb_le _ _)) by zdiv.
    + rewrite Z.add_0_l, (Z.div_small (Z.pos m)) by lia.
      rewrite !(Z.mod_small (Z.pos m)) by lia. by rewrite (proj2 (Z.leb_gt _ _)) by lia.
  - assert (Hp : ∃ r, Z.pos m - 2 ^ 23 = r ∧ 0 ≤ r < 2 ^ 23) by (eexists; split; [done|lia]).
    destruct Hp as (r & Hr & Hr'). rewrite Hr. unfold Float32frombits.
    set (b := if s then 2 ^ 31 else 0).
    assert (Hb : (2 ^ 31 <=? (b + (e + 150) * 2 ^ 23 + r) mod 2 ^ 32) = s).
    { subst b. rewrite Z.mod_small by (destruct s; lia).
      destruct s; [apply Z.leb_le|apply Z.leb_gt]; lia. }
    assert (((b + (e + 150) * 2 ^ 23 + r) / 2 ^ 23) mod 256 = e + 150) as ->.
    { subst b. destruct s; zdiv. }
    assert ((b + (e + 150) * 2 ^ 23 + r) mod 2 ^ 23 = r) as -> by (subst b; destruct s; zdiv).
    rewrite Hb. destruct (Z.eqb_spec (e + 150) 255); [lia|]. destruct (Z.eqb_spec (e + 150) 0); [lia|].
    replace (r + 2 ^ 23) with (Z.pos m) by lia. f_equal. lia.
Qed.

Lemma Float32bits_range f : valid32 f = true → 0 ≤ Float32bits f < 2 ^ 32.
Proof.
  destruct f as [[]|[]| |s m e]; [vm_compute; intuition discriminate..|]. intros Hv.
  apply valid32_finite in Hv as (_ & He & Hd & _).
  pose proof (digits2_pos_bounds m) as Hm.
  assert (Z.pos m < 2 ^ 24).
  { apply Z.lt_le_trans with (2 ^ Z.pos (digits2_pos m)); [tauto|]. apply Z.pow_le_mono_r; lia. }
  unfold Float32bits, sign_bit. destruct (Z.ltb_spec (Z.pos m) (2 ^ 23)); destruct s; lia.
Qed.

Lemma Float32frombits_valid u : valid32 (Float32frombits u) = true.
Proof.
  unfold Float32frombits. pose proof (Z.mod_pos_bound u (2 ^ 23) ltac:(lia)).
  pose proof (Z.mod_pos_bound (u / 2 ^ 23) 256 ltac:(lia)).
  destruct (Z.eqb_spec ((u / 2 ^ 23) mod 256) 255).
  { by destruct (Z.eqb_spec (u mod 2 ^ 23) 0). }
  destruct (Z.eqb_spec ((u / 2 ^ 23) mod 256) 0).
  - destruct (u mod 2 ^ 23) as [|p|p] eqn:E; [done| |done].
    unfold valid32, valid_binary, bounded, canonical_mantissa, fexp, emin.
    pose proof (digits2_pos_le p 23 ltac:(lia) ltac:(lia)).
    apply andb_true_intro; split; [apply Z.eqb_eq|apply Z.leb_le]; lia.
  - destruct (u mod 2 ^ 23 + 2 ^ 23) as [|p|p] eqn:E; [done| |done].
    unfold valid32, valid_binary, bounded, canonical_mantissa, fexp, emin.
    pose proof (digits2_pos_le p 24 ltac:(lia) ltac:(lia)).
    pose proof (digits2_pos_ge p 23 ltac:(lia)).
    apply andb_true_intro; split; [apply Z.eqb_eq|apply Z.leb_le]; lia.
Qed.

(** ** Integers *)
Lemma of_int_to_int z : - 2 ^ 53 < z < 2 ^ 53 → to_int (of_int z) = z.
Proof.
  intros Hz. unfold of_int, binary_normalize.
  assert (Hpos : ∀ s p, Z.pos p < 2 ^ 53 →
    to_int (binary_round 53 1024 s p 0) = if s then Z.neg p else Z.pos p).
  { intros s p Hp. pose proof (digits2_pos_le p 53 Hp ltac:(lia)).
    assert (He : fexp 53 1024 (Z.pos (digits2_pos p) + 0) = Z.pos (digits2_pos p) - 53)
      by (unfold fexp, emin; lia).
    rewrite round_exact; rewrite He; [|lia..]. unfold to_int.
    set (k := 0 - (Z.pos (digits2_pos p) - 53)).
    rewrite shift_by_value by lia.
    assert (∀ a, (if 0 <=? Z.pos (digits2_pos p) - 53
             then Z.pos p * 2 ^ k * 2 ^ (Z.pos (digits2_pos p) - 53) else a) = a ∨
             k = 0 ∧ Z.pos (digits2_pos p) - 53 = 0) as Hcase.
    { intros a. destruct (Z.leb_spec 0 (Z.pos (digits2_pos p) - 53)); [right|left]; lia. }
    destruct (Hcase (Z.pos p * 2 ^ k / 2 ^ (- (Z.pos (digits2_pos p) - 53)))) as [->|[Hk Hd]].
    - replace (- (Z.pos (digits2_pos p) - 53)) with k by lia.
      rewrite Z.div_mul by (apply Z.pow_nonzero; lia). by destruct s.
    - rewrite Hk, Hd. simpl. rewrite Z.mul_1_r. destruct s; lia. }
  destruct z as [|p|p]; [done| |]; rewrite Hpos by lia; done.
Qed.

Lemma of_int_not_nan z : - 2 ^ 53 < z < 2 ^ 53 → is_nan (of_int z) = false.
Proof.
  intros Hz. unfold of_int, binary_normalize.
  assert (Hpos : ∀ s p, Z.pos p < 2 ^ 53 → is_nan (binary_round 53 1024 s p 0) = false).
  { intros s p Hp. pose proof (digits2_pos_le p 53 Hp ltac:(lia)).
    assert (He : fexp 53 1024 (Z.pos (digits2_pos p) + 0) = Z.pos (digits2_pos p) - 53)
      by (unfold fexp, emin; lia).
    rewrite round_exact; [done|rewrite He; lia..]. }
  destruct z as [|p|p]; [done|apply Hpos; lia|apply Hpos; lia].
Qed.
