(* ===== verification/Crc.v ===== *)
(** * Checksums

    [CRC16] is the routine of [mecom/protocol.go], shift by shift; [crc32] is
    [hash/crc32.ChecksumIEEE].  The lemmas relate [CRC16] to division of
    polynomials over GF(2): polynomials are the bits of an integer, addition is
    [Z.lxor]. *)
From stdpp Require Import prelude strings list.
From Stdlib Require Import Strings.Byte.
From S2P Require Import Prelude.
Open Scope Z_scope.

(** ** CRC-16-CCITT *)
Definition crc16_shift (crc : Z) : Z :=
  if Z.land crc 0x8000 =? 0 then u16 (Z.shiftl crc 1)
  else Z.lxor (u16 (Z.shiftl crc 1)) 0x1021.

Definition crc16_byte (crc : Z) (b : byte) : Z :=
  Nat.iter 8 crc16_shift (Z.lxor crc (u16 (Z.shiftl (bz b) 8))).

Definition CRC16 (data : bytes) : Z := fold_left crc16_byte data 0.

(** ** CRC-32 (IEEE, reflected) *)
Definition crc32_shift (crc : Z) : Z :=
  if Z.testbit crc 0 then Z.lxor (Z.shiftr crc 1) 0xEDB88320 else Z.shiftr crc 1.
Definition crc32_byte (crc : Z) (b : byte) : Z :=
  Nat.iter 8 crc32_shift (Z.lxor crc (bz b)).
Definition crc32 (data : bytes) : Z :=
  Z.lxor (fold_left crc32_byte data 0xFFFFFFFF) 0xFFFFFFFF.

(** ** The generator polynomial x^16 + x^12 + x^5 + 1 *)
Definition mul_gen (q : Z) : Z :=
  Z.lxor (Z.shiftl q 16) (Z.lxor (Z.shiftl q 12) (Z.lxor (Z.shiftl q 5) q)).

(** ** Bits *)
Lemma bits_small n z i : 0 ≤ z < 2 ^ n → n ≤ i → 0 ≤ n → Z.testbit z i = false.
Proof.
  intros Hz Hi Hn. destruct (decide (z = 0)) as [->|]; [apply Z.testbit_0_l|].
  apply Z.bits_above_log2; [lia|]. apply Z.log2_lt_pow2; [lia|].
  apply Z.lt_le_trans with (2 ^ n); [lia|]. apply Z.pow_le_mono_r; lia.
Qed.

Lemma small_of_bits n z :
  0 ≤ z → 0 ≤ n → (∀ i, n ≤ i → Z.testbit z i = false) → z < 2 ^ n.
Proof.
  intros Hz Hn H. destruct (decide (z < 2 ^ n)) as [|Hge]; [done|].
  assert (0 < z) by (assert (0 < 2 ^ n) by lia; lia).
  assert (n ≤ Z.log2 z) by (apply Z.log2_le_pow2; lia).
  specialize (H (Z.log2 z) ltac:(done)). rewrite Z.bit_log2 in H by lia. done.
Qed.

Lemma lxor_range n a b : 0 ≤ n → 0 ≤ a < 2 ^ n → 0 ≤ b < 2 ^ n → 0 ≤ Z.lxor a b < 2 ^ n.
Proof.
  intros Hn Ha Hb. assert (0 ≤ Z.lxor a b) by (apply Z.lxor_nonneg; lia).
  split; [done|]. apply small_of_bits; [done..|]. intros i Hi.
  rewrite Z.lxor_spec, (bits_small n a), (bits_small n b) by done. done.
Qed.

Lemma lxor_zero a b : Z.lxor a b = 0 → a = b.
Proof. apply Z.lxor_eq. Qed.

Lemma shiftl_lt n m z : 0 ≤ m ≤ n → 0 ≤ z < 2 ^ (n - m) → 0 ≤ Z.shiftl z m < 2 ^ n.
Proof.
  intros Hm Hz. rewrite Z.shiftl_mul_pow2 by lia.
  assert (2 ^ n = 2 ^ (n - m) * 2 ^ m) as -> by (rewrite <-Z.pow_add_r by lia; f_equal; lia). nia.
Qed.

(** ** One shift *)
Lemma crc16_shift_range r : 0 ≤ crc16_shift r < 2 ^ 16.
Proof.
  unfold crc16_shift. pose proof (u16_range (Z.shiftl r 1)).
  destruct (Z.land r 0x8000 =? 0); [done|]. apply lxor_range; lia.
Qed.

Lemma land_top r : (Z.land r 0x8000 =? 0) = negb (Z.testbit r 15).
Proof.
  destruct (Z.testbit r 15) eqn:E; simpl.
  - apply Z.eqb_neq. intros H0. apply (f_equal (λ z, Z.testbit z 15)) in H0.
    rewrite Z.land_spec, E in H0. done.
  - apply Z.eqb_eq, Z.bits_inj'. intros i Hi. rewrite Z.land_spec, Z.bits_0.
    change 0x8000 with (2 ^ 15). rewrite Z.pow2_bits_eqb by lia.
    destruct (Z.eqb_spec 15 i) as [<-|]; [by rewrite E|apply andb_false_r].
Qed.

(** A shift multiplies by x and subtracts the generator when x^16 appears. *)
Lemma crc16_shift_eq r : 0 ≤ r < 2 ^ 16 →
  crc16_shift r = Z.lxor (Z.shiftl r 1) (mul_gen (Z.b2z (Z.testbit r 15))).
Proof.
  intros Hr. unfold crc16_shift, u16. rewrite land_top.
  apply Z.bits_inj'. intros i Hi.
  assert (Hhigh : 16 < i → Z.testbit (Z.shiftl r 1) i = false).
  { intros. rewrite Z.shiftl_spec by lia. apply (bits_small 16); lia. }
  destruct (Z.testbit r 15) eqn:E; simpl.
  - change (mul_gen 1) with (Z.lxor (2 ^ 16) 0x1021).
    rewrite !Z.lxor_spec, Z.testbit_mod_pow2, Z.pow2_bits_eqb by lia.
    destruct (Z.ltb_spec i 16); [|destruct (decide (i = 16)) as [->|]].
    + destruct (Z.eqb_spec 16 i); [lia|]. by rewrite xorb_false_l.
    + rewrite Z.shiftl_spec by lia. change (16 - 1) with 15. by rewrite E.
    + rewrite Hhigh by lia. destruct (Z.eqb_spec 16 i); [lia|]. by rewrite xorb_false_l.
  - change (mul_gen 0) with 0. rewrite Z.lxor_0_r, Z.testbit_mod_pow2 by lia.
    destruct (Z.ltb_spec i 16); [done|]. destruct (decide (i = 16)) as [->|].
    + rewrite Z.shiftl_spec by lia. change (16 - 1) with 15. by rewrite E.
    + by rewrite Hhigh by lia.
Qed.

Lemma mul_gen_lxor a b : mul_gen (Z.lxor a b) = Z.lxor (mul_gen a) (mul_gen b).
Proof.
  apply Z.bits_inj'. intros i Hi. unfold mul_gen.
  rewrite !Z.shiftl_lxor, !Z.lxor_spec.
  repeat match goal with |- context [Z.testbit ?x i] => generalize (Z.testbit x i); intros [] end;
    done.
Qed.

Lemma mul_gen_shiftl q n : 0 ≤ n → mul_gen (Z.shiftl q n) = Z.shiftl (mul_gen q) n.
Proof.
  intros Hn. unfold mul_gen. rewrite !Z.shiftl_lxor, !Z.shiftl_shiftl by lia.
  by rewrite !(Z.add_comm n).
Qed.

Lemma b2z_lxor a b : Z.b2z (xorb a b) = Z.lxor (Z.b2z a) (Z.b2z b).
Proof. by destruct a, b. Qed.

(** The shift is linear and injective: it is an invertible linear register. *)
Lemma crc16_shift_lxor a b : 0 ≤ a < 2 ^ 16 → 0 ≤ b < 2 ^ 16 →
  crc16_shift (Z.lxor a b) = Z.lxor (crc16_shift a) (crc16_shift b).
Proof.
  intros Ha Hb. rewrite !crc16_shift_eq; [|done..|apply lxor_range; lia].
  rewrite Z.lxor_spec, b2z_lxor, mul_gen_lxor, Z.shiftl_lxor.
  rewrite !Z.lxor_assoc. f_equal. rewrite <-!Z.lxor_assoc. f_equal. apply Z.lxor_comm.
Qed.

Lemma crc16_shift_zero r : 0 ≤ r < 2 ^ 16 → crc16_shift r = 0 → r = 0.
Proof.
  intros Hr H. rewrite crc16_shift_eq in H by done.
  destruct (Z.testbit r 15) eqn:E.
  - exfalso. apply (f_equal (λ z, Z.testbit z 0)) in H.
    rewrite Z.lxor_spec, Z.shiftl_spec_low in H by lia. done.
  - change (mul_gen (Z.b2z false)) with 0 in H. rewrite Z.lxor_0_r in H.
    rewrite Z.shiftl_mul_pow2 in H by lia. lia.
Qed.

Lemma crc16_shift_small r : 0 ≤ r < 2 ^ 15 → crc16_shift r = Z.shiftl r 1.
Proof.
  intros Hr. rewrite crc16_shift_eq by lia. rewrite (bits_small 15 r 15) by lia.
  apply Z.lxor_0_r.
Qed.

(** ** Several shifts *)
Definition shifts (n : nat) (r : Z) : Z := Nat.iter n crc16_shift r.

Lemma shifts_S n r : shifts (S n) r = crc16_shift (shifts n r).
Proof. done. Qed.

Lemma shifts_add n m r : shifts (n + m) r = shifts n (shifts m r).
Proof. apply Nat.iter_add. Qed.

Lemma shifts_range n r : 0 ≤ r < 2 ^ 16 → 0 ≤ shifts n r < 2 ^ 16.
Proof. intros. destruct n; [done|]. apply crc16_shift_range. Qed.

Lemma shifts_lxor n a b : 0 ≤ a < 2 ^ 16 → 0 ≤ b < 2 ^ 16 →
  shifts n (Z.lxor a b) = Z.lxor (shifts n a) (shifts n b).
Proof.
  intros Ha Hb. induction n as [|n IH]; [done|].
  rewrite !shifts_S, IH. apply crc16_shift_lxor; by apply shifts_range.
Qed.

Lemma shifts_zero n r : 0 ≤ r < 2 ^ 16 → shifts n r = 0 → r = 0.
Proof.
  intros Hr. induction n as [|n IH]; [done|]. rewrite shifts_S. intros H.
  apply IH, crc16_shift_zero; [by apply shifts_range|done].
Qed.

Lemma shifts_of_0 n : shifts n 0 = 0.
Proof. induction n as [|n IH]; [done|]. by rewrite shifts_S, IH. Qed.

Lemma shifts_small n r : (n ≤ 16)%nat → 0 ≤ r < 2 ^ (16 - Z.of_nat n) →
  shifts n r = Z.shiftl r (Z.of_nat n).
Proof.
  revert r. induction n as [|n IH]; intros r Hn Hr; [by rewrite Z.shiftl_0_r|].
  rewrite shifts_S, IH; [|lia|].
  - rewrite crc16_shift_small.
    + rewrite Z.shiftl_shiftl by lia. f_equal. lia.
    + apply (shiftl_lt 15 (Z.of_nat n)); [lia|]. by replace (15 - Z.of_nat n) with (16 - Z.of_nat (S n)) by lia.
  - split; [lia|]. apply Z.lt_le_trans with (2 ^ (16 - Z.of_nat (S n))); [lia|].
    apply Z.pow_le_mono_r; lia.
Qed.

(** [shifts n r] is the remainder of r·x^n. *)
Lemma shifts_remainder n r : 0 ≤ r < 2 ^ 16 →
  ∃ q, 0 ≤ q ∧ Z.shiftl r (Z.of_nat n) = Z.lxor (mul_gen q) (shifts n r).
Proof.
  intros Hr. induction n as [|n (q & Hq & IH)].
  - exists 0. split; [done|]. rewrite Z.shiftl_0_r. done.
  - pose proof (shifts_range n r Hr) as Hs.
    exists (Z.lxor (Z.shiftl q 1) (Z.b2z (Z.testbit (shifts n r) 15))). split.
    + apply Z.lxor_nonneg. split; [|intros; apply Z.shiftl_nonneg; lia].
      intros; destruct (Z.testbit _ _); simpl; lia.
    + rewrite shifts_S, crc16_shift_eq by done.
      replace (Z.of_nat (S n)) with (Z.of_nat n + 1) by lia.
      rewrite <-Z.shiftl_shiftl, IH, Z.shiftl_lxor by lia.
      rewrite mul_gen_lxor, mul_gen_shiftl, !Z.lxor_assoc by lia. f_equal.
      rewrite (Z.lxor_comm (Z.shiftl _ 1)), <-Z.lxor_assoc, Z.lxor_nilpotent. by rewrite Z.lxor_0_l.
Qed.

(** ** Bytes and messages *)
Lemma shl8_range b : 0 ≤ Z.shiftl (bz b) 8 < 2 ^ 16.
Proof. pose proof (bz_range b). rewrite Z.shiftl_mul_pow2; lia. Qed.

Lemma crc16_byte_eq r b : crc16_byte r b = shifts 8 (Z.lxor r (Z.shiftl (bz b) 8)).
Proof. unfold crc16_byte, u16. rewrite Z.mod_small by apply shl8_range. done. Qed.

Lemma crc16_byte_range r b : 0 ≤ r < 2 ^ 16 → 0 ≤ crc16_byte r b < 2 ^ 16.
Proof.
  intros. rewrite crc16_byte_eq. apply shifts_range, lxor_range; [lia|done|apply shl8_range].
Qed.

Lemma crc16_fold_range l r : 0 ≤ r < 2 ^ 16 → 0 ≤ fold_left crc16_byte l r < 2 ^ 16.
Proof.
  revert r. induction l as [|b l IH]; intros r Hr; [done|]. simpl.
  by apply IH, crc16_byte_range.
Qed.

Lemma CRC16_range l : 0 ≤ CRC16 l < 2 ^ 16.
Proof. apply crc16_fold_range. lia. Qed.

Lemma CRC16_snoc l b : CRC16 (l ++ [b]) = crc16_byte (CRC16 l) b.
Proof. unfold CRC16. by rewrite fold_left_app. Qed.

Lemma be_get_snoc l b : be_get (l ++ [b]) = bz b + 256 * be_get l.
Proof. unfold be_get. by rewrite reverse_app. Qed.

Lemma add_lxor_shiftl a b n : 0 ≤ n → 0 ≤ b < 2 ^ n → b + a * 2 ^ n = Z.lxor (Z.shiftl a n) b.
Proof.
  intros Hn Hb. rewrite <-Z.shiftl_mul_pow2 by done. rewrite Z.add_comm.
  apply Z.add_nocarry_lxor. apply Z.bits_inj'. intros i Hi. rewrite Z.land_spec, Z.bits_0.
  destruct (decide (i < n)).
  - by rewrite Z.shiftl_spec_low by lia.
  - rewrite (bits_small n b i) by lia. apply andb_false_r.
Qed.

Lemma be_get_snoc_lxor l b : be_get (l ++ [b]) = Z.lxor (Z.shiftl (be_get l) 8) (bz b).
Proof.
  rewrite be_get_snoc, <-add_lxor_shiftl; [lia|lia|apply (bz_range b)].
Qed.

(** Two registers that differ by [d] differ by the shifts of [d] after any
    common message. *)
Lemma crc16_fold_diff l r d : 0 ≤ r < 2 ^ 16 → 0 ≤ d < 2 ^ 16 →
  fold_left crc16_byte l (Z.lxor r d) =
  Z.lxor (fold_left crc16_byte l r) (shifts (8 * length l) d).
Proof.
  revert r d. induction l as [|b l IH]; intros r d Hr Hd; [done|]. cbn [fold_left length].
  rewrite (crc16_byte_eq (Z.lxor r d)), (crc16_byte_eq r).
  rewrite Z.lxor_assoc, (Z.lxor_comm d), <-Z.lxor_assoc.
  rewrite shifts_lxor; [|apply lxor_range; [lia|done|apply shl8_range]|done].
  rewrite IH; [|apply shifts_range, lxor_range; [lia|done|apply shl8_range]|by apply shifts_range].
  f_equal. rewrite <-shifts_add. f_equal. lia.
Qed.

(** ** CRC-16 as a remainder *)
Lemma mul_gen_nonneg q : 0 ≤ q → 0 ≤ mul_gen q.
Proof.
  intros Hq. unfold mul_gen.
  repeat (apply Z.lxor_nonneg; split; intros _); try apply Z.shiftl_nonneg; lia.
Qed.

Lemma mul_gen_small q : 0 ≤ q → mul_gen q < 2 ^ 16 → q = 0.
Proof.
  intros Hq Hs. destruct (decide (q = 0)) as [|Hne]; [done|]. exfalso.
  pose proof (Z.log2_nonneg q) as Hl.
  pose proof (mul_gen_nonneg q Hq) as Hnn.
  assert (Hbit : Z.testbit (mul_gen q) (16 + Z.log2 q) = true).
  { unfold mul_gen. rewrite !Z.lxor_spec, !Z.shiftl_spec by lia.
    replace (16 + Z.log2 q - 16) with (Z.log2 q) by lia. rewrite Z.bit_log2 by lia.
    rewrite !(Z.bits_above_log2 q) by lia. done. }
  rewrite (bits_small 16) in Hbit by lia. done.
Qed.

Lemma mul_gen_unique q1 q2 r1 r2 : 0 ≤ q1 → 0 ≤ q2 → 0 ≤ r1 < 2 ^ 16 → 0 ≤ r2 < 2 ^ 16 →
  Z.lxor (mul_gen q1) r1 = Z.lxor (mul_gen q2) r2 → r1 = r2.
Proof.
  intros Hq1 Hq2 Hr1 Hr2 H.
  assert (Hx : mul_gen (Z.lxor q1 q2) = Z.lxor r1 r2).
  { rewrite mul_gen_lxor. apply Z.bits_inj'. intros i Hi.
    apply (f_equal (λ z, Z.testbit z i)) in H. rewrite !Z.lxor_spec in *.
    destruct (Z.testbit (mul_gen q1) i), (Z.testbit (mul_gen q2) i),
      (Z.testbit r1 i), (Z.testbit r2 i); done. }
  apply Z.lxor_eq. pose proof (lxor_range 16 r1 r2 ltac:(lia) Hr1 Hr2).
  rewrite <-Hx. rewrite (mul_gen_small (Z.lxor q1 q2)); [done| |lia].
  apply Z.lxor_nonneg. lia.
Qed.

Lemma crc16_step_remainder l b q :
  0 ≤ q → Z.shiftl (be_get l) 16 = Z.lxor (mul_gen q) (CRC16 l) →
  ∃ q', 0 ≤ q' ∧ Z.shiftl (be_get (l ++ [b])) 16 = Z.lxor (mul_gen q') (CRC16 (l ++ [b])).
Proof.
  intros Hq IH. pose proof (CRC16_range l) as Hc. pose proof (shl8_range b) as Hb.
  rewrite CRC16_snoc, crc16_byte_eq, be_get_snoc_lxor.
  destruct (shifts_remainder 8 (Z.lxor (CRC16 l) (Z.shiftl (bz b) 8))) as (q' & Hq' & Hrem).
  { by apply lxor_range. }
  exists (Z.lxor (Z.shiftl q 8) q'). split.
  { apply Z.lxor_nonneg. rewrite Z.shiftl_nonneg. lia. }
  rewrite Z.shiftl_lxor, Z.shiftl_shiftl by lia.
  replace (8 + 16) with (16 + 8) by lia. rewrite <-Z.shiftl_shiftl, IH by lia.
  change (Z.of_nat 8) with 8 in Hrem.
  rewrite mul_gen_lxor, mul_gen_shiftl, Z.lxor_assoc, <-Hrem by lia.
  rewrite !Z.shiftl_lxor, Z.shiftl_shiftl, Z.lxor_assoc by lia. done.
Qed.

(** The message, followed by sixteen zero bits, is a multiple of the generator
    plus the checksum. *)
Lemma CRC16_divides l :
  ∃ q, 0 ≤ q ∧ Z.shiftl (be_get l) 16 = Z.lxor (mul_gen q) (CRC16 l).
Proof.
  induction l as [|b l (q & Hq & IH)] using rev_ind; [by exists 0|].
  by apply (crc16_step_remainder l b q).
Qed.

(** The shift-register routine computes the CRC-16-CCITT (XMODEM) checksum:
    it is a sixteen-bit value, and it is the one and only remainder of the message,
    read as a polynomial and multiplied by x^16, on division by
    x^16 + x^12 + x^5 + 1. *)
Theorem CRC16_is_remainder (data : bytes) (r : Z) :
  0 ≤ CRC16 data < 2 ^ 16 ∧
  (0 ≤ r < 2 ^ 16 →
   (∃ q, 0 ≤ q ∧ Z.shiftl (be_get data) 16 = Z.lxor (mul_gen q) r) ↔ r = CRC16 data).
Proof.
  pose proof (CRC16_range data) as Hc. split; [done|]. intros Hr. split.
  - intros (q & Hq & H). destruct (CRC16_divides data) as (q' & Hq' & H').
    apply (mul_gen_unique q q'); [done..|]. by rewrite <-H, <-H'.
  - intros ->. apply CRC16_divides.
Qed.

(** Burst errors: two messages of one length whose difference is confined to sixteen
    consecutive bits (anywhere in the message) have different checksums. *)
Lemma CRC16_detects_bursts (a b : bytes) (w s : Z) :
  0 < w < 2 ^ 16 → 0 ≤ s →
  Z.lxor (be_get a) (be_get b) = Z.shiftl w s →
  CRC16 a ≠ CRC16 b.
Proof.
  intros Hw Hs Hd Heq.
  destruct (CRC16_divides a) as (qa & Hqa & Ha), (CRC16_divides b) as (qb & Hqb & Hb).
  destruct (shifts_remainder (Z.to_nat (s + 16)) w ltac:(lia)) as (q & Hq & Hr).
  rewrite Z2Nat.id, <-Z.shiftl_shiftl, <-Hd, Z.shiftl_lxor, Ha, Hb, Heq in Hr by lia.
  assert (shifts (Z.to_nat (s + 16)) w = 0) as H0.
  { symmetry. apply (mul_gen_unique (Z.lxor qa qb) q); [|done|lia|by apply shifts_range; lia|].
    - apply Z.lxor_nonneg. lia.
    - rewrite <-Hr, mul_gen_lxor, Z.lxor_0_r. apply Z.bits_inj'. intros i Hi.
      rewrite !Z.lxor_spec. by destruct (Z.testbit (mul_gen qa) i), (Z.testbit (mul_gen qb) i),
        (Z.testbit (CRC16 b) i). }
  apply shifts_zero in H0; lia.
Qed.

Lemma CRC16_is_remainder_witness :
  0 ≤ CRC16 (str "123456789") < 2 ^ 16 ∧
  (∃ q, 0 ≤ q ∧ Z.shiftl (be_get (str "123456789")) 16 = Z.lxor (mul_gen q) 0x31C3).
Proof.
  destruct (CRC16_is_remainder (str "123456789") 0x31C3) as [H1 H2]. split; [exact H1|].
  apply H2; [lia|vm_compute; reflexivity].
Defined.
