(* ===== verification/Protocol.v ===== *)
(** * Protocol: the ASCII MeCom frames of [mecom/protocol.go]

    A frame is [#] (request) or [!] (response), a two-digit address, a four-digit
    sequence number, a body, a four-digit checksum of everything before it, and
    a carriage return.  This file has the frame builders, the frame splitter and
    the response parsers; [Client.v] has the client that drives them and
    [RingFrames.v] the binary stream carried in ring reads.

    A length that overflows a signed 64-bit integer cannot occur: Go's own slices
    are shorter. *)
From stdpp Require Import prelude strings list.
From Stdlib Require Import Strings.Byte Floats.SpecFloat.
From S2P Require Import Prelude Text Floats Crc.
Open Scope Z_scope.

(** ** Types *)
Definition FrameTerminator : byte := x0d.

Abbreviation DataType := string.
Definition DataTypeFloat32 : DataType := "float32".
Definition DataTypeInt32 : DataType := "int32".
Definition DataTypeLatin1 : DataType := "latin1".
Definition DataTypeByte : DataType := "byte".

Record Param := MkParam {
  ID : Z;
  Inst : Z;
  Name : string;
  Unit : string;
  Type_ : DataType;
  Writable : bool;
  Role : string;
  Kind : string }.

Global Instance Param_eq_dec : EqDecision Param.
Proof. solve_decision. Defined.

Record RingCaptureParameter := MkRingCaptureParameter {
  rcp_Parameter : Param;
  InhibitTime10us : Z }.

Record RingReadResponse := MkRingReadResponse {
  BytesAdded : Z;
  Status : Z;
  Data : bytes }.

Global Instance RingReadResponse_eq_dec : EqDecision RingReadResponse.
Proof. solve_decision. Defined.

Definition maxRingCaptureParameters : nat := 16.
Definition maxMeComParameterID : Z := 0xFFFF.
Definition minMeComInstance : Z := 1.
Definition maxMeComInstance : Z := 0xFF.

Definition errorsByCode (code : Z) : option string :=
  match code with
  | 1 => Some "CMD_NOT_AVAILABLE"
  | 2 => Some "DEVICE_BUSY"
  | 3 => Some "GENERAL_COM"
  | 4 => Some "FORMAT"
  | 5 => Some "PAR_NOT_AVAILABLE"
  | 6 => Some "PAR_NOT_WRITABLE"
  | 7 => Some "PAR_OUT_OF_RANGE"
  | 8 => Some "PAR_INST_NOT_AVAILABLE"
  | _ => None
  end%string.

(** ** Builders *)
Definition appendCRC (addr seq : Z) (body : bytes) : bytes :=
  let prefix := "#"%byte :: fmtX 2 addr ++ fmtX 4 seq ++ body in
  prefix ++ fmtX 4 (CRC16 prefix) ++ [FrameTerminator].

Definition encodeInt32 (v : Z) : bytes := fmtX 8 (u32 v).
Definition encodeFloat32 (v : f32) : bytes := fmtX 8 (Float32bits v).

Definition BuildSingleGetFrame (addr seq paramID instance : Z) : bytes :=
  appendCRC addr seq (str "?VR" ++ fmtX 4 paramID ++ fmtX 2 instance).
Definition BuildBranchIDFrame (addr seq : Z) : bytes := appendCRC addr seq (str "?BI").
Definition BuildFirmwareVersionFrame (addr seq : Z) : bytes := appendCRC addr seq (str "?VI").
Definition BuildParameterLimitsFrame (addr seq paramID instance : Z) : bytes :=
  appendCRC addr seq (str "?VL" ++ fmtX 4 paramID ++ fmtX 2 instance).
Definition BuildParameterMetadataFrame (addr seq paramID instance : Z) : bytes :=
  appendCRC addr seq (str "?VM" ++ fmtX 4 paramID ++ fmtX 2 instance).

Definition BuildBulkGetFrame (addr seq : Z) (params : list Param) : bytes :=
  appendCRC addr seq
    (str "?VX" ++ fmtX 2 (Z.of_nat (length params)) ++
     (p ← params; fmtX 4 (ID p) ++ fmtX 2 (Inst p))).

Definition BuildRingPointerFrame (addr seq : Z) : bytes := appendCRC addr seq (str "?RS0000").
Definition BuildRingReadFrame (addr seq start maxBytes : Z) : bytes :=
  appendCRC addr seq (str "?RS0001" ++ fmtX 8 start ++ fmtX 4 maxBytes).

Definition ring_capture_slot (body : bytes) (p : RingCaptureParameter) : res bytes :=
  let q := rcp_Parameter p in
  if (ID q <? 0) || (0xFFFF <? ID q) then
    Err (Errorf "mecom: invalid parameter id %d" [ID q])
  else if (Inst q <? 0) || (0xFF <? Inst q) then
    Err (Errorf "mecom: invalid parameter instance %d" [Inst q])
  else Ok (body ++ fmtX 4 (ID q) ++ fmtX 2 (Inst q) ++ fmtX 4 (InhibitTime10us p)).

Definition BuildRingCaptureConfigFrame (addr seq captureID : Z)
    (params : list RingCaptureParameter) : res bytes :=
  if (maxRingCaptureParameters <? length params)%nat then
    Err (Errorf "mecom: ring capture supports at most %d parameters, got %d"
      [Z.of_nat maxRingCaptureParameters; Z.of_nat (length params)])
  else
    body ← mfold ring_capture_slot
      (str "?RS0002" ++ fmtX 4 captureID ++ fmtX 2 (Z.of_nat (length params))) params;
    Ok (appendCRC addr seq body).

Definition BuildRingTriggerSyncFrame (addr seq : Z) : bytes := appendCRC addr seq (str "?RS0003").

Definition buildWriteFrame (addr seq paramID instance : Z) (valueHex : bytes) : bytes :=
  appendCRC addr seq (str "VS" ++ fmtX 4 paramID ++ fmtX 2 instance ++ valueHex).
Definition BuildWriteFloat32Frame (addr seq paramID instance : Z) (value : f32) : bytes :=
  buildWriteFrame addr seq paramID instance (encodeFloat32 value).
Definition BuildWriteInt32Frame (addr seq paramID instance value : Z) : bytes :=
  buildWriteFrame addr seq paramID instance (encodeInt32 value).
Definition BuildWriteStringFrame (addr seq paramID instance : Z) (value : bytes) : bytes :=
  buildWriteFrame addr seq paramID instance (ToUpper (EncodeToString value)).

Definition validateParameterAddress (paramID instance : Z) : res () :=
  if (paramID <? 0) || (maxMeComParameterID <? paramID) then
    Err (Wrapf "%w: parameter id %d outside 0..%d" [paramID; maxMeComParameterID]
           (Sentinel ErrInvalidArgument))
  else if (instance <? minMeComInstance) || (maxMeComInstance <? instance) then
    Err (Wrapf "%w: parameter instance %d outside %d..%d"
           [instance; minMeComInstance; maxMeComInstance] (Sentinel ErrInvalidArgument))
  else Ok ().

Fixpoint validate_from (i : Z) (params : list Param) : res () :=
  match params with
  | [] => Ok ()
  | p :: ps =>
      match validateParameterAddress (ID p) (Inst p) with
      | Err e => Err (Wrapf "parameter[%d]: %w" [i] e)
      | Ok _ => validate_from (i + 1) ps
      end
  end.
Definition validateParameterList (params : list Param) : res () := validate_from 0 params.

Definition latin1_rune (out : bytes) (r : Z) : res bytes :=
  if r =? 0 then Err (Errorf "mecom: LATIN1 string contains embedded NUL" [])
  else if 0xFF <? r then Err (Errorf "mecom: rune %q is outside LATIN1" [r])
  else Ok (out ++ [zb r]).
Definition encodeLatin1String (value : bytes) (zeroTerminated : bool) : res bytes :=
  out ← mfold latin1_rune [] (runes value);
  Ok (if zeroTerminated then out ++ [x00] else out).

Definition BuildSetBigDataStringFrame (addr seq paramID instance writeStart : Z)
    (value : bytes) (isLast : bool) : res bytes :=
  _ ← validateParameterAddress paramID instance;
  data ← encodeLatin1String value true;
  if 0xFFFF <? Z.of_nat (length data) then
    Err (Errorf "mecom: big-data string package too long: %d elements" [Z.of_nat (length data)])
  else
    let last := if isLast then 1 else 0 in
    Ok (appendCRC addr seq
      (str "VB" ++ fmtX 4 paramID ++ fmtX 2 instance ++ fmtX 8 writeStart ++
       fmtX 4 (Z.of_nat (length data)) ++ fmtX 2 last ++ ToUpper (EncodeToString data))).

Definition BuildSaveToFlashFrame (addr seq : Z) : bytes := appendCRC addr seq (str "SP").
Definition BuildResetFrame (addr seq : Z) : bytes := appendCRC addr seq (str "RS").

(** ** Splitting a buffer into frames *)
Fixpoint split_go (cur : bytes) (data : bytes) : list bytes :=
  match data with
  | [] => []
  | b :: data' =>
      if bool_decide (b = FrameTerminator) then (cur ++ [b]) :: split_go [] data'
      else split_go (cur ++ [b]) data'
  end.
Definition SplitFrames (data : bytes) : list bytes := split_go [] data.

(** ** Response parsers *)
Definition verifyCRC (frame : bytes) : res () :=
  if (length frame <? 5)%nat then Err (Errorf "mecom: response too short for CRC %q" [])
  else
    match ParseUint (lastn 4 frame) 16 16 with
    | Err e => Err (Wrapf "mecom: invalid CRC %q: %w" [] e)
    | Ok got =>
        let want := CRC16 (droplast 4 frame) in
        if negb (u16 got =? want) then
          Err (Errorf "mecom: CRC mismatch got %04X want %04X" [got; want])
        else Ok ()
    end.

Definition nack_error (format : string) (code : Z) : error :=
  match errorsByCode code with
  | Some name => Errorf (format +:+ " (" +:+ name +:+ ")") [code]
  | None => Errorf format [code]
  end.

Definition parsePayload (raw : bytes) : res bytes :=
  let frame := TrimSuffix raw [FrameTerminator] in
  if (length frame <? 7)%nat || negb (bool_decide (frame !! 0%nat = Some "!"%byte)) then
    Err (Errorf "mecom: invalid response %q" [])
  else
    _ ← verifyCRC frame;
    let payload_from (payloadStart : nat) :=
      let payloadEnd := (length frame - 4)%nat in
      if (payloadEnd <=? payloadStart)%nat then Ok [] else Ok (slice frame payloadStart payloadEnd) in
    match frame !! 7%nat with
    | Some "+"%byte => payload_from 8%nat
    | Some "-"%byte =>
        let payloadEnd := (length frame - 4)%nat in
        if (payloadEnd <=? 8)%nat then Err (Errorf "mecom: invalid nack %q" [])
        else
          match ParseUint (slice frame 8 payloadEnd) 16 8 with
          | Err e => Err (Wrapf "mecom: invalid nack code: %w" [] e)
          | Ok code => Err (nack_error "mecom: nack %02X" code)
          end
    | _ => payload_from 7%nat
    end.

Definition is_hex (b : byte) : bool :=
  let r := bz b in
  ((48 <=? r) && (r <=? 57)) || ((65 <=? r) && (r <=? 70)) || ((97 <=? r) && (r <=? 102)).
(** Dropping runes that are not hexadecimal digits drops the bytes that are not:
    a byte of a longer rune is above 0x7F. *)
Definition hexOnly (v : bytes) : bytes := filter (λ b, is_hex b = true) v.

Definition DecodeNumeric (chunk : bytes) (dataType : DataType) : res f64 :=
  bits ← ParseUint chunk 16 32;
  if bool_decide (dataType = DataTypeInt32) then Ok (of_int (i32 (u32 bits)))
  else Ok (to_f64 (Float32frombits (u32 bits))).

Definition ParseSingleResponse (raw : bytes) (dataType : DataType) : res f64 :=
  payload ← parsePayload raw;
  if (length payload <? 8)%nat then Err (Errorf "mecom: invalid single response payload %q" [])
  else DecodeNumeric (take 8 payload) dataType.

Definition bulk_value (payload : bytes) (i : nat) (p : Param) : f64 :=
  if (length payload <? (i + 1) * 8)%nat then S754_nan
  else match DecodeNumeric (slice payload (i * 8) ((i + 1) * 8)) (Type_ p) with
       | Ok v => v
       | Err _ => S754_nan
       end.
Definition ParseBulkResponse (raw : bytes) (params : list Param) : res (list f64) :=
  payload ← parsePayload raw;
  Ok (imap (bulk_value (hexOnly payload)) params).

Definition ParseRingPointerResponse (raw : bytes) : res Z :=
  payload ← parsePayload raw;
  let payload := hexOnly payload in
  if (length payload <? 8)%nat then Err (Errorf "mecom: invalid ring pointer payload %q" [])
  else v ← ParseUint (take 8 payload) 16 32; Ok (u32 v).

Definition ParseRingReadResponse (raw : bytes) : res RingReadResponse :=
  payload ← parsePayload raw;
  let payload := hexOnly payload in
  if (length payload <? 6)%nat then Err (Errorf "mecom: invalid ring read payload %q" [])
  else
    bytesAdded ← ParseUint (take 4 payload) 16 16;
    status ← ParseUint (slice payload 4 6) 16 8;
    data ← DecodeString (drop 6 payload);
    Ok (MkRingReadResponse (u16 bytesAdded) (u8 status) data).

Definition ParseRingCaptureConfigResponse (raw : bytes) : res () :=
  payload ← parsePayload raw;
  let payload := hexOnly payload in
  if bool_decide (payload = []) || bool_decide (payload = str "00") then Ok ()
  else
    match ParseUint payload 16 8 with
    | Err _ => Err (Errorf "mecom: invalid ring capture config response %q" [])
    | Ok code =>
        if code =? 0 then Ok ()
        else Err (nack_error "mecom: ring capture config error %02X" code)
    end.

Definition ParseWriteResponse (raw : bytes) : res () := _ ← parsePayload raw; Ok ().

Definition isBareRequestCRCAck (raw request : bytes) : bool :=
  let frame := TrimSuffix raw [FrameTerminator] in
  let req := TrimSuffix request [FrameTerminator] in
  if negb (length frame =? 11)%nat || (length req <? 11)%nat
     || negb (bool_decide (frame !! 0%nat = Some "!"%byte))
     || negb (bool_decide (req !! 0%nat = Some "#"%byte)) then false
  else if negb (bool_decide (slice frame 1 7 = slice req 1 7)) then false
  else
    match ParseUint (lastn 4 req) 16 16 with
    | Err _ => false
    | Ok reqCRC =>
        if negb (CRC16 (droplast 4 req) =? u16 reqCRC) then false
        else match ParseUint (drop 7 frame) 16 16 with
             | Ok respCRC => u16 respCRC =? u16 reqCRC
             | Err _ => false
             end
    end.

Definition ParseWriteResponseForRequest (raw request : bytes) : res () :=
  match ParseWriteResponse raw with
  | Ok _ => Ok ()
  | Err e => if isBareRequestCRCAck raw request then Ok () else Err e
  end.

(** ** Specification: a sealed frame and a device's response *)
Definition seal (prefix : bytes) : bytes := prefix ++ fmtX 4 (CRC16 prefix) ++ [FrameTerminator].
Definition response (header payload : bytes) : bytes := seal ("!"%byte :: header ++ payload).

(** ** Lemmas *)
Lemma appendCRC_seal addr seq body :
  appendCRC addr seq body = seal ("#"%byte :: fmtX 2 addr ++ fmtX 4 seq ++ body).
Proof. done. Qed.

Lemma crc_text prefix :
  fmtX 4 (CRC16 prefix) = hex_fix 4 (CRC16 prefix) ∧ length (fmtX 4 (CRC16 prefix)) = 4%nat.
Proof.
  pose proof (CRC16_range prefix). rewrite fmtX_fix by (simpl; lia).
  split; [done|]. by rewrite length_hex_fix.
Qed.

Lemma length_crc_text prefix : length (fmtX 4 (CRC16 prefix)) = 4%nat.
Proof. apply crc_text. Qed.
#[export] Hint Rewrite length_crc_text length_hex_fix length_EncodeToString length_ToUpper : mecom_len.

Lemma seal_trim prefix : TrimSuffix (seal prefix) [FrameTerminator] = prefix ++ fmtX 4 (CRC16 prefix).
Proof. unfold seal. rewrite app_assoc. apply TrimSuffix_snoc. Qed.

Lemma crc_tail (prefix t : bytes) : length t = 4%nat → lastn 4 (prefix ++ t) = t ∧ droplast 4 (prefix ++ t) = prefix.
Proof. intros <-. split; [apply lastn_app|apply droplast_app]. Qed.

Lemma verifyCRC_seal prefix : (0 < length prefix)%nat →
  verifyCRC (prefix ++ fmtX 4 (CRC16 prefix)) = Ok ().
Proof.
  intros Hl. unfold verifyCRC. destruct (crc_text prefix) as [Hx Hlen].
  destruct (Nat.ltb_spec (length (prefix ++ fmtX 4 (CRC16 prefix))) 5); [len|].
  destruct (crc_tail prefix _ Hlen) as [-> ->]. pose proof (CRC16_range prefix).
  rewrite Hx, ParseUint_hex_fix by (simpl; lia). unfold u16. rewrite Z.mod_small by done.
  by rewrite Z.eqb_refl.
Qed.

(** [verifyCRC] in closed form. *)
Lemma verifyCRC_spec (frame : bytes) :
  verifyCRC frame = Ok () ↔
  (5 ≤ length frame)%nat ∧ ParseUint (lastn 4 frame) 16 16 = Ok (CRC16 (droplast 4 frame)).
Proof.
  unfold verifyCRC. destruct (Nat.ltb_spec (length frame) 5); [split; [done|lia]|].
  destruct (ParseUint (lastn 4 frame) 16 16) as [got|e] eqn:E; [|by split; intros; destruct_and?].
  apply ParseUint_range in E as Hr; [|lia..]. unfold u16. rewrite Z.mod_small by done.
  destruct (Z.eqb_spec got (CRC16 (droplast 4 frame))) as [->|Hne]; simpl.
  - by split.
  - split; [done|]. intros [_ [= ?]]. done.
Qed.

Lemma hex_char_not_sign d : 0 ≤ d < 16 → hex_char d ≠ "+"%byte ∧ hex_char d ≠ "-"%byte.
Proof.
  intros Hd. pose proof (range_check (λ d, negb (bool_decide (hex_char d = "+"%byte)) &&
    negb (bool_decide (hex_char d = "-"%byte))) 16 eq_refl d Hd) as H.
  apply andb_prop in H as [H1%negb_true_iff%bool_decide_eq_false H2%negb_true_iff%bool_decide_eq_false].
  done.
Qed.

Lemma crc_text_head prefix : ∃ d t, 0 ≤ d < 16 ∧ fmtX 4 (CRC16 prefix) = hex_char d :: t.
Proof.
  destruct (crc_text prefix) as [-> _]. eexists _, _. split; [|reflexivity].
  apply Z.mod_pos_bound. lia.
Qed.

Definition unsigned_payload (payload : bytes) : Prop :=
  head payload ≠ Some "+"%byte ∧ head payload ≠ Some "-"%byte.

Section response.
Context (header payload : bytes) (Hheader : length header = 6%nat).
Let prefix : bytes := "!"%byte :: header ++ payload.
Let frame : bytes := prefix ++ fmtX 4 (CRC16 prefix).

Lemma response_frame : TrimSuffix (response header payload) [FrameTerminator] = frame.
Proof using. apply seal_trim. Qed.

Lemma response_guard :
  (length frame <? 7)%nat || negb (bool_decide (frame !! 0%nat = Some "!"%byte)) = false ∧
  verifyCRC frame = Ok ().
Proof using Hheader.
  split.
  - unfold frame, prefix. destruct (Nat.ltb_spec (length (("!"%byte :: header ++ payload) ++
      fmtX 4 (CRC16 ("!"%byte :: header ++ payload)))) 7); [len|]. done.
  - apply verifyCRC_seal. simpl. lia.
Qed.

Lemma response_payload_end : (length frame - 4 = 7 + length payload)%nat.
Proof using Hheader. unfold frame, prefix. rewrite length_app, length_crc_text. len. Qed.

Lemma response_slice i : (i ≤ length payload)%nat →
  slice frame (7 + i) (7 + length payload) = drop i payload.
Proof using Hheader.
  intros Hi. unfold frame, prefix.
  rewrite slice_app_l by len.
  change ("!"%byte :: header ++ payload) with (("!"%byte :: header) ++ payload).
  assert (7%nat = length ("!"%byte :: header)) as -> by (simpl; lia).
  rewrite slice_skip. unfold slice. apply take_ge. rewrite length_drop. lia.
Qed.

Lemma response_lookup : frame !! 7%nat = head (payload ++ fmtX 4 (CRC16 prefix)).
Proof using Hheader.
  unfold frame, prefix at 1.
  change ("!"%byte :: header ++ payload) with (("!"%byte :: header) ++ payload).
  rewrite <-app_assoc, lookup_app_r by (simpl; lia). simpl length. rewrite Hheader.
  simpl. by destruct (payload ++ fmtX 4 (CRC16 prefix)).
Qed.

Lemma response_lookup_cons b : head payload = Some b → frame !! 7%nat = Some b.
Proof using Hheader. rewrite response_lookup. by destruct payload. Qed.
End response.

(** The payload of a response without a sign is returned as it is. *)
Lemma parsePayload_response header payload :
  length header = 6%nat → unsigned_payload payload →
  parsePayload (response header payload) = Ok payload.
Proof.
  intros Hh [Hp Hm]. unfold parsePayload. rewrite response_frame. cbv zeta.
  destruct (response_guard header payload Hh) as [-> ->]. cbn [mbind result_bind].
  rewrite response_lookup, response_payload_end by done.
  assert (Hgo : (if (7 + length payload <=? 7)%nat then Ok []
    else Ok (slice (("!"%byte :: header ++ payload) ++ fmtX 4 (CRC16 ("!"%byte :: header ++ payload)))
          7 (7 + length payload)) : res bytes) = Ok payload).
  { pose proof (response_slice header payload Hh 0 ltac:(lia)) as Hs. rewrite Nat.add_0_r in Hs.
    rewrite Hs. destruct (Nat.leb_spec (7 + length payload) 7); [|done].
    destruct payload; [done|simpl in *; lia]. }
  destruct payload as [|b payload].
  - destruct (crc_text_head ("!"%byte :: header ++ [])) as (d & t & Hd & Ht).
    destruct (hex_char_not_sign d Hd) as [Hd1 Hd2].
    rewrite app_nil_l, Ht. cbn [head]. rewrite <-Ht. destruct (hex_char d); done.
  - cbn [app head] in *. destruct b; done.
Qed.

(** An accepted response: [+] and the payload. *)
Lemma parsePayload_ack header payload : length header = 6%nat →
  parsePayload (response header ("+"%byte :: payload)) = Ok payload.
Proof.
  intros Hh. unfold parsePayload. rewrite response_frame. cbv zeta.
  destruct (response_guard header ("+"%byte :: payload) Hh) as [-> ->]. cbn [mbind result_bind].
  rewrite (response_lookup_cons header ("+"%byte :: payload) Hh "+"%byte eq_refl), response_payload_end by done.
  pose proof (response_slice header ("+"%byte :: payload) Hh 1 ltac:(simpl; lia)) as Hs.
  change (7 + 1)%nat with 8%nat in Hs. rewrite Hs. cbn [skipn].
  destruct (Nat.leb_spec (7 + length ("+"%byte :: payload)) 8); [|done].
  destruct payload; [done|simpl in *; lia].
Qed.

(** A refusal: [-] and a two-digit code. *)
Lemma parsePayload_nack header code : length header = 6%nat → 0 ≤ code < 256 →
  parsePayload (response header ("-"%byte :: fmtX 2 code)) = Err (nack_error "mecom: nack %02X" code).
Proof.
  intros Hh Hc. unfold parsePayload. rewrite response_frame. cbv zeta.
  destruct (response_guard header ("-"%byte :: fmtX 2 code) Hh) as [-> ->]. cbn [mbind result_bind].
  rewrite (response_lookup_cons header ("-"%byte :: fmtX 2 code) Hh "-"%byte eq_refl), response_payload_end by done.
  pose proof (response_slice header ("-"%byte :: fmtX 2 code) Hh 1 ltac:(simpl; lia)) as Hs.
  change (7 + 1)%nat with 8%nat in Hs. rewrite Hs. cbn [skipn].
  rewrite fmtX_fix by (simpl; lia). cbn [length]. rewrite length_hex_fix.
  rewrite drop_0, ParseUint_hex_fix by (simpl; lia). done.
Qed.

Lemma is_hex_char d : 0 ≤ d < 16 → is_hex (hex_char d) = true.
Proof. apply (range_check (λ d, is_hex (hex_char d)) 16 eq_refl). Qed.

Lemma hex_fix_is_hex w z : Forall (λ b, is_hex b = true) (hex_fix w z).
Proof.
  revert z. induction w as [|w IH]; intros z; cbn [hex_fix]; [done|].
  apply Forall_app. split; [apply IH|]. constructor; [|done].
  apply is_hex_char, Z.mod_pos_bound. lia.
Qed.

Lemma hexOnly_id l : Forall (λ b, is_hex b = true) l → hexOnly l = l.
Proof.
  unfold hexOnly. induction 1 as [|b l Hb _ IH]; [done|].
  rewrite filter_cons_True by done. by rewrite IH.
Qed.

Lemma is_hex_not b : is_hex b = true →
  b ≠ "+"%byte ∧ b ≠ "-"%byte ∧ b ≠ FrameTerminator ∧ b ≠ "!"%byte ∧ b ≠ "#"%byte.
Proof. intros H. repeat split; intros ->; vm_compute in H; done. Qed.

Lemma hex_unsigned l : Forall (λ b, is_hex b = true) l → unsigned_payload l.
Proof.
  intros H. destruct l as [|b l]; [done|]. apply Forall_cons_1 in H as [Hb _].
  apply is_hex_not in Hb as (? & ? & _). split; simpl; congruence.
Qed.

(** What a 32-bit word of a response means for a parameter of a type. *)
Definition word_value (t : DataType) (w : Z) : f64 :=
  if bool_decide (t = DataTypeInt32) then of_int (i32 w) else to_f64 (Float32frombits w).

Lemma DecodeNumeric_word t w : 0 ≤ w < 2 ^ 32 → DecodeNumeric (hex_fix 8 w) t = Ok (word_value t w).
Proof.
  intros Hw. unfold DecodeNumeric, word_value. rewrite ParseUint_hex_fix by (simpl; lia).
  cbn [mbind result_bind]. unfold u32. rewrite Z.mod_small by lia.
  by destruct (bool_decide _).
Qed.

Lemma word_value_int32 v : - 2 ^ 31 ≤ v < 2 ^ 31 → word_value DataTypeInt32 (u32 v) = of_int v.
Proof. intros. unfold word_value. rewrite bool_decide_true by done. by rewrite i32_u32. Qed.

Lemma word_value_float32 f : valid32 f = true →
  word_value DataTypeFloat32 (Float32bits f) = to_f64 f.
Proof.
  intros. unfold word_value. rewrite bool_decide_false by done. by rewrite Float32_bits_roundtrip.
Qed.

Definition words_text (ws : list Z) : bytes := w ← ws; fmtX 8 w.

Lemma words_text_cons w ws : words_text (w :: ws) = fmtX 8 w ++ words_text ws.
Proof. done. Qed.

Lemma words_text_hex ws : Forall (λ w, 0 ≤ w < 2 ^ 32) ws →
  Forall (λ b, is_hex b = true) (words_text ws) ∧ length (words_text ws) = (8 * length ws)%nat.
Proof.
  induction 1 as [|w ws Hw _ [IH1 IH2]]; [done|].
  rewrite words_text_cons, fmtX_fix by (simpl; lia). split.
  - apply Forall_app. split; [apply hex_fix_is_hex|done].
  - rewrite length_app, length_hex_fix, IH2. simpl. lia.
Qed.

Lemma words_text_slice pre w ws : 0 ≤ w < 2 ^ 32 →
  slice (pre ++ words_text (w :: ws)) (length pre) (length pre + 8) = hex_fix 8 w.
Proof.
  intros Hw. rewrite words_text_cons, fmtX_fix by (simpl; lia).
  rewrite <-(Nat.add_0_r (length pre)) at 1. rewrite slice_skip. unfold slice.
  rewrite drop_0. simpl (8 - 0)%nat. rewrite <-(length_hex_fix 8 w) at 1. apply take_app_length.
Qed.

Lemma bulk_values pre ws params k :
  Forall (λ w, 0 ≤ w < 2 ^ 32) ws → length pre = (k * 8)%nat → length ws = length params →
  imap (λ i, bulk_value (pre ++ words_text ws) (k + i)) params =
  zip_with (λ p w, word_value (Type_ p) w) params ws.
Proof.
  revert pre ws k. induction params as [|p params IH]; intros pre ws k Hws Hpre Hlen; [done|].
  destruct ws as [|w ws]; [done|]. apply Forall_cons_1 in Hws as [Hw Hws].
  destruct (words_text_hex ws Hws) as [_ Hl].
  assert (Hfw : length (fmtX 8 w) = 8%nat) by (rewrite fmtX_fix, length_hex_fix; simpl; lia).
  rewrite imap_cons. cbn [zip_with]. f_equal.
  - unfold bulk_value. rewrite Nat.add_0_r.
    destruct (Nat.ltb_spec (length (pre ++ words_text (w :: ws))) ((k + 1) * 8)) as [Hlt|_].
    { rewrite length_app, words_text_cons, length_app, Hfw in Hlt. lia. }
    replace (k * 8)%nat with (length pre) by lia.
    replace ((k + 1) * 8)%nat with (length pre + 8)%nat by lia.
    by rewrite words_text_slice, DecodeNumeric_word.
  - rewrite <-(IH (pre ++ fmtX 8 w) ws (S k)) by (auto; rewrite ?length_app; simpl in *; lia).
    apply imap_ext. intros i q _. unfold compose. rewrite words_text_cons, <-app_assoc. f_equal. lia.
Qed.

(** ** Properties *)

(** A device's response is parsed back.  Behind a six-character header, a
    payload that does not begin with a sign is returned unchanged, [+] and a
    payload is an acknowledgement that returns the payload, and [-] with a
    two-digit code is an error that carries the code (and its name when the table
    has one). *)
Theorem parsePayload_roundtrip (header payload : bytes) (code : Z) :
  length header = 6%nat → unsigned_payload payload → 0 ≤ code < 256 →
  parsePayload (response header payload) = Ok payload ∧
  parsePayload (response header ("+"%byte :: payload)) = Ok payload ∧
  parsePayload (response header ("-"%byte :: fmtX 2 code)) = Err (nack_error "mecom: nack %02X" code).
Proof.
  intros Hh Hu Hc. split; [by apply parsePayload_response|].
  split; [by apply parsePayload_ack|by apply parsePayload_nack].
Qed.

Lemma parsePayload_roundtrip_witness :
  parsePayload (response (str "0200AB") (str "41200000")) = Ok (str "41200000") ∧
  parsePayload (response (str "0200AB") ("+"%byte :: str "41200000")) = Ok (str "41200000") ∧
  parsePayload (response (str "0200AB") ("-"%byte :: fmtX 2 5)) =
    Err (Errorf "mecom: nack %02X (PAR_NOT_AVAILABLE)" [5]).
Proof. apply (parsePayload_roundtrip (str "0200AB") (str "41200000") 5); [done|done|lia]. Defined.
Lemma ParseSingleResponse_word header t w : length header = 6%nat → 0 ≤ w < 2 ^ 32 →
  ParseSingleResponse (response header (fmtX 8 w)) t = Ok (word_value t w).
Proof.
  intros Hh Hw. unfold ParseSingleResponse. rewrite fmtX_fix by (simpl; lia).
  rewrite parsePayload_response by (done || apply hex_unsigned, hex_fix_is_hex).
  cbn [mbind result_bind]. rewrite length_hex_fix.
  destruct (Nat.ltb_spec 8 8); [lia|].
  rewrite take_ge by (rewrite length_hex_fix; lia). by apply DecodeNumeric_word.
Qed.

Lemma word_roundtrip header f v : length header = 6%nat → valid32 f = true → - 2 ^ 31 ≤ v < 2 ^ 31 →
  ParseSingleResponse (response header (fmtX 8 (Float32bits f))) DataTypeFloat32 = Ok (to_f64 f) ∧
  ParseSingleResponse (response header (fmtX 8 (u32 v))) DataTypeInt32 = Ok (of_int v).
Proof.
  intros Hh Hf Hv.
  rewrite !ParseSingleResponse_word by (first [done | apply u32_range | by apply Float32bits_range]).
  by rewrite word_value_int32, word_value_float32.
Qed.


(** A value survives the wire.  The text a write frame carries for an int32
    (or a finite, infinite or zero float32) is the text a read response carries for
    it, and [ParseSingleResponse] of that response gives the value back, exactly,
    as a float64. *)
Theorem ParseSingleResponse_roundtrip (header : bytes) (v : Z) (f : f32) :
  length header = 6%nat → - 2 ^ 31 ≤ v < 2 ^ 31 → valid32 f = true →
  ParseSingleResponse (response header (encodeInt32 v)) DataTypeInt32 = Ok (of_int v) ∧
  to_int (of_int v) = v ∧
  ParseSingleResponse (response header (encodeFloat32 f)) DataTypeFloat32 = Ok (to_f64 f) ∧
  to_f32 (to_f64 f) = f.
Proof.
  intros Hh Hv Hf. destruct (word_roundtrip header f v Hh Hf Hv) as [Hsf Hsi].
  split_and!; [done|apply of_int_to_int; lia|done|by apply to_f32_to_f64].
Qed.

Lemma ParseSingleResponse_roundtrip_witness :
  ParseSingleResponse (response (str "010001") (encodeInt32 (-3))) DataTypeInt32 = Ok (of_int (-3)) ∧
  to_int (of_int (-3)) = -3 ∧
  ParseSingleResponse (response (str "010001") (encodeFloat32 (Float32frombits 0xC1480000)))
    DataTypeFloat32 = Ok (to_f64 (Float32frombits 0xC1480000)) ∧
  to_f32 (to_f64 (Float32frombits 0xC1480000)) = Float32frombits 0xC1480000.
Proof.
  apply (ParseSingleResponse_roundtrip (str "010001") (-3) (Float32frombits 0xC1480000));
    [done|lia|vm_compute; reflexivity].
Defined.

(** Bulk reads.  From a response that carries one 32-bit word for each
    requested parameter, [ParseBulkResponse] returns the words in order, each
    decoded at the type of its parameter; a response that carries only the first
    words gives these and not-a-number for the rest. *)
Theorem ParseBulkResponse_roundtrip (header : bytes) (ws : list Z) (params rest : list Param) :
  length header = 6%nat → Forall (λ w, 0 ≤ w < 2 ^ 32) ws → length ws = length params →
  ParseBulkResponse (response header (words_text ws)) (params ++ rest) =
  Ok (zip_with (λ p w, word_value (Type_ p) w) params ws ++ replicate (length rest) S754_nan).
Proof.
  intros Hh Hws Hlen. unfold ParseBulkResponse. destruct (words_text_hex ws Hws) as [Hx Hl].
  rewrite parsePayload_response by (done || by apply hex_unsigned). cbn [mbind result_bind].
  rewrite hexOnly_id by done. f_equal. rewrite imap_app. f_equal.
  - apply (bulk_values [] ws params 0); done.
  - assert (Hn : ∀ k, (length params ≤ k)%nat →
      imap (λ i, bulk_value (words_text ws) (k + i)) rest = replicate (length rest) S754_nan).
    { induction rest as [|p rest IH]; intros k Hk; [done|]. rewrite imap_cons.
      cbn [length replicate]. f_equal.
      - unfold bulk_value. destruct (Nat.ltb_spec (length (words_text ws)) ((k + 0 + 1) * 8)); [done|].
        rewrite Hl in *. lia.
      - rewrite <-(IH (S k)) by lia. apply imap_ext. intros i q _. unfold compose. f_equal. lia. }
    by apply Hn.
Qed.

Lemma ParseBulkResponse_roundtrip_witness :
  let p t := MkParam 1000 1 "" "" t false "" "" in
  ParseBulkResponse (response (str "020010") (words_text [7; 0x3F800000]))
    ([p DataTypeInt32; p DataTypeFloat32] ++ [p DataTypeFloat32]) =
  Ok ([of_int 7; to_f64 (Float32frombits 0x3F800000)] ++ [S754_nan]).
Proof.
  intros p.
  apply (ParseBulkResponse_roundtrip (str "020010") [7; 0x3F800000]
    [p DataTypeInt32; p DataTypeFloat32] [p DataTypeFloat32]);
    [done|repeat constructor; lia|done].
Defined.

(** A frame whose checksum is that of another message. *)
Lemma parsePayload_bad_crc prefix c e : length c = 4%nat →
  verifyCRC (prefix ++ c) = Err e → ∃ e', parsePayload (prefix ++ c ++ [FrameTerminator]) = Err e'.
Proof.
  intros Hc He. unfold parsePayload. rewrite app_assoc, TrimSuffix_snoc. cbv zeta.
  destruct (_ || _); [eauto|]. rewrite He. simpl. eauto.
Qed.

(** C27: corrupted frames are refused.  A frame that arrives with its checksum and
    terminator intact, but whose checked part differs from the one that was sealed
    in a run of at most sixteen bits, is never accepted. *)
Theorem parsePayload_rejects_bursts (sent got : bytes) (w s : Z) :
  0 < w < 2 ^ 16 → 0 ≤ s →
  Z.lxor (be_get sent) (be_get got) = Z.shiftl w s →
  ∃ e, parsePayload (got ++ fmtX 4 (CRC16 sent) ++ [FrameTerminator]) = Err e.
Proof.
  intros Hw Hs Hd. pose proof (CRC16_detects_bursts sent got w s Hw Hs Hd) as Hne.
  destruct (verifyCRC (got ++ fmtX 4 (CRC16 sent))) as [[]|e] eqn:E.
  - exfalso. apply verifyCRC_spec in E as [_ E]. destruct (crc_text sent) as [Hx Hl].
    destruct (crc_tail got _ Hl) as [E1 E2]. rewrite E1, E2, Hx in E.
    pose proof (CRC16_range sent).
    rewrite ParseUint_hex_fix in E by (simpl; lia). congruence.
  - apply (parsePayload_bad_crc got _ e); [apply length_crc_text|done].
Qed.

Lemma parsePayload_rejects_bursts_witness :
  ∃ e, parsePayload (str "!0200AB41200008" ++ fmtX 4 (CRC16 (str "!0200AB41200000")) ++ [FrameTerminator])
       = Err e.
Proof.
  apply (parsePayload_rejects_bursts (str "!0200AB41200000") (str "!0200AB41200008") 1 3);
    [lia|lia|vm_compute; reflexivity].
Defined.

Definition terminated (f : bytes) : Prop :=
  ∃ body, f = body ++ [FrameTerminator] ∧ FrameTerminator ∉ body.

Lemma split_go_body cur body data : FrameTerminator ∉ body →
  split_go cur (body ++ FrameTerminator :: data) = (cur ++ body ++ [FrameTerminator]) :: split_go [] data.
Proof.
  revert cur. induction body as [|b body IH]; intros cur Hb; cbn [app split_go].
  - by rewrite bool_decide_true.
  - rewrite bool_decide_false by set_solver. rewrite IH by set_solver.
    by rewrite <-(app_assoc cur).
Qed.

Lemma split_go_rest cur rest : FrameTerminator ∉ rest → split_go cur rest = [].
Proof.
  revert cur. induction rest as [|b rest IH]; intros cur Hb; cbn [split_go]; [done|].
  rewrite bool_decide_false by set_solver. apply IH. set_solver.
Qed.

Lemma SplitFrames_concat fs rest : Forall terminated fs → FrameTerminator ∉ rest →
  SplitFrames (concat fs ++ rest) = fs.
Proof.
  intros Hfs Hr. unfold SplitFrames. induction Hfs as [|f fs (body & -> & Hb) _ IH]; simpl.
  - by apply split_go_rest.
  - rewrite <-!app_assoc. cbn [app]. by rewrite split_go_body, IH.
Qed.

Lemma split_go_sound data cur : FrameTerminator ∉ cur →
  Forall terminated (split_go cur data) ∧
  ∃ rest, cur ++ data = concat (split_go cur data) ++ rest ∧ FrameTerminator ∉ rest.
Proof.
  revert cur. induction data as [|b data IH]; intros cur Hcur; cbn [split_go].
  - split; [done|]. exists cur. by rewrite app_nil_r.
  - destruct (decide (b = FrameTerminator)) as [->|Hb].
    + rewrite bool_decide_true by done.
      destruct (IH [] (not_elem_of_nil _)) as (Hf & rest & Heq & Hr). split.
      * constructor; [by exists cur|done].
      * exists rest. split; [|done]. cbn [concat]. by rewrite <-!app_assoc, <-Heq.
    + rewrite bool_decide_false by done.
      assert (Hcur' : FrameTerminator ∉ cur ++ [b]).
      { rewrite not_elem_of_app, list_elem_of_singleton. auto. }
      destruct (IH _ Hcur') as (Hf & rest & Heq & Hr).
      split; [done|]. exists rest. by rewrite <-Heq, <-app_assoc.
Qed.

(** The splitter returns exactly the complete frames of a buffer: [fs] is
    its result if and only if the buffer is the frames of [fs] in order, each
    ended by its only carriage return, and a rest without one. *)
Theorem SplitFrames_spec (data : bytes) (fs : list bytes) :
  SplitFrames data = fs ↔
  Forall terminated fs ∧ ∃ rest, data = concat fs ++ rest ∧ FrameTerminator ∉ rest.
Proof.
  split.
  - intros <-. apply (split_go_sound data []), not_elem_of_nil.
  - intros (Hfs & rest & -> & Hr). by apply SplitFrames_concat.
Qed.

(** *** Requests *)
Lemma hex_no_terminator l : Forall (λ b, is_hex b = true) l → FrameTerminator ∉ l.
Proof. intros H Hin. rewrite Forall_forall in H. by apply H in Hin. Qed.

Definition request_header (addr seq : Z) : bytes := hex_fix 2 addr ++ hex_fix 4 seq.

Lemma length_request_header addr seq : length (request_header addr seq) = 6%nat.
Proof. unfold request_header. by rewrite length_app, !length_hex_fix. Qed.

Lemma appendCRC_shape addr seq body : 0 ≤ addr < 256 → 0 ≤ seq < 65536 →
  appendCRC addr seq body = seal ("#"%byte :: request_header addr seq ++ body).
Proof.
  intros Ha Hs. rewrite appendCRC_seal. unfold request_header.
  by rewrite !fmtX_fix, app_assoc by (simpl; lia).
Qed.

Lemma seal_terminated prefix : FrameTerminator ∉ prefix → terminated (seal prefix).
Proof.
  intros Hp. exists (prefix ++ fmtX 4 (CRC16 prefix)). split; [unfold seal; by rewrite app_assoc|].
  rewrite (proj1 (crc_text prefix)). apply not_elem_of_app. split; [done|].
  apply hex_no_terminator, hex_fix_is_hex.
Qed.

Lemma request_terminated addr seq body : 0 ≤ addr < 256 → 0 ≤ seq < 65536 →
  FrameTerminator ∉ body → terminated (appendCRC addr seq body).
Proof.
  intros Ha Hs Hb. rewrite appendCRC_shape by done. apply seal_terminated.
  apply not_elem_of_cons. split; [done|]. unfold request_header.
  rewrite !not_elem_of_app. split; [split|done]; apply hex_no_terminator, hex_fix_is_hex.
Qed.

(** Requests survive a byte stream.  Frames built for addresses and sequence
    numbers in range from bodies without a carriage return, written one after
    another, are split back into the same frames by [SplitFrames], even when an
    incomplete frame follows, and each of them passes the checksum test. *)
Theorem requests_split_and_verify (reqs : list (Z * Z * bytes)) (partial : bytes) :
  Forall (λ '(addr, seq, body), 0 ≤ addr < 256 ∧ 0 ≤ seq < 65536 ∧ FrameTerminator ∉ body) reqs →
  FrameTerminator ∉ partial →
  let frames := (λ '(addr, seq, body), appendCRC addr seq body) <$> reqs in
  SplitFrames (concat frames ++ partial) = frames ∧
  Forall (λ f, verifyCRC (TrimSuffix f [FrameTerminator]) = Ok ()) frames.
Proof.
  intros Hr Hp frames. split.
  - apply SplitFrames_concat; [|done]. apply Forall_fmap. eapply Forall_impl; [done|].
    intros [[addr seq] body] (Ha & Hs & Hb). by apply request_terminated.
  - apply Forall_fmap. eapply Forall_impl; [done|]. intros [[addr seq] body] _. simpl.
    rewrite appendCRC_seal, seal_trim. apply verifyCRC_seal. simpl. lia.
Qed.

Lemma requests_split_and_verify_witness :
  let frames := [BuildSingleGetFrame 2 1 1000 1; BuildResetFrame 2 2] in
  SplitFrames (concat frames ++ str "#02") = frames ∧
  Forall (λ f, verifyCRC (TrimSuffix f [FrameTerminator]) = Ok ()) frames.
Proof.
  apply (requests_split_and_verify [(2, 1, str "?VR03E801"); (2, 2, str "RS")] (str "#02")).
  - repeat constructor; try lia; apply (bool_decide_unpack _); vm_compute; exact I.
  - apply (bool_decide_unpack _). vm_compute. exact I.
Defined.

(** *** Acknowledgements *)
Definition bare_ack (frame header : bytes) (crc : Z) : Prop :=
  ∃ c, frame = "!"%byte :: header ++ c ∧ length c = 4%nat ∧ ParseUint c 16 16 = Ok crc.

Lemma slice_header (b : byte) (header rest : bytes) : length header = 6%nat →
  slice (b :: header ++ rest) 1 7 = header.
Proof.
  intros Hh. unfold slice. change (drop 1 (b :: header ++ rest)) with (drop 0 (header ++ rest)).
  rewrite drop_0. change (7 - 1)%nat with 6%nat. rewrite <-Hh. apply take_app_length.
Qed.

Lemma bare_ack_frame (frame header : bytes) : length header = 6%nat →
  length frame = 11%nat → frame !! 0%nat = Some "!"%byte → slice frame 1 7 = header →
  frame = "!"%byte :: header ++ drop 7 frame.
Proof.
  intros Hh Hl H0 Hs. destruct frame as [|b frame]; [done|]. injection H0 as ->. f_equal.
  unfold slice in Hs. change (7 - 1)%nat with 6%nat in Hs. change (drop 7 ("!"%byte :: frame)) with (drop 6 frame).
  rewrite <-Hs. change (drop 1 ("!"%byte :: frame)) with (drop 0 frame). rewrite drop_0.
  by rewrite take_drop.
Qed.

Lemma isBareRequestCRCAck_spec raw addr seq body : 0 ≤ addr < 256 → 0 ≤ seq < 65536 →
  let header := request_header addr seq in
  isBareRequestCRCAck raw (appendCRC addr seq body) = true ↔
  bare_ack (TrimSuffix raw [FrameTerminator]) header (CRC16 ("#"%byte :: header ++ body)).
Proof.
  intros Ha Hs header. pose proof (length_request_header addr seq) as Hh. fold header in Hh.
  unfold isBareRequestCRCAck. rewrite appendCRC_shape, seal_trim by done. fold header.
  set (prefix := "#"%byte :: header ++ body).
  destruct (crc_tail prefix _ (length_crc_text prefix)) as [-> ->].
  pose proof (CRC16_range prefix) as Hc. destruct (crc_text prefix) as [Hx _].
  rewrite Hx, ParseUint_hex_fix, (bool_decide_true (_ !! 0%nat = Some "#"%byte)) by (simpl; done || lia).
  assert (slice (prefix ++ hex_fix 4 (CRC16 prefix)) 1 7 = header) as ->.
  { unfold prefix. rewrite slice_app_l by (rewrite length_cons, length_app; lia). by apply slice_header. }
  destruct (Nat.ltb_spec (length (prefix ++ hex_fix 4 (CRC16 prefix))) 11) as [Hlt|_].
  { unfold prefix in Hlt. rewrite length_app, length_cons, length_app, length_hex_fix in Hlt. lia. }
  set (frame := TrimSuffix raw [FrameTerminator]).
  unfold u16. rewrite !(Z.mod_small (CRC16 prefix)), Z.eqb_refl by done. simpl negb. rewrite !orb_false_r.
  split.
  - intros H. destruct (Nat.eqb_spec (length frame) 11) as [Hl|]; [|done].
    destruct (decide (frame !! 0%nat = Some "!"%byte)) as [H0|];
      [|by rewrite (bool_decide_false (frame !! 0%nat = _)) in H].
    destruct (decide (slice frame 1 7 = header)) as [Hsl|];
      [|by rewrite (bool_decide_false (slice _ _ _ = _)), bool_decide_true in H].
    rewrite !bool_decide_true in H by done. simpl in H. exists (drop 7 frame).
    split; [by apply bare_ack_frame|]. split; [rewrite length_drop; lia|].
    destruct (ParseUint (drop 7 frame) 16 16) as [r|] eqn:E; [|done].
    apply ParseUint_range in E as Hr; [|lia..]. rewrite Z.mod_small in H by lia.
    apply Z.eqb_eq in H. by subst.
  - intros (c & -> & Hl & Hp). rewrite length_cons, length_app, Hh, Hl.
    rewrite (bool_decide_true (Some "!"%byte = _)) by done.
    assert (slice ("!"%byte :: header ++ c) 1 7 = header) as ->.
    { by apply slice_header. }
    rewrite bool_decide_true by done. cbn [negb orb Nat.eqb].
    assert (drop 7 ("!"%byte :: header ++ c) = c) as -> by (rewrite <-Hh; apply (drop_app_length ("!"%byte :: header) c)).
    rewrite Hp. rewrite Z.mod_small by done. by rewrite Z.eqb_refl.
Qed.

Lemma ack_accepted header request : length header = 6%nat →
  ParseWriteResponseForRequest (response header (str "+")) request = Ok ().
Proof.
  intros Hh. unfold ParseWriteResponseForRequest, ParseWriteResponse.
  change (str "+") with ["+"%byte]. by rewrite (parsePayload_ack header []).
Qed.

Lemma bare_ack_accepted addr seq body : 0 ≤ addr < 256 → 0 ≤ seq < 65536 →
  ParseWriteResponseForRequest
    ("!"%byte :: request_header addr seq ++
       fmtX 4 (CRC16 ("#"%byte :: request_header addr seq ++ body)) ++ [FrameTerminator])
    (appendCRC addr seq body) = Ok ().
Proof.
  intros Ha Hs. unfold ParseWriteResponseForRequest.
  destruct (ParseWriteResponse _) as [[]|e]; [done|].
  rewrite (proj2 (isBareRequestCRCAck_spec _ addr seq body Ha Hs)); [done|].
  set (crc := CRC16 _). exists (fmtX 4 crc). pose proof (CRC16_range ("#"%byte :: request_header addr seq ++ body)).
  fold crc in H. rewrite app_assoc, app_comm_cons, TrimSuffix_snoc. split; [done|].
  unfold crc at 1. split; [apply length_crc_text|].
  by rewrite fmtX_fix, ParseUint_hex_fix by (simpl; lia).
Qed.

Lemma nack_refused header request code : length header = 6%nat → 0 ≤ code < 256 →
  ParseWriteResponseForRequest (response header ("-"%byte :: fmtX 2 code)) request =
  Err (nack_error "mecom: nack %02X" code).
Proof.
  intros Hh Hc. unfold ParseWriteResponseForRequest, ParseWriteResponse.
  rewrite parsePayload_nack by done. cbn [mbind result_bind].
  assert (isBareRequestCRCAck (response header ("-"%byte :: fmtX 2 code)) request = false) as ->; [|done].
  unfold isBareRequestCRCAck. rewrite response_frame.
  rewrite (proj2 (Nat.eqb_neq _ 11)); [done|].
  rewrite length_app, length_cons, length_app, length_cons, length_crc_text, Hh.
  rewrite fmtX_fix, length_hex_fix by (simpl; lia). lia.
Qed.

(** Which answers acknowledge a write.  For a request in range, an answer is
    accepted exactly when it is a well-formed positive response or the bare
    acknowledgement of that very request: [!], the request's own address and
    sequence number, and the request's own checksum, and nothing else. *)
Theorem ParseWriteResponseForRequest_spec (raw body : bytes) (addr seq : Z) :
  0 ≤ addr < 256 → 0 ≤ seq < 65536 →
  let header := request_header addr seq in
  ParseWriteResponseForRequest raw (appendCRC addr seq body) = Ok () ↔
  (∃ payload, parsePayload raw = Ok payload) ∨
  bare_ack (TrimSuffix raw [FrameTerminator]) header (CRC16 ("#"%byte :: header ++ body)).
Proof.
  intros Ha Hs header. unfold ParseWriteResponseForRequest, ParseWriteResponse.
  pose proof (isBareRequestCRCAck_spec raw addr seq body Ha Hs) as Hb. cbv zeta in Hb.
  fold header in Hb. rewrite <-Hb.
  destruct (parsePayload raw) as [p|e]; simpl; [by split; eauto|].
  destruct (isBareRequestCRCAck _ _); (split; [by auto|by intros [[? [=]]|?]]).
Qed.

Lemma ParseWriteResponseForRequest_spec_witness :
  let request := BuildResetFrame 2 7 in
  ParseWriteResponseForRequest (str "!020007" ++ slice request 9 14) request = Ok () ∧
  parsePayload (str "!020007" ++ slice request 9 14) ≠ Ok [].
Proof.
  split; [|vm_compute; congruence].
  apply (ParseWriteResponseForRequest_spec _ (str "RS") 2 7); [lia|lia|]. right.
  eexists. split; [vm_compute; reflexivity|]. split; vm_compute; reflexivity.
Defined.
