(* ===== verification/RingFrames.v ===== *)
(** * RingFrames: the CRTVStream frames carried by ring reads
    ([mecom/protocol.go])

    A frame is [0x88 kind payload 0x88 0x10]; a byte 0x88 of the payload is
    doubled.  [ParseRingFrames] cuts complete frames out of a buffer and hands the
    start of an incomplete frame back, for the next read to complete. *)
From stdpp Require Import prelude strings list.
From Stdlib Require Import Strings.Byte Floats.SpecFloat.
From S2P Require Import Prelude Text Floats Crc Protocol.
Open Scope Z_scope.

Record RingSample := MkRingSample {
  ConfigIndex : Z;
  SampleType : DataType;
  Value : f64;
  At : Z }.

Record RingFrame := MkRingFrame {
  Sync : bool;
  HasCaptureConfigID : bool;
  CaptureConfigID : Z;
  Timestamp10us : Z;
  Samples : list RingSample;
  Raw : bytes }.

(** ** Operations *)
Fixpoint findRingStart (data : bytes) : option nat :=
  match data with
  | b :: ((c :: _) as data') =>
      if bool_decide (b = x88) && (bool_decide (c = x00) || bool_decide (c = x01))
      then Some 0%nat else S <$> findRingStart data'
  | _ => None
  end.

Fixpoint findRingEnd (data : bytes) : option nat :=
  match data with
  | b :: ((c :: data'') as data') =>
      if negb (bool_decide (b = x88)) then S <$> findRingEnd data'
      else match c with
           | x88 => (λ n, S (S n)) <$> findRingEnd data''
           | x10 => Some 0%nat
           | _ => S <$> findRingEnd data'
           end
  | _ => None
  end.

Fixpoint unescapeRingPayload (data : bytes) : res bytes :=
  match data with
  | [] => Ok []
  | b :: data' =>
      if negb (bool_decide (b = x88)) then out ← unescapeRingPayload data'; Ok (b :: out)
      else match data' with
           | [] => Err (Errorf "mecom: truncated ring escape" [])
           | c :: data'' =>
               if negb (bool_decide (c = x88)) then
                 Err (Errorf "mecom: unexpected ring marker 0x88 0x%02X in payload" [bz c])
               else out ← unescapeRingPayload data''; Ok (x88 :: out)
           end
  end.

(** The type byte of an extended sample. *)
Definition sample_type (tag : byte) (payload : bytes) (offset : nat) (dataType : DataType) :
    res (DataType * nat) :=
  if negb (Z.land (bz tag) 0x80 =? 0) then
    match payload !! offset with
    | None => Err (Errorf "mecom: truncated ring sample type" [])
    | Some x01 => Ok (DataTypeFloat32, S offset)
    | Some x02 => Ok (DataTypeInt32, S offset)
    | Some t => Err (Errorf "mecom: unsupported ring sample type 0x%02X" [bz t])
    end
  else Ok (dataType, offset).

Fixpoint decode_samples (fuel : nat) (payload : bytes) (offset : nat)
    (config : list RingCaptureParameter) : res (list RingSample) :=
  match fuel with
  | O => Ok []
  | S fuel' =>
      if (length payload <=? offset)%nat then Ok []
      else if (length payload <? offset + 5)%nat then
        Err (Errorf "mecom: truncated ring sample" [])
      else
        let tag := nth offset payload x00 in
        let index := Z.land (bz tag) 0x7F in
        let dataType :=
          match config !! Z.to_nat index with
          | Some p => if bool_decide (Type_ (rcp_Parameter p) = ""%string)
                      then DataTypeFloat32 else Type_ (rcp_Parameter p)
          | None => DataTypeFloat32
          end in
        '(dataType, offset) ← sample_type tag payload (S offset) dataType;
        if (length payload <? offset + 4)%nat then
          Err (Errorf "mecom: truncated ring sample value" [])
        else
          let bits := le_get (slice payload offset (offset + 4)) in
          let value := if bool_decide (dataType = DataTypeInt32) then of_int (i32 bits)
                       else to_f64 (Float32frombits bits) in
          rest ← decode_samples fuel' payload (offset + 4) config;
          Ok (MkRingSample index dataType value 0 :: rest)
  end.

(** Every sample takes five bytes or more, so [length payload] rounds are enough. *)
Definition decodeRingFrame (kind : byte) (payload raw : bytes)
    (config : list RingCaptureParameter) : res RingFrame :=
  if bool_decide (kind = x01) then
    if (length payload <? 4)%nat then Err (Errorf "mecom: sync ring frame too short" [])
    else
      samples ← decode_samples (length payload) payload 4 config;
      Ok (MkRingFrame true true (le_get (slice payload 0 2)) (le_get (slice payload 2 4)) samples raw)
  else
    if (length payload <? 2)%nat then Err (Errorf "mecom: ring frame too short" [])
    else
      samples ← decode_samples (length payload) payload 2 config;
      Ok (MkRingFrame false false 0 (le_get (slice payload 0 2)) samples raw).

(** The frames, the partial tail and the error of [ParseRingFrames].  [data] is
    [data[offset:]] of the Go loop; [None] is a loop that did not finish within
    [fuel] rounds. *)
Fixpoint parse_ring_loop (fuel : nat) (frames : list RingFrame) (data : bytes)
    (config : list RingCaptureParameter) : option (list RingFrame * bytes * option error) :=
  match fuel with
  | O => None
  | S fuel' =>
      match findRingStart data with
      | None => Some (frames, [], None)
      | Some start =>
          match findRingEnd (drop (start + 2) data) with
          | None => Some (frames, drop start data, None)
          | Some end_ =>
              let end_ := (end_ + start + 2)%nat in
              match unescapeRingPayload (slice data (start + 2) end_) with
              | Err e => Some (frames, [], Some e)
              | Ok unescaped =>
                  match decodeRingFrame (nth (start + 1) data x00) unescaped
                          (slice data start (end_ + 2)) config with
                  | Err e => Some (frames, [], Some e)
                  | Ok frame =>
                      let frames := frames ++ [frame] in
                      let offset := (end_ + 2)%nat in
                      if (length data <=? offset)%nat then Some (frames, [], None)
                      else parse_ring_loop fuel' frames (drop offset data) config
                  end
              end
          end
      end
  end.
Definition ParseRingFrames (data : bytes) (config : list RingCaptureParameter) :
    option (list RingFrame * bytes * option error) :=
  parse_ring_loop (S (length data)) [] data config.

(** ** Specification: the stream a device sends *)
Definition escape (payload : bytes) : bytes :=
  b ← payload; if bool_decide (b = x88) then [x88; x88] else [b].
Definition marker (kind : byte) : Prop := kind = x00 ∨ kind = x01.
Definition ring_encode (kind : byte) (payload : bytes) : bytes :=
  x88 :: kind :: escape payload ++ [x88; x10].

(** ** Lemmas *)
Lemma escape_cons b p : escape (b :: p) = (if bool_decide (b = x88) then [x88; x88] else [b]) ++ escape p.
Proof. done. Qed.

Lemma findRingEnd_other b data : b ≠ x88 → findRingEnd (b :: data) = S <$> findRingEnd data.
Proof. intros Hb. destruct data; [done|]. cbn [findRingEnd]. by rewrite bool_decide_false. Qed.

Lemma findRingEnd_escape p rest :
  findRingEnd (escape p ++ x88 :: x10 :: rest) = Some (length (escape p)).
Proof.
  induction p as [|b p IH]; [done|]. rewrite escape_cons, <-app_assoc.
  destruct (decide (b = x88)) as [->|Hb].
  - rewrite bool_decide_true by done. cbn [app findRingEnd]. rewrite IH. done.
  - rewrite bool_decide_false by done. cbn [app]. rewrite findRingEnd_other, IH by done. done.
Qed.

(** No end is found before the end marker is complete. *)
Lemma findRingEnd_partial p n : (n < length (escape p) + 2)%nat →
  findRingEnd (take n (escape p ++ [x88; x10])) = None.
Proof.
  revert n. induction p as [|b p IH]; intros n Hn.
  - simpl in Hn. destruct n as [|[|n]]; [done..|lia].
  - rewrite escape_cons, <-app_assoc in *. destruct (decide (b = x88)) as [->|Hb].
    + rewrite bool_decide_true in * by done. rewrite length_app in Hn. simpl in Hn.
      destruct n as [|[|n]]; [done..|]. cbn [app take findRingEnd].
      rewrite bool_decide_true by done. simpl. rewrite IH by lia. done.
    + rewrite bool_decide_false in * by done. rewrite length_app in Hn. simpl in Hn.
      destruct n as [|n]; [done|]. cbn [app take]. rewrite findRingEnd_other, IH by (done || lia).
      done.
Qed.

Lemma unescape_escape p : unescapeRingPayload (escape p) = Ok p.
Proof.
  induction p as [|b p IH]; [done|]. rewrite escape_cons.
  destruct (decide (b = x88)) as [->|Hb].
  - rewrite bool_decide_true by done. cbn [app unescapeRingPayload].
    rewrite bool_decide_true by done. simpl. by rewrite IH.
  - rewrite bool_decide_false by done. cbn [app unescapeRingPayload].
    rewrite bool_decide_false by done. simpl. by rewrite IH.
Qed.

Lemma findRingStart_marker kind rest : marker kind → findRingStart (x88 :: kind :: rest) = Some 0%nat.
Proof. by intros [-> | ->]. Qed.

Lemma length_ring_encode kind p : length (ring_encode kind p) = (length (escape p) + 4)%nat.
Proof. unfold ring_encode. simpl. rewrite length_app. simpl. lia. Qed.

(** One round of the loop on a buffer that begins with a whole frame. *)
Lemma parse_ring_step fuel frames kind p rest config : marker kind →
  parse_ring_loop (S fuel) frames (ring_encode kind p ++ rest) config =
  match decodeRingFrame kind p (ring_encode kind p) config with
  | Err e => Some (frames, [], Some e)
  | Ok frame =>
      if (length rest =? 0)%nat then Some (frames ++ [frame], [], None)
      else parse_ring_loop fuel (frames ++ [frame]) rest config
  end.
Proof.
  intros Hk. cbn [parse_ring_loop].
  assert (Henc : ring_encode kind p ++ rest = x88 :: kind :: escape p ++ x88 :: x10 :: rest).
  { unfold ring_encode. simpl. by rewrite <-app_assoc. }
  rewrite Henc at 1. rewrite findRingStart_marker by done.
  assert (drop (0 + 2) (ring_encode kind p ++ rest) = escape p ++ x88 :: x10 :: rest) as -> by (by rewrite Henc).
  rewrite findRingEnd_escape. cbv zeta.
  assert (slice (ring_encode kind p ++ rest) (0 + 2) (length (escape p) + 0 + 2) = escape p) as ->.
  { rewrite Henc. unfold slice. replace (_ - _)%nat with (length (escape p)) by lia.
    apply take_app_length. }
  rewrite unescape_escape.
  assert (nth (0 + 1) (ring_encode kind p ++ rest) x00 = kind) as -> by (by rewrite Henc).
  assert (length (escape p) + 0 + 2 + 2 = length (ring_encode kind p))%nat as ->
    by (rewrite length_ring_encode; lia).
  assert (slice (ring_encode kind p ++ rest) 0 (length (ring_encode kind p)) = ring_encode kind p) as ->.
  { unfold slice. rewrite drop_0, Nat.sub_0_r. apply take_app_length. }
  destruct (decodeRingFrame _ _ _ _) as [frame|e]; [|done].
  rewrite drop_app_length, length_app.
  destruct (Nat.eqb_spec (length rest) 0), (Nat.leb_spec (length (ring_encode kind p) + length rest)
    (length (ring_encode kind p))); lia || done.
Qed.

(** The loop has consumed the frames that end before [offset], so the fuel is
    enough: it returns for every buffer. *)
Lemma findRingStart_bound data n : findRingStart data = Some n → (n + 2 ≤ length data)%nat.
Proof.
  revert n. induction data as [|b data IH]; intros n H; [done|].
  destruct data as [|c data]; [done|]. cbn [findRingStart] in H.
  destruct (_ && _); [simplify_eq; simpl; lia|].
  apply fmap_Some in H as (m & Hm & ->). specialize (IH m Hm). simpl in *. lia.
Qed.

Lemma parse_ring_loop_total fuel frames data config : (length data < fuel)%nat →
  is_Some (parse_ring_loop fuel frames data config).
Proof.
  revert frames data. induction fuel as [|fuel IH]; intros frames data Hl; [lia|].
  cbn [parse_ring_loop]. destruct (findRingStart data) as [start|] eqn:Hs; [|by eauto].
  destruct (findRingEnd _) as [end_|]; [|by eauto]. cbv zeta.
  destruct (unescapeRingPayload _) as [u|]; [|by eauto].
  destruct (decodeRingFrame _ _ _ _) as [frame|]; [|by eauto].
  destruct (Nat.leb_spec (length data) (end_ + start + 2 + 2)); [by eauto|].
  apply IH. rewrite length_drop. lia.
Qed.

Lemma ParseRingFrames_returns data config : is_Some (ParseRingFrames data config).
Proof. apply parse_ring_loop_total. lia. Qed.

Definition stream_tail (tail : bytes) : Prop :=
  tail = [] ∨ ∃ kind p n, marker kind ∧ (2 ≤ n < length (ring_encode kind p))%nat ∧
                          tail = take n (ring_encode kind p).

Lemma parse_ring_tail fuel frames tail config : stream_tail tail →
  parse_ring_loop (S fuel) frames tail config = Some (frames, tail, None).
Proof.
  intros [->|(kind & p & n & Hk & Hn & ->)]; [done|]. rewrite length_ring_encode in Hn.
  destruct n as [|[|n]]; [lia..|]. unfold ring_encode.
  change (take (S (S n)) (x88 :: kind :: escape p ++ [x88; x10]))
    with (x88 :: kind :: take n (escape p ++ [x88; x10])).
  cbn [parse_ring_loop]. rewrite findRingStart_marker by done.
  change (drop (0 + 2) (x88 :: kind :: take n (escape p ++ [x88; x10])))
    with (take n (escape p ++ [x88; x10])).
  rewrite findRingEnd_partial by lia. done.
Qed.

Definition encode_all (fs : list (byte * bytes)) : bytes := '(k, p) ← fs; ring_encode k p.
Definition decode_all (config : list RingCaptureParameter) (fs : list (byte * bytes)) :
    res (list RingFrame) :=
  mapM (λ '(k, p), decodeRingFrame k p (ring_encode k p) config) fs.

Lemma encode_all_app f1 f2 : encode_all (f1 ++ f2) = encode_all f1 ++ encode_all f2.
Proof. unfold encode_all. by rewrite bind_app. Qed.

Lemma parse_ring_stream fuel frames fs tail config ds :
  Forall (λ '(k, _), marker k) fs → stream_tail tail → (length fs < fuel)%nat →
  decode_all config fs = Ok ds →
  parse_ring_loop fuel frames (encode_all fs ++ tail) config = Some (frames ++ ds, tail, None).
Proof.
  intros Hm Ht. revert fuel frames ds.
  induction Hm as [|[k p] fs Hk Hm IH]; intros fuel frames ds Hf Hd; cbn [length] in Hf.
  - destruct fuel; [lia|]. injection Hd as <-. rewrite app_nil_r. by apply parse_ring_tail.
  - destruct fuel as [|fuel]; [lia|].
    change (encode_all ((k, p) :: fs)) with (ring_encode k p ++ encode_all fs).
    unfold decode_all in Hd. cbn [mapM] in Hd. apply bind_Ok_inv in Hd as (frame & Hfr & Hd).
    apply bind_Ok_inv in Hd as (ds' & Hds & Hd). inv_result.
    rewrite <-app_assoc, parse_ring_step, Hfr by done.
    destruct (Nat.eqb_spec (length (encode_all fs ++ tail)) 0) as [H0|_].
    + assert (fs = [] ∧ tail = []) as [-> ->].
      { rewrite length_app in H0. destruct fs as [|[k' p'] fs].
        - destruct tail; [done|simpl in H0; lia].
        - change (encode_all ((k', p') :: fs)) with (ring_encode k' p' ++ encode_all fs) in H0.
          rewrite length_app, length_ring_encode in H0. lia. }
      by injection Hds as <-.
    + rewrite (IH fuel (frames ++ [frame]) ds') by (done || lia). by rewrite <-app_assoc.
Qed.

Lemma length_encode_all fs : (length fs ≤ length (encode_all fs))%nat.
Proof.
  induction fs as [|[k p] fs IH]; [done|].
  change (encode_all ((k, p) :: fs)) with (ring_encode k p ++ encode_all fs).
  rewrite length_app, length_ring_encode. simpl. lia.
Qed.

Lemma ParseRingFrames_tail fs tail config ds :
  Forall (λ '(k, _), marker k) fs → stream_tail tail → decode_all config fs = Ok ds →
  ParseRingFrames (encode_all fs ++ tail) config = Some (ds, tail, None).
Proof.
  intros Hm Ht Hd. apply (parse_ring_stream _ [] fs tail config ds); [done..| |done].
  rewrite length_app. pose proof (length_encode_all fs). lia.
Qed.

(** *** Samples *)
(** A sample as the device sends it: slot, type byte (absent for the configured
    type), bits. *)
Record sent_sample := MkSent { slot : Z; ext : option bool; bits32 : Z }.
Definition sent_ok (x : sent_sample) : Prop := 0 ≤ slot x < 128 ∧ 0 ≤ bits32 x < 2 ^ 32.
Definition sample_encode (x : sent_sample) : bytes :=
  match ext x with
  | None => [zb (slot x)]
  | Some is_int => [zb (slot x + 128); if is_int then x02 else x01]
  end ++ le_put 4 (bits32 x).
Definition configured_type (config : list RingCaptureParameter) (index : Z) : DataType :=
  match config !! Z.to_nat index with
  | Some p => if bool_decide (Type_ (rcp_Parameter p) = ""%string)
              then DataTypeFloat32 else Type_ (rcp_Parameter p)
  | None => DataTypeFloat32
  end.
Definition sample_decode (config : list RingCaptureParameter) (x : sent_sample) : RingSample :=
  let t := match ext x with
           | None => configured_type config (slot x)
           | Some is_int => if is_int then DataTypeInt32 else DataTypeFloat32
           end in
  MkRingSample (slot x) t (word_value t (bits32 x)) 0.

Lemma slot_tag s : 0 ≤ s < 128 →
  Z.land (bz (zb s)) 0x7F = s ∧ Z.land (bz (zb s)) 0x80 = 0 ∧
  Z.land (bz (zb (s + 128))) 0x7F = s ∧ Z.land (bz (zb (s + 128))) 0x80 ≠ 0.
Proof.
  intros Hs. pose proof (range_check (λ s,
    (Z.land (bz (zb s)) 0x7F =? s) && (Z.land (bz (zb s)) 0x80 =? 0) &&
    (Z.land (bz (zb (s + 128))) 0x7F =? s) && negb (Z.land (bz (zb (s + 128))) 0x80 =? 0))
    128 eq_refl s Hs) as H. cbv beta in H.
  rewrite !andb_true_iff, negb_true_iff, !Z.eqb_eq, Z.eqb_neq in H.
  destruct H as [[[? ?] ?] ?]. auto.
Qed.

(** The head of a sample, up to its value. *)
Definition sample_head (x : sent_sample) : bytes :=
  match ext x with
  | None => [zb (slot x)]
  | Some is_int => [zb (slot x + 128); if is_int then x02 else x01]
  end.

Lemma sample_value pre x rest : sent_ok x →
  let payload := pre ++ le_put 4 (bits32 x) ++ rest in
  (length payload <? length pre + 4)%nat = false ∧
  le_get (slice payload (length pre) (length pre + 4)) = bits32 x.
Proof.
  intros [_ Hb] payload. unfold payload. split.
  - apply Nat.ltb_ge. rewrite !length_app, length_le_put. lia.
  - rewrite <-(Nat.add_0_r (length pre)) at 1. rewrite slice_skip.
    change (slice (le_put 4 (bits32 x) ++ rest) 0 4) with (le_put 4 (bits32 x)).
    apply le_get_put_small. simpl. lia.
Qed.

Lemma sample_head_type pre x rest config : sent_ok x →
  let payload := pre ++ sample_head x ++ rest in
  let tag := nth (length pre) payload x00 in
  Z.land (bz tag) 0x7F = slot x ∧
  sample_type tag payload (S (length pre)) (configured_type config (slot x)) =
  Ok (SampleType (sample_decode config x), length (pre ++ sample_head x)).
Proof.
  intros [Hs _] payload tag. destruct (slot_tag (slot x) Hs) as (H1 & H2 & H3 & H4).
  rewrite length_app. unfold tag, payload, sample_type, sample_head, sample_decode.
  destruct (ext x) as [is_int|]; rewrite app_nth2, Nat.sub_diag by lia; cbn [app nth length SampleType].
  - split; [done|]. destruct (Z.eqb_spec (Z.land (bz (zb (slot x + 128))) 0x80) 0); [done|].
    cbn [negb]. rewrite lookup_app_r by lia. replace (S (length pre) - length pre)%nat with 1%nat by lia.
    destruct is_int; cbn; do 2 f_equal; lia.
  - split; [done|]. rewrite H2. cbn. do 2 f_equal. lia.
Qed.

Lemma decode_sample_step fuel pre x rest config : sent_ok x →
  let payload := pre ++ sample_encode x ++ rest in
  decode_samples (S fuel) payload (length pre) config =
  (more ← decode_samples fuel payload (length (pre ++ sample_encode x)) config;
   Ok (sample_decode config x :: more)).
Proof.
  intros Hx payload. cbn [decode_samples].
  assert (Hp : payload = pre ++ sample_head x ++ le_put 4 (bits32 x) ++ rest).
  { unfold payload, sample_encode, sample_head. by rewrite <-!app_assoc. }
  destruct (sample_head_type pre x (le_put 4 (bits32 x) ++ rest) config Hx) as [Htag Hty].
  rewrite <-Hp in Htag, Hty.
  destruct (sample_value (pre ++ sample_head x) x rest Hx) as [Hlen Hval].
  rewrite <-app_assoc, <-Hp in Hlen, Hval.
  assert (Hl : (length pre + 5 ≤ length payload)%nat).
  { rewrite Hp, !length_app, length_le_put. unfold sample_head. destruct (ext x); simpl; lia. }
  destruct (Nat.leb_spec (length payload) (length pre)); [lia|].
  destruct (Nat.ltb_spec (length payload) (length pre + 5)); [lia|]. cbv zeta.
  rewrite Htag. fold (configured_type config (slot x)). rewrite Hty. cbn [mbind result_bind].
  rewrite Hlen, Hval.
  assert (length (pre ++ sample_head x) + 4 = length (pre ++ sample_encode x))%nat as ->.
  { unfold sample_encode. fold (sample_head x). rewrite !length_app, length_le_put. lia. }
  done.
Qed.

Lemma decode_samples_all fuel pre xs config : Forall sent_ok xs → (length xs < fuel)%nat →
  decode_samples fuel (pre ++ (xs ≫= sample_encode)) (length pre) config =
  Ok (sample_decode config <$> xs).
Proof.
  intros Hxs. revert fuel pre. induction Hxs as [|x xs Hx _ IH]; intros fuel pre Hf.
  - destruct fuel; [done|]. cbn [decode_samples mbind list_bind]. rewrite app_nil_r, Nat.leb_refl. done.
  - destruct fuel as [|fuel]; [lia|].
    change ((x :: xs) ≫= sample_encode) with (sample_encode x ++ (xs ≫= sample_encode)).
    rewrite decode_sample_step by done. rewrite app_assoc, IH by (simpl in *; lia). done.
Qed.

(** *** Frames *)
Record sent_frame := MkSentFrame {
  sync_id : option Z;
  stamp : Z;
  sent : list sent_sample }.
Definition frame_ok (f : sent_frame) : Prop :=
  0 ≤ default 0 (sync_id f) < 65536 ∧ 0 ≤ stamp f < 65536 ∧ Forall sent_ok (sent f).
Definition frame_kind (f : sent_frame) : byte := match sync_id f with Some _ => x01 | None => x00 end.
Definition frame_payload (f : sent_frame) : bytes :=
  match sync_id f with Some id => le_put 2 id | None => [] end ++
  le_put 2 (stamp f) ++ (sent f ≫= sample_encode).
Definition frame_wire (f : sent_frame) : bytes := ring_encode (frame_kind f) (frame_payload f).
Definition frame_decode (config : list RingCaptureParameter) (f : sent_frame) : RingFrame :=
  MkRingFrame (bool_decide (is_Some (sync_id f))) (bool_decide (is_Some (sync_id f)))
    (default 0 (sync_id f)) (stamp f) (sample_decode config <$> sent f) (frame_wire f).

Lemma samples_length xs : (length xs ≤ length (xs ≫= sample_encode))%nat.
Proof.
  induction xs as [|x xs IH]; [done|].
  change ((x :: xs) ≫= sample_encode) with (sample_encode x ++ (xs ≫= sample_encode)).
  rewrite length_app. assert (0 < length (sample_encode x))%nat.
  { unfold sample_encode. destruct (ext x); simpl; lia. }
  simpl. lia.
Qed.

Lemma decodeRingFrame_roundtrip f config : frame_ok f →
  decodeRingFrame (frame_kind f) (frame_payload f) (frame_wire f) config = Ok (frame_decode config f).
Proof.
  intros (Hid & Hst & Hxs). pose proof (samples_length (sent f)) as Hl.
  assert (Hts : le_get (le_put 2 (stamp f)) = stamp f) by (apply le_get_put_small; simpl; lia).
  unfold decodeRingFrame, frame_decode, frame_kind, frame_payload in *.
  destruct (sync_id f) as [id|]; simpl in Hid.
  - assert (Hi : le_get (le_put 2 id) = id) by (apply le_get_put_small; simpl; lia).
    rewrite bool_decide_true by done. rewrite app_assoc.
    set (pre := le_put 2 id ++ le_put 2 (stamp f)).
    assert (Hp : length pre = 4%nat) by done.
    destruct (Nat.ltb_spec (length (pre ++ (sent f ≫= sample_encode))) 4) as [Hlt|_];
      [rewrite length_app in Hlt; lia|].
    pose proof (decode_samples_all (length (pre ++ (sent f ≫= sample_encode))) pre (sent f) config Hxs
      ltac:(rewrite length_app; lia)) as Hd.
    rewrite Hp in Hd. rewrite Hd. cbn [mbind result_bind]. rewrite bool_decide_true by done.
    change (slice (pre ++ (sent f ≫= sample_encode)) 0 2) with (le_put 2 id).
    change (slice (pre ++ (sent f ≫= sample_encode)) 2 4) with (le_put 2 (stamp f)).
    by rewrite Hi, Hts.
  - rewrite (bool_decide_false (x00 = x01)) by done. cbn [app].
    set (pre := le_put 2 (stamp f)). assert (Hp : length pre = 2%nat) by done.
    destruct (Nat.ltb_spec (length (pre ++ (sent f ≫= sample_encode))) 2) as [Hlt|_];
      [rewrite length_app in Hlt; lia|].
    pose proof (decode_samples_all (length (pre ++ (sent f ≫= sample_encode))) pre (sent f) config Hxs
      ltac:(rewrite length_app; lia)) as Hd.
    rewrite Hp in Hd. rewrite Hd. cbn [mbind result_bind]. rewrite bool_decide_false by (intros [? [=]]).
    change (slice (pre ++ (sent f ≫= sample_encode)) 0 2) with (le_put 2 (stamp f)). by rewrite Hts.
Qed.

Definition stream (fs : list sent_frame) : bytes := fs ≫= frame_wire.

Lemma stream_encode fs : stream fs = encode_all ((λ f, (frame_kind f, frame_payload f)) <$> fs).
Proof.
  induction fs as [|f fs IH]; [done|]. change (stream (f :: fs)) with (frame_wire f ++ stream fs).
  by rewrite IH.
Qed.

Lemma stream_marked fs : Forall (λ '(k, _), marker k) ((λ f, (frame_kind f, frame_payload f)) <$> fs).
Proof.
  apply Forall_fmap, Forall_true. intros f. unfold compose, frame_kind, marker.
  destruct (sync_id f); auto.
Qed.

Lemma stream_decode fs config : Forall frame_ok fs →
  decode_all config ((λ f, (frame_kind f, frame_payload f)) <$> fs) = Ok (frame_decode config <$> fs).
Proof.
  induction 1 as [|f fs Hf _ IH]; [done|]. unfold decode_all in *. cbn [fmap list_fmap mapM].
  fold (frame_wire f). rewrite decodeRingFrame_roundtrip by done. cbn [mbind result_bind].
  rewrite IH. done.
Qed.

Lemma ParseRingFrames_stream fs tail config : Forall frame_ok fs → stream_tail tail →
  ParseRingFrames (stream fs ++ tail) config = Some (frame_decode config <$> fs, tail, None).
Proof.
  intros Hf Ht. rewrite stream_encode.
  apply ParseRingFrames_tail; [apply stream_marked|done|by apply stream_decode].
Qed.

Lemma stream_app f1 f2 : stream (f1 ++ f2) = stream f1 ++ stream f2.
Proof. unfold stream. by rewrite bind_app. Qed.

Lemma stream_cons f fs : stream (f :: fs) = frame_wire f ++ stream fs.
Proof. done. Qed.

(** Where a cut of the stream falls: after some whole frames, inside one frame. *)
Lemma stream_cut fs n : (n ≤ length (stream fs))%nat →
  ∃ f1 f2 m, fs = f1 ++ f2 ∧
    take n (stream fs) = stream f1 ++ take m (stream f2) ∧
    drop n (stream fs) = drop m (stream f2) ∧
    (m = 0%nat ∨ ∃ f f2', f2 = f :: f2' ∧ (m < length (frame_wire f))%nat).
Proof.
  revert n. induction fs as [|f fs IH]; intros n Hn.
  - exists [], [], 0%nat. simpl in *. destruct n; [|lia]. auto.
  - rewrite stream_cons in *. rewrite length_app in Hn.
    destruct (decide (n < length (frame_wire f))%nat) as [Hlt|Hge].
    + exists [], (f :: fs), n. split_and!; [done..|]. right. by exists f, fs.
    + destruct (IH (n - length (frame_wire f))%nat ltac:(lia)) as (f1 & f2 & m & -> & Ht & Hd & Hm).
      exists (f :: f1), f2, m. split_and!; [done| |by rewrite <-Hd, drop_app_ge by lia|done].
      by rewrite take_app_ge, Ht, stream_cons, app_assoc by lia.
Qed.

Lemma stream_cut_tail f2 m : m ≠ 1%nat →
  (m = 0%nat ∨ ∃ f f2', f2 = f :: f2' ∧ (m < length (frame_wire f))%nat) →
  stream_tail (take m (stream f2)).
Proof.
  intros Hm1 [->|(f & f2' & -> & Hm)]; [by left|]. destruct (decide (m = 0%nat)) as [->|]; [by left|].
  right. exists (frame_kind f), (frame_payload f), m. split; [|split].
  - unfold frame_kind, marker. destruct (sync_id f); auto.
  - fold (frame_wire f). lia.
  - rewrite stream_cons. by rewrite take_app_le by (fold (frame_wire f); lia).
Qed.

(** A lone 0x88 at the end of a buffer is not handed back. *)
Lemma ParseRingFrames_marker f1 config : Forall frame_ok f1 →
  ParseRingFrames (stream f1 ++ [x88]) config = Some (frame_decode config <$> f1, [], None).
Proof.
  intros Hf.
  assert (Hloop : ∀ fuel frames, (length f1 < fuel)%nat →
    parse_ring_loop fuel frames (stream f1 ++ [x88]) config =
    Some (frames ++ (frame_decode config <$> f1), [], None)).
  { induction Hf as [|g f1 Hg _ IH]; intros fuel frames Hfu.
    - destruct fuel; [lia|]. cbn. by rewrite app_nil_r.
    - destruct fuel as [|fuel]; [simpl in *; lia|]. rewrite stream_cons, <-app_assoc.
      unfold frame_wire at 1. rewrite parse_ring_step by (unfold frame_kind, marker; destruct (sync_id g); auto).
      fold (frame_wire g). rewrite decodeRingFrame_roundtrip by done.
      destruct (Nat.eqb_spec (length (stream f1 ++ [x88])) 0); [rewrite length_app in *; simpl in *; lia|].
      rewrite IH by (simpl in *; lia). by rewrite <-app_assoc. }
  apply (Hloop _ []). rewrite stream_encode, length_app.
  pose proof (length_encode_all ((λ f, (frame_kind f, frame_payload f)) <$> f1)) as Hl.
  rewrite length_fmap in Hl. lia.
Qed.
Lemma ParseRingFrames_lone_marker f1 f2 config : Forall frame_ok f1 →
  (1 = 0 ∨ ∃ f f2', f2 = f :: f2' ∧ (1 < length (frame_wire f)))%nat →
  ParseRingFrames (stream f1 ++ take 1 (stream f2)) config =
  Some (frame_decode config <$> f1, [], None).
Proof.
  intros Hf [|(f & f2' & -> & _)]; [lia|]. change (take 1 (stream (f :: f2'))) with [x88]. by apply ParseRingFrames_marker.
Qed.

(** ** Properties *)

(** C25: the CRTVStream decoder is a left inverse of the device's encoder.  On any
    sequence of well-formed frames (normal or sync, any payload bytes, escaped
    0x88 included, plain or extended samples) followed by the first bytes of
    another frame with any payload, however many but not all of them,
    [ParseRingFrames] returns exactly the whole frames, each sample at its slot,
    type and value, reports no error, and hands back exactly the bytes of the
    incomplete frame; except if they are one byte: a lone 0x88 is dropped. *)
Theorem ParseRingFrames_roundtrip (fs : list sent_frame) (kind : byte) (payload : bytes) (n : nat)
    (config : list RingCaptureParameter) :
  Forall frame_ok fs → marker kind → (n < length (ring_encode kind payload))%nat →
  ParseRingFrames (stream fs ++ take n (ring_encode kind payload)) config =
    Some (frame_decode config <$> fs, if (n =? 1)%nat then [] else take n (ring_encode kind payload), None).
Proof.
  intros Hf Hk Hn. destruct (Nat.eqb_spec n 1) as [->|Hne]; [by apply ParseRingFrames_marker|].
  apply ParseRingFrames_stream; [done|]. destruct n as [|n]; [by left|]. right. exists kind, payload, (S n). split_and!; [done|lia|lia|done].
Qed.

Lemma ParseRingFrames_roundtrip_witness :
  let x := MkSent 3 (Some true) 0x88888801 in
  let f := MkSentFrame (Some 0x88) 0x1088 [x; MkSent 0 None 0x3F800000] in
  ParseRingFrames (stream [f; f] ++ [x88; x00; x88]) [] =
    Some (frame_decode [] <$> [f; f], [x88; x00; x88], None) ∧
  ParseRingFrames (stream [f; f] ++ [x88]) [] = Some (frame_decode [] <$> [f; f], [], None).
Proof.
  intros x f. assert (Hf : Forall frame_ok [f; f]).
  { assert (frame_ok f).
    { split; [simpl; lia|]. split; [simpl; lia|]. repeat constructor; simpl; lia. }
    repeat constructor; done || apply H. }
  split.
  - apply (ParseRingFrames_roundtrip [f; f] x00 [x88] 3 [] Hf); [by left|vm_compute; lia].
  - apply (ParseRingFrames_roundtrip [f; f] x00 [] 1 [] Hf); [by left|vm_compute; lia].
Defined.

(** C28: the parser returns on every input.  Each round of its loop consumes at
    least one byte, so the length of the buffer bounds the number of rounds. *)
Theorem ParseRingFrames_total (data : bytes) (config : list RingCaptureParameter) :
  ∃ frames tail e, ParseRingFrames data config = Some (frames, tail, e).
Proof.
  destruct (ParseRingFrames_returns data config) as [[[f t] e] H].
  by exists f, t, e.
Qed.

(** Chunked reading.  A stream of frames cut into two reads gives, with the
    tail of the first read put before the second, the frames of the stream and
    nothing else -- unless the cut falls between the two bytes of a start marker:
    then the first read drops its last byte, a lone 0x88, instead of handing it
    back. *)
Theorem ParseRingFrames_chunks (fs : list sent_frame) (n : nat)
    (config : list RingCaptureParameter) :
  Forall frame_ok fs → (n ≤ length (stream fs))%nat →
  ∃ f1 f2 m, fs = f1 ++ f2 ∧ take n (stream fs) = stream f1 ++ take m (stream f2) ∧
    (m ≠ 1%nat →
       ParseRingFrames (take n (stream fs)) config =
         Some (frame_decode config <$> f1, take m (stream f2), None) ∧
       ParseRingFrames (take m (stream f2) ++ drop n (stream fs)) config =
         Some (frame_decode config <$> f2, [], None)) ∧
    (m = 1%nat →
       ParseRingFrames (take n (stream fs)) config = Some (frame_decode config <$> f1, [], None)).
Proof.
  intros Hf Hn. destruct (stream_cut fs n Hn) as (f1 & f2 & m & -> & Ht & Hd & Hm).
  apply Forall_app in Hf as [Hf1 Hf2]. exists f1, f2, m. split_and!; [done|done| |].
  - intros Hm1. rewrite Hd, take_drop. split.
    + rewrite Ht. apply ParseRingFrames_stream; [done|]. by apply stream_cut_tail.
    + rewrite <-(app_nil_r (stream f2)). apply ParseRingFrames_stream; [done|by left].
  - intros ->. rewrite Ht. by apply ParseRingFrames_lone_marker.
Qed.

Lemma ParseRingFrames_chunks_witness :
  let f := MkSentFrame None 5 [MkSent 1 None 0x88] in
  ∃ f1 f2 m, [f; f] = f1 ++ f2 ∧ take 13 (stream [f; f]) = stream f1 ++ take m (stream f2) ∧
    (m ≠ 1%nat →
       ParseRingFrames (take 13 (stream [f; f])) [] =
         Some (frame_decode [] <$> f1, take m (stream f2), None) ∧
       ParseRingFrames (take m (stream f2) ++ drop 13 (stream [f; f])) [] =
         Some (frame_decode [] <$> f2, [], None)) ∧
    (m = 1%nat →
       ParseRingFrames (take 13 (stream [f; f])) [] = Some (frame_decode [] <$> f1, [], None)).
Proof.
  intros f. apply (ParseRingFrames_chunks [f; f] 13 []); [|vm_compute; lia].
  assert (frame_ok f).
  { split; [simpl; lia|]. split; [simpl; lia|]. repeat constructor; simpl; lia. }
  repeat constructor; apply H.
Defined.
