(* ===== verification/Client.v ===== *)
(** * Client: the synchronous ASCII client ([mecom/protocol.go], [Client])

    A client owns a connection.  The connection is what its future [Read] calls
    return, byte by byte and error by error ([incoming]), and the frames written
    to it ([written]).  A connection has a read deadline, so a read past the end
    of [incoming] times out.  What the environment decides within one call (the
    context's error before and after, a failing write or deadline) is an
    [exchange].

    The mutex makes a call atomic, apart from the gap between choosing a sequence
    number and writing the frame, which no result depends on. *)
From stdpp Require Import prelude strings list.
From Stdlib Require Import Strings.Byte Floats.SpecFloat.
From S2P Require Import Prelude Text Floats Crc Protocol.
Open Scope Z_scope.

(** ** State *)
Record Conn := MkConn {
  incoming : list (option byte * option error);
  written : list bytes }.

Record Client := MkClient {
  address : Z;
  seq : Z;
  rw : Conn }.

Record exchange := MkExchange {
  ctxErr : option error;
  writeErr : option error;
  deadlineErr : option error;
  ctxErrAfter : option error }.
Definition quiet : exchange := MkExchange None None None None.

(** ** Operations *)
Definition NewClient (rw : Conn) (addr : Z) : Client := MkClient addr 0 rw.

Definition nextSeqLocked (c : Client) : Client * Z :=
  let s := u16 (seq c + 1) in
  let s := if s =? 0 then 1 else s in
  (MkClient (address c) s (rw c), s).

(** The bytes read, the error of the last read, and what is left unread. *)
Fixpoint readFrame_go (out : bytes) (events : list (option byte * option error)) :
    bytes * option error * list (option byte * option error) :=
  match events with
  | [] => (out, Some (Sentinel NetTimeout), [])
  | (ob, oerr) :: events' =>
      let out := match ob with Some b => out ++ [b] | None => out end in
      if match ob with Some b => bool_decide (b = FrameTerminator) | None => false end
      then (out, None, events')
      else match oerr with
           | Some e => (out, Some e, events')
           | None => readFrame_go out events'
           end
  end.
Definition readFrame (events : list (option byte * option error)) := readFrame_go [] events.

(** [errors.As(err, &netErr) && netErr.Timeout()]. *)
Definition is_net_timeout (e : error) : bool := errors_is e NetTimeout.

Definition roundTripRaw (x : exchange) (frame : bytes) (c : Client) : Client * res bytes :=
  match ctxErr x with
  | Some e => (c, Err e)
  | None =>
      match writeErr x with
      | Some e => (c, Err e)
      | None =>
          let conn := MkConn (incoming (rw c)) (written (rw c) ++ [frame]) in
          match deadlineErr x with
          | Some e => (MkClient (address c) (seq c) conn, Err e)
          | None =>
              let '(raw, oerr, rest) := readFrame (incoming conn) in
              let c := MkClient (address c) (seq c) (MkConn rest (written conn)) in
              (c, match oerr with
                  | None => Ok raw
                  | Some e =>
                      match ctxErrAfter x with
                      | Some ctx => Err ctx
                      | None =>
                          if is_net_timeout e then Err (Wrapf "%w after %s" [] (Sentinel ErrTimeout))
                          else Err e
                      end
                  end)
          end
      end
  end.

Definition roundTripWithRequest (x : exchange) (buildFrame : Z → res bytes) (c : Client) :
    Client * res (bytes * bytes) :=
  let '(c, s) := nextSeqLocked c in
  match buildFrame s with
  | Err e => (c, Err e)
  | Ok frame =>
      let '(c, raw) := roundTripRaw x frame c in
      (c, raw ← raw; Ok (frame, raw))
  end.
Definition roundTrip (x : exchange) (buildFrame : Z → res bytes) (c : Client) : Client * res bytes :=
  let '(c, r) := roundTripWithRequest x buildFrame c in (c, snd <$> r).

Definition readNumeric (paramID instance : Z) (dataType : DataType) (x : exchange) (c : Client) :
    Client * res f64 :=
  match validateParameterAddress paramID instance with
  | Err e => (c, Err e)
  | Ok _ =>
      let '(c, raw) := roundTrip x (λ s, Ok (BuildSingleGetFrame (address c) s paramID instance)) c in
      (c, raw ← raw; ParseSingleResponse raw dataType)
  end.
Definition ReadFloat32 (paramID instance : Z) := readNumeric paramID instance DataTypeFloat32.
Definition ReadInt32 (paramID instance : Z) (x : exchange) (c : Client) : Client * res Z :=
  let '(c, v) := readNumeric paramID instance DataTypeInt32 x c in
  (c, v ← v; Ok (to_int v)).

Definition ReadBulk (params : list Param) (x : exchange) (c : Client) : Client * res (list f64) :=
  match validateParameterList params with
  | Err e => (c, Err e)
  | Ok _ =>
      let '(c, raw) := roundTrip x (λ s, Ok (BuildBulkGetFrame (address c) s params)) c in
      (c, raw ← raw; ParseBulkResponse raw params)
  end.

Definition MaxRingReadMaxBytes : Z := 279.
Definition clampRingReadMaxBytes (maxBytes : Z) : Z :=
  if (maxBytes =? 0) || (MaxRingReadMaxBytes <? maxBytes) then MaxRingReadMaxBytes else maxBytes.

Definition ReadRingPointer (x : exchange) (c : Client) : Client * res Z :=
  let '(c, raw) := roundTrip x (λ s, Ok (BuildRingPointerFrame (address c) s)) c in
  (c, raw ← raw; ParseRingPointerResponse raw).
Definition ReadRingChunk (start maxBytes : Z) (x : exchange) (c : Client) :
    Client * res RingReadResponse :=
  let maxBytes := clampRingReadMaxBytes maxBytes in
  let '(c, raw) := roundTrip x (λ s, Ok (BuildRingReadFrame (address c) s start maxBytes)) c in
  (c, raw ← raw; ParseRingReadResponse raw).
Definition ConfigureRingCapture (captureID : Z) (params : list RingCaptureParameter)
    (x : exchange) (c : Client) : Client * res () :=
  let '(c, raw) := roundTrip x (λ s, BuildRingCaptureConfigFrame (address c) s captureID params) c in
  (c, raw ← raw; ParseRingCaptureConfigResponse raw).

(** The writes and controls, which check the acknowledgement against the request. *)
Definition acknowledged (x : exchange) (buildFrame : Z → res bytes) (c : Client) : Client * res () :=
  let '(c, r) := roundTripWithRequest x buildFrame c in
  (c, '(request, raw) ← r; ParseWriteResponseForRequest raw request).
Definition validated (paramID instance : Z) (op : exchange → Client → Client * res ())
    (x : exchange) (c : Client) : Client * res () :=
  match validateParameterAddress paramID instance with
  | Err e => (c, Err e)
  | Ok _ => op x c
  end.

Definition TriggerRingSync (x : exchange) (c : Client) : Client * res () :=
  acknowledged x (λ s, Ok (BuildRingTriggerSyncFrame (address c) s)) c.
Definition WriteFloat32 (paramID instance : Z) (value : f32) : exchange → Client → Client * res () :=
  validated paramID instance (λ x c,
    acknowledged x (λ s, Ok (BuildWriteFloat32Frame (address c) s paramID instance value)) c).
Definition WriteInt32 (paramID instance value : Z) : exchange → Client → Client * res () :=
  validated paramID instance (λ x c,
    acknowledged x (λ s, Ok (BuildWriteInt32Frame (address c) s paramID instance value)) c).
Definition WriteString (paramID instance : Z) (value : bytes) : exchange → Client → Client * res () :=
  validated paramID instance (λ x c,
    acknowledged x (λ s, Ok (BuildWriteStringFrame (address c) s paramID instance value)) c).
Definition WriteBigDataString (paramID instance : Z) (value : bytes) :
    exchange → Client → Client * res () :=
  validated paramID instance (λ x c,
    acknowledged x (λ s, BuildSetBigDataStringFrame (address c) s paramID instance 0 value true) c).
Definition SaveToFlash (x : exchange) (c : Client) : Client * res () :=
  acknowledged x (λ s, Ok (BuildSaveToFlashFrame (address c) s)) c.
Definition Reset_ (x : exchange) (c : Client) : Client * res () :=
  acknowledged x (λ s, Ok (BuildResetFrame (address c) s)) c.

(** ** Lemmas *)

(** A frame that arrives one byte at a time, with empty reads in between. *)
Inductive delivers : bytes → list (option byte * option error) → Prop :=
  | delivers_last b : delivers [b] [(Some b, None)]
  | delivers_idle l ev : delivers l ev → delivers l ((None, None) :: ev)
  | delivers_byte b l ev : delivers l ev → delivers (b :: l) ((Some b, None) :: ev).

Lemma delivers_nonempty l ev : delivers l ev → l ≠ [].
Proof. by induction 1. Qed.

Lemma delivers_bytes l : l ≠ [] → delivers l ((λ b, (Some b, None)) <$> l).
Proof.
  intros Hl. destruct l as [|b l]; [done|]. clear Hl. revert b.
  induction l as [|c l IH]; intros b; [constructor|]. apply delivers_byte, IH.
Qed.

Lemma terminated_cons b l : l ≠ [] → terminated (b :: l) → b ≠ FrameTerminator ∧ terminated l.
Proof.
  intros Hl (body & Heq & Hb). destruct body as [|b' body]; simplify_eq/=.
  apply not_elem_of_cons in Hb as [Hb1 Hb2]. split; [done|]. by exists body.
Qed.

Lemma readFrame_go_delivers l ev out rest : delivers l ev → terminated l →
  readFrame_go out (ev ++ rest) = (out ++ l, None, rest).
Proof.
  intros Hd. revert out. induction Hd as [b|l ev _ IH|b l ev Hd IH]; intros out Ht; cbn [app readFrame_go].
  - destruct Ht as (body & Heq & _). destruct body as [|? [|? ?]]; simplify_eq/=.
    done.
  - by apply IH.
  - apply terminated_cons in Ht as [Hb Ht]; [|by eapply delivers_nonempty].
    rewrite bool_decide_false by done. rewrite IH by done. by rewrite <-app_assoc.
Qed.

(** The state after a call that wrote [frame] and read up to [rest]. *)
Definition after (c : Client) (frame : bytes) (rest : list (option byte * option error)) : Client :=
  MkClient (address c) (snd (nextSeqLocked c)) (MkConn rest (written (rw c) ++ [frame])).

Section call.
Context (c : Client) (build : Z → res bytes) (frame : bytes).
Context (Hbuild : build (snd (nextSeqLocked c)) = Ok frame).

(** A call on a connection that delivers a frame returns that frame. *)
Lemma roundTrip_delivers raw ev rest :
  incoming (rw c) = ev ++ rest → delivers raw ev → terminated raw →
  roundTripWithRequest quiet build c = (after c frame rest, Ok (frame, raw)).
Proof using Hbuild.
  intros Hin Hd Ht. unfold roundTripWithRequest. destruct (nextSeqLocked c) as [c' s] eqn:E.
  unfold nextSeqLocked in E. simplify_eq/=. rewrite Hbuild.
  unfold roundTripRaw, readFrame. cbn [quiet ctxErr writeErr deadlineErr incoming rw].
  rewrite Hin, (readFrame_go_delivers raw ev [] rest) by done. done.
Qed.

(** A call on a connection that stays silent until the deadline times out, and
    leaves what arrives later unread. *)
Lemma roundTrip_times_out rest :
  incoming (rw c) = (None, Some (Sentinel NetTimeout)) :: rest →
  roundTripWithRequest quiet build c =
  (after c frame rest, Err (Wrapf "%w after %s" [] (Sentinel ErrTimeout))).
Proof using Hbuild.
  intros Hin. unfold roundTripWithRequest. destruct (nextSeqLocked c) as [c' s] eqn:E.
  unfold nextSeqLocked in E. simplify_eq/=. rewrite Hbuild.
  unfold roundTripRaw, readFrame. cbn [quiet ctxErr writeErr deadlineErr incoming rw].
  rewrite Hin. done.
Qed.
End call.

Lemma response_terminated header payload :
  FrameTerminator ∉ header → FrameTerminator ∉ payload → terminated (response header payload).
Proof.
  intros Hh Hp. apply seal_terminated. rewrite not_elem_of_cons, not_elem_of_app. auto.
Qed.

Lemma valid_address paramID instance : 0 ≤ paramID ≤ 0xFFFF → 1 ≤ instance ≤ 0xFF →
  validateParameterAddress paramID instance = Ok ().
Proof.
  intros Hp Hi. unfold validateParameterAddress, maxMeComParameterID, minMeComInstance, maxMeComInstance.
  by rewrite !(proj2 (Z.ltb_ge _ _)) by lia.
Qed.

Lemma invalid_address paramID instance : ¬ (0 ≤ paramID ≤ 0xFFFF ∧ 1 ≤ instance ≤ 0xFF) →
  ∃ e, validateParameterAddress paramID instance = Err e ∧ errors_is e ErrInvalidArgument = true.
Proof.
  intros H. unfold validateParameterAddress, maxMeComParameterID, minMeComInstance, maxMeComInstance.
  destruct (Z.ltb_spec paramID 0); [by eexists|]. destruct (Z.ltb_spec 0xFFFF paramID); [by eexists|].
  destruct (Z.ltb_spec instance 1); [by eexists|]. destruct (Z.ltb_spec 0xFF instance); [by eexists|].
  lia.
Qed.

Lemma read_times_out c paramID instance t rest :
  0 ≤ paramID ≤ 0xFFFF → 1 ≤ instance ≤ 0xFF →
  incoming (rw c) = (None, Some (Sentinel NetTimeout)) :: rest →
  readNumeric paramID instance t quiet c =
  (after c (BuildSingleGetFrame (address c) (snd (nextSeqLocked c)) paramID instance) rest,
   Err (Wrapf "%w after %s" [] (Sentinel ErrTimeout))).
Proof.
  intros Hp Hi Hin. unfold readNumeric, roundTrip. rewrite valid_address by done.
  by rewrite (roundTrip_times_out c _ (BuildSingleGetFrame (address c) (snd (nextSeqLocked c)) paramID instance)
    eq_refl rest Hin).
Qed.

Lemma read_delivers c paramID instance t raw ev rest :
  0 ≤ paramID ≤ 0xFFFF → 1 ≤ instance ≤ 0xFF →
  incoming (rw c) = ev ++ rest → delivers raw ev → terminated raw →
  readNumeric paramID instance t quiet c =
  (after c (BuildSingleGetFrame (address c) (snd (nextSeqLocked c)) paramID instance) rest,
   ParseSingleResponse raw t).
Proof.
  intros Hp Hi Hin Hd Ht. unfold readNumeric, roundTrip. rewrite valid_address by done.
  by rewrite (roundTrip_delivers c _ (BuildSingleGetFrame (address c) (snd (nextSeqLocked c)) paramID instance)
    eq_refl raw ev rest Hin Hd Ht).
Qed.

Lemma word_terminated header w : FrameTerminator ∉ header → 0 ≤ w < 2 ^ 32 →
  terminated (response header (fmtX 8 w)).
Proof.
  intros Hcr Hw. apply response_terminated; [done|]. rewrite fmtX_fix by (simpl; lia).
  apply hex_no_terminator, hex_fix_is_hex.
Qed.

Lemma nextSeq_range c : 0 ≤ seq c < 65536 → 1 ≤ snd (nextSeqLocked c) < 65536.
Proof.
  intros Hs. unfold nextSeqLocked. simpl. pose proof (u16_range (seq c + 1)).
  destruct (Z.eqb_spec (u16 (seq c + 1)) 0); lia.
Qed.

Lemma nextSeq_step c : 0 ≤ seq c < 65536 →
  seq (fst (nextSeqLocked c)) = (seq c mod 65535) + 1.
Proof.
  intros Hs. unfold nextSeqLocked, u16. simpl.
  destruct (decide (seq c = 65535)) as [->|]; [done|].
  rewrite !Z.mod_small by lia. destruct (Z.eqb_spec (seq c + 1) 0); lia.
Qed.

Lemma write_delivers c build frame raw ev rest :
  build (snd (nextSeqLocked c)) = Ok frame →
  incoming (rw c) = ev ++ rest → delivers raw ev → terminated raw →
  acknowledged quiet build c = (after c frame rest, ParseWriteResponseForRequest raw frame).
Proof.
  intros Hb Hin Hd Ht. unfold acknowledged.
  by rewrite (roundTrip_delivers c build frame Hb raw ev rest Hin Hd Ht).
Qed.

(** ** Properties *)

(** A read reaches the wire and comes back.  For a parameter address in range,
    on a connection that delivers a float32 or int32 response byte by byte,
    however the bytes are spread over reads, the call writes exactly one frame,
    the read request under the next sequence number, consumes exactly the
    response, and returns the value the device encoded. *)
Theorem read_end_to_end (c : Client) (paramID instance v : Z) (f : f32) (header : bytes)
    (ev rest : list (option byte * option error)) :
  0 ≤ paramID ≤ 0xFFFF → 1 ≤ instance ≤ 0xFF →
  length header = 6%nat → FrameTerminator ∉ header →
  - 2 ^ 31 ≤ v < 2 ^ 31 → valid32 f = true →
  let s := snd (nextSeqLocked c) in
  let request := BuildSingleGetFrame (address c) s paramID instance in
  incoming (rw c) = ev ++ rest →
  (delivers (response header (encodeFloat32 f)) ev →
     ReadFloat32 paramID instance quiet c = (after c request rest, Ok (to_f64 f))) ∧
  (delivers (response header (encodeInt32 v)) ev →
     ReadInt32 paramID instance quiet c = (after c request rest, Ok v)).
Proof.
  intros Hp Hi Hh Hcr Hv Hf s request Hin. destruct (word_roundtrip header f v Hh Hf Hv) as (Hsf & Hsi).
  split; intros Hd; unfold ReadFloat32, ReadInt32.
  - rewrite (read_delivers c _ _ _ _ ev rest Hp Hi Hin Hd); [by rewrite <-Hsf|].
    apply word_terminated; [done|by apply Float32bits_range].
  - rewrite (read_delivers c _ _ _ _ ev rest Hp Hi Hin Hd).
    + unfold encodeInt32. rewrite Hsi. cbn [mbind result_bind]. by rewrite of_int_to_int by lia.
    + apply word_terminated; [done|apply u32_range].
Qed.

Lemma read_end_to_end_witness :
  let c := MkClient 2 65535 (MkConn ((None, None) ::
    ((λ b, (Some b, None)) <$> response (str "020001") (encodeInt32 (-7)))) []) in
  ReadInt32 1000 1 quiet c = (after c (BuildSingleGetFrame 2 1 1000 1) [], Ok (-7)).
Proof.
  intros c. eapply (read_end_to_end c 1000 1 (-7) (S754_zero false) (str "020001"));
    [lia|lia|done|apply (bool_decide_unpack _); vm_compute; exact I|lia|done| |].
  - cbn [c rw incoming]. by rewrite app_nil_r.
  - apply delivers_idle, delivers_bytes. done.
Defined.

(** Sequence numbers.  Whatever the state of the counter, the numbers of
    successive calls are never zero, and call [k + 1] uses
    [(seq + k) mod 65535 + 1]: they run through 1..65535 and wrap to 1, so 65535
    calls in a row all have different numbers. *)
Theorem nextSeq_cycle (c : Client) (k : nat) :
  0 ≤ seq c < 65536 →
  let n := seq (Nat.iter (S k) (λ c, fst (nextSeqLocked c)) c) in
  n = (seq c + Z.of_nat k) mod 65535 + 1 ∧ 1 ≤ n ≤ 65535.
Proof.
  intros Hs n. assert (Hn : n = (seq c + Z.of_nat k) mod 65535 + 1).
  { unfold n. clear n. induction k as [|k IH].
    - rewrite Z.add_0_r. by apply nextSeq_step.
    - change (Nat.iter (S (S k)) (λ c, fst (nextSeqLocked c)) c) with
        (fst (nextSeqLocked (Nat.iter (S k) (λ c, fst (nextSeqLocked c)) c))).
      rewrite nextSeq_step; rewrite IH; [|zdiv]. f_equal.
      rewrite <-Z.add_mod_idemp_l by lia. rewrite Z.mod_mod by lia.
      rewrite Z.add_mod_idemp_l by lia. f_equal. lia. }
  split; [done|]. pose proof (Z.mod_pos_bound (seq c + Z.of_nat k) 65535). lia.
Qed.

Lemma nextSeq_cycle_witness :
  seq (Nat.iter 3 (λ c, fst (nextSeqLocked c)) (MkClient 2 65534 (MkConn [] []))) = 2.
Proof.
  pose proof (nextSeq_cycle (MkClient 2 65534 (MkConn [] [])) 2 ltac:(simpl; lia)) as [H _].
  rewrite H. reflexivity.
Defined.

(** An answer that comes too late is taken for the next one.  When a read times
    out and its response arrives afterwards, the next read, of any parameter,
    returns that response's value: the client compares neither the sequence number
    nor the address of a response with its request. *)
Theorem late_response_is_taken (c : Client) (p1 i1 p2 i2 : Z) (f : f32) (header : bytes)
    (ev rest : list (option byte * option error)) :
  0 ≤ p1 ≤ 0xFFFF → 1 ≤ i1 ≤ 0xFF → 0 ≤ p2 ≤ 0xFFFF → 1 ≤ i2 ≤ 0xFF →
  length header = 6%nat → FrameTerminator ∉ header → valid32 f = true →
  delivers (response header (encodeFloat32 f)) ev →
  incoming (rw c) = (None, Some (Sentinel NetTimeout)) :: ev ++ rest →
  let '(c1, r1) := ReadFloat32 p1 i1 quiet c in
  let '(c2, r2) := ReadFloat32 p2 i2 quiet c1 in
  r1 = Err (Wrapf "%w after %s" [] (Sentinel ErrTimeout)) ∧ r2 = Ok (to_f64 f) ∧
  incoming (rw c2) = rest.
Proof.
  intros Hp1 Hi1 Hp2 Hi2 Hh Hcr Hf Hd Hin. unfold ReadFloat32.
  rewrite (read_times_out c p1 i1 _ _ Hp1 Hi1 Hin).
  rewrite (read_delivers (after c _ (ev ++ rest)) p2 i2 _ _ ev rest Hp2 Hi2 eq_refl Hd)
    by (apply word_terminated; [done|by apply Float32bits_range]).
  destruct (word_roundtrip header f 0 Hh Hf ltac:(lia)) as [Hsf _].
  split_and!; [done|exact Hsf|done].
Qed.

(** The read of parameter 1001 returns the value sent for parameter 1000. *)
Lemma late_response_is_taken_witness :
  let reply := response (str "020001") (encodeFloat32 (Float32frombits 0x41A00000)) in
  let c := MkClient 2 0 (MkConn ((None, Some (Sentinel NetTimeout)) :: ((λ b, (Some b, None)) <$> reply)) []) in
  let '(c1, r1) := ReadFloat32 1000 1 quiet c in
  let '(c2, r2) := ReadFloat32 1001 1 quiet c1 in
  r1 = Err (Wrapf "%w after %s" [] (Sentinel ErrTimeout)) ∧
  r2 = Ok (to_f64 (Float32frombits 0x41A00000)) ∧ incoming (rw c2) = [].
Proof.
  intros reply c. apply (late_response_is_taken c 1000 1 1001 1 (Float32frombits 0x41A00000)
    (str "020001") ((λ b, (Some b, None)) <$> reply) []);
    [lia..|done|apply (bool_decide_unpack _); vm_compute; exact I|done| |].
  - apply delivers_bytes. done.
  - cbn [c rw incoming]. by rewrite app_nil_r.
Defined.

(** Refused arguments never reach the device.  Every read and write of a
    parameter whose number is outside 0..0xFFFF or whose instance is outside
    1..0xFF, and every bulk read of a list with such a parameter, returns an
    invalid-argument error and leaves the client as it was: nothing is written,
    no sequence number is used. *)
Theorem invalid_address_sends_nothing (c : Client) (x : exchange) (paramID instance v : Z)
    (f : f32) (text : bytes) (ps1 ps2 : list Param) (p : Param) :
  ¬ (0 ≤ paramID ≤ 0xFFFF ∧ 1 ≤ instance ≤ 0xFF) → ID p = paramID → Inst p = instance →
  ∃ e e', errors_is e ErrInvalidArgument = true ∧ errors_is e' ErrInvalidArgument = true ∧
    ReadFloat32 paramID instance x c = (c, Err e) ∧
    ReadInt32 paramID instance x c = (c, Err e) ∧
    WriteFloat32 paramID instance f x c = (c, Err e) ∧
    WriteInt32 paramID instance v x c = (c, Err e) ∧
    WriteString paramID instance text x c = (c, Err e) ∧
    WriteBigDataString paramID instance text x c = (c, Err e) ∧
    ReadBulk (ps1 ++ p :: ps2) x c = (c, Err e').
Proof.
  intros Hinv Hid Hinst. destruct (invalid_address paramID instance Hinv) as (e & He & Hie).
  assert (Hl : ∀ i, ∃ e', validate_from i (ps1 ++ p :: ps2) = Err e' ∧
    errors_is e' ErrInvalidArgument = true).
  { induction ps1 as [|q ps1 IH]; intros i; cbn [app validate_from].
    - rewrite Hid, Hinst, He. by eexists.
    - destruct (decide (0 ≤ ID q ≤ 0xFFFF ∧ 1 ≤ Inst q ≤ 0xFF)) as [[? ?]|Hq].
      + rewrite valid_address by done. apply IH.
      + destruct (invalid_address _ _ Hq) as (e' & -> & ?). by eexists. }
  destruct (Hl 0) as (e' & He' & Hie'). exists e, e'.
  unfold ReadFloat32, ReadInt32, readNumeric, WriteFloat32, WriteInt32, WriteString,
    WriteBigDataString, validated, ReadBulk, validateParameterList. by rewrite He, He'.
Qed.

Lemma invalid_address_sends_nothing_witness :
  let c := NewClient (MkConn [] []) 2 in
  ∃ e, errors_is e ErrInvalidArgument = true ∧ WriteInt32 70000 1 5 quiet c = (c, Err e).
Proof.
  intros c. destruct (invalid_address_sends_nothing c quiet 70000 1 5 (S754_zero false) [] [] []
    (MkParam 70000 1 "" "" "" false "" "") ltac:(lia) eq_refl eq_refl)
    as (e & e' & He & _ & _ & _ & _ & Hw & _).
  exists e. split; [exact He|exact Hw].
Defined.

(** A write is acknowledged or refused.  The request carries the value's
    eight digits; a positive response, and the bare acknowledgement that echoes
    the request's own header and checksum, complete the write, and a refusal is
    returned as an error with the device's code. *)
Theorem write_end_to_end (c : Client) (paramID instance v code : Z) (header raw : bytes)
    (ev rest : list (option byte * option error)) :
  0 ≤ paramID ≤ 0xFFFF → 1 ≤ instance ≤ 0xFF → 0 ≤ address c < 256 → 0 ≤ seq c < 65536 →
  - 2 ^ 31 ≤ v < 2 ^ 31 → 0 ≤ code < 256 → length header = 6%nat → FrameTerminator ∉ header →
  let s := snd (nextSeqLocked c) in
  let body := str "VS" ++ hex_fix 4 paramID ++ hex_fix 2 instance ++ hex_fix 8 (u32 v) in
  let checked := "#"%byte :: request_header (address c) s ++ body in
  let bare := "!"%byte :: request_header (address c) s ++ fmtX 4 (CRC16 checked) ++ [FrameTerminator] in
  incoming (rw c) = ev ++ rest → delivers raw ev →
  (raw = response header (str "+") ∨ raw = bare →
     WriteInt32 paramID instance v quiet c = (after c (seal checked) rest, Ok ())) ∧
  (raw = response header ("-"%byte :: fmtX 2 code) →
     WriteInt32 paramID instance v quiet c =
       (after c (seal checked) rest, Err (nack_error "mecom: nack %02X" code))).
Proof.
  intros Hp Hi Ha Hsq Hv Hc Hh Hcr s body checked bare Hin Hd.
  pose proof (nextSeq_range c Hsq) as Hs. fold s in Hs.
  assert (Hbuild : BuildWriteInt32Frame (address c) s paramID instance v = seal checked).
  { unfold BuildWriteInt32Frame, buildWriteFrame, encodeInt32. pose proof (u32_range v).
    rewrite appendCRC_shape by lia. by rewrite !fmtX_fix by (simpl; lia). }
  assert (Hgo : terminated raw → WriteInt32 paramID instance v quiet c =
    (after c (seal checked) rest, ParseWriteResponseForRequest raw (appendCRC (address c) s body))).
  { intros Ht. unfold WriteInt32, validated. rewrite valid_address by done.
    rewrite (write_delivers c _ (seal checked) raw ev rest); [|by rewrite <-Hbuild|done..].
    by rewrite appendCRC_shape by lia. }
  split.
  - intros Hraw. rewrite Hgo.
    + f_equal. destruct Hraw as [->| ->].
      * apply ack_accepted. done.
      * apply bare_ack_accepted; lia.
    + destruct Hraw as [->| ->].
      * apply response_terminated; [done|]. apply (bool_decide_unpack _). vm_compute. exact I.
      * exists ("!"%byte :: request_header (address c) s ++ fmtX 4 (CRC16 checked)).
        split; [by rewrite <-app_comm_cons, <-app_assoc|]. rewrite (proj1 (crc_text checked)).
        apply not_elem_of_cons. split; [done|]. unfold request_header. rewrite !not_elem_of_app.
        split_and!; apply hex_no_terminator, hex_fix_is_hex.
  - intros ->. rewrite Hgo.
    + f_equal. apply nack_refused; (done || lia).
    + apply response_terminated; [done|]. rewrite fmtX_fix by (simpl; lia).
      apply not_elem_of_cons. split; [done|]. apply hex_no_terminator, hex_fix_is_hex.
Qed.

Lemma write_end_to_end_witness :
  let c := MkClient 2 0 (MkConn ((λ b, (Some b, None)) <$> response (str "020001") ("-"%byte :: fmtX 2 6)) []) in
  snd (WriteInt32 2010 1 1 quiet c) = Err (Errorf "mecom: nack %02X (PAR_NOT_WRITABLE)" [6]).
Proof.
  intros c. destruct (write_end_to_end c 2010 1 1 6 (str "020001")
    (response (str "020001") ("-"%byte :: fmtX 2 6)) (incoming (rw c)) []) as [_ H];
    [lia|lia|simpl; lia|simpl; lia|lia|lia|done|apply (bool_decide_unpack _); vm_compute; exact I
    |by rewrite app_nil_r|by apply delivers_bytes|].
  rewrite (H eq_refl). reflexivity.
Defined.
