(* ===== verification/PollQueue.v ===== *)
(** * PollQueue: the round-robin queue of [mecom/pollqueue.go]

    Normal parameters rotate, manual polls go to the front once.  The mutex makes
    every operation atomic, so an operation is a function of the queue.  An error
    text ([err.Error()]) is a string the caller provides. *)
From stdpp Require Import prelude gmap strings list pretty.
From Stdlib Require Import Floats.SpecFloat Strings.Ascii.
From S2P Require Import Prelude Floats Protocol.
Open Scope Z_scope.

(** ** State *)
Record PollResult := MkPollResult {
  pr_Parameter : Param;
  pr_Value : f64;
  pr_Error : string;
  pr_ObservedAt : Z }.

Record PollQueue := MkPollQueue {
  normal : list Param;
  normalPos : nat;
  front : list Param;
  normalSet : gset string;
  frontSet : gset string;
  latest : gmap string PollResult }.

(** ** Operations *)
Definition ParameterKey (p : Param) : string :=
  pretty (ID p) +:+ ":" +:+ pretty (Inst p) +:+ ":" +:+ Type_ p.

Definition seedLatestLocked (q : PollQueue) (p : Param) : PollQueue :=
  let key := ParameterKey p in
  match latest q !! key with
  | Some _ => q
  | None =>
      MkPollQueue (normal q) (normalPos q) (front q) (normalSet q) (frontSet q)
        (<[key := MkPollResult p S754_nan "not_sampled" 0]> (latest q))
  end.

Definition Enqueue (q : PollQueue) (p : Param) : PollQueue :=
  let key := ParameterKey p in
  let q := seedLatestLocked q p in
  if decide (key ∈ normalSet q) then q
  else MkPollQueue (normal q ++ [p]) (normalPos q) (front q) ({[key]} ∪ normalSet q) (frontSet q) (latest q).

Definition EnqueueFront (q : PollQueue) (p : Param) : PollQueue :=
  let key := ParameterKey p in
  let q := seedLatestLocked q p in
  if decide (key ∈ frontSet q) then q
  else MkPollQueue (normal q) (normalPos q) (front q ++ [p]) (normalSet q) ({[key]} ∪ frontSet q) (latest q).

Definition NewPollQueue (params : list Param) : PollQueue :=
  fold_left Enqueue params (MkPollQueue [] 0 [] ∅ ∅ ∅).

(** The first loop: [room] is [max - len(out)]. *)
Fixpoint take_front (room : nat) (front : list Param) (set : gset string) (out : list Param) :
    list Param * gset string * list Param :=
  match room, front with
  | S room', p :: front' => take_front room' front' (set ∖ {[ParameterKey p]}) (out ++ [p])
  | _, _ => (front, set, out)
  end.

(** The second loop: [limit] rounds remain. *)
Fixpoint take_normal (limit max : nat) (normal : list Param) (pos : nat) (out : list Param) :
    nat * list Param :=
  match limit with
  | O => (pos, out)
  | S limit' =>
      if (length out <? max)%nat then
        match normal !! pos with
        | None => (pos, out)
        | Some p =>
            let pos := S pos in
            let pos := if (length normal <=? pos)%nat then 0%nat else pos in
            take_normal limit' max normal pos (out ++ [p])
        end
      else (pos, out)
  end.

Definition NextChunk (q : PollQueue) (max : Z) : PollQueue * list Param :=
  if max <=? 0 then (q, [])
  else
    let max := Z.to_nat max in
    let '(fr, fset, out) := take_front max (front q) (frontSet q) [] in
    if (length (normal q) =? 0)%nat then
      (MkPollQueue (normal q) (normalPos q) fr (normalSet q) fset (latest q), out)
    else
      let '(pos, out) := take_normal (length (normal q)) max (normal q) (normalPos q) out in
      (MkPollQueue (normal q) pos fr (normalSet q) fset (latest q), out).

Definition Record_ (now : Z) (q : PollQueue) (result : PollResult) : PollQueue :=
  let result := if pr_ObservedAt result =? 0
    then MkPollResult (pr_Parameter result) (pr_Value result) (pr_Error result) now else result in
  MkPollQueue (normal q) (normalPos q) (front q) (normalSet q) (frontSet q)
    (<[ParameterKey (pr_Parameter result) := result]> (latest q)).

Fixpoint record_from (now : Z) (i : nat) (q : PollQueue) (params : list Param) (values : list f64)
    (observedAt : Z) (err : option string) : PollQueue :=
  match params with
  | [] => q
  | p :: ps =>
      let value := default (S754_zero false) (values !! i) in
      let result := MkPollResult p value (default ""%string err) observedAt in
      record_from now (S i) (Record_ now q result) ps values observedAt err
  end.
Definition RecordBulk (now : Z) := record_from now 0.

Definition Latest (q : PollQueue) (p : Param) : option PollResult := latest q !! ParameterKey p.

(** ** The key of a parameter *)
Fixpoint colon_free (s : string) : bool :=
  match s with
  | EmptyString => true
  | String a s' => negb (bool_decide (a = ":"%char)) && colon_free s'
  end.

Lemma colon_free_app s t : colon_free s = true → colon_free t = true → colon_free (s +:+ t) = true.
Proof. induction s as [|a s IH]; simpl; [done|]. intros [-> ?]%andb_prop ?. by apply IH. Qed.

Lemma pretty_N_char_colon x : negb (bool_decide (pretty_N_char x = ":"%char)) = true.
Proof. unfold pretty_N_char. by repeat case_match. Qed.

Lemma pretty_N_go_colon x s : colon_free s = true → colon_free (pretty_N_go x s) = true.
Proof.
  revert s. induction (N.lt_wf_0 x) as [x _ IH]; intros s Hs.
  destruct (decide (x = 0)%N) as [->|Hx]; [by rewrite pretty_N_go_0|].
  rewrite pretty_N_go_step by lia. apply IH; [apply N.div_lt; lia|].
  cbn [colon_free]. by rewrite pretty_N_char_colon, Hs.
Qed.

Lemma pretty_Z_colon (z : Z) : colon_free (pretty z) = true.
Proof.
  assert (HN : ∀ n : N, colon_free (pretty n) = true).
  { intros n. unfold pretty, pretty_N. destruct (decide _); [done|]. by apply pretty_N_go_colon. }
  destruct z as [|p|p]; [done|apply HN|]. change (colon_free ("-" +:+ pretty (N.pos p)) = true).
  by apply colon_free_app.
Qed.

Lemma split_colon s1 s2 t1 t2 : colon_free s1 = true → colon_free s2 = true →
  s1 +:+ ":" +:+ t1 = s2 +:+ ":" +:+ t2 → s1 = s2 ∧ t1 = t2.
Proof.
  revert s2. induction s1 as [|a s1 IH]; intros [|b s2] H1 H2 H; simpl in *; simplify_eq.
  - done.
  - apply andb_prop in H1 as [_ H1]. apply andb_prop in H2 as [_ H2].
    by destruct (IH s2 H1 H2) as [-> ->].
Qed.

(** Two parameters share a key exactly when they agree on number, instance and
    type: the decimal fields cannot run into each other. *)
Lemma ParameterKey_inj p q :
  ParameterKey p = ParameterKey q ↔ ID p = ID q ∧ Inst p = Inst q ∧ Type_ p = Type_ q.
Proof.
  unfold ParameterKey. split.
  - intros H. apply split_colon in H as [H1 H]; [|apply pretty_Z_colon..].
    apply split_colon in H as [H2 H3]; [|apply pretty_Z_colon..].
    apply (inj pretty) in H1, H2. done.
  - by intros (-> & -> & ->).
Qed.

(** ** The invariant *)
Abbreviation keys := (fmap ParameterKey).

Record wf (q : PollQueue) : Prop := MkWf {
  wf_normal : NoDup (keys (normal q));
  wf_front : NoDup (keys (front q));
  wf_normalSet : normalSet q = list_to_set (keys (normal q));
  wf_frontSet : frontSet q = list_to_set (keys (front q));
  wf_pos : (normalPos q < length (normal q))%nat ∨ normal q = [] ∧ normalPos q = 0%nat;
  wf_latest : ∀ p, p ∈ normal q ++ front q → is_Some (latest q !! ParameterKey p) }.

Lemma seed_wf q p : wf q → wf (seedLatestLocked q p) ∧
  is_Some (latest (seedLatestLocked q p) !! ParameterKey p) ∧
  normal (seedLatestLocked q p) = normal q ∧ front (seedLatestLocked q p) = front q ∧
  normalPos (seedLatestLocked q p) = normalPos q.
Proof.
  intros Hq. unfold seedLatestLocked. destruct (latest q !! ParameterKey p) eqn:E; [by rewrite E|].
  split_and!; [|simpl; by rewrite lookup_insert_eq|done..].
  destruct Hq. split; simpl; [done..|]. intros p' Hp'. destruct (decide (ParameterKey p' = ParameterKey p)) as [->|].
  - by rewrite lookup_insert_eq.
  - rewrite lookup_insert_ne by done. auto.
Qed.

Lemma Enqueue_wf q p : wf q → wf (Enqueue q p).
Proof.
  intros Hq. destruct (seed_wf q p Hq) as (Hs & Hp & Hn & Hf & Hpos). unfold Enqueue.
  destruct (decide _) as [|Hni]; [done|]. destruct Hs. split; simpl; try done.
  - rewrite fmap_app. apply NoDup_app. split; [done|]. split; [|apply NoDup_singleton].
    intros k Hk Hk2%list_elem_of_singleton. subst. apply Hni. rewrite wf_normalSet0. by apply elem_of_list_to_set.
  - rewrite wf_normalSet0, fmap_app, list_to_set_app_L. simpl.
    by rewrite union_empty_r_L, (comm_L union).
  - left. rewrite length_app. simpl. destruct wf_pos0 as [?|[-> ->]]; simpl; lia.
  - intros p' Hp'. rewrite <-app_assoc, !elem_of_app, list_elem_of_singleton in Hp'.
    destruct Hp' as [?|[->|?]]; try done; apply wf_latest0; rewrite elem_of_app; auto.
Qed.

Lemma EnqueueFront_wf q p : wf q → wf (EnqueueFront q p).
Proof.
  intros Hq. destruct (seed_wf q p Hq) as (Hs & Hp & Hn & Hf & Hpos). unfold EnqueueFront.
  destruct (decide _) as [|Hni]; [done|]. destruct Hs. split; simpl; try done.
  - rewrite fmap_app. apply NoDup_app. split; [done|]. split; [|apply NoDup_singleton].
    intros k Hk Hk2%list_elem_of_singleton. subst. apply Hni. rewrite wf_frontSet0. by apply elem_of_list_to_set.
  - rewrite wf_frontSet0, fmap_app, list_to_set_app_L. simpl.
    by rewrite union_empty_r_L, (comm_L union).
  - intros p' Hp'. rewrite !elem_of_app, list_elem_of_singleton in Hp'.
    destruct Hp' as [?|[?| ->]]; try done; apply wf_latest0; rewrite elem_of_app; auto.
Qed.

Lemma NewPollQueue_wf params : wf (NewPollQueue params).
Proof.
  unfold NewPollQueue. assert (H : wf (MkPollQueue [] 0 [] ∅ ∅ ∅)).
  { split; simpl; try done; [constructor..|by right|]. intros p Hp. by apply elem_of_nil in Hp. }
  revert H. generalize (MkPollQueue [] 0 [] ∅ ∅ ∅). induction params as [|p params IH]; intros q Hq; [done|].
  simpl. by apply IH, Enqueue_wf.
Qed.

Lemma Record_wf now q r : wf q → wf (Record_ now q r).
Proof.
  intros []. unfold Record_. set (r' := if _ : bool then _ else _). clearbody r'.
  split; simpl; try done. intros p Hp.
  destruct (decide (ParameterKey p = ParameterKey (pr_Parameter r'))) as [->|].
  - rewrite lookup_insert_eq. eauto.
  - rewrite lookup_insert_ne by done. auto.
Qed.

Lemma RecordBulk_wf now q ps vs t err : wf q → wf (RecordBulk now q ps vs t err).
Proof.
  unfold RecordBulk. generalize 0%nat. revert q. induction ps as [|p ps IH]; intros q i Hq; [done|].
  simpl. by apply IH, Record_wf.
Qed.

(** ** The next chunk *)

(** [k] parameters in rotation, from position [pos] on. *)
Fixpoint cyc (l : list Param) (pos k : nat) : list Param :=
  match k with
  | O => []
  | S k' => match l !! pos with
            | Some p => p :: cyc l (S pos mod length l) k'
            | None => []
            end
  end.

Lemma take_front_spec room fr fset out : NoDup (keys fr) → fset = list_to_set (keys fr) →
  take_front room fr fset out =
  (drop room fr, list_to_set (keys (drop room fr)), out ++ take room fr).
Proof.
  revert fr fset out. induction room as [|room IH]; intros fr fset out Hnd ->.
  - by rewrite drop_0, take_0, app_nil_r.
  - destruct fr as [|p fr]; simpl; [by rewrite app_nil_r|].
    apply NoDup_cons in Hnd as [Hp Hnd].
    rewrite IH; [by rewrite <-app_assoc|done|]. 
    rewrite difference_union_distr_l_L, difference_diag_L, union_empty_l_L, difference_disjoint_L; [done|].
    apply disjoint_singleton_r. by rewrite elem_of_list_to_set.
Qed.

Lemma take_normal_spec limit max l pos out : (pos < length l)%nat →
  take_normal limit max l pos out =
  ((pos + (limit `min` (max - length out))) mod length l, out ++ cyc l pos (limit `min` (max - length out)))%nat.
Proof.
  revert pos out. induction limit as [|limit IH]; intros pos out Hpos; cbn [take_normal].
  - simpl. by rewrite Nat.add_0_r, app_nil_r, Nat.mod_small.
  - destruct (Nat.ltb_spec (length out) max) as [Hlt|Hge].
    + destruct (lookup_lt_is_Some_2 l pos Hpos) as [p Hp]. rewrite Hp. cbv zeta.
      assert (Hnext : (if (length l <=? S pos)%nat then 0 else S pos)%nat = (S pos mod length l)%nat).
      { destruct (Nat.leb_spec (length l) (S pos)).
        - replace (S pos) with (length l) by lia. by rewrite Nat.Div0.mod_same.
        - by rewrite Nat.mod_small. }
      rewrite Hnext, IH by (apply Nat.mod_upper_bound; lia). rewrite length_app. simpl length.
      destruct (max - length out)%nat as [|m] eqn:Hm; [lia|].
      replace (max - (length out + 1))%nat with m by lia. simpl (S limit `min` S m)%nat.
      cbn [cyc]. rewrite Hp, <-app_assoc. f_equal.
      rewrite Nat.Div0.add_mod_idemp_l. f_equal. lia.
    + replace (max - length out)%nat with 0%nat by lia. rewrite Nat.min_0_r.
      cbn [cyc]. by rewrite Nat.add_0_r, app_nil_r, Nat.mod_small.
Qed.

(** What one call of [NextChunk] returns and leaves. *)
Lemma NextChunk_eq q max : wf q → 0 < max →
  let m := Z.to_nat max in
  let k := (length (normal q) `min` (m - length (front q)))%nat in
  NextChunk q max =
  (MkPollQueue (normal q) ((normalPos q + k) mod length (normal q)) (drop m (front q)) (normalSet q)
     (list_to_set (keys (drop m (front q)))) (latest q),
   take m (front q) ++ cyc (normal q) (normalPos q) k).
Proof.
  intros Hq Hmax m k. unfold NextChunk. destruct (Z.leb_spec max 0); [lia|]. fold m.
  rewrite take_front_spec by apply Hq. rewrite app_nil_l.
  destruct (Nat.eqb_spec (length (normal q)) 0) as [H0|H0].
  - destruct (wf_pos q Hq) as [?|[Hn Hp]]; [lia|]. unfold k. rewrite Hn, Hp. simpl.
    by rewrite app_nil_r.
  - destruct (wf_pos q Hq) as [?|[Hn Hp]]; [|by rewrite Hn in H0].
    rewrite take_normal_spec by done. rewrite length_take.
    replace (m - (m `min` length (front q)))%nat with (m - length (front q))%nat by lia. done.
Qed.

Lemma NoDup_drop {A} n (l : list A) : NoDup l → NoDup (drop n l).
Proof. rewrite <-(take_drop n l) at 1. intros H. by apply NoDup_app in H as (_ & _ & ?). Qed.

Lemma elem_of_drop {A} n (l : list A) x : x ∈ drop n l → x ∈ l.
Proof. intros H. rewrite <-(take_drop n l). apply elem_of_app. auto. Qed.

Lemma NextChunk_wf q max : wf q → wf (fst (NextChunk q max)).
Proof.
  intros Hq. destruct (decide (0 < max)) as [Hmax|Hmax].
  - rewrite NextChunk_eq by done. destruct Hq. split; simpl; try done.
    + rewrite fmap_drop. by apply NoDup_drop.
    + destruct wf_pos0 as [?|[Hn Hp]].
      * left. apply Nat.mod_upper_bound. lia.
      * right. rewrite Hn, Hp. done.
    + intros p Hp. apply wf_latest0. rewrite elem_of_app in *. destruct Hp as [?|Hp]; [auto|].
      right. by eapply elem_of_drop.
  - unfold NextChunk. destruct (Z.leb_spec max 0); [done|lia].
Qed.

Lemma cyc_lookup l pos k i : (pos < length l)%nat → (i < k)%nat →
  cyc l pos k !! i = l !! ((pos + i) mod length l)%nat.
Proof.
  revert pos i. induction k as [|k IH]; intros pos i Hpos Hi; [lia|]. cbn [cyc].
  destruct (lookup_lt_is_Some_2 l pos Hpos) as [p Hp]. rewrite Hp. destruct i as [|i].
  - by rewrite Nat.add_0_r, (Nat.mod_small pos), Hp.
  - change ((p :: cyc l (S pos mod length l) k) !! S i) with (cyc l (S pos mod length l) k !! i).
    rewrite IH by (lia || apply Nat.mod_upper_bound; lia).
    rewrite Nat.Div0.add_mod_idemp_l. f_equal. f_equal. lia.
Qed.

Lemma length_cyc l pos k : (pos < length l)%nat → length (cyc l pos k) = k.
Proof.
  revert pos. induction k as [|k IH]; intros pos Hpos; [done|]. cbn [cyc].
  destruct (lookup_lt_is_Some_2 l pos Hpos) as [p Hp]. rewrite Hp. simpl.
  by rewrite IH by (apply Nat.mod_upper_bound; lia).
Qed.

Lemma mod_window_inj n a i j : (i < n)%nat → (j < n)%nat →
  ((a + i) mod n = (a + j) mod n)%nat → i = j.
Proof.
  intros Hi Hj H. pose proof (Nat.div_mod_eq (a + i) n). pose proof (Nat.div_mod_eq (a + j) n).
  assert ((a + i) / n = (a + j) / n ∨ i = j)%nat as [?| ?]; [|lia|done].
  destruct (decide (i = j)); [by right|left]. nia.
Qed.

Lemma cyc_NoDup l pos k : (pos < length l)%nat → (k ≤ length l)%nat → NoDup (keys l) →
  NoDup (keys (cyc l pos k)).
Proof.
  intros Hpos Hk Hnd. apply NoDup_alt. intros i j x Hi Hj.
  rewrite list_lookup_fmap in Hi, Hj.
  assert (i < k ∧ j < k)%nat as [Hik Hjk].
  { apply fmap_Some in Hi as (? & Hi & _). apply fmap_Some in Hj as (? & Hj & _).
    apply lookup_lt_Some in Hi, Hj. by rewrite length_cyc in Hi, Hj. }
  rewrite cyc_lookup in Hi, Hj by done.
  apply (mod_window_inj (length l) pos); [lia..|].
  rewrite NoDup_alt in Hnd. apply (Hnd _ _ x); by rewrite list_lookup_fmap.
Qed.

(** ** Properties *)
Inductive op :=
  | OpEnqueue (p : Param)
  | OpEnqueueFront (p : Param)
  | OpNextChunk (max : Z)
  | OpRecord (now : Z) (r : PollResult)
  | OpRecordBulk (now : Z) (ps : list Param) (vs : list f64) (t : Z) (err : option string).
Definition step (q : PollQueue) (o : op) : PollQueue :=
  match o with
  | OpEnqueue p => Enqueue q p
  | OpEnqueueFront p => EnqueueFront q p
  | OpNextChunk max => fst (NextChunk q max)
  | OpRecord now r => Record_ now q r
  | OpRecordBulk now ps vs t err => RecordBulk now q ps vs t err
  end.

Lemma run_wf q ops : wf q → wf (fold_left step ops q).
Proof.
  revert q. induction ops as [|o ops IH]; intros q Hq; [done|]. simpl. apply IH.
  destruct o; simpl; auto using Enqueue_wf, EnqueueFront_wf, NextChunk_wf, Record_wf, RecordBulk_wf.
Qed.

(** The queue's invariant.  After any sequence of operations on a new queue,
    no two entries of the rotation and no two waiting manual polls have the same
    number, instance and type, the two sets are exactly the keys of the two
    lists, the position is inside the rotation, and every queued parameter has a
    latest result. *)
Theorem PollQueue_invariant (params : list Param) (ops : list op) :
  let q := fold_left step ops (NewPollQueue params) in
  (∀ i j p p', normal q !! i = Some p → normal q !! j = Some p' →
     ID p = ID p' → Inst p = Inst p' → Type_ p = Type_ p' → i = j) ∧
  (∀ i j p p', front q !! i = Some p → front q !! j = Some p' →
     ID p = ID p' → Inst p = Inst p' → Type_ p = Type_ p' → i = j) ∧
  normalSet q = list_to_set (keys (normal q)) ∧ frontSet q = list_to_set (keys (front q)) ∧
  ((normalPos q < length (normal q))%nat ∨ normal q = [] ∧ normalPos q = 0%nat) ∧
  (∀ p, p ∈ normal q ++ front q → is_Some (Latest q p)).
Proof.
  intros q. assert (Hq : wf q) by apply run_wf, NewPollQueue_wf. destruct Hq as [Hn Hf ? ? ? ?].
  assert (Huniq : ∀ l, NoDup (keys l) → ∀ i j p p', l !! i = Some p → l !! j = Some p' →
     ID p = ID p' → Inst p = Inst p' → Type_ p = Type_ p' → i = j).
  { intros l Hl i j p p' Hi Hj H1 H2 H3. rewrite NoDup_alt in Hl.
    apply (Hl i j (ParameterKey p)); rewrite list_lookup_fmap.
    - by rewrite Hi.
    - rewrite Hj. simpl. f_equal. by apply ParameterKey_inj. }
  split_and!; try done; eauto.
Qed.

(** A chunk.  For a reachable queue and a positive limit, [NextChunk] returns
    the oldest manual polls first, in order and each once, and fills up with the
    next parameters of the rotation, none of them twice; the chunk is as long as
    the limit unless the queue has fewer entries, and the rotation resumes behind
    the last parameter taken. *)
Theorem NextChunk_spec (params : list Param) (ops : list op) (max : Z) :
  0 < max →
  let q := fold_left step ops (NewPollQueue params) in
  let m := Z.to_nat max in
  let '(q', chunk) := NextChunk q max in
  ∃ part, chunk = take m (front q) ++ part ∧ front q' = drop m (front q) ∧
    NoDup (keys part) ∧ normal q' = normal q ∧
    length chunk = (m `min` (length (front q) + length (normal q)))%nat ∧
    (∀ i, (i < length part)%nat → part !! i = normal q !! ((normalPos q + i) mod length (normal q))%nat) ∧
    normalPos q' = ((normalPos q + length part) mod length (normal q))%nat.
Proof.
  intros Hmax q m. assert (Hq : wf q) by apply run_wf, NewPollQueue_wf.
  rewrite NextChunk_eq by done. fold m. cbv zeta.
  set (k := (length (normal q) `min` (m - length (front q)))%nat).
  exists (cyc (normal q) (normalPos q) k). destruct (wf_pos q Hq) as [Hpos|[Hnil Hp]].
  - rewrite length_app, length_cyc, length_take by done. split_and!; try done; simpl.
    + apply cyc_NoDup; [done|lia|apply Hq].
    + lia.
    + intros i Hi. by apply cyc_lookup.
  - assert (k = 0%nat) as -> by (unfold k; rewrite Hnil; simpl; lia). cbn [cyc].
    rewrite app_nil_r, length_take, Hnil. split_and!; try done; simpl; first [apply NoDup_nil_2 | lia].
Qed.

Lemma NextChunk_spec_witness :
  let p i := MkParam i 1 "" "" "float32" false "" "" in
  let q := fold_left step [OpEnqueueFront (p 9); OpNextChunk 3] (NewPollQueue [p 1; p 2; p 3]) in
  0 < 2 ∧ let '(q', chunk) := NextChunk q 2 in ∃ part, chunk = take 2 (front q) ++ part.
Proof.
  intros p q. split; [lia|].
  pose proof (NextChunk_spec [p 1; p 2; p 3] [OpEnqueueFront (p 9); OpNextChunk 3] 2 ltac:(lia)) as H.
  cbv zeta in H. fold q in H. destruct (NextChunk q 2) as [q' chunk].
  destruct H as (part & H & _). by exists part.
Defined.

(** The chunks of [n] calls in a row. *)
Fixpoint chunks (n : nat) (q : PollQueue) (max : Z) : list (list Param) :=
  match n with
  | O => []
  | S n' => let '(q', c) := NextChunk q max in c :: chunks n' q' max
  end.

Lemma chunks_lookup n q max c i : wf q → 0 < max → front q = [] → normal q ≠ [] →
  let m := (length (normal q) `min` Z.to_nat max)%nat in
  (c < n)%nat → (i < m)%nat →
  chunks n q max !! c ≫= (λ chunk, chunk !! i) =
  normal q !! ((normalPos q + (c * m + i)) mod length (normal q))%nat.
Proof.
  revert q c. induction n as [|n IH]; intros q c Hq Hmax Hfr Hne m Hc Hi; [lia|].
  pose proof (NextChunk_wf q max Hq) as Hq'. cbn [chunks].
  rewrite NextChunk_eq in * by done. rewrite Hfr in *. rewrite !drop_nil, !take_nil in *.
  cbn [length app fst] in *. rewrite Nat.sub_0_r in *. fold m in Hq' |- *.
  assert (Hpos : (normalPos q < length (normal q))%nat) by (destruct (wf_pos q Hq) as [?|[? _]]; done).
  destruct c as [|c].
  - cbn [lookup list_lookup mbind option_bind]. by apply cyc_lookup.
  - specialize (IH _ c Hq' Hmax eq_refl Hne ltac:(lia) Hi). etrans; [exact IH|].
    cbn [normal normalPos]. fold m.
    rewrite Nat.Div0.add_mod_idemp_l. f_equal. f_equal. lia.
Qed.

(** Every parameter of the rotation is in one of enough chunks. *)
Lemma chunks_cover q max n p : wf q → 0 < max → front q = [] → p ∈ normal q →
  Z.of_nat (length (normal q)) ≤ Z.of_nat n * max → ∃ chunk, chunk ∈ chunks n q max ∧ p ∈ chunk.
Proof.
  intros Hq Hmax Hfr Hp Hn.
  apply list_elem_of_lookup in Hp as [t Ht]. pose proof (lookup_lt_Some _ _ _ Ht) as Hlt.
  assert (Hne : normal q ≠ []) by (intros H0; by rewrite H0 in Ht).
  destruct (wf_pos q Hq) as [Hpos|[? _]]; [|done].
  set (len := length (normal q)) in *. set (m := (len `min` Z.to_nat max)%nat).
  set (d := ((t + len - normalPos q) mod len)%nat).
  assert (Hd : (d < len)%nat) by (apply Nat.mod_upper_bound; lia).
  assert (Hm : (0 < m)%nat) by lia.
  assert (Hc : (d / m < n)%nat).
  { apply Nat.Div0.div_lt_upper_bound.
    assert (Hn' : (len ≤ n * Z.to_nat max)%nat) by lia.
    assert (0 < n)%nat by (destruct n; lia).
    unfold m. destruct (Nat.min_spec len (Z.to_nat max)) as [[_ ->]|[_ ->]]; nia. }
  pose proof (chunks_lookup n q max (d / m) (d mod m) Hq Hmax Hfr Hne Hc
    ltac:(apply Nat.mod_upper_bound; lia)) as H. fold len m in H.
  assert (d / m * m + d mod m = d)%nat as Heq by (pose proof (Nat.div_mod_eq d m); lia).
  rewrite Heq in H. unfold d in H. rewrite Nat.Div0.add_mod_idemp_r in H.
  replace (normalPos q + (t + len - normalPos q))%nat with (t + 1 * len)%nat in H by lia.
  rewrite Nat.Div0.mod_add, (Nat.mod_small t), Ht in H by done.
  apply bind_Some in H as (chunk & H1 & H2).
  exists chunk. split; by eapply list_elem_of_lookup_2.
Qed.

(** No starvation.  In a reachable queue without manual polls, every
    parameter of the rotation is returned by one of any [n] consecutive chunks
    with [n * max] at least the length of the rotation. *)
Theorem NextChunk_fair (params : list Param) (ops : list op) (max : Z) (n : nat) (p : Param) :
  let q := fold_left step ops (NewPollQueue params) in
  0 < max → front q = [] → p ∈ normal q →
  Z.of_nat (length (normal q)) ≤ Z.of_nat n * max →
  ∃ chunk, chunk ∈ chunks n q max ∧ p ∈ chunk.
Proof. intros q. apply chunks_cover, run_wf, NewPollQueue_wf. Qed.

Lemma NextChunk_fair_witness :
  let p i := MkParam i 1 "" "" "float32" false "" "" in
  let q := fold_left step [OpNextChunk 3] (NewPollQueue [p 1; p 2; p 3; p 4; p 5]) in
  ∃ chunk, chunk ∈ chunks 3 q 2 ∧ p 3 ∈ chunk.
Proof.
  intros p q. apply (NextChunk_fair [p 1; p 2; p 3; p 4; p 5] [OpNextChunk 3] 2 3 (p 3)).
  - lia.
  - vm_compute. reflexivity.
  - apply (bool_decide_unpack _). vm_compute. exact I.
  - vm_compute. congruence.
Defined.

(** ** What the operations may add to the queue *)
Definition entries (q : PollQueue) : list Param := normal q ++ front q.

Lemma seed_entries q p : entries (seedLatestLocked q p) = entries q.
Proof. unfold seedLatestLocked. by destruct (latest q !! ParameterKey p). Qed.

Lemma Enqueue_entries q p x : x ∈ entries (Enqueue q p) → x ∈ entries q ∨ x = p.
Proof.
  unfold Enqueue. rewrite <-(seed_entries q p). destruct (decide _); [auto|]. unfold entries. simpl.
  rewrite !elem_of_app, list_elem_of_singleton. intros [[?|?]|?]; auto.
Qed.

Lemma EnqueueFront_entries q p x : x ∈ entries (EnqueueFront q p) → x ∈ entries q ∨ x = p.
Proof.
  unfold EnqueueFront. rewrite <-(seed_entries q p). destruct (decide _); [auto|]. unfold entries. simpl.
  rewrite !elem_of_app, list_elem_of_singleton. intros [?|[?|?]]; auto.
Qed.

Lemma NewPollQueue_entries params x : x ∈ entries (NewPollQueue params) → x ∈ params.
Proof.
  unfold NewPollQueue.
  assert (H : ∀ q, x ∈ entries (fold_left Enqueue params q) → x ∈ entries q ∨ x ∈ params).
  { induction params as [|p params IH]; intros q Hx; [by left|]. simpl in Hx.
    apply IH in Hx as [Hx|Hx]; [|right; by right].
    apply Enqueue_entries in Hx as [Hx| ->]; [by left|right; by left]. }
  intros Hx. apply H in Hx as [Hx|Hx]; [|done]. by apply elem_of_nil in Hx.
Qed.

Lemma RecordBulk_entries now q ps vs t err : entries (RecordBulk now q ps vs t err) = entries q.
Proof.
  unfold RecordBulk. generalize 0%nat. revert q. induction ps as [|p ps IH]; intros q i; [done|].
  simpl. by rewrite IH.
Qed.

Lemma NextChunk_entries q max x : wf q → x ∈ entries (NextChunk q max).1 → x ∈ entries q.
Proof.
  intros Hq. destruct (decide (0 < max)) as [Hmax|Hmax].
  - rewrite NextChunk_eq by done. unfold entries. simpl. rewrite !elem_of_app.
    intros [?|?%elem_of_drop]; auto.
  - unfold NextChunk. destruct (Z.leb_spec max 0); [done|lia].
Qed.

Lemma Enqueue_in q p : wf q → ∃ x, x ∈ entries (Enqueue q p) ∧ ParameterKey x = ParameterKey p.
Proof.
  intros Hq. destruct (seed_wf q p Hq) as (Hs & _). unfold Enqueue. destruct (decide _) as [Hin|].
  - rewrite (wf_normalSet _ Hs), elem_of_list_to_set, list_elem_of_fmap in Hin.
    destruct Hin as (x & Hk & Hx). exists x. unfold entries. rewrite elem_of_app. auto.
  - exists p. unfold entries. simpl. rewrite !elem_of_app, list_elem_of_singleton. auto.
Qed.

(** *** What the operations keep in the queue *)
Lemma Enqueue_mono q p x : x ∈ entries q → x ∈ entries (Enqueue q p).
Proof.
  rewrite <-(seed_entries q p). unfold Enqueue. destruct (decide _); [done|]. unfold entries. simpl.
  rewrite !elem_of_app. intros [?|?]; auto.
Qed.

Lemma EnqueueFront_mono q p x : x ∈ entries q → x ∈ entries (EnqueueFront q p).
Proof.
  rewrite <-(seed_entries q p). unfold EnqueueFront. destruct (decide _); [done|]. unfold entries. simpl.
  rewrite !elem_of_app. intros [?|?]; auto.
Qed.

Lemma Enqueue_serves q p y : (∃ x, x ∈ entries q ∧ ParameterKey x = ParameterKey y) →
  ∃ x, x ∈ entries (Enqueue q p) ∧ ParameterKey x = ParameterKey y.
Proof. intros (x & Hx & Hk). exists x. split; [by apply Enqueue_mono|done]. Qed.

Lemma EnqueueFront_serves q p y : (∃ x, x ∈ entries q ∧ ParameterKey x = ParameterKey y) →
  ∃ x, x ∈ entries (EnqueueFront q p) ∧ ParameterKey x = ParameterKey y.
Proof. intros (x & Hx & Hk). exists x. split; [by apply EnqueueFront_mono|done]. Qed.

Lemma NewPollQueue_complete params p : p ∈ params →
  ∃ x, x ∈ entries (NewPollQueue params) ∧ ParameterKey x = ParameterKey p.
Proof.
  unfold NewPollQueue.
  assert (H : ∀ q, wf q → p ∈ params ∨ (∃ x, x ∈ entries q ∧ ParameterKey x = ParameterKey p) →
    ∃ x, x ∈ entries (fold_left Enqueue params q) ∧ ParameterKey x = ParameterKey p).
  { induction params as [|p' params IH]; intros q Hq Hp; simpl.
    - by destruct Hp as [Hp%elem_of_nil|?].
    - apply IH; [by apply Enqueue_wf|]. rewrite elem_of_cons in Hp.
      destruct Hp as [[->|?]|?]; [right; by apply Enqueue_in|by left|right; by apply Enqueue_serves]. }
  intros Hp. apply H; [|by left]. apply (NewPollQueue_wf []).
Qed.
