(* ===== verification/WriteLease.v ===== *)
(** * WriteLease: the advisory write authority of [mecom/writelease]

    One lease per device, swept lazily.  Times are nanoseconds, 0 is Go's zero
    time.  An operation receives what it reads from outside: the clock (two
    readings where the code reads it twice) and the random bytes of a new token.

    The specification is the registry without sweeping: the leases that are
    active now, as a finite map ([live]). *)
From stdpp Require Import prelude gmap strings list sorting.
From Stdlib Require Import Strings.Byte.
From S2P Require Import Prelude Text.
Open Scope Z_scope.

(** ** State *)
Record Lease := MkLease {
  DeviceID : string;
  Holder : string;
  Token : bytes;
  AcquiredAt : Z;
  ExpiresAt : Z }.

Global Instance Lease_eq_dec : EqDecision Lease.
Proof. solve_decision. Defined.

Abbreviation Registry := (gmap string Lease).

(** ** Operations *)
Definition Minute : Z := 60000000000.

Definition Active (l : Lease) (now : Z) : bool := negb (ExpiresAt l =? 0) && (now <? ExpiresAt l).

Definition NewRegistry : Registry := ∅.

Definition sweepLockedAt (now : Z) (r : Registry) : Registry :=
  filter (λ kv, Active kv.2 now = true) r.

Definition newToken (rand : res bytes) : res bytes :=
  match rand with
  | Err e => Err (Wrapf "writelease: token gen: %w" [] e)
  | Ok buf => Ok (EncodeToString buf)
  end.

(** [t0] is the sweep's reading of the clock, [t1] the operation's. *)
Definition Acquire (t0 t1 : Z) (rand : res bytes) (deviceID holder : string) (ttl : Z)
    (r : Registry) : Registry * res Lease :=
  if bool_decide (deviceID = ""%string) then (r, Err (Errorf "writelease: device_id required" []))
  else if bool_decide (holder = ""%string) then (r, Err (Errorf "writelease: holder required" []))
  else
    let ttl := if ttl <=? 0 then Minute else ttl in
    let r := sweepLockedAt t0 r in
    let fresh :=
      match newToken rand with
      | Err e => (r, Err e)
      | Ok token =>
          let lease := MkLease deviceID holder token t1 (t1 + ttl) in
          (<[deviceID := lease]> r, Ok lease)
      end in
    match r !! deviceID with
    | Some existing =>
        if Active existing t1 then
          if bool_decide (Holder existing = holder) then
            let existing := MkLease (DeviceID existing) (Holder existing) (Token existing)
                              (AcquiredAt existing) (t1 + ttl) in
            (<[deviceID := existing]> r, Ok existing)
          else (r, Err (Wrapf "%w: %s holds %s until %s" [] (Sentinel ErrLeaseHeld)))
        else fresh
    | None => fresh
    end.

(** The loop over the map removes one lease with the token. *)
Definition Release (t : Z) (token : bytes) (r : Registry) : Registry * res () :=
  let r := sweepLockedAt t r in
  match filter (λ kv, Token kv.2 = token) (map_to_list r) with
  | (id, _) :: _ => (delete id r, Ok ())
  | [] => (r, Err (Sentinel ErrInvalidToken))
  end.

Definition Validate (now : Z) (deviceID : string) (token : bytes) (r : Registry) : Registry * res () :=
  match r !! deviceID with
  | None => (sweepLockedAt now r, Err (Sentinel ErrUnknownDevice))
  | Some lease =>
      if negb (Active lease now) then
        (sweepLockedAt now (delete deviceID r), Err (Sentinel ErrExpired))
      else
        let r := sweepLockedAt now r in
        if negb (bool_decide (Token lease = token)) then (r, Err (Sentinel ErrInvalidToken))
        else (r, Ok ())
  end.

(** The inner loop of the sort: [rev] is [out[:j]] from its end. *)
Fixpoint sift (x : Lease) (rev : list Lease) : list Lease :=
  match rev with
  | [] => [x]
  | y :: rev' =>
      if String.ltb (DeviceID x) (DeviceID y) then y :: sift x rev' else x :: rev
  end.
Definition sort_leases (out : list Lease) : list Lease :=
  reverse (fold_left (λ rev x, sift x rev) out []).

Definition List_ (t : Z) (r : Registry) : Registry * list Lease :=
  let r := sweepLockedAt t r in
  (r, sort_leases (snd <$> map_to_list r)).

(** ** Specification *)
Abbreviation live := sweepLockedAt.

Definition spec_Acquire (now : Z) (rand : res bytes) (deviceID holder : string) (ttl : Z)
    (a : Registry) : Registry * res Lease :=
  if bool_decide (deviceID = ""%string) then (a, Err (Errorf "writelease: device_id required" []))
  else if bool_decide (holder = ""%string) then (a, Err (Errorf "writelease: holder required" []))
  else
    let until := now + (if ttl <=? 0 then Minute else ttl) in
    match a !! deviceID with
    | Some l =>
        if bool_decide (Holder l = holder)
        then let l := MkLease (DeviceID l) (Holder l) (Token l) (AcquiredAt l) until in
             (<[deviceID := l]> a, Ok l)
        else (a, Err (Wrapf "%w: %s holds %s until %s" [] (Sentinel ErrLeaseHeld)))
    | None =>
        match newToken rand with
        | Err e => (a, Err e)
        | Ok token => let l := MkLease deviceID holder token now until in
                      (<[deviceID := l]> a, Ok l)
        end
    end.

Definition spec_Validate (deviceID : string) (token : bytes) (a : Registry) : bool :=
  match a !! deviceID with Some l => bool_decide (Token l = token) | None => false end.

(** ** Lemmas *)
Lemma live_lookup t r d l : live t r !! d = Some l ↔ r !! d = Some l ∧ Active l t = true.
Proof. unfold sweepLockedAt. apply map_lookup_filter_Some. Qed.

Lemma live_lookup_eq t r d :
  live t r !! d = match r !! d with Some l => if Active l t then Some l else None | None => None end.
Proof.
  unfold sweepLockedAt. destruct (r !! d) as [l|] eqn:E.
  - destruct (Active l t) eqn:Ha.
    + by apply map_lookup_filter_Some.
    + apply map_lookup_filter_None. right. intros l' H'. simplify_eq. simpl. by rewrite Ha.
  - apply map_lookup_filter_None. by left.
Qed.

Lemma Active_mono l t t' : t ≤ t' → Active l t' = true → Active l t = true.
Proof. unfold Active. rewrite !andb_true_iff, !Z.ltb_lt. lia. Qed.

Lemma live_live t t' r : t ≤ t' → live t' (live t r) = live t' r.
Proof.
  intros Ht. apply map_eq. intros d. rewrite !live_lookup_eq. destruct (r !! d) as [l|]; [|done].
  destruct (Active l t') eqn:E; [by rewrite (Active_mono l t t'), E|].
  destruct (Active l t); [by rewrite E|done].
Qed.

Lemma live_insert t r d l : Active l t = true → live t (<[d := l]> r) = <[d := l]> (live t r).
Proof.
  intros Ha. apply map_eq. intros d'. rewrite live_lookup_eq. destruct (decide (d' = d)) as [->|].
  - by rewrite !lookup_insert_eq, Ha.
  - by rewrite !lookup_insert_ne, live_lookup_eq by done.
Qed.

Lemma live_delete t r d : live t (delete d r) = delete d (live t r).
Proof.
  apply map_eq. intros d'. rewrite live_lookup_eq. destruct (decide (d' = d)) as [->|].
  - by rewrite !lookup_delete_eq.
  - by rewrite !lookup_delete_ne, live_lookup_eq by done.
Qed.

Lemma live_inactive t r d l : r !! d = Some l → Active l t = false → live t r = live t (delete d r).
Proof.
  intros Hd Ha. rewrite live_delete, delete_id; [done|]. by rewrite live_lookup_eq, Hd, Ha.
Qed.

Lemma fresh_active t1 ttl d h tok a : t1 ≠ - ttl → 0 < ttl → Active (MkLease d h tok a (t1 + ttl)) t1 = true.
Proof.
  intros. unfold Active. simpl. rewrite andb_true_iff, negb_true_iff, Z.eqb_neq, Z.ltb_lt. lia.
Qed.

Lemma Acquire_refines t0 t1 rand d h ttl r : 0 ≤ t0 ≤ t1 →
  let '(r', out) := Acquire t0 t1 rand d h ttl r in
  spec_Acquire t1 rand d h ttl (live t1 r) = (live t1 r', out).
Proof.
  intros Ht. unfold Acquire, spec_Acquire.
  destruct (bool_decide (d = _)); [done|]. destruct (bool_decide (h = _)); [done|]. cbv zeta.
  set (ttl' := if ttl <=? 0 then Minute else ttl).
  assert (Hpos : 0 < ttl') by (unfold ttl', Minute; destruct (Z.leb_spec ttl 0); lia).
  rewrite !live_lookup_eq.
  assert (Hfresh : let '(r', out) := match newToken rand with
      | Err e => (live t0 r, Err e)
      | Ok token => (<[d := MkLease d h token t1 (t1 + ttl')]> (live t0 r),
                     Ok (MkLease d h token t1 (t1 + ttl')))
      end in
    match newToken rand with
    | Err e => (live t1 r, Err e)
    | Ok token => (<[d := MkLease d h token t1 (t1 + ttl')]> (live t1 r),
                   Ok (MkLease d h token t1 (t1 + ttl')))
    end = (live t1 r', out)).
  { destruct (newToken rand) as [tok|e].
    - by rewrite live_insert, live_live by (try apply fresh_active; lia).
    - by rewrite live_live by lia. }
  destruct (r !! d) as [l|]; [|exact Hfresh].
  destruct (Active l t0) eqn:E0.
  - destruct (Active l t1) eqn:E1; [|exact Hfresh].
    destruct (bool_decide (Holder l = h)).
    + by rewrite live_insert, live_live by (try apply fresh_active; lia).
    + by rewrite live_live by lia.
  - destruct (Active l t1) eqn:E1; [|exact Hfresh].
    apply (Active_mono l t0 t1) in E1; [congruence|lia].
Qed.

Lemma Validate_refines now d tok r :
  let '(r', out) := Validate now d tok r in
  r' = live now r ∧ is_Ok out = spec_Validate d tok (live now r) ∧
  (out = Err (Sentinel ErrInvalidToken) ↔
     ∃ l, live now r !! d = Some l ∧ Token l ≠ tok).
Proof.
  unfold Validate, spec_Validate. rewrite live_lookup_eq. destruct (r !! d) as [l|] eqn:Hd.
  - destruct (Active l now) eqn:Ha; simpl.
    + destruct (bool_decide_reflect (Token l = tok)) as [Ht|Ht]; simpl.
      * split_and!; [done..|]. split; [done|]. intros (? & ? & ?). simplify_eq.
      * split_and!; [done..|]. split; [|done]. intros _. eauto.
    + split_and!; [by rewrite (live_inactive now r d l)|done|].
      split; [done|]. intros (? & ? & ?). done.
  - split_and!; [done..|]. split; [done|]. intros (? & ? & ?). done.
Qed.

Lemma Release_refines t tok r :
  let '(r', out) := Release t tok r in
  (out = Ok () ∧ ∃ d l, live t r !! d = Some l ∧ Token l = tok ∧ r' = delete d (live t r)) ∨
  (out = Err (Sentinel ErrInvalidToken) ∧ r' = live t r ∧
   ∀ d l, live t r !! d = Some l → Token l ≠ tok).
Proof.
  unfold Release. destruct (filter _ (map_to_list (live t r))) as [|[d l] rest] eqn:E.
  - right. split_and!; [done..|]. intros d l Hd Ht.
    assert (H : (d, l) ∈ filter (λ kv, Token kv.2 = tok) (map_to_list (live t r))).
    { apply list_elem_of_filter. split; [done|]. by apply elem_of_map_to_list. }
    rewrite E in H. by apply elem_of_nil in H.
  - left. split; [done|]. exists d, l.
    assert (H : (d, l) ∈ filter (λ kv, Token kv.2 = tok) (map_to_list (live t r))) by (rewrite E; left).
    apply list_elem_of_filter in H as [Ht H]. apply elem_of_map_to_list in H. done.
Qed.

(** *** Sorting *)
Lemma sift_perm x rev : sift x rev ≡ₚ x :: rev.
Proof.
  induction rev as [|y rev IH]; simpl; [done|]. destruct (String.ltb _ _); [|done].
  rewrite IH. apply Permutation_swap.
Qed.

Lemma ltb_leb s1 s2 : String.ltb s1 s2 = negb (String.leb s2 s1).
Proof.
  unfold String.ltb, String.leb. pose proof (String.compare_antisym s1 s2).
  by destruct (String.compare s1 s2), (String.compare s2 s1).
Qed.

(** Reversed order: the largest identifier first. *)
Definition lease_ge (a b : Lease) : Prop := String.le (DeviceID b) (DeviceID a).

Global Instance lease_ge_trans : Transitive lease_ge.
Proof. intros a b c Hab Hbc. unfold lease_ge in *. by trans (DeviceID b). Qed.

Lemma sift_sorted x rev : StronglySorted lease_ge rev → StronglySorted lease_ge (sift x rev).
Proof.
  induction 1 as [|y rev Hrev IH Hy]; simpl; [by repeat constructor|].
  destruct (String.ltb (DeviceID x) (DeviceID y)) eqn:E.
  - rewrite ltb_leb, negb_true_iff in E. constructor; [done|].
    rewrite sift_perm. constructor; [|done]. unfold lease_ge, String.le.
    destruct (String.leb_total (DeviceID x) (DeviceID y)) as [->|H]; [done|congruence].
  - rewrite ltb_leb, negb_false_iff in E.
    assert (Hxy : lease_ge x y) by (unfold lease_ge, String.le; by rewrite E).
    constructor; [by constructor|]. constructor; [done|].
    eapply Forall_impl; [exact Hy|]. intros z Hz. by trans y.
Qed.

Lemma sort_fold_perm out rev : fold_left (λ rev x, sift x rev) out rev ≡ₚ out ++ rev.
Proof.
  revert rev. induction out as [|x out IH]; intros rev; simpl; [done|].
  rewrite IH, sift_perm. by rewrite Permutation_middle.
Qed.

Lemma sort_leases_perm out : sort_leases out ≡ₚ out.
Proof. unfold sort_leases. by rewrite reverse_Permutation, sort_fold_perm, app_nil_r. Qed.

Lemma sort_fold_sorted out rev : StronglySorted lease_ge rev →
  StronglySorted lease_ge (fold_left (λ rev x, sift x rev) out rev).
Proof.
  revert rev. induction out as [|x out IH]; intros rev Hr; simpl; [done|].
  by apply IH, sift_sorted.
Qed.

Lemma StronglySorted_reverse {A} (R : relation A) l :
  StronglySorted R l → StronglySorted (flip R) (reverse l).
Proof.
  induction 1 as [|x l Hl IH Hx]; [constructor|]. rewrite reverse_cons.
  apply StronglySorted_app. split_and!.
  - intros a b Ha%elem_of_reverse Hb%list_elem_of_singleton. subst.
    rewrite Forall_forall in Hx. rewrite reverse_involutive in Ha. by apply Hx.
  - done.
  - by repeat constructor.
Qed.

Lemma sort_leases_sorted out : StronglySorted (λ a b, String.le (DeviceID a) (DeviceID b)) (sort_leases out).
Proof. apply (StronglySorted_reverse lease_ge), sort_fold_sorted. constructor. Qed.

(** ** Traces *)
Inductive event :=
  | EAcquire (t0 t1 : Z) (rand : res bytes) (deviceID holder : string) (ttl : Z)
  | ERelease (t : Z) (token : bytes)
  | EValidate (t : Z) (deviceID : string) (token : bytes)
  | EList (t : Z).
Definition exec (r : Registry) (e : event) : Registry :=
  match e with
  | EAcquire t0 t1 rand d h ttl => fst (Acquire t0 t1 rand d h ttl r)
  | ERelease t tok => fst (Release t tok r)
  | EValidate t d tok => fst (Validate t d tok r)
  | EList t => fst (List_ t r)
  end.
Definition at_most (t : Z) (e : event) : Prop :=
  match e with
  | EAcquire t0 t1 _ _ _ _ => 0 ≤ t0 ≤ t1 ∧ t1 < t
  | ERelease t' _ | EValidate t' _ _ | EList t' => t' < t
  end.

(** An event that neither releases the lease nor renews it. *)
Definition leaves (l : Lease) (d : string) (e : event) : Prop :=
  match e with
  | EAcquire _ _ _ d' h _ => ¬ (d' = d ∧ h = Holder l)
  | ERelease _ tok => tok ≠ Token l
  | _ => True
  end.

Lemma active_before l t : ExpiresAt l ≠ 0 → t < ExpiresAt l → Active l t = true.
Proof. intros. unfold Active. rewrite andb_true_iff, negb_true_iff, Z.eqb_neq, Z.ltb_lt. lia. Qed.

Lemma exec_keeps r e d l : ExpiresAt l ≠ 0 → r !! d = Some l →
  at_most (ExpiresAt l) e → leaves l d e → exec r e !! d = Some l.
Proof.
  intros Hne Hd Ht Hl.
  assert (Hlive : ∀ t, t < ExpiresAt l → live t r !! d = Some l).
  { intros t Hlt. rewrite live_lookup_eq, Hd. by rewrite active_before. }
  destruct e as [t0 t1 rand d' h ttl|t tok|t d' tok|t]; simpl in *.
  - destruct Ht as [Ht01 Ht]. unfold Acquire.
    destruct (bool_decide (d' = _)); [done|]. destruct (bool_decide (h = _)); [done|]. cbv zeta.
    destruct (decide (d' = d)) as [->|Hdd].
    + rewrite Hlive by lia. rewrite active_before by (done || lia).
      rewrite bool_decide_false by (intros Hx; by apply Hl). simpl. apply Hlive. lia.
    + assert (Hins : ∀ x, <[d' := x]> (live t0 r) !! d = Some l).
      { intros x. rewrite lookup_insert_ne by done. apply Hlive. lia. }
      destruct (live t0 r !! d') as [l'|]; [|destruct (newToken rand); simpl; auto; apply Hlive; lia].
      destruct (Active l' t1); [|destruct (newToken rand); simpl; auto; apply Hlive; lia].
      destruct (bool_decide _); simpl; auto. apply Hlive. lia.
  - pose proof (Release_refines t tok r) as H. destruct (Release t tok r) as [r' out]. simpl.
    destruct H as [(-> & d' & l' & Hd' & Htok & ->)|(-> & -> & _)]; [|by apply Hlive].
    rewrite lookup_delete_ne; [by apply Hlive|]. intros ->. rewrite Hlive in Hd' by done. congruence.
  - pose proof (Validate_refines t d' tok r) as H. destruct (Validate t d' tok r) as [r' out]. simpl.
    destruct H as [-> _]. by apply Hlive.
  - by apply Hlive.
Qed.

Lemma trace_keeps r es d l : ExpiresAt l ≠ 0 → r !! d = Some l →
  Forall (at_most (ExpiresAt l)) es → Forall (leaves l d) es → fold_left exec es r !! d = Some l.
Proof.
  intros Hne Hd Ht Hl. revert r Hd. induction es as [|e es IH]; intros r Hd; [done|].
  apply Forall_cons_1 in Ht as [? ?], Hl as [? ?]. simpl. apply IH; [done..|]. by apply exec_keeps.
Qed.

Lemma Acquire_ok t0 t1 rand d h ttl r r' l : 0 ≤ t0 ≤ t1 →
  Acquire t0 t1 rand d h ttl r = (r', Ok l) →
  r' !! d = Some l ∧ Holder l = h ∧ h ≠ ""%string ∧ d ≠ ""%string ∧
  ExpiresAt l = t1 + (if ttl <=? 0 then Minute else ttl) ∧ 0 < ExpiresAt l.
Proof.
  intros Ht H. unfold Acquire in H.
  destruct (bool_decide_reflect (d = ""%string)); [done|].
  destruct (bool_decide_reflect (h = ""%string)); [done|]. cbv zeta in H.
  assert (0 < (if ttl <=? 0 then Minute else ttl)) by (unfold Minute; destruct (Z.leb_spec ttl 0); lia).
  repeat case_in H; rewrite lookup_insert_eq;
    repeat match goal with Hb : bool_decide _ = true |- _ => apply bool_decide_eq_true in Hb end;
    split_and!; (done || simpl; lia).
Qed.

(** ** Properties *)

(** Write authority is exclusive.  From a granted lease until it expires, as
    long as its own token is not released and its holder does not renew it, no
    sequence of operations by others (requests, releases of other tokens,
    validations, listings) takes the authority away: its token validates, every
    other token is refused for the device, and any other holder's request is
    refused as held. *)
Theorem lease_exclusive (t0 t1 ttl : Z) (rand : res bytes) (d h : string) (r r' : Registry)
    (l : Lease) (es : list event) (s0 s1 t ttl' : Z) (rand' : res bytes) (h' : string) (token : bytes) :
  0 ≤ t0 ≤ t1 → Acquire t0 t1 rand d h ttl r = (r', Ok l) →
  Forall (at_most (ExpiresAt l)) es → Forall (leaves l d) es →
  t < ExpiresAt l → s0 < ExpiresAt l → s1 < ExpiresAt l → h' ≠ h → h' ≠ ""%string → token ≠ Token l →
  let now := fold_left exec es r' in
  snd (Validate t d (Token l) now) = Ok () ∧
  snd (Validate t d token now) = Err (Sentinel ErrInvalidToken) ∧
  ∃ e, snd (Acquire s0 s1 rand' d h' ttl' now) = Err e ∧ errors_is e ErrLeaseHeld = true.
Proof.
  intros Ht Hacq Hes Hle Htl Hs0 Hs1 Hh Hh' Htok now.
  destruct (Acquire_ok _ _ _ _ _ _ _ _ _ Ht Hacq) as (Hd & Hhl & _ & Hdne & _ & Hpos).
  assert (Hne : ExpiresAt l ≠ 0) by lia.
  assert (Hnow : now !! d = Some l) by (by apply trace_keeps).
  unfold Validate, Acquire. rewrite Hnow, !live_lookup_eq, Hnow.
  rewrite !active_before by done. simpl.
  rewrite (bool_decide_true (Token l = Token l)), (bool_decide_false (Token l = token)) by done.
  rewrite (bool_decide_false (d = ""%string)), (bool_decide_false (h' = ""%string)) by done.
  rewrite (bool_decide_false (Holder l = h')) by congruence.
  split_and!; [done..|]. eexists. split; [done|reflexivity].
Qed.

Lemma lease_exclusive_witness :
  let '(r, out) := Acquire 100 100 (Ok [x01; x02]) "dev" "alice" 50 NewRegistry in
  match out with
  | Ok l =>
      let now := fold_left exec [EAcquire 110 111 (Ok [x03]) "dev" "bob" 50; EList 120] r in
      snd (Validate 149 "dev" (Token l) now) = Ok () ∧
      snd (Validate 149 "dev" (str "00") now) = Err (Sentinel ErrInvalidToken) ∧
      ∃ e, snd (Acquire 140 141 (Ok [x04]) "dev" "bob" 9 now) = Err e ∧ errors_is e ErrLeaseHeld = true
  | Err _ => False
  end.
Proof.
  destruct (Acquire 100 100 (Ok [x01; x02]) "dev" "alice" 50 NewRegistry) as [r out] eqn:E.
  destruct out as [l|]; [|vm_compute in E; discriminate].
  assert (l = MkLease "dev" "alice" (str "0102") 100 150) as -> by (vm_compute in E; injection E as <- <-; reflexivity).
  apply (lease_exclusive 100 100 50 (Ok [x01; x02]) "dev" "alice" NewRegistry r
    (MkLease "dev" "alice" (str "0102") 100 150)
    [EAcquire 110 111 (Ok [x03]) "dev" "bob" 50; EList 120] 140 141 149 9 (Ok [x04]) "bob" (str "00"));
    try (simpl; lia); try done.
  - repeat constructor; simpl; lia.
  - repeat constructor. simpl. intros [_ [=]].
Defined.

(** C29: the lazily swept registry implements the unswept one.  With a clock that
    does not run backwards inside a call, every operation answers, and changes
    the set of active leases, as the specification over the active leases alone
    does; whether and when expired leases are swept cannot be observed, except
    that an expired lease that was not swept is reported as expired rather than
    as unknown. *)
Theorem registry_refines_live (t0 t1 ttl : Z) (rand : res bytes) (d h : string) (token : bytes)
    (r : Registry) :
  0 ≤ t0 ≤ t1 →
  (let '(r', out) := Acquire t0 t1 rand d h ttl r in
   spec_Acquire t1 rand d h ttl (live t1 r) = (live t1 r', out)) ∧
  (let '(r', out) := Validate t1 d token r in
   live t1 r' = live t1 r ∧ is_Ok out = spec_Validate d token (live t1 r)) ∧
  (let '(r', out) := Release t1 token r in
   (out = Ok () ∧ ∃ d' l, live t1 r !! d' = Some l ∧ Token l = token ∧
                          live t1 r' = delete d' (live t1 r)) ∨
   (out = Err (Sentinel ErrInvalidToken) ∧ live t1 r' = live t1 r ∧
    ∀ d' l, live t1 r !! d' = Some l → Token l ≠ token)) ∧
  (let '(r', out) := List_ t1 r in
   live t1 r' = live t1 r ∧ out ≡ₚ snd <$> map_to_list (live t1 r)).
Proof.
  intros Ht. split_and!.
  - by apply Acquire_refines.
  - pose proof (Validate_refines t1 d token r) as H. destruct (Validate t1 d token r) as [r' out].
    destruct H as (-> & H & _). split; [by rewrite live_live|done].
  - pose proof (Release_refines t1 token r) as H. destruct (Release t1 token r) as [r' out].
    destruct H as [(-> & d' & l & Hd & Hl & ->)|(-> & -> & H)]; [left|right].
    + split; [done|]. exists d', l. by rewrite live_delete, live_live.
    + by rewrite live_live.
  - simpl. split; [by rewrite live_live|]. apply sort_leases_perm.
Qed.

Lemma registry_refines_live_witness :
  let r := <["a" := MkLease "a" "x" [] 1 5]> (∅ : Registry) in
  let '(r', out) := Acquire 4 7 (Ok []) "a" "y" 3 r in
  spec_Acquire 7 (Ok []) "a" "y" 3 (live 7 r) = (live 7 r', out).
Proof.
  intros r. destruct (registry_refines_live 4 7 3 (Ok []) "a" "y" [] r ltac:(lia)) as [H _]. exact H.
Defined.

(** The listing is in order of device and does not depend on the order in
    which the map is traversed: for every enumeration of the active leases of a
    registry that keys leases by their device, sorting gives the one list. *)
Theorem List_sorted (t : Z) (r : Registry) (enumeration : list Lease) :
  (∀ d l, r !! d = Some l → DeviceID l = d) →
  enumeration ≡ₚ snd <$> map_to_list (live t r) →
  let out := snd (List_ t r) in
  StronglySorted (λ a b, String.le (DeviceID a) (DeviceID b)) out ∧ NoDup (DeviceID <$> out) ∧
  (∀ l, l ∈ out ↔ r !! DeviceID l = Some l ∧ Active l t = true) ∧
  sort_leases enumeration = out.
Proof.
  intros Hkey Henum out.
  assert (Hin : ∀ l, l ∈ snd <$> map_to_list (live t r) ↔ r !! DeviceID l = Some l ∧ Active l t = true).
  { intros l. rewrite list_elem_of_fmap. split.
    - intros ([d l'] & -> & H). apply elem_of_map_to_list, live_lookup in H as [Hd Ha].
      simpl. by rewrite (Hkey d l').
    - intros H. exists (DeviceID l, l). split; [done|]. by apply elem_of_map_to_list, live_lookup. }
  assert (Hnd : NoDup (DeviceID <$> (snd <$> map_to_list (live t r)))).
  { assert (DeviceID <$> (snd <$> map_to_list (live t r)) = fst <$> map_to_list (live t r)) as ->.
    { rewrite <-list_fmap_compose. apply list_fmap_ext. intros i [d l] H.
      apply list_elem_of_lookup_2, elem_of_map_to_list, live_lookup in H as [Hd _]. by apply Hkey. }
    apply NoDup_fst_map_to_list. }
  assert (Hperm : out ≡ₚ snd <$> map_to_list (live t r)) by apply sort_leases_perm.
  split_and!.
  - apply sort_leases_sorted.
  - by rewrite Hperm.
  - intros l. rewrite Hperm. apply Hin.
  - apply (StronglySorted_unique_strong (λ a b, String.le (DeviceID a) (DeviceID b))).
    + intros a b Ha Hb Hab Hba. rewrite sort_leases_perm, Henum, Hin in Ha. rewrite Hperm, Hin in Hb.
      assert (DeviceID a = DeviceID b) as Heq by (by apply (anti_symm String.le)).
      destruct Ha as [Ha _], Hb as [Hb _]. rewrite Heq in Ha. congruence.
    + apply sort_leases_sorted.
    + apply sort_leases_sorted.
    + by rewrite sort_leases_perm, Henum, Hperm.
Qed.

Lemma List_sorted_witness :
  let r := <["b" := MkLease "b" "x" [] 1 9]> (<["a" := MkLease "a" "x" [] 1 9]> (∅ : Registry)) in
  sort_leases [MkLease "b" "x" [] 1 9; MkLease "a" "x" [] 1 9] = snd (List_ 5 r).
Proof.
  intros r. apply (List_sorted 5 r).
  - intros d l. unfold r. rewrite !lookup_insert_Some, lookup_empty. intuition (subst; done).
  - vm_compute (_ <$> _). reflexivity || apply Permutation_swap.
Defined.
