(* ===== verification/Reduction.v ===== *)
(** * Reduction: aggregates of ring samples ([mecom/reduction.go])

    The statistics window is a package the program calls ([stats.Window] of
    signalforge): here an interface, of which nothing is assumed. *)
From stdpp Require Import prelude gmap strings list.
From Stdlib Require Import Floats.SpecFloat.
From S2P Require Import Prelude Floats Protocol RingFrames.
Open Scope Z_scope.

Record Summary := MkSummary {
  s_Count : Z;
  s_Mean : f64;
  s_Min : f64;
  s_Max : f64;
  s_StdDev : f64 }.

Class Window (W : Type) := {
  win_empty : W;
  win_Add : f64 → W → W * bool;
  win_Count : W → Z;
  win_Snapshot : W → option Summary }.

Definition RingReductionMeanStdDev : string := "mean_stddev_window".

Record ReducedRingSample := MkReduced {
  r_ConfigIndex : Z;
  r_Type : DataType;
  r_Policy : string;
  r_Count : Z;
  r_Mean : f64;
  r_Min : f64;
  r_Max : f64;
  r_StdDev : f64;
  r_FirstTimestamp10us : Z;
  r_LastTimestamp10us : Z }.

Global Instance ReducedRingSample_eq_dec : EqDecision ReducedRingSample.
Proof. solve_decision. Defined.

Section reduction.
Context {W : Type} `{Window W}.

Record ringReductionAccumulator := MkAcc { reduced : ReducedRingSample; window : W }.

Definition newRingReductionAccumulator (configIndex : Z) : ringReductionAccumulator :=
  MkAcc (MkReduced configIndex "" RingReductionMeanStdDev 0 (S754_zero false) (S754_zero false)
           (S754_zero false) (S754_zero false) 0 0) win_empty.

Definition acc_add (frame : RingFrame) (sample : RingSample) (acc : ringReductionAccumulator) :
    ringReductionAccumulator :=
  let '(w, ok) := win_Add (Value sample) (window acc) in
  let r := reduced acc in
  if negb ok then MkAcc r w
  else
    let first := r_Count r =? 0 in
    MkAcc (MkReduced (r_ConfigIndex r)
             (if first then SampleType sample else r_Type r) (r_Policy r)
             (win_Count w) (r_Mean r) (r_Min r) (r_Max r) (r_StdDev r)
             (if first then Timestamp10us frame else r_FirstTimestamp10us r)
             (Timestamp10us frame)) w.

Definition acc_result (acc : ringReductionAccumulator) : option ReducedRingSample :=
  match win_Snapshot (window acc) with
  | None => None
  | Some summary =>
      let r := reduced acc in
      Some (MkReduced (r_ConfigIndex r) (r_Type r) (r_Policy r) (s_Count summary) (s_Mean summary)
              (s_Min summary) (s_Max summary) (s_StdDev summary)
              (r_FirstTimestamp10us r) (r_LastTimestamp10us r))
  end.

(** The samples of a window in the order both loops visit them. *)
Definition frame_samples (frames : list RingFrame) : list (RingFrame * RingSample) :=
  f ← frames; s ← Samples f; [(f, s)].

Definition ReduceRingSamples (frames : list RingFrame) (configIndex : Z) : option ReducedRingSample :=
  acc_result (fold_left (λ acc fs,
    if negb (ConfigIndex fs.2 =? configIndex) then acc else acc_add fs.1 fs.2 acc)
    (frame_samples frames) (newRingReductionAccumulator configIndex)).

Definition accumulators_for (configIndices : list Z) : gmap Z ringReductionAccumulator :=
  fold_left (λ m i, match m !! i with
                    | Some _ => m
                    | None => <[i := newRingReductionAccumulator i]> m
                    end) configIndices ∅.

Definition accumulate (m : gmap Z ringReductionAccumulator) (fs : RingFrame * RingSample) :
    gmap Z ringReductionAccumulator :=
  match m !! ConfigIndex fs.2 with
  | None => m
  | Some acc => <[ConfigIndex fs.2 := acc_add fs.1 fs.2 acc]> m
  end.

Definition ReduceRingSamplesForIndices (frames : list RingFrame) (configIndices : list Z) :
    gmap Z ReducedRingSample :=
  omap acc_result (fold_left accumulate (frame_samples frames) (accumulators_for configIndices)).

(** ** Lemmas *)
Lemma accumulators_lookup js i :
  accumulators_for js !! i = if decide (i ∈ js) then Some (newRingReductionAccumulator i) else None.
Proof.
  unfold accumulators_for.
  assert (Hgo : ∀ m : gmap Z ringReductionAccumulator, fold_left (λ m i, match m !! i with
      | Some _ => m | None => <[i := newRingReductionAccumulator i]> m end) js m !! i =
    match m !! i with
    | Some a => Some a
    | None => if decide (i ∈ js) then Some (newRingReductionAccumulator i) else None
    end).
  { induction js as [|j js IH]; intros m; cbn [fold_left].
    - destruct (m !! i); [done|]. by rewrite decide_False by apply not_elem_of_nil.
    - rewrite IH. destruct (decide (i = j)) as [<-|Hij].
      + destruct (m !! i) as [a|] eqn:E; [by rewrite E|].
        rewrite lookup_insert_eq. by rewrite decide_True by left.
      + assert (Hm : match m !! j with
            | Some _ => m | None => <[j := newRingReductionAccumulator j]> m end !! i = m !! i).
        { destruct (m !! j); [done|]. by rewrite lookup_insert_ne. }
        rewrite Hm. destruct (m !! i); [done|].
        assert (i ∈ j :: js ↔ i ∈ js) by (rewrite elem_of_cons; split; [by intros [?|?]|by auto]).
        destruct (decide (i ∈ js)), (decide (i ∈ j :: js)); tauto || done. }
  by rewrite Hgo, lookup_empty.
Qed.

Lemma accumulate_lookup fss m i :
  fold_left accumulate fss m !! i =
  (λ a, fold_left (λ acc fs,
     if negb (ConfigIndex fs.2 =? i) then acc else acc_add fs.1 fs.2 acc) fss a) <$> m !! i.
Proof.
  revert m. induction fss as [|fs fss IH]; intros m; cbn [fold_left]; [by destruct (m !! i)|].
  rewrite IH. unfold accumulate. destruct (Z.eqb_spec (ConfigIndex fs.2) i) as [<-|Hne]; cbn [negb].
  - destruct (m !! ConfigIndex fs.2) eqn:E; [by rewrite lookup_insert_eq|by rewrite E].
  - destruct (m !! ConfigIndex fs.2); [by rewrite lookup_insert_ne|done].
Qed.
End reduction.

(** One pass for all slots is as good as one pass per slot.  For any
    statistics window, any frames and any list of slots (with repetitions),
    [ReduceRingSamplesForIndices] maps exactly the requested slots that have a
    result to the result [ReduceRingSamples] gives for them. *)
Theorem ReduceRingSamplesForIndices_equiv {W : Type} `{Window W} (frames : list RingFrame)
    (configIndices : list Z) (i : Z) :
  ReduceRingSamplesForIndices (W := W) frames configIndices !! i =
  if decide (i ∈ configIndices) then ReduceRingSamples (W := W) frames i else None.
Proof.
  unfold ReduceRingSamplesForIndices, ReduceRingSamples.
  rewrite lookup_omap, accumulate_lookup, accumulators_lookup.
  by destruct (decide (i ∈ configIndices)).
Qed.
