(* ===== verification/RingReader.v ===== *)
(** * RingReader: the oversampling reader of [mecom/ring_reader.go]

    A reader talks to a ring client, reads a clock and offers samples to a
    channel.  These three form its environment, the class [RingEnv]: the
    theorems hold for every environment, and [Client.v]'s client is an instance.
    A reader's call is a function of the environment and the reader. *)
From stdpp Require Import prelude strings list.
From Stdlib Require Import Strings.Byte Floats.SpecFloat.
From S2P Require Import Prelude Floats Protocol RingFrames Client.
Open Scope Z_scope.

(** The ring primitives of a client ([ringReaderClient] and
    [RingReadoutCapability]). *)
Class RingClient (C : Type) := {
  env_SupportsRingReadout : C → bool;
  env_ConfigureRingCapture : Z → list RingCaptureParameter → C → C * res ();
  env_TriggerRingSync : C → C * res ();
  env_ReadRingPointer : C → C * res Z;
  env_ReadRingChunk : Z → Z → C → C * res RingReadResponse }.

Class RingEnv (C : Type) := {
  env_ring :: RingClient C;
  env_now : C → C * Z;
  (** [true]: the select takes [<-r.quit] instead of sending the sample. *)
  env_select_quit : C → C * bool }.

Global Instance Client_RingClient : RingClient Client := {|
  env_SupportsRingReadout := λ _, true;
  env_ConfigureRingCapture := λ id ps, ConfigureRingCapture id ps quiet;
  env_TriggerRingSync := TriggerRingSync quiet;
  env_ReadRingPointer := ReadRingPointer quiet;
  env_ReadRingChunk := λ start max, ReadRingChunk start max quiet |}.

(** ** Constants *)
Definition ringReaderMaxChunksFetch : nat := 16.
Definition ringReaderConsecutiveFailureLimit : Z := 3.
Definition ringReaderConsecutiveResetLimit : Z := 4.
Definition ringReaderResetWindow : Z := 30000000000.
Definition ringReaderResetWindowLimit : Z := 8.
Definition ringTimestampStep : Z := 10000.
Definition RingBufferSizeBytes : Z := 4096.
Definition RingStatusAllDataRead : Z := 0.
Definition RingStatusHasMoreData : Z := 1.
Definition RingStatusOverlap : Z := 2.

(** ** State *)
Record RingReader := MkRingReader {
  Config : list RingCaptureParameter;
  lastPointer : Z;
  tail : bytes;
  consecutiveFailures : Z;
  consecutiveResets : Z;
  resetWindowStarted : Z;
  resetWindowResets : Z;
  disabled : bool;
  disabledReason : option error;
  stopped : bool;
  sent_samples : list RingSample }.

Definition set_cursor (ptr : Z) (t : bytes) (r : RingReader) : RingReader :=
  MkRingReader (Config r) ptr t (consecutiveFailures r) (consecutiveResets r) (resetWindowStarted r)
    (resetWindowResets r) (disabled r) (disabledReason r) (stopped r) (sent_samples r).
Definition send_sample (s : RingSample) (r : RingReader) : RingReader :=
  MkRingReader (Config r) (lastPointer r) (tail r) (consecutiveFailures r) (consecutiveResets r)
    (resetWindowStarted r) (resetWindowResets r) (disabled r) (disabledReason r) (stopped r)
    (sent_samples r ++ [s]).

(** ** Operations *)
Definition newRingReader (config : list RingCaptureParameter) : RingReader :=
  MkRingReader config 0 [] 0 0 0 0 false None false [].

Definition Stop (r : RingReader) : RingReader :=
  MkRingReader (Config r) (lastPointer r) (tail r) (consecutiveFailures r) (consecutiveResets r)
    (resetWindowStarted r) (resetWindowResets r) (disabled r) (disabledReason r) true (sent_samples r).

Definition disable (reason : error) (r : RingReader) : RingReader :=
  if disabled r then r
  else Stop (MkRingReader (Config r) (lastPointer r) (tail r) (consecutiveFailures r)
    (consecutiveResets r) (resetWindowStarted r) (resetWindowResets r) true (Some reason)
    (stopped r) (sent_samples r)).

Definition noteHealthy (r : RingReader) : RingReader :=
  MkRingReader (Config r) (lastPointer r) (tail r) 0 0 (resetWindowStarted r) (resetWindowResets r)
    (disabled r) (disabledReason r) (stopped r) (sent_samples r).

Definition noteFailure (operation : string) (err : error) (r : RingReader) : RingReader :=
  let failures := consecutiveFailures r + 1 in
  let r := MkRingReader (Config r) (lastPointer r) (tail r) failures 0 (resetWindowStarted r)
    (resetWindowResets r) (disabled r) (disabledReason r) (stopped r) (sent_samples r) in
  if ringReaderConsecutiveFailureLimit <=? failures then
    disable (Wrapf ("%d consecutive " +:+ operation +:+ " failures: %w") [failures] err) r
  else r.

Definition noteCursorReset (now : Z) (reason : string) (args : list Z) (r : RingReader) :
    RingReader * bool :=
  let resets := consecutiveResets r + 1 in
  let restart := (resetWindowStarted r =? 0) || (ringReaderResetWindow <? now - resetWindowStarted r) in
  let started := if restart then now else resetWindowStarted r in
  let windowResets := (if restart then 0 else resetWindowResets r) + 1 in
  let r := MkRingReader (Config r) (lastPointer r) (tail r) 0 resets started windowResets
    (disabled r) (disabledReason r) (stopped r) (sent_samples r) in
  if ringReaderConsecutiveResetLimit <=? resets then
    (disable (Errorf ("%d consecutive cursor resets: " +:+ reason) (resets :: args)) r, false)
  else if ringReaderResetWindowLimit <=? windowResets then
    (disable (Errorf ("%d cursor resets within %s: " +:+ reason) (windowResets :: args)) r, false)
  else (r, true).

(** Distances on the 32-bit stream position. *)
Definition ringPointerDistance (from to : Z) : option Z :=
  if from <=? to then Some (to - from)
  else
    let distance := u64 (to + 2 ^ 32 - from) in
    if distance <=? RingBufferSizeBytes then Some (u32 distance) else None.

Definition ringTimestampDelta (newest older : Z) : Z :=
  if older <=? newest then u16 (newest - older) else u32 (newest + 2 ^ 16 - older).

Definition stampRingFrameSamples (frames : list RingFrame) (observedAt : Z) : list RingSample :=
  match last (filter (λ f, Samples f ≠ []) frames) with
  | None => []
  | Some newest =>
      frame ← filter (λ f, Samples f ≠ []) frames;
      let at_ := observedAt - ringTimestampDelta (Timestamp10us newest) (Timestamp10us frame)
                   * ringTimestampStep in
      (λ s, MkRingSample (ConfigIndex s) (SampleType s) (Value s) at_) <$> Samples frame
  end.

Section env.
Context {C : Type} `{RingEnv C}.

Definition Start (c : C) (r : RingReader) : C * RingReader * res () :=
  if negb (env_SupportsRingReadout c) then
    (c, r, Err (Wrapf "ring: %w" [] (Sentinel ErrTransportNotSupported)))
  else
    let '(c, cfg) := env_ConfigureRingCapture 1 (Config r) c in
    match cfg with
    | Err e => (c, r, Err (Wrapf "ring: config failed: %w" [] e))
    | Ok _ =>
        let '(c, sync) := env_TriggerRingSync c in
        match sync with
        | Err e => (c, r, Err (Wrapf "ring: sync failed: %w" [] e))
        | Ok _ =>
            let '(c, ptr) := env_ReadRingPointer c in
            match ptr with
            | Err e => (c, r, Err (Wrapf "ring: initial pointer failed: %w" [] e))
            | Ok ptr =>
                (c, MkRingReader (Config r) ptr [] 0 0 0 0 false None (stopped r) (sent_samples r), Ok ())
            end
        end
    end.

(** Offer the samples in order; [false]: the reader was stopped meanwhile. *)
Fixpoint offer (ss : list RingSample) (c : C) (r : RingReader) : C * RingReader * bool :=
  match ss with
  | [] => (c, r, true)
  | s :: ss' =>
      let '(c, quit) := env_select_quit c in
      if quit then (c, r, false) else offer ss' c (send_sample s r)
  end.

(** The chunk loop; [chunks] rounds are left. *)
Fixpoint fetch_chunks (chunks : nat) (ptr remaining : Z) (c : C) (r : RingReader) : C * RingReader :=
  match chunks with
  | O => (c, r)
  | S chunks' =>
      if remaining <=? 0 then (c, r)
      else
        let maxBytes := if remaining <? MaxRingReadMaxBytes then u16 remaining else MaxRingReadMaxBytes in
        let '(c, resp) := env_ReadRingChunk (lastPointer r) maxBytes c in
        match resp with
        | Err e => (c, noteFailure "chunk read" e r)
        | Ok resp =>
            if Status resp =? RingStatusOverlap then
              let '(c, now) := env_now c in
              let '(r', go) := noteCursorReset now
                "device reported overlap at pointer %d while producer pointer is %d" [lastPointer r; ptr] r in
              (c, if go then set_cursor ptr [] r' else r')
            else if BytesAdded resp =? 0 then (c, noteHealthy r)
            else
              match ParseRingFrames (tail r ++ Data resp) (Config r) with
              | None => (c, r)
              | Some (frames, tl, err) =>
                  let '(c, r, go) :=
                    match err with
                    | Some e =>
                        let r := noteFailure "parse" e r in
                        (c, set_cursor (lastPointer r) [] r, true)
                    | None =>
                        let r := noteHealthy r in
                        let r := set_cursor (lastPointer r) tl r in
                        let '(c, now) := env_now c in
                        offer (stampRingFrameSamples frames now) c r
                    end in
                  if negb go then (c, r)
                  else
                    let r := set_cursor (u32 (lastPointer r + BytesAdded resp)) (tail r) r in
                    if Status resp =? RingStatusAllDataRead then (c, r)
                    else
                      let remaining := default 0 (ringPointerDistance (lastPointer r) ptr) in
                      let remaining :=
                        if (remaining =? 0) && (Status resp =? RingStatusHasMoreData)
                        then MaxRingReadMaxBytes else remaining in
                      fetch_chunks chunks' ptr remaining c r
              end
        end
  end.

Definition fetch (c : C) (r : RingReader) : C * RingReader :=
  if disabled r then (c, r)
  else
    let '(c, ptr) := env_ReadRingPointer c in
    match ptr with
    | Err e => (c, noteFailure "pointer fetch" e r)
    | Ok ptr =>
        if ptr =? lastPointer r then (c, noteHealthy r)
        else
          match ringPointerDistance (lastPointer r) ptr with
          | None =>
              let '(c, now) := env_now c in
              let '(r', go) := noteCursorReset now "pointer moved backwards from %d to %d"
                [lastPointer r; ptr] r in
              (c, if go then set_cursor ptr [] r' else r')
          | Some remaining =>
              if remaining =? 0 then (c, r)
              else if RingBufferSizeBytes <? remaining then
                let '(c, now) := env_now c in
                let '(r', go) := noteCursorReset now "reader is %d bytes behind the %d-byte device ring"
                  [remaining; RingBufferSizeBytes] r in
                (c, if go then set_cursor ptr [] r' else r')
              else fetch_chunks ringReaderMaxChunksFetch ptr remaining c r
          end
    end.
End env.

(** ** Lemmas *)
Lemma ringPointerDistance_spec from to d : 0 ≤ from < 2 ^ 32 → 0 ≤ to < 2 ^ 32 →
  ringPointerDistance from to = Some d ↔
  d = (to - from) mod 2 ^ 32 ∧ (from ≤ to ∨ d ≤ RingBufferSizeBytes).
Proof.
  intros Hf Ht. unfold ringPointerDistance, RingBufferSizeBytes, u64, u32.
  destruct (Z.leb_spec from to).
  - rewrite Z.mod_small by lia. split; [intros [= <-]; auto|by intros [-> _]].
  - assert ((to - from) mod 2 ^ 32 = to + 2 ^ 32 - from) as ->.
    { rewrite <-(Z.mod_small (to + 2 ^ 32 - from) (2 ^ 32)) by lia.
      replace (to + 2 ^ 32 - from) with (to - from + 1 * 2 ^ 32) by lia. by rewrite Z.mod_add by lia. }
    rewrite (Z.mod_small _ (2 ^ 64)), (Z.mod_small _ (2 ^ 32)) by lia.
    destruct (Z.leb_spec (to + 2 ^ 32 - from) 4096).
    + split; [intros [= <-]; auto|by intros [-> _]].
    + split; [done|]. intros [-> [?|?]]; lia.
Qed.

Lemma ringTimestampDelta_spec newest older : 0 ≤ newest < 65536 → 0 ≤ older < 65536 →
  ringTimestampDelta newest older = (newest - older) mod 65536.
Proof.
  intros Hn Ho. unfold ringTimestampDelta, u16, u32. destruct (Z.leb_spec older newest); [done|].
  rewrite Z.mod_small by lia. replace (newest + 2 ^ 16 - older) with (newest - older + 65536) by lia.
  rewrite <-(Z.mod_small (newest - older + 65536) 65536) at 1 by lia.
  rewrite <-(Z.mul_1_l 65536) at 1. by rewrite Z.mod_add by lia.
Qed.

(** The counters of a working reader are below their limits, and a disabled
    reader is stopped and has a reason. *)
Record reader_inv (r : RingReader) : Prop := MkReaderInv {
  inv_failures : 0 ≤ consecutiveFailures r;
  inv_resets : 0 ≤ consecutiveResets r;
  inv_window : 0 ≤ resetWindowResets r;
  inv_working : disabled r = false →
    consecutiveFailures r < ringReaderConsecutiveFailureLimit ∧
    consecutiveResets r < ringReaderConsecutiveResetLimit ∧
    resetWindowResets r < ringReaderResetWindowLimit ∧ disabledReason r = None;
  inv_disabled : disabled r = true → stopped r = true ∧ is_Some (disabledReason r) }.

Lemma set_cursor_inv p t r : reader_inv r → reader_inv (set_cursor p t r).
Proof. by intros []. Qed.
Lemma send_sample_inv s r : reader_inv r → reader_inv (send_sample s r).
Proof. by intros []. Qed.
Lemma noteHealthy_inv r : reader_inv r → reader_inv (noteHealthy r).
Proof.
  intros []. split; simpl; try done.
  intros Hd. destruct (inv_working0 Hd) as (_ & _ & ? & ?). by split_and!.
Qed.

Lemma disable_inv e r : 0 ≤ consecutiveFailures r → 0 ≤ consecutiveResets r → 0 ≤ resetWindowResets r →
  (disabled r = true → stopped r = true ∧ is_Some (disabledReason r)) → reader_inv (disable e r).
Proof.
  intros. unfold disable. destruct (disabled r) eqn:E; (split; simpl; try done); [congruence|eauto].
Qed.

Lemma noteFailure_inv o e r : reader_inv r → reader_inv (noteFailure o e r).
Proof.
  intros []. unfold noteFailure. cbv zeta.
  destruct (Z.leb_spec ringReaderConsecutiveFailureLimit (consecutiveFailures r + 1)).
  - apply disable_inv; simpl; try done. lia.
  - split; simpl; try done; [lia|]. intros Hd. destruct (inv_working0 Hd) as (? & ? & ? & ?).
    by split_and!.
Qed.

Lemma noteFailure_cursor o e r : lastPointer (noteFailure o e r) = lastPointer r.
Proof.
  unfold noteFailure, disable. cbv zeta. destruct (Z.leb _ _); [|done]. simpl. by destruct (disabled r).
Qed.

Lemma noteCursorReset_inv now reason args r : reader_inv r →
  reader_inv (noteCursorReset now reason args r).1.
Proof.
  intros []. unfold noteCursorReset. cbv zeta.
  destruct (Z.leb_spec ringReaderConsecutiveResetLimit (consecutiveResets r + 1)) as [|Hr]; simpl.
  { apply disable_inv; simpl; try done; [lia|]. destruct (_ || _); lia. }
  destruct (Z.leb_spec ringReaderResetWindowLimit
    ((if (resetWindowStarted r =? 0) || (ringReaderResetWindow <? now - resetWindowStarted r)
      then 0 else resetWindowResets r) + 1)) as [|Hw]; simpl.
  { apply disable_inv; simpl; try done; [lia|]. destruct (_ || _); lia. }
  split; simpl; try done; [lia|destruct (_ || _); lia|].
  intros Hd. destruct (inv_working0 Hd) as (_ & _ & _ & ?). by split_and!.
Qed.

(** A reset, followed by the move of the cursor when the reader goes on. *)
Lemma reset_inv now reason args ptr r : reader_inv r →
  reader_inv (let '(r', go) := noteCursorReset now reason args r in
              if go : bool then set_cursor ptr [] r' else r').
Proof.
  intros Hr. pose proof (noteCursorReset_inv now reason args r Hr) as H.
  destruct (noteCursorReset now reason args r) as [r' [|]]; [by apply set_cursor_inv|done].
Qed.

Section env_lemmas.
Context {C : Type} `{RingEnv C}.

Lemma offer_inv ss (c : C) r : reader_inv r → reader_inv (offer ss c r).1.2.
Proof.
  revert c r. induction ss as [|s ss IH]; intros c r Hr; simpl; [done|].
  destruct (env_select_quit c) as [c' []]; [done|]. by apply IH, send_sample_inv.
Qed.

Lemma fetch_chunks_inv n ptr remaining (c : C) r : reader_inv r →
  reader_inv (fetch_chunks n ptr remaining c r).2.
Proof.
  revert remaining c r. induction n as [|n IH]; intros remaining c r Hr; cbn [fetch_chunks]; [done|].
  destruct (remaining <=? 0); [done|]. cbv zeta.
  destruct (env_ReadRingChunk _ _ c) as [c1 [resp|e]]; [|by apply noteFailure_inv].
  destruct (Status resp =? RingStatusOverlap).
  { destruct (env_now c1) as [c2 now].
    pose proof (reset_inv now "device reported overlap at pointer %d while producer pointer is %d"
      [lastPointer r; ptr] ptr r Hr) as Hi.
    by destruct (noteCursorReset _ _ _ r) as [r' []]. }
  destruct (BytesAdded resp =? 0); [by apply noteHealthy_inv|].
  destruct (ParseRingFrames _ _) as [[[frames tl] [e|]]|]; [| |done].
  - cbn [negb]. destruct (Status resp =? RingStatusAllDataRead);
      [|apply IH]; by apply set_cursor_inv, set_cursor_inv, noteFailure_inv.
  - destruct (env_now c1) as [c2 now].
    pose proof (offer_inv (stampRingFrameSamples frames now) c2
      (set_cursor (lastPointer (noteHealthy r)) tl (noteHealthy r))
      ltac:(by apply set_cursor_inv, noteHealthy_inv)) as Ho.
    destruct (offer _ c2 _) as [[c3 r3] []]; [|done]. cbn [negb].
    destruct (Status resp =? RingStatusAllDataRead); [|apply IH]; by apply set_cursor_inv.
Qed.

Lemma fetch_inv (c : C) r : reader_inv r → reader_inv (fetch c r).2.
Proof.
  intros Hr. unfold fetch. destruct (disabled r); [done|].
  destruct (env_ReadRingPointer c) as [c1 [ptr|e]]; [|by apply noteFailure_inv].
  destruct (ptr =? lastPointer r); [by apply noteHealthy_inv|].
  destruct (ringPointerDistance (lastPointer r) ptr) as [remaining|].
  - destruct (remaining =? 0); [done|]. destruct (RingBufferSizeBytes <? remaining).
    + destruct (env_now c1) as [c2 now].
      pose proof (reset_inv now "reader is %d bytes behind the %d-byte device ring"
        [remaining; RingBufferSizeBytes] ptr r Hr) as Hi.
      by destruct (noteCursorReset _ _ _ r) as [r' []].
    + by apply fetch_chunks_inv.
  - destruct (env_now c1) as [c2 now].
    pose proof (reset_inv now "pointer moved backwards from %d to %d" [lastPointer r; ptr] ptr r Hr) as Hi.
    by destruct (noteCursorReset _ _ _ r) as [r' []].
Qed.

(** The ticks of [poll]: one fetch each. *)
Fixpoint polls (n : nat) (c : C) (r : RingReader) : C * RingReader :=
  match n with
  | O => (c, r)
  | S n' => let '(c, r) := fetch c r in polls n' c r
  end.

Lemma polls_inv n (c : C) r : reader_inv r → reader_inv (polls n c r).2.
Proof.
  revert c r. induction n as [|n IH]; intros c r Hr; [done|]. simpl.
  pose proof (fetch_inv c r Hr) as Hf. destruct (fetch c r) as [c' r']. by apply IH.
Qed.

Lemma polls_disabled n (c : C) r : disabled r = true → polls n c r = (c, r).
Proof. intros Hd. induction n as [|n IH]; [done|]. simpl. unfold fetch. by rewrite Hd. Qed.
End env_lemmas.

(** ** A device that keeps up *)
Section catch_up.
Context {C : Type} `{RingEnv C}.

(** [honest P]: the producer pointer is [P], and a read of at most 279 bytes from
    a position behind it returns all bytes up to it, or as many as were asked
    for, and says whether more remain.  The bytes are arbitrary. *)
Context (honest : Z → C → Prop).
Definition full_read (P start max : Z) (resp : RingReadResponse) : Prop :=
  let d := (P - start) mod 2 ^ 32 in
  BytesAdded resp = Z.min max d ∧
  Status resp = (if d <=? max then RingStatusAllDataRead else RingStatusHasMoreData).
Context (honest_pointer : ∀ P c, honest P c → ∃ c', env_ReadRingPointer c = (c', Ok P) ∧ honest P c').
Context (honest_chunk : ∀ P c start max, honest P c → 0 < max ≤ MaxRingReadMaxBytes →
  ∃ c' resp, env_ReadRingChunk start max c = (c', Ok resp) ∧ full_read P start max resp ∧ honest P c').
Context (honest_now : ∀ P c, honest P c → honest P (env_now c).1).
Context (honest_select : ∀ P c, honest P c →
  (env_select_quit c).2 = false ∧ honest P (env_select_quit c).1).

Lemma offer_honest P ss c r : honest P c →
  let '(c', r', go) := offer ss c r in go = true ∧ honest P c' ∧ lastPointer r' = lastPointer r.
Proof using honest_select.
  revert c r. induction ss as [|s ss IH]; intros c r Hc; simpl; [done|].
  destruct (honest_select P c Hc) as [Hq Hc']. destruct (env_select_quit c) as [c' q]. simpl in *. subst.
  specialize (IH c' (send_sample s r) Hc'). by destruct (offer ss c' _) as [[? ?] ?].
Qed.

Lemma advance P start n : 0 ≤ P < 2 ^ 32 → 0 ≤ start < 2 ^ 32 → 0 ≤ n ≤ (P - start) mod 2 ^ 32 →
  (P - u32 (start + n)) mod 2 ^ 32 = (P - start) mod 2 ^ 32 - n ∧
  (n = (P - start) mod 2 ^ 32 → u32 (start + n) = P).
Proof.
  intros HP Hs Hn. unfold u32. split; [zdiv|]. intros ->. 
  rewrite Z.add_mod_idemp_r by lia. replace (start + (P - start)) with P by lia. by apply Z.mod_small.
Qed.

Lemma fetch_chunks_catch_up P n c r :
  honest P c → 0 ≤ P < 2 ^ 32 → 0 ≤ lastPointer r < 2 ^ 32 →
  let d := (P - lastPointer r) mod 2 ^ 32 in
  0 < d → d ≤ RingBufferSizeBytes → d ≤ MaxRingReadMaxBytes * Z.of_nat n →
  lastPointer (fetch_chunks n P d c r).2 = P.
Proof using honest_chunk honest_now honest_select.
  revert c r. induction n as [|n IH]; intros c r Hc HP Hl d Hd Hring Hn; [lia|].
  cbn [fetch_chunks]. destruct (Z.leb_spec d 0); [lia|]. cbv zeta.
  set (max := if d <? MaxRingReadMaxBytes then u16 d else MaxRingReadMaxBytes).
  assert (Hmax : max = Z.min d MaxRingReadMaxBytes).
  { unfold max, MaxRingReadMaxBytes, u16. destruct (Z.ltb_spec d 279); [rewrite Z.mod_small|]; lia. }
  destruct (honest_chunk P c (lastPointer r) max Hc) as (c1 & resp & -> & [Hb Hs] & Hc1);
    [unfold MaxRingReadMaxBytes in *; lia|]. fold d in Hb, Hs.
  assert (Hadd : BytesAdded resp = max) by lia. rewrite Hadd, Hs.
  destruct (Z.eqb_spec max 0); [unfold MaxRingReadMaxBytes in *; lia|].
  assert (((if d <=? max then RingStatusAllDataRead else RingStatusHasMoreData) =? RingStatusOverlap) = false)
    as -> by (by destruct (d <=? max)).
  destruct (ParseRingFrames_returns (tail r ++ Data resp) (Config r)) as [[[frames tl] err] ->].
  (* the cursor moves by [max] whether or not the data parses *)
  assert (Hgo : ∀ c2 r2, honest P c2 → lastPointer r2 = lastPointer r →
    lastPointer (if (if d <=? max then RingStatusAllDataRead else RingStatusHasMoreData) =?
                    RingStatusAllDataRead
     then (c2, set_cursor (u32 (lastPointer r2 + max)) (tail r2) r2)
     else fetch_chunks n P
       (if (default 0 (ringPointerDistance (lastPointer
              (set_cursor (u32 (lastPointer r2 + max)) (tail r2) r2)) P) =? 0)
           && ((if d <=? max then RingStatusAllDataRead else RingStatusHasMoreData) =? RingStatusHasMoreData)
        then MaxRingReadMaxBytes
        else default 0 (ringPointerDistance (lastPointer
              (set_cursor (u32 (lastPointer r2 + max)) (tail r2) r2)) P))
       c2 (set_cursor (u32 (lastPointer r2 + max)) (tail r2) r2)).2 = P).
  { intros c2 r2 Hc2 ->. 
    destruct (advance P (lastPointer r) max HP Hl) as [Hrest Hdone]; [fold d; lia|].
    fold d in Hrest, Hdone. destruct (Z.leb_spec d max).
    - simpl. apply Hdone. lia.
    - change (RingStatusHasMoreData =? RingStatusAllDataRead) with false. cbv iota.
      cbn [lastPointer set_cursor].
      pose proof (u32_range (lastPointer r + max)) as Hu.
      rewrite (proj2 (ringPointerDistance_spec (u32 (lastPointer r + max)) P (d - max) ltac:(lia) HP)); [|lia].
      cbn [default from_option]. unfold id. destruct (Z.eqb_spec (d - max) 0); [lia|]. cbn [andb].
      specialize (IH c2 (set_cursor (u32 (lastPointer r + max)) (tail r2) r2) Hc2 HP).
      cbn [lastPointer set_cursor] in IH. rewrite Hrest in IH. apply IH; lia. }
  destruct err as [e|].
  - cbn [negb]. apply Hgo; [done|]. apply (noteFailure_cursor "parse" e r).
  - pose proof (honest_now P c1 Hc1) as Hc2. destruct (env_now c1) as [c2 now]. simpl in Hc2.
    set (r1 := set_cursor _ tl _).
    pose proof (offer_honest P (stampRingFrameSamples frames now) c2 r1 Hc2) as Ho.
    destruct (offer _ c2 r1) as [[c3 r3] go]. destruct Ho as (-> & Hc3 & Hl3). cbn [negb].
    by apply Hgo.
Qed.
End catch_up.

(** ** Properties *)

(** The reader gives up in time and for good.  In every environment, after any
    number of ticks from a fresh start a reader that still works has fewer than
    three failures and fewer than four cursor resets in a row and fewer than
    eight resets in its window; a reader that is disabled is stopped, has a
    reason, and no later tick sends a request or changes anything. *)
Theorem RingReader_limits {C : Type} `{RingEnv C} (c : C) (r : RingReader) (n m : nat) :
  let '(c1, r1, started) := Start c r in
  started = Ok () →
  let '(c2, r2) := polls n c1 r1 in
  (disabled r2 = false → consecutiveFailures r2 < 3 ∧ consecutiveResets r2 < 4 ∧
                         resetWindowResets r2 < 8 ∧ disabledReason r2 = None) ∧
  (disabled r2 = true → stopped r2 = true ∧ is_Some (disabledReason r2) ∧ polls m c2 r2 = (c2, r2)).
Proof.
  destruct (Start c r) as [[c1 r1] started] eqn:Es. intros ->.
  assert (Hr1 : reader_inv r1).
  { unfold Start in Es. destruct (negb _); [done|].
    destruct (env_ConfigureRingCapture _ _ _) as [? [?|]]; [|done].
    destruct (env_TriggerRingSync _) as [? [?|]]; [|done].
    destruct (env_ReadRingPointer _) as [? [?|]]; [|done].
    injection Es as <- <-. split; simpl; done. }
  pose proof (polls_inv n c1 r1 Hr1) as H2. destruct (polls n c1 r1) as [c2 r2]. destruct H2. split.
  - exact inv_working0.
  - intros Hd. destruct (inv_disabled0 Hd). split_and!; [done..|]. by apply polls_disabled.
Qed.

(** A device whose pointer is fixed and whose bytes are zero. *)
#[local] Instance still_client : RingClient (Z * bool) := {|
  env_SupportsRingReadout := λ _, true;
  env_ConfigureRingCapture := λ _ _ c, (c, Ok ());
  env_TriggerRingSync := λ c, (c, Ok ());
  env_ReadRingPointer := λ c : Z * bool, (c, if c.2 then Ok c.1 else Err (Sentinel ErrTimeout));
  env_ReadRingChunk := λ start max (c : Z * bool),
    let d := (c.1 - start) mod 2 ^ 32 in
    let n := Z.min max d in
    (c, Ok (MkRingReadResponse n (if d <=? max then 0 else 1) (replicate (Z.to_nat n) x00))) |}.
#[local] Instance still_device : RingEnv (Z * bool) := {|
  env_now := λ c, (c, 1);
  env_select_quit := λ c, (c, false) |}.

Lemma RingReader_limits_witness :
  let '(c1, r1, started) := Start (7, true) (newRingReader []) in
  started = Ok () ∧ ∃ r2, polls 5 c1 r1 = (c1, r2) ∧ consecutiveFailures r2 < 3.
Proof.
  pose proof (RingReader_limits (7, true) (newRingReader []) 5 1) as HP.
  destruct (Start (7, true) (newRingReader [])) as [[c1 r1] started] eqn:E.
  vm_compute in E. injection E as <- <- <-. specialize (HP eq_refl).
  destruct (polls 5 _ _) as [c2 r2] eqn:E2. destruct HP as [HP _].
  assert (c2 = (7, true)) as -> by (vm_compute in E2; injection E2; done).
  split; [done|]. exists r2. split; [done|]. apply HP. vm_compute in E2. by injection E2 as <-.
Defined.

(** Three failures in a row disable the reader.  Whatever a working reader has
    counted before, when the ring pointer cannot be read in three ticks in a row
    it is disabled, stopped, and its reason wraps an error of the device. *)
Theorem three_failures_disable {C : Type} `{RingEnv C} (c : C) (r : RingReader) :
  reader_inv r → disabled r = false →
  (∀ c : C, ∃ c' e, env_ReadRingPointer c = (c', Err e)) →
  let r' := (polls 3 c r).2 in
  disabled r' = true ∧ stopped r' = true ∧
  ∃ k e (c1 c2 : C), disabledReason r' = Some (Wrapf "%d consecutive pointer fetch failures: %w" [k] e) ∧
             env_ReadRingPointer c1 = (c2, Err e).
Proof.
  intros Hinv Hd Hfail.
  assert (Hk : ∀ n c r, reader_inv r → disabled r = false → 3 - consecutiveFailures r = Z.of_nat (S n) →
    ∃ c', ∃ r', polls (S n) c r = (c', r') ∧ disabled r' = true ∧ stopped r' = true ∧
    ∃ k e (c1 c2 : C), disabledReason r' = Some (Wrapf "%d consecutive pointer fetch failures: %w" [k] e) ∧
               env_ReadRingPointer c1 = (c2, Err e)).
  { clear c r Hinv Hd. induction n as [|n IH]; intros c r Hinv Hd Hn.
    - destruct (Hfail c) as (c' & e & He). cbn [polls]. unfold fetch. rewrite Hd, He.
      eexists _, _. split; [reflexivity|]. unfold noteFailure, ringReaderConsecutiveFailureLimit. cbv zeta.
      destruct (Z.leb_spec 3 (consecutiveFailures r + 1)); [|lia]. unfold disable. simpl. rewrite Hd. simpl.
      split_and!; [done..|]. by eexists _, _, _, _.
    - destruct (Hfail c) as (c' & e & He). cbn [polls]. unfold fetch at 1. rewrite Hd, He.
      apply (IH c' (noteFailure "pointer fetch" e r)).
      + by apply noteFailure_inv.
      + unfold noteFailure, ringReaderConsecutiveFailureLimit. cbv zeta.
        destruct (Z.leb_spec 3 (consecutiveFailures r + 1)); [lia|done].
      + unfold noteFailure, ringReaderConsecutiveFailureLimit. cbv zeta.
        destruct (Z.leb_spec 3 (consecutiveFailures r + 1)); [lia|]. cbn [consecutiveFailures]. lia. }
  assert (Hr := Hinv). destruct Hr as [H0 _ _ Hw _]. destruct (Hw Hd) as (H3 & _).
  unfold ringReaderConsecutiveFailureLimit in H3.
  set (n := Z.to_nat (2 - consecutiveFailures r)).
  destruct (Hk n c r Hinv Hd ltac:(lia)) as (c' & r' & Hp & Hdis & Hrest).
  assert (polls 3 c r = (c', r')) as ->.
  { assert (Hsplit : ∀ a b c r, polls (a + b) c r = let '(c, r) := polls a c r in polls b c r).
    { clear. induction a as [|a IH]; intros b c r; [done|]. simpl. destruct (fetch c r). apply IH. }
    replace 3%nat with (S n + (2 - n))%nat by lia. rewrite Hsplit, Hp. by apply polls_disabled. }
  done.
Qed.

#[local] Instance dead_client : RingClient () := {|
  env_SupportsRingReadout := λ _, true;
  env_ConfigureRingCapture := λ _ _ c, (c, Ok ());
  env_TriggerRingSync := λ c, (c, Ok ());
  env_ReadRingPointer := λ c, (c, Err (Sentinel ErrTimeout));
  env_ReadRingChunk := λ _ _ c, (c, Err (Sentinel ErrTimeout)) |}.
#[local] Instance dead_device : RingEnv () := {|
  env_now := λ c, (c, 1);
  env_select_quit := λ c, (c, false) |}.

Lemma three_failures_disable_witness : disabled (polls 3 () (newRingReader [])).2 = true.
Proof.
  apply (three_failures_disable () (newRingReader [])).
  - split; done.
  - done.
  - intros c. by exists c, (Sentinel ErrTimeout).
Defined.

(** One tick catches up.  With a device that answers every read in full, a
    working reader that is behind by at most the 4096 bytes of the device's ring
    stands at the producer's pointer after a single tick, whatever the bytes
    are, also when the 32-bit position wraps in between: the sixteen chunks of
    279 bytes a tick may read are enough. *)
Theorem fetch_catches_up {C : Type} `{RingEnv C} (honest : Z → C → Prop)
    (honest_pointer : ∀ P c, honest P c → ∃ c', env_ReadRingPointer c = (c', Ok P) ∧ honest P c')
    (honest_chunk : ∀ P c start max, honest P c → 0 < max ≤ MaxRingReadMaxBytes →
      ∃ c' resp, env_ReadRingChunk start max c = (c', Ok resp) ∧ full_read P start max resp ∧ honest P c')
    (honest_now : ∀ P c, honest P c → honest P (env_now c).1)
    (honest_select : ∀ P c, honest P c →
      (env_select_quit c).2 = false ∧ honest P (env_select_quit c).1)
    (P : Z) (c : C) (r : RingReader) :
  honest P c → disabled r = false → 0 ≤ P < 2 ^ 32 → 0 ≤ lastPointer r < 2 ^ 32 →
  (P - lastPointer r) mod 2 ^ 32 ≤ RingBufferSizeBytes →
  lastPointer (fetch c r).2 = P.
Proof.
  intros Hc Hd HP Hl Hdist. unfold fetch. rewrite Hd.
  destruct (honest_pointer P c Hc) as (c1 & -> & Hc1).
  destruct (Z.eqb_spec P (lastPointer r)) as [->|Hne]; [done|].
  set (d := (P - lastPointer r) mod 2 ^ 32) in *.
  assert (Hpos : 0 < d).
  { unfold d. pose proof (Z.mod_pos_bound (P - lastPointer r) (2 ^ 32)).
    assert ((P - lastPointer r) mod 2 ^ 32 ≠ 0); [|lia]. zdiv. }
  rewrite (proj2 (ringPointerDistance_spec (lastPointer r) P d Hl HP)) by auto.
  destruct (Z.eqb_spec d 0); [lia|]. destruct (Z.ltb_spec RingBufferSizeBytes d); [lia|].
  apply (fetch_chunks_catch_up honest honest_chunk honest_now honest_select P); try done.
  unfold RingBufferSizeBytes, MaxRingReadMaxBytes, ringReaderMaxChunksFetch in *. fold d. lia.
Qed.

(** From four bytes before the wrap to position 4000. *)
Lemma fetch_catches_up_witness :
  lastPointer (fetch (4000, true) (set_cursor (2 ^ 32 - 4) [] (newRingReader []))).2 = 4000.
Proof.
  apply (fetch_catches_up (λ P c, c = (P, true))).
  - intros P c ->. by exists (P, true).
  - intros P c start max -> Hmax. eexists _, _. split; [reflexivity|]. split; [|done]. done.
  - done.
  - done.
  - done.
  - done.
  - lia.
  - simpl. lia.
  - vm_compute. congruence.
Defined.
