(* ===== verification/Readout.v ===== *)
(** * Readout: the readout scheduler of [mecom/readout.go]

    One poll reads a ring chunk for the captured parameters and a bulk chunk for
    the others.  The client is the class [ReadClient]; the statistics window is
    that of [Reduction.v].  The derived channel model ([cfg.Derived]) is not
    configured here, and request timeouts belong to the client. *)
From stdpp Require Import prelude gmap strings list.
From Stdlib Require Import Strings.Byte Floats.SpecFloat.
From S2P Require Import Prelude Floats Protocol RingFrames Client PollQueue Reduction RingReader.
Open Scope Z_scope.

Class ReadClient (C : Type) := {
  rd_ring :: RingClient C;
  rd_ReadBulk : list Param → C → C * res (list f64) }.

Global Instance Client_ReadClient : ReadClient Client := {|
  rd_ReadBulk := λ ps, ReadBulk ps quiet |}.

(** ** Constants and configuration *)
Definition RingCaptureLimit : Z := 16.
Definition DefaultRingCaptureLimit : Z := 4.
Definition DefaultRingCaptureID : Z := 1.
Definition DefaultRingInhibitTime10us : Z := 1000.
Definition DefaultRingReadMaxBytes : Z := MaxRingReadMaxBytes.
Definition ReadoutCRTVStreamRingBuffer : string := "mecom_crtvstream_ring_buffer".
Definition ReadoutVXRoundRobinQueue : string := "mecom_vx_round_robin_queue".

Record ReadoutParameter := MkReadoutParameter {
  rp_Parameter : Param;
  Sensor : string;
  HighPriority : bool }.

Record ReadoutConfig := MkReadoutConfig {
  cfg_Parameters : list ReadoutParameter;
  cfg_BulkChunk : Z;
  cfg_RingCaptureLimit : Z;
  cfg_RingCaptureID : Z;
  cfg_RingInhibitTime10us : Z;
  cfg_DefaultRingReadMaxBytes : Z;
  cfg_MaxRingReadMaxBytes : Z }.

Record ReadoutValue := MkReadoutValue {
  rv_Parameter : Param;
  rv_Sensor : string;
  rv_Value : f64;
  rv_ObservedAt : Z;
  rv_Readout : string;
  rv_Reduction : option ReducedRingSample }.

Record ReadoutBatch := MkBatch {
  Values : list ReadoutValue;
  RingValues : list ReadoutValue;
  BackgroundValues : list ReadoutValue;
  Errors : list error }.
Definition empty_batch : ReadoutBatch := MkBatch [] [] [] [].

Record queuedReadoutParameter := MkQueued { spec : ReadoutParameter; configIndex : nat }.

Record Readout := MkReadout {
  bulkChunk : Z;
  ringCaptureID : Z;
  ringInhibitTime10us : Z;
  ringMaxBytes : Z;
  ringMaxLimit : Z;
  ringMinBytes : Z;
  ringItems : list queuedReadoutParameter;
  ringConfig : list RingCaptureParameter;
  ringConfigured : bool;
  ringCursor : Z;
  ringTail : bytes;
  background : PollQueue;
  backgroundItems : gmap string ReadoutParameter }.

(** Updates of the ring state, of the window and of the background queue. *)
Definition with_ring (items : list queuedReadoutParameter) (config : list RingCaptureParameter)
    (configured : bool) (cursor : Z) (tl : bytes) (r : Readout) : Readout :=
  MkReadout (bulkChunk r) (ringCaptureID r) (ringInhibitTime10us r) (ringMaxBytes r) (ringMaxLimit r)
    (ringMinBytes r) items config configured cursor tl (background r) (backgroundItems r).
Definition with_window (maxBytes : Z) (r : Readout) : Readout :=
  MkReadout (bulkChunk r) (ringCaptureID r) (ringInhibitTime10us r) maxBytes (ringMaxLimit r)
    (ringMinBytes r) (ringItems r) (ringConfig r) (ringConfigured r) (ringCursor r) (ringTail r)
    (background r) (backgroundItems r).
Definition with_background (q : PollQueue) (items : gmap string ReadoutParameter) (r : Readout) : Readout :=
  MkReadout (bulkChunk r) (ringCaptureID r) (ringInhibitTime10us r) (ringMaxBytes r) (ringMaxLimit r)
    (ringMinBytes r) (ringItems r) (ringConfig r) (ringConfigured r) (ringCursor r) (ringTail r) q items.

Definition add_error (e : error) (b : ReadoutBatch) : ReadoutBatch :=
  MkBatch (Values b) (RingValues b) (BackgroundValues b) (Errors b ++ [e]).
Definition add_ring_value (v : ReadoutValue) (b : ReadoutBatch) : ReadoutBatch :=
  MkBatch (Values b ++ [v]) (RingValues b ++ [v]) (BackgroundValues b) (Errors b).
Definition add_background_value (v : ReadoutValue) (b : ReadoutBatch) : ReadoutBatch :=
  MkBatch (Values b ++ [v]) (RingValues b) (BackgroundValues b ++ [v]) (Errors b).

(** ** Operations *)
Definition sensor_default (sp : ReadoutParameter) : ReadoutParameter :=
  if bool_decide (Sensor sp = ""%string)
  then MkReadoutParameter (rp_Parameter sp) (Name (rp_Parameter sp)) (HighPriority sp) else sp.

(** One round of the constructor's loop: captured items, their configuration, and
    the background list and map. *)
Definition place (captureLimit inhibit : Z)
    (st : list queuedReadoutParameter * list RingCaptureParameter * list Param * gmap string ReadoutParameter)
    (sp : ReadoutParameter) :=
  let '(items, config, bg, bgItems) := st in
  let sp := sensor_default sp in
  if HighPriority sp && (Z.of_nat (length config) <? captureLimit) then
    (items ++ [MkQueued sp (length config)],
     config ++ [MkRingCaptureParameter (rp_Parameter sp) inhibit], bg, bgItems)
  else (items, config, bg ++ [rp_Parameter sp], <[ParameterKey (rp_Parameter sp) := sp]> bgItems).

Definition capture_limit (cfg : ReadoutConfig) : Z :=
  let captureLimit := cfg_RingCaptureLimit cfg in
  let captureLimit := if captureLimit <=? 0 then DefaultRingCaptureLimit else captureLimit in
  if RingCaptureLimit <? captureLimit then RingCaptureLimit else captureLimit.

Definition NewReadout (cfg : ReadoutConfig) : Readout :=
  let bulk := if cfg_BulkChunk cfg <=? 0 then 8 else cfg_BulkChunk cfg in
  let captureLimit := capture_limit cfg in
  let captureID := if cfg_RingCaptureID cfg =? 0 then DefaultRingCaptureID else cfg_RingCaptureID cfg in
  let inhibit := if cfg_RingInhibitTime10us cfg =? 0 then DefaultRingInhibitTime10us
                 else cfg_RingInhibitTime10us cfg in
  let minBytes := if cfg_DefaultRingReadMaxBytes cfg =? 0 then DefaultRingReadMaxBytes
                  else cfg_DefaultRingReadMaxBytes cfg in
  let minBytes := clampRingReadMaxBytes minBytes in
  let maxLimit := if cfg_MaxRingReadMaxBytes cfg =? 0 then MaxRingReadMaxBytes
                  else cfg_MaxRingReadMaxBytes cfg in
  let maxLimit := clampRingReadMaxBytes maxLimit in
  let maxLimit := if maxLimit <? minBytes then minBytes else maxLimit in
  let '(items, config, bg, bgItems) :=
    fold_left (place captureLimit inhibit) (cfg_Parameters cfg) ([], [], [], ∅) in
  MkReadout bulk captureID inhibit minBytes maxLimit minBytes items config false 0 []
    (NewPollQueue bg) bgItems.

Definition Readout_EnqueueFront (sp : ReadoutParameter) (r : Readout) : Readout :=
  let sp := sensor_default sp in
  with_background (EnqueueFront (background r) (rp_Parameter sp))
    (<[ParameterKey (rp_Parameter sp) := sp]> (backgroundItems r)) r.

Definition moveRingCaptureToBackground (r : Readout) : Readout :=
  let '(q, items) := fold_left (λ '(q, m) item,
    let sp := sensor_default (spec item) in
    (EnqueueFront (Enqueue q (rp_Parameter sp)) (rp_Parameter sp),
     <[ParameterKey (rp_Parameter sp) := sp]> m))
    (ringItems r) (background r, backgroundItems r) in
  with_ring [] [] false (ringCursor r) [] (with_background q items r).

Definition tuneRingReadWindow (resp : RingReadResponse) (r : Readout) : Readout :=
  if (Status resp =? RingStatusHasMoreData) || (ringMaxBytes r * 3 / 4 <=? BytesAdded resp) then
    if ringMaxBytes r <? ringMaxLimit r then
      let doubled := u16 (ringMaxBytes r * 2) in
      with_window (if ringMaxLimit r <? doubled then ringMaxLimit r else doubled) r
    else r
  else if (Status resp =? RingStatusAllDataRead) && (BytesAdded resp <? ringMaxBytes r / 4)
          && (ringMinBytes r <? ringMaxBytes r) then
    let halved := ringMaxBytes r / 2 in
    with_window (if halved <? ringMinBytes r then ringMinBytes r else halved) r
  else r.

Section poll.
Context {C W : Type} `{ReadClient C} `{Window W}.

Definition ring_value (observedAt : Z) (reducedByIndex : gmap Z ReducedRingSample)
    (batch : ReadoutBatch) (item : queuedReadoutParameter) : ReadoutBatch :=
  match reducedByIndex !! Z.of_nat (configIndex item) with
  | None => batch
  | Some reduced =>
      add_ring_value (MkReadoutValue (rp_Parameter (spec item)) (Sensor (spec item)) (r_Mean reduced)
        observedAt ReadoutCRTVStreamRingBuffer (Some reduced)) batch
  end.

Definition pollRing (observedAt : Z) (c : C) (r : Readout) (batch : ReadoutBatch) :
    C * Readout * ReadoutBatch :=
  if (length (ringConfig r) =? 0)%nat then (c, r, batch)
  else if negb (env_SupportsRingReadout c) then (c, moveRingCaptureToBackground r, batch)
  else if negb (ringConfigured r) then
    let '(c, cfg) := env_ConfigureRingCapture (ringCaptureID r) (ringConfig r) c in
    match cfg with
    | Err e => (c, r, add_error e batch)
    | Ok _ =>
        let '(c, sync) := env_TriggerRingSync c in
        let batch := match sync with Err e => add_error e batch | Ok _ => batch end in
        let '(c, pointer) := env_ReadRingPointer c in
        match pointer with
        | Err e => (c, r, add_error e batch)
        | Ok pointer =>
            (c, with_ring (ringItems r) (ringConfig r) true pointer (ringTail r) r, batch)
        end
    end
  else
    let '(c, resp) := env_ReadRingChunk (ringCursor r) (ringMaxBytes r) c in
    match resp with
    | Err e =>
        (c, with_ring (ringItems r) (ringConfig r) false (ringCursor r) (ringTail r) r, add_error e batch)
    | Ok resp =>
        if Status resp =? RingStatusOverlap then
          let '(c, pointer) := env_ReadRingPointer c in
          let '(r, batch) :=
            match pointer with
            | Ok pointer =>
                (with_ring (ringItems r) (ringConfig r) (ringConfigured r) pointer (ringTail r) r, batch)
            | Err e => (r, add_error e batch)
            end in
          let r := with_ring (ringItems r) (ringConfig r) (ringConfigured r) (ringCursor r) [] r in
          (c, with_window (ringMaxLimit r) r, batch)
        else
          let r := with_ring (ringItems r) (ringConfig r) (ringConfigured r)
                     (u32 (ringCursor r + BytesAdded resp)) (ringTail r) r in
          let r := tuneRingReadWindow resp r in
          match ParseRingFrames (ringTail r ++ Data resp) (ringConfig r) with
          | None => (c, r, batch)
          | Some (_, _, Some e) =>
              (c, with_ring (ringItems r) (ringConfig r) (ringConfigured r) (ringCursor r) [] r,
               add_error e batch)
          | Some (frames, tl, None) =>
              let r := with_ring (ringItems r) (ringConfig r) (ringConfigured r) (ringCursor r) tl r in
              let configIndices := (λ item, Z.of_nat (configIndex item)) <$> ringItems r in
              let reducedByIndex := ReduceRingSamplesForIndices (W := W) frames configIndices in
              (c, r, fold_left (ring_value observedAt reducedByIndex) (ringItems r) batch)
          end
    end.

Definition background_value (observedAt : Z) (values : list f64)
    (items : gmap string ReadoutParameter) (batch : ReadoutBatch) (ip : nat * Param) : ReadoutBatch :=
  match items !! ParameterKey ip.2 with
  | None => batch
  | Some sp =>
      let sample := default S754_nan (values !! ip.1) in
      add_background_value (MkReadoutValue (rp_Parameter sp) (Sensor sp) sample observedAt
        ReadoutVXRoundRobinQueue None) batch
  end.

(** [error_text] is [err.Error()], which the queue stores. *)
Context (error_text : error → string).

Definition pollBackground (observedAt : Z) (c : C) (r : Readout) (batch : ReadoutBatch) :
    C * Readout * ReadoutBatch :=
  let '(q, params) := NextChunk (background r) (bulkChunk r) in
  let r := with_background q (backgroundItems r) r in
  if (length params =? 0)%nat then (c, r, batch)
  else
    let '(c, values) := rd_ReadBulk params c in
    match values with
    | Err e =>
        (c, with_background (RecordBulk observedAt q params [] observedAt (Some (error_text e)))
              (backgroundItems r) r, add_error e batch)
    | Ok values =>
        let r := with_background (RecordBulk observedAt q params values observedAt None)
                   (backgroundItems r) r in
        (c, r, fold_left (background_value observedAt values (backgroundItems r))
                 (imap pair params) batch)
    end.

Definition Poll (observedAt : Z) (c : C) (r : Readout) : C * Readout * ReadoutBatch :=
  let '(c, r, batch) := pollRing observedAt c r empty_batch in
  pollBackground observedAt c r batch.
End poll.

(** ** The invariant *)
Record readout_inv (r : Readout) : Prop := MkReadoutInv {
  ro_window : 0 < ringMinBytes r ≤ ringMaxBytes r ∧ ringMaxBytes r ≤ ringMaxLimit r ∧
              ringMaxLimit r ≤ MaxRingReadMaxBytes;
  ro_limit : Z.of_nat (length (ringConfig r)) ≤ RingCaptureLimit;
  ro_slots : ∀ i item, ringItems r !! i = Some item →
    configIndex item = i ∧ rcp_Parameter <$> (ringConfig r !! i) = Some (rp_Parameter (spec item));
  ro_len : length (ringItems r) = length (ringConfig r);
  ro_queue : wf (background r);
  ro_chunk : 0 < bulkChunk r;
  ro_items : ∀ p, p ∈ entries (background r) → is_Some (backgroundItems r !! ParameterKey p) }.

Lemma clamp_range n : 0 ≤ n → 0 < clampRingReadMaxBytes n ≤ MaxRingReadMaxBytes.
Proof.
  unfold clampRingReadMaxBytes, MaxRingReadMaxBytes. intros Hn.
  destruct (Z.eqb_spec n 0); simpl; [lia|]. destruct (Z.ltb_spec 279 n); lia.
Qed.

(** The placement of parameters by the constructor. *)
Definition placed (limit inhibit : Z) (specs : list ReadoutParameter)
    (st : list queuedReadoutParameter * list RingCaptureParameter * list Param * gmap string ReadoutParameter) :=
  let '(items, config, bg, bgItems) := st in
  length items = length config ∧ Z.of_nat (length config) ≤ Z.max 0 limit ∧
  (∀ i item, items !! i = Some item → configIndex item = i ∧
     rcp_Parameter <$> (config !! i) = Some (rp_Parameter (spec item))) ∧
  (∀ p, p ∈ bg → is_Some (bgItems !! ParameterKey p)) ∧
  (∀ sp, sp ∈ specs → (∃ i, rcp_Parameter <$> (config !! i) = Some (rp_Parameter sp)) ∨ rp_Parameter sp ∈ bg).

Lemma sensor_default_param sp : rp_Parameter (sensor_default sp) = rp_Parameter sp.
Proof. unfold sensor_default. by destruct (bool_decide _). Qed.

Lemma place_placed limit inhibit specs sp st :
  placed limit inhibit specs st → placed limit inhibit (specs ++ [sp]) (place limit inhibit st sp).
Proof.
  destruct st as [[[items config] bg] bgItems]. intros (Hl & Hlim & Hslot & Hbg & Hall).
  unfold place. rewrite !sensor_default_param.
  destruct (HighPriority (sensor_default sp) && (Z.of_nat (length config) <? limit)) eqn:E; unfold placed.
  - apply andb_prop in E as [_ E%Z.ltb_lt]. rewrite !length_app. simpl. split_and!; [lia|lia| |done|].
    + intros i item Hi. destruct (decide (i < length items)%nat) as [Hlt|Hge].
      * rewrite lookup_app_l in Hi by done. rewrite lookup_app_l by lia. by apply Hslot.
      * rewrite lookup_app_r in Hi by lia. destruct (i - length items)%nat eqn:Hd; [|done].
        simpl in Hi. injection Hi as <-. simpl. replace i with (length config) by lia.
        split; [done|]. by rewrite list_lookup_middle, <-(sensor_default_param sp).
    + intros sp' Hsp'. apply elem_of_app in Hsp' as [Hsp'|Hsp'%list_elem_of_singleton].
      * destruct (Hall sp' Hsp') as [(i & Hi)|?]; [left|by right]. exists i.
        apply fmap_Some in Hi as (x & Hx & Hp). rewrite lookup_app_l by (by eapply lookup_lt_Some).
        by rewrite Hx, Hp.
      * subst. left. exists (length config). by rewrite list_lookup_middle.
  - split_and!; [done..| |].
    + intros p Hp. destruct (decide (ParameterKey p = ParameterKey (rp_Parameter sp))) as [->|Hne].
      * by rewrite lookup_insert_eq.
      * rewrite lookup_insert_ne by done. apply elem_of_app in Hp as [Hp|Hp%list_elem_of_singleton]; [auto|].
        by subst.
    + intros sp' Hsp'. apply elem_of_app in Hsp' as [Hsp'|Hsp'%list_elem_of_singleton].
      * destruct (Hall sp' Hsp') as [?|?]; [by left|right]. by apply elem_of_app; left.
      * subst. right. apply elem_of_app. right. by left.
Qed.

Lemma place_all limit inhibit specs : placed limit inhibit specs
  (fold_left (place limit inhibit) specs ([], [], [], ∅)).
Proof.
  assert (H : ∀ done todo st, placed limit inhibit done st →
    placed limit inhibit (done ++ todo) (fold_left (place limit inhibit) todo st)).
  { intros dn todo. revert dn. induction todo as [|sp todo IH]; intros dn st Hst; cbn [fold_left].
    - by rewrite app_nil_r.
    - rewrite cons_middle, app_assoc. by apply IH, place_placed. }
  apply (H [] specs). split_and!; simpl; try done; [lia|..]; intros ? Hx; by apply elem_of_nil in Hx.
Qed.

Lemma capture_limit_range cfg : 0 < capture_limit cfg ≤ RingCaptureLimit.
Proof.
  unfold capture_limit, RingCaptureLimit, DefaultRingCaptureLimit. cbv zeta.
  destruct (Z.leb_spec (cfg_RingCaptureLimit cfg) 0); [simpl; lia|].
  destruct (Z.ltb_spec 16 (cfg_RingCaptureLimit cfg)); lia.
Qed.

Lemma NewReadout_inv cfg : 0 ≤ cfg_DefaultRingReadMaxBytes cfg → 0 ≤ cfg_MaxRingReadMaxBytes cfg →
  readout_inv (NewReadout cfg).
Proof.
  intros Hd Hm. unfold NewReadout. cbv zeta.
  set (minB := clampRingReadMaxBytes (if cfg_DefaultRingReadMaxBytes cfg =? 0 then _ else _)).
  set (maxL := clampRingReadMaxBytes (if cfg_MaxRingReadMaxBytes cfg =? 0 then _ else _)).
  assert (Hmin : 0 < minB ≤ MaxRingReadMaxBytes).
  { apply clamp_range. unfold DefaultRingReadMaxBytes, MaxRingReadMaxBytes. destruct (_ =? 0); lia. }
  assert (Hmax : 0 < maxL ≤ MaxRingReadMaxBytes).
  { apply clamp_range. unfold MaxRingReadMaxBytes. destruct (Z.eqb_spec (cfg_MaxRingReadMaxBytes cfg) 0); lia. }
  set (inhibit := if cfg_RingInhibitTime10us cfg =? 0 then _ else _).
  pose proof (place_all (capture_limit cfg) inhibit (cfg_Parameters cfg)) as Hp.
  destruct (fold_left _ _ _) as [[[items config] bg] bgItems].
  destruct Hp as (Hl & Hlim & Hslot & Hbg & _). pose proof (capture_limit_range cfg).
  split; simpl.
  - destruct (Z.ltb_spec maxL minB); lia.
  - lia.
  - done.
  - done.
  - apply NewPollQueue_wf.
  - destruct (Z.leb_spec (cfg_BulkChunk cfg) 0); lia.
  - intros p Hp. by apply Hbg, NewPollQueue_entries.
Qed.

Lemma with_ring_inv configured cursor tl r :
  readout_inv r → readout_inv (with_ring (ringItems r) (ringConfig r) configured cursor tl r).
Proof. by intros []. Qed.

Lemma with_window_inv w r : readout_inv r → ringMinBytes r ≤ w ≤ ringMaxLimit r →
  readout_inv (with_window w r).
Proof. intros [] Hw. split; simpl; try done. lia. Qed.

Lemma tune_inv resp r : readout_inv r → readout_inv (tuneRingReadWindow resp r).
Proof.
  intros Hr. pose proof (ro_window r Hr) as Hw. unfold MaxRingReadMaxBytes in Hw.
  unfold tuneRingReadWindow, u16. destruct (_ || _).
  - destruct (Z.ltb_spec (ringMaxBytes r) (ringMaxLimit r)); [|done].
    apply with_window_inv; [done|]. rewrite Z.mod_small by lia.
    destruct (Z.ltb_spec (ringMaxLimit r) (ringMaxBytes r * 2)); lia.
  - destruct (_ && _ && _) eqn:E; [|done]. apply andb_prop in E as [_ E%Z.ltb_lt].
    apply with_window_inv; [done|].
    destruct (Z.ltb_spec (ringMaxBytes r / 2) (ringMinBytes r)); zdiv.
Qed.

Lemma with_background_inv q m r : readout_inv r → wf q →
  (∀ p, p ∈ entries q → is_Some (m !! ParameterKey p)) → readout_inv (with_background q m r).
Proof. intros [] Hq Hm. by split. Qed.

Lemma enqueue_covered (q : PollQueue) m sp (f : PollQueue → Param → PollQueue) :
  (∀ q p x, x ∈ entries (f q p) → x ∈ entries q ∨ x = p) →
  (∀ p, p ∈ entries q → is_Some (m !! ParameterKey p)) →
  ∀ p, p ∈ entries (f q (rp_Parameter sp)) →
    is_Some (<[ParameterKey (rp_Parameter sp) := sp]> (m : gmap string ReadoutParameter) !! ParameterKey p).
Proof.
  intros Hf Hm p Hp. destruct (decide (ParameterKey p = ParameterKey (rp_Parameter sp))) as [->|Hne].
  - rewrite lookup_insert_eq. eauto.
  - rewrite lookup_insert_ne by done. apply Hf in Hp as [?| ->]; [auto|done].
Qed.

Lemma Readout_EnqueueFront_inv sp r : readout_inv r → readout_inv (Readout_EnqueueFront sp r).
Proof.
  intros Hr. unfold Readout_EnqueueFront. apply with_background_inv; [done|by apply EnqueueFront_wf, Hr|].
  apply enqueue_covered; [apply EnqueueFront_entries|apply Hr].
Qed.

(** *** Moving the capture to the background *)
Definition requeue : PollQueue * gmap string ReadoutParameter → queuedReadoutParameter →
    PollQueue * gmap string ReadoutParameter := λ '(q, m) item,
  let sp := sensor_default (spec item) in
  (EnqueueFront (Enqueue q (rp_Parameter sp)) (rp_Parameter sp),
   <[ParameterKey (rp_Parameter sp) := sp]> m).

Definition queue_ok (qm : PollQueue * gmap string ReadoutParameter) : Prop :=
  wf qm.1 ∧ ∀ p, p ∈ entries qm.1 → is_Some (qm.2 !! ParameterKey p).

Lemma requeue_ok qm item : queue_ok qm → queue_ok (requeue qm item).
Proof.
  destruct qm as [q m]. intros [Hq Hm]. split; simpl in *; [by apply EnqueueFront_wf, Enqueue_wf|].
  apply (enqueue_covered q m (sensor_default (spec item)) (λ q p, EnqueueFront (Enqueue q p) p)); [|done].
  intros q' p x Hx. apply EnqueueFront_entries in Hx as [Hx|?]; [|by right]. by apply Enqueue_entries.
Qed.

Lemma move_inv r : readout_inv r → readout_inv (moveRingCaptureToBackground r).
Proof.
  intros Hr. unfold moveRingCaptureToBackground. fold requeue.
  assert (Hok : queue_ok (fold_left requeue (ringItems r) (background r, backgroundItems r))).
  { assert (H : ∀ qm, queue_ok qm → queue_ok (fold_left requeue (ringItems r) qm)).
    { induction (ringItems r) as [|item items IH]; intros qm Hqm; [done|]. by apply IH, requeue_ok. }
    apply H. split; apply Hr. }
  destruct (fold_left _ _ _) as [q m]. destruct Hok. destruct Hr. split; simpl; done.
Qed.

Section poll_lemmas.
Context {C W : Type} `{ReadClient C} `{Window W} (error_text : error → string).

Lemma pollRing_inv t (c : C) r batch : readout_inv r →
  readout_inv (pollRing (W := W) t c r batch).1.2.
Proof.
  intros Hr. unfold pollRing. destruct (_ =? 0)%nat; [done|].
  destruct (negb (env_SupportsRingReadout c)); [by apply move_inv|]. destruct (negb (ringConfigured r)).
  - destruct (env_ConfigureRingCapture _ _ c) as [c1 [?|]]; [|done].
    destruct (env_TriggerRingSync c1) as [c2 sync].
    destruct (env_ReadRingPointer c2) as [c3 [?|]]; [by apply with_ring_inv|done].
  - destruct (env_ReadRingChunk _ _ c) as [c1 [resp|]]; [|by apply with_ring_inv].
    destruct (Status resp =? RingStatusOverlap).
    + destruct (env_ReadRingPointer c1) as [c2 [p|]]; cbn [fst snd];
        (apply with_window_inv; [|simpl; pose proof (ro_window r Hr); lia]);
        repeat apply (with_ring_inv _ _ _ (with_ring _ _ _ _ _ _)) || by apply with_ring_inv.
    + set (r1 := tuneRingReadWindow resp _).
      assert (Hr1 : readout_inv r1) by (by apply tune_inv, with_ring_inv).
      destruct (ParseRingFrames _ _) as [[[frames tl] [e|]]|]; [| |done]; by apply with_ring_inv.
Qed.

Lemma pollBackground_inv t (c : C) r batch : readout_inv r →
  readout_inv (pollBackground error_text t c r batch).1.2.
Proof.
  intros Hr. unfold pollBackground.
  pose proof (NextChunk_wf (background r) (bulkChunk r) (ro_queue r Hr)) as Hq.
  assert (Hin : ∀ p, p ∈ entries (NextChunk (background r) (bulkChunk r)).1 →
    is_Some (backgroundItems r !! ParameterKey p)).
  { intros p Hp. apply (ro_items r Hr). eapply NextChunk_entries; [apply Hr|done]. }
  destruct (NextChunk (background r) (bulkChunk r)) as [q params]. cbn [fst] in Hq, Hin.
  destruct (length params =? 0)%nat; [by apply with_background_inv|].
  assert (Hrec : ∀ vs err, readout_inv (with_background (RecordBulk t q params vs t err)
    (backgroundItems r) (with_background q (backgroundItems r) r))).
  { intros vs err. apply with_background_inv; [by apply with_background_inv|by apply RecordBulk_wf|].
    intros p. rewrite RecordBulk_entries. apply Hin. }
  destruct (rd_ReadBulk params c) as [c1 [vs|e]]; apply Hrec.
Qed.

(** A history of polls, and of manual polls in between. *)
Inductive reaches : C → Readout → C → Readout → Prop :=
  | reaches_refl c r : reaches c r c r
  | reaches_poll c0 r0 c r c' r' batch t :
      reaches c0 r0 c r → Poll (W := W) error_text t c r = (c', r', batch) → reaches c0 r0 c' r'
  | reaches_front c0 r0 c r sp :
      reaches c0 r0 c r → reaches c0 r0 c (Readout_EnqueueFront sp r).

Lemma reaches_inv c0 r0 c r : reaches c0 r0 c r → readout_inv r0 → readout_inv r.
Proof.
  induction 1 as [|c0 r0 c r c' r' batch t _ IH Hp|c0 r0 c r sp _ IH]; intros Hr0; [done| |].
  - unfold Poll in Hp. pose proof (pollRing_inv t c r empty_batch (IH Hr0)) as H1.
    destruct (pollRing t c r empty_batch) as [[c1 r1] b1]. simpl in H1.
    pose proof (pollBackground_inv t c1 r1 b1 H1) as H2. by rewrite Hp in H2.
  - by apply Readout_EnqueueFront_inv, IH.
Qed.
End poll_lemmas.

(** *** Every parameter is served *)
Definition serves (q : PollQueue) (p : Param) : Prop :=
  ∃ x, x ∈ normal q ++ front q ∧ ParameterKey x = ParameterKey p.

Lemma NewReadout_slots cfg : length (ringItems (NewReadout cfg)) = length (ringConfig (NewReadout cfg)) ∧
  ∀ i item, ringItems (NewReadout cfg) !! i = Some item →
    configIndex item = i ∧
    rcp_Parameter <$> (ringConfig (NewReadout cfg) !! i) = Some (rp_Parameter (spec item)).
Proof.
  unfold NewReadout. cbv zeta.
  match goal with |- context [fold_left (place ?l ?inh) _ _] =>
    pose proof (place_all l inh (cfg_Parameters cfg)) as Hp end.
  destruct (fold_left _ _ _) as [[[items config] bg] bgItems]. simpl.
  by destruct Hp as (? & _ & ? & _).
Qed.

Lemma NewReadout_queue cfg : wf (background (NewReadout cfg)).
Proof.
  unfold NewReadout. cbv zeta. destruct (fold_left _ _ _) as [[[items config] bg] bgItems]. simpl.
  apply NewPollQueue_wf.
Qed.

Lemma requeue_serves qm item p : wf qm.1 →
  serves qm.1 p ∨ p = rp_Parameter (spec item) → serves (requeue qm item).1 p.
Proof.
  destruct qm as [q m]. simpl. intros Hq Hp. rewrite sensor_default_param.
  set (x := rp_Parameter (spec item)) in *. apply EnqueueFront_serves.
  destruct Hp as [Hp| ->]; [by apply Enqueue_serves|]. by apply Enqueue_in.
Qed.

Lemma move_serves r p :
  (∃ item, item ∈ ringItems r ∧ p = rp_Parameter (spec item)) ∨ serves (background r) p →
  wf (background r) → serves (background (moveRingCaptureToBackground r)) p.
Proof.
  intros Hp Hq. unfold moveRingCaptureToBackground. fold requeue.
  assert (H : ∀ qm, wf qm.1 →
    (∃ item, item ∈ ringItems r ∧ p = rp_Parameter (spec item)) ∨ serves qm.1 p →
    serves (fold_left requeue (ringItems r) qm).1 p).
  { clear Hp Hq. induction (ringItems r) as [|item items IH]; intros qm Hq Hp; simpl.
    - destruct Hp as [(? & Hin & _)|?]; [by apply elem_of_nil in Hin|done].
    - apply IH; [destruct qm; by apply EnqueueFront_wf, Enqueue_wf|].
      destruct Hp as [(item' & Hin & ->)|Hp].
      + apply elem_of_cons in Hin as [->|Hin]; [right; apply requeue_serves; auto|left; eauto].
      + right. apply requeue_serves; auto. }
  specialize (H (background r, backgroundItems r) Hq Hp). by destruct (fold_left _ _ _).
Qed.

(** ** Properties *)

(** C26: the scheduler's invariant.  For every configuration, every client and every
    history of polls and manual polls, the read window stays between its bounds,
    which are positive and at most the 279 bytes of a ring read; at most sixteen
    parameters are captured, slot [i] belongs to the [i]-th captured parameter;
    the background queue is well formed, and every parameter in it has an entry
    that names its consumer, so that no value read is dropped. *)
Theorem Readout_invariant {C W : Type} `{ReadClient C} `{Window W} (error_text : error → string)
    (cfg : ReadoutConfig) (c0 c : C) (r : Readout) :
  0 ≤ cfg_DefaultRingReadMaxBytes cfg → 0 ≤ cfg_MaxRingReadMaxBytes cfg →
  reaches (W := W) error_text c0 (NewReadout cfg) c r →
  0 < ringMinBytes r ≤ ringMaxBytes r ∧ ringMaxBytes r ≤ ringMaxLimit r ∧ ringMaxLimit r ≤ 279 ∧
  (length (ringItems r) ≤ 16)%nat ∧
  (∀ i item, ringItems r !! i = Some item →
     configIndex item = i ∧ rcp_Parameter <$> (ringConfig r !! i) = Some (rp_Parameter (spec item))) ∧
  wf (background r) ∧
  (∀ p, p ∈ normal (background r) ++ front (background r) →
     is_Some (backgroundItems r !! ParameterKey p)).
Proof.
  intros Hd Hm Hreach. apply reaches_inv in Hreach as []; [|by apply NewReadout_inv].
  unfold MaxRingReadMaxBytes, RingCaptureLimit in *. split_and!; try done; lia.
Qed.

(** Nothing that is configured is lost.  Every parameter of a configuration is
    either captured in the ring or in the rotation of the background queue, and
    when the client turns out not to support the ring, the first poll puts every
    captured parameter into the background queue. *)
Theorem Readout_serves_all {C W : Type} `{ReadClient C} `{Window W} (cfg : ReadoutConfig)
    (sp : ReadoutParameter) (t : Z) (c : C) (batch : ReadoutBatch) :
  sp ∈ cfg_Parameters cfg →
  let r := NewReadout cfg in
  let in_background q := ∃ p, p ∈ normal q ++ front q ∧ ParameterKey p = ParameterKey (rp_Parameter sp) in
  ((∃ i, rcp_Parameter <$> (ringConfig r !! i) = Some (rp_Parameter sp)) ∨ in_background (background r)) ∧
  (env_SupportsRingReadout c = false → in_background (background (pollRing (W := W) t c r batch).1.2)).
Proof.
  intros Hsp r in_background.
  assert (Hplace : (∃ i, rcp_Parameter <$> (ringConfig r !! i) = Some (rp_Parameter sp)) ∨
                   in_background (background r)).
  { unfold r, NewReadout. cbv zeta.
    match goal with |- context [fold_left (place ?l ?inh) _ _] =>
      pose proof (place_all l inh (cfg_Parameters cfg)) as Hp end.
    destruct (fold_left _ _ _) as [[[items config] bg] bgItems]. simpl.
    destruct Hp as (_ & _ & _ & _ & Hall). destruct (Hall sp Hsp) as [?|Hbg]; [by left|right].
    by apply NewPollQueue_complete. }
  split; [done|]. intros Hsup.
  assert (Hslots := NewReadout_slots cfg). fold r in Hslots. unfold pollRing.
  destruct (Nat.eqb_spec (length (ringConfig r)) 0) as [Hl|Hl].
  - destruct Hplace as [(i & Hi)|?]; [|done]. destruct (ringConfig r); [done|simpl in Hl; lia].
  - rewrite Hsup. simpl. apply move_serves; [|by apply NewReadout_queue]. destruct Hplace as [(i & Hi)|?]; [left|by right].
    apply fmap_Some in Hi as (x & Hx & ->). pose proof (lookup_lt_Some _ _ _ Hx) as Hlt.
    destruct Hslots as [Hlen Hslots]. rewrite <-Hlen in Hlt.
    destruct (lookup_lt_is_Some_2 _ _ Hlt) as [item Hitem].
    destruct (Hslots i item Hitem) as [_ Hp]. rewrite Hx in Hp. injection Hp as Hp.
    exists item. split; [by eapply list_elem_of_lookup_2|done].
Qed.

(** *** A scripted client *)

(** What the coming chunk reads return; everything else succeeds. *)
Definition Script : Type := list (res RingReadResponse).
#[local] Instance script_ring : RingClient Script := {|
  env_SupportsRingReadout := λ _, true;
  env_ConfigureRingCapture := λ _ _ c, (c, Ok ());
  env_TriggerRingSync := λ c, (c, Ok ());
  env_ReadRingPointer := λ c, (c, Ok 100);
  env_ReadRingChunk := λ _ _ c,
    match c with [] => ([], Err (Sentinel ErrTimeout)) | x :: c' => (c', x) end |}.
#[local] Instance script_client : ReadClient Script := {|
  rd_ReadBulk := λ ps c, (c, Ok (replicate (length ps) (of_int 1))) |}.

(** A window that keeps the last value. *)
#[local] Instance last_window : Window (option f64) := {|
  win_empty := None;
  win_Add := λ v _, (Some v, true);
  win_Count := λ w, match w with Some _ => 1 | None => 0 end;
  win_Snapshot := λ w, match w with Some v => Some (MkSummary 1 v v v v) | None => None end |}.

Definition no_text : error → string := λ _, ""%string.
Fixpoint script_polls (n : nat) (c : Script) (r : Readout) : Script * Readout * list ReadoutBatch :=
  match n with
  | O => (c, r, [])
  | S n' =>
      let '(c, r, b) := Poll (W := option f64) no_text 1 c r in
      let '(c, r, bs) := script_polls n' c r in (c, r, b :: bs)
  end.

Definition one_captured : ReadoutConfig :=
  MkReadoutConfig [MkReadoutParameter (MkParam 1000 1 "t" "" "float32" false "" "") "" true] 8 4 1 1000 279 279.
Definition frame_5 : sent_frame := MkSentFrame None 5 [MkSent 0 None 0x3F800000].

Lemma Readout_invariant_witness :
  let r := (script_polls 2 [] (NewReadout one_captured)).1.2 in
  0 < ringMinBytes r ≤ ringMaxBytes r ∧ ringMaxBytes r ≤ ringMaxLimit r ∧ ringMaxLimit r ≤ 279.
Proof.
  destruct (Poll (W := option f64) no_text 1 ([] : Script) (NewReadout one_captured)) as [[c1 r1] b1] eqn:E1.
  destruct (Poll (W := option f64) no_text 1 c1 r1) as [[c2 r2] b2] eqn:E2.
  cbn [script_polls]. rewrite E1, E2. cbn [fst snd].
  destruct (Readout_invariant (W := option f64) no_text one_captured ([] : Script) c2 r2) as (H1 & H2 & H3 & _).
  - simpl. lia.
  - simpl. lia.
  - eapply reaches_poll; [|exact E2]. eapply reaches_poll; [|exact E1]. constructor.
  - split_and!; apply H1 || apply H2 || apply H3.
Defined.

Lemma Readout_serves_all_witness :
  let sp := MkReadoutParameter (MkParam 1000 1 "t" "" "float32" false "" "") "" true in
  ∃ i, rcp_Parameter <$> (ringConfig (NewReadout one_captured) !! i) = Some (rp_Parameter sp).
Proof.
  intros sp.
  destruct (Readout_serves_all (W := option f64) one_captured sp 1 ([] : Script) empty_batch ltac:(by left))
    as [[H|(p & Hp & _)] _]; [exact H|]. vm_compute in Hp. by apply elem_of_nil in Hp.
Defined.

(** A partial frame outlives the stream it belongs to.  When a chunk read fails
    the readout configures the capture again and moves its cursor to the new
    pointer, but it keeps the partial frame of the old stream and puts it before
    the first chunk of the new one: here a frame that a fresh readout decodes to a
    value is refused with an error, and its value is lost. *)
Theorem stale_tail_survives_reconfigure :
  let chunk d := Ok (MkRingReadResponse (Z.of_nat (length d)) RingStatusHasMoreData d) in
  let whole := frame_wire frame_5 in
  let fresh := (script_polls 2 [chunk whole] (NewReadout one_captured)).2 in
  let stale := (script_polls 5 [chunk (take 4 whole); Err (Sentinel ErrTimeout); chunk whole]
                  (NewReadout one_captured)).2 in
  (rv_Value <$> (fresh ≫= RingValues)) = [to_f64 (Float32frombits 0x3F800000)] ∧
  (fresh ≫= Errors) = [] ∧
  (stale ≫= RingValues) = [] ∧
  (stale ≫= Errors) =
    [Sentinel ErrTimeout; Errorf "mecom: unexpected ring marker 0x88 0x%02X in payload" [0]].
Proof. vm_compute. done. Qed.
