(* ===== verification/CanFrame.v ===== *)
(** * CanFrame: CAN frames and expedited SDO messages ([canopen/frame.go])

    A frame is an identifier, eight data bytes and a length code.  The builders
    and parsers are the client's side; the server's side ([upload_answer] and
    [serve_download]) is the specification they are proved against. *)
From stdpp Require Import prelude strings list.
From Stdlib Require Import Strings.Byte Floats.SpecFloat.
From S2P Require Import Prelude Floats.
Open Scope Z_scope.

Record Frame := MkFrame {
  f_ID : Z;
  f_Data : bytes;
  f_DLC : Z }.

Global Instance Frame_eq_dec : EqDecision Frame.
Proof. solve_decision. Defined.

(** [f.Data[i]] of the eight-byte array. *)
Definition at_ (f : Frame) (i : nat) : Z := bz (nth i (f_Data f) x00).

(** An array literal of eight bytes. *)
Definition array8 (l : bytes) : bytes := take 8 (l ++ replicate 8 x00).

(** ** Operations *)
Definition Frame_Validate (f : Frame) : res () :=
  if 8 <? f_DLC f then Err (Errorf "canopen: invalid classic CAN DLC %d" [f_DLC f]) else Ok ().

Definition validateNodeID (nodeID : Z) : res () :=
  if (nodeID =? 0) || (0x7f <? nodeID) then
    Err (Errorf "canopen: node id 0x%02X outside 1..127" [nodeID])
  else Ok ().

Definition NMTStartRemoteNode : Z := 0x01.
Definition NMTStopRemoteNode : Z := 0x02.
Definition NMTEnterPreOperational : Z := 0x80.
Definition NMTResetNode : Z := 0x81.
Definition NMTResetCommunication : Z := 0x82.

Definition NMTFrame (command nodeID : Z) : res Frame :=
  if 0x7f <? nodeID then Err (Errorf "canopen: node id 0x%02X outside 0..127" [nodeID])
  else Ok (MkFrame 0 (array8 [zb command; zb nodeID]) 2).

Definition SDOUploadRequest (nodeID index subIndex : Z) : res Frame :=
  _ ← validateNodeID nodeID;
  Ok (MkFrame (0x600 + nodeID)
        (array8 [x40; zb index; zb (Z.shiftr index 8); zb subIndex]) 8).

Record SDOUploadResponse := MkUpload {
  up_NodeID : Z;
  up_Index : Z;
  up_SubIndex : Z;
  up_Data : bytes }.

Definition frame_index (f : Frame) : Z := Z.lor (at_ f 1) (Z.shiftl (at_ f 2) 8).

Definition ParseSDOUploadResponse (f : Frame) : res SDOUploadResponse :=
  _ ← Frame_Validate f;
  if negb (f_DLC f =? 8) then Err (Errorf "canopen: SDO response DLC = %d, want 8" [f_DLC f])
  else if (f_ID f <? 0x580) || (0x5ff <? f_ID f) then
    Err (Errorf "canopen: SDO response id 0x%03X outside 0x580..0x5ff" [f_ID f])
  else
    let index := frame_index f in
    let subIndex := at_ f 3 in
    if at_ f 0 =? 0x80 then Err (SDOAbortError index subIndex (le_get (slice (f_Data f) 4 8)))
    else if negb (Z.land (at_ f 0) 0xe0 =? 0x40) then
      Err (Errorf "canopen: unexpected SDO upload command 0x%02X" [at_ f 0])
    else if Z.land (at_ f 0) 0x02 =? 0 then
      Err (Errorf "canopen: segmented SDO uploads are not supported" [])
    else
      let size := if negb (Z.land (at_ f 0) 0x01 =? 0)
                  then 4 - Z.land (Z.shiftr (at_ f 0) 2) 0x03 else 4 in
      Ok (MkUpload (f_ID f - 0x580) index subIndex (slice (f_Data f) 4 (4 + Z.to_nat size))).

Definition up_Uint32 (r : SDOUploadResponse) : res Z :=
  if negb (length (up_Data r) =? 4)%nat then
    Err (Errorf "canopen: 0x%04X:%02X has %d bytes, want uint32"
           [up_Index r; up_SubIndex r; Z.of_nat (length (up_Data r))])
  else Ok (le_get (up_Data r)).
Definition up_Int32 (r : SDOUploadResponse) : res Z := v ← up_Uint32 r; Ok (i32 v).
Definition up_Float32 (r : SDOUploadResponse) : res f32 := v ← up_Uint32 r; Ok (Float32frombits v).
Definition up_Byte (r : SDOUploadResponse) : res Z :=
  if negb (length (up_Data r) =? 1)%nat then
    Err (Errorf "canopen: 0x%04X:%02X has %d bytes, want byte"
           [up_Index r; up_SubIndex r; Z.of_nat (length (up_Data r))])
  else Ok (bz (nth 0 (up_Data r) x00)).

Definition SDODownloadExpeditedRequest (nodeID index subIndex : Z) (value : bytes) : res Frame :=
  _ ← validateNodeID nodeID;
  if (length value =? 0)%nat || (4 <? length value)%nat then
    Err (Errorf "canopen: expedited SDO payload must have 1..4 bytes, got %d"
           [Z.of_nat (length value)])
  else
    let unused := 4 - Z.of_nat (length value) in
    let cmd := zb (Z.lor 0x23 (Z.shiftl unused 2)) in
    Ok (MkFrame (0x600 + nodeID)
          (array8 (cmd :: zb index :: zb (Z.shiftr index 8) :: zb subIndex :: value)) 8).

Record SDODownloadResponse := MkDownload { dn_NodeID : Z; dn_Index : Z; dn_SubIndex : Z }.

Definition ParseSDODownloadResponse (f : Frame) : res SDODownloadResponse :=
  _ ← Frame_Validate f;
  if negb (f_DLC f =? 8) then Err (Errorf "canopen: SDO download response DLC = %d, want 8" [f_DLC f])
  else if (f_ID f <? 0x580) || (0x5ff <? f_ID f) then
    Err (Errorf "canopen: SDO download response id 0x%03X outside 0x580..0x5ff" [f_ID f])
  else
    let index := frame_index f in
    let subIndex := at_ f 3 in
    if at_ f 0 =? 0x80 then Err (SDOAbortError index subIndex (le_get (slice (f_Data f) 4 8)))
    else if negb (at_ f 0 =? 0x60) then
      Err (Errorf "canopen: unexpected SDO download response command 0x%02X" [at_ f 0])
    else Ok (MkDownload (f_ID f - 0x580) index subIndex).

(** ** Specification: the SDO server *)
Definition object_bytes (index subIndex : Z) : bytes := le_put 2 index ++ [zb subIndex].

(** The expedited answer to an upload of an object that holds [value]. *)
Definition upload_answer (nodeID index subIndex : Z) (value : bytes) : Frame :=
  MkFrame (0x580 + nodeID)
    (zb (0x43 + 4 * (4 - Z.of_nat (length value))) :: object_bytes index subIndex ++
     value ++ replicate (4 - length value) x00) 8.
Definition download_answer (nodeID index subIndex : Z) : Frame :=
  MkFrame (0x580 + nodeID) (x60 :: object_bytes index subIndex ++ replicate 4 x00) 8.
Definition abort_answer (nodeID index subIndex code : Z) : Frame :=
  MkFrame (0x580 + nodeID) (x80 :: object_bytes index subIndex ++ le_put 4 code) 8.

(** What a server writes where, on an expedited download request. *)
Definition serve_download (nodeID : Z) (f : Frame) : option (Z * Z * bytes) :=
  if (f_ID f =? 0x600 + nodeID) && (Z.land (at_ f 0) 0xe3 =? 0x23) then
    let n := Z.to_nat (4 - Z.land (Z.shiftr (at_ f 0) 2) 3) in
    Some (le_get (slice (f_Data f) 1 3), at_ f 3, slice (f_Data f) 4 (4 + n))
  else None.
Definition serve_upload (nodeID : Z) (f : Frame) : option (Z * Z) :=
  if (f_ID f =? 0x600 + nodeID) && (at_ f 0 =? 0x40) then
    Some (le_get (slice (f_Data f) 1 3), at_ f 3)
  else None.

(** ** Lemmas *)
Lemma land_low_high a b n : 0 ≤ n → 0 ≤ a < 2 ^ n → Z.land a (Z.shiftl b n) = 0.
Proof.
  intros Hn Ha. apply Z.bits_inj'. intros i Hi. rewrite Z.land_spec, Z.bits_0.
  destruct (decide (i < n)).
  - rewrite Z.shiftl_spec_low by done. apply andb_false_r.
  - rewrite <-(Z.mod_small a (2 ^ n)) by done. rewrite Z.mod_pow2_bits_high by lia. done.
Qed.

Lemma lor_shift8 a b : 0 ≤ a < 256 → Z.lor a (Z.shiftl b 8) = a + 256 * b.
Proof.
  intros Ha. rewrite <-Z.lxor_lor by (apply land_low_high; lia).
  rewrite <-Z.add_nocarry_lxor by (apply land_low_high; lia).
  rewrite Z.shiftl_mul_pow2 by lia. lia.
Qed.

Section object.
Context (cmd : byte) (index subIndex : Z) (rest : bytes) (id : Z) (dlc : Z).
Context (Hindex : 0 ≤ index < 65536) (Hsub : 0 ≤ subIndex < 256).
Let f := MkFrame id (cmd :: object_bytes index subIndex ++ rest) dlc.

Lemma object_fields : at_ f 0 = bz cmd ∧ frame_index f = index ∧ at_ f 3 = subIndex ∧
  slice (f_Data f) 1 3 = le_put 2 index ∧ (∀ j, slice (f_Data f) 4 (4 + j) = take j rest).
Proof using Hindex Hsub.
  split_and!.
  - done.
  - unfold frame_index, at_, f, object_bytes. simpl. rewrite !bz_zb.
    rewrite lor_shift8 by (apply Z.mod_pos_bound; lia). rewrite (Z.mod_small (index / 256)) by zdiv. zdiv.
  - unfold at_, f, object_bytes. simpl. rewrite bz_zb. by apply Z.mod_small.
  - done.
  - intros j. unfold slice. rewrite Nat.add_comm, Nat.add_sub. done.
Qed.
End object.

Lemma shiftr8_byte index : zb (Z.shiftr index 8) = zb (index / 256).
Proof. f_equal. rewrite Z.shiftr_div_pow2 by lia. done. Qed.

Lemma SDO_answers_parsed (nodeID index subIndex code : Z) (value : bytes) :
  1 ≤ nodeID ≤ 127 → 0 ≤ index < 65536 → 0 ≤ subIndex < 256 → 0 ≤ code < 2 ^ 32 →
  (1 ≤ length value ≤ 4)%nat →
  ParseSDOUploadResponse (upload_answer nodeID index subIndex value) =
    Ok (MkUpload nodeID index subIndex value) ∧
  ParseSDODownloadResponse (download_answer nodeID index subIndex) =
    Ok (MkDownload nodeID index subIndex) ∧
  ParseSDOUploadResponse (abort_answer nodeID index subIndex code) =
    Err (SDOAbortError index subIndex code) ∧
  ParseSDODownloadResponse (abort_answer nodeID index subIndex code) =
    Err (SDOAbortError index subIndex code).
Proof.
  intros Hn Hi Hs Hc Hv.
  assert (Hid : (0x580 + nodeID <? 0x580) || (0x5ff <? 0x580 + nodeID) = false).
  { apply orb_false_iff. rewrite !Z.ltb_ge. lia. }
  unfold ParseSDOUploadResponse, ParseSDODownloadResponse, upload_answer, download_answer, abort_answer.
  unfold Frame_Validate. cbn [f_DLC f_ID Z.ltb Z.compare Pos.compare Pos.compare_cont mbind result_bind Z.eqb negb].
  change (8 <? 8) with false. change (8 =? 8) with true. cbv iota. cbn [mbind result_bind negb]. rewrite !Hid.
  set (cmd := zb (0x43 + 4 * (4 - Z.of_nat (length value)))).
  destruct (object_fields cmd index subIndex (value ++ replicate (4 - length value) x00) (0x580 + nodeID) 8 Hi Hs)
    as (H0 & H1 & H2 & _ & H4).
  destruct (object_fields x60 index subIndex (replicate 4 x00) (0x580 + nodeID) 8 Hi Hs)
    as (D0 & D1 & D2 & _ & D4).
  destruct (object_fields x80 index subIndex (le_put 4 code) (0x580 + nodeID) 8 Hi Hs)
    as (A0 & A1 & A2 & _ & A4).
  rewrite H0, H1, H2, D0, D1, D2, A0, A1, A2.
  assert (Habort : le_get (slice (f_Data (MkFrame (0x580 + nodeID)
    (x80 :: object_bytes index subIndex ++ le_put 4 code) 8)) 4 8) = code).
  { change 8%nat with (4 + 4)%nat. rewrite (A4 4%nat). change (take 4 (le_put 4 code)) with (le_put 4 code). apply le_get_put_small. simpl. lia. }
  change (bz x80 =? 0x80) with true. cbv iota. rewrite Habort. split_and!; [| |done|done].
  - assert (Hnode : 0x580 + nodeID - 0x580 = nodeID) by lia. rewrite Hnode.
    assert (Hslice : ∀ k, k = length value →
      slice (f_Data (MkFrame (0x580 + nodeID) (cmd :: object_bytes index subIndex ++ value ++
        replicate (4 - length value) x00) 8)) 4 (4 + k) = value).
    { intros k ->. rewrite H4. apply take_app_length. }
    destruct value as [|v0 [|v1 [|v2 [|v3 [|v4 value]]]]]; simpl in Hv; try lia;
      cbn [length] in *; (etrans; [|by rewrite <-(Hslice _ eq_refl)]); reflexivity.
  - by replace (0x580 + nodeID - 0x580) with nodeID by lia.
Qed.

Lemma SDO_requests_read (nodeID index subIndex : Z) (value : bytes) :
  0 ≤ nodeID < 256 → 0 ≤ index < 65536 → 0 ≤ subIndex < 256 →
  (1 ≤ nodeID ≤ 127 →
     ∃ f, SDOUploadRequest nodeID index subIndex = Ok f ∧ serve_upload nodeID f = Some (index, subIndex)) ∧
  (1 ≤ nodeID ≤ 127 ∧ (1 ≤ length value ≤ 4)%nat →
     ∃ f, SDODownloadExpeditedRequest nodeID index subIndex value = Ok f ∧ f_DLC f = 8 ∧
          serve_download nodeID f = Some (index, subIndex, value)) ∧
  (¬ (1 ≤ nodeID ≤ 127 ∧ (1 ≤ length value ≤ 4)%nat) →
     is_Ok (SDODownloadExpeditedRequest nodeID index subIndex value) = false).
Proof.
  intros Hb Hi Hs.
  assert (Hok : 1 ≤ nodeID ≤ 127 → validateNodeID nodeID = Ok ()).
  { intros. unfold validateNodeID. destruct (Z.eqb_spec nodeID 0); [lia|].
    destruct (Z.ltb_spec 0x7f nodeID); [lia|done]. }
  assert (Hget : le_get (le_put 2 index) = index) by (apply le_get_put_small; simpl; lia).
  assert (Harr : ∀ c l, (length l ≤ 4)%nat →
    array8 (c :: zb index :: zb (Z.shiftr index 8) :: zb subIndex :: l) =
    c :: object_bytes index subIndex ++ l ++ replicate (4 - length l) x00).
  { intros c l Hl. rewrite shiftr8_byte. unfold array8, object_bytes.
    destruct l as [|? [|? [|? [|? [|? l]]]]]; simpl in *; try lia; done. }
  split_and!.
  - intros Hn. unfold SDOUploadRequest. rewrite Hok by done. eexists. split; [reflexivity|].
    rewrite (Harr x40 []) by (simpl; lia). unfold serve_upload.
    destruct (object_fields x40 index subIndex ([] ++ replicate (4 - length (@nil byte)) x00)
      (0x600 + nodeID) 8 Hi Hs) as (H0 & _ & H2 & H3 & _).
    rewrite H0, H2, H3, Hget. cbn [f_ID]. by rewrite Z.eqb_refl.
  - intros [Hn Hv]. unfold SDODownloadExpeditedRequest. rewrite Hok by done. cbn [mbind result_bind].
    destruct (Nat.eqb_spec (length value) 0); [lia|]. destruct (Nat.ltb_spec 4 (length value)); [lia|].
    cbn [orb]. eexists. split; [reflexivity|]. split; [done|]. rewrite Harr by lia. unfold serve_download.
    match goal with |- context [MkFrame _ (?c :: _) _] => set (cmd := c) end.
    destruct (object_fields cmd index subIndex (value ++ replicate (4 - length value) x00)
      (0x600 + nodeID) 8 Hi Hs) as (H0 & _ & H2 & H3 & H4).
    rewrite H0, H2, H3, Hget, H4. cbn [f_ID]. rewrite Z.eqb_refl.
    assert (Hcmd : Z.land (bz cmd) 0xe3 = 0x23 ∧
      Z.to_nat (4 - Z.land (Z.shiftr (bz cmd) 2) 3) = length value).
    { unfold cmd. destruct value as [|? [|? [|? [|? [|? l]]]]]; simpl in Hv; try lia; done. }
    destruct Hcmd as [-> ->]. cbn. by rewrite take_app_length.
  - intros Hno. unfold SDODownloadExpeditedRequest, validateNodeID.
    destruct (Z.eqb_spec nodeID 0); [done|]. destruct (Z.ltb_spec 0x7f nodeID); [done|]. cbn [orb mbind result_bind].
    destruct (Nat.eqb_spec (length value) 0); [done|].
    destruct (Nat.ltb_spec 4 (length value)); [done|]. exfalso. apply Hno. lia.
Qed.

(** ** Properties *)

(** SDO answers are parsed back.  For a node 1..127, any object and any value of
    one to four bytes, the upload parser returns the node, the object and exactly
    the value's bytes from the server's expedited answer; the download parser
    accepts the server's acknowledgement; and either parser returns an abort with
    the object and the server's code. *)
Theorem SDO_answers_roundtrip (nodeID index subIndex code : Z) (value : bytes) :
  1 ≤ nodeID ≤ 127 → 0 ≤ index < 65536 → 0 ≤ subIndex < 256 → 0 ≤ code < 2 ^ 32 →
  (1 ≤ length value ≤ 4)%nat →
  ParseSDOUploadResponse (upload_answer nodeID index subIndex value) =
    Ok (MkUpload nodeID index subIndex value) ∧
  ParseSDODownloadResponse (download_answer nodeID index subIndex) =
    Ok (MkDownload nodeID index subIndex) ∧
  ParseSDOUploadResponse (abort_answer nodeID index subIndex code) =
    Err (SDOAbortError index subIndex code) ∧
  ParseSDODownloadResponse (abort_answer nodeID index subIndex code) =
    Err (SDOAbortError index subIndex code).
Proof. intros. by apply SDO_answers_parsed. Qed.

Lemma SDO_answers_roundtrip_witness :
  ParseSDOUploadResponse (upload_answer 5 0x1018 2 [x01; x02; x03]) = Ok (MkUpload 5 0x1018 2 [x01; x02; x03]) ∧
  ParseSDODownloadResponse (download_answer 5 0x1018 2) = Ok (MkDownload 5 0x1018 2) ∧
  ParseSDOUploadResponse (abort_answer 5 0x1018 2 0x06020000) = Err (SDOAbortError 0x1018 2 0x06020000) ∧
  ParseSDODownloadResponse (abort_answer 5 0x1018 2 0x06020000) = Err (SDOAbortError 0x1018 2 0x06020000).
Proof. apply (SDO_answers_roundtrip 5 0x1018 2 0x06020000 [x01; x02; x03]); simpl; lia. Defined.

(** SDO requests say what they mean.  For a node 1..127 a request is built, and
    a server at that node reads back the object of an upload request, and the
    object and exactly the value's bytes of a download request; a node outside
    1..127 and a value of no or more than four bytes are refused. *)
Theorem SDO_requests_served (nodeID index subIndex : Z) (value : bytes) :
  0 ≤ nodeID < 256 → 0 ≤ index < 65536 → 0 ≤ subIndex < 256 →
  (1 ≤ nodeID ≤ 127 →
     ∃ f, SDOUploadRequest nodeID index subIndex = Ok f ∧ serve_upload nodeID f = Some (index, subIndex)) ∧
  (1 ≤ nodeID ≤ 127 ∧ (1 ≤ length value ≤ 4)%nat →
     ∃ f, SDODownloadExpeditedRequest nodeID index subIndex value = Ok f ∧ f_DLC f = 8 ∧
          serve_download nodeID f = Some (index, subIndex, value)) ∧
  (¬ (1 ≤ nodeID ≤ 127 ∧ (1 ≤ length value ≤ 4)%nat) →
     is_Ok (SDODownloadExpeditedRequest nodeID index subIndex value) = false).
Proof. intros. by apply SDO_requests_read. Qed.

Lemma SDO_requests_served_witness :
  ∃ f, SDODownloadExpeditedRequest 5 0x6040 1 [x0f; x00] = Ok f ∧ f_DLC f = 8 ∧
       serve_download 5 f = Some (0x6040, 1, [x0f; x00]).
Proof. apply (SDO_requests_served 5 0x6040 1 [x0f; x00]); simpl; lia. Defined.
