(* ===== verification/SdoMap.v ===== *)
(** * SdoMap: the MeCom to CANopen object map ([mecom/canopen_sdo_map.go])

    The map is built from the catalogue document.  Its JSON decoding belongs to
    [encoding/json]: here [LoadCANopenSDOMap] starts from the decoded document.
    Every check and every table the program derives from it is modelled. *)
From stdpp Require Import prelude gmap strings list.
From Stdlib Require Import Strings.Byte Floats.SpecFloat.
From S2P Require Import Prelude Text Floats Protocol.
Open Scope Z_scope.

(** ** Text of the document *)
Definition to_str (l : bytes) : string := String.string_of_list_byte l.
Definition lower (s : string) : string := to_str (ToLower (str s)).
Definition trim (s : string) : string := to_str (TrimSpace (str s)).
(** [strings.ToLower(strings.TrimSpace(s))]. *)
Definition norm (s : string) : string := lower (trim s).
(** [strings.Contains(s, "w")]. *)
Definition contains_w (s : string) : bool := existsb (λ b, bool_decide (b = "w"%byte)) (str s).

(** ** The decoded document *)
Record canopenInstanceSource := MkInstanceSource {
  is_Mode : string;
  is_Min : Z;
  is_Max : Z;
  is_Fixed : Z }.

Record canopenSDOMappingSource := MkMappingSource {
  ms_MeComID : Z;
  ms_ValueType : DataType;
  ms_Access : string;
  ms_Instances : canopenInstanceSource;
  ms_Index : string;
  ms_Subindex : string;
  ms_SubindexMode : string;
  ms_DataType : string;
  ms_SourceEvidence : list string }.

Record canopenBridgeTransformSource := MkTransformSource {
  ts_MeComID : Z;
  ts_Name : string;
  ts_ValueType : DataType;
  ts_Access : string;
  ts_Instances : canopenInstanceSource;
  ts_Trigger : string;
  ts_Kind : string;
  ts_SourceMeComID : Z;
  ts_Scale : f64;
  ts_Int32Mask : string;
  ts_Int32Value : Z;
  ts_MaxElements : Z;
  ts_CANopenIndexBase : string;
  ts_MetadataFlags : option Z;
  ts_SourceEvidence : list string }.

(** A JSON value of any type: a number, a string, or another one. *)
Inductive json_any := JNumber (v : f64) | JString (s : string) | JOther.

Record canopenUnsupportedSource := MkUnsupportedSource {
  us_ID : json_any;
  us_Reason : string;
  us_BridgeBehavior : string;
  us_SourceEvidence : list string }.

Record canopenCompatibilityProfileParameterSource := MkProfileParameterSource {
  ps_MeComID : Z;
  ps_MaxInstance : Z;
  ps_Translation : string;
  ps_ValueType : DataType;
  ps_Access : string;
  ps_CacheBehavior : string }.

Record canopenCompatibilityProfileSource := MkProfileSource {
  pr_Name : string;
  pr_SourceEvidence : list string;
  pr_Parameters : list canopenCompatibilityProfileParameterSource }.

Record canopenSDOMapSource := MkMapSource {
  SchemaVersion : string;
  Mappings : list canopenSDOMappingSource;
  src_BridgeTransforms : list canopenBridgeTransformSource;
  Unsupported : list canopenUnsupportedSource;
  CompatibilityProfiles : list canopenCompatibilityProfileSource }.

(** ** The map *)
Record CANopenSDOObject := MkObject {
  Index : Z;
  SubIndex : Z;
  o_Kind : DataType;
  o_Writable : bool }.

Record CANopenSDOMapping := MkMapping {
  index : Z;
  kind : DataType;
  writable : bool;
  minInstance : Z;
  maxInstance : Z;
  fixedInstance : Z;
  fixedSubIndex : Z;
  subIndexFromInstance : bool }.

Record BridgeTransform := MkTransform {
  bt_MeComID : Z;
  bt_Name : string;
  bt_Type : DataType;
  bt_Trigger : string;
  bt_Kind : string;
  bt_SourceMeComID : Z;
  bt_Scale : f64;
  bt_Int32Mask : Z;
  bt_Int32Value : Z;
  bt_MaxElements : Z;
  bt_CANopenIndexBase : Z;
  bt_MetadataFlags : option Z;
  bt_Writable : bool;
  bt_MinInstance : Z;
  bt_MaxInstance : Z }.

Record CANopenCompatibilityParameter := MkCompat {
  cp_MeComID : Z;
  cp_MaxInstance : Z;
  cp_Type : DataType;
  cp_Writable : bool;
  cp_Supported : bool;
  cp_Translation : string;
  cp_CacheBehavior : string }.

Record CANopenSDOMap := MkSDOMap {
  byMeComID : gmap Z CANopenSDOMapping;
  bridgeTransform : gmap Z BridgeTransform;
  unsupported : gmap Z string;
  unsupportedBridgeBehavior : gmap Z string;
  compatibilityProfile : gmap string (gmap Z CANopenCompatibilityParameter) }.

Definition TranslationDirectMapping : string := "direct_mapping".
Definition TranslationBridgeTransform : string := "bridge_transform".
Definition TranslationUnsupported : string := "unsupported".
Definition NACKBulkRead : string := "nack_bulk_read".
Definition SerialFallbackRead : string := "serial_fallback_read".
Definition MetadataLiveActual : string := "metadata_live_actual".

(** ** Construction *)
Definition parseCANopenMapNumber (value : string) (bitSize : Z) : res Z :=
  let v := TrimSpace (str value) in
  if HasPrefix (ToLower v) (str "0x") then ParseUint (drop 2 v) 16 bitSize
  else ParseUint v 10 bitSize.

Definition canopenSDOMapDataType (valueType : DataType) (dataTypeCode : string) : res DataType :=
  let t := lower valueType in
  if bool_decide (t = DataTypeInt32) then Ok DataTypeInt32
  else if bool_decide (t = DataTypeFloat32) then Ok DataTypeFloat32
  else if bool_decide (t = DataTypeLatin1) then Ok DataTypeLatin1
  else if bool_decide (t = DataTypeByte) then Ok DataTypeByte
  else
    let c := norm dataTypeCode in
    if bool_decide (c = "0x0002"%string) then Ok DataTypeByte
    else if bool_decide (c = "0x0004"%string) then Ok DataTypeInt32
    else if bool_decide (c = "0x0008"%string) then Ok DataTypeFloat32
    else Err (Errorf "unsupported CANopen data type %q" []).

(** The instance range of the mode [subindex]: zero means the default. *)
Definition subindex_bounds (s : canopenInstanceSource) : res (Z * Z) :=
  let mn := if is_Min s =? 0 then 1 else is_Min s in
  let mx := if is_Max s =? 0 then 0xff else is_Max s in
  if (mn <=? 0) || (0xff <? mx) || (mx <? mn) then
    Err (Errorf "invalid instance range %d..%d" [mn; mx])
  else Ok (mn, mx).

Definition fixed_instance (s : canopenInstanceSource) : res Z :=
  if (is_Fixed s <=? 0) || (0xff <? is_Fixed s) then
    Err (Errorf "invalid fixed instance %d" [is_Fixed s])
  else Ok (is_Fixed s).

Definition buildCANopenSDOMapping (entry : canopenSDOMappingSource) : res CANopenSDOMapping :=
  match parseCANopenMapNumber (ms_Index entry) 16 with
  | Err e => Err (Wrapf "parse CANopen index %q: %w" [] e)
  | Ok idx =>
      k ← canopenSDOMapDataType (ms_ValueType entry) (ms_DataType entry);
      let s := ms_Instances entry in
      let w := contains_w (lower (ms_Access entry)) in
      if bool_decide (lower (is_Mode s) = "fixed"%string) then
        fixed ← fixed_instance s;
        match parseCANopenMapNumber (ms_Subindex entry) 8 with
        | Err e => Err (Wrapf "parse CANopen subindex %q: %w" [] e)
        | Ok sub => Ok (MkMapping (u16 idx) k w (is_Min s) (is_Max s) fixed (u8 sub) false)
        end
      else if bool_decide (lower (is_Mode s) = "subindex"%string) then
        if negb (bool_decide (ms_SubindexMode entry = "instance"%string))
           || negb (bool_decide (ms_Subindex entry = "instance"%string)) then
          Err (Errorf "subindex mapping must use instance subindex" [])
        else '(mn, mx) ← subindex_bounds s; Ok (MkMapping (u16 idx) k w mn mx 0 0 true)
      else Err (Errorf "unknown instance mode %q" [])
  end.

Definition canopenInstanceBounds (s : canopenInstanceSource) : res (Z * Z) :=
  if bool_decide (norm (is_Mode s) = "fixed"%string) then
    fixed ← fixed_instance s; Ok (fixed, fixed)
  else if bool_decide (norm (is_Mode s) = "subindex"%string) then subindex_bounds s
  else Err (Errorf "unknown instance mode %q" []).

(** The checks of one runtime kind, which fill in its own fields. *)
Definition transform_kind (entry : canopenBridgeTransformSource) (t : BridgeTransform) :
    res BridgeTransform :=
  let with_fields mask value elements base :=
    MkTransform (bt_MeComID t) (bt_Name t) (bt_Type t) (bt_Trigger t) (bt_Kind t)
      (bt_SourceMeComID t) (bt_Scale t) mask value elements base (bt_MetadataFlags t)
      (bt_Writable t) (bt_MinInstance t) (bt_MaxInstance t) in
  let is_type ty := bool_decide (bt_Type t = ty) in
  let k := bt_Kind t in
  if bool_decide (k = "synthesize_float32_from_int32"%string) then
    if negb (is_type DataTypeFloat32) then Err (Errorf "synthesized float transform has type %q" [])
    else if bt_SourceMeComID t <=? 0 then Err (Errorf "missing source_mecom_id" [])
    else if feq (bt_Scale t) (S754_zero false) then Err (Errorf "missing scale" [])
    else Ok t
  else if bool_decide (k = "mask_int32"%string) then
    if negb (is_type DataTypeInt32) then Err (Errorf "masked int transform has type %q" [])
    else match parseCANopenMapNumber (ts_Int32Mask entry) 32 with
         | Err e => Err (Wrapf "parse int32_mask %q: %w" [] e)
         | Ok mask => Ok (with_fields (u32 mask) 0 0 0)
         end
  else if bool_decide (k = "latin1_big_data"%string) then
    if negb (is_type DataTypeLatin1) then Err (Errorf "latin1 transform has type %q" []) else Ok t
  else if bool_decide (k = "canopen_pdo_config_bytes"%string) then
    if negb (is_type DataTypeByte) then Err (Errorf "CANopen PDO config transform has type %q" [])
    else if ts_MaxElements entry <=? 0 then Err (Errorf "missing max_elements" [])
    else match parseCANopenMapNumber (ts_CANopenIndexBase entry) 16 with
         | Err e => Err (Wrapf "parse canopen_index_base %q: %w" [] e)
         | Ok base => Ok (with_fields 0 0 (ts_MaxElements entry) (u16 base))
         end
  else if bool_decide (k = "constant_int32"%string) then
    if negb (is_type DataTypeInt32) then Err (Errorf "constant int transform has type %q" [])
    else Ok (with_fields 0 (ts_Int32Value entry) 0 0)
  else if bool_decide (k = "virtual_parameter"%string) then
    if is_type DataTypeInt32 || is_type DataTypeFloat32 || is_type DataTypeLatin1 then Ok t
    else Err (Errorf "virtual parameter transform has type %q" [])
  else Err (Errorf "unknown runtime kind %q" []).

Definition buildCANopenBridgeTransform (entry : canopenBridgeTransformSource) : res BridgeTransform :=
  if bool_decide (trim (ts_Name entry) = ""%string) then Err (Errorf "missing name" [])
  else if bool_decide (trim (ts_Trigger entry) = ""%string) then Err (Errorf "missing trigger" [])
  else
    typ ← canopenSDOMapDataType (ts_ValueType entry) "";
    '(mn, mx) ← canopenInstanceBounds (ts_Instances entry);
    let t flags := MkTransform (ts_MeComID entry) (ts_Name entry) typ (ts_Trigger entry)
               (trim (ts_Kind entry)) (ts_SourceMeComID entry) (ts_Scale entry) 0 0 0 0 flags
               (contains_w (lower (ts_Access entry))) mn mx in
    match ts_MetadataFlags entry with
    | Some flags =>
        if (flags <? 0) || (0xff <? flags) then Err (Errorf "invalid metadata_flags %d" [flags])
        else transform_kind entry (t (Some (u8 flags)))
    | None => transform_kind entry (t None)
    end.

Definition parseCANopenUnsupportedID (value : json_any) : res (Z * bool) :=
  match value with
  | JNumber v =>
      let id := to_int v in
      if (id <=? 0) || negb (feq (of_int id) v) then
        Err (Errorf "invalid unsupported MeCom ID %v" [])
      else Ok (id, true)
  | JString s =>
      match Atoi (TrimSpace (str s)) with
      | None => Ok (0, false)
      | Some id => if id <=? 0 then Err (Errorf "invalid unsupported MeCom ID %v" []) else Ok (id, true)
      end
  | JOther => Ok (0, false)
  end.

Definition resolveCANopenCompatibilityProfileParameter (m : CANopenSDOMap)
    (param : canopenCompatibilityProfileParameterSource) : res CANopenCompatibilityParameter :=
  let id := ps_MeComID param in
  '(typ, wr, supported, translation) ←
    match bridgeTransform m !! id with
    | Some t => Ok (bt_Type t, bt_Writable t, true, TranslationBridgeTransform)
    | None =>
        match byMeComID m !! id with
        | Some mapping => Ok (kind mapping, writable mapping, true, TranslationDirectMapping)
        | None =>
            match unsupported m !! id with
            | Some _ => Ok (""%string, false, false, TranslationUnsupported)
            | None => Err (Errorf "compatibility profile %q MeCom ID %d has no direct mapping, bridge transform, or unsupported declaration" [id])
            end
        end
    end;
  let tr := norm (ps_Translation param) in
  if negb (bool_decide (tr = ""%string)) && negb (bool_decide (tr = translation)) then
    Err (Errorf "compatibility profile %q MeCom ID %d translation %q does not match resolved %q" [id])
  else
    typ ← (if bool_decide (ps_ValueType param = ""%string) then Ok typ
           else match canopenSDOMapDataType (ps_ValueType param) "" with
                | Err e => Err (Wrapf "compatibility profile %q MeCom ID %d value_type: %w" [id] e)
                | Ok ty =>
                    if supported && negb (bool_decide (ty = typ)) then
                      Err (Errorf "compatibility profile %q MeCom ID %d value_type %q does not match resolved %q" [id])
                    else Ok ty
                end);
    let access := norm (ps_Access param) in
    let wr := if bool_decide (access = ""%string) then wr else contains_w access in
    let cache := norm (ps_CacheBehavior param) in
    if bool_decide (cache = ""%string) then
      Ok (MkCompat id (ps_MaxInstance param) typ wr supported translation "")
    else if bool_decide (cache = MetadataLiveActual) then
      if negb supported then
        Err (Errorf "compatibility profile %q MeCom ID %d cache behavior %q requires a supported parameter" [id])
      else Ok (MkCompat id (ps_MaxInstance param) typ wr supported translation cache)
    else Err (Errorf "compatibility profile %q MeCom ID %d has unknown cache behavior %q" [id]).

(** *** The loops of the loader *)
Definition load_mapping (m : gmap Z CANopenSDOMapping) (entry : canopenSDOMappingSource) :
    res (gmap Z CANopenSDOMapping) :=
  let id := ms_MeComID entry in
  if id <=? 0 then Err (Errorf "invalid MeCom ID %d" [id])
  else match m !! id with
       | Some _ => Err (Errorf "duplicate MeCom ID %d" [id])
       | None =>
           if (length (ms_SourceEvidence entry) =? 0)%nat then
             Err (Errorf "MeCom ID %d has no source evidence" [id])
           else match buildCANopenSDOMapping entry with
                | Err e => Err (Wrapf "MeCom ID %d: %w" [id] e)
                | Ok mapping => Ok (<[id := mapping]> m)
                end
       end.

Definition load_transform (m : gmap Z BridgeTransform) (entry : canopenBridgeTransformSource) :
    res (gmap Z BridgeTransform) :=
  let id := ts_MeComID entry in
  if id <=? 0 then Err (Errorf "invalid bridge transform MeCom ID %d" [id])
  else match m !! id with
       | Some _ => Err (Errorf "duplicate bridge transform MeCom ID %d" [id])
       | None =>
           if (length (ts_SourceEvidence entry) =? 0)%nat then
             Err (Errorf "bridge transform MeCom ID %d has no source evidence" [id])
           else match buildCANopenBridgeTransform entry with
                | Err e => Err (Wrapf "bridge transform MeCom ID %d: %w" [id] e)
                | Ok t => Ok (<[id := t]> m)
                end
       end.

Definition load_unsupported (st : gmap Z string * gmap Z string) (entry : canopenUnsupportedSource) :
    res (gmap Z string * gmap Z string) :=
  let '(un, behaviors) := st in
  '(id, numeric) ← parseCANopenUnsupportedID (us_ID entry);
  if negb numeric then Ok st
  else if bool_decide (trim (us_Reason entry) = ""%string) then
    Err (Errorf "unsupported MeCom ID %d has no reason" [id])
  else if (length (us_SourceEvidence entry) =? 0)%nat then
    Err (Errorf "unsupported MeCom ID %d has no source evidence" [id])
  else
    let un := <[id := us_Reason entry]> un in
    let behavior := norm (us_BridgeBehavior entry) in
    if bool_decide (behavior = ""%string) then Ok (un, behaviors)
    else if bool_decide (behavior = NACKBulkRead) || bool_decide (behavior = SerialFallbackRead) then
      Ok (un, <[id := behavior]> behaviors)
    else Err (Errorf "unsupported MeCom ID %d has unknown bridge behavior %q" [id]).

Definition load_profile_parameter (m : CANopenSDOMap) (params : gmap Z CANopenCompatibilityParameter)
    (param : canopenCompatibilityProfileParameterSource) : res (gmap Z CANopenCompatibilityParameter) :=
  let id := ps_MeComID param in
  if id <=? 0 then Err (Errorf "compatibility profile %q has invalid MeCom ID %d" [id])
  else if (ps_MaxInstance param <=? 0) || (0xff <? ps_MaxInstance param) then
    Err (Errorf "compatibility profile %q MeCom ID %d has invalid max instance %d" [id; ps_MaxInstance param])
  else match params !! id with
       | Some _ => Err (Errorf "compatibility profile %q has duplicate MeCom ID %d" [id])
       | None => p ← resolveCANopenCompatibilityProfileParameter m param; Ok (<[id := p]> params)
       end.

Definition load_profile (m : CANopenSDOMap) (profile : canopenCompatibilityProfileSource) :
    res CANopenSDOMap :=
  let name := norm (pr_Name profile) in
  if bool_decide (name = ""%string) then Err (Errorf "compatibility profile has no name" [])
  else match compatibilityProfile m !! name with
       | Some _ => Err (Errorf "duplicate compatibility profile %q" [])
       | None =>
           if (length (pr_SourceEvidence profile) =? 0)%nat then
             Err (Errorf "compatibility profile %q has no source evidence" [])
           else
             params ← mfold (load_profile_parameter m) ∅ (pr_Parameters profile);
             Ok (MkSDOMap (byMeComID m) (bridgeTransform m) (unsupported m)
                   (unsupportedBridgeBehavior m) (<[name := params]> (compatibilityProfile m)))
       end.

Definition LoadCANopenSDOMap (source : canopenSDOMapSource) : res CANopenSDOMap :=
  if negb (HasSuffix (str (SchemaVersion source)) (str "_canopen_sdo_map.v1")) then
    Err (Errorf "unexpected CANopen SDO map schema %q" [])
  else
    mappings ← mfold load_mapping ∅ (Mappings source);
    transforms ← mfold load_transform ∅ (src_BridgeTransforms source);
    '(un, behaviors) ← mfold load_unsupported (∅, ∅) (Unsupported source);
    mfold load_profile (MkSDOMap mappings transforms un behaviors ∅) (CompatibilityProfiles source).

(** ** Queries *)
Definition ObjectForMeCom (m : CANopenSDOMap) (paramID instance : Z) : option CANopenSDOObject :=
  if (instance <=? 0) || (0xff <? instance) then None
  else
    match byMeComID m !! paramID with
    | None => None
    | Some mapping =>
        let object sub := MkObject (index mapping) sub (kind mapping) (writable mapping) in
        if subIndexFromInstance mapping then
          if (instance <? minInstance mapping) || (maxInstance mapping <? instance) then None
          else Some (object (u8 instance))
        else if negb (instance =? fixedInstance mapping) then None
        else Some (object (fixedSubIndex mapping))
    end.

Definition ParameterTypes (m : CANopenSDOMap) : gmap Z DataType := kind <$> byMeComID m.
Definition ParameterType (m : CANopenSDOMap) (id : Z) : option DataType := kind <$> (byMeComID m !! id).
Definition ParameterMaxInstances (m : CANopenSDOMap) : gmap Z Z :=
  (λ mapping, if subIndexFromInstance mapping then maxInstance mapping else 1) <$> byMeComID m.
Definition ParameterWritability (m : CANopenSDOMap) : gmap Z bool := writable <$> byMeComID m.
Definition BridgeTransforms (m : CANopenSDOMap) : gmap Z BridgeTransform := bridgeTransform m.
Definition UnsupportedParameterIDs (m : CANopenSDOMap) : gmap Z string := unsupported m.
Definition UnsupportedParameterBridgeBehavior (m : CANopenSDOMap) : gmap Z string :=
  unsupportedBridgeBehavior m.

(** The final loop of the compatibility tables: an unsupported number is dropped
    unless a transform gave it its value.  The loops over one map visit distinct
    keys, so they are written as operations on whole maps. *)
Definition drop_unsupported {A} (m : CANopenSDOMap) (ids : gmap Z A) (out : gmap Z A) : gmap Z A :=
  filter (λ kv, is_Some (unsupported m !! kv.1) → is_Some (ids !! kv.1)) out.

Definition CompatibilityParameterTypes (m : CANopenSDOMap) : gmap Z DataType :=
  let typed := omap (λ t, if bool_decide (bt_Type t = ""%string) then None else Some (bt_Type t))
                 (bridgeTransform m) in
  drop_unsupported m typed (typed ∪ ParameterTypes m).

Definition CompatibilityParameterWritability (m : CANopenSDOMap) : gmap Z bool :=
  let flags := bt_Writable <$> bridgeTransform m in
  drop_unsupported m flags (flags ∪ ParameterWritability m).

(** One entry of a profile in the loop over all profiles. *)
Definition compat_max_step (out : gmap Z Z) (ip : Z * CANopenCompatibilityParameter) : gmap Z Z :=
  let '(id, param) := ip in
  if negb (cp_Supported param) || (cp_MaxInstance param <=? 0) then out
  else
    match out !! id with
    | Some current =>
        if (0 <? current) && (current <? cp_MaxInstance param) then out
        else <[id := cp_MaxInstance param]> out
    | None => <[id := cp_MaxInstance param]> out
    end.
Definition profile_entries (m : CANopenSDOMap) : list (Z * CANopenCompatibilityParameter) :=
  '(_, params) ← map_to_list (compatibilityProfile m); map_to_list params.

Definition CompatibilityParameterMaxInstances_of (m : CANopenSDOMap)
    (entries : list (Z * CANopenCompatibilityParameter)) : gmap Z Z :=
  let capped := omap (λ t, if bt_MaxInstance t <=? 0 then None else Some (bt_MaxInstance t))
                  (bridgeTransform m) in
  drop_unsupported m capped (fold_left compat_max_step entries (capped ∪ ParameterMaxInstances m)).
Definition CompatibilityParameterMaxInstances (m : CANopenSDOMap) : gmap Z Z :=
  CompatibilityParameterMaxInstances_of m (profile_entries m).

Definition compat_cache_step (out : gmap Z string) (ip : Z * CANopenCompatibilityParameter) :
    gmap Z string :=
  let '(id, param) := ip in
  if negb (cp_Supported param) || bool_decide (cp_CacheBehavior param = ""%string) then out
  else <[id := cp_CacheBehavior param]> out.
Definition CompatibilityParameterCacheBehaviors (m : CANopenSDOMap) : gmap Z string :=
  fold_left compat_cache_step (profile_entries m) ∅.

Definition CompatibilityProfile (m : CANopenSDOMap) (name : string) :
    gmap Z CANopenCompatibilityParameter :=
  default ∅ (compatibilityProfile m !! norm name).
Definition CompatibilityProfileParameterTypes (m : CANopenSDOMap) (name : string) : gmap Z DataType :=
  omap (λ p, if negb (cp_Supported p) || bool_decide (cp_Type p = ""%string) then None
             else Some (cp_Type p)) (CompatibilityProfile m name).
Definition CompatibilityProfileParameterMaxInstances (m : CANopenSDOMap) (name : string) : gmap Z Z :=
  omap (λ p, if negb (cp_Supported p) || (cp_MaxInstance p <=? 0) then None
             else Some (cp_MaxInstance p)) (CompatibilityProfile m name).
Definition CompatibilityProfileParameterWritability (m : CANopenSDOMap) (name : string) : gmap Z bool :=
  omap (λ p, if negb (cp_Supported p) then None else Some (cp_Writable p)) (CompatibilityProfile m name).
Definition CoSoCompatibilityParameters (m : CANopenSDOMap) := CompatibilityProfile m "coso".
Definition CoSoCompatibilityParameterTypes (m : CANopenSDOMap) :=
  CompatibilityProfileParameterTypes m "coso".
Definition CoSoCompatibilityParameterMaxInstances (m : CANopenSDOMap) :=
  CompatibilityProfileParameterMaxInstances m "coso".
Definition CoSoCompatibilityParameterWritability (m : CANopenSDOMap) :=
  CompatibilityProfileParameterWritability m "coso".

(** ** Well-formed maps *)
Definition data_type (t : DataType) : Prop :=
  t = DataTypeInt32 ∨ t = DataTypeFloat32 ∨ t = DataTypeLatin1 ∨ t = DataTypeByte.

Definition mapping_wf (id : Z) (mp : CANopenSDOMapping) : Prop :=
  0 < id ∧ 0 ≤ index mp < 65536 ∧ data_type (kind mp) ∧
  if subIndexFromInstance mp then 1 ≤ minInstance mp ≤ maxInstance mp ∧ maxInstance mp ≤ 255
  else 1 ≤ fixedInstance mp ≤ 255 ∧ 0 ≤ fixedSubIndex mp < 256.

Definition transform_wf (id : Z) (t : BridgeTransform) : Prop :=
  0 < id ∧ bt_MeComID t = id ∧ data_type (bt_Type t) ∧
  1 ≤ bt_MinInstance t ≤ bt_MaxInstance t ∧ bt_MaxInstance t ≤ 255.

Definition compat_wf (m : CANopenSDOMap) (id : Z) (p : CANopenCompatibilityParameter) : Prop :=
  0 < id ∧ cp_MeComID p = id ∧ 1 ≤ cp_MaxInstance p ≤ 255 ∧
  (cp_Supported p = true ↔ is_Some (bridgeTransform m !! id) ∨ is_Some (byMeComID m !! id)) ∧
  (cp_Supported p = false → is_Some (unsupported m !! id)) ∧
  (cp_CacheBehavior p ≠ ""%string → cp_Supported p = true).

Record map_wf (m : CANopenSDOMap) : Prop := MkMapWf {
  wf_mappings : map_Forall mapping_wf (byMeComID m);
  wf_transforms : map_Forall transform_wf (bridgeTransform m);
  wf_behaviors : map_Forall (λ id b, is_Some (unsupported m !! id) ∧
                               (b = NACKBulkRead ∨ b = SerialFallbackRead)) (unsupportedBridgeBehavior m);
  wf_profiles : map_Forall (λ _ params, map_Forall (compat_wf m) params) (compatibilityProfile m) }.

Lemma canopenSDOMapDataType_wf v c t : canopenSDOMapDataType v c = Ok t → data_type t.
Proof. unfold canopenSDOMapDataType, data_type. intros H. repeat case_in H; inv_result; auto. Qed.

Lemma fixed_instance_range s z : fixed_instance s = Ok z → 1 ≤ z ≤ 255.
Proof.
  unfold fixed_instance. destruct (_ || _) eqn:E; [done|]. intros [= <-].
  apply orb_false_iff in E as [E1%Z.leb_gt E2%Z.ltb_ge]. lia.
Qed.

Lemma subindex_bounds_range s mn mx : subindex_bounds s = Ok (mn, mx) → 1 ≤ mn ≤ mx ∧ mx ≤ 255.
Proof.
  unfold subindex_bounds. cbv zeta. destruct (_ || _ || _) eqn:E; [done|]. intros H. injection H as <- <-.
  rewrite !orb_false_iff, Z.leb_gt, !Z.ltb_ge in E. lia.
Qed.

Lemma buildCANopenSDOMapping_wf e mp : 0 < ms_MeComID e → buildCANopenSDOMapping e = Ok mp →
  mapping_wf (ms_MeComID e) mp.
Proof.
  intros Hid H. unfold buildCANopenSDOMapping in H.
  destruct (parseCANopenMapNumber (ms_Index e) 16) as [idx|]; [|done].
  apply bind_Ok_inv in H as (k & Hk & H). apply canopenSDOMapDataType_wf in Hk. cbv zeta in H.
  destruct (bool_decide (_ = "fixed"%string)).
  - apply bind_Ok_inv in H as (fx & Hf & H). apply fixed_instance_range in Hf.
    destruct (parseCANopenMapNumber (ms_Subindex e) 8) as [sub|]; [|done]. injection H as <-.
    pose proof (u16_range idx). pose proof (u8_range sub). split_and!; simpl; done || lia.
  - destruct (bool_decide (_ = "subindex"%string)); [|done]. destruct (_ || _); [done|].
    apply bind_Ok_inv in H as ([mn mx] & Hb & H). apply subindex_bounds_range in Hb.
    injection H as <-. pose proof (u16_range idx). split_and!; simpl; done || lia.
Qed.

Lemma canopenInstanceBounds_range s mn mx : canopenInstanceBounds s = Ok (mn, mx) →
  1 ≤ mn ≤ mx ∧ mx ≤ 255.
Proof.
  unfold canopenInstanceBounds. destruct (bool_decide _).
  - intros H. apply bind_Ok_inv in H as (fx & Hf & H). apply fixed_instance_range in Hf.
    injection H as <- <-. lia.
  - destruct (bool_decide _); [apply subindex_bounds_range|done].
Qed.

Lemma transform_kind_keeps e t t' : transform_kind e t = Ok t' →
  bt_MeComID t' = bt_MeComID t ∧ bt_Type t' = bt_Type t ∧ bt_MinInstance t' = bt_MinInstance t ∧
  bt_MaxInstance t' = bt_MaxInstance t.
Proof.
  unfold transform_kind. cbv zeta. intros H. repeat case_in H; inv_result; done.
Qed.

Lemma buildCANopenBridgeTransform_wf e t : 0 < ts_MeComID e → buildCANopenBridgeTransform e = Ok t →
  transform_wf (ts_MeComID e) t.
Proof.
  intros Hid H. unfold buildCANopenBridgeTransform in H.
  destruct (bool_decide _); [done|]. destruct (bool_decide _); [done|].
  apply bind_Ok_inv in H as (typ & Ht & H). apply canopenSDOMapDataType_wf in Ht.
  apply bind_Ok_inv in H as ([mn mx] & Hb & H). apply canopenInstanceBounds_range in Hb.
  assert (Hgo : ∀ flags, transform_kind e (MkTransform (ts_MeComID e) (ts_Name e) typ (ts_Trigger e)
      (trim (ts_Kind e)) (ts_SourceMeComID e) (ts_Scale e) 0 0 0 0 flags
      (contains_w (lower (ts_Access e))) mn mx) = Ok t → transform_wf (ts_MeComID e) t).
  { intros flags Hk. apply transform_kind_keeps in Hk as (H1 & H2 & H3 & H4). simpl in *.
    unfold transform_wf. rewrite H1, H2, H3, H4. split_and!; done || lia. }
  cbv zeta in H. destruct (ts_MetadataFlags e) as [flags|]; [|by eapply Hgo].
  destruct (_ || _); [done|by eapply Hgo].
Qed.

Lemma load_mapping_wf m e m' : map_Forall mapping_wf m → load_mapping m e = Ok m' →
  map_Forall mapping_wf m'.
Proof.
  intros Hm H. unfold load_mapping in H. cbv zeta in H.
  destruct (Z.leb_spec (ms_MeComID e) 0); [done|]. destruct (m !! ms_MeComID e); [done|].
  destruct (_ =? 0)%nat; [done|]. destruct (buildCANopenSDOMapping e) as [mp|] eqn:E; [|done].
  injection H as <-. apply map_Forall_insert_2; [|done]. apply buildCANopenSDOMapping_wf in E; [done|lia].
Qed.

Lemma load_transform_wf m e m' : map_Forall transform_wf m → load_transform m e = Ok m' →
  map_Forall transform_wf m'.
Proof.
  intros Hm H. unfold load_transform in H. cbv zeta in H.
  destruct (Z.leb_spec (ts_MeComID e) 0); [done|]. destruct (m !! ts_MeComID e); [done|].
  destruct (_ =? 0)%nat; [done|]. destruct (buildCANopenBridgeTransform e) as [t|] eqn:E; [|done].
  injection H as <-. apply map_Forall_insert_2; [|done]. apply buildCANopenBridgeTransform_wf in E; [done|lia].
Qed.

Definition behaviors_wf (st : gmap Z string * gmap Z string) : Prop :=
  map_Forall (λ id b, is_Some (st.1 !! id) ∧ (b = NACKBulkRead ∨ b = SerialFallbackRead)) st.2.

Lemma load_unsupported_wf st e st' : behaviors_wf st → load_unsupported st e = Ok st' → behaviors_wf st'.
Proof.
  destruct st as [un bs]. intros Hm H. unfold load_unsupported in H.
  apply bind_Ok_inv in H as ([id numeric] & _ & H). destruct numeric; [|by injection H as <-].
  cbn [negb] in H. destruct (bool_decide (trim _ = _)); [done|].
  destruct (length (us_SourceEvidence e) =? 0)%nat; [done|]. cbv zeta in H.
  assert (Hun : map_Forall (λ i b, is_Some (<[id := us_Reason e]> un !! i) ∧
                  (b = NACKBulkRead ∨ b = SerialFallbackRead)) bs).
  { eapply map_Forall_impl; [exact Hm|]. intros i b [Hi Hb]. split; [|done].
    by apply lookup_insert_is_Some'; right. }
  destruct (bool_decide_reflect (norm (us_BridgeBehavior e) = ""%string)); [by injection H as <-|].
  destruct (bool_decide_reflect (norm (us_BridgeBehavior e) = NACKBulkRead)) as [Hb|];
    [|destruct (bool_decide_reflect (norm (us_BridgeBehavior e) = SerialFallbackRead)) as [Hb|]; [|done]];
    cbn [orb] in H; injection H as <-; apply map_Forall_insert_2; simpl; auto;
    rewrite lookup_insert_eq; split; eauto.
Qed.

Lemma resolve_wf m p c : 0 < ps_MeComID p → 1 ≤ ps_MaxInstance p ≤ 255 →
  resolveCANopenCompatibilityProfileParameter m p = Ok c → compat_wf m (ps_MeComID p) c.
Proof.
  intros Hid Hmax H. unfold resolveCANopenCompatibilityProfileParameter in H. cbv zeta in H.
  apply bind_Ok_inv in H as ([[[typ wr] supported] translation] & Hres & H).
  assert (Hsup : (supported = true ↔ is_Some (bridgeTransform m !! ps_MeComID p) ∨
                                     is_Some (byMeComID m !! ps_MeComID p)) ∧
                 (supported = false → is_Some (unsupported m !! ps_MeComID p))).
  { destruct (bridgeTransform m !! ps_MeComID p) as [t|].
    { injection Hres as <- <- <- <-. split; [|done]. split; [intros _; left; eauto|intros _; reflexivity]. }
    destruct (byMeComID m !! ps_MeComID p) as [mp|].
    { injection Hres as <- <- <- <-. split; [|done]. split; [intros _; right; eauto|intros _; reflexivity]. }
    destruct (unsupported m !! ps_MeComID p) as [r|]; [|done].
    injection Hres as <- <- <- <-. split; [|eauto].
    split; [discriminate|]. intros [[x Hx]|[x Hx]]; discriminate. }
  destruct (negb _ && negb _); [done|]. apply bind_Ok_inv in H as (ty & _ & H).
  destruct (bool_decide_reflect (norm (ps_CacheBehavior p) = ""%string)).
  - injection H as <-. unfold compat_wf. simpl. by destruct Hsup.
  - destruct (bool_decide _); [|done]. destruct supported; [|done]. injection H as <-.
    unfold compat_wf. simpl. by destruct Hsup.
Qed.

Lemma load_profile_wf m pr m' : map_wf m → load_profile m pr = Ok m' →
  map_wf m' ∧ bridgeTransform m' = bridgeTransform m ∧ byMeComID m' = byMeComID m ∧
  unsupported m' = unsupported m.
Proof.
  intros Hm H. unfold load_profile in H. cbv zeta in H. destruct (bool_decide _); [done|].
  destruct (compatibilityProfile m !! _); [done|]. destruct (_ =? 0)%nat; [done|].
  apply bind_Ok_inv in H as (params & Hp & H). injection H as <-. simpl. split; [|done].
  assert (Hps : map_Forall (compat_wf m) params).
  { revert Hp. apply mfold_inv; [|apply map_Forall_empty]. intros ps p ps' Hps H.
    unfold load_profile_parameter in H. cbv zeta in H.
    destruct (Z.leb_spec (ps_MeComID p) 0); [done|].
    destruct (Z.leb_spec (ps_MaxInstance p) 0); [done|].
    destruct (Z.ltb_spec 0xff (ps_MaxInstance p)); [done|]. cbn [orb] in H.
    destruct (ps !! ps_MeComID p); [done|]. apply bind_Ok_inv in H as (c & Hc & H). injection H as <-.
    apply map_Forall_insert_2; [|done]. apply resolve_wf in Hc; [done|lia|lia]. }
  destruct Hm. split; simpl; try done. apply map_Forall_insert_2; [exact Hps|].
  intros n ps Hps'. exact (wf_profiles0 n ps Hps').
Qed.

Lemma LoadCANopenSDOMap_map_wf source m : LoadCANopenSDOMap source = Ok m → map_wf m.
Proof.
  intros H. unfold LoadCANopenSDOMap in H. destruct (negb _); [done|].
  apply bind_Ok_inv in H as (mappings & Hmap & H). apply bind_Ok_inv in H as (transforms & Htr & H).
  apply bind_Ok_inv in H as ([un bs] & Hun & H).
  revert H. apply mfold_inv; [intros x pr x' Hx Hl; by apply load_profile_wf in Hl as [? _]|].
  split; simpl.
  - revert Hmap. apply mfold_inv; [by apply load_mapping_wf|apply map_Forall_empty].
  - revert Htr. apply mfold_inv; [by apply load_transform_wf|apply map_Forall_empty].
  - apply (mfold_inv behaviors_wf) in Hun; [exact Hun|by apply load_unsupported_wf|apply map_Forall_empty].
  - apply map_Forall_empty.
Qed.

(** ** Properties *)

(** A catalogue that loads is well formed.  Whatever the document, when the
    loader accepts it every mapping has a positive number, a 16-bit index, a known
    type and an instance range inside 1..255; every bridge transform too; every
    behavior hint belongs to an unsupported number; and a profile entry has an
    instance count in 1..255 and is marked supported exactly when a transform or
    a mapping backs it, otherwise it is declared unsupported. *)
Theorem LoadCANopenSDOMap_wf (source : canopenSDOMapSource) (m : CANopenSDOMap) :
  LoadCANopenSDOMap source = Ok m →
  (∀ id mp, byMeComID m !! id = Some mp → mapping_wf id mp) ∧
  (∀ id t, bridgeTransform m !! id = Some t → transform_wf id t) ∧
  (∀ id b, unsupportedBridgeBehavior m !! id = Some b → is_Some (unsupported m !! id)) ∧
  (∀ name params id p, compatibilityProfile m !! name = Some params → params !! id = Some p →
     compat_wf m id p).
Proof.
  intros H. apply LoadCANopenSDOMap_map_wf in H as [Hm Ht Hb Hp]. split_and!.
  - exact Hm.
  - exact Ht.
  - intros id b Hid. by apply Hb in Hid as [? _].
  - intros name params id p Hn Hid. by apply (Hp name params Hn).
Qed.

Definition example_source : canopenSDOMapSource :=
  MkMapSource "tec_canopen_sdo_map.v1"
    [MkMappingSource 1000 "float32" "ro" (MkInstanceSource "subindex" 0 4 0) "0x2100" "instance" "instance" "" ["m"];
     MkMappingSource 2010 "" "rw" (MkInstanceSource "fixed" 0 0 1) "8464" "0x03" "" "0x0004" ["m"]]
    [MkTransformSource 52100 "pdo" "INT32" "rw" (MkInstanceSource "fixed" 0 0 1) "write" "virtual_parameter"
       0 (S754_zero false) "" 0 0 "" None ["m"]]
    [MkUnsupportedSource (JString " 6300 ") "no object" "nack_bulk_read" ["m"]]
    [MkProfileSource "CoSo" ["m"]
       [MkProfileParameterSource 1000 2 "" "" "" "metadata_live_actual";
        MkProfileParameterSource 6300 1 "unsupported" "" "" ""]].

Lemma LoadCANopenSDOMap_wf_witness :
  match LoadCANopenSDOMap example_source with
  | Ok m => ∃ mp, byMeComID m !! 1000 = Some mp ∧ mapping_wf 1000 mp
  | Err _ => False
  end.
Proof.
  destruct (LoadCANopenSDOMap example_source) as [m|e] eqn:E; [|vm_compute in E; discriminate].
  destruct (LoadCANopenSDOMap_wf example_source m E) as [H _].
  destruct (byMeComID m !! 1000) as [mp|] eqn:Hm; [by exists mp; auto|].
  vm_compute in E. injection E as <-. vm_compute in Hm. discriminate.
Defined.

(** *** The order in which Go ranges over the profiles does not matter *)
Lemma compat_max_step_comm out x y :
  compat_max_step (compat_max_step out x) y = compat_max_step (compat_max_step out y) x.
Proof.
  destruct x as [i p], y as [j q]. unfold compat_max_step.
  destruct (negb (cp_Supported p) || (cp_MaxInstance p <=? 0)) eqn:Hp;
    destruct (negb (cp_Supported q) || (cp_MaxInstance q <=? 0)) eqn:Hq; try done.
  apply orb_false_iff in Hp as [_ Hp%Z.leb_gt]. apply orb_false_iff in Hq as [_ Hq%Z.leb_gt].
  set (a := cp_MaxInstance p) in *. set (b := cp_MaxInstance q) in *. clearbody a b.
  destruct (decide (i = j)) as [<-|Hij].
  - destruct (out !! i) as [c|] eqn:Hc; [destruct (Z.ltb_spec 0 c)|];
      repeat (rewrite ?Hc, ?lookup_insert_eq; cbn [andb];
        match goal with
        | |- context [?u <? ?v] => destruct (Z.ltb_spec u v)
        | _ => idtac
        end); try done; try lia; rewrite ?insert_insert_eq; try done; f_equal; lia.
  - assert (Hji : j ≠ i) by done.
    destruct (out !! i) as [c|] eqn:Hc; destruct (out !! j) as [d|] eqn:Hd;
      repeat match goal with
      | |- context [if ?u && ?v then _ else _] => destruct (u && v) eqn:?
      end; rewrite ?lookup_insert_ne, ?Hc, ?Hd by done;
      repeat match goal with H : _ && _ = _ |- _ => rewrite H end; try done;
      by rewrite insert_insert_ne.
Qed.

Lemma compat_max_fold_permutation l l' out : l ≡ₚ l' →
  fold_left compat_max_step l out = fold_left compat_max_step l' out.
Proof.
  intros H. revert out. induction H as [|x l l' _ IH|x y l|l1 l2 l3 _ IH1 _ IH2]; intros out; simpl.
  - done.
  - apply IH.
  - by rewrite compat_max_step_comm.
  - by rewrite IH1.
Qed.

Definition capped_at (id n : Z) (out : gmap Z Z) : Prop := ∃ c, out !! id = Some c ∧ 0 < c ≤ n.

Lemma compat_max_step_caps out id p : cp_Supported p = true → 0 < cp_MaxInstance p →
  capped_at id (cp_MaxInstance p) (compat_max_step out (id, p)).
Proof.
  intros Hs Hp. unfold compat_max_step, capped_at. rewrite Hs. destruct (Z.leb_spec (cp_MaxInstance p) 0); [lia|].
  cbn [negb orb]. destruct (out !! id) as [c|] eqn:Hc.
  - destruct (Z.ltb_spec 0 c); destruct (Z.ltb_spec c (cp_MaxInstance p)); cbn [andb];
      rewrite ?lookup_insert_eq; eexists; split; try done; lia.
  - rewrite lookup_insert_eq. eexists; split; [done|lia].
Qed.

Lemma compat_max_step_keeps_cap out id n e : capped_at id n out → capped_at id n (compat_max_step out e).
Proof.
  destruct e as [j q]. intros (c & Hc & Hcn). unfold compat_max_step, capped_at.
  destruct (_ || _) eqn:E; [eauto|]. apply orb_false_iff in E as [_ E%Z.leb_gt].
  destruct (decide (j = id)) as [->|Hj].
  - rewrite Hc. destruct (Z.ltb_spec 0 c); [|lia].
    destruct (Z.ltb_spec c (cp_MaxInstance q)); cbn [andb]; [eauto|].
    rewrite lookup_insert_eq. eexists; split; [done|lia].
  - destruct (out !! j); [destruct (_ && _); [by eauto|]|]; rewrite lookup_insert_ne by done; eauto.
Qed.

(** The instance limits of the CANopen bridge are deterministic.  Go ranges
    over the profiles and their entries in an unspecified order; every order
    gives the same table, and what it gives for a number is at most what any
    profile that supports the number allows. *)
Theorem CompatibilityParameterMaxInstances_order (m : CANopenSDOMap)
    (entries : list (Z * CANopenCompatibilityParameter)) (id n : Z)
    (p : CANopenCompatibilityParameter) :
  entries ≡ₚ profile_entries m →
  CompatibilityParameterMaxInstances_of m entries = CompatibilityParameterMaxInstances m ∧
  ((id, p) ∈ entries → cp_Supported p = true → 0 < cp_MaxInstance p →
   CompatibilityParameterMaxInstances m !! id = Some n → 0 < n ≤ cp_MaxInstance p).
Proof.
  intros Hperm. unfold CompatibilityParameterMaxInstances, CompatibilityParameterMaxInstances_of.
  rewrite (compat_max_fold_permutation entries (profile_entries m)) by done. split; [done|].
  rewrite Hperm. generalize (profile_entries m). intros l Hin Hs Hmax Hn.
  unfold drop_unsupported in Hn. apply map_lookup_filter_Some in Hn as [Hn _].
  apply list_elem_of_split in Hin as (l1 & l2 & ->).
  rewrite fold_left_app in Hn. cbn [fold_left] in Hn. revert Hn.
  generalize (compat_max_step_caps (fold_left compat_max_step l1 (omap (λ t : BridgeTransform,
    if bt_MaxInstance t <=? 0 then None else Some (bt_MaxInstance t)) (bridgeTransform m) ∪
    ParameterMaxInstances m)) id p Hs Hmax).
  generalize (compat_max_step (fold_left compat_max_step l1 (omap (λ t : BridgeTransform,
    if bt_MaxInstance t <=? 0 then None else Some (bt_MaxInstance t)) (bridgeTransform m) ∪
    ParameterMaxInstances m)) (id, p)).
  induction l2 as [|e l2 IH]; intros out Hcap; simpl.
  - destruct Hcap as (c & Hc & ?). rewrite Hc. intros [= <-]. lia.
  - apply IH. by apply compat_max_step_keeps_cap.
Qed.

Definition two_profiles : CANopenSDOMap :=
  let param n := MkCompat 1000 n DataTypeFloat32 false true TranslationDirectMapping "" in
  MkSDOMap {[1000 := MkMapping 0x2100 DataTypeFloat32 false 1 255 0 0 true]} ∅ ∅ ∅
    {["a"%string := {[1000 := param 4]}; "b"%string := {[1000 := param 2]}]}.

Lemma CompatibilityParameterMaxInstances_order_witness :
  CompatibilityParameterMaxInstances_of two_profiles (reverse (profile_entries two_profiles))
    = CompatibilityParameterMaxInstances two_profiles ∧
  CompatibilityParameterMaxInstances two_profiles !! 1000 = Some 2.
Proof.
  split; [|vm_compute; reflexivity].
  destruct (CompatibilityParameterMaxInstances_order two_profiles
    (reverse (profile_entries two_profiles)) 1000 2
    (MkCompat 1000 2 DataTypeFloat32 false true TranslationDirectMapping "")) as [H _];
    [apply reverse_Permutation|exact H].
Defined.
