(* ===== verification/CanClients.v ===== *)
(** * CanClients: reading and writing over CAN ([mecom/can_client.go],
      [mecom/canopen_client.go], the binary part of [mecom/protocol.go])

    Both clients send one frame and then loop over what the bus delivers until
    the answer, an error or the deadline.  The bus is what the future iterations
    of that loop meet: an interruption (the context ended, the deadline passed)
    or the result of one [Recv].  A frame that no call consumes stays for the next
    call.  Past the end of the script nothing arrives, so the deadline expires. *)
From stdpp Require Import prelude gmap strings list.
From Stdlib Require Import Strings.Byte Floats.SpecFloat.
From S2P Require Import Prelude Floats Protocol CanFrame SdoMap.
Open Scope Z_scope.

(** ** The bus *)
Inductive BusEvent : Type :=
  | Interrupt (ctx : option error) (expired : bool)
  | Recv (r : res Frame).

Record Bus := MkBus {
  events : list BusEvent;
  sent : list Frame }.

Definition bus_Send (f : Frame) (b : Bus) : Bus := MkBus (events b) (sent b ++ [f]).
Definition bus_left (b : Bus) (es : list BusEvent) : Bus := MkBus es (sent b).

(** What the environment decides within one call: the context's error before it,
    a failing [Send], the context's error after it, and the object map the
    context carries. *)
Record Call := MkCall {
  call_ctxErr : option error;
  call_sendErr : option error;
  call_ctxErrAfter : option error;
  call_map : option CANopenSDOMap }.
Definition plain_call : Call := MkCall None None None None.

(** The receive loop: [stop] is its check of context and deadline, [accept] its
    verdict on a frame, [None] for [continue]. *)
Fixpoint recv_loop {A} (stop : option error → bool → option error) (timeout : error)
    (accept : Frame → option (res A)) (es : list BusEvent) : res A * list BusEvent :=
  match es with
  | [] => (Err timeout, [])
  | Interrupt ctx expired :: es' =>
      match stop ctx expired with
      | Some e => (Err e, es')
      | None => recv_loop stop timeout accept es'
      end
  | Recv (Err e) :: es' => (Err e, es')
  | Recv (Ok f) :: es' =>
      match accept f with
      | Some r => (r, es')
      | None => recv_loop stop timeout accept es'
      end
  end.

(** [readBulkShouldReturnError]: what ends a bulk read and what leaves a hole. *)
Definition readBulkShouldReturnError (ctxErr : option error) (err : error) : bool :=
  match ctxErr with
  | Some _ => true
  | None =>
      if errors_is err ContextCanceled then true
      else if errors_is err ErrTimeout || errors_is err ErrUnknownParameter
              || errors_is err ContextDeadlineExceeded then false
      else true
  end.

(** The loop of both bulk reads.  A soft failure leaves a NaN in the slot; a hard
    one returns the values read so far with the error. *)
Fixpoint read_slots {C} (read : Call → Param → C → C * res f64) (calls : nat → Call) (i : nat)
    (params : list Param) (values : list f64) (c : C) : C * (list f64 * option error) :=
  match params with
  | [] => (c, (values, None))
  | p :: params' =>
      match read (calls i) p c with
      | (c, Ok v) => read_slots read calls (S i) params' (values ++ [v]) c
      | (c, Err e) =>
          if readBulkShouldReturnError (call_ctxErrAfter (calls i)) e then (c, (values, Some e))
          else read_slots read calls (S i) params' (values ++ [S754_nan]) c
      end
  end.

(** ** Binary MeCom over CAN *)
Definition BinaryCmdQueryValue : Z := 0x01.
Definition BinaryCmdSetValue : Z := 0x02.
Definition BinaryCmdQueryBulk : Z := 0x05.
Definition BinaryCmdResponseError : Z := 0x06.

Definition BuildBinarySingleGetFrame (addr seq paramID instance : Z) : bytes :=
  [zb (Z.land seq 0x7F); zb addr] ++ be_put 2 BinaryCmdQueryValue ++ be_put 2 (u16 paramID)
  ++ [zb instance].

Definition BinaryResponseMatchesRequest (f : Frame) (addr seq command : Z) : bool :=
  if f_DLC f <? 8 then false
  else if negb (at_ f 1 =? addr) then false
  else if Z.land (at_ f 0) 0x80 =? 0 then false
  else if negb (Z.land (at_ f 0) 0x7f =? Z.land seq 0x7f) then false
  else be_get (slice (f_Data f) 2 4) =? command.

Definition DecodeBinaryCANFrame (f : Frame) (dataType : DataType) : res f64 :=
  if f_DLC f <? 8 then Err (Errorf "mecom: binary response DLC %d too short" [f_DLC f])
  else if Z.land (at_ f 0) 0x80 =? 0 then
    Err (Errorf "mecom: CAN frame is not a response (bit 7 clear)" [])
  else
    let cmd := be_get (slice (f_Data f) 2 4) in
    if cmd =? BinaryCmdResponseError then
      let code := at_ f 4 in
      match errorsByCode code with
      | Some _ => Err (Errorf "mecom: binary nack %02X (%s)" [code])
      | None => Err (Errorf "mecom: binary nack %02X" [code])
      end
    else if negb (cmd =? BinaryCmdQueryValue) then
      Err (Errorf "mecom: unexpected binary response command 0x%04X" [cmd])
    else
      let bits := be_get (slice (f_Data f) 4 8) in
      if bool_decide (dataType = DataTypeInt32) then Ok (of_int (i32 bits))
      else Ok (to_f64 (Float32frombits bits)).

Record CANClient := MkCANClient {
  can_address : Z;
  can_seq : Z;
  can_bus : Bus }.

Definition NewCANClient (rw : Bus) (addr : Z) : CANClient := MkCANClient addr 0 rw.
Definition CANClient_SupportsRingReadout (c : CANClient) : bool := false.

Definition nextSeq (c : CANClient) : CANClient * Z :=
  let s := u16 (can_seq c + 1) in
  let s := if s =? 0 then 1 else s in
  (MkCANClient (can_address c) s (can_bus c), s).

(** The context first, then the deadline. *)
Definition can_stop (ctx : option error) (expired : bool) : option error :=
  match ctx with
  | Some e => Some e
  | None => if expired then Some (Wrapf "%w: CAN response after %s" [] (Sentinel ErrTimeout)) else None
  end.

Definition can_accept (address seq : Z) (dataType : DataType) (f : Frame) : option (res f64) :=
  if f_ID f =? 0x300 + address then None
  else if negb (f_ID f =? 0x400 + address) then None
  else if negb (BinaryResponseMatchesRequest f address seq BinaryCmdQueryValue) then None
  else Some (DecodeBinaryCANFrame f dataType).

Definition can_readNumeric (call : Call) (paramID instance : Z) (dataType : DataType)
    (c : CANClient) : CANClient * res f64 :=
  match validateParameterAddress paramID instance with
  | Err e => (c, Err e)
  | Ok _ =>
      let dataType := if bool_decide (dataType = ""%string) then DataTypeFloat32 else dataType in
      match call_ctxErr call with
      | Some e => (c, Err e)
      | None =>
          let '(c, seq) := nextSeq c in
          let payload := BuildBinarySingleGetFrame (can_address c) seq paramID instance in
          let req := MkFrame (0x300 + can_address c) (array8 payload) (u8 (Z.of_nat (length payload))) in
          match call_sendErr call with
          | Some e => (c, Err e)
          | None =>
              let b := bus_Send req (can_bus c) in
              let '(r, es) := recv_loop can_stop (Wrapf "%w: CAN response after %s" [] (Sentinel ErrTimeout))
                                (can_accept (can_address c) seq dataType) (events b) in
              (MkCANClient (can_address c) (can_seq c) (bus_left b es), r)
          end
      end
  end.

Definition CANClient_ReadFloat32 (call : Call) (paramID instance : Z) :=
  can_readNumeric call paramID instance DataTypeFloat32.
Definition CANClient_ReadInt32 (call : Call) (paramID instance : Z) (c : CANClient) : CANClient * res Z :=
  let '(c, v) := can_readNumeric call paramID instance DataTypeInt32 c in (c, v ← v; Ok (to_int v)).
Definition CANClient_ReadBulk (calls : nat → Call) (params : list Param) (c : CANClient) :
    CANClient * (list f64 * option error) :=
  match validateParameterList params with
  | Err e => (c, ([], Some e))
  | Ok _ => read_slots (λ call p, can_readNumeric call (ID p) (Inst p) (Type_ p)) calls 0 params [] c
  end.

(** ** The CANopen SDO client *)
Record CANopenClient := MkCANopenClient {
  node : Z;
  sdoMap : option CANopenSDOMap;
  bus : Bus }.

(** [ring_unsupported]: the four ring operations of both CAN clients. *)
Definition ring_unsupported {A} : res A := Err (Sentinel ErrTransportNotSupported).
Definition CANopenClient_SupportsRingReadout (c : CANopenClient) : bool := false.
Definition NewCANopenClient (rw : Bus) (addr : Z) (m : option CANopenSDOMap) : CANopenClient :=
  MkCANopenClient addr m rw.

(** The deadline first, then the context. *)
Definition sdo_stop (timeout : error) (ctx : option error) (expired : bool) : option error :=
  if expired then Some timeout else ctx.

Definition sdo_timeout (what : string) (index sub : Z) : error :=
  Wrapf what [index; sub] (Sentinel ErrTimeout).

(** One request: send it and loop. *)
Definition sdo_request {A} (call : Call) (req : res Frame) (timeout : error)
    (accept : Frame → option (res A)) (c : CANopenClient) : CANopenClient * res A :=
  match req with
  | Err e => (c, Err e)
  | Ok req =>
      match call_sendErr call with
      | Some e => (c, Err e)
      | None =>
          let b := bus_Send req (bus c) in
          let '(r, es) := recv_loop (sdo_stop timeout) timeout accept (events b) in
          (MkCANopenClient (node c) (sdoMap c) (bus_left b es), r)
      end
  end.

(** What the three loops do with a frame. *)
Definition write_accept (nd index sub : Z) (f : Frame) : option (res ()) :=
  if negb (f_ID f =? 0x580 + nd) then None
  else match ParseSDODownloadResponse f with
       | Err e =>
           match as_SDOAbort e with
           | Some (i, s, _) =>
               if (i =? index) && (s =? sub) then Some (Err (ErrJoin (Sentinel ErrWriteRejected) e))
               else None
           | None => None
           end
       | Ok r => if negb (dn_Index r =? index) || negb (dn_SubIndex r =? sub) then None else Some (Ok ())
       end.

Definition read_accept (nd : Z) (object : CANopenSDOObject) (f : Frame) : option (res f64) :=
  let index := Index object in
  let sub := SubIndex object in
  if negb (f_ID f =? 0x580 + nd) then None
  else match ParseSDOUploadResponse f with
       | Err e =>
           match as_SDOAbort e with
           | Some (i, s, code) =>
               if (i =? index) && (s =? sub) then
                 Some (Err (Wrapf "%w: CANopen SDO abort 0x%08X for 0x%04X:%02X" [code; index; sub]
                              (Sentinel ErrUnknownParameter)))
               else None
           | None => None
           end
       | Ok r =>
           if negb (up_Index r =? index) || negb (up_SubIndex r =? sub) then None
           else if bool_decide (o_Kind object = DataTypeInt32) then
             Some (v ← up_Int32 r; Ok (of_int v))
           else Some (v ← up_Float32 r; Ok (to_f64 v))
       end.

Definition raw_accept (nd index sub : Z) (f : Frame) : option (res bytes) :=
  if negb (f_ID f =? 0x580 + nd) then None
  else match ParseSDOUploadResponse f with
       | Err e =>
           match as_SDOAbort e with
           | Some (i, s, _) => if (i =? index) && (s =? sub) then Some (Err e) else None
           | None => None
           end
       | Ok r =>
           if negb (up_Index r =? index) || negb (up_SubIndex r =? sub) then None
           else Some (Ok (up_Data r))
       end.

Definition writeSDO (call : Call) (object : CANopenSDOObject) (value : bytes) (c : CANopenClient) :
    CANopenClient * res () :=
  sdo_request call (SDODownloadExpeditedRequest (node c) (Index object) (SubIndex object) value)
    (sdo_timeout "%w: write 0x%04X:%02X" (Index object) (SubIndex object))
    (write_accept (node c) (Index object) (SubIndex object)) c.

Definition WriteSDORaw (call : Call) (index sub : Z) (value : bytes) (c : CANopenClient) :=
  writeSDO call (MkObject index sub "" true) value c.

Definition ReadSDORaw (call : Call) (index sub : Z) (c : CANopenClient) : CANopenClient * res bytes :=
  sdo_request call (SDOUploadRequest (node c) index sub) (sdo_timeout "%w: read 0x%04X:%02X" index sub)
    (raw_accept (node c) index sub) c.

Section default_map.
(** The catalogue compiled into the program, as loaded. *)
Context (defaultCANopenSDOMap : CANopenSDOMap).

Definition client_map (call : Call) (c : CANopenClient) : CANopenSDOMap :=
  match call_map call with
  | Some m => m
  | None => default defaultCANopenSDOMap (sdoMap c)
  end.
Definition canopenSDOObjectForMeCom (call : Call) (paramID instance : Z) (c : CANopenClient) :
    option CANopenSDOObject := ObjectForMeCom (client_map call c) paramID instance.

Definition CANopenClient_ParameterType (id : Z) (c : CANopenClient) : DataType :=
  default ""%string (ParameterType (default defaultCANopenSDOMap (sdoMap c)) id).

Definition sdo_readNumeric (call : Call) (paramID instance : Z) (c : CANopenClient) :
    CANopenClient * res f64 :=
  match canopenSDOObjectForMeCom call paramID instance c with
  | None => (c, Err (Wrapf "%w: parameter %d instance %d" [paramID; instance] (Sentinel ErrUnknownParameter)))
  | Some object =>
      sdo_request call (SDOUploadRequest (node c) (Index object) (SubIndex object))
        (sdo_timeout "%w: read 0x%04X:%02X" (Index object) (SubIndex object))
        (read_accept (node c) object) c
  end.

Definition CANopenClient_ReadFloat32 := sdo_readNumeric.
Definition CANopenClient_ReadInt32 (call : Call) (paramID instance : Z) (c : CANopenClient) :
    CANopenClient * res Z :=
  let '(c, v) := sdo_readNumeric call paramID instance c in (c, v ← v; Ok (to_int v)).
Definition CANopenClient_ReadBulk (calls : nat → Call) (params : list Param) (c : CANopenClient) :
    CANopenClient * (list f64 * option error) :=
  match validateParameterList params with
  | Err e => (c, ([], Some e))
  | Ok _ => read_slots (λ call p, sdo_readNumeric call (ID p) (Inst p)) calls 0 params [] c
  end.

(** The checks both typed writes make before anything is sent. *)
Definition writable_object (call : Call) (paramID instance : Z) (want : DataType) (format : string)
    (c : CANopenClient) : res CANopenSDOObject :=
  match canopenSDOObjectForMeCom call paramID instance c with
  | None => Err (Wrapf "%w: parameter %d instance %d" [paramID; instance] (Sentinel ErrUnknownParameter))
  | Some object =>
      if negb (o_Writable object) then
        Err (Wrapf "%w: parameter %d instance %d" [paramID; instance] (Sentinel ErrParameterReadOnly))
      else if negb (bool_decide (o_Kind object = want)) then
        Err (Wrapf format [paramID; instance] (Sentinel ErrInvalidArgument))
      else Ok object
  end.

Definition CANopenClient_WriteFloat32 (call : Call) (paramID instance : Z) (value : f32)
    (c : CANopenClient) : CANopenClient * res () :=
  match writable_object call paramID instance DataTypeFloat32
          "%w: parameter %d instance %d is not float32" c with
  | Err e => (c, Err e)
  | Ok object => writeSDO call object (le_put 4 (Float32bits value)) c
  end.
Definition CANopenClient_WriteInt32 (call : Call) (paramID instance : Z) (value : Z)
    (c : CANopenClient) : CANopenClient * res () :=
  match writable_object call paramID instance DataTypeInt32
          "%w: parameter %d instance %d is not int32" c with
  | Err e => (c, Err e)
  | Ok object => writeSDO call object (le_put 4 (u32 value)) c
  end.
End default_map.

(** ** Traffic that is not the answer *)

(** Frames of another identifier, and SDO answers of this node about another
    object. *)
Inductive foreign (nd index sub : Z) : Frame → Prop :=
  | foreign_id f : f_ID f ≠ 0x580 + nd → foreign nd index sub f
  | foreign_upload i s v : i ≠ index ∨ s ≠ sub → 0 ≤ i < 65536 → 0 ≤ s < 256 →
      (1 ≤ length v ≤ 4)%nat → foreign nd index sub (upload_answer nd i s v)
  | foreign_download i s : i ≠ index ∨ s ≠ sub → 0 ≤ i < 65536 → 0 ≤ s < 256 →
      foreign nd index sub (download_answer nd i s)
  | foreign_abort i s code : i ≠ index ∨ s ≠ sub → 0 ≤ i < 65536 → 0 ≤ s < 256 →
      0 ≤ code < 2 ^ 32 → foreign nd index sub (abort_answer nd i s code).

(** A round of the loop that decides nothing. *)
Definition idle {A} (accept : Frame → option (res A)) (e : BusEvent) : Prop :=
  match e with
  | Interrupt ctx expired => ctx = None ∧ expired = false
  | Recv (Ok f) => accept f = None
  | Recv (Err _) => False
  end.
Definition noise (nd index sub : Z) (e : BusEvent) : Prop :=
  match e with
  | Interrupt ctx expired => ctx = None ∧ expired = false
  | Recv (Ok f) => foreign nd index sub f
  | Recv (Err _) => False
  end.

Lemma recv_loop_idle {A} stop timeout (accept : Frame → option (res A)) ns es :
  stop None false = None → Forall (idle accept) ns →
  recv_loop stop timeout accept (ns ++ es) = recv_loop stop timeout accept es.
Proof.
  intros Hs. induction 1 as [|e ns He _ IH]; [done|]. simpl.
  destruct e as [ctx expired|[f|e]]; simpl in He.
  - destruct He as [-> ->]. by rewrite Hs.
  - by rewrite He.
  - done.
Qed.

(** The two parsers refuse each other's answers, and not as an abort. *)
Lemma parsers_disjoint nd i s v : 1 ≤ nd ≤ 127 → 0 ≤ i < 65536 → 0 ≤ s < 256 →
  (1 ≤ length v ≤ 4)%nat →
  (∃ f a, ParseSDODownloadResponse (upload_answer nd i s v) = Err (Errorf f a)) ∧
  (∃ f a, ParseSDOUploadResponse (download_answer nd i s) = Err (Errorf f a)).
Proof.
  intros Hn Hi Hs Hv.
  assert (Hid : (0x580 + nd <? 0x580) || (0x5ff <? 0x580 + nd) = false).
  { apply orb_false_iff. rewrite !Z.ltb_ge. lia. }
  unfold ParseSDODownloadResponse, ParseSDOUploadResponse, Frame_Validate.
  change (f_DLC (upload_answer nd i s v)) with 8. change (f_DLC (download_answer nd i s)) with 8.
  change (f_ID (upload_answer nd i s v)) with (0x580 + nd).
  change (f_ID (download_answer nd i s)) with (0x580 + nd).
  cbn [mbind result_bind]. change (8 <? 8) with false. change (8 =? 8) with true. cbv iota.
  cbn [mbind result_bind negb]. rewrite Hid.
  unfold upload_answer, download_answer. split.
  - set (cmd := zb (0x43 + 4 * (4 - Z.of_nat (length v)))).
    destruct (object_fields cmd i s (v ++ replicate (4 - length v) x00) (0x580 + nd) 8 Hi Hs) as (H0 & _).
    rewrite H0. assert (Hc : (bz cmd =? 0x80) = false ∧ (bz cmd =? 0x60) = false).
    { unfold cmd. destruct v as [|? [|? [|? [|? [|? v]]]]]; simpl in Hv; try lia; done. }
    destruct Hc as [-> ->]. cbn [negb]. eauto.
  - destruct (object_fields x60 i s (replicate 4 x00) (0x580 + nd) 8 Hi Hs) as (H0 & _).
    rewrite H0. change (bz x60 =? 0x80) with false. change (Z.land (bz x60) 0xe0 =? 0x40) with false.
    cbn [negb]. eauto.
Qed.

Lemma other_object_false index sub i s : i ≠ index ∨ s ≠ sub → (i =? index) && (s =? sub) = false.
Proof. intros [H|H]; apply Z.eqb_neq in H; rewrite H; [done|apply andb_false_r]. Qed.
Lemma other_object_true index sub i s : i ≠ index ∨ s ≠ sub → negb (i =? index) || negb (s =? sub) = true.
Proof. intros H. by rewrite <-negb_andb, other_object_false. Qed.

Lemma foreign_skipped nd object f : 1 ≤ nd ≤ 127 → foreign nd (Index object) (SubIndex object) f →
  write_accept nd (Index object) (SubIndex object) f = None ∧ read_accept nd object f = None ∧
  raw_accept nd (Index object) (SubIndex object) f = None.
Proof.
  intros Hn Hf. unfold write_accept, read_accept, raw_accept.
  destruct Hf as [f Hid|i s v Hne Hi Hs Hv|i s Hne Hi Hs|i s code Hne Hi Hs Hc].
  - apply Z.eqb_neq in Hid. by rewrite Hid.
  - change (f_ID (upload_answer nd i s v)) with (0x580 + nd). rewrite Z.eqb_refl. cbn [negb].
    destruct (SDO_answers_parsed nd i s 0 v) as (-> & _); [done..|].
    destruct (parsers_disjoint nd i s v) as [(? & ? & ->) _]; [done..|].
    cbn [as_SDOAbort up_Index up_SubIndex]. by rewrite other_object_true.
  - change (f_ID (download_answer nd i s)) with (0x580 + nd). rewrite Z.eqb_refl. cbn [negb].
    destruct (SDO_answers_parsed nd i s 0 [x00]) as (_ & -> & _); [done..|simpl; lia|].
    destruct (parsers_disjoint nd i s [x00]) as [_ (? & ? & ->)]; [done..|simpl; lia|].
    cbn [as_SDOAbort dn_Index dn_SubIndex]. by rewrite other_object_true.
  - change (f_ID (abort_answer nd i s code)) with (0x580 + nd). rewrite Z.eqb_refl. cbn [negb].
    destruct (SDO_answers_parsed nd i s code [x00]) as (_ & _ & -> & ->); [done..|simpl; lia|].
    cbn [as_SDOAbort]. by rewrite other_object_false.
Qed.

Lemma noise_idle nd object ns : 1 ≤ nd ≤ 127 → Forall (noise nd (Index object) (SubIndex object)) ns →
  Forall (idle (write_accept nd (Index object) (SubIndex object))) ns ∧
  Forall (idle (read_accept nd object)) ns ∧
  Forall (idle (raw_accept nd (Index object) (SubIndex object))) ns.
Proof.
  intros Hn Hns. split_and!; eapply Forall_impl; try exact Hns; intros [ctx expired|[f|e]]; simpl; try done;
    intros Hf; by apply (foreign_skipped nd object f Hn).
Qed.

(** ** The answer *)
Lemma ObjectForMeCom_range m p i o : map_wf m → ObjectForMeCom m p i = Some o →
  0 ≤ Index o < 65536 ∧ 0 ≤ SubIndex o < 256.
Proof.
  intros Hm H. unfold ObjectForMeCom in H. destruct (_ || _); [done|].
  destruct (byMeComID m !! p) as [mp|] eqn:E; [|done].
  apply (wf_mappings m Hm) in E as (_ & Hi & _ & Hs). cbv zeta in H.
  destruct (subIndexFromInstance mp); destruct (_ : bool); try done; injection H as <-; simpl.
  - pose proof (u8_range i). lia.
  - lia.
Qed.

Lemma read_accept_value nd object w : 1 ≤ nd ≤ 127 → 0 ≤ Index object < 65536 →
  0 ≤ SubIndex object < 256 → 0 ≤ w < 2 ^ 32 →
  read_accept nd object (upload_answer nd (Index object) (SubIndex object) (le_put 4 w))
    = Some (Ok (word_value (o_Kind object) w)).
Proof.
  intros Hn Hi Hs Hw. unfold read_accept.
  change (f_ID (upload_answer nd (Index object) (SubIndex object) (le_put 4 w))) with (0x580 + nd).
  rewrite Z.eqb_refl. cbn [negb].
  destruct (SDO_answers_parsed nd (Index object) (SubIndex object) 0 (le_put 4 w)) as (-> & _);
    [done..|rewrite length_le_put; lia|].
  cbn [up_Index up_SubIndex]. rewrite !Z.eqb_refl. cbn [negb orb].
  unfold up_Int32, up_Float32, up_Uint32, word_value. cbn [up_Data].
  rewrite length_le_put. change (4 =? 4)%nat with true. cbn [negb].
  rewrite le_get_put_small by (simpl; lia). by destruct (bool_decide _).
Qed.

Lemma read_accept_abort nd object code : 1 ≤ nd ≤ 127 → 0 ≤ Index object < 65536 →
  0 ≤ SubIndex object < 256 → 0 ≤ code < 2 ^ 32 →
  read_accept nd object (abort_answer nd (Index object) (SubIndex object) code)
    = Some (Err (Wrapf "%w: CANopen SDO abort 0x%08X for 0x%04X:%02X"
                   [code; Index object; SubIndex object] (Sentinel ErrUnknownParameter))).
Proof.
  intros Hn Hi Hs Hc. unfold read_accept.
  change (f_ID (abort_answer nd (Index object) (SubIndex object) code)) with (0x580 + nd).
  rewrite Z.eqb_refl. cbn [negb].
  destruct (SDO_answers_parsed nd (Index object) (SubIndex object) code [x00]) as (_ & _ & -> & _);
    [done..|simpl; lia|].
  cbn [as_SDOAbort]. by rewrite !Z.eqb_refl.
Qed.

Lemma write_accept_ack nd index sub : 1 ≤ nd ≤ 127 → 0 ≤ index < 65536 → 0 ≤ sub < 256 →
  write_accept nd index sub (download_answer nd index sub) = Some (Ok ()).
Proof.
  intros Hn Hi Hs. unfold write_accept. change (f_ID (download_answer nd index sub)) with (0x580 + nd).
  rewrite Z.eqb_refl. cbn [negb].
  destruct (SDO_answers_parsed nd index sub 0 [x00]) as (_ & -> & _); [done..|simpl; lia|].
  cbn [dn_Index dn_SubIndex]. by rewrite !Z.eqb_refl.
Qed.

Lemma write_accept_abort nd index sub code : 1 ≤ nd ≤ 127 → 0 ≤ index < 65536 → 0 ≤ sub < 256 →
  0 ≤ code < 2 ^ 32 →
  write_accept nd index sub (abort_answer nd index sub code) =
    Some (Err (ErrJoin (Sentinel ErrWriteRejected) (SDOAbortError index sub code))).
Proof.
  intros Hn Hi Hs Hc. unfold write_accept. change (f_ID (abort_answer nd index sub code)) with (0x580 + nd).
  rewrite Z.eqb_refl. cbn [negb].
  destruct (SDO_answers_parsed nd index sub code [x00]) as (_ & _ & _ & ->); [done..|simpl; lia|].
  cbn [as_SDOAbort]. by rewrite !Z.eqb_refl.
Qed.

(** How one parameter of a bulk read is answered: not at all when the map does not
    know it, else by its value or by an abort, after any other traffic.  The
    relation gives the frames the device sees and the value in the slot. *)
Inductive answered (m : CANopenSDOMap) (nd : Z) : Param → list BusEvent → list (Z * Z) → f64 → Prop :=
  | answered_unmapped p : ObjectForMeCom m (ID p) (Inst p) = None → answered m nd p [] [] S754_nan
  | answered_value p o ns w : ObjectForMeCom m (ID p) (Inst p) = Some o →
      Forall (noise nd (Index o) (SubIndex o)) ns → 0 ≤ w < 2 ^ 32 →
      answered m nd p (ns ++ [Recv (Ok (upload_answer nd (Index o) (SubIndex o) (le_put 4 w)))])
        [(Index o, SubIndex o)] (word_value (o_Kind o) w)
  | answered_abort p o ns code : ObjectForMeCom m (ID p) (Inst p) = Some o →
      Forall (noise nd (Index o) (SubIndex o)) ns → 0 ≤ code < 2 ^ 32 →
      answered m nd p (ns ++ [Recv (Ok (abort_answer nd (Index o) (SubIndex o) code))])
        [(Index o, SubIndex o)] S754_nan.

Section read.
Context (dflt : CANopenSDOMap) (c : CANopenClient) (call : Call).
Let m := client_map dflt call c.
Context (Hm : map_wf m) (Hn : 1 ≤ node c ≤ 127) (Hsend : call_sendErr call = None).

(** One read: what is sent and what comes of the answer. *)
Lemma read_answered p es objs v rest : answered m (node c) p es objs v →
  ∃ reqs r, Forall2 (λ req obj, serve_upload (node c) req = Some obj) reqs objs ∧
    (r = Ok v ∨ ∃ e, r = Err e ∧ v = S754_nan ∧ errors_is e ErrUnknownParameter = true ∧
                     errors_is e ContextCanceled = false) ∧
    ∀ before, sdo_readNumeric dflt call (ID p) (Inst p)
      (MkCANopenClient (node c) (sdoMap c) (MkBus (es ++ rest) before)) =
      (MkCANopenClient (node c) (sdoMap c) (MkBus rest (before ++ reqs)), r).
Proof using Hm Hn Hsend.
  intros Hans. unfold sdo_readNumeric, canopenSDOObjectForMeCom.
  assert (Hmap : ∀ b, client_map dflt call (MkCANopenClient (node c) (sdoMap c) b) = m) by done.
  setoid_rewrite Hmap.
  destruct Hans as [p Hnone|p o ns w Ho Hns Hw|p o ns code Ho Hns Hcode].
  { rewrite Hnone. eexists [], _. split; [constructor|]. split; cycle 1.
    - intros before. by rewrite app_nil_r.
    - right. eexists. split_and!; reflexivity. }
  all: rewrite Ho; destruct (ObjectForMeCom_range m (ID p) (Inst p) o Hm Ho) as [Hi Hs].
  all: destruct (SDO_requests_read (node c) (Index o) (SubIndex o) []) as [(req & Hreq & Hserve) _];
    [lia|done|done|done|].
  all: apply noise_idle in Hns as (_ & Hns & _); [|done].
  all: eexists [req], _; split; [by repeat constructor|]; split; cycle 1;
    [intros before; unfold sdo_request; cbn [node bus]; rewrite Hreq, Hsend; cbn [bus_Send events];
     rewrite <-app_assoc, recv_loop_idle by done; cbn [recv_loop app];
     rewrite ?read_accept_value, ?read_accept_abort by done; reflexivity|].
  - by left.
  - right. eexists. split_and!; reflexivity.
Qed.
End read.

(** A bulk read over CANopen reads what the device holds.  Let each parameter be
    answered by its value, by an abort, or not at all when the object map does
    not know it, in the middle of any other traffic on the bus (frames of other
    identifiers, SDO answers about other objects, idle rounds).  Then the read
    succeeds with one value per parameter, the device's word decoded with the
    mapped type or NaN; the device is asked for exactly the mapped objects, in
    order; and what follows on the bus is untouched. *)
Theorem CANopen_bulk_end_to_end (dflt : CANopenSDOMap) (c : CANopenClient) (params : list Param)
    (script : list (list BusEvent * list (Z * Z) * f64)) (rest : list BusEvent) :
  map_wf (client_map dflt plain_call c) → 1 ≤ node c ≤ 127 → validateParameterList params = Ok () →
  Forall2 (λ p s, answered (client_map dflt plain_call c) (node c) p s.1.1 s.1.2 s.2) params script →
  events (bus c) = concat (script.*1.*1) ++ rest →
  ∃ reqs, Forall2 (λ req obj, serve_upload (node c) req = Some obj) reqs (concat (script.*1.*2)) ∧
    CANopenClient_ReadBulk dflt (λ _, plain_call) params c =
      (MkCANopenClient (node c) (sdoMap c) (MkBus rest (sent (bus c) ++ reqs)), (script.*2, None)).
Proof.
  intros Hm Hn Hval Hans Hev. unfold CANopenClient_ReadBulk. rewrite Hval.
  assert (Hgo : ∀ i values before, ∃ reqs,
    Forall2 (λ req obj, serve_upload (node c) req = Some obj) reqs (concat (script.*1.*2)) ∧
    read_slots (λ call p, sdo_readNumeric dflt call (ID p) (Inst p)) (λ _, plain_call) i params values
      (MkCANopenClient (node c) (sdoMap c) (MkBus (concat (script.*1.*1) ++ rest) before)) =
    (MkCANopenClient (node c) (sdoMap c) (MkBus rest (before ++ reqs)), (values ++ script.*2, None))).
  { clear Hval Hev. induction Hans as [|p [[es objs] v] params script Hp _ IH]; intros i values before.
    - exists []. split; [constructor|]. simpl. by rewrite !app_nil_r.
    - simpl in Hp. destruct (read_answered dflt c plain_call Hm Hn eq_refl p es objs v
        (concat (script.*1.*1) ++ rest) Hp) as (reqs & r & Hreqs & Hr & Hread).
      destruct (IH (S i) (values ++ [v]) (before ++ reqs)) as (reqs' & Hreqs' & Hgo).
      exists (reqs ++ reqs'). cbn [fmap list_fmap concat fst snd]. split; [by apply Forall2_app|].
      rewrite <-!app_assoc. cbn [read_slots]. rewrite Hread. rewrite <-!app_assoc in Hgo.
      destruct Hr as [->|(e & -> & -> & He & Hc)]; [exact Hgo|].
      unfold readBulkShouldReturnError. cbn [call_ctxErrAfter plain_call]. rewrite Hc, He, orb_true_r.
      exact Hgo. }
  destruct c as [nd sm [evs snt]]. cbn [node sdoMap bus events sent] in *. subst evs.
  apply (Hgo 0%nat []).
Qed.

Definition small_map : CANopenSDOMap :=
  MkSDOMap {[1000 := MkMapping 0x2100 DataTypeFloat32 false 1 255 0 0 true;
             2010 := MkMapping 0x2110 DataTypeInt32 true 1 255 1 3 false]} ∅ ∅ ∅ ∅.
Lemma small_map_wf : map_wf small_map.
Proof.
  split; try apply map_Forall_empty. simpl.
  apply map_Forall_insert_2; [|apply map_Forall_singleton];
    unfold mapping_wf, data_type; simpl; split_and!; auto; lia.
Qed.
Definition small_client (es : list BusEvent) : CANopenClient :=
  MkCANopenClient 5 (Some small_map) (MkBus es []).

Lemma CANopen_bulk_end_to_end_witness :
  ∃ reqs, (∃ objs, Forall2 (λ req obj, serve_upload 5 req = Some obj) reqs objs) ∧
    CANopenClient_ReadBulk small_map (λ _, plain_call)
      [MkParam 1000 2 "" "" DataTypeFloat32 false "" ""; MkParam 7 1 "" "" "" false "" "";
       MkParam 2010 1 "" "" "" false "" ""]
      (small_client
        [Recv (Ok (upload_answer 6 0x2100 2 (le_put 4 1))); Interrupt None false;
         Recv (Ok (upload_answer 5 0x2100 1 (le_put 4 1)));
         Recv (Ok (upload_answer 5 0x2100 2 (le_put 4 0x40490fdb)));
         Recv (Ok (abort_answer 5 0x2110 3 0x06020000))]) =
    (MkCANopenClient 5 (Some small_map) (MkBus [] reqs),
     ([word_value DataTypeFloat32 0x40490fdb; S754_nan; S754_nan], None)).
Proof.
  destruct (CANopen_bulk_end_to_end small_map (small_client
        [Recv (Ok (upload_answer 6 0x2100 2 (le_put 4 1))); Interrupt None false;
         Recv (Ok (upload_answer 5 0x2100 1 (le_put 4 1)));
         Recv (Ok (upload_answer 5 0x2100 2 (le_put 4 0x40490fdb)));
         Recv (Ok (abort_answer 5 0x2110 3 0x06020000))])
      [MkParam 1000 2 "" "" DataTypeFloat32 false "" ""; MkParam 7 1 "" "" "" false "" "";
       MkParam 2010 1 "" "" "" false "" ""]
      [([Recv (Ok (upload_answer 6 0x2100 2 (le_put 4 1))); Interrupt None false;
         Recv (Ok (upload_answer 5 0x2100 1 (le_put 4 1)));
         Recv (Ok (upload_answer 5 0x2100 2 (le_put 4 0x40490fdb)))], [(0x2100, 2)],
        word_value DataTypeFloat32 0x40490fdb);
       ([], [], S754_nan);
       ([Recv (Ok (abort_answer 5 0x2110 3 0x06020000))], [(0x2110, 3)], S754_nan)] [])
    as (reqs & Hreqs & H).
  - apply small_map_wf.
  - simpl. lia.
  - reflexivity.
  - constructor; [|constructor; [|constructor; [|constructor]]].
    + apply (answered_value _ _ _ (MkObject 0x2100 2 DataTypeFloat32 false)
        [Recv (Ok (upload_answer 6 0x2100 2 (le_put 4 1))); Interrupt None false;
         Recv (Ok (upload_answer 5 0x2100 1 (le_put 4 1)))]); [vm_compute; reflexivity| |lia].
      constructor; [apply foreign_id; discriminate|constructor; [by split|constructor; [|constructor]]].
      apply foreign_upload; simpl; lia.
    + apply answered_unmapped. vm_compute. reflexivity.
    + apply (answered_abort _ _ _ (MkObject 0x2110 3 DataTypeInt32 true) []);
        [vm_compute; reflexivity|constructor|lia].
  - reflexivity.
  - exists reqs. split; [eauto|exact H].
Defined.

(** The two typed writes: the type each wants and the bytes it sends. *)
Inductive typed_write (dflt : CANopenSDOMap) :
    (Call → Z → Z → CANopenClient → CANopenClient * res ()) → DataType → bytes → Prop :=
  | typed_float v : typed_write dflt (λ call p i, CANopenClient_WriteFloat32 dflt call p i v)
      DataTypeFloat32 (le_put 4 (Float32bits v))
  | typed_int z : typed_write dflt (λ call p i, CANopenClient_WriteInt32 dflt call p i z)
      DataTypeInt32 (le_put 4 (u32 z)).

Lemma writeSDO_answered call o data c ns es : 1 ≤ node c ≤ 127 → 0 ≤ Index o < 65536 →
  0 ≤ SubIndex o < 256 → (1 ≤ length data ≤ 4)%nat → call_sendErr call = None →
  Forall (noise (node c) (Index o) (SubIndex o)) ns → events (bus c) = ns ++ es →
  ∃ req, serve_download (node c) req = Some (Index o, SubIndex o, data) ∧
    writeSDO call o data c =
      (let '(r, unread) := recv_loop (sdo_stop (sdo_timeout "%w: write 0x%04X:%02X" (Index o) (SubIndex o)))
         (sdo_timeout "%w: write 0x%04X:%02X" (Index o) (SubIndex o))
         (write_accept (node c) (Index o) (SubIndex o)) es in
       (MkCANopenClient (node c) (sdoMap c) (MkBus unread (sent (bus c) ++ [req])), r)).
Proof.
  intros Hn Hi Hs Hd Hsend Hns Hev.
  destruct (SDO_requests_read (node c) (Index o) (SubIndex o) data) as (_ & Hreq & _); [lia|done|done|].
  destruct Hreq as (req & Hreq & _ & Hserve); [done|]. exists req. split; [done|].
  unfold writeSDO, sdo_request. rewrite Hreq, Hsend. unfold bus_Send. cbn [events]. rewrite Hev.
  rewrite recv_loop_idle; [done|done|]. apply noise_idle in Hns as (Hns & _); done.
Qed.

(** A typed CANopen write reaches the object or sends nothing.  A number the map
    does not know, a read-only object and an object of another type are refused
    with their own error before anything is sent.  Otherwise the node is told to
    write the value's four bytes to exactly the mapped object; whatever other
    traffic comes first, its acknowledgement makes the write succeed, its abort
    makes it fail as a rejected write that carries the abort, and silence makes it
    time out. *)
Theorem CANopen_write_end_to_end (dflt : CANopenSDOMap) (c : CANopenClient) (paramID instance code : Z)
    write kind data (ns rest : list BusEvent) :
  typed_write dflt write kind data → map_wf (client_map dflt plain_call c) →
  1 ≤ node c ≤ 127 → 0 ≤ code < 2 ^ 32 →
  match ObjectForMeCom (client_map dflt plain_call c) paramID instance with
  | None => ∃ e, write plain_call paramID instance c = (c, Err e) ∧ errors_is e ErrUnknownParameter = true
  | Some o =>
      let outcome es unread r := events (bus c) = ns ++ es →
        ∃ req, serve_download (node c) req = Some (Index o, SubIndex o, data) ∧
          write plain_call paramID instance c =
            (MkCANopenClient (node c) (sdoMap c) (MkBus unread (sent (bus c) ++ [req])), r) in
      (o_Writable o = false →
         ∃ e, write plain_call paramID instance c = (c, Err e) ∧ errors_is e ErrParameterReadOnly = true) ∧
      (o_Writable o = true → o_Kind o ≠ kind →
         ∃ e, write plain_call paramID instance c = (c, Err e) ∧ errors_is e ErrInvalidArgument = true) ∧
      (o_Writable o = true → o_Kind o = kind → Forall (noise (node c) (Index o) (SubIndex o)) ns →
         outcome (Recv (Ok (download_answer (node c) (Index o) (SubIndex o))) :: rest) rest (Ok ()) ∧
         outcome (Recv (Ok (abort_answer (node c) (Index o) (SubIndex o) code)) :: rest) rest
           (Err (ErrJoin (Sentinel ErrWriteRejected) (SDOAbortError (Index o) (SubIndex o) code))) ∧
         outcome [] [] (Err (Wrapf "%w: write 0x%04X:%02X" [Index o; SubIndex o] (Sentinel ErrTimeout))))
  end.
Proof.
  intros Hw Hm Hn Hc. destruct (ObjectForMeCom _ paramID instance) as [o|] eqn:Ho; cycle 1.
  { destruct Hw; unfold CANopenClient_WriteFloat32, CANopenClient_WriteInt32, writable_object,
      canopenSDOObjectForMeCom; rewrite Ho; by eexists. }
  destruct (ObjectForMeCom_range _ _ _ _ Hm Ho) as [Hi Hs].
  cbv zeta. split_and!.
  - intros Hro. destruct Hw; unfold CANopenClient_WriteFloat32, CANopenClient_WriteInt32, writable_object,
      canopenSDOObjectForMeCom; rewrite Ho, Hro; by eexists.
  - intros Hrw Hk. destruct Hw; unfold CANopenClient_WriteFloat32, CANopenClient_WriteInt32,
      writable_object, canopenSDOObjectForMeCom; rewrite Ho, Hrw, bool_decide_false by done; by eexists.
  - intros Hrw Hk Hns.
    assert (Hwrite : write plain_call paramID instance c = writeSDO plain_call o data c ∧
                     length data = 4%nat).
    { destruct Hw; unfold CANopenClient_WriteFloat32, CANopenClient_WriteInt32, writable_object,
        canopenSDOObjectForMeCom; rewrite Ho, Hrw, bool_decide_true by done; split; done. }
    destruct Hwrite as [-> Hd]. split_and!; intros Hev;
      destruct (writeSDO_answered plain_call o data c ns _ Hn Hi Hs ltac:(lia) eq_refl Hns Hev)
        as (req & Hreq & ->); exists req; (split; [exact Hreq|]); cbn [recv_loop];
      rewrite ?write_accept_ack, ?write_accept_abort by done; reflexivity.
Qed.

Lemma CANopen_write_end_to_end_witness :
  ∃ req, serve_download 5 req = Some (0x2110, 3, le_put 4 (u32 (-7))) ∧
    CANopenClient_WriteInt32 small_map plain_call 2010 1 (-7)
      (small_client [Recv (Ok (abort_answer 5 0x2110 2 0)); Recv (Ok (download_answer 5 0x2110 3))]) =
    (MkCANopenClient 5 (Some small_map) (MkBus [] [req]), Ok ()).
Proof.
  pose proof (CANopen_write_end_to_end small_map
    (small_client [Recv (Ok (abort_answer 5 0x2110 2 0)); Recv (Ok (download_answer 5 0x2110 3))])
    2010 1 0 _ _ _ [Recv (Ok (abort_answer 5 0x2110 2 0))] [] (typed_int small_map (-7))
    small_map_wf ltac:(simpl; lia) ltac:(lia)) as H.
  change (ObjectForMeCom _ 2010 1) with (Some (MkObject 0x2110 3 DataTypeInt32 true)) in H.
  destruct H as (_ & _ & H). destruct (H eq_refl eq_refl) as (Hack & _).
  - constructor; [|constructor]. apply foreign_abort; simpl; lia.
  - destruct (Hack eq_refl) as (req & Hreq & Hw). exists req. split; [exact Hreq|exact Hw].
Defined.

(** ** Binary MeCom: answers and refusals *)
Definition binary_answer (address seq word : Z) : Frame :=
  MkFrame (0x400 + address)
    (zb (0x80 + seq mod 128) :: zb address :: be_put 2 BinaryCmdQueryValue ++ be_put 4 word) 8.
Definition binary_nack (address seq code : Z) : Frame :=
  MkFrame (0x400 + address)
    (zb (0x80 + seq mod 128) :: zb address :: be_put 2 BinaryCmdResponseError ++ zb code :: replicate 3 x00) 8.

(** Other identifiers, and answers of this device to another sequence number. *)
Inductive other_answer (address seq : Z) : BusEvent → Prop :=
  | other_idle : other_answer address seq (Interrupt None false)
  | other_id f : f_ID f ≠ 0x400 + address → other_answer address seq (Recv (Ok f))
  | other_seq s w : s mod 128 ≠ seq mod 128 →
      other_answer address seq (Recv (Ok (binary_answer address s w))).

Lemma land_7f z : Z.land z 0x7f = z mod 128.
Proof. change 0x7f with (Z.ones 7). by rewrite Z.land_ones by lia. Qed.

Lemma control_byte s : let k := bz (zb (0x80 + s mod 128)) in
  (Z.land k 0x80 =? 0) = false ∧ Z.land k 0x7f = s mod 128.
Proof.
  intros k. pose proof (Z.mod_pos_bound s 128 ltac:(lia)) as Hs.
  assert (Hk : k = 0x80 + s mod 128) by (unfold k; rewrite bz_zb; zdiv). clearbody k. subst k.
  revert Hs. generalize (s mod 128). intros r Hr. split; cycle 1.
  - rewrite land_7f. zdiv.
  - assert (Hcheck : forallb (λ z, negb (Z.land (0x80 + z) 0x80 =? 0)) (Z.of_nat <$> seq 0 128) = true)
      by (vm_compute; reflexivity).
    apply (range_check (λ z, negb (Z.land (0x80 + z) 0x80 =? 0))) with (z := r) in Hcheck; [|lia].
    by apply negb_true_iff.
Qed.

Lemma can_accept_answer address s t w : 0 ≤ address < 256 → 0 ≤ w < 2 ^ 32 →
  can_accept address s t (binary_answer address s w) = Some (Ok (word_value t w)).
Proof.
  intros Ha Hw. unfold can_accept, binary_answer. cbn [f_ID].
  destruct (Z.eqb_spec (0x400 + address) (0x300 + address)); [lia|]. rewrite Z.eqb_refl. cbn [negb].
  destruct (control_byte s) as [Hk Hs].
  assert (Hw' : be_get (slice (zb (0x80 + s mod 128) :: zb address :: be_put 2 BinaryCmdQueryValue ++
    be_put 4 w) 4 8) = w).
  { change (slice _ 4 8) with (be_put 4 w). apply be_get_put_small. simpl. lia. }
  assert (Hc : be_get (slice (zb (0x80 + s mod 128) :: zb address :: be_put 2 BinaryCmdQueryValue ++
    be_put 4 w) 2 4) = 1) by reflexivity.
  unfold BinaryResponseMatchesRequest, DecodeBinaryCANFrame, at_. cbn [f_DLC f_Data nth].
  rewrite Hk, Hs, land_7f, Hw', Hc, bz_zb_small by done. rewrite !Z.eqb_refl.
  unfold word_value. simpl. by destruct (bool_decide _).
Qed.

(** The refusal never matches: its command is not the command of the request. *)
Lemma can_accept_nack address s t code : 0 ≤ address < 256 → 
  can_accept address s t (binary_nack address s code) = None ∧
  ∃ f, DecodeBinaryCANFrame (binary_nack address s code) t = Err (Errorf f [code mod 256]).
Proof.
  intros Ha. destruct (control_byte s) as [Hk Hs]. split.
  - unfold can_accept, binary_nack. cbn [f_ID].
    destruct (Z.eqb_spec (0x400 + address) (0x300 + address)); [lia|]. rewrite Z.eqb_refl. cbn [negb].
    unfold BinaryResponseMatchesRequest, at_. cbn [f_DLC f_Data nth].
    rewrite Hk, Hs, land_7f, bz_zb_small by done. rewrite !Z.eqb_refl. done.
  - unfold DecodeBinaryCANFrame, binary_nack, at_. cbn [f_DLC f_Data nth]. rewrite Hk.
    change (nth 2 _ _) with (zb code). rewrite !bz_zb. change (8 <? 8) with false. cbv iota.
    match goal with |- context [be_get ?x =? BinaryCmdResponseError] => change (be_get x) with 6 end.
    change (6 =? BinaryCmdResponseError) with true. cbv iota. destruct (errorsByCode _); eexists; reflexivity.
Qed.

Lemma other_answer_idle address s t e : 0 ≤ address < 256 → other_answer address s e →
  idle (can_accept address s t) e.
Proof.
  intros Ha [|f Hf|s' w Hs]; simpl; [done| |]; unfold can_accept.
  - destruct (_ =? _); [done|]. apply Z.eqb_neq in Hf. by rewrite Hf.
  - unfold binary_answer. cbn [f_ID].
    destruct (Z.eqb_spec (0x400 + address) (0x300 + address)); [lia|]. rewrite Z.eqb_refl. cbn [negb].
    destruct (control_byte s') as [Hk Hk']. unfold BinaryResponseMatchesRequest, at_.
    cbn [f_DLC f_Data nth]. rewrite Hk, Hk', land_7f, bz_zb_small by done. rewrite Z.eqb_refl.
    apply Z.eqb_neq in Hs. rewrite Hs. done.
Qed.

(** A binary read takes the answer of its own sequence number and never sees a
    refusal.  Other traffic and answers to other sequence numbers are skipped, the
    answer's word is decoded with the parameter's type.  The device's refusal of
    this very request, which the decoder would report with its code, is skipped
    as well, because its command field is not that of a read: with nothing after
    it the read ends in a timeout. *)
Theorem binary_read_skips_refusals (c : CANClient) (call : Call) (paramID instance word code : Z)
    (t : DataType) (ns rest : list BusEvent) :
  0 ≤ can_address c < 256 → validateParameterAddress paramID instance = Ok () → t ≠ ""%string →
  call_ctxErr call = None → call_sendErr call = None → 0 ≤ word < 2 ^ 32 →
  let s := can_seq (nextSeq c).1 in
  let req := MkFrame (0x300 + can_address c)
    (BuildBinarySingleGetFrame (can_address c) s paramID instance ++ [x00]) 7 in
  let after unread := MkCANClient (can_address c) s (MkBus unread (sent (can_bus c) ++ [req])) in
  Forall (other_answer (can_address c) s) ns →
  (events (can_bus c) = ns ++ Recv (Ok (binary_answer (can_address c) s word)) :: rest →
     can_readNumeric call paramID instance t c = (after rest, Ok (word_value t word))) ∧
  (events (can_bus c) = ns ++ [Recv (Ok (binary_nack (can_address c) s code))] →
     can_readNumeric call paramID instance t c =
       (after [], Err (Wrapf "%w: CAN response after %s" [] (Sentinel ErrTimeout)))) ∧
  (∃ f, DecodeBinaryCANFrame (binary_nack (can_address c) s code) t = Err (Errorf f [code mod 256])).
Proof.
  intros Ha Hv Ht Hctx Hsend Hw s req after Hns.
  assert (Hidle : Forall (idle (can_accept (can_address c) s t)) ns).
  { eapply Forall_impl; [exact Hns|]. intros e. by apply other_answer_idle. }
  destruct (can_accept_nack (can_address c) s t code Ha) as [Hnack Hdec].
  split_and!; [| |exact Hdec]; intros Hev; unfold can_readNumeric; rewrite Hv, bool_decide_false, Hctx by done;
    destruct (nextSeq c) as [c' s'] eqn:Hseq; unfold nextSeq in Hseq; injection Hseq as <- <-;
    cbn [can_address can_bus can_seq bus_Send events sent bus_left]; rewrite Hsend, Hev.
  - rewrite recv_loop_idle by done. cbn [recv_loop]. by rewrite can_accept_answer.
  - rewrite recv_loop_idle by done. cbn [recv_loop]. by rewrite (proj1 (can_accept_nack _ _ _ _ Ha)).
Qed.

Lemma binary_read_skips_refusals_witness :
  can_readNumeric plain_call 1000 1 DataTypeFloat32
    (MkCANClient 2 41 (MkBus [Recv (Ok (binary_answer 2 41 7)); Recv (Ok (binary_nack 2 42 5))] [])) =
  (MkCANClient 2 42 (MkBus [] [MkFrame 0x302 [x2a; x02; x00; x01; x03; xe8; x01; x00] 7]),
   Err (Wrapf "%w: CAN response after %s" [] (Sentinel ErrTimeout))).
Proof.
  destruct (binary_read_skips_refusals
    (MkCANClient 2 41 (MkBus [Recv (Ok (binary_answer 2 41 7)); Recv (Ok (binary_nack 2 42 5))] []))
    plain_call 1000 1 0 5 DataTypeFloat32 [Recv (Ok (binary_answer 2 41 7))] []) as (_ & H & _);
    [simpl; lia|done|done|done|done|lia| |exact (H eq_refl)].
  constructor; [|constructor]. apply other_seq. vm_compute. discriminate.
Defined.
