(* ===== verification/CanMerge.v ===== *)
(** * CanMerge: joining the records of two capture rings ([canring/ring.go])

    A primary ring and a fallback ring hold mirrored frames.  [MergeRecords] takes
    a fast path for sorted inputs and a positive limit ([mergeRecordsTail], which
    keeps the last records in a circular buffer); the plain path
    ([mergeRecordsFull]) is its specification here.  A [time.Time] is its number
    of nanoseconds since the epoch, which is what the rings store. *)
From stdpp Require Import prelude list.
From Stdlib Require Import Strings.Byte.
From S2P Require Import Prelude Text.
Open Scope Z_scope.

(** [Record]. *)
Record CanRecord := MkCanRecord {
  r_Seq : Z;
  r_Time : Z;
  r_ElapsedNanos : Z;
  r_ID : Z;
  r_DLC : Z;
  r_Data : bytes;
  r_Interface : bytes;
  r_Chunk : Z }.

Definition recordKey : Type := Z * Z * Z * bytes * bytes.
Definition newRecordKey (r : CanRecord) : recordKey :=
  (r_Time r, r_ID r, r_DLC r, r_Data r, r_Interface r).

Definition recordBefore (a b : CanRecord) : bool :=
  if negb (r_Time a =? r_Time b) then r_Time a <? r_Time b
  else if negb (r_Seq a =? r_Seq b) then r_Seq a <? r_Seq b
  else if negb (r_ID a =? r_ID b) then r_ID a <? r_ID b
  else bytes_ltb (r_Interface a) (r_Interface b).

(** ** The plain path *)

(** [sort.SliceStable] with [recordBefore]: equal records keep their order. *)
Fixpoint insert_stable (x : CanRecord) (l : list CanRecord) : list CanRecord :=
  match l with
  | [] => [x]
  | y :: l' => if recordBefore y x then y :: insert_stable x l' else x :: l
  end.
Fixpoint SliceStable (l : list CanRecord) : list CanRecord :=
  match l with [] => [] | x :: l' => insert_stable x (SliceStable l') end.

(** One round of the two loops that drop repeated keys. *)
Definition keep_new (st : list recordKey * list CanRecord) (r : CanRecord) :
    list recordKey * list CanRecord :=
  let '(seen, merged) := st in
  if bool_decide (newRecordKey r ∈ seen) then (seen, merged)
  else (newRecordKey r :: seen, merged ++ [r]).

Definition mergeRecordsFull (primary fallback : list CanRecord) (limit : Z) : list CanRecord :=
  let '(_, merged) := fold_left keep_new fallback (fold_left keep_new primary ([], [])) in
  let merged := SliceStable merged in
  if (0 <? limit) && (limit <? Z.of_nat (length merged)) then lastn (Z.to_nat limit) merged else merged.

(** ** The fast path *)
Fixpoint sorted_from (prev : CanRecord) (l : list CanRecord) : bool :=
  match l with
  | [] => true
  | r :: l' => if recordBefore r prev then false else sorted_from r l'
  end.
Definition recordsSorted (records : list CanRecord) : bool :=
  match records with [] => true | r :: l => sorted_from r l end.

Record Tail := MkTail {
  tail : list CanRecord;
  start : nat;
  count : nat;
  seenPrimary : list recordKey;
  seenFallback : list recordKey }.

Definition push (limit : nat) (primaryKeys : list recordKey) (record : CanRecord)
    (sourcePrimary : bool) (st : Tail) : Tail :=
  let key := newRecordKey record in
  let store sp sf :=
    if (count st <? limit)%nat then
      MkTail (<[((start st + count st) mod limit)%nat := record]> (tail st)) (start st) (S (count st)) sp sf
    else MkTail (<[start st := record]> (tail st)) ((start st + 1) mod limit)%nat (count st) sp sf in
  if sourcePrimary then
    if bool_decide (key ∈ seenPrimary st) then st
    else store (key :: seenPrimary st) (seenFallback st)
  else if bool_decide (key ∈ primaryKeys) then st
  else if bool_decide (key ∈ seenFallback st) then st
  else store (seenPrimary st) (key :: seenFallback st).

(** The loop over what is left of both inputs: every round takes one record, so
    the number of records left is fuel enough. *)
Fixpoint merge_loop (limit : nat) (primaryKeys : list recordKey) (fuel : nat)
    (primary fallback : list CanRecord) (st : Tail) : Tail :=
  match fuel with
  | O => st
  | S fuel =>
      match primary, fallback with
      | [], [] => st
      | p :: primary', [] => merge_loop limit primaryKeys fuel primary' [] (push limit primaryKeys p true st)
      | [], f :: fallback' => merge_loop limit primaryKeys fuel [] fallback' (push limit primaryKeys f false st)
      | p :: primary', f :: fallback' =>
          if recordBefore p f then
            merge_loop limit primaryKeys fuel primary' fallback (push limit primaryKeys p true st)
          else if recordBefore f p then
            merge_loop limit primaryKeys fuel primary fallback' (push limit primaryKeys f false st)
          else merge_loop limit primaryKeys fuel primary' fallback (push limit primaryKeys p true st)
      end
  end.

Definition zeroRecord : CanRecord := MkCanRecord 0 0 0 0 0 (replicate 8 x00) [] 0.

Definition mergeRecordsTail (primary fallback : list CanRecord) (limit : nat) : list CanRecord :=
  let primaryKeys := newRecordKey <$> primary in
  let st := merge_loop limit primaryKeys (length primary + length fallback) primary fallback
              (MkTail (replicate limit zeroRecord) 0 0 [] []) in
  (λ i, nth ((start st + i) mod limit) (tail st) zeroRecord) <$> seq 0 (count st).

Definition MergeRecords (primary fallback : list CanRecord) (limit : Z) : list CanRecord :=
  if (0 <? limit) && recordsSorted primary && recordsSorted fallback then
    mergeRecordsTail primary fallback (Z.to_nat limit)
  else mergeRecordsFull primary fallback limit.

(** ** The order of records *)
Lemma recordBefore_split a b c : recordBefore a c = true →
  recordBefore a b = true ∨ recordBefore b c = true.
Proof.
  unfold recordBefore.
  destruct (Z.eqb_spec (r_Time a) (r_Time c)); destruct (Z.eqb_spec (r_Time a) (r_Time b));
    destruct (Z.eqb_spec (r_Time b) (r_Time c)); simpl; rewrite ?Z.ltb_lt; try lia.
  destruct (Z.eqb_spec (r_Seq a) (r_Seq c)); destruct (Z.eqb_spec (r_Seq a) (r_Seq b));
    destruct (Z.eqb_spec (r_Seq b) (r_Seq c)); simpl; rewrite ?Z.ltb_lt; try lia.
  destruct (Z.eqb_spec (r_ID a) (r_ID c)); destruct (Z.eqb_spec (r_ID a) (r_ID b));
    destruct (Z.eqb_spec (r_ID b) (r_ID c)); simpl; rewrite ?Z.ltb_lt; try lia.
  apply bytes_ltb_split.
Qed.

Lemma recordBefore_asym a b : recordBefore a b = true → recordBefore b a = false.
Proof.
  unfold recordBefore.
  rewrite (Z.eqb_sym (r_Time b)), (Z.eqb_sym (r_Seq b)), (Z.eqb_sym (r_ID b)).
  destruct (Z.eqb_spec (r_Time a) (r_Time b)); simpl; [|rewrite Z.ltb_lt, Z.ltb_ge; lia].
  destruct (Z.eqb_spec (r_Seq a) (r_Seq b)); simpl; [|rewrite Z.ltb_lt, Z.ltb_ge; lia].
  destruct (Z.eqb_spec (r_ID a) (r_ID b)); simpl; [apply bytes_ltb_asym|rewrite Z.ltb_lt, Z.ltb_ge; lia].
Qed.

Lemma not_before_trans a b c : recordBefore a b = false → recordBefore b c = false →
  recordBefore a c = false.
Proof. intros H1 H2. apply not_true_iff_false. intros [H|H]%(recordBefore_split a b c); congruence. Qed.

Lemma before_mono a b c : recordBefore a b = true → recordBefore c b = false → recordBefore a c = true.
Proof. intros H1 H2. apply (recordBefore_split a c b) in H1 as [H|H]; congruence. Qed.

(** ** Sorted lists and the merge of two of them *)
Definition none_before (a : CanRecord) (l : list CanRecord) : Prop :=
  Forall (λ b, recordBefore b a = false) l.

Lemma recordsSorted_cons a l : recordsSorted (a :: l) = true ↔ none_before a l ∧ recordsSorted l = true.
Proof.
  simpl. revert a. induction l as [|b l IH]; intros a; simpl;
    [split; [intros _; split; [constructor|done]|done]|].
  destruct (recordBefore b a) eqn:Hb.
  - split; [done|]. intros [H _]. inversion H; congruence.
  - rewrite IH. split.
    + intros [Hn Hs]. split; [|by split]. constructor; [done|].
      eapply Forall_impl; [exact Hn|]. intros c Hc. by apply (not_before_trans c b a).
    + by intros [_ [Hn Hs]].
Qed.

Fixpoint merge_list (p : list CanRecord) : list CanRecord → list CanRecord :=
  fix go f :=
    match p, f with
    | [], _ => f
    | _, [] => p
    | a :: p', b :: f' => if recordBefore b a then b :: go f' else a :: merge_list p' f
    end.

Lemma merge_list_nil_r p : merge_list p [] = p.
Proof. by destruct p. Qed.
Lemma merge_list_nil_l f : merge_list [] f = f.
Proof. by destruct f. Qed.

Lemma merge_list_left a p f : none_before a f → merge_list (a :: p) f = a :: merge_list p f.
Proof.
  intros Hf. destruct f as [|b f]; [by rewrite !merge_list_nil_r|].
  inversion Hf as [|? ? Hb]. simpl. by rewrite Hb.
Qed.
Lemma merge_list_right b p f : Forall (λ a, recordBefore b a = true) p →
  merge_list p (b :: f) = b :: merge_list p f.
Proof. destruct 1 as [|a p Ha _]; [by rewrite !merge_list_nil_l|]. simpl. by rewrite Ha. Qed.

Lemma none_before_insert a x l : none_before a l → recordBefore x a = false → none_before a (insert_stable x l).
Proof.
  intros Hl Hx. induction Hl as [|y l Hy Hl IH]; simpl; [by repeat constructor|].
  destruct (recordBefore y x); by repeat constructor.
Qed.

Lemma insert_none_before a l : none_before a l → insert_stable a l = a :: l.
Proof. destruct 1 as [|b l Hb _]; simpl; [done|]. by rewrite Hb. Qed.

Lemma insert_merge a p f : recordsSorted (a :: p) = true → recordsSorted f = true →
  insert_stable a (merge_list p f) = merge_list (a :: p) f.
Proof.
  intros [Hp Hsp]%recordsSorted_cons. induction f as [|b f IH]; intros Hf.
  - rewrite merge_list_nil_r. by rewrite insert_none_before.
  - apply recordsSorted_cons in Hf as [Hf Hsf]. destruct (recordBefore b a) eqn:Hba.
    + assert (Hall : Forall (λ x, recordBefore b x = true) p).
      { eapply Forall_impl; [exact Hp|]. intros x Hx. by apply (before_mono b a x). }
      rewrite !merge_list_right by (first [exact Hall|constructor; [exact Hba|exact Hall]]). cbn [insert_stable]. by rewrite Hba, IH.
    + assert (Hb : none_before a (b :: f)).
      { constructor; [done|]. eapply Forall_impl; [exact Hf|]. intros x Hx. by apply (not_before_trans x b a). }
      rewrite (merge_list_left a p) by done. destruct p as [|x p]; [by rewrite merge_list_nil_l, insert_none_before|].
      cbn [merge_list]. inversion Hp as [|? ? Hx]; subst. inversion Hb; subst.
      destruct (recordBefore b x); cbn [insert_stable]; [by rewrite Hba|by rewrite Hx].
Qed.

Lemma SliceStable_sorted l : recordsSorted l = true → SliceStable l = l.
Proof.
  induction l as [|a l IH]; [done|]. intros [Hn Hs]%recordsSorted_cons. cbn [SliceStable].
  rewrite IH by done. by apply insert_none_before.
Qed.

Lemma SliceStable_merge p f : recordsSorted p = true → recordsSorted f = true →
  SliceStable (p ++ f) = merge_list p f.
Proof.
  intros Hp Hf. induction p as [|a p IH]; [by rewrite merge_list_nil_l, SliceStable_sorted|].
  cbn [app SliceStable]. rewrite IH by (by apply recordsSorted_cons in Hp as [_ ?]). by apply insert_merge.
Qed.

(** ** Dropping repeated keys *)
Fixpoint dedupe (seen : list recordKey) (l : list CanRecord) : list CanRecord :=
  match l with
  | [] => []
  | r :: l' => if bool_decide (newRecordKey r ∈ seen) then dedupe seen l'
               else r :: dedupe (newRecordKey r :: seen) l'
  end.

Lemma dedupe_ext s1 s2 l : (∀ k, k ∈ s1 ↔ k ∈ s2) → dedupe s1 l = dedupe s2 l.
Proof.
  revert s1 s2. induction l as [|r l IH]; intros s1 s2 Hs; simpl; [done|].
  rewrite (bool_decide_ext _ _ (Hs (newRecordKey r))). destruct (bool_decide _); [by apply IH|].
  f_equal. apply IH. intros k. by rewrite !elem_of_cons, Hs.
Qed.

Lemma dedupe_Forall (P : CanRecord → Prop) s l : Forall P l → Forall P (dedupe s l).
Proof.
  intros H. revert s. induction H; intros s; simpl; [constructor|].
  destruct (bool_decide _); [done|by constructor].
Qed.

Lemma dedupe_sorted s l : recordsSorted l = true → recordsSorted (dedupe s l) = true.
Proof.
  revert s. induction l as [|r l IH]; intros s; [done|]. intros [Hn Hs]%recordsSorted_cons.
  cbn [dedupe]. destruct (bool_decide _); [by apply IH|]. apply recordsSorted_cons.
  split; [by apply dedupe_Forall|by apply IH].
Qed.

Lemma keep_new_fold l seen m : ∃ seen', fold_left keep_new l (seen, m) = (seen', m ++ dedupe seen l) ∧
  ∀ k, k ∈ seen' ↔ k ∈ seen ∨ k ∈ newRecordKey <$> l.
Proof.
  revert seen m. induction l as [|r l IH]; intros seen m; cbn [fold_left dedupe keep_new].
  - exists seen. rewrite app_nil_r. split; [done|]. intros k. simpl. rewrite elem_of_nil. tauto.
  - rewrite fmap_cons. destruct (bool_decide_reflect (newRecordKey r ∈ seen)) as [Hr|Hr].
    + destruct (IH seen m) as (seen' & -> & Hk). exists seen'. split; [done|]. intros k.
      rewrite Hk, elem_of_cons. split; [tauto|]. intros [?|[->|?]]; auto.
    + destruct (IH (newRecordKey r :: seen) (m ++ [r])) as (seen' & -> & Hk). exists seen'.
      split; [by rewrite <-app_assoc|]. intros k. rewrite Hk, !elem_of_cons. tauto.
Qed.

(** ** The circular buffer holds the last records *)
Definition holds (limit : nat) (st : Tail) (l : list CanRecord) : Prop :=
  (0 < limit)%nat ∧ length (tail st) = limit ∧ count st = (length l `min` limit)%nat ∧
  (start st < limit)%nat ∧ ((count st < limit)%nat → start st = 0%nat) ∧
  ∀ i, (i < count st)%nat → tail st !! ((start st + i) mod limit)%nat = lastn (count st) l !! i.

Lemma lookup_lastn {A} n (l : list A) i : (n ≤ length l)%nat → lastn n l !! i = l !! (length l - n + i)%nat.
Proof. intros. unfold lastn. by rewrite lookup_drop. Qed.

Lemma mod_add_inj a i j n : (a < n)%nat → (i < n)%nat → (j < n)%nat →
  ((a + i) mod n = (a + j) mod n)%nat → i = j.
Proof.
  intros Ha Hi Hj H.
  assert (Hmod : ∀ k, (k < n)%nat → ((a + k) mod n = if a + k <? n then a + k else a + k - n)%nat).
  { intros k Hk. destruct (Nat.ltb_spec (a + k) n); [by apply Nat.mod_small|].
    replace (a + k)%nat with (a + k - n + 1 * n)%nat at 1 by lia.
    rewrite Nat.Div0.mod_add. apply Nat.mod_small. lia. }
  rewrite !Hmod in H by done.
  destruct (Nat.ltb_spec (a + i) n); destruct (Nat.ltb_spec (a + j) n); lia.
Qed.

(** The store of [push], whichever side the record comes from. *)
Definition stored (limit : nat) (r : CanRecord) (st st' : Tail) : Prop :=
  if (count st <? limit)%nat then
    tail st' = <[((start st + count st) mod limit)%nat := r]> (tail st) ∧ start st' = start st ∧
    count st' = S (count st)
  else tail st' = <[start st := r]> (tail st) ∧ start st' = ((start st + 1) mod limit)%nat ∧
       count st' = count st.

Lemma stored_holds limit r st st' l : holds limit st l → stored limit r st st' → holds limit st' (l ++ [r]).
Proof.
  intros (Hlim & Hlen & Hc & Hs & H0 & Hl) Hst. unfold stored in Hst. unfold holds.
  destruct (Nat.ltb_spec (count st) limit) as [Hlt|Hge]; destruct Hst as (-> & -> & ->).
  - rewrite (H0 Hlt) in *. rewrite length_insert, length_app. cbn [length]. cbn [Nat.add] in *.
    split_and!; try lia. intros i Hi. rewrite lookup_lastn by len.
    rewrite !length_app. cbn [length]. replace (length l + 1 - S (count st) + i)%nat with i by lia.
    rewrite !Nat.mod_small by lia. destruct (decide (i = count st)) as [->|Hne].
    + rewrite list_lookup_insert_eq by lia. rewrite lookup_app_r by lia.
      by replace (count st - length l)%nat with 0%nat by lia.
    + rewrite list_lookup_insert_ne by lia. rewrite lookup_app_l by lia.
      specialize (Hl i ltac:(lia)). rewrite Nat.mod_small in Hl by lia. rewrite Hl, lookup_lastn by lia.
      f_equal. lia.
  - assert (Hcl : count st = limit) by lia. rewrite Hcl in *. rewrite length_insert, length_app. cbn [length].
    pose proof (Nat.mod_upper_bound (start st + 1) limit ltac:(lia)).
    split_and!; try lia. intros i Hi. rewrite lookup_lastn by (rewrite length_app; simpl; lia). rewrite !length_app. cbn [length].
    rewrite Nat.Div0.add_mod_idemp_l. destruct (decide (i = limit - 1)%nat) as [->|Hne].
    + replace (start st + 1 + (limit - 1))%nat with (start st + 1 * limit)%nat by lia.
      rewrite Nat.Div0.mod_add, Nat.mod_small by lia. rewrite list_lookup_insert_eq by lia.
      rewrite lookup_app_r by lia. by replace (_ - _)%nat with 0%nat by lia.
    + replace (start st + 1 + i)%nat with (start st + S i)%nat by lia.
      rewrite list_lookup_insert_ne.
      2: { intros Heq. assert (S i = 0)%nat; [|lia]. apply (mod_add_inj (start st) (S i) 0 limit); try lia.
           by rewrite Nat.add_0_r, <-Heq, Nat.mod_small by lia. }
      rewrite Hl by lia. rewrite lookup_lastn, lookup_app_l by lia. f_equal. lia.
Qed.

Lemma push_holds limit pk r side st l : holds limit st l →
  let st' := push limit pk r side st in
  let old := if side then bool_decide (newRecordKey r ∈ seenPrimary st)
             else bool_decide (newRecordKey r ∈ seenFallback st ++ pk) in
  if old then st' = st
  else holds limit st' (l ++ [r]) ∧
       seenPrimary st' = (if side then [newRecordKey r] else []) ++ seenPrimary st ∧
       seenFallback st' = (if side then [] else [newRecordKey r]) ++ seenFallback st.
Proof.
  intros Hh. cbv zeta. unfold push. destruct side; cbv zeta.
  - destruct (bool_decide _); [done|]. split_and!; [|by destruct (_ <? _)%nat..].
    apply (stored_holds _ _ st); [done|]. unfold stored. by destruct (_ <? _)%nat.
  - rewrite (bool_decide_ext (_ ∈ _ ++ _) _ (elem_of_app _ _ _)).
    destruct (bool_decide_reflect (newRecordKey r ∈ pk)).
    { by rewrite bool_decide_true by auto. }
    destruct (bool_decide_reflect (newRecordKey r ∈ seenFallback st)).
    { by rewrite bool_decide_true by auto. }
    rewrite bool_decide_false by tauto. split_and!; [|by destruct (_ <? _)%nat..].
    apply (stored_holds _ _ st); [done|]. unfold stored. by destruct (_ <? _)%nat.
Qed.

(** The loop stores the merge of what both sides keep. *)
Lemma merge_loop_holds limit pk fuel p f st l :
  recordsSorted p = true → recordsSorted f = true → (length p + length f ≤ fuel)%nat → holds limit st l →
  holds limit (merge_loop limit pk fuel p f st)
    (l ++ merge_list (dedupe (seenPrimary st) p) (dedupe (seenFallback st ++ pk) f)).
Proof.
  revert p f st l. induction fuel as [|fuel IH]; intros p f st l Hp Hf Hfuel Hh.
  { destruct p, f; simpl in Hfuel; try lia. cbn [dedupe]. by rewrite merge_list_nil_l, app_nil_r. }
  (* one record of the primary ring *)
  assert (Hprim : ∀ a p', p = a :: p' → none_before a (dedupe (seenFallback st ++ pk) f) →
    holds limit (merge_loop limit pk fuel p' f (push limit pk a true st))
      (l ++ merge_list (dedupe (seenPrimary st) p) (dedupe (seenFallback st ++ pk) f))).
  { intros a p' -> Ha. apply recordsSorted_cons in Hp as [_ Hp]. simpl in Hfuel.
    pose proof (push_holds limit pk a true st l Hh) as Hpush. cbv zeta in Hpush. cbn [dedupe].
    destruct (bool_decide (newRecordKey a ∈ seenPrimary st)).
    - rewrite Hpush. apply IH; [done..|lia|done].
    - destruct Hpush as (Hh' & Hsp & Hsf). rewrite merge_list_left by done.
      replace (l ++ a :: merge_list (dedupe (newRecordKey a :: seenPrimary st) p')
        (dedupe (seenFallback st ++ pk) f)) with ((l ++ [a]) ++ merge_list
        (dedupe (seenPrimary (push limit pk a true st)) p')
        (dedupe (seenFallback (push limit pk a true st) ++ pk) f)) by (by rewrite Hsp, Hsf, <-app_assoc).
      apply IH; [done..|lia|done]. }
  (* one record of the fallback ring *)
  assert (Hfall : ∀ b f', f = b :: f' → Forall (λ a, recordBefore b a = true) (dedupe (seenPrimary st) p) →
    holds limit (merge_loop limit pk fuel p f' (push limit pk b false st))
      (l ++ merge_list (dedupe (seenPrimary st) p) (dedupe (seenFallback st ++ pk) f))).
  { intros b f' -> Hb. apply recordsSorted_cons in Hf as [_ Hf]. simpl in Hfuel.
    pose proof (push_holds limit pk b false st l Hh) as Hpush. cbv zeta in Hpush. cbn [dedupe].
    destruct (bool_decide (newRecordKey b ∈ seenFallback st ++ pk)).
    - rewrite Hpush. apply IH; [done..|lia|done].
    - destruct Hpush as (Hh' & Hsp & Hsf). rewrite merge_list_right by done.
      replace (l ++ b :: merge_list (dedupe (seenPrimary st) p)
        (dedupe (newRecordKey b :: seenFallback st ++ pk) f')) with ((l ++ [b]) ++ merge_list
        (dedupe (seenPrimary (push limit pk b false st)) p)
        (dedupe (seenFallback (push limit pk b false st) ++ pk) f')) by (by rewrite Hsp, Hsf, <-app_assoc).
      apply IH; [done..|lia|done]. }
  cbn [merge_loop]. destruct p as [|a p], f as [|b f].
  - cbn [dedupe]. by rewrite merge_list_nil_l, app_nil_r.
  - apply Hfall; [done|constructor].
  - apply Hprim; [done|constructor].
  - pose proof Hp as [Hpn _]%recordsSorted_cons. pose proof Hf as [Hfn _]%recordsSorted_cons.
    assert (Hle : recordBefore b a = false → none_before a (dedupe (seenFallback st ++ pk) (b :: f))).
    { intros Hba. apply dedupe_Forall. constructor; [done|]. eapply Forall_impl; [exact Hfn|].
      intros x Hx. by apply (not_before_trans x b a). }
    destruct (recordBefore a b) eqn:Hab; [apply Hprim; auto using recordBefore_asym|].
    destruct (recordBefore b a) eqn:Hba; [|by apply Hprim; auto].
    apply Hfall; [done|]. apply dedupe_Forall. constructor; [done|].
    eapply Forall_impl; [exact Hpn|]. intros x Hx. by apply (before_mono b a x).
Qed.

Lemma holds_read limit st l : holds limit st l →
  (λ i, nth ((start st + i) mod limit) (tail st) zeroRecord) <$> seq 0 (count st) = lastn (count st) l.
Proof.
  intros (Hlim & Hlen & Hc & Hs & _ & Hl). apply list_eq. intros i. rewrite list_lookup_fmap.
  destruct (decide (i < count st)%nat) as [Hi|Hi].
  - rewrite lookup_seq_lt by done. cbn [fmap option_fmap option_map]. rewrite <-(Hl i Hi), Nat.add_0_l.
    pose proof (Nat.mod_upper_bound (start st + i) limit ltac:(lia)).
    destruct (lookup_lt_is_Some_2 (tail st) ((start st + i) mod limit)%nat) as [r Hr]; [lia|].
    rewrite Hr. f_equal. by apply nth_lookup_Some.
  - rewrite lookup_seq_ge by lia. symmetry. apply lookup_ge_None. rewrite length_lastn by lia. lia.
Qed.

(** What the plain path computes before it cuts. *)
Lemma mergeRecordsFull_eq p f limit : mergeRecordsFull p f limit =
  let merged := SliceStable (dedupe [] p ++ dedupe (newRecordKey <$> p) f) in
  if (0 <? limit) && (limit <? Z.of_nat (length merged)) then lastn (Z.to_nat limit) merged else merged.
Proof.
  unfold mergeRecordsFull. destruct (keep_new_fold p [] []) as (seen & -> & Hseen).
  destruct (keep_new_fold f seen ([] ++ dedupe [] p)) as (seen' & -> & _). cbn [app].
  rewrite (dedupe_ext seen (newRecordKey <$> p)); [done|]. intros k. rewrite Hseen, elem_of_nil. tauto.
Qed.

(** C23: the fast merge is the plain merge.  For any two lists of records and any
    limit, [MergeRecords] returns what the plain path returns: the records of
    both rings without repeats (the primary ring's copy of a mirrored frame
    stays), in stable order of time, sequence, identifier and interface, cut to
    the last [limit].  The circular buffer and the two-way merge of the fast path
    are thus invisible. *)
Theorem MergeRecords_equiv (primary fallback : list CanRecord) (limit : Z) :
  MergeRecords primary fallback limit = mergeRecordsFull primary fallback limit.
Proof.
  unfold MergeRecords. destruct (Z.ltb_spec 0 limit) as [Hlim|]; [|done]. cbn [andb].
  destruct (recordsSorted primary) eqn:Hp; [|done]. destruct (recordsSorted fallback) eqn:Hf; [|done].
  cbn [andb]. unfold mergeRecordsTail. cbv zeta. set (n := Z.to_nat limit).
  set (pk := newRecordKey <$> primary). set (st := merge_loop _ _ _ _ _ _).
  assert (Hh : holds n st (merge_list (dedupe [] primary) (dedupe pk fallback))).
  { apply (merge_loop_holds n pk _ primary fallback (MkTail (replicate n zeroRecord) 0 0 [] []) []);
      [done|done|lia|]. unfold holds. simpl. rewrite length_replicate. split_and!; lia || done. }
  rewrite (holds_read n st _ Hh), mergeRecordsFull_eq. cbv zeta.
  rewrite SliceStable_merge by (by apply dedupe_sorted). fold pk.
  destruct Hh as (_ & _ & -> & _). set (l := merge_list _ _).
  destruct (Z.ltb_spec 0 limit); [|lia]. destruct (Z.ltb_spec limit (Z.of_nat (length l))); cbn [andb].
  - f_equal. lia.
  - unfold lastn. by replace (length l - length l `min` n)%nat with 0%nat by lia.
Qed.
