(* ===== verification/CanRing.v ===== *)
(** * CanRing: the fixed-size CAN capture ring ([canring/ring.go])

    A ring file is two superblocks of 4096 bytes, written in turns, and a region of
    chunks of equal size.  The file is its bytes; what the operating system decides
    in one call (how much of a write reached the file before it failed) is an
    argument of the operation. *)
From stdpp Require Import prelude strings list sorting.
From Stdlib Require Import Strings.Byte.
From S2P Require Import Prelude Text Crc CanFrame CanMerge.
Open Scope Z_scope.

(** ** Constants *)
Definition superblockSize : Z := 4096.
Definition superblockCount : Z := 2.
Definition chunkHeaderSize : Z := 64.
Definition recordSize : Z := 48.
Definition minChunkBytes : Z := 64 * 1024.
Definition superblockMagic : bytes := str "MECANRNG".
Definition chunkMagic : Z := 0x4d43524b.
Definition version : Z := 1.
Definition dataStart : Z := superblockCount * superblockSize.

(** ** Files *)

(** [ReadAt]: the bytes there are, at most [n]. *)
Definition ReadAt (file : bytes) (off n : Z) : bytes := take (Z.to_nat n) (drop (Z.to_nat off) file).

(** [WriteAt]: a write that fails has stored a prefix of its bytes. *)
Definition io : Type := option (nat * error).
Definition extend (file : bytes) (n : nat) : bytes := file ++ replicate (n - length file) x00.
Definition WriteAt (w : io) (file data : bytes) (off : Z) : bytes * option error :=
  let '(data, err) := match w with None => (data, None) | Some (n, e) => (take n data, Some e) end in
  (put_at (extend file (Z.to_nat off + length data)) (Z.to_nat off) data, err).

Definition Truncate (file : bytes) (n : Z) : bytes :=
  take (Z.to_nat n) file ++ replicate (Z.to_nat n - length file) x00.

(** ** Superblocks *)
Record RingHeader := MkRingHeader {
  h_Generation : Z;
  h_FileBytes : Z;
  h_ChunkBytes : Z;
  h_ChunkCount : Z;
  h_NextChunk : Z;
  h_TotalChunks : Z;
  h_TotalRecords : Z;
  h_Interface : bytes }.

(** [copy] into a zeroed field of [n] bytes. *)
Definition field (n : nat) (l : bytes) : bytes := take n (l ++ replicate n x00).

(** The bytes [buf[16:]], which the checksum covers. *)
Definition header_body (h : RingHeader) : bytes :=
  le_put 8 (h_Generation h) ++ le_put 8 (h_FileBytes h) ++ le_put 8 (h_ChunkBytes h) ++
  le_put 8 (h_ChunkCount h) ++ le_put 8 (h_NextChunk h) ++ le_put 8 (h_TotalChunks h) ++
  le_put 8 (h_TotalRecords h) ++ field 32 (h_Interface h) ++ le_put 2 recordSize ++
  replicate (Z.to_nat (superblockSize - 106)) x00.
Definition encodeHeader (h : RingHeader) : bytes :=
  superblockMagic ++ le_put 2 version ++ le_put 2 superblockSize ++
  le_put 4 (crc32 (header_body h)) ++ header_body h.

(** [strings.TrimRight(s, "\x00")]. *)
Fixpoint drop_zeros (l : bytes) : bytes :=
  match l with b :: l' => if bool_decide (b = x00) then drop_zeros l' else l | [] => [] end.
Definition TrimRight0 (l : bytes) : bytes := reverse (drop_zeros (reverse l)).

Definition decodeHeader (buf : bytes) : option RingHeader :=
  let u n i := le_get (slice buf i (i + n)) in
  if negb (Z.of_nat (length buf) =? superblockSize) || negb (bool_decide (slice buf 0 8 = superblockMagic))
  then None
  else if negb (u 2%nat 8%nat =? version) || negb (u 2%nat 10%nat =? superblockSize) then None
  else if negb (crc32 (drop 16 buf) =? u 4%nat 12%nat) then None
  else if negb (u 2%nat 104%nat =? recordSize) then None
  else Some (MkRingHeader (u 8 16) (u 8 24) (u 8 32) (u 8 40) (u 8 48) (u 8 56) (u 8 64)
               (TrimRight0 (slice buf 72 104)))%nat.

(** The better of the two superblocks; one that cannot be read is skipped
    ([readErr] is the operating system's verdict on a read at an offset), a short
    one is padded with zeros. *)
Definition better_header (readErr : Z → option error) (file : bytes) (best : option RingHeader) (i : Z) :
    option RingHeader :=
  match readErr (i * superblockSize) with
  | Some _ => best
  | None =>
      match decodeHeader (field (Z.to_nat superblockSize) (ReadAt file (i * superblockSize) superblockSize)) with
      | None => best
      | Some h =>
          match best with
          | Some b => if h_Generation b <? h_Generation h then Some h else best
          | None => Some h
          end
      end
  end.
Definition readLatestHeader (readErr : Z → option error) (file : bytes) : option RingHeader :=
  fold_left (better_header readErr file) [0; 1] None.

(** ** Records and chunks *)
Definition encodeRecord (dst : bytes) (seq ts elapsed : Z) (f : Frame) : bytes :=
  le_put 8 seq ++ le_put 8 (u64 ts) ++ le_put 8 (u64 elapsed) ++ le_put 4 (f_ID f) ++
  [zb (f_DLC f)] ++ slice dst 29 32 ++ field 8 (f_Data f) ++ slice dst 40 48.
Definition decodeRecord (src iface : bytes) (chunk : Z) : CanRecord :=
  MkCanRecord (le_get (slice src 0 8)) (i64 (le_get (slice src 8 16))) (i64 (le_get (slice src 16 24)))
    (le_get (slice src 24 28)) (bz (nth 28 src x00)) (slice src 32 40) iface chunk.

Record ringChunk := MkRingChunk {
  chunkSeq : Z;
  firstSeq : Z;
  lastSeq : Z;
  ck_records : Z;
  payload : bytes }.

(** ** The writer *)
Record Writer := MkWriter {
  w_file : bytes;
  w_path : string;
  chunkBytes : Z;
  chunkCount : Z;
  nextChunk : Z;
  syncChunk : bool;
  w_iface : bytes;
  buf : bytes;
  records : Z;
  w_firstSeq : Z;
  w_lastSeq : Z;
  firstWallNS : Z;
  lastWallNS : Z;
  totalChunks : Z;
  totalRecords : Z;
  generation : Z;
  closed : bool }.

Definition maxRecordsPerChunk (w : Writer) : Z := (chunkBytes w - chunkHeaderSize) `div` recordSize.

Definition set_file (file : bytes) (w : Writer) : Writer :=
  MkWriter file (w_path w) (chunkBytes w) (chunkCount w) (nextChunk w) (syncChunk w) (w_iface w) (buf w)
    (records w) (w_firstSeq w) (w_lastSeq w) (firstWallNS w) (lastWallNS w) (totalChunks w)
    (totalRecords w) (generation w) (closed w).
Definition set_buf (b : bytes) (w : Writer) : Writer :=
  MkWriter (w_file w) (w_path w) (chunkBytes w) (chunkCount w) (nextChunk w) (syncChunk w) (w_iface w) b
    (records w) (w_firstSeq w) (w_lastSeq w) (firstWallNS w) (lastWallNS w) (totalChunks w)
    (totalRecords w) (generation w) (closed w).

Definition writer_header (w : Writer) : RingHeader :=
  MkRingHeader (generation w) (dataStart + chunkCount w * chunkBytes w) (chunkBytes w) (chunkCount w)
    (nextChunk w) (totalChunks w) (totalRecords w) (w_iface w).

Definition writeHeader (wr : io) (w : Writer) : Writer * option error :=
  let w := MkWriter (w_file w) (w_path w) (chunkBytes w) (chunkCount w) (nextChunk w) (syncChunk w)
    (w_iface w) (buf w) (records w) (w_firstSeq w) (w_lastSeq w) (firstWallNS w) (lastWallNS w)
    (totalChunks w) (totalRecords w) (u64 (generation w + 1)) (closed w) in
  let slot := (generation w `mod` superblockCount) * superblockSize in
  let '(file, err) := WriteAt wr (w_file w) (encodeHeader (writer_header w)) slot in
  (set_file file w, err).

(** What the operating system decides in one flush. *)
Record FlushIO := MkFlushIO {
  chunk_write : io;
  header_write : io;
  sync_err : option error }.
Definition good_flush : FlushIO := MkFlushIO None None None.

(** The chunk header the flush stores over the first bytes of the buffer. *)
Definition chunk_header (w : Writer) : bytes :=
  let payloadLen := records w * recordSize in
  le_put 4 chunkMagic ++ le_put 2 version ++ le_put 2 chunkHeaderSize ++ le_put 8 (totalChunks w) ++
  le_put 8 (w_firstSeq w) ++ le_put 8 (w_lastSeq w) ++ le_put 8 (u64 (firstWallNS w)) ++
  le_put 8 (u64 (lastWallNS w)) ++ le_put 4 (u32 (records w)) ++ le_put 4 (u32 payloadLen) ++
  le_put 4 (crc32 (ReadAt (buf w) chunkHeaderSize payloadLen)).

Definition flushChunk (x : FlushIO) (w : Writer) : Writer * option error :=
  if records w =? 0 then (w, None)
  else
    let w := set_buf (put_at (buf w) 0 (chunk_header w)) w in
    let '(file, err) := WriteAt (chunk_write x) (w_file w) (buf w) (dataStart + nextChunk w * chunkBytes w) in
    let w := set_file file w in
    match err with
    | Some e => (w, Some e)
    | None =>
        let w := MkWriter (w_file w) (w_path w) (chunkBytes w) (chunkCount w)
          (u64 (nextChunk w + 1) `mod` chunkCount w) (syncChunk w) (w_iface w) (buf w) 0 (w_firstSeq w)
          (w_lastSeq w) (firstWallNS w) (lastWallNS w) (u64 (totalChunks w + 1)) (totalRecords w)
          (generation w) (closed w) in
        let '(w, err) := writeHeader (header_write x) w in
        match err with
        | Some e => (w, Some e)
        | None => (w, if syncChunk w then sync_err x else None)
        end
    end.

(** [Append]: [None] is a panic (the slice expression [w.buf[offset:offset+48]] is
    out of range).  [ts] is the frame's time and [elapsed] the time since the
    writer was opened, both in nanoseconds. *)
Definition Append (x : FlushIO) (f : Frame) (ts elapsed : Z) (w : Writer) : option (Writer * option error) :=
  if closed w then Some (w, Some (Errorf "can ring writer is closed" []))
  else
    match Frame_Validate f with
    | Err e => Some (w, Some e)
    | Ok _ =>
        let fresh := records w =? 0 in
        let b := if fresh then replicate (length (buf w)) x00 else buf w in
        let first := if fresh then totalRecords w else w_firstSeq w in
        let firstNS := if fresh then i64 ts else firstWallNS w in
        let offset := chunkHeaderSize + records w * recordSize in
        if Z.of_nat (length b) <? offset + recordSize then None
        else
          let dst := ReadAt b offset recordSize in
          let b := put_at b (Z.to_nat offset) (encodeRecord dst (totalRecords w) (i64 ts) (i64 elapsed) f) in
          let w := MkWriter (w_file w) (w_path w) (chunkBytes w) (chunkCount w) (nextChunk w) (syncChunk w)
            (w_iface w) b (records w + 1) first (totalRecords w) firstNS (i64 ts) (totalChunks w)
            (u64 (totalRecords w + 1)) (generation w) (closed w) in
          if maxRecordsPerChunk w <=? records w then Some (flushChunk x w) else Some (w, None)
    end.

Definition Close (x : FlushIO) (closeErr : option error) (w : Writer) : Writer * option error :=
  if closed w then (w, None)
  else
    let '(w, err) := if 0 <? records w then flushChunk x w else (w, None) in
    let err := match err with None => closeErr | Some _ => err end in
    (MkWriter (w_file w) (w_path w) (chunkBytes w) (chunkCount w) (nextChunk w) (syncChunk w) (w_iface w)
       (buf w) (records w) (w_firstSeq w) (w_lastSeq w) (firstWallNS w) (lastWallNS w) (totalChunks w)
       (totalRecords w) (generation w) true, err).

(** ** Statistics *)
Record RingStats := MkRingStats {
  s_Path : string;
  s_SizeBytes : Z;
  s_ChunkBytes : Z;
  s_ChunkCount : Z;
  s_NextChunk : Z;
  s_TotalChunks : Z;
  s_TotalRecords : Z }.
Definition Writer_Stats (w : Writer) : RingStats :=
  MkRingStats (w_path w) (dataStart + chunkCount w * chunkBytes w) (chunkBytes w) (chunkCount w)
    (nextChunk w) (totalChunks w) (totalRecords w).
Definition statsFromHeader (path : string) (h : RingHeader) : RingStats :=
  MkRingStats path (i64 (h_FileBytes h)) (i64 (h_ChunkBytes h)) (h_ChunkCount h) (h_NextChunk h)
    (h_TotalChunks h) (h_TotalRecords h).

(** ** Opening a writer *)
Record RingConfig := MkRingConfig {
  c_Path : string;
  c_SizeBytes : Z;
  c_ChunkBytes : Z;
  c_Interface : bytes;
  c_SyncOnChunk : bool }.

Record OpenIO := MkOpenIO {
  mkdir_err : option error;
  open_err : option error;
  truncate_err : option error;
  read_err : Z → option error;
  clear_writes : nat → io;
  open_header_write : io }.
Definition good_open : OpenIO := MkOpenIO None None None (λ _, None) (λ _, None) None.

(** [clearDataRegion]: pieces of 64 KiB, the last one shorter. *)
Fixpoint clear_loop (writes : nat → io) (fuel k : nat) (offset fileBytes : Z) (file : bytes) :
    bytes * option error :=
  match fuel with
  | O => (file, None)
  | S fuel =>
      if offset <? fileBytes then
        let n := if fileBytes - offset <? minChunkBytes then fileBytes - offset else minChunkBytes in
        let '(file, err) := WriteAt (writes k) file (replicate (Z.to_nat n) x00) offset in
        match err with
        | Some e => (file, Some e)
        | None => clear_loop writes fuel (S k) (offset + n) fileBytes file
        end
      else (file, None)
  end.
Definition clearDataRegion (writes : nat → io) (fileBytes : Z) (file : bytes) : bytes * option error :=
  clear_loop writes (Z.to_nat (fileBytes / minChunkBytes + 1)) 0 dataStart fileBytes file.

(** A ring that is not resumed: clear the data region, write a first header. *)
Definition initialise (x : OpenIO) (fileBytes : Z) (w : Writer) : bytes * res Writer :=
  let '(file, err) := clearDataRegion (clear_writes x) fileBytes (w_file w) in
  match err with
  | Some e => (file, Err e)
  | None =>
      let '(w, err) := writeHeader (open_header_write x) (set_file file w) in
      match err with Some e => (w_file w, Err e) | None => (w_file w, Ok w) end
  end.

(** The file of a ring of [count] chunks: resumed when its latest header has the
    same sizes, initialised otherwise. *)
Definition open_file (x : OpenIO) (cfg : RingConfig) (count : Z) (file : bytes) : bytes * res Writer :=
  let fileBytes := dataStart + count * c_ChunkBytes cfg in
  match mkdir_err x, open_err x, truncate_err x with
  | Some e, _, _ | None, Some e, _ | None, None, Some e => (file, Err e)
  | None, None, None =>
      let file := Truncate file fileBytes in
      let writer iface gen next chunks recs :=
        MkWriter file (c_Path cfg) (c_ChunkBytes cfg) count next (c_SyncOnChunk cfg) iface
          (replicate (Z.to_nat (c_ChunkBytes cfg)) x00) 0 0 0 0 0 chunks recs gen false in
      match readLatestHeader (read_err x) file with
      | None => initialise x fileBytes (writer (c_Interface cfg) 0 0 0 0)
      | Some h =>
          if (h_FileBytes h =? fileBytes) && (h_ChunkBytes h =? c_ChunkBytes cfg)
             && (h_ChunkCount h =? count) then
            let iface := if (length (c_Interface cfg) =? 0)%nat then h_Interface h else c_Interface cfg in
            (file, Ok (writer iface (h_Generation h) (h_NextChunk h `mod` count) (h_TotalChunks h)
                         (h_TotalRecords h)))
          else initialise x fileBytes (writer (c_Interface cfg) (h_Generation h) 0 0 0)
      end
  end.

Definition OpenWriter (x : OpenIO) (cfg : RingConfig) (file : bytes) : bytes * res Writer :=
  if (length (TrimSpace (str (c_Path cfg))) =? 0)%nat then
    (file, Err (Errorf "can ring path is required" []))
  else if c_SizeBytes cfg <=? 0 then (file, Err (Errorf "can ring size must be positive" []))
  else if c_ChunkBytes cfg <? minChunkBytes then
    (file, Err (Errorf "can ring chunk size must be at least %d bytes" [minChunkBytes]))
  else
    let usable := c_SizeBytes cfg - dataStart in
    if usable <? c_ChunkBytes cfg * 2 then
      (file, Err (Errorf "can ring size must hold at least two data chunks" []))
    else open_file x cfg (usable `div` c_ChunkBytes cfg) file.

(** ** The reader *)
Record Reader := MkReader {
  rd_file : bytes;
  rd_path : string;
  rd_h : RingHeader }.

Definition OpenReader (readErr : Z → option error) (openErr : option error) (path : string) (file : bytes) :
    res Reader :=
  if (length (TrimSpace (str path)) =? 0)%nat then Err (Errorf "can ring path is required" [])
  else
    match openErr with
    | Some e => Err e
    | None =>
        match readLatestHeader readErr file with
        | None => Err (Errorf "can ring header is not readable" [])
        | Some h => Ok (MkReader file path h)
        end
    end.

Definition Reader_Stats (r : Reader) : RingStats := statsFromHeader (rd_path r) (rd_h r).

Section reader.
Context (readErr : Z → option error).

(** [file.ReadAt(buf, offset)] for a full buffer: end of file is a soft failure
    where the caller looks for it. *)
Definition read_full (file : bytes) (off n : Z) : res bytes :=
  if off <? 0 then Err (Errorf "negative offset" [])
  else match readErr off with
       | Some e => Err e
       | None =>
           let b := ReadAt file off n in
           if Z.of_nat (length b) <? n then Err (Sentinel IoEOF) else Ok b
       end.

Definition readChunk (r : Reader) (index : Z) : res (option ringChunk) :=
  let h := rd_h r in
  if (h_ChunkBytes h =? 0) || (h_ChunkCount h =? 0) then Ok None
  else
    let offset := i64 (dataStart + index * h_ChunkBytes h) in
    match read_full (rd_file r) offset chunkHeaderSize with
    | Err e => if errors_is e IoEOF then Ok None else Err e
    | Ok b =>
        let u n i := le_get (slice b i (i + n)) in
        if negb (u 4%nat 0%nat =? chunkMagic) then Ok None
        else if negb (u 2%nat 4%nat =? version) || negb (u 2%nat 6%nat =? chunkHeaderSize) then Ok None
        else
          let recs := u 4%nat 48%nat in
          let payloadLen := u 4%nat 52%nat in
          if (recs <=? 0) || negb (payloadLen =? recs * recordSize)
             || (i64 (h_ChunkBytes h) - chunkHeaderSize <? payloadLen) then Ok None
          else
            p ← read_full (rd_file r) (i64 (offset + chunkHeaderSize)) payloadLen;
            if negb (crc32 p =? u 4%nat 56%nat) then Ok None
            else Ok (Some (MkRingChunk (u 8%nat 8%nat) (u 8%nat 16%nat) (u 8%nat 24%nat) recs p))
    end.

(** The chunks of a full scan and of a scan back from the newest. *)
Definition maxChunks (r : Reader) : nat := Z.to_nat (h_ChunkCount (rd_h r) `min` h_TotalChunks (rd_h r)).

Fixpoint read_all (r : Reader) (indices : list nat) (chunks : list ringChunk) : res (list ringChunk) :=
  match indices with
  | [] => Ok chunks
  | i :: indices' =>
      c ← readChunk r (Z.of_nat i);
      read_all r indices' (match c with Some c => chunks ++ [c] | None => chunks end)
  end.
Definition readAllChunks (r : Reader) : res (list ringChunk) := read_all r (seq 0 (maxChunks r)) [].

Fixpoint read_recent (r : Reader) (limit : Z) (scanned : list nat) (recs : Z) (chunks : list ringChunk) :
    res (list ringChunk) :=
  match scanned with
  | [] => Ok chunks
  | s :: scanned' =>
      let h := rd_h r in
      let index := u64 (h_NextChunk h + h_ChunkCount h - 1 - Z.of_nat s) `mod` h_ChunkCount h in
      c ← readChunk r index;
      match c with
      | None => read_recent r limit scanned' recs chunks
      | Some c =>
          let recs := recs + ck_records c in
          if limit <=? recs then Ok (chunks ++ [c])
          else read_recent r limit scanned' recs (chunks ++ [c])
      end
  end.
Definition readRecentChunks (r : Reader) (limit : Z) : res (list ringChunk) :=
  read_recent r limit (seq 0 (maxChunks r)) 0 [].

Definition snapshotChunks (r : Reader) (limit : Z) : res (list ringChunk) :=
  if h_ChunkCount (rd_h r) =? 0 then Ok []
  else if limit <=? 0 then readAllChunks r
  else readRecentChunks r limit.

(** [sort.Slice] by first sequence, then chunk sequence.  The chunks of a ring
    differ in this key, so the result does not depend on the algorithm. *)
Definition chunk_less (a b : ringChunk) : bool :=
  if firstSeq a =? firstSeq b then chunkSeq a <? chunkSeq b else firstSeq a <? firstSeq b.
Fixpoint insert_chunk (x : ringChunk) (l : list ringChunk) : list ringChunk :=
  match l with
  | [] => [x]
  | y :: l' => if chunk_less x y then x :: l else y :: insert_chunk x l'
  end.
Definition sort_chunks (l : list ringChunk) : list ringChunk := foldr insert_chunk [] l.

Definition chunk_records (iface : bytes) (c : ringChunk) : list CanRecord :=
  (λ i, let offset := (Z.of_nat i * recordSize)%Z in
        decodeRecord (ReadAt (payload c) offset recordSize) iface (chunkSeq c))
    <$> seq 0 (Z.to_nat (ck_records c)).

Record RingSnapshot := MkRingSnapshot {
  sn_Stats : RingStats;
  sn_Records : list CanRecord;
  sn_ValidChunks : Z }.

Definition Snapshot (limit : Z) (r : Reader) : Reader * res RingSnapshot :=
  match readLatestHeader readErr (rd_file r) with
  | None => (r, Err (Errorf "can ring header is not readable" []))
  | Some h =>
      let r := MkReader (rd_file r) (rd_path r) h in
      (r, chunks ← snapshotChunks r limit;
          let chunks := sort_chunks chunks in
          let recs := chunks ≫= chunk_records (h_Interface h) in
          let recs := if (0 <? limit) && (limit <? Z.of_nat (length recs)) then lastn (Z.to_nat limit) recs
                      else recs in
          Ok (MkRingSnapshot (statsFromHeader (rd_path r) h) recs (Z.of_nat (length chunks))))
  end.
End reader.

(** ** Round trips of the encodings *)
Lemma length_field n l : length (field n l) = n.
Proof. unfold field. rewrite length_take, length_app, length_replicate. lia. Qed.
#[export] Hint Rewrite length_field : mecom_len.

Lemma crc32_range l : 0 ≤ crc32 l < 2 ^ 32.
Proof.
  assert (Hshift : ∀ r, 0 ≤ r < 2 ^ 32 → 0 ≤ crc32_shift r < 2 ^ 32).
  { intros r Hr. unfold crc32_shift. rewrite Z.shiftr_div_pow2 by lia.
    assert (0 ≤ r / 2 ^ 1 < 2 ^ 32) by zdiv. destruct (Z.testbit r 0); [apply lxor_range|]; lia. }
  assert (Hbyte : ∀ r b, 0 ≤ r < 2 ^ 32 → 0 ≤ crc32_byte r b < 2 ^ 32).
  { intros r b Hr. unfold crc32_byte. pose proof (bz_range b).
    assert (H0 : 0 ≤ Z.lxor r (bz b) < 2 ^ 32) by (apply lxor_range; lia).
    revert H0. generalize (Z.lxor r (bz b)). generalize 8%nat. intros n z Hz. induction n; simpl; auto. }
  unfold crc32. apply lxor_range; [lia| |lia].
  assert (H : 0 ≤ 0xFFFFFFFF < 2 ^ 32) by lia. revert H. generalize 0xFFFFFFFF.
  induction l as [|b l IH]; intros r Hr; simpl; auto.
Qed.

(** The [j]th field of a concatenation. *)
Ltac at_field :=
  repeat (rewrite slice_after by (autorewrite with mecom_len; simpl; lia));
  autorewrite with mecom_len; cbn [length Nat.sub Nat.add];
  first [rewrite slice_head by (autorewrite with mecom_len; simpl; lia)
        |rewrite slice_all by (autorewrite with mecom_len; simpl; lia)].

Definition frame_valid (f : Frame) : Prop :=
  0 ≤ f_ID f < 2 ^ 32 ∧ 0 ≤ f_DLC f ≤ 8 ∧ length (f_Data f) = 8%nat.

(** The record a frame becomes. *)
Definition stamp (iface : bytes) (chunk seq ts elapsed : Z) (f : Frame) : CanRecord :=
  MkCanRecord seq (i64 ts) (i64 elapsed) (f_ID f) (f_DLC f) (f_Data f) iface chunk.

Lemma length_encodeRecord dst seq ts el f : length dst = 48%nat → length (encodeRecord dst seq ts el f) = 48%nat.
Proof.
  intros Hd. unfold encodeRecord. rewrite !length_app, !length_le_put, length_field.
  rewrite !length_slice by lia. done.
Qed.

Lemma i64_range z : - 2 ^ 63 ≤ i64 z < 2 ^ 63.
Proof. apply (signed_range 64). lia. Qed.

Lemma field_exact n l : length l = n → field n l = l.
Proof. intros <-. apply take_app_length. Qed.

Lemma decode_encodeRecord dst seq ts el f iface k : length dst = 48%nat → 0 ≤ seq < 2 ^ 64 → frame_valid f →
  decodeRecord (encodeRecord dst seq (i64 ts) (i64 el) f) iface k = stamp iface k seq ts el f.
Proof.
  intros Hd Hs (Hid & Hdlc & Hdata). unfold decodeRecord, stamp.
  assert (H29 : length (slice dst 29 32) = 3%nat) by (rewrite length_slice; lia).
  assert (H1 : slice (encodeRecord dst seq (i64 ts) (i64 el) f) 0 8 = le_put 8 seq) by (unfold encodeRecord; by at_field).
  assert (H2 : slice (encodeRecord dst seq (i64 ts) (i64 el) f) 8 16 = le_put 8 (u64 (i64 ts))) by (unfold encodeRecord; by at_field).
  assert (H3 : slice (encodeRecord dst seq (i64 ts) (i64 el) f) 16 24 = le_put 8 (u64 (i64 el))) by (unfold encodeRecord; by at_field).
  assert (H4 : slice (encodeRecord dst seq (i64 ts) (i64 el) f) 24 28 = le_put 4 (f_ID f)) by (unfold encodeRecord; by at_field).
  assert (H5 : nth 28 (encodeRecord dst seq (i64 ts) (i64 el) f) x00 = zb (f_DLC f)) by reflexivity.
  assert (H6 : slice (encodeRecord dst seq (i64 ts) (i64 el) f) 32 40 = f_Data f).
  { unfold encodeRecord. rewrite !(slice_after (le_put _ _)) by (rewrite ?length_le_put; lia).
    rewrite !length_le_put. rewrite (slice_after [_]) by (simpl; lia). rewrite (slice_after (slice dst 29 32)) by (rewrite ?H29; simpl; lia).
    rewrite H29. rewrite slice_head by (rewrite length_field; done). by apply field_exact. }
  rewrite H1, H2, H3, H4, H5, H6. pose proof (i64_range ts). pose proof (i64_range el).
  pose proof (u64_range (i64 ts)). pose proof (u64_range (i64 el)).
  rewrite !le_get_put_small by (change (256 ^ Z.of_nat 8) with (2 ^ 64); change (256 ^ Z.of_nat 4) with (2 ^ 32); lia).
  rewrite !i64_u64 by done. by rewrite bz_zb_small by lia.
Qed.

Definition header_ok (h : RingHeader) : Prop :=
  0 ≤ h_Generation h < 2 ^ 64 ∧ 0 ≤ h_FileBytes h < 2 ^ 64 ∧ 0 ≤ h_ChunkBytes h < 2 ^ 64 ∧
  0 ≤ h_ChunkCount h < 2 ^ 64 ∧ 0 ≤ h_NextChunk h < 2 ^ 64 ∧ 0 ≤ h_TotalChunks h < 2 ^ 64 ∧
  0 ≤ h_TotalRecords h < 2 ^ 64 ∧ (length (h_Interface h) ≤ 32)%nat ∧ last (h_Interface h) ≠ Some x00.

Lemma TrimRight0_field n l : (length l ≤ n)%nat → last l ≠ Some x00 → TrimRight0 (field n l) = l.
Proof.
  intros Hn Hl. unfold TrimRight0, field. rewrite take_app_ge by lia.
  rewrite take_replicate, reverse_app.
  assert (Hz : ∀ k m, drop_zeros (reverse (replicate k x00) ++ m) = drop_zeros m).
  { induction k; intros m; simpl; [done|]. by rewrite reverse_cons, <-app_assoc, IHk. }
  rewrite Hz. destruct l as [|x l _] using rev_ind; [done|]. rewrite reverse_app. simpl.
  rewrite last_snoc in Hl. rewrite bool_decide_false by congruence.
  by rewrite <-(reverse_involutive (l ++ [x])), reverse_app.
Qed.

Lemma length_header_body h : length (header_body h) = Z.to_nat 4080.
Proof.
  unfold header_body. rewrite !length_app, !length_le_put, length_field, length_replicate.
  unfold superblockSize. lia.
Qed.
Lemma length_encodeHeader h : length (encodeHeader h) = Z.to_nat superblockSize.
Proof.
  unfold encodeHeader. rewrite !length_app, !length_le_put, length_header_body.
  change (length superblockMagic) with 8%nat. unfold superblockSize. lia.
Qed.

Section header.
Context (h : RingHeader) (Hok : header_ok h).
Let pre : bytes := superblockMagic ++ le_put 2 version ++ le_put 2 superblockSize ++ le_put 4 (crc32 (header_body h)).

Lemma encodeHeader_split : encodeHeader h = pre ++ header_body h.
Proof using. unfold encodeHeader, pre. by rewrite <-!app_assoc. Qed.
Lemma length_pre : length pre = 16%nat.
Proof using. done. Qed.

Lemma header_slice i j : (16 ≤ i)%nat → (i ≤ j)%nat →
  slice (encodeHeader h) i j = slice (header_body h) (i - 16) (j - 16).
Proof using. intros. rewrite encodeHeader_split, slice_after by (rewrite ?length_pre; lia). by rewrite length_pre. Qed.

Lemma decode_encodeHeader : decodeHeader (encodeHeader h) = Some h.
Proof using Hok.
  destruct Hok as (Hg & Hf & Hc & Hn & Hx & Ht & Hr & Hl & H0).
  unfold decodeHeader. cbv zeta. rewrite length_encodeHeader. cbn [Nat.add].
  rewrite (header_slice 16), (header_slice 24), (header_slice 32), (header_slice 40), (header_slice 48),
    (header_slice 56), (header_slice 64), (header_slice 72), (header_slice 104) by lia. cbn [Nat.sub].
  assert (Hpre : slice (encodeHeader h) 0 8 = superblockMagic ∧ slice (encodeHeader h) 8 10 = le_put 2 version ∧
    slice (encodeHeader h) 10 12 = le_put 2 superblockSize ∧
    slice (encodeHeader h) 12 16 = le_put 4 (crc32 (header_body h)) ∧ drop 16 (encodeHeader h) = header_body h).
  { rewrite encodeHeader_split, !slice_app_l by (rewrite length_pre; lia). split_and!; reflexivity. }
  destruct Hpre as (-> & -> & -> & -> & ->).
  assert (Hbody : slice (header_body h) 0 8 = le_put 8 (h_Generation h) ∧
    slice (header_body h) 8 16 = le_put 8 (h_FileBytes h) ∧ slice (header_body h) 16 24 = le_put 8 (h_ChunkBytes h) ∧
    slice (header_body h) 24 32 = le_put 8 (h_ChunkCount h) ∧ slice (header_body h) 32 40 = le_put 8 (h_NextChunk h) ∧
    slice (header_body h) 40 48 = le_put 8 (h_TotalChunks h) ∧ slice (header_body h) 48 56 = le_put 8 (h_TotalRecords h) ∧
    slice (header_body h) 56 88 = field 32 (h_Interface h) ∧ slice (header_body h) 88 90 = le_put 2 recordSize).
  { unfold header_body. generalize (replicate (Z.to_nat (superblockSize - 106)) x00). intros rest. split_and!; by at_field. }
  destruct Hbody as (-> & -> & -> & -> & -> & -> & -> & -> & ->).
  pose proof (crc32_range (header_body h)).
  rewrite !le_get_put_small by (change (256 ^ Z.of_nat 8) with (2 ^ 64); change (256 ^ Z.of_nat 4) with (2 ^ 32);
    change (256 ^ Z.of_nat 2) with (2 ^ 16); unfold version, superblockSize, recordSize; lia).
  rewrite Z2Nat.id, !Z.eqb_refl, bool_decide_true by done. cbn [negb orb].
  rewrite TrimRight0_field by done. by destruct h.
Qed.
End header.
