(* ===== verification/CanRingWriter.v ===== *)
(** * CanRingWriter: the ring file refines a list of chunks ([canring/ring.go])

    The abstract ring (committed chunks, pending frames), the invariant that ties a
    writer and its file to it, and the proof that opening, appending, flushing and
    closing keep the invariant.  [CanRingSnapshot] adds the reader. *)
From stdpp Require Import prelude strings list sorting.
From Stdlib Require Import Strings.Byte.
From S2P Require Import Prelude Text Crc CanFrame CanMerge CanRing.
Open Scope Z_scope.

(** ** Specification: chunks of records

    A ring commits chunks of numbered frames, [M] to a chunk, and keeps the last
    [cc] of them.  The abstract state is the committed chunks and the pending
    frames. *)
Record Entry := MkEntry {
  e_ts : Z;
  e_elapsed : Z;
  e_frame : Frame }.
Abbreviation numbered := (Z * Entry)%type.

Record AbstractRing := MkAbstractRing {
  committed : list (list numbered);
  pending : list numbered }.
Definition appended (a : AbstractRing) : list numbered := concat (committed a) ++ pending a.
Definition spec_append (M : nat) (a : AbstractRing) (e : Entry) : AbstractRing :=
  let p := pending a ++ [(Z.of_nat (length (appended a)), e)] in
  if (M <=? length p)%nat then MkAbstractRing (committed a ++ [p]) []
  else MkAbstractRing (committed a) p.
Definition spec_close (a : AbstractRing) : AbstractRing :=
  match pending a with
  | [] => a
  | p => MkAbstractRing (committed a ++ [p]) []
  end.
Definition spec_session (M : nat) (a : AbstractRing) (s : list Entry) : AbstractRing :=
  spec_close (fold_left (spec_append M) s a).

(** What a reader sees of it: the records of the chunks still in the ring. *)
Definition stamp_chunk (iface : bytes) (kN : nat * list numbered) : list CanRecord :=
  (λ n : numbered, stamp iface (Z.of_nat kN.1) n.1 (e_ts n.2) (e_elapsed n.2) (e_frame n.2)) <$> kN.2.
Definition newest (n : nat) (F : list (list numbered)) : list (nat * list numbered) :=
  (λ k, (k, default [] (F !! k))) <$> seq (length F - n) n.
Definition retained (cc : nat) (F : list (list numbered)) : list (nat * list numbered) :=
  newest (length F `min` cc) F.
Definition spec_records (cc : nat) (iface : bytes) (F : list (list numbered)) : list CanRecord :=
  retained cc F ≫= stamp_chunk iface.

(** The program's run: open, append, close, over and over, with a disk that works. *)
Fixpoint append_all (s : list Entry) (w : Writer) : option Writer :=
  match s with
  | [] => Some w
  | e :: s' =>
      match Append good_flush (e_frame e) (e_ts e) (e_elapsed e) w with
      | Some (w', None) => append_all s' w'
      | _ => None
      end
  end.
Definition run_session (cfg : RingConfig) (s : list Entry) (file : bytes) : option bytes :=
  match OpenWriter good_open cfg file with
  | (_, Ok w) =>
      w' ← append_all s w;
      match Close good_flush None w' with
      | (w'', None) => Some (w_file w'')
      | _ => None
      end
  | _ => None
  end.
Fixpoint run_sessions (cfg : RingConfig) (ss : list (list Entry)) (file : bytes) : option bytes :=
  match ss with
  | [] => Some file
  | s :: ss' => file' ← run_session cfg s file; run_sessions cfg ss' file'
  end.

(** ** The layout of buffers and slots *)
Definition rec_bytes (n : numbered) : bytes :=
  encodeRecord (replicate 48 x00) n.1 (i64 (e_ts n.2)) (i64 (e_elapsed n.2)) (e_frame n.2).
Definition payload_of (N : list numbered) : bytes := N ≫= rec_bytes.
Definition entry_ok (n : numbered) : Prop := 0 ≤ n.1 < 2 ^ 64 ∧ frame_valid (e_frame n.2).

Lemma length_rec_bytes n : length (rec_bytes n) = 48%nat.
Proof. by apply length_encodeRecord. Qed.
Lemma length_payload_of N : length (payload_of N) = (48 * length N)%nat.
Proof. induction N as [|n N IH]; [done|]. unfold payload_of in *. cbn [mbind list_bind]. rewrite length_app, length_rec_bytes, IH. simpl. lia. Qed.
Lemma payload_of_app N1 N2 : payload_of (N1 ++ N2) = payload_of N1 ++ payload_of N2.
Proof. apply bind_app. Qed.

(** The [i]th record of a payload. *)
Lemma payload_slice N i n : N !! i = Some n → slice (payload_of N) (48 * i) (48 * i + 48) = rec_bytes n.
Proof.
  intros Hi. rewrite <-(take_drop_middle N i n Hi), payload_of_app.
  assert (Hlen : length (payload_of (take i N)) = (48 * i)%nat).
  { rewrite length_payload_of, length_take. apply lookup_lt_Some in Hi. lia. }
  rewrite slice_after by lia. rewrite Hlen.
  replace (48 * i - 48 * i)%nat with 0%nat by lia. replace (48 * i + 48 - 48 * i)%nat with 48%nat by lia.
  change (payload_of (n :: drop (S i) N)) with (rec_bytes n ++ payload_of (drop (S i) N)).
  apply slice_head. by rewrite length_rec_bytes.
Qed.

Definition chunk_bytes_header (k first last fw lw n : Z) (p : bytes) : bytes :=
  le_put 4 chunkMagic ++ le_put 2 version ++ le_put 2 chunkHeaderSize ++ le_put 8 k ++ le_put 8 first ++
  le_put 8 last ++ le_put 8 fw ++ le_put 8 lw ++ le_put 4 n ++ le_put 4 (n * recordSize) ++ le_put 4 (crc32 p).
Definition slot_ok (cb : Z) (slot : bytes) (k : nat) (N : list numbered) : Prop :=
  ∃ first last fw lw gap pad,
    slot = chunk_bytes_header (Z.of_nat k) first last fw lw (Z.of_nat (length N)) (payload_of N)
           ++ gap ++ payload_of N ++ pad ∧
    length slot = Z.to_nat cb ∧ length gap = 4%nat ∧ (fst <$> head N) = Some first.
Definition slot_offset (cb cc : Z) (k : nat) : Z := dataStart + (Z.of_nat k `mod` cc) * cb.
Definition chunk_at (cb cc : Z) (file : bytes) (k : nat) (N : list numbered) : Prop :=
  slot_ok cb (slice file (Z.to_nat (slot_offset cb cc k)) (Z.to_nat (slot_offset cb cc k) + Z.to_nat cb)) k N.

Lemma slice_slice {A} (l : list A) a b i j : (a + j ≤ b)%nat → slice (slice l a b) i j = slice l (a + i) (a + j).
Proof.
  intros Hb. unfold slice. rewrite skipn_firstn_comm, drop_drop, take_take. f_equal. lia.
Qed.
Lemma ReadAt_slice file off n : 0 ≤ off → 0 ≤ n → ReadAt file off n = slice file (Z.to_nat off) (Z.to_nat off + Z.to_nat n).
Proof. intros. unfold ReadAt, slice. f_equal. lia. Qed.

Lemma WriteAt_good file data off : 0 ≤ off → (Z.to_nat off + length data ≤ length file)%nat →
  WriteAt None file data off = (put_at file (Z.to_nat off) data, None).
Proof.
  intros. unfold WriteAt, extend. replace (_ - length file)%nat with 0%nat by lia. by rewrite app_nil_r.
Qed.

Lemma length_chunk_bytes_header k first last fw lw n p : length (chunk_bytes_header k first last fw lw n p) = 60%nat.
Proof. done. Qed.

(** The numbers of a header are read back. *)
Section chunk_header_fields.
Context (k first last fw lw n : Z) (p rest : bytes).
Let b := chunk_bytes_header k first last fw lw n p ++ rest.
Lemma chunk_header_fields : 
  slice b 0 4 = le_put 4 chunkMagic ∧ slice b 4 6 = le_put 2 version ∧ slice b 6 8 = le_put 2 chunkHeaderSize ∧
  slice b 8 16 = le_put 8 k ∧ slice b 16 24 = le_put 8 first ∧ slice b 24 32 = le_put 8 last ∧
  slice b 48 52 = le_put 4 n ∧ slice b 52 56 = le_put 4 (n * recordSize) ∧ slice b 56 60 = le_put 4 (crc32 p).
Proof using. unfold b, chunk_bytes_header. rewrite <-!app_assoc. split_and!; by at_field. Qed.
End chunk_header_fields.

Section geometry.
(** A ring whose sizes fit their fields. *)
Context (cb cc : Z) (Hcb : minChunkBytes ≤ cb < 2 ^ 32) (Hcc : 2 ≤ cc) (Hfits : dataStart + cc * cb < 2 ^ 63).

Lemma slot_offset_range k : dataStart ≤ slot_offset cb cc k ∧ slot_offset cb cc k + cb ≤ dataStart + cc * cb.
Proof using Hcb Hcc.
  unfold slot_offset. pose proof (Z.mod_pos_bound (Z.of_nat k) cc ltac:(lia)).
  unfold minChunkBytes in Hcb. nia.
Qed.

Lemma slot_offset_disjoint k j : Z.of_nat k `mod` cc ≠ Z.of_nat j `mod` cc →
  slot_offset cb cc k + cb ≤ slot_offset cb cc j ∨ slot_offset cb cc j + cb ≤ slot_offset cb cc k.
Proof using Hcb. intros Hne. unfold slot_offset. unfold minChunkBytes in Hcb. nia. Qed.

(** The number of records a chunk holds. *)
Definition max_records : nat := Z.to_nat ((cb - chunkHeaderSize) `div` recordSize).
Lemma max_records_fit n : (n ≤ max_records)%nat → 64 + 48 * Z.of_nat n ≤ cb.
Proof using Hcb.
  unfold max_records, chunkHeaderSize, recordSize. unfold minChunkBytes in Hcb. intros Hn.
  pose proof (Z.mul_div_le (cb - 64) 48 ltac:(lia)). lia.
Qed.
Lemma max_records_pos : (0 < max_records)%nat.
Proof using Hcb. unfold max_records, chunkHeaderSize, recordSize. unfold minChunkBytes in Hcb. zdiv. Qed.

(** A chunk that lies in its slot is read. *)
Lemma readChunk_slot r k N : rd_h r = MkRingHeader (h_Generation (rd_h r)) (h_FileBytes (rd_h r)) cb cc
    (h_NextChunk (rd_h r)) (h_TotalChunks (rd_h r)) (h_TotalRecords (rd_h r)) (h_Interface (rd_h r)) →
  Z.of_nat (length (rd_file r)) = dataStart + cc * cb → chunk_at cb cc (rd_file r) k N →
  Z.of_nat k < 2 ^ 64 → N ≠ [] → (length N ≤ max_records)%nat → Forall entry_ok N →
  ∃ c, readChunk (λ _, None) r (Z.of_nat k `mod` cc) = Ok (Some c) ∧ chunkSeq c = Z.of_nat k ∧
    Some (firstSeq c) = fst <$> head N ∧ ck_records c = Z.of_nat (length N) ∧ payload c = payload_of N.
Proof using Hcb Hcc Hfits.
  intros Hh Hlen (first & lst & fw & lw & gap & pad & Hslot & Hls & Hg & Hfirst) Hk HN Hmax Hok.
  pose proof (slot_offset_range k) as Hoff. pose proof (max_records_fit _ Hmax) as Hfit.
  set (off := slot_offset cb cc k) in *.
  assert (HN0 : (0 < length N)%nat) by (destruct N; simpl; [done|lia]).
  assert (Hff : 0 ≤ first < 2 ^ 64).
  { destruct N as [|n N]; [done|]. injection Hfirst as <-. by inversion Hok as [|? ? [? _]]. }
  assert (Hds : dataStart = 8192) by reflexivity. unfold minChunkBytes in Hcb.
  set (b := ReadAt (rd_file r) off chunkHeaderSize).
  assert (Hb : b = chunk_bytes_header (Z.of_nat k) first lst fw lw (Z.of_nat (length N)) (payload_of N) ++ gap).
  { unfold b. rewrite ReadAt_slice by (unfold chunkHeaderSize; lia). unfold chunkHeaderSize.
    transitivity (slice (slice (rd_file r) (Z.to_nat off) (Z.to_nat off + Z.to_nat cb)) 0 64).
    { rewrite slice_slice by lia. f_equal; lia. }
    rewrite Hslot, app_assoc, slice_head; [done|]. by rewrite length_app, Hg. }
  assert (Hp : ReadAt (rd_file r) (off + chunkHeaderSize) (Z.of_nat (length N) * recordSize) = payload_of N).
  { rewrite ReadAt_slice by (unfold chunkHeaderSize, recordSize; lia). unfold chunkHeaderSize, recordSize.
    transitivity (slice (slice (rd_file r) (Z.to_nat off) (Z.to_nat off + Z.to_nat cb)) 64 (64 + 48 * length N)).
    { rewrite slice_slice by lia. f_equal; lia. }
    rewrite Hslot. rewrite slice_after by (rewrite ?length_chunk_bytes_header; lia).
    rewrite length_chunk_bytes_header, slice_after by (rewrite ?Hg; lia). rewrite Hg.
    replace (64 - 60 - 4)%nat with 0%nat by lia. apply slice_head. rewrite length_payload_of. lia. }
  exists (MkRingChunk (Z.of_nat k) first (u64 lst) (Z.of_nat (length N)) (payload_of N)).
  split; [|done]. unfold readChunk. rewrite Hh. cbn [h_ChunkBytes h_ChunkCount].
  destruct (Z.eqb_spec cb 0); [lia|]. destruct (Z.eqb_spec cc 0); [lia|]. cbn [orb].
  fold (slot_offset cb cc k). fold off.
  assert (Hi64 : ∀ z, 0 ≤ z < 2 ^ 63 → i64 z = z).
  { intros z Hz. unfold i64, signed. rewrite Z.mod_small by lia.
    destruct (Z.ltb_spec z (2 ^ (64 - 1))); lia. }
  rewrite (Hi64 off) by lia. rewrite (Hi64 cb) by lia.
  rewrite (Hi64 (off + chunkHeaderSize)) by (unfold chunkHeaderSize; lia).
  unfold read_full. destruct (Z.ltb_spec off 0); [lia|]. cbv zeta. fold b.
  assert (Hlb : Z.of_nat (length b) = 64) by (rewrite Hb, length_app, Hg; done).
  rewrite Hlb. change (64 <? chunkHeaderSize) with false. cbv iota.
  destruct (chunk_header_fields (Z.of_nat k) first lst fw lw (Z.of_nat (length N)) (payload_of N) gap)
    as (F1 & F2 & F3 & F4 & F5 & F6 & F7 & F8 & F9).
  cbn [Nat.add]. rewrite Hb, F1, F2, F3, F4, F5, F6, F7, F8, F9.
  pose proof (crc32_range (payload_of N)).
  rewrite (le_get_put 8 lst). change (256 ^ Z.of_nat 8) with (2 ^ 64). fold (u64 lst).
  rewrite !le_get_put_small by (change (256 ^ Z.of_nat 8) with (2 ^ 64); change (256 ^ Z.of_nat 4) with (2 ^ 32);
    change (256 ^ Z.of_nat 2) with (2 ^ 16); unfold version, chunkMagic, chunkHeaderSize, recordSize; lia).
  rewrite !Z.eqb_refl. cbn [negb orb]. unfold chunkHeaderSize at 1.
  destruct (Z.leb_spec (Z.of_nat (length N)) 0); [lia|]. cbn [orb].
  destruct (Z.ltb_spec (cb - 64) (Z.of_nat (length N) * recordSize)); [unfold recordSize in *; lia|].
  destruct (Z.ltb_spec (off + chunkHeaderSize) 0); [unfold chunkHeaderSize in *; lia|].
  rewrite Hp. rewrite length_payload_of.
  destruct (Z.ltb_spec (Z.of_nat (48 * length N)) (Z.of_nat (length N) * recordSize)); [unfold recordSize in *; lia|].
  cbn [mbind result_bind]. by rewrite Z.eqb_refl.
Qed.
End geometry.

Lemma chunk_records_stamp iface c k N : chunkSeq c = Z.of_nat k → ck_records c = Z.of_nat (length N) →
  payload c = payload_of N → Forall entry_ok N → chunk_records iface c = stamp_chunk iface (k, N).
Proof.
  intros Hk Hn Hp Hok. unfold chunk_records, stamp_chunk. rewrite Hn, Nat2Z.id. cbn [fst snd].
  apply list_eq. intros i. rewrite !list_lookup_fmap. destruct (N !! i) as [n|] eqn:Hi.
  - pose proof (lookup_lt_Some _ _ _ Hi). rewrite lookup_seq_lt by done.
    cbn [fmap option_fmap option_map]. f_equal. rewrite Hk, Hp.
    rewrite ReadAt_slice by (unfold recordSize; lia).
    replace (Z.to_nat (Z.of_nat (0 + i) * recordSize)) with (48 * i)%nat by (unfold recordSize; lia).
    change (Z.to_nat recordSize) with 48%nat. rewrite (payload_slice N i n Hi).
    destruct (Forall_lookup_1 _ _ _ _ Hok Hi) as [Hs Hf]. by apply decode_encodeRecord.
  - rewrite lookup_seq_ge; [done|]. by apply lookup_ge_None.
Qed.

(** ** The invariant of the writer *)
Definition superblock (file : bytes) (i : Z) : option RingHeader :=
  decodeHeader (field (Z.to_nat superblockSize) (ReadAt file (i * superblockSize) superblockSize)).
Definition not_newer (g : Z) (h : option RingHeader) : Prop :=
  match h with Some h => h_Generation h < g | None => True end.

(** The superblocks of a file: the current header in the slot of its generation,
    nothing newer in the other. *)
Definition current_header (file : bytes) (h : RingHeader) : Prop :=
  superblock file (h_Generation h `mod` 2) = Some h ∧
  not_newer (h_Generation h) (superblock file (1 - h_Generation h `mod` 2)).

Lemma better_header_eq file best i : better_header (λ _, None) file best i =
  match superblock file i with
  | None => best
  | Some h => match best with
              | Some b => if h_Generation b <? h_Generation h then Some h else best
              | None => Some h
              end
  end.
Proof. unfold better_header, superblock. generalize (field (Z.to_nat superblockSize)). reflexivity. Qed.

Lemma readLatestHeader_eq file : readLatestHeader (λ _, None) file =
  match superblock file 0, superblock file 1 with
  | None, o | o, None => o
  | Some h0, Some h1 => if h_Generation h0 <? h_Generation h1 then Some h1 else Some h0
  end.
Proof.
  unfold readLatestHeader. cbn [fold_left]. rewrite !better_header_eq.
  by destruct (superblock file 0), (superblock file 1).
Qed.
(** From here on the kernel unfolds everything else first: the buffers are large. *)
#[global] Strategy 100 [readLatestHeader].

Lemma current_header_read file h : current_header file h → readLatestHeader (λ _, None) file = Some h.
Proof.
  intros [Hc Ho]. rewrite readLatestHeader_eq.
  pose proof (Z.mod_pos_bound (h_Generation h) 2 ltac:(lia)).
  assert (h_Generation h `mod` 2 = 0 ∨ h_Generation h `mod` 2 = 1) as [Hm|Hm] by lia; rewrite Hm in *; rewrite Hc.
  - change (1 - 0) with 1 in Ho. destruct (superblock file 1) as [h'|]; [|done].
    simpl in Ho. by destruct (Z.ltb_spec (h_Generation h) (h_Generation h')); [lia|].
  - change (1 - 1) with 0 in Ho. destruct (superblock file 0) as [h'|]; [|done].
    simpl in Ho. by destruct (Z.ltb_spec (h_Generation h') (h_Generation h)); [|lia].
Qed.

Lemma superblock_slice file i : 0 ≤ i < 2 → (Z.to_nat dataStart ≤ length file)%nat →
  superblock file i = decodeHeader (slice file (Z.to_nat (i * superblockSize)) (Z.to_nat (i * superblockSize + superblockSize))).
Proof.
  intros Hi Hl. unfold superblock. assert (Hd : dataStart = 8192) by reflexivity.
  rewrite ReadAt_slice by (unfold superblockSize; lia). f_equal. unfold superblockSize in *.
  replace (Z.to_nat (i * 4096) + Z.to_nat 4096)%nat with (Z.to_nat (i * 4096 + 4096)) by lia.
  apply field_exact. rewrite length_slice by lia. lia.
Qed.

(** Writing a superblock. *)
Lemma superblock_write file h i j : header_ok h → 0 ≤ i < 2 → 0 ≤ j < 2 → (Z.to_nat dataStart ≤ length file)%nat →
  superblock (put_at file (Z.to_nat (i * superblockSize)) (encodeHeader h)) j =
    if decide (i = j) then Some h else superblock file j.
Proof.
  intros Hh Hi Hj Hl. assert (Hd : dataStart = 8192) by reflexivity.
  assert (Hlen : length (encodeHeader h) = Z.to_nat superblockSize) by apply length_encodeHeader.
  unfold superblockSize in *.
  rewrite !superblock_slice by (rewrite ?length_put_at by lia; lia). unfold superblockSize.
  destruct (decide (i = j)) as [->|Hne].
  - rewrite <-(decode_encodeHeader h Hh). f_equal.
    replace (Z.to_nat (j * 4096 + 4096)) with (Z.to_nat (j * 4096) + length (encodeHeader h))%nat by lia.
    apply slice_put_at. lia.
  - f_equal. destruct (decide (j < i)).
    + apply slice_put_at_before; lia.
    + apply slice_put_at_after; lia.
Qed.

(** A write below the data region keeps the chunks; one above keeps the superblocks. *)
Lemma superblock_data_write file data off i : 0 ≤ i < 2 → (Z.to_nat dataStart ≤ off)%nat →
  (off + length data ≤ length file)%nat → superblock (put_at file off data) i = superblock file i.
Proof.
  intros Hi Ho Hl. assert (Hd : dataStart = 8192) by reflexivity.
  rewrite !superblock_slice by (rewrite ?length_put_at by lia; lia). f_equal.
  apply slice_put_at_before; unfold superblockSize; lia.
Qed.

Lemma current_header_data_write file data off h : (Z.to_nat dataStart ≤ off)%nat →
  (off + length data ≤ length file)%nat → current_header file h → current_header (put_at file off data) h.
Proof.
  intros Ho Hl [Hc Hn]. pose proof (Z.mod_pos_bound (h_Generation h) 2 ltac:(lia)).
  split; by rewrite superblock_data_write by (done || lia).
Qed.

(** The header of the next generation takes the older slot. *)
Lemma current_header_next file h h' : header_ok h' → h_Generation h' = h_Generation h + 1 →
  (Z.to_nat dataStart ≤ length file)%nat → current_header file h →
  current_header (put_at file (Z.to_nat ((h_Generation h' `mod` superblockCount) * superblockSize)) (encodeHeader h')) h'.
Proof.
  intros Hok Hg Hl [Hc _]. change superblockCount with 2.
  pose proof (Z.mod_pos_bound (h_Generation h') 2 ltac:(lia)).
  assert (Ho : 1 - h_Generation h' `mod` 2 = h_Generation h `mod` 2) by (rewrite Hg; zdiv).
  split; rewrite superblock_write by (done || lia).
  - by rewrite decide_True.
  - rewrite decide_False by lia. rewrite Ho, Hc. simpl. lia.
Qed.

Section invariant.
Context (cb cc : Z) (Hcb : minChunkBytes ≤ cb < 2 ^ 32) (Hcc : 2 ≤ cc) (Hfits : dataStart + cc * cb < 2 ^ 63).
Context (iface : bytes) (Hiface : (length iface ≤ 32)%nat ∧ last iface ≠ Some x00).
Abbreviation M := (max_records cb).

(** The frames are numbered in order, and each chunk fits. *)
Definition log_ok (a : AbstractRing) : Prop :=
  (∀ i n, appended a !! i = Some n → n.1 = Z.of_nat i ∧ frame_valid (e_frame n.2)) ∧
  Forall (λ N, N ≠ [] ∧ (length N ≤ M)%nat) (committed a) ∧ (length (pending a) ≤ M)%nat ∧
  Z.of_nat (length (appended a)) < 2 ^ 62.

(** The header last written. *)
Definition ring_header (g : Z) (F : list (list numbered)) : RingHeader :=
  MkRingHeader g (dataStart + cc * cb) cb cc (Z.of_nat (length F) `mod` cc) (Z.of_nat (length F))
    (Z.of_nat (length (concat F))) iface.

Definition file_ok (file : bytes) (g : Z) (F : list (list numbered)) : Prop :=
  Z.of_nat (length file) = dataStart + cc * cb ∧ 0 ≤ g ∧ g + 2 ^ 62 < 2 ^ 64 + Z.of_nat (length F) ∧
  current_header file (ring_header g F) ∧
  ∀ k N, F !! k = Some N → Z.of_nat (length F) ≤ Z.of_nat k + cc → chunk_at cb cc file k N.

Definition buf_of (P : list numbered) : bytes :=
  replicate 64 x00 ++ payload_of P ++ replicate (Z.to_nat cb - 64 - 48 * length P) x00.

Record writer_ok (w : Writer) (a : AbstractRing) : Prop := MkWriterOk {
  wo_log : log_ok a;
  wo_file : file_ok (w_file w) (generation w) (committed a);
  wo_closed : closed w = false;
  wo_cb : chunkBytes w = cb;
  wo_cc : chunkCount w = cc;
  wo_next : nextChunk w = Z.of_nat (length (committed a)) `mod` cc;
  wo_iface : w_iface w = iface;
  wo_records : records w = Z.of_nat (length (pending a));
  wo_chunks : totalChunks w = Z.of_nat (length (committed a));
  wo_total : totalRecords w = Z.of_nat (length (appended a));
  wo_buflen : length (buf w) = Z.to_nat cb;
  wo_buf : pending a ≠ [] → buf w = buf_of (pending a) ∧ w_firstSeq w = Z.of_nat (length (concat (committed a))) }.

Lemma length_buf_of P : (length P ≤ M)%nat → length (buf_of P) = Z.to_nat cb.
Proof using Hcb Hcc Hfits Hiface.
  intros HP%(max_records_fit cb Hcb). unfold buf_of. rewrite !length_app, !length_replicate, length_payload_of. lia.
Qed.

Lemma committed_le F : Forall (λ N : list numbered, N ≠ [] ∧ (length N ≤ M)%nat) F → (length F ≤ length (concat F))%nat.
Proof using Hcb Hcc Hfits Hiface.
  induction 1 as [|N F [HN _] _ IH]; simpl; [lia|]. rewrite length_app. destruct N; [done|]. simpl. lia.
Qed.

Lemma ring_header_ok g F : 0 ≤ g < 2 ^ 64 → Z.of_nat (length F) < 2 ^ 64 → Z.of_nat (length (concat F)) < 2 ^ 64 →
  header_ok (ring_header g F).
Proof using Hcb Hcc Hfits Hiface.
  intros Hg HF Hr. unfold header_ok, ring_header; simpl.
  assert (Hds : dataStart = 8192) by reflexivity. unfold minChunkBytes in Hcb.
  pose proof (Z.mod_pos_bound (Z.of_nat (length F)) cc ltac:(lia)).
  assert (cc < 2 ^ 64) by nia. split_and!; try lia; try apply Hiface; nia.
Qed.

(** A record stored in the buffer of the pending frames. *)
Lemma buf_of_snoc P n : (length P < M)%nat →
  put_at (buf_of P) (64 + 48 * length P) (rec_bytes n) = buf_of (P ++ [n]).
Proof using Hcb Hcc Hfits Hiface.
  intros HP. pose proof (max_records_fit cb Hcb (S (length P)) ltac:(lia)) as Hfit.
  unfold buf_of at 1. rewrite app_assoc. set (pre := replicate 64 x00 ++ payload_of P). unfold put_at.
  assert (Hpre : length pre = (64 + 48 * length P)%nat) by (unfold pre; rewrite length_app, length_replicate, length_payload_of; lia).
  rewrite <-Hpre at 1. rewrite take_app_length. rewrite drop_app_ge by lia.
  unfold buf_of. rewrite length_rec_bytes, drop_replicate, Hpre, length_app, payload_of_app. unfold pre.
  change (payload_of [n]) with (rec_bytes n ++ []). rewrite app_nil_r, <-!app_assoc. cbn [length].
  do 3 f_equal. f_equal. lia.
Qed.

Lemma buf_of_free P : (length P < M)%nat → ReadAt (buf_of P) (64 + 48 * Z.of_nat (length P)) recordSize = replicate 48 x00.
Proof using Hcb Hcc Hfits Hiface.
  intros HP. pose proof (max_records_fit cb Hcb (S (length P)) ltac:(lia)) as Hfit.
  unfold ReadAt, buf_of. rewrite app_assoc.
  rewrite drop_app_ge by (rewrite length_app, length_replicate, length_payload_of; lia).
  rewrite length_app, length_replicate, length_payload_of, drop_replicate, take_replicate.
  f_equal. unfold recordSize. lia.
Qed.

Lemma buf_of_payload P : ReadAt (buf_of P) chunkHeaderSize (Z.of_nat (length P) * recordSize) = payload_of P.
Proof using Hcb Hcc Hfits Hiface.
  unfold ReadAt, buf_of. change (Z.to_nat chunkHeaderSize) with (length (replicate 64 x00)).
  rewrite drop_app_length. replace (Z.to_nat (Z.of_nat (length P) * recordSize)) with (length (payload_of P)).
  - apply take_app_length.
  - rewrite length_payload_of. unfold recordSize. lia.
Qed.

(** *** Writes and chunks *)
Lemma chunk_at_put file off data k N :
  (off + length data ≤ Z.to_nat (slot_offset cb cc k))%nat ∨
  (Z.to_nat (slot_offset cb cc k) + Z.to_nat cb ≤ off)%nat → (off + length data ≤ length file)%nat →
  chunk_at cb cc file k N → chunk_at cb cc (put_at file off data) k N.
Proof using Hcb Hcc Hfits Hiface.
  intros Hdis Hl. unfold chunk_at. destruct Hdis.
  - by rewrite slice_put_at_after by lia.
  - by rewrite slice_put_at_before by lia.
Qed.

(** What a flush puts in the buffer. *)
Lemma flushed_slot w a : writer_ok w a → pending a ≠ [] →
  slot_ok cb (put_at (buf w) 0 (chunk_header w)) (length (committed a)) (pending a).
Proof using Hcb Hcc Hfits Hiface.
  intros Hw HP. destruct (wo_buf w a Hw HP) as [Hbuf Hfirst].
  destruct (wo_log w a Hw) as (Hnum & _ & HM & _).
  pose proof (max_records_fit cb Hcb _ HM) as Hfit.
  assert (Hhdr : chunk_header w = chunk_bytes_header (Z.of_nat (length (committed a)))
    (w_firstSeq w) (w_lastSeq w) (u64 (firstWallNS w)) (u64 (lastWallNS w)) (Z.of_nat (length (pending a)))
    (payload_of (pending a))).
  { unfold chunk_header, chunk_bytes_header. rewrite (wo_records w a Hw), (wo_chunks w a Hw), Hbuf, buf_of_payload.
    unfold u32. unfold recordSize in *. by rewrite !Z.mod_small by lia. }
  exists (w_firstSeq w), (w_lastSeq w), (u64 (firstWallNS w)), (u64 (lastWallNS w)), (replicate 4 x00),
    (replicate (Z.to_nat cb - 64 - 48 * length (pending a)) x00).
  split_and!.
  - rewrite Hhdr, Hbuf. unfold put_at. rewrite take_0. cbn [app].
    rewrite length_chunk_bytes_header. reflexivity.
  - rewrite length_put_at, Hbuf, length_buf_of; [done|done|]. rewrite Hbuf, length_buf_of by done.
    rewrite Hhdr, length_chunk_bytes_header. lia.
  - done.
  - rewrite Hfirst. destruct (pending a) as [|n P] eqn:EP; [done|]. simpl. f_equal.
    apply (Hnum (length (concat (committed a))) n). unfold appended. rewrite EP, lookup_app_r by lia.
    by rewrite Nat.sub_diag.
Qed.

Lemma appended_flush a : appended (MkAbstractRing (committed a ++ [pending a]) []) = appended a.
Proof using.
  unfold appended. cbn [committed pending]. rewrite concat_app, app_nil_r. cbn [concat]. by rewrite app_nil_r.
Qed.

(** The file after a flush: the chunk in its slot, then the header of the next
    generation. *)
Definition flushed_file (w : Writer) (a : AbstractRing) : bytes :=
  let h := ring_header (generation w + 1) (committed a ++ [pending a]) in
  put_at (put_at (w_file w) (Z.to_nat (slot_offset cb cc (length (committed a))))
            (put_at (buf w) 0 (chunk_header w)))
    (Z.to_nat (h_Generation h `mod` superblockCount * superblockSize)) (encodeHeader h).

Lemma header_offset_range g : 0 ≤ g `mod` superblockCount * superblockSize ∧
  g `mod` superblockCount * superblockSize + superblockSize ≤ dataStart.
Proof using Hcb Hcc Hfits Hiface.
  pose proof (Z.mod_pos_bound g 2 ltac:(lia)). unfold dataStart, superblockCount, superblockSize in *. lia.
Qed.

Section flush.
Context (w : Writer) (a : AbstractRing) (Hw : writer_ok w a) (HP : pending a ≠ []).
Let F := committed a.
Let b := put_at (buf w) 0 (chunk_header w).
Let h := ring_header (generation w + 1) (F ++ [pending a]).
Let file1 := put_at (w_file w) (Z.to_nat (slot_offset cb cc (length F))) b.

Lemma flush_sizes : Z.of_nat (length F) < 2 ^ 62 ∧ generation w + 1 < 2 ^ 64 ∧ length b = Z.to_nat cb ∧
  length (concat (F ++ [pending a])) = length (appended a) ∧ header_ok h ∧
  length file1 = length (w_file w) ∧ length (flushed_file w a) = length (w_file w).
Proof using Hcb Hcc Hfits Hiface Hw HP.
  destruct (wo_log w a Hw) as (_ & HF & _ & Hbig). destruct (wo_file w a Hw) as (Hlen & Hg0 & Hg & _).
  assert (HFlen : Z.of_nat (length F) < 2 ^ 62).
  { pose proof (committed_le F HF). unfold appended in Hbig. fold F in Hbig. rewrite length_app in Hbig. lia. }
  assert (Hb : length b = Z.to_nat cb).
  { destruct (flushed_slot w a Hw HP) as (? & ? & ? & ? & ? & ? & _ & Hl & _). exact Hl. }
  assert (Hcat : length (concat (F ++ [pending a])) = length (appended a)).
  { rewrite concat_app. simpl. by rewrite app_nil_r. }
  fold F in Hg. assert (Hg1 : generation w + 1 < 2 ^ 64) by lia.
  assert (Hds : dataStart = 8192) by reflexivity.
  pose proof (slot_offset_range cb cc Hcb Hcc (length F)) as Hoff. unfold minChunkBytes in Hcb.
  assert (Hf1 : length file1 = length (w_file w)) by (apply length_put_at; lia).
  split_and!; try done.
  - apply ring_header_ok; rewrite ?length_app, ?Hcat; simpl; lia.
  - unfold flushed_file. fold F b file1 h. pose proof (header_offset_range (h_Generation h)).
    pose proof (length_encodeHeader h). rewrite length_put_at; unfold superblockSize in *; lia.
Qed.

Lemma flush_runs : flushChunk good_flush w =
  (MkWriter (flushed_file w a) (w_path w) cb cc (Z.of_nat (length (F ++ [pending a])) `mod` cc) (syncChunk w)
     iface b 0 (w_firstSeq w) (w_lastSeq w) (firstWallNS w) (lastWallNS w)
     (Z.of_nat (length (F ++ [pending a]))) (totalRecords w) (generation w + 1) false, None).
Proof using Hcb Hcc Hfits Hiface Hw HP.
  destruct flush_sizes as (HFlen & Hg1 & Hb & Hcat & Hh & Hf1 & _).
  pose proof (slot_offset_range cb cc Hcb Hcc (length F)) as Hoff.
  destruct (wo_file w a Hw) as (Hlen & Hg0 & _). destruct (wo_log w a Hw) as (_ & _ & _ & Hbig).
  assert (Hds : dataStart = 8192) by reflexivity. unfold minChunkBytes in Hcb.
  assert (Hnx : u64 (nextChunk w + 1) `mod` cc = Z.of_nat (length (F ++ [pending a])) `mod` cc).
  { rewrite (wo_next w a Hw), length_app. fold F. pose proof (Z.mod_pos_bound (Z.of_nat (length F)) cc ltac:(lia)).
    assert (cc < 2 ^ 63) by nia. unfold u64. rewrite (Z.mod_small _ (2 ^ 64)) by lia.
    rewrite Z.add_mod_idemp_l by lia. f_equal. simpl. lia. }
  assert (Hu1 : u64 (generation w + 1) = generation w + 1) by (unfold u64; apply Z.mod_small; lia).
  assert (Hu2 : u64 (Z.of_nat (length F) + 1) = Z.of_nat (length (F ++ [pending a]))).
  { unfold u64. rewrite Z.mod_small by lia. rewrite length_app. simpl. lia. }
  unfold flushChunk. rewrite (wo_records w a Hw).
  destruct (Z.eqb_spec (Z.of_nat (length (pending a))) 0) as [H0|_].
  { destruct (pending a); [done|simpl in H0; lia]. }
  cbv zeta. fold b. cbn [chunk_write good_flush set_buf w_file buf nextChunk chunkBytes].
  rewrite (wo_next w a Hw), (wo_cb w a Hw). fold F (slot_offset cb cc (length F)).
  rewrite WriteAt_good by lia. fold file1. cbv iota.
  unfold writeHeader, set_file, set_buf. cbn -[superblockCount superblockSize encodeHeader put_at u64 dataStart WriteAt].
  rewrite (wo_cc w a Hw), Hnx, (wo_chunks w a Hw), Hu1, (wo_iface w a Hw).
  fold F. rewrite Hu2. unfold writer_header.
  cbn -[superblockCount superblockSize encodeHeader put_at u64 dataStart WriteAt].
  rewrite (wo_total w a Hw), (wo_closed w a Hw), (wo_cb w a Hw), <-Hcat.
  change (MkRingHeader _ _ _ _ _ _ _ _) with h.
  pose proof (header_offset_range (generation w + 1)). pose proof (length_encodeHeader h).
  rewrite WriteAt_good by (unfold superblockSize in *; lia).
  by destruct (syncChunk w).
Qed.
End flush.

Lemma mod_differs m k : k < m → m < k + cc → k `mod` cc ≠ m `mod` cc.
Proof using Hcb Hcc Hfits Hiface.
  intros Hk Hm Heq. assert (Hd : (m - k) `mod` cc = 0) by (by rewrite Zminus_mod, Heq, Z.sub_diag, Z.mod_0_l by lia).
  rewrite Z.mod_small in Hd by lia. lia.
Qed.

(** The chunks still in the ring survive a flush, and the new one joins them. *)
Lemma flush_chunks w a k N : writer_ok w a → pending a ≠ [] →
  (committed a ++ [pending a]) !! k = Some N → Z.of_nat (length (committed a)) + 1 ≤ Z.of_nat k + cc →
  chunk_at cb cc (flushed_file w a) k N.
Proof using Hcb Hcc Hfits Hiface.
  intros Hw HP HkN Hk. destruct (flush_sizes w a Hw HP) as (HFlen & _ & Hb & _ & _ & Hf1 & _).
  destruct (wo_file w a Hw) as (Hlen & _ & _ & _ & Hchunks).
  set (F := committed a) in *. set (b := put_at (buf w) 0 (chunk_header w)) in *.
  pose proof (slot_offset_range cb cc Hcb Hcc (length F)) as Hoff.
  pose proof (slot_offset_range cb cc Hcb Hcc k) as Hoffk.
  pose proof (header_offset_range (generation w + 1)) as Hh.
  assert (Hds : dataStart = 8192) by reflexivity. unfold minChunkBytes in Hcb.
  unfold flushed_file. fold F b. set (h := ring_header _ _). pose proof (length_encodeHeader h).
  change (h_Generation h) with (generation w + 1). unfold superblockSize in *.
  apply chunk_at_put; [left; lia|lia|].
  destruct (decide (k < length F)%nat) as [Hlt|Hge].
  - rewrite lookup_app_l in HkN by lia. apply chunk_at_put; [|lia|apply Hchunks; [done|lia]].
    pose proof (slot_offset_disjoint cb cc Hcb k (length F)
      (mod_differs (Z.of_nat (length F)) (Z.of_nat k) ltac:(lia) ltac:(lia))). lia.
  - apply lookup_app_Some in HkN as [Hbad|[_ HkN]]; [apply lookup_lt_Some in Hbad; lia|].
    apply list_lookup_singleton_Some in HkN as [Hk0 <-].
    assert (k = length F) as -> by lia. unfold chunk_at.
    rewrite <-Hb at 1. rewrite slice_put_at by lia. by apply flushed_slot.
Qed.

Lemma flush_ok w a : writer_ok w a → pending a ≠ [] →
  ∃ w', flushChunk good_flush w = (w', None) ∧ writer_ok w' (MkAbstractRing (committed a ++ [pending a]) []) ∧
        w_path w' = w_path w ∧ syncChunk w' = syncChunk w.
Proof using Hcb Hcc Hfits Hiface.
  intros Hw HP. destruct (flush_sizes w a Hw HP) as (HFlen & Hg1 & Hb & Hcat & Hh & Hf1 & Hf2).
  destruct (wo_log w a Hw) as (Hnum & HF & HM & Hbig). destruct (wo_file w a Hw) as (Hlen & Hg0 & Hg & Hcur & _).
  eexists. split; [by apply flush_runs|]. split; [|done]. split; cbn -[appended]; try done.
  - split_and!.
    + rewrite appended_flush. exact Hnum.
    + apply Forall_app. split; [done|]. constructor; [by split|constructor].
    + simpl. lia.
    + by rewrite appended_flush.
  - split_and!; [by rewrite Hf2|lia|rewrite length_app; simpl; lia| |].
    + unfold flushed_file. set (h := ring_header _ _) in *.
      pose proof (slot_offset_range cb cc Hcb Hcc (length (committed a))) as Hoff.
      assert (Hds : dataStart = 8192) by reflexivity. unfold minChunkBytes in Hcb.
      apply (current_header_next _ (ring_header (generation w) (committed a)) h); [done|done|lia|].
      apply current_header_data_write; [lia|lia|done].
    + intros k N HkN Hk. rewrite length_app in Hk. simpl in Hk. apply flush_chunks; [done|done|done|lia].
  - rewrite appended_flush. apply (wo_total w a Hw).
Qed.

(** One frame more, before a full chunk is flushed. *)
Section append.
Context (w : Writer) (a : AbstractRing) (e : Entry).
Context (Hw : writer_ok w a) (Hf : frame_valid (e_frame e)) (HM : (length (pending a) < M)%nat).
Context (Hbig : Z.of_nat (length (appended a)) + 1 < 2 ^ 62).
Let x : numbered := (Z.of_nat (length (appended a)), e).
Let a1 : AbstractRing := MkAbstractRing (committed a) (pending a ++ [x]).
Definition filled : Writer :=
  MkWriter (w_file w) (w_path w) cb cc (nextChunk w) (syncChunk w) iface (buf_of (pending a ++ [x]))
    (records w + 1) (if records w =? 0 then totalRecords w else w_firstSeq w) (totalRecords w)
    (if records w =? 0 then i64 (e_ts e) else firstWallNS w) (i64 (e_ts e)) (totalChunks w)
    (totalRecords w + 1) (generation w) false.

Lemma append_buffer : (if records w =? 0 then replicate (length (buf w)) x00 else buf w) = buf_of (pending a).
Proof using Hcb Hcc Hfits Hiface Hw Hf HM Hbig.
  pose proof (max_records_fit cb Hcb (S (length (pending a))) ltac:(lia)) as Hfit.
  pose proof (wo_buf w a Hw) as Hbuf. rewrite (wo_records w a Hw), (wo_buflen w a Hw).
  destruct (pending a) as [|p P] eqn:EP.
  - cbn [length Z.of_nat Z.eqb].
    change (buf_of []) with (replicate 64 x00 ++ replicate (Z.to_nat cb - 64 - 48 * 0) x00).
    rewrite <-replicate_add. f_equal. cbn [length] in *. lia.
  - simpl. destruct (Z.eqb_spec (Z.of_nat (S (length P))) 0); [lia|]. by apply Hbuf.
Qed.

Lemma append_first : (if records w =? 0 then totalRecords w else w_firstSeq w) = Z.of_nat (length (concat (committed a))).
Proof using Hcb Hcc Hfits Hiface Hw Hf HM Hbig.
  pose proof (wo_buf w a Hw) as Hbuf. rewrite (wo_records w a Hw), (wo_total w a Hw). unfold appended.
  destruct (pending a) as [|p P] eqn:EP.
  - simpl. by rewrite app_nil_r.
  - simpl. destruct (Z.eqb_spec (Z.of_nat (S (length P))) 0); [lia|]. by apply Hbuf.
Qed.

Lemma filled_ok : writer_ok filled a1.
Proof using Hcb Hcc Hfits Hiface Hw Hf HM Hbig.
  pose proof Hw as [Hlog Hfile _ _ _ Hnext _ Hrec Hch Htot _ _].
  assert (Happ : appended a1 = appended a ++ [x]) by (unfold appended; cbn [a1 committed pending]; by rewrite <-app_assoc).
  destruct Hlog as (Hnum & HF & _ & _). split; cbn -[appended]; try done.
  - split_and!; simpl; [|done|rewrite length_app; simpl; lia|rewrite Happ, length_app; simpl; lia].
    rewrite Happ. intros i y Hy. apply lookup_app_Some in Hy as [Hy|[Hi Hy]]; [by apply Hnum|].
    apply list_lookup_singleton_Some in Hy as [Hi' <-]. simpl. split; [|done]. f_equal. lia.
  - rewrite Hrec, length_app. simpl. lia.
  - rewrite Htot, Happ, length_app. simpl. lia.
  - apply length_buf_of. rewrite length_app. simpl. lia.
  - intros _. split; [done|]. apply append_first.
Qed.

Lemma Append_runs y : Append y (e_frame e) (e_ts e) (e_elapsed e) w =
  if (M <=? length (pending a ++ [x]))%nat then Some (flushChunk y filled) else Some (filled, None).
Proof using Hcb Hcc Hfits Hiface Hw Hf HM Hbig.
  pose proof (max_records_fit cb Hcb (S (length (pending a))) ltac:(lia)) as Hfit.
  assert (HMx : (maxRecordsPerChunk filled <=? records filled) = (M <=? length (pending a ++ [x]))%nat).
  { unfold maxRecordsPerChunk, filled. cbn [chunkBytes records]. rewrite (wo_records w a Hw), length_app. simpl.
    unfold max_records in *. apply eq_iff_eq_true. rewrite Z.leb_le, Nat.leb_le. lia. }
  rewrite <-HMx. unfold Append. rewrite (wo_closed w a Hw). unfold Frame_Validate.
  destruct (Z.ltb_spec 8 (f_DLC (e_frame e))); [destruct Hf; lia|].
  cbv zeta. rewrite append_buffer, length_buf_of, (wo_records w a Hw) by lia.
  destruct (Z.ltb_spec (Z.of_nat (Z.to_nat cb)) (chunkHeaderSize + Z.of_nat (length (pending a)) * recordSize + recordSize));
    [unfold chunkHeaderSize, recordSize in *; lia|].
  replace (chunkHeaderSize + Z.of_nat (length (pending a)) * recordSize) with (64 + 48 * Z.of_nat (length (pending a)))
    by (unfold chunkHeaderSize, recordSize; lia).
  rewrite buf_of_free by lia.
  assert (Henc : encodeRecord (replicate 48 x00) (totalRecords w) (i64 (e_ts e)) (i64 (e_elapsed e)) (e_frame e)
                 = rec_bytes x) by (unfold rec_bytes, x; cbn [fst snd]; by rewrite (wo_total w a Hw)).
  rewrite Henc.
  replace (Z.to_nat (64 + 48 * Z.of_nat (length (pending a)))) with (64 + 48 * length (pending a))%nat by lia.
  rewrite buf_of_snoc by lia. rewrite <-(wo_records w a Hw), (wo_cb w a Hw), (wo_cc w a Hw), (wo_iface w a Hw).
  replace (u64 (totalRecords w + 1)) with (totalRecords w + 1); [done|].
  rewrite (wo_total w a Hw). unfold u64. rewrite Z.mod_small by lia. done.
Qed.

Lemma Append_ok :
  ∃ w', Append good_flush (e_frame e) (e_ts e) (e_elapsed e) w = Some (w', None) ∧
    writer_ok w' (spec_append M a e) ∧ (length (pending (spec_append M a e)) < M)%nat.
Proof using Hcb Hcc Hfits Hiface Hw Hf HM Hbig.
  rewrite Append_runs. unfold spec_append. fold x. destruct (M <=? length (pending a ++ [x]))%nat eqn:E.
  - destruct (flush_ok filled a1 filled_ok) as (w' & Hfl & Hok & _); [by destruct (pending a)|].
    exists w'. rewrite Hfl. split_and!; [done|done|simpl; lia].
  - apply Nat.leb_gt in E. exists filled. split_and!; [done|apply filled_ok|done].
Qed.
End append.

Lemma spec_append_length a e : length (appended (spec_append M a e)) = S (length (appended a)).
Proof using Hcb Hcc Hfits Hiface.
  unfold spec_append, appended. destruct (_ <=? _)%nat; cbn [committed pending];
    rewrite ?concat_app, !length_app; simpl; rewrite ?length_app; simpl; lia.
Qed.

Lemma append_all_ok s w a : writer_ok w a → Forall (λ e, frame_valid (e_frame e)) s →
  (length (pending a) < M)%nat → Z.of_nat (length (appended a) + length s) < 2 ^ 62 →
  ∃ w', append_all s w = Some w' ∧ writer_ok w' (fold_left (spec_append M) s a) ∧
    (length (pending (fold_left (spec_append M) s a)) < M)%nat ∧
    length (appended (fold_left (spec_append M) s a)) = (length (appended a) + length s)%nat.
Proof using Hcb Hcc Hfits Hiface.
  intros Hw Hs. revert w a Hw. induction Hs as [|e s He _ IH]; intros w a Hw HM Hbig.
  - exists w. cbn [fold_left length append_all]. by rewrite Nat.add_0_r.
  - cbn [length] in Hbig. destruct (Append_ok w a e Hw He HM) as (w1 & Hrun & Hw1 & HM1); [lia|].
    destruct (IH w1 _ Hw1 HM1) as (w' & Hall & Hw' & HM' & Hlen); [rewrite spec_append_length; lia|].
    exists w'. cbn [append_all fold_left length]. rewrite Hrun. split_and!; [done|done|done|].
    rewrite Hlen, spec_append_length. lia.
Qed.

(** A closed file: what the writer leaves for the next one and for readers. *)
Definition ring_ok (file : bytes) (a : AbstractRing) : Prop :=
  pending a = [] ∧ log_ok a ∧ ∃ g, file_ok file g (committed a).

Lemma spec_close_appended a : appended (spec_close a) = appended a.
Proof using. unfold spec_close. destruct (pending a) as [|p P] eqn:E; [done|]. rewrite <-E. apply appended_flush. Qed.

Lemma Close_ok w a : writer_ok w a →
  ∃ w', Close good_flush None w = (w', None) ∧ ring_ok (w_file w') (spec_close a).
Proof using Hcb Hcc Hfits Hiface.
  intros Hw. unfold Close. rewrite (wo_closed w a Hw), (wo_records w a Hw). unfold spec_close.
  destruct (pending a) as [|p P] eqn:E.
  - cbn [length]. destruct (Z.ltb_spec 0 (Z.of_nat 0)); [lia|]. eexists. split; [done|]. cbn [w_file].
    split_and!; [done|apply Hw|]. exists (generation w). apply Hw.
  - destruct (Z.ltb_spec 0 (Z.of_nat (length (p :: P)))); [|simpl in *; lia].
    destruct (flush_ok w a Hw) as (w' & -> & Hw' & _); [by rewrite E|]. eexists. split; [done|]. cbn [w_file].
    rewrite <-E. split_and!; [done|apply Hw'|]. exists (generation w'). apply Hw'.
Qed.

(** *** Opening *)
Definition ring_config (path : string) (sync : bool) : RingConfig :=
  MkRingConfig path (dataStart + cc * cb) cb iface sync.

Lemma Truncate_exact file n : Z.of_nat (length file) = n → Truncate file n = file.
Proof using Hcb Hcc Hfits Hiface.
  intros <-. unfold Truncate. rewrite Nat2Z.id, Nat.sub_diag, app_nil_r. by apply take_ge.
Qed.
Lemma length_Truncate file n : 0 ≤ n → Z.of_nat (length (Truncate file n)) = n.
Proof using Hcb Hcc Hfits Hiface. intros. unfold Truncate. rewrite length_app, length_take, length_replicate. lia. Qed.

(** What [OpenWriter] makes of valid sizes. *)
Lemma OpenWriter_sizes path sync : length (TrimSpace (str path)) ≠ 0%nat →
  (length (TrimSpace (str (c_Path (ring_config path sync)))) =? 0)%nat = false ∧
  (c_SizeBytes (ring_config path sync) <=? 0) = false ∧
  (c_ChunkBytes (ring_config path sync) <? minChunkBytes) = false ∧
  (c_SizeBytes (ring_config path sync) - dataStart <? c_ChunkBytes (ring_config path sync) * 2) = false ∧
  (c_SizeBytes (ring_config path sync) - dataStart) `div` c_ChunkBytes (ring_config path sync) = cc.
Proof using Hcb Hcc Hfits Hiface.
  intros Hp. assert (Hds : dataStart = 8192) by reflexivity. unfold minChunkBytes in *. cbn [ring_config c_Path c_SizeBytes c_ChunkBytes].
  split_and!.
  - by apply Nat.eqb_neq.
  - apply Z.leb_gt. nia.
  - apply Z.ltb_ge. lia.
  - apply Z.ltb_ge. nia.
  - replace (dataStart + cc * cb - dataStart) with (cc * cb) by lia. apply Z.div_mul. lia.
Qed.

Lemma OpenWriter_valid x path sync file : length (TrimSpace (str path)) ≠ 0%nat →
  OpenWriter x (ring_config path sync) file = open_file x (ring_config path sync) cc file.
Proof using Hcb Hcc Hfits Hiface.
  intros Hp. destruct (OpenWriter_sizes path sync Hp) as (H1 & H2 & H3 & H4 & H5).
  unfold OpenWriter. rewrite H1, H2, H3, H4, H5. reflexivity.
Qed.

(** Opening a ring of this geometry resumes it. *)
Lemma OpenWriter_resume path sync file a : length (TrimSpace (str path)) ≠ 0%nat → ring_ok file a →
  ∃ w, OpenWriter good_open (ring_config path sync) file = (file, Ok w) ∧ writer_ok w a.
Proof using Hcb Hcc Hfits Hiface.
  intros Hp (HP & Hlog & g & Hfile). destruct Hfile as (Hlen & Hg0 & Hg & Hcur & Hch).
  rewrite OpenWriter_valid by done. unfold open_file. cbv zeta. cbn [mkdir_err open_err truncate_err read_err good_open].
  cbn [ring_config c_ChunkBytes c_Interface c_Path c_SyncOnChunk].
  rewrite Truncate_exact by done. rewrite (current_header_read file _ Hcur). cbn [ring_header h_FileBytes h_ChunkBytes h_ChunkCount].
  rewrite !Z.eqb_refl. cbn [andb ring_header h_Interface h_Generation h_NextChunk h_TotalChunks h_TotalRecords].
  eexists. split; [done|].
  assert (Hif : (if (length iface =? 0)%nat then iface else iface) = iface) by (destruct (length iface =? 0)%nat; reflexivity).
  rewrite Hif. split; cbn; rewrite ?HP; try done.
  - by rewrite Z.mod_mod by lia.
  - unfold appended. rewrite HP, app_nil_r. done.
  - by rewrite length_replicate.
Qed.

(** Clearing zeroes the data region: its fuel is enough. *)
Lemma clear_loop_zeros fuel k off n file : 0 ≤ off → off + n = Z.of_nat (length file) → 0 ≤ n →
  n ≤ Z.of_nat fuel * minChunkBytes →
  clear_loop (λ _, None) fuel k off (off + n) file = (take (Z.to_nat off) file ++ replicate (Z.to_nat n) x00, None).
Proof using Hcb Hcc Hfits Hiface.
  revert k off n file. unfold minChunkBytes. induction fuel as [|fuel IH]; intros k off n file Ho Hn Hn0 Hf.
  - assert (n = 0) as -> by lia. simpl. rewrite app_nil_r, take_ge; [done|lia].
  - cbn [clear_loop]. destruct (Z.ltb_spec off (off + n)) as [Hlt|Hge].
    2: { assert (n = 0) as -> by lia. simpl. rewrite app_nil_r, take_ge; [done|lia]. }
    set (m := if off + n - off <? minChunkBytes then off + n - off else minChunkBytes).
    assert (Hm : 0 < m ≤ n ∧ (m = n ∨ m = 65536)).
    { unfold m, minChunkBytes. destruct (Z.ltb_spec (off + n - off) (64 * 1024)); lia. }
    clearbody m. cbv zeta. rewrite WriteAt_good by (rewrite ?length_replicate; lia).
    replace (off + n) with ((off + m) + (n - m)) by lia.
    rewrite IH; [|lia|rewrite length_put_at; rewrite ?length_replicate; lia|lia|lia].
    f_equal. unfold put_at. rewrite length_replicate, app_assoc.
    rewrite take_app_ge by (rewrite length_app, length_take, length_replicate; lia).
    rewrite length_app, length_take, length_replicate.
    replace (Z.to_nat (off + m) - (Z.to_nat off `min` length file + Z.to_nat m))%nat with 0%nat by lia.
    rewrite take_0, app_nil_r, <-app_assoc, <-replicate_add. do 2 f_equal. lia.
Qed.

Lemma clearDataRegion_zeros file n : n = Z.of_nat (length file) → dataStart ≤ n →
  clearDataRegion (λ _, None) n file =
    (put_at file (Z.to_nat dataStart) (replicate (Z.to_nat (n - dataStart)) x00), None).
Proof using Hcb Hcc Hfits Hiface.
  intros Hn Hd. unfold clearDataRegion. assert (Hds : dataStart = 8192) by reflexivity.
  replace n with (dataStart + (n - dataStart)) at 2 by lia.
  rewrite clear_loop_zeros; [|lia|lia|lia|].
  - f_equal. unfold put_at. rewrite length_replicate, drop_ge, app_nil_r by lia. done.
  - unfold minChunkBytes. pose proof (Z.mod_pos_bound n 65536 ltac:(lia)).
    pose proof (Z.div_mod n 65536 ltac:(lia)). assert (0 ≤ n / 65536) by (apply Z.div_pos; lia).
    change (64 * 1024) with 65536. lia.
Qed.

(** Nothing in the file is newer than the latest header. *)
Definition latest_generation (file : bytes) : Z :=
  match readLatestHeader (λ _, None) file with Some h => h_Generation h | None => 0 end.
Lemma latest_not_newer file i : 0 ≤ i < 2 → not_newer (latest_generation file + 1) (superblock file i).
Proof using Hcb Hcc Hfits Hiface.
  intros Hi. unfold latest_generation. rewrite readLatestHeader_eq.
  assert (i = 0 ∨ i = 1) as [->| ->] by lia;
    destruct (superblock file 0) as [h0|]; destruct (superblock file 1) as [h1|]; simpl; try done; try lia;
    destruct (Z.ltb_spec (h_Generation h0) (h_Generation h1)); simpl; lia.
Qed.

(** A file that holds no ring of this geometry. *)
Definition other_file (file : bytes) : Prop :=
  match readLatestHeader (λ _, None) (Truncate file (dataStart + cc * cb)) with
  | None => True
  | Some h => 0 ≤ h_Generation h < 2 ^ 62 ∧
              ¬ (h_FileBytes h = dataStart + cc * cb ∧ h_ChunkBytes h = cb ∧ h_ChunkCount h = cc)
  end.

(** The first header of a fresh ring. *)
Lemma fresh_header file g : Z.of_nat (length file) = dataStart + cc * cb → 0 ≤ g < 2 ^ 62 →
  (∀ i, 0 ≤ i < 2 → not_newer (g + 1) (superblock file i)) →
  file_ok (put_at file (Z.to_nat ((g + 1) `mod` superblockCount * superblockSize)) (encodeHeader (ring_header (g + 1) [])))
    (g + 1) [].
Proof using Hcb Hcc Hfits Hiface.
  intros Hl Hg Hnew. set (h := ring_header (g + 1) []).
  assert (Hok : header_ok h) by (apply ring_header_ok; simpl; lia).
  pose proof (header_offset_range (g + 1)) as Ho. pose proof (length_encodeHeader h) as Hlh.
  assert (Hds : dataStart = 8192) by reflexivity. unfold superblockSize in *. unfold minChunkBytes in Hcb.
  pose proof (Z.mod_pos_bound (g + 1) 2 ltac:(lia)). change superblockCount with 2 in *.
  assert (0 ≤ cc * cb) by nia.
  split_and!; [by rewrite length_put_at by lia|lia|simpl; lia| |by intros k N [=]].
  split; change (h_Generation (ring_header (g + 1) [])) with (g + 1);
    change 4096 with superblockSize; rewrite superblock_write by (done || lia).
  - by rewrite decide_True.
  - rewrite decide_False by lia. apply Hnew. lia.
Qed.

(** The writer of a fresh ring, before and after its first header. *)
Definition fresh_writer (path : string) (sync : bool) (file : bytes) (g : Z) : Writer :=
  MkWriter file path cb cc 0 sync iface (replicate (Z.to_nat cb) x00) 0 0 0 0 0 0 0 g false.
Definition cleared (file : bytes) : bytes :=
  put_at file (Z.to_nat dataStart) (replicate (Z.to_nat (cc * cb)) x00).
Definition fresh_file (file : bytes) (g : Z) : bytes :=
  put_at (cleared file) (Z.to_nat (g `mod` superblockCount * superblockSize)) (encodeHeader (ring_header g [])).

Lemma length_cleared file : Z.of_nat (length file) = dataStart + cc * cb → length (cleared file) = length file.
Proof using Hcb Hcc Hfits Hiface.
  intros Hl. apply length_put_at. rewrite length_replicate. unfold minChunkBytes in Hcb.
  assert (Hds : dataStart = 8192) by reflexivity. nia.
Qed.

Lemma initialise_runs path sync file g : Z.of_nat (length file) = dataStart + cc * cb → 0 ≤ g < 2 ^ 62 →
  initialise good_open (dataStart + cc * cb) (fresh_writer path sync file g) =
    (fresh_file file (g + 1), Ok (fresh_writer path sync (fresh_file file (g + 1)) (g + 1))).
Proof using Hcb Hcc Hfits Hiface.
  intros Hl Hg. pose proof (length_cleared file Hl) as Hlc. unfold initialise, fresh_writer. cbn [w_file clear_writes good_open].
  assert (Hds : dataStart = 8192) by reflexivity. pose proof Hcb as Hcb'. unfold minChunkBytes in Hcb'.
  assert (Hcc0 : 0 ≤ cc * cb) by nia.
  assert (Hclear : clearDataRegion (λ _, None) (dataStart + cc * cb) file = (cleared file, None)).
  { rewrite clearDataRegion_zeros by lia. unfold cleared.
    by replace (dataStart + cc * cb - dataStart) with (cc * cb) by lia. }
  rewrite Hclear. cbv iota. unfold writeHeader, set_file, writer_header. cbn [open_header_write].
  cbn [w_file w_path chunkBytes chunkCount nextChunk syncChunk w_iface buf records w_firstSeq w_lastSeq
    firstWallNS lastWallNS totalChunks totalRecords generation closed].
  assert (Hu : u64 (g + 1) = g + 1) by (unfold u64; apply Z.mod_small; lia). rewrite Hu.
  change (MkRingHeader (g + 1) (dataStart + cc * cb) cb cc 0 0 0 iface) with (ring_header (g + 1) []).
  pose proof (header_offset_range (g + 1)) as Ho. pose proof (length_encodeHeader (ring_header (g + 1) [])) as Hlh.
  rewrite WriteAt_good by (unfold superblockSize in *; lia). reflexivity.
Qed.

Lemma fresh_writer_file path sync file g : w_file (fresh_writer path sync file g) = file.
Proof using. done. Qed.
Lemma fresh_writer_ok path sync file g : file_ok file g [] →
  writer_ok (fresh_writer path sync file g) (MkAbstractRing [] []).
Proof using Hcb Hcc Hfits Hiface.
  intros Hfile.
  refine (MkWriterOk (fresh_writer path sync file g) (MkAbstractRing [] []) _ Hfile
    eq_refl eq_refl eq_refl eq_refl eq_refl eq_refl eq_refl eq_refl _ _).
  - split_and!; [done|constructor|simpl; lia|simpl; lia].
  - apply length_replicate.
  - intros Hne. by destruct Hne.
Qed.

Lemma latest_generation_range file : other_file file →
  0 ≤ latest_generation (Truncate file (dataStart + cc * cb)) < 2 ^ 62.
Proof using Hcb Hcc Hfits Hiface.
  unfold other_file, latest_generation. destruct (readLatestHeader _ _); lia.
Qed.

Lemma open_file_good path sync file :
  open_file good_open (ring_config path sync) cc file =
  match readLatestHeader (λ _, None) (Truncate file (dataStart + cc * cb)) with
  | None => initialise good_open (dataStart + cc * cb)
              (fresh_writer path sync (Truncate file (dataStart + cc * cb)) 0)
  | Some h =>
      if (h_FileBytes h =? dataStart + cc * cb) && (h_ChunkBytes h =? cb) && (h_ChunkCount h =? cc) then
        (Truncate file (dataStart + cc * cb),
         Ok (MkWriter (Truncate file (dataStart + cc * cb)) path cb cc (h_NextChunk h `mod` cc) sync
               (if (length iface =? 0)%nat then h_Interface h else iface) (replicate (Z.to_nat cb) x00)
               0 0 0 0 0 (h_TotalChunks h) (h_TotalRecords h) (h_Generation h) false))
      else initialise good_open (dataStart + cc * cb)
             (fresh_writer path sync (Truncate file (dataStart + cc * cb)) (h_Generation h))
  end.
Proof using. reflexivity. Qed.

Lemma OpenWriter_initialises path sync file : length (TrimSpace (str path)) ≠ 0%nat → other_file file →
  OpenWriter good_open (ring_config path sync) file =
    initialise good_open (dataStart + cc * cb)
      (fresh_writer path sync (Truncate file (dataStart + cc * cb))
         (latest_generation (Truncate file (dataStart + cc * cb)))).
Proof using Hcb Hcc Hfits Hiface.
  intros Hp Hother. rewrite OpenWriter_valid, open_file_good by done.
  unfold latest_generation. unfold other_file in Hother. revert Hother.
  generalize (Truncate file (dataStart + cc * cb)). intros file1 Hother.
  destruct (readLatestHeader (λ _, None) file1) as [h|]; [|reflexivity].
  destruct ((h_FileBytes h =? _) && _ && _) eqn:E; [|reflexivity].
  rewrite !andb_true_iff, !Z.eqb_eq in E. exfalso. apply Hother. tauto.
Qed.

Lemma OpenWriter_init path sync file : length (TrimSpace (str path)) ≠ 0%nat → other_file file →
  ∃ w, OpenWriter good_open (ring_config path sync) file = (w_file w, Ok w) ∧
       writer_ok w (MkAbstractRing [] []).
Proof using Hcb Hcc Hfits Hiface.
  intros Hp Hother. rewrite OpenWriter_initialises by done.
  pose proof (latest_generation_range file Hother) as Hg.
  assert (Hl1 : Z.of_nat (length (Truncate file (dataStart + cc * cb))) = dataStart + cc * cb).
  { apply length_Truncate. unfold minChunkBytes in Hcb. assert (Hds : dataStart = 8192) by reflexivity. nia. }
  revert Hg Hl1. generalize (Truncate file (dataStart + cc * cb)). intros file1 Hg Hl1.
  assert (Hnew : ∀ i, 0 ≤ i < 2 → not_newer (latest_generation file1 + 1) (superblock file1 i)) by apply latest_not_newer.
  revert Hg Hnew. generalize (latest_generation file1). intros g Hg Hnew.
  rewrite initialise_runs by done. eexists. split; [by rewrite fresh_writer_file|].
  apply fresh_writer_ok. unfold fresh_file. pose proof (length_cleared file1 Hl1).
  apply fresh_header; [lia|done|]. intros i Hi. unfold cleared. unfold minChunkBytes in Hcb.
  assert (Hds : dataStart = 8192) by reflexivity. assert (0 ≤ cc * cb) by nia.
  rewrite superblock_data_write by (rewrite ?length_replicate; lia). by apply Hnew.
Qed.

(** *** Whole sessions *)
Lemma run_session_ok path sync s file a :
  length (TrimSpace (str path)) ≠ 0%nat → ring_ok file a ∨ (other_file file ∧ a = MkAbstractRing [] []) →
  Forall (λ e, frame_valid (e_frame e)) s → Z.of_nat (length (appended a) + length s) < 2 ^ 62 →
  ∃ file', run_session (ring_config path sync) s file = Some file' ∧ ring_ok file' (spec_session M a s) ∧
           length (appended (spec_session M a s)) = (length (appended a) + length s)%nat.
Proof using Hcb Hcc Hfits Hiface.
  intros Hp Hfile Hs Hbig. unfold run_session.
  assert (∃ file0 w, OpenWriter good_open (ring_config path sync) file = (file0, Ok w) ∧ writer_ok w a ∧ pending a = [])
    as (file0 & w & -> & Hw & HP).
  { destruct Hfile as [Hr|[Ho ->]].
    - destruct (OpenWriter_resume path sync file a Hp Hr) as (w & Hw & Hok). exists file, w. split_and!; [done..|apply Hr].
    - destruct (OpenWriter_init path sync file Hp Ho) as (w & Hw & Hok). by exists (w_file w), w. }
  destruct (append_all_ok s w a Hw Hs) as (w' & Hrun & Hw' & _ & Hlen);
    [rewrite HP; simpl; pose proof (max_records_pos cb Hcb); lia|done|].
  rewrite Hrun. cbn [mbind option_bind]. destruct (Close_ok w' _ Hw') as (w'' & -> & Hring).
  exists (w_file w''). split_and!; [done|done|]. unfold spec_session. by rewrite spec_close_appended.
Qed.

Lemma run_sessions_ok path sync ss file a :
  length (TrimSpace (str path)) ≠ 0%nat → ring_ok file a → Forall (Forall (λ e, frame_valid (e_frame e))) ss →
  Z.of_nat (length (appended a) + length (concat ss)) < 2 ^ 62 →
  ∃ file', run_sessions (ring_config path sync) ss file = Some file' ∧
           ring_ok file' (fold_left (spec_session M) ss a).
Proof using Hcb Hcc Hfits Hiface.
  intros Hp Hr Hss. revert file a Hr. induction Hss as [|s ss Hs _ IH]; intros file a Hr Hbig; [by exists file|].
  cbn [concat] in Hbig. rewrite length_app in Hbig.
  destruct (run_session_ok path sync s file a Hp (or_introl Hr) Hs) as (file1 & Hrun & Hr1 & Hlen); [lia|].
  destruct (IH file1 _ Hr1) as (file' & Hrun' & Hr'); [lia|].
  exists file'. cbn [run_sessions fold_left]. by rewrite Hrun.
Qed.
End invariant.
