(* ===== verification/CanRingSnapshot.v ===== *)
(** * CanRingSnapshot: what a reader sees of a ring ([canring/ring.go])

    The chunks a snapshot collects, by a full scan or back from the newest, are the
    retained chunks of the abstract ring; sorted and decoded they give its records.
    The properties of the ring close the file. *)
From stdpp Require Import prelude strings list sorting.
From Stdlib Require Import Strings.Byte.
From S2P Require Import Prelude Text Crc CanFrame CanMerge CanRing CanRingWriter.
Open Scope Z_scope.

(** ** Sorting chunks *)
Lemma chunk_less_asym a b : chunk_less a b = true → chunk_less b a = false.
Proof.
  unfold chunk_less. rewrite (Z.eqb_sym (firstSeq b)).
  destruct (Z.eqb_spec (firstSeq a) (firstSeq b)); rewrite Z.ltb_lt, Z.ltb_ge; lia.
Qed.
Lemma chunk_less_trans a b c : chunk_less a b = true → chunk_less b c = true → chunk_less a c = true.
Proof.
  unfold chunk_less. destruct (Z.eqb_spec (firstSeq a) (firstSeq b)); destruct (Z.eqb_spec (firstSeq b) (firstSeq c));
    destruct (Z.eqb_spec (firstSeq a) (firstSeq c)); rewrite ?Z.ltb_lt; lia.
Qed.

Lemma insert_chunk_comm x y l : chunk_less x y = true →
  insert_chunk x (insert_chunk y l) = insert_chunk y (insert_chunk x l).
Proof.
  intros Hxy. pose proof (chunk_less_asym x y Hxy) as Hyx.
  induction l as [|z l IH]; simpl; [by rewrite Hxy, Hyx|].
  destruct (chunk_less y z) eqn:Hyz; simpl.
  - rewrite Hxy, (chunk_less_trans x y z) by done. simpl. by rewrite Hyx, Hyz.
  - destruct (chunk_less x z) eqn:Hxz; simpl; [by rewrite Hyx, Hyz|]. by rewrite Hyz, IH.
Qed.

Definition comparable (l : list ringChunk) : Prop :=
  ∀ a b, a ∈ l → b ∈ l → a = b ∨ chunk_less a b = true ∨ chunk_less b a = true.

Lemma sort_chunks_permutation l l' : l ≡ₚ l' → comparable l → sort_chunks l = sort_chunks l'.
Proof.
  induction 1 as [|x l l' _ IH|x y l|l1 l2 l3 H1 IH1 _ IH2]; intros Hc; simpl.
  - done.
  - f_equal. apply IH. intros a b Ha Hb. apply Hc; by apply elem_of_cons; right.
  - destruct (Hc y x) as [->|[Hl|Hl]]; [by repeat constructor|by repeat constructor|done| |].
    + by apply insert_chunk_comm.
    + symmetry. by apply insert_chunk_comm.
  - rewrite IH1 by done. apply IH2. intros a b Ha Hb. apply Hc; by rewrite H1.
Qed.

Definition sorted_chunks : list ringChunk → Prop := StronglySorted (λ a b, chunk_less a b = true).

Lemma sort_chunks_sorted l : sorted_chunks l → sort_chunks l = l.
Proof.
  induction 1 as [|x l _ IH Hx]; simpl; [done|]. fold sort_chunks in *. rewrite IH.
  destruct Hx as [|y l Hxy _]; simpl; [done|]. by rewrite Hxy.
Qed.

Lemma sorted_chunks_comparable l : sorted_chunks l → comparable l.
Proof.
  induction 1 as [|x l _ IH Hx]; intros a b; [by intros ?%elem_of_nil|].
  rewrite Forall_forall in Hx. intros [->|Ha]%elem_of_cons [->|Hb]%elem_of_cons; auto.
Qed.

Lemma sort_chunks_eq l l' : l ≡ₚ l' → sorted_chunks l' → sort_chunks l = l'.
Proof.
  intros Hp Hs. rewrite (sort_chunks_permutation l l' Hp); [by apply sort_chunks_sorted|].
  intros a b Ha Hb. apply (sorted_chunks_comparable l' Hs); by rewrite <-Hp.
Qed.

(** ** Rotations *)

(** The slots of the last [cc] of [n] chunks are all slots, each once. *)
Lemma seq_rotation n cc : (0 < cc)%nat → (cc ≤ n)%nat →
  (λ k, k mod cc)%nat <$> seq (n - cc) cc ≡ₚ seq 0 cc.
Proof.
  intros Hcc Hn. set (r := (n mod cc)%nat). assert (Hr : (r < cc)%nat) by (apply Nat.mod_upper_bound; lia).
  assert (Hdiv : n = (cc * (n / cc) + r)%nat) by (apply Nat.div_mod; lia). set (q := (n / cc)%nat) in *.
  assert (Hq : (1 ≤ q)%nat) by (destruct (decide (q = 0)%nat) as [Hq|]; [rewrite Hq in Hdiv; lia|lia]).
  assert (Hl : seq (n - cc) cc = seq (n - cc) (cc - r) ++ seq (n - cc + (cc - r)) r)
    by (rewrite <-seq_app; f_equal; lia).
  assert (Hs : seq 0 cc = seq 0 r ++ seq r (cc - r)).
  { transitivity (seq 0 (r + (cc - r))); [f_equal; lia|apply (seq_app r (cc - r) 0)]. }
  rewrite Hl, Hs, fmap_app.
  assert (Hmod : ∀ j, (j < cc)%nat → ((cc * q + j) mod cc = j)%nat).
  { intros j Hj. rewrite Nat.mul_comm, Nat.add_comm, Nat.Div0.mod_add. by apply Nat.mod_small. }
  assert (H1 : (λ k, k mod cc)%nat <$> seq (n - cc) (cc - r) = seq r (cc - r)).
  { apply list_eq. intros i. rewrite list_lookup_fmap. destruct (decide (i < cc - r)%nat).
    - rewrite !lookup_seq_lt by lia. cbn [fmap option_fmap option_map]. f_equal.
      replace (n - cc + i)%nat with (cc * (q - 1) + (r + i))%nat by nia.
      rewrite Nat.mul_comm, Nat.add_comm, Nat.Div0.mod_add. apply Nat.mod_small. lia.
    - by rewrite !lookup_seq_ge by lia. }
  assert (H2 : (λ k, k mod cc)%nat <$> seq (n - cc + (cc - r)) r = seq 0 r).
  { apply list_eq. intros i. rewrite list_lookup_fmap. destruct (decide (i < r)%nat).
    - rewrite !lookup_seq_lt by lia. cbn [fmap option_fmap option_map]. f_equal.
      replace (n - cc + (cc - r) + i)%nat with (cc * q + i)%nat by nia. apply Hmod. lia.
    - by rewrite !lookup_seq_ge by lia. }
  rewrite H1, H2. apply Permutation_app_comm.
Qed.

Lemma seq_rotation_min n cc : (0 < cc)%nat →
  (λ k, k mod cc)%nat <$> seq (n - n `min` cc) (n `min` cc) ≡ₚ seq 0 (n `min` cc).
Proof.
  intros Hcc. destruct (decide (cc ≤ n)%nat).
  - rewrite Nat.min_r by lia. by apply seq_rotation.
  - rewrite Nat.min_l by lia. rewrite Nat.sub_diag. apply reflexive_eq, list_eq. intros i.
    rewrite list_lookup_fmap. destruct (decide (i < n)%nat).
    + rewrite lookup_seq_lt by done. cbn [fmap option_fmap option_map]. f_equal. apply Nat.mod_small. lia.
    + by rewrite lookup_seq_ge by lia.
Qed.

Lemma rev_seq_newest n j : (j ≤ n)%nat → (λ s, n - 1 - s)%nat <$> seq 0 j ≡ₚ seq (n - j) j.
Proof.
  intros Hj. rewrite <-(reverse_Permutation (seq (n - j) j)). apply reflexive_eq.
  induction j as [|j IH]; [done|]. rewrite (seq_S j 0), fmap_app, IH by lia.
  replace (n - j)%nat with (S (n - S j)) by lia. cbn [seq]. rewrite reverse_cons.
  cbn [fmap list_fmap]. by replace (n - 1 - (0 + j))%nat with (n - S j)%nat by lia.
Qed.

(** [limit] records from the end; all of them when [limit] is not positive. *)
Definition cut {A} (limit : Z) (l : list A) : list A :=
  if (0 <? limit) && (limit <? Z.of_nat (length l)) then lastn (Z.to_nat limit) l else l.

Lemma cut_suffix {A} limit (pre l : list A) : 0 < limit → limit ≤ Z.of_nat (length l) →
  cut limit (pre ++ l) = cut limit l.
Proof.
  intros H0 Hl. unfold cut. destruct (Z.ltb_spec 0 limit); [|lia]. cbn [andb]. rewrite length_app.
  assert (Hlast : lastn (Z.to_nat limit) (pre ++ l) = lastn (Z.to_nat limit) l).
  { unfold lastn. rewrite length_app. replace (length pre + length l - Z.to_nat limit)%nat
      with (length pre + (length l - Z.to_nat limit))%nat by lia. by rewrite drop_app_add'. }
  destruct (Z.ltb_spec limit (Z.of_nat (length pre + length l)));
    destruct (Z.ltb_spec limit (Z.of_nat (length l))); try lia; [done| |].
  - rewrite Hlast. unfold lastn. by replace (length l - Z.to_nat limit)%nat with 0%nat by lia.
  - destruct pre; [done|simpl in *; lia].
Qed.

Section snapshot.
Context (cb cc : Z) (Hcb : minChunkBytes ≤ cb < 2 ^ 32) (Hcc : 2 ≤ cc) (Hfits : dataStart + cc * cb < 2 ^ 63).
Context (iface : bytes) (file : bytes) (path : string) (F : list (list numbered)) (g : Z).
Context (Hlog : log_ok cb (MkAbstractRing F [])) (Hfile : file_ok cb cc iface file g F).
Let r : Reader := MkReader file path (ring_header cb cc iface g F).
Abbreviation n := (length F).
Abbreviation m := (length F `min` Z.to_nat cc)%nat.

Lemma log_chunk k N : F !! k = Some N →
  N ≠ [] ∧ (length N ≤ max_records cb)%nat ∧ Forall entry_ok N ∧
  fst <$> head N = Some (Z.of_nat (length (concat (take k F)))).
Proof using Hcb Hcc Hfits Hlog Hfile.
  intros Hk. destruct Hlog as (Hnum & HF & _ & Hbig). cbn [committed] in HF.
  unfold appended in Hnum, Hbig. cbn [committed pending] in Hnum, Hbig. rewrite app_nil_r in Hnum, Hbig.
  destruct (Forall_lookup_1 _ _ _ _ HF Hk) as [HN HM].
  assert (Hcat : concat F = concat (take k F) ++ N ++ concat (drop (S k) F)).
  { rewrite <-(take_drop_middle F k N Hk) at 1. by rewrite concat_app. }
  assert (Hat : ∀ i x, N !! i = Some x → x.1 = Z.of_nat (length (concat (take k F)) + i) ∧ frame_valid (e_frame x.2)).
  { intros i x Hi. apply Hnum. rewrite Hcat, lookup_app_r by lia. rewrite Nat.add_comm, Nat.add_sub.
    rewrite lookup_app_l; [done|]. by apply lookup_lt_Some in Hi. }
  split_and!; [done|done| |].
  - apply Forall_lookup_2. intros i x Hi. destruct (Hat i x Hi) as [Hx Hf]. split; [|done].
    rewrite Hcat, !length_app in Hbig. apply lookup_lt_Some in Hi. lia.
  - destruct N as [|x N]; [done|]. simpl. f_equal. destruct (Hat 0%nat x eq_refl) as [-> _]. f_equal. lia.
Qed.

(** The chunk a reader finds for the [k]th committed one. *)
Definition chunk_of (k : nat) : ringChunk :=
  match readChunk (λ _, None) r (Z.of_nat k `mod` cc) with
  | Ok (Some c) => c
  | _ => MkRingChunk 0 0 0 0 []
  end.

Lemma small_counts : Z.of_nat (length F) < 2 ^ 62.
Proof using Hcb Hcc Hfits Hlog Hfile.
  destruct Hlog as (_ & HF & _ & Hbig). unfold appended in Hbig. cbn [committed pending] in *.
  rewrite app_nil_r in Hbig. assert (length F ≤ length (concat F))%nat; [|lia]. clear -HF.
  induction HF as [|N F' [HN _] _ IH]; simpl; [lia|]. rewrite length_app. destruct N; [done|simpl; lia].
Qed.

Lemma chunk_of_retained k : (n - m ≤ k)%nat → (k < n)%nat →
  readChunk (λ _, None) r (Z.of_nat k `mod` cc) = Ok (Some (chunk_of k)) ∧
  chunk_records iface (chunk_of k) = stamp_chunk iface (k, default [] (F !! k)) ∧
  firstSeq (chunk_of k) = Z.of_nat (length (concat (take k F))) ∧
  ck_records (chunk_of k) = Z.of_nat (length (default [] (F !! k))) ∧ default [] (F !! k) ≠ [].
Proof using Hcb Hcc Hfits Hlog Hfile.
  intros Hlo Hk. destruct (lookup_lt_is_Some_2 F k Hk) as [N HN].
  destruct (log_chunk k N HN) as (Hne & HM & Hok & Hfirst). pose proof small_counts.
  destruct Hfile as (Hlen & _ & _ & _ & Hchunks).
  destruct (readChunk_slot cb cc Hcb Hcc Hfits r k N) as (c & Hread & Hseq & Hf & Hrec & Hpay); [done|done| |lia|done|done|done|].
  { apply Hchunks; [done|]. lia. }
  assert (Hc : chunk_of k = c) by (unfold chunk_of; by rewrite Hread).
  rewrite Hc, HN. cbn [default]. split_and!; [done| | |done|done].
  - by apply chunk_records_stamp.
  - rewrite Hfirst in Hf. by injection Hf.
Qed.

Lemma concat_take_lt k k' : (k < k')%nat → (k' ≤ n)%nat →
  (length (concat (take k F)) < length (concat (take k' F)))%nat.
Proof using Hcb Hcc Hfits Hlog Hfile.
  intros Hk Hk'. destruct (lookup_lt_is_Some_2 F k ltac:(lia)) as [N HN].
  destruct (log_chunk k N HN) as (Hne & _).
  assert (HN' : take k' F !! k = Some N) by (by rewrite lookup_take_lt by lia).
  rewrite <-(take_drop_middle _ k N HN'), take_take, Nat.min_l, concat_app, length_app by lia.
  simpl. rewrite length_app. destruct N; [done|simpl; lia].
Qed.

(** The chunks of the newest [j], in order, are strictly sorted. *)
Lemma newest_sorted j : (j ≤ m)%nat → sorted_chunks (chunk_of <$> seq (n - j) j).
Proof using Hcb Hcc Hfits Hlog Hfile.
  intros Hj. induction j as [|j IH]; [constructor|].
  cbn [seq fmap list_fmap]. replace (S (n - S j)) with (n - j)%nat by (lia).
  constructor; [apply IH; lia|]. apply Forall_fmap, Forall_forall. intros k Hk%elem_of_seq.
  cbn [compose]. unfold chunk_less.
  destruct (chunk_of_retained (n - S j)) as (_ & _ & -> & _); [lia|lia|].
  destruct (chunk_of_retained k) as (_ & _ & -> & _); [lia|lia|].
  pose proof (concat_take_lt (n - S j) k ltac:(lia) ltac:(lia)).
  destruct (Z.eqb_spec (Z.of_nat (length (concat (take (n - S j) F)))) (Z.of_nat (length (concat (take k F))))); [lia|].
  apply Z.ltb_lt. lia.
Qed.

Definition records_of (j : nat) : list CanRecord := newest j F ≫= stamp_chunk iface.

Lemma newest_records j : (j ≤ m)%nat → (chunk_of <$> seq (n - j) j) ≫= chunk_records iface = records_of j.
Proof using Hcb Hcc Hfits Hlog Hfile.
  intros Hj. unfold records_of, newest. assert (Hall : Forall (λ k, (n - m ≤ k)%nat ∧ (k < n)%nat) (seq (n - j) j)).
  { apply Forall_forall. intros k Hk%elem_of_seq. lia. }
  induction Hall as [|k l [Hlo Hk] _ IH]; [done|]. cbn [fmap list_fmap mbind list_bind].
  destruct (chunk_of_retained k Hlo Hk) as (_ & -> & _). f_equal. exact IH.
Qed.

Lemma records_of_suffix j : (j ≤ m)%nat → ∃ pre, records_of m = pre ++ records_of j.
Proof using Hcb Hcc Hfits Hlog Hfile.
  intros Hj. unfold records_of, newest. exists (((λ k, (k, default [] (F !! k))) <$> seq (n - m) (m - j)) ≫= stamp_chunk iface).
  rewrite <-bind_app, <-fmap_app. do 2 f_equal.
  transitivity (seq (n - m) ((m - j) + j)); [f_equal; lia|]. rewrite seq_app. do 2 f_equal. lia.
Qed.

(** *** The full scan *)
Lemma read_all_ok l acc : Forall (λ i, ∃ c, readChunk (λ _, None) r (Z.of_nat i) = Ok (Some c)) l →
  ∃ cs, read_all (λ _, None) r l acc = Ok (acc ++ cs) ∧
        Forall2 (λ i c, readChunk (λ _, None) r (Z.of_nat i) = Ok (Some c)) l cs.
Proof using Hcb Hcc Hfits Hlog Hfile.
  intros Hl. revert acc. induction Hl as [|i l (c & Hc) _ IH]; intros acc.
  - exists []. rewrite app_nil_r. split; [done|constructor].
  - cbn [read_all]. rewrite Hc. cbn [mbind result_bind]. destruct (IH (acc ++ [c])) as (cs & -> & Hcs).
    exists (c :: cs). rewrite <-app_assoc. split; [done|by constructor].
Qed.

Lemma maxChunks_m : maxChunks r = m.
Proof using Hcb Hcc Hfits Hlog Hfile. unfold maxChunks. cbn [rd_h r ring_header h_ChunkCount h_TotalChunks]. lia. Qed.

Lemma of_nat_mod k : Z.of_nat (k mod Z.to_nat cc) = Z.of_nat k `mod` cc.
Proof using Hcb Hcc Hfits Hlog Hfile. rewrite Nat2Z.inj_mod, Z2Nat.id by lia. done. Qed.

Lemma readAllChunks_ok : ∃ cs, readAllChunks (λ _, None) r = Ok cs ∧ cs ≡ₚ chunk_of <$> seq (n - m) m.
Proof using Hcb Hcc Hfits Hlog Hfile.
  pose (at_ := λ i : nat, match readChunk (λ _, None) r (Z.of_nat i) with
                          | Ok (Some c) => c | _ => MkRingChunk 0 0 0 0 [] end).
  pose proof (seq_rotation_min n (Z.to_nat cc) ltac:(lia)) as Hrot.
  assert (Hall : Forall (λ i, readChunk (λ _, None) r (Z.of_nat i) = Ok (Some (at_ i))) (seq 0 m)).
  { rewrite <-Hrot. apply Forall_fmap, Forall_forall. intros k Hk%elem_of_seq. cbn [compose].
    destruct (chunk_of_retained k) as (Hread & _); [lia|lia|]. unfold at_. by rewrite of_nat_mod, Hread. }
  destruct (read_all_ok (seq 0 m) []) as (cs & Hcs & H2).
  { eapply Forall_impl; [exact Hall|]. intros i Hi. exists (at_ i). exact Hi. }
  exists cs. unfold readAllChunks. rewrite maxChunks_m. split; [exact Hcs|].
  assert (Hat : cs = at_ <$> seq 0 m).
  { clear Hrot Hcs. induction H2 as [|i c l cs' Hc _ IH]; [done|]. inversion Hall; subst. cbn [fmap list_fmap].
    f_equal; [congruence|by apply IH]. }
  rewrite Hat, <-Hrot, <-list_fmap_compose. apply reflexive_eq. apply list_fmap_ext. intros i k _.
  cbn [compose]. unfold at_, chunk_of. by rewrite of_nat_mod.
Qed.

(** *** The scan back from the newest *)
Lemma recent_index s : (s < m)%nat →
  u64 (h_NextChunk (rd_h r) + h_ChunkCount (rd_h r) - 1 - Z.of_nat s) `mod` h_ChunkCount (rd_h r)
    = Z.of_nat (n - 1 - s) `mod` cc.
Proof using Hcb Hcc Hfits Hlog Hfile.
  intros Hs. cbn [r rd_h ring_header h_NextChunk h_ChunkCount].
  pose proof (Z.mod_pos_bound (Z.of_nat n) cc ltac:(lia)) as Hm.
  assert (Hcc63 : cc < 2 ^ 63) by (unfold minChunkBytes in Hcb; assert (Hds : dataStart = 8192) by reflexivity; nia).
  unfold u64. rewrite (Z.mod_small _ (2 ^ 64)) by lia.
  replace (Z.of_nat n `mod` cc + cc - 1 - Z.of_nat s) with (Z.of_nat n `mod` cc + (- 1 - Z.of_nat s) + 1 * cc) by lia.
  rewrite Z.mod_add, Z.add_mod_idemp_l by lia. f_equal. lia.
Qed.

Lemma read_recent_ok limit j recs acc : (j ≤ m)%nat → 0 < limit → 
  recs = Z.of_nat (length (records_of (m - j))) → acc = (λ s, chunk_of (n - 1 - s)) <$> seq 0 (m - j) →
  ∃ j', read_recent (λ _, None) r limit (seq (m - j) j) recs acc =
          Ok ((λ s, chunk_of (n - 1 - s)) <$> seq 0 j') ∧ (j' ≤ m)%nat ∧
        (j' = m ∨ limit ≤ Z.of_nat (length (records_of j'))).
Proof using Hcb Hcc Hfits Hlog Hfile.
  intros Hj Hlim. revert recs acc. induction j as [|j IH]; intros recs acc -> ->.
  - exists m. replace (m - 0)%nat with m by lia. cbn [seq read_recent]. auto.
  - cbn [seq read_recent]. cbv zeta. rewrite recent_index by lia.
    destruct (chunk_of_retained (n - 1 - (m - S j))) as (-> & Hrecs & _ & Hlen & _); [lia|lia|].
    cbn [mbind result_bind]. replace (S (m - S j)) with (m - j)%nat by lia.
    assert (Hnext : (λ s, chunk_of (n - 1 - s)) <$> seq 0 (m - j) =
      ((λ s, chunk_of (n - 1 - s)) <$> seq 0 (m - S j)) ++ [chunk_of (n - 1 - (m - S j))]).
    { replace (m - j)%nat with (S (m - S j)) by lia. by rewrite seq_S, fmap_app. }
    assert (Hsum : length (records_of (m - j)) = (length (records_of (m - S j)) +
      Z.to_nat (ck_records (chunk_of (n - 1 - (m - S j)))))%nat).
    { unfold records_of, newest. replace (m - j)%nat with (S (m - S j)) by lia.
      replace (n - S (m - S j))%nat with (n - 1 - (m - S j))%nat by lia. cbn [seq fmap list_fmap mbind list_bind].
      replace (S (n - 1 - (m - S j))) with (n - (m - S j))%nat by lia.
      rewrite length_app, Hlen. unfold stamp_chunk at 1. rewrite length_fmap. cbn [snd]. lia. }
    rewrite <-Hnext. replace (Z.of_nat (length (records_of (m - S j))) + ck_records (chunk_of (n - 1 - (m - S j))))
      with (Z.of_nat (length (records_of (m - j)))) by lia.
    destruct (Z.leb_spec limit (Z.of_nat (length (records_of (m - j))))).
    + exists (m - j)%nat. split; [done|]. split; [lia|by right].
    + apply IH; [lia|done|done].
Qed.

Lemma snapshotChunks_ok limit : ∃ cs j, snapshotChunks (λ _, None) r limit = Ok cs ∧ (j ≤ m)%nat ∧
  cs ≡ₚ chunk_of <$> seq (n - j) j ∧ (j = m ∨ 0 < limit ∧ limit ≤ Z.of_nat (length (records_of j))).
Proof using Hcb Hcc Hfits Hlog Hfile.
  unfold snapshotChunks. cbn [r rd_h ring_header h_ChunkCount]. destruct (Z.eqb_spec cc 0) as [?|_]; [lia|].
  destruct (Z.leb_spec limit 0).
  - destruct readAllChunks_ok as (cs & Hcs & Hp). exists cs, m. split_and!; auto.
  - unfold readRecentChunks. rewrite maxChunks_m.
    destruct (read_recent_ok limit m 0 []) as (j & Hrun & Hj & Hlim);
      [done|lia|by rewrite Nat.sub_diag|by rewrite Nat.sub_diag|].
    rewrite Nat.sub_diag in Hrun. eexists _, j. split; [exact Hrun|]. split; [done|]. split; [|tauto].
    rewrite <-(rev_seq_newest n j) by lia. by rewrite <-list_fmap_compose.
Qed.

Lemma Snapshot_ok limit h0 : current_header file (ring_header cb cc iface g F) → ∃ sn,
  Snapshot (λ _, None) limit (MkReader file path h0) = (r, Ok sn) ∧
  sn_Records sn = cut limit (spec_records (Z.to_nat cc) iface F) ∧
  sn_Stats sn = statsFromHeader path (ring_header cb cc iface g F).
Proof using Hcb Hcc Hfits Hlog Hfile.
  intros Hcur. unfold Snapshot. cbn [rd_file rd_path]. rewrite (current_header_read _ _ Hcur). fold r.
  destruct (snapshotChunks_ok limit) as (cs & j & -> & Hj & Hp & Hlim). cbn [mbind result_bind].
  rewrite (sort_chunks_eq cs _ Hp (newest_sorted j Hj)). eexists. split; [reflexivity|].
  cbn [sn_Records sn_Stats ring_header h_Interface]. split; [|done]. rewrite newest_records by done.
  change (cut limit (records_of j) = cut limit (records_of m)). destruct Hlim as [->|[H0 Hle]]; [done|].
  destruct (records_of_suffix j Hj) as (pre & ->). by rewrite cut_suffix.
Qed.
End snapshot.

(** ** The abstract ring is the log, chunked *)
Definition log_entries (a : AbstractRing) : list Entry := snd <$> appended a.

Lemma spec_append_entries cb a e : log_entries (spec_append (max_records cb) a e) = log_entries a ++ [e].
Proof.
  unfold log_entries, spec_append, appended. destruct (_ <=? _)%nat; cbn [committed pending];
    rewrite ?concat_app, ?fmap_app; simpl; rewrite ?app_nil_r, ?fmap_app; simpl; by rewrite <-?app_assoc.
Qed.
Lemma spec_session_entries cb a s : log_entries (spec_session (max_records cb) a s) = log_entries a ++ s.
Proof.
  unfold spec_session, log_entries. rewrite spec_close_appended. revert a.
  induction s as [|e s IH]; intros a; simpl; [by rewrite app_nil_r|].
  rewrite IH. pose proof (spec_append_entries cb a e) as H. unfold log_entries in H. by rewrite H, <-app_assoc.
Qed.
Lemma spec_sessions_entries cb ss a : log_entries (fold_left (spec_session (max_records cb)) ss a) = log_entries a ++ concat ss.
Proof.
  revert a. induction ss as [|s ss IH]; intros a; simpl; [by rewrite app_nil_r|].
  by rewrite IH, spec_session_entries, app_assoc.
Qed.

Definition empty_ring : AbstractRing := MkAbstractRing [] [].

(** ** Properties *)

(** C7: the ring file is a faithful log.  Start from any file that is not already a
    ring of this geometry and run sessions on a disk that works: open, append
    valid frames, close.  No session fails.  A reader then opens the file, and a
    snapshot with any limit returns exactly the records of the abstract ring:
    every frame appended, in order and numbered from zero, cut into chunks, of
    which the ring keeps the last [cc]; a positive limit keeps the newest
    records.  Times, identifiers, lengths and data come back unchanged. *)
Theorem Snapshot_refines (cb cc : Z) (iface : bytes) (path : string) (sync : bool) (file0 : bytes)
    (s : list Entry) (ss : list (list Entry)) (limit : Z) :
  minChunkBytes ≤ cb < 2 ^ 32 → 2 ≤ cc → dataStart + cc * cb < 2 ^ 63 →
  (length iface ≤ 32)%nat ∧ last iface ≠ Some x00 → length (TrimSpace (str path)) ≠ 0%nat →
  other_file cb cc file0 → Forall (Forall (λ e, frame_valid (e_frame e))) (s :: ss) →
  Z.of_nat (length (concat (s :: ss))) < 2 ^ 62 →
  let final := fold_left (spec_session (max_records cb)) (s :: ss) empty_ring in
  ∃ file r r' sn,
    run_sessions (ring_config cb cc iface path sync) (s :: ss) file0 = Some file ∧
    OpenReader (λ _, None) None path file = Ok r ∧ Snapshot (λ _, None) limit r = (r', Ok sn) ∧
    sn_Records sn = cut limit (spec_records (Z.to_nat cc) iface (committed final)) ∧
    snd <$> concat (committed final) = concat (s :: ss) ∧
    (∀ i n, concat (committed final) !! i = Some n → n.1 = Z.of_nat i).
Proof.
  intros Hcb Hcc Hfits Hif Hp Hother Hs Hbig final. inversion_clear Hs as [|? ? Hs1 Hs2].
  cbn [concat] in Hbig. rewrite length_app in Hbig.
  destruct (run_session_ok cb cc Hcb Hcc Hfits iface Hif path sync s file0 empty_ring Hp) as (file1 & Hrun1 & Hr1 & Hl1);
    [by right|done|simpl; lia|].
  destruct (run_sessions_ok cb cc Hcb Hcc Hfits iface Hif path sync ss file1 _ Hp Hr1 Hs2) as (file & Hrun & Hr);
    [rewrite Hl1; simpl; lia|].
  change (ring_ok cb cc iface file final) in Hr. destruct Hr as (HP & Hlog & g & Hfile).
  assert (Hfinal : final = MkAbstractRing (committed final) []) by (destruct final; simpl in HP; by subst).
  pose proof Hfile as (_ & _ & _ & Hcur & _). rewrite Hfinal in Hlog.
  destruct (Snapshot_ok cb cc Hcb Hcc Hfits iface file path (committed final) g Hlog Hfile limit
    (ring_header cb cc iface g (committed final)) Hcur) as (sn & Hsn & Hrec & _).
  pose proof (spec_sessions_entries cb (s :: ss) empty_ring) as Hent. fold final in Hent.
  unfold log_entries, appended in Hent. rewrite HP, app_nil_r in Hent.
  eexists file, _, _, sn. split_and!; [| |exact Hsn|exact Hrec|exact Hent|].
  - cbn [run_sessions]. by rewrite Hrun1.
  - unfold OpenReader. apply Nat.eqb_neq in Hp. rewrite Hp. by rewrite (current_header_read _ _ Hcur).
  - intros i n Hn. destruct Hlog as (Hnum & _). apply (Hnum i n). unfold appended. simpl. by rewrite app_nil_r.
Qed.

Definition one_frame (id ts : Z) : Entry := MkEntry ts 7 (MkFrame id (replicate 8 x11) 8).

Lemma new_file_other cb cc : 0 ≤ cc * cb → other_file cb cc [].
Proof.
  intros H. unfold other_file. assert (Hz : Truncate [] (dataStart + cc * cb) = replicate (Z.to_nat (dataStart + cc * cb)) x00).
  { unfold Truncate. by rewrite take_nil, Nat.sub_0_r. }
  assert (Hd : dataStart = 8192) by reflexivity.
  assert (Hsb : ∀ i, 0 ≤ i < 2 → superblock (replicate (Z.to_nat (dataStart + cc * cb)) x00) i = None).
  { intros i Hi. rewrite superblock_slice by (rewrite ?length_replicate; lia).
    unfold slice. rewrite drop_replicate, take_replicate.
    replace (Nat.min _ _) with (Z.to_nat superblockSize) by (unfold superblockSize; lia).
    vm_compute. reflexivity. }
  rewrite Hz, readLatestHeader_eq, !Hsb by lia. done.
Qed.

Lemma Snapshot_refines_witness :
  ∃ file r r' sn,
    run_sessions (ring_config minChunkBytes 2 (str "can0") "ring" false)
      [[one_frame 1 100; one_frame 2 101]; [one_frame 3 (-5)]] [] = Some file ∧
    OpenReader (λ _, None) None "ring" file = Ok r ∧ Snapshot (λ _, None) 2 r = (r', Ok sn) ∧
    (r_ID <$> sn_Records sn) = [2; 3] ∧ (r_Seq <$> sn_Records sn) = [1; 2].
Proof.
  destruct (Snapshot_refines minChunkBytes 2 (str "can0") "ring" false [] [one_frame 1 100; one_frame 2 101]
    [[one_frame 3 (-5)]] 2) as (file & r & r' & sn & H1 & H2 & H3 & H4 & _);
    [unfold minChunkBytes; lia|lia|unfold dataStart, superblockCount, superblockSize, minChunkBytes; lia
    |split; [simpl; lia|discriminate]|discriminate|apply new_file_other; unfold minChunkBytes; lia| |simpl; lia|].
  - repeat constructor; simpl; lia.
  - exists file, r, r', sn. split_and!; [exact H1|exact H2|exact H3|rewrite H4; vm_compute; reflexivity
      |rewrite H4; vm_compute; reflexivity].
Defined.

(** *** Interrupted writes *)
Lemma superblock_torn file i j data : 0 ≤ i < 2 → 0 ≤ j < 2 → i ≠ j → (Z.to_nat dataStart ≤ length file)%nat →
  (length data ≤ Z.to_nat superblockSize)%nat →
  superblock (put_at file (Z.to_nat (i * superblockSize)) data) j = superblock file j.
Proof.
  intros Hi Hj Hne Hl Hd. assert (Hds : dataStart = 8192) by reflexivity. unfold superblockSize in *.
  rewrite !superblock_slice by (rewrite ?length_put_at by lia; lia). unfold superblockSize. f_equal.
  destruct (decide (j < i)); [apply slice_put_at_before; lia|apply slice_put_at_after; lia].
Qed.

(** A superblock torn by a crash or a full disk does not lose the ring.  Let the
    latest header of the writer's file be that of its generation, and let the
    write of the next header stop after any number of bytes with an error.  The
    error is reported, no chunk is touched, and unless the torn superblock passes
    all its checks a reader finds the previous header; if the whole superblock
    was stored before the error, it finds the new one. *)
Theorem torn_superblock_keeps_ring (w : Writer) (h : RingHeader) (n : nat) (e : error) :
  current_header (w_file w) h → h_Generation h = generation w → 0 ≤ generation w →
  header_ok (writer_header (writeHeader None w).1) → (Z.to_nat dataStart ≤ length (w_file w))%nat →
  generation w + 1 < 2 ^ 64 →
  let w' := (writeHeader (Some (n, e)) w).1 in
  (writeHeader (Some (n, e)) w).2 = Some e ∧
  drop (Z.to_nat dataStart) (w_file w') = drop (Z.to_nat dataStart) (w_file w) ∧
  (superblock (w_file w') ((generation w + 1) `mod` 2) = None →
     readLatestHeader (λ _, None) (w_file w') = Some h) ∧
  ((Z.to_nat superblockSize ≤ n)%nat →
     readLatestHeader (λ _, None) (w_file w') = Some (writer_header (writeHeader None w).1)).
Proof.
  intros Hcur Hg Hg0 Hok Hl Hbig. assert (Hu : u64 (generation w + 1) = generation w + 1) by (unfold u64; apply Z.mod_small; lia).
  set (h' := MkRingHeader (generation w + 1) (dataStart + chunkCount w * chunkBytes w) (chunkBytes w) (chunkCount w)
    (nextChunk w) (totalChunks w) (totalRecords w) (w_iface w)).
  assert (Hh' : writer_header (writeHeader None w).1 = h').
  { unfold writeHeader, writer_header. cbn -[encodeHeader put_at superblockCount superblockSize u64 extend]. by rewrite Hu. }
  rewrite Hh' in *. set (i := (generation w + 1) `mod` 2).
  assert (Hi : 0 ≤ i < 2) by (apply Z.mod_pos_bound; lia). assert (Hds : dataStart = 8192) by reflexivity.
  pose proof (length_encodeHeader h') as Hlh. set (data := take n (encodeHeader h')).
  assert (Hld : (length data ≤ Z.to_nat superblockSize)%nat) by (unfold data; rewrite length_take; lia).
  assert (Hrun : writeHeader (Some (n, e)) w = (set_file (put_at (w_file w) (Z.to_nat (i * superblockSize)) data)
    (writeHeader None w).1, Some e)).
  { unfold writeHeader, writer_header. cbn -[encodeHeader put_at superblockCount superblockSize u64 extend].
    rewrite Hu. fold h'. change superblockCount with 2. fold i data. unfold extend. unfold superblockSize in *.
    replace (_ - length (w_file w))%nat with 0%nat by lia. by rewrite app_nil_r. }
  cbv zeta. rewrite Hrun. cbn [fst snd set_file w_file]. split_and!; [done| | |].
  - unfold put_at. rewrite app_assoc, drop_app_ge by (rewrite length_app, length_take; unfold superblockSize in *; lia).
    rewrite length_app, length_take, drop_drop. f_equal. unfold superblockSize in *. lia.
  - intros Hnone. apply current_header_read. split.
    + rewrite superblock_torn; [apply Hcur|done|apply Z.mod_pos_bound; lia| |lia|done]. rewrite Hg. unfold i. zdiv.
    + assert (Ho : 1 - h_Generation h `mod` 2 = i) by (rewrite Hg; unfold i; zdiv). by rewrite Ho, Hnone.
  - intros Hn. assert (Hdata : data = encodeHeader h') by (unfold data; apply take_ge; lia). rewrite Hdata.
    apply current_header_read. apply (current_header_next _ h h'); [done|simpl; lia|lia|done].
Qed.

Definition small_header (g : Z) : RingHeader := ring_header minChunkBytes 2 (str "can0") g [].
Definition small_file : bytes := replicate (Z.to_nat superblockSize) x00 ++ encodeHeader (small_header 1).
Definition small_writer : Writer := fresh_writer minChunkBytes 2 (str "can0") "ring" false small_file 1.

(** The new superblock is cut inside its fields; the old one is found. *)
Lemma torn_superblock_keeps_ring_witness :
  readLatestHeader (λ _, None) (w_file (writeHeader (Some (60%nat, Sentinel IoErrClosedPipe)) small_writer).1)
    = Some (small_header 1).
Proof.
  apply (torn_superblock_keeps_ring small_writer (small_header 1) 60 (Sentinel IoErrClosedPipe)).
  - split; vm_compute; [reflexivity|exact I].
  - reflexivity.
  - simpl. lia.
  - change (writer_header (writeHeader None small_writer).1) with (small_header 2).
    apply ring_header_ok; try (simpl; lia); [unfold minChunkBytes; lia
      |unfold dataStart, superblockCount, superblockSize, minChunkBytes; lia|split; [simpl; lia|discriminate]].
  - apply Nat.leb_le. vm_compute. reflexivity.
  - simpl. lia.
  - vm_compute. reflexivity.
Defined.

(** A failed chunk write breaks the writer.  When the frame that fills a chunk
    makes the flush fail at its chunk write (a full disk, say), [Append] reports
    the error; but the buffer stays full, so that the next valid frame, whatever
    the disk does then, makes [Append] slice past the end of its buffer: it
    panics instead of returning an error. *)
Theorem Append_after_failed_flush_panics (cb cc : Z) (iface : bytes) (w : Writer) (a : AbstractRing)
    (e e' : Entry) (k : nat) (err : error) (y y' : FlushIO) :
  minChunkBytes ≤ cb < 2 ^ 32 → 2 ≤ cc → dataStart + cc * cb < 2 ^ 63 →
  (length iface ≤ 32)%nat ∧ last iface ≠ Some x00 → writer_ok cb cc iface w a →
  frame_valid (e_frame e) → frame_valid (e_frame e') → S (length (pending a)) = max_records cb →
  Z.of_nat (length (appended a)) + 1 < 2 ^ 62 → chunk_write y = Some (k, err) →
  ∃ w', Append y (e_frame e) (e_ts e) (e_elapsed e) w = Some (w', Some err) ∧
        Append y' (e_frame e') (e_ts e') (e_elapsed e') w' = None.
Proof.
  intros Hcb Hcc Hfits Hif Hw Hf Hf' HM Hbig Hy.
  pose proof (max_records_pos cb Hcb) as Hpos. pose proof (max_records_fit cb Hcb _ (le_n (max_records cb))) as Hfit.
  rewrite (Append_runs cb cc Hcb Hcc Hfits iface Hif w a e Hw Hf ltac:(lia) Hbig y).
  set (x := (Z.of_nat (length (appended a)), e) : numbered) in *.
  rewrite length_app. cbn [length]. replace (max_records cb <=? length (pending a) + 1)%nat with true
    by (symmetry; apply Nat.leb_le; lia).
  pose proof (filled_ok cb cc Hcb Hcc Hfits iface Hif w a e Hw Hf ltac:(lia) Hbig) as Hok.
  set (w1 := filled cb cc iface w a e) in *.
  assert (Hrec : records w1 = Z.of_nat (max_records cb)).
  { rewrite (wo_records _ _ _ _ _ Hok). cbn [pending]. rewrite length_app. simpl. lia. }
  assert (Hbuf : length (put_at (buf w1) 0 (chunk_header w1)) = Z.to_nat cb).
  { rewrite length_put_at; rewrite (wo_buflen _ _ _ _ _ Hok); [done|]. change (length (chunk_header w1)) with 60%nat.
    unfold minChunkBytes in Hcb. lia. }
  unfold flushChunk. rewrite Hrec. destruct (Z.eqb_spec (Z.of_nat (max_records cb)) 0); [lia|]. cbv zeta.
  rewrite Hy. unfold WriteAt. eexists. split; [reflexivity|].
  unfold Append, Frame_Validate. cbn [closed set_file set_buf]. rewrite (wo_closed _ _ _ _ _ Hok).
  destruct (Z.ltb_spec 8 (f_DLC (e_frame e'))); [destruct Hf'; lia|]. cbv zeta. cbn [records buf set_file set_buf]. rewrite Hrec.
  destruct (Z.eqb_spec (Z.of_nat (max_records cb)) 0); [lia|]. rewrite Hbuf.
  destruct (Z.ltb_spec (Z.of_nat (Z.to_nat cb)) (chunkHeaderSize + Z.of_nat (max_records cb) * recordSize + recordSize)); [done|].
  exfalso. unfold max_records, chunkHeaderSize, recordSize in *. unfold minChunkBytes in Hcb.
  pose proof (Z.mul_succ_div_gt (cb - 64) 48 ltac:(lia)). lia.
Qed.

(** A writer one frame short of a full chunk. *)
Definition almost_full : AbstractRing :=
  fold_left (spec_append (max_records minChunkBytes)) (replicate 1363 (one_frame 1 100)) empty_ring.

Lemma almost_full_reached : ∃ w, writer_ok minChunkBytes 2 (str "can0") w almost_full.
Proof.
  assert (Hif : (length (str "can0") ≤ 32)%nat ∧ last (str "can0") ≠ Some x00) by (split; [simpl; lia|discriminate]).
  assert (Hfits : dataStart + 2 * minChunkBytes < 2 ^ 63) by (vm_compute; reflexivity).
  assert (Hcb : minChunkBytes ≤ minChunkBytes < 2 ^ 32) by (unfold minChunkBytes; lia).
  destruct (OpenWriter_init minChunkBytes 2 Hcb ltac:(lia) Hfits (str "can0") Hif "ring" false [])
    as (w0 & _ & Hw0); [discriminate|apply new_file_other; unfold minChunkBytes; lia|].
  destruct (append_all_ok minChunkBytes 2 Hcb ltac:(lia) Hfits (str "can0") Hif (replicate 1363 (one_frame 1 100)) w0 empty_ring)
    as (w & _ & Hw & _); [done| |apply (max_records_pos _ Hcb)|vm_compute; reflexivity|].
  - apply Forall_replicate. repeat split; simpl; lia.
  - by exists w.
Qed.

Lemma Append_after_failed_flush_panics_witness :
  ∃ w w', Append (MkFlushIO (Some (0%nat, Sentinel IoErrClosedPipe)) None None) (e_frame (one_frame 1 100)) 100 7 w
            = Some (w', Some (Sentinel IoErrClosedPipe)) ∧
          Append good_flush (e_frame (one_frame 2 101)) 101 7 w' = None.
Proof.
  destruct almost_full_reached as (w & Hw). exists w.
  apply (Append_after_failed_flush_panics minChunkBytes 2 (str "can0") w almost_full (one_frame 1 100) (one_frame 2 101)
    0 (Sentinel IoErrClosedPipe)); [unfold minChunkBytes; lia|lia|vm_compute; reflexivity
    |split; [simpl; lia|discriminate]|exact Hw|repeat split; simpl; lia|repeat split; simpl; lia
    |vm_compute; reflexivity|vm_compute; reflexivity|reflexivity].
Defined.
