(* ===== verification/Endpoint.v ===== *)
(** * Endpoint: the targets of MeCom connections ([mecom/transport.go])

    A target is the text an operator configures for a device: a TCP address, a
    serial device with its baud rate, or a node of a CAN bus.  Opening an endpoint
    is system calls; the parser, the text of an endpoint and the choice between
    transports are here. *)
From stdpp Require Import prelude strings list.
From Stdlib Require Import Strings.Byte.
From S2P Require Import Prelude Text.
Open Scope Z_scope.

(** ** Data *)
Record Endpoint := MkEndpoint {
  Network : string;
  Address : bytes;
  Baud : Z }.

Definition legacyDefaultSerialBaud : Z := 115200.

(** ** Decimal integers *)
Definition dec_char (d : Z) : byte := zb (48 + d).
(** A Go integer has at most 19 decimal digits. *)
Fixpoint dec_digits (fuel : nat) (z : Z) : bytes :=
  match fuel with
  | O => []
  | S f => if z <? 10 then [dec_char z] else dec_digits f (z / 10) ++ [dec_char (z mod 10)]
  end.
(** [%d]. *)
Definition fmtD (z : Z) : bytes := if z <? 0 then "-"%byte :: dec_digits 19 (- z) else dec_digits 19 z.

(** [strings.LastIndex] of one byte. *)
Fixpoint last_index (b : byte) (l : bytes) : option nat :=
  match l with
  | [] => None
  | a :: l' => match last_index b l' with
               | Some i => Some (S i)
               | None => if bool_decide (a = b) then Some 0%nat else None
               end
  end.

(** ** Endpoints *)
Definition Endpoint_String (e : Endpoint) : bytes :=
  if bool_decide (Network e = "serial"%string) then
    str "serial:" ++ Address e ++ "@"%byte :: fmtD (Baud e)
  else if bool_decide (Network e = "can"%string) then str "can:" ++ Address e
  else Address e.

Definition parse_serial (target : bytes) : Endpoint :=
  let raw := TrimPrefix target (str "serial:") in
  match last_index "@"%byte raw with
  | None => MkEndpoint "serial" (TrimSpace raw) legacyDefaultSerialBaud
  | Some at_ =>
      let baud := match Atoi (TrimSpace (drop (S at_) raw)) with
                  | Some b => if 0 <? b then b else legacyDefaultSerialBaud
                  | None => legacyDefaultSerialBaud
                  end in
      MkEndpoint "serial" (TrimSpace (take at_ raw)) baud
  end.

Definition ParseEndpoint (target : bytes) : option Endpoint :=
  let target := TrimSpace target in
  if bool_decide (target = []) then None
  else
    let lower := ToLower target in
    if HasPrefix lower (str "tcp:") then Some (MkEndpoint "tcp" (TrimSpace (drop 4 target)) 0)
    else if HasPrefix lower (str "can:") then Some (MkEndpoint "can" (TrimSpace (drop 4 target)) 0)
    else if HasPrefix lower (str "serial:") || HasPrefix target (str "/dev/") ||
            HasPrefix (ToUpper target) (str "COM") then Some (parse_serial target)
    else Some (MkEndpoint "tcp" target 0).
Definition ParseTarget (target : bytes) : option Endpoint := ParseEndpoint target.

(** What [Dial] does with an endpoint, before any system call: the transport it
    opens, or the refusal. *)
Inductive transport := OpenSerial (device : bytes) (baud : Z) | DialTCP (address : bytes).
Definition Dial (e : Endpoint) : res transport :=
  if bool_decide (Network e = "serial"%string) then Ok (OpenSerial (Address e) (Baud e))
  else if bool_decide (Network e = "can"%string) then
    Err (Wrapf "%w: CAN endpoints require an application adapter: %s" [] (Sentinel ErrTransportNotSupported))
  else Ok (DialTCP (Address e)).

(** ** Lemmas *)
Lemma dec_char_digit d : 0 ≤ d < 10 →
  digit_val (dec_char d) = Some d ∧ is_space (dec_char d) = false ∧
  dec_char d ≠ "@"%byte ∧ dec_char d ≠ "-"%byte ∧ dec_char d ≠ "+"%byte.
Proof.
  intros Hd.
  pose proof (range_check (λ d, bool_decide (digit_val (dec_char d) = Some d ∧ is_space (dec_char d) = false ∧
    dec_char d ≠ "@"%byte ∧ dec_char d ≠ "-"%byte ∧ dec_char d ≠ "+"%byte)) 10 eq_refl d Hd) as H.
  by apply bool_decide_eq_true in H.
Qed.

Lemma parse_dec_digits fuel z maxVal : 0 ≤ z < 10 ^ Z.of_nat fuel → z ≤ maxVal →
  parse_uint_go 10 maxVal 0 (dec_digits fuel z) = Ok z.
Proof.
  revert z. induction fuel as [|fuel IH]; intros z Hz Hm; [simpl in *; f_equal; lia|].
  assert (Hdig : ∀ acc d, 0 ≤ d < 10 → acc * 10 + d ≤ maxVal →
            parse_uint_go 10 maxVal acc [dec_char d] = Ok (acc * 10 + d)).
  { intros acc d Hd Ha. cbn [parse_uint_go]. destruct (dec_char_digit d Hd) as [-> _].
    destruct (Z.leb_spec 10 d); [lia|]. cbv zeta. by destruct (Z.ltb_spec maxVal (acc * 10 + d)); [lia|]. }
  cbn [dec_digits]. destruct (Z.ltb_spec z 10); [rewrite Hdig by lia; f_equal; lia|].
  rewrite Nat2Z.inj_succ, Z.pow_succ_r in Hz by lia.
  pose proof (Z.mod_pos_bound z 10 ltac:(lia)). pose proof (Z.div_mod z 10 ltac:(lia)).
  assert (z / 10 < 10 ^ Z.of_nat fuel) by (apply Z.div_lt_upper_bound; lia).
  assert (0 ≤ z / 10) by (apply Z.div_pos; lia).
  rewrite parse_uint_go_app, IH by lia. cbn [mbind result_bind]. rewrite Hdig by lia. f_equal. lia.
Qed.

Lemma dec_digits_ends fuel z : 0 ≤ z → (0 < fuel)%nat →
  ∃ l d, dec_digits fuel z = l ++ [dec_char d] ∧ 0 ≤ d < 10.
Proof.
  intros Hz Hf. destruct fuel as [|fuel]; [lia|]. cbn [dec_digits]. destruct (Z.ltb_spec z 10).
  - exists [], z. by split; [|lia].
  - eexists _, _. split; [done|]. apply Z.mod_pos_bound. lia.
Qed.

Lemma dec_digits_chars fuel z : 0 ≤ z →
  Forall (λ b, is_space b = false ∧ b ≠ "@"%byte ∧ b ≠ "-"%byte ∧ b ≠ "+"%byte) (dec_digits fuel z).
Proof.
  revert z. induction fuel as [|fuel IH]; intros z Hz; [constructor|]. cbn [dec_digits].
  assert (Hc : ∀ d, 0 ≤ d < 10 → is_space (dec_char d) = false ∧ dec_char d ≠ "@"%byte ∧
            dec_char d ≠ "-"%byte ∧ dec_char d ≠ "+"%byte) by (intros d Hd; apply (dec_char_digit d Hd)).
  destruct (Z.ltb_spec z 10); [repeat constructor; apply Hc; lia|].
  apply Forall_app. split; [apply IH, Z.div_pos; lia|].
  apply Forall_singleton, Hc, Z.mod_pos_bound. lia.
Qed.

Lemma Atoi_dec z : 0 ≤ z < 2 ^ 63 → Atoi (dec_digits 19 z) = Some z.
Proof.
  intros Hz. pose proof (dec_digits_chars 19 z ltac:(lia)) as Hc.
  destruct (dec_digits_ends 19 z) as (l & d & E & _); [lia|lia|].
  pose proof (parse_dec_digits 19 z (2 ^ 64 - 1) ltac:(lia) ltac:(lia)) as Hp.
  destruct (dec_digits 19 z) as [|b t] eqn:Ed; [by destruct l|].
  apply Forall_cons in Hc as [(_ & _ & Hm & Hplus) _].
  assert (Hu : ParseUint (b :: t) 10 64 = Ok z) by exact Hp.
  unfold Atoi. destruct b; try done; rewrite Hu; cbn [mbind option_bind];
    (destruct (Z.leb_spec (- 2 ^ 63) z); [|lia]; by destruct (Z.ltb_spec z (2 ^ 63)); [|lia]).
Qed.

Lemma last_index_snoc b l t : b ∉ t → last_index b (l ++ b :: t) = Some (length l).
Proof.
  intros Ht. induction l as [|a l IH]; cbn [app last_index length].
  - replace (last_index b t) with (@None nat); [by rewrite bool_decide_true|].
    induction t as [|c t IH]; [done|]. apply not_elem_of_cons in Ht as [Hc Ht]. cbn [last_index].
    rewrite <-IH by done. by rewrite bool_decide_false.
  - by rewrite IH.
Qed.

(** A text without white space at its ends. *)
Definition trimmed (l : bytes) : Prop := TrimSpace l = l.

Lemma trim_right_snoc l c : is_space c = false → trim_right (l ++ [c]) = l ++ [c].
Proof.
  intros Hc. unfold trim_right. rewrite reverse_app. cbn [reverse rev_append app].
  change (trim_left (reverse [c] ++ reverse l)) with (trim_left (c :: reverse l)). cbn [trim_left].
  rewrite Hc. by rewrite reverse_cons, reverse_involutive.
Qed.

Lemma trimmed_ends l c : is_space c = false → (∀ b t, l ++ [c] = b :: t → is_space b = false) → trimmed (l ++ [c]).
Proof.
  intros Hc Hb. unfold trimmed, TrimSpace. destruct (l ++ [c]) as [|b t] eqn:E; [by destruct l|].
  cbn [trim_left]. rewrite (Hb b t eq_refl), <-E. by apply trim_right_snoc.
Qed.

Lemma trim_left_length l : (length (trim_left l) ≤ length l)%nat.
Proof. induction l as [|b l IH]; [done|]. cbn [trim_left]. destruct (is_space b); simpl in *; lia. Qed.

(** Trimmed text has no white space at its end. *)
Lemma trimmed_last l c : trimmed (l ++ [c]) → is_space c = false.
Proof.
  intros Ht. destruct (is_space c) eqn:Hc; [|done]. exfalso. unfold trimmed in Ht.
  rewrite TrimSpace_snoc_space in Ht by done. unfold TrimSpace, trim_right in Ht.
  apply (f_equal length) in Ht. rewrite length_reverse, length_app in Ht. simpl in Ht.
  pose proof (trim_left_length (reverse (trim_left l))). rewrite length_reverse in *.
  pose proof (trim_left_length l). lia.
Qed.

Lemma trimmed_app p a : p ≠ [] → (∀ b t, p = b :: t → is_space b = false) →
  (∀ b, last p = Some b → is_space b = false) → trimmed a → trimmed (p ++ a).
Proof.
  intros Hp Hb Hl Ha. destruct (decide (a = [])) as [->|Hne].
  - rewrite app_nil_r. destruct (exists_last Hp) as (q & c & ->).
    apply trimmed_ends; [|exact Hb]. apply Hl, last_snoc.
  - destruct (exists_last Hne) as (q & c & ->). rewrite app_assoc. apply trimmed_ends.
    + by apply (trimmed_last q).
    + intros b t E. destruct p as [|b' p']; [done|]. injection E as -> _. by eapply Hb.
Qed.

(** ** Properties *)

(** The endpoints whose text names them: an address has no white space around it,
    and a TCP address is not the text of another transport. *)
Definition endpoint_wf (e : Endpoint) : Prop :=
  trimmed (Address e) ∧
  (Network e = "serial"%string ∧ 0 < Baud e < 2 ^ 63 ∨
   Network e = "can"%string ∧ Baud e = 0 ∨
   Network e = "tcp"%string ∧ Baud e = 0 ∧ Address e ≠ [] ∧
     Forall (λ p, HasPrefix (ToLower (Address e)) (str p) = false) ["tcp:"; "can:"; "serial:"]%string ∧
     HasPrefix (Address e) (str "/dev/") = false ∧ HasPrefix (ToUpper (Address e)) (str "COM") = false).

(** The text of an endpoint parses back to the endpoint: the description a broker
    publishes of its connection is a target that opens the same connection. *)
Theorem ParseEndpoint_roundtrip (e : Endpoint) : endpoint_wf e → ParseEndpoint (Endpoint_String e) = Some e.
Proof.
  destruct e as [n a b]. unfold endpoint_wf, Endpoint_String. cbn [Network Address Baud].
  intros [Ha [[-> Hb]|[[-> ->]|(-> & -> & Hne & Hp & Hd & Hc)]]].
  - rewrite bool_decide_true by done. unfold fmtD. destruct (Z.ltb_spec b 0); [lia|].
    destruct (dec_digits_ends 19 b) as (l & d & E & Hdig); [lia|lia|].
    assert (Ht : trimmed (str "serial:" ++ a ++ "@"%byte :: dec_digits 19 b)).
    { rewrite E. replace (str "serial:" ++ a ++ "@"%byte :: l ++ [dec_char d])
        with ((str "serial:" ++ a ++ "@"%byte :: l) ++ [dec_char d]) by (by rewrite <-!app_assoc).
      apply trimmed_ends; [by apply dec_char_digit|]. intros b' t [= <- _]. done. }
    unfold ParseEndpoint. rewrite Ht. cbv zeta. rewrite bool_decide_false by done.
    change (ToLower (str "serial:" ++ a ++ "@"%byte :: dec_digits 19 b))
      with (str "serial:" ++ ToLower (a ++ "@"%byte :: dec_digits 19 b)).
    rewrite HasPrefix_app. change (HasPrefix (str "serial:" ++ _) (str "tcp:")) with false.
    change (HasPrefix (str "serial:" ++ _) (str "can:")) with false. cbn [orb]. f_equal.
    unfold parse_serial, TrimPrefix. rewrite HasPrefix_app, drop_app_length.
    rewrite last_index_snoc, take_app_length, drop_app_ge by
      (first [lia | intros Hin; pose proof (dec_digits_chars 19 b ltac:(lia)) as Hf;
         rewrite Forall_forall in Hf; by apply Hf in Hin as (_ & ? & _)]).
    replace (S (length a) - length a)%nat with 1%nat by lia. cbn [drop].
    assert (trimmed (dec_digits 19 b)) as ->.
    { rewrite E. apply trimmed_ends; [by apply dec_char_digit|]. rewrite <-E. intros b' t E'.
      pose proof (dec_digits_chars 19 b ltac:(lia)) as Hf. rewrite E' in Hf. by apply Forall_cons in Hf as [[? _] _]. }
    rewrite Atoi_dec, Ha by lia. by destruct (Z.ltb_spec 0 b); [|lia].
  - change (bool_decide ("can" = "serial")%string) with false. rewrite bool_decide_true by done.
    unfold ParseEndpoint. rewrite (trimmed_app (str "can:") a) by (done || by intros ? ? [= <- _] || by intros ? [= <-]).
    cbv zeta. rewrite bool_decide_false by done.
    change (ToLower (str "can:" ++ a)) with (str "can:" ++ ToLower a). rewrite HasPrefix_app.
    change (HasPrefix (str "can:" ++ ToLower a) (str "tcp:")) with false. cbv iota.
    change (drop 4 (str "can:" ++ a)) with a. by rewrite Ha.
  - change (bool_decide ("tcp" = "serial")%string) with false. change (bool_decide ("tcp" = "can")%string) with false.
    unfold ParseEndpoint. rewrite Ha. cbv zeta iota. rewrite bool_decide_false by done.
    repeat apply Forall_cons in Hp as [? Hp]. by rewrite H, H0, H1, Hd, Hc.
Qed.

Lemma ParseEndpoint_roundtrip_witness :
  ParseEndpoint (str "serial:/dev/ttyUSB0@57600") = Some (MkEndpoint "serial" (str "/dev/ttyUSB0") 57600).
Proof.
  apply (ParseEndpoint_roundtrip (MkEndpoint "serial" (str "/dev/ttyUSB0") 57600)).
  split; [reflexivity|]. left. by split; [|simpl].
Defined.

(** The scheme of a serial target is recognised in any case, but only a lower-case
    one is removed: the device opened is then named with its scheme. *)
Lemma serial_scheme_case :
  ParseEndpoint (str "SERIAL:/dev/ttyUSB0@57600") = Some (MkEndpoint "serial" (str "SERIAL:/dev/ttyUSB0") 57600) ∧
  ParseEndpoint (str "TCP:bench:50000") = Some (MkEndpoint "tcp" (str "bench:50000") 0).
Proof. by split; vm_compute. Qed.
