(* ===== verification/Literals.v ===== *)
(** * Literals: integers as [strconv] reads them with base 0

    The tools of [cmd/] take numbers in the notation of Go: a prefix tells the base,
    and underscores may stand between digits.  [ParseUint0] and [ParseInt0] are
    [strconv.ParseUint] and [strconv.ParseInt] with base 0. *)
From stdpp Require Import prelude strings list.
From Stdlib Require Import Strings.Byte.
From S2P Require Import Prelude Text Endpoint.
Local Open Scope Z_scope.

(** The base, and what follows its prefix. *)
Definition literal_base (l : bytes) : Z * bytes :=
  match l with
  | "0"%byte :: l' =>
      match l' with
      | c :: ((_ :: _) as digits) =>
          if bool_decide (lower_byte c = "b"%byte) then (2, digits)
          else if bool_decide (lower_byte c = "o"%byte) then (8, digits)
          else if bool_decide (lower_byte c = "x"%byte) then (16, digits)
          else (8, l')
      | _ => (8, l')
      end
  | _ => (10, l)
  end.
(** [strconv.underscoreOK]: [seen] is the class of the last character. *)
Inductive underscore_class := Start | Digit | Underscore | Other.
Global Instance underscore_class_eq_dec : EqDecision underscore_class.
Proof. solve_decision. Defined.
Fixpoint underscore_go (hex : bool) (seen : underscore_class) (l : bytes) : bool :=
  match l with
  | [] => negb (bool_decide (seen = Underscore))
  | b :: l =>
      let digit := match digit_val b with Some d => (d <? 10) || (hex && (d <? 16)) | None => false end in
      if digit then underscore_go hex Digit l
      else if bool_decide (b = "_"%byte) then
        if bool_decide (seen = Digit) then underscore_go hex Underscore l else false
      else if bool_decide (seen = Underscore) then false
      else underscore_go hex Other l
  end.
Definition underscoreOK (l : bytes) : bool :=
  match l with
  | "0"%byte :: c :: rest =>
      if bool_decide (lower_byte c ∈ ["b"%byte; "o"%byte; "x"%byte]) then underscore_go (bool_decide (lower_byte c = "x"%byte)) Digit rest
      else underscore_go false Start l
  | _ => underscore_go false Start l
  end.
Definition is_underscore (b : byte) : bool := bool_decide (b = "_"%byte).
Definition ParseUint0 (l : bytes) (bits : Z) : res Z :=
  match l with
  | [] => Err ErrSyntax
  | _ =>
      let '(base, digits) := literal_base l in
      n ← parse_uint_go base (2 ^ bits - 1) 0 (filter (λ b, is_underscore b = false) digits);
      if existsb is_underscore digits && negb (underscoreOK l) then Err ErrSyntax else Ok n
  end.
Definition ParseInt0 (l : bytes) (bits : Z) : res Z :=
  let '(neg, digits) := match l with "-"%byte :: l' => (true, l') | "+"%byte :: l' => (false, l') | _ => (false, l) end in
  un ← ParseUint0 digits bits;
  let cutoff := 2 ^ (bits - 1) in
  if neg then if cutoff <? un then Err ErrRange else Ok (- un)
  else if cutoff <=? un then Err ErrRange else Ok un.

(** ** Ranges and round trips *)
Lemma literal_base_range l : let base := (literal_base l).1 in 0 ≤ base.
Proof. unfold literal_base. repeat case_match; cbn; lia. Qed.
Lemma ParseUint0_range l bits z : 0 ≤ bits → ParseUint0 l bits = Ok z → 0 ≤ z < 2 ^ bits.
Proof.
  intros Hb. unfold ParseUint0. destruct l as [|b l]; [done|]. pose proof (literal_base_range (b :: l)) as Hbase.
  destruct (literal_base (b :: l)) as [base digits]. cbn in Hbase.
  destruct (parse_uint_go _ _ _ _) as [n|e] eqn:E; cbn [mbind result_bind]; [|done].
  assert (0 < 2 ^ bits) by lia. apply parse_uint_go_range in E; [|lia|lia]. destruct (_ && _); [done|]. intros [= <-]. lia.
Qed.
Lemma ParseInt0_range l bits z : 0 < bits → ParseInt0 l bits = Ok z → - 2 ^ (bits - 1) ≤ z < 2 ^ (bits - 1).
Proof.
  intros Hb. unfold ParseInt0. destruct (match l with "-"%byte :: _ => _ | _ => _ end) as [neg digits].
  destruct (ParseUint0 digits bits) as [un|e] eqn:E; cbn [mbind result_bind]; [|done].
  apply ParseUint0_range in E; [|lia]. destruct neg.
  - destruct (Z.ltb_spec (2 ^ (bits - 1)) un); [done|]. intros [= <-]. assert (0 < 2 ^ (bits - 1)) by lia. lia.
  - destruct (Z.leb_spec (2 ^ (bits - 1)) un); [done|]. intros [= <-]. lia.
Qed.
Lemma no_underscores l : Forall (λ b, is_underscore b = false) l →
  filter (λ b, is_underscore b = false) l = l ∧ existsb is_underscore l = false.
Proof.
  induction 1 as [|b l Hb Hl [IH1 IH2]]; [done|]. rewrite filter_cons_True by done. cbn [existsb]. by rewrite Hb, IH1, IH2.
Qed.
Lemma hex_fix_plain w z : 0 ≤ z → Forall (λ b, is_underscore b = false) (hex_fix w z).
Proof.
  revert z. induction w as [|w IH]; intros z Hz; cbn [hex_fix]; [constructor|]. apply Forall_app. split; [apply IH, Z.div_pos; lia|].
  apply Forall_singleton. pose proof (Z.mod_pos_bound z 16 ltac:(lia)).
  pose proof (range_check (λ d, negb (is_underscore (hex_char d))) 16 eq_refl (z mod 16) ltac:(lia)) as Hc. by apply negb_true_iff in Hc.
Qed.
Lemma ParseUint0_hex w bits z : (0 < w ≤ 16)%nat → 0 ≤ z < 16 ^ Z.of_nat w → z < 2 ^ bits →
  ParseUint0 (str "0x" ++ fmtX w z) bits = Ok z.
Proof.
  intros Hw Hz Hb. rewrite fmtX_fix by done. change (str "0x" ++ hex_fix w z) with ("0"%byte :: "x"%byte :: hex_fix w z).
  destruct (hex_fix w z) as [|b l] eqn:E; [apply (f_equal length) in E; rewrite length_hex_fix in E; simpl in E; lia|].
  unfold ParseUint0, literal_base. change (bool_decide (lower_byte "x" = "b"%byte)) with false.
  change (bool_decide (lower_byte "x" = "o"%byte)) with false. change (bool_decide (lower_byte "x" = "x"%byte)) with true. cbn [negb].
  rewrite <-E. destruct (no_underscores _ (hex_fix_plain w z ltac:(lia))) as [-> ->].
  by rewrite parse_uint_go_hex_fix by lia.
Qed.
Lemma dec_digits_head fuel z b l : 0 < z < 10 ^ Z.of_nat fuel → dec_digits fuel z = b :: l → b ≠ "0"%byte.
Proof.
  revert z b l. induction fuel as [|fuel IH]; intros z b l Hz; [simpl in *; lia|]. cbn [dec_digits].
  assert (Hc : ∀ d, 0 < d < 10 → dec_char d ≠ "0"%byte).
  { intros d Hd He. pose proof (range_check (λ d, (d =? 0) || negb (bool_decide (dec_char d = "0"%byte))) 10 eq_refl d ltac:(lia)) as H.
    cbv beta in H. rewrite He in H. destruct (Z.eqb_spec d 0); [lia|done]. }
  destruct (Z.ltb_spec z 10); [intros [= <- _]; apply Hc; lia|]. intros E.
  assert (Hz' : 0 < z / 10 < 10 ^ Z.of_nat fuel).
  { split; [apply Z.div_str_pos; lia|]. apply Z.div_lt_upper_bound; [lia|]. rewrite <-Z.pow_succ_r, <-Nat2Z.inj_succ by lia. lia. }
  destruct (dec_digits fuel (z / 10)) as [|b' l'] eqn:E'.
  - destruct fuel; [simpl in Hz'; lia|]. cbn [dec_digits] in E'. destruct (z / 10 <? 10); [done|]. by apply app_eq_nil in E' as [_ ?].
  - injection E as <- _. by eapply IH.
Qed.
Lemma dec_digits_plain fuel z : 0 ≤ z → Forall (λ b, is_underscore b = false) (dec_digits fuel z).
Proof.
  assert (Hc : ∀ d, 0 ≤ d < 10 → is_underscore (dec_char d) = false).
  { intros d Hd. pose proof (range_check (λ d, negb (is_underscore (dec_char d))) 10 eq_refl d Hd) as H. by apply negb_true_iff in H. }
  revert z. induction fuel as [|fuel IH]; intros z Hz; [constructor|]. cbn [dec_digits]. destruct (Z.ltb_spec z 10).
  - apply Forall_singleton, Hc. lia.
  - apply Forall_app. split; [apply IH, Z.div_pos; lia|]. apply Forall_singleton, Hc, Z.mod_pos_bound. lia.
Qed.
Lemma ParseUint0_dec bits z : 0 ≤ z < 2 ^ 63 → z < 2 ^ bits → ParseUint0 (fmtD z) bits = Ok z.
Proof.
  intros Hz Hb. unfold fmtD. destruct (Z.ltb_spec z 0); [lia|]. destruct (Z.eq_dec z 0) as [->|Hne]; [done|].
  pose proof (parse_dec_digits 19 z (2 ^ bits - 1) ltac:(lia) ltac:(lia)) as Hp. pose proof (dec_digits_head 19 z) as Hh.
  assert (Hu : Forall (λ b, is_underscore b = false) (dec_digits 19 z)).
  { apply dec_digits_plain. lia. }
  destruct (dec_digits 19 z) as [|b l] eqn:E; [by apply (f_equal (λ r, match r with Ok v => v | Err _ => 0 end)) in Hp; simpl in Hp; lia|].
  specialize (Hh b l ltac:(lia) eq_refl). unfold ParseUint0.
  assert (Hl : literal_base (b :: l) = (10, b :: l)) by (by destruct b).
  rewrite Hl. destruct (no_underscores _ Hu) as [-> ->]. by rewrite Hp.
Qed.
