(* ===== verification/Regex.v ===== *)
(** * Regex: the pieces of regular expressions

    The programs search text with a few regular expressions of Go's [regexp].  Each
    is written out as a matcher where it is used, from the pieces here: literals,
    classes repeated as often as possible, white space, and the search for all
    matches.  A class repeated before something that does not begin with a byte of
    it can only match in one way. *)
From stdpp Require Import prelude strings list.
From Stdlib Require Import Strings.Byte.
From S2P Require Import Prelude Text.
Local Open Scope Z_scope.

(** ** Classes *)
Definition regex_space (b : byte) : bool := bool_decide (b ∈ [x09; x0a; x0c; x0d; " "%byte]).
Definition is_digit (b : byte) : bool := (48 <=? bz b) && (bz b <=? 57).
Definition ident_byte (b : byte) : bool :=
  is_digit b || ((65 <=? bz b) && (bz b <=? 90)) || ((97 <=? bz b) && (bz b <=? 122)) || bool_decide (b = "_"%byte).

(** ** Pieces *)
(** The longest prefix of bytes of a class, and the rest. *)
Fixpoint span (f : byte → bool) (l : bytes) : bytes * bytes :=
  match l with
  | b :: l' => if f b then let '(p, rest) := span f l' in (b :: p, rest) else ([], l)
  | [] => ([], [])
  end.
Definition lit (p l : bytes) : option bytes := if HasPrefix l p then Some (drop (length p) l) else None.
(** [\s*], and a class repeated at least once. *)
Definition spaces (l : bytes) : bytes := (span regex_space l).2.
Definition some_of (f : byte → bool) (l : bytes) : option (bytes * bytes) :=
  let '(p, rest) := span f l in if bool_decide (p = []) then None else Some (p, rest).

(** ** All matches *)
(** [FindAllStringSubmatch]; every match consumes something, so the length of the
    text is fuel enough. *)
Fixpoint find_all {A} (fuel : nat) (re : bytes → option (A * bytes)) (l : bytes) : list A :=
  match fuel with
  | O => []
  | S fuel =>
      match re l with
      | Some (m, rest) => m :: find_all fuel re rest
      | None => match l with [] => [] | _ :: l => find_all fuel re l end
      end
  end.
Definition FindAll {A} (re : bytes → option (A * bytes)) (l : bytes) : list A := find_all (S (length l)) re l.

(** ** Lemmas *)
Lemma lit_app p l : lit p (p ++ l) = Some l.
Proof. unfold lit, HasPrefix. rewrite take_app_length, bool_decide_eq_true_2 by done. by rewrite drop_app_length. Qed.
Lemma lit_head b c p l : b ≠ c → lit (c :: p) (b :: l) = None.
Proof. intros Hne. unfold lit. by rewrite HasPrefix_head. Qed.
Lemma span_app f p b l : Forall (λ b, f b = true) p → f b = false → span f (p ++ b :: l) = (p, b :: l).
Proof. intros Hp Hb. induction Hp as [|a p Ha Hp IH]; cbn [app span]; [by rewrite Hb|]. by rewrite Ha, IH. Qed.
Lemma some_of_app f p b l : p ≠ [] → Forall (λ b, f b = true) p → f b = false → some_of f (p ++ b :: l) = Some (p, b :: l).
Proof. intros Hne Hp Hb. unfold some_of. rewrite span_app by done. by rewrite bool_decide_eq_false_2. Qed.
Lemma spaces_one b l : regex_space b = false → spaces (" "%byte :: b :: l) = b :: l.
Proof.
  intros Hb. unfold spaces. change (" "%byte :: b :: l) with ([" "%byte] ++ b :: l). rewrite span_app; [done| |done]. by apply Forall_singleton.
Qed.
Lemma spaces_none b l : regex_space b = false → spaces (b :: l) = b :: l.
Proof. intros Hb. unfold spaces. cbn [span]. by rewrite Hb. Qed.
Lemma digit_not_space b : is_digit b = true → regex_space b = false.
Proof.
  unfold is_digit, regex_space. intros [H1%Z.leb_le H2%Z.leb_le]%andb_true_iff. apply bool_decide_eq_false_2.
  rewrite !not_elem_of_cons. split_and!; [..|apply not_elem_of_nil]; intros ->; vm_compute in H1; by apply H1.
Qed.
Definition scans {A} (re : bytes → option (A * bytes)) (l : bytes) (ms : list A) : Prop :=
  ∀ fuel, (length l < fuel)%nat → find_all fuel re l = ms.
Section scan.
Context {A : Type} (re : bytes → option (A * bytes)).
Lemma scans_nil : re [] = None → scans re [] [].
Proof. intros Hr [|fuel] Hf; [simpl in *; lia|]. cbn [find_all]. by rewrite Hr. Qed.
Lemma scans_skip b l ms : re (b :: l) = None → scans re l ms → scans re (b :: l) ms.
Proof. intros Hr Hs [|fuel] Hf; [simpl in *; lia|]. cbn [find_all]. rewrite Hr. apply Hs. simpl in *. lia. Qed.
Lemma scans_match l m rest ms : re l = Some (m, rest) → (length rest < length l)%nat → scans re rest ms → scans re l (m :: ms).
Proof. intros Hr Hl Hs [|fuel] Hf; [lia|]. cbn [find_all]. rewrite Hr. f_equal. apply Hs. lia. Qed.
Lemma scans_skips a l ms : (∀ b l, b ∈ a → re (b :: l) = None) → scans re l ms → scans re (a ++ l) ms.
Proof.
  intros Ha Hs. induction a as [|b a IH]; cbn [app]; [done|]. apply scans_skip; [apply Ha; by left|]. apply IH. intros c l' ?. apply Ha. by right.
Qed.
Lemma scans_FindAll l ms : scans re l ms → FindAll re l = ms.
Proof. intros Hs. apply Hs. lia. Qed.
End scan.
