(* ===== verification/EDS.v ===== *)
(** * EDS: object dictionaries ([objectdict/objectdict.go], [canopen/eds/eds.go])

    The dictionary of a device as the program shows it, and the reader of the
    electronic data sheet of a CANopen device: an INI file with one section per
    object and sub-object.  [strconv.ParseFloat] is an argument. *)
From stdpp Require Import prelude gmap strings list sorting.
From Stdlib Require Import Strings.Byte.
From S2P Require Import Prelude Text Floats Endpoint.
Local Open Scope Z_scope.
#[local] Set Warnings "-clear-no-such-hyp".

(** ** Dictionaries *)
Inductive Protocol : Type := ProtocolMeCom | ProtocolCANopen.
Inductive ValueKind : Type := ValueKindUnknown | ValueKindContinuous | ValueKindBoolean | ValueKindEnum | ValueKindString.
Inductive Access : Type := AccessUnknown | AccessReadOnly | AccessWriteOnly | AccessReadWrite.
Record DictEntry := MkDictEntry {
  oe_ID : bytes; oe_Index : Z; oe_SubIndex : Z; oe_Name : bytes; oe_Unit : bytes; oe_DataType : bytes; oe_Kind : ValueKind;
  oe_Access : Access; oe_Min : option f64; oe_Max : option f64; oe_Enum : gmap Z bytes; oe_Metadata : gmap bytes bytes }.
Record Object := MkDictObject {
  ob_ID : bytes; ob_Index : Z; ob_Name : bytes; ob_Entries : list DictEntry; ob_Metadata : gmap bytes bytes }.
Record DictDevice := MkDictDevice {
  dd_Vendor : bytes; dd_VendorNumber : bytes; dd_Product : bytes; dd_ProductNumber : bytes; dd_Revision : bytes }.
Record Dictionary := MkDictionary {
  di_SchemaVersion : Z; di_Protocol : Protocol; di_DefinitionID : bytes; di_Device : DictDevice; di_Objects : list Object;
  di_Metadata : gmap bytes bytes }.

(** ** The INI file *)
Definition maxEDSLineBytes : Z := 16 * 1024 * 1024.
(** [bufio.ScanLines]. *)
Fixpoint split_lines (l : bytes) : list bytes :=
  match l with
  | [] => []
  | b :: l =>
      if bool_decide (b = x0a) then [] :: split_lines l
      else match split_lines l with
           | [] => [[b]]
           | line :: lines => (b :: line) :: lines
           end
  end.
Definition drop_cr (line : bytes) : bytes := TrimSuffix line [x0d].
Definition BOM : bytes := [xef; xbb; xbf].

Abbreviation section_map := (gmap bytes (gmap bytes bytes)).
Record ini := MkIni { in_sections : section_map; in_order : list bytes; in_current : bytes }.
Definition header_name (line : bytes) : option bytes :=
  if HasPrefix line (str "[") then '(name, _) ← split_at (str "]") (drop 1 line); Some (TrimSpace name) else None.
Definition comment (line : bytes) : bool := bool_decide (line = []) || HasPrefix line (str ";") || HasPrefix line (str "#").
Definition ini_line (lineNo : Z) (s : ini) (text : bytes) : res ini :=
  let line := TrimSpace (TrimPrefix text BOM) in
  if comment line then Ok s
  else
    match header_name line with
    | Some current =>
        match in_sections s !! current with
        | Some _ => Ok (MkIni (in_sections s) (in_order s) current)
        | None => Ok (MkIni (<[current := ∅]> (in_sections s)) (in_order s ++ [current]) current)
        end
    | None =>
        if bool_decide (in_current s = []) then Err (Errorf "eds: key outside section at line %d" [lineNo])
        else
          match split_at (str "=") line with
          | None => Ok s
          | Some (key, val) =>
              let section := default ∅ (in_sections s !! in_current s) in
              Ok (MkIni (<[in_current s := <[TrimSpace key := TrimSpace (drop 1 val)]> section]> (in_sections s)) (in_order s) (in_current s))
          end
    end.
Fixpoint ini_lines (lineNo : Z) (s : ini) (lines : list bytes) : res ini :=
  match lines with
  | [] => Ok s
  | line :: lines =>
      if maxEDSLineBytes <=? Z.of_nat (length line) then Err (Errorf "bufio.Scanner: token too long" [])
      else s ← ini_line lineNo s (drop_cr line); ini_lines (lineNo + 1) s lines
  end.
Definition parseINI (text : bytes) : res (section_map * list bytes) :=
  s ← ini_lines 1 (MkIni ∅ [] []) (split_lines text); Ok (in_sections s, in_order s).

(** ** The objects *)
Section parse.
Context (ParseFloat : bytes → option f64).
Definition dict_field (section : gmap bytes bytes) (key : string) : bytes := default [] (section !! str key).
Definition firstNonEmptyTrimmed (values : list bytes) : bytes :=
  default [] (List.find (λ v, negb (bool_decide (v = []))) (TrimSpace <$> values)).
Definition copySelected (src : gmap bytes bytes) (keys : list string) : gmap bytes bytes :=
  fold_left (λ dst key, if bool_decide (dict_field src key = []) then dst else <[str key := dict_field src key]> dst) keys ∅.
Definition parseFloatPtr (v : bytes) : option f64 := if bool_decide (v = []) then None else ParseFloat (TrimSpace v).
Definition accessFromEDS (v : bytes) : Access :=
  let v := ToLower (TrimSpace v) in
  let one_of (l : list string) := bool_decide (v ∈ str <$> l) in
  if one_of ["ro"; "const"]%string then AccessReadOnly
  else if one_of ["wo"]%string then AccessWriteOnly
  else if one_of ["rw"; "rwr"; "rww"]%string then AccessReadWrite
  else AccessUnknown.
Definition kindFromDataType (dataType : bytes) : ValueKind :=
  let one_of (l : list string) := bool_decide (dataType ∈ str <$> l) in
  if one_of ["0x0001"]%string then ValueKindBoolean
  else if one_of ["0x0009"; "0x000a"; "0x000b"]%string then ValueKindString
  else if one_of ["0x0002"; "0x0003"; "0x0004"; "0x0005"; "0x0006"; "0x0007"; "0x0008"; "0x0010"; "0x0011"; "0x0012"; "0x0015"; "0x001b"]%string
  then ValueKindContinuous
  else ValueKindUnknown.

(** Index, sub-index, and whether it is a sub-object; [None]: not an object. *)
Definition parseObjectSection (name : bytes) : option (Z * Z * bool) :=
  let lower := ToLower (TrimSpace name) in
  let number l bits := match ParseUint l 16 bits with Ok v => Some v | Err _ => None end in
  if (length lower <? 4)%nat then None
  else
    match split_at (str "sub") lower with
    | Some ((_ :: _) as index, from) =>
        index ← number index 16; sub ← number (drop 3 from) 8; Some (index, sub, true)
    | _ => index ← number lower 16; Some (index, 0, false)
    end.
Definition hex4 (index : Z) : bytes := str "0x" ++ fmtX 4 index.
Definition entryFromSection (index subIndex : Z) (section : gmap bytes bytes) : DictEntry :=
  let dataType := ToLower (dict_field section "DataType") in
  let id := hex4 index ++ ":"%byte :: str "0x" ++ fmtX 2 subIndex in
  MkDictEntry (str "canopen:" ++ id) index subIndex
    (firstNonEmptyTrimmed [dict_field section "ParameterName"; dict_field section "ObjectName"; hex4 index ++ ":"%byte :: fmtX 2 subIndex])
    (dict_field section "Unit") dataType (kindFromDataType dataType) (accessFromEDS (dict_field section "AccessType"))
    (parseFloatPtr (dict_field section "LowLimit")) (parseFloatPtr (dict_field section "HighLimit")) ∅
    (copySelected section ["PDOMapping"; "DefaultValue"; "LowLimit"; "HighLimit"; "ObjFlags"]%string).

Definition new_object (index : Z) (section : gmap bytes bytes) : Object :=
  MkDictObject (str "canopen:" ++ hex4 index) index
    (firstNonEmptyTrimmed [dict_field section "ParameterName"; dict_field section "ObjectName"; hex4 index]) [] ∅.
Definition object_step (sections : section_map) (objects : gmap Z Object) (name : bytes) : gmap Z Object :=
  match parseObjectSection name with
  | None => objects
  | Some (index, subIndex, isSub) =>
      let section := default ∅ (sections !! name) in
      let obj := default (new_object index section) (objects !! index) in
      let obj :=
        if negb isSub then
          let entries :=
            if negb (bool_decide (dict_field section "DataType" = [])) || negb (bool_decide (dict_field section "AccessType" = []))
            then ob_Entries obj ++ [entryFromSection index 0 section] else ob_Entries obj in
          MkDictObject (ob_ID obj) (ob_Index obj)
            (firstNonEmptyTrimmed [dict_field section "ParameterName"; dict_field section "ObjectName"; ob_Name obj]) entries
            (copySelected section ["ObjectType"; "ObjFlags"; "CompactSubObj"]%string)
        else if subIndex =? 0 then obj
        else MkDictObject (ob_ID obj) (ob_Index obj) (ob_Name obj) (ob_Entries obj ++ [entryFromSection index subIndex section]) (ob_Metadata obj) in
      <[index := obj]> objects
  end.
(** [sort.Slice] by sub-index; two entries of one sub-index come from sections
    whose names differ only in writing. *)
Definition sort_entries (obj : Object) : Object :=
  MkDictObject (ob_ID obj) (ob_Index obj) (ob_Name obj)
    (sort_stable (λ a b, oe_SubIndex a <? oe_SubIndex b) (ob_Entries obj)) (ob_Metadata obj).
Definition sorted_objects (objects : gmap Z Object) : list Object :=
  sort_entries <$> (snd <$> sort_stable (λ a b, a.1 <? b.1) (map_to_list objects)).
Definition Parse (text : bytes) : res Dictionary :=
  '(sections, order) ← parseINI text;
  let device := default ∅ (sections !! str "DeviceInfo") in
  let metadata := match sections !! str "FileInfo" with
                  | Some info => copySelected info ["FileName"; "FileVersion"; "FileRevision"; "EDSVersion"; "Description"; "ModificationDate"]%string
                  | None => ∅
                  end in
  let objects := fold_left (object_step sections) order ∅ in
  Ok (MkDictionary 1 ProtocolCANopen (dict_field device "ProductName")
        (MkDictDevice (dict_field device "VendorName") (dict_field device "VendorNumber") (dict_field device "ProductName") (dict_field device "ProductNumber")
           (dict_field device "RevisionNumber"))
        (sorted_objects objects) metadata).
End parse.

(** ** A sheet and its text *)
(** A data sheet as its sections with their keys; [render] is one way to write it. *)
Definition sheet := list (bytes * list (bytes * bytes)).
Definition eq_sign : bytes := ["="%byte].
Definition newline : bytes := [x0a].
Definition render_key (kv : bytes * bytes) : bytes := kv.1 ++ eq_sign ++ kv.2 ++ newline.
Definition render_section (s : bytes * list (bytes * bytes)) : bytes :=
  ("["%byte :: s.1 ++ ["]"%byte]) ++ newline ++ (s.2 ≫= render_key).
Definition render (sh : sheet) : bytes := sh ≫= render_section.
(** What the keys of a section say; the last line of a key counts. *)
Definition section_of (kvs : list (bytes * bytes)) : gmap bytes bytes := fold_left (λ m kv, <[kv.1 := kv.2]> m) kvs ∅.

Record key_ok (kv : bytes * bytes) : Prop := {
  ko_key : trimmed kv.1 ∧ ("="%byte ∉ kv.1) ∧ (x0a ∉ kv.1);
  ko_head : ∃ b t, kv.1 = b :: t ∧ (b ∉ ["["; ";"; "#"; xef]%byte);
  ko_value : trimmed kv.2 ∧ x0a ∉ kv.2;
  ko_length : Z.of_nat (length kv.1 + length kv.2) + 1 < maxEDSLineBytes }.
Record section_ok (s : bytes * list (bytes * bytes)) : Prop := {
  so_name : s.1 ≠ [] ∧ trimmed s.1 ∧ ("]"%byte ∉ s.1) ∧ (x0a ∉ s.1);
  so_length : Z.of_nat (length s.1) + 2 < maxEDSLineBytes;
  so_keys : Forall key_ok s.2 }.
Definition sheet_ok (sh : sheet) : Prop := Forall section_ok sh ∧ NoDup sh.*1.

Lemma split_lines_cons line rest : x0a ∉ line → split_lines (line ++ newline ++ rest) = line :: split_lines rest.
Proof.
  induction line as [|b line IH]; intros Hn; cbn [app newline split_lines]; [done|].
  apply not_elem_of_cons in Hn as [Hb Hn]. rewrite bool_decide_eq_false_2 by done. unfold newline in IH. cbn [app] in IH. by rewrite IH.
Qed.
Lemma HasPrefix_one b l : HasPrefix (b :: l) [b] = true.
Proof. unfold HasPrefix. apply bool_decide_eq_true_2. cbn [length take]. by rewrite take_0. Qed.
Lemma split_at_one b l rest : b ∉ l → split_at [b] (l ++ b :: rest) = Some (l, b :: rest).
Proof.
  induction l as [|a l IH]; intros Hb; cbn [app split_at].
  - by rewrite HasPrefix_one.
  - apply not_elem_of_cons in Hb as [Hne Hb]. rewrite HasPrefix_head by done. by rewrite IH.
Qed.
Lemma drop_cr_trimmed line : trimmed line → drop_cr line = line.
Proof.
  intros Ht. unfold drop_cr, TrimSuffix. destruct (HasSuffix line [x0d]) eqn:E; [|done]. exfalso.
  unfold HasSuffix in E. apply bool_decide_eq_true in E. destruct (exists_last (l := line)) as (l & c & ->).
  { intros ->. done. }
  change (length [x0d]) with (length [c]) in E. rewrite lastn_app in E. injection E as ->. by apply trimmed_last in Ht.
Qed.

Lemma header_line lineNo s name : name ≠ [] → trimmed name → "]"%byte ∉ name → in_sections s !! name = None →
  ini_line lineNo s (drop_cr ("["%byte :: name ++ ["]"%byte])) =
  Ok (MkIni (<[name := ∅]> (in_sections s)) (in_order s ++ [name]) name).
Proof.
  intros Hne Ht Hb Hnew. assert (Hl : trimmed ("["%byte :: name ++ ["]"%byte])).
  { change ("["%byte :: name ++ ["]"%byte]) with (("["%byte :: name) ++ ["]"%byte]). apply trimmed_ends; [done|]. by intros b t [= <- _]. }
  assert (Hbom : HasPrefix ("["%byte :: name ++ ["]"%byte]) BOM = false) by (by apply HasPrefix_head).
  rewrite drop_cr_trimmed by done. unfold ini_line, TrimPrefix. rewrite Hbom. unfold trimmed in Hl. cbn zeta. rewrite !Hl.
  unfold comment. change (str ";") with [";"%byte]. change (str "#") with ["#"%byte]. rewrite bool_decide_eq_false_2 by done. rewrite !HasPrefix_head by done. cbn [orb].
  unfold header_name. change (str "[") with ["["%byte]. rewrite HasPrefix_one. cbn [drop]. rewrite drop_0.
  change (str "]") with ["]"%byte]. rewrite split_at_one by done. cbn [mbind option_bind]. rewrite Ht. by rewrite Hnew.
Qed.

Lemma key_line lineNo s kv : key_ok kv → in_current s ≠ [] →
  ini_line lineNo s (drop_cr (kv.1 ++ eq_sign ++ kv.2)) =
  Ok (MkIni (<[in_current s := <[kv.1 := kv.2]> (default ∅ (in_sections s !! in_current s))]> (in_sections s)) (in_order s) (in_current s)).
Proof.
  intros [(Hkt & Heq & _) (b & t & Ek & Hb) [Hvt _] _] Hcur. destruct kv as [k v]. cbn [fst snd] in *. subst k.
  assert (Hbs : is_space b = false).
  { unfold trimmed, TrimSpace in Hkt. cbn [trim_left] in Hkt. destruct (is_space b) eqn:E; [|done]. exfalso.
    apply (f_equal length) in Hkt. unfold trim_right in Hkt. rewrite length_reverse in Hkt. simpl in Hkt.
    pose proof (trim_left_length (reverse (trim_left t))). rewrite length_reverse in *. pose proof (trim_left_length t). lia. }
  assert (Hl : trimmed ((b :: t) ++ eq_sign ++ v)).
  { rewrite app_assoc. apply trimmed_app; [by destruct t| |by intros c; unfold eq_sign; rewrite last_snoc; intros [= <-]|done]. by intros c u [= <- _]. }
  rewrite !not_elem_of_cons in Hb. destruct Hb as (H1 & H2 & H3 & H4 & _).
  rewrite drop_cr_trimmed by done. unfold ini_line, TrimPrefix.
  assert (Hbom : HasPrefix ((b :: t) ++ eq_sign ++ v) BOM = false) by (by apply HasPrefix_head). rewrite Hbom. unfold trimmed in Hl. cbn zeta. rewrite !Hl.
  unfold comment. change (str ";") with [";"%byte]. change (str "#") with ["#"%byte]. rewrite bool_decide_eq_false_2 by done. cbn [app]. rewrite !HasPrefix_head by done. cbn [orb].
  unfold header_name. change (str "[") with ["["%byte]. rewrite HasPrefix_head by done. rewrite bool_decide_eq_false_2 by done.
  change (str "=") with ["="%byte]. change (b :: t ++ eq_sign ++ v) with ((b :: t) ++ "="%byte :: v). rewrite split_at_one by done.
  cbn [drop]. by rewrite drop_0, Hkt, Hvt.
Qed.

Lemma section_of_snoc kvs kv : section_of (kvs ++ [kv]) = <[kv.1 := kv.2]> (section_of kvs).
Proof. unfold section_of. by rewrite fold_left_app. Qed.
Lemma key_lines kvs : Forall key_ok kvs → ∀ lineNo done s rest, in_current s ≠ [] → in_sections s !! in_current s = Some (section_of done) →
  ∃ lineNo', ini_lines lineNo s (split_lines ((kvs ≫= render_key) ++ rest)) =
  ini_lines lineNo' (MkIni (<[in_current s := section_of (done ++ kvs)]> (in_sections s)) (in_order s) (in_current s)) (split_lines rest).
Proof.
  induction 1 as [|kv kvs Hkv Hkvs IH]; intros lineNo done s rest Hcur Hs.
  - exists lineNo. rewrite app_nil_r. cbn [mbind list_bind app]. rewrite insert_id by done. by destruct s.
  - rewrite bind_cons, <-app_assoc. unfold render_key at 1. rewrite <-!app_assoc.
    assert (E : split_lines (kv.1 ++ eq_sign ++ kv.2 ++ newline ++ (kvs ≫= render_key) ++ rest) =
      (kv.1 ++ eq_sign ++ kv.2) :: split_lines ((kvs ≫= render_key) ++ rest)).
    { rewrite !app_assoc, <-(app_assoc _ newline), <-!app_assoc. rewrite app_assoc, app_assoc. rewrite <-(app_assoc kv.1).
      apply split_lines_cons. destruct Hkv as [(_ & _ & ?) _ [_ ?] _]. rewrite !not_elem_of_app. split_and!; [done| |done].
      by intros ?%list_elem_of_singleton. }
    rewrite E. cbn [ini_lines]. destruct (Z.leb_spec maxEDSLineBytes (Z.of_nat (length (kv.1 ++ eq_sign ++ kv.2)))) as [Hlen|_].
    { pose proof (ko_length kv Hkv). rewrite !length_app in Hlen. cbn [eq_sign length] in Hlen. lia. }
    rewrite key_line by done. rewrite Hs. cbn [mbind result_bind from_option id].
    destruct (IH (lineNo + 1) (done ++ [kv]) (MkIni (<[in_current s := section_of (done ++ [kv])]> (in_sections s)) (in_order s) (in_current s)) rest)
      as (lineNo' & E'); [done|cbn; by rewrite lookup_insert_eq|].
    exists lineNo'. rewrite section_of_snoc in E'. rewrite E'. cbn [in_sections in_order in_current]. by rewrite insert_insert_eq, <-app_assoc.
Qed.

Definition sheet_map (sh : sheet) : section_map := list_to_map (prod_map id section_of <$> sh).
Lemma section_lines sh : Forall section_ok sh → NoDup sh.*1 → ∀ lineNo s, Forall (λ name, in_sections s !! name = None) sh.*1 →
  ∃ s' lineNo', ini_lines lineNo s (split_lines (render sh)) = ini_lines lineNo' s' [] ∧
    in_sections s' = sheet_map sh ∪ in_sections s ∧ in_order s' = in_order s ++ sh.*1.
Proof.
  induction 1 as [|[name kvs] sh Hsec Hsecs IH]; intros Hnd lineNo s Hnew.
  { exists s, lineNo. cbn. rewrite app_nil_r. unfold sheet_map. cbn. by rewrite (left_id_L ∅ (∪)). }
  rewrite fmap_cons in Hnd, Hnew. apply NoDup_cons in Hnd as [Hn Hnd]. apply Forall_cons in Hnew as [Hs Hnew]. cbn [fst] in *.
  destruct Hsec as [(Hne & Ht & Hbr & Hnl) Hlen Hkeys]. cbn [fst snd] in *.
  unfold render. rewrite bind_cons. fold (render sh). unfold render_section. cbn [fst snd]. rewrite <-!app_assoc.
  rewrite split_lines_cons.
  2: { rewrite not_elem_of_cons, not_elem_of_app. split_and!; [done|done|]. by intros ?%list_elem_of_singleton. }
  cbn [ini_lines]. destruct (Z.leb_spec maxEDSLineBytes (Z.of_nat (length ("["%byte :: name ++ ["]"%byte])))) as [Hl|_].
  { cbn [length] in Hl. rewrite length_app in Hl. simpl in Hl. lia. }
  rewrite header_line by done. cbn [mbind result_bind].
  destruct (key_lines kvs Hkeys (lineNo + 1) [] (MkIni (<[name := ∅]> (in_sections s)) (in_order s ++ [name]) name) (render sh))
    as (lineNo' & E); [done|cbn; by rewrite lookup_insert_eq|]. rewrite E. cbn [in_sections in_order in_current app].
  rewrite insert_insert_eq.
  destruct (IH Hnd lineNo' (MkIni (<[name := section_of kvs]> (in_sections s)) (in_order s ++ [name]) name)) as (s' & l' & E' & Hs' & Ho').
  { cbn [in_sections]. apply Forall_forall. intros n' Hin. rewrite Forall_forall in Hnew. rewrite lookup_insert_ne; [by apply Hnew|].
    intros ->. done. }
  exists s', l'. split; [exact E'|]. cbn [in_sections in_order] in *. split; [|by rewrite Ho', <-app_assoc].
  rewrite Hs'. unfold sheet_map. cbn. rewrite <-insert_union_l. symmetry. apply insert_union_r.
  apply not_elem_of_list_to_map_1. rewrite <-list_fmap_compose. intros (x & -> & Hx)%list_elem_of_fmap. apply Hn. apply list_elem_of_fmap. by exists x.
Qed.

Lemma parseINI_render sh : sheet_ok sh → parseINI (render sh) = Ok (sheet_map sh, sh.*1).
Proof.
  intros [Hok Hnd]. unfold parseINI.
  destruct (section_lines sh Hok Hnd 1 (MkIni ∅ [] [])) as (s' & l' & -> & Hs & Ho).
  { apply Forall_forall. intros n _. apply lookup_empty. }
  cbn [ini_lines mbind result_bind]. rewrite Hs, Ho. cbn. by rewrite (right_id_L ∅ (∪)).
Qed.

(** ** The objects of a sheet *)
Section objects.
Context (ParseFloat : bytes → option f64).
(** The entry a section stands for. *)
Definition entry_of (sections : section_map) (name : bytes) : option DictEntry :=
  '(index, subIndex, isSub) ← parseObjectSection name;
  let section := default ∅ (sections !! name) in
  if negb isSub then
    if negb (bool_decide (dict_field section "DataType" = [])) || negb (bool_decide (dict_field section "AccessType" = []))
    then Some (entryFromSection ParseFloat index 0 section) else None
  else if subIndex =? 0 then None else Some (entryFromSection ParseFloat index subIndex section).
Definition index_of (name : bytes) : option Z := '(index, _, _) ← parseObjectSection name; Some index.

Lemma parseObjectSection_range name index sub isSub : parseObjectSection name = Some (index, sub, isSub) →
  0 ≤ index < 65536 ∧ 0 ≤ sub < 256.
Proof.
  unfold parseObjectSection. cbn zeta. destruct (_ <? 4)%nat; [done|].
  assert (Hn : ∀ l bits v, 0 < bits → match ParseUint l 16 bits with Ok v => Some v | Err _ => None end = Some v → 0 ≤ v < 2 ^ bits).
  { intros l bits v Hb. destruct (ParseUint l 16 bits) eqn:E; [|done]. intros [= <-]. by apply (ParseUint_range l 16); [lia..|]. }
  assert (Hwhole : ∀ l, (index0 ← match ParseUint l 16 16 with Ok v => Some v | Err _ => None end; Some (index0, 0, false)) =
    Some (index, sub, isSub) → 0 ≤ index < 65536 ∧ 0 ≤ sub < 256).
  { intros l (v & E & [= -> <- _])%bind_Some. apply Hn in E; lia. }
  destruct (split_at (str "sub") _) as [[[|b before] from]|]; [apply Hwhole| |apply Hwhole].
  intros (i & Ei & (v & Ev & [= -> -> _])%bind_Some)%bind_Some. apply Hn in Ei, Ev; lia.
Qed.

Record object_inv (sections : section_map) (order : list bytes) (i : Z) (o : Object) : Prop := {
  oi_index : ob_Index o = i ∧ ob_ID o = str "canopen:" ++ hex4 i ∧ 0 ≤ i < 65536;
  oi_entries : ob_Entries o = filter (λ e, oe_Index e = i) (omap (entry_of sections) order) }.
Lemma entry_of_index sections name e : entry_of sections name = Some e → index_of name = Some (oe_Index e) ∧ 0 ≤ oe_SubIndex e < 256.
Proof.
  unfold entry_of, index_of. destruct (parseObjectSection name) as [[[i sub] isSub]|] eqn:E; [|done]. cbn [mbind option_bind].
  apply parseObjectSection_range in E as [_ Hsub].
  destruct isSub; cbn [negb]; [destruct (sub =? 0); [done|]|destruct (_ || _); [|done]]; intros [= <-]; (split; [done|]); cbn; lia.
Qed.

Lemma objects_spec sections order :
  let objects := fold_left (object_step ParseFloat sections) order ∅ in
  (∀ i, is_Some (objects !! i) ↔ ∃ name, name ∈ order ∧ index_of name = Some i) ∧
  ∀ i o, objects !! i = Some o → object_inv sections order i o.
Proof.
  cbn zeta. induction order as [|name order IH] using rev_ind.
  { split; [|intros i o; cbn [fold_left]; by rewrite lookup_empty]. intros i. cbn. rewrite lookup_empty. split; [by intros [? ?]|]. by intros (n & ?%elem_of_nil & _). }
  rewrite fold_left_app. cbn [fold_left]. set (objects := fold_left _ order ∅) in *. destruct IH as [Hdom Hinv].
  assert (Hex : ∀ i, (∃ n, n ∈ order ++ [name] ∧ index_of n = Some i) ↔ is_Some (objects !! i) ∨ index_of name = Some i).
  { intros i. rewrite Hdom. setoid_rewrite elem_of_app. setoid_rewrite list_elem_of_singleton. naive_solver. }
  setoid_rewrite Hex. clear Hex. unfold object_step.
  destruct (parseObjectSection name) as [[[index sub] isSub]|] eqn:E.
  2: { assert (En : index_of name = None) by (unfold index_of; by rewrite E). assert (Ee : entry_of sections name = None) by (unfold entry_of; by rewrite E).
       split; [intros i; rewrite En; naive_solver|]. intros i o Ho. destruct (Hinv i o Ho) as [H1 H2]. split; [done|].
       rewrite omap_app. cbn. by rewrite Ee, app_nil_r. }
  assert (En : index_of name = Some index) by (unfold index_of; by rewrite E).
  set (section := default ∅ (sections !! name)). set (obj := default (new_object index section) (objects !! index)).
  assert (Hobj : object_inv sections order index obj).
  { unfold obj. destruct (objects !! index) as [o|] eqn:Eo; [by apply Hinv|]. split; [|].
    - split_and!; [done..| |]; by apply parseObjectSection_range in E as [[? ?] _].
    - cbn. symmetry. apply filter_none, Forall_forall. intros e He Hi. apply list_elem_of_omap in He as (n & Hn & He). apply entry_of_index in He as [He _].
      assert (is_Some (objects !! index)) as [? ?] by (apply Hdom; exists n; by rewrite <-Hi). congruence. }
  set (obj' := if negb isSub then _ else _).
  assert (Hobj' : object_inv sections (order ++ [name]) index obj').
  { destruct Hobj as [H1 H2].
    assert (Hent : ob_Entries obj' = ob_Entries obj ++ option_list (entry_of sections name)).
    { unfold obj', entry_of. rewrite E. cbn [mbind option_bind]. fold section. destruct isSub; cbn [negb].
      - destruct (sub =? 0); cbn; by rewrite ?app_nil_r.
      - cbn [ob_Entries]. destruct (_ || _); cbn; by rewrite ?app_nil_r. }
    split.
    - unfold obj'. destruct isSub; cbn [negb]; [by destruct (sub =? 0)|done].
    - rewrite Hent, H2, omap_app, filter_app. f_equal. cbn. destruct (entry_of sections name) as [e|] eqn:Ee; [|done].
      apply entry_of_index in Ee as [Ee _]. cbn. rewrite decide_True; [done|]. congruence. }
  split.
  - intros i. rewrite En, lookup_insert_is_Some'. naive_solver.
  - intros i o. rewrite lookup_insert_Some. intros [[<- <-]|[Hne Ho]]; [done|]. destruct (Hinv i o Ho) as [H1 H2]. split; [done|].
    rewrite H2, omap_app, filter_app. cbn. destruct (entry_of sections name) as [e|] eqn:Ee; [|by rewrite app_nil_r].
    apply entry_of_index in Ee as [Ee _]. cbn. rewrite decide_False; [by rewrite app_nil_r|]. congruence.
Qed.

Lemma sorted_objects_keys (m : gmap Z Object) : (∀ i o, m !! i = Some o → ob_Index o = i) →
  ob_Index <$> sorted_objects m = fst <$> sort_stable (λ a b : Z * Object, a.1 <? b.1) (map_to_list m).
Proof.
  intros Hi. unfold sorted_objects. rewrite <-!list_fmap_compose. apply list_fmap_ext. intros n [i o] Hn. cbn. apply (Hi i).
  apply elem_of_map_to_list. rewrite <-(sort_stable_Permutation (λ a b : Z * Object, a.1 <? b.1)). by apply list_elem_of_lookup_2 in Hn.
Qed.

(** C33: a data sheet is read back as it is written.  For every sheet with distinct
    section names, of texts without blanks at their ends and without the characters
    that structure the file, the text of the sheet parses; its objects are those
    that a section names, each once, in ascending order of their indices, which have
    sixteen bits; and the entries of an object are those of its sections, ordered by
    sub-index. *)
Theorem sheet_parsed (sh : sheet) : sheet_ok sh →
  ∃ d, Parse ParseFloat (render sh) = Ok d ∧ StronglySorted Z.lt (ob_Index <$> di_Objects d) ∧
    (∀ i, i ∈ ob_Index <$> di_Objects d ↔ ∃ name, name ∈ sh.*1 ∧ index_of name = Some i) ∧
    ∀ o, o ∈ di_Objects d →
      0 ≤ ob_Index o < 65536 ∧ ob_ID o = str "canopen:" ++ hex4 (ob_Index o) ∧
      StronglySorted (λ a b, oe_SubIndex a ≤ oe_SubIndex b) (ob_Entries o) ∧
      ob_Entries o ≡ₚ filter (λ e, oe_Index e = ob_Index o) (omap (entry_of (sheet_map sh)) sh.*1).
Proof.
  intros Hok. unfold Parse. rewrite parseINI_render by done. cbn [mbind result_bind]. eexists. split; [done|]. cbn [di_Objects].
  destruct (objects_spec (sheet_map sh) sh.*1) as [Hdom Hinv]. set (objects := fold_left _ _ ∅) in *.
  assert (Hidx : ∀ i o, objects !! i = Some o → ob_Index o = i) by (intros i o Ho; by destruct (oi_index _ _ _ _ (Hinv i o Ho))).
  rewrite (sorted_objects_keys objects Hidx). split_and!.
  - apply sorted_keys; [apply sort_by_key|]. rewrite sort_stable_Permutation. apply NoDup_fst_map_to_list.
  - intros i. rewrite sort_stable_Permutation, <-Hdom, list_elem_of_fmap. split.
    + intros ([i' o] & -> & Ho%elem_of_map_to_list). by eexists.
    + intros [o Ho]. exists (i, o). split; [done|]. by apply elem_of_map_to_list.
  - intros o Ho. unfold sorted_objects in Ho. apply list_elem_of_fmap in Ho as (o' & -> & ([i o''] & -> & Ho)%list_elem_of_fmap). cbn [snd].
    rewrite sort_stable_Permutation in Ho. apply elem_of_map_to_list in Ho. destruct (Hinv i o'' Ho) as [(Hi & Hid & Hr) He].
    cbn [sort_entries ob_Index ob_ID ob_Entries]. rewrite Hi. split_and!; [lia|lia|done|apply sort_by_key|].
    by rewrite sort_stable_Permutation, He.
Qed.
End objects.

(** A sheet with an object, its sub-objects out of order, and a section that is none. *)
Definition bench_sheet : sheet :=
  [(str "DeviceInfo", [(str "VendorName", str "Meerstetter")]);
   (str "2100", [(str "ParameterName", str "Object Temperature"); (str "ObjectType", str "0x8")]);
   (str "2100sub2", [(str "ParameterName", str "Channel 2"); (str "DataType", str "0x0008"); (str "AccessType", str "ro")]);
   (str "2100sub1", [(str "ParameterName", str "Channel 1"); (str "DataType", str "0x0008"); (str "AccessType", str "ro")]);
   (str "1000", [(str "ParameterName", str "Device type"); (str "DataType", str "0x0007"); (str "AccessType", str "")])].
Lemma sheet_parsed_witness :
  ∃ d, Parse (λ _, None) (render bench_sheet) = Ok d ∧ StronglySorted Z.lt (ob_Index <$> di_Objects d) ∧ 8448 ∈ ob_Index <$> di_Objects d.
Proof.
  destruct (sheet_parsed (λ _, None) bench_sheet) as (d & Hd & Hs & Hi & _).
  - split.
    + unfold bench_sheet. repeat (apply List.Forall_cons; [split; [split_and!; [discriminate|reflexivity|by apply (bool_decide_eq_true_1 (_ ∉ _))..]|reflexivity|]|]); [..|apply List.Forall_nil];
        repeat (apply List.Forall_cons; [split; [split_and!; [reflexivity|by apply (bool_decide_eq_true_1 (_ ∉ _))..]
          |by eexists _, _; split; [reflexivity|by apply (bool_decide_eq_true_1 (_ ∉ _))]|split; [reflexivity|by apply (bool_decide_eq_true_1 (_ ∉ _))]|reflexivity]|]); apply List.Forall_nil.
    + apply (bool_decide_eq_true_1 (NoDup _)). reflexivity.
  - exists d. split; [exact Hd|]. split; [exact Hs|]. apply Hi. exists (str "2100sub1"). split; [|reflexivity].
    apply (bool_decide_eq_true_1 (_ ∈ _)). reflexivity.
Defined.
