(* ===== verification/Broker.v ===== *)
(** * Broker: the owner of one downstream connection
    ([mecomserver/server.go], [mecomserver/stats.go])

    Requests of all clients go through one broker per route, one at a time.  It
    dials when it has no connection, writes the request, reads one frame, and
    closes the connection on any error.

    A connection is the bytes and errors its future reads deliver ([unread]); a
    read past the end times out, as the program sets a deadline.  [sentFrames] and
    [received] record the traffic of the connection.  What the environment decides
    in one request is a [broker_call].  The text of an error ([LastError]) is
    the error itself. *)
From stdpp Require Import prelude strings list.
From Stdlib Require Import Strings.Byte.
From S2P Require Import Prelude Text Protocol.
Open Scope Z_scope.

(** ** Defaults, in nanoseconds *)
Definition defaultRequestTimeout : Z := 2000000000.
Definition defaultReconnectDelay : Z := 500000000.

(** ** Statistics *)
Record BrokerStats := MkBrokerStats {
  bs_Address : Z;
  bs_RouteID : bytes;
  bs_Priority : Z;
  bs_Target : bytes;
  bs_Connected : bool;
  bs_LastConnectAt : option Z;
  bs_LastErrorAt : option Z;
  bs_LastError : option error;
  bs_FramesIn : Z;
  bs_FramesOut : Z;
  bs_ErrorCount : Z }.

Definition newBrokerStatsRecorder (addr : Z) (target routeID : bytes) (priority : Z) : BrokerStats :=
  MkBrokerStats addr routeID priority target false None None None 0 0 0.
Definition markConnected (t : Z) (target : bytes) (s : BrokerStats) : BrokerStats :=
  MkBrokerStats (bs_Address s) (bs_RouteID s) (bs_Priority s)
    (if bool_decide (target = []) then bs_Target s else target) true (Some t)
    (bs_LastErrorAt s) (bs_LastError s) (bs_FramesIn s) (bs_FramesOut s) (bs_ErrorCount s).
Definition set_connected (c : bool) (s : BrokerStats) : BrokerStats :=
  MkBrokerStats (bs_Address s) (bs_RouteID s) (bs_Priority s) (bs_Target s) c (bs_LastConnectAt s)
    (bs_LastErrorAt s) (bs_LastError s) (bs_FramesIn s) (bs_FramesOut s) (bs_ErrorCount s).
Definition markError (t : Z) (err : option error) (s : BrokerStats) : BrokerStats :=
  match err with
  | None => s
  | Some e =>
      MkBrokerStats (bs_Address s) (bs_RouteID s) (bs_Priority s) (bs_Target s) (bs_Connected s)
        (bs_LastConnectAt s) (Some t) (Some e) (bs_FramesIn s) (bs_FramesOut s) (u64 (bs_ErrorCount s + 1))
  end.
Definition markDisconnected (t : Z) (err : option error) (s : BrokerStats) : BrokerStats :=
  markError t err (set_connected false s).
Definition markFrameIn (s : BrokerStats) : BrokerStats :=
  MkBrokerStats (bs_Address s) (bs_RouteID s) (bs_Priority s) (bs_Target s) (bs_Connected s)
    (bs_LastConnectAt s) (bs_LastErrorAt s) (bs_LastError s) (u64 (bs_FramesIn s + 1)) (bs_FramesOut s)
    (bs_ErrorCount s).
Definition markFrameOut (s : BrokerStats) : BrokerStats :=
  MkBrokerStats (bs_Address s) (bs_RouteID s) (bs_Priority s) (bs_Target s) (bs_Connected s)
    (bs_LastConnectAt s) (bs_LastErrorAt s) (bs_LastError s) (bs_FramesIn s) (u64 (bs_FramesOut s + 1))
    (bs_ErrorCount s).

(** ** Connections *)
Abbreviation pipe_event := (byte + error)%type.

Record Pipe := MkPipe {
  unread : list pipe_event;
  sentFrames : list bytes;
  received : list bytes }.
Definition fresh (script : list pipe_event) : Pipe := MkPipe script [] [].

(** [bufio.Reader.ReadBytes] up to the frame terminator: what was read, the error
    that ended it, and what is left. *)
Fixpoint ReadBytes (acc : bytes) (es : list pipe_event) : bytes * option error * list pipe_event :=
  match es with
  | [] => (acc, Some (Sentinel NetTimeout), [])
  | inl b :: es' =>
      if bool_decide (b = FrameTerminator) then (acc ++ [b], None, es') else ReadBytes (acc ++ [b]) es'
  | inr e :: es' => (acc, Some e, es')
  end.

Record broker_call := MkBrokerCall {
  bc_now : Z;
  bc_done : option error;
  bc_dial : res (list pipe_event * bytes);
  bc_writeErr : option error;
  bc_ctxAfter : option error }.

(** An error of the request's context takes the place of an error of the connection. *)
Definition broker_exchange (x : broker_call) (frame : bytes) (k : Pipe) : Pipe * res bytes :=
  match bc_writeErr x with
  | Some e => (k, Err (default e (bc_ctxAfter x)))
  | None =>
      let '(raw, oerr, rest) := ReadBytes [] (unread k) in
      match oerr with
      | Some e => (MkPipe rest (sentFrames k ++ [frame]) (received k), Err (default e (bc_ctxAfter x)))
      | None => (MkPipe rest (sentFrames k ++ [frame]) (received k ++ [raw]), Ok raw)
      end
  end.

(** ** The broker *)
Record Broker := MkBroker {
  br_conn : option Pipe;
  br_stats : BrokerStats }.

Definition run_request (x : broker_call) (frame : bytes) (b : Broker) : Broker * res bytes :=
  let b := MkBroker (br_conn b) (markFrameIn (br_stats b)) in
  match bc_done x with
  | Some e => (b, Err e)
  | None =>
      let connected := match br_conn b with
                       | Some k => Ok (k, br_stats b)
                       | None => '(script, description) ← bc_dial x;
                                 Ok (fresh script, markConnected (bc_now x) description (br_stats b))
                       end in
      match connected with
      | Err e => (MkBroker None (markDisconnected (bc_now x) (Some e) (br_stats b)), Err e)
      | Ok (k, stats) =>
          match broker_exchange x frame k with
          | (_, Err e) => (MkBroker None (markDisconnected (bc_now x) (Some e) stats), Err e)
          | (k, Ok resp) => (MkBroker (Some k) (markFrameOut stats), Ok resp)
          end
      end
  end.
(** The broker's loop. *)
Fixpoint runBroker (requests : list (broker_call * bytes)) (b : Broker) : Broker * list (res bytes) :=
  match requests with
  | [] => (b, [])
  | (x, frame) :: requests' =>
      let '(b, r) := run_request x frame b in
      let '(b, rs) := runBroker requests' b in (b, r :: rs)
  end.

(** ** Clients of a broker *)
Definition maxClientFrameBytes : nat := 4096.

(** The next frame of a client, and what is left. *)
Fixpoint read_bounded (maxBytes : nat) (acc : bytes) (es : list pipe_event) : res bytes * list pipe_event :=
  match es with
  | [] => (Err (Sentinel NetTimeout), [])
  | inl b :: es' =>
      let acc := acc ++ [b] in
      if (maxBytes <? length acc)%nat then
        (Err (Errorf "mecomserver: client frame exceeds %d bytes" [Z.of_nat maxBytes]), es')
      else if bool_decide (b = FrameTerminator) then (Ok acc, es') else read_bounded maxBytes acc es'
  | inr e :: es' => (Err e, es')
  end.
Definition readBoundedFramePartial (es : list pipe_event) (maxBytes : nat) : res bytes * list pipe_event :=
  if (maxBytes =? 0)%nat then (Err (Errorf "mecomserver: max frame size must be positive" []), es)
  else read_bounded maxBytes [] es.
(** The frames a client's loop handles: up to the first read that fails.  A frame has
    a byte, so the bytes are fuel enough. *)
Fixpoint client_frames (fuel : nat) (es : list pipe_event) : list bytes :=
  match fuel with
  | O => []
  | S fuel =>
      match readBoundedFramePartial es maxClientFrameBytes with
      | (Ok frame, es') => frame :: client_frames fuel es'
      | (Err _, _) => []
      end
  end.

(** What handing a request to a broker comes to: the broker's result; the request's
    context ended before the broker's queue took it, or after; the server stopped. *)
Inductive outcome :=
  | Responded (r : res bytes)
  | NotQueued (e : error)
  | NoResult (e : error)
  | Stopped (queued : bool) (e : error).
Definition was_queued (o : outcome) : bool :=
  match o with Responded _ | NoResult _ => true | NotQueued _ => false | Stopped q _ => q end.

(** The refusal of the server itself: it echoes the header of the request as it came. *)
Definition deviceServerError (requestFrame : bytes) : bytes :=
  let frame := TrimSpace requestFrame in
  let header := if (7 <=? length frame)%nat && bool_decide (frame !! 0%nat = Some "#"%byte)
                then slice frame 1 7 else str "000000" in
  seal ("!"%byte :: header ++ str "-03").

(** One turn of a client's loop: the frame written back, and whether the loop goes on. *)
Definition client_turn (frame : bytes) (o : outcome) : option bytes * bool :=
  match o with
  | Responded (Ok resp) => (Some resp, true)
  | Responded (Err _) => (Some (deviceServerError frame), true)
  | NoResult _ => (Some (deviceServerError frame), false)
  | NotQueued _ | Stopped _ _ => (None, false)
  end.

(** ** Lemmas *)
Lemma ReadBytes_split acc es raw rest : ReadBytes acc es = (raw, None, rest) →
  ∃ l, raw = acc ++ l ∧ es = (inl <$> l) ++ rest ∧ last l = Some FrameTerminator.
Proof.
  revert acc. induction es as [|[b|e] es IH]; intros acc H; cbn [ReadBytes] in H; [done| |done].
  destruct (bool_decide_reflect (b = FrameTerminator)) as [->|_].
  - injection H as <- <-. by exists [FrameTerminator].
  - apply IH in H as (l & -> & -> & Hl). exists (b :: l). rewrite <-app_assoc. split; [done|]. split; [done|].
    destruct l; [done|exact Hl].
Qed.

Lemma read_bounded_frame maxBytes acc es frame rest : read_bounded maxBytes acc es = (Ok frame, rest) →
  ∃ l, frame = acc ++ l ∧ es = (inl <$> l) ++ rest ∧ last l = Some FrameTerminator ∧ (length frame ≤ maxBytes)%nat.
Proof.
  revert acc. induction es as [|[b|e] es IH]; intros acc H; cbn [read_bounded] in H; [done| |done].
  destruct (Nat.ltb_spec maxBytes (length (acc ++ [b]))); [done|].
  destruct (bool_decide_reflect (b = FrameTerminator)) as [->|_].
  - injection H as <- <-. by exists [FrameTerminator].
  - apply IH in H as (l & -> & -> & Hl & Hn). exists (b :: l). rewrite <-app_assoc in *. split; [done|].
    split; [done|]. split; [|done]. by destruct l.
Qed.

(** A frame that reaches a handler is terminated and bounded. *)
Lemma client_frames_bounded fuel es :
  Forall (λ f, last f = Some FrameTerminator ∧ (length f ≤ maxClientFrameBytes)%nat) (client_frames fuel es).
Proof.
  revert es. induction fuel as [|fuel IH]; intros es; [constructor|]. cbn [client_frames].
  destruct (readBoundedFramePartial es maxClientFrameBytes) as [[frame|e] es'] eqn:E; [|constructor].
  constructor; [|apply IH]. unfold readBoundedFramePartial in E. cbn [Nat.eqb maxClientFrameBytes] in E.
  by apply read_bounded_frame in E as (l & -> & _ & ? & ?).
Qed.

(** ** Lock step *)

(** The requests that were answered, with their answers. *)
Definition answered_pairs (requests : list (broker_call * bytes)) (results : list (res bytes)) : list (bytes * bytes) :=
  omap (λ xr, match xr.2 with Ok resp => Some (xr.1.2, resp) | Err _ => None end) (zip requests results).

(** What is known of a broker after answering [done], its connections opened on one of [scripts]. *)
Record broker_ok (requests : nat) (done : list (bytes * bytes)) (scripts : list (list pipe_event)) (b : Broker) : Prop :=
  MkBrokerOk {
    ok_in : bs_FramesIn (br_stats b) = u64 (Z.of_nat requests);
    ok_out : bs_FramesOut (br_stats b) = u64 (Z.of_nat (length done));
    ok_connected : bs_Connected (br_stats b) = bool_decide (is_Some (br_conn b));
    ok_conn : ∀ k, br_conn b = Some k →
      ∃ pre, done = pre ++ zip (sentFrames k) (received k) ∧ length (sentFrames k) = length (received k) ∧
             ∃ script, script ∈ scripts ∧ script = (inl <$> concat (received k)) ++ unread k }.

Lemma u64_succ n : u64 (u64 (Z.of_nat n) + 1) = u64 (Z.of_nat (S n)).
Proof. unfold u64. rewrite Zplus_mod_idemp_l. f_equal. lia. Qed.

Lemma broker_exchange_ok x frame k k' resp : broker_exchange x frame k = (k', Ok resp) →
  sentFrames k' = sentFrames k ++ [frame] ∧ received k' = received k ++ [resp] ∧
  unread k = (inl <$> resp) ++ unread k'.
Proof.
  unfold broker_exchange. destruct (bc_writeErr x); [done|].
  destruct (ReadBytes [] (unread k)) as [[raw [e|]] rest] eqn:E; [done|]. intros [= <- <-].
  by apply ReadBytes_split in E as (l & -> & -> & _).
Qed.

(** A connection the broker may use: the one it has, or a new one. *)
Lemma run_request_ok x frame b b' r n done scripts : broker_ok n done scripts b →
  (∀ script d, bc_dial x = Ok (script, d) → script ∈ scripts) →
  run_request x frame b = (b', r) →
  broker_ok (S n) (done ++ match r with Ok resp => [(frame, resp)] | Err _ => [] end) scripts b'.
Proof.
  intros [Hin Hout Hc Hk] Hd. unfold run_request. cbv zeta. cbn [br_conn br_stats].
  assert (Hin' : u64 (bs_FramesIn (br_stats b) + 1) = u64 (Z.of_nat (S n))) by (rewrite Hin; apply u64_succ).
  destruct (bc_done x) as [e|].
  { intros [= <- <-]. rewrite app_nil_r. by split. }
  destruct (match br_conn b with Some k => _ | None => _ end) as [[k stats]|e] eqn:E.
  - assert (Hconn : bs_FramesIn stats = u64 (Z.of_nat (S n)) ∧ bs_FramesOut stats = u64 (Z.of_nat (length done)) ∧
        bs_Connected stats = true ∧
        ∃ pre, done = pre ++ zip (sentFrames k) (received k) ∧ length (sentFrames k) = length (received k) ∧
               ∃ script, script ∈ scripts ∧ script = (inl <$> concat (received k)) ++ unread k).
    { destruct (br_conn b) as [k0|] eqn:Ek.
      - injection E as <- <-. rewrite bool_decide_true in Hc by eauto. split_and!; eauto.
      - apply bind_Ok_inv in E as ([script d] & Ed & [= <- <-]). split_and!; try done.
        exists done. rewrite app_nil_r. split; [done|]. split; [done|]. exists script. split; [by eapply Hd|done]. }
    destruct Hconn as (Hi & Ho & Hct & pre & -> & Hl & script & Hs & ->).
    destruct (broker_exchange x frame k) as [k' [resp|e]] eqn:Ex; intros [= <- <-].
    + apply broker_exchange_ok in Ex as (Hsent & Hrec & Hun). split; cbn.
      * done.
      * rewrite Ho, u64_succ. do 2 f_equal. rewrite (length_app _ [_]). cbn [length]. lia.
      * done.
      * intros k1 [= <-]. exists pre. rewrite Hsent, Hrec. split.
        { rewrite <-app_assoc. f_equal. symmetry. rewrite zip_with_app by done. done. }
        split; [rewrite !length_app; simpl; lia|]. eexists. split; [exact Hs|].
        rewrite Hun, concat_app, fmap_app. cbn [concat]. by rewrite app_nil_r, app_assoc.
    + rewrite app_nil_r. by split.
  - intros [= <- <-]. rewrite app_nil_r. by split.
Qed.

Lemma runBroker_ok requests b b' results n done scripts : broker_ok n done scripts b →
  (∀ x frame script d, (x, frame) ∈ requests → bc_dial x = Ok (script, d) → script ∈ scripts) →
  runBroker requests b = (b', results) →
  broker_ok (n + length requests) (done ++ answered_pairs requests results) scripts b'.
Proof.
  revert b n done results. induction requests as [|[x frame] requests IH]; intros b n done results Hb Hd H.
  { injection H as <- <-. by rewrite Nat.add_0_r, app_nil_r. }
  cbn [runBroker] in H. destruct (run_request x frame b) as [b1 r] eqn:E.
  destruct (runBroker requests b1) as [b2 rs] eqn:E2. injection H as <- <-.
  apply run_request_ok with (n := n) (done := done) (scripts := scripts) in E; [|done|].
  2:{ intros script d. eapply Hd. left. }
  apply IH with (n := S n) (done := done ++ match r with Ok resp => [(frame, resp)] | Err _ => [] end) in E2;
    [|done|intros ?????; eapply Hd; right; eassumption].
  replace (n + length ((x, frame) :: requests))%nat with (S n + length requests)%nat by (simpl; lia).
  replace (done ++ answered_pairs ((x, frame) :: requests) (r :: rs))
    with ((done ++ match r with Ok resp => [(frame, resp)] | Err _ => [] end) ++ answered_pairs requests rs); [done|].
  rewrite <-app_assoc. f_equal. unfold answered_pairs. cbn [zip_with omap list_omap fst snd]. by destruct r.
Qed.

(** Requests and responses of a broker stay in step, whatever fails in between.  The
    frames read on the open connection are, in order, the answers of the requests
    written to it, and they are the first frames of that connection's stream: a response
    that arrives after its request has failed is never taken for the answer of a later
    request.  The statistics count requests and answers and tell whether there is a
    connection. *)
Theorem broker_lockstep (addr priority : Z) (target routeID : bytes) (requests : list (broker_call * bytes))
    (b : Broker) (results : list (res bytes)) :
  runBroker requests (MkBroker None (newBrokerStatsRecorder addr target routeID priority)) = (b, results) →
  bs_FramesIn (br_stats b) = u64 (Z.of_nat (length requests)) ∧
  bs_FramesOut (br_stats b) = u64 (Z.of_nat (length (answered_pairs requests results))) ∧
  bs_Connected (br_stats b) = bool_decide (is_Some (br_conn b)) ∧
  ∀ k, br_conn b = Some k →
    ∃ before, answered_pairs requests results = before ++ zip (sentFrames k) (received k) ∧
      length (sentFrames k) = length (received k) ∧
      ∃ x frame script description, (x, frame) ∈ requests ∧ bc_dial x = Ok (script, description) ∧
        script = (inl <$> concat (received k)) ++ unread k.
Proof.
  intros Hrun. set (scripts := xf ← requests; match bc_dial xf.1 with Ok sd => [sd.1] | Err _ => [] end).
  assert (Hok : broker_ok (0 + length requests) ([] ++ answered_pairs requests results) scripts b).
  { apply runBroker_ok with (3 := Hrun); [by split|]. intros x frame script d Hin Hd.
    apply list_elem_of_bind. exists (x, frame). split; [|done]. cbn. rewrite Hd. by apply list_elem_of_singleton. }
  destruct Hok as [Hi Ho Hc Hk]. do 3 (split; [done|]). intros k Hconn.
  destruct (Hk k Hconn) as (pre & Heq & Hl & script & Hs & ->). exists pre. do 2 (split; [done|]).
  apply list_elem_of_bind in Hs as ([x frame] & Hs & Hin). cbn in Hs.
  destruct (bc_dial x) as [[s d]|] eqn:Ed; [|by apply not_elem_of_nil in Hs].
  apply list_elem_of_singleton in Hs. cbn in Hs. by exists x, frame, s, d.
Qed.

(** A device that answers the first request too late. *)
Definition late_script : list pipe_event := inr (Sentinel NetTimeout) :: (inl <$> (str "late" ++ [FrameTerminator])).
Definition good_script : list pipe_event := inl <$> (str "good" ++ [FrameTerminator]).
Definition plain_request (script : list pipe_event) : broker_call := MkBrokerCall 0 None (Ok (script, str "tcp")) None None.
Definition two_requests : list (broker_call * bytes) :=
  [(plain_request late_script, str "first"); (plain_request good_script, str "second")].

Lemma broker_lockstep_witness :
  let '(b, results) := runBroker two_requests (MkBroker None (newBrokerStatsRecorder 1 [] [] 0)) in
  answered_pairs two_requests results = [(str "second", str "good" ++ [FrameTerminator])] ∧
  bs_FramesOut (br_stats b) = u64 (Z.of_nat (length (answered_pairs two_requests results))).
Proof.
  destruct (runBroker two_requests _) as [b results] eqn:E.
  pose proof (broker_lockstep 1 0 [] [] two_requests b results E) as (_ & Ho & _).
  split; [|exact Ho]. vm_compute in E. injection E as _ <-. reflexivity.
Defined.
