(* ===== verification/DeviceBridge.v ===== *)
(** * DeviceBridge: the state and the codec of the device bridge
    ([mecomserver/device_bridge.go])

    The bridge lets ASCII MeCom tools talk to a device that is reached through a
    typed client.  This file has its two parameter stores and their cache file,
    the parsers of requests and responses, the tables derived from the object map,
    and the observers that learn values from passing frames; [BridgePayload.v] has
    the commands.

    The mutexes of the stores make every operation one step on the store.  The
    object map and the clock are an environment.  The cache file is a JSON document: here it is its
    decoded form, and [st_flushed] lists the documents handed to the file system,
    the latest first (writing them is best effort in the program, and a failure
    is ignored). *)
From stdpp Require Import prelude gmap strings list sorting.
From Stdlib Require Import Strings.Byte Floats.SpecFloat.
From S2P Require Import Prelude Text Floats Crc Protocol SdoMap.
Open Scope Z_scope.

(** The catalogue compiled into the program, as loaded, and the time. *)
Class BridgeEnv := {
  defaultCANopenSDOMap : CANopenSDOMap;
  now : Z }.

(** ** Constants *)
Definition deviceBridgeFirmwareIdentification : bytes := str "8065-TEC SW G01     ".
Definition deviceBridgeBoardIdentification : bytes := str "00000000".
Definition deviceBridgeMetadataReadFlag : Z := 1.
Definition deviceBridgeMetadataWriteFlag : Z := 2.
Definition deviceBridgeBigDataMaxElements : Z := 0x100.
Definition TransformSynthesizeFloat32FromInt32 : string := "synthesize_float32_from_int32".
Definition TransformMaskInt32 : string := "mask_int32".
Definition TransformConstantInt32 : string := "constant_int32".
Definition TransformVirtualParameter : string := "virtual_parameter".
Definition TransformCANopenPDOConfigBytes : string := "canopen_pdo_config_bytes".
Definition UnsupportedParameterType : DataType := "unsupported".
Definition CacheSourceLocal : string := "local".
Definition CacheSourceDownstream : string := "downstream".
Definition CacheSourcePlaceholder : string := "placeholder".

(** The parameters the CoSo tool asks for that the object map may not have. *)
Definition deviceBridgeCoSoLooseParameterTypes : gmap Z DataType :=
  list_to_map
    (((λ id, (id, DataTypeLatin1)) <$> [1065; 6024; 6025; 6026; 53000]) ++
     ((λ id, (id, DataTypeInt32)) <$>
        [200; 203; 204; 209; 210; 213; 214; 1081; 2072; 2080; 2100; 3034; 4034; 6001; 6020; 6023;
         6051; 6052; 6100; 6101; 6102; 6103; 6120; 6143; 6330; 51000; 51001; 51002; 51020; 52000;
         52001; 52002; 52013; 52014; 53100; 53101; 53126; 53132; 53160; 53181; 53182])).
Definition deviceBridgeCoSoLooseParameterMaxInstances : gmap Z Z :=
  list_to_map
    (((λ id, (id, 2)) <$> [4034; 6001; 6051; 6052; 6120; 53100; 53101; 53126; 53132; 53160; 53181; 53182]) ++
     ((λ id, (id, 4)) <$>
        [3034; 6023; 6024; 6025; 6026; 6143; 51000; 51001; 51002; 51020; 52000; 52001; 52002; 52013; 52014]) ++
     ((λ id, (id, 10)) <$> [6100; 6101; 6102; 6103])).
#[global] Opaque deviceBridgeCoSoLooseParameterTypes deviceBridgeCoSoLooseParameterMaxInstances.

(** ** Tables derived from the object map *)
Section tables.
Context `{BridgeEnv}.

Definition CANopenBridgeTransform (id : Z) : option BridgeTransform :=
  bridgeTransform defaultCANopenSDOMap !! id.
Definition deviceBridgeTransform (id : Z) (k : string) : option BridgeTransform :=
  t ← CANopenBridgeTransform id; if bool_decide (bt_Kind t = k) then Some t else None.

Definition defaultDeviceBridgeParameterTypes : gmap Z DataType :=
  filter (λ kv, kv.2 ≠ ""%string) (CompatibilityParameterTypes defaultCANopenSDOMap).
Definition normalized (table : gmap Z string) : gmap Z string :=
  filter (λ kv, kv.2 ≠ ""%string) (norm <$> table).
Definition defaultDeviceBridgeUnsupportedParameterBridgeBehavior : gmap Z string :=
  normalized (UnsupportedParameterBridgeBehavior defaultCANopenSDOMap).
Definition defaultDeviceBridgeWritableParameters : gmap Z bool :=
  CompatibilityParameterWritability defaultCANopenSDOMap.
Definition defaultDeviceBridgeCacheBehaviors : gmap Z string :=
  normalized (CompatibilityParameterCacheBehaviors defaultCANopenSDOMap).
Definition defaultDeviceBridgeParameterMaxInstances : gmap Z Z :=
  u8 <$> filter (λ kv, 0 < kv.2 ≤ 0xff) (CompatibilityParameterMaxInstances defaultCANopenSDOMap).

Definition deviceBridgeCoSoLooseParameter (id : Z) : bool :=
  bool_decide (is_Some (deviceBridgeCoSoLooseParameterTypes !! id)).
Definition deviceBridgeLooseFallbackParameter (id : Z) : bool :=
  if negb (deviceBridgeCoSoLooseParameter id) then false
  else bool_decide (defaultDeviceBridgeParameterTypes !! id = None).

Definition deviceBridgeUnsupportedReadNACK (id : Z) : bool :=
  let b := default ""%string (defaultDeviceBridgeUnsupportedParameterBridgeBehavior !! id) in
  bool_decide (b = NACKBulkRead) || bool_decide (b = SerialFallbackRead).
Definition deviceBridgeUnsupportedBulkReadNACK (id : Z) : bool := deviceBridgeUnsupportedReadNACK id.
Definition deviceBridgeUnsupportedScalarNACK (id : Z) : bool := deviceBridgeUnsupportedReadNACK id.
Definition deviceBridgeUnsupportedSerialFallbackRead (id : Z) : bool :=
  bool_decide (defaultDeviceBridgeUnsupportedParameterBridgeBehavior !! id = Some SerialFallbackRead).

Definition deviceBridgeParameterType (id : Z) : DataType :=
  let typ := default ""%string (defaultDeviceBridgeParameterTypes !! id) in
  if negb (bool_decide (typ = ""%string)) then typ
  else
    let typ := default ""%string (deviceBridgeCoSoLooseParameterTypes !! id) in
    if negb (bool_decide (typ = ""%string)) then typ else UnsupportedParameterType.
Definition deviceBridgeParameterTypeSupported (typ : DataType) : bool :=
  bool_decide (typ = DataTypeFloat32) || bool_decide (typ = DataTypeInt32) || bool_decide (typ = DataTypeLatin1).

Definition deviceBridgeParameterMaxInstances (id : Z) : Z :=
  let positive (o : option Z) := match o with Some n => if 0 <? n then Some n else None | None => None end in
  match positive (defaultDeviceBridgeParameterMaxInstances !! id) with
  | Some n => n
  | None => match positive (deviceBridgeCoSoLooseParameterMaxInstances !! id) with
            | Some n => n
            | None => 1
            end
  end.
Definition deviceBridgeParameterWritable (id : Z) : bool :=
  default false (defaultDeviceBridgeWritableParameters !! id).
Definition deviceBridgeMetadataLiveActualParameter (id : Z) : bool :=
  if bool_decide (defaultDeviceBridgeCacheBehaviors !! id = Some MetadataLiveActual) then true
  else bool_decide (is_Some (deviceBridgeTransform id TransformVirtualParameter)).
Definition deviceBridgeCompatibleInt32Value (id value : Z) : Z :=
  match deviceBridgeTransform id TransformMaskInt32 with
  | Some t => i32 (Z.land (u32 value) (bt_Int32Mask t))
  | None => value
  end.

Definition deviceBridgeValidateTransformInstance (t : BridgeTransform) (instance : Z) : res () :=
  let minInstance := if bt_MinInstance t <=? 0 then 1 else bt_MinInstance t in
  let maxInstance := if bt_MaxInstance t <=? 0 then minInstance else bt_MaxInstance t in
  if (instance <? minInstance) || (maxInstance <? instance) then
    Err (Wrapf "%w: virtual parameter %d instance %d outside %d..%d"
           [bt_MeComID t; instance; minInstance; maxInstance] (Sentinel ErrInvalidArgument))
  else Ok ().
Definition deviceBridgeValidateParameterInstance (id instance : Z) : res () :=
  let maxInstance := deviceBridgeParameterMaxInstances id in
  let maxInstance := if maxInstance <=? 0 then 1 else maxInstance in
  if (instance <? 1) || (maxInstance <? instance) then
    Err (Wrapf "%w: parameter %d instance %d outside 1..%d" [id; instance; maxInstance]
           (Sentinel ErrInvalidArgument))
  else Ok ().
End tables.

(** ** Parameter stores *)
Record deviceBridgeVirtualParameterValue := MkValue {
  v_typ : DataType;
  v_float : f64;
  v_int : Z;
  v_latin1 : bytes;
  v_source : string;
  v_liveRefresh : bool;
  v_updatedAt : option Z }.

Abbreviation Store := (gmap (Z * Z) deviceBridgeVirtualParameterValue).

Definition zero_value (typ : DataType) (source : string) : deviceBridgeVirtualParameterValue :=
  MkValue typ (S754_zero false) 0 [] source false None.
Definition with_int (z : Z) (v : deviceBridgeVirtualParameterValue) :=
  MkValue (v_typ v) (v_float v) z (v_latin1 v) (v_source v) (v_liveRefresh v) (v_updatedAt v).
Definition with_float (f : f64) (v : deviceBridgeVirtualParameterValue) :=
  MkValue (v_typ v) f (v_int v) (v_latin1 v) (v_source v) (v_liveRefresh v) (v_updatedAt v).
Definition with_latin1 (l : bytes) (v : deviceBridgeVirtualParameterValue) :=
  MkValue (v_typ v) (v_float v) (v_int v) l (v_source v) (v_liveRefresh v) (v_updatedAt v).
Definition with_source (source : string) (live : bool) (t : option Z)
    (v : deviceBridgeVirtualParameterValue) :=
  MkValue (v_typ v) (v_float v) (v_int v) (v_latin1 v) source live t.

Section store.
Context `{BridgeEnv}.

Definition stored_as_other (what : string) (id instance : Z) : error :=
  Wrapf ("%w: " +:+ what +:+ " parameter %d instance %d stored as %s, read as %s") [id; instance]
    (Sentinel ErrInvalidArgument).
Definition not_transported (what : string) (id : Z) : error :=
  Wrapf ("%w: " +:+ what +:+ " of %s parameter %d") [id] (Sentinel ErrTransportNotSupported).

Definition store_lookupParameter (id instance : Z) (typ : DataType) (s : Store) :
    res (option deviceBridgeVirtualParameterValue) :=
  _ ← deviceBridgeValidateParameterInstance id instance;
  if negb (deviceBridgeParameterTypeSupported typ) then Err (not_transported "soft read" id)
  else match s !! (id, instance) with
       | None => Ok None
       | Some v =>
           if negb (bool_decide (v_typ v = ""%string)) && negb (bool_decide (v_typ v = typ)) then
             Err (stored_as_other "soft" id instance)
           else Ok (Some v)
       end.

Definition store_storeParameterValue (id instance : Z) (v : deviceBridgeVirtualParameterValue)
    (s : Store) : res Store :=
  _ ← deviceBridgeValidateParameterInstance id instance;
  if negb (deviceBridgeParameterTypeSupported (v_typ v)) then Err (not_transported "soft write" id)
  else Ok (<[(id, instance) := v]> s).

(** The 32-bit word of a hexadecimal value. *)
Definition value_word (valueHex : bytes) : res Z :=
  if negb (length valueHex =? 8)%nat then
    Err (Wrapf "%w: value for parameter %d has %d hex chars" [Z.of_nat (length valueHex)]
           (Sentinel ErrInvalidArgument))
  else match ParseUint valueHex 16 32 with
       | Err _ => Err (Wrapf "%w: invalid value %q: %v" [] (Sentinel ErrInvalidArgument))
       | Ok bits => Ok (u32 bits)
       end.
(** [hex.DecodeString] and [bytes.TrimRight(data, 0)]. *)
Definition value_text (valueHex : bytes) : res bytes :=
  match DecodeString valueHex with
  | Err _ => Err (Wrapf "%w: invalid LATIN1 value for parameter %d: %v" [] (Sentinel ErrInvalidArgument))
  | Ok data => Ok (TrimRightNul data)
  end.

Definition hex_value (id : Z) (typ : DataType) (valueHex : bytes)
    (v : deviceBridgeVirtualParameterValue) : res deviceBridgeVirtualParameterValue :=
  if bool_decide (typ = DataTypeFloat32) then
    bits ← value_word valueHex; Ok (with_float (to_f64 (Float32frombits bits)) v)
  else if bool_decide (typ = DataTypeInt32) then
    bits ← value_word valueHex; Ok (with_int (i32 bits) v)
  else if bool_decide (typ = DataTypeLatin1) then
    data ← value_text valueHex; Ok (with_latin1 data v)
  else Err (not_transported "write of soft" id).

Definition store_writeParameter (id instance : Z) (typ : DataType) (valueHex : bytes) (s : Store) :
    res Store :=
  _ ← deviceBridgeValidateParameterInstance id instance;
  v ← hex_value id typ valueHex (zero_value typ "");
  Ok (<[(id, instance) := with_source CacheSourceLocal (v_liveRefresh v) (Some now) v]> s).

Definition store_readParameter (id instance : Z) (typ : DataType) (s : Store) :
    res deviceBridgeVirtualParameterValue :=
  v ← store_lookupParameter id instance typ s; Ok (default (zero_value typ CacheSourcePlaceholder) v).

(** The operations of a store that is addressed by a transform. *)
Definition store_readNumeric (t : BridgeTransform) (instance : Z) (s : Store) : res f64 :=
  _ ← deviceBridgeValidateTransformInstance t instance;
  if negb (bool_decide (bt_Type t = DataTypeFloat32)) && negb (bool_decide (bt_Type t = DataTypeInt32)) then
    Err (not_transported "virtual single read" (bt_MeComID t))
  else match s !! (bt_MeComID t, instance) with
       | None => Ok (S754_zero false)
       | Some v =>
           if negb (bool_decide (v_typ v = ""%string)) && negb (bool_decide (v_typ v = bt_Type t)) then
             Err (stored_as_other "virtual" (bt_MeComID t) instance)
           else if bool_decide (bt_Type t = DataTypeInt32) then Ok (of_int (v_int v))
           else Ok (v_float v)
       end.
Definition store_write (t : BridgeTransform) (instance : Z) (valueHex : bytes) (s : Store) : res Store :=
  _ ← deviceBridgeValidateTransformInstance t instance;
  if negb (bt_Writable t) then
    Err (Wrapf "%w: virtual parameter %d instance %d" [bt_MeComID t; instance] (Sentinel ErrParameterReadOnly))
  else
    let typ := if bool_decide (bt_Type t = ""%string) then DataTypeFloat32 else bt_Type t in
    v ← hex_value (bt_MeComID t) typ valueHex (zero_value typ "");
    Ok (<[(bt_MeComID t, instance) := with_source CacheSourceLocal (v_liveRefresh v) (Some now) v]> s).
Definition store_reset (s : Store) : Store := ∅.
End store.

(** ** The state of a bridge and its cache file *)
Record deviceBridgeCacheParameterSnapshot := MkParameterSnapshot {
  ps_ID : Z;
  ps_Instance : Z;
  ps_Type : string;
  ps_Source : string;
  ps_LiveRefresh : bool;
  ps_UpdatedAt : option Z;
  ps_Int32 : option Z;
  ps_Float32 : option f64;
  ps_Latin1 : bytes }.
Record deviceBridgeCacheSnapshot := MkSnapshot {
  sn_Device : bytes;
  sn_Parameters : list deviceBridgeCacheParameterSnapshot }.

Record deviceBridgeState := MkState {
  st_device : bytes;
  st_cachePath : bytes;
  st_virtualParameters : Store;
  st_softParameters : Store;
  st_flushed : list deviceBridgeCacheSnapshot }.

Definition with_soft (s : Store) (st : deviceBridgeState) : deviceBridgeState :=
  MkState (st_device st) (st_cachePath st) (st_virtualParameters st) s (st_flushed st).

(** *** File name *)
Definition file_rune (r : Z) : bool :=
  ((97 <=? r) && (r <=? 122)) || ((65 <=? r) && (r <=? 90)) || ((48 <=? r) && (r <=? 57))
  || (r =? 46) || (r =? 45) || (r =? 95).
Fixpoint file_chars (lastUnderscore : bool) (rs : list Z) : bytes :=
  match rs with
  | [] => []
  | r :: rs' =>
      if file_rune r then zb r :: file_chars false rs'
      else if lastUnderscore then file_chars true rs' else "_"%byte :: file_chars true rs'
  end.
Fixpoint trim_left_underscores (l : bytes) : bytes :=
  match l with
  | b :: l' => if bool_decide (b = "_"%byte) then trim_left_underscores l' else l
  | [] => []
  end.
Definition trim_underscores (l : bytes) : bytes :=
  reverse (trim_left_underscores (reverse (trim_left_underscores l))).
Definition device_name (device : bytes) : bytes :=
  let device := TrimSpace device in if bool_decide (device = []) then str "unknown" else device.
Definition deviceBridgeCacheFileName (device : bytes) : bytes :=
  let name := trim_underscores (file_chars false (runes (device_name device))) in
  (if bool_decide (name = []) then str "device" else name) ++ str ".json".

(** *** Snapshot *)
Definition key_before (a b : Z * Z * deviceBridgeVirtualParameterValue) : Prop :=
  a.1.1 < b.1.1 ∨ a.1.1 = b.1.1 ∧ a.1.2 ≤ b.1.2.
Global Instance key_before_dec : RelDecision key_before.
Proof. intros a b. unfold key_before. apply _. Defined.

(** One entry of the document; a float that JSON cannot carry is left out. *)
Definition snapshot_entry (e : Z * Z * deviceBridgeVirtualParameterValue) :
    option deviceBridgeCacheParameterSnapshot :=
  let '(id, instance, v) := e in
  let param := MkParameterSnapshot id instance (v_typ v) (v_source v) (v_liveRefresh v) (v_updatedAt v) in
  if bool_decide (v_typ v = DataTypeInt32) then Some (param (Some (v_int v)) None [])
  else if bool_decide (v_typ v = DataTypeFloat32) then
    if is_nan (v_float v) || is_inf (v_float v) then None
    else Some (param None (Some (v_float v)) [])
  else if bool_decide (v_typ v = DataTypeLatin1) then Some (param None None (v_latin1 v))
  else Some (param None None []).
Definition state_snapshot (st : deviceBridgeState) : deviceBridgeCacheSnapshot :=
  MkSnapshot (st_device st)
    (omap snapshot_entry (merge_sort key_before (map_to_list (st_softParameters st)))).

Definition flushCacheBestEffort (st : deviceBridgeState) : deviceBridgeState :=
  if bool_decide (st_cachePath st = []) then st
  else MkState (st_device st) (st_cachePath st) (st_virtualParameters st) (st_softParameters st)
         (state_snapshot st :: st_flushed st).

(** *** Loading *)

(** A string that goes through a JSON document: [json.Marshal] writes every byte
    that is not part of valid UTF-8 as U+FFFD. *)
Definition utf8 (r : Z) : bytes :=
  if r <? 0x80 then [zb r]
  else if r <? 0x800 then [zb (0xC0 + r / 64); zb (0x80 + r mod 64)]
  else if r <? 0x10000 then [zb (0xE0 + r / 4096); zb (0x80 + r / 64 mod 64); zb (0x80 + r mod 64)]
  else [zb (0xF0 + r / 262144); zb (0x80 + r / 4096 mod 64); zb (0x80 + r / 64 mod 64); zb (0x80 + r mod 64)].
Definition json_string (l : bytes) : bytes := r ← runes l; utf8 r.
Definition json_document (d : deviceBridgeCacheSnapshot) : deviceBridgeCacheSnapshot :=
  MkSnapshot (json_string (sn_Device d))
    ((λ p, MkParameterSnapshot (ps_ID p) (ps_Instance p) (ps_Type p) (ps_Source p) (ps_LiveRefresh p)
             (ps_UpdatedAt p) (ps_Int32 p) (ps_Float32 p) (json_string (ps_Latin1 p))) <$> sn_Parameters d).

Section state.
Context `{BridgeEnv}.

Definition cached_value (p : deviceBridgeCacheParameterSnapshot) :
    option deviceBridgeVirtualParameterValue :=
  if bool_decide (ps_Source p = CacheSourcePlaceholder) then None
  else
    let source := if bool_decide (ps_Source p = ""%string) then CacheSourceDownstream else ps_Source p in
    let v := MkValue (ps_Type p) (S754_zero false) 0 [] source (ps_LiveRefresh p) (ps_UpdatedAt p) in
    if bool_decide (ps_Type p = DataTypeInt32) then z ← ps_Int32 p; Some (with_int z v)
    else if bool_decide (ps_Type p = DataTypeFloat32) then
      f ← ps_Float32 p; if is_nan f || is_inf f then None else Some (with_float f v)
    else if bool_decide (ps_Type p = DataTypeLatin1) then Some (with_latin1 (ps_Latin1 p) v)
    else None.
Definition load_parameter (s : Store) (p : deviceBridgeCacheParameterSnapshot) : Store :=
  match cached_value p with
  | None => s
  | Some v => match store_storeParameterValue (ps_ID p) (ps_Instance p) v s with Ok s' => s' | Err _ => s end
  end.
(** [file] is the decoded cache file, when there is one that can be decoded. *)
Definition loadCacheBestEffort (file : option deviceBridgeCacheSnapshot) (st : deviceBridgeState) :
    deviceBridgeState :=
  if bool_decide (st_cachePath st = []) then st
  else match file with
       | None => st
       | Some snap => with_soft (fold_left load_parameter (sn_Parameters snap) (st_softParameters st)) st
       end.

(** [dir] is the cache directory, empty when there is none; [filepath.Join] of a
    directory and a file name. *)
Definition newDeviceBridgeState (dir : bytes) (file : option deviceBridgeCacheSnapshot) (device : bytes) :
    deviceBridgeState :=
  let device := device_name device in
  let path := if bool_decide (dir = []) then []
              else dir ++ "/"%byte :: deviceBridgeCacheFileName device in
  loadCacheBestEffort file (MkState device path ∅ ∅ []).

Definition state_storeParameterValue (id instance : Z) (v : deviceBridgeVirtualParameterValue)
    (st : deviceBridgeState) : deviceBridgeState * res () :=
  let placeholder := bool_decide (v_source v = CacheSourcePlaceholder) in
  let v := if negb placeholder && bool_decide (v_updatedAt v = None)
           then with_source (v_source v) (v_liveRefresh v) (Some now) v else v in
  match store_storeParameterValue id instance v (st_softParameters st) with
  | Err e => (st, Err e)
  | Ok s =>
      let st := with_soft s st in
      (if placeholder then st else flushCacheBestEffort st, Ok ())
  end.

Definition state_writeParameter (id instance : Z) (typ : DataType) (valueHex : bytes)
    (st : deviceBridgeState) : deviceBridgeState * res () :=
  match store_writeParameter id instance typ valueHex (st_softParameters st) with
  | Err e => (st, Err e)
  | Ok s => (flushCacheBestEffort (with_soft s st), Ok ())
  end.
End state.

(** ** Requests and responses *)
Record deviceBridgeRequest := MkRequest {
  rq_raw : bytes;
  rq_address : Z;
  rq_seq : Z;
  rq_payload : bytes }.

Definition verifyDeviceBridgeCRC (frame : bytes) : res () :=
  if (length frame <=? 4)%nat then Err (Errorf "mecomserver: frame too short for CRC %q" [])
  else match ParseUint (lastn 4 frame) 16 16 with
       | Err e => Err (Wrapf "mecomserver: invalid request CRC %q: %w" [] e)
       | Ok got =>
           let want := CRC16 (droplast 4 frame) in
           if negb (u16 got =? want) then
             Err (Errorf "mecomserver: CRC mismatch got %04X want %04X" [got; want])
           else Ok ()
       end.

Definition bare_frame (raw : bytes) : bytes := TrimSuffix (TrimSpace raw) [FrameTerminator].

Definition parseDeviceBridgeRequest (raw : bytes) : res deviceBridgeRequest :=
  let frame := bare_frame raw in
  if (2 <=? length frame)%nat && bool_decide (frame !! 0%nat = Some "?"%byte) then
    Ok (MkRequest raw 0 0 (ToUpper frame))
  else if (length frame <? 11)%nat || negb (bool_decide (frame !! 0%nat = Some "#"%byte)) then
    Err (Errorf "mecomserver: invalid request frame %q" [])
  else
    _ ← verifyDeviceBridgeCRC frame;
    match ParseUint (slice frame 1 3) 16 8 with
    | Err e => Err (Wrapf "mecomserver: invalid request address %q: %w" [] e)
    | Ok addr =>
        match ParseUint (slice frame 3 7) 16 16 with
        | Err e => Err (Wrapf "mecomserver: invalid request sequence %q: %w" [] e)
        | Ok sq => Ok (MkRequest raw (u8 addr) (u16 sq) (ToUpper (slice frame 7 (length frame - 4))))
        end
    end.

Definition parseDeviceBridgeParameter (payload : bytes) : res (Z * Z) :=
  if negb (length payload =? 6)%nat then
    Err (Wrapf "%w: parameter payload %q must be 6 hex chars" [] (Sentinel ErrInvalidArgument))
  else match ParseUint (take 4 payload) 16 16 with
       | Err _ => Err (Wrapf "%w: invalid parameter id %q: %v" [] (Sentinel ErrInvalidArgument))
       | Ok id =>
           match ParseUint (drop 4 payload) 16 8 with
           | Err _ => Err (Wrapf "%w: invalid parameter instance %q: %v" [] (Sentinel ErrInvalidArgument))
           | Ok instance => Ok (id, instance)
           end
       end.

Definition parseDeviceBridgeHexUint (value : bytes) (bitSize : Z) : res Z :=
  match ParseUint value 16 bitSize with
  | Err _ => Err (Wrapf "%w: invalid %s %q: %v" [] (Sentinel ErrInvalidArgument))
  | Ok v => Ok v
  end.

Definition parseDeviceBridgeResponsePayload (req : deviceBridgeRequest) (raw : bytes) : option bytes :=
  let frame := bare_frame raw in
  if (length frame <? 11)%nat || negb (bool_decide (frame !! 0%nat = Some "!"%byte)) then None
  else
    match verifyDeviceBridgeCRC frame with
    | Err _ => None
    | Ok _ =>
        match ParseUint (slice frame 1 3) 16 8, ParseUint (slice frame 3 7) 16 16 with
        | Ok addr, Ok sq =>
            if negb (rq_address req =? 0) && negb (u8 addr =? rq_address req) then None
            else if negb (u16 sq =? rq_seq req) then None
            else
              let payload_from (payloadStart : nat) :=
                let payloadEnd := (length frame - 4)%nat in
                if (payloadEnd <? payloadStart)%nat then None
                else Some (ToUpper (slice frame payloadStart payloadEnd)) in
              match frame !! 7%nat with
              | Some "-"%byte => None
              | Some "+"%byte => payload_from 8%nat
              | _ => payload_from 7%nat
              end
        | _, _ => None
        end
    end.

Definition deviceBridgeOK (addr sq : Z) (payload : bytes) : bytes :=
  seal ("!"%byte :: fmtX 2 addr ++ fmtX 4 sq ++ "+"%byte :: ToUpper payload).
Definition deviceBridgeData (addr sq : Z) (payload : bytes) : bytes :=
  seal ("!"%byte :: fmtX 2 addr ++ fmtX 4 sq ++ payload).
Definition deviceBridgeInfo (addr sq : Z) (payload : bytes) : bytes := deviceBridgeData addr sq payload.
Definition deviceBridgeNACK (addr sq code : Z) : bytes :=
  seal ("!"%byte :: fmtX 2 addr ++ fmtX 4 sq ++ "-"%byte :: fmtX 2 code).

Definition nackCodeForError (e : error) : Z :=
  if errors_is e ErrUnknownParameter then 0x05
  else if errors_is e ErrParameterReadOnly then 0x06
  else if errors_is e ErrInvalidArgument then 0x04
  else if errors_is e ErrTransportNotSupported then 0x01
  else 0x03.

(** ** Learning values from frames *)
Section observe.
Context `{BridgeEnv}.

(** An error of a store is ignored: the state is what is left. *)
Definition deviceBridgeObserveHexValue (id instance : Z) (typ : DataType) (valueHex : bytes)
    (source : string) (liveRefresh : bool) (st : deviceBridgeState) : deviceBridgeState :=
  let typ := if bool_decide (typ = ""%string) then DataTypeFloat32 else typ in
  if negb (deviceBridgeParameterTypeSupported typ) then st
  else
    let v := with_source source liveRefresh (Some now) (zero_value typ "") in
    let stored v := (state_storeParameterValue id instance v st).1 in
    if bool_decide (typ = DataTypeInt32) then
      match value_word valueHex with
      | Err _ => st
      | Ok bits => stored (with_int (deviceBridgeCompatibleInt32Value id (i32 bits)) v)
      end
    else if bool_decide (typ = DataTypeFloat32) then
      match value_word valueHex with
      | Err _ => st
      | Ok bits =>
          let f := to_f64 (Float32frombits bits) in
          if is_nan f then st else stored (with_float f v)
      end
    else if bool_decide (typ = DataTypeLatin1) then
      match value_text valueHex with
      | Err _ => st
      | Ok data => stored (with_latin1 data v)
      end
    else st.

Definition deviceBridgeObserveBigDataReadValue (id instance : Z) (responsePayload : bytes)
    (st : deviceBridgeState) : deviceBridgeState :=
  if negb (bool_decide (deviceBridgeParameterType id = DataTypeLatin1)) || (length responsePayload <? 6)%nat
  then st
  else match parseDeviceBridgeHexUint (take 4 responsePayload) 16 with
       | Err _ => st
       | Ok count =>
           let valueHex := drop 6 responsePayload in
           let n := Z.to_nat (count * 2) in
           if (count =? 0) || (length valueHex <? n)%nat then st
           else deviceBridgeObserveHexValue id instance DataTypeLatin1 (take n valueHex)
                  CacheSourceDownstream true st
       end.

(** The slot [i] of a bulk read. *)
Definition observe_slot (requestPayload responsePayload : bytes) (st : deviceBridgeState) (i : nat) :
    deviceBridgeState :=
  match parseDeviceBridgeParameter (slice requestPayload (5 + i * 6) (11 + i * 6)) with
  | Err _ => st
  | Ok (id, instance) =>
      deviceBridgeObserveHexValue id instance (deviceBridgeParameterType id)
        (slice responsePayload (i * 8) (i * 8 + 8)) CacheSourceDownstream true st
  end.

Definition deviceBridgeObservePayload (requestPayload responsePayload : bytes) (st : deviceBridgeState) :
    deviceBridgeState :=
  let q := ToUpper (TrimSpace requestPayload) in
  let r := ToUpper (TrimSpace responsePayload) in
  if HasPrefix q (str "?VM") then
    if negb (length q =? 9)%nat || (length r <? 38)%nat then st
    else match parseDeviceBridgeParameter (drop 3 q) with
         | Err _ => st
         | Ok (id, instance) =>
             if negb (deviceBridgeMetadataLiveActualParameter id) then st
             else deviceBridgeObserveHexValue id instance (deviceBridgeParameterType id) (lastn 8 r)
                    CacheSourceDownstream true st
         end
  else if HasPrefix q (str "?VR") then
    if negb (length q =? 9)%nat || (length r <? 8)%nat then st
    else match parseDeviceBridgeParameter (drop 3 q) with
         | Err _ => st
         | Ok (id, instance) =>
             deviceBridgeObserveHexValue id instance (deviceBridgeParameterType id) (take 8 r)
               CacheSourceDownstream true st
         end
  else if HasPrefix q (str "?VX") then
    if (length q <? 5)%nat then st
    else match ParseUint (slice q 3 5) 16 8 with
         | Err _ => st
         | Ok count =>
             let count := Z.to_nat count in
             if negb (length q =? 5 + count * 6)%nat || (length r <? count * 8)%nat then st
             else fold_left (observe_slot q r) (seq 0 count) st
         end
  else if HasPrefix q (str "?VB") then
    if negb (length q =? 21)%nat then st
    else match parseDeviceBridgeParameter (slice q 3 9) with
         | Err _ => st
         | Ok (id, instance) => deviceBridgeObserveBigDataReadValue id instance r st
         end
  else if HasPrefix q (str "VS") then
    if (length q <? 16)%nat then st
    else match parseDeviceBridgeParameter (slice q 2 8) with
         | Err _ => st
         | Ok (id, instance) =>
             deviceBridgeObserveHexValue id instance (deviceBridgeParameterType id) (drop 8 q)
               CacheSourceLocal false st
         end
  else if HasPrefix q (str "VB") then
    if (length q <? 22)%nat then st
    else match parseDeviceBridgeParameter (slice q 2 8) with
         | Err _ => st
         | Ok (id, instance) =>
             if negb (bool_decide (deviceBridgeParameterType id = DataTypeLatin1)) then st
             else match parseDeviceBridgeHexUint (slice q 16 20) 16 with
                  | Err _ => st
                  | Ok count =>
                      let valueHex := drop 22 q in
                      if negb (length valueHex =? Z.to_nat (count * 2))%nat then st
                      else deviceBridgeObserveHexValue id instance DataTypeLatin1 valueHex
                             CacheSourceLocal false st
                  end
         end
  else st.

Definition deviceBridgeObserveFrame (requestFrame responseFrame : bytes) (st : deviceBridgeState) :
    deviceBridgeState :=
  match parseDeviceBridgeRequest requestFrame with
  | Err _ => st
  | Ok req =>
      match parseDeviceBridgeResponsePayload req responseFrame with
      | None => st
      | Some p => deviceBridgeObservePayload (rq_payload req) p st
      end
  end.

(** A value that was read from the device. *)
Definition deviceBridgeStoreLiveNumericValue (id instance : Z) (typ : DataType) (value : f64)
    (st : deviceBridgeState) : deviceBridgeState :=
  if is_nan value then st
  else
    let v := with_source CacheSourceDownstream true (Some now) (zero_value typ "") in
    let stored v := (state_storeParameterValue id instance v st).1 in
    if bool_decide (typ = DataTypeInt32) then
      stored (with_int (deviceBridgeCompatibleInt32Value id (i32 (to_int value))) v)
    else if bool_decide (typ = DataTypeFloat32) then stored (with_float value v)
    else if bool_decide (typ = ""%string) then
      stored (with_float value (with_source CacheSourceDownstream true (Some now) (zero_value DataTypeFloat32 "")))
    else st.
End observe.
