(* ===== verification/BridgePayload.v ===== *)
(** * BridgePayload: the commands of the device bridge
    ([mecomserver/device_bridge.go])

    One handler per ASCII command, over the state of [DeviceBridge.v] and a
    typed client.  A handler is a computation of the monad [bridge]: it changes the
    bridge's state and the client and returns a value or an error.  What the
    program keeps on an error (values already cached, requests already sent) is
    kept here too. *)
From stdpp Require Import prelude gmap strings list.
From Stdlib Require Import Strings.Byte Floats.SpecFloat.
From S2P Require Import Prelude Text Floats Broker Protocol Client RingReader Readout SdoMap CanFrame CanClients DeviceBridge.
Open Scope Z_scope.

(** ** Clients

    [DeviceClient] with the optional interfaces the bridge asks a client for by
    type assertion ([mecom/writeclient.go], [mecom/factory.go]). *)
Record WriteClient (C : Type) := MkWriteClient {
  wc_WriteFloat32 : Z → Z → f32 → C → C * res ();
  wc_WriteInt32 : Z → Z → Z → C → C * res () }.
Record StringWriteClient (C : Type) := MkStringWriteClient {
  sw_WriteString : Z → Z → bytes → C → C * res ();
  sw_WriteBigDataString : Z → Z → bytes → C → C * res () }.
Record ControlClient (C : Type) := MkControlClient {
  cc_Reset : C → C * res ();
  cc_SaveToFlash : C → C * res () }.
Arguments wc_WriteFloat32 {C}. Arguments wc_WriteInt32 {C}.
Arguments sw_WriteString {C}. Arguments sw_WriteBigDataString {C}.
Arguments cc_Reset {C}. Arguments cc_SaveToFlash {C}.

Class DeviceClient (C : Type) := {
  dc_read :: ReadClient C;
  dc_ReadFloat32 : Z → Z → C → C * res f64;
  dc_ReadInt32 : Z → Z → C → C * res Z;
  dc_WriteClient : option (WriteClient C);
  dc_StringWriteClient : option (StringWriteClient C);
  dc_ControlClient : option (ControlClient C);
  dc_ReadSDORaw : option (Z → Z → C → C * res bytes) }.

(** The clients of the program: ASCII, CANopen, and the one behind which there
    is no device. *)
#[global] Instance Client_DeviceClient : DeviceClient Client := {|
  dc_ReadFloat32 := λ id i, ReadFloat32 id i quiet;
  dc_ReadInt32 := λ id i, ReadInt32 id i quiet;
  dc_WriteClient := Some (MkWriteClient _ (λ id i v, WriteFloat32 id i v quiet) (λ id i v, WriteInt32 id i v quiet));
  dc_StringWriteClient :=
    Some (MkStringWriteClient _ (λ id i v, WriteString id i v quiet) (λ id i v, WriteBigDataString id i v quiet));
  dc_ControlClient := Some (MkControlClient _ (Reset_ quiet) (SaveToFlash quiet));
  dc_ReadSDORaw := None |}.

Section canopen.
Context `{BridgeEnv}.
#[export] Instance CANopenClient_RingClient : RingClient CANopenClient := {|
  env_SupportsRingReadout := CANopenClient_SupportsRingReadout;
  env_ConfigureRingCapture := λ _ _ c, (c, ring_unsupported);
  env_TriggerRingSync := λ c, (c, ring_unsupported);
  env_ReadRingPointer := λ c, (c, ring_unsupported);
  env_ReadRingChunk := λ _ _ c, (c, ring_unsupported) |}.
#[export] Instance CANopenClient_ReadClient : ReadClient CANopenClient := {|
  rd_ReadBulk := λ ps c,
    let '(c, (vs, e)) := CANopenClient_ReadBulk defaultCANopenSDOMap (λ _, plain_call) ps c in
    (c, match e with None => Ok vs | Some e => Err e end) |}.
#[export] Instance CANopenClient_DeviceClient : DeviceClient CANopenClient := {|
  dc_ReadFloat32 := CANopenClient_ReadFloat32 defaultCANopenSDOMap plain_call;
  dc_ReadInt32 := CANopenClient_ReadInt32 defaultCANopenSDOMap plain_call;
  dc_WriteClient := Some (MkWriteClient _ (CANopenClient_WriteFloat32 defaultCANopenSDOMap plain_call)
                                          (CANopenClient_WriteInt32 defaultCANopenSDOMap plain_call));
  dc_StringWriteClient := None;
  dc_ControlClient := None;
  dc_ReadSDORaw := Some (ReadSDORaw plain_call) |}.
End canopen.

Inductive deviceBridgeVirtualOnlyClient := VirtualOnly.
#[export] Instance VirtualOnly_RingClient : RingClient deviceBridgeVirtualOnlyClient := {|
  env_SupportsRingReadout := λ _, false;
  env_ConfigureRingCapture := λ _ _ c, (c, Err (Sentinel ErrTransportNotSupported));
  env_TriggerRingSync := λ c, (c, Err (Sentinel ErrTransportNotSupported));
  env_ReadRingPointer := λ c, (c, Err (Sentinel ErrTransportNotSupported));
  env_ReadRingChunk := λ _ _ c, (c, Err (Sentinel ErrTransportNotSupported)) |}.
#[export] Instance VirtualOnly_ReadClient : ReadClient deviceBridgeVirtualOnlyClient := {|
  rd_ReadBulk := λ _ c, (c, Err (Sentinel ErrTransportNotSupported)) |}.
#[export] Instance VirtualOnly_DeviceClient : DeviceClient deviceBridgeVirtualOnlyClient := {|
  dc_ReadFloat32 := λ _ _ c, (c, Err (Sentinel ErrTransportNotSupported));
  dc_ReadInt32 := λ _ _ c, (c, Err (Sentinel ErrTransportNotSupported));
  dc_WriteClient := None;
  dc_StringWriteClient := None;
  dc_ControlClient := None;
  dc_ReadSDORaw := None |}.

(** ** The monad of the handlers *)
Definition bridge (C A : Type) : Type := deviceBridgeState * C → deviceBridgeState * C * res A.
#[export] Instance bridge_ret {C} : MRet (bridge C) := λ _ a w, (w, Ok a).
#[export] Instance bridge_bind {C} : MBind (bridge C) := λ _ _ f m w,
  match m w with
  | (w', Ok a) => f a w'
  | (w', Err e) => (w', Err e)
  end.

Section monad.
Context {C A : Type}.
Definition raise (e : error) : bridge C A := λ w, (w, Err e).
Definition lift (r : res A) : bridge C A := λ w, (w, r).
Definition attempt (m : bridge C A) : bridge C (res A) := λ w, let '(w, r) := m w in (w, Ok r).
Definition on_client (f : C → C * res A) : bridge C A :=
  λ w, let '(c, r) := f w.2 in (w.1, c, r).
Definition on_state (f : deviceBridgeState → deviceBridgeState * res A) : bridge C A :=
  λ w, let '(st, r) := f w.1 in (st, w.2, r).
Definition read_state (f : deviceBridgeState → res A) : bridge C A := λ w, (w, f w.1).
End monad.
Definition update {C} (f : deviceBridgeState → deviceBridgeState) : bridge C () :=
  λ w, (f w.1, w.2, Ok ()).

Fixpoint traverse {C A B} (f : A → bridge C B) (l : list A) : bridge C (list B) :=
  match l with
  | [] => mret []
  | a :: l' => b ← f a; bs ← traverse f l'; mret (b :: bs)
  end.

(** ** Formats *)
Definition fmt_int (z : Z) : bytes := fmtX 8 (u32 z).
Definition fmt_float (f : f64) : bytes := fmtX 8 (u32 (Float32bits (to_f32 f))).

Definition deviceBridgeMeParType (typ : DataType) : res Z :=
  if bool_decide (typ = DataTypeFloat32) || bool_decide (typ = ""%string) then Ok 0
  else if bool_decide (typ = DataTypeInt32) then Ok 1
  else if bool_decide (typ = DataTypeLatin1) then Ok 3
  else if bool_decide (typ = DataTypeByte) then Ok 4
  else Err (Wrapf "%w: unsupported metadata type %s" [] (Sentinel ErrTransportNotSupported)).
Definition deviceBridgeParameterBounds (typ : DataType) : res (bytes * bytes * bytes) :=
  if bool_decide (typ = DataTypeFloat32) || bool_decide (typ = ""%string) then
    Ok (str "FF800000", str "7F800000", str "00000000")
  else if bool_decide (typ = DataTypeInt32) then Ok (str "80000000", str "7FFFFFFF", str "00000000")
  else if bool_decide (typ = DataTypeLatin1) then Ok (str "00", str "00", str "00")
  else if bool_decide (typ = DataTypeByte) then Ok (str "00", str "FF", str "00")
  else Err (Wrapf "%w: unsupported bounds type %s" [] (Sentinel ErrTransportNotSupported)).

Definition invalid_length (what : string) (payload : bytes) : error :=
  Wrapf ("%w: invalid " +:+ what +:+ " payload length %d") [Z.of_nat (length payload)]
    (Sentinel ErrInvalidArgument).
Definition payloadCommand (payload : bytes) : bytes :=
  if (length payload <? 2)%nat then payload
  else if bool_decide (payload !! 0%nat = Some "?"%byte) && (3 <=? length payload)%nat then take 3 payload
  else take 2 payload.

Definition deviceBridgeBigDataResponse (data : bytes) (start maxElements : Z) : bytes :=
  let n := Z.of_nat (length data) in
  if (maxElements =? 0) || (n <=? start) then str "000000"
  else
    let e := u64 (start + maxElements) in
    let e := if (e <? start) || (n <? e) then n else e in
    let segment := slice data (Z.to_nat start) (Z.to_nat e) in
    fmtX 4 (Z.of_nat (length segment)) ++ fmtX 2 (if (0 <? length segment)%nat then 1 else 0) ++
    ToUpper (EncodeToString segment).

Definition deviceBridgeFallbackMetadata (instance : Z) : bytes :=
  let maxInstances := if (0 <? instance) && (instance <=? 0xff) then instance else 1 in
  fmtX 2 0 ++ fmtX 2 deviceBridgeMetadataReadFlag ++ fmtX 2 maxInstances ++ fmtX 8 1 ++
  str "FF800000" ++ str "7F800000" ++ str "00000000".

(** ** Handlers *)
Section handlers.
Context `{BridgeEnv} {C : Type} `{DeviceClient C}.

Definition deviceBridgeParameterMaxElements (id : Z) (typ : DataType) : Z :=
  if bool_decide (typ = DataTypeLatin1) then deviceBridgeBigDataMaxElements
  else if bool_decide (typ = DataTypeByte) then
    match deviceBridgeTransform id TransformCANopenPDOConfigBytes with
    | Some t => if 0 <? bt_MaxElements t then u32 (bt_MaxElements t) else 1
    | None => 1
    end
  else 1.

(** *** Reading one parameter *)
Definition store_live (id instance : Z) (v : deviceBridgeVirtualParameterValue) : bridge C () :=
  on_state (state_storeParameterValue id instance v).
Definition soft_lookup (id instance : Z) (typ : DataType) :
    bridge C (option deviceBridgeVirtualParameterValue) :=
  read_state (λ st, store_lookupParameter id instance typ (st_softParameters st)).
Definition downstream_value (v : deviceBridgeVirtualParameterValue) : deviceBridgeVirtualParameterValue :=
  with_source CacheSourceDownstream true (Some now) v.

(** The device first, then the cache, then a placeholder. *)
Definition deviceBridgeSoftParameterValue (id instance : Z) (typ : DataType) :
    bridge C deviceBridgeVirtualParameterValue :=
  _ ← lift (deviceBridgeValidateParameterInstance id instance);
  let cached (v : deviceBridgeVirtualParameterValue) : bridge C deviceBridgeVirtualParameterValue :=
    o ← soft_lookup id instance (v_typ v); mret (default v o) in
  let value := zero_value typ CacheSourcePlaceholder in
  if bool_decide (typ = DataTypeInt32) then
    r ← attempt (on_client (dc_ReadInt32 id instance));
    match r with
    | Ok z =>
        let v := downstream_value (with_int (deviceBridgeCompatibleInt32Value id z) value) in
        _ ← store_live id instance v; mret v
    | Err _ => cached value
    end
  else if bool_decide (typ = DataTypeFloat32) || bool_decide (typ = ""%string) then
    let value := zero_value DataTypeFloat32 CacheSourcePlaceholder in
    r ← attempt (on_client (dc_ReadFloat32 id instance));
    match r with
    | Ok f =>
        let v := downstream_value (with_float f value) in
        if is_nan f then mret v else _ ← store_live id instance v; mret v
    | Err _ => cached value
    end
  else if bool_decide (typ = DataTypeLatin1) then cached value
  else raise (not_transported "soft read" id).

Definition deviceBridgeVirtualParameterDefault (t : BridgeTransform) (typ : DataType) :
    deviceBridgeVirtualParameterValue :=
  let value := zero_value typ CacheSourcePlaceholder in
  if bool_decide (typ = DataTypeInt32) then value
  else if bool_decide (typ = DataTypeFloat32) || bool_decide (typ = ""%string) then
    let value := zero_value DataTypeFloat32 CacheSourcePlaceholder in
    if bt_MeComID t =? 52200 then with_float S754_nan value
    else if bt_MeComID t =? 52201 then with_float (of_int 25) value
    else value
  else value.

Definition deviceBridgeVirtualParameterValueWithState (t : BridgeTransform) (instance : Z) :
    bridge C deviceBridgeVirtualParameterValue :=
  _ ← lift (deviceBridgeValidateTransformInstance t instance);
  let typ := if bool_decide (bt_Type t = ""%string) then DataTypeFloat32 else bt_Type t in
  if negb (bool_decide (typ = DataTypeInt32)) && negb (bool_decide (typ = DataTypeFloat32)) then
    raise (not_transported "virtual read" (bt_MeComID t))
  else
    value ← deviceBridgeSoftParameterValue (bt_MeComID t) instance typ;
    if negb (bool_decide (v_source value = CacheSourcePlaceholder)) then mret value
    else
      o ← read_state (λ st, store_lookupParameter (bt_MeComID t) instance typ (st_virtualParameters st));
      mret (default (deviceBridgeVirtualParameterDefault t typ) o).

Definition deviceBridgeSynthesizedFloat32 (t : BridgeTransform) (instance : Z) : bridge C f64 :=
  version ← on_client (dc_ReadInt32 (bt_SourceMeComID t) instance);
  mret (SFmul 53 1024 (of_int version) (bt_Scale t)).

(** The read without the check of the payload's length. *)
Definition single_read (id instance : Z) : bridge C bytes :=
  let typ := deviceBridgeParameterType id in
  let live typ value := update (deviceBridgeStoreLiveNumericValue id instance typ value) in
  match deviceBridgeTransform id TransformVirtualParameter with
  | Some t =>
      v ← deviceBridgeVirtualParameterValueWithState t instance;
      if bool_decide (bt_Type t = DataTypeInt32) then mret (fmt_int (v_int v))
      else if bool_decide (bt_Type t = DataTypeFloat32) || bool_decide (bt_Type t = ""%string) then
        mret (fmt_float (v_float v))
      else raise (not_transported "single read" id)
  | None =>
      if deviceBridgeLooseFallbackParameter id then
        v ← deviceBridgeSoftParameterValue id instance typ;
        if bool_decide (typ = DataTypeInt32) then mret (fmt_int (v_int v))
        else if bool_decide (typ = DataTypeFloat32) || bool_decide (typ = ""%string) then
          mret (fmt_float (v_float v))
        else if bool_decide (typ = DataTypeLatin1) then mret (str "00000000")
        else raise (not_transported "single read" id)
      else if bool_decide (typ = DataTypeInt32) then
        match deviceBridgeTransform id TransformConstantInt32 with
        | Some t => mret (fmt_int (bt_Int32Value t))
        | None =>
            z ← on_client (dc_ReadInt32 id instance);
            let z := deviceBridgeCompatibleInt32Value id z in
            _ ← live typ (of_int z); mret (fmt_int z)
        end
      else if bool_decide (typ = DataTypeFloat32) || bool_decide (typ = ""%string) then
        match deviceBridgeTransform id TransformSynthesizeFloat32FromInt32 with
        | Some t =>
            f ← deviceBridgeSynthesizedFloat32 t instance;
            _ ← live DataTypeFloat32 f; mret (fmt_float f)
        | None =>
            f ← on_client (dc_ReadFloat32 id instance);
            _ ← live typ f; mret (fmt_float f)
        end
      else raise (not_transported "single read" id)
  end.
Definition deviceBridgeSingleReadWithState (payload : bytes) : bridge C bytes :=
  if negb (length payload =? 9)%nat then raise (invalid_length "?VR" payload)
  else
    '(id, instance) ← lift (parseDeviceBridgeParameter (drop 3 payload));
    single_read id instance.

(** *** Metadata and limits *)
Definition deviceBridgeLiveMetadataActual (id instance : Z) (typ : DataType) : bridge C (option bytes) :=
  if bool_decide (typ = DataTypeInt32) || bool_decide (typ = DataTypeFloat32) || bool_decide (typ = ""%string)
  then
    r ← attempt (deviceBridgeSingleReadWithState (str "?VR" ++ fmtX 4 id ++ fmtX 2 instance));
    mret (match r with
          | Ok actual => if (length actual =? 8)%nat then Some actual else None
          | Err _ => None
          end)
  else mret None.

Definition deviceBridgeCachedMetadataActual (id instance : Z) (typ : DataType) (st : deviceBridgeState) :
    option bytes :=
  let typ := if bool_decide (typ = ""%string) then DataTypeFloat32 else typ in
  match store_lookupParameter id instance typ (st_softParameters st) with
  | Ok (Some v) =>
      if bool_decide (v_source v = CacheSourcePlaceholder) then None
      else if bool_decide (typ = DataTypeInt32) then Some (fmt_int (v_int v))
      else if bool_decide (typ = DataTypeFloat32) then Some (fmt_float (v_float v))
      else None
  | _ => None
  end.

Definition metadata_flags (id : Z) : Z :=
  match CANopenBridgeTransform id with
  | Some t =>
      match bt_MetadataFlags t with
      | Some flags => u8 flags
      | None => if deviceBridgeParameterWritable id
                then Z.lor deviceBridgeMetadataReadFlag deviceBridgeMetadataWriteFlag
                else deviceBridgeMetadataReadFlag
      end
  | None => if deviceBridgeParameterWritable id
            then Z.lor deviceBridgeMetadataReadFlag deviceBridgeMetadataWriteFlag
            else deviceBridgeMetadataReadFlag
  end.

Definition deviceBridgeMetadataWithActual (payload : bytes) : bridge C bytes :=
  if negb (length payload =? 9)%nat then raise (invalid_length "?VM" payload)
  else
    '(id, instance) ← lift (parseDeviceBridgeParameter (drop 3 payload));
    let typ := deviceBridgeParameterType id in
    match deviceBridgeMeParType typ with
    | Err _ =>
        if deviceBridgeUnsupportedScalarNACK id then
          raise (Wrapf "%w: unsupported parameter %d metadata is not scalar-readable" [id]
                   (Sentinel ErrUnknownParameter))
        else mret (deviceBridgeFallbackMetadata instance)
    | Ok meParType =>
        '(minimum, maximum, actual) ← lift (deviceBridgeParameterBounds typ);
        actual ← (if deviceBridgeMetadataLiveActualParameter id then
                    l ← deviceBridgeLiveMetadataActual id instance typ;
                    match l with
                    | Some a => mret a
                    | None => read_state (λ st, Ok (default actual
                                (deviceBridgeCachedMetadataActual id instance typ st)))
                    end
                  else mret actual);
        mret (fmtX 2 meParType ++ fmtX 2 (metadata_flags id) ++
              fmtX 2 (u8 (deviceBridgeParameterMaxInstances id)) ++
              fmtX 8 (deviceBridgeParameterMaxElements id typ) ++ minimum ++ maximum ++ actual)
    end.
Definition deviceBridgeMetadataWithState (payload : bytes) : bridge C bytes :=
  deviceBridgeMetadataWithActual payload.

Definition deviceBridgeLimits (payload : bytes) : bridge C bytes :=
  if negb (length payload =? 9)%nat then raise (invalid_length "?VL" payload)
  else
    '(id, _) ← lift (parseDeviceBridgeParameter (drop 3 payload));
    let typ := deviceBridgeParameterType id in
    meParType ← lift (deviceBridgeMeParType typ);
    '(minimum, maximum, _) ← lift (deviceBridgeParameterBounds typ);
    mret (fmtX 2 meParType ++ minimum ++ maximum).

Definition deviceBridgeBootloaderStatus (payload : bytes) : bridge C bytes :=
  if negb (length payload =? 11)%nat then raise (invalid_length "?BC" payload)
  else
    command ← lift (parseDeviceBridgeHexUint (drop 3 payload) 32);
    if negb (command =? 0) then
      raise (Wrapf "%w: bootloader command 0x%08X" [command] (Sentinel ErrTransportNotSupported))
    else mret (str "00000000").

(** *** Big data *)

(** The bytes read so far, how many reads succeeded, the error of the last one. *)
Definition deviceBridgeAppendSDOBytes (reader : Z → Z → C → C * res bytes)
    (acc : bytes * nat * option error) (index subIndex : Z) (width : nat) :
    bridge C (bytes * nat * option error) :=
  let '(out, successes, _) := acc in
  r ← attempt (on_client (reader index subIndex));
  mret (match r with
        | Err e => (out ++ replicate width x00, successes, Some e)
        | Ok data => (out ++ take width (data ++ replicate (width - length data) x00), S successes, None)
        end).

(** The fields of one PDO that a parameter reports: sub-index and width. *)
Definition pdo_fields (id : Z) : option (list (Z * nat)) :=
  match id with
  | 2150 => Some [(1, 4%nat); (2, 1%nat)]
  | 2151 | 2153 => Some [(0, 1%nat); (1, 4%nat); (2, 4%nat)]
  | 2152 => Some [(1, 4%nat); (2, 1%nat); (3, 2%nat); (5, 2%nat)]
  | _ => None
  end.
Fixpoint append_fields (reader : Z → Z → C → C * res bytes) (acc : bytes * nat * option error)
    (fields : list (Z * Z * nat)) : bridge C (bytes * nat * option error) :=
  match fields with
  | [] => mret acc
  | (index, sub, width) :: fields' =>
      acc ← deviceBridgeAppendSDOBytes reader acc index sub width;
      append_fields reader acc fields'
  end.

Definition deviceBridgeCANopenPDOConfigBytes (t : BridgeTransform) : bridge C bytes :=
  match dc_ReadSDORaw with
  | None => raise (Wrapf "%w: raw CANopen SDO reads unavailable for parameter %d" [bt_MeComID t]
                     (Sentinel ErrTransportNotSupported))
  | Some reader =>
      if (bt_CANopenIndexBase t =? 0) || (bt_MaxElements t <=? 0) then
        raise (Wrapf "%w: incomplete PDO config transform for parameter %d" [bt_MeComID t]
                 (Sentinel ErrInvalidArgument))
      else
        match pdo_fields (bt_MeComID t) with
        | None => raise (Wrapf "%w: unsupported PDO config transform for parameter %d" [bt_MeComID t]
                           (Sentinel ErrInvalidArgument))
        | Some fields =>
            '(out, successes, lastErr) ← append_fields reader ([], 0%nat, None)
              (k ← List.seq 0 16; '(sub, width) ← fields;
               [(u16 (bt_CANopenIndexBase t + Z.of_nat k), sub, width)]);
            match successes, lastErr with
            | O, Some e => raise e
            | _, _ =>
                let n := Z.to_nat (bt_MaxElements t) in
                mret (take n (out ++ replicate (n - length out) x00))
            end
        end
  end.

Definition deviceBridgeBigDataReadWithState (payload : bytes) : bridge C bytes :=
  if negb (length payload =? 21)%nat then raise (invalid_length "?VB" payload)
  else
    '(id, instance) ← lift (parseDeviceBridgeParameter (slice payload 3 9));
    start ← lift (parseDeviceBridgeHexUint (slice payload 9 17) 32);
    maxElements ← lift (parseDeviceBridgeHexUint (slice payload 17 21) 16);
    let typ := deviceBridgeParameterType id in
    if bool_decide (typ = DataTypeByte) then
      match deviceBridgeTransform id TransformCANopenPDOConfigBytes with
      | None => mret (str "000000")
      | Some t =>
          data ← deviceBridgeCANopenPDOConfigBytes t;
          mret (deviceBridgeBigDataResponse data start maxElements)
      end
    else if bool_decide (typ = DataTypeLatin1) then
      o ← soft_lookup id instance DataTypeLatin1;
      mret (match o with
            | Some v => if bool_decide (v_latin1 v = []) then str "000000"
                        else deviceBridgeBigDataResponse (v_latin1 v) start maxElements
            | None => str "000000"
            end)
    else mret (str "000000").

Definition soft_write (id instance : Z) (typ : DataType) (valueHex : bytes) : bridge C () :=
  on_state (λ st, match store_writeParameter id instance typ valueHex (st_softParameters st) with
                  | Ok s => (with_soft s st, Ok ())
                  | Err e => (st, Err e)
                  end).
Definition read_only (id instance : Z) : error :=
  Wrapf "%w: parameter %d instance %d" [id; instance] (Sentinel ErrParameterReadOnly).

Definition deviceBridgeBigDataWriteWithState (payload : bytes) : bridge C () :=
  if (length payload <? 22)%nat then raise (invalid_length "VB" payload)
  else
    '(id, instance) ← lift (parseDeviceBridgeParameter (slice payload 2 8));
    if negb (deviceBridgeParameterWritable id) then raise (read_only id instance)
    else
      start ← lift (parseDeviceBridgeHexUint (slice payload 8 16) 32);
      count ← lift (parseDeviceBridgeHexUint (slice payload 16 20) 16);
      isLast ← lift (parseDeviceBridgeHexUint (slice payload 20 22) 8);
      let valueHex := drop 22 payload in
      if negb (Z.of_nat (length valueHex) =? count * 2) then
        raise (Wrapf "%w: VB element count %d does not match payload hex length %d"
                 [count; Z.of_nat (length valueHex)] (Sentinel ErrInvalidArgument))
      else if negb (bool_decide (deviceBridgeParameterType id = DataTypeLatin1)) then
        raise (Wrapf "%w: big-data write of non-LATIN1 parameter %d" [id] (Sentinel ErrTransportNotSupported))
      else if negb (start =? 0) || negb (isLast =? 1) then
        raise (Wrapf "%w: multi-package big-data writes are not supported" [] (Sentinel ErrTransportNotSupported))
      else if deviceBridgeLooseFallbackParameter id then soft_write id instance DataTypeLatin1 valueHex
      else
        match dc_StringWriteClient with
        | None => raise (Sentinel ErrTransportNotSupported)
        | Some w =>
            data ← lift (value_text valueHex);
            on_client (sw_WriteBigDataString w id instance data)
        end.

(** *** Writing one parameter *)
Definition deviceBridgeWriteVirtualParameter (t : BridgeTransform) (instance : Z) (valueHex : bytes) :
    bridge C () :=
  _ ← lift (deviceBridgeValidateTransformInstance t instance);
  if negb (bt_Writable t) then
    raise (Wrapf "%w: virtual parameter %d instance %d" [bt_MeComID t; instance]
             (Sentinel ErrParameterReadOnly))
  else
    let typ := if bool_decide (bt_Type t = ""%string) then DataTypeFloat32 else bt_Type t in
    on_state (state_writeParameter (bt_MeComID t) instance typ valueHex).

Definition deviceBridgeWriteWithState (payload : bytes) : bridge C () :=
  if (length payload <? 8)%nat then raise (invalid_length "VS" payload)
  else
    '(id, instance) ← lift (parseDeviceBridgeParameter (slice payload 2 8));
    let valueHex := drop 8 payload in
    if negb (deviceBridgeParameterWritable id) then raise (read_only id instance)
    else
      match deviceBridgeTransform id TransformVirtualParameter with
      | Some t => deviceBridgeWriteVirtualParameter t instance valueHex
      | None =>
          let typ := deviceBridgeParameterType id in
          if deviceBridgeLooseFallbackParameter id then soft_write id instance typ valueHex
          else
            match dc_WriteClient with
            | None => raise (Sentinel ErrTransportNotSupported)
            | Some w =>
                if bool_decide (typ = DataTypeInt32) then
                  bits ← lift (value_word valueHex);
                  on_client (wc_WriteInt32 w id instance (i32 bits))
                else if bool_decide (typ = DataTypeFloat32) || bool_decide (typ = ""%string) then
                  bits ← lift (value_word valueHex);
                  on_client (wc_WriteFloat32 w id instance (Float32frombits bits))
                else if bool_decide (typ = DataTypeLatin1) then
                  match dc_StringWriteClient with
                  | None => raise (Sentinel ErrTransportNotSupported)
                  | Some sw =>
                      data ← lift (value_text valueHex);
                      on_client (sw_WriteString sw id instance data)
                  end
                else raise (not_transported "write" id)
            end
      end.

(** *** Bulk reads *)
Definition deviceBridgeBulkReadSingleFallback (p : Param) : bridge C (option f64) :=
  if bool_decide (Type_ p = DataTypeInt32) then
    r ← attempt (on_client (dc_ReadInt32 (ID p) (Inst p)));
    mret (match r with Ok z => Some (of_int z) | Err _ => None end)
  else if bool_decide (Type_ p = DataTypeFloat32) || bool_decide (Type_ p = ""%string) then
    r ← attempt (on_client (dc_ReadFloat32 (ID p) (Inst p)));
    mret (match r with Ok f => Some f | Err _ => None end)
  else mret None.

Definition deviceBridgeCachedBulkReadValue (p : Param) (st : deviceBridgeState) : option f64 :=
  match store_lookupParameter (ID p) (Inst p) (Type_ p) (st_softParameters st) with
  | Ok (Some v) =>
      if bool_decide (v_source v = CacheSourcePlaceholder) then None
      else if bool_decide (Type_ p = DataTypeInt32) then Some (of_int (v_int v))
      else if bool_decide (Type_ p = DataTypeFloat32) || bool_decide (Type_ p = ""%string) then
        Some (v_float v)
      else None
  | _ => None
  end.

Definition scalar (typ : DataType) (v : deviceBridgeVirtualParameterValue) : f64 :=
  if bool_decide (typ = DataTypeInt32) then of_int (v_int v) else v_float v.
Definition bulk_param (id instance : Z) (typ : DataType) : Param := MkParam id instance "" "" typ false "" "".

(** One requested parameter, and whether its slot is left at zero. *)
Definition bulk_request (payload : bytes) (i : nat) : res (Param * bool) :=
  '(id, instance) ← parseDeviceBridgeParameter (slice payload (5 + i * 6) (11 + i * 6));
  let typ := deviceBridgeParameterType id in
  if deviceBridgeLooseFallbackParameter id && bool_decide (typ = DataTypeLatin1) then
    Ok (bulk_param id instance DataTypeFloat32, true)
  else if negb (deviceBridgeParameterTypeSupported typ) then
    if bool_decide (typ = DataTypeByte) then
      Err (Wrapf "%w: byte big-data parameter %d is not scalar bulk-readable" [id]
             (Sentinel ErrTransportNotSupported))
    else if deviceBridgeUnsupportedBulkReadNACK id then
      Err (Wrapf "%w: unsupported parameter %d is not scalar bulk-readable" [id]
             (Sentinel ErrTransportNotSupported))
    else Ok (bulk_param id instance DataTypeFloat32, true)
  else Ok (bulk_param id instance typ, false).

(** A slot after the first loop: its value and whether it is live, or left to
    the device's own bulk read. *)
Inductive bulk_slot := Filled (value : f64) (live : bool) | Downstream.

Definition bulk_local (req : Param * bool) : bridge C bulk_slot :=
  let '(p, unsupportedSlot) := req in
  let zero := S754_zero false in
  if unsupportedSlot then mret (Filled zero false)
  else
    match deviceBridgeTransform (ID p) TransformVirtualParameter with
    | Some t =>
        r ← attempt (deviceBridgeVirtualParameterValueWithState t (Inst p));
        mret (match r with
              | Err _ => Filled zero false
              | Ok v => Filled (scalar (bt_Type t) v) false
              end)
    | None =>
        if deviceBridgeLooseFallbackParameter (ID p) then
          r ← attempt (deviceBridgeSoftParameterValue (ID p) (Inst p) (Type_ p));
          mret (match r with
                | Err _ => Filled zero false
                | Ok v => Filled (scalar (Type_ p) v) false
                end)
        else
          match deviceBridgeTransform (ID p) TransformConstantInt32 with
          | Some t => mret (Filled (of_int (bt_Int32Value t)) false)
          | None =>
              match deviceBridgeTransform (ID p) TransformSynthesizeFloat32FromInt32 with
              | Some t =>
                  r ← attempt (deviceBridgeSynthesizedFloat32 t (Inst p));
                  mret (match r with Err _ => Filled zero false | Ok f => Filled f true end)
              | None =>
                  if deviceBridgeMetadataLiveActualParameter (ID p) then
                    o ← deviceBridgeBulkReadSingleFallback p;
                    match o with
                    | Some f => mret (Filled f true)
                    | None => read_state (λ st, Ok (Filled (default zero (deviceBridgeCachedBulkReadValue p st)) false))
                    end
                  else mret Downstream
              end
          end
    end.

Definition downstream_params (params : list Param) (slots : list bulk_slot) : list Param :=
  pslot ← zip params slots; match pslot.2 with Downstream => [pslot.1] | Filled _ _ => [] end.

(** The device's values: one bulk read, or one read per parameter when it fails. *)
Definition bulk_downstream (params : list Param) : bridge C (list (f64 * bool)) :=
  match params with
  | [] => mret []
  | _ =>
      r ← attempt (on_client (rd_ReadBulk params));
      let fallback :=
        traverse (λ p, o ← deviceBridgeBulkReadSingleFallback p;
                       mret (match o with Some f => (f, true) | None => (S754_zero false, false) end)) params in
      match r with
      | Ok values => if (length values =? length params)%nat then mret ((λ f, (f, true)) <$> values) else fallback
      | Err _ => fallback
      end
  end.
Fixpoint fill_slots (slots : list bulk_slot) (values : list (f64 * bool)) : list (f64 * bool) :=
  match slots with
  | [] => []
  | Filled f live :: slots' => (f, live) :: fill_slots slots' values
  | Downstream :: slots' =>
      match values with
      | v :: values' => v :: fill_slots slots' values'
      | [] => (S754_zero false, false) :: fill_slots slots' []
      end
  end.

Definition bulk_encode (pv : Param * (f64 * bool)) : bridge C bytes :=
  let '(p, (f, live)) := pv in
  _ ← update (λ st, if live then deviceBridgeStoreLiveNumericValue (ID p) (Inst p) (Type_ p) f st else st);
  if bool_decide (Type_ p = DataTypeInt32) then
    let f := if is_nan f then S754_zero false else f in
    mret (fmt_int (deviceBridgeCompatibleInt32Value (ID p) (i32 (to_int f))))
  else if bool_decide (Type_ p = DataTypeFloat32) then mret (fmt_float f)
  else raise (not_transported "bulk read" (ID p)).

Definition deviceBridgeBulkReadWithState (payload : bytes) : bridge C bytes :=
  if (length payload <? 5)%nat then raise (invalid_length "?VX" payload)
  else
    match ParseUint (slice payload 3 5) 16 8 with
    | Err _ => raise (Wrapf "%w: invalid ?VX count %q: %v" [] (Sentinel ErrInvalidArgument))
    | Ok count =>
        let pairs := (length payload - 5)%nat in
        if negb (pairs mod 6 =? 0)%nat then
          raise (Wrapf "%w: ?VX count %d does not match payload length %d"
                   [count; Z.of_nat (length payload)] (Sentinel ErrInvalidArgument))
        else
          reqs ← lift (mapM (bulk_request payload) (List.seq 0 (pairs / 6)));
          let params := reqs.*1 in
          slots ← traverse bulk_local reqs;
          values ← bulk_downstream (downstream_params params slots);
          texts ← traverse bulk_encode (zip params (fill_slots slots values));
          mret (concat texts)
    end.

(** *** Ring reads *)
Definition ring_capture_param (payload : bytes) (i : nat) : res RingCaptureParameter :=
  let off := (13 + i * 10)%nat in
  '(id, instance) ← parseDeviceBridgeParameter (slice payload off (off + 6));
  inhibit ← parseDeviceBridgeHexUint (slice payload (off + 6) (off + 10)) 16;
  Ok (MkRingCaptureParameter (bulk_param id instance (deviceBridgeParameterType id)) (u16 inhibit)).

(** A client without a ring is answered for: [dflt] stands for its result. *)
Definition ring_call {A} (f : C → C * res A) (dflt : bytes) (format : A → bytes) : bridge C bytes :=
  r ← attempt (on_client f);
  match r with
  | Ok a => mret (format a)
  | Err e => if errors_is e ErrTransportNotSupported then mret dflt else raise e
  end.

Definition deviceBridgeRingPayload (payload : bytes) : bridge C bytes :=
  if (length payload <? 7)%nat then raise (invalid_length "?RS" payload)
  else
    let command := slice payload 3 7 in
    if bool_decide (command = str "0000") then
      if negb (length payload =? 7)%nat then raise (invalid_length "ring pointer" payload)
      else ring_call env_ReadRingPointer (str "00000000") (λ pointer, fmtX 8 (u32 pointer))
    else if bool_decide (command = str "0001") then
      if negb (length payload =? 19)%nat then raise (invalid_length "ring read" payload)
      else
        start ← lift (parseDeviceBridgeHexUint (slice payload 7 15) 32);
        maxBytes ← lift (parseDeviceBridgeHexUint (slice payload 15 19) 16);
        ring_call (env_ReadRingChunk (u32 start) (u16 maxBytes)) (str "000000")
          (λ resp, fmtX 4 (u16 (BytesAdded resp)) ++ fmtX 2 (u8 (Status resp)) ++ ToUpper (EncodeToString (Data resp)))
    else if bool_decide (command = str "0002") then
      if (length payload <? 13)%nat then raise (invalid_length "ring capture-config" payload)
      else
        captureID ← lift (parseDeviceBridgeHexUint (slice payload 7 11) 16);
        count ← lift (parseDeviceBridgeHexUint (slice payload 11 13) 8);
        let count := Z.to_nat count in
        if negb (length payload =? 13 + count * 10)%nat then
          raise (Wrapf "%w: ring capture count %d does not match payload length %d"
                   [Z.of_nat count; Z.of_nat (length payload)] (Sentinel ErrInvalidArgument))
        else
          params ← lift (mapM (ring_capture_param payload) (List.seq 0 count));
          ring_call (env_ConfigureRingCapture (u16 captureID) params) (str "00") (λ _, str "00")
    else if bool_decide (command = str "0003") then
      if negb (length payload =? 7)%nat then raise (invalid_length "ring trigger-sync" payload)
      else ring_call env_TriggerRingSync (str "00") (λ _, str "00")
    else raise (Wrapf "%w: ring command %s" [] (Sentinel ErrTransportNotSupported)).

(** *** Dispatch *)
Definition no_payload (m : bridge C ()) : bridge C bytes := _ ← m; mret [].
Definition is_one_of (payload : bytes) (names : list bytes) : bool :=
  existsb (λ name, bool_decide (payload = name)) names.

Definition deviceBridgePayloadWithState (payload : bytes) : bridge C bytes :=
  if is_one_of payload [str "?IF"; str "?VI"] then mret deviceBridgeFirmwareIdentification
  else if is_one_of payload [str "?BI"; str "?BID"; str "?BIF"] then mret deviceBridgeBoardIdentification
  else if HasPrefix payload (str "?VM") then deviceBridgeMetadataWithState payload
  else if HasPrefix payload (str "?VB") then deviceBridgeBigDataReadWithState payload
  else if HasPrefix payload (str "?VL") then deviceBridgeLimits payload
  else if HasPrefix payload (str "?BC") then deviceBridgeBootloaderStatus payload
  else if HasPrefix payload (str "?RS") then deviceBridgeRingPayload payload
  else if HasPrefix payload (str "?VR") then deviceBridgeSingleReadWithState payload
  else if HasPrefix payload (str "?VX") then deviceBridgeBulkReadWithState payload
  else if HasPrefix payload (str "VB") then no_payload (deviceBridgeBigDataWriteWithState payload)
  else if HasPrefix payload (str "VS") then no_payload (deviceBridgeWriteWithState payload)
  else if bool_decide (payload = str "SP") then
    match dc_ControlClient with
    | None => mret []
    | Some control => no_payload (on_client (cc_SaveToFlash control))
    end
  else if bool_decide (payload = str "RS") then
    match dc_ControlClient with
    | None => raise (Sentinel ErrTransportNotSupported)
    | Some control => no_payload (on_client (cc_Reset control))
    end
  else raise (Wrapf "%w: ASCII command %q" [] (Sentinel ErrTransportNotSupported)).
End handlers.

Definition isDeviceBridgeInfoProbe (payload : bytes) : bool :=
  is_one_of payload [str "?IF"; str "?VI"; str "?BI"; str "?BID"; str "?BIF"].
Definition isDeviceBridgeRead (payload : bytes) : bool :=
  existsb (HasPrefix payload)
    [str "?VR"; str "?VX"; str "?VM"; str "?VB"; str "?VL"; str "?RS"; str "?BC"].

(** ** Frames *)

Section frames.
Context `{BridgeEnv} {C : Type} `{DeviceClient C}.

Definition handleDeviceClientFrameWithState (raw : bytes) (w : deviceBridgeState * C) :
    deviceBridgeState * C * bytes :=
  match parseDeviceBridgeRequest raw with
  | Err _ => (w, deviceServerError raw)
  | Ok req =>
      match deviceBridgePayloadWithState (rq_payload req) w with
      | (w, Err e) => (w, deviceBridgeNACK (rq_address req) (rq_seq req) (nackCodeForError e))
      | (w, Ok payload) =>
          (w, if isDeviceBridgeInfoProbe (rq_payload req) then
                deviceBridgeInfo (rq_address req) (rq_seq req) payload
              else if isDeviceBridgeRead (rq_payload req) then
                deviceBridgeData (rq_address req) (rq_seq req) payload
              else deviceBridgeOK (rq_address req) (rq_seq req) payload)
      end
  end.

(** The loop of a bridge: one answer per frame, never an empty one. *)
Definition bridge_answer (frame : bytes) (w : deviceBridgeState * C) : deviceBridgeState * C * bytes :=
  let '(w, resp) := handleDeviceClientFrameWithState frame w in
  (w, if bool_decide (resp = []) then deviceServerError frame else resp).
Fixpoint runDeviceClientBridge (frames : list bytes) (w : deviceBridgeState * C) :
    deviceBridgeState * C * list bytes :=
  match frames with
  | [] => (w, [])
  | frame :: frames' =>
      let '(w, resp) := bridge_answer frame w in
      let '(w, resps) := runDeviceClientBridge frames' w in (w, resp :: resps)
  end.

(** *** Writes the router answers itself *)
Definition deviceBridgeEncodedParameterIsVirtual (encoded : bytes) : bool :=
  match parseDeviceBridgeParameter encoded with
  | Err _ => false
  | Ok (id, _) => bool_decide (is_Some (deviceBridgeTransform id TransformVirtualParameter))
  end.
Definition deviceBridgePayloadUsesRouterLocalVirtualWrite (payload : bytes) : bool :=
  if HasPrefix payload (str "VB") then
    if (length payload <? 22)%nat then false else deviceBridgeEncodedParameterIsVirtual (slice payload 2 8)
  else if HasPrefix payload (str "VS") then
    if (length payload <? 8)%nat then false else deviceBridgeEncodedParameterIsVirtual (slice payload 2 8)
  else false.
End frames.

Definition handleDeviceBridgeRouterLocalFrame `{BridgeEnv} (raw : bytes) (st : deviceBridgeState) :
    option (deviceBridgeState * bytes) :=
  match parseDeviceBridgeRequest raw with
  | Err _ => None
  | Ok req =>
      if negb (deviceBridgePayloadUsesRouterLocalVirtualWrite (rq_payload req)) then None
      else let '(st, _, resp) := handleDeviceClientFrameWithState raw (st, VirtualOnly) in Some (st, resp)
  end.
