(* ===== verification/BridgeLogic.v ===== *)
(** * BridgeLogic: what every command of the device bridge keeps

    A small program logic for the monad of [BridgePayload.v] and one pass over
    all handlers with it.  The pass is generic in a property [I] of the state
    that the stores keep when they are given values of an allowed type: with the
    trivial property it says what the answers look like ([BridgeFrames.v]), with
    the typing of the stores it says that the stores stay well typed
    ([BridgeTypes.v]). *)
From stdpp Require Import prelude gmap strings list.
From Stdlib Require Import Strings.Byte Floats.SpecFloat.
From S2P Require Import Prelude Text Floats Broker Protocol Client RingReader Readout SdoMap CanFrame CanClients DeviceBridge BridgePayload.
Open Scope Z_scope.

(** [ensures I P m]: [m] keeps [I], and what it returns satisfies [P]. *)
Definition ensures {C A} (I : deviceBridgeState → Prop) (P : A → Prop) (m : bridge C A) : Prop :=
  ∀ w, I w.1 → I (m w).1.1 ∧ ∀ a, (m w).2 = Ok a → P a.

Section rules.
Context {C : Type} (I : deviceBridgeState → Prop).

Lemma ensures_ret {A} (P : A → Prop) (a : A) : P a → ensures (C:=C) I P (mret a).
Proof. intros Ha w Hw. split; [done|]. by intros a' [= <-]. Qed.

Lemma ensures_raise {A} (P : A → Prop) e : ensures (C:=C) I P (raise e).
Proof. by intros w Hw. Qed.

Lemma ensures_lift {A} (P : A → Prop) r : (∀ a, r = Ok a → P a) → ensures (C:=C) I P (lift r).
Proof. intros Hr w Hw. split; [done|apply Hr]. Qed.

Lemma ensures_bind {A B} (Q : A → Prop) (P : B → Prop) (m : bridge C A) (f : A → bridge C B) :
  ensures I Q m → (∀ a, Q a → ensures I P (f a)) → ensures I P (m ≫= f).
Proof.
  intros Hm Hf w Hw. destruct (Hm w Hw) as [H1 H2]. unfold mbind, bridge_bind.
  destruct (m w) as [w' [a|e]]; [|done]. apply Hf; [by apply H2|done].
Qed.

Lemma ensures_weaken {A} (P Q : A → Prop) (m : bridge C A) :
  ensures I Q m → (∀ a, Q a → P a) → ensures I P m.
Proof. intros Hm HQ w Hw. destruct (Hm w Hw). split; eauto. Qed.

Lemma ensures_attempt {A} (Q : A → Prop) (m : bridge C A) : ensures I Q m →
  ensures I (λ r, ∀ a, r = Ok a → Q a) (attempt m).
Proof.
  intros Hm w Hw. destruct (Hm w Hw) as [H1 H2]. unfold attempt.
  destruct (m w) as [w' r]. split; [done|]. by intros ? [= <-].
Qed.

Lemma ensures_client {A} (f : C → C * res A) : ensures I (λ _, True) (on_client f).
Proof. intros w Hw. unfold on_client. by destruct (f w.2). Qed.

Lemma ensures_update (f : deviceBridgeState → deviceBridgeState) : (∀ st, I st → I (f st)) →
  ensures (C:=C) I (λ _, True) (update f).
Proof. intros Hf w Hw. split; [by apply Hf|done]. Qed.

Lemma ensures_state {A} (P : A → Prop) (f : deviceBridgeState → deviceBridgeState * res A) :
  (∀ st, I st → I (f st).1 ∧ ∀ a, (f st).2 = Ok a → P a) → ensures (C:=C) I P (on_state f).
Proof. intros Hf w Hw. unfold on_state. pose proof (Hf w.1 Hw). by destruct (f w.1). Qed.

Lemma ensures_read {A} (P : A → Prop) (f : deviceBridgeState → res A) :
  (∀ st a, I st → f st = Ok a → P a) → ensures (C:=C) I P (read_state f).
Proof. intros Hf w Hw. split; [done|]. intros a. by apply Hf. Qed.

Lemma ensures_traverse {A B} (R : A → B → Prop) (f : A → bridge C B) l :
  (∀ a, a ∈ l → ensures I (R a) (f a)) → ensures I (Forall2 R l) (traverse f l).
Proof.
  induction l as [|a l IH]; intros Hf; [by apply ensures_ret|].
  apply (ensures_bind (R a)); [apply Hf; set_solver|]. intros b Hb.
  apply (ensures_bind (Forall2 R l)); [apply IH; set_solver|]. intros bs Hbs.
  apply ensures_ret. by constructor.
Qed.
End rules.

(** Step through binds, conditionals and matches. *)
Create HintDb bridge.
#[export] Hint Resolve ensures_ret ensures_raise ensures_client : bridge.
Ltac bridge_case :=
  match goal with
  | |- ensures _ _ (if ?b then _ else _) => destruct b eqn:?
  | |- ensures _ _ (match ?x with _ => _ end) => destruct x eqn:?
  end.
Tactic Notation "bridge_case" "as" ident(E) :=
  match goal with
  | |- ensures _ _ (if ?b then _ else _) => destruct b eqn:E
  | |- ensures _ _ (match ?x with _ => _ end) => destruct x eqn:E
  end.

(** ** Texts on the wire *)
Definition hex_text (l : bytes) : Prop := Forall (λ b, is_hex b = true) l.
Definition wire_text (l : bytes) : Prop := unsigned_payload l ∧ FrameTerminator ∉ l.

Lemma hex_wire l : hex_text l → wire_text l.
Proof. intros H. split; [by apply hex_unsigned|by apply hex_no_terminator]. Qed.

Lemma fmtX_hex w z : (0 < w ≤ 16)%nat → 0 ≤ z < 16 ^ Z.of_nat w → hex_text (fmtX w z).
Proof. intros Hw Hz. rewrite fmtX_fix by done. apply hex_fix_is_hex. Qed.
Lemma fmt8_hex z : 0 ≤ z < 2 ^ 32 → hex_text (fmtX 8 z).
Proof. intros. apply fmtX_hex; simpl; lia. Qed.
Lemma fmt4_hex z : 0 ≤ z < 65536 → hex_text (fmtX 4 z).
Proof. intros. apply fmtX_hex; simpl; lia. Qed.
Lemma fmt2_hex z : 0 ≤ z < 256 → hex_text (fmtX 2 z).
Proof. intros. apply fmtX_hex; simpl; lia. Qed.
Lemma fmt_int_hex z : hex_text (fmt_int z).
Proof. apply fmt8_hex, u32_range. Qed.
Lemma fmt_float_hex f : hex_text (fmt_float f).
Proof. apply fmt8_hex, u32_range. Qed.
Lemma hex_app l1 l2 : hex_text l1 → hex_text l2 → hex_text (l1 ++ l2).
Proof. intros. by apply Forall_app. Qed.
Lemma Encode_hex l : hex_text (ToUpper (EncodeToString l)).
Proof.
  induction l as [|b l IH]; [constructor|]. rewrite ToUpper_Encode_cons.
  destruct (byte_nibbles b). repeat constructor; [apply is_hex_char; lia..|exact IH].
Qed.
Lemma str_hex s : forallb is_hex (str s) = true → hex_text (str s).
Proof. intros H. apply Forall_forall. intros b Hb. rewrite forallb_forall in H. by apply H, list_elem_of_In. Qed.
#[export] Hint Resolve fmt_int_hex fmt_float_hex hex_app Encode_hex : bridge.
#[export] Hint Resolve fmt8_hex fmt4_hex fmt2_hex u32_range u16_range u8_range : bridge.
#[export] Hint Extern 1 (hex_text (str _)) => apply str_hex; vm_compute; reflexivity : bridge.
#[export] Hint Extern 1 (hex_text []) => constructor : bridge.

Lemma bigdata_hex data start maxElements : 0 ≤ start < 2 ^ 32 → 0 ≤ maxElements < 65536 →
  hex_text (deviceBridgeBigDataResponse data start maxElements).
Proof.
  intros Hs Hm. unfold deviceBridgeBigDataResponse. cbv zeta.
  destruct (_ || _); [auto with bridge|].
  set (e := u64 (start + maxElements)).
  assert (He : e = start + maxElements) by (unfold e, u64; rewrite Z.mod_small; lia).
  set (segment := slice data _ _).
  assert (Hl : (length segment ≤ Z.to_nat maxElements)%nat).
  { unfold segment, slice. rewrite length_take.
    destruct (Z.ltb_spec e start); [lia|]. destruct (Z.ltb_spec (Z.of_nat (length data)) e); simpl; lia. }
  apply hex_app; [apply fmt4_hex; lia|]. apply hex_app; [|apply Encode_hex].
  apply fmt2_hex. destruct (0 <? length segment)%nat; lia.
Qed.

Lemma fallback_hex instance : hex_text (deviceBridgeFallbackMetadata instance).
Proof.
  unfold deviceBridgeFallbackMetadata, deviceBridgeMetadataReadFlag.
  assert (0 ≤ (if (0 <? instance) && (instance <=? 0xff) then instance else 1) < 256).
  { destruct (Z.ltb_spec 0 instance); simpl; [|lia]. destruct (Z.leb_spec instance 0xff); simpl; lia. }
  repeat simple apply hex_app; auto with bridge; first [apply fmt2_hex|apply fmt8_hex]; lia.
Qed.
#[export] Hint Resolve fallback_hex : bridge.

(** ** One pass over the handlers *)

(** The type a store gives a value of a declared type. *)
Definition stored_type (typ : DataType) : DataType :=
  if bool_decide (typ = ""%string) then DataTypeFloat32 else typ.

Lemma stored_type_set typ : typ ≠ ""%string → stored_type typ = typ.
Proof. intros. unfold stored_type. by rewrite bool_decide_false. Qed.
Lemma stored_type_ne typ : stored_type typ ≠ ""%string.
Proof. unfold stored_type. destruct (bool_decide_reflect (typ = ""%string)); done. Qed.
Lemma stored_type_idem typ : stored_type (stored_type typ) = stored_type typ.
Proof. apply stored_type_set, stored_type_ne. Qed.

Section handlers.
Context `{BridgeEnv} {C : Type} `{DeviceClient C}.
Context (I : deviceBridgeState → Prop) (ok : Z → DataType → Prop).
Context (I_store : ∀ id instance v st, ok id (v_typ v) → I st → I (state_storeParameterValue id instance v st).1).
Context (I_write : ∀ id instance typ valueHex st s, ok id typ → I st →
  store_writeParameter id instance typ valueHex (st_softParameters st) = Ok s → I (with_soft s st)).
Context (I_flush : ∀ st, I st → I (flushCacheBestEffort st)).
Context (ok_self : ∀ id, ok id (deviceBridgeParameterType id)).
Context (ok_transform : ∀ id t, CANopenBridgeTransform id = Some t →
  ok (bt_MeComID t) (stored_type (bt_Type t))).

Lemma ParameterType_set id : deviceBridgeParameterType id ≠ ""%string.
Proof using.
  unfold deviceBridgeParameterType. cbv zeta.
  repeat match goal with |- context [bool_decide ?P] => destruct (bool_decide_reflect P) end; done.
Qed.

Lemma deviceBridgeTransform_Some id k t : deviceBridgeTransform id k = Some t →
  CANopenBridgeTransform id = Some t.
Proof using.
  unfold deviceBridgeTransform. intros (t' & Ht & H')%bind_Some. case_bool_decide; [|done].
  by injection H' as ->.
Qed.

Lemma live_value_kept id instance typ value st : ok id (stored_type typ) → I st →
  I (deviceBridgeStoreLiveNumericValue id instance typ value st).
Proof using I_store.
  intros Hok HI. unfold deviceBridgeStoreLiveNumericValue, stored_type in *. cbv zeta.
  repeat case_match; try done; apply I_store; try done; simpl;
    repeat case_bool_decide; subst; try done.
Qed.

Lemma soft_value_kept id instance typ : ok id (stored_type typ) →
  ensures I (λ _, True) (deviceBridgeSoftParameterValue (C:=C) id instance typ).
Proof using I_store.
  intros Hok. unfold deviceBridgeSoftParameterValue.
  eapply ensures_bind; [by apply (ensures_lift _ (λ _, True))|]. intros _ _. cbv zeta.
  assert (Hc : ∀ v, ensures I (λ _, True)
    (o ← soft_lookup (C:=C) id instance (v_typ v); mret (default v o))).
  { intros v. eapply ensures_bind; [by apply (ensures_read _ (λ _, True))|]. auto with bridge. }
  assert (Hs : ∀ v, ok id (v_typ v) →
    ensures I (λ _, True) (_ ← store_live (C:=C) id instance v; mret v)).
  { intros v Hv. eapply ensures_bind; [|auto with bridge].
    apply (ensures_state _ (λ _, True)). intros st Hst. split; [by apply I_store|done]. }
  destruct (bool_decide_reflect (typ = DataTypeInt32)) as [->|_].
  { eapply ensures_bind; [apply ensures_attempt, ensures_client|]. intros [z|e] _; [|apply Hc].
    by apply Hs. }
  destruct (bool_decide (typ = DataTypeFloat32) || bool_decide (typ = ""%string)) eqn:E.
  { eapply ensures_bind; [apply ensures_attempt, ensures_client|]. intros [f|e] _; [|apply Hc].
    bridge_case; [auto with bridge|]. apply Hs.
    apply orb_true_iff in E as [->%bool_decide_eq_true| ->%bool_decide_eq_true]; exact Hok. }
  bridge_case; [apply Hc|auto with bridge].
Qed.

Lemma virtual_value_kept id t instance : CANopenBridgeTransform id = Some t →
  ensures I (λ _, True) (deviceBridgeVirtualParameterValueWithState (C:=C) t instance).
Proof using I_store ok_transform.
  intros Ht. pose proof (ok_transform id t Ht) as Hok.
  unfold deviceBridgeVirtualParameterValueWithState.
  eapply ensures_bind; [by apply (ensures_lift _ (λ _, True))|]. intros _ _. cbv zeta.
  bridge_case; [auto with bridge|].
  eapply ensures_bind.
  { apply soft_value_kept. fold (stored_type (bt_Type t)). by rewrite stored_type_idem. }
  intros v _. bridge_case; [auto with bridge|].
  eapply ensures_bind; [by apply (ensures_read _ (λ _, True))|]. auto with bridge.
Qed.

Lemma soft_read_kept id instance :
  ensures I (λ _, True) (deviceBridgeSoftParameterValue (C:=C) id instance (deviceBridgeParameterType id)).
Proof using I_store ok_self.
  apply soft_value_kept. rewrite stored_type_set by apply ParameterType_set. apply ok_self.
Qed.

Lemma live_kept id instance typ value : ok id (stored_type typ) →
  ensures (C:=C) I (λ _, True) (update (deviceBridgeStoreLiveNumericValue id instance typ value)).
Proof using I_store. intros. apply ensures_update. intros. by apply live_value_kept. Qed.

Lemma ok_stored id : ok id (stored_type (deviceBridgeParameterType id)).
Proof using ok_self. rewrite stored_type_set by apply ParameterType_set. apply ok_self. Qed.

Lemma single_read_kept id instance : ensures I hex_text (single_read (C:=C) id instance).
Proof using I_store ok_self ok_transform.
  unfold single_read. cbv zeta.
  destruct (deviceBridgeTransform id TransformVirtualParameter) as [t|] eqn:Ht.
  { eapply ensures_bind; [by eapply virtual_value_kept, deviceBridgeTransform_Some|].
    intros v _. repeat bridge_case; auto with bridge. }
  bridge_case.
  { eapply ensures_bind; [apply soft_read_kept|]. intros v _. repeat bridge_case; auto with bridge. }
  bridge_case.
  { bridge_case; [auto with bridge|]. eapply ensures_bind; [apply ensures_client|]. intros z _.
    eapply ensures_bind; [apply live_kept, ok_stored|auto with bridge]. }
  bridge_case as E; [|auto with bridge]. bridge_case as Es.
  - eapply ensures_bind.
    { unfold deviceBridgeSynthesizedFloat32. eapply ensures_bind; [apply ensures_client|].
      intros z _. by apply (ensures_ret _ (λ _, True)). }
    intros f _. eapply ensures_bind; [|auto with bridge]. apply live_kept.
    apply orb_true_iff in E as [E%bool_decide_eq_true|E%bool_decide_eq_true].
    + rewrite <-E. apply ok_stored.
    + by apply ParameterType_set in E.
  - eapply ensures_bind; [apply ensures_client|]. intros f _.
    eapply ensures_bind; [apply live_kept, ok_stored|auto with bridge].
Qed.

Lemma SingleRead_kept payload : ensures I hex_text (deviceBridgeSingleReadWithState (C:=C) payload).
Proof using I_store ok_self ok_transform.
  unfold deviceBridgeSingleReadWithState. bridge_case; [auto with bridge|].
  eapply ensures_bind; [by apply (ensures_lift _ (λ _, True))|]. intros [id instance] _.
  apply single_read_kept.
Qed.

(** *** Metadata, limits, status *)
Lemma bounds_hex typ mn mx a : deviceBridgeParameterBounds typ = Ok (mn, mx, a) →
  hex_text mn ∧ hex_text mx ∧ hex_text a.
Proof using.
  unfold deviceBridgeParameterBounds. intros Hb. repeat case_in Hb; inv_result; simplify_eq;
    auto with bridge.
Qed.
Lemma MeParType_range typ t : deviceBridgeMeParType typ = Ok t → 0 ≤ t < 256.
Proof using. unfold deviceBridgeMeParType. intros Hb. repeat case_in Hb; inv_result; lia. Qed.

Lemma cached_metadata_hex id instance typ st a :
  deviceBridgeCachedMetadataActual id instance typ st = Some a → hex_text a.
Proof using.
  unfold deviceBridgeCachedMetadataActual. cbv zeta. intros Ha.
  destruct (store_lookupParameter _ _ _ _) as [[v|]|]; [|done..].
  repeat match type of Ha with context [if ?b then _ else _] => destruct b end; simplify_eq; auto with bridge.
Qed.

Lemma metadata_flags_range id : 0 ≤ metadata_flags id < 256.
Proof using.
  assert (Hf : ∀ b : bool, 0 ≤ (if b then Z.lor deviceBridgeMetadataReadFlag deviceBridgeMetadataWriteFlag
                                else deviceBridgeMetadataReadFlag) < 256) by (intros []; vm_compute; intuition congruence).
  unfold metadata_flags. destruct (CANopenBridgeTransform id) as [t|]; [|apply Hf].
  destruct (bt_MetadataFlags t); [apply u8_range|apply Hf].
Qed.

Lemma MaxElements_range id typ : 0 ≤ deviceBridgeParameterMaxElements id typ < 2 ^ 32.
Proof using.
  unfold deviceBridgeParameterMaxElements, deviceBridgeBigDataMaxElements.
  destruct (bool_decide (typ = DataTypeLatin1)); [lia|]. destruct (bool_decide (typ = DataTypeByte)); [|lia].
  destruct (deviceBridgeTransform id TransformCANopenPDOConfigBytes) as [t|]; [|lia].
  destruct (0 <? bt_MaxElements t); [apply u32_range|lia].
Qed.

Lemma live_metadata_kept id instance typ :
  ensures I (λ o, ∀ a, o = Some a → hex_text a) (deviceBridgeLiveMetadataActual (C:=C) id instance typ).
Proof using I_store ok_self ok_transform.
  unfold deviceBridgeLiveMetadataActual. bridge_case; [|by apply ensures_ret].
  eapply ensures_bind; [apply ensures_attempt, SingleRead_kept|]. intros [a|e] Ha; apply ensures_ret.
  - intros a'. destruct (length a =? 8)%nat; [|done]. intros [= <-]. by apply Ha.
  - done.
Qed.

Lemma Metadata_kept payload : ensures I hex_text (deviceBridgeMetadataWithState (C:=C) payload).
Proof using I_store ok_self ok_transform.
  unfold deviceBridgeMetadataWithState, deviceBridgeMetadataWithActual.
  bridge_case; [auto with bridge|].
  eapply ensures_bind; [by apply (ensures_lift _ (λ _, True))|]. intros [id instance] _. cbv zeta.
  bridge_case as Et; [|repeat bridge_case; auto with bridge].
  eapply ensures_bind; [apply (ensures_lift _ (λ x, hex_text x.1.1 ∧ hex_text x.1.2 ∧ hex_text x.2));
    intros [[? ?] ?]; apply bounds_hex|].
  intros [[mn mx] act] (Hmn & Hmx & Ha). eapply (ensures_bind _ hex_text).
  - bridge_case; [|by apply ensures_ret].
    eapply ensures_bind; [apply live_metadata_kept|]. intros [l|] Hl; [apply ensures_ret; by apply Hl|].
    apply ensures_read. intros st b _ [= <-].
    destruct (deviceBridgeCachedMetadataActual _ _ _ _) eqn:E; [|done]. by eapply cached_metadata_hex.
  - intros b Hb. apply ensures_ret. apply MeParType_range in Et.
    pose proof (metadata_flags_range id).
    pose proof (MaxElements_range id (deviceBridgeParameterType id)).
    repeat simple apply hex_app; auto with bridge.
Qed.

Lemma Limits_kept payload : ensures (C:=C) I hex_text (deviceBridgeLimits payload).
Proof using.
  unfold deviceBridgeLimits. bridge_case; [auto with bridge|].
  eapply ensures_bind; [by apply (ensures_lift _ (λ _, True))|]. intros [id instance] _. cbv zeta.
  eapply ensures_bind; [apply (ensures_lift _ (λ t, 0 ≤ t < 256)); intros t; apply MeParType_range|].
  intros t Ht.
  eapply ensures_bind; [apply (ensures_lift _ (λ x, hex_text x.1.1 ∧ hex_text x.1.2 ∧ hex_text x.2));
    intros [[? ?] ?]; apply bounds_hex|].
  intros [[mn mx] act] (Hmn & Hmx & Ha). apply ensures_ret.
  repeat simple apply hex_app; auto with bridge.
Qed.

Lemma Bootloader_kept payload : ensures (C:=C) I hex_text (deviceBridgeBootloaderStatus payload).
Proof using.
  unfold deviceBridgeBootloaderStatus. bridge_case; [auto with bridge|].
  eapply ensures_bind; [by apply (ensures_lift _ (λ _, True))|]. intros z _.
  bridge_case; auto with bridge.
Qed.

(** *** Big data *)
Lemma HexUint_range l bits v : 0 ≤ bits → parseDeviceBridgeHexUint l bits = Ok v → 0 ≤ v < 2 ^ bits.
Proof using.
  unfold parseDeviceBridgeHexUint. intros Hb Hv.
  destruct (ParseUint l 16 bits) eqn:E; [|done]. injection Hv as <-. by apply ParseUint_range in E; [|lia..].
Qed.
Lemma lift_HexUint l bits : 0 ≤ bits →
  ensures (C:=C) I (λ v, 0 ≤ v < 2 ^ bits) (lift (parseDeviceBridgeHexUint l bits)).
Proof using. intros Hb. apply ensures_lift. intros v. by apply HexUint_range. Qed.

Lemma append_fields_kept reader acc fields :
  ensures I (λ _, True) (append_fields (C:=C) reader acc fields).
Proof using.
  revert acc. induction fields as [|[[index sub] width] fields IH]; intros acc; [by apply ensures_ret|].
  cbn [append_fields]. eapply (ensures_bind _ (λ _, True)); [|auto].
  unfold deviceBridgeAppendSDOBytes. destruct acc as [[out n] e].
  eapply ensures_bind; [apply ensures_attempt, ensures_client|]. auto with bridge.
Qed.

Lemma PDOConfig_kept t : ensures I (λ _, True) (deviceBridgeCANopenPDOConfigBytes (C:=C) t).
Proof using.
  unfold deviceBridgeCANopenPDOConfigBytes.
  destruct dc_ReadSDORaw as [reader|]; [|auto with bridge]. bridge_case; [auto with bridge|].
  destruct (pdo_fields _) as [fields|]; [|auto with bridge].
  eapply ensures_bind; [apply append_fields_kept|].
  intros [[out n] e] _; destruct n, e; auto with bridge.
Qed.

Lemma BigDataRead_kept payload : ensures I hex_text (deviceBridgeBigDataReadWithState (C:=C) payload).
Proof using.
  unfold deviceBridgeBigDataReadWithState. bridge_case; [auto with bridge|].
  eapply ensures_bind; [by apply (ensures_lift _ (λ _, True))|]. intros [id instance] _.
  eapply ensures_bind; [by apply lift_HexUint|]. intros start Hs.
  eapply ensures_bind; [by apply lift_HexUint|]. intros n Hn. cbv beta zeta in *.
  bridge_case; [bridge_case; [|auto with bridge]|bridge_case; [|auto with bridge]].
  - eapply ensures_bind; [apply PDOConfig_kept|]. intros data _. apply ensures_ret, bigdata_hex; lia.
  - eapply ensures_bind; [by apply (ensures_read _ (λ _, True))|]. intros [v|] _; apply ensures_ret;
      [|auto with bridge].
    destruct (bool_decide (v_latin1 v = [])); [auto with bridge|]. apply bigdata_hex; lia.
Qed.

(** *** Writes *)
Lemma soft_write_kept id instance typ valueHex : ok id typ →
  ensures (C:=C) I (λ _, True) (soft_write id instance typ valueHex).
Proof using I_write.
  intros Hok. apply (ensures_state _ (λ _, True)). intros st Hst. split; [|done].
  destruct (store_writeParameter _ _ _ _ _) eqn:E; [by eapply I_write|done].
Qed.

Lemma BigDataWrite_kept payload : ensures I (λ _, True) (deviceBridgeBigDataWriteWithState (C:=C) payload).
Proof using I_write ok_self.
  unfold deviceBridgeBigDataWriteWithState. bridge_case; [auto with bridge|].
  eapply ensures_bind; [by apply (ensures_lift _ (λ _, True))|]. intros [id instance] _.
  bridge_case; [auto with bridge|].
  do 3 (eapply ensures_bind; [by apply lift_HexUint|]; intros ? _). cbv zeta.
  bridge_case; [auto with bridge|]. bridge_case as E; [auto with bridge|].
  bridge_case; [auto with bridge|]. bridge_case.
  - apply soft_write_kept. apply negb_false_iff, bool_decide_eq_true in E. rewrite <-E. apply ok_self.
  - destruct dc_StringWriteClient as [w|]; [|auto with bridge].
    eapply ensures_bind; [by apply (ensures_lift _ (λ _, True))|]. intros data _. apply ensures_client.
Qed.

Lemma Write_kept payload : ensures I (λ _, True) (deviceBridgeWriteWithState (C:=C) payload).
Proof using I_write I_flush ok_self ok_transform.
  unfold deviceBridgeWriteWithState. bridge_case; [auto with bridge|].
  eapply ensures_bind; [by apply (ensures_lift _ (λ _, True))|]. intros [id instance] _. cbv zeta.
  bridge_case; [auto with bridge|].
  destruct (deviceBridgeTransform id TransformVirtualParameter) as [t|] eqn:Ht.
  { unfold deviceBridgeWriteVirtualParameter.
    eapply ensures_bind; [by apply (ensures_lift _ (λ _, True))|]. intros _ _.
    bridge_case; [auto with bridge|]. apply deviceBridgeTransform_Some, ok_transform in Ht as Hok.
    cbv zeta. apply ensures_state. intros st Hst. unfold state_writeParameter.
    destruct (store_writeParameter _ _ _ _ _) eqn:E; [|done]. split; [|done].
    apply I_flush. by eapply I_write. }
  bridge_case; [apply soft_write_kept, ok_self|].
  destruct dc_WriteClient as [w|]; [|auto with bridge].
  repeat (bridge_case; [eapply ensures_bind; [by apply (ensures_lift _ (λ _, True))|intros ? _; apply ensures_client]|]).
  bridge_case; [|auto with bridge]. destruct dc_StringWriteClient as [sw|]; [|auto with bridge].
  eapply ensures_bind; [by apply (ensures_lift _ (λ _, True))|]. intros data _. apply ensures_client.
Qed.

(** *** Bulk reads *)
Lemma bulk_request_ok payload i p u : bulk_request payload i = Ok (p, u) →
  u = false → ok (ID p) (stored_type (Type_ p)).
Proof using ok_self.
  unfold bulk_request. intros ([id instance] & Hp & Hb)%bind_Ok_inv Hu. subst u. cbv zeta in Hb.
  destruct (_ && _); [by injection Hb|]. destruct (negb (deviceBridgeParameterTypeSupported _)).
  - destruct (bool_decide (deviceBridgeParameterType id = DataTypeByte)); [done|].
    destruct (deviceBridgeUnsupportedBulkReadNACK id); [done|by injection Hb].
  - injection Hb as <-. apply ok_stored.
Qed.

Lemma bulk_local_kept req : ok (ID req.1) (stored_type (Type_ req.1)) ∨ req.2 = true →
  ensures I (λ slot, req.2 = true → ∃ f, slot = Filled f false) (bulk_local (C:=C) req).
Proof using I_store ok_transform.
  destruct req as [p u]. intros Hok. unfold bulk_local.
  destruct u; [apply ensures_ret; eauto|]. destruct Hok as [Hok|]; [|done]. simpl in Hok.
  apply (ensures_weaken _ _ (λ _, True)); [|done].
  destruct (deviceBridgeTransform (ID p) TransformVirtualParameter) as [t|] eqn:Ht.
  { eapply ensures_bind; [by eapply ensures_attempt, virtual_value_kept, deviceBridgeTransform_Some|].
    auto with bridge. }
  bridge_case; [eapply ensures_bind; [by apply ensures_attempt, soft_value_kept|auto with bridge]|].
  destruct (deviceBridgeTransform (ID p) TransformConstantInt32); [auto with bridge|].
  destruct (deviceBridgeTransform (ID p) TransformSynthesizeFloat32FromInt32).
  { eapply ensures_bind; [|auto with bridge]. apply (ensures_attempt _ (λ _, True)).
    eapply ensures_bind; [apply ensures_client|auto with bridge]. }
  bridge_case; [|auto with bridge].
  eapply (ensures_bind _ (λ _, True)).
  - unfold deviceBridgeBulkReadSingleFallback. repeat (bridge_case; [|]);
      try (eapply ensures_bind; [apply ensures_attempt, ensures_client|]); auto with bridge.
  - intros [f|] _; [auto with bridge|]. by apply ensures_read.
Qed.

Lemma single_fallback_kept p : ensures I (λ _, True) (deviceBridgeBulkReadSingleFallback (C:=C) p).
Proof using.
  unfold deviceBridgeBulkReadSingleFallback. repeat (bridge_case; [|]);
    try (eapply ensures_bind; [apply ensures_attempt, ensures_client|]); auto with bridge.
Qed.

Lemma bulk_downstream_kept params : ensures I (λ _, True) (bulk_downstream (C:=C) params).
Proof using.
  unfold bulk_downstream. destruct params as [|p params]; [auto with bridge|].
  eapply ensures_bind; [apply ensures_attempt, ensures_client|]. cbv zeta.
  assert (Hf : ensures I (λ _, True)
    (traverse (λ p, o ← deviceBridgeBulkReadSingleFallback p;
                    mret (M:=bridge C) (match o with Some f => (f, true) | None => (S754_zero false, false) end))
       (p :: params))).
  { eapply ensures_weaken; [apply (ensures_traverse _ (λ _ _, True))|done].
    intros q _. eapply ensures_bind; [apply single_fallback_kept|auto with bridge]. }
  intros [values|e] _; [bridge_case; [auto with bridge|]|]; exact Hf.
Qed.

Lemma fill_slots_live slots values :
  Forall2 (λ slot (v : f64 * bool), (∃ f, slot = Filled f false) → v.2 = false) slots (fill_slots slots values).
Proof using.
  revert values. induction slots as [|[f live|] slots IH]; intros values; cbn [fill_slots].
  - constructor.
  - constructor; [|apply IH]. intros [f' [= _ ->]]. done.
  - destruct values; (constructor; [|apply IH]); by intros [f' ?].
Qed.

Lemma bulk_encode_kept p f live : (live = true → ok (ID p) (stored_type (Type_ p))) →
  ensures (C:=C) I hex_text (bulk_encode (p, (f, live))).
Proof using I_store.
  intros Hok. unfold bulk_encode. eapply ensures_bind.
  - apply ensures_update. intros st Hst. destruct live; [|done]. apply live_value_kept; auto.
  - intros _ _. repeat bridge_case; auto with bridge.
Qed.

Lemma bulk_pairs reqs slots (values : list (f64 * bool)) :
  Forall (λ req, ok (ID req.1) (stored_type (Type_ req.1)) ∨ req.2 = true) reqs →
  Forall2 (λ req slot, req.2 = true → ∃ f, slot = Filled f false) reqs slots →
  Forall2 (λ slot (v : f64 * bool), (∃ f, slot = Filled f false) → v.2 = false) slots values →
  Forall (λ pv, pv.2.2 = true → ok (ID pv.1) (stored_type (Type_ pv.1))) (zip reqs.*1 values).
Proof using.
  intros Hr Hs. revert values Hr. induction Hs as [|[p u] slot reqs slots H1 _ IH]; intros values Hr Hv; [done|].
  inversion_clear Hv as [|? v ? vs Hv1 Hv2]. apply Forall_cons_1 in Hr as [Hr1 Hr2]. simpl in *.
  constructor; [|by apply IH]. simpl. intros Hl. destruct Hr1 as [|Hu]; [done|].
  rewrite (Hv1 (H1 Hu)) in Hl. done.
Qed.

Lemma BulkRead_kept payload : ensures I hex_text (deviceBridgeBulkReadWithState (C:=C) payload).
Proof using I_store ok_self ok_transform.
  unfold deviceBridgeBulkReadWithState. bridge_case; [auto with bridge|].
  destruct (ParseUint (slice payload 3 5) 16 8) as [count|e]; [|auto with bridge]. cbv zeta.
  bridge_case; [auto with bridge|].
  eapply (ensures_bind _ (Forall (λ req, ok (ID req.1) (stored_type (Type_ req.1)) ∨ req.2 = true))).
  { apply ensures_lift. intros reqs Hreqs. revert Hreqs. generalize (List.seq 0 ((length payload - 5) / 6)).
    intros l. revert reqs. induction l as [|i l IH]; intros reqs Hreqs; cbn [mapM] in Hreqs.
    - by injection Hreqs as <-.
    - apply bind_Ok_inv in Hreqs as ([p u] & Hp & Hreqs). apply bind_Ok_inv in Hreqs as (rs & Hrs & [= <-]).
      constructor; [|by apply IH]. destruct u; [by right|left]. by eapply bulk_request_ok. }
  intros reqs Hreqs. eapply ensures_bind.
  { apply (ensures_traverse _ (λ req slot, req.2 = true → ∃ f, slot = Filled f false)).
    intros req Hin. apply bulk_local_kept. rewrite Forall_forall in Hreqs. by apply Hreqs. }
  intros slots Hslots. eapply ensures_bind; [apply bulk_downstream_kept|]. intros values _.
  pose proof (bulk_pairs reqs slots _ Hreqs Hslots (fill_slots_live slots values)) as Hpairs.
  eapply (ensures_bind _ (Forall2 (λ _, hex_text) (zip reqs.*1 (fill_slots slots values)))).
  - apply (ensures_traverse _ (λ _, hex_text)). intros [p [f live]] Hin. apply bulk_encode_kept.
    rewrite Forall_forall in Hpairs. apply (Hpairs _ Hin).
  - intros texts Ht. apply ensures_ret. clear -Ht. induction Ht as [|x t l l' Hx _ IH]; [constructor|].
    simpl. by apply hex_app.
Qed.

(** *** Ring reads and the dispatcher *)
Lemma ring_call_kept {A} (f : C → C * res A) dflt format :
  hex_text dflt → (∀ a, hex_text (format a)) → ensures I hex_text (ring_call f dflt format).
Proof using.
  intros Hd Hf. unfold ring_call. eapply ensures_bind; [apply ensures_attempt, ensures_client|].
  intros [a|e] _; [by apply ensures_ret|]. bridge_case; auto with bridge.
Qed.

Lemma Ring_kept payload : ensures I hex_text (deviceBridgeRingPayload (C:=C) payload).
Proof using.
  unfold deviceBridgeRingPayload. bridge_case; [auto with bridge|]. cbv zeta.
  repeat (bridge_case; [bridge_case; [auto with bridge|]|]); [| | | |auto with bridge].
  - apply ring_call_kept; auto with bridge.
  - do 2 (eapply ensures_bind; [by apply lift_HexUint|]; intros ? _).
    apply ring_call_kept; [auto with bridge|]. intros resp. repeat simple apply hex_app; auto with bridge.
  - do 2 (eapply ensures_bind; [by apply lift_HexUint|]; intros ? _). bridge_case; [auto with bridge|].
    eapply ensures_bind; [by apply (ensures_lift _ (λ _, True))|]. intros params _.
    apply ring_call_kept; auto with bridge.
  - apply ring_call_kept; auto with bridge.
Qed.

Lemma no_payload_kept (m : bridge C ()) : ensures I (λ _, True) m → ensures I hex_text (no_payload m).
Proof using. intros Hm. unfold no_payload. eapply ensures_bind; [exact Hm|auto with bridge]. Qed.

Lemma wire_weaken (m : bridge C bytes) : ensures I hex_text m → ensures I wire_text m.
Proof using. intros Hm. by eapply ensures_weaken, hex_wire. Qed.

(** Every command keeps the state, and what it answers can be put on the wire. *)
Lemma deviceBridgePayload_kept payload : ensures I wire_text (deviceBridgePayloadWithState (C:=C) payload).
Proof using I_store I_write I_flush ok_self ok_transform.
  unfold deviceBridgePayloadWithState.
  bridge_case; [apply ensures_ret; apply (bool_decide_unpack _); vm_compute; exact Logic.I|].
  apply wire_weaken. bridge_case; [apply ensures_ret, str_hex; reflexivity|].
  bridge_case; [apply Metadata_kept|]. bridge_case; [apply BigDataRead_kept|].
  bridge_case; [apply Limits_kept|]. bridge_case; [apply Bootloader_kept|].
  bridge_case; [apply Ring_kept|]. bridge_case; [apply SingleRead_kept|].
  bridge_case; [apply BulkRead_kept|].
  bridge_case; [apply no_payload_kept, BigDataWrite_kept|].
  bridge_case; [apply no_payload_kept, Write_kept|].
  do 2 (bridge_case; [destruct dc_ControlClient as [cc|];
    [apply no_payload_kept, ensures_client|auto with bridge]|]). auto with bridge.
Qed.
End handlers.
