(* ===== verification/BridgeFrames.v ===== *)
(** * BridgeFrames: what an ASCII client sees of a bridge

    The frames of the bridge against the parsers of [Protocol.v]: every request
    gets one well-formed response that carries exactly what the command computed,
    read-only parameters are never written, and an ASCII client behind a bridge
    reads what the device behind the typed client holds. *)
From stdpp Require Import prelude gmap strings list.
From Stdlib Require Import Strings.Byte Floats.SpecFloat.
From S2P Require Import Prelude Text Floats Crc Broker Protocol Client RingReader Readout SdoMap CanFrame CanClients DeviceBridge BridgePayload BridgeLogic.
Open Scope Z_scope.

(** ** Parsing a request *)
Lemma verifyDeviceBridgeCRC_seal prefix : prefix ≠ [] →
  verifyDeviceBridgeCRC (prefix ++ fmtX 4 (CRC16 prefix)) = Ok ().
Proof.
  intros Hp. unfold verifyDeviceBridgeCRC. destruct (crc_text prefix) as [Hx Hlen].
  destruct (Nat.leb_spec (length (prefix ++ fmtX 4 (CRC16 prefix))) 4) as [Hl|_].
  { rewrite length_app, Hlen in Hl. destruct prefix; [done|simpl in Hl; lia]. }
  destruct (crc_tail prefix _ Hlen) as [-> ->]. pose proof (CRC16_range prefix).
  rewrite Hx, ParseUint_hex_fix by (simpl; lia). unfold u16. rewrite Z.mod_small by done.
  by rewrite Z.eqb_refl.
Qed.

Lemma hex_not_space b : is_hex b = true → is_space b = false.
Proof.
  intros Hb. pose proof (range_check (λ c, implb (is_hex (zb c)) (negb (is_space (zb c)))) 256 eq_refl
    (bz b) (bz_range b)) as Hc. cbv beta in Hc. rewrite zb_bz, Hb in Hc. by apply negb_true_iff in Hc.
Qed.

Lemma crc_text_last prefix : ∃ t d, fmtX 4 (CRC16 prefix) = t ++ [d] ∧ is_hex d = true.
Proof.
  destruct (crc_text prefix) as [-> _]. cbn [hex_fix]. eexists _, _. split; [reflexivity|].
  apply is_hex_char, Z.mod_pos_bound. lia.
Qed.

(** A sealed frame that does not begin with white space is its own trimming. *)
Lemma TrimSpace_seal b prefix : is_space b = false →
  TrimSpace (seal (b :: prefix)) = (b :: prefix) ++ fmtX 4 (CRC16 (b :: prefix)).
Proof.
  intros Hb. unfold seal. destruct (crc_text_last (b :: prefix)) as (t & d & -> & Hd).
  rewrite (app_assoc (b :: prefix) (t ++ [d]) [FrameTerminator]), TrimSpace_snoc_space by done.
  assert ((b :: prefix) ++ t ++ [d] = b :: (prefix ++ t) ++ [d]) as -> by (by rewrite <-app_assoc).
  by rewrite TrimSpace_keep by first [exact Hb|by apply hex_not_space].
Qed.

Lemma bare_frame_seal b prefix : is_space b = false →
  bare_frame (seal (b :: prefix)) = (b :: prefix) ++ fmtX 4 (CRC16 (b :: prefix)).
Proof.
  intros Hb. unfold bare_frame. rewrite TrimSpace_seal by done.
  destruct (crc_text_last (b :: prefix)) as (t & d & -> & Hd). rewrite app_assoc.
  apply TrimSuffix_other. intros <-. vm_compute in Hd. done.
Qed.

(** The upper-case hexadecimal digits, and with them the built headers, are not
    changed by [ToUpper]. *)
Lemma parse_built_request addr sq body : 0 ≤ addr < 256 → 0 ≤ sq < 65536 →
  parseDeviceBridgeRequest (appendCRC addr sq body) =
    Ok (MkRequest (appendCRC addr sq body) addr sq (ToUpper body)).
Proof.
  intros Ha Hs. unfold parseDeviceBridgeRequest. rewrite !appendCRC_shape by done.
  pose proof (length_request_header addr sq) as Hh. set (header := request_header addr sq) in *.
  rewrite bare_frame_seal by done. set (prefix := "#"%byte :: header ++ body).
  destruct (crc_text prefix) as [_ Hl]. cbv zeta.
  assert (Hlen : length (prefix ++ fmtX 4 (CRC16 prefix)) = (11 + length body)%nat).
  { rewrite length_app, Hl. unfold prefix. rewrite length_cons, length_app. lia. }
  rewrite Hlen. destruct (Nat.ltb_spec (11 + length body) 11); [lia|].
  rewrite andb_false_r, orb_false_l by done.
  change ((prefix ++ fmtX 4 (CRC16 prefix)) !! 0%nat) with (Some "#"%byte).
  rewrite (bool_decide_true (Some "#"%byte = Some "#"%byte)) by done. cbn [negb].
  rewrite verifyDeviceBridgeCRC_seal by done. cbn [mbind result_bind].
  assert (Hsl : ∀ i j, (1 ≤ i)%nat → (i ≤ j)%nat → (j ≤ 7)%nat →
    slice (prefix ++ fmtX 4 (CRC16 prefix)) i j = slice header (i - 1) (j - 1)).
  { intros i j Hi Hij Hj. rewrite slice_app_l by (unfold prefix; rewrite length_cons, length_app; lia).
    unfold prefix. change ("#"%byte :: header ++ body) with (["#"%byte] ++ header ++ body).
    rewrite slice_after by (simpl; lia). cbn [length]. apply slice_app_l. lia. }
  rewrite !Hsl by lia. unfold header, request_header. simpl (_ - 1)%nat.
  rewrite slice_head by (by rewrite length_hex_fix).
  rewrite slice_after by (rewrite ?length_hex_fix; lia). rewrite length_hex_fix.
  rewrite slice_all by (by rewrite length_hex_fix).
  rewrite !ParseUint_hex_fix by (simpl; lia). unfold u8, u16. rewrite !Z.mod_small by lia.
  do 2 f_equal. fold (request_header addr sq). fold header.
  assert (Hb : prefix ++ fmtX 4 (CRC16 prefix) = ("#"%byte :: header) ++ body ++ fmtX 4 (CRC16 prefix))
    by (unfold prefix; by rewrite <-app_comm_cons, <-app_assoc).
  rewrite Hb, slice_after by (rewrite ?length_cons; lia).
  rewrite length_cons, Hh. f_equal. apply slice_head. lia.
Qed.

Lemma request_ranges raw req : parseDeviceBridgeRequest raw = Ok req →
  0 ≤ rq_address req < 256 ∧ 0 ≤ rq_seq req < 65536.
Proof.
  unfold parseDeviceBridgeRequest. cbv zeta. destruct (_ && _).
  { intros [= <-]. simpl. lia. }
  destruct (_ || _); [done|]. intros ([] & _ & Hr)%bind_Ok_inv.
  destruct (ParseUint (slice _ 1 3) 16 8) as [a|]; [|done].
  destruct (ParseUint (slice _ 3 7) 16 16) as [q|]; [|done].
  injection Hr as <-. simpl. split; [apply u8_range|apply u16_range].
Qed.

Lemma upper_hex_char d : 0 ≤ d < 16 → upper_byte (hex_char d) = hex_char d.
Proof.
  intros Hd. pose proof (range_check (λ d, bool_decide (upper_byte (hex_char d) = hex_char d)) 16 eq_refl d Hd) as Hc.
  by apply bool_decide_eq_true in Hc.
Qed.
Lemma ToUpper_hex_fix w z : ToUpper (hex_fix w z) = hex_fix w z.
Proof.
  revert z. induction w as [|w IH]; intros z; [done|]. cbn [hex_fix]. rewrite ToUpper_app, IH.
  unfold ToUpper. cbn. rewrite upper_hex_char; [done|]. apply Z.mod_pos_bound. lia.
Qed.

(** The address field of a command. *)
Definition address_field (id instance : Z) : bytes := fmtX 4 id ++ fmtX 2 instance.

Section field.
Context (id instance : Z) (Hid : 0 ≤ id ≤ 0xFFFF) (Hi : 0 ≤ instance ≤ 0xFF).
Lemma address_field_fix : address_field id instance = hex_fix 4 id ++ hex_fix 2 instance.
Proof using Hid Hi. unfold address_field. by rewrite !fmtX_fix by (simpl; lia). Qed.
Lemma length_address_field : length (address_field id instance) = 6%nat.
Proof using Hid Hi. by rewrite address_field_fix, length_app, !length_hex_fix. Qed.
Lemma ToUpper_address_field : ToUpper (address_field id instance) = address_field id instance.
Proof using Hid Hi. by rewrite address_field_fix, ToUpper_app, !ToUpper_hex_fix. Qed.
Lemma parse_address_field : parseDeviceBridgeParameter (address_field id instance) = Ok (id, instance).
Proof using Hid Hi.
  unfold parseDeviceBridgeParameter. rewrite length_address_field, address_field_fix. cbn [Nat.eqb negb].
  pose proof (length_hex_fix 4 id) as Hl.
  rewrite (take_app_length' _ _ 4), (drop_app_length' _ _ 4) by done.
  by rewrite !ParseUint_hex_fix by (simpl; lia).
Qed.
End field.

(** ** Answering *)
Section answers.
Context `{BridgeEnv} {C : Type} `{DeviceClient C}.

Lemma bridge_wire payload w w' p :
  deviceBridgePayloadWithState (C:=C) payload w = (w', Ok p) → wire_text p.
Proof.
  intros Hp.
  assert (Hk : ensures (C:=C) (λ _, True) wire_text (deviceBridgePayloadWithState payload))
    by (apply (deviceBridgePayload_kept (λ _, True) (λ _ _, True)); by intros).
  destruct (Hk w Logic.I) as [_ Hw]. apply Hw. by rewrite Hp.
Qed.

(** Only reads return a text. *)
Lemma bridge_text payload w w' p :
  deviceBridgePayloadWithState (C:=C) payload w = (w', Ok p) →
  isDeviceBridgeInfoProbe payload = false → isDeviceBridgeRead payload = false → p = [].
Proof.
  intros Hp Hi Hr.
  assert (He : ensures (C:=C) (λ _, True) (λ p, p = []) (deviceBridgePayloadWithState payload)).
  { unfold isDeviceBridgeInfoProbe, isDeviceBridgeRead, is_one_of in *. cbn [existsb] in *.
    repeat match goal with Ho : _ || _ = false |- _ => apply orb_false_iff in Ho as [? ?] end.
    unfold deviceBridgePayloadWithState, is_one_of. cbn [existsb].
    repeat match goal with Ho : _ = false |- _ => rewrite Ho; clear Ho end. cbn [orb].
    assert (Hn : ∀ m : bridge C (), ensures (λ _, True) (λ p, p = []) (no_payload m)).
    { intros m. apply (ensures_bind _ (λ _, True)); [by intros w0 _|]. intros _ _. by apply ensures_ret. }
    repeat (bridge_case; [first [apply Hn|destruct dc_ControlClient;
      first [apply Hn|by apply ensures_ret|apply ensures_raise]]|]). apply ensures_raise. }
  destruct (He w Logic.I) as [_ Ht]. apply Ht. by rewrite Hp.
Qed.

(** The answer to a request, by what the command computed. *)
Lemma handle_response raw req w : parseDeviceBridgeRequest raw = Ok req →
  let '(w', r) := deviceBridgePayloadWithState (C:=C) (rq_payload req) w in
  ∃ payload, handleDeviceClientFrameWithState raw w =
    (w', response (request_header (rq_address req) (rq_seq req)) payload) ∧
    (FrameTerminator ∉ payload) ∧
    parsePayload (response (request_header (rq_address req) (rq_seq req)) payload) =
      match r with Ok p => Ok p | Err e => Err (nack_error "mecom: nack %02X" (nackCodeForError e)) end.
Proof.
  intros Hreq. destruct (request_ranges raw req Hreq) as [Ha Hs].
  pose proof (length_request_header (rq_address req) (rq_seq req)) as Hh.
  assert (Hx : fmtX 2 (rq_address req) ++ fmtX 4 (rq_seq req) = request_header (rq_address req) (rq_seq req)).
  { unfold request_header. by rewrite !fmtX_fix by (simpl; lia). }
  unfold handleDeviceClientFrameWithState. rewrite Hreq.
  destruct (deviceBridgePayloadWithState (rq_payload req) w) as [w' [p|e]] eqn:Hp.
  - destruct (bridge_wire _ _ _ _ Hp) as [Hu Hcr].
    destruct (isDeviceBridgeInfoProbe (rq_payload req)) eqn:Hi;
      [|destruct (isDeviceBridgeRead (rq_payload req)) eqn:Hr].
    1,2: (exists p; unfold deviceBridgeInfo, deviceBridgeData, response; rewrite <-Hx, <-app_assoc; split; [done|];
      split; [done|]; rewrite app_assoc, Hx; by apply parsePayload_response).
    rewrite (bridge_text _ _ _ _ Hp Hi Hr). exists ["+"%byte].
    unfold deviceBridgeOK, response. rewrite <-Hx, <-app_assoc. split; [done|].
    split; [by rewrite list_elem_of_singleton|]. rewrite app_assoc, Hx. by apply (parsePayload_ack _ []).
  - exists ("-"%byte :: fmtX 2 (nackCodeForError e)).
    assert (Hc : 0 ≤ nackCodeForError e < 256) by (unfold nackCodeForError; repeat case_match; lia).
    unfold deviceBridgeNACK, response. rewrite <-Hx, <-app_assoc. split; [done|]. split.
    + apply not_elem_of_cons. split; [done|]. by apply hex_no_terminator, fmt2_hex.
    + rewrite app_assoc, Hx. by apply parsePayload_nack.
Qed.
End answers.

(** One well-formed answer per request.  Whatever the state, the client and the
    command, the bridge answers a request it can parse with one frame, ended by
    its only carriage return, under the address and the sequence number of the
    request, and the ASCII response parser reads from it exactly what the command
    computed: its text, or a refusal whose code is that of the error. *)
Theorem bridge_answers_requests `{BridgeEnv} {C} `{DeviceClient C} (raw : bytes)
    (req : deviceBridgeRequest) (w : deviceBridgeState * C) :
  parseDeviceBridgeRequest raw = Ok req →
  let '(w', r) := deviceBridgePayloadWithState (rq_payload req) w in
  ∃ resp, bridge_answer raw w = (w', resp) ∧ terminated resp ∧
    slice resp 0 7 = "!"%byte :: request_header (rq_address req) (rq_seq req) ∧
    parsePayload resp =
      match r with Ok p => Ok p | Err e => Err (nack_error "mecom: nack %02X" (nackCodeForError e)) end.
Proof.
  intros Hreq. pose proof (handle_response raw req w Hreq) as Hresp.
  destruct (deviceBridgePayloadWithState (rq_payload req) w) as [w' r].
  destruct Hresp as (payload & Hh & Hcr & Hp). pose proof (length_request_header (rq_address req) (rq_seq req)).
  eexists. unfold bridge_answer. rewrite Hh, bool_decide_false by done. split; [done|]. split.
  { apply response_terminated; [|done]. unfold request_header. rewrite not_elem_of_app.
    split; apply hex_no_terminator, hex_fix_is_hex. }
  split; [|done]. unfold response, seal. rewrite app_comm_cons, <-app_assoc. apply slice_head.
  rewrite length_cons. lia.
Qed.

(** ** Read-only parameters *)

(** Read-only parameters are never written.  A write command, plain or big
    data, whose parameter the object map does not declare writable is refused with
    the code for a read-only parameter, whatever value it carries; neither the
    device nor the stores change. *)
Theorem bridge_read_only_refused `{BridgeEnv} {C} `{DeviceClient C} (addr sq id instance : Z)
    (command value : bytes) (w : deviceBridgeState * C) :
  0 ≤ addr < 256 → 0 ≤ sq < 65536 → 0 ≤ id ≤ 0xFFFF → 0 ≤ instance ≤ 0xFF →
  command = str "VS" ∨ command = str "VB" ∧ (14 ≤ length value)%nat →
  deviceBridgeParameterWritable id = false →
  bridge_answer (appendCRC addr sq (command ++ address_field id instance ++ value)) w =
    (w, deviceBridgeNACK addr sq 0x06).
Proof.
  intros Ha Hs Hid Hi Hc Hw. unfold bridge_answer, handleDeviceClientFrameWithState.
  rewrite parse_built_request by done. cbn [rq_address rq_seq rq_payload].
  rewrite !ToUpper_app, ToUpper_address_field by done.
  pose proof (length_address_field id instance Hid Hi) as Hl.
  pose proof (length_ToUpper value) as Hv. set (v := ToUpper value) in *. clearbody v.
  set (field := address_field id instance) in *.
  assert (Hf : parseDeviceBridgeParameter (slice (ToUpper command ++ field ++ v) 2 8) = Ok (id, instance)).
  { assert (slice (ToUpper command ++ field ++ v) 2 8 = field) as ->; [|by apply parse_address_field].
    rewrite slice_after by (rewrite ?length_ToUpper; destruct Hc as [->|[-> _]]; simpl; lia).
    rewrite length_ToUpper. destruct Hc as [->|[-> _]]; apply slice_head; simpl; lia. }
  assert (Hp : deviceBridgePayloadWithState (C:=C) (ToUpper command ++ field ++ v) w = (w, Err (read_only id instance))).
  { destruct Hc as [->|[-> Hlen]].
    - change (deviceBridgePayloadWithState (ToUpper (str "VS") ++ field ++ v))
        with (no_payload (C:=C) (deviceBridgeWriteWithState (ToUpper (str "VS") ++ field ++ v))).
      unfold no_payload, deviceBridgeWriteWithState.
      destruct (Nat.ltb_spec (length (ToUpper (str "VS") ++ field ++ v)) 8) as [Hlt|_];
        [rewrite !length_app in Hlt; simpl in Hlt; lia|].
      rewrite Hf. cbv [mbind bridge_bind lift]. by rewrite Hw.
    - change (deviceBridgePayloadWithState (ToUpper (str "VB") ++ field ++ v))
        with (no_payload (C:=C) (deviceBridgeBigDataWriteWithState (ToUpper (str "VB") ++ field ++ v))).
      unfold no_payload, deviceBridgeBigDataWriteWithState.
      destruct (Nat.ltb_spec (length (ToUpper (str "VB") ++ field ++ v)) 22) as [Hlt|_];
        [rewrite !length_app in Hlt; simpl in Hlt; lia|].
      rewrite Hf. cbv [mbind bridge_bind lift]. by rewrite Hw. }
  by rewrite Hp.
Qed.

(** ** Parameters the object map has a plain object for *)
Section direct.
Context `{BridgeEnv}.

Record direct (id : Z) (typ : DataType) : Prop := MkDirect {
  direct_transform : CANopenBridgeTransform id = None;
  direct_loose : deviceBridgeLooseFallbackParameter id = false;
  direct_type : deviceBridgeParameterType id = typ }.

Lemma direct_no_transform id typ k : direct id typ → deviceBridgeTransform id k = None.
Proof. intros [Ht _ _]. unfold deviceBridgeTransform. by rewrite Ht. Qed.

Lemma direct_int id typ z : direct id typ → deviceBridgeCompatibleInt32Value id z = z.
Proof. intros Hd. unfold deviceBridgeCompatibleInt32Value. by rewrite (direct_no_transform id typ). Qed.

Lemma compat_type_direct id mp :
  byMeComID defaultCANopenSDOMap !! id = Some mp → bridgeTransform defaultCANopenSDOMap !! id = None →
  unsupported defaultCANopenSDOMap !! id = None →
  CompatibilityParameterTypes defaultCANopenSDOMap !! id = Some (kind mp).
Proof.
  intros Hm Ht Hu. unfold CompatibilityParameterTypes, drop_unsupported. cbv zeta.
  apply map_lookup_filter_Some. split; [|simpl; rewrite Hu; by intros [? ?]].
  apply lookup_union_Some_raw. right. rewrite lookup_omap, Ht. split; [done|].
  unfold ParameterTypes. by rewrite lookup_fmap, Hm.
Qed.

Lemma mapped_direct id mp :
  byMeComID defaultCANopenSDOMap !! id = Some mp → kind mp ≠ ""%string →
  bridgeTransform defaultCANopenSDOMap !! id = None → unsupported defaultCANopenSDOMap !! id = None →
  direct id (kind mp).
Proof.
  intros Hm Hk Ht Hu.
  assert (Hd : defaultDeviceBridgeParameterTypes !! id = Some (kind mp)).
  { unfold defaultDeviceBridgeParameterTypes. apply map_lookup_filter_Some. split; [|done].
    by apply compat_type_direct. }
  split; [done| |].
  - unfold deviceBridgeLooseFallbackParameter. rewrite Hd. by destruct (deviceBridgeCoSoLooseParameter id).
  - unfold deviceBridgeParameterType. rewrite Hd. cbn [default from_option]. by rewrite bool_decide_false.
Qed.

Context {C : Type} `{DeviceClient C}.

(** What reading a plain numeric parameter is: one call of the client. *)
Lemma single_read_direct_float id instance st (c c' : C) f : direct id DataTypeFloat32 →
  dc_ReadFloat32 id instance c = (c', Ok f) →
  single_read id instance (st, c) =
    (deviceBridgeStoreLiveNumericValue id instance DataTypeFloat32 f st, c', Ok (fmt_float f)).
Proof.
  intros Hd Hr. unfold single_read. rewrite (direct_no_transform id _ TransformVirtualParameter Hd).
  rewrite (direct_loose _ _ Hd), (direct_type _ _ Hd). cbv zeta.
  rewrite (direct_no_transform id _ TransformSynthesizeFloat32FromInt32 Hd).
  change (bool_decide (DataTypeFloat32 = DataTypeInt32)) with false.
  change (bool_decide (DataTypeFloat32 = DataTypeFloat32)) with true. cbn [orb].
  unfold mbind, bridge_bind, on_client, update, mret, bridge_ret. cbn [fst snd]. by rewrite Hr.
Qed.

Lemma single_read_direct_int id instance st (c c' : C) z : direct id DataTypeInt32 →
  dc_ReadInt32 id instance c = (c', Ok z) →
  single_read id instance (st, c) =
    (deviceBridgeStoreLiveNumericValue id instance DataTypeInt32 (of_int z) st, c', Ok (fmt_int z)).
Proof.
  intros Hd Hr. unfold single_read. rewrite (direct_no_transform id _ TransformVirtualParameter Hd).
  rewrite (direct_loose _ _ Hd), (direct_type _ _ Hd). cbv zeta.
  rewrite (direct_no_transform id _ TransformConstantInt32 Hd).
  change (bool_decide (DataTypeInt32 = DataTypeInt32)) with true.
  unfold mbind, bridge_bind, on_client, update, mret, bridge_ret. cbn [fst snd]. rewrite Hr.
  by rewrite (direct_int id DataTypeInt32).
Qed.

(** The read request an ASCII client builds is served by [single_read]. *)
Lemma handle_single_read addr sq id instance w : 0 ≤ addr < 256 → 0 ≤ sq < 65536 →
  0 ≤ id ≤ 0xFFFF → 1 ≤ instance ≤ 0xFF →
  bridge_answer (C:=C) (BuildSingleGetFrame addr sq id instance) w =
    match single_read id instance w with
    | (w', Ok p) => (w', response (request_header addr sq) p)
    | (w', Err e) => (w', response (request_header addr sq) ("-"%byte :: fmtX 2 (nackCodeForError e)))
    end.
Proof.
  intros Ha Hs Hid Hi. unfold bridge_answer, handleDeviceClientFrameWithState, BuildSingleGetFrame.
  rewrite parse_built_request by done. cbn [rq_address rq_seq rq_payload].
  change (fmtX 4 id ++ fmtX 2 instance) with (address_field id instance).
  rewrite ToUpper_app, ToUpper_address_field by lia. change (ToUpper (str "?VR")) with (str "?VR").
  change (deviceBridgePayloadWithState (str "?VR" ++ address_field id instance))
    with (deviceBridgeSingleReadWithState (C:=C) (str "?VR" ++ address_field id instance)).
  unfold deviceBridgeSingleReadWithState.
  pose proof (length_address_field id instance ltac:(lia) ltac:(lia)) as Hl.
  assert (length (str "?VR" ++ address_field id instance) = 9%nat) as ->
    by (rewrite length_app; simpl; lia).
  rewrite (drop_app_length' (str "?VR") _ 3) by done. cbn [Nat.eqb negb].
  rewrite parse_address_field by lia.
  change (isDeviceBridgeInfoProbe (str "?VR" ++ address_field id instance)) with false.
  change (isDeviceBridgeRead (str "?VR" ++ address_field id instance)) with true. cbv [mbind bridge_bind lift].
  assert (Hx : fmtX 2 addr ++ fmtX 4 sq = request_header addr sq)
    by (unfold request_header; by rewrite !fmtX_fix by (simpl; lia)).
  destruct (single_read id instance w) as [w' [p|e]]; rewrite bool_decide_false by done;
    unfold deviceBridgeData, deviceBridgeNACK, response; by rewrite <-Hx, <-app_assoc.
Qed.
End direct.

(** ** From an ASCII tool to a CANopen device *)
Lemma ObjectForMeCom_kind m id instance mp o : byMeComID m !! id = Some mp →
  ObjectForMeCom m id instance = Some o → o_Kind o = kind mp ∧ 1 ≤ instance ≤ 0xFF.
Proof.
  intros Hm Ho. unfold ObjectForMeCom in Ho. rewrite Hm in Ho. cbv zeta in Ho.
  destruct ((instance <=? 0) || (0xff <? instance)) eqn:Hr; [done|].
  apply orb_false_iff in Hr as [Hr1%Z.leb_gt Hr2%Z.ltb_ge].
  split; [|lia]. destruct (subIndexFromInstance mp).
  - destruct (_ || _); [done|]. by injection Ho as <-.
  - destruct (negb _); [done|]. by injection Ho as <-.
Qed.

(** The text of a word, back to the value it stands for. *)
Lemma fmt_word header t w : length header = 6%nat → 0 ≤ w < 2 ^ 32 →
  t = DataTypeFloat32 ∨ t = DataTypeInt32 →
  ParseSingleResponse (response header
    (if bool_decide (t = DataTypeInt32) then fmt_int (to_int (word_value t w)) else fmt_float (word_value t w))) t =
  Ok (word_value t w).
Proof.
  intros Hh Hw [->| ->]; unfold word_value.
  - rewrite !bool_decide_false by done. unfold fmt_float.
    rewrite to_f32_to_f64 by apply Float32frombits_valid.
    rewrite ParseSingleResponse_word by (done || apply u32_range). unfold u32.
    rewrite Z.mod_small by (apply Float32bits_range, Float32frombits_valid).
    unfold word_value. rewrite bool_decide_false by done.
    by rewrite Float32_bits_roundtrip by apply Float32frombits_valid.
  - rewrite !bool_decide_true by done. unfold fmt_int. pose proof (i32_range w).
    rewrite of_int_to_int by lia.
    rewrite ParseSingleResponse_word by (done || apply u32_range). by rewrite word_value_int32.
Qed.

(** One upload that the device answers with a word, amid other traffic. *)
Lemma sdo_read_value dflt cc id instance o ns w rest :
  map_wf (client_map dflt plain_call cc) → 1 ≤ node cc ≤ 127 →
  ObjectForMeCom (client_map dflt plain_call cc) id instance = Some o →
  Forall (noise (node cc) (Index o) (SubIndex o)) ns → 0 ≤ w < 2 ^ 32 →
  events (bus cc) = ns ++ Recv (Ok (upload_answer (node cc) (Index o) (SubIndex o) (le_put 4 w))) :: rest →
  ∃ req, serve_upload (node cc) req = Some (Index o, SubIndex o) ∧
    sdo_readNumeric dflt plain_call id instance cc =
      (MkCANopenClient (node cc) (sdoMap cc) (MkBus rest (sent (bus cc) ++ [req])), Ok (word_value (o_Kind o) w)).
Proof.
  intros Hm Hn Ho Hns Hw Hev. destruct (ObjectForMeCom_range _ id instance o Hm Ho) as [Hi Hs].
  destruct (SDO_requests_read (node cc) (Index o) (SubIndex o) []) as [(req & Hreq & Hserve) _];
    [lia|done|done|done|].
  apply noise_idle in Hns as (_ & Hns & _); [|done]. exists req. split; [done|].
  unfold sdo_readNumeric, canopenSDOObjectForMeCom, sdo_request. rewrite Ho, Hreq.
  cbn [call_sendErr plain_call bus_Send events]. rewrite Hev, recv_loop_idle by done. cbn [recv_loop].
  by rewrite read_accept_value.
Qed.

(** C9: reading through the bridge.  An ASCII client whose requests are answered by
    a bridge over a CANopen client reads the value the CANopen device holds: for a
    numeric parameter with a plain object in the object map, and a device that
    answers the upload of that object amid other traffic, the bridge uploads
    exactly that object, and when its response reaches the ASCII client, however
    it is cut into reads, the client's call returns the device's word decoded at
    the mapped type. *)
Theorem ascii_read_over_CANopen `{BridgeEnv} (c : Client) (st : deviceBridgeState) (cc : CANopenClient)
    (id instance w : Z) (mp : CANopenSDOMapping) (o : CANopenSDOObject) (ns rest : list BusEvent) :
  map_wf defaultCANopenSDOMap → client_map defaultCANopenSDOMap plain_call cc = defaultCANopenSDOMap →
  1 ≤ node cc ≤ 127 → 0 ≤ address c < 256 → 0 ≤ seq c < 65536 → 0 ≤ id ≤ 0xFFFF →
  byMeComID defaultCANopenSDOMap !! id = Some mp → kind mp = DataTypeFloat32 ∨ kind mp = DataTypeInt32 →
  bridgeTransform defaultCANopenSDOMap !! id = None → unsupported defaultCANopenSDOMap !! id = None →
  ObjectForMeCom defaultCANopenSDOMap id instance = Some o →
  Forall (noise (node cc) (Index o) (SubIndex o)) ns → 0 ≤ w < 2 ^ 32 →
  events (bus cc) = ns ++ Recv (Ok (upload_answer (node cc) (Index o) (SubIndex o) (le_put 4 w))) :: rest →
  let frame := BuildSingleGetFrame (address c) (snd (nextSeqLocked c)) id instance in
  ∃ st' req resp, serve_upload (node cc) req = Some (Index o, SubIndex o) ∧
    bridge_answer frame (st, cc) =
      (st', MkCANopenClient (node cc) (sdoMap cc) (MkBus rest (sent (bus cc) ++ [req])), resp) ∧
    ∀ ev crest, incoming (rw c) = ev ++ crest → delivers resp ev →
      readNumeric id instance (kind mp) quiet c = (after c frame crest, Ok (word_value (kind mp) w)).
Proof.
  intros Hwf Hmap Hn Ha Hq Hid Hmp Hk Ht Hu Ho Hns Hw Hev frame.
  destruct (ObjectForMeCom_kind _ _ _ _ _ Hmp Ho) as [Hok Hinst].
  assert (Hd : direct id (kind mp)) by (apply mapped_direct; [done|destruct Hk as [-> | ->]; done|done|done]).
  pose proof (nextSeq_range c Hq) as Hs.
  destruct (sdo_read_value defaultCANopenSDOMap cc id instance o ns w rest) as (req & Hserve & Hread);
    rewrite ?Hmap; try done. rewrite Hok in Hread.
  set (cc' := MkCANopenClient _ _ _) in *.
  set (text := if bool_decide (kind mp = DataTypeInt32) then fmt_int (to_int (word_value (kind mp) w))
               else fmt_float (word_value (kind mp) w)).
  assert (Hsingle : ∃ st', single_read id instance (st, cc) = (st', cc', Ok text)).
  { unfold text. destruct Hk as [Hk|Hk]; rewrite Hk in Hd, Hread |- *; eexists.
    - rewrite bool_decide_false by done. by apply single_read_direct_float.
    - rewrite bool_decide_true by done. apply single_read_direct_int; [done|].
      simpl. unfold CANopenClient_ReadInt32. by rewrite Hread. }
  destruct Hsingle as [st' Hsingle].
  pose proof (length_request_header (address c) (snd (nextSeqLocked c))) as Hh.
  exists st', req, (response (request_header (address c) (snd (nextSeqLocked c))) text).
  split; [done|]. split.
  { unfold frame. rewrite handle_single_read by lia. by rewrite Hsingle. }
  intros ev crest Hin Hdel. erewrite read_delivers; [|lia|lia|exact Hin|exact Hdel|].
  - unfold text. by rewrite fmt_word.
  - apply response_terminated.
    + unfold request_header. rewrite not_elem_of_app. split; apply hex_no_terminator, hex_fix_is_hex.
    + unfold text. destruct (bool_decide _); apply hex_no_terminator; [apply fmt_int_hex|apply fmt_float_hex].
Qed.

(** A bridge over node 5 of the small catalogue. *)
Definition small_env : BridgeEnv := {| defaultCANopenSDOMap := small_map; now := 0 |}.
Definition small_state : deviceBridgeState := MkState (str "bench") [] ∅ ∅ [].
Definition ascii_client (raw : bytes) : Client := MkClient 5 7 (MkConn ((λ b, (Some b, None)) <$> raw) []).

Lemma ascii_read_over_CANopen_witness :
  let frame := BuildSingleGetFrame 5 8 1000 2 in
  ∃ st' req resp, serve_upload 5 req = Some (0x2100, 2) ∧
    @bridge_answer small_env _ (@CANopenClient_DeviceClient small_env) frame
      (small_state, small_client [Recv (Ok (upload_answer 5 0x2100 2 (le_put 4 0x40490fdb)))]) =
      (st', MkCANopenClient 5 (Some small_map) (MkBus [] [req]), resp) ∧
    ∀ ev crest, incoming (rw (ascii_client (str "x"))) = ev ++ crest → delivers resp ev →
      readNumeric 1000 2 DataTypeFloat32 quiet (ascii_client (str "x")) =
        (after (ascii_client (str "x")) frame crest, Ok (word_value DataTypeFloat32 0x40490fdb)).
Proof.
  apply (@ascii_read_over_CANopen small_env (ascii_client (str "x")) small_state
    (small_client [Recv (Ok (upload_answer 5 0x2100 2 (le_put 4 0x40490fdb)))]) 1000 2 0x40490fdb
    (MkMapping 0x2100 DataTypeFloat32 false 1 255 0 0 true) (MkObject 0x2100 2 DataTypeFloat32 false) [] []);
    try (reflexivity || (simpl; lia) || apply small_map_wf || by left).
Defined.

Lemma bridge_answers_requests_witness :
  let raw := BuildSingleGetFrame 5 8 52000 1 in
  let '(w', r) := @deviceBridgePayloadWithState small_env _ VirtualOnly_DeviceClient (str "?VRCB2001")
                    (small_state, VirtualOnly) in
  ∃ resp, @bridge_answer small_env _ VirtualOnly_DeviceClient raw (small_state, VirtualOnly) = (w', resp) ∧
    terminated resp ∧ slice resp 0 7 = "!"%byte :: request_header 5 8 ∧
    parsePayload resp =
      match r with Ok p => Ok p | Err e => Err (nack_error "mecom: nack %02X" (nackCodeForError e)) end.
Proof.
  apply (@bridge_answers_requests small_env _ VirtualOnly_DeviceClient (BuildSingleGetFrame 5 8 52000 1)
    (MkRequest (BuildSingleGetFrame 5 8 52000 1) 5 8 (str "?VRCB2001")) (small_state, VirtualOnly)).
  vm_compute. reflexivity.
Defined.

Lemma bridge_read_only_refused_witness :
  @bridge_answer small_env _ VirtualOnly_DeviceClient
    (appendCRC 5 8 (str "VS" ++ address_field 1000 1 ++ str "00000000")) (small_state, VirtualOnly) =
  (small_state, VirtualOnly, deviceBridgeNACK 5 8 0x06).
Proof.
  apply (@bridge_read_only_refused small_env _ VirtualOnly_DeviceClient 5 8 1000 1 (str "VS") (str "00000000")
    (small_state, VirtualOnly)); try lia; [by left|]. vm_compute. reflexivity.
Defined.
