(* ===== verification/BridgeTypes.v ===== *)
(** * BridgeTypes: the stores of a bridge stay well typed, and survive a restart

    A stored value whose type is not the type its parameter is read with makes
    every later read of the parameter fail.  The type invariant excludes it for
    every sequence of requests, router-local writes and observed frames.  The
    second part is the cache file: what a restarted bridge finds in its store. *)
From stdpp Require Import prelude gmap strings list relations sorting.
From Stdlib Require Import Strings.Byte Floats.SpecFloat.
From S2P Require Import Prelude Text Floats Protocol SdoMap DeviceBridge BridgePayload BridgeLogic BridgeFrames CanClients.
Open Scope Z_scope.

(** ** The type invariant *)
Section types.
Context `{BridgeEnv}.

Definition entry_typed (key : Z * Z) (v : deviceBridgeVirtualParameterValue) : Prop :=
  v_typ v = deviceBridgeParameterType key.1 ∧
  deviceBridgeParameterTypeSupported (v_typ v) = true ∧
  deviceBridgeValidateParameterInstance key.1 key.2 = Ok ().
Definition state_typed (st : deviceBridgeState) : Prop := map_Forall entry_typed (st_softParameters st).

Lemma flush_soft st : st_softParameters (flushCacheBestEffort st) = st_softParameters st.
Proof. unfold flushCacheBestEffort. by destruct (bool_decide _). Qed.

Lemma flush_typed st : state_typed st → state_typed (flushCacheBestEffort st).
Proof. unfold state_typed. by rewrite flush_soft. Qed.

Lemma store_typed id instance v s s' : v_typ v = deviceBridgeParameterType id →
  map_Forall entry_typed s → store_storeParameterValue id instance v s = Ok s' → map_Forall entry_typed s'.
Proof.
  intros Hv Hs Hst. unfold store_storeParameterValue in Hst.
  apply bind_Ok_inv in Hst as ([] & Hi & Hst).
  destruct (deviceBridgeParameterTypeSupported (v_typ v)) eqn:Hsup; [|done]. injection Hst as <-.
  by apply map_Forall_insert_2.
Qed.

Lemma state_store_typed id instance v st : v_typ v = deviceBridgeParameterType id →
  state_typed st → state_typed (state_storeParameterValue id instance v st).1.
Proof.
  intros Hv Hst. unfold state_storeParameterValue. cbv zeta.
  match goal with |- context [store_storeParameterValue id instance ?x] => set (v' := x) end.
  assert (Hv' : v_typ v' = deviceBridgeParameterType id) by (unfold v'; by destruct (_ && _)).
  destruct (store_storeParameterValue id instance v' (st_softParameters st)) as [s|e] eqn:E; [|done].
  pose proof (store_typed _ _ _ _ _ Hv' Hst E) as Hs. cbn [fst].
  destruct (bool_decide _); [done|]. by apply flush_typed.
Qed.

Lemma hex_value_typ id typ valueHex v v' : hex_value id typ valueHex v = Ok v' →
  v_typ v' = v_typ v ∧ deviceBridgeParameterTypeSupported typ = true.
Proof.
  unfold hex_value, deviceBridgeParameterTypeSupported. intros Hv.
  destruct (bool_decide_reflect (typ = DataTypeFloat32)) as [->|].
  { apply bind_Ok_inv in Hv as (bits & _ & [= <-]). done. }
  destruct (bool_decide_reflect (typ = DataTypeInt32)) as [->|].
  { apply bind_Ok_inv in Hv as (bits & _ & [= <-]). done. }
  destruct (bool_decide_reflect (typ = DataTypeLatin1)) as [->|]; [|done].
  apply bind_Ok_inv in Hv as (data & _ & [= <-]). done.
Qed.

Lemma write_typed id instance typ valueHex s s' : typ = deviceBridgeParameterType id →
  map_Forall entry_typed s → store_writeParameter id instance typ valueHex s = Ok s' → map_Forall entry_typed s'.
Proof.
  intros -> Hs Hw. unfold store_writeParameter in Hw.
  apply bind_Ok_inv in Hw as ([] & Hi & Hw). apply bind_Ok_inv in Hw as (v & Hv & Hw).
  apply hex_value_typ in Hv as [Ht Hsup]. injection Hw as <-.
  apply map_Forall_insert_2; [|done]. split; [done|]. cbn [with_source v_typ]. by rewrite Ht.
Qed.

Lemma transform_type id t : map_wf defaultCANopenSDOMap → CANopenBridgeTransform id = Some t →
  stored_type (bt_Type t) = deviceBridgeParameterType (bt_MeComID t).
Proof.
  intros Hwf Ht. destruct (wf_transforms _ Hwf id t Ht) as (_ & Hid & Hd & _). rewrite Hid.
  assert (Hne : bt_Type t ≠ ""%string) by (destruct Hd as [->|[->|[->| ->]]]; done).
  rewrite stored_type_set by done.
  assert (Hl : defaultDeviceBridgeParameterTypes !! id = Some (bt_Type t)).
  { unfold defaultDeviceBridgeParameterTypes. apply map_lookup_filter_Some. split; [|done].
    unfold CompatibilityParameterTypes, drop_unsupported. cbv zeta.
    assert (Ho : omap (λ t, if bool_decide (bt_Type t = ""%string) then None else Some (bt_Type t))
      (bridgeTransform defaultCANopenSDOMap) !! id = Some (bt_Type t)).
    { rewrite lookup_omap. unfold CANopenBridgeTransform in Ht. rewrite Ht. cbn.
      by rewrite bool_decide_false. }
    apply map_lookup_filter_Some. split; [by apply lookup_union_Some_l|]. intros _. simpl. rewrite Ho. eauto. }
  unfold deviceBridgeParameterType. rewrite Hl. cbn [default from_option]. by rewrite bool_decide_false.
Qed.

Lemma observe_typed id instance typ valueHex source live st : stored_type typ = deviceBridgeParameterType id →
  state_typed st → state_typed (deviceBridgeObserveHexValue id instance typ valueHex source live st).
Proof.
  intros Ht Hst. unfold deviceBridgeObserveHexValue. fold (stored_type typ). rewrite Ht. cbv zeta.
  destruct (negb _); [done|].
  assert (Hs : ∀ v, v_typ v = deviceBridgeParameterType id →
    state_typed (state_storeParameterValue id instance v st).1) by (intros; by apply state_store_typed).
  destruct (bool_decide _); [destruct (value_word valueHex); [by apply Hs|done]|].
  destruct (bool_decide _).
  { destruct (value_word valueHex); [|done]. destruct (is_nan _); [done|by apply Hs]. }
  destruct (bool_decide _); [destruct (value_text valueHex); [by apply Hs|done]|done].
Qed.

Lemma observe_self id instance valueHex source live st : state_typed st →
  state_typed (deviceBridgeObserveHexValue id instance (deviceBridgeParameterType id) valueHex source live st).
Proof. apply observe_typed, stored_type_set, ParameterType_set. Qed.

Lemma observe_latin1 id instance valueHex source live st :
  deviceBridgeParameterType id = DataTypeLatin1 → state_typed st →
  state_typed (deviceBridgeObserveHexValue id instance DataTypeLatin1 valueHex source live st).
Proof. intros Ht. rewrite <-Ht. apply observe_self. Qed.
End types.

(** ** Every step of a bridge *)
Section steps.
Context `{BridgeEnv}.

Lemma ObservePayload_typed q r st : state_typed st → state_typed (deviceBridgeObservePayload q r st).
Proof.
  intros Hst. unfold deviceBridgeObservePayload. cbv zeta.
  set (q' := ToUpper (TrimSpace q)). set (r' := ToUpper (TrimSpace r)). clearbody q' r'.
  destruct (HasPrefix q' (str "?VM")).
  { destruct (_ || _); [done|]. destruct (parseDeviceBridgeParameter _) as [[id i]|]; [|done].
    destruct (negb _); [done|by apply observe_self]. }
  destruct (HasPrefix q' (str "?VR")).
  { destruct (_ || _); [done|]. destruct (parseDeviceBridgeParameter _) as [[id i]|]; [|done].
    by apply observe_self. }
  destruct (HasPrefix q' (str "?VX")).
  { destruct (_ <? _)%nat; [done|]. destruct (ParseUint _ _ _) as [n|]; [|done]. cbv zeta.
    destruct (_ || _); [done|]. generalize (seq 0 (Z.to_nat n)). intros l. revert st Hst.
    induction l as [|i l IH]; intros st Hst; [done|]. cbn [fold_left]. apply IH. unfold observe_slot.
    destruct (parseDeviceBridgeParameter _) as [[id inst]|]; [by apply observe_self|done]. }
  destruct (HasPrefix q' (str "?VB")).
  { destruct (negb _); [done|]. destruct (parseDeviceBridgeParameter _) as [[id i]|]; [|done].
    unfold deviceBridgeObserveBigDataReadValue.
    destruct (bool_decide_reflect (deviceBridgeParameterType id = DataTypeLatin1)) as [Ht|]; [|done].
    destruct (_ || _); [done|]. destruct (parseDeviceBridgeHexUint _ _) as [n|]; [|done]. cbv zeta.
    destruct (_ || _); [done|by apply observe_latin1]. }
  destruct (HasPrefix q' (str "VS")).
  { destruct (_ <? _)%nat; [done|]. destruct (parseDeviceBridgeParameter _) as [[id i]|]; [|done].
    by apply observe_self. }
  destruct (HasPrefix q' (str "VB")); [|done].
  destruct (_ <? _)%nat; [done|]. destruct (parseDeviceBridgeParameter _) as [[id i]|]; [|done].
  destruct (bool_decide_reflect (deviceBridgeParameterType id = DataTypeLatin1)) as [Ht|]; [|done].
  cbn [negb]. destruct (parseDeviceBridgeHexUint _ _) as [n|]; [|done]. cbv zeta.
  destruct (negb _); [done|by apply observe_latin1].
Qed.

Lemma ObserveFrame_typed q r st : state_typed st → state_typed (deviceBridgeObserveFrame q r st).
Proof.
  intros Hst. unfold deviceBridgeObserveFrame. destruct (parseDeviceBridgeRequest q) as [req|]; [|done].
  destruct (parseDeviceBridgeResponsePayload req r); [by apply ObservePayload_typed|done].
Qed.

Lemma handle_typed {C} `{DeviceClient C} raw w : map_wf defaultCANopenSDOMap → state_typed w.1 →
  state_typed (handleDeviceClientFrameWithState (C:=C) raw w).1.1.
Proof.
  intros Hwf Hst. unfold handleDeviceClientFrameWithState.
  destruct (parseDeviceBridgeRequest raw) as [req|]; [|done].
  assert (Hk : ensures (C:=C) state_typed wire_text (deviceBridgePayloadWithState (rq_payload req))).
  { apply (deviceBridgePayload_kept _ (λ id typ, typ = deviceBridgeParameterType id)); try done.
    - intros. by apply state_store_typed.
    - intros. by eapply write_typed.
    - apply flush_typed.
    - intros. by eapply transform_type. }
  destruct (Hk w Hst) as [Hst' _].
  by destruct (deviceBridgePayloadWithState (rq_payload req) w) as [w' [p|e]].
Qed.

(** What happens to a bridge: it answers a frame, the router answers a write for
    it, it learns from a frame that passed, and its device does anything. *)
Inductive bridge_step {C} `{DeviceClient C} : deviceBridgeState * C → deviceBridgeState * C → Prop :=
  | step_answer raw w : bridge_step w (bridge_answer raw w).1
  | step_local raw st st' resp c :
      handleDeviceBridgeRouterLocalFrame raw st = Some (st', resp) → bridge_step (st, c) (st', c)
  | step_observe requestFrame responseFrame st c :
      bridge_step (st, c) (deviceBridgeObserveFrame requestFrame responseFrame st, c)
  | step_device st c c' : bridge_step (st, c) (st, c').

Lemma bridge_step_typed {C} `{DeviceClient C} (w w' : deviceBridgeState * C) :
  map_wf defaultCANopenSDOMap → bridge_step w w' → state_typed w.1 → state_typed w'.1.
Proof.
  intros Hwf Hstep Hst. destruct Hstep as [raw w|raw st st' resp c Hl|q r st c|st c c']; cbn [fst] in *.
  - pose proof (handle_typed raw w Hwf Hst). unfold bridge_answer.
    by destruct (handleDeviceClientFrameWithState raw w).
  - unfold handleDeviceBridgeRouterLocalFrame in Hl. destruct (parseDeviceBridgeRequest raw); [|done].
    destruct (negb _); [done|]. pose proof (handle_typed raw (st, VirtualOnly) Hwf Hst) as Ht.
    destruct (handleDeviceClientFrameWithState raw (st, VirtualOnly)) as [[st'' c'] resp'].
    by injection Hl as <- <-.
  - by apply ObserveFrame_typed.
  - done.
Qed.

Lemma lookup_typed id instance st : state_typed st →
  deviceBridgeParameterTypeSupported (deviceBridgeParameterType id) = true →
  deviceBridgeValidateParameterInstance id instance = Ok () →
  store_lookupParameter id instance (deviceBridgeParameterType id) (st_softParameters st) =
    Ok (st_softParameters st !! (id, instance)).
Proof.
  intros Hst Hsup Hi. unfold store_lookupParameter. rewrite Hi, Hsup. cbn [mbind result_bind negb].
  destruct (st_softParameters st !! (id, instance)) as [v|] eqn:E; [|done].
  destruct (Hst _ _ E) as [Ht _]. cbn [fst] in Ht. rewrite (bool_decide_true (v_typ v = deviceBridgeParameterType id)) by done.
  by rewrite andb_false_r.
Qed.
End steps.

(** C22: the stores are well typed.  Start a bridge without a cache file and let it
    answer any frames, let the router answer writes for it, let it learn from any
    frames that pass, and let its device do anything meanwhile.  Then every value
    in its store has the type the object map declares for its parameter and a
    valid instance; so looking up a readable parameter never fails with a type
    mismatch: it gives what the store holds. *)
Theorem bridge_stores_typed `{BridgeEnv} {C} `{DeviceClient C} (dir device : bytes) (c c' : C)
    (st : deviceBridgeState) (id instance : Z) :
  map_wf defaultCANopenSDOMap →
  rtc bridge_step (newDeviceBridgeState dir None device, c) (st, c') →
  state_typed st ∧
  (deviceBridgeParameterTypeSupported (deviceBridgeParameterType id) = true →
   deviceBridgeValidateParameterInstance id instance = Ok () →
   store_lookupParameter id instance (deviceBridgeParameterType id) (st_softParameters st) =
     Ok (st_softParameters st !! (id, instance))).
Proof.
  intros Hwf Hsteps.
  assert (Hgo : ∀ w w' : deviceBridgeState * C, rtc bridge_step w w' → state_typed w.1 → state_typed w'.1).
  { induction 1 as [w|w1 w2 w3 Hstep _ IH]; [done|]. intros Hw. by apply IH, (bridge_step_typed w1 w2). }
  assert (Hst : state_typed st); [|split; [done|by apply lookup_typed]].
  apply (Hgo _ _ Hsteps). cbn [fst]. unfold newDeviceBridgeState, loadCacheBestEffort. cbv zeta.
  destruct (bool_decide _); apply map_Forall_empty.
Qed.

#[local] Instance small : BridgeEnv := small_env.

(** A loose integer parameter is observed and looked up. *)
Lemma bridge_stores_typed_witness :
  let st := deviceBridgeObserveFrame (BuildSingleGetFrame 5 8 52000 1)
              (response (request_header 5 8) (str "0000002A")) (newDeviceBridgeState [] None (str "bench")) in
  state_typed st ∧
  (deviceBridgeParameterTypeSupported (deviceBridgeParameterType 52000) = true →
   deviceBridgeValidateParameterInstance 52000 1 = Ok () →
   store_lookupParameter 52000 1 (deviceBridgeParameterType 52000) (st_softParameters st) =
     Ok (st_softParameters st !! (52000, 1))).
Proof.
  intros st.
  apply (bridge_stores_typed (C:=deviceBridgeVirtualOnlyClient) [] (str "bench") VirtualOnly VirtualOnly).
  - apply small_map_wf.
  - apply rtc_once. unfold st. apply step_observe.
Defined.
