(* ===== verification/BridgeCache.v ===== *)
(** * BridgeCache: the cache file of a bridge across a restart

    A bridge writes its store as a JSON document and a new bridge loads it.  The
    document keeps every value except floats JSON has no text for; it does not
    keep the bytes of a LATIN1 text outside ASCII. *)
From stdpp Require Import prelude gmap strings list sorting.
From Stdlib Require Import Strings.Byte Floats.SpecFloat.
From S2P Require Import Prelude Text Floats Protocol SdoMap CanClients DeviceBridge BridgePayload BridgeLogic BridgeFrames BridgeTypes.
Open Scope Z_scope.

(** ** One value *)

(** A value as the bridge builds it: its source is known, and of the three value
    fields only that of its type is set. *)
Definition only_field (v : deviceBridgeVirtualParameterValue) : deviceBridgeVirtualParameterValue :=
  with_source (v_source v) (v_liveRefresh v) (v_updatedAt v)
    (if bool_decide (v_typ v = DataTypeInt32) then with_int (v_int v) (zero_value (v_typ v) "")
     else if bool_decide (v_typ v = DataTypeFloat32) then with_float (v_float v) (zero_value (v_typ v) "")
     else with_latin1 (v_latin1 v) (zero_value (v_typ v) "")).
Definition known_source (v : deviceBridgeVirtualParameterValue) : Prop :=
  v_source v ≠ CacheSourcePlaceholder ∧ v_source v ≠ ""%string.
Definition ascii (l : bytes) : Prop := Forall (λ b, bz b < 0x80) l.

Definition in_json (v : deviceBridgeVirtualParameterValue) : bool :=
  negb (bool_decide (v_typ v = DataTypeFloat32) && (is_nan (v_float v) || is_inf (v_float v))).

Lemma json_ascii l : ascii l → json_string l = l.
Proof.
  induction 1 as [|b l Hb _ IH]; [done|]. unfold json_string in *. cbn [runes].
  rewrite (proj2 (Z.ltb_lt _ _) Hb). cbn [mbind list_bind]. unfold utf8 at 1.
  rewrite (proj2 (Z.ltb_lt _ _) Hb), zb_bz. cbn [app]. f_equal. exact IH.
Qed.

Definition json_parameter (p : deviceBridgeCacheParameterSnapshot) : deviceBridgeCacheParameterSnapshot :=
  MkParameterSnapshot (ps_ID p) (ps_Instance p) (ps_Type p) (ps_Source p) (ps_LiveRefresh p)
    (ps_UpdatedAt p) (ps_Int32 p) (ps_Float32 p) (json_string (ps_Latin1 p)).

Lemma cached_sourced p : ps_Source p ≠ CacheSourcePlaceholder → ps_Source p ≠ ""%string →
  cached_value p =
    let v := MkValue (ps_Type p) (S754_zero false) 0 [] (ps_Source p) (ps_LiveRefresh p) (ps_UpdatedAt p) in
    if bool_decide (ps_Type p = DataTypeInt32) then z ← ps_Int32 p; Some (with_int z v)
    else if bool_decide (ps_Type p = DataTypeFloat32) then
      f ← ps_Float32 p; if is_nan f || is_inf f then None else Some (with_float f v)
    else if bool_decide (ps_Type p = DataTypeLatin1) then Some (with_latin1 (ps_Latin1 p) v)
    else None.
Proof.
  intros Hp He. unfold cached_value. cbv zeta.
  rewrite (bool_decide_false (ps_Source p = CacheSourcePlaceholder)) by done.
  by rewrite (bool_decide_false (ps_Source p = ""%string)) by done.
Qed.

(** What the document says of a value is read back. *)
Lemma entry_reloaded id instance v : deviceBridgeParameterTypeSupported (v_typ v) = true →
  known_source v → ascii (v_latin1 v) →
  match snapshot_entry (id, instance, v) with
  | Some p => in_json v = true ∧ ps_ID p = id ∧ ps_Instance p = instance ∧
              cached_value (json_parameter p) = Some (only_field v)
  | None => in_json v = false
  end.
Proof.
  intros Hsup [Hp He] Ha. unfold snapshot_entry, in_json, deviceBridgeParameterTypeSupported in *.
  destruct v as [typ f z l src live t]. cbn [v_typ v_float v_int v_latin1 v_source] in *.
  assert (Ht : typ = DataTypeInt32 ∨ typ = DataTypeFloat32 ∨ typ = DataTypeLatin1).
  { apply orb_true_iff in Hsup as [[?%bool_decide_eq_true|?%bool_decide_eq_true]%orb_true_iff|?%bool_decide_eq_true]; auto. }
  destruct Ht as [->|[->| ->]].
  - split; [reflexivity|]. do 2 (split; [reflexivity|]). by rewrite cached_sourced.
  - change (snapshot_entry (id, instance, MkValue DataTypeFloat32 f z l src live t)) with
      (if is_nan f || is_inf f then None
       else Some (MkParameterSnapshot id instance DataTypeFloat32 src live t None (Some f) [])).
    change (bool_decide (DataTypeFloat32 = DataTypeFloat32)) with true.
    destruct (is_nan f || is_inf f) eqn:E; [reflexivity|].
    split; [reflexivity|]. do 2 (split; [reflexivity|]). rewrite cached_sourced by done.
    cbn -[is_nan is_inf bool_decide]. change (bool_decide (DataTypeFloat32 = DataTypeInt32)) with false.
    change (bool_decide (DataTypeFloat32 = DataTypeFloat32)) with true. by rewrite E.
  - split; [reflexivity|]. do 2 (split; [reflexivity|]). rewrite cached_sourced by done.
    cbn -[bool_decide json_string]. by rewrite json_ascii.
Qed.

(** ** The whole store *)
Section reload.
Context `{BridgeEnv}.

Definition entry_kept (key : Z * Z) (v : deviceBridgeVirtualParameterValue) : Prop :=
  deviceBridgeParameterTypeSupported (v_typ v) = true ∧
  deviceBridgeValidateParameterInstance key.1 key.2 = Ok () ∧
  known_source v ∧ ascii (v_latin1 v) ∧ only_field v = v.

Definition load_entry (s : Store) (e : Z * Z * deviceBridgeVirtualParameterValue) : Store :=
  match snapshot_entry e with Some p => load_parameter s (json_parameter p) | None => s end.

Lemma load_entries es s :
  fold_left load_parameter (json_parameter <$> omap snapshot_entry es) s = fold_left load_entry es s.
Proof.
  revert s. induction es as [|e es IH]; intros s; [done|]. cbn [omap list_omap fold_left].
  unfold load_entry at 2. destruct (snapshot_entry e) as [p|]; cbn; apply IH.
Qed.

Lemma load_entry_kept s key v : entry_kept key v →
  load_entry s (key, v) = if in_json v then <[key := v]> s else s.
Proof.
  intros (Hsup & Hi & Hk & Ha & Ho). destruct key as [id instance]. cbn [fst snd] in *. unfold load_entry.
  pose proof (entry_reloaded id instance v Hsup Hk Ha) as Hr.
  destruct (snapshot_entry (id, instance, v)) as [p|]; [|by rewrite Hr].
  destruct Hr as (-> & Hid & Hinst & Hc). unfold load_parameter. rewrite Hc, Ho.
  unfold store_storeParameterValue. cbn [json_parameter ps_ID ps_Instance]. rewrite Hid, Hinst, Hi, Hsup.
  done.
Qed.

Lemma load_lookup es s key : Forall (λ e, entry_kept e.1 e.2) es → NoDup es.*1 →
  fold_left load_entry es s !! key =
    match (list_to_map es : Store) !! key with
    | Some v => if in_json v then Some v else s !! key
    | None => s !! key
    end.
Proof.
  intros Hk. revert s. induction Hk as [|[k v] es Hkv Hes IH]; intros s Hnd; [done|].
  cbn [fold_left fmap list_fmap list_to_map foldr] in *. apply NoDup_cons in Hnd as [Hk Hnd]. cbn [fst snd] in *.
  rewrite load_entry_kept, IH by done. destruct (decide (k = key)) as [->|Hne].
  - rewrite (not_elem_of_list_to_map_1 es key) by done. rewrite lookup_insert_eq.
    destruct (in_json v); [by rewrite lookup_insert_eq|done].
  - rewrite (lookup_insert_ne (list_to_map es)) by done.
    assert (Hs : (if in_json v then <[k:=v]> s else s) !! key = s !! key)
      by (destruct (in_json v); [by rewrite lookup_insert_ne|done]).
    by rewrite Hs.
Qed.
End reload.

(** The cache file restores the store.  When a bridge whose values are as the
    bridge builds them (a declared type, a valid instance, a known source, LATIN1
    texts in ASCII) has written its document, a new bridge that loads it has
    exactly the same values, except the floats that JSON cannot carry, which are
    gone. *)
Theorem cache_restores_store `{BridgeEnv} (st fresh : deviceBridgeState) :
  map_Forall entry_kept (st_softParameters st) →
  st_cachePath fresh ≠ [] → st_softParameters fresh = ∅ →
  st_softParameters (loadCacheBestEffort (Some (json_document (state_snapshot st))) fresh) =
    filter (λ kv, in_json kv.2 = true) (st_softParameters st).
Proof.
  intros Hk Hpath Hf. unfold loadCacheBestEffort. rewrite bool_decide_false by done.
  cbn [with_soft st_softParameters json_document state_snapshot sn_Parameters]. rewrite Hf.
  rewrite (load_entries (merge_sort key_before (map_to_list (st_softParameters st)))).
  set (es := merge_sort key_before (map_to_list (st_softParameters st))).
  assert (Hp : es ≡ₚ map_to_list (st_softParameters st)) by apply merge_sort_Permutation.
  assert (Hnd : NoDup es.*1) by (rewrite Hp; apply NoDup_fst_map_to_list).
  apply map_eq. intros key. rewrite load_lookup; [|rewrite Hp; apply Forall_forall; intros [k v] Hin%elem_of_map_to_list; by apply Hk|done].
  rewrite (list_to_map_proper _ _ Hnd Hp), list_to_map_to_list, lookup_empty, map_lookup_filter.
  destruct (st_softParameters st !! key) as [v|] eqn:E; cbn; [|done].
  destruct (in_json v) eqn:Ej; [by rewrite option_guard_True|by rewrite option_guard_False].
Qed.

#[local] Instance small : BridgeEnv := small_env.
Definition value_42 : deviceBridgeVirtualParameterValue :=
  with_source CacheSourceDownstream true (Some 0) (with_int 42 (zero_value DataTypeInt32 "")).
Definition value_inf : deviceBridgeVirtualParameterValue :=
  with_source CacheSourceLocal false (Some 0) (with_float (S754_infinity false) (zero_value DataTypeFloat32 "")).
Definition two_values : deviceBridgeState :=
  MkState (str "bench") (str "/cache/bench.json") ∅ {[(52000, 1) := value_42; (1000, 1) := value_inf]} [].

Lemma cache_restores_store_witness :
  st_softParameters (loadCacheBestEffort (Some (json_document (state_snapshot two_values)))
    (MkState (str "bench") (str "/cache/bench.json") ∅ ∅ [])) =
  filter (λ kv, in_json kv.2 = true) {[(52000, 1) := value_42; (1000, 1) := value_inf]}.
Proof.
  apply (cache_restores_store two_values (MkState (str "bench") (str "/cache/bench.json") ∅ ∅ [])); [|done|done].
  apply map_Forall_insert_2; [|apply map_Forall_singleton];
    (split; [vm_compute; reflexivity|]; split; [vm_compute; reflexivity|]; repeat split;
       try (apply Forall_nil; exact Logic.I); vm_compute; congruence).
Defined.

(** The text of a LATIN1 parameter, "é" (0xE9), is cached, and is another text after
    a restart: the document holds U+FFFD in its place. *)
Definition latin1_state : deviceBridgeState :=
  deviceBridgeObserveHexValue 6024 1 DataTypeLatin1 (str "E9") CacheSourceLocal false
    (MkState (str "bench") (str "/cache/bench.json") ∅ ∅ []).
Lemma cache_garbles_latin1 :
  v_latin1 <$> (st_softParameters latin1_state !! (6024, 1)) = Some [xe9] ∧
  v_latin1 <$> (st_softParameters (loadCacheBestEffort (json_document <$> head (st_flushed latin1_state))
     (MkState (str "bench") (str "/cache/bench.json") ∅ ∅ [])) !! (6024, 1)) = Some [xef; xbf; xbd].
Proof. vm_compute. split; reflexivity. Qed.
