(* ===== verification/BridgeBulk.v ===== *)
(** * BridgeBulk: a bulk read of the bridge against single reads

    A bulk read asks the device for all parameters at once; when that fails it
    falls back to the parameters one by one, which is what single reads do. *)
From stdpp Require Import prelude gmap strings list.
From Stdlib Require Import Strings.Byte Floats.SpecFloat.
From S2P Require Import Prelude Text Floats Crc Broker Protocol Client RingReader Readout SdoMap CanFrame CanClients DeviceBridge BridgePayload BridgeLogic BridgeFrames.
Open Scope Z_scope.

(** ** The request *)
Section request.
Context `{BridgeEnv}.

(** A parameter a bulk read takes from the device: it has a plain object, a numeric
    type, and no live metadata. *)
Record bulk_direct (p : Param) : Prop := MkBulkDirect {
  bd_id : 0 ≤ ID p ≤ 0xFFFF;
  bd_instance : 1 ≤ Inst p ≤ 0xFF;
  bd_param : p = bulk_param (ID p) (Inst p) (Type_ p);
  bd_numeric : Type_ p = DataTypeFloat32 ∨ Type_ p = DataTypeInt32;
  bd_direct : direct (ID p) (Type_ p);
  bd_live : deviceBridgeMetadataLiveActualParameter (ID p) = false }.

Definition fields (params : list Param) : bytes := p ← params; address_field (ID p) (Inst p).

Lemma length_fields params : Forall bulk_direct params → length (fields params) = (6 * length params)%nat.
Proof.
  induction 1 as [|p params Hp _ IH]; [done|]. cbn [fields mbind list_bind].
  change (p ← params; address_field (ID p) (Inst p)) with (fields params).
  rewrite length_app, IH. destruct Hp. rewrite length_address_field by lia. simpl. lia.
Qed.

Lemma ToUpper_fields params : Forall bulk_direct params → ToUpper (fields params) = fields params.
Proof.
  induction 1 as [|p params Hp _ IH]; [done|]. cbn [fields mbind list_bind].
  change (p ← params; address_field (ID p) (Inst p)) with (fields params).
  destruct Hp. by rewrite ToUpper_app, ToUpper_address_field, IH by lia.
Qed.

Lemma bulk_request_direct payload i p : bulk_direct p →
  slice payload (5 + i * 6) (11 + i * 6) = address_field (ID p) (Inst p) →
  bulk_request payload i = Ok (p, false).
Proof.
  intros [Hid Hi Hp Hn Hd _] Hs. unfold bulk_request. rewrite Hs, parse_address_field by lia.
  cbn [mbind result_bind]. rewrite (direct_loose _ _ Hd), (direct_type _ _ Hd). cbn [andb].
  assert (deviceBridgeParameterTypeSupported (Type_ p) = true) as -> by (by destruct Hn as [-> | ->]).
  cbn [negb]. by rewrite <-Hp.
Qed.

Lemma bulk_requests pre params k : Forall bulk_direct params → length pre = (5 + 6 * k)%nat →
  mapM (bulk_request (pre ++ fields params)) (List.seq k (length params)) = Ok ((λ p, (p, false)) <$> params).
Proof.
  intros Hps. revert pre k. induction Hps as [|p params Hp Hps IH]; intros pre k Hpre; [done|].
  cbn [length List.seq mapM]. cbn [fields mbind list_bind].
  change (p ← params; address_field (ID p) (Inst p)) with (fields params).
  pose proof (length_address_field (ID p) (Inst p)) as Hl. pose proof Hp as [Hid Hi _ _ _ _].
  specialize (Hl ltac:(lia) ltac:(lia)).
  rewrite (bulk_request_direct _ k p Hp); cycle 1.
  { rewrite slice_after by lia. rewrite Hpre. replace (5 + k * 6 - (5 + 6 * k))%nat with 0%nat by lia.
    apply slice_head. lia. }
  cbn [mbind result_bind]. rewrite app_assoc, IH by (rewrite length_app; lia). done.
Qed.
End request.

(** ** One value

    What a single read of a parameter gives: the value and its text, or nothing when
    the device refuses.  A bulk read has eight zeros in the place of nothing. *)
Definition read_outcome : Type := option (f64 * bytes).
Definition zero_text : bytes := str "00000000".
Definition outcome_text (o : read_outcome) : bytes := match o with Some (_, t) => t | None => zero_text end.
Definition outcome_data (o : read_outcome) : option bytes := match o with Some (_, t) => Some t | None => None end.
Definition slot_value (o : read_outcome) : f64 * bool := match o with Some (f, _) => (f, true) | None => (S754_zero false, false) end.
(** A text of a response that is a value and not a NACK. *)
Definition data_text (t : bytes) : Prop := head t ≠ Some "-"%byte ∧ length t = 8%nat.

Lemma data_hex t : hex_text t → length t = 8%nat → data_text t.
Proof.
  intros Ht Hl. split; [|done]. destruct t as [|b t]; [done|]. apply Forall_cons in Ht as [Hb _]. intros [= ->]. by vm_compute in Hb.
Qed.
Lemma fmt_int_data z : data_text (fmt_int z).
Proof. apply data_hex; [apply fmt_int_hex|]. unfold fmt_int. rewrite fmtX_fix by (lia || apply u32_range). apply length_hex_fix. Qed.
Lemma fmt_float_data f : data_text (fmt_float f).
Proof. apply data_hex; [apply fmt_float_hex|]. unfold fmt_float. rewrite fmtX_fix by (lia || apply u32_range). apply length_hex_fix. Qed.

Section values.
Context `{BridgeEnv} {C : Type} `{DeviceClient C}.
(** [ReadInt32] returns a Go [int32]. *)
Context (int32_results : ∀ id instance (c c' : C) z, dc_ReadInt32 id instance c = (c', Ok z) → - 2 ^ 31 ≤ z < 2 ^ 31).

Definition store_slot (st : deviceBridgeState) (po : Param * read_outcome) : deviceBridgeState :=
  match po.2 with Some (f, _) => deviceBridgeStoreLiveNumericValue (ID po.1) (Inst po.1) (Type_ po.1) f st | None => st end.
Definition single_result (o : read_outcome) (r : res bytes) : Prop :=
  match o with Some (_, t) => r = Ok t ∧ data_text t | None => ∃ e, r = Err e end.

(** A single read is a read of the client, a store and a text. *)
Lemma single_read_parts p st (c : C) : bulk_direct p →
  ∃ o c' r, single_read (ID p) (Inst p) (st, c) = (store_slot st (p, o), c', r) ∧ single_result o r ∧
    (∀ st0, deviceBridgeBulkReadSingleFallback p (st0, c) = (st0, c', Ok (fst <$> o))) ∧
    ∀ st0 (c0 : C), bulk_encode (p, slot_value o) (st0, c0) = (store_slot st0 (p, o), c0, Ok (outcome_text o)).
Proof using int32_results.
  intros [Hid Hi Hp Hn Hd _]. unfold store_slot. cbn [fst snd].
  destruct Hn as [Ht|Ht]; rewrite Ht in *; unfold deviceBridgeBulkReadSingleFallback, bulk_encode, slot_value; rewrite Ht.
  - change (bool_decide (DataTypeFloat32 = DataTypeInt32)) with false. change (bool_decide (DataTypeFloat32 = DataTypeFloat32)) with true.
    unfold mbind, bridge_bind, attempt, on_client. cbn [orb fst snd].
    destruct (dc_ReadFloat32 (ID p) (Inst p) c) as [c' [f|e]] eqn:E.
    + exists (Some (f, fmt_float f)), c', (Ok (fmt_float f)). rewrite (single_read_direct_float _ _ _ _ _ _ Hd E).
      split_and!; [done|split; [done|apply fmt_float_data]|done|done].
    + exists None, c', (Err e). split_and!; [|by exists e|done|done].
      unfold single_read. rewrite (direct_no_transform _ _ TransformVirtualParameter Hd).
      rewrite (direct_loose _ _ Hd), (direct_type _ _ Hd). cbv zeta.
      rewrite (direct_no_transform _ _ TransformSynthesizeFloat32FromInt32 Hd).
      change (bool_decide (DataTypeFloat32 = DataTypeInt32)) with false. change (bool_decide (DataTypeFloat32 = DataTypeFloat32)) with true.
      cbn [orb]. unfold mbind, bridge_bind, on_client. cbn [fst snd]. by rewrite E.
  - change (bool_decide (DataTypeInt32 = DataTypeInt32)) with true. unfold mbind, bridge_bind, attempt, on_client. cbn [fst snd].
    destruct (dc_ReadInt32 (ID p) (Inst p) c) as [c' [z|e]] eqn:E.
    + exists (Some (of_int z, fmt_int z)), c', (Ok (fmt_int z)). rewrite (single_read_direct_int _ _ _ _ _ _ Hd E).
      split_and!; [done|split; [done|apply fmt_int_data]|done|]. intros st0 c0. apply int32_results in E as Hz.
      rewrite of_int_not_nan, of_int_to_int by lia. rewrite (direct_int _ _ _ Hd). by rewrite i32_id.
    + exists None, c', (Err e). split_and!; [|by exists e|done|].
      * unfold single_read. rewrite (direct_no_transform _ _ TransformVirtualParameter Hd).
        rewrite (direct_loose _ _ Hd), (direct_type _ _ Hd). cbv zeta.
        rewrite (direct_no_transform _ _ TransformConstantInt32 Hd). change (bool_decide (DataTypeInt32 = DataTypeInt32)) with true.
        unfold mbind, bridge_bind, on_client. cbn [fst snd]. by rewrite E.
      * intros st0 c0. cbn [is_nan]. by rewrite (direct_int _ _ _ Hd).
Qed.
End values.

(** ** One after another *)
Section chain.
Context `{BridgeEnv} {C : Type} `{DeviceClient C}.
Context (int32_results : ∀ id instance (c c' : C) z, dc_ReadInt32 id instance c = (c', Ok z) → - 2 ^ 31 ≤ z < 2 ^ 31).

(** The results of single reads, each in the world the one before has left. *)
Fixpoint single_reads (params : list Param) (w : deviceBridgeState * C) : deviceBridgeState * C * list (res bytes) :=
  match params with
  | [] => (w, [])
  | p :: params =>
      let '(w, r) := single_read (ID p) (Inst p) w in
      let '(w, rs) := single_reads params w in (w, r :: rs)
  end.
Definition slot_values (os : list read_outcome) : list (f64 * bool) := slot_value <$> os.

Lemma run_bind {A B} (m : bridge C A) (k : A → bridge C B) w w1 a : m w = (w1, Ok a) → (m ≫= k) w = k a w1.
Proof using. intros Hm. unfold mbind, bridge_bind. by rewrite Hm. Qed.

Lemma single_reads_parts params st (c : C) : Forall bulk_direct params →
  ∃ os c' rs, single_reads params (st, c) = (fold_left store_slot (zip params os) st, c', rs) ∧ length os = length params ∧
    Forall2 single_result os rs ∧
    (∀ st0, traverse (λ p, o ← deviceBridgeBulkReadSingleFallback p;
               mret (M:=bridge C) (match o with Some f => (f, true) | None => (S754_zero false, false) end))
              params (st0, c) = (st0, c', Ok (slot_values os))) ∧
    ∀ st0 (c0 : C), traverse bulk_encode (zip params (slot_values os)) (st0, c0) =
      (fold_left store_slot (zip params os) st0, c0, Ok (outcome_text <$> os)).
Proof using int32_results.
  intros Hps. revert st c. induction Hps as [|p params Hp _ IH]; intros st c.
  - exists [], c, []. by split_and!.
  - cbn [single_reads]. destruct (single_read_parts int32_results p st c Hp) as (o & c1 & r & E & Hr & Hf & He). rewrite E.
    destruct (IH (store_slot st (p, o)) c1) as (os & c2 & rs & E2 & Hl & Hrs & Hfs & Hes). rewrite E2.
    exists (o :: os), c2, (r :: rs). split_and!; [done|simpl; by rewrite Hl|by constructor| |].
    + intros st0. cbn [traverse]. rewrite (run_bind _ _ _ (st0, c1) (slot_value o)); [by rewrite (run_bind _ _ _ _ _ (Hfs st0))|].
      rewrite (run_bind _ _ _ _ _ (Hf st0)). by destruct o as [[f t]|].
    + intros st0 c0. cbn [slot_values fmap list_fmap zip_with traverse].
      rewrite (run_bind _ _ _ _ _ (He st0 c0)).
      by rewrite (run_bind _ _ _ _ _ (Hes (store_slot st0 (p, o)) c0)).
Qed.

Lemma local_downstream p : bulk_direct p → ∀ w, bulk_local (C:=C) (p, false) w = (w, Ok Downstream).
Proof using.
  intros [_ _ _ _ Hd Hl] w. unfold bulk_local.
  rewrite (direct_no_transform _ _ TransformVirtualParameter Hd), (direct_loose _ _ Hd).
  rewrite (direct_no_transform _ _ TransformConstantInt32 Hd).
  by rewrite (direct_no_transform _ _ TransformSynthesizeFloat32FromInt32 Hd), Hl.
Qed.

Lemma locals_downstream params w : Forall bulk_direct params →
  traverse (bulk_local (C:=C)) ((λ p, (p, false)) <$> params) w = (w, Ok ((λ _, Downstream) <$> params)).
Proof using.
  induction 1 as [|p params Hp _ IH]; [done|]. cbn [fmap list_fmap traverse].
  rewrite (run_bind _ _ _ _ _ (local_downstream p Hp w)). by rewrite (run_bind _ _ _ _ _ IH).
Qed.

Lemma downstream_all params : downstream_params params ((λ _, Downstream) <$> params) = params.
Proof using. induction params as [|p params IH]; [done|]. exact (f_equal (cons p) IH). Qed.
Lemma fill_all params values : length values = length params →
  fill_slots ((λ _ : Param, Downstream) <$> params) values = values.
Proof using.
  revert values. induction params as [|p params IH]; intros [|v values] Hl; try done. cbn. f_equal. apply IH. by injection Hl.
Qed.

(** A bulk read of the device that gives no value for each parameter. *)
Definition bulk_fails (params : list Param) (r : res (list f64)) : Prop :=
  match r with Ok values => length values ≠ length params | Err _ => True end.

(** The handler on the request a client builds. *)
Lemma bulk_handler params (st : deviceBridgeState) (c c1 : C) r : Forall bulk_direct params → params ≠ [] →
  (length params ≤ 255)%nat → rd_ReadBulk params c = (c1, r) → bulk_fails params r →
  ∃ os w rs, single_reads params (st, c1) = (w, rs) ∧ Forall2 single_result os rs ∧
    deviceBridgeBulkReadWithState (str "?VX" ++ fmtX 2 (Z.of_nat (length params)) ++ fields params) (st, c) =
      (w, Ok (concat (outcome_text <$> os))).
Proof using int32_results.
  intros Hps Hne Hn Hb Hfail. destruct (single_reads_parts params st c1 Hps) as (os & c' & rs & Hs & Hl & Hrs & Hf & He).
  exists os, (fold_left store_slot (zip params os) st, c'), rs. split; [done|]. split; [done|].
  set (count := fmtX 2 (Z.of_nat (length params))).
  assert (Hc : count = hex_fix 2 (Z.of_nat (length params))) by (apply fmtX_fix; simpl; lia).
  assert (Hcl : length count = 2%nat) by (rewrite Hc; apply length_hex_fix).
  assert (Hlen : length (str "?VX" ++ count ++ fields params) = (5 + 6 * length params)%nat).
  { rewrite !length_app, Hcl, (length_fields _ Hps). simpl. lia. }
  unfold deviceBridgeBulkReadWithState. rewrite Hlen.
  replace (5 + 6 * length params <? 5)%nat with false by (symmetry; apply Nat.ltb_ge; lia).
  replace (slice (str "?VX" ++ count ++ fields params) 3 5) with count; cycle 1.
  { rewrite slice_after by (simpl; lia). symmetry. change (length (str "?VX")) with 3%nat. cbn [Nat.sub].
    apply slice_head. lia. }
  rewrite Hc, ParseUint_hex_fix by (simpl; lia).
  replace (5 + 6 * length params - 5)%nat with (length params * 6)%nat by lia.
  rewrite Nat.Div0.mod_mul, Nat.div_mul by lia. cbn [Nat.eqb negb].
  rewrite <-Hc, app_assoc, (bulk_requests _ _ 0 Hps) by (rewrite length_app, Hcl; simpl; lia).
  rewrite (run_bind _ _ _ (st, c) _ eq_refl). cbv zeta.
  rewrite <-list_fmap_compose. replace ((fst ∘ (λ p, (p, false))) <$> params) with params
    by (symmetry; apply (list_fmap_id params)).
  rewrite (run_bind _ _ _ _ _ (locals_downstream params (st, c) Hps)).
  rewrite downstream_all.
  rewrite (run_bind _ _ _ (st, c') (slot_values os)); cycle 1.
  { unfold bulk_downstream. destruct params as [|p params']; [done|]. rewrite <-(Hf st).
    rewrite (run_bind _ _ _ (st, c1) r); [|unfold attempt, on_client; cbn [fst snd]; by rewrite Hb].
    destruct r as [values|e]; [|done]. destruct (Nat.eqb_spec (length values) (length (p :: params'))) as [E|]; [|done]. by destruct Hfail. }
  rewrite fill_all by (unfold slot_values; by rewrite length_fmap).
  by rewrite (run_bind _ _ _ _ _ (He st c')).
Qed.
End chain.

(** ** On the wire *)
Lemma response_inj header payload payload' : response header payload = response header payload' → payload = payload'.
Proof.
  unfold response, seal. rewrite !fmtX_fix by (simpl; first [apply CRC16_range | lia]).
  intros Heq. apply app_inj_2 in Heq as [Heq _]; [|rewrite !length_app, !length_hex_fix; done].
  injection Heq as Heq. by apply app_inv_head in Heq.
Qed.

Section wire.
Context `{BridgeEnv} {C : Type} `{DeviceClient C} (addr sq : Z).
Context (Ha : 0 ≤ addr < 256) (Hs : 0 ≤ sq < 65536).

Definition get_frames (params : list Param) : list bytes :=
  (λ p, BuildSingleGetFrame addr sq (ID p) (Inst p)) <$> params.
(** The response to a single read: a value, or a NACK. *)
Definition single_answer (resp : bytes) (o : option bytes) : Prop :=
  match o with
  | Some t => resp = response (request_header addr sq) t ∧ data_text t
  | None => ∃ code, resp = response (request_header addr sq) ("-"%byte :: fmtX 2 code)
  end.

Lemma answered_single_reads params w os : Forall bulk_direct params → Forall2 single_result os (single_reads params w).2 →
  ∃ resps, runDeviceClientBridge (C:=C) (get_frames params) w = ((single_reads params w).1, resps) ∧
    Forall2 single_answer resps (outcome_data <$> os).
Proof using Ha Hs.
  intros Hps. revert w os. induction Hps as [|p params Hp _ IH]; intros w os Hos.
  - cbn in *. inversion Hos; subst. by exists [].
  - cbn [single_reads get_frames fmap list_fmap runDeviceClientBridge] in *. pose proof Hp as [Hid Hi _ _ _ _].
    change ((λ p, BuildSingleGetFrame addr sq (ID p) (Inst p)) <$> params) with (get_frames params).
    rewrite handle_single_read by lia. destruct (single_read (ID p) (Inst p) w) as [w1 r] eqn:E.
    destruct (single_reads params w1) as [w2 rs] eqn:E2. cbn [fst snd] in *.
    apply Forall2_cons_inv_r in Hos as (o & os' & Hr & Hrs & ->). destruct (IH w1 os') as (resps & Hrun & Hans); [by rewrite E2|].
    rewrite E2 in Hrun. cbn [fst] in Hrun.
    destruct o as [[f t]|].
    + destruct Hr as [-> Ht]. rewrite Hrun. eexists. split; [done|]. by constructor.
    + destruct Hr as [e ->]. rewrite Hrun. eexists. split; [done|]. constructor; [by eexists|done].
Qed.
End wire.

(** C24: a bulk read whose device read fails is answered with what single reads of the
    same parameters answer, put together, with eight zeros in the place of each that
    is refused; and it leaves the same cache and the same client behind.  So a
    transport without bulk reads (CANopen among them, when one object fails) serves
    the tools that ask in bulk all the same.  The parameters are numeric ones with an
    object of their own, without transformations and live metadata. *)
Theorem bulk_read_equals_singles `{BridgeEnv} {C} `{DeviceClient C} (addr sq : Z) (params : list Param)
    (st : deviceBridgeState) (c c1 : C) (r : res (list f64)) :
  (∀ id instance (c c' : C) z, dc_ReadInt32 id instance c = (c', Ok z) → - 2 ^ 31 ≤ z < 2 ^ 31) →
  0 ≤ addr < 256 → 0 ≤ sq < 65536 → Forall bulk_direct params → (1 ≤ length params ≤ 255)%nat →
  rd_ReadBulk params c = (c1, r) → bulk_fails params r →
  let '(w, singles) := runDeviceClientBridge (get_frames addr sq params) (st, c1) in
  ∃ texts : list (option bytes), Forall2 (single_answer addr sq) singles texts ∧
    bridge_answer (BuildBulkGetFrame addr sq params) (st, c) =
      (w, response (request_header addr sq) (concat (default zero_text <$> texts))).
Proof.
  intros Hint Ha Hs Hps Hn Hb Hfail. assert (Hne : params ≠ []) by (by intros ->; simpl in Hn; lia).
  destruct (bulk_handler Hint params st c c1 r Hps Hne ltac:(lia) Hb Hfail) as (os & w & rs & Hsr & Hos & Hh).
  destruct (answered_single_reads addr sq Ha Hs params (st, c1) os Hps) as (resps & Hrun & Hans); [by rewrite Hsr|].
  rewrite Hrun, Hsr. cbn [fst]. exists (outcome_data <$> os). split; [done|].
  rewrite <-list_fmap_compose, (list_fmap_ext (default zero_text ∘ outcome_data) outcome_text os) by (by intros ? [[]|] _).
  unfold bridge_answer, handleDeviceClientFrameWithState, BuildBulkGetFrame.
  rewrite parse_built_request by done. cbn [rq_address rq_seq rq_payload].
  change (p ← params; fmtX 4 (ID p) ++ fmtX 2 (Inst p)) with (fields params).
  rewrite !ToUpper_app. change (ToUpper (str "?VX")) with (str "?VX").
  rewrite (fmtX_fix 2), ToUpper_hex_fix, <-(fmtX_fix 2) by (simpl; lia).
  rewrite (ToUpper_fields _ Hps). set (body := _ ++ fields params) in *.
  change (deviceBridgePayloadWithState (str "?VX" ++ body))
    with (deviceBridgeBulkReadWithState (C:=C) (str "?VX" ++ body)).
  rewrite Hh. change (isDeviceBridgeInfoProbe (str "?VX" ++ body)) with false.
  change (isDeviceBridgeRead (str "?VX" ++ body)) with true. rewrite bool_decide_false by done.
  unfold deviceBridgeData, response, request_header. by rewrite !fmtX_fix, <-app_assoc by (simpl; lia).
Qed.

(** A device that answers single reads only, and has no value for parameter 2010. *)
Inductive singles_only := SinglesOnly.
#[local] Instance singles_ring : RingClient singles_only := {|
  env_SupportsRingReadout := λ _, false;
  env_ConfigureRingCapture := λ _ _ c, (c, ring_unsupported);
  env_TriggerRingSync := λ c, (c, ring_unsupported);
  env_ReadRingPointer := λ c, (c, ring_unsupported);
  env_ReadRingChunk := λ _ _ c, (c, ring_unsupported) |}.
#[local] Instance singles_read : ReadClient singles_only := {|
  rd_ReadBulk := λ _ c, (c, Err (Sentinel ErrTransportNotSupported)) |}.
#[local] Instance singles_client : DeviceClient singles_only := {|
  dc_ReadFloat32 := λ _ _ c, (c, Ok (of_int 25));
  dc_ReadInt32 := λ id i c, (c, if id =? 2010 then Err (Sentinel ErrInvalidArgument) else Ok (- 42));
  dc_WriteClient := None; dc_StringWriteClient := None; dc_ControlClient := None; dc_ReadSDORaw := None |}.
Definition bulk_params : list Param := [bulk_param 1000 2 DataTypeFloat32; bulk_param 2010 1 DataTypeInt32].

Lemma bulk_params_direct : Forall (@bulk_direct small_env) bulk_params.
Proof.
  pose proof (@mapped_direct small_env 1000 (MkMapping 0x2100 DataTypeFloat32 false 1 255 0 0 true)) as H1.
  pose proof (@mapped_direct small_env 2010 (MkMapping 0x2110 DataTypeInt32 true 1 255 1 3 false)) as H2.
  repeat apply Forall_cons_2; [| |apply Forall_nil_2]; (split; [simpl; lia|simpl; lia|done|by (left + right)| |done]);
    [apply H1|apply H2]; by (done || vm_compute).
Qed.

Lemma bulk_read_equals_singles_witness :
  let w := runDeviceClientBridge (H := small_env) (H0 := singles_client) (get_frames 5 8 bulk_params) (small_state, SinglesOnly) in
  ∃ texts, Forall2 (single_answer 5 8) w.2 texts ∧
    @bridge_answer small_env _ singles_client (BuildBulkGetFrame 5 8 bulk_params) (small_state, SinglesOnly) =
      (w.1, response (request_header 5 8) (concat (default zero_text <$> texts))) ∧
    concat (default zero_text <$> texts) = str "41C8000000000000".
Proof.
  cbv zeta.
  pose proof (@bulk_read_equals_singles small_env _ singles_client 5 8 bulk_params small_state SinglesOnly SinglesOnly
    (Err (Sentinel ErrTransportNotSupported))) as Hthm.
  destruct (runDeviceClientBridge (H := small_env) (H0 := singles_client) (get_frames 5 8 bulk_params) (small_state, SinglesOnly)) as [w singles] eqn:E.
  destruct Hthm as (texts & Hf & Hb).
  - intros id instance c c' z. cbn. destruct (id =? 2010); [done|]. intros [= <-]. lia.
  - lia.
  - lia.
  - apply bulk_params_direct.
  - simpl. lia.
  - reflexivity.
  - exact I.
  - exists texts. split; [exact Hf|]. split; [exact Hb|].
    assert (Hx : snd (@bridge_answer small_env _ singles_client (BuildBulkGetFrame 5 8 bulk_params) (small_state, SinglesOnly)) =
      response (request_header 5 8) (str "41C8000000000000")) by (vm_compute; reflexivity).
    rewrite Hb in Hx. cbn [snd] in Hx. by apply response_inj in Hx.
Defined.
