(* ===== verification/Router.v ===== *)
(** * Router: requests of many clients to many devices ([mecomserver/router.go])

    The router reads the device address of a request, orders the routes to that
    device, and hands the request to their brokers: a read may go on to the next
    route, a write goes to the preferred route once.  Around it are the command
    cache, the lease of a device to clients that use address zero, and the
    rewriting of such requests and of their responses.

    A call of the handler runs in an environment [RouteEnv]: what handing a request
    to a broker comes to, the server's context, the clock, and the live statistics
    and queue length of a route.  [rt_sent] records what the queues took.
    The routes of one address share one bridge state. *)
From stdpp Require Import prelude gmap strings list.
From Stdlib Require Import Strings.Byte.
From S2P Require Import Prelude Text Protocol SdoMap Endpoint Broker DeviceBridge BridgePayload.
Open Scope Z_scope.

(** ** Configuration *)
Definition RouteSelectionFixedPreference : bytes := str "fixed-preference".
Definition RouteSelectionDynamic : bytes := str "dynamic".
Definition defaultCommandIdempotencyTTL : Z := 30000000000.

Record Route := MkRoute {
  r_Address : Z;
  r_Target : bytes;
  r_Downstream : bool }.
Record RouterConfig := MkRouterConfig {
  Routes : list Route;
  DefaultAddress : Z;
  AddressZeroOrder : list Z;
  RouteSelection : bytes;
  CommandIdempotencyTTL : Z }.

Definition normalizeRouteSelectionPolicy (policy : bytes) : res bytes :=
  let p := ToLower (TrimSpace policy) in
  if bool_decide (p = []) || bool_decide (p = str "fixed") then Ok RouteSelectionFixedPreference
  else if bool_decide (p = RouteSelectionFixedPreference) then Ok RouteSelectionFixedPreference
  else if bool_decide (p = RouteSelectionDynamic) then Ok RouteSelectionDynamic
  else Err (Errorf "mecomserver: invalid route selection policy %q: use %q or %q" []).

(** ** Routes *)
Record routeBroker := MkRouteBroker {
  rb_address : Z;
  rb_target : bytes;
  rb_priority : Z }.
Global Instance routeBroker_eq_dec : EqDecision routeBroker.
Proof. solve_decision. Defined.
Abbreviation preparedRoutes := (gmap Z (list routeBroker)).

(** What [prepareRoutes] builds: the routes, the bridge state of each address, and the
    statistics of every route in the order of the configuration. *)
Record Prepared := MkPrepared {
  pr_routes : preparedRoutes;
  pr_states : gmap Z deviceBridgeState;
  pr_routeStats : list BrokerStats }.

Section prepare.
Context `{BridgeEnv}.
(** The cache directory and the decoded cache file of a device. *)
Variable (dir : bytes) (file : bytes → option deviceBridgeCacheSnapshot).

Definition device_label (addr : Z) : bytes := str "0x" ++ fmtX 2 addr.
Definition route_id (addr priority : Z) (target : bytes) : bytes :=
  device_label addr ++ ":"%byte :: fmtD priority ++ ":"%byte :: target.

Definition prepare_route (p : Prepared) (r : Route) : res Prepared :=
  let addr := r_Address r in
  if addr =? 0 then Err (Errorf "mecomserver: route address 0 is reserved" [])
  else if negb (r_Downstream r) && bool_decide (ParseTarget (TrimSpace (r_Target r)) = None) then
    Err (Wrapf "route 0x%02X: %w" [addr] (Errorf "mecomserver: target required" []))
  else
    let brokers := default [] (pr_routes p !! addr) in
    let priority := Z.of_nat (length brokers) in
    let stats := newBrokerStatsRecorder addr (r_Target r) (route_id addr priority (r_Target r)) priority in
    let states := match pr_states p !! addr with
                  | Some _ => pr_states p
                  | None => <[addr := newDeviceBridgeState dir (file (device_label addr)) (device_label addr)]> (pr_states p)
                  end in
    Ok (MkPrepared (<[addr := brokers ++ [MkRouteBroker addr (r_Target r) priority]]> (pr_routes p))
          states (pr_routeStats p ++ [stats])).

Definition has_route (routes : preparedRoutes) (addr : Z) : bool :=
  bool_decide (default [] (routes !! addr) ≠ []).
Fixpoint check_order (routes : preparedRoutes) (order : list Z) : res () :=
  match order with
  | [] => Ok ()
  | addr :: order' =>
      if addr =? 0 then Err (Errorf "mecomserver: address-zero route order cannot include address 0" [])
      else if negb (has_route routes addr) then
        Err (Errorf "mecomserver: address-zero route 0x%02X has no configured route" [addr])
      else check_order routes order'
  end.

(** The routes and the normalized policy. *)
Definition prepareRoutes (cfg : RouterConfig) : res (Prepared * bytes) :=
  match Routes cfg with
  | [] => Err (Errorf "mecomserver: at least one route required" [])
  | _ =>
      policy ← normalizeRouteSelectionPolicy (RouteSelection cfg);
      p ← mfold prepare_route (MkPrepared ∅ ∅ []) (Routes cfg);
      if negb (DefaultAddress cfg =? 0) && negb (has_route (pr_routes p) (DefaultAddress cfg)) then
        Err (Errorf "mecomserver: default address 0x%02X has no configured route" [DefaultAddress cfg])
      else _ ← check_order (pr_routes p) (AddressZeroOrder cfg); Ok (p, policy)
  end.
End prepare.

(** ** Frames *)
Definition RequestAddress (frame : bytes) : res Z :=
  let frame := TrimSpace frame in
  if (length frame <? 3)%nat then Err (Errorf "short MeCom frame" [])
  else if negb (bool_decide (frame !! 0%nat = Some "#"%byte)) then
    if bool_decide (frame !! 0%nat = Some "?"%byte) then Ok 0
    else Err (Errorf "not a MeCom request frame" [])
  else match ParseUint (slice frame 1 3) 16 8 with
       | Err _ => Err (Errorf "invalid MeCom address %q" [])
       | Ok n => Ok (u8 n)
       end.

Definition isMeComReadFrame (frame : bytes) : bool :=
  let s := TrimSpace frame in
  if HasPrefix s (str "?") then true
  else if (7 <? length s)%nat && bool_decide (s !! 0%nat = Some "#"%byte)
  then bool_decide (s !! 7%nat = Some "?"%byte) else false.

(** [routeRequestAliases]. *)
Definition route_alias (payload : bytes) : option bytes :=
  if bool_decide (payload = str "?VI") then Some (str "?IF") else None.

Definition routedRequestFrame (addr sq : Z) (payload : bytes) : bytes :=
  seal ("#"%byte :: fmtX 2 addr ++ fmtX 4 sq ++ ToUpper payload).

Definition rewriteRouteCompatibilityFrame (frame : bytes) : bytes :=
  let s := TrimSpace frame in
  if bool_decide (s = []) then frame
  else if HasPrefix s (str "?") then
    match route_alias (ToUpper s) with
    | None => frame
    | Some replacement => replacement ++ [FrameTerminator]
    end
  else if negb (bool_decide (s !! 0%nat = Some "#"%byte)) then frame
  else match parseDeviceBridgeRequest frame with
       | Err _ => frame
       | Ok req => match route_alias (rq_payload req) with
                   | None => frame
                   | Some replacement => routedRequestFrame (rq_address req) (rq_seq req) replacement
                   end
       end.

(** [strings.EqualFold] of two ASCII texts. *)
Definition EqualFold (a b : bytes) : bool := bool_decide (ToLower a = ToLower b).

Definition isAddressedRouteFrame (frame : bytes) (addr : Z) : bool :=
  let s := TrimSpace frame in
  (3 <=? length s)%nat && bool_decide (s !! 0%nat = Some "#"%byte) && EqualFold (slice s 1 3) (fmtX 2 addr).

Definition rewriteRouteAddressZeroRequest (frame : bytes) (addr : Z) : bytes :=
  if (addr =? 0) || negb (isAddressedRouteFrame frame 0) then frame
  else match parseDeviceBridgeRequest frame with
       | Err _ => frame
       | Ok req => if negb (rq_address req =? 0) then frame
                   else routedRequestFrame addr (rq_seq req) (rq_payload req)
       end.

Definition rewriteMeComResponseAddress (frame : bytes) (addr : Z) : bytes :=
  let s := TrimSpace frame in
  if (length s <? 11)%nat || negb (bool_decide (s !! 0%nat = Some "!"%byte)) then frame
  else
    let payloadEnd := (length s - 4)%nat in
    if (payloadEnd <=? 7)%nat then frame
    else seal ("!"%byte :: fmtX 2 addr ++ slice s 3 payloadEnd).
Definition restoreRouteAddressZeroResponse (requestFrame responseFrame : bytes) : bytes :=
  if negb (isAddressedRouteFrame requestFrame 0) then responseFrame
  else rewriteMeComResponseAddress responseFrame 0.

(** The code of a NACK. *)
Definition meComResponseNACKCode (frame : bytes) : option Z :=
  let s := TrimSpace frame in
  if (length s <? 10)%nat || negb (bool_decide (s !! 0%nat = Some "!"%byte)) ||
     negb (bool_decide (s !! 7%nat = Some "-"%byte)) then None
  else match ParseUint (slice s 8 10) 16 8 with
       | Err _ => None
       | Ok n => Some (u8 n)
       end.

(** ** Which answers and routes a read may pass over *)
Section reads.
Context `{BridgeEnv}.

(** The parameter of a read of one parameter. *)
Definition single_parameter (payload : bytes) : option (Z * Z) :=
  match parseDeviceBridgeParameter (drop 3 payload) with Ok p => Some p | Err _ => None end.
(** Slot [i] of a bulk read. *)
Definition bulk_parameter (payload : bytes) (i : nat) : res (Z * Z) :=
  parseDeviceBridgeParameter (slice payload (5 + i * 6) (11 + i * 6)).

(** The loop over the slots of a bulk read: a slot that does not parse ends it. *)
Fixpoint any_serial_fallback (payload : bytes) (slots : list nat) : bool :=
  match slots with
  | [] => false
  | i :: slots' =>
      match bulk_parameter payload i with
      | Err _ => false
      | Ok (id, instance) =>
          if (instance =? 1) && deviceBridgeUnsupportedSerialFallbackRead id then true
          else any_serial_fallback payload slots'
      end
  end.
Definition isRouteUnsupportedSerialFallbackRead (frame : bytes) : bool :=
  match parseDeviceBridgeRequest frame with
  | Err _ => false
  | Ok req =>
      let payload := rq_payload req in
      if (HasPrefix payload (str "?VM") || HasPrefix payload (str "?VR")) && (length payload =? 9)%nat then
        match single_parameter payload with
        | None => false
        | Some (id, instance) => (instance =? 1) && deviceBridgeUnsupportedSerialFallbackRead id
        end
      else if HasPrefix payload (str "?VX") && (5 <=? length payload)%nat then
        match ParseUint (slice payload 3 5) 16 8 with
        | Err _ => false
        | Ok count =>
            if (length payload <? 5 + Z.to_nat count * 6)%nat then false
            else any_serial_fallback payload (seq 0 (Z.to_nat count))
        end
      else false
  end.

(** A single read of one parameter ([?VR]). *)
Definition read_parameter (frame : bytes) : option (Z * Z) :=
  match parseDeviceBridgeRequest frame with
  | Err _ => None
  | Ok req =>
      let payload := rq_payload req in
      if negb (HasPrefix payload (str "?VR")) || negb (length payload =? 9)%nat then None
      else single_parameter payload
  end.
Definition isRouteCatalogueParameterRead (frame : bytes) : bool :=
  match read_parameter frame with
  | None => false
  | Some (id, instance) =>
      bool_decide (is_Some (defaultDeviceBridgeParameterTypes !! id)) &&
      is_Ok (deviceBridgeValidateParameterInstance id instance)
  end.
Definition isRouteIdentityParameterRead (frame : bytes) : bool :=
  bool_decide (read_parameter frame = Some (102, 1)).

Definition shouldFallThroughRouteNACK (frame : bytes) (code : Z) : bool :=
  if code =? 0x01 then true
  else if code =? 0x03 then isRouteIdentityParameterRead frame || isRouteCatalogueParameterRead frame
  else if (code =? 0x04) || (code =? 0x05) then isRouteUnsupportedSerialFallbackRead frame
  else false.

Definition isTransientRouteReadError (e : error) : bool :=
  errors_is e IoErrClosedPipe || errors_is e IoEOF || errors_is e NetErrClosed ||
  errors_is e EPIPE || errors_is e ECONNRESET || errors_is e ECONNABORTED.

Definition isRouteVirtualRead (frame : bytes) : bool :=
  match parseDeviceBridgeRequest frame with
  | Err _ => false
  | Ok req =>
      let payload := rq_payload req in
      if HasPrefix payload (str "?VM") || HasPrefix payload (str "?VR") then
        if negb (length payload =? 9)%nat then false else deviceBridgeEncodedParameterIsVirtual (drop 3 payload)
      else if HasPrefix payload (str "?VX") then
        if (length payload <? 5)%nat then false
        else match ParseUint (slice payload 3 5) 16 8 with
             | Err _ => false
             | Ok count =>
                 let count := Z.to_nat count in
                 if (count =? 0)%nat || negb (length payload =? 5 + count * 6)%nat then false
                 else existsb (λ i, deviceBridgeEncodedParameterIsVirtual (slice payload (5 + i * 6) (11 + i * 6)))
                        (seq 0 count)
             end
      else false
  end.

Definition routeTargetIsNativeMeCom (target : bytes) : bool :=
  let lower := ToLower (TrimSpace target) in
  if HasPrefix lower (str "can:") || HasPrefix lower (str "can-") || HasPrefix lower (str "can_") then false
  else match ParseTarget target with
       | Some ep => negb (bool_decide (Network ep = "can"%string))
       | None => false
       end.
Definition preferNativeMeComRouteForVirtualRead (frame : bytes) (candidates : list routeBroker) : list routeBroker :=
  if (length candidates <? 2)%nat || negb (isRouteVirtualRead frame) then candidates
  else
    let native := filter (λ c, routeTargetIsNativeMeCom (rb_target c) = true) candidates in
    if bool_decide (native = []) then candidates
    else native ++ filter (λ c, routeTargetIsNativeMeCom (rb_target c) = false) candidates.
End reads.

(** ** The environment and the state of a router *)
Class RouteEnv (W : Type) := {
  re_exchange : routeBroker → bytes → W → W * outcome;
  re_ctxErr : W → option error;
  re_now : W → Z;
  re_stats : routeBroker → W → BrokerStats;
  re_queued : routeBroker → W → Z;
  re_wait : bytes → W → W * res bytes }.

Record commandIdempotencyEntry := MkEntry {
  ce_completed : bool;
  ce_expires : Z;
  ce_result : res bytes }.
Record commandIdempotencyCache := MkCache {
  cc_ttl : Z;
  cc_entries : gmap bytes commandIdempotencyEntry }.

Record Router (W : Type) := MkRouter {
  rt_world : W;
  rt_states : gmap Z deviceBridgeState;
  rt_cache : option commandIdempotencyCache;
  rt_sent : list (routeBroker * bytes) }.
Arguments MkRouter {W}. Arguments rt_world {W}. Arguments rt_states {W}.
Arguments rt_cache {W}. Arguments rt_sent {W}.

(** ** Ordering the routes of an address *)

(** [sort.SliceStable] by an integer key. *)
Fixpoint insert_by {A} (key : A → Z) (x : A) (l : list A) : list A :=
  match l with
  | [] => [x]
  | y :: l' => if key y <? key x then y :: insert_by key x l' else x :: l
  end.
Fixpoint sort_by {A} (key : A → Z) (l : list A) : list A :=
  match l with [] => [] | x :: l' => insert_by key x (sort_by key l') end.

Section router.
Context `{BridgeEnv} {W : Type} `{RouteEnv W}.

Definition routeCandidateScore (c : routeBroker) (readFrame : bool) (w : W) : Z :=
  let stats := re_stats c w in
  let score := rb_priority c * 200 + re_queued c w in
  let score := if bs_Connected stats then score - 25 else score in
  let score :=
    if 0 <? bs_ErrorCount stats then
      let score := score + 250 in
      let score := if bs_Connected stats then score else score + 250 in
      score + i64 (bs_ErrorCount stats) * (if readFrame then 25 else 50)
    else score in
  i64 (if rb_priority c =? 0 then score - 25 else score).

Definition orderRouteCandidates (candidates : list routeBroker) (policy : bytes) (readFrame : bool) (w : W) :
    list routeBroker :=
  if (length candidates <=? 1)%nat then candidates
  else if negb (bool_decide (policy = RouteSelectionDynamic)) || negb readFrame
  then sort_by rb_priority candidates
  else sort_by (λ c, routeCandidateScore c readFrame w) candidates.

Definition selectRouteCandidates (frame : bytes) (routes : preparedRoutes) (addressZero : Z) (policy : bytes)
    (w : W) : res (list routeBroker) :=
  addr ← RequestAddress frame;
  let addr := if (addr =? 0) && negb (addressZero =? 0) then addressZero else addr in
  let candidates := default [] (routes !! addr) in
  if bool_decide (candidates = []) then Err (Errorf "no downstream route for MeCom address 0x%02X" [addr])
  else Ok (orderRouteCandidates candidates policy (isMeComReadFrame frame) w).

(** ** Routing one frame *)
Definition send (c : routeBroker) (frame : bytes) (rt : Router W) : Router W * outcome :=
  let '(w, o) := re_exchange c frame (rt_world rt) in
  (MkRouter w (rt_states rt) (rt_cache rt) (rt_sent rt ++ if was_queued o then [(c, frame)] else []), o).
Definition observe (c : routeBroker) (frame resp : bytes) (rt : Router W) : Router W :=
  MkRouter (rt_world rt) (alter (deviceBridgeObserveFrame frame resp) (rb_address c) (rt_states rt))
    (rt_cache rt) (rt_sent rt).
Definition alive (rt : Router W) : bool := bool_decide (re_ctxErr (rt_world rt) = None).

Definition no_candidates : error := Errorf "no downstream route candidates" [].
Inductive candidate_step := Final (r : res bytes) | NextCandidate (e : error).

Definition falls_through (candidateFrame resp : bytes) : option Z :=
  match meComResponseNACKCode resp with
  | Some code => if shouldFallThroughRouteNACK candidateFrame code then Some code else None
  | None => None
  end.

(** The attempts at one candidate.  [more] tells whether another candidate follows. *)
Fixpoint attempts_at (attempts : nat) (readFrame more : bool) (c : routeBroker)
    (routedFrame candidateFrame : bytes) (rt : Router W) : Router W * candidate_step :=
  match attempts with
  | O => (rt, NextCandidate no_candidates)
  | S attempts =>
      let '(rt, o) := send c candidateFrame rt in
      match o with
      | NotQueued e | NoResult e =>
          (rt, if readFrame && more && alive rt then NextCandidate e else Final (Err e))
      | Stopped _ e => (rt, Final (Err e))
      | Responded (Ok resp) =>
          match if readFrame && more then falls_through candidateFrame resp else None with
          | Some code => (rt, NextCandidate (Errorf "route candidate NACK 0x%02X" [code]))
          | None =>
              (observe c candidateFrame resp rt,
               Final (Ok (restoreRouteAddressZeroResponse routedFrame resp)))
          end
      | Responded (Err e) =>
          if readFrame && isTransientRouteReadError e && (0 <? attempts)%nat && alive rt then
            attempts_at attempts readFrame more c routedFrame candidateFrame rt
          else (rt, if readFrame && more then NextCandidate e else Final (Err e))
      end
  end.

Fixpoint route_candidates (readFrame : bool) (routedFrame : bytes) (candidates : list routeBroker)
    (lastErr : error) (rt : Router W) : Router W * res bytes :=
  match candidates with
  | [] => (rt, Err lastErr)
  | c :: candidates' =>
      let candidateFrame := rewriteRouteAddressZeroRequest routedFrame (rb_address c) in
      match attempts_at (if readFrame then 2 else 1) readFrame (negb (bool_decide (candidates' = []))) c
              routedFrame candidateFrame rt with
      | (rt, Final r) => (rt, r)
      | (rt, NextCandidate e) => route_candidates readFrame routedFrame candidates' e rt
      end
  end.

Definition routeFrame (frame : bytes) (candidates : list routeBroker) (rt : Router W) : Router W * res bytes :=
  let readFrame := isMeComReadFrame frame in
  let routedFrame := rewriteRouteCompatibilityFrame frame in
  let candidates := if readFrame then preferNativeMeComRouteForVirtualRead routedFrame candidates else candidates in
  route_candidates readFrame routedFrame candidates no_candidates rt.

(** ** The command cache *)
Definition newCommandIdempotencyCache (ttl : Z) : option commandIdempotencyCache :=
  if ttl <? 0 then None
  else Some (MkCache (if ttl =? 0 then defaultCommandIdempotencyTTL else ttl) ∅).

Definition commandIdempotencyKey (frame : bytes) : option bytes :=
  let s := TrimSpace frame in
  if bool_decide (s = []) || isMeComReadFrame s then None else Some s.

Definition pruneLocked (now : Z) (c : commandIdempotencyCache) : commandIdempotencyCache :=
  MkCache (cc_ttl c) (filter (λ ke, negb (ce_completed ke.2 && (ce_expires ke.2 <? now)) = true) (cc_entries c)).

(** The part of [Do] under the first lock: a result at hand, another caller's request
    under way, or the caller's own request to make. *)
Inductive claim := Cached (r : res bytes) | UnderWay | Lead.
Definition Do_claim (now : Z) (key : bytes) (c : commandIdempotencyCache) : commandIdempotencyCache * claim :=
  let c := pruneLocked now c in
  let lead := (MkCache (cc_ttl c) (<[key := MkEntry false 0 (Ok [])]> (cc_entries c)), Lead) in
  match cc_entries c !! key with
  | Some e =>
      if negb (ce_completed e) then (c, UnderWay)
      else if now <? ce_expires e then (c, Cached (ce_result e)) else lead
  | None => lead
  end.
(** The part under the last lock. *)
Definition Do_complete (now : Z) (key : bytes) (r : res bytes) (c : commandIdempotencyCache) :
    commandIdempotencyCache :=
  MkCache (cc_ttl c) (<[key := MkEntry true (now + cc_ttl c) r]> (cc_entries c)).

Definition with_cache (c : commandIdempotencyCache) (rt : Router W) : Router W :=
  MkRouter (rt_world rt) (rt_states rt) (Some c) (rt_sent rt).
Definition with_world (w : W) (rt : Router W) : Router W :=
  MkRouter w (rt_states rt) (rt_cache rt) (rt_sent rt).

Definition Do (frame : bytes) (route : Router W → Router W * res bytes) (rt : Router W) : Router W * res bytes :=
  match rt_cache rt, commandIdempotencyKey frame with
  | None, _ | _, None => route rt
  | Some c, Some key =>
      match Do_claim (re_now (rt_world rt)) key c with
      | (c, Cached r) => (with_cache c rt, r)
      | (c, UnderWay) => let '(w, r) := re_wait key (rt_world rt) in (with_world w (with_cache c rt), r)
      | (c, Lead) =>
          let '(rt, r) := route (with_cache c rt) in
          (match rt_cache rt with
           | Some c => with_cache (Do_complete (re_now (rt_world rt)) key r c) rt
           | None => rt
           end, r)
      end
  end.

(** ** One request of a client *)
Definition with_states (s : gmap Z deviceBridgeState) (rt : Router W) : Router W :=
  MkRouter (rt_world rt) s (rt_cache rt) (rt_sent rt).

(** A write of a virtual parameter is answered here. *)
Definition local_answer (candidates : list routeBroker) (frame : bytes) (rt : Router W) :
    option (Router W * bytes) :=
  c ← head candidates;
  st ← rt_states rt !! rb_address c;
  '(st, resp) ← handleDeviceBridgeRouterLocalFrame frame st;
  Some (with_states (<[rb_address c := st]> (rt_states rt)) rt, resp).

(** One turn of a client's loop; no answer means that the connection ends. *)
Definition handleRoutedFrame (routes : preparedRoutes) (policy : bytes) (addressZero : Z) (frame : bytes)
    (rt : Router W) : Router W * option bytes :=
  match selectRouteCandidates frame routes addressZero policy (rt_world rt) with
  | Err _ => (rt, Some (deviceServerError frame))
  | Ok candidates =>
      match local_answer candidates frame rt with
      | Some (rt, resp) => (rt, Some resp)
      | None =>
          let '(rt, r) := if isMeComReadFrame frame then routeFrame frame candidates rt
                          else Do frame (routeFrame frame candidates) rt in
          (rt, match r with
               | Ok resp => Some resp
               | Err _ => if alive rt then Some (deviceServerError frame) else None
               end)
      end
  end.
Fixpoint handleRoutedClient (routes : preparedRoutes) (policy : bytes) (addressZero : Z) (frames : list bytes)
    (rt : Router W) : Router W * list bytes :=
  match frames with
  | [] => (rt, [])
  | frame :: frames' =>
      match handleRoutedFrame routes policy addressZero frame rt with
      | (rt, None) => (rt, [])
      | (rt, Some resp) =>
          let '(rt, resps) := handleRoutedClient routes policy addressZero frames' rt in (rt, resp :: resps)
      end
  end.
End router.

(** ** An environment for examples: the outcomes of the requests, in order *)
Definition script_env : RouteEnv (list outcome) := {|
  re_exchange := λ _ _ w, (tail w, default (NoResult (Sentinel ContextDeadlineExceeded)) (head w));
  re_ctxErr := λ _, None;
  re_now := λ _, 0;
  re_stats := λ c _, newBrokerStatsRecorder (rb_address c) (rb_target c) [] (rb_priority c);
  re_queued := λ _ _, 0;
  re_wait := λ _ w, (w, Ok []) |}.
