(* ===== verification/RouterFrames.v ===== *)
(** * RouterFrames: what the router does to frames

    The frames of [Protocol.v] under the router's inspection and rewriting: the
    address it reads, whether it takes the frame for a read, and the frames on both
    sides of a route when the client uses address zero. *)
From stdpp Require Import prelude strings list.
From Stdlib Require Import Strings.Byte.
From S2P Require Import Prelude Text Crc Protocol Client SdoMap Broker DeviceBridge BridgePayload BridgeFrames Router.
Open Scope Z_scope.

(** ** Case *)
Lemma upper_byte_idem b : upper_byte (upper_byte b) = upper_byte b.
Proof.
  pose proof (range_check (λ c, bool_decide (upper_byte (upper_byte (zb c)) = upper_byte (zb c))) 256 eq_refl
    (bz b) (bz_range b)) as H. cbv beta in H. rewrite zb_bz in H. by apply bool_decide_eq_true in H.
Qed.
Lemma ToUpper_idem l : ToUpper (ToUpper l) = ToUpper l.
Proof. induction l as [|b l IH]; [done|]. unfold ToUpper in *. cbn. by rewrite upper_byte_idem, IH. Qed.

Lemma fold_address addr : 0 ≤ addr < 256 → EqualFold (hex_fix 2 addr) (fmtX 2 0) = (addr =? 0).
Proof.
  intros Ha. pose proof (range_check (λ z, Bool.eqb (EqualFold (hex_fix 2 z) (fmtX 2 0)) (z =? 0)) 256
    ltac:(vm_compute; reflexivity) addr Ha) as H. by apply Bool.eqb_prop in H.
Qed.

(** ** A request *)
Section request.
Context (addr sq : Z) (body : bytes) (Ha : 0 ≤ addr < 256) (Hs : 0 ≤ sq < 65536).
Let frame : bytes := appendCRC addr sq body.
Let prefix : bytes := "#"%byte :: request_header addr sq ++ body.

Lemma request_trim : TrimSpace frame = prefix ++ fmtX 4 (CRC16 prefix).
Proof using Ha Hs. unfold frame. rewrite appendCRC_shape by done. by apply TrimSpace_seal. Qed.

Lemma length_request_trim : length (TrimSpace frame) = (11 + length body)%nat.
Proof using Ha Hs.
  rewrite request_trim, length_app, (proj2 (crc_text prefix)). unfold prefix.
  rewrite length_cons, length_app, length_request_header. lia.
Qed.

Lemma request_address_digits : slice (TrimSpace frame) 1 3 = hex_fix 2 addr.
Proof using Ha Hs.
  rewrite request_trim. unfold prefix, request_header.
  change ("#"%byte :: (hex_fix 2 addr ++ hex_fix 4 sq) ++ body)
    with (["#"%byte] ++ (hex_fix 2 addr ++ hex_fix 4 sq) ++ body).
  rewrite <-!app_assoc, slice_after by (simpl; lia). cbn [length]. apply slice_head. by rewrite length_hex_fix.
Qed.

Lemma request_first : TrimSpace frame !! 0%nat = Some "#"%byte.
Proof using Ha Hs. by rewrite request_trim. Qed.

(** The byte after the header, which tells a read from a command. *)
Lemma request_command : TrimSpace frame !! 7%nat = head (body ++ fmtX 4 (CRC16 prefix)).
Proof using Ha Hs.
  rewrite request_trim. unfold prefix at 1.
  change ("#"%byte :: request_header addr sq ++ body) with (["#"%byte] ++ request_header addr sq ++ body).
  rewrite <-!app_assoc. rewrite lookup_app_r by (simpl; lia).
  rewrite lookup_app_r by (rewrite length_request_header; simpl; lia). rewrite length_request_header. simpl.
  by destruct (body ++ fmtX 4 (CRC16 prefix)).
Qed.

Lemma request_RequestAddress : RequestAddress frame = Ok addr.
Proof using Ha Hs.
  unfold RequestAddress. rewrite length_request_trim, request_first, request_address_digits.
  destruct (Nat.ltb_spec (11 + length body) 3); [lia|]. rewrite bool_decide_true by done. cbn [negb].
  rewrite ParseUint_hex_fix by (simpl; lia). unfold u8. by rewrite Z.mod_small by lia.
Qed.

Lemma HasPrefix_hash l p : l !! 0%nat = Some "#"%byte → head p = Some "?"%byte → HasPrefix l p = false.
Proof using. intros Hl Hp. destruct l, p; try done. simpl in *. simplify_eq. by apply bool_decide_eq_false. Qed.

Lemma request_is_read : isMeComReadFrame frame = bool_decide (head body = Some "?"%byte).
Proof using Ha Hs.
  unfold isMeComReadFrame. rewrite length_request_trim, request_command.
  rewrite HasPrefix_hash by (done || apply request_first). rewrite request_first, bool_decide_true by done.
  destruct (Nat.ltb_spec 7 (11 + length body)); [|lia]. cbn [andb].
  destruct body as [|b body']; [|done]. rewrite (proj1 (crc_text prefix)). cbn [app].
  destruct (hex_fix 4 (CRC16 prefix)) as [|d t] eqn:E; [by apply (f_equal length) in E|]. simpl.
  apply bool_decide_eq_false. intros [= ->].
  pose proof (hex_fix_is_hex 4 (CRC16 prefix)) as Hh. rewrite E in Hh. apply Forall_cons in Hh as [Hd _].
  vm_compute in Hd. done.
Qed.

Lemma request_addressed : isAddressedRouteFrame frame 0 = (addr =? 0).
Proof using Ha Hs.
  unfold isAddressedRouteFrame. rewrite length_request_trim, request_first, request_address_digits.
  rewrite bool_decide_true by done. rewrite fold_address by done. done.
Qed.

Lemma request_compatible : route_alias (ToUpper body) = None → rewriteRouteCompatibilityFrame frame = frame.
Proof using Ha Hs.
  intros Hal. unfold rewriteRouteCompatibilityFrame.
  pose proof request_first as Hf. rewrite bool_decide_false by (intros E; by rewrite E in Hf).
  rewrite HasPrefix_hash by (done || apply request_first). rewrite request_first, bool_decide_true by done.
  cbn [negb]. unfold frame. rewrite parse_built_request by done. cbn [rq_payload]. by rewrite Hal.
Qed.
End request.

Lemma routed_request addr sq body : routedRequestFrame addr sq body = appendCRC addr sq (ToUpper body).
Proof. done. Qed.

(** A request to address zero becomes the request to the device. *)
Lemma request_to_device sq body dev : 0 < dev < 256 → 0 ≤ sq < 65536 →
  rewriteRouteAddressZeroRequest (appendCRC 0 sq body) dev = appendCRC dev sq (ToUpper body).
Proof.
  intros Hd Hs. unfold rewriteRouteAddressZeroRequest. destruct (Z.eqb_spec dev 0); [lia|].
  rewrite request_addressed by lia. cbn [orb negb]. change (negb (0 =? 0)) with false. cbv iota.
  rewrite parse_built_request by lia. cbn [rq_address rq_seq rq_payload negb]. change (negb (0 =? 0)) with false.
  cbv iota. by rewrite routed_request, ToUpper_idem.
Qed.

(** A request to a device is not rewritten. *)
Lemma request_kept addr sq body dev : 0 < addr < 256 → 0 ≤ sq < 65536 →
  rewriteRouteAddressZeroRequest (appendCRC addr sq body) dev = appendCRC addr sq body.
Proof.
  intros Ha Hs. unfold rewriteRouteAddressZeroRequest. rewrite request_addressed by lia.
  destruct (Z.eqb_spec addr 0); [lia|]. by rewrite orb_true_r.
Qed.

(** ** A response *)
Lemma response_trim header payload : TrimSpace (response header payload) =
  ("!"%byte :: header ++ payload) ++ fmtX 4 (CRC16 ("!"%byte :: header ++ payload)).
Proof. by apply TrimSpace_seal. Qed.

Section restore.
Context (header payload : bytes) (Hh : length header = 6%nat).

Lemma length_response_trim : length (TrimSpace (response header payload)) = (11 + length payload)%nat.
Proof using Hh.
  rewrite response_trim, length_app, (proj2 (crc_text _)), length_cons, length_app. lia.
Qed.

Lemma response_first : TrimSpace (response header payload) !! 0%nat = Some "!"%byte.
Proof using. by rewrite response_trim. Qed.
End restore.

(** The address of a response is replaced, unless the response has no payload. *)
Lemma rewrite_response addr sq payload a : 0 ≤ a < 256 → payload ≠ [] →
  rewriteMeComResponseAddress (response (request_header addr sq) payload) a =
    response (request_header a sq) payload.
Proof.
  intros Ha Hp. pose proof (length_request_header addr sq) as Hh. unfold rewriteMeComResponseAddress.
  rewrite length_response_trim by done. rewrite response_first.
  destruct (Nat.ltb_spec (11 + length payload) 11); [lia|]. rewrite bool_decide_true by done. cbn [orb negb].
  assert (0 < length payload)%nat by (destruct payload; simpl; [done|lia]).
  destruct (Nat.leb_spec (11 + length payload - 4) 7); [lia|]. rewrite response_trim.
  unfold response. f_equal. f_equal. rewrite (fmtX_fix 2 a) by (simpl; lia). unfold request_header.
  rewrite <-!app_assoc. f_equal.
  replace ("!"%byte :: hex_fix 2 addr ++ hex_fix 4 sq ++ payload)
    with (("!"%byte :: hex_fix 2 addr) ++ hex_fix 4 sq ++ payload) by done.
  rewrite <-app_assoc, slice_after by (rewrite ?length_cons, ?length_hex_fix; lia).
  rewrite length_cons, length_hex_fix. apply slice_head. rewrite length_app, length_hex_fix. lia.
Qed.

(** ** Properties *)

(** A client that uses address zero and the device it is leased do not notice each
    other's address.  The device gets the request a client of its own address would send
    (same sequence number, same command, its own address and checksum), and the client
    gets the device's answer under address zero with a valid checksum; requests to a
    device's own address pass unchanged. *)
Theorem address_zero_roundtrip (dev sq : Z) (body payload : bytes) :
  0 < dev < 256 → 0 ≤ sq < 65536 → payload ≠ [] →
  RequestAddress (appendCRC 0 sq body) = Ok 0 ∧
  rewriteRouteAddressZeroRequest (appendCRC 0 sq body) dev = appendCRC dev sq (ToUpper body) ∧
  parseDeviceBridgeRequest (rewriteRouteAddressZeroRequest (appendCRC 0 sq body) dev) =
    Ok (MkRequest (appendCRC dev sq (ToUpper body)) dev sq (ToUpper body)) ∧
  restoreRouteAddressZeroResponse (appendCRC 0 sq body) (response (request_header dev sq) payload) =
    response (request_header 0 sq) payload ∧
  rewriteRouteAddressZeroRequest (appendCRC dev sq body) dev = appendCRC dev sq body ∧
  restoreRouteAddressZeroResponse (appendCRC dev sq body) (response (request_header dev sq) payload) =
    response (request_header dev sq) payload.
Proof.
  intros Hd Hs Hp. rewrite request_RequestAddress, !request_to_device, request_kept by lia.
  rewrite parse_built_request, ToUpper_idem by lia. unfold restoreRouteAddressZeroResponse.
  rewrite !request_addressed by lia. destruct (Z.eqb_spec dev 0); [lia|]. change (negb (0 =? 0)) with false.
  cbn [negb]. by rewrite rewrite_response by (done || lia).
Qed.

Lemma address_zero_roundtrip_witness :
  rewriteRouteAddressZeroRequest (appendCRC 0 7 (str "?VR03E801")) 5 = appendCRC 5 7 (str "?VR03E801") ∧
  restoreRouteAddressZeroResponse (appendCRC 0 7 (str "?VR03E801")) (response (request_header 5 7) (str "40490FDB")) =
    response (request_header 0 7) (str "40490FDB").
Proof.
  destruct (address_zero_roundtrip 5 7 (str "?VR03E801") (str "40490FDB")) as (_ & Hq & _ & Hr & _);
    [lia|lia|done|]. split; [exact Hq|exact Hr].
Defined.

(** The acknowledgement that repeats the checksum of its request, as devices send it. *)
Definition crc_ack (addr sq : Z) (body : bytes) : bytes :=
  "!"%byte :: request_header addr sq ++
    fmtX 4 (CRC16 ("#"%byte :: request_header addr sq ++ body)) ++ [FrameTerminator].

Lemma crc_ack_kept dev sq body a : rewriteMeComResponseAddress (crc_ack dev sq body) a = crc_ack dev sq body.
Proof.
  set (prefix := "#"%byte :: request_header dev sq ++ body).
  assert (Ht : TrimSpace (crc_ack dev sq body) = "!"%byte :: request_header dev sq ++ fmtX 4 (CRC16 prefix)).
  { unfold crc_ack. fold prefix. destruct (crc_text_last prefix) as (t & d & -> & Hd).
    rewrite app_assoc, app_comm_cons, TrimSpace_snoc_space by done. rewrite app_assoc.
    by rewrite TrimSpace_keep by first [done|by apply hex_not_space]. }
  unfold rewriteMeComResponseAddress. rewrite Ht, length_cons, length_app, length_request_header, (proj2 (crc_text prefix)).
  by destruct (_ || _).
Qed.

(** A device's checksum acknowledgement does not survive address zero.  The device carries
    out the command and acknowledges it with the checksum of the request it got; that
    answer is valid for the routed request, but the router passes it on with the
    device's address, so the client takes the command for failed (unless the checksum
    of the bare response header happens to be the same). *)
Theorem address_zero_loses_crc_ack (dev sq : Z) (body : bytes) :
  0 < dev < 256 → 0 ≤ sq < 65536 → ToUpper body = body →
  CRC16 ("!"%byte :: request_header dev sq) ≠ CRC16 ("#"%byte :: request_header dev sq ++ body) →
  let request := appendCRC 0 sq body in
  let ack := crc_ack dev sq body in
  ParseWriteResponseForRequest ack (rewriteRouteAddressZeroRequest request dev) = Ok () ∧
  restoreRouteAddressZeroResponse request ack = ack ∧
  ∃ e, ParseWriteResponseForRequest (restoreRouteAddressZeroResponse request ack) request = Err e.
Proof.
  intros Hd Hs Hb Hcrc. cbv zeta. unfold restoreRouteAddressZeroResponse.
  rewrite request_to_device, Hb, request_addressed by lia. change (negb (0 =? 0)) with false. cbv iota.
  rewrite !crc_ack_kept. split; [apply bare_ack_accepted; lia|]. split; [done|].
  unfold ParseWriteResponseForRequest, ParseWriteResponse.
  set (prefix := "!"%byte :: request_header dev sq) in *. set (rq := "#"%byte :: request_header dev sq ++ body) in *.
  destruct (verifyCRC (prefix ++ fmtX 4 (CRC16 rq))) as [[]|e] eqn:Ev.
  { exfalso. apply verifyCRC_spec in Ev as [_ Ev]. destruct (crc_text rq) as [Hx Hl].
    destruct (crc_tail prefix _ Hl) as [E1 E2]. rewrite E1, E2, Hx in Ev. pose proof (CRC16_range rq).
    rewrite ParseUint_hex_fix in Ev by (simpl; lia). congruence. }
  apply parsePayload_bad_crc in Ev as [e' He]; [|by apply crc_text].
  change (crc_ack dev sq body) with (prefix ++ fmtX 4 (CRC16 rq) ++ [FrameTerminator]). rewrite He. cbn [mbind result_bind].
  assert (isBareRequestCRCAck (prefix ++ fmtX 4 (CRC16 rq) ++ [FrameTerminator]) (appendCRC 0 sq body) = false) as ->; [|by eexists].
  apply not_true_iff_false. intros Ht. apply isBareRequestCRCAck_spec in Ht as (c & Hc & Hl & _); [|lia|lia].
  rewrite app_assoc, TrimSuffix_snoc in Hc. unfold prefix in Hc. apply (f_equal tail) in Hc. cbn [tail app] in Hc.
  apply app_inj_1 in Hc as [Hc _]; [|by rewrite !length_request_header].
  unfold request_header in Hc. apply app_inj_1 in Hc as [Hc _]; [|by rewrite !length_hex_fix].
  apply (f_equal (λ l, ParseUint l 16 8)) in Hc. rewrite !ParseUint_hex_fix in Hc by (simpl; lia). injection Hc. lia.
Qed.

Lemma address_zero_loses_crc_ack_witness :
  let request := appendCRC 0 7 (str "RS") in
  ParseWriteResponseForRequest (crc_ack 5 7 (str "RS")) (rewriteRouteAddressZeroRequest request 5) = Ok () ∧
  restoreRouteAddressZeroResponse request (crc_ack 5 7 (str "RS")) = crc_ack 5 7 (str "RS") ∧
  ∃ e, ParseWriteResponseForRequest (restoreRouteAddressZeroResponse request (crc_ack 5 7 (str "RS"))) request = Err e.
Proof. apply (address_zero_loses_crc_ack 5 7 (str "RS")); [lia|lia|reflexivity|vm_compute; congruence]. Defined.
