(* ===== verification/Routing.v ===== *)
(** * Routing: where a request goes

    The routes a configuration gives an address, the order in which a request tries
    them, and how often it is sent. *)
From stdpp Require Import prelude gmap strings list sorting.
From Stdlib Require Import Strings.Byte.
From S2P Require Import Prelude Text Protocol SdoMap Endpoint Broker CanClients DeviceBridge BridgePayload BridgeFrames Router.
Open Scope Z_scope.

(** ** Sorting by a key *)
Section sort.
Context {A : Type} (key : A → Z).

Lemma insert_by_perm x l : insert_by key x l ≡ₚ x :: l.
Proof.
  induction l as [|y l IH]; [done|]. cbn [insert_by]. destruct (key y <? key x); [|done].
  rewrite IH. by rewrite Permutation_swap.
Qed.
Lemma sort_by_perm l : sort_by key l ≡ₚ l.
Proof. induction l as [|x l IH]; [done|]. cbn [sort_by]. by rewrite insert_by_perm, IH. Qed.

(** What is in order stays as it is: the sort is stable. *)
Lemma sort_by_sorted l : StronglySorted (λ a b, key a ≤ key b) l → sort_by key l = l.
Proof.
  induction 1 as [|x l _ IH Hx]; [done|]. cbn [sort_by]. rewrite IH. destruct l as [|y l]; [done|].
  cbn [insert_by]. apply Forall_cons in Hx as [Hx _]. by destruct (Z.ltb_spec (key y) (key x)); [lia|].
Qed.
End sort.

(** ** Configured routes *)
Definition configured (routes : list Route) (addr : Z) : list routeBroker :=
  imap (λ i r, MkRouteBroker addr (r_Target r) (Z.of_nat i)) (filter (λ r, r_Address r = addr) routes).

Lemma configured_sorted routes addr : StronglySorted (λ a b, rb_priority a ≤ rb_priority b) (configured routes addr).
Proof.
  unfold configured. generalize (filter (λ r, r_Address r = addr) routes) as l. intros l.
  cut (∀ n, StronglySorted (λ a b, rb_priority a ≤ rb_priority b)
              (imap (λ i r, MkRouteBroker addr (r_Target r) (Z.of_nat (n + i))) l) ∧
            Forall (λ b, Z.of_nat n ≤ rb_priority b) (imap (λ i r, MkRouteBroker addr (r_Target r) (Z.of_nat (n + i))) l)).
  { intros H. apply (H 0%nat). }
  induction l as [|r l IH]; intros n; [by split; constructor|]. rewrite imap_cons.
  rewrite (imap_ext _ (λ i r, MkRouteBroker addr (r_Target r) (Z.of_nat (S n + i))))
    by (intros; unfold compose; do 2 f_equal; lia).
  destruct (IH (S n)) as [Hs Hf]. rewrite Nat.add_0_r.
  assert (Hle : Forall (λ b, Z.of_nat n ≤ rb_priority b)
            (imap (λ i r, MkRouteBroker addr (r_Target r) (Z.of_nat (S n + i))) l))
    by (eapply Forall_impl; [exact Hf|]; simpl; lia).
  split; constructor; simpl; try done.
Qed.

Lemma configured_address routes addr : Forall (λ b, rb_address b = addr) (configured routes addr).
Proof.
  unfold configured. apply Forall_lookup_2. intros i b Hb. apply list_lookup_imap_Some in Hb as (r & _ & ->). done.
Qed.

Lemma configured_snoc routes r addr :
  configured (routes ++ [r]) addr = configured routes addr ++
    (if decide (r_Address r = addr)
     then [MkRouteBroker addr (r_Target r) (Z.of_nat (length (configured routes addr)))] else []).
Proof.
  unfold configured. rewrite filter_app, length_imap, imap_app. cbn [filter list_filter].
  destruct (decide (r_Address r = addr)) as [He|He]; rewrite ?decide_True, ?decide_False by done; [|by rewrite imap_nil].
  f_equal. simpl. unfold compose. by rewrite Nat.add_0_r.
Qed.

Section prepare.
Context `{BridgeEnv} (dir : bytes) (file : bytes → option deviceBridgeCacheSnapshot).

Lemma prepare_route_spec p r p' routes : prepare_route dir file p r = Ok p' →
  (∀ addr, default [] (pr_routes p !! addr) = configured routes addr) →
  ∀ addr, default [] (pr_routes p' !! addr) = configured (routes ++ [r]) addr.
Proof.
  unfold prepare_route. intros Hp Hr addr. rewrite configured_snoc.
  destruct (r_Address r =? 0); [done|]. destruct (_ && _); [done|]. injection Hp as <-. cbn [pr_routes].
  destruct (decide (r_Address r = addr)) as [<-|Hne].
  - rewrite lookup_insert_eq. cbn [default from_option]. by rewrite Hr.
  - rewrite lookup_insert_ne by done. by rewrite Hr, app_nil_r.
Qed.

Lemma prepare_all_spec routes p addr : mfold (prepare_route dir file) (MkPrepared ∅ ∅ []) routes = Ok p →
  default [] (pr_routes p !! addr) = configured routes addr.
Proof.
  intros Hm. cut (∀ done_ p0, (∀ a, default [] (pr_routes p0 !! a) = configured done_ a) →
    mfold (prepare_route dir file) p0 routes = Ok p →
    ∀ a, default [] (pr_routes p !! a) = configured (done_ ++ routes) a).
  { intros Hc. apply (Hc [] (MkPrepared ∅ ∅ [])); [|done]. intros a. cbn [pr_routes]. by rewrite lookup_empty. }
  clear Hm addr. induction routes as [|r rs IH]; intros done_ p0 Hp0 Hm addr.
  - injection Hm as <-. by rewrite app_nil_r.
  - cbn [mfold] in Hm. apply bind_Ok_inv in Hm as (p1 & H1 & Hm).
    rewrite cons_middle, app_assoc. apply (IH (done_ ++ [r]) p1); [|done]. by apply prepare_route_spec with (p := p0).
Qed.
Lemma prepareRoutes_spec cfg p policy addr : prepareRoutes dir file cfg = Ok (p, policy) →
  default [] (pr_routes p !! addr) = configured (Routes cfg) addr.
Proof.
  unfold prepareRoutes. intros Hp. apply prepare_all_spec. destruct (Routes cfg) as [|r rs]; [done|].
  apply bind_Ok_inv in Hp as (pol & _ & Hp). apply bind_Ok_inv in Hp as (q & Hq & Hp). destruct (_ && _); [done|].
  apply bind_Ok_inv in Hp as (_ & _ & Hp). by injection Hp as <- _.
Qed.
End prepare.

(** ** Sending *)
Section routing.
Context `{BridgeEnv} {W : Type} `{RouteEnv W}.

Lemma send_sent c frame (rt rt' : Router W) o : send c frame rt = (rt', o) →
  rt_sent rt' = rt_sent rt ++ (if was_queued o then [(c, frame)] else []) ∧ rt_cache rt' = rt_cache rt.
Proof. unfold send. destruct (re_exchange c frame (rt_world rt)) as [w o']. by intros [= <- <-]. Qed.

(** The attempts at a candidate send the frame to that candidate only. *)
Lemma attempts_sent n rd more c rf cf (rt rt' : Router W) s : attempts_at n rd more c rf cf rt = (rt', s) →
  (∃ k, (k ≤ n)%nat ∧ rt_sent rt' = rt_sent rt ++ replicate k (c, cf)) ∧ rt_cache rt' = rt_cache rt.
Proof.
  revert rt. induction n as [|n IH]; intros rt Hat; cbn [attempts_at] in Hat.
  { injection Hat as <- <-. split; [|done]. exists 0%nat. split; [lia|]. by rewrite app_nil_r. }
  destruct (send c cf rt) as [rt1 o] eqn:Es. apply send_sent in Es as [Hs Hc].
  assert (Hq : ∃ k, (k ≤ 1)%nat ∧ rt_sent rt1 = rt_sent rt ++ replicate k (c, cf)).
  { destruct (was_queued o); [exists 1%nat|exists 0%nat]; (split; [lia|exact Hs]). }
  destruct Hq as (k & Hk & Hq).
  assert (Hstop : rt_sent rt' = rt_sent rt1 ∧ rt_cache rt' = rt_cache rt1 →
    (∃ k, (k ≤ S n)%nat ∧ rt_sent rt' = rt_sent rt ++ replicate k (c, cf)) ∧ rt_cache rt' = rt_cache rt).
  { intros [Hst ->]. split; [|done]. exists k. split; [lia|]. by rewrite Hst. }
  destruct o as [[resp|e]|e|e|q e].
  - destruct (if rd && more then _ else _); injection Hat as <- <-; apply Hstop; done.
  - destruct (rd && isTransientRouteReadError e && (0 <? n)%nat && alive rt1).
    + apply IH in Hat as [(k' & Hk' & Hs') Hc']. split; [|congruence]. exists (k + k')%nat. split; [lia|].
      by rewrite Hs', Hq, replicate_add, app_assoc.
    + injection Hat as <- _. by apply Hstop.
  - injection Hat as <- _. by apply Hstop.
  - injection Hat as <- _. by apply Hstop.
  - injection Hat as <- _. by apply Hstop.
Qed.

(** A command is settled by its first attempt. *)
Lemma attempts_command n more c rf cf (rt rt' : Router W) s : attempts_at (S n) false more c rf cf rt = (rt', s) →
  ∃ r, s = Final r.
Proof.
  cbn [attempts_at]. destruct (send c cf rt) as [rt1 [[resp|e]|e|e|q e]]; cbn [andb]; intros [= _ <-]; eauto.
Qed.

Definition device_frame (frame : bytes) (c : routeBroker) : bytes :=
  rewriteRouteAddressZeroRequest (rewriteRouteCompatibilityFrame frame) (rb_address c).

Lemma route_candidates_sent rd frame cs e (rt rt' : Router W) r :
  route_candidates rd (rewriteRouteCompatibilityFrame frame) cs e rt = (rt', r) →
  (∃ ks, Forall (λ k, k ≤ 2)%nat ks ∧ (length ks ≤ length cs)%nat ∧
    rt_sent rt' = rt_sent rt ++ concat (zip_with (λ c k, replicate k (c, device_frame frame c)) cs ks)) ∧
  rt_cache rt' = rt_cache rt.
Proof.
  revert e rt. induction cs as [|c cs IH]; intros e rt Hr; cbn [route_candidates] in Hr.
  { injection Hr as <- <-. split; [|done]. exists []. split; [constructor|]. split; [done|]. by rewrite app_nil_r. }
  destruct (attempts_at (if rd then 2 else 1) rd _ c _ _ rt) as [rt1 s] eqn:Ea.
  apply attempts_sent in Ea as [(k & Hk & Hs) Hc]. assert (Hk2 : (k ≤ 2)%nat) by (destruct rd; lia).
  destruct s as [r1|e1].
  - injection Hr as <- <-. split; [|done]. exists [k]. split; [by apply Forall_singleton|]. split; [simpl; lia|].
    rewrite Hs. f_equal. cbn [zip_with concat]. by rewrite zip_with_nil_r, app_nil_r.
  - apply IH in Hr as [(ks & Hks & Hl & Hs') Hc']. split; [|congruence]. exists (k :: ks).
    split; [by constructor|]. split; [simpl; lia|]. cbn [zip_with concat]. by rewrite Hs', Hs, <-app_assoc.
Qed.

Lemma route_command frame c cs e (rt rt' : Router W) r :
  route_candidates false (rewriteRouteCompatibilityFrame frame) (c :: cs) e rt = (rt', r) →
  rt_sent rt' = rt_sent rt ∨ rt_sent rt' = rt_sent rt ++ [(c, device_frame frame c)].
Proof.
  cbn [route_candidates]. destruct (attempts_at 1 false _ c _ _ rt) as [rt1 s] eqn:Ea.
  apply attempts_command in Ea as Hf. destruct Hf as [r1 ->]. apply attempts_sent in Ea as [(k & Hk & Hs) _].
  intros [= <- <-]. destruct k as [|[|k]]; [left|right|lia]; rewrite Hs; [by rewrite app_nil_r|done].
Qed.

Lemma Do_sent frame route (P : list (routeBroker * bytes) → Prop) (rt rt' : Router W) r :
  P (rt_sent rt) → (∀ rt0 rt1 r, rt_sent rt0 = rt_sent rt → route rt0 = (rt1, r) → P (rt_sent rt1)) →
  Do frame route rt = (rt', r) → P (rt_sent rt').
Proof.
  unfold Do. intros Hp Hroute HDo.
  destruct (rt_cache rt) as [c|]; [|by eapply Hroute].
  destruct (commandIdempotencyKey frame) as [key|]; [|by eapply Hroute].
  destruct (Do_claim _ key c) as [c1 [r0| |]].
  - by injection HDo as <- _.
  - destruct (re_wait key (rt_world rt)) as [w r0]. by injection HDo as <- _.
  - destruct (route (with_cache c1 rt)) as [rt1 r1] eqn:Er.
    assert (Hp1 : P (rt_sent rt1)) by (by eapply Hroute; [|exact Er]).
    injection HDo as <- _. by destruct (rt_cache rt1).
Qed.

(** The device a request is for. *)
Definition target_address (frame : bytes) (addressZero : Z) : res Z :=
  addr ← RequestAddress frame; Ok (if (addr =? 0) && negb (addressZero =? 0) then addressZero else addr).

Lemma select_candidates frame routes az policy (w : W) cs : selectRouteCandidates frame routes az policy w = Ok cs →
  ∃ addr, target_address frame az = Ok addr ∧ default [] (routes !! addr) ≠ [] ∧
          cs = orderRouteCandidates (default [] (routes !! addr)) policy (isMeComReadFrame frame) w.
Proof.
  unfold selectRouteCandidates, target_address. intros Hs. apply bind_Ok_inv in Hs as (a & -> & Hs).
  cbn [mbind result_bind]. eexists. split; [done|]. cbv zeta in Hs.
  destruct (bool_decide_reflect (default [] (routes !! (if (a =? 0) && negb (az =? 0) then az else a)) = [])); [done|].
  by injection Hs as <-.
Qed.

Lemma order_perm cs policy rd (w : W) : orderRouteCandidates cs policy rd w ≡ₚ cs.
Proof. unfold orderRouteCandidates. destruct (_ <=? _)%nat; [done|]. destruct (_ || _); apply sort_by_perm. Qed.

(** In the order of preference the configured order stays. *)
Lemma order_configured routes addr policy rd (w : W) : policy ≠ RouteSelectionDynamic ∨ rd = false →
  orderRouteCandidates (configured routes addr) policy rd w = configured routes addr.
Proof.
  intros Hp. unfold orderRouteCandidates. destruct (_ <=? _)%nat; [done|].
  assert (negb (bool_decide (policy = RouteSelectionDynamic)) || negb rd = true) as ->.
  { destruct Hp as [Hp| ->]; [by rewrite bool_decide_false|by rewrite orb_true_r]. }
  apply sort_by_sorted, configured_sorted.
Qed.

Lemma prefer_native_perm frame cs : preferNativeMeComRouteForVirtualRead frame cs ≡ₚ cs.
Proof using.
  unfold preferNativeMeComRouteForVirtualRead. destruct (_ || _); [done|]. case_bool_decide; [done|].
  clear. induction cs as [|c cs IH]; [done|]. rewrite !filter_cons.
  destruct (routeTargetIsNativeMeCom (rb_target c)); rewrite ?(decide_True (P := true = true)), ?(decide_False (P := true = false)),
    ?(decide_False (P := false = true)), ?(decide_True (P := false = false)) by done; [cbn [app]; by rewrite IH|].
  by rewrite <-Permutation_middle, IH.
Qed.

Lemma local_sent cs frame (rt rt' : Router W) resp : local_answer cs frame rt = Some (rt', resp) → rt_sent rt' = rt_sent rt.
Proof.
  unfold local_answer. intros Hl. apply bind_Some in Hl as (c & _ & Hl). apply bind_Some in Hl as (st & _ & Hl).
  apply bind_Some in Hl as ([st' r] & _ & Hl). by injection Hl as <- _.
Qed.
End routing.

(** ** Properties *)

(** C15: a command goes to one route and at most once.  Whatever the policy, the health of the
    routes and the outcome, a frame that is not a read enters at most one queue, one
    time: that of the first route the configuration lists for the device, with the
    address of that device.  A command is never replayed on a fallback route. *)
Theorem command_sent_once `{BridgeEnv} {W} `{RouteEnv W} (dir : bytes) (file : bytes → option deviceBridgeCacheSnapshot)
    (cfg : RouterConfig) (p : Prepared) (policy : bytes) (addressZero : Z) (frame : bytes)
    (rt rt' : Router W) (r : option bytes) :
  prepareRoutes dir file cfg = Ok (p, policy) → isMeComReadFrame frame = false →
  handleRoutedFrame (pr_routes p) policy addressZero frame rt = (rt', r) →
  rt_sent rt' = rt_sent rt ∨
  ∃ addr first others, target_address frame addressZero = Ok addr ∧
    filter (λ r, r_Address r = addr) (Routes cfg) = first :: others ∧
    rt_sent rt' = rt_sent rt ++
      [(MkRouteBroker addr (r_Target first) 0,
        rewriteRouteAddressZeroRequest (rewriteRouteCompatibilityFrame frame) addr)].
Proof.
  intros Hp Hrd Hh. unfold handleRoutedFrame in Hh. rewrite Hrd in Hh.
  destruct (selectRouteCandidates _ _ _ _ _) as [cs|e] eqn:Hsel; [|injection Hh as <- _; by left].
  apply select_candidates in Hsel as (addr & Ht & Hne & ->). rewrite (prepareRoutes_spec dir file cfg p policy) in Hne, Hh by done.
  rewrite Hrd, order_configured in Hh by (by right).
  destruct (local_answer _ frame rt) as [[rt1 resp]|] eqn:El; [injection Hh as <- _; left; by eapply local_sent|].
  destruct (Do frame _ rt) as [rt1 r1] eqn:Hdo. injection Hh as <- _.
  unfold configured in Hdo, Hne. destruct (filter _ (Routes cfg)) as [|first others] eqn:Ef; [done|]. clear Hne.
  assert (Hgo : ∀ l, l = rt_sent rt ∨ l = rt_sent rt ++ [(MkRouteBroker addr (r_Target first) 0, device_frame frame (MkRouteBroker addr (r_Target first) 0))] →
    l = rt_sent rt ∨ ∃ addr first others, target_address frame addressZero = Ok addr ∧
      filter (λ r, r_Address r = addr) (Routes cfg) = first :: others ∧
      l = rt_sent rt ++ [(MkRouteBroker addr (r_Target first) 0,
        rewriteRouteAddressZeroRequest (rewriteRouteCompatibilityFrame frame) addr)]).
  { intros l [->| ->]; [by left|right]. by exists addr, first, others. }
  apply Hgo. revert Hdo. apply Do_sent with (P := λ l, l = rt_sent rt ∨ l = _); [by left|].
  intros rt0 rt2 r2 Hs Hr. unfold routeFrame in Hr. rewrite Hrd, imap_cons in Hr. apply route_command in Hr.
  by rewrite Hs in Hr.
Qed.

(** A read tries the routes of its device in one order and each at most twice.  The requests a
    read puts on queues are, route by route in the order tried, zero, one or two copies
    of the request for that device; the routes tried are among those configured for
    the device, each once, and with fixed preference a read that is not of a virtual
    parameter tries them as configured. *)
Theorem read_attempts_bounded `{BridgeEnv} {W} `{RouteEnv W} (dir : bytes)
    (file : bytes → option deviceBridgeCacheSnapshot) (cfg : RouterConfig) (p : Prepared) (policy : bytes)
    (addressZero : Z) (frame : bytes) (rt rt' : Router W) (r : option bytes) :
  prepareRoutes dir file cfg = Ok (p, policy) → isMeComReadFrame frame = true →
  handleRoutedFrame (pr_routes p) policy addressZero frame rt = (rt', r) →
  rt_sent rt' = rt_sent rt ∨
  ∃ addr tried sends, target_address frame addressZero = Ok addr ∧
    tried ≡ₚ configured (Routes cfg) addr ∧
    (policy = RouteSelectionFixedPreference → isRouteVirtualRead (rewriteRouteCompatibilityFrame frame) = false →
     tried = configured (Routes cfg) addr) ∧
    Forall (λ k, k ≤ 2)%nat sends ∧ (length sends ≤ length tried)%nat ∧
    rt_sent rt' = rt_sent rt ++ concat (zip_with (λ c k, replicate k
      (c, rewriteRouteAddressZeroRequest (rewriteRouteCompatibilityFrame frame) (rb_address c))) tried sends).
Proof.
  intros Hp Hrd Hh. unfold handleRoutedFrame in Hh. rewrite Hrd in Hh.
  destruct (selectRouteCandidates _ _ _ _ _) as [cs|e] eqn:Hsel; [|injection Hh as <- _; by left].
  apply select_candidates in Hsel as (addr & Ht & _ & ->). rewrite (prepareRoutes_spec dir file cfg p policy) in Hh by done.
  rewrite Hrd in Hh. set (cs := orderRouteCandidates _ _ _ _) in Hh.
  destruct (local_answer cs frame rt) as [[rt1 resp]|] eqn:El; [injection Hh as <- _; left; by eapply local_sent|].
  destruct (routeFrame frame cs rt) as [rt1 r1] eqn:Hr. injection Hh as <- _. right.
  unfold routeFrame in Hr. rewrite Hrd in Hr. apply route_candidates_sent in Hr as [(ks & Hks & Hl & Hs) _].
  exists addr, (preferNativeMeComRouteForVirtualRead (rewriteRouteCompatibilityFrame frame) cs), ks.
  split; [done|]. split; [|split; [|done]].
  - rewrite <-(order_perm (configured (Routes cfg) addr) policy true (rt_world rt)). fold cs.
    apply prefer_native_perm.
  - intros -> Hv. unfold preferNativeMeComRouteForVirtualRead. rewrite Hv, orb_true_r. unfold cs.
    by apply order_configured; left.
Qed.

(** Two routes to device 5: a serial line, and a CAN bus behind it. *)
Definition two_routes : RouterConfig :=
  MkRouterConfig [MkRoute 5 (str "serial:/dev/ttyUSB0") false; MkRoute 5 (str "can:0/5") true] 0 [] (str "fixed") 0.
Definition two_routes_prepared : Prepared :=
  match @prepareRoutes small_env [] (λ _, None) two_routes with Ok (p, _) => p | Err _ => MkPrepared ∅ ∅ [] end.
Definition two_routes_router (script : list outcome) : Router (list outcome) :=
  MkRouter script (pr_states two_routes_prepared) (newCommandIdempotencyCache 0) [].

Lemma command_sent_once_witness :
  let frame := appendCRC 5 8 (str "VS07D00100000005") in
  let '(rt', _) := @handleRoutedFrame small_env _ script_env (pr_routes two_routes_prepared) RouteSelectionFixedPreference
                     0 frame (two_routes_router []) in
  rt_sent rt' = [] ∨ ∃ addr first others, target_address frame 0 = Ok addr ∧
    filter (λ r, r_Address r = addr) (Routes two_routes) = first :: others ∧
    rt_sent rt' = [(MkRouteBroker addr (r_Target first) 0,
                    rewriteRouteAddressZeroRequest (rewriteRouteCompatibilityFrame frame) addr)].
Proof.
  intros frame. destruct (handleRoutedFrame _ _ _ _ _) as [rt' r] eqn:E.
  apply (@command_sent_once small_env _ script_env [] (λ _, None) two_routes two_routes_prepared
    RouteSelectionFixedPreference 0 frame (two_routes_router []) rt' r); [reflexivity|reflexivity|exact E].
Defined.

Lemma read_attempts_bounded_witness :
  let frame := appendCRC 5 8 (str "?VR03E801") in
  let '(rt', _) := @handleRoutedFrame small_env _ script_env (pr_routes two_routes_prepared) RouteSelectionFixedPreference
                     0 frame (two_routes_router [Responded (Err (Sentinel IoEOF))]) in
  length (rt_sent rt') = 3%nat ∧
  (rt_sent rt' = [] ∨ ∃ addr tried sends, target_address frame 0 = Ok addr ∧
    tried ≡ₚ configured (Routes two_routes) addr ∧
    (RouteSelectionFixedPreference = RouteSelectionFixedPreference →
     @isRouteVirtualRead small_env (rewriteRouteCompatibilityFrame frame) = false →
     tried = configured (Routes two_routes) addr) ∧
    Forall (λ k, k ≤ 2)%nat sends ∧ (length sends ≤ length tried)%nat ∧
    rt_sent rt' = concat (zip_with (λ c k, replicate k
      (c, rewriteRouteAddressZeroRequest (rewriteRouteCompatibilityFrame frame) (rb_address c))) tried sends)).
Proof.
  intros frame. destruct (handleRoutedFrame _ _ _ _ _) as [rt' r] eqn:E. split.
  { vm_compute in E. by injection E as <- _. }
  apply (@read_attempts_bounded small_env _ script_env [] (λ _, None) two_routes two_routes_prepared
    RouteSelectionFixedPreference 0 frame (two_routes_router [Responded (Err (Sentinel IoEOF))]) rt' r); [reflexivity|reflexivity|exact E].
Defined.
