(* ===== verification/RoutedRead.v ===== *)
(** * RoutedRead: a read from an ASCII client through the router to a device

    The composition of the client ([Client.v]), the router ([Router.v]) and a device
    (or a bridge to one, [BridgeFrames.v]): routes that cannot answer are passed over,
    and the client gets the value of the first that can, also when it uses address
    zero. *)
From stdpp Require Import prelude gmap strings list.
From Stdlib Require Import Strings.Byte.
From S2P Require Import Prelude Text Floats Crc Broker Endpoint SdoMap Protocol Client CanClients DeviceBridge BridgePayload.
From S2P Require Import BridgeFrames Router RouterFrames Routing.
Open Scope Z_scope.

(** ** Routes a read passes over *)
Section passing.
Context `{BridgeEnv} {W : Type} `{RouteEnv W}.

(** An outcome that leaves the request to the next route. *)
Definition unusable (frame : bytes) (rt : Router W) (o : outcome) : Prop :=
  match o with
  | NotQueued _ | NoResult _ => alive rt = true
  | Stopped _ _ => False
  | Responded (Err _) => True
  | Responded (Ok resp) => is_Some (falls_through frame resp)
  end.
Definition retried (rt : Router W) (o : outcome) : bool :=
  match o with Responded (Err e) => isTransientRouteReadError e && alive rt | _ => false end.

Inductive gives_up (c : routeBroker) (frame : bytes) (rt rt' : Router W) : Prop :=
  | gives_up_first o :
      send c frame rt = (rt', o) → unusable frame rt' o → retried rt' o = false → gives_up c frame rt rt'
  | gives_up_second rt1 o1 o2 :
      send c frame rt = (rt1, o1) → retried rt1 o1 = true →
      send c frame rt1 = (rt', o2) → unusable frame rt' o2 → gives_up c frame rt rt'.
Inductive passes (frame : bytes) : list routeBroker → Router W → Router W → Prop :=
  | passes_none rt : passes frame [] rt rt
  | passes_one c cs rt rt1 rt2 : gives_up c frame rt rt1 → passes frame cs rt1 rt2 → passes frame (c :: cs) rt rt2.

Lemma last_attempt c rf cf (rt rt' : Router W) o : send c cf rt = (rt', o) → unusable cf rt' o →
  ∃ e, attempts_at 1 true true c rf cf rt = (rt', NextCandidate e).
Proof.
  intros Hs Hu. cbn [attempts_at]. rewrite Hs. destruct o as [[resp|e]|e|e|q e]; cbn in Hu |- *.
  - destruct Hu as [code ->]. by eexists.
  - rewrite !andb_false_r. by eexists.
  - rewrite Hu. by eexists.
  - rewrite Hu. by eexists.
  - done.
Qed.

Lemma gives_up_attempts c rf cf (rt rt' : Router W) : gives_up c cf rt rt' →
  ∃ e, attempts_at 2 true true c rf cf rt = (rt', NextCandidate e).
Proof.
  assert (Htwo : ∀ rt1 o, send c cf rt = (rt1, o) → retried rt1 o = true →
    attempts_at 2 true true c rf cf rt = attempts_at 1 true true c rf cf rt1).
  { intros rt1 o Hs Hr. destruct o as [[resp|e]|e|e|q e]; try done. cbn in Hr.
    remember 1%nat as one eqn:Ho. cbn [attempts_at]. rewrite Hs. subst one. cbn [Nat.ltb Nat.leb andb].
    apply andb_prop in Hr as [-> ->]. done. }
  intros [o Hs Hu Hr|rt1 o1 o2 Hs1 Hr Hs2 Hu].
  - remember 1%nat as one eqn:Ho. cbn [attempts_at]. rewrite Hs. destruct o as [[resp|e]|e|e|q e]; cbn in Hu, Hr |- *.
    + destruct Hu as [code ->]. by eexists.
    + subst one. change (0 <? 1)%nat with true. rewrite andb_true_r, Hr. by eexists.
    + rewrite Hu. by eexists.
    + rewrite Hu. by eexists.
    + done.
  - rewrite (Htwo _ _ Hs1 Hr). by eapply last_attempt.
Qed.

(** A route that answers, after routes that gave up. *)
Lemma route_passes rf dev frame skipped good later e (rt rt1 rt2 : Router W) resp :
  Forall (λ c, rb_address c = dev) (skipped ++ good :: later) →
  rewriteRouteAddressZeroRequest rf dev = frame →
  passes frame skipped rt rt1 → send good frame rt1 = (rt2, Responded (Ok resp)) → falls_through frame resp = None →
  route_candidates true rf (skipped ++ good :: later) e rt =
    (observe good frame resp rt2, Ok (restoreRouteAddressZeroResponse rf resp)).
Proof.
  intros Ha Hf Hp Hs Hn. revert e Ha. induction Hp as [rt|c cs rt rta rtb Hg _ IH]; intros e Ha.
  - cbn [app route_candidates]. apply Forall_app in Ha as [_ Ha]. apply Forall_cons in Ha as [-> _]. rewrite Hf.
    remember 1%nat as one. cbn [attempts_at]. rewrite Hs, Hn.
    by destruct (true && negb (bool_decide (later = []))).
  - cbn [app] in Ha |- *. apply Forall_cons in Ha as [Hc Ha]. cbn [route_candidates]. rewrite Hc, Hf.
    rewrite bool_decide_false by (by destruct cs). cbn [negb].
    destruct (gives_up_attempts c rf frame rt rta Hg) as [e1 ->]. by apply IH.
Qed.
End passing.

(** ** Frames of a read *)
Section read.
Context (addr dev sq id instance : Z).
Context (Ha : 0 ≤ addr < 256) (Hd : 0 < dev < 256) (Hs : 0 ≤ sq < 65536) (Hid : 0 ≤ id ≤ 0xFFFF) (Hi : 0 ≤ instance ≤ 0xFF).
Let body : bytes := str "?VR" ++ address_field id instance.

Lemma upper_body : ToUpper body = body.
Proof using Hid Hi. unfold body. by rewrite ToUpper_app, ToUpper_address_field by done. Qed.

Lemma read_routed : addr = 0 ∨ addr = dev →
  rewriteRouteAddressZeroRequest (BuildSingleGetFrame addr sq id instance) dev = BuildSingleGetFrame dev sq id instance.
Proof using Ha Hd Hs Hid Hi.
  unfold BuildSingleGetFrame. change (str "?VR" ++ fmtX 4 id ++ fmtX 2 instance) with body.
  intros [-> | ->]; [by rewrite request_to_device, upper_body by lia|by apply request_kept; lia].
Qed.

Lemma read_compatible : rewriteRouteCompatibilityFrame (BuildSingleGetFrame addr sq id instance) =
  BuildSingleGetFrame addr sq id instance.
Proof using Ha Hs Hid Hi.
  apply request_compatible; [done|done|]. change (str "?VR" ++ fmtX 4 id ++ fmtX 2 instance) with body.
  rewrite upper_body. done.
Qed.

Lemma read_is_read : isMeComReadFrame (BuildSingleGetFrame addr sq id instance) = true.
Proof using Ha Hs. unfold BuildSingleGetFrame. by rewrite request_is_read by done. Qed.

Lemma read_restored payload : addr = 0 ∨ addr = dev → payload ≠ [] →
  restoreRouteAddressZeroResponse (BuildSingleGetFrame addr sq id instance) (response (request_header dev sq) payload) =
  response (request_header addr sq) payload.
Proof using Hd Hs Ha.
  intros Hor Hp. unfold restoreRouteAddressZeroResponse, BuildSingleGetFrame. rewrite request_addressed by lia.
  destruct Hor as [-> | ->]; [by rewrite rewrite_response by (done || lia)|]. by destruct (Z.eqb_spec dev 0); [lia|].
Qed.

Lemma read_not_local `{BridgeEnv} st : handleDeviceBridgeRouterLocalFrame (BuildSingleGetFrame addr sq id instance) st = None.
Proof using Ha Hs Hid Hi.
  unfold handleDeviceBridgeRouterLocalFrame, BuildSingleGetFrame. rewrite parse_built_request by done.
  cbn [rq_payload]. change (str "?VR" ++ fmtX 4 id ++ fmtX 2 instance) with body. by rewrite upper_body.
Qed.
End read.

(** A value is not a refusal. *)
Lemma value_no_nack header b t : length header = 6%nat → b ≠ "-"%byte → meComResponseNACKCode (response header (b :: t)) = None.
Proof.
  intros Hh Hb. unfold meComResponseNACKCode. rewrite length_response_trim, response_first by done.
  rewrite (bool_decide_true (Some "!"%byte = _)) by done.
  destruct (Nat.ltb_spec (11 + length (b :: t)) 10); [lia|]. rewrite response_trim.
  rewrite app_comm_cons, <-app_assoc, lookup_app_r by (simpl; lia). cbn [length]. rewrite Hh. simpl (_ !! _).
  by rewrite bool_decide_false by congruence.
Qed.

(** The text of a value of a numeric type. *)
Definition answer_text (t : DataType) (w : Z) : bytes :=
  if bool_decide (t = DataTypeInt32) then fmt_int (to_int (word_value t w)) else fmt_float (word_value t w).

Lemma answer_text_fix t w : ∃ z, answer_text t w = hex_fix 8 z.
Proof.
  unfold answer_text, fmt_int, fmt_float. case_bool_decide; eexists;
    (rewrite fmtX_fix; [done|lia|]); pose proof (u32_range (to_int (word_value t w)));
    pose proof (u32_range (Float32bits (to_f32 (word_value t w)))); simpl; lia.
Qed.

(** ** The property *)

(** C1: an ASCII client reads through the router what a device answers on the first route
    that can.  The client addresses the device, or address zero that is leased to it;
    routes before the answering one fail in any of the ways that do not end the
    server (no room in the queue, no result in time, an error once or, when it may
    be transient, twice, a refusal that other routes may answer).  The client's frame
    is then answered with the device's value under the client's own address and
    sequence number, the client decodes that value, and the router's cache of the
    device has seen the exchange. *)
Theorem routed_read_end_to_end `{BridgeEnv} {W} `{RouteEnv W} (dir : bytes)
    (file : bytes → option deviceBridgeCacheSnapshot) (cfg : RouterConfig) (p : Prepared) (policy : bytes)
    (addressZero dev id instance w : Z) (t : DataType) (c : Client)
    (skipped later : list routeBroker) (good : routeBroker) (rt rt1 rt2 : Router W) :
  let sq := snd (nextSeqLocked c) in
  let frame := BuildSingleGetFrame (address c) sq id instance in
  let dev_frame := BuildSingleGetFrame dev sq id instance in
  let answer := response (request_header dev sq) (answer_text t w) in
  prepareRoutes dir file cfg = Ok (p, policy) →
  0 ≤ address c < 256 → 0 ≤ seq c < 65536 → 0 ≤ id ≤ 0xFFFF → 1 ≤ instance ≤ 0xFF →
  t = DataTypeFloat32 ∨ t = DataTypeInt32 → 0 ≤ w < 2 ^ 32 →
  0 < dev < 256 → address c = 0 ∧ addressZero = dev ∨ address c = dev →
  preferNativeMeComRouteForVirtualRead frame
    (orderRouteCandidates (configured (Routes cfg) dev) policy true (rt_world rt)) = skipped ++ good :: later →
  passes dev_frame skipped rt rt1 → send good dev_frame rt1 = (rt2, Responded (Ok answer)) →
  handleRoutedFrame (pr_routes p) policy addressZero frame rt =
    (observe good dev_frame answer rt2, Some (response (request_header (address c) sq) (answer_text t w))) ∧
  ∀ ev rest, incoming (rw c) = ev ++ rest → delivers (response (request_header (address c) sq) (answer_text t w)) ev →
    readNumeric id instance t quiet c = (after c frame rest, Ok (word_value t w)).
Proof.
  intros sq frame dev_frame answer Hp Ha Hq Hid Hi Ht Hw Hd Hor Hc Hpass Hsend.
  pose proof (nextSeq_range c Hq) as Hs. fold sq in Hs.
  assert (Haddr : address c = 0 ∨ address c = dev) by tauto.
  destruct (answer_text_fix t w) as [z Hz].
  assert (Hne : answer_text t w ≠ []) by (rewrite Hz; intros E; by apply (f_equal length) in E; rewrite length_hex_fix in E).
  split; [|intros ev rest Hin Hdel; erewrite read_delivers; [|lia|lia|exact Hin|exact Hdel|]; fold sq].
  - assert (Hreq : RequestAddress frame = Ok (address c)) by (apply request_RequestAddress; lia).
    assert (Hrd : isMeComReadFrame frame = true) by (apply read_is_read; lia).
    assert (Hcomp : rewriteRouteCompatibilityFrame frame = frame) by (apply read_compatible; lia).
    assert (Hloc : ∀ st, handleDeviceBridgeRouterLocalFrame frame st = None) by (intros st; apply read_not_local; lia).
    unfold handleRoutedFrame, selectRouteCandidates. rewrite Hreq. cbn [mbind result_bind]. cbv zeta.
    assert ((if (address c =? 0) && negb (addressZero =? 0) then addressZero else address c) = dev) as ->.
    { destruct Hor as [[-> ->]| ->]; by destruct (Z.eqb_spec dev 0); [lia|]. }
    rewrite (prepareRoutes_spec dir file cfg p policy), Hrd by done. set (order := orderRouteCandidates _ _ _ _) in *.
    assert (Hperm : skipped ++ good :: later ≡ₚ configured (Routes cfg) dev).
    { rewrite <-Hc, <-(order_perm (configured (Routes cfg) dev) policy true (rt_world rt)). apply prefer_native_perm. }
    rewrite bool_decide_false by (intros E; rewrite E in Hperm; by apply Permutation_nil_r in Hperm; destruct skipped).
    assert (local_answer order frame rt = None) as ->.
    { unfold local_answer. destruct (head order) as [c0|]; [|done]. cbn [mbind option_bind].
      destruct (rt_states rt !! rb_address c0); [|done]. cbn [mbind option_bind]. by rewrite Hloc. }
    unfold routeFrame. rewrite Hrd, Hcomp, Hc.
    rewrite (route_passes frame dev dev_frame skipped good later _ rt rt1 rt2 answer); try done.
    + unfold answer, frame. by rewrite (read_restored (address c) dev) by (done || lia).
    + eapply Permutation_Forall; [symmetry; exact Hperm|apply configured_address].
    + apply read_routed; (lia || done).
    + unfold falls_through, answer. destruct (answer_text t w) as [|b l] eqn:E; [done|].
      rewrite value_no_nack; [done|by apply length_request_header|].
      intros ->. pose proof (hex_fix_is_hex 8 z) as Hx. rewrite <-Hz in Hx. apply Forall_cons in Hx as [Hx _]. done.
  - unfold answer_text. by rewrite fmt_word.
  - apply response_terminated; [unfold request_header; rewrite not_elem_of_app; split|rewrite Hz];
      apply hex_no_terminator, hex_fix_is_hex.
Qed.

(** Device 5 read under address zero: the serial route fails twice, the CAN route answers. *)
Definition dead_route : routeBroker := MkRouteBroker 5 (str "serial:/dev/ttyUSB0") 0.
Definition live_route : routeBroker := MkRouteBroker 5 (str "can:0/5") 1.
Definition zero_client (events : bytes) : Client := MkClient 0 7 (MkConn ((λ b, (Some b, None)) <$> events) []).
Definition the_answer : bytes := response (request_header 5 8) (answer_text DataTypeFloat32 0x40490fdb).
Definition failover_script : list outcome :=
  [Responded (Err (Sentinel IoEOF)); Responded (Err (Sentinel ECONNRESET)); Responded (Ok the_answer)].
Definition failover : Router (list outcome) := two_routes_router failover_script.
Definition failed_once : Router (list outcome) := MkRouter (tail failover_script) (rt_states failover) (rt_cache failover)
  [(dead_route, BuildSingleGetFrame 5 8 1000 2)].
Definition failed_twice : Router (list outcome) := MkRouter [Responded (Ok the_answer)] (rt_states failover) (rt_cache failover)
  [(dead_route, BuildSingleGetFrame 5 8 1000 2); (dead_route, BuildSingleGetFrame 5 8 1000 2)].
Definition answered_read : Router (list outcome) := MkRouter [] (rt_states failover) (rt_cache failover)
  (rt_sent failed_twice ++ [(live_route, BuildSingleGetFrame 5 8 1000 2)]).

Lemma routed_read_end_to_end_witness :
  let events := response (request_header 0 8) (answer_text DataTypeFloat32 0x40490fdb) in
  @handleRoutedFrame small_env _ script_env (pr_routes two_routes_prepared) RouteSelectionFixedPreference 5
    (BuildSingleGetFrame 0 8 1000 2) failover =
    (@observe small_env _ live_route (BuildSingleGetFrame 5 8 1000 2) the_answer answered_read, Some events) ∧
  ∀ ev rest, incoming (rw (zero_client events)) = ev ++ rest → delivers events ev →
    readNumeric 1000 2 DataTypeFloat32 quiet (zero_client events) =
      (after (zero_client events) (BuildSingleGetFrame 0 8 1000 2) rest, Ok (word_value DataTypeFloat32 0x40490fdb)).
Proof.
  intros events.
  apply (@routed_read_end_to_end small_env _ script_env [] (λ _, None) two_routes two_routes_prepared
    RouteSelectionFixedPreference 5 5 1000 2 0x40490fdb DataTypeFloat32 (zero_client events)
    [dead_route] [] live_route failover failed_twice answered_read);
    try (reflexivity || (simpl; lia) || by left).
  apply (@passes_one small_env _ script_env) with (rt1 := failed_twice); [|constructor].
  by apply (@gives_up_second small_env _ script_env _ _ _ _ failed_once
    (Responded (Err (Sentinel IoEOF))) (Responded (Err (Sentinel ECONNRESET)))).
Defined.
