(* ===== verification/CommandCache.v ===== *)
(** * CommandCache: the commands the router does not repeat ([mecomserver/router.go])

    The command cache is shared by all clients.  A command is claimed under one lock
    and completed under another, with the request to the device between the two;
    clients interleave in any order.  The steps of the cache are a relation on the
    cache, the clock of the last step, and a log of what was claimed and completed,
    the latest first. *)
From stdpp Require Import prelude gmap strings list relations.
From Stdlib Require Import Strings.Byte.
From S2P Require Import Prelude Text Protocol SdoMap Endpoint Broker DeviceBridge BridgePayload CanClients BridgeFrames Router.
From S2P Require Import RouterFrames Routing.
Open Scope Z_scope.

(** ** Steps *)
Inductive cache_event :=
  | Claimed (t : Z) (key : bytes)
  | Completed (t : Z) (key : bytes) (r : res bytes).
Definition event_key (ev : cache_event) : bytes := match ev with Claimed _ k | Completed _ k _ => k end.

Record cache_system := MkCacheSystem {
  cs_cache : commandIdempotencyCache;
  cs_clock : Z;
  cs_log : list cache_event }.

Inductive cache_step : cache_system → cache_system → Prop :=
  | step_claim s now key c out :
      cs_clock s ≤ now → Do_claim now key (cs_cache s) = (c, out) →
      cache_step s (MkCacheSystem c now (match out with Lead => [Claimed now key] | _ => [] end ++ cs_log s))
  | step_complete s now key r e :
      cs_clock s ≤ now → cc_entries (cs_cache s) !! key = Some e → ce_completed e = false →
      cache_step s (MkCacheSystem (Do_complete now key r (cs_cache s)) now (Completed now key r :: cs_log s)).

Definition cache_init (ttl t : Z) : cache_system := MkCacheSystem (MkCache ttl ∅) t [].

(** The last event of a command. *)
Fixpoint status (key : bytes) (log : list cache_event) : option cache_event :=
  match log with
  | [] => None
  | ev :: log' => if bool_decide (event_key ev = key) then Some ev else status key log'
  end.

(** ** The invariant *)
Definition cached_entry_ok (ttl clock : Z) (o : option cache_event) (e : option commandIdempotencyEntry) : Prop :=
  match o with
  | None => e = None
  | Some (Claimed _ _) => ∃ e', e = Some e' ∧ ce_completed e' = false
  | Some (Completed t _ r) => e = Some (MkEntry true (t + ttl) r) ∨ e = None ∧ t + ttl < clock
  end.
Definition spaced (ttl : Z) (log : list cache_event) : Prop :=
  ∀ l1 l2 l3 t1 t2 key, log = l3 ++ Claimed t2 key :: l2 ++ Claimed t1 key :: l1 →
    ∃ t r, Completed t key r ∈ l2 ∧ t + ttl ≤ t2.
Record cache_ok (ttl : Z) (s : cache_system) : Prop := MkCacheOk {
  ok_ttl : cc_ttl (cs_cache s) = ttl;
  ok_entries : ∀ key, cached_entry_ok ttl (cs_clock s) (status key (cs_log s)) (cc_entries (cs_cache s) !! key);
  ok_spaced : spaced ttl (cs_log s) }.

Lemma status_key key log ev : status key log = Some ev → event_key ev = key.
Proof.
  induction log as [|ev' log IH]; [done|]. cbn [status]. case_bool_decide; [|done]. by intros [= <-].
Qed.

(** After a claim, only a completion makes room for another. *)
Lemma status_completed key l2 t1 l1 t r : status key (l2 ++ Claimed t1 key :: l1) = Some (Completed t key r) →
  Completed t key r ∈ l2.
Proof.
  induction l2 as [|ev l2 IH]; cbn [app status].
  - by rewrite bool_decide_true.
  - case_bool_decide; [intros [= ->]; left|right; by apply IH].
Qed.
Lemma status_none key l2 t1 l1 : status key (l2 ++ Claimed t1 key :: l1) ≠ None.
Proof.
  induction l2 as [|ev l2 IH]; cbn [app status]; [by rewrite bool_decide_true|]. by case_bool_decide.
Qed.

Lemma entry_later ttl clock clock' o e : clock ≤ clock' → cached_entry_ok ttl clock o e → cached_entry_ok ttl clock' o e.
Proof. intros Hc. destruct o as [[?|? ? ?]|]; [done| |done]. intros [?|[? ?]]; [by left|right]. split; [done|lia]. Qed.

(** What pruning leaves of an entry. *)
Lemma prune_lookup now c key :
  cc_entries (pruneLocked now c) !! key =
    (e ← cc_entries c !! key; if ce_completed e && (ce_expires e <? now) then None else Some e).
Proof.
  unfold pruneLocked. cbn [cc_entries]. rewrite map_lookup_filter. destruct (cc_entries c !! key) as [e|]; [|done].
  cbn [mbind option_bind fst snd].
  destruct (ce_completed e && (ce_expires e <? now)); [by rewrite option_guard_False|by rewrite option_guard_True].
Qed.
Lemma prune_ok ttl clock now o c key : clock ≤ now →
  cached_entry_ok ttl clock o (cc_entries c !! key) → cached_entry_ok ttl now o (cc_entries (pruneLocked now c) !! key).
Proof.
  intros Hc. rewrite prune_lookup. destruct o as [[t k|t k r]|]; cbn [cached_entry_ok].
  - intros (e & -> & He). cbn [mbind option_bind]. rewrite He. by exists e.
  - intros [-> | [-> ?]]; [|right; split; [done|lia]]. cbn [mbind option_bind ce_completed ce_expires andb].
    destruct (Z.ltb_spec (t + ttl) now); [by right|by left].
  - by intros ->.
Qed.

(** What a claim means. *)
Lemma claim_spec now key c c' out : Do_claim now key c = (c', out) →
  cc_ttl c' = cc_ttl c ∧
  match out with
  | Cached r => c' = pruneLocked now c ∧
      ∃ e, cc_entries (pruneLocked now c) !! key = Some e ∧ ce_completed e = true ∧ now < ce_expires e ∧ ce_result e = r
  | UnderWay => c' = pruneLocked now c ∧
      ∃ e, cc_entries (pruneLocked now c) !! key = Some e ∧ ce_completed e = false
  | Lead => cc_entries c' = <[key := MkEntry false 0 (Ok [])]> (cc_entries (pruneLocked now c)) ∧
      ∀ e, cc_entries (pruneLocked now c) !! key = Some e → ce_completed e = true ∧ ce_expires e ≤ now
  end.
Proof.
  unfold Do_claim. cbv zeta. destruct (cc_entries (pruneLocked now c) !! key) as [e|] eqn:E.
  - destruct (ce_completed e) eqn:Hc; cbn [negb]; [|intros [= <- <-]; split; [done|]; split; [done|]; by exists e].
    destruct (Z.ltb_spec now (ce_expires e)); intros [= <- <-].
    + split; [done|]. split; [done|]. by exists e.
    + split; [done|]. split; [done|]. intros e' [= <-]. by split.
  - intros [= <- <-]. split; [done|]. by split.
Qed.

Lemma cache_step_ok ttl s s' : 0 ≤ ttl → cache_ok ttl s → cache_step s s' → cache_ok ttl s'.
Proof.
  intros Httl [Ht He Hsp] Hstep. destruct Hstep as [s now key c out Hn Hc|s now key r e Hn Hl Hf].
  - apply claim_spec in Hc as [Htt Hout].
    assert (Hpr : ∀ k, cached_entry_ok ttl now (status k (cs_log s)) (cc_entries (pruneLocked now (cs_cache s)) !! k))
      by (intros k; by eapply prune_ok).
    destruct out as [r| |].
    + destruct Hout as [-> _]. by split.
    + destruct Hout as [-> _]. by split.
    + destruct Hout as [Hce Hold]. split; cbn [cs_cache cs_clock cs_log app]; [congruence| |].
      * intros k. cbn [status event_key]. rewrite Hce. case_bool_decide as Hk.
        { subst k. rewrite lookup_insert_eq. by eexists. }
        by rewrite lookup_insert_ne.
      * intros l1 l2 l3 t1 t2 k Hlog. destruct l3 as [|ev l3]; cbn [app] in Hlog;
          [injection Hlog as -> -> Hlog|injection Hlog as _ Hlog; by eapply Hsp].
        specialize (Hpr k). rewrite Hlog in Hpr.
        destruct (status k (l2 ++ Claimed t1 k :: l1)) as [[t k'|t k' r]|] eqn:Es; [| |by apply status_none in Es].
        { destruct Hpr as (e & Hl & Hf). apply Hold in Hl as [Hl _]. congruence. }
        apply status_key in Es as Hk. cbn in Hk. subst k'. exists t, r. split; [by eapply status_completed|].
        destruct Hpr as [Hl|[_ ?]]; [apply Hold in Hl as [_ Hl]; exact Hl|lia].
  - split; cbn [cs_cache cs_clock cs_log]; [done| |].
    + intros k. cbn [status event_key Do_complete cc_entries]. case_bool_decide as Hk.
      * subst k. rewrite lookup_insert_eq, Ht. by left.
      * rewrite lookup_insert_ne by done. by eapply entry_later.
    + intros l1 l2 l3 t1 t2 k Hlog. destruct l3 as [|ev l3]; [done|]. injection Hlog as _ Hlog. by eapply Hsp.
Qed.

Lemma cache_reachable_ok ttl t s : 0 ≤ ttl → rtc cache_step (cache_init ttl t) s → cache_ok ttl s.
Proof.
  intros Httl Hr. assert (Hinit : cache_ok ttl (cache_init ttl t)).
  { split; [done| |]; [intros key; cbn [cache_init cs_cache cc_entries]; by rewrite lookup_empty|]. intros l1 l2 [|? ?] ? ? ? [=]. }
  revert Hinit. induction Hr as [s|s s1 s2 Hs _ IH]; [done|]. intros Hok. apply IH. by eapply cache_step_ok.
Qed.

(** ** Properties *)

(** C21: the same command is not sent to a device twice within the time the cache keeps it.
    For every interleaving of clients and every clock that does not run backwards:
    between two times a command is taken to be sent, its first sending was completed,
    at least the configured time before the second; and a client that is answered from
    the cache gets the result of the last sending, which is younger than that time. *)
Theorem commands_at_most_once (ttl t0 : Z) (s : cache_system) :
  0 ≤ ttl → rtc cache_step (cache_init ttl t0) s →
  (∀ later between before t1 t2 key,
     cs_log s = later ++ Claimed t2 key :: between ++ Claimed t1 key :: before →
     ∃ t r, Completed t key r ∈ between ∧ t + ttl ≤ t2) ∧
  (∀ now key c r, cs_clock s ≤ now → Do_claim now key (cs_cache s) = (c, Cached r) →
     ∃ t, status key (cs_log s) = Some (Completed t key r) ∧ now < t + ttl).
Proof.
  intros Httl Hr. apply cache_reachable_ok in Hr as [Ht He Hsp]; [|done].
  split; [intros later between before t1 t2 key; by apply Hsp|].
  intros now key c r Hn Hc. apply claim_spec in Hc as (_ & _ & e & Hl & Hcomp & Hexp & Hres).
  specialize (He key). apply prune_ok with (now := now) in He; [|done]. rewrite Hl in He.
  destruct (status key (cs_log s)) as [[t k|t k r']|] eqn:Es; cbn [cached_entry_ok] in He.
  - destruct He as (e' & [= <-] & ?). congruence.
  - apply status_key in Es as Hk. cbn in Hk. subst k. destruct He as [[= ->]|[? _]]; [|done].
    cbn in Hres, Hexp. subst r'. by exists t.
  - done.
Qed.

(** A command sent, completed, answered from the cache, and sent again. *)
Definition cache_run : cache_system :=
  let c1 := (Do_claim 10 (str "RS") (MkCache 5 ∅)).1 in
  let c2 := Do_complete 11 (str "RS") (Ok (str "+")) c1 in
  let c3 := (Do_claim 20 (str "RS") c2).1 in
  MkCacheSystem c3 20 [Claimed 20 (str "RS"); Completed 11 (str "RS") (Ok (str "+")); Claimed 10 (str "RS")].

Lemma commands_at_most_once_witness :
  ∃ t r, Completed t (str "RS") r ∈ [Completed 11 (str "RS") (Ok (str "+"))] ∧ t + 5 ≤ 20.
Proof.
  destruct (commands_at_most_once 5 0 cache_run) as [Hone _]; [lia| |].
  - apply rtc_l with (MkCacheSystem (Do_claim 10 (str "RS") (MkCache 5 ∅)).1 10 [Claimed 10 (str "RS")]).
    { apply (step_claim (cache_init 5 0) 10 (str "RS") _ Lead); [simpl; lia|reflexivity]. }
    set (s1 := MkCacheSystem _ _ _).
    apply rtc_l with (MkCacheSystem (Do_complete 11 (str "RS") (Ok (str "+")) (cs_cache s1)) 11
      [Completed 11 (str "RS") (Ok (str "+")); Claimed 10 (str "RS")]).
    { apply (step_complete s1 11 (str "RS") (Ok (str "+")) (MkEntry false 0 (Ok []))); [simpl; lia|reflexivity|reflexivity]. }
    set (s2 := MkCacheSystem _ 11 _).
    apply rtc_once. apply (step_claim s2 20 (str "RS") _ Lead); [simpl; lia|reflexivity].
  - apply (Hone [] [Completed 11 (str "RS") (Ok (str "+"))] [] 10 20 (str "RS")). reflexivity.
Defined.

(** ** Clients of address zero *)
Section crossing.
Context `{BridgeEnv} {W : Type} `{RouteEnv W}.

Lemma Do_leads frame key route c (rt rt1 : Router W) r : rt_cache rt = Some c → commandIdempotencyKey frame = Some key →
  cc_entries c !! key = None → (∀ rt0 rt1 r, route rt0 = (rt1, r) → rt_cache rt1 = rt_cache rt0) →
  Do frame route rt = (rt1, r) →
  ∃ c1, rt_cache rt1 = Some c1 ∧ cc_ttl c1 = cc_ttl c ∧
    cc_entries c1 !! key = Some (MkEntry true (re_now (rt_world rt1) + cc_ttl c) r).
Proof.
  intros Hc Hk Hn Hr. unfold Do. rewrite Hc, Hk.
  destruct (Do_claim (re_now (rt_world rt)) key c) as [c1 out] eqn:Ecl. apply claim_spec in Ecl as [Ht Hout].
  destruct out as [r0| |].
  - destruct Hout as (_ & e & He & _). rewrite prune_lookup, Hn in He. done.
  - destruct Hout as (_ & e & He & _). rewrite prune_lookup, Hn in He. done.
  - destruct Hout as [_ _]. destruct (route (with_cache c1 rt)) as [rt2 r2] eqn:Er. apply Hr in Er as Hrc.
    cbn [rt_cache with_cache] in Hrc. rewrite Hrc. intros [= <- <-]. eexists. split; [done|]. split; [done|].
    unfold Do_complete. cbn [cc_entries with_cache rt_world]. by rewrite lookup_insert_eq, Ht.
Qed.

Lemma Do_hits frame key route c e (rt : Router W) : rt_cache rt = Some c → commandIdempotencyKey frame = Some key →
  cc_entries c !! key = Some e → ce_completed e = true → re_now (rt_world rt) < ce_expires e →
  Do frame route rt = (with_cache (pruneLocked (re_now (rt_world rt)) c) rt, ce_result e).
Proof.
  intros Hc Hk He Hcomp Hn. unfold Do. rewrite Hc, Hk. unfold Do_claim. cbv zeta. rewrite prune_lookup, He.
  cbn [mbind option_bind]. rewrite Hcomp. cbn [andb]. destruct (Z.ltb_spec (ce_expires e) (re_now (rt_world rt))); [lia|].
  rewrite Hcomp. cbn [negb]. by destruct (Z.ltb_spec (re_now (rt_world rt)) (ce_expires e)); [|lia].
Qed.

Lemma routeFrame_cache frame cs (rt rt1 : Router W) r : routeFrame frame cs rt = (rt1, r) → rt_cache rt1 = rt_cache rt.
Proof. unfold routeFrame. intros Hr. by apply route_candidates_sent in Hr as [_ Hr]. Qed.
End crossing.

Lemma command_key frame : isMeComReadFrame frame = false → (∃ a, RequestAddress frame = Ok a) →
  commandIdempotencyKey frame = Some (TrimSpace frame).
Proof.
  intros Hr [a Ha]. unfold commandIdempotencyKey. rewrite bool_decide_false.
  - cbn [orb]. unfold isMeComReadFrame in *. rewrite TrimSpace_idem. by rewrite Hr.
  - intros E. unfold RequestAddress in Ha. by rewrite E in Ha.
Qed.

(** Two clients of address zero share the results of each other's commands.  The cache
    knows a command by its frame alone, and the frame of a client that uses address
    zero does not name its device: after a client leased to one device has sent a
    command, the same frame of a client leased to any other device is answered with
    the first device's result, and nothing is sent to the second device. *)
Theorem commands_cross_devices `{BridgeEnv} {W} `{RouteEnv W} (routes : preparedRoutes) (policy frame : bytes)
    (d1 d2 : Z) (c : commandIdempotencyCache) (rt rt1 : Router W) (resp : bytes) :
  isMeComReadFrame frame = false → RequestAddress frame = Ok 0 →
  (∀ st, handleDeviceBridgeRouterLocalFrame frame st = None) →
  d1 ≠ 0 → d2 ≠ 0 → default [] (routes !! d1) ≠ [] → default [] (routes !! d2) ≠ [] →
  rt_cache rt = Some c → 0 < cc_ttl c → cc_entries c !! TrimSpace frame = None →
  handleRoutedFrame routes policy d1 frame rt = (rt1, Some resp) →
  ∃ rt2, handleRoutedFrame routes policy d2 frame rt1 = (rt2, Some resp) ∧
    rt_sent rt2 = rt_sent rt1 ∧ rt_world rt2 = rt_world rt1.
Proof.
  intros Hrd Haddr Hloc Hd1 Hd2 Hr1 Hr2 Hc Httl Hn Hh.
  pose proof (command_key frame Hrd ltac:(eauto)) as Hk.
  assert (Hhandle : ∀ d (rt0 : Router W), d ≠ 0 → default [] (routes !! d) ≠ [] → ∃ cs,
    handleRoutedFrame routes policy d frame rt0 =
      (let '(rt, r) := Do frame (routeFrame frame cs) rt0 in
       (rt, match r with Ok resp => Some resp | Err _ => if alive rt then Some (deviceServerError frame) else None end))).
  { intros d rt0 Hd Hr. unfold handleRoutedFrame, selectRouteCandidates. rewrite Haddr. cbn [mbind result_bind]. cbv zeta.
    destruct (Z.eqb_spec d 0); [done|]. cbn [negb andb]. change (0 =? 0) with true. cbn [andb]. rewrite bool_decide_false by done.
    eexists. unfold local_answer. destruct (head _) as [b|]; cbn [mbind option_bind]; [|by rewrite Hrd].
    destruct (rt_states rt0 !! rb_address b); cbn [mbind option_bind]; rewrite ?Hloc; by rewrite Hrd. }
  destruct (Hhandle d1 rt Hd1 Hr1) as [cs1 E1]. rewrite E1 in Hh.
  destruct (Do frame (routeFrame frame cs1) rt) as [rt1' r1] eqn:Hdo.
  eapply Do_leads in Hdo as (c1 & Hc1 & Ht1 & Hent); [|done|done|done|intros ???; apply routeFrame_cache].
  injection Hh as <- Hresp. destruct (Hhandle d2 rt1' Hd2 Hr2) as [cs2 ->].
  rewrite (Do_hits frame (TrimSpace frame) _ c1 _ rt1' Hc1 Hk Hent) by (first [done | cbn [ce_expires]; lia]).
  cbn [ce_result]. eexists. split; [rewrite <-Hresp; reflexivity|done].
Qed.

(** Devices 5 and 6, and two clients of address zero that both send a reset. *)
Definition two_devices : RouterConfig :=
  MkRouterConfig [MkRoute 5 (str "bench:50000") false; MkRoute 6 (str "bench:50001") false] 0 [5; 6] [] 0.
Definition two_devices_prepared : Prepared :=
  match @prepareRoutes small_env [] (λ _, None) two_devices with Ok (p, _) => p | Err _ => MkPrepared ∅ ∅ [] end.
Definition two_devices_router : Router (list outcome) :=
  MkRouter [Responded (Ok (response (request_header 5 1) (str "+")))] (pr_states two_devices_prepared)
    (Some (MkCache 30 ∅)) [].
Definition reset_frame : bytes := BuildResetFrame 0 1.

Lemma commands_cross_devices_witness :
  let handle := @handleRoutedFrame small_env _ script_env (pr_routes two_devices_prepared) RouteSelectionFixedPreference in
  let rt1 := (handle 5 reset_frame two_devices_router).1 in
  rt_sent rt1 = [(MkRouteBroker 5 (str "bench:50000") 0, BuildResetFrame 5 1)] ∧
  ∃ rt2, handle 6 reset_frame rt1 = (rt2, Some (response (request_header 0 1) (str "+"))) ∧
    rt_sent rt2 = rt_sent rt1 ∧ rt_world rt2 = rt_world rt1.
Proof.
  intros handle rt1. split; [vm_compute; reflexivity|].
  apply (@commands_cross_devices small_env _ script_env (pr_routes two_devices_prepared) RouteSelectionFixedPreference
    reset_frame 5 6 (MkCache 30 ∅) two_devices_router rt1); try (vm_compute; reflexivity || vm_compute; congruence || done).
Defined.
