(* ===== verification/AddressZero.v ===== *)
(** * AddressZero: the device behind address zero ([mecomserver/router.go],
      [addressZeroSelector])

    A tool that does not know a device's address sends to address zero.  The selector
    says which device a connection gets: a fixed one, or the next of a configured
    order; all connections of one remote host share a device as long as one of them
    is open.  The mutex and the atomic counter make every operation one step; a
    connection releases its lease once ([sync.Once]), when its handler returns. *)
From stdpp Require Import prelude gmap strings list relations.
From Stdlib Require Import Strings.Byte.
From S2P Require Import Prelude Text SdoMap DeviceBridge CanClients BridgeFrames Router Routing.
Open Scope Z_scope.

(** ** State and operations *)
Record addressZeroRemoteLease := MkRemoteLease {
  al_address : Z;
  al_refs : Z }.
Record addressZeroSelector := MkSelector {
  az_fixed : Z;
  az_order : list Z;
  az_next : Z;
  az_leases : gmap bytes addressZeroRemoteLease }.

(** A remote address: the IP text of a TCP address, the host that [net.SplitHostPort]
    finds in its text, and its text. *)
Record RemoteAddr := MkRemoteAddr {
  ra_tcpIP : option bytes;
  ra_host : option bytes;
  ra_string : bytes }.
Definition addressZeroRemoteKey (remote : option RemoteAddr) : bytes :=
  match remote with
  | None => []
  | Some r => match ra_tcpIP r, ra_host r with
              | Some ip, _ => ip
              | None, Some host => host
              | None, None => ra_string r
              end
  end.

Definition newAddressZeroSelector (cfg : RouterConfig) (routes : preparedRoutes) : res addressZeroSelector :=
  if negb (DefaultAddress cfg =? 0) && (0 <? length (AddressZeroOrder cfg))%nat then
    Err (Errorf "mecomserver: configure either fixed default address or address-zero route order, not both" [])
  else if negb (DefaultAddress cfg =? 0) then Ok (MkSelector (DefaultAddress cfg) [] 0 ∅)
  else
    order ← mapM (λ addr, if has_route routes addr then Ok addr
                          else Err (Errorf "mecomserver: address-zero route 0x%02X has no configured route" [addr]))
              (AddressZeroOrder cfg);
    Ok (MkSelector 0 order 0 ∅).

Definition with_leases (l : gmap bytes addressZeroRemoteLease) (s : addressZeroSelector) : addressZeroSelector :=
  MkSelector (az_fixed s) (az_order s) (az_next s) l.

Definition Next (s : addressZeroSelector) : addressZeroSelector * Z :=
  if negb (az_fixed s =? 0) then (s, az_fixed s)
  else if bool_decide (az_order s = []) then (s, 0)
  else
    let next := u64 (az_next s + 1) in
    let i := u64 (next - 1) in
    (MkSelector (az_fixed s) (az_order s) next (az_leases s),
     default 0 (az_order s !! Z.to_nat (i mod Z.of_nat (length (az_order s))))).

(** The device, and the key to release when there is something to release. *)
Definition selector_Lease (remote : option RemoteAddr) (s : addressZeroSelector) :
    addressZeroSelector * (Z * option bytes) :=
  let key := addressZeroRemoteKey remote in
  if negb (az_fixed s =? 0) || bool_decide (az_order s = []) || bool_decide (key = []) then
    let '(s, addr) := Next s in (s, (addr, None))
  else match az_leases s !! key with
       | Some l =>
           (with_leases (<[key := MkRemoteLease (al_address l) (al_refs l + 1)]> (az_leases s)) s,
            (al_address l, Some key))
       | None =>
           let '(s, addr) := Next s in
           (with_leases (<[key := MkRemoteLease addr 1]> (az_leases s)) s, (addr, Some key))
       end.

Definition release (key : bytes) (s : addressZeroSelector) : addressZeroSelector :=
  match az_leases s !! key with
  | None => s
  | Some l =>
      let refs := al_refs l - 1 in
      if refs <=? 0 then with_leases (delete key (az_leases s)) s
      else with_leases (<[key := MkRemoteLease (al_address l) refs]> (az_leases s)) s
  end.

(** ** Steps: connections open and close *)
Record connection := MkConnection {
  cn_id : nat;
  cn_address : Z;
  cn_key : option bytes }.
Inductive connection_step : addressZeroSelector * list connection → addressZeroSelector * list connection → Prop :=
  | open_step s s' conns id remote addr key :
      Forall (λ c, cn_id c ≠ id) conns → selector_Lease remote s = (s', (addr, key)) →
      connection_step (s, conns) (s', MkConnection id addr key :: conns)
  | close_step s l1 l2 c :
      connection_step (s, l1 ++ c :: l2)
        (match cn_key c with Some key => release key s | None => s end, l1 ++ l2).

(** ** The invariant *)

(** The open connections that hold the lease of a host. *)
Definition holders (key : bytes) (conns : list connection) : list connection :=
  filter (λ c, cn_key c = Some key) conns.
Definition lease_held (hs : list connection) (l : option addressZeroRemoteLease) : Prop :=
  match l with
  | None => length hs = 0%nat
  | Some l => al_refs l = Z.of_nat (length hs) ∧ length hs ≠ 0%nat ∧ Forall (λ c, cn_address c = al_address l) hs
  end.
(** It does not matter in which order they were opened. *)
#[local] Instance lease_held_perm : Proper ((≡ₚ) ==> (=) ==> iff) lease_held.
Proof.
  intros hs hs' Hp l l' <-. unfold lease_held. rewrite (Permutation_length Hp). destruct l as [l|]; [|done].
  by rewrite (Forall_Permutation _ _ (λ c, reflexivity (cn_address c = al_address l)) _ _ Hp).
Qed.
Definition lease_of (key : bytes) (conns : list connection) (l : option addressZeroRemoteLease) : Prop :=
  lease_held (holders key conns) l.
Definition leases_ok (sc : addressZeroSelector * list connection) : Prop :=
  ∀ key, lease_of key sc.2 (az_leases sc.1 !! key).

Lemma Next_leases s s' a : Next s = (s', a) → az_leases s' = az_leases s ∧ az_order s' = az_order s ∧ az_fixed s' = az_fixed s.
Proof. unfold Next. destruct (negb _); [by intros [= <- _]|]. case_bool_decide; by intros [= <- _]. Qed.

Lemma holders_cons key c conns :
  holders key (c :: conns) = if decide (cn_key c = Some key) then c :: holders key conns else holders key conns.
Proof. unfold holders. by rewrite filter_cons. Qed.

Lemma holders_remove key l1 c l2 : holders key (l1 ++ c :: l2) ≡ₚ
  (if decide (cn_key c = Some key) then c :: holders key (l1 ++ l2) else holders key (l1 ++ l2)).
Proof. rewrite <-holders_cons. unfold holders. by rewrite <-Permutation_middle. Qed.

Lemma Lease_ok remote s s' addr key conns id : leases_ok (s, conns) → selector_Lease remote s = (s', (addr, key)) →
  leases_ok (s', MkConnection id addr key :: conns).
Proof.
  intros Hok. unfold selector_Lease. destruct (_ || _).
  { destruct (Next s) as [s1 a] eqn:E. apply Next_leases in E as (El & _). intros [= <- <- <-] k.
    cbn [fst snd]. rewrite El. unfold lease_of. rewrite holders_cons, decide_False by done. apply (Hok k). }
  set (rk := addressZeroRemoteKey remote).
  assert (Hadd : ∀ s1 l, az_leases s1 = <[rk := l]> (az_leases s) → al_address l = addr →
    al_refs l = Z.of_nat (S (length (holders rk conns))) → Forall (λ c, cn_address c = addr) (holders rk conns) →
    leases_ok (s1, MkConnection id addr (Some rk) :: conns)).
  { intros s1 l Hl Ha Hr Hf k. cbn [fst snd]. rewrite Hl. unfold lease_of. rewrite holders_cons. cbn [cn_key].
    destruct (decide (k = rk)) as [->|Hk].
    - rewrite lookup_insert_eq, decide_True by done. split; [done|]. split; [done|]. rewrite Ha. by constructor.
    - rewrite lookup_insert_ne, decide_False by congruence. apply (Hok k). }
  pose proof (Hok rk) as Hrk. cbn [fst snd] in Hrk.
  destruct (az_leases s !! rk) as [l|] eqn:E.
  - intros [= <- <- <-]. destruct Hrk as (Hr & _ & Hf). eapply Hadd; [done|done| |exact Hf]. cbn [al_refs]. lia.
  - destruct (Next s) as [s1 a] eqn:En. apply Next_leases in En as (El & _). intros [= <- <- <-]. unfold lease_of, lease_held in Hrk.
    eapply (Hadd _ (MkRemoteLease a 1)); [cbn [with_leases az_leases]; by rewrite El|done|by rewrite Hrk|].
    by apply length_zero_iff_nil in Hrk as ->.
Qed.

Lemma release_ok s l1 l2 c : leases_ok (s, l1 ++ c :: l2) →
  leases_ok (match cn_key c with Some key => release key s | None => s end, l1 ++ l2).
Proof.
  intros Hok k. specialize (Hok k). unfold lease_of in *. cbn [fst snd] in *. rewrite holders_remove in Hok.
  destruct (cn_key c) as [key|]; [|exact Hok]. destruct (decide (Some key = Some k)) as [[= ->]|Hne].
  - unfold release. destruct (az_leases s !! k) as [l|] eqn:El; [|done].
    destruct Hok as (Hr & _ & [_ Hf]%Forall_cons). cbn [length] in Hr.
    destruct (Z.leb_spec (al_refs l - 1) 0); cbn [with_leases az_leases].
    + rewrite lookup_delete_eq. cbn. lia.
    + rewrite lookup_insert_eq. split; cbn [al_refs al_address]; [lia|]. split; [lia|exact Hf].
  - assert (az_leases (release key s) !! k = az_leases s !! k) as ->; [|exact Hok].
    unfold release. destruct (az_leases s !! key); [|done]. destruct (_ <=? 0); cbn [with_leases az_leases];
      [rewrite lookup_delete_ne by congruence|rewrite lookup_insert_ne by congruence]; done.
Qed.

Lemma connections_ok s0 sc : az_leases s0 = ∅ → rtc connection_step (s0, []) sc → leases_ok sc.
Proof.
  intros He Hr. assert (Hinit : leases_ok (s0, [])) by (intros k; cbn; by rewrite He, lookup_empty).
  revert Hinit. induction Hr as [|s s1 s2 Hs _ IH]; [done|]. intros Hok. apply IH. clear IH.
  destruct Hs; [by eapply Lease_ok|by apply release_ok].
Qed.

(** Every lease is of a configured device. *)
Definition order_ok (order : list Z) (sc : addressZeroSelector * list connection) : Prop :=
  az_fixed sc.1 = 0 ∧ az_order sc.1 = order ∧
  (∀ key l, az_leases sc.1 !! key = Some l → al_address l ∈ order) ∧ Forall (λ c, cn_address c ∈ order) sc.2.

Lemma Next_order s s' a : az_fixed s = 0 → az_order s ≠ [] → Next s = (s', a) → a ∈ az_order s.
Proof.
  intros Hf Ho. unfold Next. rewrite Hf. change (negb (0 =? 0)) with false. cbv iota. rewrite bool_decide_false by done.
  cbv zeta. intros [= _ <-]. set (i := u64 _).
  assert (Hl : (0 < length (az_order s))%nat) by (destruct (az_order s); simpl; [done|lia]).
  pose proof (Z.mod_pos_bound i (Z.of_nat (length (az_order s))) ltac:(lia)).
  destruct (lookup_lt_is_Some_2 (az_order s) (Z.to_nat (i mod Z.of_nat (length (az_order s)))) ltac:(lia)) as [a Ha].
  rewrite Ha. by eapply list_elem_of_lookup_2.
Qed.

Lemma Lease_order remote s s' addr key : az_fixed s = 0 → az_order s ≠ [] →
  (∀ k l, az_leases s !! k = Some l → al_address l ∈ az_order s) → selector_Lease remote s = (s', (addr, key)) →
  addr ∈ az_order s ∧ az_fixed s' = 0 ∧ az_order s' = az_order s ∧
  ∀ k l, az_leases s' !! k = Some l → al_address l ∈ az_order s.
Proof.
  intros Hf Ho Hl. unfold selector_Lease. destruct (Next s) as [s1 a] eqn:En.
  pose proof (Next_order _ _ _ Hf Ho En) as Ha. apply Next_leases in En as (El & Eo & Ef).
  destruct (_ || _); [intros [= <- <- <-]; rewrite El; split_and!; (done || congruence)|].
  destruct (az_leases s !! addressZeroRemoteKey remote) as [l|] eqn:E; intros [= <- <- <-]; cbn [with_leases az_fixed az_order az_leases].
  - split; [by eapply Hl|]. do 2 (split; [done|]). intros k l'. destruct (decide (k = addressZeroRemoteKey remote)) as [->|Hk].
    + rewrite lookup_insert_eq. intros [= <-]. exact (Hl _ _ E).
    + rewrite lookup_insert_ne by done. apply Hl.
  - rewrite El, Eo, Ef. do 3 (split; [done|]). intros k l'.
    destruct (decide (k = addressZeroRemoteKey remote)) as [->|Hk].
    + rewrite lookup_insert_eq. by intros [= <-].
    + rewrite lookup_insert_ne by done. apply Hl.
Qed.

Lemma release_order key s : az_fixed (release key s) = az_fixed s ∧ az_order (release key s) = az_order s ∧
  ∀ k l, az_leases (release key s) !! k = Some l → ∃ l', az_leases s !! k = Some l' ∧ al_address l' = al_address l.
Proof.
  unfold release. destruct (az_leases s !! key) as [l0|] eqn:E; [|split; [done|]; split; [done|]; by eauto].
  destruct (_ <=? 0); cbn [with_leases az_fixed az_order az_leases]; (split; [done|]; split; [done|]; intros k l Hk;
    destruct (decide (key = k)) as [->|Hne]).
  - by rewrite lookup_delete_eq in Hk.
  - rewrite lookup_delete_ne in Hk by done. by exists l.
  - rewrite lookup_insert_eq in Hk. injection Hk as <-. by exists l0.
  - rewrite lookup_insert_ne in Hk by done. by exists l.
Qed.

Lemma order_step order sc sc' : order ≠ [] → order_ok order sc → connection_step sc sc' → order_ok order sc'.
Proof.
  intros Hne (Hf & Ho & Hl & Hc) Hs. destruct Hs as [s s' conns id remote addr key _ HL|s l1 l2 c]; cbn [fst snd] in *; subst order.
  - destruct (Lease_order _ _ _ _ _ Hf Hne Hl HL) as (Ha & Hf' & Ho' & Hl'). split_and!; try done. by constructor.
  - apply Forall_app in Hc as [Hc1 [_ Hc2]%Forall_cons].
    assert (Hc' : Forall (λ c, cn_address c ∈ az_order s) (l1 ++ l2)) by (by apply Forall_app).
    destruct (cn_key c) as [key|]; [|by split_and!].
    destruct (release_order key s) as (Ef & Eo & El). split; cbn [fst snd]; [congruence|]. split; [done|]. split; [|done].
    intros k l Hk. apply El in Hk as (l' & Hk & <-). by eapply Hl.
Qed.

(** ** Properties *)

(** A remote host keeps its device while it is connected.  However connections open and
    close: two open connections of one host have the same device; a host's lease counts
    exactly its open connections, and is gone when the last one closes; and every
    connection's device is one of the configured order. *)
Theorem address_zero_sticky (order : list Z) (next : Z) (s : addressZeroSelector) (conns : list connection) :
  order ≠ [] → rtc connection_step (MkSelector 0 order next ∅, []) (s, conns) →
  (∀ c1 c2 key, c1 ∈ conns → c2 ∈ conns → cn_key c1 = Some key → cn_key c2 = Some key → cn_address c1 = cn_address c2) ∧
  (∀ key, al_refs <$> az_leases s !! key =
     match length (holders key conns) with O => None | n => Some (Z.of_nat n) end) ∧
  Forall (λ c, cn_address c ∈ order) conns.
Proof.
  intros Hne Hr. assert (Hok : leases_ok (s, conns)) by (by eapply connections_ok; [|exact Hr]).
  assert (Hord : order_ok order (s, conns)).
  { apply (rtc_ind_r (order_ok order)) with (3 := Hr); [|intros x y _ Hs Hx; by eapply order_step].
    by split_and!. }
  split; [|split; [|apply Hord]].
  - intros c1 c2 key H1 H2 K1 K2. specialize (Hok key). cbn [fst snd] in Hok.
    assert (Hh : ∀ c, c ∈ conns → cn_key c = Some key → c ∈ holders key conns)
      by (intros c Hc Hk; by apply list_elem_of_filter).
    destruct (az_leases s !! key) as [l|]; cbn in Hok.
    + destruct Hok as (_ & _ & Hf). rewrite Forall_forall in Hf. by rewrite (Hf c1), (Hf c2) by eauto.
    + apply Hh in H1; [|done]. apply length_zero_iff_nil in Hok. rewrite Hok in H1. by apply not_elem_of_nil in H1.
  - intros key. specialize (Hok key). unfold lease_of in Hok. cbn [fst snd] in Hok.
    destruct (az_leases s !! key) as [l|]; cbn in Hok |- *.
    + destruct Hok as (-> & Hn & _). by destruct (length (holders key conns)).
    + by rewrite Hok.
Qed.

(** Three connections of two hosts: the first two share a device. *)
Definition bench_host : option RemoteAddr := Some (MkRemoteAddr (Some (str "10.0.0.7")) None []).
Definition other_host : option RemoteAddr := Some (MkRemoteAddr (Some (str "10.0.0.8")) None []).
Definition selector0 : addressZeroSelector := MkSelector 0 [0x50; 0x51] 0 ∅.
Definition selector1 := (selector_Lease bench_host selector0).1.
Definition selector2 := (selector_Lease bench_host selector1).1.
Definition selector3 := (selector_Lease other_host selector2).1.
Definition three_connections : list connection :=
  [MkConnection 3 0x51 (Some (str "10.0.0.8")); MkConnection 2 0x50 (Some (str "10.0.0.7"));
   MkConnection 1 0x50 (Some (str "10.0.0.7"))].

Lemma address_zero_sticky_witness :
  (al_refs <$> az_leases selector3 !! str "10.0.0.7" = Some 2) ∧
  Forall (λ c, cn_address c ∈ [0x50; 0x51]) three_connections.
Proof.
  destruct (address_zero_sticky [0x50; 0x51] 0 selector3 three_connections) as (_ & Hrefs & Hin); [done| |].
  - apply rtc_l with (selector1, [MkConnection 1 0x50 (Some (str "10.0.0.7"))]).
    { apply (open_step selector0 selector1 [] 1 bench_host 0x50); [constructor|vm_compute; reflexivity]. }
    apply rtc_l with (selector2, [MkConnection 2 0x50 (Some (str "10.0.0.7")); MkConnection 1 0x50 (Some (str "10.0.0.7"))]).
    { apply (open_step selector1 selector2 _ 2 bench_host 0x50); [by repeat constructor|vm_compute; reflexivity]. }
    apply rtc_once. apply (open_step selector2 selector3 _ 3 other_host 0x51); [by repeat constructor|vm_compute; reflexivity].
  - split; [|exact Hin]. rewrite Hrefs. reflexivity.
Defined.
