(* ===== verification/Fanout.v ===== *)
(** * Fanout: one request to many devices, and the router's own client
    ([mecomserver/fanout.go], [mecomserver/runtime_client.go])

    The runtime is the router without its listener.  A fan-out turns one addressed
    request into a request for each of several devices; the runtime's read client
    lets the readout scheduler of [Readout.v] use the router.

    The requests of a fan-out run in goroutines of their own: they go to the queues of
    different devices, with different frames, so the model runs them one after the
    other, in the order of the results. *)
From stdpp Require Import prelude gmap strings list sorting.
From Stdlib Require Import Strings.Byte Floats.SpecFloat.
From S2P Require Import Prelude Text Floats Crc Endpoint Broker SdoMap Protocol Client RingReader Readout CanClients DeviceBridge.
From S2P Require Import BridgePayload BridgeFrames Router RouterFrames Routing AddressZero.
Open Scope Z_scope.

(** ** The runtime *)
Record RouterRuntime := MkRuntime {
  rr_routes : preparedRoutes;
  rr_addressZero : addressZeroSelector;
  rr_policy : bytes }.

Definition applyRouterDefaults (cfg : RouterConfig) : RouterConfig :=
  MkRouterConfig (Routes cfg) (DefaultAddress cfg) (AddressZeroOrder cfg) (RouteSelection cfg)
    (if CommandIdempotencyTTL cfg =? 0 then defaultCommandIdempotencyTTL else CommandIdempotencyTTL cfg).

(** The runtime, the bridge states and the command cache it starts with. *)
Definition NewRouterRuntime `{BridgeEnv} (dir : bytes) (file : bytes → option deviceBridgeCacheSnapshot)
    (cfg : RouterConfig) : res (RouterRuntime * gmap Z deviceBridgeState * option commandIdempotencyCache) :=
  let cfg := applyRouterDefaults cfg in
  '(p, policy) ← prepareRoutes dir file cfg;
  addressZero ← newAddressZeroSelector cfg (pr_routes p);
  Ok (MkRuntime (pr_routes p) addressZero policy, pr_states p, newCommandIdempotencyCache (CommandIdempotencyTTL cfg)).

(** ** The template of a fan-out *)
Record fanoutTemplate := MkTemplate {
  ft_seq : bytes;
  ft_payload : bytes;
  ft_read : bool }.

Definition parseFanoutTemplate (frame : bytes) : res fanoutTemplate :=
  let s := TrimSpace frame in
  if (length s =? 0)%nat then Err (Errorf "mecomserver: fanout frame required" [])
  else if HasPrefix s (str "?") then
    Err (Errorf "mecomserver: fanout requires an addressed MeCom template frame, got bare request" [])
  else if (length s <? 11)%nat || negb (bool_decide (s !! 0%nat = Some "#"%byte)) then
    Err (Errorf "mecomserver: invalid fanout template frame %q" [])
  else match ParseUint (slice s 1 3) 16 8 with
       | Err e => Err (Wrapf "mecomserver: invalid fanout template address %q: %w" [] e)
       | Ok _ =>
           match ParseUint (slice s 3 7) 16 16 with
           | Err e => Err (Wrapf "mecomserver: invalid fanout template sequence %q: %w" [] e)
           | Ok _ =>
               let payloadEnd := (length s - 4)%nat in
               match ParseUint (drop payloadEnd s) 16 16 with
               | Err e => Err (Wrapf "mecomserver: invalid fanout template CRC %q: %w" [] e)
               | Ok got =>
                   let want := CRC16 (take payloadEnd s) in
                   if negb (u16 got =? want) then
                     Err (Errorf "mecomserver: fanout template CRC mismatch got %04X want %04X" [u16 got; want])
                   else
                     let payload := ToUpper (slice s 7 payloadEnd) in
                     Ok (MkTemplate (ToUpper (slice s 3 7)) payload (HasPrefix payload (str "?")))
               end
           end
       end.
Definition frameFor (t : fanoutTemplate) (addr : Z) : bytes :=
  seal ("#"%byte :: fmtX 2 addr ++ ft_seq t ++ ft_payload t).

(** ** Addresses *)
Definition configuredAddresses (routes : preparedRoutes) : list Z :=
  merge_sort Z.le (elements (dom routes)).

Fixpoint requested_addresses (routes : preparedRoutes) (seen requested : list Z) : res (list Z) :=
  match requested with
  | [] => Ok []
  | addr :: requested' =>
      if addr =? 0 then Err (Errorf "mecomserver: fanout address 0 is reserved" [])
      else if negb (has_route routes addr) then
        Err (Errorf "mecomserver: no downstream route for MeCom address 0x%02X" [addr])
      else if bool_decide (addr ∈ seen) then requested_addresses routes seen requested'
      else out ← requested_addresses routes (addr :: seen) requested'; Ok (addr :: out)
  end.
Definition fanoutAddresses (routes : preparedRoutes) (requested : list Z) : res (list Z) :=
  if bool_decide (requested = []) then Ok (configuredAddresses routes) else requested_addresses routes [] requested.

(** ** Requests of the runtime *)
Record RouterRoute := MkRouterRoute {
  ro_broker : routeBroker;
  ro_stats : BrokerStats }.
Record RouterDevice := MkRouterDevice {
  rd_Address : Z;
  rd_Routes : list RouterRoute }.
Record FanoutResponse := MkFanoutResponse {
  fr_Address : Z;
  fr_RequestFrame : bytes;
  fr_Result : res bytes;
  fr_Routes : list RouterRoute }.
Record FanoutRequest := MkFanoutRequest {
  fq_Frame : bytes;
  fq_Addresses : list Z;
  fq_RouteSelection : bytes;
  fq_WritePolicy : bytes }.
Definition FanoutWriteAllowAddressed : bytes := str "allow-addressed".

Section runtime.
Context `{BridgeEnv} {W : Type} `{RouteEnv W}.

Definition routeSnapshots (routes : preparedRoutes) (addr : Z) (w : W) : list RouterRoute :=
  (λ c, MkRouterRoute c (re_stats c w)) <$> default [] (routes !! addr).
Definition Devices (rr : RouterRuntime) (w : W) : list RouterDevice :=
  (λ addr, MkRouterDevice addr (routeSnapshots (rr_routes rr) addr w)) <$> configuredAddresses (rr_routes rr).

Definition routeAddressedFrame (rr : RouterRuntime) (frame : bytes) (addr : Z) (policy : bytes) (useCommandCache : bool)
    (rt : Router W) : Router W * res bytes :=
  if addr =? 0 then (rt, Err (Errorf "mecomserver: addressed route cannot use MeCom address 0" []))
  else
    let candidates := default [] (rr_routes rr !! addr) in
    if bool_decide (candidates = []) then (rt, Err (Errorf "no downstream route for MeCom address 0x%02X" [addr]))
    else match normalizeRouteSelectionPolicy (if bool_decide (policy = []) then rr_policy rr else policy) with
         | Err e => (rt, Err e)
         | Ok normalized =>
             let readFrame := isMeComReadFrame frame in
             let ordered := orderRouteCandidates candidates normalized readFrame (rt_world rt) in
             let route := routeFrame frame ordered in
             if useCommandCache && negb readFrame then Do frame route rt else route rt
         end.

Fixpoint fanout_all (rr : RouterRuntime) (t : fanoutTemplate) (policy : bytes) (addrs : list Z) (rt : Router W) :
    Router W * list FanoutResponse :=
  match addrs with
  | [] => (rt, [])
  | addr :: addrs' =>
      let frame := frameFor t addr in
      let routes := routeSnapshots (rr_routes rr) addr (rt_world rt) in
      let '(rt, r) := routeAddressedFrame rr frame addr policy true rt in
      let '(rt, rs) := fanout_all rr t policy addrs' rt in (rt, MkFanoutResponse addr frame r routes :: rs)
  end.

(** The result, and whether it is of a read. *)
Definition Fanout (rr : RouterRuntime) (req : FanoutRequest) (rt : Router W) :
    Router W * res (bool * list FanoutResponse) :=
  let prepared :=
    t ← parseFanoutTemplate (fq_Frame req);
    if negb (ft_read t) && negb (bool_decide (fq_WritePolicy req = FanoutWriteAllowAddressed)) then
      Err (Errorf "mecomserver: write fanout rejected by default; set write policy %q for addressed writes" [])
    else
      addrs ← fanoutAddresses (rr_routes rr) (fq_Addresses req);
      policy ← (if bool_decide (fq_RouteSelection req = []) then Ok (rr_policy rr)
                else normalizeRouteSelectionPolicy (fq_RouteSelection req));
      Ok (t, addrs, policy) in
  match prepared with
  | Err e => (rt, Err e)
  | Ok (t, addrs, policy) =>
      let '(rt, rs) := fanout_all rr t policy addrs rt in (rt, Ok (ft_read t, rs))
  end.
End runtime.

(** ** The runtime's read client *)
Record runtimeReadClient (W : Type) := MkRuntimeClient {
  rc_runtime : RouterRuntime;
  rc_addr : Z;
  rc_routeSelection : bytes;
  rc_supportsRingRead : bool;
  rc_seq : Z;
  rc_router : Router W }.
Arguments MkRuntimeClient {W}. Arguments rc_runtime {W}. Arguments rc_addr {W}. Arguments rc_routeSelection {W}.
Arguments rc_supportsRingRead {W}. Arguments rc_seq {W}. Arguments rc_router {W}.

Section client.
Context `{BridgeEnv} {W : Type} `{RouteEnv W}.

Definition NewReadClient (rr : RouterRuntime) (addr : Z) (policy : bytes) (supportsRing : bool) (rt : Router W) :
    runtimeReadClient W := MkRuntimeClient rr addr policy supportsRing 0 rt.

Definition nextSequence (c : runtimeReadClient W) : runtimeReadClient W * Z :=
  let s := u16 (rc_seq c + 1) in
  let s := if s =? 0 then 1 else s in
  (MkRuntimeClient (rc_runtime c) (rc_addr c) (rc_routeSelection c) (rc_supportsRingRead c) s (rc_router c), s).

Definition runtime_roundTrip (build : Z → res bytes) (c : runtimeReadClient W) : runtimeReadClient W * res bytes :=
  let '(c, s) := nextSequence c in
  match build s with
  | Err e => (c, Err e)
  | Ok frame =>
      let '(rt, r) := routeAddressedFrame (rc_runtime c) frame (rc_addr c) (rc_routeSelection c) false (rc_router c) in
      (MkRuntimeClient (rc_runtime c) (rc_addr c) (rc_routeSelection c) (rc_supportsRingRead c) (rc_seq c) rt, r)
  end.
(** A call that parses the response. *)
Definition runtime_call {A} (build : Z → res bytes) (parse : bytes → res A) (c : runtimeReadClient W) :
    runtimeReadClient W * res A :=
  let '(c, raw) := runtime_roundTrip build c in (c, raw ← raw; parse raw).

Definition runtime_ReadFloat32 (id instance : Z) (c : runtimeReadClient W) : runtimeReadClient W * res f64 :=
  runtime_call (λ s, Ok (BuildSingleGetFrame (rc_addr c) s id instance)) (λ raw, ParseSingleResponse raw DataTypeFloat32) c.
Definition runtime_ReadInt32 (id instance : Z) (c : runtimeReadClient W) : runtimeReadClient W * res Z :=
  runtime_call (λ s, Ok (BuildSingleGetFrame (rc_addr c) s id instance))
    (λ raw, v ← ParseSingleResponse raw DataTypeInt32; Ok (to_int v)) c.
Definition runtime_ReadBulk (params : list Param) (c : runtimeReadClient W) : runtimeReadClient W * res (list f64) :=
  runtime_call (λ s, Ok (BuildBulkGetFrame (rc_addr c) s params)) (λ raw, ParseBulkResponse raw params) c.

Definition runtime_ConfigureRingCapture (captureID : Z) (params : list RingCaptureParameter) :
    runtimeReadClient W → runtimeReadClient W * res () := λ c,
  runtime_call (λ s, BuildRingCaptureConfigFrame (rc_addr c) s captureID params) ParseRingCaptureConfigResponse c.
Definition runtime_TriggerRingSync (c : runtimeReadClient W) : runtimeReadClient W * res () :=
  runtime_call (λ s, Ok (BuildRingTriggerSyncFrame (rc_addr c) s)) ParseWriteResponse c.
Definition runtime_ReadRingPointer (c : runtimeReadClient W) : runtimeReadClient W * res Z :=
  runtime_call (λ s, Ok (BuildRingPointerFrame (rc_addr c) s)) ParseRingPointerResponse c.
Definition runtime_ReadRingChunk (start maxBytes : Z) (c : runtimeReadClient W) :
    runtimeReadClient W * res RingReadResponse :=
  runtime_call (λ s, Ok (BuildRingReadFrame (rc_addr c) s start maxBytes)) ParseRingReadResponse c.

#[export] Instance runtimeReadClient_RingClient : RingClient (runtimeReadClient W) := {|
  env_SupportsRingReadout := rc_supportsRingRead;
  env_ConfigureRingCapture := runtime_ConfigureRingCapture;
  env_TriggerRingSync := runtime_TriggerRingSync;
  env_ReadRingPointer := runtime_ReadRingPointer;
  env_ReadRingChunk := runtime_ReadRingChunk |}.
#[export] Instance runtimeReadClient_ReadClient : ReadClient (runtimeReadClient W) := {| rd_ReadBulk := runtime_ReadBulk |}.
End client.

(** ** Lemmas *)
Lemma parse_template addr sq body : 0 ≤ addr < 256 → 0 ≤ sq < 65536 →
  parseFanoutTemplate (appendCRC addr sq body) =
    Ok (MkTemplate (hex_fix 4 sq) (ToUpper body) (HasPrefix (ToUpper body) (str "?"))).
Proof.
  intros Ha Hs. unfold parseFanoutTemplate. pose proof (request_first addr sq body Ha Hs) as Hf.
  rewrite length_request_trim, HasPrefix_hash, Hf, request_address_digits by done.
  destruct (Nat.eqb_spec (11 + length body) 0); [lia|]. destruct (Nat.ltb_spec (11 + length body) 11); [lia|].
  rewrite bool_decide_true by done. cbn [orb negb]. rewrite ParseUint_hex_fix by (simpl; lia).
  rewrite request_trim by done. set (prefix := "#"%byte :: request_header addr sq ++ body).
  assert (Hp : length prefix = (7 + length body)%nat)
    by (unfold prefix; rewrite length_cons, length_app, length_request_header; lia).
  assert (Hseq : slice (prefix ++ fmtX 4 (CRC16 prefix)) 3 7 = hex_fix 4 sq).
  { rewrite slice_app_l by lia. unfold prefix, request_header.
    replace ("#"%byte :: (hex_fix 2 addr ++ hex_fix 4 sq) ++ body)
      with (("#"%byte :: hex_fix 2 addr) ++ hex_fix 4 sq ++ body) by (cbn [app]; by rewrite <-app_assoc).
    rewrite slice_after by (rewrite ?length_cons, ?length_hex_fix; lia). rewrite length_cons, length_hex_fix.
    apply slice_head. by rewrite length_hex_fix. }
  rewrite Hseq, ParseUint_hex_fix by (simpl; lia). cbv zeta.
  replace (11 + length body - 4)%nat with (length prefix) by lia. rewrite drop_app_length, take_app_length.
  destruct (crc_text prefix) as [Hx _]. pose proof (CRC16_range prefix). rewrite Hx, ParseUint_hex_fix by (simpl; lia).
  unfold u16. rewrite Z.mod_small, Z.eqb_refl by done. cbn [negb]. rewrite ToUpper_hex_fix.
  assert (slice (prefix ++ hex_fix 4 (CRC16 prefix)) 7 (length prefix) = body) as ->; [|done].
  rewrite slice_app_l by lia. unfold prefix at 1.
  change ("#"%byte :: request_header addr sq ++ body) with (("#"%byte :: request_header addr sq) ++ body).
  rewrite slice_after by (rewrite ?length_cons, ?length_request_header; lia).
  rewrite length_cons, length_request_header. apply slice_all. lia.
Qed.

Lemma frame_for sq payload rd addr : 0 ≤ sq < 65536 → frameFor (MkTemplate (hex_fix 4 sq) payload rd) addr = appendCRC addr sq payload.
Proof. intros Hs. unfold frameFor. cbn [ft_seq ft_payload]. by rewrite <-(fmtX_fix 4 sq) by (simpl; lia). Qed.

(** The command a device gets for a payload: the router knows another name for one of them. *)
Definition compatible_payload (payload : bytes) : bytes := default payload (route_alias payload).

Lemma upper_fanout_frame addr sq payload : 0 < addr < 256 → 0 ≤ sq < 65536 → ToUpper payload = payload →
  rewriteRouteAddressZeroRequest (rewriteRouteCompatibilityFrame (appendCRC addr sq payload)) addr =
    appendCRC addr sq (compatible_payload payload).
Proof.
  intros Ha Hs Hu. unfold compatible_payload. destruct (route_alias payload) as [alias|] eqn:E.
  - assert (Hal : ToUpper alias = alias) by (unfold route_alias in E; case_bool_decide; by simplify_eq).
    assert (rewriteRouteCompatibilityFrame (appendCRC addr sq payload) = appendCRC addr sq alias) as ->; [|by apply request_kept].
    unfold rewriteRouteCompatibilityFrame. pose proof (request_first addr sq payload ltac:(lia) Hs) as Hf.
    rewrite bool_decide_false by (intros E'; by rewrite E' in Hf). rewrite HasPrefix_hash by done. rewrite Hf, bool_decide_true by done.
    cbn [negb]. rewrite parse_built_request by (done || lia). cbn [rq_payload rq_address rq_seq].
    by rewrite Hu, E, routed_request, Hal.
  - cbn [default from_option]. rewrite request_compatible by (rewrite ?Hu; done || lia). by apply request_kept.
Qed.

Lemma configured_addresses_nodup routes : NoDup (configuredAddresses routes).
Proof. unfold configuredAddresses. rewrite merge_sort_Permutation. apply NoDup_elements. Qed.

Lemma requested_nodup routes seen requested out : requested_addresses routes seen requested = Ok out →
  NoDup out ∧ Forall (λ a, a ∉ seen) out.
Proof.
  revert seen out. induction requested as [|a requested IH]; intros seen out H; cbn [requested_addresses] in H.
  { injection H as <-. split; constructor. }
  destruct (a =? 0); [done|]. destruct (negb _); [done|]. case_bool_decide as Hin; [by apply IH|].
  apply bind_Ok_inv in H as (out' & Ho & [= <-]). apply IH in Ho as [Hn Hf]. split.
  - constructor; [|done]. intros Ha. rewrite Forall_forall in Hf. apply (Hf a Ha). by left.
  - constructor; [done|]. eapply Forall_impl; [exact Hf|]. intros b Hb Hs. apply Hb. by right.
Qed.

Lemma fanout_addresses_nodup routes requested addrs : fanoutAddresses routes requested = Ok addrs → NoDup addrs.
Proof.
  unfold fanoutAddresses. case_bool_decide; [intros [= <-]; apply configured_addresses_nodup|].
  intros Hr. by apply requested_nodup in Hr as [? _].
Qed.

Section sends.
Context `{BridgeEnv} {W : Type} `{RouteEnv W}.
(** What one addressed request adds to the queues. *)
Definition sends_for (addrs : list Z) (sq : Z) (payload : bytes) (l : list (routeBroker * bytes)) : Prop :=
  Forall (λ cf, rb_address cf.1 ∈ addrs ∧ cf.2 = appendCRC (rb_address cf.1) sq payload) l.

Context (rr : RouterRuntime) (sq : Z) (payload : bytes) (Hs : 0 ≤ sq < 65536) (Hu : ToUpper payload = payload).
Context (Hroutes : ∀ addr, Forall (λ c, rb_address c = addr) (default [] (rr_routes rr !! addr))).
Context (Hrange : ∀ addr, default [] (rr_routes rr !! addr) ≠ [] → 0 ≤ addr < 256).

Lemma routeFrame_sends addr cs (rt rt' : Router W) r : 0 < addr < 256 → Forall (λ c, rb_address c = addr) cs →
  routeFrame (appendCRC addr sq payload) cs rt = (rt', r) →
  ∃ l, rt_sent rt' = rt_sent rt ++ l ∧ sends_for [addr] sq (compatible_payload payload) l.
Proof using Hs Hu.
  intros Ha Hcs Hr. unfold routeFrame in Hr. cbv zeta in Hr.
  set (cs' := if isMeComReadFrame _ then _ else cs) in Hr.
  assert (Hcs' : Forall (λ c, rb_address c = addr) cs').
  { unfold cs'. destruct (isMeComReadFrame _); [|done]. eapply Permutation_Forall; [symmetry; apply prefer_native_perm|done]. }
  apply route_candidates_sent in Hr as [(ks & _ & _ & Hsent) _]. eexists. split; [exact Hsent|]. unfold sends_for.
  clear -Hs Hu Ha Hcs'. revert ks. induction Hcs' as [|c cs' Hc _ IH]; intros [|k ks]; try constructor.
  cbn [zip_with concat]. apply Forall_app. split; [|apply IH]. apply Forall_replicate. cbn [fst snd]. rewrite Hc.
  split; [by apply list_elem_of_singleton|]. unfold device_frame. rewrite Hc. by apply upper_fanout_frame.
Qed.

Lemma addressed_sends addr policy cache (rt rt' : Router W) r :
  routeAddressedFrame rr (appendCRC addr sq payload) addr policy cache rt = (rt', r) →
  ∃ l, rt_sent rt' = rt_sent rt ++ l ∧ sends_for [addr] sq (compatible_payload payload) l.
Proof using Hs Hu Hroutes Hrange.
  intros Hr. assert (Hnone : rt_sent rt' = rt_sent rt → ∃ l, rt_sent rt' = rt_sent rt ++ l ∧
    sends_for [addr] sq (compatible_payload payload) l) by (intros ->; exists []; split; [by rewrite app_nil_r|constructor]).
  unfold routeAddressedFrame in Hr. destruct (Z.eqb_spec addr 0) as [|Hne]; [injection Hr as <- _; by apply Hnone|].
  case_bool_decide as Hc; [injection Hr as <- _; by apply Hnone|]. apply Hrange in Hc as Ha.
  destruct (normalizeRouteSelectionPolicy _) as [pol|]; [|injection Hr as <- _; by apply Hnone].
  set (cs := orderRouteCandidates _ _ _ _) in Hr.
  assert (Hcs : Forall (λ c, rb_address c = addr) cs)
    by (unfold cs; eapply Permutation_Forall; [symmetry; apply order_perm|apply Hroutes]).
  destruct (cache && _); [|by eapply routeFrame_sends; [lia| |exact Hr]].
  revert Hr. apply Do_sent with (P := λ s, ∃ l, s = rt_sent rt ++ l ∧ _).
  - exists []. split; [by rewrite app_nil_r|constructor].
  - intros rt0 rt1 r1 Hs0 Hr. rewrite <-Hs0. by eapply routeFrame_sends; [lia| |exact Hr].
Qed.

Lemma fanout_all_sends t policy addrs (rt rt' : Router W) rs :
  t = MkTemplate (hex_fix 4 sq) payload (HasPrefix payload (str "?")) →
  fanout_all rr t policy addrs rt = (rt', rs) →
  fr_Address <$> rs = addrs ∧ Forall (λ r, fr_RequestFrame r = appendCRC (fr_Address r) sq payload) rs ∧
  ∃ l, rt_sent rt' = rt_sent rt ++ l ∧ sends_for addrs sq (compatible_payload payload) l.
Proof using Hs Hu Hroutes Hrange.
  intros ->. revert rt rs. induction addrs as [|a addrs IH]; intros rt rs Hf; cbn [fanout_all] in Hf.
  { injection Hf as <- <-. split; [done|]. split; [constructor|]. exists []. split; [by rewrite app_nil_r|constructor]. }
  rewrite frame_for in Hf by done. destruct (routeAddressedFrame rr _ a policy true rt) as [rt1 r1] eqn:E1.
  destruct (fanout_all rr _ policy addrs rt1) as [rt2 rs2] eqn:E2. injection Hf as <- <-.
  apply IH in E2 as (<- & Hf2 & l2 & Hl2 & Hs2). apply addressed_sends in E1 as (l1 & Hl1 & Hs1).
  split; [done|]. split; [by constructor|]. exists (l1 ++ l2). split; [by rewrite Hl2, Hl1, app_assoc|].
  apply Forall_app. split; (eapply Forall_impl; [eassumption|]); intros cf [Hin Hcf]; (split; [|done]).
  - apply list_elem_of_singleton in Hin. rewrite Hin. by left.
  - by right.
Qed.
End sends.

(** ** Properties *)

(** A fan-out sends each device its own request and nothing else.  From an addressed frame,
    every device that is asked for (all configured ones when none is named), each once,
    gets the same command with the same sequence number under its own address; nothing
    else reaches a queue.  A refused fan-out sends nothing, and a command is refused
    unless the request allows writes. *)
Theorem fanout_addressed `{BridgeEnv} {W} `{RouteEnv W} (dir : bytes) (file : bytes → option deviceBridgeCacheSnapshot)
    (cfg : RouterConfig) (rr : RouterRuntime) (states : gmap Z deviceBridgeState) (cache : option commandIdempotencyCache)
    (addr sq : Z) (body : bytes) (req : FanoutRequest) (rt rt' : Router W) (r : res (bool * list FanoutResponse)) :
  NewRouterRuntime dir file cfg = Ok (rr, states, cache) → Forall (λ x, 0 ≤ r_Address x < 256) (Routes cfg) →
  0 ≤ addr < 256 → 0 ≤ sq < 65536 → fq_Frame req = appendCRC addr sq body → Fanout rr req rt = (rt', r) →
  match r with
  | Err _ => rt' = rt
  | Ok (read, responses) =>
      (read = true ∨ fq_WritePolicy req = FanoutWriteAllowAddressed) ∧
      fanoutAddresses (rr_routes rr) (fq_Addresses req) = Ok (fr_Address <$> responses) ∧
      NoDup (fr_Address <$> responses) ∧
      Forall (λ f, fr_RequestFrame f = appendCRC (fr_Address f) sq (ToUpper body)) responses ∧
      ∃ sent, rt_sent rt' = rt_sent rt ++ sent ∧
        Forall (λ cf, rb_address cf.1 ∈ fr_Address <$> responses ∧
                      cf.2 = appendCRC (rb_address cf.1) sq (compatible_payload (ToUpper body))) sent
  end.
Proof.
  intros Hrr Hcfg Ha Hs Hq Hf. unfold Fanout in Hf. rewrite Hq, parse_template in Hf by done.
  cbn [mbind result_bind ft_read] in Hf.
  destruct (negb (HasPrefix (ToUpper body) (str "?")) && _) eqn:Hw; [by injection Hf as <- <-|].
  destruct (fanoutAddresses (rr_routes rr) (fq_Addresses req)) as [addrs|e] eqn:Eaddr; [|by injection Hf as <- <-].
  cbn [mbind result_bind] in Hf. destruct (if bool_decide _ then _ else _) as [pol|e]; [|by injection Hf as <- <-].
  cbn [mbind result_bind] in Hf. destruct (fanout_all rr _ pol addrs rt) as [rt1 rs] eqn:E. injection Hf as <- <-.
  assert (Hconf : ∀ a, default [] (rr_routes rr !! a) = configured (Routes cfg) a).
  { unfold NewRouterRuntime in Hrr. apply bind_Ok_inv in Hrr as ([p pol'] & Hp & Hrr).
    apply bind_Ok_inv in Hrr as (az & _ & [= <- _ _]). intros a. cbn [rr_routes].
    by rewrite (prepareRoutes_spec dir file (applyRouterDefaults cfg) p pol'). }
  apply (fanout_all_sends rr sq (ToUpper body)) in E as (Haddr & Hframes & sent & Hsent & Hfor); try done.
  - rewrite Haddr. split.
    { destruct (HasPrefix (ToUpper body) (str "?")); [by left|right]. cbn [negb andb] in Hw.
      by apply negb_false_iff, bool_decide_eq_true in Hw. }
    split; [done|]. split; [by eapply fanout_addresses_nodup|]. split; [done|]. by exists sent.
  - apply ToUpper_idem.
  - intros a. rewrite Hconf. apply configured_address.
  - intros a. rewrite Hconf. unfold configured. destruct (filter _ (Routes cfg)) as [|x l] eqn:Ef; [done|]. intros _.
    assert (Hx : x ∈ filter (λ r, r_Address r = a) (Routes cfg)) by (rewrite Ef; left).
    apply list_elem_of_filter in Hx as [<- Hx]. rewrite Forall_forall in Hcfg. by apply Hcfg.
Qed.

(** A read of devices 5 and 6, and a reset that is refused. *)
Definition both_devices : RouterConfig :=
  MkRouterConfig [MkRoute 6 (str "bench:50001") false; MkRoute 5 (str "bench:50000") false] 0 [] [] 0.
Definition both_runtime : RouterRuntime * gmap Z deviceBridgeState * option commandIdempotencyCache :=
  match @NewRouterRuntime small_env [] (λ _, None) both_devices with
  | Ok x => x
  | Err _ => (MkRuntime ∅ (MkSelector 0 [] 0 ∅) [], ∅, None)
  end.
Definition both_router : Router (list outcome) := MkRouter [] both_runtime.1.2 both_runtime.2 [].
Definition read_both : FanoutRequest := MkFanoutRequest (appendCRC 5 8 (str "?vr03e801")) [] [] [].

Lemma fanout_addressed_witness :
  let result := @Fanout small_env _ script_env both_runtime.1.1 read_both both_router in
  match result.2 with
  | Err _ => result.1 = both_router
  | Ok (read, responses) =>
      (read = true ∨ fq_WritePolicy read_both = FanoutWriteAllowAddressed) ∧
      fanoutAddresses (rr_routes both_runtime.1.1) [] = Ok (fr_Address <$> responses) ∧
      NoDup (fr_Address <$> responses) ∧
      Forall (λ f, fr_RequestFrame f = appendCRC (fr_Address f) 8 (ToUpper (str "?vr03e801"))) responses ∧
      ∃ sent, rt_sent result.1 = [] ++ sent ∧
        Forall (λ cf, rb_address cf.1 ∈ fr_Address <$> responses ∧
                      cf.2 = appendCRC (rb_address cf.1) 8 (compatible_payload (ToUpper (str "?vr03e801")))) sent
  end ∧ (fr_Address <$> match result.2 with Ok (_, rs) => rs | Err _ => [] end) = [5; 6].
Proof.
  intros result. split; [|vm_compute; reflexivity].
  apply (@fanout_addressed small_env _ script_env [] (λ _, None) both_devices both_runtime.1.1 both_runtime.1.2 both_runtime.2
    5 8 (str "?vr03e801") read_both both_router); [vm_compute; reflexivity|repeat constructor; simpl; lia|lia|lia|reflexivity|].
  apply surjective_pairing.
Defined.
