(* ===== verification/RouteDaemon.v ===== *)
(** * RouteDaemon: the router as a program ([cmd/mecomvseriald/main.go])

    The daemon turns its flags into a configuration of the router, or of a server
    for one target.  With it come the functions that open a target by its endpoint:
    [mecom/factory.go] ([NewForEndpoint]) and the dialers of [mecomserver/]
    ([DialTarget], [DialEndpointTarget]).  Opening a connection is an argument;
    the socket and the clients served over it are left out. *)
From stdpp Require Import prelude gmap strings list.
From Stdlib Require Import Strings.Byte.
From S2P Require Import Prelude Text Endpoint Literals SdoMap Broker DeviceBridge Router BridgeFrames Routing AddressZero Fanout.
Open Scope Z_scope.
#[local] Set Warnings "-clear-no-such-hyp".

(** ** [fmt.Sscanf] of one unsigned integer

    The verb skips white space, but not a new line, and takes the longest run of
    digits; what follows it is not looked at. *)
Fixpoint skip_space (l : bytes) : option bytes :=
  match l with
  | b :: l' => if bool_decide (b = "010"%byte) then None else if is_space b then skip_space l' else Some l
  | [] => Some []
  end.
Fixpoint digit_run (base : Z) (l : bytes) : bytes :=
  match l with
  | b :: l => match digit_val b with Some d => if d <? base then b :: digit_run base l else [] | None => [] end
  | [] => []
  end.
Definition Sscanf_uint (prefix : bytes) (base : Z) (s : bytes) : res Z :=
  if negb (HasPrefix s prefix) then Err (Errorf "input does not match format" [])
  else match skip_space (drop (length prefix) s) with
       | None => Err (Errorf "unexpected newline" [])
       | Some rest =>
           if bool_decide (digit_run base rest = []) then Err (Errorf "expected integer" [])
           else ParseUint (digit_run base rest) base 64
       end.

(** ** Clients for endpoints *)
Definition bad_address (format : string) (args : list Z) : error := Wrapf format args (Sentinel ErrBadAddress).
Definition hex_prefixed (s : bytes) : bool :=
  match s with a :: c :: _ => bool_decide (a = "0"%byte) && bool_decide (c ∈ ["x"%byte; "X"%byte]) | _ => false end.
Definition parseNodeID (s : bytes) : res Z :=
  match if hex_prefixed s then Sscanf_uint (str "0x") 16 s else Sscanf_uint [] 10 s with
  | Err _ => Err (bad_address "%w: invalid node %q: %v" [])
  | Ok n => if (n =? 0) || (127 <? n) then Err (bad_address "%w: node %d outside CANopen 1..127" [n]) else Ok (u8 n)
  end.
Definition parseCANEndpoint (addr : bytes) : res (bytes * Z) :=
  match cut_at "/"%byte addr with
  | (_, None) => Err (bad_address "%w: can endpoint %q must be IFACE/NODE" [])
  | (iface, Some nodeStr) => node ← parseNodeID nodeStr; Ok (iface, node)
  end.

(** The client that is opened, with the address it speaks to.  [open] opens a stream
    ([Dial]), [dialCAN] an interface. *)
Inductive opened := OpenedASCII (t : transport) (address : Z) | OpenedCAN (iface : bytes) (node : Z).
Definition NewForEndpoint (open : transport → res ()) (dialCAN : option (bytes → res ())) (ep : Endpoint) (address : Z) : res opened :=
  if bool_decide (Network ep ∈ ["serial"; "tcp"]%string) then
    t ← Dial ep; _ ← open t; Ok (OpenedASCII t address)
  else if bool_decide (Network ep = "can"%string) then
    match dialCAN with
    | None => Err (Wrapf "%w: can endpoint requires a CANDialer" [] (Sentinel ErrTransportNotSupported))
    | Some dialCAN =>
        '(iface, node) ← parseCANEndpoint (Address ep);
        _ ← dialCAN iface; Ok (OpenedCAN iface node)
    end
  else Err (Wrapf "%w: unsupported endpoint network %q" [] (Sentinel ErrTransportNotSupported)).

(** A downstream dialer: a stream to the endpoint, or a bridge to a client for it. *)
Inductive DownstreamDial := DialStream (ep : Endpoint) | DialDeviceClient (ep : Endpoint) (timeout : Z).
Definition DialTarget (target : bytes) : res DownstreamDial :=
  match ParseTarget (TrimSpace target) with
  | None => Err (Errorf "mecomserver: target required" [])
  | Some ep => Ok (DialStream ep)
  end.
Definition DialEndpointTarget (target : bytes) (timeout : Z) : res DownstreamDial :=
  match ParseTarget target with
  | None => Err (Errorf "mecomserver: invalid target %q" [])
  | Some ep =>
      if bool_decide (Network ep ≠ "can"%string) then DialTarget target
      else Ok (DialDeviceClient ep (if timeout <=? 0 then defaultRequestTimeout else timeout))
  end.
(** A call of the dialer; [untilDeadline]: the time left to the caller, if limited. *)
Definition dial_timeout (untilDeadline : option Z) : Z :=
  match untilDeadline with Some d => if 0 <? d then d else defaultRequestTimeout | None => defaultRequestTimeout end.

(** ** The flags *)
Definition parseDaemonTarget (target : bytes) : res Endpoint :=
  match ParseTarget (TrimSpace target) with
  | None => Err (Errorf "empty endpoint" [])
  | Some ep =>
      if bool_decide (TrimSpace (Address ep) = []) then
        Err (Errorf (if bool_decide (Network ep = "can"%string) then "CAN endpoint requires interface/node address"
                     else if bool_decide (Network ep = "serial"%string) then "serial endpoint requires device address"
                     else if bool_decide (Network ep = "tcp"%string) then "TCP endpoint requires host:port address"
                     else "%s endpoint requires address") [])
      else Ok ep
  end.
Definition parseAddress (v : bytes) : res Z :=
  match ParseUint0 v 8 with
  | Err e => Err (Wrapf "invalid address %q: %w" [] e)
  | Ok n =>
      if n =? 0 then Err (Errorf "address 0 is reserved" [])
      else if 254 <? n then Err (Errorf "address %d outside MeCom 1..254" [n])
      else Ok (u8 n)
  end.

Definition routeFlags := list Route.
Definition route_text (route : Route) : bytes := str "0x" ++ fmtX 2 (r_Address route) ++ "="%byte :: r_Target route.
Definition String_ (r : routeFlags) : bytes := JoinText (str ",") (route_text <$> r).
Fixpoint addresses_go (seen : list Z) (r : routeFlags) : list Z :=
  match r with
  | [] => []
  | route :: r =>
      if bool_decide (r_Address route ∈ seen) then addresses_go seen r
      else r_Address route :: addresses_go (r_Address route :: seen) r
  end.
Definition addresses (r : routeFlags) : list Z := addresses_go [] r.
Definition Set_ (r : routeFlags) (v : bytes) : res routeFlags :=
  match cut_at "="%byte v with
  | (_, None) => Err (Errorf "route must be address=target" [])
  | (addrText, Some target) =>
      let target := TrimSpace target in
      if bool_decide (target = []) then Err (Errorf "route target required" [])
      else match parseDaemonTarget target with
           | Err e => Err (Wrapf "invalid route target %q: %w" [] e)
           | Ok _ => addr ← parseAddress (TrimSpace addrText); Ok (r ++ [MkRoute addr target false])
           end
  end.

Record serverMode := MkServerMode { sm_target : bytes; sm_routes : routeFlags }.
Definition selectServerMode (target : bytes) (routes : routeFlags) : res serverMode :=
  let target := TrimSpace target in
  if negb (bool_decide (target = [])) then
    if (0 <? length routes)%nat then Err (Errorf "-target and -route are mutually exclusive" [])
    else match parseDaemonTarget target with
         | Err e => Err (Wrapf "invalid target %q: %w" [] e)
         | Ok _ => Ok (MkServerMode target [])
         end
  else if (length routes =? 0)%nat then Err (Errorf "at least one -route or one -target is required" [])
  else Ok (MkServerMode [] routes).

Definition downstreamForTarget (target : bytes) (timeout : Z) : res (option DownstreamDial) :=
  match parseDaemonTarget target with
  | Err e => Err (Wrapf "invalid target %q: %w" [] e)
  | Ok ep =>
      if bool_decide (Network ep ≠ "can"%string) then Ok None
      else Some <$> DialEndpointTarget target timeout
  end.
Definition prepareRouteDownstreams (routes : routeFlags) (timeout : Z) : res routeFlags :=
  mapM (λ r, d ← downstreamForTarget (r_Target r) timeout;
             Ok (MkRoute (r_Address r) (r_Target r) (if d is Some _ then true else r_Downstream r))) routes.

Definition parseRouteSelectionPolicy (v : bytes) : res bytes :=
  let p := ToLower (TrimSpace v) in
  if bool_decide (p ∈ [[]; str "fixed"; RouteSelectionFixedPreference]) then Ok RouteSelectionFixedPreference
  else if bool_decide (p = RouteSelectionDynamic) then Ok RouteSelectionDynamic
  else Err (Errorf "invalid route policy %q: use %s or %s" []).

Record addressZeroMode := MkZeroMode { zm_fixed : Z; zm_routeOrder : bool; zm_autoFirst : bool }.
Definition zero_mode_text (m : addressZeroMode) : bytes :=
  if zm_routeOrder m then str "route-order" else if zm_autoFirst m then str "auto-first"
  else if negb (zm_fixed m =? 0) then str "0x" ++ fmtX 2 (zm_fixed m) else str "disabled".
Definition parseAddressZeroMode (v : bytes) : res addressZeroMode :=
  let v := TrimSpace v in
  let p := ToLower v in
  if bool_decide (p ∈ str <$> [""; "0"; "disabled"; "off"; "none"]%string) then Ok (MkZeroMode 0 false false)
  else if bool_decide (p ∈ str <$> ["auto-first"; "auto"; "first"]%string) then Ok (MkZeroMode 0 false true)
  else if bool_decide (p ∈ str <$> ["route-order"; "routes"; "round-robin"]%string) then Ok (MkZeroMode 0 true false)
  else match ParseUint0 (TrimSpace v) 8 with
       | Err e => Err (Wrapf "invalid address-zero mode %q: use disabled, auto-first, route-order, or a MeCom address: %w" [] e)
       | Ok n =>
           if n =? 0 then Ok (MkZeroMode 0 false false)
           else if 254 <? n then Err (Errorf "address-zero default address %d outside MeCom 0..254" [n])
           else Ok (MkZeroMode (u8 n) false false)
       end.
Definition resolveAddressZeroMode (mode : addressZeroMode) (routes : routeFlags) : res (Z * list Z) :=
  if zm_routeOrder mode then Ok (0, addresses routes)
  else if zm_autoFirst mode then
    match addresses routes with
    | [] => Err (Errorf "address-zero auto-first requires at least one active route" [])
    | addr :: _ => Ok (addr, [])
    end
  else Ok (zm_fixed mode, []).

(** ** The program

    What [main] comes to: an exit with status 2, or one of the two servers. *)
Record daemonFlags := MkFlags {
  df_target : bytes; df_addressZero : bytes; df_routePolicy : bytes; df_timeout : Z; df_routes : list bytes }.
Inductive daemon := ServeTarget (target : bytes) (downstream : option DownstreamDial) | ServeRoutes (cfg : RouterConfig).
Definition daemon_main (f : daemonFlags) : res daemon :=
  routes ← mfold Set_ [] (df_routes f);
  addressZero ← parseAddressZeroMode (df_addressZero f);
  routePolicy ← parseRouteSelectionPolicy (df_routePolicy f);
  mode ← selectServerMode (df_target f) routes;
  if (negb (zm_fixed addressZero =? 0) || zm_routeOrder addressZero || zm_autoFirst addressZero)
     && negb (bool_decide (sm_target mode = [])) then Err (Errorf "-address-zero requires routed -route mode" [])
  else if negb (bool_decide (sm_target mode = [])) then
    downstream ← downstreamForTarget (sm_target mode) (df_timeout f);
    Ok (ServeTarget (sm_target mode) downstream)
  else
    routes ← prepareRouteDownstreams routes (df_timeout f);
    '(defaultAddress, addressZeroOrder) ← resolveAddressZeroMode addressZero routes;
    Ok (ServeRoutes (MkRouterConfig routes defaultAddress addressZeroOrder routePolicy 0)).
(** The dialer of a server for one target ([Serve]). *)
Definition served_downstream (target : bytes) (downstream : option DownstreamDial) : res DownstreamDial :=
  match downstream with Some d => Ok d | None => DialTarget target end.

(** ** Node numbers and endpoints *)
Lemma parseNodeID_range s n : parseNodeID s = Ok n → 1 ≤ n ≤ 127.
Proof.
  assert (Hs : ∀ p b m, 0 ≤ b → Sscanf_uint p b s = Ok m → 0 ≤ m).
  { intros p b m Hb. unfold Sscanf_uint. destruct (negb _); [done|]. destruct (skip_space _); [|done].
    destruct (bool_decide _); [done|]. intros H. apply ParseUint_range in H; lia. }
  unfold parseNodeID. destruct (if hex_prefixed s then _ else _) as [m|e] eqn:E; [|done].
  assert (Hm : 0 ≤ m) by (destruct (hex_prefixed s); by eapply Hs; [|exact E]).
  destruct (Z.eqb_spec m 0); [done|]. destruct (Z.ltb_spec 127 m); [done|]. intros [= <-]. unfold u8. rewrite Z.mod_small; lia.
Qed.
(** A node number is read in decimal and, after [0x], in hexadecimal digits of either case. *)
Lemma parseNodeID_reads n : 1 ≤ n ≤ 127 →
  parseNodeID (fmtD n) = Ok n ∧ parseNodeID (str "0x" ++ fmtX 2 n) = Ok n ∧ parseNodeID (str "0x" ++ ToLower (fmtX 2 n)) = Ok n.
Proof.
  intros Hn. pose proof (range_check (λ n, bool_decide (n = 0 ∨ parseNodeID (fmtD n) = Ok n ∧ parseNodeID (str "0x" ++ fmtX 2 n) = Ok n ∧
    parseNodeID (str "0x" ++ ToLower (fmtX 2 n)) = Ok n)) 128 ltac:(by vm_compute) n ltac:(lia)) as H.
  apply bool_decide_eq_true in H as [->|H]; [lia|done].
Qed.
Lemma cut_at_spec c l before after : cut_at c l = (before, after) →
  (c ∉ before) ∧ match after with Some rest => l = before ++ c :: rest | None => l = before end.
Proof.
  revert before after. induction l as [|b l IH]; intros before after; cbn [cut_at].
  - intros [= <- <-]. split; [apply not_elem_of_nil|done].
  - case_bool_decide as Hb; [intros [= <- <-]; subst; split; [apply not_elem_of_nil|done]|].
    destruct (cut_at c l) as [bf af]. intros [= <- <-]. destruct (IH bf af eq_refl) as [Hn Hl].
    split; [by apply not_elem_of_cons|]. destruct af; by rewrite Hl.
Qed.
Lemma cut_at_app c before rest : c ∉ before → cut_at c (before ++ c :: rest) = (before, Some rest).
Proof.
  induction before as [|b before IH]; intros Hn; cbn [app cut_at]; [by rewrite bool_decide_true|].
  apply not_elem_of_cons in Hn as [Hb Hn]. rewrite bool_decide_false by done. by rewrite IH.
Qed.
(** A client for a CANopen endpoint speaks to the node that the endpoint names, and
    a client over a stream is opened with the transport of the endpoint. *)
Lemma NewForEndpoint_opens open dialCAN ep address client : NewForEndpoint open dialCAN ep address = Ok client →
  match client with
  | OpenedASCII t a => a = address ∧ Dial ep = Ok t ∧ open t = Ok ()
  | OpenedCAN iface node => Network ep = "can"%string ∧ 1 ≤ node ≤ 127 ∧
      ∃ text dial, Address ep = iface ++ "/"%byte :: text ∧ parseNodeID text = Ok node ∧ dialCAN = Some dial ∧ dial iface = Ok ()
  end.
Proof.
  unfold NewForEndpoint. case_bool_decide.
  { intros (t & Ht & H1)%bind_Ok_inv. apply bind_Ok_inv in H1 as ([] & Ho & [= <-]). done. }
  case_bool_decide; [|done]. destruct dialCAN as [dial|]; [|done]. intros ([iface node] & Hp & H2)%bind_Ok_inv.
  apply bind_Ok_inv in H2 as ([] & Hd & [= <-]). unfold parseCANEndpoint in Hp.
  destruct (cut_at _ _) as [bf [af|]] eqn:E; [|done]. apply bind_Ok_inv in Hp as (n & Hn & [= <- <-]).
  apply cut_at_spec in E as [_ E]. split; [done|]. split; [by eapply parseNodeID_range|]. by exists af, dial.
Qed.
(** What is not a number is found out by the client and not by the daemon, and what
    follows a number, or an upper-case prefix, is not treated as the code means it. *)
Lemma can_target_checked_late open dial addr : let ep := MkEndpoint "can" (str "can0") 0 in
  parseDaemonTarget (str "can:can0") = Ok ep ∧ is_Ok (NewForEndpoint open (Some dial) ep addr) = false.
Proof. by split. Qed.
Lemma node_text_quirks :
  parseNodeID (str "12foo") = Ok 12 ∧ parseNodeID (str "0x4b") = Ok 0x4b ∧ is_Ok (parseNodeID (str "0X4b")) = false.
Proof. by vm_compute. Qed.

(** ** Flags *)
(** What a [-route] flag says. *)
Definition says_route (text : bytes) (route : Route) : Prop :=
  ∃ addr target, text = addr ++ "="%byte :: target ∧ ("="%byte ∉ addr) ∧ r_Target route = TrimSpace target ∧
    ParseUint0 (TrimSpace addr) 8 = Ok (r_Address route) ∧ 1 ≤ r_Address route ≤ 254 ∧
    ∃ ep, ParseTarget (r_Target route) = Some ep ∧ TrimSpace (Address ep) ≠ [].
Lemma parseDaemonTarget_spec target ep : parseDaemonTarget target = Ok ep →
  ParseTarget target = Some ep ∧ TrimSpace (Address ep) ≠ [].
Proof.
  unfold parseDaemonTarget, ParseTarget, ParseEndpoint. rewrite TrimSpace_idem. destruct (bool_decide (TrimSpace target = [])); [done|].
  match goal with |- context [match ?x with Some _ => _ | None => _ end] => destruct x as [ep'|] end; [|done].
  case_bool_decide; [done|]. by intros [= <-].
Qed.
Lemma parseAddress_spec v addr : parseAddress v = Ok addr → ParseUint0 v 8 = Ok addr ∧ 1 ≤ addr ≤ 254.
Proof.
  unfold parseAddress. destruct (ParseUint0 v 8) as [n|e] eqn:E; [|done]. apply ParseUint0_range in E as Hr; [|lia].
  destruct (Z.eqb_spec n 0); [done|]. destruct (Z.ltb_spec 254 n); [done|]. intros [= <-]. unfold u8. rewrite Z.mod_small by lia. split; [done|lia].
Qed.
Lemma Set_spec r v r' : Set_ r v = Ok r' → ∃ route, r' = r ++ [route] ∧ says_route v route ∧ r_Downstream route = false.
Proof.
  unfold Set_. destruct (cut_at _ _) as [a [t|]] eqn:Ec; [|done]. apply cut_at_spec in Ec as [Hn ->].
  cbn zeta. destruct (bool_decide _); [done|]. destruct (parseDaemonTarget _) as [ep|e] eqn:Ep; [|done].
  intros (addr & Ha & [= <-])%bind_Ok_inv. apply parseAddress_spec in Ha as [Ha Hr]. apply parseDaemonTarget_spec in Ep as [Hp Hne].
  eexists. split; [done|]. split; [|done]. exists a, t. split_and!; cbn [r_Target r_Address]; [done..|lia|lia|by exists ep].
Qed.
Lemma Set_all_spec texts r r' : mfold Set_ r texts = Ok r' →
  ∃ routes, r' = r ++ routes ∧ Forall2 says_route texts routes ∧ Forall (λ route, r_Downstream route = false) routes.
Proof.
  revert r. induction texts as [|v texts IH]; intros r; cbn [mfold].
  - intros [= <-]. exists []. by rewrite app_nil_r.
  - intros (r1 & (route & -> & Hs & Hd)%Set_spec & (routes & -> & H2 & H3)%IH)%bind_Ok_inv.
    exists (route :: routes). rewrite <-app_assoc. split_and!; [done|by constructor..].
Qed.
(** A route as the program prints it is a flag that gives the route again. *)
Theorem route_text_read_back r route : 1 ≤ r_Address route ≤ 254 → r_Downstream route = false → trimmed (r_Target route) →
  is_Ok (parseDaemonTarget (r_Target route)) = true → Set_ r (route_text route) = Ok (r ++ [route]).
Proof.
  intros Ha Hd Ht Hp. destruct route as [addr target down]. cbn [r_Address r_Downstream r_Target route_text] in *. subst down.
  unfold Set_, route_text. cbn [r_Address r_Target].
  assert (Hx : ("="%byte ∉ str "0x" ++ fmtX 2 addr) ∧ trimmed (str "0x" ++ fmtX 2 addr) ∧ parseAddress (str "0x" ++ fmtX 2 addr) = Ok addr).
  { pose proof (range_check (λ n, bool_decide (n = 0 ∨ n = 255 ∨ ("="%byte ∉ str "0x" ++ fmtX 2 n) ∧
      TrimSpace (str "0x" ++ fmtX 2 n) = str "0x" ++ fmtX 2 n ∧ parseAddress (str "0x" ++ fmtX 2 n) = Ok n)) 256 ltac:(by vm_compute) addr ltac:(lia)) as H.
    apply bool_decide_eq_true in H as [->|[->|H]]; [lia|lia|exact H]. }
  destruct Hx as (Hn & Htr & Hpa). rewrite app_assoc, cut_at_app by done. rewrite Ht. cbn zeta.
  rewrite bool_decide_false by (intros ->; done). destruct (parseDaemonTarget target); [|done]. unfold trimmed in Htr. by rewrite Htr, Hpa.
Qed.

(** ** Addresses *)
Lemma addresses_go_spec seen r : NoDup (addresses_go seen r) ∧
  ∀ a, a ∈ addresses_go seen r ↔ (a ∉ seen) ∧ a ∈ r_Address <$> r.
Proof.
  revert seen. induction r as [|route r IH]; intros seen; cbn [addresses_go]; csimpl.
  { split; [constructor|]. intros a. rewrite elem_of_nil. tauto. }
  case_bool_decide as Hs.
  - destruct (IH seen) as [Hn Hin]. split; [done|]. intros a. rewrite Hin, elem_of_cons. split; [tauto|]. intros [Ha [->|Hr]]; done.
  - destruct (IH (r_Address route :: seen)) as [Hn Hin]. split.
    + constructor; [|done]. rewrite Hin. intros [Hx _]. apply Hx. by left.
    + intros a. rewrite !elem_of_cons, Hin, not_elem_of_cons. destruct (decide (a = r_Address route)) as [->|Hne]; [naive_solver|]. naive_solver.
Qed.
Lemma addresses_spec r : NoDup (addresses r) ∧ ∀ a, a ∈ addresses r ↔ a ∈ r_Address <$> r.
Proof.
  destruct (addresses_go_spec [] r) as [Hn Hin]. split; [done|]. intros a. unfold addresses. rewrite Hin. split; [tauto|].
  intros H. split; [apply not_elem_of_nil|done].
Qed.
(** The route a device is given first is the one of the first flag. *)
Lemma addresses_head route r : addresses (route :: r) = r_Address route :: addresses_go [r_Address route] r.
Proof. unfold addresses. cbn [addresses_go]. by rewrite bool_decide_false by apply not_elem_of_nil. Qed.

Lemma parseAddressZeroMode_spec v mode : parseAddressZeroMode v = Ok mode →
  0 ≤ zm_fixed mode ≤ 254 ∧ (zm_routeOrder mode || zm_autoFirst mode = true → zm_fixed mode = 0) ∧ zm_routeOrder mode && zm_autoFirst mode = false.
Proof.
  unfold parseAddressZeroMode. repeat case_bool_decide; try (intros [= <-]; cbn; split_and!; done || lia).
  destruct (ParseUint0 _ 8) as [n|e] eqn:E; [|done]. apply ParseUint0_range in E; [|lia].
  destruct (Z.eqb_spec n 0); [intros [= <-]; cbn; split_and!; done || lia|]. destruct (Z.ltb_spec 254 n); [done|].
  intros [= <-]. cbn. unfold u8. rewrite Z.mod_small by lia. split_and!; done || lia.
Qed.
Lemma parseRouteSelectionPolicy_spec v policy : parseRouteSelectionPolicy v = Ok policy → normalizeRouteSelectionPolicy policy = Ok policy.
Proof. unfold parseRouteSelectionPolicy. repeat case_bool_decide; (intros [= <-]; by vm_compute) || done. Qed.

(** ** The configuration of the router *)
Lemma prepareRouteDownstreams_spec routes timeout routes' : prepareRouteDownstreams routes timeout = Ok routes' →
  Forall (λ r, r_Downstream r = false) routes →
  Forall2 (λ r r', r_Address r' = r_Address r ∧ r_Target r' = r_Target r ∧
             ∃ d, downstreamForTarget (r_Target r) timeout = Ok d ∧ r_Downstream r' = bool_decide (is_Some d)) routes routes'.
Proof.
  revert routes'. induction routes as [|r routes IH]; intros routes'; cbn [prepareRouteDownstreams mapM].
  - intros [= <-] _. constructor.
  - intros (r1 & (d & Hd & [= <-])%bind_Ok_inv & H1)%bind_Ok_inv. apply bind_Ok_inv in H1 as (rs & Hrs & [= <-]).
    intros [Hf Hfs]%Forall_cons. constructor; [|by apply IH]. cbn [r_Address r_Target r_Downstream]. split_and!; [done..|].
    exists d. split; [done|]. destruct d as [d|]; [by rewrite bool_decide_true by (by eexists)|].
    by rewrite bool_decide_false by (by intros [? ?]).
Qed.
(** Preparing a route of the configuration cannot fail. *)
Lemma prepare_routes_total `{BridgeEnv} dir file p routes :
  Forall (λ r, r_Address r ≠ 0 ∧ ParseTarget (TrimSpace (r_Target r)) ≠ None) routes →
  is_Ok (mfold (prepare_route dir file) p routes) = true.
Proof.
  revert p. induction routes as [|r routes IH]; intros p Hf; cbn [mfold]; [done|]. apply Forall_cons in Hf as [[Ha Ht] Hf].
  destruct (prepare_route dir file p r) as [p1|e] eqn:E; [by apply IH|].
  unfold prepare_route in E. destruct (Z.eqb_spec (r_Address r) 0); [done|]. by rewrite bool_decide_false, andb_false_r in E by done.
Qed.
Lemma has_route_configured `{BridgeEnv} dir file p routes addr : mfold (prepare_route dir file) (MkPrepared ∅ ∅ []) routes = Ok p →
  has_route (pr_routes p) addr = bool_decide (addr ∈ r_Address <$> routes).
Proof.
  intros Hm. unfold has_route. apply bool_decide_ext. rewrite (prepare_all_spec dir file routes p addr Hm). unfold configured.
  rewrite list_elem_of_fmap. split.
  - destruct (filter _ routes) as [|r l] eqn:E; [done|]. intros _. exists r. assert (Hin : r ∈ r :: l) by left.
    rewrite <-E in Hin. by apply list_elem_of_filter in Hin as [<- ?].
  - intros (r & -> & Hr) Hn. assert (Hin : r ∈ filter (λ r', r_Address r' = r_Address r) routes) by (by apply list_elem_of_filter).
    destruct (filter _ routes); [by apply elem_of_nil in Hin|done].
Qed.
Lemma check_order_routes routes order : Forall (λ a, a ≠ 0 ∧ has_route routes a = true) order → check_order routes order = Ok ().
Proof.
  induction 1 as [|a order [Ha Hr] Hf IH]; cbn [check_order]; [done|]. destruct (Z.eqb_spec a 0); [done|]. rewrite Hr. exact IH.
Qed.
Lemma selector_routes cfg routes : (DefaultAddress cfg = 0 ∨ AddressZeroOrder cfg = []) →
  Forall (λ a, a ≠ 0 ∧ has_route routes a = true) (AddressZeroOrder cfg) →
  newAddressZeroSelector cfg routes = Ok (MkSelector (DefaultAddress cfg) (AddressZeroOrder cfg) 0 ∅).
Proof.
  intros Hor Hf. unfold newAddressZeroSelector. destruct (Z.eqb_spec (DefaultAddress cfg) 0) as [->|Hne]; cbn [negb andb].
  - match goal with |- context [mapM ?g ?l] => assert (mapM g l = Ok l) as -> end; [|done].
    clear Hor. induction Hf as [|a order [Ha Hr] Hf IH]; [done|]. cbn [mapM]. rewrite Hr. cbn [mbind result_bind]. by rewrite IH.
  - destruct Hor as [?| ->]; [done|]. done.
Qed.
(** The device that [auto-first] and a fixed address stand for, and the order of
    [route-order]. *)
Definition zero_choice (mode : addressZeroMode) (routes : routeFlags) : Z * list Z :=
  if zm_routeOrder mode then (0, addresses routes)
  else (if zm_autoFirst mode then default 0 (r_Address <$> head routes) else zm_fixed mode, []).
Lemma resolve_choice mode routes : routes ≠ [] → resolveAddressZeroMode mode routes = Ok (zero_choice mode routes).
Proof.
  intros Hne. unfold resolveAddressZeroMode, zero_choice. destruct (zm_routeOrder mode); [done|]. destruct (zm_autoFirst mode); [|done].
  destruct routes as [|r rs]; [done|]. by rewrite addresses_head.
Qed.

(** What the runtime of the daemon's configuration is. *)
Lemma runtime_of_routes `{BridgeEnv} dir file routes mode policy :
  routes ≠ [] → Forall (λ r, r_Address r ≠ 0 ∧ ParseTarget (TrimSpace (r_Target r)) ≠ None) routes →
  normalizeRouteSelectionPolicy policy = Ok policy → let '(fixed, order) := zero_choice mode routes in
  match NewRouterRuntime dir file (MkRouterConfig routes fixed order policy 0) with
  | Ok (rt, _, _) =>
      rr_policy rt = policy ∧ (∀ addr, default [] (rr_routes rt !! addr) = configured routes addr) ∧
      rr_addressZero rt = MkSelector fixed order 0 ∅ ∧ (fixed ≠ 0 → fixed ∈ r_Address <$> routes)
  | Err _ => fixed ≠ 0 ∧ (fixed ∉ r_Address <$> routes)
  end.
Proof.
  intros Hne Hf Hpol. destruct (zero_choice mode routes) as [fixed order] eqn:Ec.
  assert (Horder : (fixed = 0 ∨ order = []) ∧ ∀ a, a ∈ order → a ∈ r_Address <$> routes).
  { unfold zero_choice in Ec. destruct (zm_routeOrder mode); injection Ec as <- <-; (split; [by auto|]).
    - intros a. by rewrite (proj2 (addresses_spec routes)).
    - by intros a ?%elem_of_nil. }
  destruct Horder as [Hor Hin]. unfold NewRouterRuntime, applyRouterDefaults, prepareRoutes. cbn [Routes DefaultAddress AddressZeroOrder RouteSelection].
  destruct routes as [|r0 rs] eqn:Er; [done|]. rewrite <-Er in *. clear r0 rs Er Hne.
  rewrite Hpol. cbn [mbind result_bind]. pose proof (prepare_routes_total dir file (MkPrepared ∅ ∅ []) routes Hf) as Hok.
  destruct (mfold _ _ routes) as [p|e] eqn:Em; [|done]. cbn [mbind result_bind].
  assert (Hroutes : Forall (λ a, a ≠ 0 ∧ has_route (pr_routes p) a = true) order).
  { apply Forall_forall. intros a Ha%Hin. rewrite (has_route_configured dir file p routes) by done. split; [|by apply bool_decide_eq_true].
    apply list_elem_of_fmap in Ha as (r & -> & Hr). rewrite Forall_forall in Hf. by apply Hf. }
  rewrite (has_route_configured dir file p routes) by done. destruct (Z.eqb_spec fixed 0) as [->|Hfix]; cbn [negb andb].
  - rewrite check_order_routes by done. cbn [mbind result_bind]. rewrite selector_routes by (cbn; auto).
    cbn [mbind result_bind rr_policy rr_routes rr_addressZero DefaultAddress AddressZeroOrder]. split_and!; [done| |done..].
    intros addr. by apply (prepare_all_spec dir file).
  - case_bool_decide as Hr; cbn [negb]; [|done]. rewrite check_order_routes by done. cbn [mbind result_bind].
    rewrite selector_routes by (cbn; auto). cbn [mbind result_bind rr_policy rr_routes rr_addressZero DefaultAddress AddressZeroOrder].
    split_and!; [done| |done..]. intros addr. by apply (prepare_all_spec dir file).
Qed.

(** ** The server that the flags ask for *)
Lemma daemon_routes_inv f cfg : daemon_main f = Ok (ServeRoutes cfg) →
  ∃ routes mode, mfold Set_ [] (df_routes f) = Ok routes ∧ parseAddressZeroMode (df_addressZero f) = Ok mode ∧
    parseRouteSelectionPolicy (df_routePolicy f) = Ok (RouteSelection cfg) ∧ TrimSpace (df_target f) = [] ∧ routes ≠ [] ∧
    prepareRouteDownstreams routes (df_timeout f) = Ok (Routes cfg) ∧
    resolveAddressZeroMode mode (Routes cfg) = Ok (DefaultAddress cfg, AddressZeroOrder cfg) ∧ CommandIdempotencyTTL cfg = 0.
Proof.
  unfold daemon_main. intros (routes & Hr & H1)%bind_Ok_inv. apply bind_Ok_inv in H1 as (mode & Hm & H2).
  apply bind_Ok_inv in H2 as (policy & Hp & H3). apply bind_Ok_inv in H3 as (sm & Hs & H4).
  unfold selectServerMode in Hs. destruct (bool_decide (TrimSpace (df_target f) = [])) eqn:Et; cbn [negb] in Hs.
  2: { destruct (0 <? length routes)%nat; [done|]. destruct (parseDaemonTarget _); [|done]. injection Hs as <-. cbn [sm_target] in H4.
       rewrite Et, andb_true_r in H4. destruct (_ || _) in H4; [done|]. cbn [negb] in H4. by apply bind_Ok_inv in H4 as (d & _ & [=]). }
  destruct (Nat.eqb_spec (length routes) 0); [done|]. injection Hs as <-. cbn [sm_target] in H4.
  rewrite (bool_decide_true ([] = [])) in H4 by done. cbn [negb] in H4. rewrite andb_false_r in H4.
  apply bind_Ok_inv in H4 as (routes' & Hpr & H5). apply bind_Ok_inv in H5 as ([fixed order] & Hz & [= <-]).
  exists routes, mode. apply bool_decide_eq_true in Et. split_and!; try done. by intros ->.
Qed.
(** The routes of the configuration, from the flags. *)
Definition configures_route (timeout : Z) (text : bytes) (route : Route) : Prop :=
  says_route text route ∧ ∃ d, downstreamForTarget (r_Target route) timeout = Ok d ∧ r_Downstream route = bool_decide (is_Some d).
Lemma daemon_routes_spec f routes routes' : mfold Set_ [] (df_routes f) = Ok routes →
  prepareRouteDownstreams routes (df_timeout f) = Ok routes' → Forall2 (configures_route (df_timeout f)) (df_routes f) routes'.
Proof.
  intros (l & -> & Hsays & Hdown)%Set_all_spec Hp. cbn [app] in Hp. apply prepareRouteDownstreams_spec in Hp; [|done].
  clear Hdown. revert routes' Hp. induction Hsays as [|text r texts l Hs Hsays IH]; intros routes' Hp;
    [by apply Forall2_nil_inv_l in Hp as ->|].
  apply Forall2_cons_inv_l in Hp as (r' & rs' & (Ha & Ht & d & Hd & Hr) & Hp & ->). constructor; [|by apply IH].
  split; [|exists d; by rewrite Ht]. destruct Hs as (a & t & Hx). exists a, t. by rewrite Ha, Ht.
Qed.

(** C38: the daemon serves the routes of its flags.  When the flags lead to a routed
    server, each route is what one [-route] flag says, in their order, with the
    dialer of its target; then the router starts, unless the address that stands
    for address zero is a given one that no route has, and what it starts with is:
    for every address the targets of its flags in their order, the policy of the
    flags, and as the device behind address zero none, the given one, that of the
    first flag, or the devices in turn, each once. *)
Theorem daemon_serves_routes `{BridgeEnv} (dir : bytes) (file : bytes → option deviceBridgeCacheSnapshot)
    (f : daemonFlags) (cfg : RouterConfig) : daemon_main f = Ok (ServeRoutes cfg) →
  ∃ mode, parseAddressZeroMode (df_addressZero f) = Ok mode ∧
    Forall2 (configures_route (df_timeout f)) (df_routes f) (Routes cfg) ∧
    match NewRouterRuntime dir file cfg with
    | Err _ => zm_fixed mode ≠ 0 ∧ (zm_fixed mode ∉ r_Address <$> Routes cfg)
    | Ok (rt, _, _) =>
        parseRouteSelectionPolicy (df_routePolicy f) = Ok (rr_policy rt) ∧
        (∀ addr, rb_target <$> default [] (rr_routes rt !! addr) =
           r_Target <$> filter (λ r, r_Address r = addr) (Routes cfg)) ∧
        let zero := rr_addressZero rt in
        if zm_routeOrder mode then az_fixed zero = 0 ∧ NoDup (az_order zero) ∧ ∀ a, a ∈ az_order zero ↔ a ∈ r_Address <$> Routes cfg
        else az_order zero = [] ∧
          if zm_autoFirst mode then Some (az_fixed zero) = r_Address <$> head (Routes cfg)
          else az_fixed zero = zm_fixed mode
    end.
Proof.
  intros (routes & mode & Hr & Hm & Hp & Ht & Hne & Hpr & Hz & Hc)%daemon_routes_inv. exists mode. split; [done|].
  pose proof (daemon_routes_spec f routes (Routes cfg) Hr Hpr) as Hroutes. split; [done|].
  assert (Hne' : Routes cfg ≠ []).
  { destruct routes as [|r rs]; [done|]. intros E. rewrite E in Hpr. cbn [prepareRouteDownstreams mapM] in Hpr.
    apply bind_Ok_inv in Hpr as (? & _ & Hpr). by apply bind_Ok_inv in Hpr as (? & _ & [=]). }
  assert (Hf : Forall (λ r, r_Address r ≠ 0 ∧ ParseTarget (TrimSpace (r_Target r)) ≠ None) (Routes cfg)).
  { clear -Hroutes. induction Hroutes as [|text r texts rs [(a & t & _ & _ & Ht & _ & Hr & ep & Hp & _) _] Hrs IH]; constructor; [|done].
    split; [lia|]. rewrite Ht, TrimSpace_idem, <-Ht. by rewrite Hp. }
  destruct cfg as [rs fixed order policy ttl]. cbn [Routes DefaultAddress AddressZeroOrder RouteSelection CommandIdempotencyTTL] in *. subst ttl.
  rewrite resolve_choice in Hz by done. injection Hz as Hz. apply parseRouteSelectionPolicy_spec in Hp as Hpol.
  pose proof (runtime_of_routes dir file rs mode policy Hne' Hf Hpol) as Hrt. rewrite Hz in Hrt. apply parseAddressZeroMode_spec in Hm as (_ & Hzero & _).
  unfold zero_choice in Hz. destruct (NewRouterRuntime _ _ _) as [[[rt states] cache]|e].
  - destruct Hrt as (Hpo & Hro & Haz & _). rewrite Hpo, Haz. split; [done|]. split.
    + intros addr. rewrite Hro. unfold configured. apply list_eq. intros i. rewrite !list_lookup_fmap, list_lookup_imap. by destruct (_ !! i).
    + cbn zeta. cbn [az_fixed az_order]. destruct (zm_routeOrder mode); injection Hz as <- <-.
      * split; [done|]. apply addresses_spec.
      * split; [done|]. destruct (zm_autoFirst mode); [|done]. by destruct rs.
  - destruct Hrt as [Hfix Hnone]. destruct (zm_routeOrder mode); injection Hz as <- <-; [done|].
    destruct (zm_autoFirst mode); [|done]. exfalso. apply Hnone. destruct rs as [|r rs]; [done|]. by left.
Qed.

Definition daemon_flags : daemonFlags := MkFlags [] (str "route-order") (str "Dynamic") 0
  (str <$> ["0x4B=serial:/dev/ttyUSB0@57600"; " 12 = 10.0.0.7:50000"; "75=can:can0/75"]%string).
Definition daemon_config : RouterConfig := MkRouterConfig
  [MkRoute 75 (str "serial:/dev/ttyUSB0@57600") false; MkRoute 12 (str "10.0.0.7:50000") false; MkRoute 75 (str "can:can0/75") true]
  0 [75; 12] RouteSelectionDynamic 0.
Lemma bench_main : daemon_main daemon_flags = Ok (ServeRoutes daemon_config).
Proof. vm_compute. reflexivity. Qed.
Lemma daemon_serves_routes_witness : ∃ rt states cache,
  @NewRouterRuntime small_env [] (λ _, None) daemon_config = Ok (rt, states, cache) ∧
  rb_target <$> default [] (rr_routes rt !! 75) = [str "serial:/dev/ttyUSB0@57600"; str "can:can0/75"] ∧
  rr_policy rt = RouteSelectionDynamic ∧ NoDup (az_order (rr_addressZero rt)).
Proof.
  destruct (@daemon_serves_routes small_env [] (λ _, None) daemon_flags daemon_config bench_main) as (mode & Hm & _ & H).
  injection Hm as <-. destruct (NewRouterRuntime _ _ daemon_config) as [[[rt states] cache]|e]; [|by destruct H].
  destruct H as (Hp & Hr & _ & Hn & _). exists rt, states, cache. injection Hp as Hp. by rewrite Hr.
Defined.
