(* ===== verification/Puppet.v ===== *)
(** * Puppet: requests and traces by hand ([cmd/coso-puppet/main.go])

    The tool sends one request to a device and shows what its answer says, and it
    sums up the traces that the vendor's service program writes.  The answer and the
    lines of a trace are arguments; what is printed is given as data. *)
From stdpp Require Import prelude gmap strings list.
From Stdlib Require Import Strings.Byte Floats.SpecFloat.
From S2P Require Import Prelude Text Regex Crc Endpoint Broker Protocol SdoMap DeviceBridge BridgePayload BridgeLogic BridgeFrames.
Open Scope Z_scope.

(** ** Requests *)
Definition puppet_frame (address seq : Z) (payload : bytes) : bytes :=
  let prefix := "#"%byte :: fmtX 2 address ++ fmtX 4 seq ++ payload in
  prefix ++ fmtX 4 (CRC16 prefix) ++ [FrameTerminator].
Definition byteFlag (v : Z) : res Z :=
  if (v <? 0) || (0xff <? v) then Err (Errorf "-%s must be in range 0..255" []) else Ok (u8 v).
Definition uint16Flag (v : Z) : res Z :=
  if (v <? 0) || (0xffff <? v) then Err (Errorf "-%s must be in range 0..65535" []) else Ok (u16 v).
Definition normalizeTCPEndpoint (endpoint : bytes) : bytes :=
  TrimPrefix (TrimPrefix (TrimSpace endpoint) (str "tcp://")) (str "tcp:").

(** ** Responses *)
Record rawResponse := MkRawResponse { rr_Raw : bytes; rr_Address : Z; rr_Sequence : Z; rr_Status : string; rr_Payload : bytes }.
(** [bytes.TrimRight(raw, CR LF)]. *)
Definition is_newline (b : byte) : bool := bool_decide (b ∈ [x0d; x0a]).
Fixpoint drop_newlines (l : bytes) : bytes :=
  match l with b :: l' => if is_newline b then drop_newlines l' else l | [] => [] end.
Definition TrimNewlines (l : bytes) : bytes := reverse (drop_newlines (reverse l)).

Definition address_sequence (what : string) (frame : bytes) : res (Z * Z) :=
  match ParseUint (slice frame 1 3) 16 8 with
  | Err e => Err (Wrapf ("invalid " +:+ what +:+ " address: %w") [] e)
  | Ok addr =>
      match ParseUint (slice frame 3 7) 16 16 with
      | Err e => Err (Wrapf ("invalid " +:+ what +:+ " sequence: %w") [] e)
      | Ok sq => Ok (u8 addr, u16 sq)
      end
  end.
Definition parseResponseAddressSequence : bytes → res (Z * Z) := address_sequence "response".
Definition parseRequestAddressSequence (frame : bytes) : res (Z * Z) :=
  let frame := TrimNewlines frame in
  if (length frame <? 11)%nat || negb (bool_decide (frame !! 0%nat = Some "#"%byte)) then Err (Errorf "invalid MeCom request %q" [])
  else address_sequence "request" frame.
Definition puppet_bare_ack (frame request : bytes) : bool :=
  let req := TrimSuffix request [FrameTerminator] in
  if negb (length frame =? 11)%nat || (length req <? 11)%nat || negb (bool_decide (req !! 0%nat = Some "#"%byte)) then false
  else if negb (bool_decide (slice frame 1 7 = slice req 1 7)) then false
  else match ParseUint (lastn 4 req) 16 16 with
       | Err _ => false
       | Ok reqCRC =>
           if negb (CRC16 (droplast 4 req) =? u16 reqCRC) then false
           else match ParseUint (drop 7 frame) 16 16 with Ok respCRC => u16 respCRC =? u16 reqCRC | Err _ => false end
       end.
(** Status and payload of a response with a good checksum. *)
Definition response_body (frame : bytes) (payloadEnd : nat) : string * bytes :=
  let signed := (7 <? payloadEnd)%nat in
  if signed && bool_decide (frame !! 7%nat = Some "+"%byte) then ("ok"%string, slice frame 8 payloadEnd)
  else if signed && bool_decide (frame !! 7%nat = Some "-"%byte) then ("nack"%string, slice frame 8 payloadEnd)
  else ("data"%string, slice frame 7 payloadEnd).
Definition parseMeComResponse (raw request : bytes) : res rawResponse :=
  let frame := TrimNewlines raw in
  if (length frame <? 11)%nat || negb (bool_decide (frame !! 0%nat = Some "!"%byte)) then Err (Errorf "invalid MeCom response %q" [])
  else
    let payloadEnd := (length frame - 4)%nat in
    match ParseUint (drop payloadEnd frame) 16 16 with
    | Err e => Err (Wrapf "invalid response CRC %q: %w" [] e)
    | Ok got =>
        let want := CRC16 (take payloadEnd frame) in
        if negb (u16 got =? want) then
          if puppet_bare_ack frame request then
            '(addr, sq) ← parseResponseAddressSequence frame; Ok (MkRawResponse raw addr sq "ok" [])
          else Err (Errorf "response CRC mismatch got %04X want %04X" [got; want])
        else
          '(addr, sq) ← parseResponseAddressSequence frame;
          '(reqAddr, reqSeq) ← (if bool_decide (request = []) then Ok (addr, sq) else parseRequestAddressSequence request);
          if negb (addr =? reqAddr) || negb (sq =? reqSeq) then
            Err (Errorf "response address/sequence mismatch got 0x%02X/%d want 0x%02X/%d" [addr; sq; reqAddr; reqSeq])
          else
            let '(status, payload) := response_body frame payloadEnd in
            Ok (MkRawResponse raw addr sq status payload)
    end.

(** ** Metadata *)
Record metadataInfo := MkMetadata {
  mi_Type : bytes; mi_Flags : Z; mi_MaxInstances : Z; mi_MaxElements : Z; mi_Minimum : bytes; mi_Maximum : bytes; mi_Actual : bytes }.
Definition metadataTypeName (v : Z) : bytes :=
  if v =? 0 then str "FLOAT32" else if v =? 1 then str "INT32" else if v =? 3 then str "LATIN1" else str "TYPE_" ++ fmtX 2 v.
Definition parseHexByte (v : bytes) : option Z := match ParseUint v 16 8 with Ok out => Some (u8 out) | Err _ => None end.
(** Minimum, maximum and actual value: words, or bytes. *)
Definition metadata_values (rest : bytes) : bytes * bytes * bytes :=
  if (24 <=? length rest)%nat then (slice rest 0 8, slice rest 8 16, slice rest 16 24)
  else if (6 <=? length rest)%nat then (slice rest 0 2, slice rest 2 4, slice rest 4 6)
  else ([], [], []).
Definition decodeMetadataPayload (payload : bytes) : option metadataInfo :=
  if (length payload <? 14)%nat then None
  else
    meParType ← parseHexByte (slice payload 0 2);
    flags ← parseHexByte (slice payload 2 4);
    maxInstances ← parseHexByte (slice payload 4 6);
    match ParseUint (slice payload 6 14) 16 32 with
    | Err _ => None
    | Ok maxElements =>
        let '(minimum, maximum, actual) := metadata_values (drop 14 payload) in
        Some (MkMetadata (metadataTypeName meParType) flags maxInstances (u32 maxElements) minimum maximum actual)
    end.

(** ** One exchange

    [exchange] is what the connection does with a request: an error of dialling,
    writing or reading, or the bytes up to the terminator. *)
Record report := MkReport { rp_request : bytes; rp_response : rawResponse; rp_metadata : option metadataInfo }.
Definition sendRawRequest (exchange : bytes → res bytes) (address seq : Z) (payload : bytes) : res (bytes * rawResponse) :=
  let request := puppet_frame address seq payload in
  raw ← exchange request; resp ← parseMeComResponse raw request; Ok (request, resp).
(** A refused flag (status 2), a failure (status 1), or the report. *)
Inductive puppet_result := Usage (e : error) | Failure (e : error) | Reported (r : report).
Definition printRawReport (request : bytes) (resp : rawResponse) : report :=
  MkReport request resp (decodeMetadataPayload (rr_Payload resp)).
Definition sendAndReport (exchange : bytes → res bytes) (endpoint : bytes) (address seq : Z) (payload : bytes) (timeout : Z) : puppet_result :=
  if bool_decide (endpoint = []) then Usage (Errorf "coso-puppet: -endpoint is required" [])
  else match byteFlag address with
       | Err e => Usage e
       | Ok addr =>
           match uint16Flag seq with
           | Err e => Usage e
           | Ok sequence =>
               if timeout <=? 0 then Usage (Errorf "coso-puppet: -timeout must be positive" [])
               else match sendRawRequest exchange addr sequence payload with
                    | Err e => Failure e
                    | Ok (request, resp) => Reported (printRawReport request resp)
                    end
           end
       end.
Definition runMetadata (exchange : bytes → res bytes) (endpoint : bytes) (address seq id instance timeout : Z) : puppet_result :=
  if (id <=? 0) || (0xffff <? id) then Usage (Errorf "coso-puppet metadata: -id must be in range 1..65535" [])
  else if (instance <=? 0) || (0xff <? instance) then Usage (Errorf "coso-puppet metadata: -instance must be in range 1..255" [])
  else sendAndReport exchange endpoint address seq (str "?VM" ++ fmtX 4 id ++ fmtX 2 instance) timeout.
Definition runRaw (exchange : bytes → res bytes) (endpoint : bytes) (address seq : Z) (payload : bytes) (timeout : Z) : puppet_result :=
  if bool_decide (payload = []) then Usage (Errorf "coso-puppet raw: -payload is required" [])
  else sendAndReport exchange endpoint address seq payload timeout.

(** ** Traces *)
Record traceEvent := MkTraceEvent {
  te_Timestamp : bytes; te_Level : bytes; te_Source : bytes; te_Message : bytes; te_ParameterID : Z; te_Instance : Z; te_Detail : bytes }.
Definition not_newline (b : byte) : bool := negb (bool_decide (b = x0a)).
(** A dash between white space, and the rest of the line. *)
Definition dash_rest (l : bytes) : option bytes :=
  '(_, l) ← some_of regex_space l; l ← lit ["-"%byte] l; '(_, l) ← some_of regex_space l;
  if forallb not_newline l then Some l else None.
(** The shortest beginning after which that matches ([.+?]). *)
Fixpoint lazy_split (before l : bytes) : option (bytes * bytes) :=
  match l with
  | [] => None
  | b :: l =>
      if not_newline b then match dash_rest l with Some rest => Some (before ++ [b], rest) | None => lazy_split (before ++ [b]) l end
      else None
  end.
(** The same after [\s+], which takes as much white space as it can, and less when
    nothing matches then. *)
Fixpoint after_spaces (k : nat) (l : bytes) : option (bytes * bytes) :=
  match k with
  | O => None
  | S k => match lazy_split [] (drop (S k) l) with Some x => Some x | None => after_spaces k l end
  end.
Definition traceLineRE (l : bytes) : option (bytes * bytes * bytes * bytes) :=
  l ← lit ["["%byte] l;
  '(timestamp, l) ← some_of (λ b, negb (bool_decide (b = "]"%byte))) l;
  l ← lit ["]"%byte] l;
  '(_, l) ← some_of regex_space l; l ← lit ["-"%byte] l; '(_, l) ← some_of regex_space l;
  '(level, l) ← some_of (λ b, negb (regex_space b)) l;
  '(_, l) ← some_of regex_space l; l ← lit ["-"%byte] l;
  '(source, message) ← after_spaces (length (span regex_space l).1) l;
  Some (timestamp, level, source, message).
(** A search for a match that begins at a word boundary. *)
Fixpoint search_word {A} (re : bytes → option A) (in_word : bool) (l : bytes) : option A :=
  match (if in_word then None else re l) with
  | Some a => Some a
  | None => match l with [] => None | b :: l => search_word re (ident_byte b) l end
  end.
Definition meParIDRE (l : bytes) : option (bytes * bytes) :=
  l ← lit (str "MeParID") l; '(_, l) ← some_of (λ b, bool_decide (b ∈ [":"%byte; " "%byte])) l;
  '(id, l) ← some_of is_digit (spaces l);
  Some (id, match lit ["."%byte] l with Some l => (span is_digit l).1 | None => [] end).
Definition number_after (word : string) (l : bytes) : option bytes :=
  l ← lit (str word) l; '(id, _) ← some_of is_digit (spaces l); Some id.
Definition idRE : bytes → option bytes := number_after "ID:".
Definition instRE : bytes → option bytes := number_after "Inst:".
Definition detailRE (l : bytes) : option bytes :=
  l ← lit (str "Detail") l;
  let l := spaces (default l (lit [":"%byte] l)) in
  if forallb not_newline l then Some l else None.
(** [strconv.Atoi] of digits: too many of them give the largest integer. *)
Definition puppet_atoi (digits : bytes) : Z := default (2 ^ 63 - 1) (Atoi digits).

Definition parseTraceLine (line : bytes) : option traceEvent :=
  '(timestamp, level, source, message) ← traceLineRE line;
  let message := TrimSpace message in
  let '(id, instance) :=
    match search_word meParIDRE false message with
    | Some (id, instance) => (puppet_atoi id, if bool_decide (instance = []) then 0 else puppet_atoi instance)
    | None => (match search_word idRE false message with Some id => puppet_atoi id | None => 0 end, 0)
    end in
  let instance := if instance =? 0 then match search_word instRE false message with Some i => puppet_atoi i | None => 0 end else instance in
  Some (MkTraceEvent (TrimSpace timestamp) (TrimSpace level) (TrimSpace source) message id instance
          (match search_word detailRE false message with Some d => TrimSpace d | None => [] end)).
(** [lines]: the lines of the file and the error that ends them, if any. *)
Definition readTraceEvents (lines : list bytes) (scan_error : option error) : res (list traceEvent) :=
  match scan_error with Some e => Err e | None => Ok (omap parseTraceLine lines) end.
Definition filterTraceEvents (events : list traceEvent) (errorsOnly : bool) : list traceEvent :=
  if errorsOnly then filter (λ e, ToUpper (te_Level e) ∈ [str "ERROR"; str "WARN"]) events else events.
Definition formatParam (e : traceEvent) : bytes :=
  if te_ParameterID e =? 0 then str "-"
  else if te_Instance e =? 0 then fmtD (te_ParameterID e)
  else fmtD (te_ParameterID e) ++ "."%byte :: fmtD (te_Instance e).
Record summary := MkSummary { su_event : traceEvent; su_count : Z; su_first : bytes; su_last : bytes }.
Definition trace_key (e : traceEvent) : bytes :=
  JoinText (str "|") [te_Level e; te_Source e; fmtD (te_ParameterID e); fmtD (te_Instance e); te_Detail e].
Fixpoint count_event (e : traceEvent) (summaries : list (bytes * summary)) : list (bytes * summary) :=
  match summaries with
  | [] => [(trace_key e, MkSummary e 1 (te_Timestamp e) (te_Timestamp e))]
  | (key, s) :: rest =>
      if bool_decide (key = trace_key e) then (key, MkSummary (su_event s) (su_count s + 1) (su_first s) (te_Timestamp e)) :: rest
      else (key, s) :: count_event e rest
  end.
Definition summarise (events : list traceEvent) : list (bytes * summary) := fold_left (λ l e, count_event e l) events [].
Record trace_report := MkTraceReport { tr_matching : Z; tr_events : list (traceEvent * bytes); tr_summary : list (summary * bytes) }.
Definition writeTraceReport (events : list traceEvent) (printEvents : bool) : trace_report :=
  MkTraceReport (Z.of_nat (length events)) (if printEvents then (λ e, (e, formatParam e)) <$> events else [])
    ((λ ks, (ks.2, formatParam (su_event ks.2))) <$> summarise events).
(** [path] and what is read from it. *)
Definition runTrace (path : bytes) (lines : list bytes) (scan_error : option error) (all events_flag : bool) : res trace_report :=
  if bool_decide (path = []) then Err (Errorf "coso-puppet trace: -file is required" [])
  else events ← readTraceEvents lines scan_error; Ok (writeTraceReport (filterTraceEvents events (negb all)) events_flag).

(** ** Frames *)
Lemma TrimNewlines_snoc l b : TrimNewlines (l ++ [b]) = if is_newline b then TrimNewlines l else l ++ [b].
Proof.
  unfold TrimNewlines. rewrite reverse_snoc. cbn [drop_newlines]. destruct (is_newline b); [done|]. by rewrite reverse_cons, reverse_involutive.
Qed.
Lemma TrimNewlines_seal prefix : TrimNewlines (seal prefix) = prefix ++ fmtX 4 (CRC16 prefix).
Proof.
  unfold seal. rewrite app_assoc, TrimNewlines_snoc. change (is_newline FrameTerminator) with true. cbv iota.
  destruct (crc_text_last prefix) as (t & d & -> & Hd). rewrite app_assoc, TrimNewlines_snoc.
  assert (is_newline d = false) as ->; [|done]. unfold is_newline. apply bool_decide_eq_false_2.
  rewrite !not_elem_of_cons. split_and!; [..|apply not_elem_of_nil]; intros ->; by vm_compute in Hd.
Qed.
Lemma slice_within {A} (l : list A) i j a b : (a ≤ b)%nat → (i + b ≤ j)%nat → slice l (i + a) (i + b) = slice (slice l i j) a b.
Proof.
  intros Hab Hj. unfold slice. rewrite skipn_firstn_comm, drop_drop, take_take. f_equal; lia.
Qed.
(** Address and sequence number are read from six characters. *)
Lemma address_sequence_header what frame a s : 0 ≤ a < 256 → 0 ≤ s < 65536 →
  slice frame 1 7 = request_header a s → address_sequence what frame = Ok (a, s).
Proof.
  intros Ha Hs Hh. unfold address_sequence.
  change (slice frame 1 3) with (slice frame (1 + 0) (1 + 2)). change (slice frame 3 7) with (slice frame (1 + 2) (1 + 6)).
  rewrite (slice_within frame 1 7 0 2), (slice_within frame 1 7 2 6), Hh by lia. unfold request_header.
  rewrite slice_head by (by rewrite length_hex_fix). rewrite slice_after by (rewrite ?length_hex_fix; lia). rewrite length_hex_fix.
  rewrite slice_all by (by rewrite length_hex_fix). rewrite !ParseUint_hex_fix by (simpl; lia).
  unfold u8, u16. by rewrite !Z.mod_small by lia.
Qed.
Section exchange.
Context (a s : Z) (Ha : 0 ≤ a < 256) (Hs : 0 ≤ s < 65536).
Lemma puppet_frame_seal payload : puppet_frame a s payload = seal ("#"%byte :: request_header a s ++ payload).
Proof using Ha Hs. unfold puppet_frame, seal, request_header. rewrite !fmtX_fix by (simpl; lia). by rewrite <-!app_assoc. Qed.
Lemma parse_request payload : parseRequestAddressSequence (puppet_frame a s payload) = Ok (a, s).
Proof using Ha Hs.
  unfold parseRequestAddressSequence. rewrite puppet_frame_seal, TrimNewlines_seal.
  set (prefix := "#"%byte :: request_header a s ++ payload). destruct (crc_text prefix) as [_ Hl].
  pose proof (length_request_header a s) as Hh.
  destruct (Nat.ltb_spec (length (prefix ++ fmtX 4 (CRC16 prefix))) 11) as [Hlt|_].
  { unfold prefix in Hlt at 1. rewrite length_app, Hl, length_cons, length_app in Hlt. lia. }
  cbn [app lookup]. rewrite bool_decide_true by done. cbn [negb orb]. apply address_sequence_header; [done..|].
  unfold prefix at 1. cbn [app]. rewrite <-app_assoc. by apply slice_header.
Qed.
(** What is shown belongs to the request. *)
Lemma shown_belongs raw payload r : parseMeComResponse raw (puppet_frame a s payload) = Ok r → rr_Address r = a ∧ rr_Sequence r = s.
Proof using Ha Hs.
  unfold parseMeComResponse. destruct (_ || _); [done|]. destruct (ParseUint _ 16 16) as [got|e]; [|done].
  destruct (negb (u16 got =? _)).
  - unfold puppet_bare_ack. destruct (_ || _ || _); [done|]. destruct (bool_decide _) eqn:Eh; cbn [negb]; [|done].
    apply bool_decide_eq_true in Eh. rewrite puppet_frame_seal in Eh at 1. rewrite seal_trim in Eh. cbn [app] in Eh. rewrite <-app_assoc in Eh.
    rewrite slice_header in Eh by (by apply length_request_header).
    destruct (ParseUint (lastn 4 _) 16 16); [|done]. destruct (negb (_ =? _)); [done|]. destruct (ParseUint (drop 7 _) 16 16); [|done].
    destruct (_ =? _); [|done]. unfold parseResponseAddressSequence. rewrite (address_sequence_header _ _ a s) by done.
    cbn [mbind result_bind]. by intros [= <-].
  - destruct (parseResponseAddressSequence _) as [[ra rs]|e]; [|done]. cbn [mbind result_bind].
    rewrite bool_decide_false by (by rewrite puppet_frame_seal). rewrite parse_request. cbn [mbind result_bind].
    destruct (Z.eqb_spec ra a), (Z.eqb_spec rs s); cbn [negb orb]; try done. subst.
    destruct (response_body _ _) as [status body]. by intros [= <-].
Qed.
(** What a device answers is shown: its payload, or its sign and what follows. *)
Lemma answer_shown payload body : let raw := response (request_header a s) body in
  parseMeComResponse raw (puppet_frame a s payload) =
    Ok (match body with
        | b :: p => if bool_decide (b = "+"%byte) then MkRawResponse raw a s "ok" p
                    else if bool_decide (b = "-"%byte) then MkRawResponse raw a s "nack" p
                    else MkRawResponse raw a s "data" body
        | [] => MkRawResponse raw a s "data" []
        end).
Proof using Ha Hs.
  cbn zeta. unfold parseMeComResponse. pose proof (length_request_header a s) as Hh.
  assert (HF : TrimNewlines (response (request_header a s) body) =
    ("!"%byte :: request_header a s ++ body) ++ fmtX 4 (CRC16 ("!"%byte :: request_header a s ++ body))) by apply TrimNewlines_seal.
  rewrite HF. cbv zeta. set (prefix := "!"%byte :: request_header a s ++ body). set (frame := prefix ++ fmtX 4 (CRC16 prefix)).
  destruct (crc_text prefix) as [Hx Hl].
  assert (Hlen : (length frame - 4 = length prefix)%nat) by (unfold frame; rewrite length_app, Hl; lia).
  assert (Hpl : length prefix = (7 + length body)%nat) by (unfold prefix; rewrite length_cons, length_app, Hh; lia).
  destruct (Nat.ltb_spec (length frame) 11); [lia|].
  rewrite bool_decide_true by done. cbn [negb orb]. rewrite Hlen. unfold frame at 1 2. rewrite drop_app_length, take_app_length.
  pose proof (CRC16_range prefix). rewrite Hx, ParseUint_hex_fix by (simpl; lia). unfold u16 at 1. rewrite Z.mod_small by done.
  rewrite Z.eqb_refl. cbn [negb]. unfold parseResponseAddressSequence. rewrite (address_sequence_header _ frame a s).
  2,3: done. 2: { unfold frame, prefix at 1. cbn [app]. rewrite <-app_assoc. by apply slice_header. }
  cbn [mbind result_bind]. rewrite bool_decide_false by (by rewrite puppet_frame_seal). rewrite parse_request. cbn [mbind result_bind].
  rewrite !Z.eqb_refl. cbn [negb orb]. unfold response_body. rewrite Hpl.
  pose proof (response_lookup (request_header a s) body Hh) as Hlk. pose proof (response_slice (request_header a s) body Hh) as Hsl.
  change (frame !! 7%nat = head (body ++ fmtX 4 (CRC16 prefix))) in Hlk.
  change (∀ i, (i ≤ length body)%nat → slice frame (7 + i) (7 + length body) = drop i body) in Hsl.
  rewrite Hlk. pose proof (Hsl 0%nat ltac:(lia)) as Hz. rewrite Nat.add_0_r in Hz. destruct body as [|b p].
  - cbn [length Nat.add Nat.ltb Nat.leb andb] in *. by rewrite Hz.
  - destruct (Nat.ltb_spec 7 (7 + length (b :: p))); [|simpl in *; lia]. cbn [andb app head].
    assert (Hb : ∀ c, bool_decide (Some b = Some c) = bool_decide (b = c)) by (intros c; apply bool_decide_ext; split; congruence).
    rewrite !Hb.
    pose proof (Hsl 1%nat ltac:(simpl; lia)) as Hone. change (7 + 1)%nat with 8%nat in Hone. rewrite Hone, Hz. cbn [drop].
    destruct (bool_decide (b = "+"%byte)); [done|]. by destruct (bool_decide (b = "-"%byte)).
Qed.
End exchange.

(** ** Metadata of a bridge *)
Lemma parseHexByte_fmt v : 0 ≤ v < 256 → parseHexByte (fmtX 2 v) = Some v.
Proof. intros Hv. unfold parseHexByte. rewrite fmtX_fix, ParseUint_hex_fix by (simpl; lia). unfold u8. by rewrite Z.mod_small. Qed.
Lemma decode_metadata t flags instances elements mn mx actual :
  0 ≤ t < 256 → 0 ≤ flags < 256 → 0 ≤ instances < 256 → 0 ≤ elements < 2 ^ 32 →
  (length mn = 8%nat ∧ length mx = 8%nat ∧ length actual = 8%nat) ∨ (length mn = 2%nat ∧ length mx = 2%nat ∧ length actual = 2%nat) →
  decodeMetadataPayload (fmtX 2 t ++ fmtX 2 flags ++ fmtX 2 instances ++ fmtX 8 elements ++ mn ++ mx ++ actual) =
    Some (MkMetadata (metadataTypeName t) flags instances elements mn mx actual).
Proof.
  intros Ht Hf Hi He Hl. unfold decodeMetadataPayload.
  assert (Hx : ∀ w z, (0 < w ≤ 16)%nat → 0 ≤ z < 16 ^ Z.of_nat w → length (fmtX w z) = w) by (intros; rewrite fmtX_fix by done; apply length_hex_fix).
  pose proof (Hx 2%nat t ltac:(lia) ltac:(simpl; lia)) as H2. pose proof (Hx 2%nat flags ltac:(lia) ltac:(simpl; lia)) as H4.
  pose proof (Hx 2%nat instances ltac:(lia) ltac:(simpl; lia)) as H6. pose proof (Hx 8%nat elements ltac:(lia) ltac:(simpl; lia)) as H14. clear Hx.
  match goal with |- context [if ?c then None else _] => assert (c = false) as -> by (apply Nat.ltb_ge; rewrite !length_app; lia) end.
  rewrite slice_head by done. rewrite (slice_after (fmtX 2 t) _ 2 4), H2 by lia. cbn [Nat.sub]. rewrite slice_head by done.
  rewrite (slice_after (fmtX 2 t) _ 4 6), (slice_after (fmtX 2 t) _ 6 14), H2 by lia. cbn [Nat.sub].
  rewrite (slice_after (fmtX 2 flags) _ 2 4), (slice_after (fmtX 2 flags) _ 4 12), H4 by lia. cbn [Nat.sub]. rewrite slice_head by done.
  rewrite (slice_after (fmtX 2 instances) _ 2 10), H6 by lia. cbn [Nat.sub]. rewrite slice_head by done.
  rewrite !parseHexByte_fmt by done. cbn [mbind option_bind]. rewrite (fmtX_fix 8), ParseUint_hex_fix by (simpl; lia).
  rewrite <-fmtX_fix by (simpl; lia).
  assert (drop 14 (fmtX 2 t ++ fmtX 2 flags ++ fmtX 2 instances ++ fmtX 8 elements ++ mn ++ mx ++ actual) = mn ++ mx ++ actual) as ->.
  { change 14%nat with (2 + (2 + (2 + 8)))%nat. rewrite <-!drop_drop.
    by rewrite (drop_app_length' (fmtX 2 t)), (drop_app_length' (fmtX 2 flags)), (drop_app_length' (fmtX 2 instances)), (drop_app_length' (fmtX 8 elements)). }
  assert (Hv : metadata_values (mn ++ mx ++ actual) = (mn, mx, actual)).
  { unfold metadata_values. destruct Hl as [(H1 & H3 & H5)|(H1 & H3 & H5)]; rewrite !length_app, H1, H3, H5; cbn [Nat.leb Nat.add];
      rewrite slice_head by done; rewrite !(slice_after mn), H1 by lia; cbn [Nat.sub]; rewrite slice_head by done;
      rewrite (slice_after mx), H3 by lia; cbn [Nat.sub]; by rewrite slice_all. }
  rewrite Hv. unfold u32. by rewrite Z.mod_small.
Qed.
Section metadata.
Context `{BridgeEnv} {C} `{DeviceClient C}.

(** What metadata say of a parameter. *)
Definition metadata_of (id instance : Z) (m : metadataInfo) : Prop :=
  let typ := deviceBridgeParameterType id in
  match deviceBridgeMeParType typ with
  | Ok t => mi_Type m = metadataTypeName t ∧ mi_Flags m = metadata_flags id ∧
      mi_MaxInstances m = u8 (deviceBridgeParameterMaxInstances id) ∧ mi_MaxElements m = deviceBridgeParameterMaxElements id typ ∧
      (∃ actual, deviceBridgeParameterBounds typ = Ok (mi_Minimum m, mi_Maximum m, actual) ∧ length (mi_Actual m) = length actual)
  | Err _ => m = MkMetadata (str "FLOAT32") deviceBridgeMetadataReadFlag instance 1 (str "FF800000") (str "7F800000") (str "00000000")
  end.

Lemma bounds_lengths typ mn mx a : deviceBridgeParameterBounds typ = Ok (mn, mx, a) →
  length mn = length a ∧ length mx = length a ∧
  if bool_decide (typ ∈ [DataTypeFloat32; DataTypeInt32; ""%string]) then length a = 8%nat else length a = 2%nat.
Proof.
  unfold deviceBridgeParameterBounds. intros Hb.
  destruct (decide (typ = DataTypeFloat32)) as [->|]; [by injection Hb as <- <- <-|].
  destruct (decide (typ = ""%string)) as [->|]; [by injection Hb as <- <- <-|].
  destruct (decide (typ = DataTypeInt32)) as [->|]; [by injection Hb as <- <- <-|].
  rewrite (bool_decide_eq_false_2 (typ ∈ _)) by (rewrite !not_elem_of_cons; split_and!; [done..|apply not_elem_of_nil]).
  rewrite !(bool_decide_eq_false_2 (typ = _)) in Hb by done. cbn [orb] in Hb.
  destruct (bool_decide (typ = DataTypeLatin1)); [by injection Hb as <- <- <-|].
  destruct (bool_decide (typ = DataTypeByte)); [by injection Hb as <- <- <-|done].
Qed.
(** The actual value that replaces the one of the bounds is as long as that. *)
Lemma live_actual_length id instance typ (w : deviceBridgeState * C) a :
  (deviceBridgeLiveMetadataActual id instance typ w).2 = Ok (Some a) →
  typ ∈ [DataTypeFloat32; DataTypeInt32; ""%string] ∧ length a = 8%nat.
Proof.
  unfold deviceBridgeLiveMetadataActual. destruct (_ || _ || _) eqn:E; [|done]. intros Hr. split.
  - rewrite !orb_true_iff, !bool_decide_eq_true in E. rewrite !elem_of_cons. tauto.
  - cbv [mbind bridge_bind attempt] in Hr. destruct (deviceBridgeSingleReadWithState _ w) as [w' [p|e]]; cbn in Hr; [|done].
    destruct (length p =? 8)%nat eqn:El; [|done]. injection Hr as <-. by apply Nat.eqb_eq.
Qed.
Lemma cached_actual_length id instance typ st a : deviceBridgeCachedMetadataActual id instance typ st = Some a →
  typ ∈ [DataTypeFloat32; DataTypeInt32; ""%string] ∧ length a = 8%nat.
Proof.
  assert (Hw : ∀ z, length (fmtX 8 (u32 z)) = 8%nat).
  { intros z. pose proof (u32_range z). rewrite fmtX_fix by (simpl; lia). apply length_hex_fix. }
  unfold deviceBridgeCachedMetadataActual. cbv zeta. destruct (store_lookupParameter _ _ _ _) as [[v|]|]; [|done..].
  destruct (bool_decide (v_source v = _)); [done|]. destruct (decide (typ = ""%string)) as [->|Hne].
  - intros [= <-]. split; [by do 2 right; left|apply Hw].
  - rewrite (bool_decide_eq_false_2 (typ = ""%string)) by done.
    destruct (bool_decide (typ = DataTypeInt32)) eqn:Ei; [|destruct (bool_decide (typ = DataTypeFloat32)) eqn:Ef; [|done]];
      intros [= <-]; (split; [|apply Hw]); [apply bool_decide_eq_true in Ei as ->; by right; left|apply bool_decide_eq_true in Ef as ->; by left].
Qed.

Lemma metadata_payload id instance : 0 ≤ id ≤ 0xFFFF → 1 ≤ instance ≤ 0xFF →
  ensures (C:=C) (λ _, True) (λ p, ∃ m, decodeMetadataPayload p = Some m ∧ metadata_of id instance m)
    (deviceBridgeMetadataWithState (str "?VM" ++ address_field id instance)).
Proof.
  intros Hid Hi. unfold deviceBridgeMetadataWithState, deviceBridgeMetadataWithActual.
  pose proof (length_address_field id instance ltac:(lia) ltac:(lia)) as Hl.
  assert (length (str "?VM" ++ address_field id instance) = 9%nat) as -> by (rewrite length_app; simpl; lia).
  cbn [Nat.eqb negb]. rewrite (drop_app_length' (str "?VM") _ 3) by done. rewrite parse_address_field by lia.
  eapply (ensures_bind _ (λ x, x = (id, instance))); [apply ensures_lift; by intros x [= <-]|]. intros ? ->.
  destruct (deviceBridgeMeParType (deviceBridgeParameterType id)) as [t|e] eqn:Et.
  - eapply (ensures_bind _ (λ x, deviceBridgeParameterBounds (deviceBridgeParameterType id) = Ok x)); [by apply ensures_lift|].
    intros [[mn mx] act] Hb. destruct (bounds_lengths _ _ _ _ Hb) as (Hmn & Hmx & Hact).
    assert (Hnum : ∀ a : bytes, deviceBridgeParameterType id ∈ [DataTypeFloat32; DataTypeInt32; ""%string] ∧ length a = 8%nat → length a = length act).
    { intros a [Hin ->]. by rewrite bool_decide_eq_true_2 in Hact. }
    eapply (ensures_bind _ (λ a : bytes, length a = length act)).
    + destruct (deviceBridgeMetadataLiveActualParameter id); [|by apply ensures_ret].
      eapply (ensures_bind _ (λ o, ∀ a, o = Some a → length a = length act)).
      * intros w _. split; [done|]. intros o Ho a ->. eapply Hnum, live_actual_length, Ho.
      * intros [l|] Hlv; [by apply ensures_ret, Hlv|]. apply ensures_read. intros st b _ [= <-].
        destruct (deviceBridgeCachedMetadataActual _ _ _ _) eqn:E; [|done]. eapply Hnum, cached_actual_length, E.
    + intros a Ha. apply ensures_ret. apply MeParType_range in Et as Ht.
      pose proof (metadata_flags_range id). pose proof (MaxElements_range id (deviceBridgeParameterType id)).
      eexists. split; [apply decode_metadata; [done..|apply u8_range|done|]|].
      * destruct (bool_decide _) in Hact; [left|right]; lia.
      * unfold metadata_of. rewrite Et. cbn. split_and!; [done..|]. by exists act.
  - destruct (deviceBridgeUnsupportedScalarNACK id); [apply ensures_raise|]. apply ensures_ret.
    unfold metadata_of, deviceBridgeFallbackMetadata. rewrite Et.
    destruct (Z.ltb_spec 0 instance); [|lia]. destruct (Z.leb_spec instance 0xff); [|lia]. cbn [andb].
    eexists. split; [apply decode_metadata; [lia|unfold deviceBridgeMetadataReadFlag; lia|lia|lia|by left]|done].
Qed.
(** What the bridge answers to the request. *)
Lemma handle_metadata a s id instance w : 0 ≤ a < 256 → 0 ≤ s < 65536 → 0 ≤ id ≤ 0xFFFF → 1 ≤ instance ≤ 0xFF →
  (handleDeviceClientFrameWithState (puppet_frame a s (str "?VM" ++ address_field id instance)) w).2 =
    response (request_header a s)
      (match (deviceBridgeMetadataWithState (C:=C) (str "?VM" ++ address_field id instance) w).2 with
       | Ok p => p | Err e => "-"%byte :: fmtX 2 (nackCodeForError e) end).
Proof.
  intros Ha Hs Hid Hi. unfold handleDeviceClientFrameWithState.
  change (puppet_frame a s ?x) with (appendCRC a s x). rewrite parse_built_request by done. cbn [rq_address rq_seq rq_payload].
  rewrite ToUpper_app, ToUpper_address_field by lia. change (ToUpper (str "?VM")) with (str "?VM").
  change (deviceBridgePayloadWithState (str "?VM" ++ address_field id instance))
    with (deviceBridgeMetadataWithState (C:=C) (str "?VM" ++ address_field id instance)).
  change (isDeviceBridgeInfoProbe (str "?VM" ++ address_field id instance)) with false.
  change (isDeviceBridgeRead (str "?VM" ++ address_field id instance)) with true.
  assert (Hx : fmtX 2 a ++ fmtX 4 s = request_header a s) by (unfold request_header; by rewrite !fmtX_fix by (simpl; lia)).
  destruct (deviceBridgeMetadataWithState _ w) as [w' [p|e]]; cbn [snd];
    unfold deviceBridgeData, deviceBridgeNACK, response; by rewrite <-Hx, <-app_assoc.
Qed.
Lemma metadata_hex id instance w p : (deviceBridgeMetadataWithState (C:=C) (str "?VM" ++ address_field id instance) w).2 = Ok p → hex_text p.
Proof.
  intros Hp. assert (Hk : ensures (C:=C) (λ _, True) hex_text (deviceBridgeMetadataWithState (str "?VM" ++ address_field id instance)))
    by (apply (Metadata_kept (λ _, True) (λ _ _, True)); by intros).
  destruct (Hk w Logic.I) as [_ Hw]. by apply Hw.
Qed.
End metadata.

(** C39: the metadata that the tool shows are those of the device.  The tool sends
    the metadata request of a parameter to a bridge; whatever state and client the
    bridge has, either the report says refused, with the code of the error, and has
    no metadata, or it has the type, the flags, the number of instances and
    elements and the bounds of the parameter.  And no other answer is shown: a report
    always carries the address and the sequence number of the request. *)
Theorem metadata_shown `{BridgeEnv} {C} `{DeviceClient C} (w : deviceBridgeState * C) (other : bytes → res bytes)
    (endpoint : bytes) (a s id instance timeout : Z) :
  endpoint ≠ [] → 0 ≤ a < 256 → 0 ≤ s < 65536 → 1 ≤ id ≤ 0xFFFF → 1 ≤ instance ≤ 0xFF → 0 < timeout →
  (∃ r, runMetadata (λ raw, Ok (handleDeviceClientFrameWithState raw w).2) endpoint a s id instance timeout = Reported r ∧
     match (deviceBridgeMetadataWithState (str "?VM" ++ address_field id instance) w).2 with
     | Err e => rr_Status (rp_response r) = "nack"%string ∧ rr_Payload (rp_response r) = fmtX 2 (nackCodeForError e) ∧ rp_metadata r = None
     | Ok p => rr_Status (rp_response r) = "data"%string ∧ rr_Payload (rp_response r) = p ∧
         ∃ m, rp_metadata r = Some m ∧ metadata_of id instance m
     end) ∧
  ∀ r, runMetadata other endpoint a s id instance timeout = Reported r →
    rr_Address (rp_response r) = a ∧ rr_Sequence (rp_response r) = s.
Proof.
  intros He Ha Hs Hid Hi Ht.
  assert (Hrun : ∀ exchange, runMetadata exchange endpoint a s id instance timeout =
    match sendRawRequest exchange a s (str "?VM" ++ address_field id instance) with
    | Err e => Failure e | Ok (request, resp) => Reported (printRawReport request resp) end).
  { intros exchange. unfold runMetadata, sendAndReport, byteFlag, uint16Flag, u8, u16. rewrite bool_decide_eq_false_2 by done.
    destruct (Z.leb_spec id 0); [lia|]. destruct (Z.ltb_spec 0xffff id); [lia|]. destruct (Z.leb_spec instance 0); [lia|].
    destruct (Z.ltb_spec 0xff instance); [lia|]. destruct (Z.ltb_spec a 0); [lia|]. destruct (Z.ltb_spec 0xff a); [lia|].
    destruct (Z.ltb_spec s 0); [lia|]. destruct (Z.ltb_spec 0xffff s); [lia|]. destruct (Z.leb_spec timeout 0); [lia|].
    cbn [orb]. by rewrite !Z.mod_small by lia. }
  rewrite !Hrun. split.
  - unfold sendRawRequest. cbn [mbind result_bind]. rewrite handle_metadata by lia.
    destruct (metadata_payload id instance ltac:(lia) Hi w I) as [_ Hm]. pose proof (metadata_hex id instance w) as Hx.
    destruct (deviceBridgeMetadataWithState _ w) as [w' [p|e]]; cbn [snd] in *; rewrite answer_shown by done.
    + specialize (Hm p eq_refl) as (m & Hdec & Hof). specialize (Hx p eq_refl). apply hex_unsigned in Hx as [Hplus Hminus].
      destruct p as [|b p]; [done|]. rewrite !bool_decide_eq_false_2 by (intros ->; done). cbn [mbind result_bind].
      eexists. split; [done|]. cbn. split_and!; [done..|]. by exists m.
    + assert (Hd : decodeMetadataPayload (fmtX 2 (nackCodeForError e)) = None).
      { unfold decodeMetadataPayload. rewrite fmtX_fix, length_hex_fix; [done|lia|]. unfold nackCodeForError. repeat case_match; simpl; lia. }
      cbn [mbind result_bind]. eexists. split; [done|]. by split_and!.
  - intros r Hr. destruct (sendRawRequest other _ _ _) as [[request resp]|e] eqn:E; [|done]. injection Hr as <-. cbn [rp_response printRawReport].
    apply bind_Ok_inv in E as (raw & _ & E). apply bind_Ok_inv in E as (resp' & E & [= _ <-]). by eapply shown_belongs.
Qed.
Lemma metadata_shown_witness : ∃ r m,
  runMetadata (λ raw, Ok (@handleDeviceClientFrameWithState small_env _ VirtualOnly_DeviceClient raw (small_state, VirtualOnly)).2)
    (str "127.0.0.1:50000") 5 8 1000 1 800 = Reported r ∧
  rr_Status (rp_response r) = "data"%string ∧ rp_metadata r = Some m ∧ mi_Type m = str "FLOAT32" ∧ mi_Minimum m = str "FF800000".
Proof.
  destruct (@metadata_shown small_env _ VirtualOnly_DeviceClient (small_state, VirtualOnly) (λ _, Err (Sentinel IoEOF))
    (str "127.0.0.1:50000") 5 8 1000 1 800 ltac:(done) ltac:(lia) ltac:(lia) ltac:(lia) ltac:(lia) ltac:(lia)) as [(r & Hr & Hm) _].
  exists r. vm_compute in Hm. destruct Hm as (Hst & _ & m & Hmd & Ht & _ & _ & _ & x & Hb & _). exists m.
  injection Hb as Hmin _ _. by split_and!.
Defined.

(** ** The summary of a trace *)
Definition events_of (key : bytes) (events : list traceEvent) : list traceEvent := filter (λ e, trace_key e = key) events.
(** An entry of the summary is about all the events of its key. *)
Definition sums_up (events : list traceEvent) (ks : bytes * summary) : Prop :=
  let es := events_of ks.1 events in
  head es = Some (su_event ks.2) ∧ su_count ks.2 = Z.of_nat (length es) ∧
  te_Timestamp <$> head es = Some (su_first ks.2) ∧ te_Timestamp <$> last es = Some (su_last ks.2).
Lemma events_of_snoc key events e : events_of key (events ++ [e]) = events_of key events ++ (if bool_decide (trace_key e = key) then [e] else []).
Proof.
  unfold events_of. rewrite filter_app. f_equal. case_bool_decide; [by rewrite filter_cons_True|by rewrite filter_cons_False].
Qed.
Lemma sums_up_other events e ks : ks.1 ≠ trace_key e → sums_up events ks → sums_up (events ++ [e]) ks.
Proof. intros Hne. unfold sums_up. by rewrite events_of_snoc, bool_decide_eq_false_2, app_nil_r by done. Qed.
Lemma count_event_keys e l : (count_event e l).*1 = l.*1 ++ (if bool_decide (trace_key e ∈ l.*1) then [] else [trace_key e]).
Proof.
  induction l as [|[k s] l IH]; [done|]. cbn [count_event]. destruct (decide (k = trace_key e)) as [->|Hk].
  - rewrite (bool_decide_eq_true_2 (trace_key e = _)) by done. csimpl. rewrite bool_decide_eq_true_2 by left. by rewrite app_nil_r.
  - rewrite (bool_decide_eq_false_2 (k = _)) by done. csimpl. rewrite IH.
    rewrite (bool_decide_ext (trace_key e ∈ k :: l.*1) (trace_key e ∈ l.*1)); [done|].
    rewrite elem_of_cons. split; [intros [Heq|?]; [by subst|done]|by right].
Qed.
Lemma count_event_sums events e l : NoDup l.*1 →
  (trace_key e ∉ l.*1 → events_of (trace_key e) events = []) →
  Forall (sums_up events) l → Forall (sums_up (events ++ [e])) (count_event e l).
Proof.
  intros Hn Hnew Hf. induction l as [|[k s] l IH]; cbn [count_event].
  - apply Forall_singleton. unfold sums_up. cbn [fst snd]. rewrite events_of_snoc, Hnew, bool_decide_eq_true_2 by (done || apply not_elem_of_nil). done.
  - apply Forall_cons in Hf as [Hs Hf]. apply NoDup_cons in Hn as [Hk Hn]. case_bool_decide as He.
    + subst k. constructor.
      * destruct Hs as (Hh & Hc & Hfi & Hl). unfold sums_up. cbn [fst snd su_event su_count su_first su_last] in *.
        rewrite events_of_snoc, bool_decide_eq_true_2 by done. destruct (events_of _ events) as [|e0 es] eqn:E; [done|].
        cbn [app head] in *. rewrite last_cons, last_snoc. split_and!; [done| |done|done]. rewrite Hc. simpl. rewrite length_app. simpl. lia.
      * apply Forall_forall. intros [k' s'] Hin. rewrite Forall_forall in Hf. apply sums_up_other; [|by apply Hf].
        intros Heq. apply Hk. cbn [fst] in *. rewrite <-Heq. apply list_elem_of_fmap. by exists (k', s').
    + constructor; [by apply sums_up_other|]. apply IH; [done| |done]. intros Hnin. apply Hnew. csimpl. apply not_elem_of_cons. split; [congruence|done].
Qed.
(** Every event is counted once: the keys of the summary are those of the events,
    each once, and an entry has the number, the first and the last of its events. *)
Theorem trace_summary_exact (events : list traceEvent) :
  NoDup (summarise events).*1 ∧ (∀ k, k ∈ (summarise events).*1 ↔ k ∈ trace_key <$> events) ∧
  Forall (sums_up events) (summarise events).
Proof.
  induction events as [|e events IH] using rev_ind.
  { split_and!; [constructor| |constructor]. done. }
  destruct IH as (Hn & Hk & Hf). unfold summarise in *. rewrite fold_left_app. cbn [fold_left].
  set (l := fold_left _ events []) in *. rewrite count_event_keys, fmap_app. csimpl. split_and!.
  - case_bool_decide; [by rewrite app_nil_r|]. apply NoDup_app. split_and!; [done| |apply NoDup_singleton].
    intros k Hin ->%list_elem_of_singleton. done.
  - intros k. rewrite !elem_of_app, list_elem_of_singleton, Hk. case_bool_decide as Hin; rewrite ?elem_of_nil, ?list_elem_of_singleton.
    + rewrite Hk in Hin. split; [by left; naive_solver|]. intros [?| ->]; by left.
    + done.
  - apply count_event_sums; [done| |done]. intros Hnin. unfold events_of.
    destruct (filter _ events) as [|e' es] eqn:E; [done|]. exfalso. apply Hnin, Hk, list_elem_of_fmap. exists e'.
    assert (Hin : e' ∈ e' :: es) by left. rewrite <-E in Hin. by apply list_elem_of_filter in Hin as [<- ?].
Qed.

(** Fields are put together with a bar that they may contain, so that events which
    differ may be counted as one. *)
Lemma keys_collide t m : let event level source := MkTraceEvent t level source m 0 0 [] in
  trace_key (event (str "WARN|A") (str "B")) = trace_key (event (str "WARN") (str "A|B")).
Proof. reflexivity. Qed.
