(* ===== verification/PuppetOracle.v ===== *)
(** * PuppetOracle: the connection oracle ([cmd/coso-puppet/oracle.go])

    An oracle describes the phases of a connection of the vendor's service program.
    It is published, so besides being well formed it must not contain what the lab
    keeps to itself: its text, as [encoding/json] writes it, is searched for
    forbidden tokens.  The decoded document is an argument; a slice is [None] when
    it is nil.  [json_escape] is what the encoder does to a byte of a string; bytes
    above 0x7F are copied. *)
From stdpp Require Import prelude strings list sorting.
From Stdlib Require Import Strings.Byte.
From S2P Require Import Prelude Text Endpoint.
Open Scope Z_scope.
#[local] Set Warnings "-clear-no-such-hyp".

(** ** The document *)
Definition slice_of (A : Type) : Type := option (list A).
Definition items {A} (s : slice_of A) : list A := default [] s.
Record coSoOracleDevice := MkOracleDevice {
  od_Family : bytes; od_Definition : bytes; od_IdentityString : bytes; od_FirmwareMin : bytes; od_FirmwareMax : bytes }.
Record coSoOracleTransport := MkOracleTransport {
  ot_SingleFlight : bool; ot_TimeoutRetries : Z; ot_BroadcastAddress : Z; ot_SequenceAddressMatchRequired : bool;
  ot_ServerErrorPrefix : bytes; ot_AckControl : bytes; ot_RequestControl : bytes; ot_FrameTerminator : bytes }.
Record coSoOracleServerError := MkServerError { se_Code : Z; se_Name : bytes; se_Action : bytes }.
Record coSoOracleParameterRef := MkParameterRef { pr_ParameterID : Z; pr_Instance : Z }.
Record coSoOracleParameter := MkOracleParameter {
  op_ParameterID : Z; op_Instance : Z; op_ValueType : bytes; op_CacheBehavior : bytes; op_Support : bytes; op_Writable : bool;
  op_Payload : bytes }.
Record coSoOracleCommand := MkOracleCommand {
  oc_Command : bytes; oc_Direction : bytes; oc_Optional : bool; oc_FailureAction : bytes; oc_FallbackFor : bytes;
  oc_ParameterID : Z; oc_Instance : Z; oc_ValueType : bytes; oc_Payload : bytes; oc_Fields : slice_of bytes;
  oc_RequestFields : slice_of bytes; oc_ResponseFields : slice_of bytes; oc_Foreach : bytes; oc_UnavailableErrorCode : Z;
  oc_UnavailableAction : bytes; oc_PreserveRequestOrder : bool; oc_SampleParameters : slice_of coSoOracleParameter;
  oc_When : bytes; oc_CompatibilityOnly : bool; oc_SafetyPolicy : bytes; oc_Role : bytes }.
Record coSoOraclePhase := MkOraclePhase {
  ph_Name : bytes; ph_Order : Z; ph_Required : bool; ph_Description : bytes; ph_UpdateIntervalMS : Z;
  ph_Commands : slice_of coSoOracleCommand; ph_DefaultCaptureParameters : slice_of coSoOracleParameterRef }.
Record coSoOracle := MkOracle {
  or_SchemaVersion : bytes; or_ID : bytes; or_SourcePolicy : bytes; or_Device : coSoOracleDevice; or_Transport : coSoOracleTransport;
  or_ServerErrors : slice_of coSoOracleServerError; or_Phases : slice_of coSoOraclePhase;
  or_ForbiddenTokens : slice_of bytes; or_AllowedEvidenceKinds : slice_of bytes }.

(** ** Its text

    A document is a list of pieces: what the encoder writes of itself, and the
    strings it escapes. *)
Inductive piece := Lit (b : bytes) | Txt (t : bytes).
Definition json := list piece.
Definition jstr (t : bytes) : json := [Lit [x22]; Txt t; Lit [x22]].
Definition jint (z : Z) : json := [Lit (fmtD z)].
Definition jbool (b : bool) : json := [Lit (if b then str "true" else str "false")].
Fixpoint jcommas (l : list json) : json :=
  match l with [] => [] | [j] => j | j :: l => j ++ Lit [","%byte] :: jcommas l end.
Definition jlist (l : list json) : json := Lit ["["%byte] :: jcommas l ++ [Lit ["]"%byte]].
Definition jslice {A} (f : A → json) (s : slice_of A) : json := match s with Some l => jlist (f <$> l) | None => [Lit (str "null")] end.
Definition member (f : string * json) : json := Lit (x22 :: str f.1 ++ [x22; ":"%byte]) :: f.2.
Definition jobject (fields : list (option (string * json))) : json :=
  Lit ["{"%byte] :: jcommas (member <$> omap id fields) ++ [Lit ["}"%byte]].
Definition always (name : string) (j : json) : option (string * json) := Some (name, j).
Definition omit_string (name : string) (t : bytes) : option (string * json) := if bool_decide (t = []) then None else Some (name, jstr t).
Definition omit_int (name : string) (z : Z) : option (string * json) := if z =? 0 then None else Some (name, jint z).
Definition omit_false (name : string) (b : bool) : option (string * json) := if b then Some (name, jbool true) else None.
Definition omit_slice {A} (name : string) (f : A → json) (s : slice_of A) : option (string * json) :=
  match items s with [] => None | l => Some (name, jlist (f <$> l)) end.

Definition device_json (d : coSoOracleDevice) : json := jobject [
  always "family" (jstr (od_Family d)); always "definition" (jstr (od_Definition d)); always "identity_string" (jstr (od_IdentityString d));
  always "firmware_min" (jstr (od_FirmwareMin d)); always "firmware_max" (jstr (od_FirmwareMax d))].
Definition transport_json (t : coSoOracleTransport) : json := jobject [
  always "single_flight" (jbool (ot_SingleFlight t)); always "timeout_retries" (jint (ot_TimeoutRetries t));
  always "broadcast_address" (jint (ot_BroadcastAddress t)); always "sequence_address_match_required" (jbool (ot_SequenceAddressMatchRequired t));
  always "server_error_prefix" (jstr (ot_ServerErrorPrefix t)); always "ack_control" (jstr (ot_AckControl t));
  always "request_control" (jstr (ot_RequestControl t)); always "frame_terminator" (jstr (ot_FrameTerminator t))].
Definition server_error_json (e : coSoOracleServerError) : json := jobject [
  always "code" (jint (se_Code e)); always "name" (jstr (se_Name e)); always "action" (jstr (se_Action e))].
Definition request_json (payload : bytes) : json := jobject [omit_string "payload" payload].
Definition parameter_json (p : coSoOracleParameter) : json := jobject [
  always "parameter_id" (jint (op_ParameterID p)); always "instance" (jint (op_Instance p)); omit_string "value_type" (op_ValueType p);
  omit_string "cache_behavior" (op_CacheBehavior p); omit_string "support" (op_Support p); omit_false "writable" (op_Writable p);
  always "request" (request_json (op_Payload p))].
Definition parameter_ref_json (r : coSoOracleParameterRef) : json := jobject [
  always "parameter_id" (jint (pr_ParameterID r)); always "instance" (jint (pr_Instance r))].
Definition command_json (c : coSoOracleCommand) : json := jobject [
  always "command" (jstr (oc_Command c)); omit_string "direction" (oc_Direction c); omit_false "optional" (oc_Optional c);
  omit_string "failure_action" (oc_FailureAction c); omit_string "fallback_for" (oc_FallbackFor c);
  omit_int "parameter_id" (oc_ParameterID c); omit_int "instance" (oc_Instance c); omit_string "value_type" (oc_ValueType c);
  always "request" (request_json (oc_Payload c)); always "response" (jobject [omit_slice "fields" jstr (oc_Fields c)]);
  omit_slice "request_fields" jstr (oc_RequestFields c); omit_slice "response_fields" jstr (oc_ResponseFields c);
  omit_string "foreach" (oc_Foreach c); omit_int "unavailable_error_code" (oc_UnavailableErrorCode c);
  omit_string "unavailable_action" (oc_UnavailableAction c); omit_false "preserve_request_order" (oc_PreserveRequestOrder c);
  omit_slice "sample_parameters" parameter_json (oc_SampleParameters c); omit_string "when" (oc_When c);
  omit_false "compatibility_only" (oc_CompatibilityOnly c); omit_string "safety_policy" (oc_SafetyPolicy c); omit_string "role" (oc_Role c)].
Definition phase_json (p : coSoOraclePhase) : json := jobject [
  always "name" (jstr (ph_Name p)); always "order" (jint (ph_Order p)); always "required" (jbool (ph_Required p));
  always "description" (jstr (ph_Description p)); omit_int "update_interval_ms" (ph_UpdateIntervalMS p);
  always "commands" (jslice command_json (ph_Commands p));
  omit_slice "default_capture_parameters" parameter_ref_json (ph_DefaultCaptureParameters p)].
Definition oracle_json (o : coSoOracle) : json := jobject [
  always "schema_version" (jstr (or_SchemaVersion o)); always "id" (jstr (or_ID o)); always "source_policy" (jstr (or_SourcePolicy o));
  always "device" (device_json (or_Device o)); always "transport" (transport_json (or_Transport o));
  always "server_errors" (jslice server_error_json (or_ServerErrors o)); always "phases" (jslice phase_json (or_Phases o));
  always "public_safety" (jobject [always "forbidden_tokens" (jslice jstr (or_ForbiddenTokens o));
    always "allowed_evidence_kinds" (jslice jstr (or_AllowedEvidenceKinds o))])].

(** [json_escape]: quotes, backslashes, control characters and the three characters
    of HTML. *)
Definition json_hex (z : Z) : bytes := str "\u00" ++ [hex_char_lower (z / 16); hex_char_lower (z mod 16)].
Definition backslash : byte := x5c.
Definition json_escape (b : byte) : bytes :=
  if bool_decide (b ∈ [x22; backslash]) then [backslash; b]
  else if bool_decide (b = x08) then str "\b" else if bool_decide (b = x0c) then str "\f"
  else if bool_decide (b = x0a) then str "\n" else if bool_decide (b = x0d) then str "\r" else if bool_decide (b = x09) then str "\t"
  else if (bz b <? 32) || bool_decide (b ∈ ["<"%byte; ">"%byte; "&"%byte]) then json_hex (bz b)
  else [b].
Definition render_json (escape : byte → bytes) (j : json) : bytes :=
  j ≫= λ p, match p with Lit b => b | Txt t => t ≫= escape end.
Definition Marshal (j : json) : bytes := render_json json_escape j.
(** [strings.ReplaceAll] of two backslashes by one. *)
Fixpoint single_backslashes (l : bytes) : bytes :=
  match l with
  | b :: ((c :: l'') as l') => if bool_decide (b = backslash ∧ c = backslash) then backslash :: single_backslashes l'' else b :: single_backslashes l'
  | _ => l
  end.

(** ** Checks *)
Definition coSoOracleSearchableText (o : coSoOracle) : bytes :=
  Marshal (oracle_json (MkOracle (or_SchemaVersion o) (or_ID o) (or_SourcePolicy o) (or_Device o) (or_Transport o)
    (or_ServerErrors o) (or_Phases o) None None)).
Definition tokenVariants (token : bytes) : list bytes := [ToLower token; single_backslashes (ToLower token)].
Definition default_tokens : list bytes :=
  str <$> ["C:\"; "/home/"; "Trace.txt"; "CL25"; "OneDrive"; "Downloads"; "serial_number"; "password"; "custom_lock"]%string.
Definition safety_tokens (o : coSoOracle) : list bytes :=
  match items (or_ForbiddenTokens o) with [] => default_tokens | tokens => tokens end.
Definition token_found (haystacks : list bytes) (token : bytes) : bool :=
  existsb (λ variant, negb (bool_decide (variant = [])) && existsb (contains variant) haystacks) (tokenVariants token).
Definition validateCoSoOraclePublicSafety (o : coSoOracle) : res () :=
  let s := coSoOracleSearchableText o in
  if existsb (token_found [ToLower s; ToLower (single_backslashes s)]) (safety_tokens o)
  then Err (Errorf "forbidden token %q found in oracle" []) else Ok ().

Definition validate_sample (sample : coSoOracleParameter) : res () :=
  if op_ParameterID sample <=? 0 then Err (Errorf "phase %q command %q has invalid sample parameter id %d" [op_ParameterID sample])
  else if op_Instance sample <=? 0 then Err (Errorf "phase %q command %q has invalid sample instance %d" [op_Instance sample])
  else Ok ().
Definition validate_command (c : coSoOracleCommand) : res () :=
  if bool_decide (TrimSpace (oc_Command c) = []) then Err (Errorf "phase %q has a command without a name" [])
  else if (oc_ParameterID c <? 0) || (oc_Instance c <? 0) then Err (Errorf "phase %q command %q has a negative parameter reference" [])
  else mfold (λ _, validate_sample) () (items (oc_SampleParameters c)).
Fixpoint validate_phases (names : list bytes) (lastOrder : Z) (phases : list coSoOraclePhase) : res () :=
  match phases with
  | [] => Ok ()
  | phase :: phases =>
      if bool_decide (TrimSpace (ph_Name phase) = []) then Err (Errorf "phase name is required" [])
      else if bool_decide (ph_Name phase ∈ names) then Err (Errorf "duplicate phase %q" [])
      else if ph_Order phase <=? lastOrder then Err (Errorf "phase %q order %d is not strictly increasing" [ph_Order phase])
      else if bool_decide (items (ph_Commands phase) = []) then Err (Errorf "phase %q has no commands" [])
      else _ ← mfold (λ _, validate_command) () (items (ph_Commands phase));
           validate_phases (ph_Name phase :: names) (ph_Order phase) phases
  end.
Definition validateCoSoOracle (o : coSoOracle) : res () :=
  if negb (bool_decide (or_SchemaVersion o = str "coso_connection_oracle.v1")) then Err (Errorf "unsupported oracle schema %q" [])
  else if bool_decide (TrimSpace (or_ID o) = []) then Err (Errorf "oracle id is required" [])
  else if bool_decide (TrimSpace (od_Definition (or_Device o)) = []) then Err (Errorf "device definition is required" [])
  else if negb (ot_SingleFlight (or_Transport o)) then Err (Errorf "transport must be single-flight" [])
  else if ot_TimeoutRetries (or_Transport o) <=? 0 then Err (Errorf "transport timeout retries must be positive" [])
  else if bool_decide (items (or_Phases o) = []) then Err (Errorf "at least one connection phase is required" [])
  else _ ← validate_phases [] 0 (items (or_Phases o)); validateCoSoOraclePublicSafety o.

(** ** The report *)
Definition coSoOracleRequestPayloads (o : coSoOracle) : list bytes :=
  phase ← items (or_Phases o); cmd ← items (ph_Commands phase);
  filter (λ p, p ≠ []) [oc_Payload cmd] ++ filter (λ p, p ≠ []) (op_Payload <$> items (oc_SampleParameters cmd)).
Definition phaseCommandNames (phase : coSoOraclePhase) : bytes := JoinText (str ",") (oc_Command <$> items (ph_Commands phase)).
Record oracle_report := MkOracleReport { rep_phases : list (Z * bytes * bytes); rep_requests : list bytes }.
Definition writeCoSoOracleReport (o : coSoOracle) (includeRequests : bool) : oracle_report :=
  MkOracleReport ((λ p, (ph_Order p, ph_Name p, phaseCommandNames p)) <$> items (or_Phases o))
    (if includeRequests then coSoOracleRequestPayloads o else []).
(** [file]: what reading and decoding the file gives. *)
Definition runOracle (path : bytes) (file : res coSoOracle) (requests : bool) : res oracle_report :=
  if bool_decide (path = []) then Err (Errorf "coso-puppet oracle: -file is required" [])
  else o ← file; _ ← validateCoSoOracle o; Ok (writeCoSoOracleReport o requests).

(** ** Searching the text *)
Lemma single_plain b l : b ≠ backslash → single_backslashes (b :: l) = b :: single_backslashes l.
Proof. intros Hb. destruct l as [|c l]; [done|]. cbn [single_backslashes]. rewrite bool_decide_eq_false_2; [done|]. by intros [? _]. Qed.
Lemma single_lone c l : c ≠ backslash → single_backslashes (backslash :: c :: l) = backslash :: single_backslashes (c :: l).
Proof. intros Hc. cbn [single_backslashes]. rewrite bool_decide_eq_false_2; [done|]. by intros [_ ?]. Qed.
Lemma single_app a l : backslash ∉ a → single_backslashes (a ++ l) = a ++ single_backslashes l.
Proof.
  induction a as [|b a IH]; intros Ha; [done|]. apply not_elem_of_cons in Ha as [Hb Ha]. cbn [app].
  rewrite single_plain by done. by rewrite IH.
Qed.
(** What is left of an escaped byte. *)
Definition unescape (b : byte) : bytes := if bool_decide (b = backslash) then [backslash] else json_escape b.
Lemma json_escape_cases b : b ≠ backslash → (backslash ∉ json_escape b) ∨ ∃ c l, json_escape b = backslash :: c :: l ∧ (backslash ∉ c :: l).
Proof.
  intros Hb. pose proof (range_check (λ z, let e := json_escape (zb z) in
    bool_decide (zb z = backslash ∨ (backslash ∉ e) ∨ (head e = Some backslash ∧ (backslash ∉ tail e) ∧ tail e ≠ []))) 256 ltac:(by vm_compute) (bz b) (bz_range b)) as H.
  cbn zeta beta in H. rewrite zb_bz in H. apply bool_decide_eq_true in H as [?|[?|(H1 & H2 & H3)]]; [done|by left|right].
  destruct (json_escape b) as [|x [|c l]]; [done|done|]. injection H1 as ->. by exists c, l.
Qed.
Lemma single_escape b l : single_backslashes (json_escape b ++ l) = unescape b ++ single_backslashes l.
Proof.
  unfold unescape. case_bool_decide as Hb; [subst; done|]. destruct (json_escape_cases b Hb) as [Hn|(c & e & -> & Hn)]; [by apply single_app|].
  apply not_elem_of_cons in Hn as Hc. cbn [app]. rewrite single_lone by naive_solver. f_equal.
  change (c :: e ++ l) with ((c :: e) ++ l). by apply single_app.
Qed.
Definition lit_ok (p : piece) : Prop := match p with Lit b => backslash ∉ b | Txt _ => True end.
Lemma single_render j : Forall lit_ok j → single_backslashes (Marshal j) = render_json unescape j.
Proof.
  unfold Marshal, render_json. induction 1 as [|p j Hp Hj IH]; csimpl; [done|]. destruct p as [b|t]; [by rewrite single_app, IH|].
  induction t as [|b t IHt]; csimpl; [done|]. by rewrite <-!app_assoc, single_escape, IHt.
Qed.

(** Bytes that a search for a token sees as they are. *)
Definition clean (b : byte) : bool := bool_decide (b = backslash) || bool_decide (json_escape b = [b]).
Lemma clean_unescape t : Forall (λ b, clean b = true) t → t ≫= unescape = t.
Proof.
  induction 1 as [|b t Hb Ht IH]; csimpl; [done|]. rewrite IH. unfold clean, unescape in *. case_bool_decide; [by subst|].
  cbn [orb] in Hb. by apply bool_decide_eq_true in Hb as ->.
Qed.
Lemma clean_lower b : clean (lower_byte b) = clean b.
Proof.
  pose proof (range_check (λ z, Bool.eqb (clean (lower_byte (zb z))) (clean (zb z))) 256 ltac:(by vm_compute) (bz b) (bz_range b)) as H.
  cbv beta in H. rewrite zb_bz in H. by apply eqb_prop.
Qed.
Lemma ToLower_app l k : ToLower (l ++ k) = ToLower l ++ ToLower k.
Proof. apply fmap_app. Qed.
(** A clean token that occurs in a string of the document, whatever the case of the
    letters, is found in the text without doubled backslashes. *)
Lemma found_in_text token t j : Forall lit_ok j → Txt t ∈ j → token ≠ [] → Forall (λ b, clean b = true) token →
  contains (ToLower token) (ToLower t) = true →
  token_found [ToLower (Marshal j); ToLower (single_backslashes (Marshal j))] token = true.
Proof.
  intros Hlit Hin Hne Hc (p & q & E)%contains_true. unfold ToLower in E. apply fmap_app_inv in E as (p' & r & _ & E & ->).
  symmetry in E. apply fmap_app_inv in E as (token' & q' & Htok & _ & ->).
  assert (Hc' : Forall (λ b, clean b = true) token').
  { apply Forall_forall. intros b Hb. rewrite <-clean_lower. rewrite Forall_forall in Hc.
    assert (Hl : lower_byte b ∈ lower_byte <$> token) by (rewrite Htok; by apply list_elem_of_fmap_2).
    apply list_elem_of_fmap in Hl as (b' & -> & Hb'). rewrite clean_lower. by apply Hc. }
  unfold token_found, tokenVariants. cbn [existsb]. rewrite single_render by done.
  rewrite bool_decide_eq_false_2 by (unfold ToLower; by intros ?%fmap_nil_inv). cbn [negb andb].
  assert (Hf : contains (ToLower token) (ToLower (render_json unescape j)) = true); [|by rewrite Hf, !orb_true_r].
  apply contains_true. apply list_elem_of_split in Hin as (j1 & j2 & ->). unfold render_json. rewrite bind_app, bind_cons, !bind_app.
  rewrite (clean_unescape token') by done. assert (ToLower token = ToLower token') as -> by done.
  match goal with |- context [ToLower (?a ++ (?b ++ token' ++ ?c) ++ ?d)] => exists (ToLower (a ++ b)), (ToLower (c ++ d)) end.
  by rewrite <-!ToLower_app, <-!app_assoc.
Qed.

(** ** The strings of a document *)
Definition lits_ok (j : json) : Prop := Forall lit_ok j.
Lemma jcommas_ok l : Forall lits_ok l → lits_ok (jcommas l).
Proof.
  induction 1 as [|j l Hj Hl IH]; [constructor|]. cbn [jcommas]. destruct l as [|j' l]; [done|].
  apply Forall_app. split; [done|]. constructor; [|done]. by apply (bool_decide_eq_true_1 (backslash ∉ [","%byte])).
Qed.
Lemma lit_one b : b ≠ backslash → lit_ok (Lit [b]).
Proof. intros Hb. cbn. apply not_elem_of_cons. split; [done|apply not_elem_of_nil]. Qed.
Lemma jlist_ok l : Forall lits_ok l → lits_ok (jlist l).
Proof.
  intros Hl. constructor; [by apply lit_one|]. apply Forall_app. split; [by apply jcommas_ok|]. by apply Forall_singleton, lit_one.
Qed.
Lemma jstr_ok t : lits_ok (jstr t).
Proof. repeat constructor; by apply lit_one. Qed.
Lemma jint_ok z : lits_ok (jint z).
Proof.
  apply Forall_singleton. cbn. assert (Hd : ∀ fuel n, 0 ≤ n → backslash ∉ dec_digits fuel n).
  { assert (Hc : ∀ d, 0 ≤ d < 10 → dec_char d ≠ backslash).
    { intros d Hd. pose proof (range_check (λ d, negb (bool_decide (dec_char d = backslash))) 10 eq_refl d Hd) as H.
      by apply negb_true_iff, bool_decide_eq_false in H. }
    assert (Hone : ∀ d, 0 ≤ d < 10 → backslash ∉ [dec_char d]).
    { intros d Hd. apply not_elem_of_cons. split; [|apply not_elem_of_nil]. symmetry. by apply Hc. }
    induction fuel as [|fuel IH]; intros n Hn; cbn [dec_digits]; [apply not_elem_of_nil|]. destruct (Z.ltb_spec n 10); [apply Hone; lia|].
    apply not_elem_of_app. split; [apply IH, Z.div_pos; lia|]. apply Hone, Z.mod_pos_bound. lia. }
  unfold fmtD. destruct (Z.ltb_spec z 0); [|by apply Hd]. apply not_elem_of_cons. split; [done|]. apply Hd. lia.
Qed.
Lemma jbool_ok b : lits_ok (jbool b).
Proof. apply Forall_singleton. cbn. destruct b; by apply (bool_decide_eq_true_1 (_ ∉ _)). Qed.
Lemma jslice_ok {A} (f : A → json) s : (∀ a, lits_ok (f a)) → lits_ok (jslice f s).
Proof.
  intros Hf. destruct s as [l|]; cbn [jslice]; [|by apply Forall_singleton, (bool_decide_eq_true_1 (backslash ∉ str "null"))].
  apply jlist_ok, Forall_fmap, Forall_forall. intros a _. apply Hf.
Qed.
Definition name_ok (name : string) : bool := bool_decide (backslash ∉ str name).
Definition field_ok (f : option (string * json)) : Prop := match f with Some (n, j) => name_ok n = true ∧ lits_ok j | None => True end.
Lemma jobject_ok fields : Forall field_ok fields → lits_ok (jobject fields).
Proof.
  intros Hf. unfold jobject. constructor; [by apply lit_one|]. apply Forall_app. split; [|by apply Forall_singleton, lit_one].
  apply jcommas_ok. induction Hf as [|f fields Hf Hfs IH]; [constructor|]. destruct f as [[n j]|]; cbn; [|done].
  destruct Hf as [Hn Hj]. constructor; [|done]. constructor; [|done]. cbn. apply bool_decide_eq_true in Hn.
  apply not_elem_of_cons. split; [done|]. apply not_elem_of_app. split; [done|]. by apply (bool_decide_eq_true_1 (_ ∉ _)).
Qed.
Lemma omit_string_ok n t : name_ok n = true → field_ok (omit_string n t).
Proof. intros Hn. unfold omit_string. case_bool_decide; [done|]. split; [done|apply jstr_ok]. Qed.
Lemma omit_int_ok n z : name_ok n = true → field_ok (omit_int n z).
Proof. intros Hn. unfold omit_int. destruct (z =? 0); [done|]. split; [done|apply jint_ok]. Qed.
Lemma omit_false_ok n b : name_ok n = true → field_ok (omit_false n b).
Proof. intros Hn. destruct b; [|done]. split; [done|apply jbool_ok]. Qed.
Lemma omit_slice_ok {A} n (f : A → json) s : name_ok n = true → (∀ a, lits_ok (f a)) → field_ok (omit_slice n f s).
Proof.
  intros Hn Hf. unfold omit_slice. destruct (items s) as [|a l]; [done|]. split; [done|]. apply jlist_ok, Forall_fmap, Forall_forall. intros x _. apply Hf.
Qed.
Create HintDb json.
#[local] Hint Resolve jstr_ok jint_ok jbool_ok jslice_ok omit_string_ok omit_int_ok omit_false_ok omit_slice_ok : json.
#[local] Hint Extern 1 (name_ok _ = true) => reflexivity : json.
#[local] Hint Extern 2 (field_ok (always _ _)) => split; [reflexivity|] : json.
Ltac json_ok := apply jobject_ok; repeat (constructor; [solve [auto 6 with json]|]); constructor.

Lemma device_ok d : lits_ok (device_json d).
Proof. json_ok. Qed.
Lemma transport_ok t : lits_ok (transport_json t).
Proof. json_ok. Qed.
Lemma server_error_ok e : lits_ok (server_error_json e).
Proof. json_ok. Qed.
Lemma request_ok p : lits_ok (request_json p).
Proof. json_ok. Qed.
#[local] Hint Resolve request_ok : json.
Lemma parameter_ok p : lits_ok (parameter_json p).
Proof. json_ok. Qed.
Lemma parameter_ref_ok r : lits_ok (parameter_ref_json r).
Proof. json_ok. Qed.
Lemma response_ok fields : lits_ok (jobject [omit_slice "fields" jstr fields]).
Proof. json_ok. Qed.
#[local] Hint Resolve parameter_ok parameter_ref_ok response_ok : json.
Lemma command_ok c : lits_ok (command_json c).
Proof. json_ok. Qed.
#[local] Hint Resolve command_ok : json.
Lemma phase_ok p : lits_ok (phase_json p).
Proof. json_ok. Qed.
Lemma safety_ok tokens kinds : lits_ok (jobject [always "forbidden_tokens" (jslice jstr tokens); always "allowed_evidence_kinds" (jslice jstr kinds)]).
Proof. json_ok. Qed.
#[local] Hint Resolve device_ok transport_ok server_error_ok phase_ok safety_ok : json.
Lemma oracle_ok o : lits_ok (oracle_json o).
Proof. json_ok. Qed.

(** *** Where a string is *)
Lemma in_jcommas t l j : j ∈ l → Txt t ∈ j → Txt t ∈ jcommas l.
Proof.
  induction l as [|k l IH]; intros Hj Ht; [by apply elem_of_nil in Hj|]. cbn [jcommas]. apply elem_of_cons in Hj as [->|Hj].
  - destruct l; [done|]. apply elem_of_app. by left.
  - destruct l as [|k' l]; [by apply elem_of_nil in Hj|]. apply elem_of_app. right. right. by apply IH.
Qed.
Lemma in_jlist {A} (f : A → json) t l a : a ∈ l → Txt t ∈ f a → Txt t ∈ jlist (f <$> l).
Proof. intros Ha Ht. right. apply elem_of_app. left. eapply in_jcommas; [by apply list_elem_of_fmap_2|done]. Qed.
Definition in_field (t : bytes) (f : option (string * json)) : Prop := match f with Some (_, j) => Txt t ∈ j | None => False end.
Lemma in_jobject t fields : Exists (in_field t) fields → Txt t ∈ jobject fields.
Proof.
  intros Hf. right. apply elem_of_app. left. apply Exists_exists in Hf as ([[n j]|] & Hin & Ht); [|done]. cbn in Ht.
  apply (in_jcommas t _ (member (n, j))); [|by right]. apply list_elem_of_fmap_2. apply list_elem_of_omap. by exists (Some (n, j)).
Qed.
Lemma in_jstr t : Txt t ∈ jstr t.
Proof. right. by left. Qed.
Lemma in_string n t : in_field t (always n (jstr t)).
Proof. apply in_jstr. Qed.
Lemma in_omit_string n t : t ≠ [] → in_field t (omit_string n t).
Proof. intros Ht. unfold omit_string. rewrite bool_decide_eq_false_2 by done. apply in_jstr. Qed.
Lemma in_omit_slice {A} n (f : A → json) s t a : a ∈ items s → Txt t ∈ f a → in_field t (omit_slice n f s).
Proof. intros Ha Ht. unfold omit_slice. destruct (items s) as [|b l]; [by apply elem_of_nil in Ha|]. by eapply (in_jlist f t (b :: l)). Qed.
Lemma in_slice {A} n (f : A → json) s t a : a ∈ items s → Txt t ∈ f a → in_field t (always n (jslice f s)).
Proof. intros Ha Ht. destruct s as [l|]; [|by apply elem_of_nil in Ha]. by eapply (in_jlist f). Qed.
Lemma in_nested n j t : Txt t ∈ j → in_field t (always n j).
Proof. done. Qed.

(** *** The strings of each part *)
Definition parameter_texts (p : coSoOracleParameter) : list bytes := [op_ValueType p; op_CacheBehavior p; op_Support p; op_Payload p].
Definition command_texts (c : coSoOracleCommand) : list bytes :=
  [oc_Command c; oc_Direction c; oc_FailureAction c; oc_FallbackFor c; oc_ValueType c; oc_Payload c; oc_Foreach c; oc_UnavailableAction c;
   oc_When c; oc_SafetyPolicy c; oc_Role c] ++ items (oc_Fields c) ++ items (oc_RequestFields c) ++ items (oc_ResponseFields c) ++
  (items (oc_SampleParameters c) ≫= parameter_texts).
Definition phase_texts (p : coSoOraclePhase) : list bytes := [ph_Name p; ph_Description p] ++ (items (ph_Commands p) ≫= command_texts).
(** All but the strings of [public_safety], the list of forbidden tokens itself and the
    kinds of evidence, which the program takes out of the document before it
    searches. *)
Definition oracle_texts (o : coSoOracle) : list bytes :=
  let d := or_Device o in let t := or_Transport o in
  [or_SchemaVersion o; or_ID o; or_SourcePolicy o; od_Family d; od_Definition d; od_IdentityString d; od_FirmwareMin d; od_FirmwareMax d;
   ot_ServerErrorPrefix t; ot_AckControl t; ot_RequestControl t; ot_FrameTerminator t] ++
  (items (or_ServerErrors o) ≫= λ e, [se_Name e; se_Action e]) ++ (items (or_Phases o) ≫= phase_texts).
(** Try the fields of an object in turn. *)
Ltac in_object tac := solve [apply in_jobject; repeat first [apply Exists_cons_hd; solve [tac]|apply Exists_cons_tl]].
Ltac one_string := first [apply in_string | by apply in_omit_string].
Lemma request_in p t : t ≠ [] → t = p → Txt t ∈ request_json p.
Proof. intros Ht ->. in_object ltac:(one_string). Qed.
Lemma parameter_in p t : t ≠ [] → t ∈ parameter_texts p → Txt t ∈ parameter_json p.
Proof.
  intros Ht Hin. unfold parameter_texts in Hin. rewrite !elem_of_cons in Hin.
  destruct Hin as [->|[->|[->|[->|Hin]]]]; [in_object ltac:(one_string)..| |by apply elem_of_nil in Hin].
  in_object ltac:(by apply in_nested, request_in).
Qed.
Lemma command_in c t : t ≠ [] → t ∈ command_texts c → Txt t ∈ command_json c.
Proof.
  intros Ht Hin. unfold command_texts in Hin. rewrite !elem_of_app, !elem_of_cons in Hin.
  destruct Hin as [Hin|[Hin|[Hin|[Hin|Hin]]]].
  - repeat destruct Hin as [->|Hin]; try (in_object ltac:(one_string)); [|by apply elem_of_nil in Hin].
    in_object ltac:(by apply in_nested, request_in).
  - in_object ltac:(apply in_nested; in_object ltac:(by eapply in_omit_slice; [done|apply in_jstr])).
  - unfold command_json. apply in_jobject. do 10 apply Exists_cons_tl. apply Exists_cons_hd. by eapply in_omit_slice; [done|apply in_jstr].
  - unfold command_json. apply in_jobject. do 11 apply Exists_cons_tl. apply Exists_cons_hd. by eapply in_omit_slice; [done|apply in_jstr].
  - apply list_elem_of_bind in Hin as (p & Hin & Hp). apply in_jobject. do 16 apply Exists_cons_tl. apply Exists_cons_hd.
    eapply in_omit_slice; [done|by apply parameter_in].
Qed.
Lemma phase_in p t : t ≠ [] → t ∈ phase_texts p → Txt t ∈ phase_json p.
Proof.
  intros Ht Hin. unfold phase_texts in Hin. rewrite !elem_of_app, !elem_of_cons in Hin.
  destruct Hin as [[->|[->|Hin]]|Hin]; [in_object ltac:(one_string)..|by apply elem_of_nil in Hin|].
  apply list_elem_of_bind in Hin as (c & Hin & Hc). in_object ltac:(by eapply in_slice; [|by apply command_in]).
Qed.
Lemma oracle_in o t : t ≠ [] → t ∈ oracle_texts o → Txt t ∈ oracle_json o.
Proof.
  intros Ht Hin. unfold oracle_texts in Hin. cbn zeta in Hin. rewrite !elem_of_app, !elem_of_cons in Hin.
  destruct Hin as [Hin|[Hin|Hin]].
  - repeat destruct Hin as [->|Hin]; try (in_object ltac:(one_string)); try (in_object ltac:(apply in_nested; in_object ltac:(one_string))).
    by apply elem_of_nil in Hin.
  - apply list_elem_of_bind in Hin as (e & Hin & He). unfold oracle_json. apply in_jobject. do 5 apply Exists_cons_tl. apply Exists_cons_hd.
    eapply in_slice; [done|]. rewrite !elem_of_cons in Hin. destruct Hin as [->|[->|Hin]]; [in_object ltac:(one_string)..|by apply elem_of_nil in Hin].
  - apply list_elem_of_bind in Hin as (p & Hin & Hp). unfold oracle_json. apply in_jobject. do 6 apply Exists_cons_tl. apply Exists_cons_hd.
    eapply in_slice; [done|by apply phase_in].
Qed.

(** ** What an accepted oracle is *)
Lemma mfold_unit {A} (f : A → res ()) l : mfold (λ _, f) () l = Ok () ↔ Forall (λ a, f a = Ok ()) l.
Proof.
  induction l as [|a l IH]; cbn [mfold]; [split; [constructor|done]|]. rewrite Forall_cons, <-IH.
  destruct (f a) as [[]|e]; cbn [mbind result_bind]; naive_solver.
Qed.
Definition sample_wf (p : coSoOracleParameter) : Prop := 0 < op_ParameterID p ∧ 0 < op_Instance p.
Definition command_wf (c : coSoOracleCommand) : Prop :=
  TrimSpace (oc_Command c) ≠ [] ∧ 0 ≤ oc_ParameterID c ∧ 0 ≤ oc_Instance c ∧ Forall sample_wf (items (oc_SampleParameters c)).
Definition phase_wf (p : coSoOraclePhase) : Prop :=
  TrimSpace (ph_Name p) ≠ [] ∧ items (ph_Commands p) ≠ [] ∧ Forall command_wf (items (ph_Commands p)).
Lemma validate_command_spec c : validate_command c = Ok () → command_wf c.
Proof.
  unfold validate_command. case_bool_decide as Hn; [done|]. destruct (Z.ltb_spec (oc_ParameterID c) 0); [done|].
  destruct (Z.ltb_spec (oc_Instance c) 0); [done|]. cbn [orb]. rewrite mfold_unit. intros Hf. repeat split; [done|lia|lia|].
  eapply Forall_impl; [exact Hf|]. intros p. unfold validate_sample, sample_wf.
  destruct (Z.leb_spec (op_ParameterID p) 0); [done|]. by destruct (Z.leb_spec (op_Instance p) 0).
Qed.
Lemma validate_phases_spec names order phases : validate_phases names order phases = Ok () →
  StronglySorted Z.lt (order :: (ph_Order <$> phases)) ∧ NoDup (ph_Name <$> phases) ∧
  (∀ n, n ∈ ph_Name <$> phases → n ∉ names) ∧ Forall phase_wf phases.
Proof.
  revert names order. induction phases as [|p phases IH]; intros names order; cbn [validate_phases]; csimpl.
  { intros _. split_and!; [by repeat constructor|constructor|by intros n ?%elem_of_nil|constructor]. }
  case_bool_decide as Hn; [done|]. case_bool_decide as Hd; [done|]. destruct (Z.leb_spec (ph_Order p) order) as [|Ho]; [done|].
  case_bool_decide as Hc; [done|]. intros ([] & Hf & H1)%bind_Ok_inv. apply IH in H1 as (Hs & Hnd & Hnew & Hwf). split_and!.
  - constructor; [done|]. constructor; [done|]. apply StronglySorted_inv in Hs as [_ Hs]. eapply Forall_impl; [exact Hs|]. intros z Hz. by etrans.
  - constructor; [|done]. intros Hin. apply (Hnew _ Hin). by left.
  - intros n Hin Hn'. apply elem_of_cons in Hin as [->|Hin]; [done|]. apply (Hnew n Hin). by right.
  - constructor; [|done]. split_and!; [done..|]. apply mfold_unit in Hf. eapply Forall_impl; [exact Hf|]. intros c. apply validate_command_spec.
Qed.

(** C40: an oracle that is accepted is well formed and public.  Its phases have
    positive orders that grow, distinct names, and commands with parameter
    references that make sense; and no string of the document outside its section
    [public_safety] (which the program does not search) contains one of its forbidden
    tokens (the default ones when it names none), whatever the case of the letters,
    as long as the token has only characters that the encoder writes as they are, or
    backslashes. *)
Theorem oracle_is_public (o : coSoOracle) : validateCoSoOracle o = Ok () →
  StronglySorted Z.lt (0 :: (ph_Order <$> items (or_Phases o))) ∧ NoDup (ph_Name <$> items (or_Phases o)) ∧
  items (or_Phases o) ≠ [] ∧ Forall phase_wf (items (or_Phases o)) ∧
  ∀ token t, token ∈ safety_tokens o → token ≠ [] → Forall (λ b, clean b = true) token → t ∈ oracle_texts o →
    contains (ToLower token) (ToLower t) = false.
Proof.
  unfold validateCoSoOracle. destruct (negb _); [done|]. case_bool_decide; [done|]. case_bool_decide; [done|]. destruct (negb _); [done|].
  destruct (_ <=? 0); [done|]. case_bool_decide as Hne; [done|]. intros ([] & Hp & Hs)%bind_Ok_inv.
  apply validate_phases_spec in Hp as (Hsort & Hnd & _ & Hwf). split_and!; [done..|].
  intros token t Htok Hnil Hclean Ht. apply not_true_is_false. intros Hc.
  unfold validateCoSoOraclePublicSafety in Hs. destruct (existsb _ (safety_tokens o)) eqn:E; [done|].
  assert (Ht' : t ≠ []).
  { intros ->. apply contains_true in Hc as (p & q & Hc). symmetry in Hc. apply app_nil in Hc as [_ Hc]. apply app_nil in Hc as [Hc _].
    unfold ToLower in Hc. by apply fmap_nil_inv in Hc. }
  rewrite <-not_true_iff_false in E. apply E, existsb_exists. exists token. split; [by apply list_elem_of_In|].
  unfold coSoOracleSearchableText. apply (found_in_text token t); [apply oracle_ok| |done..]. by apply oracle_in.
Qed.

Definition bench_command : coSoOracleCommand :=
  MkOracleCommand (str "?VM") [] false [] [] 1000 1 (str "float32") (str "?VM03E801") None None None [] 0 [] false
    (Some [MkOracleParameter 1000 1 [] [] [] false (str "?VR03E801")]) [] false [] [].
Definition bench_oracle (description : bytes) (tokens : slice_of bytes) : coSoOracle :=
  MkOracle (str "coso_connection_oracle.v1") (str "tec") [] (MkOracleDevice [] (str "TEC-1091") [] [] []) (MkOracleTransport true 3 0 true [] [] [] [])
    None (Some [MkOraclePhase (str "identify") 1 true description 0 (Some [bench_command]) None]) tokens None.
Lemma oracle_is_public_witness : validateCoSoOracle (bench_oracle (str "reads the metadata") None) = Ok () ∧
  contains (ToLower (str "C:\")) (ToLower (str "reads the metadata")) = false.
Proof.
  assert (Hv : validateCoSoOracle (bench_oracle (str "reads the metadata") None) = Ok ()) by (vm_compute; reflexivity).
  split; [exact Hv|]. destruct (oracle_is_public _ Hv) as (_ & _ & _ & _ & H).
  apply (H (str "C:\") (str "reads the metadata")); [by left|done| |].
  - repeat constructor.
  - do 13 right. by left.
Defined.
(** The section [public_safety] is not searched. *)
Lemma public_safety_not_searched o kinds :
  coSoOracleSearchableText (MkOracle (or_SchemaVersion o) (or_ID o) (or_SourcePolicy o) (or_Device o) (or_Transport o) (or_ServerErrors o)
    (or_Phases o) (or_ForbiddenTokens o) kinds) = coSoOracleSearchableText o.
Proof. reflexivity. Qed.
(** A token with a character that the encoder escapes is not found. *)
Lemma escaped_tokens_missed : validateCoSoOracle (bench_oracle (str "notes of R&D") (Some [str "R&D"])) = Ok ().
Proof. by vm_compute. Qed.
