(* ===== verification/CanAdapter.v ===== *)
(** * CanAdapter: adapters of the CAN bus ([canadapter/catalogue.go], [socketcan_status.go])

    The catalogue of adapter profiles and what the program makes of the text of
    [ip -details link show]: its fields, and the findings against a profile.  The
    text is an argument; case folding is that of ASCII.  The status that the parser
    returns with its error is left out. *)
From stdpp Require Import prelude strings list sorting.
From Stdlib Require Import Strings.Byte.
From S2P Require Import Prelude Text Endpoint Router.
Open Scope Z_scope.
#[local] Set Warnings "-clear-no-such-hyp".

(** ** Profiles *)
Definition TransportClass := string.
Definition Capability := string.
Definition Maturity := string.
Record DriverRef := MkDriverRef { dr_Name : string; dr_URL : string }.
Record AdapterCheck := MkCheck { ck_Name : string; ck_Command : string; ck_Expect : string; ck_FailureMode : string; ck_Remedy : string }.
Record Profile := MkProfile {
  pf_ID : string; pf_DisplayName : string; pf_FirstClass : bool; pf_Maturity : Maturity; pf_Transport : TransportClass;
  pf_SocketCANDriver : list string; pf_InterfaceHints : list string; pf_DefaultBitrates : list Z; pf_Capabilities : list Capability;
  pf_DriverRefs : list DriverRef; pf_Checks : list AdapterCheck; pf_Notes : list string }.
Definition TransportSocketCAN : string := "socketcan".
Definition TransportKvaserCANlib : string := "kvaser-canlib".
Definition TransportSLCAN : string := "slcan".
Definition TransportEthernetGateway : string := "ethernet-gateway".
Definition TransportRemoteBridge : string := "remote-bridge".
Definition CapabilityPassiveMonitor : string := "passive-monitor".
Definition CapabilitySharedOpen : string := "shared-open".
Definition CapabilityLocalTimestamp : string := "local-timestamp".
Definition CapabilityEdgeScript : string := "edge-script".
Definition CapabilityObjectBuffers : string := "object-buffers".
Definition CapabilitySocketCAN : string := "socketcan-netdev".
Definition MaturityFirstClass : string := "first-class".
Definition MaturityEasyUnproven : string := "easy-unproven".

Definition ProfilePiXtendV2L : string := "pixtend-v2l".
Definition ProfileSocketCANGeneric : string := "socketcan-generic".
Definition ProfileCandleLight : string := "candlelight-gs-usb".
Definition ProfilePCANUSB : string := "peak-pcan-usb".
Definition ProfileEMSUSB : string := "ems-cpc-usb".
Definition ProfileESDUSB : string := "esd-usb".
Definition ProfileMicrochipCAN : string := "microchip-can-bus-analyzer".
Definition ProfileCAN327 : string := "elm327-can327".
Definition ProfileKvaserUSB : string := "kvaser-usb".
Definition ProfileKvaserEthernet : string := "kvaser-ethernet".
Definition ProfileSLCANUSB : string := "slcan-usb".
Definition ProfileRemoteSocketCAN : string := "remote-socketcan".

Definition easySocketCANUSBProfile (id display driver url : string) : Profile :=
  MkProfile id display false MaturityEasyUnproven TransportSocketCAN [driver] ["can0"] [1000000; 500000; 250000; 125000]
    [CapabilitySocketCAN; CapabilityPassiveMonitor]
    [MkDriverRef ("Linux SocketCAN " +:+ driver) url]
    [MkCheck "driver loaded" ("dmesg | grep -i " +:+ driver) (("adapter binds to " +:+ driver) +:+ " and creates canX") "" "";
     MkCheck "bus state" "ip -details -statistics link show can0" "not bus-off; rx/tx error counters stable" "" ""]
    ["Easy adapter option because it should surface as SocketCAN; not yet proven on this bench."].
Definition pixtendV2LProfile : Profile :=
  MkProfile ProfilePiXtendV2L "PiXtend CAN" true MaturityFirstClass TransportSocketCAN ["mcp251x"] ["can0"; "can1"] [1000000; 500000; 250000; 125000]
    [CapabilitySocketCAN; CapabilityPassiveMonitor]
    [MkDriverRef "Linux SocketCAN mcp251x" ""]
    [MkCheck "root filesystem writable" "mount | grep ' / '" "root filesystem is rw; no fresh EXT4 aborts in dmesg" "CAN diagnostics are noisy or meaningless when the Pi boots read-only" "repair or reflash the SD/USB boot medium before CAN probing";
     MkCheck "SPI enabled" "ls -l /dev/spidev0.*" "spidev0.0 and usually spidev0.1 exist" "MCP2515 overlay cannot bind without SPI" "ensure dtparam=spi=on is present in /boot/config.txt";
     MkCheck "PiXtend overlay loaded" "dtoverlay -l" "pixtendv2l is active; analog-output/CAN jumper is in CAN position" "PiXtend CAN and analog outputs share hardware resources" "verify the hardware jumper and keep analog output disabled while using CAN";
     MkCheck "MCP2515 runtime overlay" "dtoverlay mcp2515-can0 oscillator=16000000 interrupt=25 spimaxfrequency=1000000" "one of mcp2515-can0 or mcp2515-can1 creates can0/can1" "wrong chip select, wrong interrupt, missing power, or wrong jumper" "try CE0 then CE1; inspect dmesg for mcp251x err=110";
     MkCheck "bounded PiXtend service probes" "timeout 2s pixtendsrv2" "never run pixtendsrv2 unbounded during CAN debugging" "CRC spam can starve SSH and hide CAN evidence" "capture short logs only; stop immediately on CRC header spam"]
    ["Use SocketCAN once the MCP2515 netdevice exists; keep packet I/O deterministic and single-owner.";
     "Probe bitrates from highest expected TEC rate downward, but keep each candump window bounded."].
Definition socketCANGenericProfile : Profile :=
  MkProfile ProfileSocketCANGeneric "Generic Linux SocketCAN netdevice" false MaturityEasyUnproven TransportSocketCAN [] ["can0"] [1000000; 500000; 250000; 125000]
    [CapabilitySocketCAN; CapabilityPassiveMonitor]
    []
    [MkCheck "netdevice exists" "ip -details link show can0" "interface type is can" "" "";
     MkCheck "interface up" "ip link set can0 up type can bitrate <bitrate>" "state is UP or UNKNOWN, not BUS-OFF" "" ""]
    [].
Definition candleLightProfile : Profile :=
  MkProfile ProfileCandleLight "CANable/candleLight/gs_usb USB adapter" false MaturityEasyUnproven TransportSocketCAN ["gs_usb"] ["can0"] [1000000; 500000; 250000; 125000]
    [CapabilitySocketCAN; CapabilityPassiveMonitor]
    [MkDriverRef "Linux SocketCAN gs_usb" "https://cateee.net/lkddb/web-lkddb/CAN_GS_USB.html"]
    [MkCheck "driver loaded" "dmesg | grep -i gs_usb" "adapter binds to gs_usb and creates canX" "" "";
     MkCheck "bus state" "ip -details -statistics link show can0" "not bus-off; rx/tx error counters stable" "" ""]
    ["Many CANable clones need candleLight firmware for native SocketCAN."].
Definition pcanUSBProfile : Profile :=
  MkProfile ProfilePCANUSB "PEAK PCAN-USB SocketCAN adapter" false MaturityEasyUnproven TransportSocketCAN ["peak_usb"] ["can0"] [1000000; 500000; 250000; 125000]
    [CapabilitySocketCAN; CapabilityPassiveMonitor; CapabilityLocalTimestamp]
    [MkDriverRef "Linux SocketCAN peak_usb" "https://cateee.net/lkddb/web-lkddb/CAN_PEAK_USB.html"]
    [MkCheck "driver loaded" "dmesg | grep -i peak_usb" "adapter binds to peak_usb and creates canX" "" "";
     MkCheck "SocketCAN status" "ip -details -statistics link show can0" "state is not BUS-OFF; error counters not climbing" "" ""]
    [].
Definition emsUSBProfile : Profile := easySocketCANUSBProfile ProfileEMSUSB
  "EMS CPC-USB/ARM7 SocketCAN adapter" "ems_usb"
  "https://www.kernelconfig.io/CONFIG_CAN_EMS_USB".
Definition esdUSBProfile : Profile := easySocketCANUSBProfile ProfileESDUSB
  "esd electronics CAN-USB SocketCAN adapter" "esd_usb"
  "https://www.kernelconfig.io/config_can_esd_usb".
Definition microchipCANProfile : Profile := easySocketCANUSBProfile ProfileMicrochipCAN
  "Microchip CAN BUS Analyzer SocketCAN adapter" "mcba_usb"
  "https://cateee.net/lkddb/web-lkddb/CAN_MCBA_USB.html".
Definition can327Profile : Profile :=
  MkProfile ProfileCAN327 "ELM327 CAN serial adapter through can327" false MaturityEasyUnproven TransportSocketCAN ["can327"] ["can0"] [500000; 250000; 125000]
    [CapabilitySocketCAN]
    [MkDriverRef "Linux SocketCAN can327" "https://www.kernel.org/doc/html/latest/networking/device_drivers/can/can327.html"]
    [MkCheck "attach line discipline" "ldattach --debug can327 /dev/ttyUSB0" "can327 creates a CAN netdevice" "" "";
     MkCheck "performance gate" "bounded candump" "acceptable only for diagnostics or low-rate fallback" "" ""]
    ["Treat ELM327/can327 as an emergency diagnostic path, not a deterministic TEC polling adapter."].
Definition kvaserUSBProfile : Profile :=
  MkProfile ProfileKvaserUSB "Kvaser USB CAN" true MaturityFirstClass TransportKvaserCANlib ["kvaser_usb"] ["can0"; "CANlib channel"] [1000000; 500000; 250000; 125000]
    [CapabilityPassiveMonitor; CapabilitySharedOpen; CapabilityLocalTimestamp]
    [MkDriverRef "Kvaser CANlib" ""; MkDriverRef "Linux SocketCAN kvaser_usb" "https://cateee.net/lkddb/web-lkddb/CAN_KVASER_USB.html"]
    [MkCheck "ownership" "canEnumHardwareEx or SocketCAN ip link" "channel is visible and not exclusively owned elsewhere" "" "";
     MkCheck "silent monitor" "open shared read handle in silent mode" "observer does not perturb the bus" "" ""]
    ["Use CANlib for official Windows/Kvaser ownership semantics; SocketCAN kvaser_usb is acceptable on Linux when channel ownership is simple.";
     "Host-only USB adapters do not provide honest device-local script/offload behavior."].
Definition kvaserEthernetProfile : Profile :=
  MkProfile ProfileKvaserEthernet "Kvaser DIN-rail/Ethernet adapter" true MaturityFirstClass TransportKvaserCANlib [] ["kvrlib stored device"; "CANlib channel"] [1000000; 500000; 250000; 125000]
    [CapabilityPassiveMonitor; CapabilitySharedOpen; CapabilityLocalTimestamp; CapabilityObjectBuffers; CapabilityEdgeScript]
    [MkDriverRef "Kvaser CANlib/kvrlib" ""]
    [MkCheck "remote discovery" "kvrlib discovery/stored-device attach" "device is reachable and bound to the intended host" "" "";
     MkCheck "owner clear" "deviceStatus / official Kvaser tools" "no stale owner/session blocks the channel" "" "";
     MkCheck "same-process visibility" "kvrlib attach then canEnumHardwareEx in same process" "remote channels appear in the owner process" "" "";
     MkCheck "edge capability" "object-buffer or kvScript capability probe" "offload is used only after passive capture and host ownership are proven" "" ""]
    ["Keep remote discovery, stored-device binding, and channel open in the same long-lived process.";
     "Use object buffers before richer kvScript; prove passive capture before mutation."].
Definition slcanUSBProfile : Profile :=
  MkProfile ProfileSLCANUSB "Lawicel/SLCAN USB serial adapter" false MaturityEasyUnproven TransportSLCAN [] ["slcan0"] [1000000; 500000; 250000; 125000]
    [CapabilitySocketCAN]
    [MkDriverRef "Linux SLCAN line discipline" "https://www.kernel.org/doc/html/latest/networking/can.html"]
    [MkCheck "attach serial line discipline" "slcand -o -c -s8 /dev/ttyACM0 slcan0" "slcan0 netdevice exists" "" "";
     MkCheck "latency budget" "ip -details link show slcan0" "acceptable only for diagnostics or slow buses" "" ""]
    ["Prefer native SocketCAN USB adapters over SLCAN for deterministic TEC polling."].
Definition remoteSocketCANProfile : Profile :=
  MkProfile ProfileRemoteSocketCAN "Remote SocketCAN bridge" false MaturityEasyUnproven TransportRemoteBridge [] ["tcp://host:port"; "nats subject"; "ssh remote canX"] [1000000; 500000; 250000; 125000]
    [CapabilityPassiveMonitor]
    []
    [MkCheck "remote owner" "remote ip -details link show can0" "one node owns bus-on/off and bitrate" "" "";
     MkCheck "raw truth" "bounded remote candump" "raw frames preserved before derived reduction" "" ""]
    ["Keep bus configuration on the node physically attached to the CAN adapter."].

Definition ProfileKvaserDINRail : string := ProfileKvaserEthernet.

(** [Profiles] is sorted by ID. *)
Definition profile_list : list Profile :=
  [pixtendV2LProfile; socketCANGenericProfile; candleLightProfile; pcanUSBProfile; emsUSBProfile; esdUSBProfile; microchipCANProfile;
   can327Profile; kvaserUSBProfile; kvaserEthernetProfile; slcanUSBProfile; remoteSocketCANProfile].
Definition Profiles : list Profile := sort_stable (λ a b, bytes_ltb (str (pf_ID a)) (str (pf_ID b))) profile_list.
Definition LookupProfile (id : bytes) : option Profile :=
  let id := TrimSpace (ToLower id) in List.find (λ p, bool_decide (str (pf_ID p) = id)) Profiles.
(** [None]: a panic. *)
Definition MustProfile (id : bytes) : option Profile := LookupProfile id.
Definition containsStringFold (values : list string) (value : bytes) : bool := existsb (λ c, EqualFold (str c) value) values.
Definition MatchSocketCANDriver (driver : bytes) : list Profile :=
  let driver := TrimSpace (ToLower driver) in
  if bool_decide (driver = []) then [] else filter (λ p, containsStringFold (pf_SocketCANDriver p) driver = true) Profiles.
Definition formatInts (values : list Z) : bytes := JoinText (str ",") (fmtD <$> values).
Definition checklist_line (l : list bytes) : bytes := mjoin l ++ [x0a].
Definition check_lines (c : AdapterCheck) : bytes :=
  checklist_line [str "- "; str (ck_Name c); str ": "; str (ck_Expect c)] ++
  (if bool_decide (ck_Command c = "") then [] else checklist_line [str "  command: "; str (ck_Command c)]) ++
  (if bool_decide (ck_Remedy c = "") then [] else checklist_line [str "  remedy: "; str (ck_Remedy c)]).
Definition driver_line (d : DriverRef) : bytes :=
  if bool_decide (dr_URL d = "") then checklist_line [str "driver: "; str (dr_Name d)]
  else checklist_line [str "driver: "; str (dr_Name d); str " <"; str (dr_URL d); str ">"].
Fixpoint drop_line_ends (l : bytes) : bytes :=
  match l with b :: l' => if bool_decide (b = x0a) then drop_line_ends l' else l | [] => [] end.
Definition RenderChecklist (p : Profile) : bytes :=
  reverse (drop_line_ends (reverse (
    checklist_line [str (pf_DisplayName p); str " ("; str (pf_ID p); str ")"] ++
    (if pf_FirstClass p then checklist_line [str "tier: first-class"]
     else if bool_decide (pf_Maturity p = "") then [] else checklist_line [str "tier: "; str (pf_Maturity p)]) ++
    checklist_line [str "transport: "; str (pf_Transport p)] ++
    (if bool_decide (pf_DefaultBitrates p = []) then [] else checklist_line [str "bitrates: "; formatInts (pf_DefaultBitrates p)]) ++
    (if bool_decide (pf_InterfaceHints p = []) then [] else checklist_line [str "interfaces: "; JoinText (str ",") (str <$> pf_InterfaceHints p)]) ++
    (pf_DriverRefs p ≫= driver_line) ++ (pf_Checks p ≫= check_lines)))).

(** ** The status of an interface *)
Definition Severity := string.
Definition SeverityInfo : Severity := "info".
Definition SeverityWarn : Severity := "warn".
Definition SeverityError : Severity := "error".
Record StatusFinding := MkFinding { fd_Severity : Severity; fd_Message : bytes; fd_Remedy : string }.
Record SocketCANStatus := MkSocketCANStatus {
  sc_Interface : bytes; sc_Type : bytes; sc_OperState : bytes; sc_CANState : bytes; sc_Mode : bytes; sc_Bitrate : Z; sc_RestartMS : Z;
  sc_Driver : bytes; sc_TxQueueLen : Z }.
Definition no_status : SocketCANStatus := MkSocketCANStatus [] [] [] [] [] 0 0 [] 0.
Fixpoint tokenAfter (fields : list bytes) (token : bytes) : bytes :=
  match fields with
  | f :: ((next :: _) as rest) => if bool_decide (f = token) then next else tokenAfter rest token
  | _ => []
  end.
Definition isIPLinkHeader (token : bytes) : bool := bool_decide (is_Some (Atoi (TrimSuffix token [":"%byte]))).
Definition atoiDefault (v : bytes) : Z := Atoi_nearest v.
Definition header_line (fields : list bytes) (s : SocketCANStatus) : SocketCANStatus :=
  MkSocketCANStatus (TrimSuffix (default [] (fields !! 1%nat)) [":"%byte]) (sc_Type s) (tokenAfter fields (str "state")) (sc_CANState s)
    (tokenAfter fields (str "mode")) (sc_Bitrate s) (sc_RestartMS s) (sc_Driver s) (atoiDefault (tokenAfter fields (str "qlen"))).
Definition can_line (fields : list bytes) (s : SocketCANStatus) : SocketCANStatus :=
  MkSocketCANStatus (sc_Interface s) (str "can") (sc_OperState s)
    (if (2 <? length fields)%nat && bool_decide (fields !! 1%nat = Some (str "state")) then default [] (fields !! 2%nat) else sc_CANState s)
    (sc_Mode s) (sc_Bitrate s)
    (let value := tokenAfter fields (str "restart-ms") in if bool_decide (value = []) then sc_RestartMS s else atoiDefault value)
    (sc_Driver s) (sc_TxQueueLen s).
Definition status_line (s : SocketCANStatus) (raw : bytes) : SocketCANStatus :=
  let l := TrimSpace raw in
  match Fields l with
  | [] => s
  | first :: rest =>
      let fields := first :: rest in
      if isIPLinkHeader first && (2 <=? length fields)%nat then header_line fields s
      else if bool_decide (first = str "link/can") then
        MkSocketCANStatus (sc_Interface s) (str "can") (sc_OperState s) (sc_CANState s) (sc_Mode s) (sc_Bitrate s) (sc_RestartMS s) (sc_Driver s) (sc_TxQueueLen s)
      else if bool_decide (first = str "can") then can_line fields s
      else if bool_decide (first = str "bitrate") && (1 <? length fields)%nat then
        MkSocketCANStatus (sc_Interface s) (sc_Type s) (sc_OperState s) (sc_CANState s) (sc_Mode s) (atoiDefault (default [] (fields !! 1%nat)))
          (sc_RestartMS s) (sc_Driver s) (sc_TxQueueLen s)
      else if HasSuffix first [":"%byte] && contains (str "tseg1") l then
        MkSocketCANStatus (sc_Interface s) (sc_Type s) (sc_OperState s) (sc_CANState s) (sc_Mode s) (sc_Bitrate s) (sc_RestartMS s)
          (TrimSuffix first [":"%byte]) (sc_TxQueueLen s)
      else s
  end.
Definition ParseSocketCANStatus (output : bytes) : res SocketCANStatus :=
  let status := fold_left status_line (SplitByte x0a output) no_status in
  if bool_decide (sc_Interface status = []) then Err (Errorf "socketcan status: interface line not found" []) else Ok status.

Definition ValidateSocketCANStatus (s : SocketCANStatus) (p : Profile) : list StatusFinding :=
  let findings :=
    (if bool_decide (sc_Type s ≠ str "can")
     then [MkFinding SeverityError (sc_Interface s ++ str " is not reported as a CAN netdevice")
       "verify the adapter driver and create the CAN netdevice before MeCom probing"] else []) ++
    (if bool_decide (sc_CANState s = str "BUS-OFF") || bool_decide (sc_OperState s = str "DOWN")
     then [MkFinding SeverityError (sc_Interface s ++ str " is not usable: oper=" ++ sc_OperState s ++ str " can=" ++ sc_CANState s)
       "check wiring, termination, bitrate, and bring the interface up again"] else []) ++
    (if sc_Bitrate s =? 0
     then [MkFinding SeverityWarn (sc_Interface s ++ str " has no parsed bitrate") "run `ip -details link show` after setting the CAN bitrate"]
     else if negb (bool_decide (pf_DefaultBitrates p = [])) && negb (bool_decide (sc_Bitrate s ∈ pf_DefaultBitrates p))
     then [MkFinding SeverityWarn (sc_Interface s ++ str " bitrate " ++ fmtD (sc_Bitrate s) ++ str " is outside profile defaults")
       "confirm the TEC bus rate before optimizing polling cadence"] else []) ++
    (if negb (bool_decide (sc_Driver s = [])) && negb (bool_decide (pf_SocketCANDriver p = [])) &&
        negb (containsStringFold (pf_SocketCANDriver p) (sc_Driver s))
     then [MkFinding SeverityWarn (sc_Interface s ++ str " driver " ++ sc_Driver s ++ str " does not match " ++ str (pf_ID p) ++ str " profile drivers")
       "select the correct adapter profile or re-check the hardware path"] else []) in
  if bool_decide (findings = [])
  then [MkFinding SeverityInfo (sc_Interface s ++ str " matches " ++ str (pf_ID p) ++ str " adapter expectations") ""] else findings.

(** ** The catalogue *)
(** Profiles come in the order of their IDs, and each is found by its ID, in any case
    and with white space around it. *)
Lemma profiles_found :
  forallb (λ p, bool_decide (pf_ID <$> LookupProfile (str "  " ++ ToUpper (str (pf_ID p)) ++ [x09]) = Some (pf_ID p))) Profiles = true ∧
  NoDup (pf_ID <$> Profiles) ∧ Forall (λ id, is_Some (MustProfile (str id))) (pf_ID <$> profile_list).
Proof.
  split_and!; [by vm_compute|apply (bool_decide_eq_true_1 (NoDup _)); by vm_compute|].
  repeat constructor; by eexists.
Qed.

(** ** Words of a line *)
Definition link_word (w : bytes) : Prop := w ≠ [] ∧ Forall (λ b, is_space b = false) w.
Definition words_line (indent : nat) (ws : list bytes) : bytes := replicate indent " "%byte ++ JoinByte " "%byte ws.
Lemma fields_go_word acc w l : Forall (λ b, is_space b = false) w → fields_go is_space acc (w ++ l) = fields_go is_space (acc ++ w) l.
Proof.
  intros Hw. revert acc. induction Hw as [|b w Hb Hw IH]; intros acc; cbn [app fields_go]; [by rewrite app_nil_r|].
  rewrite Hb, IH. by rewrite <-app_assoc.
Qed.
Lemma Fields_join ws : Forall link_word ws → Fields (JoinByte " "%byte ws) = ws.
Proof.
  unfold Fields, FieldsFunc. induction 1 as [|w ws [Hne Hw] Hws IH]; [done|]. destruct ws as [|w' ws].
  - cbn [JoinByte]. rewrite <-(app_nil_r w) at 1. rewrite fields_go_word by done. cbn. by rewrite bool_decide_eq_false_2.
  - change (JoinByte " "%byte (w :: w' :: ws)) with (w ++ " "%byte :: JoinByte " "%byte (w' :: ws)).
    rewrite fields_go_word by done. cbn [app fields_go]. change (is_space " "%byte) with true. cbv iota.
    rewrite bool_decide_eq_false_2 by done. cbn [app]. by rewrite IH.
Qed.
Lemma join_ends ws : ws ≠ [] → Forall link_word ws → (∃ b t, JoinByte " "%byte ws = b :: t ∧ is_space b = false) ∧
  (∃ t b, JoinByte " "%byte ws = t ++ [b] ∧ is_space b = false).
Proof.
  intros Hne Hw. induction Hw as [|w ws [Hn Hw] Hws IH]; [done|]. destruct (exists_last Hn) as (t & b & Eb).
  assert (Hb : is_space b = false) by (rewrite Eb in Hw; apply Forall_app in Hw as [_ Hw]; by inv Hw).
  destruct w as [|b0 w]; [done|]. assert (Hb0 : is_space b0 = false) by (by inv Hw). destruct ws as [|w' ws].
  - split; [by exists b0, w|]. cbn [JoinByte]. by exists t, b.
  - change (JoinByte " "%byte ((b0 :: w) :: w' :: ws)) with ((b0 :: w) ++ " "%byte :: JoinByte " "%byte (w' :: ws)). split; [by eexists _, _|].
    destruct IH as [_ (t' & b' & -> & Hb')]; [done|]. exists ((b0 :: w) ++ " "%byte :: t'), b'. by rewrite <-app_assoc.
Qed.
Lemma TrimSpace_words indent ws : ws ≠ [] → Forall link_word ws → TrimSpace (words_line indent ws) = JoinByte " "%byte ws.
Proof.
  intros Hne Hw. destruct (join_ends ws Hne Hw) as [(b & t & E & Hb) (t' & b' & E' & Hb')]. unfold words_line, TrimSpace.
  rewrite trim_left_spaces by (apply Forall_replicate; done). rewrite E. cbn [trim_left]. rewrite Hb, <-E, E'. by apply trim_right_snoc.
Qed.
Lemma tokenAfter_app pre token v rest : token ∉ pre → tokenAfter (pre ++ token :: v :: rest) token = v.
Proof.
  induction pre as [|a pre IH]; intros Hn; cbn [app].
  - cbn [tokenAfter]. by rewrite bool_decide_eq_true_2.
  - apply not_elem_of_cons in Hn as [Ha Hn]. destruct (pre ++ token :: v :: rest) as [|x l] eqn:E; [by destruct pre|].
    trans (tokenAfter (x :: l) token); [|by apply IH]. cbn [tokenAfter]. by rewrite bool_decide_eq_false_2 by congruence.
Qed.
Lemma join_no_newline indent ws : Forall link_word ws → x0a ∉ words_line indent ws.
Proof.
  intros Hw. unfold words_line. rewrite not_elem_of_app. split; [by intros [? _]%elem_of_replicate|].
  induction Hw as [|w ws [_ Hs] Hws IH]; [apply not_elem_of_nil|].
  assert (Hn : x0a ∉ w) by (intros Hin; rewrite Forall_forall in Hs; by specialize (Hs _ Hin)).
  destruct ws as [|w' ws]; [done|]. change (JoinByte " "%byte (w :: w' :: ws)) with (w ++ " "%byte :: JoinByte " "%byte (w' :: ws)).
  rewrite not_elem_of_app, not_elem_of_cons. done.
Qed.

(** ** What [ip] says of an interface *)
Record can_link := MkCanLink {
  lk_index : Z; lk_name : bytes; lk_details : list bytes; lk_state : bytes; lk_mode : bytes; lk_qlen : Z;
  lk_can_state : bytes; lk_can_details : list bytes; lk_restart : Z; lk_bitrate : Z; lk_driver : bytes }.
Definition colon (w : bytes) : bytes := w ++ [":"%byte].
Definition link_lines (l : can_link) : list (nat * list bytes) :=
  [(0%nat, [colon (fmtD (lk_index l)); colon (lk_name l)] ++ lk_details l ++
     [str "state"; lk_state l; str "mode"; lk_mode l; str "group"; str "default"; str "qlen"; fmtD (lk_qlen l)]);
   (4%nat, [str "link/can"; str "promiscuity"; str "0"]);
   (4%nat, [str "can"; str "state"; lk_can_state l] ++ lk_can_details l ++ [str "restart-ms"; fmtD (lk_restart l)]);
   (10%nat, [str "bitrate"; fmtD (lk_bitrate l); str "sample-point"; str "0.875"]);
   (10%nat, [colon (lk_driver l); str "tseg1"; str "3..16"])].
Definition link_text (l : can_link) : bytes := JoinByte x0a ((λ x, words_line x.1 x.2) <$> link_lines l).
Definition link_keywords : list bytes := str <$> ["state"; "mode"; "qlen"]%string.
Definition link_wf (l : can_link) : Prop :=
  0 ≤ lk_index l < 2 ^ 63 ∧ 0 ≤ lk_qlen l < 2 ^ 63 ∧ 0 ≤ lk_restart l < 2 ^ 63 ∧ 0 ≤ lk_bitrate l < 2 ^ 63 ∧
  link_word (lk_name l) ∧ link_word (lk_state l) ∧ link_word (lk_mode l) ∧ link_word (lk_can_state l) ∧ link_word (lk_driver l) ∧ Forall link_word (lk_details l ++ lk_can_details l) ∧
  Forall (λ w, w ∉ link_keywords) (lk_state l :: lk_mode l :: lk_details l) ∧ (str "restart-ms" ∉ lk_can_state l :: lk_can_details l) ∧ Atoi (lk_driver l) = None.
(** The interface that is read from it. *)
Definition link_status (l : can_link) : SocketCANStatus :=
  MkSocketCANStatus (lk_name l) (str "can") (lk_state l) (lk_can_state l) (lk_mode l) (lk_bitrate l) (lk_restart l) (lk_driver l) (lk_qlen l).
(** A profile has nothing to say against it. *)
Definition usable (l : can_link) : Prop := lk_can_state l ≠ str "BUS-OFF" ∧ lk_state l ≠ str "DOWN".
Definition bitrate_fits (l : can_link) (p : Profile) : Prop := pf_DefaultBitrates p = [] ∨ lk_bitrate l ∈ pf_DefaultBitrates p.
Definition driver_fits (l : can_link) (p : Profile) : Prop := pf_SocketCANDriver p = [] ∨ containsStringFold (pf_SocketCANDriver p) (lk_driver l) = true.
Definition as_expected (l : can_link) (p : Profile) : Prop :=
  lk_bitrate l ≠ 0 ∧ bitrate_fits l p ∧ driver_fits l p.

Lemma digits_word z : 0 ≤ z → link_word (fmtD z).
Proof.
  intros Hz. unfold fmtD. destruct (Z.ltb_spec z 0); [lia|]. destruct (dec_digits_ends 19 z) as (l & d & E & _); [lia|lia|].
  split; [rewrite E; by destruct l|]. eapply Forall_impl; [apply dec_digits_chars; lia|]. by intros b (Hb & _).
Qed.
Lemma colon_word w : link_word w → link_word (colon w).
Proof. intros [Hn Hs]. split; [by destruct w|]. apply Forall_app. split; [done|]. by apply Forall_singleton. Qed.
Lemma number_read z : 0 ≤ z < 2 ^ 63 → Atoi (fmtD z) = Some z.
Proof. intros Hz. unfold fmtD. destruct (Z.ltb_spec z 0); [lia|]. by apply Atoi_dec. Qed.
Lemma atoiDefault_fmtD z : 0 ≤ z < 2 ^ 63 → atoiDefault (fmtD z) = z.
Proof. intros Hz. unfold atoiDefault, Atoi_nearest. by rewrite number_read. Qed.
Lemma colon_suffix w : TrimSuffix (colon w) [":"%byte] = w.
Proof. apply TrimSuffix_snoc. Qed.
Lemma colon_ne w v : last v ≠ Some ":"%byte → colon w ≠ v.
Proof. intros Hv <-. apply Hv. apply last_snoc. Qed.
(** A line by its words. *)
Lemma status_line_words s indent first rest : Forall link_word (first :: rest) →
  status_line s (words_line indent (first :: rest)) =
    (let fields := first :: rest in
     if isIPLinkHeader first && (2 <=? length fields)%nat then header_line fields s
     else if bool_decide (first = str "link/can") then
       MkSocketCANStatus (sc_Interface s) (str "can") (sc_OperState s) (sc_CANState s) (sc_Mode s) (sc_Bitrate s) (sc_RestartMS s) (sc_Driver s) (sc_TxQueueLen s)
     else if bool_decide (first = str "can") then can_line fields s
     else if bool_decide (first = str "bitrate") && (1 <? length fields)%nat then
       MkSocketCANStatus (sc_Interface s) (sc_Type s) (sc_OperState s) (sc_CANState s) (sc_Mode s) (atoiDefault (default [] (fields !! 1%nat)))
         (sc_RestartMS s) (sc_Driver s) (sc_TxQueueLen s)
     else if HasSuffix first [":"%byte] && contains (str "tseg1") (JoinByte " "%byte fields) then
       MkSocketCANStatus (sc_Interface s) (sc_Type s) (sc_OperState s) (sc_CANState s) (sc_Mode s) (sc_Bitrate s) (sc_RestartMS s)
         (TrimSuffix first [":"%byte]) (sc_TxQueueLen s)
     else s).
Proof. intros Hw. unfold status_line. cbv zeta. rewrite TrimSpace_words, Fields_join by done. done. Qed.

(** The lines of an interface, each read in turn. *)
Lemma read_header s indent i name rest : 0 ≤ i < 2 ^ 63 → Forall link_word (colon (fmtD i) :: name :: rest) →
  status_line s (words_line indent (colon (fmtD i) :: name :: rest)) = header_line (colon (fmtD i) :: name :: rest) s.
Proof.
  intros Hi Hw. rewrite status_line_words by done. cbv zeta.
  assert (isIPLinkHeader (colon (fmtD i)) = true) as ->; [|done].
  unfold isIPLinkHeader. rewrite colon_suffix, number_read by done. apply bool_decide_eq_true_2. by exists i.
Qed.
Ltac read_word w :=
  assert (isIPLinkHeader (str w) = false) as -> by (by vm_compute); cbn [andb];
  repeat match goal with
    | |- context [@bool_decide (str w = str ?v) ?d] =>
        lazymatch w with
        | v => rewrite (@bool_decide_eq_true_2 (str w = str v) d) by reflexivity
        | _ => rewrite (@bool_decide_eq_false_2 (str w = str v) d) by (vm_compute; congruence)
        end
    end; cbn [andb].
Lemma read_kind s indent rest : Forall link_word (str "link/can" :: rest) →
  status_line s (words_line indent (str "link/can" :: rest)) =
  MkSocketCANStatus (sc_Interface s) (str "can") (sc_OperState s) (sc_CANState s) (sc_Mode s) (sc_Bitrate s) (sc_RestartMS s) (sc_Driver s) (sc_TxQueueLen s).
Proof. intros Hw. rewrite status_line_words by done. cbv zeta. read_word "link/can"%string. reflexivity. Qed.
Lemma read_can s indent rest : Forall link_word (str "can" :: rest) →
  status_line s (words_line indent (str "can" :: rest)) = can_line (str "can" :: rest) s.
Proof. intros Hw. rewrite status_line_words by done. cbv zeta. read_word "can"%string. reflexivity. Qed.
Lemma read_bitrate s indent z rest : 0 ≤ z < 2 ^ 63 → Forall link_word (str "bitrate" :: fmtD z :: rest) →
  status_line s (words_line indent (str "bitrate" :: fmtD z :: rest)) =
  MkSocketCANStatus (sc_Interface s) (sc_Type s) (sc_OperState s) (sc_CANState s) (sc_Mode s) z (sc_RestartMS s) (sc_Driver s) (sc_TxQueueLen s).
Proof.
  intros Hz Hw. rewrite status_line_words by done. cbv zeta. read_word "bitrate"%string.
  change (default [] ((str "bitrate" :: fmtD z :: rest) !! 1%nat)) with (fmtD z). rewrite atoiDefault_fmtD by done. reflexivity.
Qed.
(** The driver's line is none of the others: its first word ends with a colon. *)
Lemma read_driver s indent d rest : Atoi d = None → Forall link_word (colon d :: str "tseg1" :: rest) →
  status_line s (words_line indent (colon d :: str "tseg1" :: rest)) =
  MkSocketCANStatus (sc_Interface s) (sc_Type s) (sc_OperState s) (sc_CANState s) (sc_Mode s) (sc_Bitrate s) (sc_RestartMS s) d (sc_TxQueueLen s).
Proof.
  intros Hd Hw. rewrite status_line_words by done. cbv zeta.
  assert (isIPLinkHeader (colon d) = false) as ->
    by (unfold isIPLinkHeader; rewrite colon_suffix, Hd; apply bool_decide_eq_false_2; by intros [? ?]).
  rewrite !(bool_decide_eq_false_2 (colon d = _)) by (apply colon_ne; vm_compute; congruence).
  assert (HasSuffix (colon d) [":"%byte] = true) as -> by (apply bool_decide_eq_true_2; apply (lastn_app d [":"%byte])).
  assert (contains (str "tseg1") (JoinByte " "%byte (colon d :: str "tseg1" :: rest)) = true) as ->.
  { apply contains_true. destruct rest as [|r rest].
    - exists (colon d ++ str " "), []. cbn [JoinByte]. by rewrite <-app_assoc.
    - exists (colon d ++ str " "), (" "%byte :: JoinByte " "%byte (r :: rest)).
      change (JoinByte " "%byte (colon d :: str "tseg1" :: r :: rest))
        with (colon d ++ " "%byte :: str "tseg1" ++ " "%byte :: JoinByte " "%byte (r :: rest)). by rewrite <-app_assoc. }
  cbn [andb]. by rewrite colon_suffix.
Qed.

Lemma word_string (w : string) : forallb (λ b, negb (is_space b)) (str w) && negb (bool_decide (str w = [])) = true → link_word (str w).
Proof.
  intros [Hw Hne]%andb_true_iff. split; [by apply negb_true_iff, bool_decide_eq_false in Hne|]. apply Forall_forall. intros b Hin%list_elem_of_In.
  eapply forallb_forall in Hw; [|done]. by apply negb_true_iff in Hw.
Qed.
Section link.
Context (l : can_link) (Hl : link_wf l).
Lemma link_words : Forall (λ x, Forall link_word x.2) (link_lines l).
Proof using Hl.
  destruct Hl as (Hi & Hq & Hr & Hb & Hn & Hs & Hm & Hc & Hd & Hde & _). apply Forall_app in Hde as [Hde Hce].
  pose proof (digits_word (lk_index l) ltac:(lia)). pose proof (digits_word (lk_qlen l) ltac:(lia)).
  pose proof (digits_word (lk_restart l) ltac:(lia)). pose proof (digits_word (lk_bitrate l) ltac:(lia)).
  unfold link_lines. rewrite !Forall_cons, Forall_nil. cbn [snd]. rewrite !Forall_app, !Forall_cons, !Forall_nil.
  split_and!; first [assumption|exact I|apply colon_word; assumption|apply word_string; vm_compute; reflexivity].
Qed.
Lemma text_lines : SplitByte x0a (link_text l) = (λ x, words_line x.1 x.2) <$> link_lines l.
Proof using Hl.
  apply Split_Join; [done|]. apply Forall_fmap. eapply Forall_impl; [apply link_words|]. intros x Hw. by apply join_no_newline.
Qed.
Lemma header_tokens s : header_line (link_lines l !!! 0%nat).2 s =
  MkSocketCANStatus (lk_name l) (sc_Type s) (lk_state l) (sc_CANState s) (lk_mode l) (sc_Bitrate s) (sc_RestartMS s) (sc_Driver s) (lk_qlen l).
Proof using Hl.
  destruct Hl as (_ & Hq & _ & _ & _ & _ & _ & _ & _ & _ & Hkw & _). unfold link_keywords in Hkw. cbn [fmap list_fmap] in Hkw.
  apply Forall_cons in Hkw as [Hs Hkw]. apply Forall_cons in Hkw as [Hm Hd].
  set (pre := [colon (fmtD (lk_index l)); colon (lk_name l)] ++ lk_details l).
  assert (Hpre : ∀ k, k ∈ str <$> ["state"; "mode"; "qlen"]%string → k ∉ pre).
  { intros k Hk. unfold pre. rewrite not_elem_of_app, !not_elem_of_cons. split_and!; try apply not_elem_of_nil.
    1, 2: intros E; symmetry in E; revert E; apply colon_ne; repeat (apply elem_of_cons in Hk as [->|Hk]; [vm_compute; congruence|]); by apply elem_of_nil in Hk.
    intros Hin. rewrite Forall_forall in Hd. by apply (Hd k). }
  set (K := str <$> ["state"; "mode"; "qlen"]%string) in *.
  assert (Ks : str "state" ∈ K) by (apply elem_of_cons; by left).
  assert (Km : str "mode" ∈ K) by (apply elem_of_cons; right; apply elem_of_cons; by left).
  assert (Kq : str "qlen" ∈ K) by (apply elem_of_cons; right; apply elem_of_cons; right; apply elem_of_cons; by left).
  assert (Hnot : ∀ k w, k ∈ K → w ∉ K → k ≠ w) by (intros k w Hk Hw ->; by apply Hw).
  change ((link_lines l !!! 0%nat).2)
    with (pre ++ [str "state"; lk_state l; str "mode"; lk_mode l; str "group"; str "default"; str "qlen"; fmtD (lk_qlen l)]).
  unfold header_line. f_equal.
  - change (TrimSuffix (colon (lk_name l)) [":"%byte] = lk_name l). apply colon_suffix.
  - apply tokenAfter_app. by apply Hpre.
  - change (pre ++ [str "state"; lk_state l; str "mode"; lk_mode l; str "group"; str "default"; str "qlen"; fmtD (lk_qlen l)])
      with (pre ++ [str "state"; lk_state l] ++ [str "mode"; lk_mode l; str "group"; str "default"; str "qlen"; fmtD (lk_qlen l)]).
    rewrite app_assoc. apply tokenAfter_app. rewrite not_elem_of_app, !not_elem_of_cons. split_and!; try apply not_elem_of_nil;
      [by apply Hpre|vm_compute; congruence|by apply Hnot].
  - change (pre ++ [str "state"; lk_state l; str "mode"; lk_mode l; str "group"; str "default"; str "qlen"; fmtD (lk_qlen l)])
      with (pre ++ [str "state"; lk_state l; str "mode"; lk_mode l; str "group"; str "default"] ++ [str "qlen"; fmtD (lk_qlen l)]).
    rewrite app_assoc, tokenAfter_app; [by apply atoiDefault_fmtD|].
    rewrite not_elem_of_app, !not_elem_of_cons. split_and!; try apply not_elem_of_nil; try (by apply Hnot); try (vm_compute; congruence). by apply Hpre.
Qed.
Lemma can_tokens s : can_line (link_lines l !!! 2%nat).2 s =
  MkSocketCANStatus (sc_Interface s) (str "can") (sc_OperState s) (lk_can_state l) (sc_Mode s) (sc_Bitrate s) (lk_restart l) (sc_Driver s) (sc_TxQueueLen s).
Proof using Hl.
  destruct Hl as (_ & _ & Hr & _ & _ & _ & _ & _ & _ & _ & _ & Hc & _).
  change ((link_lines l !!! 2%nat).2)
    with (([str "can"; str "state"; lk_can_state l] ++ lk_can_details l) ++ [str "restart-ms"; fmtD (lk_restart l)]). unfold can_line.
  rewrite tokenAfter_app; [|rewrite not_elem_of_app, !not_elem_of_cons; apply not_elem_of_cons in Hc as [Hc Hd];
    split_and!; [vm_compute; congruence|vm_compute; congruence|done|apply not_elem_of_nil|done]].
  cbv zeta. rewrite (bool_decide_eq_false_2 (fmtD (lk_restart l) = [])) by (apply digits_word; lia). rewrite atoiDefault_fmtD by done. reflexivity.
Qed.
Lemma read_link : ParseSocketCANStatus (link_text l) = Ok (link_status l).
Proof using Hl.
  pose proof link_words as Hw. unfold ParseSocketCANStatus. rewrite text_lines.
  pose proof Hl as (Hi & _ & _ & Hb & [Hn _] & _ & _ & _ & _ & _ & _ & _ & Hnum).
  pose proof (header_tokens no_status) as Hh.
  set (h := MkSocketCANStatus _ _ _ _ _ _ _ _ _) in Hh.
  pose proof (can_tokens (MkSocketCANStatus (sc_Interface h) (str "can") (sc_OperState h) (sc_CANState h) (sc_Mode h) (sc_Bitrate h)
    (sc_RestartMS h) (sc_Driver h) (sc_TxQueueLen h))) as Hcan.
  unfold link_lines in *. rewrite !Forall_cons in Hw. destruct Hw as (W1 & W2 & W3 & W4 & W5 & _).
  cbn [snd lookup_total list_lookup_total app] in Hh, Hcan, W1, W2, W3, W4, W5.
  cbn [fmap list_fmap fold_left fst snd app].
  rewrite read_header, Hh, read_kind, read_can, Hcan, read_bitrate, read_driver by done.
  unfold h. cbn [sc_Interface sc_Type sc_OperState sc_CANState sc_Mode sc_Bitrate sc_RestartMS sc_Driver sc_TxQueueLen].
  by rewrite bool_decide_eq_false_2.
Qed.
(** The four questions that are asked, as booleans. *)
Lemma usable_dec : bool_decide (lk_can_state l = str "BUS-OFF") || bool_decide (lk_state l = str "DOWN") = false ↔ usable l.
Proof. unfold usable. by rewrite orb_false_iff, !bool_decide_eq_false. Qed.
Lemma bitrate_dec p : negb (bool_decide (pf_DefaultBitrates p = [])) && negb (bool_decide (lk_bitrate l ∈ pf_DefaultBitrates p)) = false ↔ bitrate_fits l p.
Proof. unfold bitrate_fits. by rewrite andb_false_iff, !negb_false_iff, !bool_decide_eq_true. Qed.
Lemma driver_dec p : lk_driver l ≠ [] →
  negb (bool_decide (lk_driver l = [])) && negb (bool_decide (pf_SocketCANDriver p = [])) &&
  negb (containsStringFold (pf_SocketCANDriver p) (lk_driver l)) = false ↔ driver_fits l p.
Proof.
  intros Hd. rewrite (bool_decide_eq_false_2 (lk_driver l = [])) by done. cbn [negb andb]. unfold driver_fits.
  by rewrite andb_false_iff, !negb_false_iff, bool_decide_eq_true.
Qed.
End link.

(** What [ip] says of a CAN interface in the five lines the program looks at (the
    header, the kind, the CAN state, the bit timing and the driver) is read back: name,
    state, mode, queue length, CAN state, restart delay, bitrate and driver are those of the
    interface.  Against a profile the diagnosis then has an error exactly when the
    interface is down or off the bus, and says that all is well exactly when it is usable
    and has a bitrate and a driver that the profile has. *)
Theorem link_diagnosed l p : link_wf l →
  ∃ s, ParseSocketCANStatus (link_text l) = Ok s ∧ s = link_status l ∧
    (SeverityError ∈ fd_Severity <$> ValidateSocketCANStatus s p ↔ ¬ usable l) ∧
    (SeverityInfo ∈ fd_Severity <$> ValidateSocketCANStatus s p ↔ usable l ∧ as_expected l p).
Proof.
  intros Hl. exists (link_status l). split; [by apply read_link|]. split; [done|].
  assert (Hd : lk_driver l ≠ []) by apply Hl.
  unfold as_expected. rewrite <-usable_dec, <-bitrate_dec, <-driver_dec by done. unfold ValidateSocketCANStatus.
  change (sc_Type (link_status l)) with (str "can"). rewrite (bool_decide_eq_false_2 (str "can" ≠ str "can")) by (intros Hn; by apply Hn).
  cbn [link_status sc_Interface sc_OperState sc_CANState sc_Bitrate sc_Driver app].
  destruct (bool_decide (lk_can_state l = str "BUS-OFF") || bool_decide (lk_state l = str "DOWN")),
    (Z.eqb_spec (lk_bitrate l) 0),
    (negb (bool_decide (pf_DefaultBitrates p = [])) && negb (bool_decide (lk_bitrate l ∈ pf_DefaultBitrates p))),
    (negb (bool_decide (lk_driver l = [])) && negb (bool_decide (pf_SocketCANDriver p = [])) &&
       negb (containsStringFold (pf_SocketCANDriver p) (lk_driver l))); cbn [app].
  all: rewrite ?(bool_decide_eq_true_2 ([] = [])) by done; rewrite ?bool_decide_eq_false_2 by done.
  all: cbn [fmap list_fmap fd_Severity]; rewrite ?elem_of_cons, ?elem_of_nil; unfold SeverityError, SeverityInfo, SeverityWarn.
  all: split; split; intuition (try congruence).
Qed.
(** [can0] of the PiXtend board, and how it is diagnosed. *)
Definition bench_link (state : string) : can_link :=
  MkCanLink 3 (str "can0") (str <$> ["<NOARP,UP,LOWER_UP,ECHO>"; "mtu"; "16"; "qdisc"; "pfifo_fast"]%string) (str state) (str "DEFAULT") 10
    (str "ERROR-ACTIVE") (str <$> ["(berr-counter"; "tx"; "0"; "rx"; "0)"]%string) 100 500000 (str "mcp251x").
Lemma bench_link_wf state : state ∈ ["UP"; "DOWN"]%string → link_wf (bench_link state).
Proof.
  intros Hs.
  unfold link_wf, link_keywords. cbn [bench_link lk_index lk_qlen lk_restart lk_bitrate lk_name lk_state lk_mode lk_can_state lk_driver lk_details lk_can_details fmap list_fmap app].
  rewrite !Forall_cons, !Forall_nil. rewrite elem_of_cons, list_elem_of_singleton in Hs. destruct Hs as [->| ->].
  all: split_and!; try lia; try exact I; try (apply word_string; vm_compute; reflexivity); try (vm_compute; reflexivity); apply (bool_decide_eq_true_1 _); vm_compute; reflexivity.
Qed.
Lemma link_diagnosed_witness :
  (∃ s, ParseSocketCANStatus (link_text (bench_link "UP")) = Ok s ∧ SeverityInfo ∈ fd_Severity <$> ValidateSocketCANStatus s pixtendV2LProfile) ∧
  (∃ s, ParseSocketCANStatus (link_text (bench_link "DOWN")) = Ok s ∧ SeverityError ∈ fd_Severity <$> ValidateSocketCANStatus s pixtendV2LProfile).
Proof.
  split.
  - destruct (link_diagnosed (bench_link "UP") pixtendV2LProfile) as (s & E & _ & _ & H); [apply bench_link_wf; by apply elem_of_cons; left|].
    exists s. split; [exact E|]. apply H. split; [split; vm_compute; congruence|].
    split; [vm_compute; congruence|]. split; [right; apply (bool_decide_eq_true_1 _); vm_compute; reflexivity|right; vm_compute; reflexivity].
  - destruct (link_diagnosed (bench_link "DOWN") pixtendV2LProfile) as (s & E & _ & H & _); [apply bench_link_wf; by apply elem_of_cons; right; apply list_elem_of_singleton|].
    exists s. split; [exact E|]. apply H. intros [_ Hn]. by apply Hn.
Defined.

(** The counters that [ip -details -statistics] prints after these lines begin with a
    number, so they are read as a header: interface and state are lost. *)
Lemma counters_read_as_header :
  let text := link_text (bench_link "DOWN") ++ [x0a] ++ str "    RX: bytes packets errors dropped" ++ [x0a] ++ str "    96 12 0 0" in
  ∃ s, ParseSocketCANStatus text = Ok s ∧ sc_Interface s = str "12" ∧ sc_OperState s = [] ∧
    fd_Severity <$> ValidateSocketCANStatus s pixtendV2LProfile = [SeverityInfo].
Proof. eexists. split; [vm_compute; reflexivity|]. by vm_compute. Qed.
(** With the mode flags that [ip] puts before it, the CAN state is not read. *)
Lemma flags_hide_state s :
  sc_CANState (status_line s (str "    can <FD> state BUS-OFF restart-ms 0")) = sc_CANState s.
Proof. vm_compute. destruct s; reflexivity. Qed.
