(* ===== verification/CanMap.v ===== *)
(** * CanMap: the registry of CAN signals ([canmap/registry.go], [canmap/pattern.go])

    A registry says which node sends which value under which COB-ID, and which
    nodes receive it into which objects.  [Validate] lists its structural
    problems; a pattern is a registry without node numbers, and [Instantiate]
    binds a pattern to the nodes of one testbed.

    A problem or an error carries the values its message prints.  The JSON text is
    [encoding/json]'s: decoding starts from the scalars of the document. *)
From stdpp Require Import prelude gmap strings list sorting.
From Stdlib Require Import Strings.Byte.
From S2P Require Import Prelude Text.
Local Open Scope Z_scope.

(** ** Data *)
Record MapEntry := MkMapEntry {
  m_Index : Z; m_SubIndex : Z; m_Bits : Z; m_Comment : string }.
Record SDOWrite := MkSDOWrite {
  w_Index : Z; w_SubIndex : Z; w_Value : Z; w_Comment : string }.
Record Producer := MkProducer { p_Role : string; p_TPDO : Z; p_Mapping : list MapEntry }.
Record Consumer := MkConsumer {
  c_Role : string; c_RPDO : Z; c_Mapping : list MapEntry; c_SourceSelects : list SDOWrite }.
Record Signal := MkSignal {
  s_COBID : Z; s_Name : string; s_Description : string; s_Producer : Producer;
  s_Consumers : list Consumer; s_RateMS : Z; s_SavedToFlash : bool; s_Verified : string }.
Record Node := MkNode {
  n_Role : string; n_NodeID : Z; n_Family : string; n_Label : string }.
Record Registry := MkRegistry {
  r_SchemaVersion : Z; r_Name : string; r_Description : string;
  r_Nodes : list Node; r_Signals : list Signal }.

Definition SchemaVersion : Z := 1.

Definition Raw (m : MapEntry) : Z :=
  Z.lor (Z.lor (u32 (Z.shiftl (m_Index m) 16)) (u32 (Z.shiftl (m_SubIndex m) 8))) (m_Bits m).
Definition DecodeMapEntry (raw : Z) : MapEntry :=
  MkMapEntry (u16 (Z.shiftr raw 16)) (u8 (Z.shiftr raw 8)) (u8 raw) "".

(** ** Hexadecimal fields of the document *)

(** What [json.Unmarshal] finds: a string, a number that fits a [uint64], [null],
    or anything else. *)
Inductive json_scalar : Type :=
  | JString (s : bytes)
  | JUint64 (n : Z)
  | JNull
  | JOther.

Definition MarshalHex16 (h : Z) : json_scalar := JString (str "0x" ++ fmtX 4 h).
Definition MarshalHex32 (h : Z) : json_scalar := JString (str "0x" ++ fmtX 0 h).

Definition parseHex (s : bytes) (bits : Z) : res Z :=
  match ParseUint (TrimPrefix (TrimSpace s) (str "0x")) 16 bits with
  | Err e => Err (Wrapf "canmap: invalid hex value %q: %w" [] e)
  | Ok v => Ok v
  end.
Definition unmarshalHex (data : json_scalar) (bits : Z) : res Z :=
  match data with
  | JString s => parseHex s bits
  | JNull => parseHex [] bits
  | JUint64 n =>
      if (bits <? 64) && (2 ^ bits - 1 <? n)
      then Err (Errorf "canmap: numeric value %d exceeds %d-bit field" [n; bits])
      else Ok n
  | JOther => Err (Errorf "json: cannot unmarshal into Go value of type string" [])
  end.

(** ** Validation *)
Inductive mapping_error : Type :=
  | EmptyMapping
  | ZeroBits (slot : nat)
  | TooManyBits (total : Z).

Inductive problem : Type :=
  | EmptyRole (i : nat)
  | DuplicateRole (i : nat) (role : string)
  | NodeIDOutOfRange (i : nat) (role : string) (id : Z)
  | NodeIDBoundTwice (id : Z) (prev role : string)
  | EmptyName (i : nat)
  | DuplicateName (i : nat) (name : string)
  | COBIDProducedTwice (i : nat) (name : string) (cob : Z) (prev : string)
  | ProducerRoleUnknown (i : nat) (name role : string)
  | ProducerTPDO (i : nat) (name : string)
  | ProducerMapping (i : nat) (name : string) (e : mapping_error)
  | ConsumerRoleUnknown (i : nat) (name : string) (j : nat) (role : string)
  | ConsumerRPDO (i : nat) (name : string) (j : nat)
  | ConsumerMapping (i : nat) (name : string) (j : nat) (e : mapping_error)
  | SlotsDiffer (i : nat) (name : string) (j : nat) (got want : list Z).

(** The loop of [mappingBits]: the slot number, the lengths so far, their sum. *)
Fixpoint mapping_loop (i : nat) (bits : list Z) (total : Z) (entries : list MapEntry) :
    result mapping_error (list Z * Z) :=
  match entries with
  | [] => Ok (bits, total)
  | e :: es =>
      if m_Bits e =? 0 then Err (ZeroBits (i + 1))
      else mapping_loop (S i) (bits ++ [m_Bits e]) (total + m_Bits e) es
  end.
Definition mappingBits (entries : list MapEntry) : result mapping_error (list Z) :=
  match entries with
  | [] => Err EmptyMapping
  | _ =>
      '(bits, total) ← mapping_loop 0 [] 0 entries;
      if 64 <? total then Err (TooManyBits total) else Ok bits
  end.

Fixpoint slotLengthsMatch (a b : list MapEntry) : bool :=
  match a, b with
  | [], [] => true
  | x :: a', y :: b' => (m_Bits x =? m_Bits y) && slotLengthsMatch a' b'
  | _, _ => false
  end.
Definition bitsOf (entries : list MapEntry) : list Z := m_Bits <$> entries.

(** The first loop over the nodes builds the table of roles, the second finds
    nodes bound twice. *)
Fixpoint validate_roles (i : nat) (roles : gmap string Node) (nodes : list Node) :
    list problem * gmap string Node :=
  match nodes with
  | [] => ([], roles)
  | n :: ns =>
      if bool_decide (n_Role n = ""%string) then
        let '(errs, roles) := validate_roles (S i) roles ns in (EmptyRole i :: errs, roles)
      else
        let dup := if roles !! n_Role n is Some _ then [DuplicateRole i (n_Role n)] else [] in
        let range := if 127 <? n_NodeID n then [NodeIDOutOfRange i (n_Role n) (n_NodeID n)] else [] in
        let '(errs, roles) := validate_roles (S i) (<[n_Role n := n]> roles) ns in
        (dup ++ range ++ errs, roles)
  end.
Fixpoint validate_ids (ids : gmap Z string) (nodes : list Node) : list problem :=
  match nodes with
  | [] => []
  | n :: ns =>
      if n_NodeID n =? 0 then validate_ids ids ns
      else
        match ids !! n_NodeID n with
        | Some prev => [NodeIDBoundTwice (n_NodeID n) prev (n_Role n)]
        | None => []
        end ++ validate_ids (<[n_NodeID n := n_Role n]> ids) ns
  end.

Definition validate_consumer (roles : gmap string Node) (i : nat) (sig : Signal) (j : nat)
    (c : Consumer) : list problem :=
  (if roles !! c_Role c is Some _ then [] else [ConsumerRoleUnknown i (s_Name sig) j (c_Role c)]) ++
  (if c_RPDO c <? 1 then [ConsumerRPDO i (s_Name sig) j] else []) ++
  match mappingBits (c_Mapping c) with
  | Err e => [ConsumerMapping i (s_Name sig) j e]
  | Ok _ =>
      if is_Ok (mappingBits (p_Mapping (s_Producer sig))) &&
         negb (slotLengthsMatch (p_Mapping (s_Producer sig)) (c_Mapping c))
      then [SlotsDiffer i (s_Name sig) j (bitsOf (c_Mapping c)) (bitsOf (p_Mapping (s_Producer sig)))]
      else []
  end.
Fixpoint validate_consumers (roles : gmap string Node) (i : nat) (sig : Signal) (j : nat)
    (cs : list Consumer) : list problem :=
  match cs with
  | [] => []
  | c :: cs' => validate_consumer roles i sig j c ++ validate_consumers roles i sig (S j) cs'
  end.
Definition validate_producer (roles : gmap string Node) (i : nat) (sig : Signal) : list problem :=
  (if roles !! p_Role (s_Producer sig) is Some _ then []
   else [ProducerRoleUnknown i (s_Name sig) (p_Role (s_Producer sig))]) ++
  (if p_TPDO (s_Producer sig) <? 1 then [ProducerTPDO i (s_Name sig)] else []) ++
  match mappingBits (p_Mapping (s_Producer sig)) with
  | Err e => [ProducerMapping i (s_Name sig) e]
  | Ok _ => []
  end.
Fixpoint validate_signals (roles : gmap string Node) (i : nat) (cobIDs : gmap Z string)
    (names : gset string) (sigs : list Signal) : list problem :=
  match sigs with
  | [] => []
  | sig :: sigs' =>
      (if bool_decide (s_Name sig = ""%string) then [EmptyName i]
       else if bool_decide (s_Name sig ∈ names) then [DuplicateName i (s_Name sig)] else []) ++
      match cobIDs !! s_COBID sig with
      | Some prev => [COBIDProducedTwice i (s_Name sig) (s_COBID sig) prev]
      | None => []
      end ++
      validate_producer roles i sig ++ validate_consumers roles i sig 0 (s_Consumers sig) ++
      validate_signals roles (S i) (<[s_COBID sig := s_Name sig]> cobIDs) ({[s_Name sig]} ∪ names) sigs'
  end.
Definition Validate (r : Registry) : list problem :=
  let '(errs, roles) := validate_roles 0 ∅ (r_Nodes r) in
  errs ++ validate_ids ∅ (r_Nodes r) ++ validate_signals roles 0 ∅ ∅ (r_Signals r).

(** [ParseRegistry]: [doc] is what [json.Unmarshal] returns for the document. *)
Inductive registry_error : Type :=
  | ParseError (e : error)
  | UnsupportedVersion (version : Z)
  | InvalidRegistry (errs : list problem).
Definition ParseRegistry (doc : res Registry) : result registry_error Registry :=
  match doc with
  | Err e => Err (ParseError e)
  | Ok r =>
      if negb (r_SchemaVersion r =? SchemaVersion) then Err (UnsupportedVersion (r_SchemaVersion r))
      else match Validate r with [] => Ok r | errs => Err (InvalidRegistry errs) end
  end.

Fixpoint node_by_role (nodes : list Node) (role : string) : option Node :=
  match nodes with
  | [] => None
  | n :: ns => if bool_decide (n_Role n = role) then Some n else node_by_role ns role
  end.
Definition NodeByRole (r : Registry) (role : string) : option Node := node_by_role (r_Nodes r) role.

Definition IsPattern (r : Registry) : bool :=
  forallb (λ n, n_NodeID n =? 0) (r_Nodes r) && (0 <? length (r_Nodes r))%nat.

(** ** Patterns *)

(** The copy is rebuilt down to the mappings; the program assigns to the fields of
    the copy only. *)
Definition clone_consumer (c : Consumer) : Consumer :=
  MkConsumer (c_Role c) (c_RPDO c) ([] ++ c_Mapping c) ([] ++ c_SourceSelects c).
Definition clone_signal (s : Signal) : Signal :=
  MkSignal (s_COBID s) (s_Name s) (s_Description s)
    (MkProducer (p_Role (s_Producer s)) (p_TPDO (s_Producer s)) ([] ++ p_Mapping (s_Producer s)))
    (clone_consumer <$> s_Consumers s) (s_RateMS s) (s_SavedToFlash s) (s_Verified s).
Definition cloneRegistry (r : Registry) : Registry :=
  MkRegistry (r_SchemaVersion r) (r_Name r) (r_Description r) ([] ++ r_Nodes r)
    (clone_signal <$> r_Signals r).

Definition bind_node (n : Node) (id : Z) (label : string) : Node :=
  MkNode (n_Role n) id (n_Family n) label.
Definition unverified (s : Signal) : Signal :=
  MkSignal (s_COBID s) (s_Name s) (s_Description s) (s_Producer s) (s_Consumers s) (s_RateMS s) false "".
Definition ExportPattern (r : Registry) : Registry :=
  let p := cloneRegistry r in
  MkRegistry (r_SchemaVersion p) (r_Name p) (r_Description p)
    ((λ n, bind_node n 0 "") <$> r_Nodes p) (unverified <$> r_Signals p).

Record Binding := MkBinding { b_Role : string; b_NodeID : Z; b_Label : string }.

Inductive bind_error : Type :=
  | BindingOutOfRange (role : string) (id : Z)
  | DuplicateBinding (role : string)
  | NodeBoundToBoth (id : Z) (prev role : string)
  | UnboundRoles (roles : list string)
  | UnknownRoles (roles : list string)
  | InstanceInvalid (errs : list problem).

Definition add_binding (byRole : gmap string Binding) (b : Binding) :
    result bind_error (gmap string Binding) :=
  if (b_NodeID b =? 0) || (127 <? b_NodeID b) then Err (BindingOutOfRange (b_Role b) (b_NodeID b))
  else if byRole !! b_Role b is Some _ then Err (DuplicateBinding (b_Role b))
  else Ok (<[b_Role b := b]> byRole).
Definition add_seen (seen : gmap Z string) (rb : string * Binding) : result bind_error (gmap Z string) :=
  match seen !! b_NodeID rb.2 with
  | Some prev => Err (NodeBoundToBoth (b_NodeID rb.2) prev rb.1)
  | None => Ok (<[b_NodeID rb.2 := rb.1]> seen)
  end.

(** The loop over the nodes: the bound nodes, the bindings unused, the roles that
    have none. *)
Fixpoint bind_nodes (byRole : gmap string Binding) (nodes : list Node) :
    list Node * gmap string Binding * list string :=
  match nodes with
  | [] => ([], byRole, [])
  | n :: ns =>
      match byRole !! n_Role n with
      | None => let '(ns', unused, missing) := bind_nodes byRole ns in (n :: ns', unused, n_Role n :: missing)
      | Some b =>
          let '(ns', unused, missing) := bind_nodes (delete (n_Role n) byRole) ns in
          (bind_node n (b_NodeID b) (b_Label b) :: ns', unused, missing)
      end
  end.

(** [sort.Strings]. *)
Definition string_le (a b : string) : Prop := String.leb a b = true.
Global Instance string_le_dec a b : Decision (string_le a b) := decide (String.leb a b = true).
Definition sort_strings (l : list string) : list string := merge_sort string_le l.

Section instantiate.
(** The order in which [range] visits a map, which Go leaves open. *)
Context (range : gmap string Binding → list (string * Binding)).

Definition Instantiate (pattern : Registry) (name : string) (bindings : list Binding) :
    result bind_error Registry :=
  byRole ← mfold add_binding ∅ bindings;
  _ ← mfold add_seen ∅ (range byRole);
  let out := cloneRegistry pattern in
  let out_Name := if bool_decide (name = ""%string) then r_Name out else name in
  let '(nodes, unused, missing) := bind_nodes byRole (r_Nodes out) in
  if (0 <? length missing)%nat then Err (UnboundRoles (sort_strings missing))
  else if (0 <? size unused)%nat then Err (UnknownRoles (sort_strings (range unused).*1))
  else
    let out := MkRegistry (r_SchemaVersion out) out_Name (r_Description out) nodes (r_Signals out) in
    match Validate out with
    | [] => Ok out
    | errs => Err (InstanceInvalid errs)
    end.
End instantiate.

(** ** Well-formed registries *)
Definition wf_mapping (m : list MapEntry) : Prop :=
  m ≠ [] ∧ Forall (λ e, m_Bits e ≠ 0) m ∧ foldr Z.add 0 (bitsOf m) ≤ 64.
Definition wf_consumer (roles : list string) (p : Producer) (c : Consumer) : Prop :=
  c_Role c ∈ roles ∧ 1 ≤ c_RPDO c ∧ wf_mapping (c_Mapping c) ∧ bitsOf (c_Mapping c) = bitsOf (p_Mapping p).
Definition wf_signal (roles : list string) (s : Signal) : Prop :=
  (p_Role (s_Producer s) ∈ roles ∧ 1 ≤ p_TPDO (s_Producer s) ∧ wf_mapping (p_Mapping (s_Producer s))) ∧
  Forall (wf_consumer roles (s_Producer s)) (s_Consumers s).

Definition bound_ids (nodes : list Node) : list Z := filter (λ id, id ≠ 0) (n_NodeID <$> nodes).

Record wf_nodes (nodes : list Node) : Prop := {
  roles_named : Forall (λ n, n_Role n ≠ ""%string) nodes;
  roles_distinct : NoDup (n_Role <$> nodes);
  ids_in_range : Forall (λ n, n_NodeID n ≤ 127) nodes;
  ids_distinct : NoDup (bound_ids nodes) }.
Record well_formed (r : Registry) : Prop := {
  nodes_wf : wf_nodes (r_Nodes r);
  signals_named : Forall (λ s, s_Name s ≠ ""%string) (r_Signals r);
  names_distinct : NoDup (s_Name <$> r_Signals r);
  cobs_distinct : NoDup (s_COBID <$> r_Signals r);
  signals_wf : Forall (wf_signal (n_Role <$> r_Nodes r)) (r_Signals r) }.

Lemma mapping_loop_spec i bits total es :
  match mapping_loop i bits total es with
  | Ok (bits', total') => Forall (λ e, m_Bits e ≠ 0) es ∧ bits' = bits ++ bitsOf es ∧
                          total' = total + foldr Z.add 0 (bitsOf es)
  | Err _ => ¬ Forall (λ e, m_Bits e ≠ 0) es
  end.
Proof.
  revert i bits total. induction es as [|e es IH]; intros i bits total; cbn [mapping_loop].
  - split; [done|]. split; [by rewrite app_nil_r|]. cbn. lia.
  - destruct (Z.eqb_spec (m_Bits e) 0) as [H0|H0]; [by inversion 1|].
    specialize (IH (S i) (bits ++ [m_Bits e]) (total + m_Bits e)).
    destruct mapping_loop as [[bits' total']|err]; [|by inversion 1].
    destruct IH as (Hf & -> & ->). split; [by constructor|]. split; [by rewrite <-app_assoc|].
    change (bitsOf (e :: es)) with (m_Bits e :: bitsOf es). cbn [foldr]. lia.
Qed.

Lemma mappingBits_spec es : mappingBits es = Ok (bitsOf es) ∧ wf_mapping es ∨
  (∃ e, mappingBits es = Err e) ∧ ¬ wf_mapping es.
Proof.
  destruct es as [|e es]; [right; split; [by eexists|by intros [? _]]|].
  unfold mappingBits. pose proof (mapping_loop_spec 0 [] 0 (e :: es)) as H.
  destruct (mapping_loop 0 [] 0 (e :: es)) as [[bits total]|err].
  - destruct H as (Hf & -> & ->). cbn [mbind result_bind]. unfold wf_mapping.
    destruct (Z.ltb_spec 64 (0 + foldr Z.add 0 (bitsOf (e :: es)))).
    + right. split; [by eexists|]. intros (_ & _ & ?). lia.
    + left. split; [done|]. split; [done|]. split; [done|lia].
  - right. split; [by eexists|]. by intros (_ & ? & _).
Qed.

Lemma slotLengthsMatch_true a b : slotLengthsMatch a b = true ↔ bitsOf a = bitsOf b.
Proof.
  revert b. induction a as [|x a IH]; intros [|y b]; try done. cbn [slotLengthsMatch bitsOf fmap list_fmap].
  rewrite andb_true_iff, Z.eqb_eq, IH. unfold bitsOf. split; [by intros [-> ->]|by intros [= -> ->]].
Qed.

(** A problem is reported or not. *)
Lemma report_bool {A} (b : bool) (x : A) : (if b then [x] else []) = [] ↔ b = false.
Proof. by destruct b. Qed.
Lemma report_found {A B} (o : option B) (x : A) : (if o is Some _ then [x] else []) = [] ↔ o = None.
Proof. by destruct o. Qed.
Lemma report_missing {A B} (o : option B) (x : A) : (if o is Some _ then [] else [x]) = [] ↔ is_Some o.
Proof. destruct o; split; [by eexists|done|done|by intros [? ?]]. Qed.

(** The tables of the loops, as the sets of their keys. *)
Lemma validate_roles_spec i roles ns : let '(errs, roles') := validate_roles i roles ns in
  (errs = [] ↔ Forall (λ n, n_Role n ≠ ""%string) ns ∧ NoDup (n_Role <$> ns) ∧
     Forall (λ n, n_NodeID n ≤ 127) ns ∧ Forall (λ n, roles !! n_Role n = None) ns) ∧
  (errs = [] → ∀ r, is_Some (roles' !! r) ↔ is_Some (roles !! r) ∨ r ∈ n_Role <$> ns).
Proof.
  revert i roles. induction ns as [|n ns IH]; intros i roles; cbn [validate_roles].
  - split; [by repeat split; constructor|]. intros _ r. cbn. rewrite elem_of_nil. tauto.
  - destruct (bool_decide_reflect (n_Role n = ""%string)) as [Hn|Hn].
    { specialize (IH (S i) roles). destruct validate_roles as [errs roles'].
      split; [|done]. split; [done|]. intros (H & _). by inversion H. }
    specialize (IH (S i) (<[n_Role n:=n]> roles)). destruct validate_roles as [errs roles'].
    destruct IH as [IH1 IH2]. split.
    + rewrite !app_nil, IH1, fmap_cons, NoDup_cons, !Forall_cons, list_elem_of_fmap.
      assert (Hfresh : Forall (λ m, <[n_Role n:=n]> roles !! n_Role m = None) ns ↔
        ¬ (∃ y, n_Role n = n_Role y ∧ y ∈ ns) ∧ Forall (λ m, roles !! n_Role m = None) ns).
      { rewrite !Forall_forall. split.
        - intros H. split.
          + intros (y & Hy & Hin). specialize (H y Hin). by rewrite <-Hy, lookup_insert_eq in H.
          + intros m Hm. specialize (H m Hm). by apply lookup_insert_None in H as [? _].
        - intros [H1 H2] m Hm. apply lookup_insert_None. split; [by apply H2|]. intros He. apply H1. by exists m. }
      rewrite Hfresh, report_found, report_bool, Z.ltb_ge. tauto.
    + rewrite !app_nil. intros (_ & _ & He) r. rewrite (IH2 He r), fmap_cons, elem_of_cons.
      destruct (decide (r = n_Role n)) as [->|Hne].
      * rewrite lookup_insert_eq. split; [by auto|]. intros _. left. by eexists.
      * rewrite lookup_insert_ne by congruence. tauto.
Qed.

Lemma validate_ids_spec ids ns : validate_ids ids ns = [] ↔
  NoDup (bound_ids ns) ∧ Forall (λ id, ids !! id = None) (bound_ids ns).
Proof.
  revert ids. induction ns as [|n ns IH]; intros ids; cbn [validate_ids].
  - by split; [repeat constructor|].
  - unfold bound_ids in *. rewrite fmap_cons, filter_cons. destruct (Z.eqb_spec (n_NodeID n) 0) as [H0|H0].
    + rewrite decide_False by (by intros ?). apply IH.
    + rewrite decide_True by done. rewrite app_nil, IH, NoDup_cons, Forall_cons, !Forall_forall.
      destruct (ids !! n_NodeID n) as [prev|] eqn:Hp; [by split; [intros [? _]|intros (_ & [=] & _)]|].
      split.
      * intros (_ & Hnd & Hf). split; [split; [|done]|split; [done|]].
        -- intros Hin. specialize (Hf _ Hin). by rewrite lookup_insert_eq in Hf.
        -- intros id Hid. specialize (Hf id Hid). by apply lookup_insert_None in Hf as [? _].
      * intros ((Hin & Hnd) & _ & Hf). split; [done|]. split; [done|]. intros id Hid.
        apply lookup_insert_None. split; [by apply Hf|]. by intros <-.
Qed.

Section signals.
Context (table : gmap string Node) (roles : list string).
Hypothesis table_roles : ∀ r, is_Some (table !! r) ↔ r ∈ roles.

Lemma validate_producer_spec i sig : validate_producer table i sig = [] ↔
  p_Role (s_Producer sig) ∈ roles ∧ 1 ≤ p_TPDO (s_Producer sig) ∧ wf_mapping (p_Mapping (s_Producer sig)).
Proof using table_roles.
  unfold validate_producer. rewrite !app_nil, report_missing, report_bool, Z.ltb_ge, table_roles.
  destruct (mappingBits_spec (p_Mapping (s_Producer sig))) as [[-> Hw]|[[e ->] Hw]]; [tauto|].
  split; [by intros (_ & _ & [=])|tauto].
Qed.

Lemma validate_consumer_spec i sig j c : wf_mapping (p_Mapping (s_Producer sig)) →
  validate_consumer table i sig j c = [] ↔ wf_consumer roles (s_Producer sig) c.
Proof using table_roles.
  intros Hp. unfold validate_consumer, wf_consumer.
  rewrite !app_nil, report_missing, report_bool, Z.ltb_ge, table_roles.
  destruct (mappingBits_spec (p_Mapping (s_Producer sig))) as [[-> _]|[_ ?]]; [|done].
  destruct (mappingBits_spec (c_Mapping c)) as [[-> Hw]|[[e ->] Hw]]; cbn [is_Ok andb];
    [|by split; [intros (_ & _ & [=])|tauto]].
  pose proof (slotLengthsMatch_true (p_Mapping (s_Producer sig)) (c_Mapping c)) as Hs.
  rewrite report_bool, negb_false_iff, Hs. split; [intros (? & ? & ->)|intros (? & ? & ? & ->)]; done.
Qed.

Lemma validate_consumers_spec i sig j cs : wf_mapping (p_Mapping (s_Producer sig)) →
  validate_consumers table i sig j cs = [] ↔ Forall (wf_consumer roles (s_Producer sig)) cs.
Proof using table_roles.
  intros Hp. revert j. induction cs as [|c cs IH]; intros j; cbn [validate_consumers]; [by split|].
  by rewrite app_nil, Forall_cons, IH, validate_consumer_spec.
Qed.

Lemma validate_signal_spec i sig :
  validate_producer table i sig ++ validate_consumers table i sig 0 (s_Consumers sig) = [] ↔
  wf_signal roles sig.
Proof using table_roles.
  unfold wf_signal. rewrite app_nil, validate_producer_spec. split.
  - intros [(? & ? & Hw) Hc]. rewrite validate_consumers_spec in Hc by done. tauto.
  - intros [(? & ? & Hw) Hc]. split; [done|]. by apply validate_consumers_spec.
Qed.

Lemma insert_fresh `{Countable K} {A} (m : gmap K A) k v (ks : list K) :
  k ∉ ks → (Forall (λ k', <[k := v]> m !! k' = None) ks ↔ Forall (λ k', m !! k' = None) ks).
Proof using.
  intros Hk. rewrite !Forall_forall. split; intros Hf k' Hk'; specialize (Hf k' Hk').
  - by apply lookup_insert_None in Hf as [? _].
  - apply lookup_insert_None. split; [done|]. by intros ->.
Qed.

Lemma insert_fresh_notin `{Countable K} {A} (m : gmap K A) k v (ks : list K) :
  Forall (λ k', <[k := v]> m !! k' = None) ks → k ∉ ks.
Proof using.
  intros Hf Hk. rewrite Forall_forall in Hf. specialize (Hf k Hk). by rewrite lookup_insert_eq in Hf.
Qed.

Lemma validate_signals_spec i cobs names sigs : validate_signals table i cobs names sigs = [] ↔
  Forall (λ s, s_Name s ≠ ""%string) sigs ∧
  (NoDup (s_Name <$> sigs) ∧ Forall (λ n, n ∉ names) (s_Name <$> sigs)) ∧
  (NoDup (s_COBID <$> sigs) ∧ Forall (λ c, cobs !! c = None) (s_COBID <$> sigs)) ∧
  Forall (wf_signal roles) sigs.
Proof using table_roles.
  revert i cobs names. induction sigs as [|sig sigs IH]; intros i cobs names; cbn [validate_signals].
  { split; [intros _|done]. repeat split; constructor. }
  rewrite (app_assoc (validate_producer _ _ _)), !app_nil, <-app_nil, validate_signal_spec, IH,
    !fmap_cons, !NoDup_cons, !Forall_cons.
  destruct (bool_decide_reflect (s_Name sig = ""%string)) as [Hn|Hn]; [split; [by intros [[=] _]|tauto]|].
  destruct (bool_decide_reflect (s_Name sig ∈ names)) as [Hin|Hin]; [split; [by intros [[=] _]|tauto]|].
  destruct (cobs !! s_COBID sig) as [prev|] eqn:Hc; [split; [by intros (_ & [=] & _)|by intros (_ & _ & (_ & [=] & _) & _)]|].
  assert (Hname : Forall (λ n, n ∉ {[s_Name sig]} ∪ names) (s_Name <$> sigs) ↔
    (s_Name sig ∉ s_Name <$> sigs) ∧ Forall (λ n, n ∉ names) (s_Name <$> sigs)).
  { rewrite !Forall_forall. split.
    - intros Hf. split; [intros Hi; apply (Hf _ Hi), elem_of_union_l, elem_of_singleton_2; done|].
      intros n Hi Hu. apply (Hf n Hi). by apply elem_of_union_r.
    - intros [H1 H2] n Hi Hu. apply elem_of_union in Hu as [->%elem_of_singleton|Hu]; [done|by apply (H2 n)]. }
  rewrite Hname. split.
  - intros (_ & _ & Hw & ? & ? & [? Hf] & ?). pose proof (insert_fresh_notin _ _ _ _ Hf) as Hnin.
    rewrite insert_fresh in Hf by done. tauto.
  - intros (? & ? & [[Hnin ?] [_ ?]] & ?). rewrite insert_fresh by done. tauto.
Qed.
End signals.

Lemma Validate_well_formed r : Validate r = [] ↔ well_formed r.
Proof.
  unfold Validate. pose proof (validate_roles_spec 0 ∅ (r_Nodes r)) as Hr.
  destruct (validate_roles 0 ∅ (r_Nodes r)) as [errs table]. destruct Hr as [He Ht].
  assert (Htable : errs = [] → ∀ role, is_Some (table !! role) ↔ role ∈ n_Role <$> r_Nodes r).
  { intros E role. rewrite (Ht E role), lookup_empty. split; [intros [[? [=]]|]; done|by right]. }
  assert (Hno : ∀ {A} (l : list A) {K B} `{Countable K} (f : A → K), Forall (λ a, (∅ : gmap K B) !! f a = None) l)
    by (intros; apply Forall_forall; intros; apply lookup_empty).
  rewrite !app_nil, validate_ids_spec. split.
  - intros (E & [Hids _] & Hs). rewrite (validate_signals_spec _ _ (Htable E)) in Hs.
    apply He in E as (? & ? & ? & _). destruct Hs as (? & [? _] & [? _] & ?). by repeat split.
  - intros [[H1 H2 H3 H4] ? ? ? ?]. assert (E : errs = []) by (apply He; auto).
    rewrite (validate_signals_spec _ _ (Htable E)). repeat split; try done; (try apply (Hno _ _ _ _ _ _ _ id)).
    apply Forall_forall. intros n _. apply not_elem_of_empty.
Qed.

(** ** Patterns and their instances *)
Lemma cloneRegistry_eq r : cloneRegistry r = r.
Proof.
  destruct r as [v n d ns ss]. unfold cloneRegistry. cbn -[fmap]. f_equal.
  induction ss as [|[c nm ds [pr pt pm] cs rm sv vf] ss IH]; [done|].
  rewrite fmap_cons, IH. f_equal. unfold clone_signal. cbn -[fmap]. f_equal.
  induction cs as [|[cr cp cm cw] cs IHc]; [done|]. by rewrite fmap_cons, IHc.
Qed.

Definition binding_table (bs : list Binding) : gmap string Binding :=
  list_to_map ((λ b, (b_Role b, b)) <$> bs).
Definition instance_node (table : gmap string Binding) (n : Node) : Node :=
  match table !! n_Role n with Some b => bind_node n (b_NodeID b) (b_Label b) | None => n end.
Definition instance (pattern : Registry) (name : string) (bs : list Binding) : Registry :=
  MkRegistry (r_SchemaVersion pattern)
    (if bool_decide (name = ""%string) then r_Name pattern else name) (r_Description pattern)
    (instance_node (binding_table bs) <$> r_Nodes pattern) (r_Signals pattern).

Record valid_bindings (roles : list string) (bs : list Binding) : Prop := {
  bindings_in_range : Forall (λ b, b_NodeID b ≠ 0 ∧ b_NodeID b ≤ 127) bs;
  bindings_distinct : NoDup (b_NodeID <$> bs);
  bindings_roles : (b_Role <$> bs) ≡ₚ roles;
  pattern_roles : NoDup roles }.

Lemma add_bindings_spec m bs m' : mfold add_binding m bs = Ok m' ↔
  Forall (λ b, b_NodeID b ≠ 0 ∧ b_NodeID b ≤ 127) bs ∧ NoDup (b_Role <$> bs) ∧
  Forall (λ r, m !! r = None) (b_Role <$> bs) ∧ m' = binding_table bs ∪ m.
Proof.
  revert m. induction bs as [|b bs IH]; intros m; cbn [mfold].
  { rewrite (map_empty_union m : binding_table [] ∪ m = m). split; [intros [= <-]|by intros (_ & _ & _ & ->)].
    repeat split; constructor. }
  rewrite Forall_cons, fmap_cons, NoDup_cons, Forall_cons. unfold add_binding at 2.
  destruct ((b_NodeID b =? 0) || (127 <? b_NodeID b)) eqn:Hr.
  { apply orb_true_iff in Hr as [H0%Z.eqb_eq|H0%Z.ltb_lt]; (split; [intros [=]|]); intros [[[? ?] _] _]; lia. }
  apply orb_false_iff in Hr as [H0%Z.eqb_neq H1%Z.ltb_ge].
  destruct (m !! b_Role b) as [?|] eqn:Hm; [split; [intros [=]|by intros (_ & _ & [[=] _] & _)]|].
  cbn [mbind result_bind]. rewrite IH. change (binding_table (b :: bs)) with (<[b_Role b := b]> (binding_table bs)).
  rewrite <-insert_union_l. split.
  - intros (? & ? & Hf & ->). pose proof (insert_fresh_notin _ _ _ _ Hf) as Hn.
    rewrite insert_fresh in Hf by done. split; [done|]. split; [done|]. split; [done|].
    symmetry. apply insert_union_r. apply not_elem_of_list_to_map_1. by rewrite <-list_fmap_compose.
  - intros ([_ ?] & [Hn ?] & [_ ?] & ->). rewrite insert_fresh by done. split; [done|]. split; [done|]. split; [done|].
    apply insert_union_r. apply not_elem_of_list_to_map_1. by rewrite <-list_fmap_compose.
Qed.

Lemma add_seen_spec seen l : is_Ok (mfold add_seen seen l) = true ↔
  NoDup (b_NodeID <$> l.*2) ∧ Forall (λ id, seen !! id = None) (b_NodeID <$> l.*2).
Proof.
  revert seen. induction l as [|[r b] l IH]; intros seen; cbn [mfold]; [split; [|done]; by repeat constructor|].
  rewrite !fmap_cons, NoDup_cons, Forall_cons. cbn [snd]. unfold add_seen at 2. cbn [fst snd].
  destruct (seen !! b_NodeID b) as [?|] eqn:Hs; [by split; [intros [=]|intros [_ [[=] _]]]|].
  cbn [mbind result_bind]. rewrite IH. split.
  - intros [? Hf]. pose proof (insert_fresh_notin _ _ _ _ Hf). rewrite insert_fresh in Hf by done. tauto.
  - intros [[? ?] [_ ?]]. by rewrite insert_fresh.
Qed.

Lemma bind_nodes_spec m ns : let '(ns', unused, missing) := bind_nodes m ns in
  (missing = [] ↔ NoDup (n_Role <$> ns) ∧ Forall (λ r, is_Some (m !! r)) (n_Role <$> ns)) ∧
  (missing = [] → ns' = instance_node m <$> ns ∧ unused = foldr delete m (n_Role <$> ns)).
Proof.
  revert m. induction ns as [|n ns IH]; intros m; cbn [bind_nodes].
  { split; [|done]. split; [repeat constructor|done]. }
  destruct (m !! n_Role n) as [b|] eqn:Hm.
  - specialize (IH (delete (n_Role n) m)). destruct bind_nodes as [[ns' unused] missing].
    destruct IH as [IH1 IH2]. rewrite !fmap_cons, NoDup_cons, Forall_cons, Hm.
    assert (Hn : instance_node m n = bind_node n (b_NodeID b) (b_Label b)) by (unfold instance_node; by rewrite Hm).
    rewrite Hn. clear Hn.
    assert (Hsome : Forall (λ r, is_Some (delete (n_Role n) m !! r)) (n_Role <$> ns) ↔
      (n_Role n ∉ n_Role <$> ns) ∧ Forall (λ r, is_Some (m !! r)) (n_Role <$> ns)).
    { rewrite !Forall_forall. split.
      - intros Hf. split.
        + intros Hi. specialize (Hf _ Hi). rewrite lookup_delete_eq in Hf. by destruct Hf.
        + intros r Hi. destruct (Hf r Hi) as [v Hv]. apply lookup_delete_Some in Hv as [_ ?]. by eexists.
      - intros [Hn Hf] r Hi. rewrite lookup_delete_ne; [by apply Hf|]. by intros <-. }
    rewrite IH1, Hsome. split; [split; [intros (? & ? & ?)|intros ((? & ?) & _ & ?)]; done|].
    intros (Hnd & Hn & Hf). destruct (IH2 (proj2 IH1 (conj Hnd (proj2 Hsome (conj Hn Hf))))) as [-> ->].
    split.
    + f_equal. apply list_fmap_ext. intros i x Hx. unfold instance_node. rewrite lookup_delete_ne; [done|].
      intros He. apply Hn. rewrite He. apply list_elem_of_fmap. exists x. split; [done|]. by eapply list_elem_of_lookup_2.
    + clear. induction (n_Role <$> ns) as [|r rs IHr]; [done|]. cbn [foldr]. by rewrite IHr, delete_delete.
  - destruct (bind_nodes m ns) as [[ns' unused] missing]. split; [|done].
    rewrite !fmap_cons, NoDup_cons, Forall_cons, Hm. split; [done|]. by intros (_ & [? [=]] & _).
Qed.

Lemma table_pairs bs : ((λ b, (b_Role b, b)) <$> bs).*1 = b_Role <$> bs ∧ ((λ b, (b_Role b, b)) <$> bs).*2 = bs.
Proof. rewrite <-!list_fmap_compose. split; [done|apply list_fmap_id]. Qed.

Lemma table_lookup bs r b : NoDup (b_Role <$> bs) →
  binding_table bs !! r = Some b ↔ b ∈ bs ∧ b_Role b = r.
Proof.
  intros Hnd. unfold binding_table. rewrite <-elem_of_list_to_map by (by rewrite (proj1 (table_pairs bs))).
  rewrite list_elem_of_fmap. split; [by intros (b' & [= -> ->] & ?)|by intros [? <-]; exists b].
Qed.

Lemma table_dom bs r : is_Some (binding_table bs !! r) ↔ r ∈ b_Role <$> bs.
Proof.
  unfold binding_table. rewrite <-(proj1 (table_pairs bs)), <-not_eq_None_Some, <-not_elem_of_list_to_map.
  split; [apply dec_stable|auto].
Qed.

Lemma foldr_delete_None (m : gmap string Binding) ks k : foldr delete m ks !! k = None ↔ k ∈ ks ∨ m !! k = None.
Proof.
  induction ks as [|k' ks IH]; cbn [foldr]; [rewrite elem_of_nil; tauto|].
  rewrite elem_of_cons. destruct (decide (k = k')) as [->|Hne].
  - rewrite lookup_delete_eq. tauto.
  - rewrite lookup_delete_ne by congruence. tauto.
Qed.

(** A list of distinct roles is bound by exactly its bindings. *)
Lemma bound_exactly bs roles : NoDup (b_Role <$> bs) → NoDup roles →
  Forall (λ r, is_Some (binding_table bs !! r)) roles ∧ foldr delete (binding_table bs) roles = ∅ ↔
  (b_Role <$> bs) ≡ₚ roles.
Proof.
  intros Hb Hr. rewrite Forall_forall. split.
  - intros [Hs He]. apply NoDup_Permutation; [done..|]. intros r. rewrite <-table_dom. split; [|by auto].
    intros [b Hbr]. assert (Hl : foldr delete (binding_table bs) roles !! r = None) by (by rewrite He).
    apply foldr_delete_None in Hl as [?|Hl]; [done|]. by rewrite Hbr in Hl.
  - intros Hp. split; [intros r; by rewrite table_dom, Hp|].
    apply map_empty. intros r. apply foldr_delete_None. destruct (decide (r ∈ roles)) as [?|Hn]; [by left|right].
    apply eq_None_not_Some. by rewrite table_dom, Hp.
Qed.

Section instantiate_spec.
Context (range : gmap string Binding → list (string * Binding)).
Hypothesis range_visits : ∀ m, range m ≡ₚ map_to_list m.

Lemma range_ids bs : NoDup (b_Role <$> bs) →
  (b_NodeID <$> (range (binding_table bs)).*2) ≡ₚ (b_NodeID <$> bs).
Proof using range_visits.
  intros Hnd. destruct (table_pairs bs) as [H1 H2]. apply fmap_Permutation.
  rewrite range_visits. rewrite <-H2 at 2. apply fmap_Permutation. unfold binding_table.
  apply map_to_list_to_map. by rewrite H1.
Qed.

Lemma Instantiate_Ok pattern name bs out : Instantiate range pattern name bs = Ok out ↔
  valid_bindings (n_Role <$> r_Nodes pattern) bs ∧ well_formed out ∧ out = instance pattern name bs.
Proof using range_visits.
  unfold Instantiate. rewrite cloneRegistry_eq.
  pose proof (add_bindings_spec ∅ bs) as Hadd. destruct (mfold add_binding ∅ bs) as [table|e]; cbn [mbind result_bind].
  2:{ split; [intros [=]|]. intros ([H1 H2 H3 H4] & _). specialize (Hadd (binding_table bs ∪ ∅)).
      assert (Err e = Ok (binding_table bs ∪ ∅)); [|congruence]. apply Hadd. split; [done|].
      split; [by rewrite H3|]. split; [|done]. apply Forall_forall. intros. apply lookup_empty. }
  destruct (proj1 (Hadd table) eq_refl) as (Hrange & Hroles & _ & Ht). clear Hadd.
  rewrite (map_union_empty (binding_table bs)) in Ht. subst table.
  pose proof (add_seen_spec ∅ (range (binding_table bs))) as Hseen.
  assert (He : Forall (λ id, (∅ : gmap Z string) !! id = None) (b_NodeID <$> (range (binding_table bs)).*2))
    by (apply Forall_forall; intros; apply lookup_empty).
  rewrite (range_ids bs Hroles) in Hseen, He.
  destruct (mfold add_seen ∅ (range (binding_table bs))) as [seen|e]; cbn [mbind result_bind is_Ok] in *.
  2:{ split; [intros [=]|]. intros ([H1 H2 H3 H4] & _). by assert (false = true) by (by apply Hseen). }
  assert (Hids : NoDup (b_NodeID <$> bs)) by (by apply Hseen).
  pose proof (bind_nodes_spec (binding_table bs) (r_Nodes pattern)) as Hbind.
  destruct (bind_nodes (binding_table bs) (r_Nodes pattern)) as [[nodes unused] missing].
  destruct Hbind as [Hm1 Hm2]. destruct missing as [|m missing]; cbn -[Validate fmap foldr].
  2:{ split; [intros [=]|]. intros ([_ _ H3 H4] & _). assert (m :: missing = []); [|done].
      apply Hm1. split; [done|]. by apply bound_exactly. }
  destruct (Hm2 eq_refl) as [-> ->]. apply proj1 in Hm1. destruct (Hm1 eq_refl) as [Hnd Hsome]. clear Hm1 Hm2.
  destruct (size (foldr delete (binding_table bs) (n_Role <$> r_Nodes pattern))) as [|k] eqn:Hs; swap 1 2.
  { split; [intros [=]|]. intros ([_ _ H3 H4] & _). apply bound_exactly in H3 as [_ H3]; [|done..].
    by rewrite H3, map_size_empty in Hs. }
  assert (Hp : (b_Role <$> bs) ≡ₚ (n_Role <$> r_Nodes pattern)).
  { apply bound_exactly; [done..|]. split; [done|]. by apply map_size_empty_iff. }
  fold (instance pattern name bs). pose proof (Validate_well_formed (instance pattern name bs)) as Hv.
  destruct (Validate (instance pattern name bs)) as [|p ps].
  - split; [intros [= <-]|by intros (_ & _ & ->)]. split; [done|]. split; [by apply Hv|done].
  - split; [intros [=]|]. intros (_ & Hw & ->). by apply Hv in Hw.
Qed.

(** Valid bindings make a well-formed registry of a well-formed pattern. *)
Lemma instance_roles bs (nodes : list Node) : n_Role <$> (instance_node (binding_table bs) <$> nodes) = n_Role <$> nodes.
Proof using.
  rewrite <-list_fmap_compose. apply list_fmap_ext. intros i n _. unfold compose, instance_node.
  by destruct (binding_table bs !! n_Role n).
Qed.

Definition id_of (bs : list Binding) (role : string) : Z :=
  match binding_table bs !! role with Some b => b_NodeID b | None => 0 end.

Lemma instance_ids bs (nodes : list Node) : valid_bindings (n_Role <$> nodes) bs →
  (n_NodeID <$> (instance_node (binding_table bs) <$> nodes)) ≡ₚ (b_NodeID <$> bs).
Proof using.
  intros [_ _ Hp Hnd]. assert (Hb : NoDup (b_Role <$> bs)) by (by rewrite Hp).
  transitivity (id_of bs <$> (n_Role <$> nodes)).
  - rewrite <-!list_fmap_compose. apply reflexive_eq, list_fmap_ext. intros i n Hn.
    unfold compose, instance_node, id_of. assert (Hs : is_Some (binding_table bs !! n_Role n)).
    { apply table_dom. rewrite Hp. apply list_elem_of_fmap. exists n. split; [done|]. by eapply list_elem_of_lookup_2. }
    by destruct Hs as [b ->].
  - rewrite <-Hp, <-list_fmap_compose. apply reflexive_eq, list_fmap_ext. intros i b Hi.
    unfold compose, id_of. assert (Hl : binding_table bs !! b_Role b = Some b).
    { apply table_lookup; [done|]. split; [by eapply list_elem_of_lookup_2|done]. }
    by rewrite Hl.
Qed.

Lemma instance_well_formed pattern name bs : well_formed pattern →
  valid_bindings (n_Role <$> r_Nodes pattern) bs → well_formed (instance pattern name bs).
Proof using.
  intros [[H1 H2 H3 H4] ? ? ? Hs] Hv. pose proof (instance_ids bs _ Hv) as Hids.
  destruct Hv as [Hr Hd Hp Hnd]. split; try done; [|by cbn [instance r_Nodes r_Signals]; rewrite instance_roles].
  split; cbn [instance r_Nodes].
  - rewrite <-(Forall_fmap n_Role (λ r, r ≠ ""%string)), instance_roles, Forall_fmap. done.
  - by rewrite instance_roles.
  - rewrite <-(Forall_fmap n_NodeID (λ id, id ≤ 127)), Hids, Forall_fmap. by eapply Forall_impl; [done|]; intros b [].
  - unfold bound_ids. by rewrite Hids; apply NoDup_filter.
Qed.
End instantiate_spec.

(** ** Hexadecimal fields and mapping entries *)
Lemma hex_digits_enough fuel z : (0 < fuel)%nat → 0 ≤ z < 16 ^ Z.of_nat fuel →
  (0 < length (hex_digits fuel z) ≤ fuel)%nat ∧ z < 16 ^ Z.of_nat (length (hex_digits fuel z)).
Proof.
  revert z. induction fuel as [|f IH]; intros z Hf Hz; [lia|]. cbn [hex_digits].
  destruct (Z.ltb_spec z 16); [by change (16 ^ Z.of_nat (length [hex_char z])) with 16; simpl; lia|].
  destruct f as [|f]; [change (16 ^ Z.of_nat 1) with 16 in Hz; lia|].
  rewrite pow16_succ in Hz. rewrite length_app, Nat.add_1_r, pow16_succ.
  destruct (IH (z / 16)) as [? ?]; [lia|split; [apply Z.div_pos; lia|apply Z.div_lt_upper_bound; lia]|].
  split; [lia|]. pose proof (Z.div_mod z 16 ltac:(lia)). pose proof (Z.mod_pos_bound z 16 ltac:(lia)). lia.
Qed.

Lemma fmtX_plain h : 0 ≤ h < 2 ^ 64 → ∃ n, (0 < n)%nat ∧ h < 16 ^ Z.of_nat n ∧ fmtX 0 h = hex_fix n h.
Proof.
  intros Hh. destruct (hex_digits_enough 16 h) as [Hn Hlt]; [lia|done|].
  exists (length (hex_digits 16 h)). split; [lia|]. split; [done|].
  unfold fmtX. destruct (Z.ltb_spec h 0); [lia|]. unfold pad0 at 1.
  rewrite <-(pad0_hex_digits 16 _ h) by lia. unfold pad0. by rewrite Nat.sub_diag.
Qed.

Lemma hex_char_not_space d : 0 ≤ d < 16 → is_space (hex_char d) = false.
Proof.
  intros Hd. pose proof (range_check (λ d, negb (is_space (hex_char d))) 16 eq_refl d Hd) as H.
  by apply negb_true_iff in H.
Qed.

Lemma parseHex_field n h bits : (0 < n)%nat → 0 ≤ h < 16 ^ Z.of_nat n → h < 2 ^ bits →
  parseHex (str "0x" ++ hex_fix n h) bits = Ok h.
Proof.
  intros Hn Hh Hb. destruct n as [|n]; [lia|]. unfold parseHex.
  pose proof (ParseUint_hex_fix (S n) bits h Hn Hh Hb) as Hp. cbn [hex_fix] in *.
  change (str "0x") with (["0"%byte] ++ ["x"%byte]) at 1. rewrite <-app_assoc.
  cbn [app]. rewrite (app_comm_cons _ _ "x"%byte), TrimSpace_keep; [|done|by apply hex_char_not_space, Z.mod_pos_bound].
  change ("0"%byte :: ("x"%byte :: hex_fix n (h / 16)) ++ [hex_char (h mod 16)])
    with (str "0x" ++ (hex_fix n (h / 16) ++ [hex_char (h mod 16)])).
  unfold TrimPrefix. rewrite HasPrefix_app, drop_app_length. by rewrite Hp.
Qed.

Lemma hex_fields_roundtrip h :
  (0 ≤ h < 2 ^ 16 → unmarshalHex (MarshalHex16 h) 16 = Ok h) ∧
  (0 ≤ h < 2 ^ 32 → unmarshalHex (MarshalHex32 h) 32 = Ok h).
Proof.
  split; intros Hh; cbn [unmarshalHex MarshalHex16 MarshalHex32].
  - rewrite fmtX_fix by (simpl; lia). apply parseHex_field; [lia|simpl; lia|lia].
  - destruct (fmtX_plain h) as (n & Hn & Hlt & ->); [lia|]. apply parseHex_field; lia.
Qed.

(** The values the entry's Go types allow. *)
Definition map_entry_typed (m : MapEntry) : Prop :=
  0 ≤ m_Index m < 2 ^ 16 ∧ 0 ≤ m_SubIndex m < 2 ^ 8 ∧ 0 ≤ m_Bits m < 2 ^ 8.

Lemma lor_low n a b : 0 ≤ n → 0 ≤ a < 2 ^ n → Z.lor (b * 2 ^ n) a = b * 2 ^ n + a.
Proof.
  intros Hn Ha. assert (Hl : Z.land (b * 2 ^ n) a = 0).
  { apply Z.bits_inj'. intros i Hi. rewrite Z.land_spec, Z.bits_0. destruct (Z.ltb_spec i n).
    - by rewrite Z.mul_pow2_bits_low.
    - rewrite <-(Z.mod_small a (2 ^ n)), Z.mod_pow2_bits_high, andb_false_r by lia. done. }
  by rewrite <-Z.lxor_lor, Z.add_nocarry_lxor.
Qed.

Lemma Raw_value m : map_entry_typed m →
  Raw m = (m_Index m * 2 ^ 8 + m_SubIndex m) * 2 ^ 8 + m_Bits m.
Proof.
  intros (Hi & Hs & Hb). unfold Raw, u32. rewrite !Z.shiftl_mul_pow2 by lia. rewrite !Z.mod_small by lia.
  rewrite (lor_low 16) by lia.
  replace (m_Index m * 2 ^ 16 + m_SubIndex m * 2 ^ 8) with ((m_Index m * 2 ^ 8 + m_SubIndex m) * 2 ^ 8) by lia.
  by rewrite lor_low by lia.
Qed.

Lemma Raw_range m : map_entry_typed m → 0 ≤ Raw m < 2 ^ 32.
Proof. intros Hm. rewrite Raw_value by done. destruct Hm as (? & ? & ?). lia. Qed.

Lemma Decode_Raw m : map_entry_typed m →
  DecodeMapEntry (Raw m) = MkMapEntry (m_Index m) (m_SubIndex m) (m_Bits m) "".
Proof.
  intros Hm. rewrite Raw_value by done. destruct Hm as (Hi & Hs & Hb).
  unfold DecodeMapEntry, u16, u8. rewrite !Z.shiftr_div_pow2 by lia.
  f_equal; zdiv.
Qed.

Lemma Raw_Decode raw : 0 ≤ raw < 2 ^ 32 → Raw (DecodeMapEntry raw) = raw ∧ map_entry_typed (DecodeMapEntry raw).
Proof.
  intros Hr. assert (Ht : map_entry_typed (DecodeMapEntry raw)) by (split; [|split]; apply Z.mod_pos_bound; lia).
  split; [|done]. rewrite Raw_value by done. cbn [DecodeMapEntry m_Index m_SubIndex m_Bits].
  unfold u16, u8. rewrite !Z.shiftr_div_pow2 by lia. zdiv.
Qed.

(** ** Properties *)

(** Loading accepts exactly the well-formed registries. A document is accepted
    if and only if it decodes to a registry of the known schema whose roles are
    named and distinct, whose bound node numbers are at most 127 and distinct, whose
    signal names and COB-IDs are distinct, and whose signals connect known roles
    through one-based PDOs whose mappings are not empty, have no empty slot, fit
    64 bits, and agree slot by slot between producer and consumers; it is returned
    unchanged. *)
Theorem ParseRegistry_accepts doc r : ParseRegistry doc = Ok r ↔
  doc = Ok r ∧ r_SchemaVersion r = SchemaVersion ∧ well_formed r.
Proof.
  destruct doc as [r'|e]; cbn [ParseRegistry]; [|by split; [|intros [[=] _]]].
  pose proof (Validate_well_formed r') as Hv.
  destruct (Z.eqb_spec (r_SchemaVersion r') SchemaVersion) as [Hs|Hs]; cbn [negb].
  - destruct (Validate r') as [|p ps].
    + split; [intros [= <-]|by intros ([= ->] & _)]. split; [done|]. split; [done|by apply Hv].
    + split; [done|]. intros ([= ->] & _ & Hw). by apply Hv in Hw.
  - split; [done|]. by intros ([= ->] & ? & _).
Qed.

Lemma export_nodes r : r_Nodes (ExportPattern r) = (λ n, bind_node n 0 "") <$> r_Nodes r.
Proof. unfold ExportPattern. by rewrite cloneRegistry_eq. Qed.

Lemma export_roles r : n_Role <$> r_Nodes (ExportPattern r) = n_Role <$> r_Nodes r.
Proof. rewrite export_nodes, <-list_fmap_compose. done. Qed.

Lemma ExportPattern_well_formed r : well_formed r → well_formed (ExportPattern r).
Proof.
  intros [[H1 H2 H3 H4] Hn Hnd Hc Hs]. unfold ExportPattern. rewrite cloneRegistry_eq.
  assert (Hroles : n_Role <$> ((λ n, bind_node n 0 "") <$> r_Nodes r) = n_Role <$> r_Nodes r)
    by (by rewrite <-list_fmap_compose).
  split; cbn [r_Nodes r_Signals]; rewrite ?Hroles; try done.
  - split; rewrite ?Hroles; try done.
    + by apply Forall_fmap.
    + apply Forall_fmap, Forall_forall. intros n _. cbn. lia.
    + unfold bound_ids. rewrite <-list_fmap_compose.
      replace (filter _ _) with (@nil Z); [constructor|]. clear. by induction (r_Nodes r).
  - by apply Forall_fmap.
  - by rewrite <-list_fmap_compose.
  - by rewrite <-list_fmap_compose.
  - by apply Forall_fmap.
Qed.

(** The bindings a registry has itself. *)
Definition own_bindings (r : Registry) : list Binding :=
  (λ n, MkBinding (n_Role n) (n_NodeID n) (n_Label n)) <$> r_Nodes r.

Lemma own_bindings_valid r : well_formed r → Forall (λ n, n_NodeID n ≠ 0) (r_Nodes r) →
  valid_bindings (n_Role <$> r_Nodes r) (own_bindings r).
Proof.
  intros [[H1 H2 H3 H4] _ _ _ _] Hb. unfold own_bindings.
  split; rewrite <-?list_fmap_compose; try done.
  - apply Forall_fmap. rewrite Forall_forall in *. intros n Hn. by split; [apply Hb|apply H3].
  - replace (compose _ _ <$> r_Nodes r) with (bound_ids (r_Nodes r)); [done|].
    unfold bound_ids. clear H1 H2 H3 H4. induction (r_Nodes r) as [|n ns IH]; [done|].
    inversion_clear Hb as [|? ? Hn Hns]. rewrite !fmap_cons, filter_cons, decide_True by done. by rewrite IH.
Qed.

Lemma export_signals r : r_Signals (ExportPattern r) = unverified <$> r_Signals r.
Proof. unfold ExportPattern. by rewrite cloneRegistry_eq. Qed.

(** A bound role of the pattern, and the pattern of a bound role. *)
Lemma instance_export table n :
  instance_node table (bind_node n 0 "") =
    match table !! n_Role n with Some b => bind_node n (b_NodeID b) (b_Label b) | None => bind_node n 0 "" end ∧
  bind_node (instance_node table (bind_node n 0 "")) 0 "" = bind_node n 0 "".
Proof. unfold instance_node. cbn [n_Role bind_node]. by destruct (table !! n_Role n). Qed.

Lemma instance_nodes r bs : valid_bindings (n_Role <$> r_Nodes r) bs →
  Forall2 (λ n n', ∃ b, b ∈ bs ∧ b_Role b = n_Role n ∧ n' = bind_node n (b_NodeID b) (b_Label b))
    (r_Nodes r) (instance_node (binding_table bs) <$> r_Nodes (ExportPattern r)).
Proof.
  intros [_ _ Hp Hnd]. rewrite export_nodes, <-list_fmap_compose. apply Forall2_fmap_r, Forall_Forall2_diag.
  apply Forall_forall. intros n Hn. unfold compose. rewrite (proj1 (instance_export _ n)).
  assert (Hs : is_Some (binding_table bs !! n_Role n)).
  { apply table_dom. rewrite Hp. apply list_elem_of_fmap. by exists n. }
  destruct Hs as [b Hb]. rewrite Hb. exists b.
  apply table_lookup in Hb as [? ?]; [done|by rewrite Hp].
Qed.

Lemma export_instance r name bs : ExportPattern (instance (ExportPattern r) name bs) =
  MkRegistry (r_SchemaVersion r) (if bool_decide (name = ""%string) then r_Name r else name) (r_Description r)
    (r_Nodes (ExportPattern r)) (unverified <$> r_Signals r).
Proof.
  unfold ExportPattern. rewrite !cloneRegistry_eq. unfold instance.
  cbn [r_SchemaVersion r_Name r_Description r_Nodes r_Signals].
  rewrite <-!list_fmap_compose. f_equal. apply list_fmap_ext. intros i n _. apply instance_export.
Qed.

Lemma instance_own r : well_formed r → instance (ExportPattern r) "" (own_bindings r) =
  MkRegistry (r_SchemaVersion r) (r_Name r) (r_Description r) (r_Nodes r) (unverified <$> r_Signals r).
Proof.
  intros [[_ Hnd _ _] _ _ _ _]. unfold instance. rewrite export_nodes, export_signals. f_equal.
  rewrite <-list_fmap_compose. rewrite <-(list_fmap_id (r_Nodes r)) at 2. apply list_fmap_ext. intros i n Hn.
  unfold compose, id. rewrite (proj1 (instance_export _ n)).
  assert (Hb : binding_table (own_bindings r) !! n_Role n = Some (MkBinding (n_Role n) (n_NodeID n) (n_Label n))).
  { apply table_lookup; unfold own_bindings.
    - by rewrite <-list_fmap_compose.
    - split; [|done]. apply list_elem_of_fmap. exists n. split; [done|]. by eapply list_elem_of_lookup_2. }
  rewrite Hb. by destruct n.
Qed.

(** A pattern carries a testbed to its copies. From a well-formed registry one
    exports a pattern; binding the pattern succeeds for any assignment that gives
    each role one node number between 1 and 127, each number once, and for no other.
    The copy is well formed, has every role at its new node, the same signals with
    their verification marks cleared, and exports to the same pattern. The nodes the
    registry itself had give it back, verification marks apart. *)
Theorem pattern_carries_testbed range r name bs :
  (∀ m, range m ≡ₚ map_to_list m) → well_formed r → Forall (λ n, n_NodeID n ≠ 0) (r_Nodes r) →
  let pattern := ExportPattern r in
  let named := MkRegistry (r_SchemaVersion r) (if bool_decide (name = ""%string) then r_Name r else name)
                 (r_Description r) in
  let signals := unverified <$> r_Signals r in
  (is_Ok (Instantiate range pattern name bs) = true ↔ valid_bindings (n_Role <$> r_Nodes r) bs) ∧
  (∀ out, Instantiate range pattern name bs = Ok out →
     well_formed out ∧ r_Signals out = signals ∧
     Forall2 (λ n n', ∃ b, b ∈ bs ∧ b_Role b = n_Role n ∧ n' = bind_node n (b_NodeID b) (b_Label b))
       (r_Nodes r) (r_Nodes out) ∧
     ExportPattern out = named (r_Nodes pattern) signals) ∧
  Instantiate range pattern "" (own_bindings r) =
    Ok (MkRegistry (r_SchemaVersion r) (r_Name r) (r_Description r) (r_Nodes r) signals).
Proof.
  intros Hrange Hwf Hbound pattern named signals.
  assert (Hroles : n_Role <$> r_Nodes pattern = n_Role <$> r_Nodes r) by apply export_roles.
  pose proof (ExportPattern_well_formed r Hwf) as Hpwf.
  pose proof (λ name bs out, Instantiate_Ok range Hrange pattern name bs out) as HI. rewrite Hroles in HI.
  split; [|split].
  - rewrite is_Ok_true. split; [by intros (out & (? & _)%HI)|]. intros Hv. exists (instance pattern name bs).
    apply HI. split; [done|]. split; [apply instance_well_formed; by rewrite ?Hroles|done].
  - intros out (Hv & Hw & ->)%HI. split; [done|]. split; [apply export_signals|].
    split; [by apply instance_nodes|apply export_instance].
  - pose proof (own_bindings_valid r Hwf Hbound) as Hv. apply HI. split; [done|].
    unfold signals. rewrite <-(instance_own r Hwf). split; [|done]. apply instance_well_formed; [done|by rewrite export_roles].
Qed.

(** A testbed with a sensor module and two controllers. *)
Definition temperature : list MapEntry := [MkMapEntry 0x2100 1 32 "ch1"; MkMapEntry 0x2100 2 32 "ch2"].
Definition bench : Registry :=
  MkRegistry 1 "bench" ""
    [MkNode "rmm" 5 "rmm-1182" "A"; MkNode "tec-a" 6 "tec" ""; MkNode "tec-b" 7 "tec" ""]
    [MkSignal 0x185 "temps" "" (MkProducer "rmm" 1 temperature)
       [MkConsumer "tec-a" 1 [MkMapEntry 0x3201 1 32 ""; MkMapEntry 0x3201 2 32 ""] [MkSDOWrite 0x3300 1 7 ""];
        MkConsumer "tec-b" 2 [MkMapEntry 0x3201 1 32 ""; MkMapEntry 0x3202 1 32 ""] []] 100 true "2026-01-01"].

Lemma bench_well_formed : well_formed bench.
Proof. apply Validate_well_formed. reflexivity. Qed.

Lemma pattern_carries_testbed_witness :
  is_Ok (Instantiate map_to_list (ExportPattern bench) "copy" [MkBinding "tec-b" 9 "B"; MkBinding "rmm" 8 ""; MkBinding "tec-a" 5 ""])
    = true ∧
  Instantiate map_to_list (ExportPattern bench) "" (own_bindings bench) =
    Ok (MkRegistry 1 "bench" "" (r_Nodes bench) (unverified <$> r_Signals bench)).
Proof.
  assert (Hb : Forall (λ n, n_NodeID n ≠ 0) (r_Nodes bench)) by (repeat constructor; done).
  assert (Hr : ∀ m : gmap string Binding, map_to_list m ≡ₚ map_to_list m) by done.
  split.
  - apply (pattern_carries_testbed map_to_list bench "copy"
      [MkBinding "tec-b" 9 "B"; MkBinding "rmm" 8 ""; MkBinding "tec-a" 5 ""] Hr bench_well_formed Hb).
    split; [repeat constructor; done|apply (bool_decide_unpack _); vm_compute; exact I..].
  - apply (pattern_carries_testbed map_to_list bench "" [] Hr bench_well_formed Hb).
Defined.
