(* ===== verification/CanMapLive.v ===== *)
(** * CanMapLive: comparing a registry with the devices ([canmap/observe.go],
      [canmap/diff.go])

    [ObserveNode] reads the PDO configuration of a node over SDO; [Diff] compares
    what was read with the registry of [CanMap.v] and gives each signal a verdict.

    The reader is the interface [SDOReader]; the CANopen client of [CanClients.v] is
    an instance.  Reads may fail for a while on a busy bus, so every object is read
    up to four times. *)
From stdpp Require Import prelude gmap strings list sorting.
From Stdlib Require Import Strings.Byte.
From S2P Require Import Prelude Text Endpoint CanFrame SdoMap CanClients CanMap.
Local Open Scope Z_scope.
#[local] Set Warnings "-clear-no-such-hyp".

(** ** Reading a node *)

(** [ctx_Err] is one look at the context. *)
Class SDOReader (C : Type) := MkSDOReader {
  reader_ReadSDORaw : Z → Z → C → C * res bytes;
  ctx_Err : C → C * option error }.

#[export] Instance CANopenClient_SDOReader : SDOReader CANopenClient := {|
  reader_ReadSDORaw := ReadSDORaw plain_call;
  ctx_Err c := (c, None) |}.

Definition sdoReadAttempts : nat := 4.
Definition sdoAbortObjectAbsent : Z := 0x06020000.
Definition sdoAbortSubIndexAbsent : Z := 0x06090011.
Definition isAbsentAbort (err : error) : bool :=
  match as_SDOAbort err with
  | Some (_, _, code) => (code =? sdoAbortObjectAbsent) || (code =? sdoAbortSubIndexAbsent)
  | None => false
  end.

Record ObservedPDO := MkObservedPDO {
  o_Number : Z; o_COBID : Z; o_Enabled : bool; o_TransmissionType : Z; o_Mapping : list MapEntry }.

(** A message of [ObservedNode.Errors] carries the object it is about. *)
Inductive observe_error : Type :=
  | CommError (index : Z) (e : error)
  | MapCountError (index : Z) (e : error)
  | MapEntryError (index sub : Z) (e : error)
  | SelectError (key : bytes) (e : error).

Record ObservedNode := MkObservedNode {
  on_NodeID : Z; on_RPDOs : list ObservedPDO; on_TPDOs : list ObservedPDO;
  on_SourceSelects : gmap bytes Z; on_Errors : list observe_error }.

Definition maxScanPDOs : nat := 16.
Definition rpdoCommBase : Z := 0x1400.
Definition rpdoMapBase : Z := 0x1600.
Definition tpdoCommBase : Z := 0x1800.
Definition tpdoMapBase : Z := 0x1A00.
Definition cobIDInvalidBit : Z := 2 ^ 31.

Definition leUint32 (data : bytes) : Z := le_get (take 4 (data ++ replicate 4 x00)).
Definition select_key (index sub : Z) : bytes := str "0x" ++ fmtX 4 index ++ str ":" ++ fmtX 2 sub.

Section observe.
Context `{SDOReader C}.

Fixpoint read_attempts (attempts : nat) (index sub : Z) (lastErr : res bytes) (c : C) : C * res bytes :=
  match attempts with
  | O => (c, lastErr)
  | S n =>
      let '(c, ctx) := ctx_Err c in
      match ctx with
      | Some e => (c, Err e)
      | None =>
          let '(c, r) := reader_ReadSDORaw index sub c in
          match r with
          | Ok data => (c, Ok data)
          | Err e => if isAbsentAbort e then (c, Err e) else read_attempts n index sub (Err e) c
          end
      end
  end.
Definition readSDO (index sub : Z) (c : C) : C * res bytes :=
  read_attempts sdoReadAttempts index sub (Ok []) c.

(** The entries [s .. n] of one mapping; [todo] counts those to come. *)
Fixpoint read_entries (index : Z) (s todo : nat) (mapping : list MapEntry) (errs : list observe_error)
    (c : C) : C * (list MapEntry * list observe_error) :=
  match todo with
  | O => (c, (mapping, errs))
  | S todo =>
      let '(c, entry) := readSDO index (u8 (Z.of_nat s)) c in
      match entry with
      | Err e =>
          (c, (mapping, if isAbsentAbort e then errs else errs ++ [MapEntryError index (Z.of_nat s) e]))
      | Ok entry => read_entries index (S s) todo (mapping ++ [DecodeMapEntry (leUint32 entry)]) errs c
      end
  end.

Definition read_mapping (index : Z) (errs : list observe_error) (c : C) :
    C * (list MapEntry * list observe_error) :=
  let '(c, count) := readSDO index 0 c in
  match count with
  | Err e => (c, ([], if isAbsentAbort e then errs else errs ++ [MapCountError index e]))
  | Ok [] => (c, ([], errs))
  | Ok (b :: _) =>
      let n := Z.to_nat (bz b) in
      let n := if (8 <? n)%nat then 8%nat else n in
      read_entries index 1 n [] errs c
  end.

Definition read_pdo (comm map : Z) (i : nat) (raw : bytes) (errs : list observe_error) (c : C) :
    C * (ObservedPDO * list observe_error) :=
  let cob := leUint32 raw in
  let '(c, ttype) := readSDO comm 2 c in
  let transmission := match ttype with Ok (b :: _) => bz b | _ => 0 end in
  let '(c, (mapping, errs)) := read_mapping map errs c in
  (c, (MkObservedPDO (Z.of_nat i + 1) (Z.ldiff cob cobIDInvalidBit)
         (Z.land cob cobIDInvalidBit =? 0) transmission mapping, errs)).

(** [i] is the loop variable, [todo] the rounds to come. *)
Fixpoint scan_from (commBase mapBase : Z) (i todo : nat) (out : list ObservedPDO)
    (errs : list observe_error) (c : C) :
    C * (list ObservedPDO * list observe_error * option error) :=
  match todo with
  | O => (c, (out, errs, None))
  | S todo =>
      let comm := u16 (commBase + Z.of_nat i) in
      let '(c, raw) := readSDO comm 1 c in
      match raw with
      | Err err =>
          let '(c, ctx) := ctx_Err c in
          match ctx with
          | Some _ => let '(c, ctx) := ctx_Err c in (c, (out, errs, ctx))
          | None =>
              if isAbsentAbort err then (c, (out, errs, None))
              else scan_from commBase mapBase (S i) todo out (errs ++ [CommError comm err]) c
          end
      | Ok raw =>
          let '(c, (pdo, errs)) := read_pdo comm (u16 (mapBase + Z.of_nat i)) i raw errs c in
          scan_from commBase mapBase (S i) todo (out ++ [pdo]) errs c
      end
  end.
Definition scanPDOs (commBase mapBase : Z) (c : C) :=
  scan_from commBase mapBase 0 maxScanPDOs [] [] c.

Fixpoint read_selects (wants : list SDOWrite) (selects : gmap bytes Z) (errs : list observe_error) (c : C) :
    C * (gmap bytes Z * list observe_error) :=
  match wants with
  | [] => (c, (selects, errs))
  | w :: wants =>
      let key := select_key (w_Index w) (w_SubIndex w) in
      if selects !! key is Some _ then read_selects wants selects errs c
      else
        let '(c, data) := readSDO (w_Index w) (w_SubIndex w) c in
        match data with
        | Err e => read_selects wants selects (errs ++ [SelectError key e]) c
        | Ok data => read_selects wants (<[key := i32 (leUint32 data)]> selects) errs c
        end
  end.

Definition ObserveNode (nodeID : Z) (wants : list SDOWrite) (c : C) : C * (ObservedNode * option error) :=
  let '(c, (rpdos, rerrs, err)) := scanPDOs rpdoCommBase rpdoMapBase c in
  match err with
  | Some e => (c, (MkObservedNode nodeID rpdos [] ∅ rerrs,
                   Some (Wrapf "canmap: node 0x%02X RPDO scan: %w" [nodeID] e)))
  | None =>
      let '(c, (tpdos, terrs, err)) := scanPDOs tpdoCommBase tpdoMapBase c in
      let errs := rerrs ++ terrs in
      match err with
      | Some e => (c, (MkObservedNode nodeID rpdos tpdos ∅ errs,
                       Some (Wrapf "canmap: node 0x%02X TPDO scan: %w" [nodeID] e)))
      | None =>
          let '(c, (selects, errs)) := read_selects wants ∅ errs c in
          (c, (MkObservedNode nodeID rpdos tpdos selects errs, None))
      end
  end.
End observe.

(** ** Verdicts *)
Inductive Verdict : Type := VerdictMatch | VerdictDrift | VerdictUnknown.
Global Instance Verdict_eq_dec : EqDecision Verdict.
Proof. solve_decision. Defined.

Record Finding := MkFinding {
  f_Signal : string; f_Role : string; f_NodeID : Z; f_Aspect : bytes; f_Verdict : Verdict;
  f_Want : bytes; f_Got : bytes }.
Record SignalStatus := MkSignalStatus {
  st_Signal : string; st_COBID : Z; st_Verdict : Verdict; st_Findings : list Finding }.

Definition drift signal role nodeID aspect want got : Finding :=
  MkFinding signal role nodeID aspect VerdictDrift want got.
Definition match_ signal role nodeID aspect : Finding :=
  MkFinding signal role nodeID aspect VerdictMatch [] [].

Fixpoint pickPDO (pdos : list ObservedPDO) (number : Z) : option ObservedPDO :=
  match pdos with
  | [] => None
  | p :: ps => if o_Number p =? number then Some p else pickPDO ps number
  end.

Fixpoint mapsEqual (a b : list MapEntry) : bool :=
  match a, b with
  | [], [] => true
  | x :: a', y :: b' => (Raw x =? Raw y) && mapsEqual a' b'
  | _, _ => false
  end.

Definition formatMapping (entries : list MapEntry) : bytes :=
  match entries with
  | [] => str "(empty)"
  | e :: es =>
      (str "0x" ++ fmtX 8 (Raw e)) ++ (x ← es; " "%byte :: str "0x" ++ fmtX 8 (Raw x))
  end.

(** The node of a role and what was observed of it, or the finding that says why
    there is nothing to compare. *)
Definition resolve (r : Registry) (signal role : string) (aspect : bytes)
    (observed : gmap Z ObservedNode) : Finding + Node * ObservedNode :=
  match NodeByRole r role with
  | None => inl (MkFinding signal role 0 aspect VerdictUnknown [] (str "role has no bound node"))
  | Some node =>
      if n_NodeID node =? 0 then
        inl (MkFinding signal role 0 aspect VerdictUnknown [] (str "role has no bound node"))
      else
        match observed !! n_NodeID node with
        | None => inl (MkFinding signal role (n_NodeID node) aspect VerdictUnknown [] (str "node not observed"))
        | Some obs => inr (node, obs)
        end
  end.

Definition diffPDO (signal role : string) (nodeID : Z) (kind : bytes) (pdo : ObservedPDO)
    (wantCOB : Z) (wantMap : list MapEntry) : list Finding :=
  let findings :=
    (if negb (o_Enabled pdo) then
       [drift signal role nodeID (kind ++ str " enabled") (str "enabled") (str "disabled (COB-ID invalid bit set)")]
     else []) ++
    (if negb (o_COBID pdo =? wantCOB) then
       [drift signal role nodeID (kind ++ str " cob-id") (str "0x" ++ fmtX 0 wantCOB) (str "0x" ++ fmtX 0 (o_COBID pdo))]
     else []) ++
    (if negb (mapsEqual (o_Mapping pdo) wantMap) then
       [drift signal role nodeID (kind ++ str " mapping") (formatMapping wantMap) (formatMapping (o_Mapping pdo))]
     else []) in
  match findings with [] => [match_ signal role nodeID kind] | _ => findings end.

Definition diffProducer (r : Registry) (sig : Signal) (observed : gmap Z ObservedNode) : list Finding :=
  let p := s_Producer sig in
  match resolve r (s_Name sig) (p_Role p) (str "tpdo") observed with
  | inl f => [f]
  | inr (node, obs) =>
      match pickPDO (on_TPDOs obs) (p_TPDO p) with
      | None => [drift (s_Name sig) (p_Role p) (n_NodeID node) (str "tpdo")
                   (str "TPDO" ++ fmtD (p_TPDO p) ++ str " configured") (str "PDO not present on device")]
      | Some pdo => diffPDO (s_Name sig) (p_Role p) (n_NodeID node) (str "tpdo") pdo (s_COBID sig) (p_Mapping p)
      end
  end.

Definition diff_select (sig : Signal) (c : Consumer) (node : Node) (obs : ObservedNode) (w : SDOWrite) : Finding :=
  let key := select_key (w_Index w) (w_SubIndex w) in
  let aspect := str "source-select " ++ key in
  match on_SourceSelects obs !! key with
  | None => MkFinding (s_Name sig) (c_Role c) (n_NodeID node) aspect VerdictUnknown (fmtD (w_Value w)) (str "not read")
  | Some got =>
      if negb (got =? w_Value w) then
        drift (s_Name sig) (c_Role c) (n_NodeID node) aspect (fmtD (w_Value w)) (fmtD got)
      else match_ (s_Name sig) (c_Role c) (n_NodeID node) aspect
  end.
Definition diffConsumer (r : Registry) (sig : Signal) (c : Consumer) (observed : gmap Z ObservedNode) :
    list Finding :=
  match resolve r (s_Name sig) (c_Role c) (str "rpdo") observed with
  | inl f => [f]
  | inr (node, obs) =>
      match pickPDO (on_RPDOs obs) (c_RPDO c) with
      | None => [drift (s_Name sig) (c_Role c) (n_NodeID node) (str "rpdo")
                   (str "RPDO" ++ fmtD (c_RPDO c) ++ str " configured") (str "PDO not present on device")]
      | Some pdo => diffPDO (s_Name sig) (c_Role c) (n_NodeID node) (str "rpdo") pdo (s_COBID sig) (c_Mapping c)
      end ++ (diff_select sig c node obs <$> c_SourceSelects c)
  end.

(** The loop that turns findings into a verdict, from the verdict so far. *)
Fixpoint verdict_of (v : Verdict) (findings : list Finding) : Verdict :=
  match findings with
  | [] => v
  | f :: fs =>
      if bool_decide (f_Verdict f = VerdictDrift) then VerdictDrift
      else if bool_decide (f_Verdict f = VerdictUnknown) && bool_decide (v = VerdictMatch)
      then verdict_of VerdictUnknown fs
      else verdict_of v fs
  end.

Definition diff_signal (r : Registry) (observed : gmap Z ObservedNode) (sig : Signal) : SignalStatus :=
  let findings := diffProducer r sig observed ++ (c ← s_Consumers sig; diffConsumer r sig c observed) in
  MkSignalStatus (s_Name sig) (s_COBID sig) (verdict_of VerdictMatch findings) findings.

(** [sort.Slice] by name.  The names of a validated registry are distinct, which
    leaves one order. *)
Definition status_le (a b : SignalStatus) : Prop := String.leb (st_Signal a) (st_Signal b) = true.
Global Instance status_le_dec a b : Decision (status_le a b) :=
  decide (String.leb (st_Signal a) (st_Signal b) = true).
Definition Diff (r : Registry) (observed : gmap Z ObservedNode) : list SignalStatus :=
  merge_sort status_le (diff_signal r observed <$> r_Signals r).

(** ** A node and a reader of it

    What CANopen says a node's object dictionary holds for its PDOs, and what a
    reader does on a bus where at most three reads in a row are lost. *)
Record pdo_config := MkPDOConfig { pc_cob : Z; pc_type : Z; pc_map : list Z }.

Definition pdo_objects (od : Z → Z → option bytes) (comm map : Z) (p : pdo_config) : Prop :=
  0 ≤ pc_cob p < 2 ^ 32 ∧ 0 ≤ pc_type p < 256 ∧ (length (pc_map p) ≤ 8)%nat ∧
  Forall (λ w, 0 ≤ w < 2 ^ 32) (pc_map p) ∧
  od comm 1 = Some (le_put 4 (pc_cob p)) ∧ od comm 2 = Some [zb (pc_type p)] ∧
  od map 0 = Some [zb (Z.of_nat (length (pc_map p)))] ∧
  ∀ s w, pc_map p !! s = Some w → od map (Z.of_nat s + 1) = Some (le_put 4 w).
Definition pdo_table (od : Z → Z → option bytes) (commBase mapBase : Z) (pdos : list pdo_config) : Prop :=
  (length pdos ≤ maxScanPDOs)%nat ∧
  (∀ i p, pdos !! i = Some p → pdo_objects od (commBase + Z.of_nat i) (mapBase + Z.of_nat i) p) ∧
  ((length pdos < maxScanPDOs)%nat → od (commBase + Z.of_nat (length pdos)) 1 = None).

(** What the program makes of it. *)
Definition observed_pdo (i : nat) (p : pdo_config) : ObservedPDO :=
  MkObservedPDO (Z.of_nat i + 1) (Z.ldiff (pc_cob p) cobIDInvalidBit)
    (Z.land (pc_cob p) cobIDInvalidBit =? 0) (pc_type p) (DecodeMapEntry <$> pc_map p).

Record sdo_device `{SDOReader C} (od : Z → Z → option bytes) (quiet : nat → C → Prop) : Prop := {
  device_context n c : quiet n c → ∃ c', ctx_Err c = (c', None) ∧ quiet n c';
  device_read n c index sub : quiet n c → ∃ c' r, reader_ReadSDORaw index sub c = (c', r) ∧
    ((∃ m e, n = S m ∧ r = Err e ∧ isAbsentAbort e = false ∧ quiet m c') ∨
     quiet 3%nat c' ∧
     match od index sub with
     | Some d => r = Ok d
     | None => ∃ e, r = Err e ∧ isAbsentAbort e = true
     end) }.

Lemma leUint32_word w : 0 ≤ w < 2 ^ 32 → leUint32 (le_put 4 w) = w.
Proof.
  intros Hw. unfold leUint32.
  rewrite (take_app_length' (le_put 4 w)) by (by rewrite length_le_put).
  by rewrite le_get_put_small by (simpl; lia).
Qed.

Section device.
Context `{SDOReader C} (od : Z → Z → option bytes) (quiet : nat → C → Prop).
Hypothesis device : sdo_device od quiet.

Definition answer (o : option bytes) (r : res bytes) : Prop :=
  match o with Some d => r = Ok d | None => ∃ e, r = Err e ∧ isAbsentAbort e = true end.

Lemma read_attempts_answer attempts n index sub last c : quiet n c → (n < attempts)%nat →
  ∃ c' r, read_attempts attempts index sub last c = (c', r) ∧ quiet 3%nat c' ∧ answer (od index sub) r.
Proof using device.
  revert n last c. induction attempts as [|attempts IH]; intros n last c Hq Hn; [lia|]. cbn [read_attempts].
  destruct (device_context _ _ device n c Hq) as (c1 & -> & Hq1).
  destruct (device_read _ _ device n c1 index sub Hq1) as (c2 & r & -> & [(m & e & -> & -> & Ha & Hq2)|[Hq2 Hr]]).
  - rewrite Ha. apply (IH m); [done|lia].
  - exists c2. unfold answer. destruct (od index sub) as [d|].
    + subst r. by exists (Ok d).
    + destruct Hr as (e & -> & Ha). rewrite Ha. exists (Err e). eauto.
Qed.

Lemma readSDO_answer index sub c : quiet 3%nat c →
  ∃ c' r, readSDO index sub c = (c', r) ∧ quiet 3%nat c' ∧ answer (od index sub) r.
Proof using device. intros Hq. apply (read_attempts_answer _ 3); [done|unfold sdoReadAttempts; lia]. Qed.

Lemma readSDO_present index sub d c : quiet 3%nat c → od index sub = Some d →
  ∃ c', readSDO index sub c = (c', Ok d) ∧ quiet 3%nat c'.
Proof using device.
  intros Hq Hd. destruct (readSDO_answer index sub c Hq) as (c' & r & Hr & Hq' & Ha).
  rewrite Hd in Ha. cbn in Ha. subst r. eauto.
Qed.

Lemma read_entries_all index ws s mapping errs c :
  quiet 3%nat c → (s + length ws ≤ 9)%nat → Forall (λ w, 0 ≤ w < 2 ^ 32) ws →
  (∀ k w, ws !! k = Some w → od index (Z.of_nat (s + k)) = Some (le_put 4 w)) →
  ∃ c', read_entries index s (length ws) mapping errs c = (c', (mapping ++ (DecodeMapEntry <$> ws), errs)) ∧
    quiet 3%nat c'.
Proof using device.
  revert s mapping c. induction ws as [|w ws IH]; intros s mapping c Hq Hs Hw Hod; cbn [length read_entries].
  { exists c. by rewrite app_nil_r. }
  inversion_clear Hw as [|? ? Hw0 Hws]. cbn [length] in Hs.
  destruct (readSDO_present index (u8 (Z.of_nat s)) (le_put 4 w) c Hq) as (c1 & -> & Hq1).
  { unfold u8. rewrite Z.mod_small by lia. rewrite <-(Hod 0%nat w eq_refl). do 2 f_equal. lia. }
  rewrite leUint32_word by done.
  destruct (IH (S s) (mapping ++ [DecodeMapEntry w]) c1 Hq1) as (c2 & -> & Hq2); [lia|done| |].
  - intros k w' Hk. rewrite <-(Hod (S k) w' Hk). do 2 f_equal. lia.
  - exists c2. by rewrite <-app_assoc.
Qed.

Lemma read_pdo_config comm map i p errs c : quiet 3%nat c → pdo_objects od comm map p →
  ∃ c', read_pdo comm map i (le_put 4 (pc_cob p)) errs c = (c', (observed_pdo i p, errs)) ∧ quiet 3%nat c'.
Proof using device.
  intros Hq (Hcob & Htype & Hlen & Hws & _ & H2 & H0 & Hmap). unfold read_pdo, read_mapping.
  destruct (readSDO_present comm 2 _ c Hq H2) as (c1 & -> & Hq1).
  destruct (readSDO_present map 0 _ c1 Hq1 H0) as (c2 & -> & Hq2).
  rewrite !bz_zb_small by lia. rewrite Nat2Z.id, leUint32_word by done.
  destruct (Nat.ltb_spec 8 (length (pc_map p))); [lia|].
  destruct (read_entries_all map (pc_map p) 1 [] errs c2 Hq2) as (c3 & -> & Hq3); [lia|done| |].
  - intros k w Hk. rewrite <-(Hmap k w Hk). f_equal. lia.
  - exists c3. done.
Qed.

Lemma scan_from_table commBase mapBase all pdos done_ out c :
  0 ≤ commBase < 2 ^ 15 → 0 ≤ mapBase < 2 ^ 15 → pdo_table od commBase mapBase all → all = done_ ++ pdos →
  quiet 3%nat c →
  ∃ c', scan_from commBase mapBase (length done_) (maxScanPDOs - length done_) out [] c =
          (c', (out ++ imap (λ i, observed_pdo (length done_ + i)) pdos, [], None)) ∧ quiet 3%nat c'.
Proof using device.
  intros Hc Hm (Hlen & Hpdos & Hend). revert done_ out c.
  induction pdos as [|p pdos IH]; intros done_ out c Hall Hq.
  - rewrite app_nil_r in Hall. subst done_. cbn [imap]. rewrite app_nil_r.
    destruct (maxScanPDOs - length all)%nat as [|k] eqn:Hk; cbn [scan_from]; [by exists c|].
    unfold maxScanPDOs in *. destruct (readSDO_answer (u16 (commBase + Z.of_nat (length all))) 1 c Hq)
      as (c1 & r & -> & Hq1 & Ha).
    unfold u16 in Ha. rewrite Z.mod_small in Ha by lia. rewrite Hend in Ha by lia. destruct Ha as (e & -> & Ha).
    destruct (device_context _ _ device 3%nat c1 Hq1) as (c2 & -> & Hq2). rewrite Ha. by exists c2.
  - assert (Hlt : (length done_ < maxScanPDOs)%nat) by (rewrite Hall, length_app in Hlen; simpl in Hlen; lia).
    replace (maxScanPDOs - length done_)%nat with (S (maxScanPDOs - length (done_ ++ [p])))
      by (rewrite length_app; simpl; lia).
    cbn [scan_from]. unfold maxScanPDOs in *.
    assert (Hobj : pdo_objects od (commBase + Z.of_nat (length done_)) (mapBase + Z.of_nat (length done_)) p).
    { apply Hpdos. rewrite Hall. rewrite lookup_app_r, Nat.sub_diag by lia. done. }
    pose proof Hobj as (_ & _ & _ & _ & H1 & _).
    unfold u16. rewrite !Z.mod_small by lia.
    destruct (readSDO_present _ 1 _ c Hq H1) as (c1 & -> & Hq1).
    destruct (read_pdo_config _ _ (length done_) p [] c1 Hq1 Hobj) as (c2 & -> & Hq2).
    destruct (IH (done_ ++ [p]) (out ++ [observed_pdo (length done_) p]) c2) as (c3 & Hscan & Hq3);
      [by rewrite <-app_assoc|done|].
    exists c3. split; [|done]. rewrite length_app, Nat.add_1_r in Hscan |- *. cbn [length] in *.
    rewrite Hscan, <-app_assoc. cbn [imap app]. rewrite Nat.add_0_r. do 5 f_equal.
    apply imap_ext. intros j q _. unfold compose. f_equal. lia.
Qed.

Lemma scanPDOs_table commBase mapBase pdos c :
  0 ≤ commBase < 2 ^ 15 → 0 ≤ mapBase < 2 ^ 15 → pdo_table od commBase mapBase pdos → quiet 3%nat c →
  ∃ c', scanPDOs commBase mapBase c = (c', (imap observed_pdo pdos, [], None)) ∧ quiet 3%nat c'.
Proof using device. intros Hc Hm Ht Hq. by apply (scan_from_table commBase mapBase pdos pdos [] []). Qed.

Definition want_typed (w : SDOWrite) : Prop := 0 ≤ w_Index w < 2 ^ 16 ∧ 0 ≤ w_SubIndex w < 2 ^ 8.
Definition live_select (w : SDOWrite) : option Z :=
  (λ d, i32 (leUint32 d)) <$> od (w_Index w) (w_SubIndex w).

Lemma hex_fix_inj n a b : (0 < n)%nat → 0 ≤ a < 16 ^ Z.of_nat n → 0 ≤ b < 16 ^ Z.of_nat n →
  hex_fix n a = hex_fix n b → a = b.
Proof using.
  intros Hn Ha Hb Heq.
  assert (Hp : 16 ^ Z.of_nat n = 2 ^ (4 * Z.of_nat n)) by (rewrite Z.pow_mul_r by lia; done).
  pose proof (ParseUint_hex_fix n (4 * Z.of_nat n) a Hn Ha ltac:(lia)) as H1.
  rewrite Heq, ParseUint_hex_fix in H1 by (done || lia). by injection H1.
Qed.

Lemma select_key_live w w' : want_typed w → want_typed w' →
  select_key (w_Index w) (w_SubIndex w) = select_key (w_Index w') (w_SubIndex w') → live_select w = live_select w'.
Proof using.
  intros [Hi Hs] [Hi' Hs']. unfold select_key. rewrite !fmtX_fix by (simpl; lia).
  intros Heq. apply app_inv_head in Heq. apply app_inj_1 in Heq as [Hix Hsx]; [|by rewrite !length_hex_fix].
  apply app_inv_head in Hsx. unfold live_select.
  rewrite (hex_fix_inj 4 _ _ ltac:(lia) Hi Hi' Hix). by rewrite (hex_fix_inj 2 _ _ ltac:(lia) Hs Hs' Hsx).
Qed.

Definition consistent (selects : gmap bytes Z) : Prop :=
  ∀ w v, want_typed w → selects !! select_key (w_Index w) (w_SubIndex w) = Some v → live_select w = Some v.

Lemma read_selects_live wants selects errs c : quiet 3%nat c → Forall want_typed wants → consistent selects →
  ∃ c' selects' errs', read_selects wants selects errs c = (c', (selects', errs')) ∧ quiet 3%nat c' ∧
    consistent selects' ∧ selects ⊆ selects' ∧
    (∀ w, w ∈ wants → selects' !! select_key (w_Index w) (w_SubIndex w) = live_select w) ∧
    (Forall (λ w, is_Some (live_select w)) wants → errs' = errs).
Proof using device.
  revert selects errs c. induction wants as [|w wants IH]; intros selects errs c Hq Ht Hc; cbn [read_selects].
  { exists c, selects, errs. split; [done|]. split; [done|]. split; [done|]. split; [done|]. split; [|done].
    by intros w Hw%elem_of_nil. }
  inversion_clear Ht as [|? ? Hw Hws].
  destruct (selects !! select_key (w_Index w) (w_SubIndex w)) as [v|] eqn:Hk.
  { destruct (IH selects errs c Hq Hws Hc) as (c' & s' & e' & Hr & Hq' & Hc' & Hsub & Hall & He).
    exists c', s', e'. split; [done|]. split; [done|]. split; [done|]. split; [done|]. split.
    - intros w' [->|Hw']%elem_of_cons; [|by apply Hall]. rewrite (Hc w v Hw Hk). by eapply lookup_weaken.
    - intros Hf. inversion_clear Hf. by apply He. }
  destruct (readSDO_answer (w_Index w) (w_SubIndex w) c Hq) as (c1 & r & -> & Hq1 & Ha).
  unfold answer in Ha. destruct (od (w_Index w) (w_SubIndex w)) as [d|] eqn:Hd.
  - subst r. set (v := i32 (leUint32 d)). assert (Hv : live_select w = Some v) by (unfold live_select; by rewrite Hd).
    destruct (IH (<[select_key (w_Index w) (w_SubIndex w) := v]> selects) errs c1 Hq1 Hws)
      as (c' & s' & e' & Hr & Hq' & Hc' & Hsub & Hall & He).
    { intros w' v' Hw' Hl. apply lookup_insert_Some in Hl as [[Heq <-]|[_ Hl]]; [|by eapply Hc].
      by rewrite <-(select_key_live w w' Hw Hw' Heq). }
    exists c', s', e'. split; [done|]. split; [done|]. split; [done|].
    split; [transitivity (<[select_key (w_Index w) (w_SubIndex w) := v]> selects); [by apply insert_subseteq|done]|].
    split.
    + intros w' [->|Hw']%elem_of_cons; [|by apply Hall]. rewrite Hv. eapply lookup_weaken; [|done].
      by rewrite lookup_insert_eq.
    + intros Hf. inversion_clear Hf. by apply He.
  - destruct Ha as (e & -> & _).
    assert (Hv : live_select w = None) by (unfold live_select; by rewrite Hd).
    destruct (IH selects (errs ++ [SelectError (select_key (w_Index w) (w_SubIndex w)) e]) c1 Hq1 Hws Hc)
      as (c' & s' & e' & Hr & Hq' & Hc' & Hsub & Hall & He).
    exists c', s', e'. split; [done|]. split; [done|]. split; [done|]. split; [done|]. split.
    + intros w' [->|Hw']%elem_of_cons; [|by apply Hall]. rewrite Hv.
      destruct (s' !! _) as [v|] eqn:Hs; [|done]. apply Hc' in Hs; [congruence|done].
    + intros Hf. inversion_clear Hf as [|? ? [v Hsome] _]. congruence.
Qed.

Lemma ObserveNode_device nodeID wants rpdos tpdos c :
  pdo_table od rpdoCommBase rpdoMapBase rpdos → pdo_table od tpdoCommBase tpdoMapBase tpdos →
  Forall want_typed wants → quiet 3%nat c →
  ∃ c' selects errs, ObserveNode nodeID wants c =
      (c', (MkObservedNode nodeID (imap observed_pdo rpdos) (imap observed_pdo tpdos) selects errs, None)) ∧
    quiet 3%nat c' ∧
    (∀ w, w ∈ wants → selects !! select_key (w_Index w) (w_SubIndex w) = live_select w) ∧
    (Forall (λ w, is_Some (live_select w)) wants → errs = []).
Proof using device.
  intros Hr Ht Hw Hq. unfold ObserveNode.
  destruct (scanPDOs_table rpdoCommBase rpdoMapBase rpdos c) as (c1 & -> & Hq1); [done..|].
  destruct (scanPDOs_table tpdoCommBase tpdoMapBase tpdos c1) as (c2 & -> & Hq2); [done..|].
  destruct (read_selects_live wants ∅ ([] ++ []) c2 Hq2 Hw) as (c3 & sel & errs & -> & Hq3 & _ & _ & Hall & He).
  { intros w v _ Hl. by rewrite lookup_empty in Hl. }
  exists c3, sel, errs. done.
Qed.
End device.

(** A registry may have PDOs of up to 64 slots; a scan reads eight. *)
Lemma scan_reads_eight `{SDOReader C} index errs c :
  (length (read_mapping index errs c).2.1 ≤ 8)%nat.
Proof.
  assert (He : ∀ todo s mapping errs c,
    (length (read_entries index s todo mapping errs c).2.1 ≤ length mapping + todo)%nat).
  { induction todo as [|todo IH]; intros s mapping errs' c'; cbn [read_entries]; [simpl; lia|].
    destruct (readSDO index (u8 (Z.of_nat s)) c') as [c'' [d|e]]; [|simpl; lia].
    specialize (IH (S s) (mapping ++ [DecodeMapEntry (leUint32 d)]) errs' c'').
    rewrite length_app in IH. simpl in IH. lia. }
  unfold read_mapping. destruct (readSDO index 0 c) as [c' [[|b d]|e]]; [simpl; lia| |simpl; lia].
  destruct (Nat.ltb_spec 8 (Z.to_nat (bz b))).
  - apply (He 8%nat 1%nat []).
  - pose proof (He (Z.to_nat (bz b)) 1%nat [] errs c') as Hn. simpl in Hn. lia.
Qed.

Lemma nine_slots_valid : wf_mapping (replicate 9 (MkMapEntry 0x2100 1 1 "")).
Proof. split; [done|]. split; [repeat constructor; done|]. vm_compute. congruence. Qed.

(** ** What the verdicts mean *)

(** The observation a role is compared with. *)
Definition observed_role (r : Registry) (observed : gmap Z ObservedNode) (role : string) : option ObservedNode :=
  node ← NodeByRole r role; guard (n_NodeID node ≠ 0);; observed !! n_NodeID node.

Definition carries (pdos : list ObservedPDO) (number cob : Z) (mapping : list MapEntry) : Prop :=
  ∃ p, pickPDO pdos number = Some p ∧ o_Enabled p = true ∧ o_COBID p = cob ∧ Raw <$> o_Mapping p = Raw <$> mapping.
Definition select_live (obs : ObservedNode) (w : SDOWrite) : option Z :=
  on_SourceSelects obs !! select_key (w_Index w) (w_SubIndex w).

Definition producer_agrees (sig : Signal) (obs : ObservedNode) : Prop :=
  carries (on_TPDOs obs) (p_TPDO (s_Producer sig)) (s_COBID sig) (p_Mapping (s_Producer sig)).
Definition consumer_agrees (sig : Signal) (c : Consumer) (obs : ObservedNode) : Prop :=
  carries (on_RPDOs obs) (c_RPDO c) (s_COBID sig) (c_Mapping c).

Definition signal_agrees (r : Registry) (observed : gmap Z ObservedNode) (sig : Signal) : Prop :=
  (∃ obs, observed_role r observed (p_Role (s_Producer sig)) = Some obs ∧ producer_agrees sig obs) ∧
  Forall (λ c, ∃ obs, observed_role r observed (c_Role c) = Some obs ∧ consumer_agrees sig c obs ∧
                 Forall (λ w, select_live obs w = Some (w_Value w)) (c_SourceSelects c)) (s_Consumers sig).
Definition signal_contradicted (r : Registry) (observed : gmap Z ObservedNode) (sig : Signal) : Prop :=
  (∃ obs, observed_role r observed (p_Role (s_Producer sig)) = Some obs ∧ ¬ producer_agrees sig obs) ∨
  Exists (λ c, ∃ obs, observed_role r observed (c_Role c) = Some obs ∧
                 (¬ consumer_agrees sig c obs ∨
                  Exists (λ w, ∃ v, select_live obs w = Some v ∧ v ≠ w_Value w) (c_SourceSelects c)))
    (s_Consumers sig).

Lemma mapsEqual_true a b : mapsEqual a b = true ↔ Raw <$> a = Raw <$> b.
Proof.
  revert b. induction a as [|x a IH]; intros [|y b]; try done. rewrite !fmap_cons. cbn [mapsEqual].
  rewrite andb_true_iff, Z.eqb_eq, IH. split; [by intros [-> ->]|by intros [= -> ->]].
Qed.

Abbreviation drifts := (λ f, f_Verdict f = VerdictDrift).
Abbreviation matches := (λ f, f_Verdict f = VerdictMatch).

Lemma verdict_of_spec v fs : v ≠ VerdictDrift →
  (verdict_of v fs = VerdictDrift ↔ Exists drifts fs) ∧
  (verdict_of v fs = VerdictMatch ↔ v = VerdictMatch ∧ Forall matches fs).
Proof.
  revert v. induction fs as [|f fs IH]; intros v Hv; cbn [verdict_of].
  - rewrite Exists_nil. split; [by split|]. split; [|tauto]. by split; [|constructor].
  - rewrite Exists_cons, Forall_cons. destruct (f_Verdict f) eqn:Hf.
    + rewrite bool_decide_false by done. cbn [andb].
      rewrite bool_decide_false by done. cbn [andb]. destruct (IH v Hv) as [-> ->]. naive_solver.
    + rewrite bool_decide_true by done. naive_solver.
    + rewrite bool_decide_false by done. rewrite bool_decide_true by done. cbn [andb].
      destruct (bool_decide_reflect (v = VerdictMatch)) as [->|Hn].
      * destruct (IH VerdictUnknown) as [-> ->]; [done|]. naive_solver.
      * destruct (IH v Hv) as [-> ->]. naive_solver.
Qed.

Lemma resolve_spec r signal role aspect observed :
  match resolve r signal role aspect observed with
  | inl f => observed_role r observed role = None ∧ f_Verdict f = VerdictUnknown
  | inr (_, obs) => observed_role r observed role = Some obs
  end.
Proof.
  unfold resolve, observed_role. destruct (NodeByRole r role) as [node|]; [|done]. cbn [mbind option_bind].
  destruct (Z.eqb_spec (n_NodeID node) 0) as [H0|H0].
  - rewrite option_guard_False by (by intros ?). done.
  - rewrite option_guard_True by done. by destruct (observed !! n_NodeID node).
Qed.

(** What the findings of one PDO say. *)
Lemma diffPDO_spec signal role id kind pdo cob mapping :
  let agrees := o_Enabled pdo = true ∧ o_COBID pdo = cob ∧ Raw <$> o_Mapping pdo = Raw <$> mapping in
  (Exists drifts (diffPDO signal role id kind pdo cob mapping) ↔ ¬ agrees) ∧
  (Forall matches (diffPDO signal role id kind pdo cob mapping) ↔ agrees).
Proof.
  unfold diffPDO. pose proof (mapsEqual_true (o_Mapping pdo) mapping) as Hm.
  destruct (o_Enabled pdo), (Z.eqb_spec (o_COBID pdo) cob), (mapsEqual (o_Mapping pdo) mapping);
    cbn [negb app]; rewrite ?Exists_cons, ?Exists_nil, ?Forall_cons, ?Forall_nil; cbn; intuition congruence.
Qed.

Lemma pick_spec signal role id kind pdos number cob mapping absent :
  f_Verdict absent = VerdictDrift →
  let findings := match pickPDO pdos number with
                  | None => [absent]
                  | Some pdo => diffPDO signal role id kind pdo cob mapping
                  end in
  (Exists drifts findings ↔ ¬ carries pdos number cob mapping) ∧
  (Forall matches findings ↔ carries pdos number cob mapping).
Proof.
  intros Ha. unfold carries. destruct (pickPDO pdos number) as [pdo|]; cbv zeta.
  - destruct (diffPDO_spec signal role id kind pdo cob mapping) as [-> ->].
    split; split; try (intros Hn); try tauto.
    + intros (p & [= <-] & ?). tauto.
    + intros ?. apply Hn. by exists pdo.
    + by exists pdo.
    + destruct Hn as (p & [= <-] & ?). tauto.
  - rewrite Exists_cons, Exists_nil, Forall_cons. split; split.
    + intros _ (p & [=] & _).
    + by left.
    + intros [Hc _]. congruence.
    + by intros (p & [=] & _).
Qed.

Lemma diffProducer_spec r sig observed : let obs := observed_role r observed (p_Role (s_Producer sig)) in
  (Exists drifts (diffProducer r sig observed) ↔ ∃ o, obs = Some o ∧ ¬ producer_agrees sig o) ∧
  (Forall matches (diffProducer r sig observed) ↔ ∃ o, obs = Some o ∧ producer_agrees sig o).
Proof.
  cbv zeta. unfold diffProducer.
  pose proof (resolve_spec r (s_Name sig) (p_Role (s_Producer sig)) (str "tpdo") observed) as Hr.
  destruct (resolve _ _ _ _ _) as [f|[node obs]].
  - destruct Hr as [-> Hf]. rewrite Exists_cons, Exists_nil, Forall_cons, Hf. naive_solver.
  - rewrite Hr. unfold producer_agrees.
    destruct (pick_spec (s_Name sig) (p_Role (s_Producer sig)) (n_NodeID node) (str "tpdo") (on_TPDOs obs)
      (p_TPDO (s_Producer sig)) (s_COBID sig) (p_Mapping (s_Producer sig))
      (drift (s_Name sig) (p_Role (s_Producer sig)) (n_NodeID node) (str "tpdo")
         (str "TPDO" ++ fmtD (p_TPDO (s_Producer sig)) ++ str " configured") (str "PDO not present on device")))
      as [-> ->]; [done|]. naive_solver.
Qed.

Lemma diff_selects_spec sig c node obs ws :
  (Exists drifts (diff_select sig c node obs <$> ws) ↔ Exists (λ w, ∃ v, select_live obs w = Some v ∧ v ≠ w_Value w) ws) ∧
  (Forall matches (diff_select sig c node obs <$> ws) ↔ Forall (λ w, select_live obs w = Some (w_Value w)) ws).
Proof.
  rewrite Exists_fmap, Forall_fmap. split.
  - apply Exists_proper; [|done]. intros w. unfold compose, diff_select, select_live.
    destruct (on_SourceSelects obs !! _) as [v|]; [|naive_solver].
    destruct (Z.eqb_spec v (w_Value w)); cbn; naive_solver.
  - apply Forall_proper; [|done]. intros w. unfold compose, diff_select, select_live.
    destruct (on_SourceSelects obs !! _) as [v|]; [|naive_solver].
    destruct (Z.eqb_spec v (w_Value w)); cbn; naive_solver.
Qed.

Lemma diffConsumer_spec r sig c observed : let obs := observed_role r observed (c_Role c) in
  (Exists drifts (diffConsumer r sig c observed) ↔ ∃ o, obs = Some o ∧
     (¬ consumer_agrees sig c o ∨ Exists (λ w, ∃ v, select_live o w = Some v ∧ v ≠ w_Value w) (c_SourceSelects c))) ∧
  (Forall matches (diffConsumer r sig c observed) ↔ ∃ o, obs = Some o ∧ consumer_agrees sig c o ∧
     Forall (λ w, select_live o w = Some (w_Value w)) (c_SourceSelects c)).
Proof.
  cbv zeta. unfold diffConsumer.
  pose proof (resolve_spec r (s_Name sig) (c_Role c) (str "rpdo") observed) as Hr.
  destruct (resolve _ _ _ _ _) as [f|[node obs]].
  - destruct Hr as [-> Hf]. rewrite Exists_cons, Exists_nil, Forall_cons, Hf. naive_solver.
  - rewrite Hr, Exists_app, Forall_app. destruct (diff_selects_spec sig c node obs (c_SourceSelects c)) as [-> ->].
    unfold consumer_agrees.
    destruct (pick_spec (s_Name sig) (c_Role c) (n_NodeID node) (str "rpdo") (on_RPDOs obs)
      (c_RPDO c) (s_COBID sig) (c_Mapping c)
      (drift (s_Name sig) (c_Role c) (n_NodeID node) (str "rpdo")
         (str "RPDO" ++ fmtD (c_RPDO c) ++ str " configured") (str "PDO not present on device")))
      as [-> ->]; [done|]. naive_solver.
Qed.

Lemma diff_signal_spec r observed sig :
  (st_Verdict (diff_signal r observed sig) = VerdictMatch ↔ signal_agrees r observed sig) ∧
  (st_Verdict (diff_signal r observed sig) = VerdictDrift ↔ signal_contradicted r observed sig).
Proof.
  unfold diff_signal, signal_agrees, signal_contradicted. cbn [st_Verdict].
  set (fs := _ ++ _). destruct (verdict_of_spec VerdictMatch fs) as [-> ->]; [done|]. subst fs.
  rewrite Exists_app, Forall_app. destruct (diffProducer_spec r sig observed) as [-> ->].
  assert (HE : Exists drifts (c ← s_Consumers sig; diffConsumer r sig c observed) ↔
               Exists (λ c, Exists drifts (diffConsumer r sig c observed)) (s_Consumers sig)).
  { rewrite !Exists_exists. setoid_rewrite list_elem_of_bind. setoid_rewrite Exists_exists. naive_solver. }
  assert (HF : Forall matches (c ← s_Consumers sig; diffConsumer r sig c observed) ↔
               Forall (λ c, Forall matches (diffConsumer r sig c observed)) (s_Consumers sig)).
  { rewrite Forall_bind. done. }
  rewrite HE, HF. clear HE HF. split.
  - split; [intros (_ & ? & Hf); split; [done|]|intros (? & Hf); split; [done|]; split; [done|]];
      (eapply Forall_impl; [exact Hf|]); intros c; apply (diffConsumer_spec r sig c observed).
  - split; (intros [?|He]; [by left|right]); (eapply Exists_impl; [exact He|]); intros c; apply (diffConsumer_spec r sig c observed).
Qed.

Lemma Diff_sorted r observed : Diff r observed ≡ₚ (diff_signal r observed <$> r_Signals r) ∧
  Sorted status_le (Diff r observed).
Proof.
  split; [apply merge_sort_Permutation|]. apply Sorted_merge_sort. intros a b. unfold status_le.
  destruct (String.leb_total (st_Signal a) (st_Signal b)); [by left|by right].
Qed.

(** ** Verdicts against the configuration of the devices *)
Definition programmed (pdos : list pdo_config) (number cob : Z) (mapping : list MapEntry) : Prop :=
  ∃ p, 1 ≤ number ∧ pdos !! Z.to_nat (number - 1) = Some p ∧ pc_cob p = cob ∧ cob < 2 ^ 31 ∧
       pc_map p = Raw <$> mapping.

Lemma pickPDO_imap k pdos number :
  pickPDO (imap (λ i, observed_pdo (k + i)) pdos) number =
    (if number <? Z.of_nat k + 1 then None
     else observed_pdo (Z.to_nat (number - 1)) <$> pdos !! Z.to_nat (number - 1 - Z.of_nat k)).
Proof.
  revert k. induction pdos as [|p pdos IH]; intros k; cbn [imap pickPDO].
  { by destruct (number <? _). }
  rewrite Nat.add_0_r. cbn [observed_pdo o_Number].
  destruct (Z.eqb_spec (Z.of_nat k + 1) number) as [He|He].
  - subst number. destruct (Z.ltb_spec (Z.of_nat k + 1) (Z.of_nat k + 1)); [lia|].
    replace (Z.to_nat (Z.of_nat k + 1 - 1 - Z.of_nat k)) with 0%nat by lia.
    by replace (Z.to_nat (Z.of_nat k + 1 - 1)) with k by lia.
  - rewrite (imap_ext _ (λ i, observed_pdo (S k + i))) by (intros; unfold compose; f_equal; lia).
    rewrite IH. destruct (Z.ltb_spec number (Z.of_nat (S k) + 1)), (Z.ltb_spec number (Z.of_nat k + 1)); try lia; [done|].
    by replace (Z.to_nat (number - 1 - Z.of_nat k)) with (S (Z.to_nat (number - 1 - Z.of_nat (S k)))) by lia.
Qed.

Lemma valid_bit c : 0 ≤ c < 2 ^ 32 →
  (Z.land c cobIDInvalidBit = 0 ↔ c < 2 ^ 31) ∧ (c < 2 ^ 31 → Z.ldiff c cobIDInvalidBit = c).
Proof.
  intros Hc. unfold cobIDInvalidBit. assert (Hlow : c < 2 ^ 31 → Z.land c (2 ^ 31) = 0).
  { intros Hlt. apply Z.bits_inj'. intros i Hi. rewrite Z.land_spec, Z.bits_0, Z.pow2_bits_eqb by lia.
    destruct (Z.eqb_spec 31 i) as [<-|]; [|apply andb_false_r].
    rewrite andb_true_r, <-(Z.mod_small c (2 ^ 31)) by lia. apply Z.mod_pow2_bits_high. lia. }
  split; [split; [|done]|].
  - intros H0. apply Z.nle_gt. intros Hge. assert (Ht : Z.testbit (Z.land c (2 ^ 31)) 31 = true).
    { rewrite Z.land_spec, Z.pow2_bits_true by lia. rewrite andb_true_r, Z.testbit_odd, Z.shiftr_div_pow2 by lia.
      by replace (c / 2 ^ 31) with 1 by (apply (Z.div_unique _ _ _ (c - 2 ^ 31)); lia). }
    by rewrite H0, Z.bits_0 in Ht.
  - intros Hlt. specialize (Hlow Hlt). pose proof (Z.lor_ldiff_and c (2 ^ 31)) as Hs.
    by rewrite Hlow, Z.lor_0_r in Hs.
Qed.

Lemma Raw_decoded ws : Forall (λ w, 0 ≤ w < 2 ^ 32) ws → Raw <$> (DecodeMapEntry <$> ws) = ws.
Proof. induction 1 as [|w ws Hw _ IH]; [done|]. rewrite !fmap_cons, IH. by rewrite (proj1 (Raw_Decode w Hw)). Qed.

Lemma carries_programmed od comm map pdos number cob mapping : pdo_table od comm map pdos →
  carries (imap observed_pdo pdos) number cob mapping ↔ programmed pdos number cob mapping.
Proof.
  intros (_ & Hpdos & _). unfold carries, programmed.
  change (imap observed_pdo pdos) with (imap (λ i, observed_pdo (0 + i)) pdos). rewrite pickPDO_imap.
  replace (number - 1 - Z.of_nat 0) with (number - 1) by lia.
  destruct (Z.ltb_spec number (Z.of_nat 0 + 1)).
  { split; [by intros (? & [=] & _)|]. intros (p & ? & _). lia. }
  destruct (pdos !! Z.to_nat (number - 1)) as [p|] eqn:Hp; cbn [fmap option_fmap option_map].
  2:{ split; [by intros (? & [=] & _)|by intros (? & _ & [=] & _)]. }
  destruct (Hpdos _ _ Hp) as (Hcob & _ & _ & Hws & _). destruct (valid_bit _ Hcob) as [Hv1 Hv2].
  split.
  - intros (o & [= <-] & Hen & Hc & Hm). exists p. cbn [observed_pdo o_Enabled o_COBID o_Mapping] in *.
    apply Z.eqb_eq in Hen. apply Hv1 in Hen. rewrite Hv2 in Hc by done. rewrite Raw_decoded in Hm by done.
    split; [lia|]. split; [done|]. split; [done|]. split; [lia|done].
  - intros (q & _ & [= <-] & Hc & Hlt & Hm). eexists. split; [done|].
    cbn [observed_pdo o_Enabled o_COBID o_Mapping]. rewrite Hv2, Raw_decoded by (done || lia).
    split; [|done]. apply Z.eqb_eq, Hv1. lia.
Qed.
