(* ===== verification/CanMapGateway.v ===== *)
(** * CanMapGateway: the registry in the gateway ([cmd/mecomgw/canmap.go])

    The gateway keeps one registry, loaded from a file and replaced by imports, and
    compares it with the devices it is connected to.  Its handlers are functions from
    the decoded request to the answer; the lock of [canmapState] makes each access
    one step.

    The file is what [json.Unmarshal] makes of its content, [None] when it does not
    exist; what a failed write leaves behind is up to the disk. *)
From stdpp Require Import prelude gmap strings list sorting.
From Stdlib Require Import Strings.Byte.
From S2P Require Import Prelude Text CanMap CanMapLive.
Local Open Scope Z_scope.
#[local] Set Warnings "-clear-no-such-hyp".

(** ** The registry and its file *)
Record canmapState := MkCanmapState { cm_path : bytes; cm_registry : option Registry }.

Abbreviation file := (option (res Registry)).

(** [json.Marshal] has a text for every registry, and reading it gives the
    registry back. *)
Definition Encode (r : Registry) : res Registry := Ok r.

(** What the disk does with a write: it works, or it fails and leaves some content. *)
Inductive write_outcome : Type :=
  | Written
  | WriteFailed (e : error) (content : file).

Inductive canmap_error : Type :=
  | ReadFailed (e : error)
  | Rejected (e : registry_error)
  | ReadOnlyRegistry
  | SaveFailed (e : error).

Definition current (st : option canmapState) : option Registry :=
  match st with None => None | Some st => cm_registry st end.

(** [os.ReadFile]: an error other than the file's absence, or the file. *)
Definition loadCanmap (path : bytes) (read : result error file) : result canmap_error canmapState :=
  match path with
  | [] => Ok (MkCanmapState path None)
  | _ =>
      match read with
      | Err e => Err (ReadFailed e)
      | Ok None => Ok (MkCanmapState path None)
      | Ok (Some doc) =>
          match ParseRegistry doc with
          | Err e => Err (Rejected e)
          | Ok r => Ok (MkCanmapState path (Some r))
          end
      end
  end.

(** What the document [null] decodes to. *)
Definition null_registry : Registry := MkRegistry 0 "" "" [] [].

Definition saveLocked (st : canmapState) (disk : write_outcome) (f : file) : option canmap_error * file :=
  match cm_path st with
  | [] => (Some ReadOnlyRegistry, f)
  | _ =>
      let data := match cm_registry st with Some r => Encode r | None => Ok null_registry end in
      match disk with
      | Written => (None, Some data)
      | WriteFailed e content => (Some (SaveFailed e), content)
      end
  end.

Definition replace_registry (reg : Registry) (disk : write_outcome) (st : canmapState) (f : file) :
    canmapState * file * option canmap_error :=
  let prev := cm_registry st in
  let st := MkCanmapState (cm_path st) (Some reg) in
  let '(err, f) := saveLocked st disk f in
  match err with
  | Some e => (MkCanmapState (cm_path st) prev, f, Some e)
  | None => (st, f, None)
  end.

(** ** Live observation *)
Definition CutPrefix (l p : bytes) : option bytes :=
  if HasPrefix l p then Some (drop (length p) l) else None.
Fixpoint Cut (l : bytes) (sep : byte) : option (bytes * bytes) :=
  match l with
  | [] => None
  | b :: l' =>
      if bool_decide (b = sep) then Some ([], l')
      else match Cut l' sep with Some (x, y) => Some (b :: x, y) | None => None end
  end.

Definition canNodeID (endpoint : bytes) : option Z :=
  match CutPrefix endpoint (str "can:") with
  | None => None
  | Some rest =>
      match Cut rest "/"%byte with
      | None => None
      | Some (_, nodeStr) =>
          let nodeStr := TrimSpace nodeStr in
          let '(nodeStr, base) :=
            match CutPrefix (ToLower nodeStr) (str "0x") with
            | Some hexStr => (hexStr, 16)
            | None => (nodeStr, 10)
            end in
          match ParseUint nodeStr base 8 with
          | Err _ => None
          | Ok n => if (n =? 0) || (127 <? n) then None else Some (u8 n)
          end
      end
  end.

Section live.
Context `{SDOReader C}.

(** A device of the gateway: its endpoint, and its client when binding it succeeds
    and the client can read objects. *)
Record deviceBinding := MkDeviceBinding { db_Endpoint : bytes; db_client : option C }.

Definition add_role (m : gmap Z string) (n : Node) : gmap Z string :=
  if n_NodeID n =? 0 then m else <[n_NodeID n := n_Role n]> m.
Definition add_wants (r : Registry) (m : gmap Z (list SDOWrite)) (c : Consumer) : gmap Z (list SDOWrite) :=
  match NodeByRole r (c_Role c) with
  | Some n =>
      if n_NodeID n =? 0 then m
      else <[n_NodeID n := default [] (m !! n_NodeID n) ++ c_SourceSelects c]> m
  | None => m
  end.

(** [obs.Errors = append(obs.Errors, err.Error())]: the error is kept as its
    context and cause. *)
Definition append_error (obs : ObservedNode) (e : error) : ObservedNode :=
  MkObservedNode (on_NodeID obs) (on_RPDOs obs) (on_TPDOs obs) (on_SourceSelects obs)
    (on_Errors obs ++ [CommError 0 e]).

Definition observe_binding (roleByNode : gmap Z string) (wantsByNode : gmap Z (list SDOWrite))
    (observed : gmap Z ObservedNode) (b : deviceBinding) : gmap Z ObservedNode * deviceBinding :=
  match canNodeID (db_Endpoint b) with
  | None => (observed, b)
  | Some nodeID =>
      if roleByNode !! nodeID is None then (observed, b)
      else if observed !! nodeID is Some _ then (observed, b)
      else
        match db_client b with
        | None => (observed, b)
        | Some c =>
            let '(c, (obs, err)) := ObserveNode nodeID (default [] (wantsByNode !! nodeID)) c in
            let obs := match err with Some e => append_error obs e | None => obs end in
            (<[nodeID := obs]> observed, MkDeviceBinding (db_Endpoint b) (Some c))
        end
  end.
Fixpoint observe_bindings (roleByNode : gmap Z string) (wantsByNode : gmap Z (list SDOWrite))
    (observed : gmap Z ObservedNode) (bs : list deviceBinding) : gmap Z ObservedNode * list deviceBinding :=
  match bs with
  | [] => (observed, [])
  | b :: bs =>
      let '(observed, b) := observe_binding roleByNode wantsByNode observed b in
      let '(observed, bs) := observe_bindings roleByNode wantsByNode observed bs in
      (observed, b :: bs)
  end.
Definition roles_by_node (reg : Registry) : gmap Z string := foldl add_role ∅ (r_Nodes reg).
Definition wants_by_node (reg : Registry) : gmap Z (list SDOWrite) :=
  foldl (λ m sig, foldl (add_wants reg) m (s_Consumers sig)) ∅ (r_Signals reg).
Definition observeRegistryNodes (reg : Registry) (bs : list deviceBinding) :
    gmap Z ObservedNode * list deviceBinding :=
  observe_bindings (roles_by_node reg) (wants_by_node reg) ∅ bs.

(** ** Handlers *)
Inductive canmap_body : Type :=
  | ErrorBody (text : string)
  | NoRegistry
  | RegistryBody (r : Registry) (is_pattern : bool)
  | LiveBody (r : Registry) (is_pattern : bool) (observed : gmap Z ObservedNode) (status : list SignalStatus)
  | FileBody (name : string) (r : Registry).
Record canmap_response := MkCanmapResponse { rs_status : Z; rs_body : canmap_body }.

Definition handleCanmap (method live : string) (st : option canmapState) (bs : list deviceBinding) :
    canmap_response * list deviceBinding :=
  if negb (bool_decide (method = "GET"%string)) then (MkCanmapResponse 405 (ErrorBody "GET only"), bs)
  else
    match current st with
    | None => (MkCanmapResponse 200 NoRegistry, bs)
    | Some reg =>
        if bool_decide (live = "1"%string) && negb (IsPattern reg) then
          let '(observed, bs) := observeRegistryNodes reg bs in
          (MkCanmapResponse 200 (LiveBody reg (IsPattern reg) observed (Diff reg observed)), bs)
        else (MkCanmapResponse 200 (RegistryBody reg (IsPattern reg)), bs)
    end.
End live.
Arguments deviceBinding C : clear implicits.

Definition handleCanmapExport (format : string) (st : option canmapState) : canmap_response :=
  match current st with
  | None => MkCanmapResponse 404 (ErrorBody "no CAN signal registry loaded")
  | Some reg =>
      let '(reg, name) :=
        if bool_decide (format = "pattern"%string)
        then (ExportPattern reg, r_Name (ExportPattern reg) +:+ "-pattern")
        else (reg, r_Name reg +:+ "-registry") in
      match Encode reg with
      | Err _ => MkCanmapResponse 500 (ErrorBody "encode")
      | Ok data => MkCanmapResponse 200 (FileBody (name +:+ ".json") data)
      end
  end.

Record canmapImportRequest := MkImportRequest {
  ir_Registry : option Registry; ir_Pattern : option Registry; ir_Name : string; ir_Bindings : list Binding }.

Section import.
Context (range : gmap string Binding → list (string * Binding)).

(** The registry a request asks for, or the answer that refuses it. *)
Definition requested (req : canmapImportRequest) : result canmap_response Registry :=
  match ir_Registry req, ir_Pattern req with
  | Some _, Some _ => Err (MkCanmapResponse 400 (ErrorBody "provide either registry or pattern, not both"))
  | Some r, None =>
      if IsPattern r
      then Err (MkCanmapResponse 400 (ErrorBody "registry has no node bindings; import it as pattern with bindings"))
      else match Validate r with
           | [] => Ok r
           | _ => Err (MkCanmapResponse 400 (ErrorBody "invalid registry"))
           end
  | None, Some p =>
      match Instantiate range p (ir_Name req) (ir_Bindings req) with
      | Err _ => Err (MkCanmapResponse 400 (ErrorBody "canmap"))
      | Ok r => Ok r
      end
  | None, None => Err (MkCanmapResponse 400 (ErrorBody "body must carry registry or pattern"))
  end.

Definition handleCanmapImport (method : string) (req : res canmapImportRequest) (disk : write_outcome)
    (st : option canmapState) (f : file) : canmap_response * option canmapState * file :=
  if negb (bool_decide (method = "POST"%string)) then (MkCanmapResponse 405 (ErrorBody "POST only"), st, f)
  else
    match st with
    | None => (MkCanmapResponse 409 (ErrorBody "gateway started without -canmap path; registry is read-only"), st, f)
    | Some s =>
        if bool_decide (cm_path s = [])
        then (MkCanmapResponse 409 (ErrorBody "gateway started without -canmap path; registry is read-only"), st, f)
        else
          match req with
          | Err _ => (MkCanmapResponse 400 (ErrorBody "invalid JSON"), st, f)
          | Ok req =>
              match requested req with
              | Err resp => (resp, st, f)
              | Ok reg =>
                  if negb (r_SchemaVersion reg =? SchemaVersion)
                  then (MkCanmapResponse 400 (ErrorBody "unsupported schema_version"), st, f)
                  else
                    let '(s, f, err) := replace_registry reg disk s f in
                    match err with
                    | Some _ => (MkCanmapResponse 500 (ErrorBody "persist registry"), Some s, f)
                    | None => (MkCanmapResponse 200 (RegistryBody reg false), Some s, f)
                    end
              end
          end
    end.
End import.

(** ** The file and the published registry *)

(** A gateway started now would publish what this one publishes. *)
Definition in_sync (st : canmapState) (f : file) : Prop := loadCanmap (cm_path st) (Ok f) = Ok st.

Lemma requested_valid range req reg : requested range req = Ok reg → Validate reg = [].
Proof.
  unfold requested. destruct (ir_Registry req) as [r|], (ir_Pattern req) as [p|]; try done.
  - destruct (IsPattern r); [done|]. destruct (Validate r) eqn:Hv; [|done]. by intros [= <-].
  - intros H. destruct (Instantiate range p (ir_Name req) (ir_Bindings req)) as [r|e] eqn:Hi; [|done].
    injection H as <-. unfold Instantiate in Hi.
    apply bind_Ok_inv in Hi as (byRole & _ & Hi). apply bind_Ok_inv in Hi as (seen & _ & Hi).
    destruct (bind_nodes _ _) as [[nodes unused] missing]. cbv zeta in Hi.
    destruct (0 <? length missing)%nat; [done|]. destruct (0 <? size unused)%nat; [done|].
    destruct (Validate _) eqn:Hv in Hi; [|done]. by injection Hi as <-.
Qed.

Lemma stored_loads path reg : path ≠ [] → Validate reg = [] → r_SchemaVersion reg = SchemaVersion →
  in_sync (MkCanmapState path (Some reg)) (Some (Encode reg)).
Proof.
  intros Hp Hv Hs. unfold in_sync. cbn [cm_path]. unfold loadCanmap, ParseRegistry, Encode.
  destruct path as [|b path]; [done|]. by rewrite Hs, Hv.
Qed.

(** An import never leaves a registry published that a restart would not find.
    Whatever is imported (a registry, a pattern with bindings, neither, both, no
    JSON), as long as the file agrees with the published registry before: an answer
    200 publishes the registry it returns and the file agrees again; any other
    answer leaves the published registry alone, and the file too unless the write
    itself failed (500). *)
Theorem import_keeps_file range method req disk s f :
  in_sync s f →
  ∃ resp s' f', handleCanmapImport range method req disk (Some s) f = (resp, Some s', f') ∧
    ((rs_status resp = 200 ∧ in_sync s' f' ∧ cm_path s' = cm_path s ∧
        ∃ reg, rs_body resp = RegistryBody reg false ∧ cm_registry s' = Some reg ∧ well_formed reg) ∨
     (rs_status resp ≠ 200 ∧ s' = s ∧ (f' = f ∨ rs_status resp = 500 ∧ ∃ e, disk = WriteFailed e f'))).
Proof.
  intros Hsync. unfold handleCanmapImport.
  destruct (negb (bool_decide (method = "POST"%string))); [by do 3 eexists; split; [done|right; eauto]|].
  destruct (bool_decide_reflect (cm_path s = [])) as [|Hp]; [by do 3 eexists; split; [done|right; eauto]|].
  destruct req as [req|e]; [|by do 3 eexists; split; [done|right; eauto]].
  destruct (requested range req) as [reg|resp] eqn:Hreq.
  - destruct (Z.eqb_spec (r_SchemaVersion reg) SchemaVersion) as [Hv|Hv]; cbn [negb];
      [|by do 3 eexists; split; [done|right; eauto]].
    apply requested_valid in Hreq. unfold replace_registry, saveLocked. cbn [cm_path cm_registry].
    destruct (cm_path s) as [|b path] eqn:Hpath; [done|]. destruct disk as [|e content].
    + do 3 eexists. split; [done|]. left. split; [done|]. split; [by apply stored_loads|]. split; [done|].
      exists reg. split; [done|]. split; [done|]. by apply Validate_well_formed.
    + do 3 eexists. split; [done|]. right. cbn [rs_status]. split; [done|]. split; [|eauto].
      rewrite <-Hpath. by destruct s.
  - exists resp, s, f. split; [done|]. right. split; [|by auto].
    unfold requested in Hreq. destruct (ir_Registry req) as [r|], (ir_Pattern req) as [p|]; simplify_eq; try done.
    + destruct (IsPattern r); [by simplify_eq|]. by destruct (Validate r); simplify_eq.
    + by destruct (Instantiate range p (ir_Name req) (ir_Bindings req)); simplify_eq.
Qed.

Lemma import_keeps_file_witness :
  let st := MkCanmapState (str "canmap.json") None in
  let bind := [MkBinding "tec-b" 9 "B"; MkBinding "rmm" 8 ""; MkBinding "tec-a" 5 ""] in
  let req := Ok (MkImportRequest None (Some (ExportPattern bench)) "copy" bind) in
  in_sync st None ∧
  ∃ resp s' f', handleCanmapImport map_to_list "POST" req Written (Some st) None = (resp, Some s', f') ∧
    rs_status resp = 200 ∧ in_sync s' f'.
Proof.
  intros st bind req. split; [reflexivity|].
  destruct (import_keeps_file map_to_list "POST" req Written st None eq_refl) as (resp & s' & f' & Hr & Hc).
  exists resp, s', f'. split; [exact Hr|].
  assert (Hs : rs_status (handleCanmapImport map_to_list "POST" req Written (Some st) None).1.1 = 200)
    by (vm_compute; reflexivity).
  rewrite Hr in Hs. cbn [fst] in Hs.
  destruct Hc as [(H1 & H2 & _)|(Hn & _)]; [exact (conj H1 H2)|exact (False_ind _ (Hn Hs))].
Defined.

(** ** The live check *)
Lemma roles_by_node_dom nodes m id : is_Some (foldl add_role m nodes !! id) ↔
  is_Some (m !! id) ∨ ∃ n, n ∈ nodes ∧ n_NodeID n = id ∧ id ≠ 0.
Proof.
  revert m. induction nodes as [|n nodes IH]; intros m; cbn [foldl].
  { split; [by left|]. intros [?|(n & Hn%elem_of_nil & _)]; done. }
  rewrite IH. unfold add_role. setoid_rewrite elem_of_cons. destruct (Z.eqb_spec (n_NodeID n) 0) as [H0|H0].
  - split; [naive_solver|]. intros [?|(n' & [->|?] & ? & ?)]; [by left|congruence|right; eauto].
  - rewrite lookup_insert_is_Some'. split; [|naive_solver].
    intros [[Hid|?]|(n' & ? & ? & ?)]; [right; exists n; subst; auto|by left|right; eauto].
Qed.

(** The node number a role is bound to. *)
Definition bound_node (reg : Registry) (role : string) : option Z :=
  n ← NodeByRole reg role; guard (n_NodeID n ≠ 0);; Some (n_NodeID n).

Lemma node_by_role_in nodes role n : node_by_role nodes role = Some n → n ∈ nodes.
Proof.
  induction nodes as [|n' nodes IH]; cbn [node_by_role]; [done|].
  destruct (bool_decide (n_Role n' = role)); [intros [= ->]; by left|]. intros H. right. auto.
Qed.

Lemma bound_node_role reg role id : bound_node reg role = Some id → is_Some (roles_by_node reg !! id).
Proof.
  unfold bound_node, NodeByRole. destruct (node_by_role (r_Nodes reg) role) as [n|] eqn:Hn; [|done].
  cbn [mbind option_bind]. destruct (decide (n_NodeID n ≠ 0)) as [H0|H0].
  - rewrite option_guard_True by done. intros [= <-]. apply roles_by_node_dom. right.
    exists n. split; [by eapply node_by_role_in|done].
  - by rewrite option_guard_False.
Qed.

Lemma add_wants_in reg m c id w : w ∈ default [] (add_wants reg m c !! id) ↔
  w ∈ default [] (m !! id) ∨ bound_node reg (c_Role c) = Some id ∧ w ∈ c_SourceSelects c.
Proof.
  unfold add_wants, bound_node. destruct (NodeByRole reg (c_Role c)) as [n|]; cbn [mbind option_bind];
    [|naive_solver].
  destruct (Z.eqb_spec (n_NodeID n) 0) as [H0|H0].
  - rewrite option_guard_False by (by intros ?). naive_solver.
  - rewrite option_guard_True by done. destruct (decide (id = n_NodeID n)) as [->|Hne].
    + rewrite lookup_insert_eq. cbn [from_option]. unfold id at 1. rewrite elem_of_app. naive_solver.
    + rewrite lookup_insert_ne by congruence. naive_solver.
Qed.

Lemma wants_in reg sig c id w : sig ∈ r_Signals reg → c ∈ s_Consumers sig →
  bound_node reg (c_Role c) = Some id → w ∈ c_SourceSelects c → w ∈ default [] (wants_by_node reg !! id).
Proof.
  intros Hsig Hc Hb Hw. unfold wants_by_node. generalize (∅ : gmap Z (list SDOWrite)) as m.
  assert (Hcs : ∀ cs m, w ∈ default [] (m !! id) ∨ c ∈ cs → w ∈ default [] (foldl (add_wants reg) m cs !! id)).
  { induction cs as [|c' cs IH]; intros m Hor; cbn [foldl].
    - by destruct Hor as [?|?%elem_of_nil].
    - apply IH. rewrite add_wants_in. destruct Hor as [?|[<-|?]%elem_of_cons]; auto. }
  assert (Hkeep : ∀ sigs m, w ∈ default [] (m !! id) →
    w ∈ default [] (foldl (λ m sig, foldl (add_wants reg) m (s_Consumers sig)) m sigs !! id)).
  { induction sigs as [|s sigs IH]; intros m Hm; cbn [foldl]; auto. }
  induction (r_Signals reg) as [|s sigs IH]; intros m; [by apply elem_of_nil in Hsig|].
  apply elem_of_cons in Hsig as [<-|Hsig]; cbn [foldl]; [apply Hkeep, Hcs; by right|by apply IH].
Qed.

Lemma wants_typed reg id :
  Forall (λ sig, Forall (λ c, Forall want_typed (c_SourceSelects c)) (s_Consumers sig)) (r_Signals reg) →
  Forall want_typed (default [] (wants_by_node reg !! id)).
Proof.
  intros Ht. unfold wants_by_node.
  assert (Hm : Forall want_typed (default [] ((∅ : gmap Z (list SDOWrite)) !! id))) by (rewrite lookup_empty; constructor).
  revert Hm. generalize (∅ : gmap Z (list SDOWrite)) as m.
  induction Ht as [|sig sigs Hsig _ IH]; intros m Hm; cbn [foldl]; [done|]. apply IH.
  revert m Hm. induction Hsig as [|c cs Hc _ IHc]; intros m Hm; cbn [foldl]; [done|]. apply IHc.
  apply Forall_forall. intros w [Hw|[_ Hw]]%add_wants_in;
    [exact (proj1 (Forall_forall _ _) Hm w Hw)|exact (proj1 (Forall_forall _ _) Hc w Hw)].
Qed.

Section live_check.
Context `{SDOReader C} (od : Z → Z → Z → option bytes) (quiet : Z → nat → C → Prop).
Context (rpdos tpdos : Z → list pdo_config).
Hypothesis devices : ∀ id, sdo_device (od id) (quiet id).
Hypothesis receive_tables : ∀ id, pdo_table (od id) rpdoCommBase rpdoMapBase (rpdos id).
Hypothesis transmit_tables : ∀ id, pdo_table (od id) tpdoCommBase tpdoMapBase (tpdos id).

(** The gateway has a working client of the node. *)
Definition connected (bs : list (deviceBinding C)) (id : Z) : Prop :=
  ∃ b c, b ∈ bs ∧ db_client b = Some c ∧ canNodeID (db_Endpoint b) = Some id.
Definition all_quiet (bs : list (deviceBinding C)) : Prop :=
  ∀ b c id, b ∈ bs → db_client b = Some c → canNodeID (db_Endpoint b) = Some id → quiet id 3%nat c.

Definition observation_of (wants : gmap Z (list SDOWrite)) (id : Z) (obs : ObservedNode) : Prop :=
  on_RPDOs obs = imap observed_pdo (rpdos id) ∧ on_TPDOs obs = imap observed_pdo (tpdos id) ∧
  ∀ w, w ∈ default [] (wants !! id) → select_live obs w = live_select (od id) w.

Lemma connected_cons b bs id : connected (b :: bs) id ↔
  (is_Some (db_client b) ∧ canNodeID (db_Endpoint b) = Some id) ∨ connected bs id.
Proof using.
  unfold connected. split.
  - intros (b' & c & [->|Hb]%elem_of_cons & Hc & Hid); [left; by rewrite Hc|right; eauto].
  - intros [[[c Hc] Hid]|(b' & c & Hb & ?)]; [exists b, c; split; [by left|done]|exists b', c; split; [by right|done]].
Qed.

Lemma observe_bindings_spec roles wants bs observed :
  (∀ id, Forall want_typed (default [] (wants !! id))) → all_quiet bs →
  (∀ id obs, observed !! id = Some obs → observation_of wants id obs) →
  ∃ observed' bs', observe_bindings roles wants observed bs = (observed', bs') ∧
    (∀ id obs, observed' !! id = Some obs → observation_of wants id obs) ∧
    (∀ id, is_Some (observed' !! id) ↔ is_Some (observed !! id) ∨ is_Some (roles !! id) ∧ connected bs id).
Proof using devices receive_tables transmit_tables.
  intros Hw. revert observed. induction bs as [|b bs IH]; intros observed Hq Hobs; cbn [observe_bindings].
  { exists observed, []. split; [done|]. split; [done|]. intros id. split; [by left|].
    intros [?|(_ & ? & ? & ?%elem_of_nil & _)]; done. }
  assert (Hqs : all_quiet bs) by (intros b' c id Hb'; apply Hq; by right).
  assert (Hskip : observe_binding roles wants observed b = (observed, b) →
    (∀ id, is_Some (roles !! id) → is_Some (db_client b) → canNodeID (db_Endpoint b) = Some id → is_Some (observed !! id)) →
    ∃ observed' bs', (let '(observed, b) := observe_binding roles wants observed b in
        let '(observed, bs) := observe_bindings roles wants observed bs in (observed, b :: bs)) = (observed', bs') ∧
      (∀ id obs, observed' !! id = Some obs → observation_of wants id obs) ∧
      (∀ id, is_Some (observed' !! id) ↔ is_Some (observed !! id) ∨ is_Some (roles !! id) ∧ connected (b :: bs) id)).
  { intros -> Hb. destruct (IH observed Hqs Hobs) as (o' & bs' & -> & Ho & Hi).
    exists o', (b :: bs'). split; [done|]. split; [done|]. intros id. rewrite Hi, connected_cons. naive_solver. }
  unfold observe_binding in *. destruct (canNodeID (db_Endpoint b)) as [id|] eqn:Hid; [|apply Hskip; naive_solver].
  destruct (roles !! id) as [role|] eqn:Hr; [|apply Hskip; [done|]; intros id' [? Hs] _ [= <-]; congruence].
  destruct (observed !! id) as [obs|] eqn:Ho; [apply Hskip; [done|]; intros id' _ _ [= <-]; by rewrite Ho|].
  destruct (db_client b) as [c|] eqn:Hc; [|apply Hskip; [done|]; by intros id' _ [? [=]]].
  clear Hskip. destruct (ObserveNode_device (od id) (quiet id) (devices id) id (default [] (wants !! id))
    (rpdos id) (tpdos id) c) as (c' & sel & errs & -> & _ & Hsel & _); [done..|by eapply Hq; [left|..]|].
  destruct (IH (<[id := MkObservedNode id (imap observed_pdo (rpdos id)) (imap observed_pdo (tpdos id)) sel errs]> observed)
    Hqs) as (o' & bs' & -> & Hgood & Hi).
  { intros id' obs Hl. apply lookup_insert_Some in Hl as [[<- <-]|[_ Hl]]; [done|by apply Hobs]. }
  eexists o', _. split; [done|]. split; [done|]. intros id'. rewrite Hi, connected_cons, lookup_insert_is_Some', Hid, Hc.
  split; [|naive_solver]. intros [[->|?]|?]; [right; rewrite Hr; split; [done|left; by split; [eexists|]]|by left|naive_solver].
Qed.

(** What the registry asks of the nodes, and what a node may have different. *)
Definition live_node (reg : Registry) (bs : list (deviceBinding C)) (role : string) (id : Z) : Prop :=
  bound_node reg role = Some id ∧ connected bs id.
Definition realised (reg : Registry) (bs : list (deviceBinding C)) (sig : Signal) : Prop :=
  (∃ id, live_node reg bs (p_Role (s_Producer sig)) id ∧
     programmed (tpdos id) (p_TPDO (s_Producer sig)) (s_COBID sig) (p_Mapping (s_Producer sig))) ∧
  Forall (λ c, ∃ id, live_node reg bs (c_Role c) id ∧
     programmed (rpdos id) (c_RPDO c) (s_COBID sig) (c_Mapping c) ∧
     Forall (λ w, live_select (od id) w = Some (w_Value w)) (c_SourceSelects c)) (s_Consumers sig).
Definition misconfigured (reg : Registry) (bs : list (deviceBinding C)) (sig : Signal) : Prop :=
  (∃ id, live_node reg bs (p_Role (s_Producer sig)) id ∧
     ¬ programmed (tpdos id) (p_TPDO (s_Producer sig)) (s_COBID sig) (p_Mapping (s_Producer sig))) ∨
  Exists (λ c, ∃ id, live_node reg bs (c_Role c) id ∧
     (¬ programmed (rpdos id) (c_RPDO c) (s_COBID sig) (c_Mapping c) ∨
      Exists (λ w, ∃ v, live_select (od id) w = Some v ∧ v ≠ w_Value w) (c_SourceSelects c))) (s_Consumers sig).

Lemma observed_role_bound reg observed role obs : observed_role reg observed role = Some obs ↔
  ∃ id, bound_node reg role = Some id ∧ observed !! id = Some obs.
Proof using.
  unfold observed_role, bound_node. destruct (NodeByRole reg role) as [n|]; cbn [mbind option_bind]; [|naive_solver].
  destruct (decide (n_NodeID n ≠ 0)); [rewrite !option_guard_True by done|rewrite !option_guard_False by done];
    cbn [mbind option_bind]; naive_solver.
Qed.

(** Comparing with the observation of a role is comparing with its node. *)
Lemma role_observed reg bs observed role (P : ObservedNode → Prop) (Q : Z → Prop) :
  (∀ id obs, observed !! id = Some obs → observation_of (wants_by_node reg) id obs) →
  (∀ id, is_Some (observed !! id) ↔ is_Some (roles_by_node reg !! id) ∧ connected bs id) →
  (∀ id obs, bound_node reg role = Some id → observation_of (wants_by_node reg) id obs → (P obs ↔ Q id)) →
  (∃ obs, observed_role reg observed role = Some obs ∧ P obs) ↔ (∃ id, live_node reg bs role id ∧ Q id).
Proof using.
  intros Hobs Hdom HPQ. unfold live_node. setoid_rewrite observed_role_bound. split.
  - intros (obs & (id & Hb & Ho) & HP). exists id. destruct (proj1 (Hdom id)) as [_ Hc]; [by eexists|].
    split; [done|]. by eapply HPQ; eauto.
  - intros (id & (Hb & Hc) & HQ). destruct (proj2 (Hdom id)) as [obs Ho].
    { split; [by eapply bound_node_role|done]. }
    exists obs. split; [by exists id|]. by eapply HPQ; eauto.
Qed.

Lemma carries_table id comm map pdos number cob mapping obs :
  pdo_table (od id) comm map pdos → obs = imap observed_pdo pdos →
  carries obs number cob mapping ↔ programmed pdos number cob mapping.
Proof using. intros Ht ->. by eapply carries_programmed. Qed.

Lemma signal_configured reg bs observed sig : sig ∈ r_Signals reg →
  (∀ id obs, observed !! id = Some obs → observation_of (wants_by_node reg) id obs) →
  (∀ id, is_Some (observed !! id) ↔ is_Some (roles_by_node reg !! id) ∧ connected bs id) →
  (signal_agrees reg observed sig ↔ realised reg bs sig) ∧
  (signal_contradicted reg observed sig ↔ misconfigured reg bs sig).
Proof using receive_tables transmit_tables.
  intros Hsig Hobs Hdom. unfold signal_agrees, signal_contradicted, realised, misconfigured.
  assert (Hp : ∀ id obs, observation_of (wants_by_node reg) id obs → producer_agrees sig obs ↔
    programmed (tpdos id) (p_TPDO (s_Producer sig)) (s_COBID sig) (p_Mapping (s_Producer sig))).
  { intros id obs (_ & Ht & _). by eapply (carries_table id _ _ _ _ _ _ _ (transmit_tables id)). }
  assert (Hc : ∀ c id obs, observation_of (wants_by_node reg) id obs →
    consumer_agrees sig c obs ↔ programmed (rpdos id) (c_RPDO c) (s_COBID sig) (c_Mapping c)).
  { intros c id obs (Hr & _). by eapply (carries_table id _ _ _ _ _ _ _ (receive_tables id)). }
  assert (Hs : ∀ c id obs w, c ∈ s_Consumers sig → bound_node reg (c_Role c) = Some id →
    observation_of (wants_by_node reg) id obs → w ∈ c_SourceSelects c → select_live obs w = live_select (od id) w).
  { intros c id obs w Hin Hb (_ & _ & Hw) Hwin. by eapply Hw, wants_in. }
  rewrite !Forall_forall, !Exists_exists. split.
  - apply Morphisms_Prop.and_iff_morphism; [eapply role_observed; [done..|]; intros id obs _ Ho; by apply Hp|].
    apply forall_proper. intros c. apply forall_proper. intros Hin.
    eapply role_observed; [done..|]. intros id obs Hb Ho. rewrite (Hc c id obs Ho), !Forall_forall.
    apply and_iff_compat_l, forall_proper. intros w. apply forall_proper. intros Hw. by rewrite (Hs c id obs w).
  - apply Morphisms_Prop.or_iff_morphism; [eapply role_observed; [done..|]; intros id obs _ Ho; by rewrite (Hp id obs Ho)|].
    apply exist_proper. intros c. split; (intros [Hin Hex]; split; [done|]); revert Hex.
    + apply role_observed; [done..|]. intros id obs Hb Ho. rewrite (Hc c id obs Ho), !Exists_exists.
      apply or_iff_compat_l, exist_proper. intros w. split; intros [Hw Hv]; (split; [done|]);
        [rewrite <-(Hs c id obs w)|rewrite (Hs c id obs w)]; done.
    + apply role_observed; [done..|]. intros id obs Hb Ho. rewrite (Hc c id obs Ho), !Exists_exists.
      apply or_iff_compat_l, exist_proper. intros w. split; intros [Hw Hv]; (split; [done|]);
        [rewrite <-(Hs c id obs w)|rewrite (Hs c id obs w)]; done.
Qed.

(** C10: the live check tells the truth about the bench. The gateway answers a live
    request by observing every connected node the registry mentions, over a bus where
    up to three reads in a row may be lost, and gives one status per signal. A signal
    is a match exactly when the producer and all consumers are bound to connected
    nodes whose PDOs carry the signal's COB-ID, enabled, with the mapping of the
    registry, and all source selections have their values; it is drift exactly when
    some connected node has a PDO or a source selection that differs. *)
Theorem live_check_faithful path reg bs :
  IsPattern reg = false →
  Forall (λ sig, Forall (λ c, Forall want_typed (c_SourceSelects c)) (s_Consumers sig)) (r_Signals reg) →
  all_quiet bs →
  ∃ observed bs', handleCanmap "GET" "1" (Some (MkCanmapState path (Some reg))) bs =
      (MkCanmapResponse 200 (LiveBody reg false observed (Diff reg observed)), bs') ∧
    Diff reg observed ≡ₚ (diff_signal reg observed <$> r_Signals reg) ∧
    ∀ sig, sig ∈ r_Signals reg →
      st_Signal (diff_signal reg observed sig) = s_Name sig ∧
      (st_Verdict (diff_signal reg observed sig) = VerdictMatch ↔ realised reg bs sig) ∧
      (st_Verdict (diff_signal reg observed sig) = VerdictDrift ↔ misconfigured reg bs sig).
Proof using devices receive_tables transmit_tables.
  intros Hpattern Htyped Hq.
  destruct (observe_bindings_spec (roles_by_node reg) (wants_by_node reg) bs ∅) as (observed & bs' & Ho & Hobs & Hdom);
    [intros id; by apply wants_typed|done|intros id obs Hl; by rewrite lookup_empty in Hl|].
  exists observed, bs'. unfold handleCanmap. rewrite bool_decide_true by done. cbn [negb current cm_registry].
  rewrite bool_decide_true, Hpattern by done. cbn [andb negb]. unfold observeRegistryNodes. rewrite Ho.
  split; [done|]. split; [apply Diff_sorted|]. intros sig Hsig. split; [done|].
  destruct (diff_signal_spec reg observed sig) as [-> ->]. apply signal_configured; [done..|].
  intros id. rewrite Hdom, lookup_empty. split; [intros [[? [=]]|]; done|by right].
Qed.
End live_check.

(** A bench whose readers lose every object three times before they deliver it. *)
Definition objects (l : list (Z * Z * bytes)) (index sub : Z) : option bytes :=
  snd <$> List.find (λ o, (o.1.1 =? index) && (o.1.2 =? sub)) l.
Definition bench_pdo (mapping : list MapEntry) : pdo_config := MkPDOConfig 0x185 255 (Raw <$> mapping).
Definition pdo_list (comm map : Z) (mapping : list MapEntry) : list (Z * Z * bytes) :=
  [(comm, 1, le_put 4 0x185); (comm, 2, [zb 255]); (map, 0, [zb (Z.of_nat (length mapping))])] ++
  imap (λ i e, (map, Z.of_nat i + 1, le_put 4 (Raw e))) mapping.
Definition tec_a_map := [MkMapEntry 0x3201 1 32 ""; MkMapEntry 0x3201 2 32 ""].
Definition tec_b_map := [MkMapEntry 0x3201 1 32 ""; MkMapEntry 0x3202 1 32 ""].
Definition bench_od (id : Z) : Z → Z → option bytes :=
  if id =? 5 then objects (pdo_list 0x1800 0x1A00 temperature)
  else if id =? 6 then objects (pdo_list 0x1400 0x1600 tec_a_map ++ [(0x3300, 1, le_put 4 7)])
  else if id =? 7 then objects (pdo_list 0x1400 0x1600 tec_a_map ++ pdo_list 0x1401 0x1601 tec_b_map)
  else λ _ _, None.
Definition bench_rpdos (id : Z) : list pdo_config :=
  if id =? 6 then [bench_pdo tec_a_map]
  else if id =? 7 then [bench_pdo tec_a_map; bench_pdo tec_b_map] else [].
Definition bench_tpdos (id : Z) : list pdo_config := if id =? 5 then [bench_pdo temperature] else [].

#[local] Instance lossy_reader : SDOReader (Z * nat) := {|
  reader_ReadSDORaw index sub c :=
    match c with
    | (id, S k) => ((id, k), Err (Sentinel ErrTimeout))
    | (id, O) =>
        ((id, 3%nat), match bench_od id index sub with
                      | Some d => Ok d
                      | None => Err (SDOAbortError index sub 0x06020000)
                      end)
    end;
  ctx_Err c := (c, None) |}.
Definition lossy_quiet (id : Z) (n : nat) (c : Z * nat) : Prop := c.1 = id ∧ (c.2 ≤ n)%nat.

Lemma lossy_device id : sdo_device (bench_od id) (lossy_quiet id).
Proof.
  split; [intros n c Hq; by exists c|]. intros n [id' k] index sub [Hid Hk]. cbn in Hid, Hk. subst id'.
  destruct k as [|k]; cbn.
  - eexists _, _. split; [done|]. right. split; [by split; cbn; [|lia]|].
    destruct (bench_od id index sub); [done|]. by eexists.
  - eexists _, _. split; [done|]. left. exists (pred n), (Sentinel ErrTimeout).
    split; [lia|]. split; [done|]. split; [done|]. split; cbn; [done|lia].
Qed.

Lemma bench_tables id :
  pdo_table (bench_od id) rpdoCommBase rpdoMapBase (bench_rpdos id) ∧
  pdo_table (bench_od id) tpdoCommBase tpdoMapBase (bench_tpdos id).
Proof.
  assert (Hnone : ∀ comm map, pdo_table (λ _ _, None) comm map []).
  { intros comm map. split; [simpl; unfold maxScanPDOs; lia|]. split; [by intros i p [=]|done]. }
  unfold bench_od, bench_rpdos, bench_tpdos.
  destruct (Z.eqb_spec id 5) as [->|_]; [|destruct (Z.eqb_spec id 6) as [->|_]; [|destruct (Z.eqb_spec id 7) as [->|_]]];
    cbn [Z.eqb Pos.eqb]; [..|done].
  all: split; (split; [simpl; unfold maxScanPDOs; lia|]; split; [|intros _; vm_compute; reflexivity]).
  all: intros [|[|i]] p Hp; try done; injection Hp as <-.
  all: split; [vm_compute; split; congruence|]; split; [vm_compute; split; congruence|]; split; [simpl; lia|].
  all: split; [repeat constructor; vm_compute; congruence|]; split; [vm_compute; reflexivity|].
  all: split; [vm_compute; reflexivity|]; split; [vm_compute; reflexivity|].
  all: intros [|[|s]] w Hw; try done; injection Hw as <-; vm_compute; reflexivity.
Qed.

Lemma live_check_faithful_witness :
  let bs := [MkDeviceBinding (C := Z * nat) (str "can:can0/5") (Some (5, 3%nat));
             MkDeviceBinding (C := Z * nat) (str "serial:/dev/ttyUSB0") None;
             MkDeviceBinding (C := Z * nat) (str "can:can0/0x06") (Some (6, 3%nat));
             MkDeviceBinding (C := Z * nat) (str "can:can1/7") (Some (7, 0%nat))] in
  let sig := default (MkSignal 0 "" "" (MkProducer "" 0 []) [] 0 false "") (head (r_Signals bench)) in
  ∃ observed bs', handleCanmap "GET" "1" (Some (MkCanmapState [] (Some bench))) bs =
      (MkCanmapResponse 200 (LiveBody bench false observed (Diff bench observed)), bs') ∧
    st_Verdict (diff_signal bench observed sig) = VerdictMatch.
Proof.
  intros bs sig.
  destruct (live_check_faithful bench_od lossy_quiet bench_rpdos bench_tpdos lossy_device
    (λ id, proj1 (bench_tables id)) (λ id, proj2 (bench_tables id)) [] bench bs)
    as (observed & bs' & Hr & _ & Hv).
  - reflexivity.
  - repeat constructor; cbn; lia.
  - intros b c id Hb. unfold bs in Hb.
    repeat (apply elem_of_cons in Hb as [->|Hb];
      [intros Hc Hid; first [discriminate Hc|injection Hc as <-; vm_compute in Hid; injection Hid as <-;
       split; [reflexivity|cbn; lia]]|]).
    by apply elem_of_nil in Hb.
  - exists observed, bs'. split; [exact Hr|]. apply (Hv sig); [by left|].
    assert (Hconn : connected bs 5 ∧ connected bs 6 ∧ connected bs 7).
    { assert (Hc : ∀ i b c id, bs !! i = Some b → db_client b = Some c → canNodeID (db_Endpoint b) = Some id →
        connected bs id)
        by (intros i b c id Hb H1 H2; exact (ex_intro _ b (ex_intro _ c (conj (list_elem_of_lookup_2 _ i _ Hb) (conj H1 H2))))).
      split; [|split]; [eapply (Hc 0%nat)|eapply (Hc 2%nat)|eapply (Hc 3%nat)]; first [reflexivity|vm_compute; reflexivity]. }
    destruct Hconn as (H5 & H6 & H7).
    assert (Hp : ∀ pdos i mapping, pdos !! i = Some (bench_pdo mapping) →
      programmed pdos (Z.of_nat i + 1) 0x185 mapping).
    { intros pdos i mapping Hi. exists (bench_pdo mapping). split; [lia|].
      replace (Z.to_nat (Z.of_nat i + 1 - 1)) with i by lia. split; [exact Hi|]. split; [reflexivity|].
      split; [lia|reflexivity]. }
    split; [|constructor; [|constructor; [|constructor]]].
    + exists 5. split; [split; [reflexivity|exact H5]|]. exact (Hp (bench_tpdos 5) 0%nat temperature eq_refl).
    + exists 6. split; [split; [reflexivity|exact H6]|]. split; [exact (Hp (bench_rpdos 6) 0%nat tec_a_map eq_refl)|].
      constructor; [vm_compute; reflexivity|constructor].
    + exists 7. split; [split; [reflexivity|exact H7]|]. split; [exact (Hp (bench_rpdos 7) 1%nat tec_b_map eq_refl)|constructor].
Defined.
