(* ===== verification/Commander.v ===== *)
(** * Commander: telecommands to device writes ([mecom/commander.go])

    A commander carries out named telecommands on a device: it reads the arguments,
    asks an authorizer, writes, and reads a number back.  The clients are the
    optional interfaces of [mecom/writeclient.go], as in [BridgePayload.v].

    The arguments come from JSON or from Go code, so a value has one of several
    types.  A call runs on the state of the client and the state behind the
    authorizer.  The telecommand and event types belong to an external package:
    here are the fields the program uses. *)
From stdpp Require Import prelude gmap strings list.
From Stdlib Require Import Strings.Byte Floats.SpecFloat.
From S2P Require Import Prelude Text Floats Protocol BridgePayload.
Local Open Scope Z_scope.

(** ** Telecommands and events *)
Inductive argument : Type :=
  | ArgInt (z : Z)
  | ArgInt32 (z : Z)
  | ArgInt64 (z : Z)
  | ArgFloat32 (f : f32)
  | ArgFloat64 (f : f64)
  | ArgNumber (text : bytes)
  | ArgString (s : bytes)
  | ArgOther.
Abbreviation arguments := (gmap string argument).

Record Telecommand := MkTelecommand {
  tc_ID : string; tc_SessionID : string; tc_TargetID : string; tc_Name : string;
  tc_Arguments : arguments; tc_IdempotencyKey : string; tc_Metadata : gmap string bytes }.

Inductive CommandStatus : Type := CommandCompleted | CommandRejected | CommandFailed.
Record CommandEvent := MkCommandEvent {
  ev_CommandID : string; ev_SessionID : string; ev_IdempotencyKey : string;
  ev_Status : CommandStatus; ev_Error : option error }.

(** ** Arguments *)
Definition missing_arg : error := Errorf "missing %q argument" [].
Definition invalid_arg : error := Errorf "invalid %q" [].
Definition invalid_type : error := Errorf "invalid %q type %T" [].

Definition maxInt : Z := 2 ^ 63 - 1.
Definition minInt : Z := - 2 ^ 63.

(** A conversion to [int64] that does not fit is what amd64 makes of it. *)
Definition int64_of_float (v : f64) : Z :=
  let z := to_int v in if (minInt <=? z) && (z <=? maxInt) then z else minInt.

Definition checkedInt64Arg (v : Z) : res Z :=
  if (v <? minInt) || (maxInt <? v) then Err (Errorf "invalid %q: %d overflows int" [v]) else Ok v.

(** [math.Trunc(v) == v]: the values with this property are the integers. *)
Definition is_integral (v : f64) : bool := feq (of_int (to_int v)) v.
Definition checkedFloatIntArg (v : f64) : res Z :=
  if is_nan v || is_inf v || negb (is_integral v) then Err (Errorf "invalid %q: %v is not an integer" [])
  else if SFltb v (of_int minInt) || SFltb (of_int maxInt) v then Err (Errorf "invalid %q: %v overflows int" [])
  else checkedInt64Arg (int64_of_float v).

(** [json.Number.Int64] is [strconv.ParseInt(s, 10, 64)], which on 64 bits is
    [strconv.Atoi]. *)
Definition intArg (args : arguments) (key : string) : res Z :=
  match args !! key with
  | None => Err missing_arg
  | Some (ArgInt v) => Ok v
  | Some (ArgInt32 v) => Ok v
  | Some (ArgInt64 v) => checkedInt64Arg v
  | Some (ArgFloat32 v) => checkedFloatIntArg (to_f64 v)
  | Some (ArgFloat64 v) => checkedFloatIntArg v
  | Some (ArgNumber s) => match Atoi s with Some n => checkedInt64Arg n | None => Err invalid_arg end
  | Some (ArgString s) => match Atoi s with Some n => Ok n | None => Err invalid_arg end
  | Some ArgOther => Err invalid_type
  end.

Definition paramAndInstance (args : arguments) : res (Z * Z) :=
  paramID ← intArg args "param";
  instance ← match args !! "instance"%string with Some _ => intArg args "instance" | None => Ok 1 end;
  _ ← validateParameterAddress paramID instance;
  Ok (paramID, instance).

Section commander.
(** Decimal text to [float64], and the text [fmt.Sprint] has for a value that is
    not a string. *)
Context (ParseFloat : bytes → res f64) (Sprint : argument → bytes).

Definition floatArg (args : arguments) (key : string) : res f64 :=
  match args !! key with
  | None => Err missing_arg
  | Some (ArgFloat32 v) => Ok (to_f64 v)
  | Some (ArgFloat64 v) => Ok v
  | Some (ArgInt v) => Ok (of_int v)
  | Some (ArgInt64 v) => Ok (of_int v)
  | Some (ArgNumber s) | Some (ArgString s) =>
      match ParseFloat s with Ok f => Ok f | Err _ => Err (Errorf "invalid %q: %v" []) end
  | Some (ArgInt32 _) | Some ArgOther => Err invalid_type
  end.

Definition stringArg (args : arguments) (key : string) : res bytes :=
  match args !! key with
  | None => Err missing_arg
  | Some (ArgString s) => Ok s
  | Some (ArgNumber s) => Ok s
  | Some v => Ok (Sprint v)
  end.

(** ** The commander *)
Record ReadbackClient (C : Type) := MkReadbackClient {
  rb_ReadFloat32 : Z → Z → C → C * res f64;
  rb_ReadInt32 : Z → Z → C → C * res Z }.
Arguments rb_ReadFloat32 {C}. Arguments rb_ReadInt32 {C}.

(** [C] is the state of the client, [A] that of the authorizer. *)
Record Commander (C A : Type) := MkCommander {
  cm_Writer : option (WriteClient C);
  cm_Reader : option (ReadbackClient C);
  cm_StringWriter : option (StringWriteClient C);
  cm_Control : option (ControlClient C);
  cm_TargetID : string;
  cm_Authorizer : option (string → Telecommand → A → A * option error) }.
Arguments cm_Writer {C A}. Arguments cm_Reader {C A}. Arguments cm_StringWriter {C A}.
Arguments cm_Control {C A}. Arguments cm_TargetID {C A}. Arguments cm_Authorizer {C A}.

(** A client that can write brings its other interfaces along. *)
Definition NewCommander `{DeviceClient C} {A} (writer : WriteClient C) : Commander C A :=
  MkCommander C A (Some writer) (Some (MkReadbackClient C dc_ReadFloat32 dc_ReadInt32))
    dc_StringWriteClient dc_ControlClient "" None.

(** The monad of a command: the world changes also when the command fails. *)
Definition command (W X : Type) : Type := W → W * res X.
#[export] Instance command_ret {W} : MRet (command W) := λ _ x w, (w, Ok x).
#[export] Instance command_bind {W} : MBind (command W) := λ _ _ f m w,
  match m w with
  | (w', Ok x) => f x w'
  | (w', Err e) => (w', Err e)
  end.
Definition pure_ {W X} (r : res X) : command W X := λ w, (w, r).
Definition failed {W X} (e : error) : command W X := λ w, (w, Err e).

Section commands.
Context {C A : Type}.

Definition run_client {X} (op : C → C * res X) : command (C * A) X :=
  λ w, let '(c, r) := op w.1 in ((c, w.2), r).

(** The target of the command, or else that of the commander, and the
    authorizer's verdict. *)
Definition authorize_target (c : Commander C A) (tc : Telecommand) : string :=
  if bool_decide (tc_TargetID tc = ""%string) then cm_TargetID c else tc_TargetID tc.
Definition authorize (c : Commander C A) (tc : Telecommand) : command (C * A) () :=
  match cm_Authorizer c with
  | None => mret ()
  | Some f => λ w,
      let '(a, e) := f (authorize_target c tc) tc w.2 in
      ((w.1, a), match e with Some err => Err (CommandRejectedError err) | None => Ok () end)
  end.

(** A readback that fails is ignored. *)
Definition confirm {X} (read : command (C * A) X) (same : X → bool) : command (C * A) () := λ w,
  match read w with
  | (w, Ok got) => (w, if same got then Ok () else Err (Wrapf "%w: wrote %v, confirmed %v" [] (Sentinel ErrReadbackMismatch)))
  | (w, Err _) => (w, Ok ())
  end.

Definition write_float32 (c : Commander C A) (writer : WriteClient C) (tc : Telecommand) : command (C * A) () :=
  '(paramID, instance) ← pure_ (paramAndInstance (tc_Arguments tc));
  value ← pure_ (floatArg (tc_Arguments tc) "value");
  _ ← authorize c tc;
  _ ← run_client (wc_WriteFloat32 writer paramID instance (to_f32 value));
  match cm_Reader c with
  | None => mret ()
  | Some reader =>
      confirm (run_client (rb_ReadFloat32 reader paramID instance)) (λ got, SFeqb (to_f32 got) (to_f32 value))
  end.

Definition write_int32 (c : Commander C A) (writer : WriteClient C) (tc : Telecommand) : command (C * A) () :=
  '(paramID, instance) ← pure_ (paramAndInstance (tc_Arguments tc));
  value ← pure_ (intArg (tc_Arguments tc) "value");
  _ ← authorize c tc;
  _ ← run_client (wc_WriteInt32 writer paramID instance (i32 value));
  match cm_Reader c with
  | None => mret ()
  | Some reader => confirm (run_client (rb_ReadInt32 reader paramID instance)) (λ got, got =? i32 value)
  end.

Definition write_string (c : Commander C A) (tc : Telecommand)
    (write : StringWriteClient C → Z → Z → bytes → C → C * res ()) : command (C * A) () :=
  match cm_StringWriter c with
  | None => failed (Errorf "%s: underlying client does not support string writes" [])
  | Some sw =>
      '(paramID, instance) ← pure_ (paramAndInstance (tc_Arguments tc));
      value ← pure_ (stringArg (tc_Arguments tc) "value");
      _ ← authorize c tc;
      run_client (write sw paramID instance value)
  end.

Definition write_user_note (c : Commander C A) (tc : Telecommand) : command (C * A) () :=
  match cm_StringWriter c with
  | None => failed (Errorf "write_user_note: underlying client does not support big-data string writes" [])
  | Some sw =>
      instance ← pure_ (match tc_Arguments tc !! "instance"%string with
                        | Some _ => intArg (tc_Arguments tc) "instance"
                        | None => Ok 1
                        end);
      _ ← pure_ (validateParameterAddress 120 instance);
      value ← pure_ (stringArg (tc_Arguments tc) "value");
      _ ← authorize c tc;
      run_client (sw_WriteBigDataString sw 120 instance value)
  end.

Definition control (c : Commander C A) (tc : Telecommand) (what : string)
    (op : ControlClient C → C → C * res ()) : command (C * A) () :=
  match cm_Control c with
  | None => failed (Errorf what [])
  | Some cc => _ ← authorize c tc; run_client (op cc)
  end.

Definition named (names : list string) (tc : Telecommand) : bool := bool_decide (tc_Name tc ∈ names).
Definition dispatch (c : Commander C A) (writer : WriteClient C) (tc : Telecommand) : command (C * A) () :=
  if named ["write_float32"; "set_float32"]%string tc then write_float32 c writer tc
  else if named ["write_int32"; "set_int32"]%string tc then write_int32 c writer tc
  else if named ["write_string"; "set_string"]%string tc then write_string c tc sw_WriteString
  else if named ["write_big_data_string"]%string tc then write_string c tc sw_WriteBigDataString
  else if named ["write_user_note"]%string tc then write_user_note c tc
  else if named ["reset"]%string tc then
    control c tc "reset: underlying client does not support control actions" cc_Reset
  else if named ["save_to_flash"; "save"]%string tc then
    control c tc "save: underlying client does not support control actions" cc_SaveToFlash
  else failed (Errorf "unknown command %q" []).

(** [errors.As] for a rejection. *)
Fixpoint is_rejected (e : error) : bool :=
  match e with
  | CommandRejectedError _ => true
  | Wrapf _ _ e' => is_rejected e'
  | ErrJoin e1 e2 => is_rejected e1 || is_rejected e2
  | _ => false
  end.

Definition no_writer : error := Errorf "mecom.Commander: no writer configured" [].
Definition SendContext (c : option (Commander C A)) (tc : Telecommand) (w : C * A) :
    (C * A) * (CommandEvent * option error) :=
  match c with
  | Some c =>
      match cm_Writer c with
      | Some writer =>
          let event status e := MkCommandEvent (tc_ID tc) (tc_SessionID tc) (tc_IdempotencyKey tc) status e in
          match dispatch c writer tc w with
          | (w, Ok _) => (w, (event CommandCompleted None, None))
          | (w, Err e) => (w, (event (if is_rejected e then CommandRejected else CommandFailed) (Some e), Some e))
          end
      | None => (w, (MkCommandEvent (tc_ID tc) "" "" CommandFailed (Some no_writer), Some no_writer))
      end
  | None => (w, (MkCommandEvent (tc_ID tc) "" "" CommandFailed (Some no_writer), Some no_writer))
  end.
End commands.
End commander.
Arguments MkCommander {C A}. Arguments cm_Writer {C A}. Arguments cm_Reader {C A}. Arguments cm_StringWriter {C A}.
Arguments cm_Control {C A}. Arguments cm_TargetID {C A}. Arguments cm_Authorizer {C A}.
Arguments MkReadbackClient {C}. Arguments rb_ReadFloat32 {C}. Arguments rb_ReadInt32 {C}.

(** ** Properties *)
Section properties.
Context (ParseFloat : bytes → res f64) (Sprint : argument → bytes).
Context {C A : Type}.
Implicit Types (c : Commander C A) (tc : Telecommand) (w : C * A).

(** Every command asks the authorizer once, after it has looked at its arguments
    and before it touches the client. *)
Definition gated {X} c tc (m : command (C * A) X) : Prop := ∀ w,
  let '(w', r) := m w in
  (w' = w ∧ ∃ e, r = Err e ∧ is_rejected e = false) ∨
  match cm_Authorizer c with
  | None => w'.2 = w.2
  | Some f =>
      ∃ o, f (authorize_target c tc) tc w.2 = (w'.2, o) ∧
           match o with Some e => w'.1 = w.1 ∧ r = Err (CommandRejectedError e) | None => True end
  end.

(** A computation that leaves the authorizer alone. *)
Definition client_only {X} (m : command (C * A) X) : Prop := ∀ w, (m w).1.2 = w.2.

Lemma client_only_ret X (x : X) : client_only (mret x).
Proof. done. Qed.
Lemma client_only_run_client X (op : C → C * res X) : client_only (run_client op).
Proof. intros [c a]. unfold run_client. simpl. by destruct (op c). Qed.
Lemma client_only_bind X Y (m : command (C * A) X) (k : X → command (C * A) Y) :
  client_only m → (∀ x, client_only (k x)) → client_only (m ≫= k).
Proof.
  intros Hm Hk w. unfold mbind, command_bind. specialize (Hm w).
  destruct (m w) as [w' [x|e]]; simpl in *; [by rewrite Hk|done].
Qed.
Lemma client_only_confirm X (read : command (C * A) X) same : client_only read → client_only (confirm read same).
Proof. intros Hr w. unfold confirm. specialize (Hr w). by destruct (read w) as [w' []]. Qed.

Lemma gated_failed X c tc e : is_rejected e = false → gated (X := X) c tc (failed e).
Proof. intros He w. left. eauto. Qed.
Lemma gated_pure X Y c tc (r : res X) (k : X → command (C * A) Y) :
  (∀ e, r = Err e → is_rejected e = false) → (∀ x, gated c tc (k x)) → gated c tc (pure_ r ≫= k).
Proof.
  intros Hr Hk w. unfold mbind, command_bind, pure_. destruct r as [x|e]; [apply Hk|]. left. eauto.
Qed.
Lemma gated_authorize X c tc (rest : command (C * A) X) :
  client_only rest → gated c tc (authorize c tc ≫= λ _, rest).
Proof.
  intros Hrest [cl a]. unfold mbind, command_bind, authorize. destruct (cm_Authorizer c) as [f|]; simpl.
  - destruct (f (authorize_target c tc) tc a) as [a' [e|]] eqn:E.
    + right. by exists (Some e).
    + specialize (Hrest (cl, a')). destruct (rest (cl, a')) as [w' r]. right. exists None. simpl in *.
      by rewrite Hrest.
  - specialize (Hrest (cl, a)). destruct (rest (cl, a)). by right.
Qed.

(** *** Refused arguments *)
Lemma checkedInt64Arg_plain v e : checkedInt64Arg v = Err e → is_rejected e = false.
Proof. unfold checkedInt64Arg. intros H. case_in H. done. Qed.
Lemma checkedFloatIntArg_plain v e : checkedFloatIntArg v = Err e → is_rejected e = false.
Proof. unfold checkedFloatIntArg. intros H. repeat case_in H; [done|done|by eapply checkedInt64Arg_plain]. Qed.
Lemma intArg_plain args key e : intArg args key = Err e → is_rejected e = false.
Proof.
  unfold intArg. intros H. repeat case_in H; try done; eauto using checkedInt64Arg_plain, checkedFloatIntArg_plain.
Qed.
Lemma validateParameterAddress_plain id i e : validateParameterAddress id i = Err e → is_rejected e = false.
Proof. unfold validateParameterAddress. intros H. repeat case_in H; done. Qed.
Lemma instance_plain args e :
  match args !! "instance"%string with Some _ => intArg args "instance" | None => Ok 1 end = Err e →
  is_rejected e = false.
Proof. destruct (args !! _); [apply intArg_plain|done]. Qed.
Lemma paramAndInstance_plain args e : paramAndInstance args = Err e → is_rejected e = false.
Proof.
  unfold paramAndInstance. intros H.
  destruct (intArg args "param") eqn:E1; simpl in H; [|simplify_eq; by eapply intArg_plain].
  destruct (match args !! _ with Some _ => _ | None => _ end) eqn:E2; simpl in H;
    [|simplify_eq; by eapply instance_plain].
  destruct (validateParameterAddress _ _) eqn:E3; simpl in H; [done|simplify_eq; by eapply validateParameterAddress_plain].
Qed.
Lemma floatArg_plain args key e : floatArg ParseFloat args key = Err e → is_rejected e = false.
Proof. unfold floatArg. intros H. repeat case_in H; done. Qed.
Lemma stringArg_plain args key e : stringArg Sprint args key = Err e → is_rejected e = false.
Proof. unfold stringArg. intros H. repeat case_in H; done. Qed.

#[local] Create HintDb gate.
#[local] Hint Resolve client_only_ret client_only_run_client client_only_confirm gated_failed gated_pure
  gated_authorize intArg_plain paramAndInstance_plain validateParameterAddress_plain instance_plain
  floatArg_plain stringArg_plain : gate.

Lemma write_float32_gated c writer tc : gated c tc (write_float32 ParseFloat c writer tc).
Proof.
  apply gated_pure; [eauto with gate|]. intros [id i]. apply gated_pure; [eauto with gate|]. intros v.
  apply gated_authorize, client_only_bind; [eauto with gate|]. intros _. destruct (cm_Reader c); auto with gate.
Qed.
Lemma write_int32_gated c writer tc : gated c tc (write_int32 c writer tc).
Proof.
  apply gated_pure; [eauto with gate|]. intros [id i]. apply gated_pure; [eauto with gate|]. intros v.
  apply gated_authorize, client_only_bind; [eauto with gate|]. intros _. destruct (cm_Reader c); auto with gate.
Qed.
Lemma write_string_gated c tc write : gated c tc (write_string Sprint c tc write).
Proof.
  unfold write_string. destruct (cm_StringWriter c); [|by apply gated_failed].
  apply gated_pure; [eauto with gate|]. intros [id i]. eauto 6 with gate.
Qed.
Lemma write_user_note_gated c tc : gated c tc (write_user_note Sprint c tc).
Proof.
  unfold write_user_note. destruct (cm_StringWriter c); [|by apply gated_failed]. eauto 8 with gate.
Qed.
Lemma control_gated c tc what op : gated c tc (control c tc what op).
Proof. unfold control. destruct (cm_Control c); eauto with gate. Qed.
#[local] Hint Resolve write_float32_gated write_int32_gated write_string_gated write_user_note_gated control_gated : gate.

Lemma dispatch_gated c writer tc : gated c tc (dispatch ParseFloat Sprint c writer tc).
Proof. unfold dispatch. repeat case_match; auto with gate. Qed.

Lemma SendContext_refused c tc w f a e :
  cm_Authorizer c = Some f → f (authorize_target c tc) tc w.2 = (a, Some e) →
  (SendContext ParseFloat Sprint (Some c) tc w).1.1 = w.1.
Proof.
  intros Hf Href. unfold SendContext. destruct (cm_Writer c) as [writer|]; [|done].
  pose proof (dispatch_gated c writer tc w) as Hg.
  destruct (dispatch _ _ c writer tc w) as [w' r]. rewrite Hf in Hg.
  destruct Hg as [(-> & e' & -> & _)|(o & Hask & Ho)]; [done|].
  rewrite Href in Hask. simplify_eq. destruct Ho as [<- ->]. done.
Qed.

(** C17: no write and no control action bypasses the authorizer.  For every
    telecommand a commander with an authorizer either fails without having touched
    the client or asked the authorizer, or it asks the authorizer exactly once,
    about the target of the command or else its own target: if the answer is a
    refusal, the client is untouched and the command is rejected with that
    refusal. *)
Theorem Send_authorized c tc w (f : string → Telecommand → A → A * option error) :
  cm_Authorizer c = Some f →
  let '(w', (ev, err)) := SendContext ParseFloat Sprint (Some c) tc w in
  (w' = w ∧ ev_Status ev = CommandFailed ∧ err ≠ None) ∨
  (∃ e, f (authorize_target c tc) tc w.2 = (w'.2, Some e) ∧ w'.1 = w.1 ∧
        ev_Status ev = CommandRejected ∧ err = Some (CommandRejectedError e)) ∨
  f (authorize_target c tc) tc w.2 = (w'.2, None).
Proof.
  intros Hf. unfold SendContext. destruct (cm_Writer c) as [writer|]; [|by left].
  pose proof (dispatch_gated c writer tc w) as Hg.
  destruct (dispatch _ _ c writer tc w) as [w' r]. rewrite Hf in Hg.
  destruct Hg as [(-> & e & -> & He)|([e|] & Hask & Ho)].
  - simpl. rewrite He. by left.
  - destruct Ho as [Hc ->]. simpl. right; left. by exists e.
  - destruct r; by right; right.
Qed.
End properties.

(** A lock that opens for one token, before a client that counts its writes. *)
Definition locked_commander : Commander Z Z :=
  MkCommander (Some (MkWriteClient Z (λ _ _ _ n, (n + 1, Ok ())) (λ _ _ _ n, (n + 1, Ok ())))) None None None "plant"
    (Some (λ _ tc asked, (asked + 1,
       if bool_decide (tc_Metadata tc !! "lease_token"%string = Some (str "key")) then None
       else Some (Sentinel ErrInvalidToken)))).
Definition setpoint_command (token : bytes) : Telecommand :=
  MkTelecommand "1" "s" "" "set_int32" {["param"%string := ArgInt 3000; "value"%string := ArgInt 7]} ""
    {["lease_token"%string := token]}.

Lemma Send_authorized_witness :
  let send token := SendContext (λ _, Err invalid_arg) (λ _, []) (Some locked_commander) (setpoint_command token) (0, 0) in
  (send (str "key")).1 = (1, 1) ∧ (send (str "lock")).1 = (0, 1) ∧
  ∃ e, (send (str "lock")).2.2 = Some (CommandRejectedError e).
Proof.
  intros send. split; [reflexivity|].
  destruct (Send_authorized (λ _, Err invalid_arg) (λ _, []) locked_commander (setpoint_command (str "lock")) (0, 0)
    _ eq_refl) as [(H & _)|[(e & H & Hc & _ & He)|H]].
  - vm_compute in H. discriminate.
  - split; [reflexivity|]. exists e. exact He.
  - vm_compute in H. discriminate.
Defined.

(** The value of an integer write is cut to 32 bits on the way: 2^32 + 5 writes 5,
    and since the readback is compared with the cut value, the write succeeds. *)
Definition int32_cell : Commander Z () :=
  MkCommander (Some (MkWriteClient Z (λ _ _ _ n, (n, Ok ())) (λ _ _ v _, (v, Ok ()))))
    (Some (MkReadbackClient (λ _ _ n, (n, Ok (of_int n))) (λ _ _ n, (n, Ok n)))) None None "" None.
Lemma write_int32_wraps :
  let '((cell, _), (ev, err)) :=
    SendContext (λ _, Err invalid_arg) (λ _, []) (Some int32_cell)
      (MkTelecommand "" "" "" "write_int32" {["param"%string := ArgInt 3000; "value"%string := ArgInt (2 ^ 32 + 5)]} "" ∅)
      (0, ()) in
  cell = 5 ∧ ev_Status ev = CommandCompleted ∧ err = None.
Proof. vm_compute. done. Qed.

(** 2^63 passes the range check for integers: converted to float64, the largest
    integer is 2^63 itself. *)
Lemma float_2_63_accepted : checkedFloatIntArg (of_int (2 ^ 63)) = Ok minInt.
Proof. vm_compute. done. Qed.
(** A name that is not known is answered as failed, not as rejected. *)
Lemma unknown_name_fails c tc w : cm_Writer (C := Z) (A := Z) c ≠ None → tc_Name tc = "blink"%string →
  ev_Status (SendContext (λ _, Err invalid_arg) (λ _, []) (Some c) tc w).2.1 = CommandFailed.
Proof.
  intros Hw Hn. unfold SendContext. destruct (cm_Writer c) as [writer|]; [|done].
  unfold dispatch, named. by rewrite Hn.
Qed.
