(* ===== verification/GatewayWrite.v ===== *)
(** * GatewayWrite: leases and writes over HTTP ([cmd/mecomgw/handlers.go],
      [cmd/mecomgw/main.go])

    The gateway hands out leases of [WriteLease.v] and passes writes to the
    commander of [Commander.v], with its own checks before and a readback after.

    A handler is a function from the decoded request, the server, and what the
    request meets: the clock at each look, the connection if one has to be opened,
    and the lease operations other requests carry out in between. *)
From stdpp Require Import prelude gmap strings list.
From Stdlib Require Import Strings.Byte Floats.SpecFloat.
From S2P Require Import Prelude Text Floats Protocol RingReader Readout Endpoint BridgePayload WriteLease Commander.
Local Open Scope Z_scope.

(** ** Numbers *)
Definition int_of_float (v : f64) : Z :=
  if is_nan v || is_inf v then minInt else int64_of_float v.

(** ** The server *)
Record GatewayDevice := MkGatewayDevice {
  gd_ID : string; gd_Endpoint : bytes; gd_Routes : list bytes; gd_PowerControlEnabled : bool }.
Record gatewayBinding (C : Type) := MkGatewayBinding {
  gb_cfg : GatewayDevice; gb_client : option C; gb_lastErr : option error }.
Arguments MkGatewayBinding {C}. Arguments gb_cfg {C}. Arguments gb_client {C}. Arguments gb_lastErr {C}.

Inductive confirmed_value : Type := ConfirmedInt32 (z : Z) | ConfirmedFloat (f : f64).

(** The status of an activity: that of the command, or one of the gateway's own. *)
Inductive activity_status : Type := StatusOf (st : CommandStatus) | StatusText (text : string).

Record gatewayCommandActivity := MkActivity {
  ga_DeviceID : string; ga_ParamID : Z; ga_Instance : Z; ga_SignalName : string; ga_SignalUnit : string;
  ga_RequestedValue : option argument; ga_ConfirmedValue : option confirmed_value;
  ga_PrevValue : option confirmed_value; ga_ReadbackMatched : option bool; ga_Status : activity_status;
  ga_Transport : string; ga_LeaseHolder : string; ga_Error : option error; ga_ErrorCategory : string;
  ga_HTTPStatus : Z; ga_IdempotencyKey : string }.

Record gateway (C : Type) := MkGateway {
  gw_devices : gmap string (gatewayBinding C);
  gw_leases : WriteLease.Registry;
  gw_virtualParams : gmap bytes f64;
  gw_commandLog : list gatewayCommandActivity }.
Arguments MkGateway {C}. Arguments gw_devices {C}. Arguments gw_leases {C}.
Arguments gw_virtualParams {C}. Arguments gw_commandLog {C}.

Definition virtual_key (deviceID : string) (paramID instance : Z) : bytes :=
  str deviceID ++ ":"%byte :: fmtD paramID ++ ":"%byte :: fmtD instance.

Section server.
Context {C : Type}.
Implicit Types (s : gateway C).

Definition with_devices s devices : gateway C :=
  MkGateway devices (gw_leases s) (gw_virtualParams s) (gw_commandLog s).
Definition put_leases s leases : gateway C :=
  MkGateway (gw_devices s) leases (gw_virtualParams s) (gw_commandLog s).

Definition getVirtualParam s (deviceID : string) (paramID instance : Z) (def : f64) : f64 :=
  match gw_virtualParams s !! virtual_key deviceID paramID instance with Some val => val | None => def end.
Definition setVirtualParam s (deviceID : string) (paramID instance : Z) (val : f64) : gateway C :=
  MkGateway (gw_devices s) (gw_leases s)
    (<[virtual_key deviceID paramID instance := val]> (gw_virtualParams s)) (gw_commandLog s).

Definition recordCommandActivity s (activity : gatewayCommandActivity) : gateway C :=
  let log := gw_commandLog s ++ [activity] in
  MkGateway (gw_devices s) (gw_leases s) (gw_virtualParams s)
    (if (100 <? length log)%nat then drop (length log - 100) log else log).

(** ** Binding a device *)
Inductive bind_failure : Type := UnknownGatewayDevice | ConnectFailed (e : error).

(** The loop over the endpoints; [err] is the last error. *)
Fixpoint connect_endpoints (connect : Endpoint → res C) (endpoints : list bytes) (err : error) : res C :=
  match endpoints with
  | [] => Err err
  | endpoint :: rest =>
      match ParseEndpoint endpoint with
      | None => connect_endpoints connect rest (Errorf "device %q: invalid endpoint %q" [])
      | Some ep =>
          match connect ep with
          | Ok client => Ok client
          | Err e => connect_endpoints connect rest e
          end
      end
  end.
Definition bind_device (connect : Endpoint → res C) (id : string) s : gateway C * result bind_failure C :=
  match gw_devices s !! id with
  | None => (s, Err UnknownGatewayDevice)
  | Some b =>
      match gb_client b with
      | Some client => (s, Ok client)
      | None =>
          let endpoints := gd_Endpoint (gb_cfg b) ::
            filter (λ r, r ≠ []) (gd_Routes (gb_cfg b)) in
          match connect_endpoints connect endpoints (Errorf "failed to connect to all endpoints for device %q" []) with
          | Ok client =>
              (with_devices s (<[id := MkGatewayBinding (gb_cfg b) (Some client) None]> (gw_devices s)), Ok client)
          | Err e =>
              (with_devices s (<[id := MkGatewayBinding (gb_cfg b) None (Some e)]> (gw_devices s)),
               Err (ConnectFailed e))
          end
      end
  end.

(** The client of the binding after it has been used; a binding that was reset
    has none. *)
Definition put_client s (id : string) (client : C) : gateway C :=
  match gw_devices s !! id with
  | Some (MkGatewayBinding cfg (Some _) err) =>
      with_devices s (<[id := MkGatewayBinding cfg (Some client) err]> (gw_devices s))
  | _ => s
  end.
Definition resetDeviceBinding s (id : string) (cause : error) : gateway C :=
  match gw_devices s !! id with
  | Some b => with_devices s (<[id := MkGatewayBinding (gb_cfg b) None (Some cause)]> (gw_devices s))
  | None => s
  end.
End server.

Definition shouldResetDeviceBinding (err : error) : bool :=
  if errors_is err ErrUnreachable || errors_is err ErrTimeout then true
  else if errors_is err ErrUnknownParameter || errors_is err ErrParameterReadOnly || errors_is err ErrWriteRejected ||
          errors_is err ErrTransportNotSupported || errors_is err ErrBadAddress || errors_is err ErrInvalidArgument
  then false else true.

Definition httpStatusForError (err : error) : Z :=
  if errors_is err ErrUnreachable then 503
  else if errors_is err ErrTimeout then 504
  else if errors_is err ErrBadAddress || errors_is err ErrInvalidArgument then 400
  else if errors_is err ErrUnknownParameter then 404
  else if errors_is err ErrParameterReadOnly then 403
  else if errors_is err ErrWriteRejected then 409
  else if errors_is err ErrTransportNotSupported then 501
  else if errors_is err ErrReadbackMismatch then 409
  else 500.
Definition bindStatusForError (err : bind_failure) : Z :=
  match err with UnknownGatewayDevice => 404 | ConnectFailed e => httpStatusForError e end.
Definition bind_error_value (err : bind_failure) : error :=
  match err with UnknownGatewayDevice => Errorf "unknown device %q" [] | ConnectFailed e => e end.

Definition is_lease_error (err : error) : bool :=
  errors_is err ErrInvalidToken || errors_is err ErrUnknownDevice || errors_is err ErrExpired.
Definition gatewayCommandErrorCategory (err : option error) : string :=
  match err with
  | None => ""
  | Some err =>
      if is_lease_error err then "lease"
      else if errors_is err ErrUnreachable || errors_is err ErrTimeout then "transport"
      else if errors_is err ErrUnknownParameter || errors_is err ErrParameterReadOnly || errors_is err ErrWriteRejected ||
              errors_is err ErrTransportNotSupported || errors_is err ErrBadAddress || errors_is err ErrInvalidArgument
      then "mecom" else "gateway"
  end.
Definition gatewayCommandHTTPStatus (status : CommandStatus) (err : option error) : Z :=
  let has f := match err with Some e => f e | None => false end in
  match status with
  | CommandCompleted => 200
  | CommandRejected => if has is_lease_error then 423 else 400
  | CommandFailed => if has (λ e, errors_is e ErrReadbackMismatch) then 409 else 400
  end.

(** ** Leases over HTTP *)
Record reply := MkReply {
  rp_Status : Z; rp_Error : option error; rp_Event : option CommandEvent;
  rp_Confirmed : option confirmed_value; rp_Matched : option bool; rp_Lease : option Lease }.
Definition error_reply (status : Z) (e : error) : reply := MkReply status (Some e) None None None None.

(** The request's body: the holder and the parsed time to live, if it has one. *)
Definition handleLeaseAcquire {C} (t0 t1 : Z) (rand : res bytes) (defaultTTL : Z) (deviceID : string)
    (body : res (string * option (res Z))) (s : gateway C) : gateway C * reply :=
  match gw_devices s !! deviceID with
  | None => (s, error_reply 404 (Errorf "unknown device" []))
  | Some _ =>
      match body with
      | Err _ => (s, error_reply 400 (Errorf "invalid JSON body: " []))
      | Ok (holder, ttl) =>
          if bool_decide (holder = ""%string) then (s, error_reply 400 (Errorf "holder required" []))
          else
            match (match ttl with None => Ok defaultTTL | Some parsed => parsed end) with
            | Err _ => (s, error_reply 400 (Errorf "invalid ttl: " []))
            | Ok ttl =>
                let '(leases, r) := Acquire t0 t1 rand deviceID holder ttl (gw_leases s) in
                let s := put_leases s leases in
                match r with
                | Err e => (s, error_reply (if errors_is e ErrLeaseHeld then 423 else 400) e)
                | Ok lease => (s, MkReply 200 None None None None (Some lease))
                end
            end
      end
  end.

Definition handleLeaseRelease {C} (t0 t1 : Z) (deviceID : string) (header : bytes) (s : gateway C) :
    gateway C * reply :=
  match gw_devices s !! deviceID with
  | None => (s, error_reply 404 (Errorf "unknown device" []))
  | Some _ =>
      let token := TrimSpace header in
      if bool_decide (token = []) then (s, error_reply 400 (Errorf "X-Lease-Token header required" []))
      else
        let '(leases, r) := WriteLease.Validate t0 deviceID token (gw_leases s) in
        let s := put_leases s leases in
        match r with
        | Err e => (s, error_reply 404 e)
        | Ok _ =>
            let '(leases, r) := Release t1 token (gw_leases s) in
            let s := put_leases s leases in
            match r with
            | Err e => (s, error_reply 404 e)
            | Ok _ => (s, MkReply 204 None None None None None)
            end
        end
  end.

Definition lease_token (metadata : gmap string bytes) : bytes := TrimSpace (default [] (metadata !! "lease_token"%string)).

(** [server.authorize], the authorizer of every commander of the gateway. *)
Definition authorize_write (now : Z) (targetID : string) (tc : Telecommand) (leases : WriteLease.Registry) :
    WriteLease.Registry * option error :=
  let token := lease_token (tc_Metadata tc) in
  if bool_decide (token = []) then (leases, Some (Errorf "write requires Metadata[lease_token]" []))
  else
    match WriteLease.Validate now targetID token leases with
    | (leases, Ok _) => (leases, None)
    | (leases, Err e) => (leases, Some e)
    end.

Fixpoint holder_of (token : bytes) (leases : list Lease) : string :=
  match leases with
  | [] => ""
  | l :: ls => if bool_decide (Token l = token) then Holder l else holder_of token ls
  end.
Definition leaseHolderForToken (now : Z) (token : bytes) (leases : WriteLease.Registry) :
    WriteLease.Registry * string :=
  let token := TrimSpace token in
  if bool_decide (token = []) then (leases, ""%string)
  else let '(leases, l) := List_ now leases in (leases, holder_of token l).

(** ** Arguments as the gateway reads them *)
Definition intFromAny (v : argument) : Z :=
  match v with
  | ArgFloat64 x => int_of_float x
  | ArgFloat32 x => int_of_float (to_f64 x)
  | ArgInt x => x
  | ArgInt64 x => x
  | ArgNumber s => Atoi_nearest s
  | ArgString s => Atoi_nearest (TrimSpace s)
  | ArgInt32 _ | ArgOther => 0
  end.

Record writeRequest := MkWriteRequest {
  wr_Name : string; wr_Arguments : arguments; wr_Metadata : gmap string bytes }.

Section gateway_writes.
(** [strconv.ParseFloat], [fmt.Sprint] and the parameter tables of the catalogue. *)
Context (ParseFloat : bytes → res f64) (Sprint : argument → bytes).
Context (catalogue_parameters write_parameters : list Param).
Context `{DeviceClient C}.

Definition floatFromAny (v : option argument) : option f64 :=
  match v with
  | Some (ArgFloat64 x) => Some x
  | Some (ArgFloat32 x) => Some (to_f64 x)
  | Some (ArgInt x) | Some (ArgInt32 x) | Some (ArgInt64 x) => Some (of_int x)
  | Some (ArgNumber s) => match ParseFloat s with Ok f => Some f | Err _ => None end
  | Some (ArgString s) => match ParseFloat (TrimSpace s) with Ok f => Some f | Err _ => None end
  | Some ArgOther | None => None
  end.

Definition parameter_2035 : Param :=
  MkParam 2035 1 "Third-Party Power Control Target" "W" DataTypeFloat32 true "control" "setpoint".
Definition parameter_2036 : Param :=
  MkParam 2036 1 "Third-Party Measured Resistance" "Ohm" DataTypeFloat32 false "monitor" "telemetry".
Definition parameter_2038 : Param :=
  MkParam 2038 1 "Third-Party Power Control Status" "" DataTypeFloat32 false "monitor" "telemetry".

Definition gatewayWriteParameterByID (id : Z) : option Param :=
  if id =? 2035 then Some parameter_2035 else List.find (λ p, ID p =? id) write_parameters.
Definition gatewayParameterByID (id : Z) : option Param :=
  if id =? 2035 then Some parameter_2035
  else if id =? 2036 then Some parameter_2036
  else if id =? 2038 then Some parameter_2038
  else List.find (λ p, ID p =? id) catalogue_parameters.

(** Parameter, instance, name, unit and value of a request. *)
Definition gatewayCommandTargetFromTelecommand (req : writeRequest) : Z * Z * string * string * option argument :=
  let int_of key := match wr_Arguments req !! key with Some v => intFromAny v | None => 0 end in
  let paramID := int_of "param"%string in
  let instance := int_of "instance"%string in
  let '(name, unit) :=
    match gatewayWriteParameterByID paramID with
    | Some p => (Name p, Unit p)
    | None => match gatewayParameterByID paramID with Some p => (Name p, Unit p) | None => (""%string, ""%string) end
    end in
  (paramID, instance, name, unit, wr_Arguments req !! "value"%string).

(** [strings.Contains] of the lower-cased name. *)
Definition name_has (req : writeRequest) (sub : string) : bool := contains (str sub) (ToLower (str (wr_Name req))).

Definition with_type (p : Param) (instance : Z) (t : DataType) : Param :=
  MkParam (ID p) instance (Name p) (Unit p) t (Writable p) (Role p) (Kind p).

(** The parameter and the value to read back, if the request has them. *)
Definition gatewayWriteParameterFromRequest (req : writeRequest) : res (option (Param * f64)) :=
  let int_of key := match wr_Arguments req !! key with Some v => intFromAny v | None => 0 end in
  let paramID := int_of "param"%string in
  let instance := int_of "instance"%string in
  let instance := if instance =? 0 then 1 else instance in
  let rawValue := wr_Arguments req !! "value"%string in
  if (paramID =? 0) || bool_decide (rawValue = None) then Ok None
  else
    match floatFromAny rawValue with
    | None => Ok None
    | Some want =>
        match gatewayParameterByID paramID with
        | None => Err (Errorf "write readback unavailable: unknown parameter %d" [paramID])
        | Some p =>
            let t := if name_has req "int32" then DataTypeInt32
                     else if name_has req "float32" then DataTypeFloat32 else Type_ p in
            if bool_decide (t = DataTypeInt32) || bool_decide (t = DataTypeFloat32)
            then Ok (Some (with_type p instance t, want)) else Ok None
        end
    end.

Definition gatewayConfirmedWriteValue (t : DataType) (value : f64) : confirmed_value :=
  if bool_decide (t = DataTypeInt32) then ConfirmedInt32 (int32_of_float (Round value)) else ConfirmedFloat value.
Definition gatewayWriteValueMatches (t : DataType) (got want : f64) : bool :=
  if bool_decide (t = DataTypeInt32) then int32_of_float (Round got) =? int32_of_float (Round want)
  else
    let tolerance := fmax (decimal 1 10000) (fmul (SFabs want) (decimal 1 100000)) in
    SFleb (SFabs (fsub got want)) tolerance.

(** The readback: value and match, or nothing to compare. *)
Definition verifyGatewayWrite (deviceID : string) (client : C) (req : writeRequest) (s : gateway C) :
    C * res (option confirmed_value * option bool) :=
  match gatewayWriteParameterFromRequest req with
  | Err e => (client, Err e)
  | Ok None => (client, Ok (None, None))
  | Ok (Some (p, want)) =>
      if ID p =? 2035 then
        let confirmed := getVirtualParam s deviceID (ID p) (Inst p) (S754_zero false) in
        (client, Ok (Some (ConfirmedFloat confirmed), Some (gatewayWriteValueMatches (Type_ p) confirmed want)))
      else
        let '(client, values) := rd_ReadBulk [p] client in
        (client,
         match values with
         | Err e => Err e
         | Ok [value] => Ok (Some (gatewayConfirmedWriteValue (Type_ p) value),
                             Some (gatewayWriteValueMatches (Type_ p) value want))
         | Ok values => Err (Errorf "write readback returned %d values" [Z.of_nat (length values)])
         end)
  end.

(** ** The write handler *)
Definition gatewayWriteAllowedDuringDeviceError (req : writeRequest) (paramID : Z) : bool :=
  if bool_decide (wr_Name req = "reset"%string) then true
  else if paramID =? 2035 then
    match floatFromAny (wr_Arguments req !! "value"%string) with
    | Some value => feq value (S754_zero false)
    | None => false
    end
  else false.

(** A device in error takes no write but a reset and switching the power control
    off: the error number that blocks the request, if it does. *)
Definition gatewayWriteDeviceErrorBackoff (client : C) (req : writeRequest) (paramID : Z) : C * option error :=
  let '(client, values) := rd_ReadBulk [MkParam 105 1 "" "" DataTypeInt32 false "" ""] client in
  (client,
   match values with
   | Ok [errorNumber] =>
       if feq errorNumber (S754_zero false) || is_nan errorNumber then None
       else if gatewayWriteAllowedDuringDeviceError req paramID then None
       else Some (Errorf "device %s reports error %d; backing off" [int_of_float (Round errorNumber)])
   | _ => None
   end).

(** What a request meets: how a connection attempt ends, the idempotency key, and
    at each look at the leases the operations of others since the last one and the
    time. *)
Record write_env := MkWriteEnv {
  we_connect : Endpoint → res C;
  we_key : string;
  we_holder : list event * Z;
  we_first : list event * Z;
  we_second : list event * Z }.

Definition others (es : list event) (leases : WriteLease.Registry) : WriteLease.Registry :=
  fold_left exec es leases.
Definition gateway_commander (writer : WriteClient C) (deviceID : string) (now : Z) :
    Commander C WriteLease.Registry :=
  let c : Commander C WriteLease.Registry := NewCommander writer in
  MkCommander (cm_Writer c) (cm_Reader c) (cm_StringWriter c) (cm_Control c) deviceID
    (Some (authorize_write now)).
Definition commanderTransportName : string :=
  match dc_StringWriteClient with Some _ => "string" | None => "mecom" end.

Definition request_token (header : bytes) (req : writeRequest) : gmap string bytes :=
  let token := TrimSpace header in
  if bool_decide (token = []) then wr_Metadata req else <["lease_token"%string := token]> (wr_Metadata req).

(** The activity of a request of which no more is known than the device. *)
Definition blank_activity (deviceID transport : string) : gatewayCommandActivity :=
  MkActivity deviceID 0 0 "" "" None None None None (StatusText "failed") transport "" None "" 0 "".

(** The fields that the rest of the handler sets. *)
Definition finish_activity (a : gatewayCommandActivity) (status : activity_status) (e : option error)
    (category : string) (http : Z) (confirmed : option confirmed_value) (matched : option bool) :
    gatewayCommandActivity :=
  MkActivity (ga_DeviceID a) (ga_ParamID a) (ga_Instance a) (ga_SignalName a) (ga_SignalUnit a)
    (ga_RequestedValue a) confirmed (ga_PrevValue a) matched status (ga_Transport a) (ga_LeaseHolder a) e
    category http (ga_IdempotencyKey a).
Definition with_prev (a : gatewayCommandActivity) (prev : option confirmed_value) : gatewayCommandActivity :=
  MkActivity (ga_DeviceID a) (ga_ParamID a) (ga_Instance a) (ga_SignalName a) (ga_SignalUnit a)
    (ga_RequestedValue a) (ga_ConfirmedValue a) prev (ga_ReadbackMatched a) (ga_Status a) (ga_Transport a)
    (ga_LeaseHolder a) (ga_Error a) (ga_ErrorCategory a) (ga_HTTPStatus a) (ga_IdempotencyKey a).

Definition lease_category (e : error) : string :=
  let c := gatewayCommandErrorCategory (Some e) in
  if bool_decide (c = ""%string) || bool_decide (c = "gateway"%string) then "lease"%string else c.
Definition refuse (s : gateway C) (a : gatewayCommandActivity) (status : string) (e : error) (category : string)
    (http : Z) : gateway C * reply :=
  (recordCommandActivity s (finish_activity a (StatusText status) (Some e) category http None None),
   error_reply http e).

(** The first look at the leases. *)
Definition first_look (env : write_env) (deviceID : string) (tc : Telecommand) (s : gateway C) :
    gateway C * option error :=
  let '(leases, refusal) := authorize_write (we_first env).2 deviceID tc (others (we_first env).1 (gw_leases s)) in
  (put_leases s leases, refusal).

(** Parameter 2035 is the power target of the gateway's own controller: it is
    kept in the gateway. *)
Definition write_power_target (env : write_env) (deviceID : string) (client : C) (req : writeRequest)
    (tc : Telecommand) (a : gatewayCommandActivity) (s : gateway C) : C * (gateway C * reply) :=
  if negb (match gw_devices s !! deviceID with Some b => gd_PowerControlEnabled (gb_cfg b) | None => false end) then
    (client, refuse s a "failed" (Errorf "third-party power control is disabled for this device" []) "authorization" 403)
  else
    let '(s, refusal) := first_look env deviceID tc s in
    match refusal with
    | Some e => (client, refuse s a "failed" e (lease_category e) 423)
    | None =>
        match floatFromAny (wr_Arguments req !! "value"%string) with
        | None =>
            (client, refuse s a "failed" (Errorf "invalid power control target value: must be a number" []) "validation" 400)
        | Some val =>
            if SFltb val (of_int 0) || SFltb (of_int 500) val then
              (client, refuse s a "failed" (Errorf "power control target out of safe bounds (0 - 500 W)" []) "validation" 400)
            else
              let '(client, blocked) := gatewayWriteDeviceErrorBackoff client req (ga_ParamID a) in
              match blocked with
              | Some e => (client, refuse s a "blocked" e "device_error" 409)
              | None =>
                  let s := setVirtualParam s deviceID (ga_ParamID a) (ga_Instance a) val in
                  let s := recordCommandActivity s
                    (finish_activity a (StatusText "completed") None "" 200 (Some (ConfirmedFloat val)) (Some true)) in
                  (client, (s,
                     MkReply 200 None
                        (Some (MkCommandEvent (tc_ID tc) (tc_SessionID tc) (tc_IdempotencyKey tc) CommandCompleted None))
                        (Some (ConfirmedFloat val)) (Some true) None))
              end
        end
    end.

(** The value of the parameter before the write, if it can be read. *)
Definition previous_value (client : C) (a : gatewayCommandActivity) : C * option confirmed_value :=
  if ga_ParamID a =? 0 then (client, None)
  else
    let '(client, vals) := rd_ReadBulk [MkParam (ga_ParamID a) (ga_Instance a) "" "" "" false "" ""] client in
    (client, match vals with Ok [v] => Some (gatewayConfirmedWriteValue "" v) | _ => None end).

(** The answer to a command the commander has carried out: the readback decides. *)
Definition completed_write (deviceID : string) (client : C) (req : writeRequest) (ev : CommandEvent)
    (a : gatewayCommandActivity) (s : gateway C) : C * (gateway C * reply) :=
  let '(client, verified) := verifyGatewayWrite deviceID client req s in
  (client,
   match verified with
   | Err e =>
       let s := if shouldResetDeviceBinding e then resetDeviceBinding s deviceID e else s in
       let status := httpStatusForError e in
       (recordCommandActivity s
          (finish_activity a (StatusText "verify_failed") (Some e) (gatewayCommandErrorCategory (Some e)) status None None),
        MkReply status (Some e) (Some ev) None None None)
   | Ok (confirmed, Some false) =>
       let e := Errorf "write readback mismatch for parameter %d instance %d: requested %v confirmed %v"
                  [ga_ParamID a; ga_Instance a] in
       (recordCommandActivity s
          (finish_activity a (StatusText "readback_mismatch") (Some e) "readback" 409 confirmed (Some false)),
        MkReply 409 (Some e) (Some ev) confirmed (Some false) None)
   | Ok (confirmed, matched) =>
       (recordCommandActivity s (finish_activity a (StatusOf (ev_Status ev)) (ev_Error ev) "" 200 confirmed matched),
        MkReply 200 None (Some ev) confirmed matched None)
   end).

(** The answer to a command that failed or was rejected. *)
Definition failed_write (deviceID : string) (ev : CommandEvent) (err : option error)
    (a : gatewayCommandActivity) (s : gateway C) : gateway C * reply :=
  let mismatch := match err with Some e => errors_is e ErrReadbackMismatch | None => false end in
  let status := if mismatch then StatusText "readback_mismatch" else StatusOf (ev_Status ev) in
  let http := gatewayCommandHTTPStatus (ev_Status ev) err in
  let record s http :=
    recordCommandActivity s (finish_activity a status (ev_Error ev) (gatewayCommandErrorCategory err) http None None) in
  match err with
  | Some e =>
      let s := if shouldResetDeviceBinding e then resetDeviceBinding s deviceID e else s in
      let http := if is_lease_error e then 423 else http in
      (record s http, MkReply http (Some e) (Some ev) None None None)
  | None => (record s http, MkReply 200 None (Some ev) None None None)
  end.

Definition write_parameter (env : write_env) (deviceID : string) (writer : WriteClient C) (client : C)
    (req : writeRequest) (tc : Telecommand) (a : gatewayCommandActivity) (s : gateway C) : C * (gateway C * reply) :=
  let '(s, refusal) := first_look env deviceID tc s in
  match refusal with
  | Some e => (client, refuse s a "failed" e (lease_category e) 423)
  | None =>
      let '(client, blocked) := gatewayWriteDeviceErrorBackoff client req (ga_ParamID a) in
      match blocked with
      | Some e => (client, refuse s a "blocked" e "device_error" 409)
      | None =>
          let '(client, prev) := previous_value client a in
          let a := with_prev a prev in
          let '((client, leases), (ev, err)) :=
            SendContext ParseFloat Sprint (Some (gateway_commander writer deviceID (we_second env).2)) tc
              (client, others (we_second env).1 (gw_leases s)) in
          let s := put_leases s leases in
          match ev_Status ev with
          | CommandCompleted => completed_write deviceID client req ev a s
          | _ => (client, failed_write deviceID ev err a s)
          end
      end
  end.

(** A decoded request, for a device with a commander. *)
Definition write_request (env : write_env) (deviceID : string) (writer : WriteClient C) (client : C)
    (header : bytes) (req : writeRequest) (s : gateway C) : C * (gateway C * reply) :=
  let metadata := request_token header req in
  let tc := MkTelecommand "" "" deviceID (wr_Name req) (wr_Arguments req) (we_key env) metadata in
  let '(leases, holder) :=
    leaseHolderForToken (we_holder env).2 (TrimSpace header) (others (we_holder env).1 (gw_leases s)) in
  let s := put_leases s leases in
  let '(paramID, instance, name, unit, value) := gatewayCommandTargetFromTelecommand req in
  let a := MkActivity deviceID paramID instance name unit value None None None (StatusText "failed")
             commanderTransportName holder None "" 0 (we_key env) in
  if paramID =? 2035 then write_power_target env deviceID client req tc a s
  else write_parameter env deviceID writer client req tc a s.

(** The client that the request has used is the one of the binding; the handler
    also returns it by itself, since a binding that is reset forgets it. *)
Definition handleWrite (env : write_env) (deviceID : string) (header : bytes) (body : res writeRequest)
    (s : gateway C) : option C * (gateway C * reply) :=
  let '(s, bound) := bind_device (we_connect env) deviceID s in
  match bound with
  | Err f =>
      let e := bind_error_value f in
      (None, refuse s (blank_activity deviceID "") "failed" e (gatewayCommandErrorCategory (Some e)) (bindStatusForError f))
  | Ok client =>
      match dc_WriteClient with
      | None =>
          (Some client, refuse s (blank_activity deviceID "unsupported") "failed"
             (Errorf "device transport does not support writes" []) "transport" 422)
      | Some writer =>
          match body with
          | Err _ =>
              (Some client, refuse s (blank_activity deviceID "") "failed" (Errorf "invalid JSON: " []) "request" 400)
          | Ok req =>
              let '(client, (s, r)) := write_request env deviceID writer client header req s in
              (Some client, (put_client s deviceID client, r))
          end
      end
  end.
End gateway_writes.

(** ** Properties *)
Section properties.
Context (ParseFloat : bytes → res f64) (Sprint : argument → bytes).
Context (catalogue_parameters write_parameters : list Param).
Context `{DeviceClient C}.
Implicit Types (s : gateway C) (env : write_env (C := C)) (req : writeRequest).

(** A token holds a device: its active lease has the token. *)
Definition holds_lease (d : string) (token : bytes) (now : Z) (leases : WriteLease.Registry) : Prop :=
  ∃ l, leases !! d = Some l ∧ Active l now = true ∧ Token l = token.

(** The leases as a request finds them at its two looks. *)
Definition leases_at_first env (header : bytes) s : WriteLease.Registry :=
  others (we_first env).1
    (leaseHolderForToken (we_holder env).2 (TrimSpace header) (others (we_holder env).1 (gw_leases s))).1.
Definition leases_at_second env (d : string) (header : bytes) req s : WriteLease.Registry :=
  others (we_second env).1
    (Validate (we_first env).2 d (lease_token (request_token header req)) (leases_at_first env header s)).1.

Lemma Validate_ok now d tok r : (Validate now d tok r).2 = Ok () → holds_lease d tok now r.
Proof.
  unfold Validate, holds_lease. destruct (r !! d) as [l|]; [|done].
  destruct (Active l now) eqn:Ha; simpl; [|done].
  destruct (bool_decide_reflect (Token l = tok)); simpl; [|done]. eauto.
Qed.

Lemma authorize_write_spec now d tc r :
  match authorize_write now d tc r with
  | (r', None) => r' = (Validate now d (lease_token (tc_Metadata tc)) r).1 ∧ holds_lease d (lease_token (tc_Metadata tc)) now r
  | (r', Some _) => r' = r ∨ r' = (Validate now d (lease_token (tc_Metadata tc)) r).1
  end.
Proof.
  unfold authorize_write. cbv zeta. destruct (bool_decide _); [by left|].
  pose proof (Validate_ok now d (lease_token (tc_Metadata tc)) r) as Hok.
  destruct (Validate now d _ r) as [r' [[]|e]]; simpl in *; [by auto|by right].
Qed.

Lemma first_look_spec env d tc s :
  match first_look env d tc s with
  | (s', None) =>
      let r := others (we_first env).1 (gw_leases s) in
      s' = put_leases s (Validate (we_first env).2 d (lease_token (tc_Metadata tc)) r).1 ∧
      holds_lease d (lease_token (tc_Metadata tc)) (we_first env).2 r
  | (s', Some _) => gw_devices s' = gw_devices s ∧ gw_virtualParams s' = gw_virtualParams s
  end.
Proof.
  unfold first_look.
  pose proof (authorize_write_spec (we_first env).2 d tc (others (we_first env).1 (gw_leases s))) as Ha.
  destruct (authorize_write _ _ _ _) as [r' [e|]]; [done|]. destruct Ha as [-> Hh]. done.
Qed.

(** *** What changes the virtual parameters, and what the client *)
Section device.
Context {D : Type} (device : C → D).
Hypothesis reads_preserve : ∀ ps c, device (rd_ReadBulk ps c).1 = device c.

Lemma read_device ps c c' vs : rd_ReadBulk ps c = (c', vs) → device c' = device c.
Proof using reads_preserve. intros Hr. rewrite <-(reads_preserve ps c), Hr. done. Qed.

Lemma backoff_device client req paramID :
  device (gatewayWriteDeviceErrorBackoff ParseFloat client req paramID).1 = device client.
Proof using reads_preserve.
  unfold gatewayWriteDeviceErrorBackoff. destruct (rd_ReadBulk _ client) eqn:E. by eapply read_device.
Qed.
Lemma previous_device client a : device (previous_value client a).1 = device client.
Proof using reads_preserve.
  unfold previous_value. case_match; [done|]. destruct (rd_ReadBulk _ client) eqn:E. by eapply read_device.
Qed.
Lemma verify_device d client req s :
  device (verifyGatewayWrite ParseFloat catalogue_parameters d client req s).1 = device client.
Proof using reads_preserve.
  unfold verifyGatewayWrite. repeat case_match; try done; by eapply read_device.
Qed.
Lemma completed_device d client req ev a s :
  device (completed_write ParseFloat catalogue_parameters d client req ev a s).1 = device client.
Proof using reads_preserve.
  unfold completed_write. pose proof (verify_device d client req s) as Hv.
  by destruct (verifyGatewayWrite _ _ d client req s).
Qed.

Lemma power_target_device env d client req tc a s :
  device (write_power_target ParseFloat env d client req tc a s).1 = device client.
Proof using reads_preserve.
  unfold write_power_target. pose proof (backoff_device client req (ga_ParamID a)) as Hb.
  destruct (gatewayWriteDeviceErrorBackoff _ _ _ _) as [c' blocked].
  repeat case_match; simplify_eq; done.
Qed.

Lemma SendContext_device writer d now tc c leases :
  tc_TargetID tc = d → d ≠ ""%string →
  device (SendContext ParseFloat Sprint (Some (gateway_commander writer d now)) tc (c, leases)).1.1 ≠ device c →
  holds_lease d (lease_token (tc_Metadata tc)) now leases.
Proof.
  intros Htc Hd Hch. pose proof (authorize_write_spec now d tc leases) as Ha.
  destruct (authorize_write now d tc leases) as [r' [e|]] eqn:E; [|by destruct Ha]. exfalso. apply Hch.
  erewrite (SendContext_refused _ _ _ _ _ (authorize_write now)); [done| |]; [done|].
  unfold authorize_target. rewrite Htc, bool_decide_false by done. exact E.
Qed.

Lemma write_parameter_device env d writer client req tc a s :
  tc_TargetID tc = d → d ≠ ""%string →
  device (write_parameter ParseFloat Sprint catalogue_parameters env d writer client req tc a s).1 ≠ device client →
  let first := others (we_first env).1 (gw_leases s) in
  holds_lease d (lease_token (tc_Metadata tc)) (we_first env).2 first ∧
  holds_lease d (lease_token (tc_Metadata tc)) (we_second env).2
    (others (we_second env).1 (Validate (we_first env).2 d (lease_token (tc_Metadata tc)) first).1).
Proof using reads_preserve.
  intros Htc Hd. unfold write_parameter. pose proof (first_look_spec env d tc s) as Hf.
  destruct (first_look env d tc s) as [s1 [e|]]; [done|]. destruct Hf as [-> Hfirst].
  pose proof (backoff_device client req (ga_ParamID a)) as Hb.
  destruct (gatewayWriteDeviceErrorBackoff _ client req _) as [c1 [e|]]; [done|]. simpl in Hb.
  pose proof (previous_device c1 a) as Hp. destruct (previous_value c1 a) as [c2 prev]. simpl in Hp.
  pose proof (SendContext_device writer d (we_second env).2 tc c2
    (others (we_second env).1 (gw_leases (put_leases s (Validate (we_first env).2 d (lease_token (tc_Metadata tc))
       (others (we_first env).1 (gw_leases s))).1))) Htc Hd) as Hs.
  destruct (SendContext _ _ _ _ _) as [[c3 leases] [ev err]]. simpl in Hs.
  intros Hch. split; [done|]. apply Hs. rewrite Hp, Hb. intros Hc3. apply Hch.
  destruct (ev_Status ev); simpl; [|done|done]. by rewrite completed_device.
Qed.

(** *** The virtual parameters *)
Lemma virtual_record s a : gw_virtualParams (recordCommandActivity s a) = gw_virtualParams s.
Proof. done. Qed.
Lemma virtual_put s d (c : C) : gw_virtualParams (put_client s d c) = gw_virtualParams s.
Proof. unfold put_client. by destruct (gw_devices s !! d) as [[? [] ?]|]. Qed.
Lemma virtual_reset s d e : gw_virtualParams (resetDeviceBinding s d e) = gw_virtualParams s.
Proof. unfold resetDeviceBinding. by destruct (gw_devices s !! d). Qed.
Lemma bind_state connect d s :
  let s' := (bind_device connect d s).1 in
  gw_virtualParams s' = gw_virtualParams s ∧ gw_leases s' = gw_leases s.
Proof. unfold bind_device. repeat case_match; done. Qed.

Lemma completed_virtual d client req ev a s :
  gw_virtualParams (completed_write ParseFloat catalogue_parameters d client req ev a s).2.1 = gw_virtualParams s.
Proof.
  unfold completed_write. destruct (verifyGatewayWrite _ _ d client req s) as [c' [[? [[]|]]|e]]; try done.
  simpl. case_match; [apply virtual_reset|done].
Qed.
Lemma failed_virtual d ev err a s : gw_virtualParams (failed_write (C := C) d ev err a s).1 = gw_virtualParams s.
Proof. unfold failed_write. destruct err; [|done]. simpl. case_match; [apply virtual_reset|done]. Qed.

Lemma write_parameter_virtual env d writer client req tc a s :
  gw_virtualParams (write_parameter ParseFloat Sprint catalogue_parameters env d writer client req tc a s).2.1 =
  gw_virtualParams s.
Proof.
  unfold write_parameter. pose proof (first_look_spec env d tc s) as Hf.
  destruct (first_look env d tc s) as [s1 [e|]]; [by destruct Hf|]. destruct Hf as [-> _].
  destruct (gatewayWriteDeviceErrorBackoff _ client req _) as [c1 [e|]]; [done|].
  destruct (previous_value c1 a) as [c2 prev].
  destruct (SendContext _ _ _ _ _) as [[c3 leases] [ev err]].
  destruct (ev_Status ev); simpl; [by rewrite completed_virtual|by rewrite failed_virtual..].
Qed.

Lemma power_target_virtual env d client req tc a s :
  gw_virtualParams (write_power_target ParseFloat env d client req tc a s).2.1 ≠ gw_virtualParams s →
  holds_lease d (lease_token (tc_Metadata tc)) (we_first env).2 (others (we_first env).1 (gw_leases s)).
Proof.
  unfold write_power_target. case_match; [done|]. pose proof (first_look_spec env d tc s) as Hf.
  destruct (first_look env d tc s) as [s1 [e|]]; [|by destruct Hf].
  destruct Hf as [_ Hf]. by intros [].
Qed.

(** C8: nothing reaches a device except under its live lease.  For every request,
    every client whose reads leave the device as it is, and whatever others do to
    the leases in between: if the device is in another state after the request than
    before, then the token of the request was that of the device's active lease at
    both looks, the second of them immediately before the write; and if the
    gateway's own set-points have changed, it was so at the first look. *)
Theorem write_needs_live_lease env (d : string) (header : bytes) req s : d ≠ ""%string →
  let '(used, (s', _)) :=
    handleWrite ParseFloat Sprint catalogue_parameters write_parameters env d header (Ok req) s in
  let token := lease_token (request_token header req) in
  (∀ c c', (bind_device (we_connect env) d s).2 = Ok c → used = Some c' → device c' ≠ device c →
     holds_lease d token (we_first env).2 (leases_at_first env header s) ∧
     holds_lease d token (we_second env).2 (leases_at_second env d header req s)) ∧
  (gw_virtualParams s' ≠ gw_virtualParams s → holds_lease d token (we_first env).2 (leases_at_first env header s)).
Proof using reads_preserve.
  intros Hd. unfold handleWrite. destruct (bind_state (we_connect env) d s) as [Hv Hl].
  destruct (bind_device _ d s) as [s0 [c|f]]; simpl in Hv, Hl; [|split; [done|by rewrite virtual_record]].
  destruct dc_WriteClient as [writer|];
    [|split; [by intros ?? [=] [=] []; subst|by rewrite virtual_record]].
  unfold write_request, leases_at_second, leases_at_first. rewrite <-Hl, <-Hv.
  destruct (leaseHolderForToken _ _ _) as [leases holder].
  destruct (gatewayCommandTargetFromTelecommand _ _ _) as [[[[id i] name] unit] value].
  set (s1 := put_leases s0 leases). set (tc := MkTelecommand _ _ _ _ _ _ _). set (a := MkActivity _ _ _ _ _ _ _ _ _ _ _ _ _ _ _ _).
  destruct (id =? 2035).
  - pose proof (power_target_device env d c req tc a s1) as Hdev.
    pose proof (power_target_virtual env d c req tc a s1) as Hvirt.
    destruct (write_power_target _ _ _ _ _ _ _ _) as [c1 [s2 r]]. simpl in *. rewrite virtual_put.
    split; [intros ?? [= <-] [= <-]; done|exact Hvirt].
  - pose proof (write_parameter_device env d writer c req tc a s1 eq_refl Hd) as Hdev.
    pose proof (write_parameter_virtual env d writer c req tc a s1) as Hvirt.
    destruct (write_parameter _ _ _ _ _ _ _ _ _ _ _) as [c1 [s2 r]]. simpl in *. rewrite virtual_put, Hvirt.
    split; [intros ?? [= <-] [= <-]; exact Hdev|done].
Qed.
End device.

(** *** Refusals *)
Lemma statuses e : 400 ≤ httpStatusForError e.
Proof. unfold httpStatusForError. repeat case_match; lia. Qed.

Lemma first_look_other env d tc s l : ExpiresAt l ≠ 0 →
  others (we_first env).1 (gw_leases s) !! d = Some l → (we_first env).2 < ExpiresAt l →
  lease_token (tc_Metadata tc) ≠ Token l →
  ∃ leases e, first_look env d tc s = (put_leases s leases, Some e) ∧ leases !! d = Some l.
Proof.
  intros Hne Hl Ht Htok. unfold first_look, authorize_write. cbv zeta.
  destruct (bool_decide _); [by eauto|]. unfold Validate. rewrite Hl, active_before by done. simpl.
  rewrite bool_decide_false by done. simpl. do 2 eexists. split; [done|].
  by rewrite live_lookup_eq, Hl, active_before.
Qed.

Lemma holder_keeps now token r d l : ExpiresAt l ≠ 0 → r !! d = Some l → now < ExpiresAt l →
  (leaseHolderForToken now token r).1 !! d = Some l.
Proof.
  intros Hne Hl Ht. unfold leaseHolderForToken. cbv zeta. destruct (bool_decide _); [done|]. simpl.
  by rewrite live_lookup_eq, Hl, active_before.
Qed.

Lemma acquire_reply t0 t1 rand ttl d body s s' r l :
  handleLeaseAcquire (C := C) t0 t1 rand ttl d body s = (s', r) → rp_Lease r = Some l →
  ∃ holder ttl', Acquire t0 t1 rand d holder ttl' (gw_leases s) = (gw_leases s', Ok l).
Proof.
  unfold handleLeaseAcquire. intros Hh Hl.
  destruct (gw_devices s !! d); [|by simplify_eq]. destruct body as [[holder ttl']|]; [|by simplify_eq].
  destruct (bool_decide _); [by simplify_eq|]. destruct (match ttl' with Some _ => _ | None => _ end) as [ttl''|];
    [|by simplify_eq]. exists holder, ttl''.
  destruct (Acquire _ _ _ _ _ _ _) as [leases [l'|e]]; simplify_eq; simpl in *; by simplify_eq.
Qed.

(** A request with another token than that of the lease. *)
Lemma write_request_refused env d writer client header req s l : ExpiresAt l ≠ 0 →
  leases_at_first env header s !! d = Some l → (we_first env).2 < ExpiresAt l →
  lease_token (request_token header req) ≠ Token l →
  let '(client', (s', r)) :=
    write_request ParseFloat Sprint catalogue_parameters write_parameters env d writer client header req s in
  client' = client ∧ 400 ≤ rp_Status r ∧ gw_virtualParams s' = gw_virtualParams s ∧
  gw_devices s' = gw_devices s ∧ rp_Event r = None ∧
  (gw_leases s' !! d = Some l ∨
   gw_leases s' = (leaseHolderForToken (we_holder env).2 (TrimSpace header) (others (we_holder env).1 (gw_leases s))).1).
Proof.
  intros Hne Hl Ht Htok. unfold write_request, leases_at_first in *.
  destruct (leaseHolderForToken _ _ _) as [leases holder]. simpl in Hl.
  destruct (gatewayCommandTargetFromTelecommand _ _ _) as [[[[id i] name] unit] value].
  set (tc := MkTelecommand _ _ _ _ _ _ _).
  destruct (first_look_other env d tc (put_leases s leases) l Hne Hl Ht Htok) as (leases' & e & Hf & Hd).
  destruct (id =? 2035).
  - unfold write_power_target. simpl. destruct (negb _); simpl; [split_and!; (done || by right)|].
    rewrite Hf. simpl. split_and!; (done || by left).
  - unfold write_parameter. rewrite Hf. simpl. split_and!; (done || by left).
Qed.

(** C2: a lease granted over HTTP excludes every other writer until it expires.
    From the answer that grants it, as long as its own token is not released and
    its holder does not renew it, and whatever other lease operations run before,
    and inside, a write request with another token: the request is answered with an
    error and without a command event, the connection is as the request found
    it, so that nothing was sent to the device, the gateway's own set-points are
    unchanged, and the lease is still there. *)
Theorem gateway_write_exclusive env (t0 t1 ttl : Z) (rand : res bytes) (d : string)
    (body : res (string * option (res Z))) (s0 s s1 : gateway C) (r0 : reply) (l : Lease)
    (es : list event) (header : bytes) req :
  0 ≤ t0 ≤ t1 → handleLeaseAcquire t0 t1 rand ttl d body s0 = (s, r0) → rp_Lease r0 = Some l →
  gw_leases s1 = others es (gw_leases s) →
  Forall (λ e, at_most (ExpiresAt l) e ∧ leaves l d e) (es ++ (we_holder env).1 ++ (we_first env).1) →
  (we_holder env).2 < ExpiresAt l → (we_first env).2 < ExpiresAt l →
  lease_token (request_token header req) ≠ Token l →
  let '(used, (s', r)) :=
    handleWrite ParseFloat Sprint catalogue_parameters write_parameters env d header (Ok req) s1 in
  400 ≤ rp_Status r ∧ rp_Event r = None ∧ gw_virtualParams s' = gw_virtualParams s1 ∧
  gw_leases s' !! d = Some l ∧
  ∀ c, (bind_device (we_connect env) d s1).2 = Ok c → used = Some c.
Proof.
  intros Ht Hacq Hl0 Hs1 Hes Hth Htf Htok.
  destruct (acquire_reply _ _ _ _ _ _ _ _ _ _ Hacq Hl0) as (holder & ttl' & Hok).
  destruct (Acquire_ok _ _ _ _ _ _ _ _ _ Ht Hok) as (Hd & _ & _ & _ & _ & Hpos).
  assert (Hne : ExpiresAt l ≠ 0) by lia.
  rewrite !Forall_app in Hes. destruct Hes as (H1 & H2 & H3).
  assert (Hkeep : ∀ es r, Forall (λ e, at_most (ExpiresAt l) e ∧ leaves l d e) es → r !! d = Some l →
    others es r !! d = Some l).
  { intros es' r Hes' Hr. apply Forall_and in Hes' as [??]. by apply trace_keeps. }
  assert (Hs1l : gw_leases s1 !! d = Some l) by (rewrite Hs1; by apply Hkeep).
  unfold handleWrite. destruct (bind_state (we_connect env) d s1) as [Hv Hl].
  destruct (bind_device _ d s1) as [s2 [c|f]]; simpl in Hv, Hl; rewrite <-Hl in Hs1l.
  2: { simpl. split_and!; try done. destruct f; simpl; [lia|apply statuses]. }
  destruct dc_WriteClient as [writer|].
  2: { simpl. split_and!; try done. intros ? [= ->]. done. }
  pose proof (holder_keeps (we_holder env).2 (TrimSpace header) _ d l Hne (Hkeep _ _ H2 Hs1l) Hth) as Hh.
  pose proof (write_request_refused env d writer c header req s2 l Hne) as Hr.
  destruct (write_request _ _ _ _ _ _ _ _ _ _ _) as [c' [s3 r]].
  destruct Hr as (-> & Hst & Hvirt & Hdev & Hev & Hlease); [by apply Hkeep|done|done|].
  simpl. rewrite virtual_put, Hvirt, Hv. split_and!; try done.
  - unfold put_client. destruct (gw_devices s3 !! d) as [[? [] ?]|]; simpl; destruct Hlease as [?| ->]; done.
  - by intros ? [= ->].
Qed.
End properties.

(** A device that is one integer, behind a gateway with one binding. *)
Module Cell.
#[local] Instance cell_ring : RingClient Z := {|
  env_SupportsRingReadout := λ _, false;
  env_ConfigureRingCapture := λ _ _ c, (c, Ok ());
  env_TriggerRingSync := λ c, (c, Ok ());
  env_ReadRingPointer := λ c, (c, Ok 0);
  env_ReadRingChunk := λ _ _ c, (c, Err (Sentinel ErrTransportNotSupported)) |}.
#[local] Instance cell_read : ReadClient Z := {|
  rd_ReadBulk := λ ps c, (c, Ok ((λ p, if ID p =? 105 then of_int 0 else of_int c) <$> ps)) |}.
#[local] Instance cell_client : DeviceClient Z := {|
  dc_ReadFloat32 := λ _ _ c, (c, Ok (of_int c));
  dc_ReadInt32 := λ _ _ c, (c, Ok c);
  dc_WriteClient := Some (MkWriteClient Z (λ _ _ _ c, (c, Ok ())) (λ _ _ v _, (v, Ok ())));
  dc_StringWriteClient := None; dc_ControlClient := None; dc_ReadSDORaw := None |}.

Definition target_temperature : Param := MkParam 3000 1 "Target Object Temperature" "degC" DataTypeFloat32 true "" "".
Definition write := handleWrite (λ _, Err invalid_arg) (λ _, []) [target_temperature] [target_temperature] (C := Z).
Definition bench_gateway : gateway Z :=
  MkGateway {["tec"%string := MkGatewayBinding (MkGatewayDevice "tec" [] [] false) (Some 1) None]} ∅ ∅ [].
Definition at_time (t : Z) : write_env (C := Z) := MkWriteEnv (λ _, Err invalid_arg) "key" ([], t) ([], t) ([EList t], t).
Definition set_to (v : Z) : writeRequest :=
  MkWriteRequest "write_int32" {["param"%string := ArgInt 3000; "value"%string := ArgInt v]} ∅.
Definition alice : gateway Z * reply := handleLeaseAcquire 100 100 (Ok [x01; x02]) 50 "tec" (Ok ("alice"%string, None)) bench_gateway.

(** With the token of the lease the write arrives, is read back and recorded. *)
Lemma lease_holder_writes :
  let '(used, (s, r)) := write (at_time 120) "tec" (str "0102") (Ok (set_to 7)) alice.1 in
  used = Some 7 ∧ rp_Status r = 200 ∧ rp_Confirmed r = Some (ConfirmedInt32 7) ∧ rp_Matched r = Some true ∧
  ga_LeaseHolder <$> gw_commandLog s = ["alice"%string].
Proof. vm_compute. done. Qed.

Lemma write_needs_live_lease_witness :
  (write (at_time 120) "tec" (str "0102") (Ok (set_to 7)) alice.1).1 = Some 7 ∧
  holds_lease "tec" (str "0102") 120 (leases_at_second (at_time 120) "tec" (str "0102") (set_to 7) alice.1).
Proof.
  split; [vm_compute; reflexivity|].
  pose proof (write_needs_live_lease (λ _, Err invalid_arg) (λ _, []) [target_temperature] [target_temperature] (λ c : Z, c)
    (λ _ _, eq_refl) (at_time 120) "tec" (str "0102") (set_to 7) alice.1 ltac:(discriminate)) as Hw.
  change (handleWrite _ _ _ _ (at_time 120) _ _ _ _) with (write (at_time 120) "tec" (str "0102") (Ok (set_to 7)) alice.1) in Hw.
  destruct (write _ _ _ _ _) as [used [s r]] eqn:E. destruct Hw as [Hw _].
  assert (used = Some 7) as -> by (apply (f_equal fst) in E; vm_compute in E; symmetry; exact E).
  destruct (Hw 1 7) as [_ Hh]; [vm_compute; reflexivity|reflexivity|discriminate|exact Hh].
Defined.

Lemma gateway_write_exclusive_witness :
  let '(used, (s, r)) := write (at_time 120) "tec" (str "0000") (Ok (set_to 7)) alice.1 in
  400 ≤ rp_Status r ∧ used = Some 1.
Proof.
  pose proof (gateway_write_exclusive (λ _, Err invalid_arg) (λ _, []) [target_temperature] [target_temperature] (C := Z)
    (at_time 120) 100 100 50 (Ok [x01; x02]) "tec" (Ok ("alice"%string, None)) bench_gateway alice.1 alice.1 alice.2
    (MkLease "tec" "alice" (str "0102") 100 150) [] (str "0000") (set_to 7)) as Hw.
  change (handleWrite _ _ _ _ (at_time 120) _ _ _ _) with (write (at_time 120) "tec" (str "0000") (Ok (set_to 7)) alice.1) in Hw.
  destruct (write _ _ _ _ _) as [used [s r]].
  destruct Hw as (Hst & _ & _ & _ & Hu).
  - lia.
  - vm_compute; reflexivity.
  - vm_compute; reflexivity.
  - reflexivity.
  - constructor.
  - vm_compute; reflexivity.
  - vm_compute; reflexivity.
  - vm_compute; discriminate.
  - split; [exact Hst|apply Hu; vm_compute; reflexivity].
Defined.

(** A power target without an instance is stored under instance 0, and confirmed,
    while every reader asks for instance 1 and up. *)
Lemma power_target_without_instance :
  let s := with_devices alice.1
    {["tec"%string := MkGatewayBinding (MkGatewayDevice "tec" [] [] true) (Some 1) None]} in
  let req := MkWriteRequest "write_float32" {["param"%string := ArgInt 2035; "value"%string := ArgInt 40]} ∅ in
  let '(_, (s, r)) := write (at_time 120) "tec" (str "0102") (Ok req) s in
  rp_Status r = 200 ∧ rp_Matched r = Some true ∧ getVirtualParam s "tec" 2035 1 (of_int 0) = of_int 0.
Proof. vm_compute. done. Qed.

(** A mistake in the request costs the connection: an argument error is no
    transport error, but the binding is reset for it. *)
Lemma argument_error_resets_binding :
  let req := MkWriteRequest "write_int32" {["param"%string := ArgInt 3000]} ∅ in
  let '(used, (s, r)) := write (at_time 120) "tec" (str "0102") (Ok req) alice.1 in
  used = Some 1 ∧ rp_Status r = 400 ∧ rp_Error r = Some missing_arg ∧
  gb_client <$> gw_devices s !! "tec"%string = Some None.
Proof. vm_compute. done. Qed.
End Cell.
