(* ===== verification/Hub.v ===== *)
(** * Hub: the configuration of the passthrough hub ([mecomserver/hub.go])

    From a list of devices with their transports the hub derives one TCP
    passthrough per device: its port, the byte stream behind it, and the transports
    offered to others.  Starting the servers is left to the program; which ones are
    started, and what becomes of their errors, is here.

    Texts are bytes; host and port are split and joined as Go's [net] does. *)
From stdpp Require Import prelude gmap strings list.
From Stdlib Require Import Strings.Byte.
From S2P Require Import Prelude Text Endpoint Protocol Broker.
Local Open Scope Z_scope.
#[local] Set Warnings "-clear-no-such-hyp".

(** ** Host and port *)
Fixpoint index_byte (b : byte) (l : bytes) : option nat :=
  match l with
  | [] => None
  | a :: l' => if bool_decide (a = b) then Some 0%nat else S <$> index_byte b l'
  end.
Definition has_byte (b : byte) (l : bytes) : bool := bool_decide (b ∈ l).

(** [net.SplitHostPort]. *)
Definition SplitHostPort (hostport : bytes) : option (bytes * bytes) :=
  match last_index ":"%byte hostport with
  | None => None
  | Some i =>
      let finish host j k :=
        if has_byte "["%byte (drop j hostport) || has_byte "]"%byte (drop k hostport) then None
        else Some (host, drop (S i) hostport) in
      match hostport with
      | c :: _ =>
          if bool_decide (c = "["%byte) then
            match index_byte "]"%byte hostport with
            | None => None
            | Some end_ => if (S end_ =? i)%nat then finish (slice hostport 1 end_) 1%nat (S end_) else None
            end
          else if has_byte ":"%byte (take i hostport) then None else finish (take i hostport) 0%nat 0%nat
      | [] => None
      end
  end.
(** [net.JoinHostPort]. *)
Definition JoinHostPort (host port : bytes) : bytes :=
  if has_byte ":"%byte host then "["%byte :: host ++ str "]:" ++ port else host ++ ":"%byte :: port.

(** [strings.Trim(s, "[]")]. *)
Fixpoint trim_brackets_left (l : bytes) : bytes :=
  match l with
  | c :: l' => if bool_decide (c = "["%byte) || bool_decide (c = "]"%byte) then trim_brackets_left l' else l
  | [] => []
  end.
Definition TrimBrackets (l : bytes) : bytes := reverse (trim_brackets_left (reverse (trim_brackets_left l))).

(** ** Configuration *)
Definition DefaultListenHost : bytes := str "127.0.0.1".
Definition DefaultQueueDepth : Z := 256.
Definition DefaultRingRetention : Z := 100000.
(** Nanoseconds. *)

Record QueuePolicy := MkQueuePolicy {
  TelemetryDepth : Z; TelecommandDepth : Z; RequestTimeout : Z; ReconnectDelay : Z }.
Record HubDevice := MkHubDevice {
  hd_ID : bytes; hd_Target : bytes; hd_RedundantTargets : list bytes; hd_PassthroughListen : bytes;
  hd_Queue : QueuePolicy; hd_RingRetention : Z; hd_Metadata : gmap string bytes }.
Record HubConfig := MkHubConfig { hc_ListenHost : bytes; hc_Devices : list HubDevice }.
Record DeviceSpec := MkDeviceSpec { ds_ID : bytes; ds_Target : bytes; ds_RedundantTargets : list bytes }.

Definition isSocketCANTargetName (target : bytes) : bool :=
  HasPrefix (TrimSpace (ToLower target)) (str "socketcan:").

(** The loop over the targets, with those already taken. *)
Fixpoint fresh_targets (seen : list bytes) (targets : list bytes) : list bytes :=
  match targets with
  | [] => []
  | target :: rest =>
      let target := TrimSpace target in
      if bool_decide (target = []) || bool_decide (target ∈ seen) then fresh_targets seen rest
      else target :: fresh_targets (target :: seen) rest
  end.
Definition cleanRedundantTargets (primary : bytes) (targets : list bytes) : list bytes :=
  let primary := TrimSpace primary in
  fresh_targets (if bool_decide (primary = []) then [] else [primary]) targets.

Definition passthroughDownstreamTarget (primary : bytes) (targets : list bytes) : bytes :=
  match List.find (λ t, negb (bool_decide (t = []) || isSocketCANTargetName t)) (TrimSpace <$> primary :: targets) with
  | Some t => t
  | None => TrimSpace primary
  end.
Definition PassthroughTarget (d : HubDevice) : bytes :=
  passthroughDownstreamTarget (hd_Target d) (hd_RedundantTargets d).

Definition localPassthroughMetadataTarget (listen : bytes) : bytes :=
  match SplitHostPort (TrimSpace listen) with
  | None => []
  | Some (host, port) =>
      if bool_decide (port = []) then []
      else
        let trimmed := TrimBrackets host in
        let host := if bool_decide (trimmed ∈ [[]; str "0.0.0.0"; str "::"]) then str "127.0.0.1" else host in
        str "tcp:" ++ JoinHostPort host port
  end.

(** The three groups are offered to one list without duplicates. *)
Definition metadataTransportCandidates (primary : bytes) (targets : list bytes)
    (passthroughListen passthroughDownstream : bytes) : list bytes :=
  fresh_targets []
    (primary ::
     (if negb (bool_decide (TrimSpace passthroughDownstream = [])) && negb (isSocketCANTargetName passthroughDownstream)
      then [localPassthroughMetadataTarget passthroughListen] else []) ++
     targets).

Definition hub_metadata (target : bytes) (redundant : list bytes) (listen downstream : bytes) : gmap string bytes :=
  list_to_map (M := gmap string bytes) [
    ("owner", str "local_node");
    ("passthrough", str "meerstetter_original_software");
    ("tm_mux", str "mecom_crtvstream_ring_for_high_priority_vx_round_robin_for_background");
    ("tc_demux", str "serialized_downstream");
    ("ring_reduction", str "mean_stddev_window_to_consumer_rate");
    ("consumer_rate_policy", str "publish_reduced_windows_at_requested_rate");
    ("manual_poll", str "front_of_round_robin_queue");
    ("single_read", str "compatibility_only");
    ("bulk_readout", str "?VX");
    ("primary_transport", target);
    ("preferred_transport", target);
    ("available_transports", JoinText (str ",") (metadataTransportCandidates target redundant listen downstream));
    ("redundant_targets", JoinText (str ",") redundant);
    ("passthrough_downstream", downstream);
    ("active_transport_policy", str "preferred_then_available_candidates")]%string.

Definition hub_error (what : string) : error := Errorf what [].
(** One device, at position [i]. *)
Definition hub_device (listenHost : bytes) (basePassthroughPort i : Z) (seen : list bytes) (spec : DeviceSpec) :
    res HubDevice :=
  let id := TrimSpace (ds_ID spec) in
  let target := TrimSpace (ds_Target spec) in
  if bool_decide (id = []) then Err (hub_error "mecomserver: device %d has no id")
  else if bool_decide (target = []) then Err (hub_error "mecomserver: device %q has no target")
  else if bool_decide (id ∈ seen) then Err (hub_error "mecomserver: duplicate device id %q")
  else
    let redundantTargets := cleanRedundantTargets target (ds_RedundantTargets spec) in
    let passthroughListen := listenHost ++ ":"%byte :: fmtD (basePassthroughPort + i) in
    let passthroughDownstream := passthroughDownstreamTarget target redundantTargets in
    Ok (MkHubDevice id target redundantTargets passthroughListen
          (MkQueuePolicy DefaultQueueDepth DefaultQueueDepth defaultRequestTimeout defaultReconnectDelay)
          DefaultRingRetention (hub_metadata target redundantTargets passthroughListen passthroughDownstream)).
Fixpoint hub_devices (listenHost : bytes) (basePassthroughPort i : Z) (seen : list bytes) (devices : list DeviceSpec) :
    res (list HubDevice) :=
  match devices with
  | [] => Ok []
  | spec :: rest =>
      d ← hub_device listenHost basePassthroughPort i seen spec;
      ds ← hub_devices listenHost basePassthroughPort (i + 1) (hd_ID d :: seen) rest;
      Ok (d :: ds)
  end.
Definition NewHubConfig (listenHost : bytes) (basePassthroughPort : Z) (devices : list DeviceSpec) : res HubConfig :=
  let listenHost := if bool_decide (TrimSpace listenHost = []) then DefaultListenHost else listenHost in
  if basePassthroughPort <=? 0 then Err (hub_error "mecomserver: base passthrough port required")
  else ds ← hub_devices listenHost basePassthroughPort 0 [] devices; Ok (MkHubConfig listenHost ds).

(** ** Servers *)
Record ServerConfig := MkServerConfig { sc_Target : bytes; sc_RequestTimeout : Z; sc_ReconnectDelay : Z }.
Definition HubDevice_ServerConfig (d : HubDevice) : ServerConfig :=
  let or_default v def := if v <=? 0 then def else v in
  MkServerConfig (PassthroughTarget d) (or_default (RequestTimeout (hd_Queue d)) defaultRequestTimeout)
    (or_default (ReconnectDelay (hd_Queue d)) defaultReconnectDelay).

Definition served (d : HubDevice) : bool :=
  negb (isSocketCANTargetName (PassthroughTarget d)) && negb (bool_decide (TrimSpace (hd_PassthroughListen d) = [])).
(** The servers that are started, and the result once all have returned: [ended]
    lists their results in the order in which they ended, each with whether the
    context was cancelled then. *)
Definition hub_servers (cfg : HubConfig) : list (bytes * ServerConfig) :=
  (λ d, (hd_PassthroughListen d, HubDevice_ServerConfig d)) <$> filter (λ d, served d = true) (hc_Devices cfg).
Definition RunHub (cfg : HubConfig) (ended : list (option error * bool)) : option error :=
  if bool_decide (hub_servers cfg = []) then Some (hub_error "mecomserver: RunHub started no servers")
  else
    head (omap (λ r : option error * bool,
                  match r with
                  | (Some e, false) => Some (Wrapf "mecomserver: device %q: %w" [] e)
                  | _ => None
                  end) ended).

(** ** Properties *)

Lemma fresh_targets_spec seen targets :
  NoDup (fresh_targets seen targets) ∧
  ∀ t, t ∈ fresh_targets seen targets ↔ t ∈ (TrimSpace <$> targets) ∧ t ≠ [] ∧ t ∉ seen.
Proof.
  revert seen. induction targets as [|t0 targets IH]; intros seen; simpl.
  { split; [constructor|]. intros t. rewrite elem_of_nil. tauto. }
  destruct (bool_decide_reflect (TrimSpace t0 = [])) as [He|He]; simpl.
  { destruct (IH seen) as [Hn Hi]. split; [done|]. intros t. rewrite Hi, elem_of_cons. naive_solver. }
  destruct (bool_decide_reflect (TrimSpace t0 ∈ seen)) as [Hs|Hs].
  { destruct (IH seen) as [Hn Hi]. split; [done|]. intros t. rewrite Hi, elem_of_cons. naive_solver. }
  destruct (IH (TrimSpace t0 :: seen)) as [Hn Hi]. split.
  - constructor; [|done]. rewrite Hi, elem_of_cons. tauto.
  - intros t. rewrite !elem_of_cons, Hi, elem_of_cons.
    destruct (decide (t = TrimSpace t0)) as [->|]; [|tauto]. split; [|by left]. intros _. auto.
Qed.

Lemma cleanRedundantTargets_spec primary targets : TrimSpace primary ≠ [] →
  NoDup (cleanRedundantTargets primary targets) ∧
  ∀ t, t ∈ cleanRedundantTargets primary targets ↔
       t ∈ (TrimSpace <$> targets) ∧ t ≠ [] ∧ t ≠ TrimSpace primary.
Proof.
  intros Hp. unfold cleanRedundantTargets. rewrite bool_decide_false by done.
  destruct (fresh_targets_spec [TrimSpace primary] targets) as [Hn Hi]. split; [done|].
  intros t. rewrite Hi, list_elem_of_singleton. tauto.
Qed.

Lemma find_spec {A} (f : A → bool) l :
  match List.find f l with Some x => x ∈ l ∧ f x = true | None => ∀ x, x ∈ l → f x = false end.
Proof.
  destruct (List.find f l) as [x|] eqn:E.
  - apply List.find_some in E as [Hi Hf]. split; [by apply list_elem_of_In|done].
  - intros x Hx. apply (List.find_none _ _ E). by apply list_elem_of_In.
Qed.

Lemma passthrough_spec primary targets : TrimSpace primary ≠ [] →
  let t := passthroughDownstreamTarget primary targets in
  t ∈ (TrimSpace <$> primary :: targets) ∧ t ≠ [] ∧
  (isSocketCANTargetName t = true →
   ∀ t', t' ∈ primary :: targets → TrimSpace t' ≠ [] → isSocketCANTargetName (TrimSpace t') = true).
Proof.
  intros Hp. unfold passthroughDownstreamTarget.
  pose proof (find_spec (λ t, negb (bool_decide (t = []) || isSocketCANTargetName t)) (TrimSpace <$> primary :: targets)) as Hf.
  destruct (List.find _ _) as [t|].
  - destruct Hf as [Hi Ht]. apply negb_true_iff, orb_false_iff in Ht as [Hne Hc].
    apply bool_decide_eq_false in Hne. split_and!; [done..|]. intros H. by rewrite Hc in H.
  - split_and!; [simpl; by left|done|]. intros _ t' Ht' Hne.
    specialize (Hf (TrimSpace t')). rewrite negb_false_iff, orb_true_iff, bool_decide_eq_true in Hf.
    destruct Hf as [?|?]; [by apply list_elem_of_fmap_2|done..].
Qed.

Lemma trim_left_nil l : trim_left l = [] → Forall (λ b, is_space b = true) l.
Proof. induction l as [|a l IH]; [constructor|]. cbn [trim_left]. destruct (is_space a) eqn:E; [|done]. by constructor; auto. Qed.
Lemma TrimSpace_not_nil l b : b ∈ l → is_space b = false → TrimSpace l ≠ [].
Proof.
  intros Hb Hs. unfold TrimSpace, trim_right. intros H.
  apply (f_equal reverse) in H. rewrite reverse_involutive in H. apply trim_left_nil in H.
  destruct (trim_left l) as [|a t] eqn:E.
  - apply trim_left_nil in E. rewrite Forall_forall in E. rewrite (E b Hb) in Hs. done.
  - apply trim_left_head in E. rewrite reverse_cons, Forall_app, Forall_singleton in H. destruct H as [_ H]. congruence.
Qed.

(** What the hub derives for the device at position [i]. *)
Record derived (listenHost : bytes) (base : Z) (i : nat) (spec : DeviceSpec) (d : HubDevice) : Prop := {
  d_id : hd_ID d = TrimSpace (ds_ID spec) ∧ hd_ID d ≠ [];
  d_target : hd_Target d = TrimSpace (ds_Target spec) ∧ hd_Target d ≠ [];
  d_listen : hd_PassthroughListen d = listenHost ++ ":"%byte :: fmtD (base + Z.of_nat i);
  d_redundant : NoDup (hd_Target d :: hd_RedundantTargets d) ∧
    ∀ t, t ∈ hd_RedundantTargets d ↔ t ∈ (TrimSpace <$> ds_RedundantTargets spec) ∧ t ≠ [] ∧ t ≠ hd_Target d;
  d_stream : PassthroughTarget d ∈ hd_Target d :: hd_RedundantTargets d ∧
    (isSocketCANTargetName (PassthroughTarget d) = true →
     ∀ t, t ∈ hd_Target d :: hd_RedundantTargets d → isSocketCANTargetName t = true) }.

Lemma clean_trimmed primary targets t : t ∈ cleanRedundantTargets primary targets → TrimSpace t = t.
Proof.
  unfold cleanRedundantTargets. intros Ht. apply (proj2 (fresh_targets_spec _ _)) in Ht as [Ht _].
  apply list_elem_of_fmap in Ht as (t' & -> & _). apply TrimSpace_idem.
Qed.

Lemma hub_device_ok host base i seen spec d : hub_device host base (Z.of_nat i) seen spec = Ok d →
  derived host base i spec d ∧ hd_ID d ∉ seen.
Proof.
  unfold hub_device.
  destruct (bool_decide_reflect (TrimSpace (ds_ID spec) = [])) as [|Hid]; [done|].
  destruct (bool_decide_reflect (TrimSpace (ds_Target spec) = [])) as [|Ht]; [done|].
  destruct (bool_decide_reflect (TrimSpace (ds_ID spec) ∈ seen)) as [|Hs]; [done|]. intros [= <-].
  set (target := TrimSpace (ds_Target spec)) in *. assert (Htt : TrimSpace target = target) by apply TrimSpace_idem.
  destruct (cleanRedundantTargets_spec target (ds_RedundantTargets spec)) as [Hn Hi]; [by rewrite Htt|].
  split; [|done]. constructor; simpl; try done.
  - rewrite Htt in Hi. split; [|done]. constructor; [|done]. rewrite Hi. tauto.
  - unfold PassthroughTarget. simpl.
    destruct (passthrough_spec target (cleanRedundantTargets target (ds_RedundantTargets spec))) as (Hin & _ & Hcan);
      [by rewrite Htt|].
    assert (Hfix : ∀ t, t ∈ target :: cleanRedundantTargets target (ds_RedundantTargets spec) → TrimSpace t = t).
    { intros t [->|Hc]%elem_of_cons; [done|by eapply clean_trimmed]. }
    split.
    + apply list_elem_of_fmap in Hin as (t & -> & Ht'). by rewrite (Hfix t Ht').
    + intros H t Ht'. rewrite <-(Hfix t Ht'). apply Hcan; [done..|]. rewrite (Hfix t Ht').
      apply elem_of_cons in Ht' as [->|Hc]; [done|]. by apply Hi in Hc as (_ & ? & _).
Qed.

Lemma hub_device_total host base i seen spec :
  TrimSpace (ds_ID spec) ≠ [] → TrimSpace (ds_Target spec) ≠ [] → TrimSpace (ds_ID spec) ∉ seen →
  ∃ d, hub_device host base i seen spec = Ok d ∧ hd_ID d = TrimSpace (ds_ID spec).
Proof. intros. unfold hub_device. rewrite !bool_decide_false by done. by eexists. Qed.

Lemma hub_devices_ok host base i seen specs ds : hub_devices host base (Z.of_nat i) seen specs = Ok ds →
  length ds = length specs ∧
  (∀ j spec d, specs !! j = Some spec → ds !! j = Some d → derived host base (i + j) spec d) ∧
  NoDup (hd_ID <$> ds) ∧ Forall (λ d, hd_ID d ∉ seen) ds.
Proof.
  revert i seen ds. induction specs as [|spec specs IH]; intros i seen ds; simpl.
  { intros [= <-]. split_and!; [done|done|constructor|constructor]. }
  intros (d & Hd & H)%bind_Ok_inv. apply bind_Ok_inv in H as (ds' & Hds & [= <-]).
  apply hub_device_ok in Hd as [Hd Hs]. replace (Z.of_nat i + 1) with (Z.of_nat (S i)) in Hds by lia.
  destruct (IH _ _ _ Hds) as (Hl & Hj & Hn & Hf). split_and!.
  - simpl. lia.
  - intros [|j] s' d' Hs' Hd'; simplify_eq/=; [by rewrite Nat.add_0_r|].
    replace (i + S j)%nat with (S i + j)%nat by lia. by apply Hj.
  - simpl. constructor; [|done]. intros Hin. apply list_elem_of_fmap in Hin as (d' & He & Hin).
    rewrite Forall_forall in Hf. apply (Hf d' Hin). rewrite <-He. by left.
  - constructor; [done|]. eapply Forall_impl; [exact Hf|]. intros d' Hd' Hin. apply Hd'. by right.
Qed.

(** A list of devices the hub can take. *)
Definition acceptable (specs : list DeviceSpec) : Prop :=
  NoDup (TrimSpace ∘ ds_ID <$> specs) ∧
  Forall (λ s, TrimSpace (ds_ID s) ≠ [] ∧ TrimSpace (ds_Target s) ≠ []) specs.

Lemma hub_devices_total host base i seen specs :
  acceptable specs → Forall (λ s, TrimSpace (ds_ID s) ∉ seen) specs →
  ∃ ds, hub_devices host base i seen specs = Ok ds.
Proof.
  intros [Hn Hf]. revert i seen Hn Hf. induction specs as [|spec specs IH]; intros i seen Hn Hf Hs; simpl; [by eexists|].
  apply Forall_cons_1 in Hf as [[Hid Ht] Hf], Hs as [Hs Hss]. apply NoDup_cons in Hn as [Hni Hn].
  destruct (hub_device_total host base i seen spec Hid Ht Hs) as (d & -> & Hd). simpl.
  destruct (IH (i + 1) (hd_ID d :: seen)) as [ds ->]; [done..| |by eexists].
  rewrite Forall_forall in *. intros s Hin. rewrite elem_of_cons. intros [Hc|Hc]; [|by apply (Hss s)].
  apply Hni. unfold compose. rewrite <-Hd, <-Hc. by apply (list_elem_of_fmap_2 (TrimSpace ∘ ds_ID)).
Qed.

Lemma hub_devices_acceptable host base i seen specs ds :
  hub_devices host base (Z.of_nat i) seen specs = Ok ds → acceptable specs.
Proof.
  intros H. destruct (hub_devices_ok _ _ _ _ _ _ H) as (Hl & Hj & Hn & _).
  assert (Hids : hd_ID <$> ds = TrimSpace ∘ ds_ID <$> specs).
  { apply list_eq_same_length with (length specs); rewrite ?length_fmap; [done|done|].
    intros j x y _ Hx Hy. apply list_lookup_fmap_Some in Hx as (d & -> & Hd), Hy as (s & -> & Hs).
    apply (Hj j s d Hs Hd). }
  split; [by rewrite <-Hids|]. apply Forall_lookup. intros j s Hs.
  destruct (lookup_lt_is_Some_2 ds j) as [d Hd]; [rewrite Hl; by eapply lookup_lt_Some|].
  destruct (Hj j s d Hs Hd) as [[<- ?] [<- ?] _ _ _]. done.
Qed.

Lemma fmtD_inj a b : 0 ≤ a < 2 ^ 63 → 0 ≤ b < 2 ^ 63 → fmtD a = fmtD b → a = b.
Proof.
  intros Ha Hb. unfold fmtD. destruct (Z.ltb_spec a 0); [lia|]. destruct (Z.ltb_spec b 0); [lia|].
  intros He. apply (f_equal Atoi) in He. rewrite !Atoi_dec in He by done. by injection He.
Qed.

(** The hub gives every device one owner and one passthrough of its own.  A
    configuration is accepted exactly if the base port is positive and the
    identifiers, after trimming, are present and distinct and no target is empty.
    Then every device has its identifier, its primary target and its other targets
    without blanks, repetitions or the primary one, and listens on the base port
    plus its position, so that no two devices share a port; the passthrough goes to
    one of its own targets, and a device is left without a server only if all its
    targets are SocketCAN. *)
Theorem hub_owns_each_device (host : bytes) (base : Z) (specs : list DeviceSpec) :
  (is_Ok (NewHubConfig host base specs) = true ↔ 0 < base ∧ acceptable specs) ∧
  ∀ cfg, NewHubConfig host base specs = Ok cfg →
    length (hc_Devices cfg) = length specs ∧
    (∀ i spec d, specs !! i = Some spec → hc_Devices cfg !! i = Some d →
       derived (hc_ListenHost cfg) base i spec d ∧
       (served d = false → ∀ t, t ∈ hd_Target d :: hd_RedundantTargets d → isSocketCANTargetName t = true)) ∧
    NoDup (hd_ID <$> hc_Devices cfg) ∧
    (base + Z.of_nat (length specs) ≤ 2 ^ 63 → NoDup (hd_PassthroughListen <$> hc_Devices cfg)).
Proof.
  unfold NewHubConfig. set (h := if bool_decide _ then _ else _). destruct (Z.leb_spec base 0) as [Hb|Hb].
  { split; [split; [done|lia]|done]. }
  split.
  { split.
    - intros H. split; [done|]. destruct (hub_devices h base 0 [] specs) as [ds|] eqn:E; [|done].
      by eapply (hub_devices_acceptable h base 0).
    - intros [_ Ha]. destruct (hub_devices_total h base 0 [] specs Ha) as [ds ->]; [|done].
      apply Forall_true. intros s. apply not_elem_of_nil. }
  intros cfg (ds & Hds & [= <-])%bind_Ok_inv. cbn [hc_Devices hc_ListenHost].
  destruct (hub_devices_ok h base 0 _ _ _ Hds) as (Hl & Hj & Hn & _). split_and!; [done| |done|].
  - intros i spec d Hs Hd. pose proof (Hj i spec d Hs Hd) as Hder. split; [done|].
    destruct Hder as [_ _ Hlisten _ [_ Hcan]]. unfold served. rewrite andb_false_iff, !negb_false_iff, bool_decide_eq_true.
    intros [H|H]; [by apply Hcan|]. exfalso. rewrite Hlisten in H.
    assert (Hc : ":"%byte ∈ h ++ ":"%byte :: fmtD (base + Z.of_nat (0 + i))) by set_solver.
    by apply (TrimSpace_not_nil _ _ Hc) in H.
  - intros Hmax. apply NoDup_fmap_2_strong; [|by eapply NoDup_fmap_1].
    intros d1 d2 [i H1]%list_elem_of_lookup_1 [j H2]%list_elem_of_lookup_1 He.
    destruct (lookup_lt_is_Some_2 specs i) as [s1 Hs1]; [rewrite <-Hl; by eapply lookup_lt_Some|].
    destruct (lookup_lt_is_Some_2 specs j) as [s2 Hs2]; [rewrite <-Hl; by eapply lookup_lt_Some|].
    destruct (Hj i s1 d1 Hs1 H1) as [_ _ L1 _ _], (Hj j s2 d2 Hs2 H2) as [_ _ L2 _ _].
    rewrite L1, L2 in He. apply app_inv_head in He. injection He as He.
    apply lookup_lt_Some in Hs1, Hs2. apply fmtD_inj in He; [|lia..].
    assert (i = j) as -> by lia. congruence.
Qed.

Definition bench_specs : list DeviceSpec :=
  [MkDeviceSpec (str "tec-01") (str "socketcan:can0?addr=0x1f") [str "serial:/dev/ttyUSB0@57600"; str " "];
   MkDeviceSpec (str "tec-02") (str "COM4@57600") []].

Lemma hub_owns_each_device_witness :
  match NewHubConfig [] 15000 bench_specs with
  | Ok cfg => length (hc_Devices cfg) = 2%nat ∧ NoDup (hd_PassthroughListen <$> hc_Devices cfg)
  | Err _ => False
  end.
Proof.
  destruct (hub_owns_each_device [] 15000 bench_specs) as [Hok H].
  assert (Ha : is_Ok (NewHubConfig [] 15000 bench_specs) = true).
  { apply Hok. split; [lia|]. split; [|repeat constructor; vm_compute; discriminate].
    vm_compute. repeat constructor; set_solver. }
  destruct (NewHubConfig [] 15000 bench_specs) as [cfg|e]; [|discriminate Ha].
  destruct (H cfg eq_refl) as (Hl & _ & _ & Hn). split; [exact Hl|]. apply Hn. vm_compute. discriminate.
Defined.
