(* ===== verification/Channels.v ===== *)
(** * Channels: telemetry for slow consumers ([mecomserver/poller.go],
      [mecom/subscriber.go])

    The program hands values to consumers through bounded channels and prefers to
    drop the oldest value over waiting.  Two functions do so: the poller's
    [publishReadoutBatch] and the subscriber's [emit].  One goroutine sends; the
    consumer may receive at any point between two channel operations, so the
    functions take how many values it receives at each of those points. *)
From stdpp Require Import prelude gmap strings list.
From Stdlib Require Import Strings.Byte Floats.SpecFloat.
From S2P Require Import Prelude Text Floats Protocol PollQueue RingReader Readout.
Local Open Scope Z_scope.

(** ** Bounded channels *)
Record Chan (A : Type) := MkChan { ch_cap : nat; ch_items : list A; ch_closed : bool }.
Arguments MkChan {A}. Arguments ch_cap {A}. Arguments ch_items {A}. Arguments ch_closed {A}.

Section channels.
Context {A : Type}.
Implicit Types (ch : Chan A) (b : A).

Definition make_chan (cap : nat) : Chan A := MkChan cap [] false.
(** A send that does not wait. *)
Definition try_send b ch : option (Chan A) :=
  if (length (ch_items ch) <? ch_cap ch)%nat then Some (MkChan (ch_cap ch) (ch_items ch ++ [b]) (ch_closed ch)) else None.
(** Up to [k] receives. *)
Definition receive (k : nat) ch : Chan A * list A :=
  (MkChan (ch_cap ch) (drop k (ch_items ch)) (ch_closed ch), take k (ch_items ch)).
Definition drop_oldest ch : Chan A := fst (receive 1 ch).
(** Closing a closed channel panics. *)
Definition close_chan ch : option (Chan A) :=
  if ch_closed ch then None else Some (MkChan (ch_cap ch) (ch_items ch) true).

(** The channel afterwards and what the consumer has received meanwhile, [k1] values
    before the drain and [k2] after it; a send on a closed channel panics. *)
Definition publishReadoutBatch (k1 k2 : nat) b ch : option (Chan A * list A) :=
  if ch_closed ch then None
  else
    match try_send b ch with
    | Some ch => Some (ch, [])
    | None =>
        let '(ch, r1) := receive k1 ch in
        let ch := drop_oldest ch in
        let '(ch, r2) := receive k2 ch in
        Some (match try_send b ch with Some ch => ch | None => ch end, r1 ++ r2)
    end.

(** The turns of the loop: whether [select] takes a cancelled context, and the
    receives before the drain. *)
Inductive emitted : Type := Sent | Cancelled.
Fixpoint emit (turns : list (bool * nat)) b ch : option (Chan A * list A * emitted) :=
  match turns with
  | [] => None
  | (done, k) :: turns =>
      if done then Some (ch, [], Cancelled)
      else
        match try_send b ch with
        | Some ch => Some (ch, [], Sent)
        | None =>
            let '(ch, r) := receive k ch in
            match emit turns b (drop_oldest ch) with
            | Some (ch, r', o) => Some (ch, r ++ r', o)
            | None => None
            end
        end
  end.

(** ** The life of a channel *)
Inductive chan_op : Type := Publish (k1 k2 : nat) (b : A) | Emit (turns : list (bool * nat)) (b : A) | Receive (k : nat).

(** The channel, all that was received, and all that was sent, in order. *)
Definition chan_step (st : Chan A * list A * list A) (op : chan_op) : option (Chan A * list A * list A) :=
  let '(ch, received, sent) := st in
  match op with
  | Publish k1 k2 b =>
      match publishReadoutBatch k1 k2 b ch with
      | Some (ch, r) => Some (ch, received ++ r, sent ++ [b])
      | None => None
      end
  | Emit turns b =>
      match emit turns b ch with
      | Some (ch, r, Sent) => Some (ch, received ++ r, sent ++ [b])
      | Some (ch, r, Cancelled) => Some (ch, received ++ r, sent)
      | None => None
      end
  | Receive k => let '(ch, r) := receive k ch in Some (ch, received ++ r, sent)
  end.
Fixpoint chan_steps (st : Chan A * list A * list A) (ops : list chan_op) : option (Chan A * list A * list A) :=
  match ops with
  | [] => Some st
  | op :: ops => match chan_step st op with Some st => chan_steps st ops | None => None end
  end.

(** *** Lemmas *)
(** What the consumer sees, [r ++ items], is [sent] with some values left out, and
    never the newest. *)
Record sees (cap : nat) (items received sent : list A) : Prop := {
  s_order : received ++ items `sublist_of` sent;
  s_bound : (length items ≤ cap)%nat;
  s_last : last sent = last (received ++ items) }.

Lemma sees_receive k cap items received sent : sees cap items received sent →
  sees cap (drop k items) (received ++ take k items) sent.
Proof.
  intros [Ho Hb Hl]. split.
  - by rewrite <-app_assoc, take_drop.
  - rewrite length_drop. lia.
  - by rewrite <-app_assoc, take_drop.
Qed.

Lemma sublist_gap (k m : nat) (l : list A) : (k ≤ m)%nat → take k l ++ drop m l `sublist_of` l.
Proof.
  intros Hk. replace m with (k + (m - k))%nat by lia. rewrite <-drop_drop. trans (take k l ++ drop k l).
  - apply sublist_app; [done|apply sublist_drop].
  - by rewrite take_drop.
Qed.

(** A send after at least one value has left, or where there was room. *)
Lemma sees_send cap items received sent b : received ++ items `sublist_of` sent → (length items < cap)%nat →
  sees cap (items ++ [b]) received (sent ++ [b]).
Proof.
  intros Ho Hb. split.
  - rewrite app_assoc. by apply sublist_app.
  - rewrite length_app. simpl. lia.
  - by rewrite app_assoc, !last_snoc.
Qed.

Lemma publish_sees k1 k2 b ch received sent : ch_closed ch = false → (0 < ch_cap ch)%nat →
  sees (ch_cap ch) (ch_items ch) received sent →
  ∃ ch' r, publishReadoutBatch k1 k2 b ch = Some (ch', r) ∧ ch_cap ch' = ch_cap ch ∧ ch_closed ch' = false ∧
           sees (ch_cap ch) (ch_items ch') (received ++ r) (sent ++ [b]) ∧ last (ch_items ch') = Some b.
Proof.
  intros Hc Hcap [Ho Hb Hl]. unfold publishReadoutBatch, try_send. rewrite Hc.
  destruct (Nat.ltb_spec (length (ch_items ch)) (ch_cap ch)) as [Hlt|Hge].
  - do 2 eexists. split; [done|]. split_and!; [done..| |apply last_snoc]. rewrite app_nil_r. by apply sees_send.
  - cbn [receive drop_oldest fst ch_items ch_cap ch_closed]. rewrite !drop_drop.
    destruct (Nat.ltb_spec (length (drop (k1 + (1 + k2)) (ch_items ch))) (ch_cap ch)) as [Hlt|Hno];
      [|rewrite length_drop in Hno; lia].
    do 2 eexists. split; [done|]. split_and!; [done..| |apply last_snoc]. cbn [ch_items]. apply sees_send; [|done].
    etrans; [|exact Ho]. rewrite <-!app_assoc. apply sublist_app; [done|].
    assert (Htail : take k2 (drop (k1 + 1) (ch_items ch)) ++ drop (k1 + (1 + k2)) (ch_items ch) `sublist_of`
                    drop (k1 + 1) (ch_items ch)).
    { rewrite Nat.add_assoc, <-(drop_drop _ k2 (k1 + 1)), take_drop. done. }
    etrans; [apply sublist_app; [done|exact Htail]|]. apply sublist_gap. lia.
Qed.

(** Two turns of the loop are enough. *)
Lemma emit_sees k k' turns b ch received sent : (0 < ch_cap ch)%nat → sees (ch_cap ch) (ch_items ch) received sent →
  ∃ ch' r, emit ((false, k) :: (false, k') :: turns) b ch = Some (ch', r, Sent) ∧ ch_cap ch' = ch_cap ch ∧
           ch_closed ch' = ch_closed ch ∧ sees (ch_cap ch) (ch_items ch') (received ++ r) (sent ++ [b]).
Proof.
  intros Hcap [Ho Hb Hl]. cbn [emit]. unfold try_send.
  destruct (Nat.ltb_spec (length (ch_items ch)) (ch_cap ch)) as [Hlt|Hge].
  - do 2 eexists. split; [done|]. split_and!; [done..|]. rewrite app_nil_r. by apply sees_send.
  - cbn [receive drop_oldest fst ch_items ch_cap ch_closed]. rewrite drop_drop.
    destruct (Nat.ltb_spec (length (drop (k + 1) (ch_items ch))) (ch_cap ch)) as [Hlt|Hno];
      [|rewrite length_drop in Hno; lia].
    do 2 eexists. split; [done|]. split_and!; [done..|]. cbn [ch_items]. rewrite app_nil_r. apply sees_send; [|done].
    etrans; [|exact Ho]. rewrite <-app_assoc. apply sublist_app; [done|]. apply sublist_gap. lia.
Qed.

(** What an operation sends; a cancelled context ends the stream. *)
Definition sends (op : chan_op) : list A :=
  match op with Publish _ _ b | Emit _ b => [b] | Receive _ => [] end.
Definition prompt (op : chan_op) : bool :=
  match op with Emit ((false, _) :: (false, _) :: _) _ => true | Emit _ _ => false | _ => true end.
Definition room_for (op : chan_op) ch : Prop := (length (ch_items ch) + length (sends op) ≤ ch_cap ch)%nat.
Fixpoint keeps_up (st : Chan A * list A * list A) (ops : list chan_op) : Prop :=
  match ops with
  | [] => True
  | op :: ops => room_for op st.1.1 ∧ ∀ st', chan_step st op = Some st' → keeps_up st' ops
  end.

Lemma chan_step_sees op ch received sent : prompt op = true → ch_closed ch = false → (0 < ch_cap ch)%nat →
  sees (ch_cap ch) (ch_items ch) received sent →
  ∃ ch' received', chan_step (ch, received, sent) op = Some (ch', received', sent ++ sends op) ∧
    ch_cap ch' = ch_cap ch ∧ ch_closed ch' = false ∧ sees (ch_cap ch) (ch_items ch') received' (sent ++ sends op).
Proof.
  intros Hp Hc Hcap Hs. destruct op as [k1 k2 b|turns b|k]; cbn [chan_step sends].
  - destruct (publish_sees k1 k2 b ch received sent Hc Hcap Hs) as (ch' & r & -> & ? & ? & ? & _).
    by do 2 eexists.
  - destruct turns as [|[[] k] [|[[] k'] turns]]; try done.
    destruct (emit_sees k k' turns b ch received sent Hcap Hs) as (ch' & r & -> & ? & Hcl & ?).
    do 2 eexists. split; [done|]. by rewrite Hcl.
  - cbn [receive]. rewrite app_nil_r. do 2 eexists. split; [done|]. split_and!; [done..|]. by apply sees_receive.
Qed.

Lemma chan_step_room op ch received sent st : room_for op ch → prompt op = true →
  received ++ ch_items ch = sent → chan_step (ch, received, sent) op = Some st →
  st.1.2 ++ ch_items st.1.1 = st.2.
Proof.
  unfold room_for. intros Hr Hp Hs Hst. destruct op as [k1 k2 b|turns b|k]; cbn [chan_step sends length] in *.
  - unfold publishReadoutBatch, try_send in Hst. destruct (ch_closed ch); [done|].
    destruct (Nat.ltb_spec (length (ch_items ch)) (ch_cap ch)) as [Hlt|]; [|lia]. simplify_eq. simpl.
    by rewrite app_nil_r, app_assoc.
  - destruct turns as [|[[] k] [|[[] k'] turns]]; try done. cbn [emit] in Hst. unfold try_send in Hst.
    destruct (Nat.ltb_spec (length (ch_items ch)) (ch_cap ch)) as [Hlt|]; [|lia]. simplify_eq. simpl.
    by rewrite app_nil_r, app_assoc.
  - cbn [receive] in Hst. simplify_eq. cbn. rewrite <-app_assoc. by rewrite take_drop.
Qed.

Lemma chan_steps_sees ops ch received sent : forallb prompt ops = true → ch_closed ch = false → (0 < ch_cap ch)%nat →
  sees (ch_cap ch) (ch_items ch) received sent →
  ∃ ch' received', chan_steps (ch, received, sent) ops = Some (ch', received', sent ++ (ops ≫= sends)) ∧
    sees (ch_cap ch) (ch_items ch') received' (sent ++ (ops ≫= sends)) ∧
    (keeps_up (ch, received, sent) ops → received ++ ch_items ch = sent →
     received' ++ ch_items ch' = sent ++ (ops ≫= sends)).
Proof.
  revert ch received sent. induction ops as [|op ops IH]; intros ch received sent Hp Hc Hcap Hs.
  { cbn. rewrite app_nil_r. by exists ch, received. }
  cbn [forallb] in Hp. apply andb_true_iff in Hp as [Hop Hp].
  destruct (chan_step_sees op ch received sent Hop Hc Hcap Hs) as (ch1 & r1 & Hst & Hcap1 & Hc1 & Hs1).
  destruct (IH ch1 r1 (sent ++ sends op)) as (ch2 & r2 & Hst2 & Hs2 & Hk2); [done|done|by rewrite Hcap1|by rewrite Hcap1|].
  exists ch2, r2. cbn [chan_steps]. rewrite Hst, bind_cons, app_assoc. rewrite Hcap1 in Hs2.
  split_and!; [done..|]. intros [Hroom Hk] He. apply Hk2; [by apply Hk|].
  apply (chan_step_room op ch received sent _ Hroom Hop He Hst).
Qed.

(** C19: a slow consumer never stalls the sender and always finds the newest value.
    Whatever the consumer receives and at whatever points, no send waits or
    panics, the loop of [emit] needs at most two turns, the channel stays within
    its capacity, and what the consumer has received together with what waits in
    the channel is the sequence of the values sent, in their order, with some left
    out but never the last; if it keeps up, none is left out. *)
Theorem slow_consumer_sees_latest (cap : nat) (ops : list chan_op) :
  (0 < cap)%nat → forallb prompt ops = true →
  ∃ ch received,
    chan_steps (make_chan cap, [], []) ops = Some (ch, received, ops ≫= sends) ∧
    received ++ ch_items ch `sublist_of` (ops ≫= sends) ∧ (length (ch_items ch) ≤ cap)%nat ∧
    last (ops ≫= sends) = last (received ++ ch_items ch) ∧
    (keeps_up (make_chan cap, [], []) ops → received ++ ch_items ch = ops ≫= sends).
Proof.
  intros Hcap Hp.
  destruct (chan_steps_sees ops (make_chan cap) [] [] Hp eq_refl Hcap) as (ch & r & Hst & [Ho Hb Hl] & Hk).
  { split; simpl; [done|lia|done]. }
  exists ch, r. split_and!; [done..|]. intros H. by apply Hk.
Qed.
End channels.
Arguments chan_op : clear implicits.

Lemma slow_consumer_sees_latest_witness :
  let ops : list (chan_op nat) :=
    [Publish 0 0 1%nat; Emit [(false, 0%nat); (false, 0%nat)] 2%nat; Publish 1 0 3%nat; Receive 1; Publish 0 0 4%nat] in
  chan_steps (make_chan 2, [], []) ops = Some (MkChan 2 [4%nat] false, [1%nat; 3%nat], [1%nat; 2%nat; 3%nat; 4%nat]) ∧
  last [1%nat; 2%nat; 3%nat; 4%nat] = last ([1%nat; 3%nat] ++ [4%nat]).
Proof.
  intros ops. assert (Hst : chan_steps (make_chan 2, [], []) ops =
    Some (MkChan 2 [4%nat] false, [1%nat; 3%nat], [1%nat; 2%nat; 3%nat; 4%nat])) by reflexivity.
  split; [exact Hst|].
  destruct (slow_consumer_sees_latest 2 ops ltac:(lia) eq_refl) as (ch & r & H & _ & _ & Hl & _).
  rewrite Hst in H. injection H as <- <-. exact Hl.
Defined.
