(* ===== verification/Subscriber.v ===== *)
(** * Subscriber: push telemetry ([mecom/subscriber.go])

    A subscriber reads its parameters in bulk on every tick and sends one telemetry
    value per parameter, good or bad, through the channel of [Channels.v].  The
    ticker is left to the program; one cycle is a function of the time and of what
    the consumer does meanwhile. *)
From stdpp Require Import prelude gmap strings list.
From Stdlib Require Import Strings.Byte Floats.SpecFloat.
From S2P Require Import Prelude Text Floats Protocol PollQueue RingReader Readout Channels.
Local Open Scope Z_scope.

(** ** Data *)
Record SubscriberConfig := MkSubscriberConfig {
  sb_TargetID : string; sb_SessionID : string; sb_Parameters : list Param; sb_Interval : Z; sb_Buffer : Z }.
Record Telemetry := MkTelemetry {
  tm_ID : string; tm_TargetID : string; tm_SessionID : string; tm_Time : Z; tm_Name : string; tm_Unit : string;
  tm_Value : option f64; tm_Quality : string; tm_Error : option error }.
Record Subscriber (C : Type) := MkSubscriber { su_cfg : SubscriberConfig; su_client : C; su_out : Chan Telemetry }.
Arguments MkSubscriber {C}. Arguments su_cfg {C}. Arguments su_client {C}. Arguments su_out {C}.

Definition Second : Z := 1000000000.

Section subscriber.
Context {C : Type} `{ReadClient C}.
(** [now.Format(time.RFC3339Nano)]. *)
Context (RFC3339Nano : Z → string).

Definition NewSubscriber (client : C) (cfg : SubscriberConfig) : Subscriber C :=
  let interval := if sb_Interval cfg <=? 0 then Second else sb_Interval cfg in
  let cfg := MkSubscriberConfig (sb_TargetID cfg) (sb_SessionID cfg) (sb_Parameters cfg) interval (sb_Buffer cfg) in
  let buf := sb_Buffer cfg in
  let buf := if buf <=? 0
             then let buf := Z.of_nat (length (sb_Parameters cfg)) in if buf <=? 0 then 1 else buf
             else buf in
  MkSubscriber cfg client (make_chan (Z.to_nat buf)).

(** The telemetry of parameter [i] after a read. *)
Definition telemetry_of (cfg : SubscriberConfig) (now : Z) (values : res (list f64)) (i : nat) (param : Param) : Telemetry :=
  let tm := MkTelemetry (sb_TargetID cfg +:+ ":" +:+ ParameterKey param +:+ ":" +:+ RFC3339Nano now)%string
              (sb_TargetID cfg) (sb_SessionID cfg) now (Name param) (Unit param) in
  match values with
  | Err e => tm None "unreachable" (Some e)
  | Ok values =>
      match values !! i with
      | None => tm None "missing" None
      | Some v => if is_nan v then tm None "nan" None else tm (Some v) "ok" None
      end
  end.

(** What happens around the [i]-th send: the turns of [emit], and whether the
    context is cancelled after it.  [None]: the loop has not returned. *)
Fixpoint emit_all (schedule : nat → list (bool * nat) * bool) (i : nat) (tms : list Telemetry) (ch : Chan Telemetry) :
    option (Chan Telemetry * list Telemetry) :=
  match tms with
  | [] => Some (ch, [])
  | tm :: tms =>
      let '(turns, cancelled) := schedule i in
      match emit turns tm ch with
      | None => None
      | Some (ch, r, _) =>
          if (cancelled : bool) then Some (ch, r)
          else match emit_all schedule (S i) tms ch with
               | Some (ch, r') => Some (ch, r ++ r')
               | None => None
               end
      end
  end.
Definition pollOnce (now : Z) (schedule : nat → list (bool * nat) * bool) (s : Subscriber C) :
    option (Subscriber C * list Telemetry) :=
  let '(client, values) := rd_ReadBulk (sb_Parameters (su_cfg s)) (su_client s) in
  match emit_all schedule 0 (imap (telemetry_of (su_cfg s) now values) (sb_Parameters (su_cfg s))) (su_out s) with
  | Some (out, received) => Some (MkSubscriber (su_cfg s) client out, received)
  | None => None
  end.

(** ** Properties *)
(** The context lives, and every loop may take two turns. *)
Definition undisturbed (schedule : nat → list (bool * nat) * bool) : Prop :=
  ∀ i, ∃ k k' turns, schedule i = ((false, k) :: (false, k') :: turns, false).

Lemma emit_all_sees schedule i tms ch received sent : undisturbed schedule → (0 < ch_cap ch)%nat →
  sees (ch_cap ch) (ch_items ch) received sent →
  ∃ ch' r, emit_all schedule i tms ch = Some (ch', r) ∧ ch_cap ch' = ch_cap ch ∧
           sees (ch_cap ch) (ch_items ch') (received ++ r) (sent ++ tms).
Proof.
  intros Hsch. revert i ch received sent. induction tms as [|tm tms IH]; intros i ch received sent Hcap Hs.
  { exists ch, []. rewrite !app_nil_r. done. }
  cbn [emit_all]. destruct (Hsch i) as (k & k' & turns & ->).
  destruct (emit_sees k k' turns tm ch received sent Hcap Hs) as (ch1 & r1 & -> & Hcap1 & _ & Hs1).
  rewrite <-Hcap1 in Hs1. destruct (IH (S i) ch1 _ _ ltac:(by rewrite Hcap1) Hs1) as (ch2 & r2 & -> & Hcap2 & Hs2).
  exists ch2, (r1 ++ r2). rewrite Hcap1 in Hcap2, Hs2. rewrite app_assoc, cons_middle, app_assoc. done.
Qed.

Lemma NewSubscriber_capacity client cfg : (0 < ch_cap (su_out (NewSubscriber client cfg)))%nat.
Proof. unfold NewSubscriber. simpl. repeat case_match; lia. Qed.

(** One cycle of a subscriber sends exactly one value per parameter, in the
    order of the parameters, whatever the device answers and however slow the
    consumer is: it returns, with a failed read every value is marked
    unreachable and carries the error, a missing or not-a-number value is marked
    as such, the others carry the values read; and the values that the consumer has
    received or can still receive are those sent up to now in their order, with the
    newest among them. *)
Theorem subscriber_cycle (now : Z) (schedule : nat → list (bool * nat) * bool) (s : Subscriber C) (received sent : list Telemetry) :
  undisturbed schedule → (0 < ch_cap (su_out s))%nat → sees (ch_cap (su_out s)) (ch_items (su_out s)) received sent →
  let values := (rd_ReadBulk (sb_Parameters (su_cfg s)) (su_client s)).2 in
  ∃ s' r cycle, pollOnce now schedule s = Some (s', r) ∧
    sees (ch_cap (su_out s)) (ch_items (su_out s')) (received ++ r) (sent ++ cycle) ∧
    tm_Name <$> cycle = Name <$> sb_Parameters (su_cfg s) ∧
    ∀ i p, sb_Parameters (su_cfg s) !! i = Some p → ∃ tm, cycle !! i = Some tm ∧ tm_Time tm = now ∧
      match values with
      | Err e => tm_Quality tm = "unreachable"%string ∧ tm_Error tm = Some e ∧ tm_Value tm = None
      | Ok vs =>
          tm_Error tm = None ∧ tm_Value tm = (vs !! i ≫= λ v, if is_nan v then None else Some v) ∧
          (tm_Quality tm = "ok"%string ↔ is_Some (tm_Value tm))
      end.
Proof.
  intros Hsch Hcap Hs values. unfold pollOnce. subst values.
  destruct (rd_ReadBulk _ _) as [client values]. simpl.
  set (cycle := imap _ _).
  destruct (emit_all_sees schedule 0 cycle (su_out s) received sent Hsch Hcap Hs) as (ch & r & -> & _ & Hsees).
  do 3 eexists. split; [done|]. split_and!.
  - exact Hsees.
  - apply list_eq. intros i. unfold cycle. rewrite !list_lookup_fmap, list_lookup_imap.
    destruct (sb_Parameters (su_cfg s) !! i) as [p|]; simpl; [|done].
    unfold telemetry_of. by destruct values as [vs|e]; [destruct (vs !! i) as [v|]; [destruct (is_nan v)|]|].
  - intros i p Hp. eexists. unfold cycle. rewrite list_lookup_imap, Hp. split; [done|].
    unfold telemetry_of. destruct values as [vs|e]; [|done].
    destruct (vs !! i) as [v|]; [destruct (is_nan v) eqn:Hn|]; simpl; rewrite ?Hn; split_and!; try done;
      split; (done || by intros [? [=]]).
Qed.
End subscriber.
