(* ===== verification/Poller.v ===== *)
(** * Poller: one readout plan per device through the router
      ([mecomserver/poller.go])

    The scheduler owns a readout of [Readout.v] per logical device, runs them through
    the shared router of [Router.v] with the client of [Fanout.v], and publishes every
    batch to the channels of the subscribers ([Channels.v]).

    Channels are shared objects: the state has a store of them, and a device has the
    set of its subscribers' references.  A call that would panic has no result.  The
    order in which the map of devices is traversed is an argument. *)
From stdpp Require Import prelude gmap strings list.
From Stdlib Require Import Strings.Byte Floats.SpecFloat.
From S2P Require Import Prelude Text Floats Protocol PollQueue Reduction RingReader Readout DeviceBridge BridgeFrames Router RoutedRead Fanout Channels.
Local Open Scope Z_scope.
#[local] Set Warnings "-clear-no-such-hyp".

(** ** State *)
Record RouterPollDeviceConfig := MkPollDeviceConfig {
  pc_Address : Z; pc_Readout : ReadoutConfig; pc_SupportsRingRead : option bool; pc_RoutePolicy : bytes }.
Record routerPollDevice := MkPollDevice {
  pd_cfg : RouterPollDeviceConfig; pd_readout : Readout; pd_subscribers : gset nat }.
Record RouterPollScheduler := MkPollScheduler {
  sd_rt : option RouterRuntime; sd_interval : Z; sd_devices : gmap Z routerPollDevice;
  sd_channels : gmap nat (Chan ReadoutBatch) }.

Definition supportsRingReadout (v : option bool) : bool := match v with Some b => b | None => false end.
Definition no_readout : ReadoutConfig := MkReadoutConfig [] 0 0 0 0 0 0.

(** A device without ring readout captures nothing. *)
Definition routerReadoutConfig (dev : RouterPollDeviceConfig) : ReadoutConfig :=
  let cfg := pc_Readout dev in
  if supportsRingReadout (pc_SupportsRingRead dev) then cfg
  else MkReadoutConfig
    ((λ p, MkReadoutParameter (rp_Parameter p) (Sensor p) false) <$> cfg_Parameters cfg)
    (cfg_BulkChunk cfg) (cfg_RingCaptureLimit cfg) (cfg_RingCaptureID cfg) (cfg_RingInhibitTime10us cfg)
    (cfg_DefaultRingReadMaxBytes cfg) (cfg_MaxRingReadMaxBytes cfg).

Definition new_poll_device (dev : RouterPollDeviceConfig) : routerPollDevice :=
  let readout := routerReadoutConfig dev in
  MkPollDevice (MkPollDeviceConfig (pc_Address dev) readout (pc_SupportsRingRead dev) (pc_RoutePolicy dev))
    (NewReadout readout) ∅.
Definition NewRouterPollScheduler (rt : option RouterRuntime) (interval : Z) (devices : list RouterPollDeviceConfig) :
    RouterPollScheduler :=
  MkPollScheduler rt interval
    (fold_left (λ m dev, <[pc_Address dev := new_poll_device dev]> m) devices ∅) ∅.

Definition with_poll_devices (s : RouterPollScheduler) devices : RouterPollScheduler :=
  MkPollScheduler (sd_rt s) (sd_interval s) devices (sd_channels s).
(** A device nobody has configured. *)
Definition device_at (s : RouterPollScheduler) (addr : Z) : routerPollDevice :=
  match sd_devices s !! addr with
  | Some dev => dev
  | None => MkPollDevice (MkPollDeviceConfig addr no_readout None []) (NewReadout no_readout) ∅
  end.

Definition poll_EnqueueFront (addr : Z) (spec : ReadoutParameter) (s : RouterPollScheduler) : RouterPollScheduler :=
  let dev := device_at s addr in
  with_poll_devices s
    (<[addr := MkPollDevice (pd_cfg dev) (Readout_EnqueueFront spec (pd_readout dev)) (pd_subscribers dev)]> (sd_devices s)).

Definition Subscribe (addr buffer : Z) (s : RouterPollScheduler) : RouterPollScheduler * nat :=
  let buffer := if buffer <=? 0 then 1 else buffer in
  let ch := fresh (dom (sd_channels s)) in
  let dev := device_at s addr in
  (MkPollScheduler (sd_rt s) (sd_interval s)
     (<[addr := MkPollDevice (pd_cfg dev) (pd_readout dev) ({[ch]} ∪ pd_subscribers dev)]> (sd_devices s))
     (<[ch := make_chan (Z.to_nat buffer)]> (sd_channels s)), ch).
(** The function [Subscribe] returns. *)
Definition cancel (addr : Z) (ch : nat) (s : RouterPollScheduler) : option RouterPollScheduler :=
  let devices :=
    match sd_devices s !! addr with
    | Some dev => <[addr := MkPollDevice (pd_cfg dev) (pd_readout dev) (pd_subscribers dev ∖ {[ch]})]> (sd_devices s)
    | None => sd_devices s
    end in
  match sd_channels s !! ch with
  | Some c =>
      match close_chan c with
      | Some c => Some (MkPollScheduler (sd_rt s) (sd_interval s) devices (<[ch := c]> (sd_channels s)))
      | None => None
      end
  | None => None
  end.
Definition consume (ch k : nat) (s : RouterPollScheduler) : RouterPollScheduler :=
  match sd_channels s !! ch with
  | Some c => MkPollScheduler (sd_rt s) (sd_interval s) (sd_devices s) (<[ch := (receive k c).1]> (sd_channels s))
  | None => s
  end.

(** Publishing to every subscriber; [meanwhile] is what each receives between the
    channel operations. *)
Fixpoint publish_all (meanwhile : nat → nat * nat) (batch : ReadoutBatch) (subs : list nat)
    (channels : gmap nat (Chan ReadoutBatch)) : option (gmap nat (Chan ReadoutBatch)) :=
  match subs with
  | [] => Some channels
  | sub :: subs =>
      match channels !! sub with
      | Some c =>
          match publishReadoutBatch (meanwhile sub).1 (meanwhile sub).2 batch c with
          | Some (c, _) => publish_all meanwhile batch subs (<[sub := c]> channels)
          | None => None
          end
      | None => None
      end
  end.

Section poller.
Context `{BridgeEnv} {W : Type} `{RouteEnv W} {V : Type} `{Window V} (error_text : error → string).

Definition no_router : error := Errorf "mecomserver: router runtime required for device 0x%02X" [].
Definition poll_state : Type := RouterPollScheduler * Router W * gmap Z ReadoutBatch.

Definition poll_device (clock : Z → Z) (meanwhile : nat → nat * nat) (addr : Z) (st : poll_state) : option poll_state :=
  let '(s, rt, out) := st in
  match sd_devices s !! addr with
  | None => Some st
  | Some dev =>
      match sd_rt s with
      | None => Some (s, rt, <[addr := MkBatch [] [] [] [no_router]]> out)
      | Some rr =>
          let client := NewReadClient rr addr (pc_RoutePolicy (pd_cfg dev))
                          (supportsRingReadout (pc_SupportsRingRead (pd_cfg dev))) rt in
          let '(client, readout, batch) := Poll (W := V) error_text (clock addr) client (pd_readout dev) in
          match publish_all meanwhile batch (elements (pd_subscribers dev)) (sd_channels s) with
          | Some channels =>
              Some (MkPollScheduler (sd_rt s) (sd_interval s)
                      (<[addr := MkPollDevice (pd_cfg dev) readout (pd_subscribers dev)]> (sd_devices s)) channels,
                    rc_router client, <[addr := batch]> out)
          | None => None
          end
      end
  end.
Fixpoint poll_devices (clock : Z → Z) (meanwhile : nat → nat * nat) (order : list Z) (st : poll_state) : option poll_state :=
  match order with
  | [] => Some st
  | addr :: order =>
      match poll_device clock meanwhile addr st with
      | Some st => poll_devices clock meanwhile order st
      | None => None
      end
  end.
Definition PollOnce (clock : Z → Z) (meanwhile : nat → nat * nat) (order : list Z) (s : RouterPollScheduler) (rt : Router W) :
    option poll_state :=
  poll_devices clock meanwhile order (s, rt, ∅).

(** ** The life of a scheduler *)
Inductive poller_step : RouterPollScheduler * Router W → RouterPollScheduler * Router W → Prop :=
  | step_front addr spec s rt : poller_step (s, rt) (poll_EnqueueFront addr spec s, rt)
  | step_subscribe addr buffer s rt : poller_step (s, rt) ((Subscribe addr buffer s).1, rt)
  (** The cancel function of a subscription, called for the first time. *)
  | step_cancel addr ch dev s s' rt :
      sd_devices s !! addr = Some dev → ch ∈ pd_subscribers dev → cancel addr ch s = Some s' →
      poller_step (s, rt) (s', rt)
  | step_consume ch k s rt : poller_step (s, rt) (consume ch k s, rt)
  | step_poll clock meanwhile order s s' rt rt' out :
      order ≡ₚ (map_to_list (sd_devices s)).*1 →
      PollOnce clock meanwhile order s rt = Some (s', rt', out) → poller_step (s, rt) (s', rt').

Definition subscribed (s : RouterPollScheduler) (addr : Z) (ch : nat) : Prop :=
  ∃ dev, sd_devices s !! addr = Some dev ∧ ch ∈ pd_subscribers dev.
Definition open_chan (channels : gmap nat (Chan ReadoutBatch)) (ch : nat) : Prop :=
  ∃ c, channels !! ch = Some c ∧ ch_closed c = false ∧ (0 < ch_cap c)%nat ∧ (length (ch_items c) ≤ ch_cap c)%nat.
Record sched_inv (s : RouterPollScheduler) : Prop := {
  si_readout : ∀ addr dev, sd_devices s !! addr = Some dev → readout_inv (pd_readout dev);
  si_open : ∀ addr ch, subscribed s addr ch → open_chan (sd_channels s) ch;
  si_own : ∀ a1 a2 ch, subscribed s a1 ch → subscribed s a2 ch → a1 = a2 }.

(** ** Lemmas *)
Lemma publish_open k1 k2 b c : ch_closed c = false → (0 < ch_cap c)%nat → (length (ch_items c) ≤ ch_cap c)%nat →
  ∃ c' r, publishReadoutBatch k1 k2 b c = Some (c', r) ∧ ch_closed c' = false ∧ ch_cap c' = ch_cap c ∧
          (length (ch_items c') ≤ ch_cap c')%nat ∧ last (ch_items c') = Some (b : ReadoutBatch).
Proof.
  intros Hc Hcap Hl. destruct (publish_sees k1 k2 b c [] (ch_items c) Hc Hcap) as (c' & r & Hp & Hcap' & Hc' & [_ Hb _] & Hlast);
    [by split|]. exists c', r. split_and!; try done. by rewrite Hcap'.
Qed.

Lemma publish_all_spec meanwhile batch subs channels : NoDup subs → (∀ ch, ch ∈ subs → open_chan channels ch) →
  ∃ channels', publish_all meanwhile batch subs channels = Some channels' ∧
    (∀ ch, ch ∉ subs → channels' !! ch = channels !! ch) ∧
    ∀ ch, ch ∈ subs → open_chan channels' ch ∧ ∃ c, channels' !! ch = Some c ∧ last (ch_items c) = Some batch.
Proof.
  intros Hn. revert channels. induction Hn as [|sub subs Hni Hn IH]; intros channels Hopen; simpl.
  { exists channels. split_and!; [done..|]. by intros ch ?%elem_of_nil. }
  destruct (Hopen sub) as (c & Hc & Hcl & Hcap & Hlen); [by left|]. rewrite Hc.
  destruct (publish_open (meanwhile sub).1 (meanwhile sub).2 batch c Hcl Hcap Hlen) as (c' & r & -> & Hcl' & Hcap' & Hlen' & Hlast).
  destruct (IH (<[sub := c']> channels)) as (channels' & Hp & Hother & Hsubs).
  { intros ch Hch. unfold open_chan. rewrite lookup_insert_ne by (intros ->; done). apply Hopen. by right. }
  exists channels'. split; [done|]. split.
  - intros ch Hch. rewrite Hother by set_solver. apply lookup_insert_ne. set_solver.
  - intros ch [->|Hch]%elem_of_cons; [|by apply Hsubs]. unfold open_chan. rewrite Hother by done.
    rewrite lookup_insert_eq. split; eexists; split_and!; try done. by rewrite Hcap'.
Qed.

Lemma Poll_inv t {C} `{ReadClient C} (c : C) r : readout_inv r → readout_inv (Poll (W := V) error_text t c r).1.2.
Proof.
  intros Hr. unfold Poll. pose proof (pollRing_inv (W := V) t c r empty_batch Hr) as Hring.
  destruct (pollRing t c r empty_batch) as [[c1 r1] b1]. by apply pollBackground_inv.
Qed.

(** The same subscriptions and devices. *)
Definition same_shape (s s' : RouterPollScheduler) : Prop :=
  sd_rt s' = sd_rt s ∧ dom (sd_devices s') = dom (sd_devices s) ∧ ∀ addr ch, subscribed s' addr ch ↔ subscribed s addr ch.

Lemma poll_device_spec clock meanwhile addr s rt out : sched_inv s → is_Some (sd_devices s !! addr) →
  ∃ s' rt' b, poll_device clock meanwhile addr (s, rt, out) = Some (s', rt', <[addr := b]> out) ∧
    sched_inv s' ∧ same_shape s s' ∧
    (∀ ch, ¬ subscribed s addr ch → sd_channels s' !! ch = sd_channels s !! ch) ∧
    (sd_rt s ≠ None → ∀ ch, subscribed s addr ch → ∃ c, sd_channels s' !! ch = Some c ∧ last (ch_items c) = Some b).
Proof.
  intros [Hro Hopen Hown] [dev Hdev]. unfold poll_device. rewrite Hdev. destruct (sd_rt s) as [rr|] eqn:Hrt.
  2: { do 3 eexists. by split_and!. }
  set (client := NewReadClient _ _ _ _ _).
  pose proof (Poll_inv (clock addr) client (pd_readout dev) (Hro addr dev Hdev)) as Hinv.
  destruct (Poll error_text (clock addr) client (pd_readout dev)) as [[client' readout] batch]. simpl in Hinv.
  destruct (publish_all_spec meanwhile batch (elements (pd_subscribers dev)) (sd_channels s)) as (channels & -> & Hother & Hsubs).
  { apply NoDup_elements. }
  { intros ch Hch%elem_of_elements. apply (Hopen addr). by exists dev. }
  set (s' := MkPollScheduler _ _ _ channels).
  assert (Hsub : ∀ a ch, subscribed s' a ch ↔ subscribed s a ch).
  { intros a ch. unfold subscribed. simpl. destruct (decide (a = addr)) as [->|].
    - rewrite lookup_insert_eq, Hdev. split; intros (d & [= <-] & ?); by eexists.
    - by rewrite lookup_insert_ne. }
  exists s', (rc_router client'), batch. split; [done|]. split_and!.
  - split.
    + intros a d. simpl. destruct (decide (a = addr)) as [->|]; [rewrite lookup_insert_eq; by intros [= <-]|].
      rewrite lookup_insert_ne by done. apply Hro.
    + intros a ch Hs%Hsub. destruct (decide (ch ∈ elements (pd_subscribers dev))) as [Hin|Hni].
      * by apply Hsubs.
      * unfold open_chan. simpl. rewrite Hother by done. by apply (Hopen a).
    + intros a1 a2 ch ?%Hsub ?%Hsub. by eapply Hown.
  - split_and!; [by rewrite Hrt|simpl; rewrite dom_insert_L; apply elem_of_dom_2 in Hdev; set_solver|done].
  - intros ch Hns. simpl. apply Hother. rewrite elem_of_elements. intros Hin. apply Hns. by exists dev.
  - intros _ ch (d & Hd & Hin). simplify_eq. simpl. apply Hsubs. by apply elem_of_elements.
Qed.

Lemma same_shape_trans s1 s2 s3 : same_shape s1 s2 → same_shape s2 s3 → same_shape s1 s3.
Proof. intros (? & ? & Ha) (? & ? & Hb). split_and!; [congruence..|]. intros addr ch. by rewrite Hb, Ha. Qed.

(** A batch is the last of every channel of its device. *)
Definition delivered (s : RouterPollScheduler) (addr : Z) (out : gmap Z ReadoutBatch) : Prop :=
  ∃ b, out !! addr = Some b ∧
       (sd_rt s ≠ None → ∀ ch, subscribed s addr ch → ∃ c, sd_channels s !! ch = Some c ∧ last (ch_items c) = Some b).

Lemma poll_devices_spec clock meanwhile order s rt out : sched_inv s → NoDup order →
  (∀ addr, addr ∈ order → addr ∈ dom (sd_devices s)) →
  ∃ s' rt' out', poll_devices clock meanwhile order (s, rt, out) = Some (s', rt', out') ∧ sched_inv s' ∧ same_shape s s' ∧
    (∀ addr, addr ∉ order → out' !! addr = out !! addr) ∧
    (∀ addr ch, addr ∉ order → subscribed s addr ch → sd_channels s' !! ch = sd_channels s !! ch) ∧
    ∀ addr, addr ∈ order → delivered s' addr out'.
Proof.
  intros Hinv Hn. revert s rt out Hinv.
  induction Hn as [|addr order Hni Hn IH]; intros s rt out Hinv Hdom; cbn [poll_devices].
  { do 3 eexists. split_and!; try done. intros a Ha. by apply elem_of_nil in Ha. }
  destruct (poll_device_spec clock meanwhile addr s rt out Hinv) as (s1 & rt1 & b & -> & Hinv1 & Hsh & Hother & Hlast).
  { apply elem_of_dom, Hdom. by left. }
  destruct (IH s1 rt1 (<[addr := b]> out) Hinv1) as (s2 & rt2 & out2 & -> & Hinv2 & Hsh2 & Hout & Hch & Hdel).
  { intros a Ha. destruct Hsh as (_ & -> & _). apply Hdom. by right. }
  do 3 eexists. split; [done|]. pose proof (same_shape_trans _ _ _ Hsh Hsh2) as Hs.
  destruct Hsh as (Hrt & Hd1 & Hsub1). destruct Hsh2 as (Hrt2 & Hd2 & Hsub2). split_and!; [done|done| | |].
  - intros a Ha. apply not_elem_of_cons in Ha as [Hne Ha]. rewrite Hout by done. by apply lookup_insert_ne.
  - intros a ch Ha Hsu. apply not_elem_of_cons in Ha as [Hne Ha].
    rewrite (Hch a ch) by (done || by apply Hsub1). apply Hother. intros Hsa.
    apply Hne. by apply (si_own s Hinv a addr ch).
  - intros a [->|Ha]%elem_of_cons; [|by apply Hdel]. exists b. rewrite Hout by done. split; [apply lookup_insert_eq|].
    intros Hsome ch Hsu%Hsub2. rewrite (Hch addr ch) by done. apply Hlast; [congruence|by apply Hsub1].
Qed.

Lemma keys_nodup s : NoDup ((map_to_list (sd_devices s)).*1).
Proof. apply NoDup_fst_map_to_list. Qed.
Lemma keys_dom s addr : addr ∈ (map_to_list (sd_devices s)).*1 ↔ addr ∈ dom (sd_devices s).
Proof.
  rewrite list_elem_of_fmap, elem_of_dom. split.
  - intros ([a d] & -> & Hin%elem_of_map_to_list). by eexists.
  - intros [d Hd]. exists (addr, d). split; [done|]. by apply elem_of_map_to_list.
Qed.

(** *** The invariant is kept *)
Lemma no_readout_inv : readout_inv (NewReadout no_readout).
Proof. apply NewReadout_inv; simpl; lia. Qed.
Lemma device_at_inv s addr : sched_inv s → readout_inv (pd_readout (device_at s addr)).
Proof.
  intros Hi. unfold device_at. destruct (sd_devices s !! addr) as [dev|] eqn:E; [by apply (si_readout s Hi addr)|].
  apply no_readout_inv.
Qed.
Lemma device_at_subscribed s addr ch : ch ∈ pd_subscribers (device_at s addr) ↔ subscribed s addr ch.
Proof.
  unfold device_at, subscribed. destruct (sd_devices s !! addr) as [dev|]; simpl.
  - split; [by eexists|]. by intros (? & [= <-] & ?).
  - split; [set_solver|]. by intros (? & ? & ?).
Qed.

Lemma front_inv addr spec s : sched_inv s → sched_inv (poll_EnqueueFront addr spec s).
Proof.
  intros Hi. pose proof (device_at_inv s addr Hi) as Hr.
  assert (Hsub : ∀ a ch, subscribed (poll_EnqueueFront addr spec s) a ch ↔ subscribed s a ch).
  { intros a ch. unfold subscribed at 1. simpl. destruct (decide (a = addr)) as [->|].
    - rewrite lookup_insert_eq, <-device_at_subscribed. split; [by intros (? & [= <-] & ?)|]. intros ?. by eexists.
    - by rewrite lookup_insert_ne. }
  split.
  - intros a d. simpl. destruct (decide (a = addr)) as [->|].
    + rewrite lookup_insert_eq. intros [= <-]. by apply Readout_EnqueueFront_inv.
    + rewrite lookup_insert_ne by done. apply (si_readout s Hi).
  - intros a ch ?%Hsub. by apply (si_open s Hi a).
  - intros a1 a2 ch ?%Hsub ?%Hsub. by eapply (si_own s Hi).
Qed.

Lemma subscribe_inv addr buffer s : sched_inv s → sched_inv (Subscribe addr buffer s).1.
Proof.
  intros Hi. pose proof (device_at_inv s addr Hi) as Hr. unfold Subscribe. simpl.
  set (new := fresh (dom (sd_channels s))). assert (Hnew : new ∉ dom (sd_channels s)) by apply is_fresh.
  assert (Hold : ∀ a ch, subscribed s a ch → ch ≠ new).
  { intros a ch Hs ->. destruct (si_open s Hi a new Hs) as (c & Hc & _). apply elem_of_dom_2 in Hc. done. }
  set (s' := MkPollScheduler _ _ _ _).
  assert (Hsub : ∀ a ch, subscribed s' a ch ↔ subscribed s a ch ∨ (a = addr ∧ ch = new)).
  { intros a ch. unfold subscribed at 1. simpl. destruct (decide (a = addr)) as [->|].
    - rewrite lookup_insert_eq, <-device_at_subscribed. split.
      + intros (? & [= <-] & Hin). simpl in Hin. set_solver.
      + intros Hin. eexists. split; [done|]. simpl. set_solver.
    - rewrite lookup_insert_ne by done. unfold subscribed. naive_solver. }
  split.
  - intros a d. simpl. destruct (decide (a = addr)) as [->|].
    + rewrite lookup_insert_eq. by intros [= <-].
    + rewrite lookup_insert_ne by done. apply (si_readout s Hi).
  - intros a ch [Hs|[-> ->]]%Hsub; unfold open_chan; simpl.
    + rewrite lookup_insert_ne by (intros E; by apply (Hold a ch)). by apply (si_open s Hi a).
    + rewrite lookup_insert_eq. eexists. split_and!; [done|done| |simpl; lia].
      simpl. destruct (Z.leb_spec buffer 0); simpl; lia.
  - intros a1 a2 ch [H1'|[-> ->]]%Hsub [H2'|[-> E2]]%Hsub; [by eapply (si_own s Hi)| | |done].
    + subst. by apply Hold in H1'.
    + by apply Hold in H2'.
Qed.

Lemma cancel_spec addr ch s : sched_inv s → subscribed s addr ch → ∃ s', cancel addr ch s = Some s' ∧ sched_inv s'.
Proof.
  intros Hi Hs. destruct Hs as (dev & Hdev & Hin).
  destruct (si_open s Hi addr ch) as (c & Hc & Hcl & _); [by exists dev|].
  unfold cancel, close_chan. rewrite Hdev, Hc, Hcl. eexists. split; [done|]. set (s' := MkPollScheduler _ _ _ _).
  assert (Hsub : ∀ a k, subscribed s' a k ↔ subscribed s a k ∧ k ≠ ch).
  { intros a k. unfold subscribed. simpl. destruct (decide (a = addr)) as [->|].
    - rewrite lookup_insert_eq, Hdev. split.
      + intros (? & [= <-] & Hk). simpl in Hk. split; [eexists; split; [done|]|]; set_solver.
      + intros [(? & [= <-] & Hk) Hne]. eexists. split; [done|]. simpl. set_solver.
    - rewrite lookup_insert_ne by done. split; [|by intros [? _]]. intros Hk. split; [done|]. intros ->.
      assert (a = addr) by (apply (si_own s Hi a addr ch); [done|by exists dev]). done. }
  split.
  - intros a d. simpl. destruct (decide (a = addr)) as [->|].
    + rewrite lookup_insert_eq. intros [= <-]. simpl. by apply (si_readout s Hi addr).
    + rewrite lookup_insert_ne by done. apply (si_readout s Hi).
  - intros a k [Hk Hne]%Hsub. unfold open_chan. simpl. rewrite lookup_insert_ne by done. by apply (si_open s Hi a).
  - intros a1 a2 k [? _]%Hsub [? _]%Hsub. by eapply (si_own s Hi).
Qed.

Lemma consume_inv ch k s : sched_inv s → sched_inv (consume ch k s).
Proof.
  intros Hi. unfold consume. destruct (sd_channels s !! ch) as [c|] eqn:Hc; [|done].
  split; [apply (si_readout s Hi)| |apply (si_own s Hi)].
  intros a k' Hs. destruct (si_open s Hi a k' Hs) as (c' & Hc' & Hcl & Hcap & Hlen). unfold open_chan. simpl.
  destruct (decide (k' = ch)) as [->|]; [|rewrite lookup_insert_ne by done; by exists c'].
  simplify_eq. rewrite lookup_insert_eq. eexists. split_and!; [done..|]. simpl. rewrite length_drop. lia.
Qed.

Lemma PollOnce_spec clock meanwhile order s rt : sched_inv s → order ≡ₚ (map_to_list (sd_devices s)).*1 →
  ∃ s' rt' out, PollOnce clock meanwhile order s rt = Some (s', rt', out) ∧ sched_inv s' ∧ same_shape s s' ∧
    dom out = dom (sd_devices s) ∧ ∀ addr, addr ∈ dom (sd_devices s) → delivered s' addr out.
Proof.
  intros Hi Ho. destruct (poll_devices_spec clock meanwhile order s rt ∅ Hi) as (s' & rt' & out & Hp & Hi' & Hsh & Hout & _ & Hdel).
  { rewrite Ho. apply keys_nodup. }
  { intros addr. by rewrite Ho, keys_dom. }
  assert (Hdel' : ∀ addr, addr ∈ dom (sd_devices s) → delivered s' addr out).
  { intros addr Ha. apply Hdel. by rewrite Ho, keys_dom. }
  exists s', rt', out. split_and!; [done..| |done]. apply set_eq. intros addr. split.
  - intros Ha. destruct (decide (addr ∈ order)) as [Hin|Hni]; [by rewrite Ho, keys_dom in Hin|].
    rewrite elem_of_dom, Hout in Ha by done. by destruct Ha.
  - intros Ha. destruct (Hdel' addr Ha) as (b & Hb & _). by apply elem_of_dom_2 in Hb.
Qed.

(** Without a router a poll only says so, for every device. *)
Lemma poll_without_router clock meanwhile order s rt out : sd_rt s = None →
  ∃ out', poll_devices clock meanwhile order (s, rt, out) = Some (s, rt, out') ∧
    ∀ addr b, out' !! addr = Some b → out !! addr = Some b ∨ b = MkBatch [] [] [] [no_router].
Proof.
  intros Hrt. revert out. induction order as [|a order IH]; intros out; cbn [poll_devices].
  { exists out. split; [done|]. by left. }
  unfold poll_device. destruct (sd_devices s !! a) as [dev|]; [|by apply IH]. rewrite Hrt.
  destruct (IH (<[a := MkBatch [] [] [] [no_router]]> out)) as (out' & -> & Hout). exists out'. split; [done|].
  intros addr b Hb. destruct (Hout addr b Hb) as [Hin| ->]; [|by right].
  apply lookup_insert_Some in Hin as [[_ <-]|[_ Hin]]; [by right|by left].
Qed.
Lemma poll_device_router clock meanwhile addr s rt out s' rt' out' :
  poll_device clock meanwhile addr (s, rt, out) = Some (s', rt', out') → sd_rt s' = sd_rt s.
Proof.
  unfold poll_device. destruct (sd_devices s !! addr) as [dev|]; [|by intros [= <- _ _]].
  destruct (sd_rt s) as [rr|] eqn:E; [|by intros [= <- _ _]]. destruct (Poll _ _ _ _) as [[client readout] batch].
  destruct (publish_all _ _ _ _); [|done]. by intros [= <- _ _].
Qed.
Lemma poll_devices_router clock meanwhile order st s' rt' out' :
  poll_devices clock meanwhile order st = Some (s', rt', out') → sd_rt s' = sd_rt st.1.1.
Proof.
  revert st. induction order as [|a order IH]; intros [[s rt] out]; cbn [poll_devices]; [by intros [= -> _ _]|].
  destruct (poll_device clock meanwhile a (s, rt, out)) as [[[s1 rt1] out1]|] eqn:E; [|done].
  intros ->%IH. by apply poll_device_router in E.
Qed.
Lemma reachable_router p q : rtc poller_step p q → sd_rt q.1 = sd_rt p.1.
Proof.
  induction 1 as [p|p p1 q Hst _ ->]; [done|]. inversion Hst as [| |addr ch dev s s' rt _ _ Hc|ch k s rt|clock meanwhile order s s' rt rt' out _ Hp]; subst; try done.
  - revert Hc. unfold cancel. destruct (sd_channels s !! ch) as [c|]; [|done]. destruct (close_chan c); [|done]. by intros [= <-].
  - unfold consume. by destruct (sd_channels s !! ch).
  - by apply poll_devices_router in Hp.
Qed.

Lemma reachable_inv s0 rt0 s rt : rtc poller_step (s0, rt0) (s, rt) → sched_inv s0 → sched_inv s.
Proof.
  intros Hr. remember (s0, rt0) as p0 eqn:E0. remember (s, rt) as p eqn:E. revert s0 rt0 s rt E0 E.
  induction Hr as [p|p0 p1 p2 Hst Hr IH]; intros s0 rt0 s rt -> E Hi; [by simplify_eq|].
  destruct p1 as [s1 rt1]. apply (IH s1 rt1 s rt eq_refl E). inversion Hst; subst; clear Hst.
  - by apply front_inv.
  - by apply subscribe_inv.
  - destruct (cancel_spec addr ch s0 Hi) as (s2 & Hc & Hi2); [by eexists|]. congruence.
  - by apply consume_inv.
  - destruct (PollOnce_spec clock meanwhile order s0 rt0 Hi) as (s2 & rt2 & out2 & Hp & Hi2 & _); [done|]. congruence.
Qed.

Lemma new_scheduler_inv rt interval devices :
  Forall (λ d, 0 ≤ cfg_DefaultRingReadMaxBytes (pc_Readout d) ∧ 0 ≤ cfg_MaxRingReadMaxBytes (pc_Readout d)) devices →
  sched_inv (NewRouterPollScheduler rt interval devices).
Proof.
  intros Hd. unfold NewRouterPollScheduler.
  assert (Hm : ∀ addr dev, fold_left (λ m d, <[pc_Address d := new_poll_device d]> m) devices (∅ : gmap Z routerPollDevice) !! addr = Some dev →
    ∃ d, d ∈ devices ∧ dev = new_poll_device d).
  { assert (Hgen : ∀ (m : gmap Z routerPollDevice) addr dev,
      fold_left (λ m d, <[pc_Address d := new_poll_device d]> m) devices m !! addr = Some dev →
      m !! addr = Some dev ∨ ∃ d, d ∈ devices ∧ dev = new_poll_device d).
    { clear Hd. induction devices as [|d devices IH]; intros m addr dev; simpl; [by left|].
      intros [Hin|(d' & Hd' & ->)]%IH; [|right; exists d'; split; [by right|done]].
      destruct (decide (pc_Address d = addr)) as [<-|].
      - rewrite lookup_insert_eq in Hin. injection Hin as <-. right. exists d. split; [by left|done].
      - rewrite lookup_insert_ne in Hin by done. by left. }
    intros addr dev H'. apply Hgen in H' as [H'|?]; [by rewrite lookup_empty in H'|done]. }
  assert (Hnone : ∀ addr ch, ¬ subscribed (MkPollScheduler rt interval (fold_left (λ m d, <[pc_Address d := new_poll_device d]> m) devices (∅ : gmap Z routerPollDevice)) ∅) addr ch).
  { intros addr ch (dev & Hdev & Hin). apply Hm in Hdev as (d & _ & ->). simpl in Hin. set_solver. }
  split.
  - intros addr dev Hdev. apply Hm in Hdev as (d & Hin & ->). simpl. rewrite Forall_forall in Hd.
    apply NewReadout_inv; unfold routerReadoutConfig; case_match; simpl; by apply Hd.
  - intros addr ch Hs. by apply Hnone in Hs.
  - intros a1 a2 ch Hs. by apply Hnone in Hs.
Qed.

(** C18: a poll serves every device and, with a router, every subscriber.  In every
    state that a scheduler reaches by manual polls, subscriptions, cancellations (each
    once), consumers receiving and earlier polls, and in whatever order the devices
    are traversed and whatever the consumers do meanwhile, a poll returns and does not
    send on a closed channel; it yields one batch for every device; every
    subscriber's channel is open and within its capacity; and every readout keeps the
    invariant of the readout scheduler.  If the scheduler was made with a router,
    every subscriber then finds the batch of its device as the newest value of its
    channel; if it was made without one, nothing is published or changed, and every
    batch says that the router is missing. *)
Theorem poll_serves_subscribers (runtime : option RouterRuntime) (interval : Z) (devices : list RouterPollDeviceConfig)
    (s : RouterPollScheduler) (rt0 rt : Router W) (clock : Z → Z) (meanwhile : nat → nat * nat) (order : list Z) :
  Forall (λ d, 0 ≤ cfg_DefaultRingReadMaxBytes (pc_Readout d) ∧ 0 ≤ cfg_MaxRingReadMaxBytes (pc_Readout d)) devices →
  rtc poller_step (NewRouterPollScheduler runtime interval devices, rt0) (s, rt) →
  order ≡ₚ (map_to_list (sd_devices s)).*1 →
  ∃ s' rt' out, PollOnce clock meanwhile order s rt = Some (s', rt', out) ∧
    dom out = dom (sd_devices s) ∧ dom (sd_devices s') = dom (sd_devices s) ∧
    (∀ addr dev, sd_devices s' !! addr = Some dev → readout_inv (pd_readout dev)) ∧
    (∀ addr ch, subscribed s addr ch → ∃ c, sd_channels s' !! ch = Some c ∧ ch_closed c = false ∧
      (length (ch_items c) ≤ ch_cap c)%nat ∧ (runtime ≠ None → last (ch_items c) = out !! addr)) ∧
    (runtime = None → s' = s ∧ ∀ addr b, out !! addr = Some b → b = MkBatch [] [] [] [no_router]).
Proof.
  intros Hd Hr Ho. assert (Hi : sched_inv s) by (eapply reachable_inv; [exact Hr|by apply new_scheduler_inv]).
  apply reachable_router in Hr as Hrt0. cbn [fst NewRouterPollScheduler sd_rt] in Hrt0.
  destruct (PollOnce_spec clock meanwhile order s rt Hi Ho) as (s' & rt' & out & Hp & Hi' & (Hrt & Hdom & Hsub) & Hout & Hdel).
  exists s', rt', out. split_and!; [done..|apply (si_readout s' Hi')| |].
  - intros addr ch Hs. destruct (si_open s' Hi' addr ch) as (c & Hc & Hcl & _ & Hlen); [by apply Hsub|]. exists c. split_and!; [done..|].
    intros Hsome. destruct (Hdel addr) as (b & Hb & Hlast).
    { destruct Hs as (dev & Hdev & _). by apply elem_of_dom_2 in Hdev. }
    destruct (Hlast ltac:(congruence) ch) as (c' & Hc' & Hl); [by apply Hsub|]. congruence.
  - intros Hnone. destruct (poll_without_router clock meanwhile order s rt ∅) as (out' & Hp' & Hb); [congruence|].
    unfold PollOnce in Hp. rewrite Hp in Hp'. injection Hp' as -> _ ->. split; [done|]. intros addr b Hab.
    destruct (Hb addr b Hab) as [Hx|Hx]; [by rewrite lookup_empty in Hx|done].
Qed.
End poller.

(** The cancel function of a subscription panics when it is called again. *)
Lemma cancel_twice_panics addr ch s s' : cancel addr ch s = Some s' → cancel addr ch s' = None.
Proof.
  unfold cancel, close_chan. destruct (sd_channels s !! ch) as [c|]; [|done]. destruct (ch_closed c); [done|].
  intros [= <-]. simpl. by rewrite lookup_insert_eq.
Qed.

(** Device 5 of the fan-out example, with one subscriber. *)
Definition one_device : list RouterPollDeviceConfig := [MkPollDeviceConfig 5 one_captured (Some true) []].
Definition subscribed_once : RouterPollScheduler * nat :=
  Subscribe 5 2 (NewRouterPollScheduler (Some both_runtime.1.1) 1 one_device).

Lemma poll_serves_subscribers_witness :
  ∃ s' rt' out c,
    @PollOnce small_env _ script_env _ last_window no_text (λ _, 1) (λ _, (0, 0)%nat) [5] subscribed_once.1 both_router =
      Some (s', rt', out) ∧
    sd_channels s' !! subscribed_once.2 = Some c ∧ last (ch_items c) = out !! 5 ∧ dom out = {[5]}.
Proof.
  destruct (@poll_serves_subscribers small_env _ script_env _ last_window no_text (Some both_runtime.1.1) 1 one_device
    subscribed_once.1 both_router both_router (λ _, 1) (λ _, (0, 0)%nat) [5]) as (s' & rt' & out & Hp & Hd & _ & _ & Hs & _).
  - repeat constructor; simpl; lia.
  - apply rtc_once. apply (@step_subscribe small_env _ script_env _ last_window no_text 5 2).
  - vm_compute. reflexivity.
  - destruct (Hs 5 subscribed_once.2) as (c & Hc & _ & _ & Hl).
    { eexists. split; [vm_compute; reflexivity|]. vm_compute. reflexivity. }
    exists s', rt', out, c. split; [exact Hp|]. split; [exact Hc|]. split; [apply Hl; discriminate|].
    rewrite Hd. vm_compute. reflexivity.
Defined.
