(* ===== verification/GraphKeys.v ===== *)
(** * GraphKeys: the names of graph series ([cmd/mecomgw/graph_tiles.go])

    A series is a parameter of a device at an instance.  Its name,
    ["device:param:instance"], is the key of the gateway's histories, the text of a
    request, and what an export is read back by; a device identifier may contain
    colons itself. *)
From stdpp Require Import prelude strings list.
From Stdlib Require Import Strings.Byte.
From S2P Require Import Prelude Text Endpoint.
Local Open Scope Z_scope.

Record graphTileRequestSeries := MkSeries { se_DeviceID : bytes; se_ParamID : Z; se_Instance : Z }.
#[export] Instance graphTileRequestSeries_eq_dec : EqDecision graphTileRequestSeries.
Proof. solve_decision. Defined.

(** ["%s:%d:%d"]. *)
Definition graphKey (deviceID : bytes) (paramID instance : Z) : bytes :=
  deviceID ++ ":"%byte :: fmtD paramID ++ ":"%byte :: fmtD instance.
Definition tileSeriesKeyFromRequest (req : graphTileRequestSeries) : bytes :=
  graphKey (se_DeviceID req) (se_ParamID req) (se_Instance req).

Definition series_error (what : string) : error := Errorf what [].
(** The last two parts are numbers, the rest is the device. *)
Definition series_of_parts (parts : list bytes) (short bad_param bad_instance no_device : error) : res graphTileRequestSeries :=
  if (length parts <? 3)%nat then Err short
  else
    match Atoi (TrimSpace (default [] (parts !! (length parts - 2)%nat))) with
    | None => Err bad_param
    | Some paramID =>
        match Atoi (TrimSpace (default [] (parts !! (length parts - 1)%nat))) with
        | None => Err bad_instance
        | Some instance =>
            let deviceID := TrimSpace (JoinByte ":"%byte (take (length parts - 2) parts)) in
            if bool_decide (deviceID = []) then Err no_device else Ok (MkSeries deviceID paramID instance)
        end
    end.
Definition graphTileSeriesFromKey (key : bytes) : res graphTileRequestSeries :=
  series_of_parts (SplitByte ":"%byte key) (series_error "invalid graph history key %q") ErrSyntax ErrSyntax
    (series_error "device required").

Definition firstNonEmpty (values : list bytes) : bytes :=
  default [] (List.find (λ v, negb (bool_decide (TrimSpace v = []))) values).

(** The query parameters of a request. *)
Record series_query := MkSeriesQuery {
  sq_series : list bytes; sq_device : bytes; sq_param : bytes; sq_instance : bytes }.
Fixpoint parse_series (raw : list bytes) : res (list graphTileRequestSeries) :=
  match raw with
  | [] => Ok []
  | item :: raw =>
      let item := TrimSpace item in
      if bool_decide (item = []) then parse_series raw
      else
        s ← series_of_parts (SplitByte ":"%byte item) (series_error "series %q must be device:param:instance")
              (series_error "series %q: invalid param") (series_error "series %q: invalid instance")
              (series_error "series %q: device required");
        ss ← parse_series raw;
        Ok (s :: ss)
  end.
Definition parseGraphTileSeriesQuery (q : series_query) : res (list graphTileRequestSeries) :=
  let raw :=
    if bool_decide (sq_series q = []) && negb (bool_decide (sq_device q = [])) && negb (bool_decide (sq_param q = []))
    then [sq_device q ++ ":"%byte :: sq_param q ++ ":"%byte :: firstNonEmpty [sq_instance q; str "1"]]
    else sq_series q in
  parse_series raw.

(** ** Lemmas *)
Lemma SplitByte_cons c l : ∃ p ps, SplitByte c l = p :: ps.
Proof.
  induction l as [|a l IH]; [by do 2 eexists|]. destruct IH as (p & ps & IH). cbn [SplitByte]. rewrite IH.
  case_bool_decide; by do 2 eexists.
Qed.

Lemma JoinByte_cons c a p ps : JoinByte c ((a :: p) :: ps) = a :: JoinByte c (p :: ps).
Proof. by destruct ps. Qed.

Lemma Join_Split c l : JoinByte c (SplitByte c l) = l.
Proof.
  induction l as [|a l IH]; simpl; [done|]. destruct (SplitByte_cons c l) as (p & ps & E). rewrite E in *.
  case_bool_decide as Ha; [subst a; change (JoinByte c ([] :: p :: ps)) with (c :: JoinByte c (p :: ps)); by rewrite IH|]. by rewrite JoinByte_cons, IH.
Qed.


Lemma Split_app c l t : c ∉ t → SplitByte c (l ++ c :: t) = SplitByte c l ++ [t].
Proof.
  intros Ht. induction l as [|a l IH]; simpl.
  - rewrite bool_decide_true by done. by rewrite Split_none.
  - rewrite IH. destruct (SplitByte_cons c l) as (p & ps & ->). by case_bool_decide.
Qed.

Lemma fmtD_digits z : 0 ≤ z → fmtD z = dec_digits 19 z.
Proof. intros Hz. unfold fmtD. by destruct (Z.ltb_spec z 0); [lia|]. Qed.

Lemma dec_digits_no_colon fuel z : 0 ≤ z → ":"%byte ∉ dec_digits fuel z.
Proof.
  revert z. induction fuel as [|fuel IH]; intros z Hz; cbn [dec_digits]; [apply not_elem_of_nil|].
  assert (Hd : ∀ d, 0 ≤ d < 10 → dec_char d ≠ ":"%byte).
  { intros d Hd. assert (H : d = 0 ∨ d = 1 ∨ d = 2 ∨ d = 3 ∨ d = 4 ∨ d = 5 ∨ d = 6 ∨ d = 7 ∨ d = 8 ∨ d = 9) by lia.
    by repeat (destruct H as [->|H]; [done|]); subst. }
  destruct (Z.ltb_spec z 10).
  - intros H'%list_elem_of_singleton. by apply (Hd z); [lia|].
  - rewrite elem_of_app, list_elem_of_singleton. intros [H'|H'].
    + apply (IH (z / 10)); [apply Z.div_pos; lia|done].
    + apply (Hd (z mod 10)); [apply Z.mod_pos_bound; lia|done].
Qed.

Lemma trim_left_no_space l : Forall (λ b, is_space b = false) l → trim_left l = l.
Proof. destruct 1 as [|b l Hb _]; [done|]. cbn [trim_left]. by rewrite Hb. Qed.
Lemma TrimSpace_no_space l : Forall (λ b, is_space b = false) l → TrimSpace l = l.
Proof.
  intros Hl. unfold TrimSpace, trim_right. rewrite (trim_left_no_space l) by done.
  rewrite trim_left_no_space by (by apply Forall_reverse). apply reverse_involutive.
Qed.
Lemma Atoi_fmtD z : 0 ≤ z < 2 ^ 63 → Atoi (TrimSpace (fmtD z)) = Some z.
Proof.
  intros Hz. rewrite fmtD_digits by lia. rewrite TrimSpace_no_space; [by apply Atoi_dec|].
  eapply Forall_impl; [apply dec_digits_chars; lia|]. tauto.
Qed.

Lemma Split_key d p i : 0 ≤ p → 0 ≤ i → SplitByte ":"%byte (graphKey d p i) = SplitByte ":"%byte d ++ [fmtD p; fmtD i].
Proof.
  intros Hp Hi. unfold graphKey. rewrite !fmtD_digits by done.
  change (":"%byte :: dec_digits 19 p ++ ?t) with ((":"%byte :: dec_digits 19 p) ++ t). rewrite app_assoc.
  rewrite Split_app by (by apply dec_digits_no_colon). rewrite Split_app by (by apply dec_digits_no_colon).
  by rewrite <-app_assoc.
Qed.

Lemma series_of_key d p i e1 e2 e3 e4 : TrimSpace d = d → d ≠ [] → 0 ≤ p < 2 ^ 63 → 0 ≤ i < 2 ^ 63 →
  series_of_parts (SplitByte ":"%byte (graphKey d p i)) e1 e2 e3 e4 = Ok (MkSeries d p i).
Proof.
  intros Ht Hd Hp Hi. rewrite Split_key by lia. unfold series_of_parts.
  destruct (SplitByte_cons ":"%byte d) as (x & xs & E).
  assert (Hl : length (SplitByte ":"%byte d ++ [fmtD p; fmtD i]) = S (S (length (SplitByte ":"%byte d))))
    by (rewrite length_app; simpl; lia).
  destruct (Nat.ltb_spec (length (SplitByte ":"%byte d ++ [fmtD p; fmtD i])) 3) as [H|_].
  { rewrite Hl, E in H. simpl in H. lia. }
  set (n := length (SplitByte ":"%byte d)) in *. rewrite Hl.
  replace (S (S n) - 2)%nat with n by lia. replace (S (S n) - 1)%nat with (n + 1)%nat by lia.
  rewrite (lookup_app_r _ _ n), (lookup_app_r _ _ (n + 1)) by lia. fold n. rewrite Nat.sub_diag.
  replace (n + 1 - n)%nat with 1%nat by lia. change ([fmtD p; fmtD i] !! 0%nat) with (Some (fmtD p)).
  change ([fmtD p; fmtD i] !! 1%nat) with (Some (fmtD i)). cbn [default from_option id].
  rewrite !Atoi_fmtD by done. unfold n. rewrite take_app_length, Join_Split, Ht. by rewrite bool_decide_false.
Qed.

(** The text of a series names it alone. *)
Lemma graphKey_inj d1 p1 i1 d2 p2 i2 : 0 ≤ p1 < 2 ^ 63 → 0 ≤ i1 < 2 ^ 63 → 0 ≤ p2 < 2 ^ 63 → 0 ≤ i2 < 2 ^ 63 →
  graphKey d1 p1 i1 = graphKey d2 p2 i2 → d1 = d2 ∧ p1 = p2 ∧ i1 = i2.
Proof.
  intros Hp1 Hi1 Hp2 Hi2 E. apply (f_equal (SplitByte ":"%byte)) in E. rewrite !Split_key in E by lia.
  apply app_inj_2 in E as [Ed Epi]; [|done]. apply (f_equal (JoinByte ":"%byte)) in Ed. rewrite !Join_Split in Ed.
  injection Epi as Ep Ei. apply (f_equal (Atoi ∘ TrimSpace)) in Ep, Ei. simpl in Ep, Ei.
  rewrite !Atoi_fmtD in Ep, Ei by done. by simplify_eq.
Qed.

Lemma TrimSpace_key d p i : TrimSpace d = d → d ≠ [] → 0 ≤ p → 0 ≤ i → TrimSpace (graphKey d p i) = graphKey d p i.
Proof.
  intros Ht Hd Hp Hi. unfold graphKey. rewrite (fmtD_digits i) by done.
  destruct (dec_digits_ends 19 i) as (l & c & E & Hc); [lia|lia|]. rewrite E.
  assert (Hs : is_space (dec_char c) = false) by apply (dec_char_digit c Hc).
  destruct d as [|b d]; [done|].
  assert (Hb : is_space b = false).
  { destruct (is_space b) eqn:Eb; [|done]. unfold TrimSpace in Ht. apply (f_equal length) in Ht.
    unfold trim_right in Ht. rewrite length_reverse in Ht. pose proof (trim_left_length (reverse (trim_left (b :: d)))) as H1.
    rewrite length_reverse in H1. cbn [trim_left] in *. rewrite Eb in *. pose proof (trim_left_length d). simpl in Ht. lia. }
  replace ((b :: d) ++ ":"%byte :: fmtD p ++ ":"%byte :: l ++ [dec_char c])
    with (b :: (d ++ ":"%byte :: fmtD p ++ ":"%byte :: l) ++ [dec_char c]) by (simpl; by rewrite <-!app_assoc; simpl; rewrite <-!app_assoc).
  by apply TrimSpace_keep.
Qed.

(** The text of a series and the series determine each other.  For every
    non-blank device identifier without surrounding white space, colons
    included, and all numbers: the key of a history parses back to its series,
    the same text in a request names that series, and two series with the same key
    are the same. *)
Theorem series_key_roundtrip (d d' : bytes) (p i p' i' : Z) :
  TrimSpace d = d → d ≠ [] → 0 ≤ p < 2 ^ 63 → 0 ≤ i < 2 ^ 63 → 0 ≤ p' < 2 ^ 63 → 0 ≤ i' < 2 ^ 63 →
  graphTileSeriesFromKey (graphKey d p i) = Ok (MkSeries d p i) ∧
  parseGraphTileSeriesQuery (MkSeriesQuery [tileSeriesKeyFromRequest (MkSeries d p i)] [] [] []) = Ok [MkSeries d p i] ∧
  (graphKey d p i = graphKey d' p' i' → MkSeries d p i = MkSeries d' p' i').
Proof.
  intros Ht Hd Hp Hi Hp' Hi'. split_and!.
  - by apply series_of_key.
  - unfold parseGraphTileSeriesQuery, tileSeriesKeyFromRequest. simpl.
    rewrite TrimSpace_key by (done || lia). rewrite bool_decide_false by (unfold graphKey; by destruct d).
    rewrite series_of_key by done. done.
  - intros E. destruct (graphKey_inj d p i d' p' i' Hp Hi Hp' Hi' E) as (-> & -> & ->). done.
Qed.

Lemma series_key_roundtrip_witness :
  graphTileSeriesFromKey (str "rack:2:1000:1") = Ok (MkSeries (str "rack:2") 1000 1).
Proof.
  apply (series_key_roundtrip (str "rack:2") [] 1000 1 0 0); first [reflexivity | discriminate | lia].
Defined.
