(* ===== verification/GraphHistory.v ===== *)
(** * GraphHistory: telemetry history of the gateway
      ([cmd/mecomgw/graph_tiles.go])

    For every signal the gateway keeps a hot buffer of the raw samples of the last
    fifteen minutes, sorted by time, and a pyramid of bucket means for longer
    ranges.  Values go to both.  A raw sample goes to the hot buffer alone, and a
    worker derives means from the raw samples for the pyramid; at this commit only
    tests record raw samples.

    The pyramid is a library: its operations are the class [Pyramid].  Times are
    nanoseconds, 0 is Go's zero time. *)
From stdpp Require Import prelude gmap strings list sorting.
From Stdlib Require Import Strings.Byte Floats.SpecFloat.
From S2P Require Import Prelude Text Floats Endpoint Protocol GraphKeys.
Local Open Scope Z_scope.

(** ** Constants *)
Definition Millisecond : Z := 1000000.
Definition GSecond : Z := 1000 * Millisecond.
Definition GMinute : Z := 60 * GSecond.
Definition graphHistoryHotRetention : Z := 15 * GMinute.
Definition graphHistoryFinestLOD : Z := 2 * GSecond.
Definition graphTileTargetPointCount : Z := 2400.
Definition defaultGraphHistoryRetention : Z := 3 * 24 * 60 * GMinute.

Definition isFiniteFloat (value : f64) : bool := negb (is_nan value) && negb (is_inf value).

(** ** [sort.Search] *)
Fixpoint search_go (fuel : nat) (f : nat → bool) (i j : nat) : nat :=
  match fuel with
  | O => i
  | S fuel =>
      if (i <? j)%nat then
        let h := ((i + j) / 2)%nat in
        if negb (f h) then search_go fuel f (S h) j else search_go fuel f i h
      else i
  end.
(** Every round halves the interval; [n] rounds are more than enough. *)
Definition sort_Search (n : nat) (f : nat → bool) : nat := search_go n f 0 n.

(** ** Histories *)
Record graphTileRawSample := MkRawSample { gr_At : Z; gr_Value : f64; gr_NeedsDerivation : bool }.

(** [tilehistory.Pyramid]: buckets with the start of their interval and their mean. *)
Class Pyramid (P : Type) := {
  NewPyramid : P;
  pyramid_Add : Z → f64 → P → P;
  pyramid_Snapshot : Z → P → list (Z * f64);
  pyramid_Earliest : P → Z;
  pyramid_Latest : P → Z }.

Record graphTileHistory (P : Type) := MkHistory {
  gh_raw : list graphTileRawSample;
  gh_pyramid : P;
  gh_hotLatest : Z;
  gh_lastDerivedRawAt : Z }.
Arguments MkHistory {P}. Arguments gh_raw {P}. Arguments gh_pyramid {P}. Arguments gh_hotLatest {P}.
Arguments gh_lastDerivedRawAt {P}.

(** The first sample at or after a time. *)
Definition search_raw (raw : list graphTileRawSample) (t : Z) : nat :=
  sort_Search (length raw) (λ i, match raw !! i with Some s => negb (gr_At s <? t) | None => false end).

Section history.
Context {P : Type} `{Pyramid P}.
Implicit Types (h : graphTileHistory P).

Definition newGraphTileHistory : graphTileHistory P := MkHistory [] NewPyramid 0 0.

Definition insert_raw (sample : graphTileRawSample) (raw : list graphTileRawSample) : list graphTileRawSample :=
  if match last raw with Some l => negb (gr_At sample <? gr_At l) | None => true end then raw ++ [sample]
  else let idx := search_raw raw (gr_At sample) in take idx raw ++ sample :: drop idx raw.
Definition insertRawSampleLocked (sample : graphTileRawSample) h : graphTileHistory P :=
  MkHistory (insert_raw sample (gh_raw h)) (gh_pyramid h) (gh_hotLatest h) (gh_lastDerivedRawAt h).

Definition trimRawLocked h : graphTileHistory P :=
  if (gh_hotLatest h =? 0) || bool_decide (gh_raw h = []) then h
  else
    let cutoff := gh_hotLatest h - 15 * GMinute in
    MkHistory (drop (search_raw (gh_raw h) cutoff) (gh_raw h)) (gh_pyramid h) (gh_hotLatest h) (gh_lastDerivedRawAt h).

(** [now] is the clock, read if the sample has no time. *)
Definition addSampleWithDerivationLocked (now at_ : Z) (value : f64) (isRaw needsDerivation : bool) h : graphTileHistory P :=
  if negb (isFiniteFloat value) then h
  else
    let at_ := if at_ =? 0 then now else at_ in
    let h := MkHistory (gh_raw h) (gh_pyramid h) (if gh_hotLatest h <? at_ then at_ else gh_hotLatest h)
               (gh_lastDerivedRawAt h) in
    if isRaw then trimRawLocked (insertRawSampleLocked (MkRawSample at_ value needsDerivation) h)
    else MkHistory (gh_raw h) (pyramid_Add at_ value (gh_pyramid h)) (gh_hotLatest h) (gh_lastDerivedRawAt h).
Definition addSampleLocked (now at_ : Z) (value : f64) (isRaw : bool) h : graphTileHistory P :=
  addSampleWithDerivationLocked now at_ value isRaw false h.

(** The samples from a time on. *)
Definition hotHistoryLocked (cutoff : Z) h : list (Z * f64) :=
  (λ s, (gr_At s, gr_Value s)) <$> drop (search_raw (gh_raw h) cutoff) (gh_raw h).

(** ** The two maps of the server *)
Record graphStore := MkGraphStore {
  gs_raw : gmap bytes (graphTileHistory P);
  gs_derived : gmap bytes (graphTileHistory P) }.

Definition history_at (m : gmap bytes (graphTileHistory P)) (key : bytes) : graphTileHistory P :=
  default newGraphTileHistory (m !! key).

Definition recordGraphSample (now : Z) (deviceID : bytes) (paramID instance : Z) (value : f64) (at_ : Z)
    (st : graphStore) : graphStore :=
  if negb (isFiniteFloat value) then st
  else
    let key := graphKey deviceID paramID instance in
    MkGraphStore
      (<[key := addSampleLocked now at_ value true (history_at (gs_raw st) key)]> (gs_raw st))
      (<[key := addSampleLocked now at_ value false (history_at (gs_derived st) key)]> (gs_derived st)).

Definition recordGraphRawSample (now : Z) (deviceID : bytes) (paramID instance : Z) (value : f64) (at_ : Z)
    (st : graphStore) : graphStore :=
  if negb (isFiniteFloat value) then st
  else
    let key := graphKey deviceID paramID instance in
    MkGraphStore
      (<[key := addSampleWithDerivationLocked now at_ value true true (history_at (gs_raw st) key)]> (gs_raw st))
      (gs_derived st).

(** ** Looking up a range *)
Definition graphTargetInterval (window : Z) : Z :=
  if window <=? 0 then 0
  else let target := window / graphTileTargetPointCount in if target <=? 0 then 1 else target.
Definition graphRangeUsesHotBuffer (window : Z) : bool :=
  if (window <=? 0) || (graphHistoryHotRetention <? window) then false
  else graphTargetInterval window <? graphHistoryFinestLOD.

Definition pyramid_range (t0 t1 : Z) h : list (Z * f64) :=
  filter (λ b, t0 ≤ b.1 ≤ t1) (pyramid_Snapshot (graphTargetInterval (t1 - t0)) (gh_pyramid h)).

Definition lookupGraphRange (deviceID : bytes) (paramID instance t0 t1 : Z) (st : graphStore) : list (Z * f64) :=
  let key := graphKey deviceID paramID instance in
  let hot_nonempty o := match o with Some h => negb (bool_decide (gh_raw h = [])) | None => false end in
  let raw := gs_raw st !! key in
  match raw, graphRangeUsesHotBuffer (t1 - t0) && hot_nonempty raw with
  | Some r, true => hotHistoryLocked t0 r
  | _, _ =>
      match gs_derived st !! key with
      | Some h =>
          let out := pyramid_range t0 t1 h in
          match raw with
          | Some r => if bool_decide (out = []) && hot_nonempty raw then hotHistoryLocked t0 r else out
          | None => out
          end
      | None =>
          match raw with
          | Some r =>
              let out := pyramid_range t0 t1 r in
              if bool_decide (out = []) && hot_nonempty raw then hotHistoryLocked t0 r else out
          | None => []
          end
      end
  end.
Definition lookupGraphHistory (deviceID : bytes) (paramID instance windowMs now : Z) (st : graphStore) : list (Z * f64) :=
  lookupGraphRange deviceID paramID instance (now - windowMs * Millisecond) now st.

(** ** Deriving means *)
(** The sum, the number and the latest time of the samples to derive from. *)
Definition derive_step (cutoff lastDerived : Z) (acc : f64 * Z * Z) (s : graphTileRawSample) : f64 * Z * Z :=
  let '(sum, count, latestAt) := acc in
  if gr_NeedsDerivation s && (cutoff <? gr_At s) && (lastDerived <? gr_At s) then
    (fadd sum (gr_Value s), count + 1, if latestAt <? gr_At s then gr_At s else latestAt)
  else acc.
Definition derive_key (clock now : Z) (st : graphStore) (key : bytes) : graphStore :=
  match gs_raw st !! key with
  | None => st
  | Some rawH =>
      let derivedH := history_at (gs_derived st) key in
      let st := MkGraphStore (gs_raw st) (<[key := derivedH]> (gs_derived st)) in
      if bool_decide (gh_raw rawH = []) then st
      else
        let '(sum, count, latestAt) :=
          fold_left (derive_step (now - 2 * GSecond) (gh_lastDerivedRawAt rawH)) (gh_raw rawH) (of_int 0, 0, 0) in
        if 0 <? count then
          MkGraphStore
            (<[key := MkHistory (gh_raw rawH) (gh_pyramid rawH) (gh_hotLatest rawH) latestAt]> (gs_raw st))
            (<[key := addSampleLocked clock latestAt (fdiv sum (of_int count)) false derivedH]> (gs_derived st))
        else st
  end.
(** [keys]: the keys of the raw histories, in the order of the traversal. *)
Definition processDerivationsAt (clock now : Z) (keys : list bytes) (st : graphStore) : graphStore :=
  fold_left (derive_key clock now) keys st.

(** ** Bounds *)
Definition earlier (a b : Z) : Z := if (a =? 0) || (b <? a) then b else a.
Definition later (a b : Z) : Z := if (a =? 0) || (a <? b) then b else a.
Definition history_bounds (acc : Z * Z) h : Z * Z :=
  let '(earliest, latest) := acc in
  let '(earliest, latest) :=
    match head (gh_raw h), last (gh_raw h) with
    | Some a, Some b => (earlier earliest (gr_At a), later latest (gr_At b))
    | _, _ => (earliest, latest)
    end in
  let pe := pyramid_Earliest (gh_pyramid h) in
  let pl := pyramid_Latest (gh_pyramid h) in
  (if pe =? 0 then earliest else earlier earliest pe, if pl =? 0 then latest else later latest pl).
Definition graphHistoryBounds (deviceID : bytes) (paramID instance : Z) (st : graphStore) : option (Z * Z) :=
  let key := graphKey deviceID paramID instance in
  let '(earliest, latest) :=
    fold_left history_bounds (omap id [gs_derived st !! key; gs_raw st !! key]) (0, 0) in
  if negb (earliest =? 0) && negb (latest =? 0) then Some (earliest, latest) else None.

(** The values of a spark line: the last thirty. *)
Definition sparkline (deviceID : bytes) (paramID instance : Z) (st : graphStore) : list f64 :=
  let key := graphKey deviceID paramID instance in
  match match gs_raw st !! key with Some h => Some h | None => gs_derived st !! key end with
  | None => []
  | Some h =>
      if bool_decide (gh_raw h = []) then snd <$> lastn 30 (pyramid_Snapshot (2 * GSecond) (gh_pyramid h))
      else gr_Value <$> lastn 30 (gh_raw h)
  end.
End history.
Arguments graphStore : clear implicits.
Arguments MkGraphStore {P}. Arguments gs_raw {P}. Arguments gs_derived {P}.

(** ** Searching a sorted buffer *)
Lemma search_go_spec n f fuel i j : (∀ a b, (a ≤ b < n)%nat → f a = true → f b = true) →
  (i ≤ j ≤ n)%nat → (j - i ≤ fuel)%nat → (∀ k, (k < i)%nat → f k = false) → (∀ k, (j ≤ k < n)%nat → f k = true) →
  let r := search_go fuel f i j in
  (r ≤ n)%nat ∧ (∀ k, (k < r)%nat → f k = false) ∧ (∀ k, (r ≤ k < n)%nat → f k = true).
Proof.
  intros Hmono. revert i j. induction fuel as [|fuel IH]; intros i j Hij Hf Hlo Hhi; cbn [search_go].
  { split_and!; [lia|done|]. intros k Hk. apply Hhi. lia. }
  destruct (Nat.ltb_spec i j) as [Hlt|Hge]; [|split_and!; [lia|done|intros k Hk; apply Hhi; lia]].
  assert (Hh : (i ≤ (i + j) / 2 < j)%nat) by (split; [apply Nat.div_le_lower_bound|apply Nat.Div0.div_lt_upper_bound]; lia).
  set (h := ((i + j) / 2)%nat) in *. destruct (f h) eqn:E; simpl.
  - apply IH; [lia|lia|done|]. intros k Hk. destruct (decide (j ≤ k)%nat); [by apply Hhi; lia|]. apply (Hmono h); [lia|done].
  - apply IH; [lia|lia| |done]. intros k Hk. destruct (f k) eqn:Ek; [|done].
    rewrite (Hmono k h) in E; [done|lia|done].
Qed.

Definition time_sorted : list graphTileRawSample → Prop := StronglySorted (λ a b, gr_At a ≤ gr_At b).

Lemma time_sorted_lookup raw i j a b : time_sorted raw → (i ≤ j)%nat → raw !! i = Some a → raw !! j = Some b → gr_At a ≤ gr_At b.
Proof.
  intros Hs. revert i j. induction Hs as [|x l Hl IH Hx]; intros i j Hij Ha Hb; [done|].
  destruct i as [|i], j as [|j]; simplify_eq/=; try lia.
  - rewrite Forall_forall in Hx. apply Hx. by eapply list_elem_of_lookup_2.
  - apply (IH i j); [lia|done..].
Qed.

Lemma search_raw_split raw t : time_sorted raw →
  Forall (λ s, gr_At s < t) (take (search_raw raw t) raw) ∧ Forall (λ s, t ≤ gr_At s) (drop (search_raw raw t) raw).
Proof.
  intros Hs. unfold search_raw, sort_Search.
  set (f := λ i, match raw !! i with Some s => negb (gr_At s <? t) | None => false end).
  destruct (search_go_spec (length raw) f (length raw) 0 (length raw)) as (Hn & Hlo & Hhi); try lia.
  { intros a b Hab. unfold f.
    destruct (lookup_lt_is_Some_2 raw a) as [x Ha]; [lia|]. destruct (lookup_lt_is_Some_2 raw b) as [y Hb]; [lia|].
    rewrite Ha, Hb. pose proof (time_sorted_lookup raw a b x y Hs ltac:(lia) Ha Hb).
    destruct (Z.ltb_spec (gr_At x) t); [done|]. destruct (Z.ltb_spec (gr_At y) t); [lia|done]. }
  revert Hn Hlo Hhi. generalize (search_go (length raw) f 0 (length raw)) as r. intros r Hn Hlo Hhi.
  split; apply Forall_lookup; intros k s Hk.
  - apply lookup_take_Some in Hk as [Hk Hlt]. specialize (Hlo k Hlt). unfold f in Hlo. rewrite Hk in Hlo.
    apply negb_false_iff, Z.ltb_lt in Hlo. done.
  - rewrite lookup_drop in Hk. pose proof (lookup_lt_Some _ _ _ Hk). specialize (Hhi (r + k)%nat ltac:(lia)).
    unfold f in Hhi. rewrite Hk in Hhi. apply negb_true_iff, Z.ltb_ge in Hhi. done.
Qed.

Lemma filter_all {A} (Q : A → Prop) `{∀ x, Decision (Q x)} (l : list A) : Forall Q l → filter Q l = l.
Proof. induction 1 as [|x l Hx _ IH]; [done|]. by rewrite filter_cons_True, IH. Qed.
Lemma filter_ext_in {A} (Q R : A → Prop) `{∀ x, Decision (Q x), ∀ x, Decision (R x)} (l : list A) :
  (∀ x, x ∈ l → Q x ↔ R x) → filter Q l = filter R l.
Proof.
  induction l as [|x l IH]; intros Hqr; [done|]. rewrite !filter_cons, IH by (intros y Hy; apply Hqr; by right).
  specialize (Hqr x ltac:(by left)). destruct (decide (Q x)), (decide (R x)); tauto.
Qed.

Lemma drop_search raw t : time_sorted raw → drop (search_raw raw t) raw = filter (λ s, t ≤ gr_At s) raw.
Proof.
  intros Hs. destruct (search_raw_split raw t Hs) as [Hlo Hhi].
  rewrite <-(take_drop (search_raw raw t) raw) at 3. rewrite filter_app, (filter_all _ (drop _ _)) by done.
  rewrite filter_none; [done|]. eapply Forall_impl; [exact Hlo|]. simpl. lia.
Qed.

Lemma insert_raw_sorted sample raw : time_sorted raw → time_sorted (insert_raw sample raw) ∧ insert_raw sample raw ≡ₚ sample :: raw.
Proof.
  intros Hs. unfold insert_raw.
  destruct (match last raw with Some l => negb (gr_At sample <? gr_At l) | None => true end) eqn:E.
  - split; [|by rewrite Permutation_app_comm]. apply StronglySorted_app. split_and!; [|done|by repeat constructor].
    intros a b Ha Hb%list_elem_of_singleton. subst b. destruct (last raw) as [l|] eqn:El.
    + apply negb_true_iff, Z.ltb_ge in E. apply last_Some in El as [l' ->].
      apply list_elem_of_lookup_1 in Ha as [i Ha]. trans (gr_At l); [|done].
      apply (time_sorted_lookup (l' ++ [l]) i (length l')); [done| |done|by apply list_lookup_middle].
      apply lookup_lt_Some in Ha. rewrite length_app in Ha. simpl in Ha. lia.
    + apply last_None in El as ->. by apply elem_of_nil in Ha.
  - set (idx := search_raw raw (gr_At sample)). destruct (search_raw_split raw (gr_At sample) Hs) as [Hlo Hhi]. fold idx in Hlo, Hhi.
    split; [|by rewrite <-Permutation_middle, take_drop].
    rewrite <-(take_drop idx raw) in Hs. apply StronglySorted_app in Hs as (Hcross & Ht & Hd).
    rewrite Forall_forall in Hlo, Hhi. apply StronglySorted_app. split_and!; [|done|].
    + intros a b Ha [->|Hb]%elem_of_cons; [specialize (Hlo a Ha); simpl in Hlo; lia|by apply Hcross].
    + constructor; [done|]. apply Forall_forall. intros b Hb. by apply Hhi.
Qed.

Lemma time_sorted_filter (Q : graphTileRawSample → Prop) `{∀ x, Decision (Q x)} raw : time_sorted raw → time_sorted (filter Q raw).
Proof.
  induction 1 as [|x l Hl IH Hx]; [constructor|]. rewrite filter_cons. destruct (decide (Q x)); [|done].
  constructor; [done|]. rewrite Forall_forall in *. intros y [_ Hy]%list_elem_of_filter. by apply Hx.
Qed.

(** ** The hot buffer *)
(** What was added to a buffer, against what it holds. *)
Record hot_buffer {P} (h : graphTileHistory P) (added : list graphTileRawSample) : Prop := {
  hb_sorted : time_sorted (gh_raw h);
  hb_latest : 0 ≤ gh_hotLatest h ∧ Forall (λ s, gr_At s ≤ gh_hotLatest h) added ∧
              ((added = [] ∧ gh_hotLatest h = 0) ∨ ∃ s, s ∈ added ∧ gr_At s = gh_hotLatest h);
  hb_times : Forall (λ s, 0 < gr_At s) added;
  hb_holds : gh_raw h ≡ₚ filter (λ s, gh_hotLatest h - 15 * GMinute ≤ gr_At s) added }.

Section buffer.
Context {P : Type} `{Pyramid P}.
Implicit Types (h : graphTileHistory P).

Lemma new_hot_buffer : hot_buffer newGraphTileHistory [].
Proof. split; simpl; [constructor|split_and!; [done|constructor|by left]|constructor|done]. Qed.

Lemma filter_newer (c c' : Z) (l : list graphTileRawSample) : c ≤ c' →
  filter (λ s, c' ≤ gr_At s) (filter (λ s, c ≤ gr_At s) l) = filter (λ s, c' ≤ gr_At s) l.
Proof. intros Hc. rewrite list_filter_filter. apply list_filter_iff. intros s. lia. Qed.

Lemma add_hot_buffer now at_ value needs h added : 0 < now → 0 ≤ at_ → isFiniteFloat value = true → hot_buffer h added →
  hot_buffer (addSampleWithDerivationLocked now at_ value true needs h)
    (added ++ [MkRawSample (if at_ =? 0 then now else at_) value needs]).
Proof.
  intros Hnow Hat Hfin [Hs (Hl0 & Hl & Hmax) Ht Hp]. unfold addSampleWithDerivationLocked. rewrite Hfin. cbn [negb].
  set (t := if at_ =? 0 then now else at_). assert (Htpos : 0 < t) by (unfold t; destruct (Z.eqb_spec at_ 0); lia).
  set (latest := if gh_hotLatest h <? t then t else gh_hotLatest h).
  assert (Hlatest : gh_hotLatest h ≤ latest ∧ t ≤ latest ∧ (latest = t ∨ latest = gh_hotLatest h))
    by (unfold latest; destruct (Z.ltb_spec (gh_hotLatest h) t); lia).
  set (x := MkRawSample t value needs).
  destruct (insert_raw_sorted x (gh_raw h) Hs) as [Hs' Hp']. unfold trimRawLocked, insertRawSampleLocked. cbn [gh_raw gh_hotLatest].
  destruct (Z.eqb_spec latest 0) as [|_]; [lia|].
  rewrite (bool_decide_false (insert_raw x (gh_raw h) = []))
    by (intros E; rewrite E in Hp'; by apply Permutation_nil_cons in Hp'). cbn [orb].
  rewrite drop_search by done. split; cbn [gh_raw gh_hotLatest].
  - by apply time_sorted_filter.
  - split_and!; [lia| |].
    + apply Forall_app. split; [|constructor; [simpl; lia|constructor]]. eapply Forall_impl; [exact Hl|]. simpl. lia.
    + right. destruct Hlatest as (_ & ? & [E|E]).
      * exists x. split; [apply elem_of_app; right; by left|done].
      * destruct Hmax as [[_ Hz]|(s & Hin & Hsl)]; [lia|].
        exists s. split; [apply elem_of_app; by left|]. by rewrite Hsl.
  - apply Forall_app. split; [done|]. by constructor.
  - rewrite Hp', filter_app. change (filter ?Q [x]) with (filter Q ([x] ++ [])). rewrite app_nil_r.
    rewrite (Permutation_app_comm (filter _ added)).
    change (x :: gh_raw h) with ([x] ++ gh_raw h). rewrite filter_app. apply Permutation_app; [done|].
    rewrite Hp, filter_newer by lia. done.
Qed.
End buffer.

(** ** The store *)
Inductive graph_op : Type :=
  | RecordSample (now : Z) (series : graphTileRequestSeries) (value : f64) (at_ : Z)
  | RecordRaw (now : Z) (series : graphTileRequestSeries) (value : f64) (at_ : Z)
  | Derive (clock now : Z) (keys : list bytes).
(** A clock after the zero time, and sample times that are not before it. *)
Definition op_ok (op : graph_op) : Prop :=
  match op with RecordSample now _ _ at_ | RecordRaw now _ _ at_ => 0 < now ∧ 0 ≤ at_ | Derive _ _ _ => True end.
(** The finite sample an operation records, with its key. *)
Definition sample_of (op : graph_op) : option (bytes * graphTileRawSample) :=
  let sample now s v at_ needs :=
    if isFiniteFloat v then Some (tileSeriesKeyFromRequest s, MkRawSample (if at_ =? 0 then now else at_) v needs) else None in
  match op with
  | RecordSample now s v at_ => sample now s v at_ false
  | RecordRaw now s v at_ => sample now s v at_ true
  | Derive _ _ _ => None
  end.
Definition samples_for (key : bytes) (ops : list graph_op) : list graphTileRawSample :=
  omap (λ op, match sample_of op with Some (k, s) => if bool_decide (k = key) then Some s else None | None => None end) ops.

Section store.
Context {P : Type} `{Pyramid P}.
Implicit Types (st : graphStore P).

Definition graph_step st (op : graph_op) : graphStore P :=
  match op with
  | RecordSample now s v at_ => recordGraphSample now (se_DeviceID s) (se_ParamID s) (se_Instance s) v at_ st
  | RecordRaw now s v at_ => recordGraphRawSample now (se_DeviceID s) (se_ParamID s) (se_Instance s) v at_ st
  | Derive clock now keys => processDerivationsAt clock now keys st
  end.
Definition empty_store : graphStore P := MkGraphStore ∅ ∅.

Definition buffers st (ops : list graph_op) : Prop := ∀ key,
  match gs_raw st !! key with
  | Some h => hot_buffer h (samples_for key ops)
  | None => samples_for key ops = []
  end.

Lemma samples_for_snoc key ops op : samples_for key (ops ++ [op]) =
  samples_for key ops ++ match sample_of op with Some (k, s) => if bool_decide (k = key) then [s] else [] | None => [] end.
Proof.
  unfold samples_for. rewrite omap_app. f_equal. simpl. destruct (sample_of op) as [[k s]|]; [|done].
  by case_bool_decide.
Qed.

Lemma buffers_record st ops op k s h0 :
  sample_of op = Some (k, s) → buffers st ops →
  hot_buffer h0 (samples_for k ops ++ [s]) →
  ∀ derived, buffers (MkGraphStore (<[k := h0]> (gs_raw st)) derived) (ops ++ [op]).
Proof.
  intros Hop Hb Hh derived key. cbn [gs_raw]. rewrite samples_for_snoc, Hop.
  destruct (decide (k = key)) as [->|Hne].
  - rewrite lookup_insert_eq. by rewrite bool_decide_true.
  - rewrite lookup_insert_ne, bool_decide_false, app_nil_r by done. apply Hb.
Qed.

Lemma history_at_buffer st ops key : buffers st ops → hot_buffer (history_at (gs_raw st) key) (samples_for key ops).
Proof.
  intros Hb. specialize (Hb key). unfold history_at. destruct (gs_raw st !! key); simpl; [done|].
  rewrite Hb. apply new_hot_buffer.
Qed.

Lemma derive_key_buffers clock now st ops key : buffers st ops → buffers (derive_key clock now st key) ops.
Proof.
  intros Hb. unfold derive_key. destruct (gs_raw st !! key) as [rawH|] eqn:E; [|done].
  case_bool_decide; [done|]. destruct (fold_left _ _ _) as [[sum count] latestAt]. destruct (0 <? count); [|done].
  intros key'. specialize (Hb key'). cbn [gs_raw]. destruct (decide (key = key')) as [<-|Hne].
  - rewrite lookup_insert_eq. rewrite E in Hb. destruct Hb. by split.
  - by rewrite lookup_insert_ne.
Qed.

Lemma graph_step_buffers st ops op : op_ok op → buffers st ops → buffers (graph_step st op) (ops ++ [op]).
Proof.
  intros Hok Hb.
  assert (Hnone : sample_of op = None → buffers st (ops ++ [op])).
  { intros Hop key. rewrite samples_for_snoc, Hop, app_nil_r. apply Hb. }
  destruct op as [now s v at_|now s v at_|clock now keys]; cbn [graph_step].
  - destruct Hok as [Hnow Hat]. unfold recordGraphSample. destruct (isFiniteFloat v) eqn:Hf; cbn [negb];
      [|apply Hnone; simpl; by rewrite Hf].
    apply (buffers_record st ops _ _ (MkRawSample (if at_ =? 0 then now else at_) v false)); [simpl; by rewrite Hf|done|].
    apply add_hot_buffer; [done..|]. by apply history_at_buffer.
  - destruct Hok as [Hnow Hat]. unfold recordGraphRawSample. destruct (isFiniteFloat v) eqn:Hf; cbn [negb];
      [|apply Hnone; simpl; by rewrite Hf].
    apply (buffers_record st ops _ _ (MkRawSample (if at_ =? 0 then now else at_) v true)); [simpl; by rewrite Hf|done|].
    apply add_hot_buffer; [done..|]. by apply history_at_buffer.
  - assert (Hd : buffers st (ops ++ [Derive clock now keys])) by by apply Hnone.
    unfold processDerivationsAt. clear Hnone Hb Hok. revert st Hd.
    induction keys as [|key keys IH]; intros st Hd; simpl; [done|].
    assert (Hk : ∀ st', buffers st' (ops ++ [Derive clock now keys]) ↔ buffers st' (ops ++ [Derive clock now (key :: keys)])).
    { intros st'. unfold buffers. apply forall_proper. intros k. by rewrite !samples_for_snoc. }
    apply Hk, IH, Hk, derive_key_buffers, Hd.
Qed.

Lemma graph_run_buffers ops : Forall op_ok ops → buffers (fold_left graph_step ops empty_store) ops.
Proof.
  intros Hok. induction ops as [|op ops IH] using rev_ind; [by intros key|].
  apply Forall_app in Hok as [Hok Hop]. rewrite fold_left_app.
  apply (graph_step_buffers _ ops op); [by inversion Hop|by apply IH].
Qed.

Lemma recent_uses_hot window : 0 < window ≤ graphHistoryHotRetention → graphRangeUsesHotBuffer window = true.
Proof.
  intros Hw. unfold graphRangeUsesHotBuffer.
  destruct (Z.leb_spec window 0); [lia|]. destruct (Z.ltb_spec graphHistoryHotRetention window); [lia|]. simpl.
  unfold graphTargetInterval. destruct (Z.leb_spec window 0); [lia|].
  assert (window / graphTileTargetPointCount ≤ 375000000).
  { unfold graphTileTargetPointCount, graphHistoryHotRetention, GMinute, GSecond, Millisecond in *.
    apply Z.div_le_upper_bound; lia. }
  apply Z.ltb_lt. unfold graphHistoryFinestLOD, GSecond, Millisecond. destruct (Z.leb_spec (window / graphTileTargetPointCount) 0); lia.
Qed.

Lemma hot_history_filter cutoff (h : graphTileHistory P) : time_sorted (gh_raw h) →
  hotHistoryLocked cutoff h = (λ s, (gr_At s, gr_Value s)) <$> filter (λ s, cutoff ≤ gr_At s) (gh_raw h).
Proof. intros Hs. unfold hotHistoryLocked. by rewrite drop_search. Qed.

(** Whatever its end, a short range is answered from the hot buffer. *)
Lemma short_range_hot st dev p i t0 t1 h : 0 < t1 - t0 ≤ graphHistoryHotRetention →
  gs_raw st !! graphKey dev p i = Some h → gh_raw h ≠ [] → lookupGraphRange dev p i t0 t1 st = hotHistoryLocked t0 h.
Proof.
  intros Hw Hh Hne. unfold lookupGraphRange. rewrite Hh, recent_uses_hot by done. by rewrite bool_decide_false.
Qed.

(** C11: a range over at most the last fifteen minutes is answered exactly.  After
    any sequence of recorded samples (finite or not, in or out of order, with or
    without a time of their own, of this and of other series) and of derivations, if
    the range ends at or after the newest sample of the series, the answer has the
    finite samples of the series within the range, no more and no less, in the order
    of their times. *)
Theorem recent_range_exact (ops : list graph_op) (dev : bytes) (p i t0 t1 : Z) :
  Forall op_ok ops →
  let samples := samples_for (graphKey dev p i) ops in
  samples ≠ [] → Forall (λ s, gr_At s ≤ t1) samples → 0 < t1 - t0 ≤ graphHistoryHotRetention →
  let out := lookupGraphRange dev p i t0 t1 (fold_left graph_step ops empty_store) in
  StronglySorted (λ a b, a.1 ≤ b.1) out ∧
  out ≡ₚ (λ s, (gr_At s, gr_Value s)) <$> filter (λ s, t0 ≤ gr_At s ≤ t1) samples.
Proof.
  intros Hok samples Hne Hend Hw out. pose proof (graph_run_buffers ops Hok (graphKey dev p i)) as Hb. fold samples in Hb.
  unfold out. destruct (gs_raw _ !! _) as [h|] eqn:Eh; [|done]. destruct Hb as [Hs (_ & Hl & [[? _]|(x & Hx & Hxl)]) _ Hp]; [done|].
  assert (Hraw : gh_raw h ≠ []).
  { intros E. rewrite E in Hp. assert (Hin : x ∈ filter (λ s, gh_hotLatest h - 15 * GMinute ≤ gr_At s) samples).
    { apply list_elem_of_filter. split; [rewrite Hxl; unfold GMinute, GSecond, Millisecond; lia|done]. }
    rewrite <-Hp in Hin. by apply elem_of_nil in Hin. }
  rewrite (short_range_hot _ dev p i t0 t1 h) by done. rewrite hot_history_filter by done. split.
  - assert (Hss : time_sorted (filter (λ s, t0 ≤ gr_At s) (gh_raw h))) by by apply time_sorted_filter.
    induction Hss as [|y l Hy IH Hf]; simpl; [constructor|]. constructor; [done|].
    apply Forall_fmap. eapply Forall_impl; [exact Hf|]. done.
  - apply fmap_Permutation. rewrite Hp, list_filter_filter. apply reflexive_eq, filter_ext_in.
    intros s Hin. rewrite Forall_forall in Hend, Hl. pose proof (Hend s Hin). pose proof (Hend x Hx).
    specialize (Hl s Hin). unfold graphHistoryHotRetention in Hw. lia.
Qed.
End store.

(** *** A pyramid that keeps every value *)
#[export] Instance flat_pyramid : Pyramid (list (Z * f64)) := {|
  NewPyramid := [];
  pyramid_Add := λ t v p, p ++ [(t, v)];
  pyramid_Snapshot := λ _ p, p;
  pyramid_Earliest := λ p, match head p with Some b => b.1 | None => 0 end;
  pyramid_Latest := λ p, match last p with Some b => b.1 | None => 0 end |}.

Definition tec : bytes := str "tec".
Definition temperature_series : graphTileRequestSeries := MkSeries tec 1000 1.
(** Twenty minutes of work: a sample, one that arrives late, and one that pushes the
    first out of the buffer. *)
Definition session : list graph_op :=
  [RecordSample GMinute temperature_series (of_int 20) GMinute; RecordRaw GMinute temperature_series (of_int 30) (21 * GMinute);
   RecordSample GMinute temperature_series S754_nan (21 * GMinute); RecordSample GMinute temperature_series (of_int 25) (15 * GMinute)].

Lemma recent_range_exact_witness :
  let out := lookupGraphRange tec 1000 1 (10 * GMinute) (22 * GMinute) (fold_left graph_step session empty_store) in
  out = [(15 * GMinute, of_int 25); (21 * GMinute, of_int 30)] ∧ StronglySorted (λ a b, a.1 ≤ b.1) out.
Proof.
  intros out. split; [vm_compute; reflexivity|].
  apply (recent_range_exact session tec 1000 1 (10 * GMinute) (22 * GMinute)).
  - repeat constructor; vm_compute; discriminate.
  - vm_compute. discriminate.
  - repeat constructor; vm_compute; discriminate.
  - split; vm_compute; [reflexivity|discriminate].
Defined.

(** The end of a short range is not looked at: a range of ten minutes that ended
    before the newest sample is answered with that sample too. *)
Lemma past_range_returns_later :
  lookupGraphRange tec 1000 1 (10 * GMinute) (20 * GMinute) (fold_left graph_step session empty_store) =
    [(15 * GMinute, of_int 25); (21 * GMinute, of_int 30)].
Proof. vm_compute. reflexivity. Qed.

(** The worker looks two seconds back.  When a tick is late, a sample that came right
    after the tick before is in neither window, and never reaches the pyramid. *)
Lemma late_tick_loses_sample :
  let ops := [Derive 1 (10 * GSecond) [tileSeriesKeyFromRequest temperature_series];
              RecordRaw 1 temperature_series (of_int 30) (10 * GSecond + 50 * Millisecond);
              Derive 1 (12 * GSecond + 100 * Millisecond) [tileSeriesKeyFromRequest temperature_series]] in
  gh_pyramid <$> gs_derived (fold_left graph_step ops empty_store) !! tileSeriesKeyFromRequest temperature_series = Some [].
Proof. vm_compute. reflexivity. Qed.
