(* ===== verification/GraphExchange.v ===== *)
(** * GraphExchange: import and export of histories
      ([cmd/mecomgw/graph_tiles.go], [cmd/mecomgw/quality.go])

    A history leaves a gateway as a list of series with times as text, and comes in
    the same way.  The import checks the whole request before it records
    anything.  RFC 3339 text is an argument, in both directions; so is the sorting
    of [sort.Slice], which keeps no order among equal times. *)
From stdpp Require Import prelude gmap strings list sorting.
From Stdlib Require Import Strings.Byte Floats.SpecFloat.
From S2P Require Import Prelude Text Floats Endpoint Protocol RingReader Readout BridgePayload WriteLease Commander GatewayWrite GraphKeys GraphHistory.
Local Open Scope Z_scope.

(** ** Data *)
Definition maxGraphHistoryImportSeries : Z := 512.
Definition maxGraphHistoryImportSamples : Z := 1000000.

Record graphTileSource := MkSource {
  so_DeviceID : bytes; so_Instance : Z; so_ParamID : Z; so_SignalID : bytes; so_Endpoint : bytes }.
Record graphHistoryImportSeries := MkImportSeries {
  is_DeviceID : bytes; is_ParamID : Z; is_Instance : Z; is_Source : graphTileSource;
  is_TS : list bytes; is_V : list f64; is_Points : list (bytes * f64); is_Quality : string }.
Record graphHistoryImportSeriesPlan := MkPlan { pl_Series : graphTileRequestSeries; pl_Samples : list (Z * f64) }.
Record graphHistoryImportResponse := MkImportResponse { ir_SeriesCount : Z; ir_ImportedSamples : Z; ir_DroppedSamples : Z }.
Inductive import_reply : Type := Imported (r : graphHistoryImportResponse) | ImportRefused (status : Z) (e : error).

(** ** Quality *)
Definition gatewayQualityOK : string := "ok".
Definition gatewayQualityMissing : string := "missing".
Definition gatewayQualityDetached : string := "detached".
Definition detachedTemperatureFloorC : f64 := of_int (-50).
Definition isMeasuredTemperatureParam (paramID : Z) : bool := (paramID =? 1000) || (paramID =? 1001) || (paramID =? 40000).
Definition graphUnitIsTemperature (unit : string) : bool :=
  let u := ToLower (TrimSpace (str unit)) in
  contains (str "deg") u || contains [xc2; xb0] u || contains (str "celsius") u || bool_decide (u = str "c") ||
  bool_decide (u = str "degc").
Definition isDetachedMeasuredTemperature (paramID : Z) (unit : string) (value : f64) : bool :=
  isMeasuredTemperatureParam paramID && graphUnitIsTemperature unit && SFltb value detachedTemperatureFloorC.
Definition gatewayQualityForFloat (p : Param) (value : f64) : string :=
  if isDetachedMeasuredTemperature (ID p) (Unit p) value then gatewayQualityDetached else gatewayQualityOK.
Definition countDetachedTemperaturePoints (paramID : Z) (unit : string) (points : list f64) : nat :=
  length (filter (λ v, isDetachedMeasuredTemperature paramID unit v = true) points).
Definition signalIDForParam (def : Param) : bytes :=
  if bool_decide (Name def = ""%string) then fmtD (ID def) else str (Name def).

Section exchange.
Context {P : Type} `{Pyramid P}.
Context (Parse : bytes → option Z) (Format : Z → bytes) (sort_Slice : list (Z * f64) → list (Z * f64)).
Context (catalogue_parameters : list Param).

(** ** Import *)
Definition resolveGraphHistoryImportIdentity (series : graphHistoryImportSeries) : res graphTileRequestSeries :=
  let topDeviceID := TrimSpace (is_DeviceID series) in
  let sourceDeviceID := TrimSpace (so_DeviceID (is_Source series)) in
  if negb (bool_decide (topDeviceID = [])) && negb (bool_decide (sourceDeviceID = [])) && negb (bool_decide (topDeviceID = sourceDeviceID))
  then Err (series_error "device_id mismatch between series and source")
  else
    let deviceID := firstNonEmpty [topDeviceID; sourceDeviceID] in
    if bool_decide (deviceID = []) then Err (series_error "device_id required")
    else
      let resolve top source mismatch required :=
        if negb (top =? 0) && negb (source =? 0) && negb (top =? source) then Err (series_error mismatch)
        else let v := if top =? 0 then source else top in if v <=? 0 then Err (series_error required) else Ok v in
      paramID ← resolve (is_ParamID series) (so_ParamID (is_Source series))
                  "param_id mismatch between series and source"%string "param_id required"%string;
      instance ← resolve (is_Instance series) (so_Instance (is_Source series))
                   "instance mismatch between series and source"%string "instance required"%string;
      Ok (MkSeries deviceID paramID instance).

Definition parseGraphHistoryTimestamp (raw : bytes) : option Z :=
  let raw := TrimSpace raw in if bool_decide (raw = []) then None else Parse raw.
Definition import_sample (point : bytes * f64) : option (Z * f64) :=
  match parseGraphHistoryTimestamp point.1 with
  | Some at_ => if isFiniteFloat point.2 then Some (at_, point.2) else None
  | None => None
  end.
(** The samples, and how many were dropped. *)
Definition parseGraphHistoryImportSamples (series : graphHistoryImportSeries) : res (list (Z * f64) * Z) :=
  if negb (length (is_TS series) =? length (is_V series))%nat then
    Err (series_error "history timestamp/value length mismatch")
  else
    let points := zip (is_TS series) (is_V series) ++ is_Points series in
    let out := omap import_sample points in
    Ok (out, Z.of_nat (length points - length out)).

(** The first loop: all plans, or the first refusal. *)
Fixpoint import_plans (known : bytes → bool) (imported dropped : Z) (plans : list graphHistoryImportSeriesPlan)
    (series : list graphHistoryImportSeries) : result (Z * error) (list graphHistoryImportSeriesPlan * Z * Z) :=
  match series with
  | [] => Ok (plans, imported, dropped)
  | s :: series =>
      match resolveGraphHistoryImportIdentity s with
      | Err e => Err (400, e)
      | Ok id =>
          if negb (known (se_DeviceID id)) then Err (400, series_error "unknown device ")
          else
            match parseGraphHistoryImportSamples s with
            | Err e => Err (400, e)
            | Ok (samples, sampleDropped) =>
                let dropped := dropped + sampleDropped in
                if bool_decide (samples = []) then import_plans known imported dropped plans series
                else if maxGraphHistoryImportSamples <? imported + Z.of_nat (length samples) then
                  Err (413, series_error "too many samples")
                else import_plans known (imported + Z.of_nat (length samples)) dropped
                       (plans ++ [MkPlan id (sort_Slice samples)]) series
            end
      end
  end.
Definition record_plan (now : Z) (st : graphStore P) (plan : graphHistoryImportSeriesPlan) : graphStore P :=
  fold_left (λ st sample, recordGraphSample now (se_DeviceID (pl_Series plan)) (se_ParamID (pl_Series plan))
                            (se_Instance (pl_Series plan)) sample.2 sample.1 st) (pl_Samples plan) st.
Definition handleGraphHistoryImport (now : Z) (known : bytes → bool) (body : res (list graphHistoryImportSeries))
    (st : graphStore P) : graphStore P * import_reply :=
  match body with
  | Err e => (st, ImportRefused 400 e)
  | Ok series =>
      if bool_decide (series = []) then (st, ImportRefused 400 (series_error "series required"))
      else if maxGraphHistoryImportSeries <? Z.of_nat (length series) then
        (st, ImportRefused 413 (series_error "too many series"))
      else
        match import_plans known 0 0 [] series with
        | Err (status, e) => (st, ImportRefused status e)
        | Ok (plans, imported, dropped) =>
            if imported =? 0 then (st, ImportRefused 400 (series_error "no valid samples to import"))
            else (fold_left (record_plan now) plans st,
                  Imported (MkImportResponse (Z.of_nat (length series)) imported dropped))
        end
  end.

(** ** Export *)
Record graphHistoryExportResponse := MkExportResponse {
  er_Level : string; er_TimeWindowMs : Z; er_SeriesCount : Z; er_SampleCount : Z; er_Series : list graphHistoryImportSeries }.

Definition graphTileLevel (level : string) : option (string * Z) :=
  let is_ names := bool_decide (level ∈ names) in
  if is_ ["session"; "all"; "full"]%string then Some ("session"%string, defaultGraphHistoryRetention / Millisecond)
  else if is_ ["live"]%string then Some ("live"%string, 90000)
  else if is_ ["minute"]%string then Some ("minute"%string, 6 * 60000)
  else if is_ ["hour"]%string then Some ("hour"%string, 60 * 60000)
  else if is_ ["three_hour"; "3hour"; "3h"]%string then Some ("three_hour"%string, 3 * 60 * 60000)
  else if is_ ["day"]%string then Some ("day"%string, 24 * 60 * 60000)
  else if is_ ["three_day"; "3day"]%string then Some ("three_day"%string, 3 * 24 * 60 * 60000)
  else None.

Definition no_param : Param := MkParam 0 0 "" "" "" false "" "".
Definition parameter_or_zero (id : Z) : Param := default no_param (gatewayParameterByID catalogue_parameters id).

(** A series with samples; without any it is left out. *)
Definition export_series (endpoint : bytes → bytes) (windowMs now : Z) (st : graphStore P) (req : graphTileRequestSeries) :
    option graphHistoryImportSeries :=
  let history := lookupGraphHistory (se_DeviceID req) (se_ParamID req) (se_Instance req) windowMs now st in
  if bool_decide (history = []) then None
  else
    let def := parameter_or_zero (se_ParamID req) in
    let detached := countDetachedTemperaturePoints (se_ParamID req) (Unit def) (snd <$> history) in
    Some (MkImportSeries (se_DeviceID req) (se_ParamID req) (se_Instance req)
            (MkSource (se_DeviceID req) (se_Instance req) (se_ParamID req) (signalIDForParam def) (endpoint (se_DeviceID req)))
            (Format ∘ fst <$> history) (snd <$> history) []
            (if (detached =? length history)%nat then gatewayQualityDetached else gatewayQualityOK)).

(** The order of the series of a gateway: the default device first. *)
Definition deviceSortRank (defaultDeviceID id : bytes) : Z :=
  if negb (bool_decide (defaultDeviceID = [])) && bool_decide (id = defaultDeviceID) then 0
  else if bool_decide (defaultDeviceID = []) && bool_decide (id = str "tec-76") then 0 else 1.
Definition series_less (defaultDeviceID : bytes) (a b : graphTileRequestSeries) : bool :=
  let ra := deviceSortRank defaultDeviceID (se_DeviceID a) in
  let rb := deviceSortRank defaultDeviceID (se_DeviceID b) in
  if negb (ra =? rb) then ra <? rb
  else if negb (bool_decide (se_DeviceID a = se_DeviceID b)) then bytes_ltb (se_DeviceID a) (se_DeviceID b)
  else if negb (se_ParamID a =? se_ParamID b) then se_ParamID a <? se_ParamID b
  else se_Instance a <? se_Instance b.
Definition sort_series (defaultDeviceID : bytes) (l : list graphTileRequestSeries) : list graphTileRequestSeries :=
  sort_stable (series_less defaultDeviceID) l.

(** [keys]: the keys of both maps, in the order of the traversal. *)
Definition allGraphHistorySeries (defaultDeviceID : bytes) (keys : list bytes) : list graphTileRequestSeries :=
  sort_series defaultDeviceID
    (omap (λ key, match graphTileSeriesFromKey key with Ok s => Some s | Err _ => None end) keys).

Definition handleGraphHistoryExport (now : Z) (defaultDeviceID : bytes) (endpoint : bytes → bytes) (keys : list bytes)
    (level : string) (query : series_query) (st : graphStore P) : result (Z * error) graphHistoryExportResponse :=
  match graphTileLevel (if bool_decide (TrimSpace (str level) = []) then "session"%string else level) with
  | None => Err (400, series_error "invalid graph history level")
  | Some (canonicalLevel, windowMs) =>
      match parseGraphTileSeriesQuery query with
      | Err e => Err (400, e)
      | Ok reqSeries =>
          let reqSeries := if bool_decide (reqSeries = []) then allGraphHistorySeries defaultDeviceID keys else reqSeries in
          let series := omap (export_series endpoint windowMs now st) reqSeries in
          Ok (MkExportResponse canonicalLevel windowMs (Z.of_nat (length series))
                (foldr Z.add 0 ((λ s, Z.of_nat (length (is_TS s))) <$> series)) series)
      end
  end.

(** ** What an import records *)
Definition series_points (s : graphHistoryImportSeries) : list (bytes * f64) := zip (is_TS s) (is_V s) ++ is_Points s.
(** The samples of a series that are kept, with the series they are recorded under. *)
Definition series_samples (s : graphHistoryImportSeries) : list (graphTileRequestSeries * (Z * f64)) :=
  match resolveGraphHistoryImportIdentity s with
  | Ok id => pair id <$> omap import_sample (series_points s)
  | Err _ => []
  end.
Definition plan_samples (p : graphHistoryImportSeriesPlan) : list (graphTileRequestSeries * (Z * f64)) :=
  pair (pl_Series p) <$> pl_Samples p.
Definition series_ok (known : bytes → bool) (s : graphHistoryImportSeries) : Prop :=
  length (is_TS s) = length (is_V s) ∧
  ∃ id, resolveGraphHistoryImportIdentity s = Ok id ∧ known (se_DeviceID id) = true.
Definition total (series : list graphHistoryImportSeries) : Z := Z.of_nat (length (series ≫= series_samples)).
Definition import_ok (known : bytes → bool) (series : list graphHistoryImportSeries) : Prop :=
  Forall (series_ok known) series ∧ series ≠ [] ∧ Z.of_nat (length series) ≤ 512 ∧ 0 < total series ≤ 1000000.

Lemma total_cons s series : total (s :: series) = Z.of_nat (length (series_samples s)) + total series.
Proof. unfold total. rewrite bind_cons, length_app. lia. Qed.

Lemma length_omap_le {A B} (f : A → option B) (l : list A) : (length (omap f l) ≤ length l)%nat.
Proof. induction l as [|x l IH]; [done|]. change (omap f (x :: l)) with (match f x with Some y => y :: omap f l | None => omap f l end). destruct (f x); simpl; lia. Qed.

Hypothesis sort_perm : ∀ l, sort_Slice l ≡ₚ l.

Lemma import_plans_spec known imported dropped plans series : imported ≤ 1000000 →
  match import_plans known imported dropped plans series with
  | Ok (plans', imported', dropped') =>
      Forall (series_ok known) series ∧ imported' = imported + total series ∧ imported' ≤ 1000000 ∧
      dropped' = dropped + Z.of_nat (length (series ≫= series_points)) - total series ∧
      plans' ≫= plan_samples ≡ₚ (plans ≫= plan_samples) ++ (series ≫= series_samples)
  | Err (status, _) => 400 ≤ status ∧ ¬ (Forall (series_ok known) series ∧ imported + total series ≤ 1000000)
  end.
Proof using sort_perm.
  revert imported dropped plans. induction series as [|s series IH]; intros imported dropped plans Hi; cbn [import_plans].
  { unfold total. simpl. rewrite app_nil_r. split_and!; [constructor|lia|lia|lia|done]. }
  rewrite total_cons. assert (Hbad : ¬ series_ok known s → 400 ≤ 400 ∧ ¬ (Forall (series_ok known) (s :: series) ∧
    imported + (Z.of_nat (length (series_samples s)) + total series) ≤ 1000000)).
  { intros Hs. split; [lia|]. intros [Hf _]. by apply Forall_cons_1 in Hf as [? _]. }
  destruct (resolveGraphHistoryImportIdentity s) as [id|e] eqn:Eid.
  2: { apply Hbad. intros (_ & id & E & _). congruence. }
  destruct (known (se_DeviceID id)) eqn:Ek; cbn [negb].
  2: { apply Hbad. intros (_ & id' & E & E'). congruence. }
  unfold parseGraphHistoryImportSamples. destruct (Nat.eqb_spec (length (is_TS s)) (length (is_V s))) as [El|El]; cbn [negb].
  2: { apply Hbad. by intros (? & _). }
  assert (Hok : series_ok known s) by (split; [done|by exists id]).
  fold (series_points s). set (out := omap import_sample (series_points s)).
  assert (Hss : series_samples s = pair id <$> out) by (unfold series_samples; by rewrite Eid).
  assert (Hlen : length (series_samples s) = length out) by (rewrite Hss; apply length_fmap).
  assert (Hle : (length out ≤ length (series_points s))%nat) by apply length_omap_le.
  assert (Hpoints : length ((s :: series) ≫= series_points) = (length (series_points s) + length (series ≫= series_points))%nat)
    by (rewrite bind_cons; apply length_app).
  assert (Htot : 0 ≤ total series) by (unfold total; lia).
  destruct (bool_decide_reflect (out = [])) as [Eo|Eo].
  - specialize (IH imported (dropped + Z.of_nat (length (series_points s) - length out)) plans Hi).
    assert (Hz : length out = 0%nat) by (by rewrite Eo).
    destruct (import_plans _ _ _ plans series) as [[[plans' imported'] dropped']|[status e]].
    + destruct IH as (Hf & -> & Hm & -> & Hp). rewrite Hlen, Hpoints. split_and!; [by constructor|lia|lia|lia|].
      rewrite Hp, bind_cons, Hss, Eo. done.
    + destruct IH as [? Hn]. split; [done|]. intros [Hf%Forall_cons_1 Hm]. apply Hn. split; [apply Hf|lia].
  - destruct (Z.ltb_spec maxGraphHistoryImportSamples (imported + Z.of_nat (length out))) as [Hmax|Hmax];
      unfold maxGraphHistoryImportSamples in Hmax.
    { split; [lia|]. intros [_ Hm]. lia. }
    specialize (IH (imported + Z.of_nat (length out)) (dropped + Z.of_nat (length (series_points s) - length out))
      (plans ++ [MkPlan id (sort_Slice out)]) ltac:(lia)).
    destruct (import_plans _ _ _ _ series) as [[[plans' imported'] dropped']|[status e]].
    + destruct IH as (Hf & -> & Hm & -> & Hp). rewrite Hlen, Hpoints. split_and!; [by constructor|lia|lia|lia|].
      rewrite Hp, bind_app, !bind_cons, Hss, <-app_assoc. apply Permutation_app_head, Permutation_app_tail.
      simpl. rewrite app_nil_r. unfold plan_samples. simpl. by rewrite sort_perm.
    + destruct IH as [? Hn]. split; [done|]. intros [Hf%Forall_cons_1 Hm]. apply Hn. split; [apply Hf|lia].
Qed.

(** An acceptable request is accepted. *)
Lemma import_accepted now known series st : import_ok known series →
  ∃ plans, handleGraphHistoryImport now known (Ok series) st =
      (fold_left (record_plan now) plans st,
       Imported (MkImportResponse (Z.of_nat (length series)) (total series)
                   (Z.of_nat (length (series ≫= series_points)) - total series))) ∧
    plans ≫= plan_samples ≡ₚ series ≫= series_samples.
Proof using sort_perm.
  intros (Hf & Hne & Hl & Ht). unfold handleGraphHistoryImport. rewrite bool_decide_false by done.
  destruct (Z.ltb_spec maxGraphHistoryImportSeries (Z.of_nat (length series))) as [Hmax|_];
    [unfold maxGraphHistoryImportSeries in Hmax; lia|].
  pose proof (import_plans_spec known 0 0 [] series ltac:(lia)) as Hp.
  destruct (import_plans known 0 0 [] series) as [[[plans imported] dropped]|[status e]].
  2: { destruct Hp as [_ Hn]. exfalso. apply Hn. split; [done|lia]. }
  destruct Hp as (_ & -> & _ & -> & Hperm). destruct (Z.eqb_spec (0 + total series) 0); [lia|].
  exists plans. split; [|done]. do 3 f_equal; lia.
Qed.

(** C12: an import is all or nothing.  It is accepted exactly if the request has
    between 1 and 512 series, each with a consistent identity, a known device and
    as many times as values, and between one and a million usable samples in all;
    then the answer counts them and those left out, and what is recorded is, up to
    the order within a series, the usable samples of the request under their
    series.  Otherwise it is refused with an error status and the histories are as
    they were. *)
Theorem import_all_or_nothing (now : Z) (known : bytes → bool) (body : res (list graphHistoryImportSeries)) (st : graphStore P) :
  let '(st', reply) := handleGraphHistoryImport now known body st in
  ((∃ r, reply = Imported r) ↔ ∃ series, body = Ok series ∧ import_ok known series) ∧
  match reply with
  | ImportRefused status _ => 400 ≤ status ∧ st' = st
  | Imported r => ∃ series plans, body = Ok series ∧ st' = fold_left (record_plan now) plans st ∧
      plans ≫= plan_samples ≡ₚ series ≫= series_samples ∧
      r = MkImportResponse (Z.of_nat (length series)) (total series)
            (Z.of_nat (length (series ≫= series_points)) - total series)
  end.
Proof using sort_perm.
  assert (Hno : ∀ status e, ¬ (∃ series, body = Ok series ∧ import_ok known series) → 400 ≤ status →
    ((∃ r, ImportRefused status e = Imported r) ↔ ∃ series, body = Ok series ∧ import_ok known series) ∧
    400 ≤ status ∧ st = st).
  { intros status e Hn Hs. split_and!; [|done|done]. split; [by intros [? [=]]|done]. }
  unfold handleGraphHistoryImport. destruct body as [series|e].
  2: { apply Hno; [|lia]. by intros (? & [=] & _). }
  destruct (bool_decide_reflect (series = [])) as [->|Hne].
  { apply Hno; [|lia]. intros (? & [= <-] & _ & Hne & _). done. }
  destruct (Z.ltb_spec maxGraphHistoryImportSeries (Z.of_nat (length series))) as [Hmax|Hmax];
    unfold maxGraphHistoryImportSeries in Hmax.
  { apply Hno; [|lia]. intros (? & [= <-] & _ & _ & Hl & _). lia. }
  pose proof (import_plans_spec known 0 0 [] series ltac:(lia)) as Hp.
  destruct (import_plans known 0 0 [] series) as [[[plans imported] dropped]|[status e]].
  2: { destruct Hp as [Hs Hn]. apply Hno; [|done]. intros (? & [= <-] & Hf & _ & _ & Ht). apply Hn. split; [done|lia]. }
  destruct Hp as (Hf & -> & Hm & -> & Hperm). destruct (Z.eqb_spec (0 + total series) 0) as [Hz|Hz].
  { apply Hno; [|lia]. intros (? & [= <-] & _ & _ & _ & Ht). lia. }
  assert (0 ≤ total series) by (unfold total; lia). split.
  - split; [|intros _; by eexists]. intros _. exists series. split; [done|]. split_and!; [done..|lia|lia].
  - exists series, plans. split_and!; [done..|]. f_equal; lia.
Qed.

(** ** Export and import *)
(** A finite sample at a time that is read as it was written. *)
Definition readable (x : Z * f64) : Prop :=
  (TrimSpace (Format x.1) = Format x.1 ∧ Format x.1 ≠ [] ∧ Parse (Format x.1) = Some x.1) ∧ isFiniteFloat x.2 = true.
Definition identity (s : graphHistoryImportSeries) : graphTileRequestSeries :=
  MkSeries (is_DeviceID s) (is_ParamID s) (is_Instance s).
(** The samples of a store under a series. *)
Definition stored_samples (windowMs now : Z) (st : graphStore P) (s : graphTileRequestSeries) : list (graphTileRequestSeries * (Z * f64)) :=
  pair s <$> lookupGraphHistory (se_DeviceID s) (se_ParamID s) (se_Instance s) windowMs now st.

Definition good_series (s : graphTileRequestSeries) : Prop :=
  TrimSpace (se_DeviceID s) = se_DeviceID s ∧ se_DeviceID s ≠ [] ∧ 0 < se_ParamID s ∧ 0 < se_Instance s.

Lemma resolve_exported req ts vs q sig ep : good_series req →
  resolveGraphHistoryImportIdentity (MkImportSeries (se_DeviceID req) (se_ParamID req) (se_Instance req)
    (MkSource (se_DeviceID req) (se_Instance req) (se_ParamID req) sig ep) ts vs [] q) = Ok req.
Proof.
  destruct req as [d p i]. intros (Ht & Hd & Hp & Hi). simpl in *. unfold resolveGraphHistoryImportIdentity. simpl. rewrite Ht.
  rewrite (bool_decide_true (d = d)) by done. cbn [negb]. rewrite andb_false_r.
  unfold firstNonEmpty. simpl. rewrite Ht, (bool_decide_false (d = [])) by done. cbn [negb default from_option id].
  rewrite (bool_decide_false (d = [])) by done.
  rewrite !Z.eqb_refl. cbn [negb]. rewrite !andb_false_r.
  destruct (Z.eqb_spec p 0); [lia|]. destruct (Z.leb_spec p 0); [lia|]. cbn [mbind result_bind].
  destruct (Z.eqb_spec i 0); [lia|]. by destruct (Z.leb_spec i 0); [lia|].
Qed.

Lemma import_exported history : Forall readable history →
  omap import_sample (zip (Format ∘ fst <$> history) (snd <$> history)) = history.
Proof.
  induction 1 as [|[t v] history [(Htrim & Hne & Hparse) Hv] _ IH]; [done|].
  cbn [fmap list_fmap zip zip_with omap list_omap]. unfold import_sample at 1, parseGraphHistoryTimestamp. simpl in *.
  rewrite Htrim, bool_decide_false, Hparse, Hv by done. f_equal. exact IH.
Qed.

(** What an exported series is, and what an import makes of it. *)
Lemma exported_series endpoint windowMs now st (reqs : list graphTileRequestSeries) s :
  s ∈ omap (export_series endpoint windowMs now st) reqs → good_series (identity s) →
  Forall readable (snd <$> stored_samples windowMs now st (identity s)) →
  resolveGraphHistoryImportIdentity s = Ok (identity s) ∧ series_samples s = stored_samples windowMs now st (identity s) ∧
  length (is_TS s) = length (is_V s) ∧ length (is_TS s) = length (series_samples s) ∧
  length (series_points s) = length (series_samples s).
Proof.
  intros (r & _ & Hr)%list_elem_of_omap Hg Hread. unfold export_series in Hr. case_bool_decide; [done|]. injection Hr as <-.
  unfold identity, stored_samples in *. simpl in *. rewrite <-list_fmap_compose, list_fmap_id in Hread.
  assert (Hid : good_series r) by by destruct r.
  unfold series_samples, series_points. rewrite resolve_exported by done. cbn [is_TS is_V is_Points].
  rewrite app_nil_r, import_exported by done. rewrite length_zip_with, !length_fmap, Nat.min_id. by destruct r.
Qed.

(** C20: an export can be imported.  Whatever a gateway exports, another gateway that
    knows the devices takes in whole: every series and every sample, none dropped,
    with the counts of the export, and what it records are the samples of the
    first gateway under the same series; as long as the times of the samples are
    read as they were written, and the export is within the bounds of an import. *)
Theorem export_imports (now now' : Z) (default : bytes) (endpoint : bytes → bytes) (keys : list bytes) (level : string)
    (query : series_query) (st st2 : graphStore P) (known : bytes → bool) (e : graphHistoryExportResponse) :
  handleGraphHistoryExport now default endpoint keys level query st = Ok e →
  (∀ s, s ∈ er_Series e → good_series (identity s) ∧ known (is_DeviceID s) = true ∧
     Forall readable (snd <$> stored_samples (er_TimeWindowMs e) now st (identity s))) →
  0 < er_SampleCount e ≤ 1000000 → er_SeriesCount e ≤ 512 →
  ∃ plans, handleGraphHistoryImport now' known (Ok (er_Series e)) st2 =
      (fold_left (record_plan now') plans st2, Imported (MkImportResponse (er_SeriesCount e) (er_SampleCount e) 0)) ∧
    plans ≫= plan_samples ≡ₚ (identity <$> er_Series e) ≫= stored_samples (er_TimeWindowMs e) now st.
Proof using sort_perm.
  unfold handleGraphHistoryExport. destruct (graphTileLevel _) as [[canonical windowMs]|]; [|done].
  destruct (parseGraphTileSeriesQuery query) as [req|]; [|done]. set (reqs := if bool_decide (req = []) then _ else req).
  intros [= <-]. cbn [er_Series er_SampleCount er_SeriesCount er_TimeWindowMs]. intros Hgood Hcount Hser.
  set (series := omap (export_series endpoint windowMs now st) reqs) in *.
  assert (Hs : ∀ s, s ∈ series → known (is_DeviceID s) = true ∧
    resolveGraphHistoryImportIdentity s = Ok (identity s) ∧ series_samples s = stored_samples windowMs now st (identity s) ∧
    length (is_TS s) = length (is_V s) ∧ length (is_TS s) = length (series_samples s) ∧
    length (series_points s) = length (series_samples s)).
  { intros s Hin. destruct (Hgood s Hin) as (Hg & Hk & Hr). split; [done|]. by eapply exported_series. }
  assert (Htotal : total series = foldr Z.add 0 ((λ s, Z.of_nat (length (is_TS s))) <$> series) ∧
    Z.of_nat (length (series ≫= series_points)) = total series ∧
    series ≫= series_samples = (identity <$> series) ≫= stored_samples windowMs now st).
  { clear -Hs. induction series as [|s series IH]; [done|].
    destruct (Hs s ltac:(by left)) as (_ & _ & Hss & _ & Hts & Hp). destruct IH as (IH1 & IH2 & IH3); [intros s' ?; apply Hs; by right|].
    rewrite total_cons. cbn [fmap list_fmap]. rewrite !bind_cons, IH3, Hss in *. rewrite length_app. cbn [foldr].
    split_and!; [lia|lia|done]. }
  destruct Htotal as (Htotal & Hpoints & Hsamples). rewrite <-Htotal, <-Hsamples in *.
  destruct (import_accepted now' known series st2) as (plans & -> & Hperm).
  { split_and!; [| |done|lia..].
    - apply Forall_forall. intros s Hin. destruct (Hs s Hin) as (Hk & Hid & _ & Hts & _). split; [done|]. by exists (identity s).
    - intros E. rewrite E in Hcount. unfold total in Hcount. simpl in Hcount. lia. }
  exists plans. split; [|done]. do 3 f_equal. lia.
Qed.
End exchange.

(** *** A session is exported and imported, with times as decimal text *)
Definition time_le (a b : Z * f64) : Prop := a.1 ≤ b.1.
#[local] Instance time_le_dec (a b : Z * f64) : Decision (time_le a b) := Z_le_dec _ _.
Definition by_time (l : list (Z * f64)) : list (Z * f64) := merge_sort time_le l.
Lemma by_time_perm l : by_time l ≡ₚ l.
Proof. apply merge_sort_Permutation. Qed.

Definition at_end : Z := 22 * GMinute.
Definition recorded : graphStore (list (Z * f64)) := fold_left graph_step session empty_store.
Definition one_series (s : bytes) : graphHistoryImportSeries :=
  MkImportSeries s 1000 1 (MkSource [] 0 0 [] []) [str "60000000000"; str "soon"] [of_int 20; of_int 21] [(str "1", S754_nan)] "".
Definition device_tec (d : bytes) : bool := bool_decide (d = tec).

(** A good series with one usable sample of three, and one of an unknown device. *)
Lemma import_all_or_nothing_witness :
  (∃ r, (handleGraphHistoryImport Atoi by_time GMinute device_tec (Ok [one_series tec]) (empty_store (P := list (Z * f64)))).2
        = Imported r ∧ ir_ImportedSamples r = 1 ∧ ir_DroppedSamples r = 2) ∧
  (handleGraphHistoryImport Atoi by_time GMinute device_tec (Ok [one_series tec; one_series (str "tec2")]) recorded).1 = recorded.
Proof.
  split.
  - pose proof (import_all_or_nothing Atoi by_time by_time_perm GMinute device_tec (Ok [one_series tec])
      (empty_store (P := list (Z * f64)))) as Hi.
    destruct (handleGraphHistoryImport _ _ _ _ _ _) as [st' reply]. destruct Hi as [[_ Hi] Hr].
    destruct Hi as [r ->].
    { eexists. split; [reflexivity|]. split; [|split; [discriminate|split; vm_compute; [discriminate|split; [reflexivity|discriminate]]]].
      constructor; [|constructor]. split; [reflexivity|]. eexists. split; vm_compute; reflexivity. }
    destruct Hr as (series & plans & [= <-] & _ & _ & ->). exists (MkImportResponse 1 1 2). split; [|split; reflexivity].
    cbn [snd]. f_equal; vm_compute; reflexivity.
  - pose proof (import_all_or_nothing Atoi by_time by_time_perm GMinute device_tec
      (Ok [one_series tec; one_series (str "tec2")]) recorded) as Hi.
    destruct (handleGraphHistoryImport _ _ _ _ _ _) as [st' reply]. destruct Hi as [[Hi _] Hr].
    destruct reply as [r|]; [|exact (proj2 Hr)]. destruct Hi as (series & [= <-] & Hf & _); [by eexists|].
    inversion Hf as [|? ? _ Hf2]; subst. inversion Hf2 as [|? ? (_ & id & Hid & Hk) _]; subst.
    vm_compute in Hid. injection Hid as <-. vm_compute in Hk. discriminate.
Defined.

Definition session_query : series_query := MkSeriesQuery [str "tec:1000:1"] [] [] [].

Lemma export_imports_witness : ∃ e plans,
  handleGraphHistoryExport fmtD [] at_end [] (λ _, []) [] "session" session_query recorded = Ok e ∧
  handleGraphHistoryImport Atoi by_time at_end device_tec (Ok (er_Series e)) (empty_store (P := list (Z * f64))) =
    (fold_left (record_plan at_end) plans empty_store, Imported (MkImportResponse 1 2 0)).
Proof.
  eexists. assert (He : handleGraphHistoryExport fmtD [] at_end [] (λ _, []) [] "session" session_query recorded = Ok _)
    by (vm_compute; reflexivity).
  destruct (export_imports Atoi fmtD by_time [] by_time_perm at_end at_end [] (λ _, []) [] "session" session_query
    recorded (empty_store (P := list (Z * f64))) device_tec _ He) as (plans & Hi & _).
  - intros s [->|[]%elem_of_nil]%elem_of_cons. split_and!.
    + split_and!; vm_compute; [reflexivity|discriminate|reflexivity|reflexivity].
    + vm_compute. reflexivity.
    + match goal with |- Forall _ ?l => let l' := eval vm_compute in l in
        assert (l = l') as -> by (vm_compute; reflexivity) end.
      repeat (apply Forall_cons_2; [split; [split_and!|]; vm_compute; [reflexivity|discriminate|reflexivity|reflexivity]|]).
      constructor.
  - split; vm_compute; [reflexivity|discriminate].
  - vm_compute. discriminate.
  - exists plans. split; [exact He|exact Hi].
Defined.
