(* ===== verification/GatewayConfig.v ===== *)
(** * GatewayConfig: the configuration of the gateway ([cmd/mecomgw/main.go])

    The configuration file is decoded by [encoding/json]; what the gateway makes of
    the decoded document is modelled here: the checks, the defaults, the
    normalisation of the texts, and the devices a server starts with. *)
From stdpp Require Import prelude gmap strings list.
From Stdlib Require Import Strings.Byte.
From S2P Require Import Prelude Text Endpoint Protocol GatewayWrite.
Local Open Scope Z_scope.
#[local] Set Warnings "-clear-no-such-hyp".

(** ** Data *)
Record BridgeConfig := MkBridgeConfig {
  br_Listen : bytes; br_DefaultTransport : bytes; br_FallbackTransport : bytes; br_RouteSelection : bytes;
  br_AddressZero : bytes }.
Record RouteConfig := MkRouteConfig {
  rc_Name : bytes; rc_Role : bytes; rc_Endpoint : bytes; rc_Transport : bytes; rc_State : bytes }.
Record ChannelConfig := MkChannelConfig {
  ch_Instance : Z; ch_Role : bytes; ch_Label : bytes; ch_UserNote : bytes; ch_HasCascade : bool }.
Record DeviceConfig := MkDeviceConfig {
  dc_ID : string; dc_Endpoint : bytes; dc_Address : Z; dc_Label : bytes; dc_ChannelCount : Z;
  dc_PowerControlEnabled : bool; dc_Routes : list RouteConfig; dc_Channels : list ChannelConfig }.
Record GatewayConfig := MkGatewayConfig {
  cf_Devices : list DeviceConfig; cf_ChannelCount : Z; cf_DefaultDeviceID : string; cf_Bridge : BridgeConfig }.

Definition normalized_text (text : bytes) : bytes := ToLower (TrimSpace text).
Definition config_error (what : string) (args : list Z) : error := Errorf what args.

(** ** Channel roles *)
Definition deviceChannelConfig (cfg : DeviceConfig) (instance : Z) : option ChannelConfig :=
  List.find (λ ch, ch_Instance ch =? instance) (dc_Channels cfg).
(** The remainder of a negative instance is negative in Go, but zero if it is even. *)
Definition defaultMeerstetterChannelRole (instance : Z) : bytes :=
  if Z.rem instance 2 =? 0 then str "supply" else str "temp".
Definition effectiveDeviceChannelRole (cfg : DeviceConfig) (instance : Z) : bytes * string :=
  let configured := match deviceChannelConfig cfg instance with Some ch => normalized_text (ch_Role ch) | None => [] end in
  if bool_decide (configured = []) then (defaultMeerstetterChannelRole instance, "gateway-default"%string)
  else (configured, "config"%string).

(** ** Normalising *)
(** A text with a default and a list of what it may be. *)
Definition choice (default : string) (allowed : list string) (e : error) (text : bytes) : res bytes :=
  let text := if bool_decide (text = []) then str default else text in
  if bool_decide (text ∈ str <$> allowed) then Ok text else Err e.

Definition normalizeBridgeConfig (cfg : BridgeConfig) : res BridgeConfig :=
  let listen := TrimSpace (br_Listen cfg) in
  transport ← choice "serial" ["serial"; "can"]%string
    (config_error "bridge.default_transport must be serial or can" []) (normalized_text (br_DefaultTransport cfg));
  fallback ← choice "can" ["serial"; "can"; "disabled"; "none"]%string
    (config_error "bridge.fallback_transport must be serial, can, or disabled" []) (normalized_text (br_FallbackTransport cfg));
  let fallback := if bool_decide (fallback = str "none") then str "disabled" else fallback in
  selection ← choice "fixed-preference" ["fixed"; "fixed-preference"; "dynamic"]%string
    (config_error "bridge.route_selection must be fixed-preference or dynamic" []) (normalized_text (br_RouteSelection cfg));
  let selection := if bool_decide (selection = str "fixed") then str "fixed-preference" else selection in
  zero ← choice "default-device" ["default-device"; "disabled"; "route-order"]%string
    (config_error "bridge.address_zero must be default-device, route-order, or disabled" []) (normalized_text (br_AddressZero cfg));
  Ok (MkBridgeConfig listen transport fallback selection zero).

Definition route_roles : list bytes := str <$> ["hot"; "warm"; "fallback"]%string.
Definition normalize_route (route : RouteConfig) : RouteConfig :=
  MkRouteConfig (TrimSpace (rc_Name route)) (normalized_text (rc_Role route)) (TrimSpace (rc_Endpoint route))
    (TrimSpace (rc_Transport route)) (TrimSpace (rc_State route)).

(** The routes of device [i] from route [j] on; [seen] are the roles before. *)
Fixpoint load_routes (i j : Z) (seen : list bytes) (routes : list RouteConfig) : res (list RouteConfig) :=
  match routes with
  | [] => Ok []
  | route :: routes =>
      if bool_decide (TrimSpace (rc_Endpoint route) = []) then Err (config_error "device[%d].routes[%d]: endpoint required" [i; j])
      else if bool_decide (TrimSpace (rc_Role route) = []) then Err (config_error "device[%d].routes[%d]: role required" [i; j])
      else
        let role := normalized_text (rc_Role route) in
        if negb (bool_decide (role ∈ route_roles)) then
          Err (config_error "device[%d].routes[%d]: role must be hot, warm, or fallback" [i; j])
        else if bool_decide (role ∈ seen) then Err (config_error "device[%d].routes[%d]: duplicate role %q" [i; j])
        else
          rest ← load_routes i (j + 1) (role :: seen) routes;
          Ok (normalize_route route :: rest)
  end.

Definition channel_roles : list bytes := str <$> [""; "temp"; "supply"]%string.
Definition normalize_channel (ch : ChannelConfig) : ChannelConfig :=
  MkChannelConfig (ch_Instance ch) (normalized_text (ch_Role ch)) (ch_Label ch) (ch_UserNote ch) (ch_HasCascade ch).
Fixpoint load_channels (i j count : Z) (channels : list ChannelConfig) : res (list ChannelConfig) :=
  match channels with
  | [] => Ok []
  | ch :: channels =>
      if (ch_Instance ch <? 1) || (count <? ch_Instance ch) then
        Err (config_error "device[%d].channels[%d]: instance must be in range 1..channel_count" [i; j])
      else if negb (bool_decide (normalized_text (ch_Role ch) ∈ channel_roles)) then
        Err (config_error "device[%d].channels[%d]: role must be temp or supply" [i; j])
      else
        rest ← load_channels i (j + 1) count channels;
        Ok (normalize_channel ch :: rest)
  end.

Definition device_count (count : Z) (d : DeviceConfig) : Z := if dc_ChannelCount d =? 0 then count else dc_ChannelCount d.
Definition load_device (count i : Z) (d : DeviceConfig) : res DeviceConfig :=
  if (dc_ChannelCount d <? 0) || (255 <? dc_ChannelCount d) then
    Err (config_error "device[%d]: channel_count must be 0/default or in range 1..255" [i])
  else
    routes ← load_routes i 0 [] (dc_Routes d);
    channels ← load_channels i 0 (device_count count d) (dc_Channels d);
    Ok (MkDeviceConfig (dc_ID d) (dc_Endpoint d) (dc_Address d) (dc_Label d) (device_count count d)
          (dc_PowerControlEnabled d) routes channels).

Fixpoint load_devices (count i : Z) (seen : gmap string Z) (devices : list DeviceConfig) : res (list DeviceConfig) :=
  match devices with
  | [] => Ok []
  | d :: devices =>
      if bool_decide (dc_ID d = ""%string) || bool_decide (dc_Endpoint d = []) || (dc_Address d =? 0) then
        Err (config_error "device[%d]: id, endpoint, address required" [i])
      else
        match seen !! dc_ID d with
        | Some prev => Err (config_error "device[%d]: duplicate id %q already used at device[%d]" [i; prev])
        | None =>
            d' ← load_device count i d;
            rest ← load_devices count (i + 1) (<[dc_ID d := i]> seen) devices;
            Ok (d' :: rest)
        end
  end.

(** [raw]: the file, read and decoded. *)
Definition loadConfig (raw : res GatewayConfig) : res GatewayConfig :=
  cfg ← raw;
  if (cf_ChannelCount cfg <? 0) || (255 <? cf_ChannelCount cfg) then
    Err (config_error "channel_count must be 0/default or in range 1..255" [])
  else
    let count := if cf_ChannelCount cfg =? 0 then 4 else cf_ChannelCount cfg in
    bridge ← normalizeBridgeConfig (cf_Bridge cfg);
    if negb (bool_decide (cf_DefaultDeviceID cfg = ""%string)) &&
       negb (existsb (λ d, bool_decide (dc_ID d = cf_DefaultDeviceID cfg)) (cf_Devices cfg))
    then Err (config_error "default_device_id %q not found in devices" [])
    else
      devices ← load_devices count 0 ∅ (cf_Devices cfg);
      Ok (MkGatewayConfig devices count (cf_DefaultDeviceID cfg) bridge).

(** ** The devices of a server *)
(** The devices of [newServer], with their index. *)
Definition new_device (count : Z) (devices : gmap string (Z * DeviceConfig)) (dc : DeviceConfig) : gmap string (Z * DeviceConfig) :=
  let dc := if dc_ChannelCount dc <=? 0
            then MkDeviceConfig (dc_ID dc) (dc_Endpoint dc) (dc_Address dc) (dc_Label dc) count
                   (dc_PowerControlEnabled dc) (dc_Routes dc) (dc_Channels dc)
            else dc in
  <[dc_ID dc := (Z.of_nat (size devices), dc)]> devices.
Definition newServer_devices (cfg : GatewayConfig) : gmap string (Z * DeviceConfig) :=
  fold_left (new_device (if cf_ChannelCount cfg <=? 0 then 4 else cf_ChannelCount cfg)) (cf_Devices cfg) ∅.
Definition deviceIndex (devices : gmap string (Z * DeviceConfig)) (id : string) : Z :=
  match devices !! id with Some (index, _) => index | None => 0 end.
(** What a binding of [GatewayWrite.v] knows of a device. *)
Definition gateway_device (d : DeviceConfig) : GatewayDevice :=
  MkGatewayDevice (dc_ID d) (dc_Endpoint d) (rc_Endpoint <$> dc_Routes d) (dc_PowerControlEnabled d).

(** ** Which configurations are accepted *)
Definition choice_ok (allowed : list string) (text : bytes) : Prop := text = [] ∨ text ∈ str <$> allowed.
Definition bridge_ok (b : BridgeConfig) : Prop :=
  choice_ok ["serial"; "can"]%string (normalized_text (br_DefaultTransport b)) ∧
  choice_ok ["serial"; "can"; "disabled"; "none"]%string (normalized_text (br_FallbackTransport b)) ∧
  choice_ok ["fixed"; "fixed-preference"; "dynamic"]%string (normalized_text (br_RouteSelection b)) ∧
  choice_ok ["default-device"; "disabled"; "route-order"]%string (normalized_text (br_AddressZero b)).
Definition route_ok (r : RouteConfig) : Prop := TrimSpace (rc_Endpoint r) ≠ [] ∧ normalized_text (rc_Role r) ∈ route_roles.
Definition routes_roles (rs : list RouteConfig) : list bytes := (normalized_text ∘ rc_Role) <$> rs.
Definition channel_ok (count : Z) (ch : ChannelConfig) : Prop :=
  1 ≤ ch_Instance ch ≤ count ∧ normalized_text (ch_Role ch) ∈ channel_roles.
Definition device_ok (count : Z) (d : DeviceConfig) : Prop :=
  0 ≤ dc_ChannelCount d ≤ 255 ∧ (Forall route_ok (dc_Routes d) ∧ NoDup (routes_roles (dc_Routes d))) ∧
  Forall (channel_ok (device_count count d)) (dc_Channels d).
Definition device_named (d : DeviceConfig) : Prop := dc_ID d ≠ ""%string ∧ dc_Endpoint d ≠ [] ∧ dc_Address d ≠ 0.
Definition gateway_count (cfg : GatewayConfig) : Z := if cf_ChannelCount cfg =? 0 then 4 else cf_ChannelCount cfg.
Record config_ok (cfg : GatewayConfig) : Prop := {
  ok_count : 0 ≤ cf_ChannelCount cfg ≤ 255;
  ok_bridge : bridge_ok (cf_Bridge cfg);
  ok_default : cf_DefaultDeviceID cfg = ""%string ∨ ∃ d, d ∈ cf_Devices cfg ∧ dc_ID d = cf_DefaultDeviceID cfg;
  ok_names : Forall device_named (cf_Devices cfg) ∧ NoDup (dc_ID <$> cf_Devices cfg);
  ok_devices : Forall (device_ok (gateway_count cfg)) (cf_Devices cfg) }.

(** *** What an accepted one becomes *)
Definition pick (default : string) (text : bytes) : bytes := if bool_decide (text = []) then str default else text.
Definition rename (from to : string) (text : bytes) : bytes := if bool_decide (text = str from) then str to else text.
Definition normal_bridge (b : BridgeConfig) : BridgeConfig :=
  MkBridgeConfig (TrimSpace (br_Listen b)) (pick "serial" (normalized_text (br_DefaultTransport b)))
    (rename "none" "disabled" (pick "can" (normalized_text (br_FallbackTransport b))))
    (rename "fixed" "fixed-preference" (pick "fixed-preference" (normalized_text (br_RouteSelection b))))
    (pick "default-device" (normalized_text (br_AddressZero b))).
Definition normal_device (count : Z) (d : DeviceConfig) : DeviceConfig :=
  MkDeviceConfig (dc_ID d) (dc_Endpoint d) (dc_Address d) (dc_Label d) (device_count count d) (dc_PowerControlEnabled d)
    (normalize_route <$> dc_Routes d) (normalize_channel <$> dc_Channels d).
Definition normal_config (cfg : GatewayConfig) : GatewayConfig :=
  MkGatewayConfig (normal_device (gateway_count cfg) <$> cf_Devices cfg) (gateway_count cfg) (cf_DefaultDeviceID cfg)
    (normal_bridge (cf_Bridge cfg)).

(** *** Texts *)
Lemma lower_byte_space b : is_space (lower_byte b) = is_space b.
Proof. by destruct b. Qed.
Lemma lower_byte_idem b : lower_byte (lower_byte b) = lower_byte b.
Proof. by destruct b. Qed.
Lemma trim_left_lower l : trim_left (ToLower l) = ToLower (trim_left l).
Proof.
  induction l as [|b l IH]; [done|]. cbn [ToLower fmap list_fmap trim_left]. rewrite lower_byte_space.
  destruct (is_space b); [exact IH|done].
Qed.
Lemma TrimSpace_lower l : TrimSpace (ToLower l) = ToLower (TrimSpace l).
Proof.
  unfold TrimSpace, trim_right. rewrite trim_left_lower. unfold ToLower at 1. rewrite <-fmap_reverse.
  fold (ToLower (reverse (trim_left l))). rewrite trim_left_lower. unfold ToLower. by rewrite fmap_reverse.
Qed.
Lemma normalized_text_idem l : normalized_text (normalized_text l) = normalized_text l.
Proof.
  unfold normalized_text. rewrite TrimSpace_lower, TrimSpace_idem. unfold ToLower. rewrite <-list_fmap_compose.
  apply list_fmap_ext. intros. apply lower_byte_idem.
Qed.
Lemma normalized_text_nil l : normalized_text l = [] ↔ TrimSpace l = [].
Proof. unfold normalized_text, ToLower. split; [apply fmap_nil_inv|by intros ->]. Qed.

(** *** The loops *)
Lemma choice_spec d allowed e text : d ∈ allowed →
  match choice d allowed e text with Ok t => choice_ok allowed text ∧ t = pick d text | Err _ => ¬ choice_ok allowed text end.
Proof.
  intros Hd. unfold choice, choice_ok, pick. destruct (bool_decide_reflect (text = [])) as [->|Hne].
  - rewrite bool_decide_true by (by apply list_elem_of_fmap_2). by split; [left|].
  - case_bool_decide; [by split; [right|]|]. by intros [?|?].
Qed.

Lemma normalizeBridgeConfig_spec b :
  match normalizeBridgeConfig b with Ok b' => bridge_ok b ∧ b' = normal_bridge b | Err _ => ¬ bridge_ok b end.
Proof.
  unfold normalizeBridgeConfig, bridge_ok. cbv zeta.
  match goal with |- context [choice ?d ?a ?e ?t] => pose proof (choice_spec d a e t ltac:(by repeat constructor)) as H1;
    destruct (choice d a e t); cbn [mbind result_bind]; [|tauto] end.
  match goal with |- context [choice ?d ?a ?e ?t] => pose proof (choice_spec d a e t ltac:(by repeat constructor)) as H2;
    destruct (choice d a e t); cbn [mbind result_bind]; [|tauto] end.
  match goal with |- context [choice ?d ?a ?e ?t] => pose proof (choice_spec d a e t ltac:(by repeat constructor)) as H3;
    destruct (choice d a e t); cbn [mbind result_bind]; [|tauto] end.
  match goal with |- context [choice ?d ?a ?e ?t] => pose proof (choice_spec d a e t ltac:(by repeat constructor)) as H4;
    destruct (choice d a e t); cbn [mbind result_bind]; [|tauto] end.
  destruct H1 as [? ->], H2 as [? ->], H3 as [? ->], H4 as [? ->]. done.
Qed.

Definition routes_good (seen : list bytes) (rs : list RouteConfig) : Prop :=
  Forall route_ok rs ∧ NoDup (routes_roles rs) ∧ Forall (.∉ seen) (routes_roles rs).
Lemma routes_good_cons seen r rs :
  routes_good seen (r :: rs) ↔ (route_ok r ∧ (normalized_text (rc_Role r) ∉ seen)) ∧ routes_good (normalized_text (rc_Role r) :: seen) rs.
Proof.
  unfold routes_good. change (routes_roles (r :: rs)) with (normalized_text (rc_Role r) :: routes_roles rs).
  rewrite !Forall_cons, NoDup_cons, !Forall_forall. setoid_rewrite not_elem_of_cons. naive_solver.
Qed.
Lemma load_routes_spec i j seen rs :
  match load_routes i j seen rs with
  | Ok out => routes_good seen rs ∧ out = normalize_route <$> rs
  | Err _ => ¬ routes_good seen rs
  end.
Proof.
  revert j seen. induction rs as [|r rs IH]; intros j seen; cbn [load_routes].
  { split; [|done]. split_and!; constructor. }
  destruct (bool_decide_reflect (TrimSpace (rc_Endpoint r) = [])); [rewrite routes_good_cons; unfold route_ok; tauto|].
  destruct (bool_decide_reflect (TrimSpace (rc_Role r) = [])) as [Hr|Hr].
  { rewrite routes_good_cons. intros [[[_ Hin] _] _]. apply normalized_text_nil in Hr. rewrite Hr in Hin.
    revert Hin. change (([] : bytes) ∉ route_roles). by refine (bool_decide_eq_false_1 (([] : bytes) ∈ route_roles) eq_refl). }
  destruct (bool_decide_reflect (normalized_text (rc_Role r) ∈ route_roles)); cbn [negb];
    [|rewrite routes_good_cons; unfold route_ok; tauto].
  destruct (bool_decide_reflect (normalized_text (rc_Role r) ∈ seen)); [rewrite routes_good_cons; tauto|].
  specialize (IH (j + 1) (normalized_text (rc_Role r) :: seen)).
  destruct (load_routes _ _ _ rs); cbn [mbind result_bind]; rewrite routes_good_cons; [|tauto].
  destruct IH as [? ->]. done.
Qed.

Lemma load_channels_spec i j count chs :
  match load_channels i j count chs with
  | Ok out => Forall (channel_ok count) chs ∧ out = normalize_channel <$> chs
  | Err _ => ¬ Forall (channel_ok count) chs
  end.
Proof.
  revert j. induction chs as [|ch chs IH]; intros j; cbn [load_channels]; [by split|].
  destruct ((ch_Instance ch <? 1) || (count <? ch_Instance ch)) eqn:Ei.
  { rewrite Forall_cons. apply orb_true_iff in Ei. rewrite !Z.ltb_lt in Ei. unfold channel_ok. lia. }
  apply orb_false_iff in Ei. rewrite !Z.ltb_ge in Ei.
  destruct (bool_decide_reflect (normalized_text (ch_Role ch) ∈ channel_roles)); cbn [negb];
    [|rewrite Forall_cons; unfold channel_ok; tauto].
  specialize (IH (j + 1)). destruct (load_channels _ _ _ chs); cbn [mbind result_bind]; rewrite Forall_cons; [|tauto].
  destruct IH as [? ->]. done.
Qed.

Lemma load_device_spec count i d :
  match load_device count i d with
  | Ok d' => device_ok count d ∧ d' = normal_device count d
  | Err _ => ¬ device_ok count d
  end.
Proof.
  unfold load_device, device_ok.
  destruct (Z.ltb_spec (dc_ChannelCount d) 0), (Z.ltb_spec 255 (dc_ChannelCount d)); cbn [orb]; try (intros [? _]; lia).
  pose proof (load_routes_spec i 0 [] (dc_Routes d)) as Hr. unfold routes_good in Hr.
  assert (Hn : Forall (.∉ ([] : list bytes)) (routes_roles (dc_Routes d))).
  { apply Forall_forall. intros ? _. apply not_elem_of_nil. }
  destruct (load_routes _ _ _ _); cbn [mbind result_bind]; [|tauto]. destruct Hr as [? ->].
  pose proof (load_channels_spec i 0 (device_count count d) (dc_Channels d)) as Hc.
  destruct (load_channels _ _ _ _); cbn [mbind result_bind]; [|tauto]. destruct Hc as [? ->].
  split; [|done]. split_and!; tauto || lia.
Qed.

Definition devices_good (count : Z) (seen : gmap string Z) (ds : list DeviceConfig) : Prop :=
  Forall device_named ds ∧ NoDup (dc_ID <$> ds) ∧ Forall (λ d, seen !! dc_ID d = None) ds ∧ Forall (device_ok count) ds.
Lemma devices_good_cons count seen i d ds :
  devices_good count seen (d :: ds) ↔
  (device_named d ∧ seen !! dc_ID d = None ∧ device_ok count d) ∧ devices_good count (<[dc_ID d := i]> seen) ds.
Proof.
  unfold devices_good. rewrite fmap_cons, !Forall_cons, NoDup_cons, list_elem_of_fmap.
  rewrite !(Forall_forall (λ d', _ !! _ = None)). setoid_rewrite lookup_insert_None. naive_solver.
Qed.
Lemma load_devices_spec count i seen ds :
  match load_devices count i seen ds with
  | Ok out => devices_good count seen ds ∧ out = normal_device count <$> ds
  | Err _ => ¬ devices_good count seen ds
  end.
Proof.
  revert i seen. induction ds as [|d ds IH]; intros i seen; cbn [load_devices].
  { split; [|done]. split_and!; constructor. }
  destruct (bool_decide (dc_ID d = ""%string) || bool_decide (dc_Endpoint d = []) || (dc_Address d =? 0)) eqn:En.
  { rewrite (devices_good_cons _ _ i). intros [[(? & ? & ?) _] _].
    rewrite !orb_true_iff, !bool_decide_eq_true, Z.eqb_eq in En. tauto. }
  assert (device_named d) by (rewrite !orb_false_iff, !bool_decide_eq_false, Z.eqb_neq in En; unfold device_named; tauto).
  destruct (seen !! dc_ID d) eqn:Es; [rewrite (devices_good_cons _ _ i), Es; by intros [(_ & ? & _) _]|].
  pose proof (load_device_spec count i d) as Hd.
  destruct (load_device count i d); cbn [mbind result_bind]; [|rewrite (devices_good_cons _ _ i); tauto].
  destruct Hd as [Hd ->]. specialize (IH (i + 1) (<[dc_ID d := i]> seen)).
  destruct (load_devices _ _ _ ds); cbn [mbind result_bind]; rewrite (devices_good_cons _ _ i); [|tauto].
  destruct IH as [? ->]. done.
Qed.

(** *** The whole configuration *)
Lemma loadConfig_spec cfg :
  match loadConfig (Ok cfg) with Ok c => config_ok cfg ∧ c = normal_config cfg | Err _ => ¬ config_ok cfg end.
Proof.
  unfold loadConfig. cbn [mbind result_bind].
  destruct ((cf_ChannelCount cfg <? 0) || (255 <? cf_ChannelCount cfg)) eqn:Ec.
  { intros [Hc _ _ _ _]. apply orb_true_iff in Ec. rewrite !Z.ltb_lt in Ec. lia. }
  apply orb_false_iff in Ec. rewrite !Z.ltb_ge in Ec.
  pose proof (normalizeBridgeConfig_spec (cf_Bridge cfg)) as Hb.
  destruct (normalizeBridgeConfig _); cbn [mbind result_bind]; [|by intros []]. destruct Hb as [Hb ->].
  fold (gateway_count cfg).
  assert (Hex : existsb (λ d, bool_decide (dc_ID d = cf_DefaultDeviceID cfg)) (cf_Devices cfg) = true ↔
                ∃ d, d ∈ cf_Devices cfg ∧ dc_ID d = cf_DefaultDeviceID cfg).
  { rewrite existsb_exists. setoid_rewrite bool_decide_eq_true. setoid_rewrite <-list_elem_of_In. done. }
  destruct (negb (bool_decide (cf_DefaultDeviceID cfg = ""%string)) && negb (existsb _ _)) eqn:Ed.
  { intros [_ _ [Hd|Hd%Hex] _ _]; apply andb_true_iff in Ed as [E1 E2]; apply negb_true_iff in E1, E2; [|congruence].
    by apply bool_decide_eq_false in E1. }
  pose proof (load_devices_spec (gateway_count cfg) 0 ∅ (cf_Devices cfg)) as Hds.
  destruct (load_devices _ _ _ _); cbn [mbind result_bind].
  2: { intros [_ _ _ [? ?] ?]. apply Hds. split_and!; [done..| |done]. apply Forall_forall. intros. apply lookup_empty. }
  destruct Hds as [(? & ? & _ & ?) ->]. split; [|done]. split; [lia|done| |done|done].
  apply andb_false_iff in Ed as [E|E]; apply negb_false_iff in E; [left; by apply bool_decide_eq_true in E|right; by apply Hex].
Qed.

(** *** Normal configurations *)
#[local] Arguments TrimSpace : simpl never.
#[local] Arguments normalized_text : simpl never.
(** What a field of the bridge becomes is what it stays. *)
Definition stays (allowed : list string) (f : bytes → bytes) (v : bytes) : Prop :=
  choice_ok allowed (normalized_text v) ∧ f (normalized_text v) = v.
Lemma choice_stays allowed d f text : d ∈ allowed → choice_ok allowed text →
  Forall (stays allowed f) ((f ∘ str) <$> allowed) → f [] = f (str d) → stays allowed f (f text).
Proof.
  intros Hd Ht Hall Hnil. rewrite Forall_forall in Hall.
  assert (Hin : ∃ x, x ∈ allowed ∧ f text = f (str x)).
  { destruct Ht as [->|Hin]; [by exists d|]. apply list_elem_of_fmap in Hin as (x & -> & Hin). by exists x. }
  destruct Hin as (x & Hin & ->). apply Hall. apply list_elem_of_fmap. by exists x.
Qed.

Lemma normal_bridge_ok b : bridge_ok b → bridge_ok (normal_bridge b) ∧ normal_bridge (normal_bridge b) = normal_bridge b.
Proof.
  intros (H1 & H2 & H3 & H4).
  assert (Hdec : ∀ allowed v, bool_decide (normalized_text v ∈ str <$> allowed) = true → choice_ok allowed (normalized_text v))
    by (intros allowed v Hv%bool_decide_eq_true; by right).
  apply (choice_stays _ "serial"%string (pick "serial")) in H1 as [H1 E1];
    [|by constructor|by repeat (constructor; [split; [by apply Hdec|done]|]); constructor|done].
  apply (choice_stays _ "can"%string (λ t, rename "none" "disabled" (pick "can" t))) in H2 as [H2 E2];
    [|by repeat constructor|by repeat (constructor; [split; [by apply Hdec|done]|]); constructor|done].
  apply (choice_stays _ "fixed-preference"%string (λ t, rename "fixed" "fixed-preference" (pick "fixed-preference" t))) in H3 as [H3 E3];
    [|by repeat constructor|by repeat (constructor; [split; [by apply Hdec|done]|]); constructor|done].
  apply (choice_stays _ "default-device"%string (pick "default-device")) in H4 as [H4 E4];
    [|by constructor|by repeat (constructor; [split; [by apply Hdec|done]|]); constructor|done].
  split; [by split_and!|]. unfold normal_bridge. cbn [br_Listen br_DefaultTransport br_FallbackTransport br_RouteSelection br_AddressZero].
  rewrite TrimSpace_idem. by f_equal.
Qed.

Lemma normalize_route_idem r : normalize_route (normalize_route r) = normalize_route r.
Proof. unfold normalize_route. cbn. by rewrite !TrimSpace_idem, normalized_text_idem. Qed.
Lemma normalize_channel_idem ch : normalize_channel (normalize_channel ch) = normalize_channel ch.
Proof. unfold normalize_channel. cbn. by rewrite normalized_text_idem. Qed.
Lemma normal_route_ok r : route_ok r → route_ok (normalize_route r).
Proof. unfold route_ok. cbn. by rewrite TrimSpace_idem, normalized_text_idem. Qed.
Lemma normal_channel_ok count ch : channel_ok count ch → channel_ok count (normalize_channel ch).
Proof. unfold channel_ok. cbn. by rewrite normalized_text_idem. Qed.
Lemma normal_roles rs : routes_roles (normalize_route <$> rs) = routes_roles rs.
Proof.
  unfold routes_roles. rewrite <-list_fmap_compose. apply list_fmap_ext. intros i r _. unfold compose. cbn. apply normalized_text_idem.
Qed.

Lemma device_count_normal count d : 1 ≤ count → 0 ≤ dc_ChannelCount d → 1 ≤ device_count count d.
Proof. unfold device_count. destruct (Z.eqb_spec (dc_ChannelCount d) 0); lia. Qed.

Lemma normal_device_ok count d : 1 ≤ count ≤ 255 → device_ok count d →
  device_ok count (normal_device count d) ∧ normal_device count (normal_device count d) = normal_device count d ∧
  1 ≤ device_count count d ≤ 255.
Proof.
  intros Hc (Hn & [Hr Hnd] & Hch). pose proof (device_count_normal count d ltac:(lia) ltac:(lia)) as H1.
  assert (H255 : device_count count d ≤ 255) by (unfold device_count; destruct (Z.eqb_spec (dc_ChannelCount d) 0); lia).
  assert (Hcc : device_count count (normal_device count d) = device_count count d).
  { unfold device_count at 1. cbn. destruct (Z.eqb_spec (device_count count d) 0); [lia|done]. }
  split_and!; try lia.
  - unfold device_ok. rewrite Hcc. cbn. rewrite normal_roles. split_and!; [lia|lia| |done|].
    + apply Forall_fmap. eapply Forall_impl; [exact Hr|]. apply normal_route_ok.
    + apply Forall_fmap. eapply Forall_impl; [exact Hch|]. apply normal_channel_ok.
  - unfold normal_device at 1. rewrite Hcc. cbn. unfold normal_device. f_equal.
    + rewrite <-list_fmap_compose. apply list_fmap_ext. intros. apply normalize_route_idem.
    + rewrite <-list_fmap_compose. apply list_fmap_ext. intros. apply normalize_channel_idem.
Qed.

Lemma gateway_count_bounds cfg : config_ok cfg → 1 ≤ gateway_count cfg ≤ 255.
Proof. intros [Hc _ _ _ _]. unfold gateway_count. destruct (Z.eqb_spec (cf_ChannelCount cfg) 0); lia. Qed.
Lemma gateway_count_normal cfg : config_ok cfg → gateway_count (normal_config cfg) = gateway_count cfg.
Proof.
  intros Hok. pose proof (gateway_count_bounds cfg Hok). unfold gateway_count at 1. cbn. destruct (Z.eqb_spec (gateway_count cfg) 0); [lia|done].
Qed.

Lemma normal_config_ok cfg : config_ok cfg → config_ok (normal_config cfg) ∧ normal_config (normal_config cfg) = normal_config cfg.
Proof.
  intros Hok. pose proof (gateway_count_bounds cfg Hok) as Hg. pose proof (gateway_count_normal cfg Hok) as Hgn.
  destruct Hok as [Hc Hb Hd [Hn Hnd] Hds]. destruct (normal_bridge_ok _ Hb) as [Hb' Eb].
  assert (Hids : dc_ID <$> cf_Devices (normal_config cfg) = dc_ID <$> cf_Devices cfg).
  { cbn. rewrite <-list_fmap_compose. by apply list_fmap_ext. }
  split.
  - split; [cbn; lia|done| |split|].
    + destruct Hd as [Hd|(d & Hin & Hd)]; [by left|right]. exists (normal_device (gateway_count cfg) d).
      split; [|done]. cbn. by apply list_elem_of_fmap_2.
    + cbn. apply Forall_fmap. eapply Forall_impl; [exact Hn|]. done.
    + by rewrite Hids.
    + rewrite Hgn. cbn. apply Forall_fmap. eapply Forall_impl; [exact Hds|]. intros d Hd'. by apply normal_device_ok.
  - unfold normal_config at 1. rewrite Hgn. cbn. rewrite Eb. unfold normal_config. f_equal.
    rewrite <-list_fmap_compose. apply list_fmap_ext. intros i d Hi. rewrite Forall_forall in Hds.
    apply normal_device_ok; [done|]. apply Hds. by eapply list_elem_of_lookup_2.
Qed.

(** The devices of a server know their place in the configuration. *)
Lemma new_devices_index count ds m0 : NoDup (dc_ID <$> ds) → Forall (λ d, m0 !! dc_ID d = None ∧ 0 < dc_ChannelCount d) ds →
  let m := fold_left (new_device count) ds m0 in
  (∀ k d, ds !! k = Some d → m !! dc_ID d = Some (Z.of_nat (size m0 + k), d)) ∧
  (∀ id, id ∉ dc_ID <$> ds → m !! id = m0 !! id).
Proof.
  revert m0. induction ds as [|d ds IH]; intros m0 Hnd Hnew; cbn [fold_left]; [done|].
  rewrite fmap_cons in Hnd. apply NoDup_cons in Hnd as [Hd Hnd]. apply Forall_cons in Hnew as [[Hm0 Hpos] Hnew].
  assert (Hstep : new_device count m0 d = <[dc_ID d := (Z.of_nat (size m0), d)]> m0).
  { unfold new_device. destruct (Z.leb_spec (dc_ChannelCount d) 0); [lia|done]. }
  rewrite Hstep. destruct (IH (<[dc_ID d := (Z.of_nat (size m0), d)]> m0) Hnd) as [IH1 IH2].
  { rewrite Forall_forall in *. intros d' Hin. destruct (Hnew d' Hin) as [Hd' ?]. split; [|done].
    rewrite lookup_insert_ne; [done|]. intros E. apply Hd. rewrite E. by apply list_elem_of_fmap_2. }
  split.
  - intros [|k] d' Hk.
    + injection Hk as <-. rewrite IH2, lookup_insert_eq by done. by rewrite Nat.add_0_r.
    + rewrite (IH1 k d' Hk), map_size_insert_None by done. do 2 f_equal. lia.
  - intros id [Hne Hid]%not_elem_of_cons. rewrite IH2, lookup_insert_ne by done. done.
Qed.

(** C16: loading a configuration either refuses it or normalises it.  It is accepted
    exactly if counts are in range, the texts of the bridge are known ones, the
    default device exists, every device has an identifier of its own, an endpoint
    and an address, and its routes and channels have allowed roles, at most one
    route per role.  What is loaded is acceptable itself and loads to itself; its
    counts are between 1 and 255, and each of its devices is found in the server
    under its identifier with its place in the configuration as index, so that no
    two share a proxy port. *)
Theorem loadConfig_normalises (cfg : GatewayConfig) :
  match loadConfig (Ok cfg) with
  | Ok c =>
      config_ok cfg ∧ config_ok c ∧ loadConfig (Ok c) = Ok c ∧ 1 ≤ cf_ChannelCount c ≤ 255 ∧
      Forall (λ d, 1 ≤ dc_ChannelCount d ≤ 255) (cf_Devices c) ∧
      (dc_ID <$> cf_Devices c = dc_ID <$> cf_Devices cfg) ∧
      ∀ k d, cf_Devices c !! k = Some d → newServer_devices c !! dc_ID d = Some (Z.of_nat k, d)
  | Err _ => ¬ config_ok cfg
  end.
Proof.
  pose proof (loadConfig_spec cfg) as Hl. destruct (loadConfig (Ok cfg)) as [c|]; [|done]. destruct Hl as [Hok ->].
  destruct (normal_config_ok cfg Hok) as [Hok' Hidem]. pose proof (gateway_count_bounds cfg Hok) as Hg.
  assert (Hcounts : Forall (λ d, 1 ≤ dc_ChannelCount d ≤ 255) (cf_Devices (normal_config cfg))).
  { cbn. apply Forall_fmap. apply (Forall_impl _ _ _ (ok_devices _ Hok)). intros d Hd. by apply (normal_device_ok _ _ Hg Hd). }
  split_and!; try done; try (cbn; lia).
  - pose proof (loadConfig_spec (normal_config cfg)) as Hl. destruct (loadConfig (Ok _)); [|done].
    destruct Hl as [_ ->]. by rewrite Hidem.
  - cbn. rewrite <-list_fmap_compose. by apply list_fmap_ext.
  - intros k d Hk. unfold newServer_devices.
    match goal with |- context [fold_left (new_device ?n) ?ds ?m] => destruct (new_devices_index n ds m) as [Hi _] end.
    + apply Hok'.
    + eapply Forall_impl; [exact Hcounts|]. intros d' Hd'. cbn beta in *. split; [apply lookup_empty|lia].
    + by apply Hi.
Qed.
