(* ===== verification/PowerControl.v ===== *)
(** * PowerControl: the power controller of the gateway ([cmd/mecomgw/main.go])

    For a supply channel the gateway can hold a target power: once a second it
    estimates the resistance of the load from voltage and current, and moves the
    voltage and the current limit of the channel towards what the target needs.
    The target and the estimates are virtual parameters of the gateway; voltage and
    current come from the ring capture if it runs.

    A tick reads the clock once here.  Time limits of the reads are left out. *)
From stdpp Require Import prelude gmap strings list.
From Stdlib Require Import Strings.Byte Floats.SpecFloat.
From S2P Require Import Prelude Text Floats Protocol RingFrames RingReader Readout Endpoint BridgePayload WriteLease Commander GatewayWrite GraphKeys GraphHistory GatewayConfig.
Local Open Scope Z_scope.
#[local] Set Warnings "-clear-no-such-hyp".

(** ** Samples of the ring capture *)
Record powerControlSample := MkPowerSample { pc_v : f64; pc_i : f64 }.
Record power_history := MkPowerHistory {
  ph_powerHistory : gmap Z (list powerControlSample);
  ph_latestV : gmap Z f64; ph_latestI : gmap Z f64; ph_latestVTime : gmap Z Z; ph_latestITime : gmap Z Z }.
Definition new_power_history : power_history := MkPowerHistory ∅ ∅ ∅ ∅ ∅.

(** The latest voltage and current, after a sample. *)
Definition note_latest (id inst : Z) (val : f64) (at_ : Z) (b : power_history) : power_history :=
  if id =? 1021 then
    MkPowerHistory (ph_powerHistory b) (<[inst := val]> (ph_latestV b)) (ph_latestI b) (<[inst := at_]> (ph_latestVTime b)) (ph_latestITime b)
  else if id =? 1020 then
    MkPowerHistory (ph_powerHistory b) (ph_latestV b) (<[inst := val]> (ph_latestI b)) (ph_latestVTime b) (<[inst := at_]> (ph_latestITime b))
  else b.
(** A voltage and a current less than 100 ms apart make a sample. *)
Definition pair_latest (inst : Z) (b : power_history) : power_history :=
  match ph_latestVTime b !! inst, ph_latestITime b !! inst with
  | Some vTime, Some iTime =>
      if Z.abs (vTime - iTime) <? 100 * Millisecond then
        let zero := S754_zero false in
        let h := default [] (ph_powerHistory b !! inst) ++
                   [MkPowerSample (default zero (ph_latestV b !! inst)) (default zero (ph_latestI b !! inst))] in
        let h := if (5 <? length h)%nat then drop 1 h else h in
        MkPowerHistory (<[inst := h]> (ph_powerHistory b)) (ph_latestV b) (ph_latestI b)
          (delete inst (ph_latestVTime b)) (delete inst (ph_latestITime b))
      else b
  | _, _ => b
  end.

Section receiver.
Context {P : Type} `{Pyramid P}.

(** One round of [runDeviceRingReceiver]; a sample outside the configuration of the
    ring is skipped. *)
Definition receive_ring_sample (config : list RingCaptureParameter) (deviceID : bytes) (now : Z) (sample : RingSample)
    (w : power_history * graphStore P) : power_history * graphStore P :=
  let '(b, st) := w in
  if (ConfigIndex sample <? 0) || (Z.of_nat (length config) <=? ConfigIndex sample) then w
  else
    match config !! Z.to_nat (ConfigIndex sample) with
    | None => w
    | Some p =>
        let inst := Inst (rcp_Parameter p) in
        let at_ := if At sample =? 0 then now else At sample in
        let b := pair_latest inst (note_latest (ID (rcp_Parameter p)) inst (Value sample) at_ b) in
        (b, recordGraphSample now deviceID (ID (rcp_Parameter p)) inst (Value sample) at_ st)
    end.
End receiver.

(** [sort.Float64s]: NaN before the numbers. *)
Definition float_less (a b : f64) : bool := SFltb a b || (is_nan a && negb (is_nan b)).
Fixpoint insert_float (x : f64) (l : list f64) : list f64 :=
  match l with
  | [] => [x]
  | y :: l' => if float_less y x then y :: insert_float x l' else x :: l
  end.
Definition sort_Float64s (l : list f64) : list f64 := foldr insert_float [] l.

(** The mean without the smallest and the largest of three or more. *)
Definition trimmed_mean (l : list f64) : f64 :=
  let n := length l in
  fdiv (fold_left fadd (slice (sort_Float64s l) 1 (n - 1)) (S754_zero false)) (of_int (Z.of_nat (n - 2))).
Definition smoothSamples (h : list powerControlSample) : option (f64 * f64) :=
  match last h with
  | None => None
  | Some latest =>
      if (length h <? 3)%nat then Some (pc_v latest, pc_i latest)
      else Some (trimmed_mean (pc_v <$> h), trimmed_mean (pc_i <$> h))
  end.

(** ** One tick of a channel *)
Section power.
Context {C : Type} `{DeviceClient C} {P : Type} `{Pyramid P}.
Context (catalogue_parameters : list Param) (Close : C → C).

(** The gateway, the histories of its signals, and the samples of each device. *)
Record power_server := MkPowerServer {
  pw_gateway : gateway C; pw_graph : graphStore P; pw_histories : gmap string power_history }.
Implicit Types (s : power_server).

Definition zero : f64 := S754_zero false.
Definition vget s (deviceID : string) (paramID instance : Z) (def : f64) : f64 :=
  getVirtualParam (pw_gateway s) deviceID paramID instance def.
Definition vset (deviceID : string) (paramID instance : Z) (val : f64) s : power_server :=
  MkPowerServer (setVirtualParam (pw_gateway s) deviceID paramID instance val) (pw_graph s) (pw_histories s).
Definition record_point (now : Z) (deviceID : string) (paramID instance : Z) (val : f64) s : power_server :=
  MkPowerServer (pw_gateway s) (recordGraphSample now (str deviceID) paramID instance val now (pw_graph s)) (pw_histories s).
Definition setPowerControlStatus (now : Z) (deviceID : string) (instance : Z) (status : f64) s : power_server :=
  record_point now deviceID 2038 instance status (vset deviceID 2038 instance status s).

Definition bare_param (id instance : Z) : Param := MkParam id instance "" "" "" false "" "".
(** Voltage and current: smoothed samples, or a read if there are none. *)
Definition measure (instance : Z) (h : list powerControlSample) (client : C) : C * option (f64 * f64) :=
  match smoothSamples h with
  | Some vi => (client, Some vi)
  | None =>
      let '(client, vals) := rd_ReadBulk [bare_param 1021 instance; bare_param 1020 instance] client in
      (client, match vals with Ok [v; i] => Some (v, i) | _ => None end)
  end.
(** Error number, output switch, voltage and current limit as they are set. *)
Definition read_setpoints (instance : Z) (client : C) : C * option (f64 * f64 * f64 * f64) :=
  let '(client, vals) := rd_ReadBulk
    [bare_param 105 1; bare_param 2010 instance; bare_param 2021 instance; bare_param 2030 instance] client in
  (client, match vals with Ok [e; o; v; i] => Some (e, o, v, i) | _ => None end).

(** Nothing is regulated: no resistance, no samples to count. *)
Definition stand_by (now : Z) (deviceID : string) (instance : Z) (status : f64) s : power_server :=
  vset deviceID 2043 instance zero
    (setPowerControlStatus now deviceID instance status
       (record_point now deviceID 2036 instance zero (vset deviceID 2036 instance zero s))).

Definition filtered_resistance (rRaw rPrev : f64) : f64 :=
  if SFltb zero rPrev then
    let rCandidate := fadd (fmul (decimal 8 10) rPrev) (fmul (decimal 2 10) rRaw) in
    if SFltb (fdiv (SFabs (fsub rCandidate rPrev)) rPrev) (decimal 15 1000) then rPrev else rCandidate
  else rRaw.
Definition non_ohmic (rRaw rPrev : f64) : bool :=
  if SFltb rRaw (decimal 1 10) || SFltb (of_int 1000) rRaw then true
  else if SFltb zero rPrev then
    let ratio := fdiv rRaw rPrev in SFltb ratio (decimal 5 10) || SFltb (of_int 2) ratio
  else false.
(** The estimate of the resistance, and the number of samples in a row that do not
    look like one. *)
Definition track_resistance (now : Z) (deviceID : string) (instance : Z) (rRaw : f64) s : power_server * (f64 * Z * bool) :=
  let rPrev := vget s deviceID 2037 instance zero in
  let rCandidate := filtered_resistance rRaw rPrev in
  let bad := non_ohmic rRaw rPrev in
  if bad then
    let nonOhmicCount := int_of_float (vget s deviceID 2043 instance zero) + 1 in
    let reportedR := if SFleb rPrev zero then rRaw else rPrev in
    (record_point now deviceID 2036 instance reportedR
       (vset deviceID 2036 instance reportedR (vset deviceID 2043 instance (of_int nonOhmicCount) s)),
     (rCandidate, nonOhmicCount, bad))
  else
    (vset deviceID 2037 instance rCandidate
       (record_point now deviceID 2036 instance rCandidate
          (vset deviceID 2036 instance rCandidate (vset deviceID 2043 instance zero s))),
     (rCandidate, 0, bad)).

Definition clamp (v hi : f64) : f64 :=
  let v := if SFltb hi v then hi else v in if SFltb v zero then zero else v.
(** [base] moved towards [target], by [step] at most. *)
Definition slew (base target step : f64) : f64 :=
  let next := fadd base (fmul (decimal 4 10) (fsub target base)) in
  let diff := fsub next base in
  if SFltb step diff then fadd base step else if SFltb diff (SFopp step) then fsub base step else next.
Definition next_setpoints (pTarget r vCmd iLim : f64) : option (f64 * f64) :=
  let vTarget := clamp (SFsqrt 53 1024 (fmul pTarget r)) (of_int 80) in
  let iTarget := clamp (SFsqrt 53 1024 (fdiv pTarget r)) (of_int 25) in
  if is_nan vTarget || is_nan iTarget then None
  else
    let headroom := fmul iTarget (decimal 12 10) in
    let headroom := if SFltb (of_int 25) headroom then of_int 25 else headroom in
    Some (slew vCmd vTarget (of_int 5), slew iLim headroom (of_int 2)).

Definition recordPowerControlWriteActivity (deviceID : string) (instance paramID : Z) (value : f64) (err : res ()) s : power_server :=
  let '(name, unit) := match gatewayParameterByID catalogue_parameters paramID with Some p => (Name p, Unit p) | None => ("", "")%string end in
  let '(status, e, category, http) :=
    match err with
    | Ok _ => (StatusText "completed", None, ""%string, 200)
    | Err e => (StatusText "failed", Some e, gatewayCommandErrorCategory (Some e), 502)
    end in
  MkPowerServer
    (recordCommandActivity (pw_gateway s)
       (MkActivity deviceID paramID instance name unit (Some (ArgFloat64 value)) None None None status "mecom"
          "third-party-power-control" e category http ""))
    (pw_graph s) (pw_histories s).

(** One of the two writes; what was sent is kept under [kept]. *)
Definition write_setpoint (writer : WriteClient C) (deviceID : string) (instance paramID kept : Z) (value : f64)
    (w : C * power_server) : C * power_server * res () :=
  let '(client, s) := w in
  let '(client, err) := wc_WriteFloat32 writer paramID instance (to_f32 value) client in
  let s := recordPowerControlWriteActivity deviceID instance paramID value err s in
  (client, match err with Ok _ => vset deviceID kept instance value s | Err _ => s end, err).
Definition reset_binding (deviceID : string) (cause : error) (w : C * power_server) : C * power_server :=
  (Close w.1, MkPowerServer (resetDeviceBinding (pw_gateway w.2) deviceID cause) (pw_graph w.2)
                (<[deviceID := new_power_history]> (pw_histories w.2))).

Definition write_setpoints (now : Z) (writer : WriteClient C) (deviceID : string) (instance : Z) (vNext iNext : f64)
    (w : C * power_server) : C * power_server :=
  let '(w, errV) := write_setpoint writer deviceID instance 2021 2041 vNext w in
  let '(w, errI) := write_setpoint writer deviceID instance 2030 2042 iNext w in
  match errV, errI with
  | Ok _, Ok _ => w
  | _, _ =>
      let w := (w.1, setPowerControlStatus now deviceID instance (of_int 2) w.2) in
      match errV, errI with
      | Err e, _ => if shouldResetDeviceBinding e then reset_binding deviceID e w
                    else match errI with
                         | Err e => if shouldResetDeviceBinding e then reset_binding deviceID e w else w
                         | Ok _ => w
                         end
      | Ok _, Err e => if shouldResetDeviceBinding e then reset_binding deviceID e w else w
      | Ok _, Ok _ => w
      end
  end.

Definition runChannelPowerControl (now : Z) (writer : WriteClient C) (deviceID : string) (instance : Z)
    (h : list powerControlSample) (w : C * power_server) : C * power_server :=
  let '(client, s) := w in
  let pTarget := vget s deviceID 2035 instance zero in
  let '(client, measured) := measure instance h client in
  match measured with
  | None => (client, s)
  | Some (vMeas, iMeas) =>
      let '(client, setpoints) := read_setpoints instance client in
      match setpoints with
      | None => (client, s)
      | Some (errorNumber, outEnable, vCmd, iLim) =>
          if negb (feq errorNumber zero) then
            (client, stand_by now deviceID instance (of_int 2) (vset deviceID 2035 instance zero s))
          else if negb (feq outEnable (of_int 1)) || SFltb iMeas (decimal 5 100) then
            (client, stand_by now deviceID instance zero s)
          else
            let '(s, (rCandidate, nonOhmicCount, bad)) := track_resistance now deviceID instance (fdiv vMeas iMeas) s in
            if SFleb pTarget zero then (client, setPowerControlStatus now deviceID instance zero s)
            else if 3 <=? nonOhmicCount then (client, setPowerControlStatus now deviceID instance (of_int 2) s)
            else if bad then (client, setPowerControlStatus now deviceID instance (of_int 1) s)
            else
              let s := setPowerControlStatus now deviceID instance (of_int 1) s in
              match next_setpoints pTarget rCandidate vCmd iLim with
              | None => (client, s)
              | Some (vNext, iNext) => write_setpoints now writer deviceID instance vNext iNext (client, s)
              end
      end
  end.

(** ** One tick of a device *)
(** The supply channels of a device, one after the other. *)
Definition supply_channels (cfg : DeviceConfig) : list Z :=
  filter (λ inst, (effectiveDeviceChannelRole cfg inst).1 = str "supply") (seqZ 1 (dc_ChannelCount cfg)).
Definition runDevicePowerControl (now : Z) (connect : Endpoint → res C) (cfg : DeviceConfig) (s : power_server) : option C * power_server :=
  if negb (dc_PowerControlEnabled cfg) then (None, s)
  else
    let '(g, bound) := bind_device connect (dc_ID cfg) (pw_gateway s) in
    let s := MkPowerServer g (pw_graph s) (pw_histories s) in
    let history := ph_powerHistory (default new_power_history (pw_histories s !! dc_ID cfg)) in
    match bound, dc_WriteClient with
    | Ok client, Some writer =>
        let '(client, s) := fold_left (λ w inst, runChannelPowerControl now writer (dc_ID cfg) inst (default [] (history !! inst)) w)
                              (supply_channels cfg) (client, s) in
        (Some client, MkPowerServer (put_client (pw_gateway s) (dc_ID cfg) client) (pw_graph s) (pw_histories s))
    | Ok client, None => (Some client, s)
    | Err _, _ => (None, s)
    end.
End power.
Arguments power_server : clear implicits.
Arguments MkPowerServer {C P}. Arguments pw_gateway {C P}. Arguments pw_graph {C P}.
Arguments pw_histories {C P}.

(** ** Which virtual parameters a step changes *)
Section virtual.
Context {C P : Type} `{Pyramid P}.
Implicit Types (s : power_server C P).

(** A channel whose number fits an [int], as the parameters do. *)
Definition in_int (z : Z) : Prop := 0 ≤ z < 2 ^ 63.

Lemma virtual_key_inj d p i d' p' i' : in_int p → in_int i → in_int p' → in_int i' →
  virtual_key d p i = virtual_key d' p' i' → d = d' ∧ p = p' ∧ i = i'.
Proof.
  intros ???? E. destruct (graphKey_inj (str d) p i (str d') p' i') as (Hd & -> & ->); [done..|].
  split_and!; [|done..]. apply (f_equal String.string_of_list_byte) in Hd. unfold str in Hd.
  by rewrite !String.string_of_list_byte_of_string in Hd.
Qed.

Lemma vget_vset d p i v s def : vget (vset d p i v s) d p i def = v.
Proof. unfold vget, vset, getVirtualParam, setVirtualParam. simpl. by rewrite lookup_insert_eq. Qed.
Lemma vget_record now d p i v s d' p' i' def : vget (record_point now d p i v s) d' p' i' def = vget s d' p' i' def.
Proof. done. Qed.

(** From [s] to [s'] only parameters [ps] of one channel have changed. *)
Definition changes (ps : list Z) (d : string) (inst : Z) s s' : Prop := ∀ d' p i def, in_int p → in_int i →
  ¬ (d' = d ∧ i = inst ∧ p ∈ ps) → vget s' d' p i def = vget s d' p i def.

Lemma changes_refl ps d inst s : changes ps d inst s s.
Proof. by intros d' p i def _ _ _. Qed.
Lemma changes_trans ps ps' d inst s1 s2 s3 : changes ps d inst s1 s2 → changes ps' d inst s2 s3 → changes (ps ++ ps') d inst s1 s3.
Proof.
  intros H12 H23 d' p i def Hp Hi Hn. rewrite H23, H12; try done; set_solver.
Qed.
Lemma changes_mono ps ps' d inst s s' : changes ps d inst s s' → ps ⊆ ps' → changes ps' d inst s s'.
Proof. intros Hc Hs d' p i def Hp Hi Hn. apply Hc; [done..|]. intros (? & ? & ?). apply Hn. auto. Qed.
Lemma changes_vset d p inst v s : in_int p → in_int inst → changes [p] d inst s (vset d p inst v s).
Proof.
  intros Hp Hi d' p' i' def Hp' Hi' Hn. unfold vget, vset, getVirtualParam, setVirtualParam. simpl.
  rewrite lookup_insert_ne; [done|]. intros (-> & -> & ->)%virtual_key_inj; [|done..]. apply Hn. set_solver.
Qed.
Lemma changes_record ps now d p inst v d' inst' s : changes ps d' inst' s (record_point now d p inst v s).
Proof. by intros ???????. Qed.
Lemma changes_status now d inst v s : in_int inst → changes [2038] d inst s (setPowerControlStatus now d inst v s).
Proof. intros Hi. eapply (changes_trans [2038] []); [by apply changes_vset|apply changes_record]. Qed.
End virtual.

(** ** What a tick does *)
Section tick.
Context {C : Type} `{DeviceClient C} {P : Type} `{Pyramid P}.
Context (catalogue_parameters : list Param) (Close : C → C) (writer : WriteClient C).
(** What can be seen of a channel of the device; reads and closing do not change
    it, and a write only changes its own channel. *)
Context {D : Type} (device : C → Z → D).
Hypothesis reads_preserve : ∀ ps c i, device (rd_ReadBulk ps c).1 i = device c i.
Hypothesis close_preserve : ∀ c i, device (Close c) i = device c i.
Hypothesis writes_local : ∀ p j v c i, i ≠ j → device (wc_WriteFloat32 writer p j v c).1 i = device c i.
Implicit Types (s : power_server C P).

(** What a tick reads: voltage, current, error number, output switch and
    the setpoints. *)
Definition readings (inst : Z) (h : list powerControlSample) (c : C) : C * option (f64 * f64 * (f64 * f64 * f64 * f64)) :=
  let '(c, m) := measure inst h c in
  match m with
  | None => (c, None)
  | Some vi => let '(c, sp) := read_setpoints inst c in (c, match sp with Some sp => Some (vi, sp) | None => None end)
  end.
Lemma readings_device inst h c i : device (readings inst h c).1 i = device c i.
Proof using reads_preserve.
  unfold readings, measure, read_setpoints.
  assert (Hr : ∀ ps c c' vs, rd_ReadBulk ps c = (c', vs) → device c' i = device c i).
  { intros ps c0 c' vs E. rewrite <-(reads_preserve ps c0 i), E. done. }
  destruct (smoothSamples h).
  - destruct (rd_ReadBulk _ c) as [c1 vs] eqn:E1. simpl. by eapply Hr.
  - destruct (rd_ReadBulk _ c) as [c1 vs] eqn:E1. apply Hr in E1.
    destruct (match vs with Ok [v; i0] => Some (v, i0) | _ => None end); [|done].
    destruct (rd_ReadBulk _ c1) as [c2 vs'] eqn:E2. apply Hr in E2. simpl. congruence.
Qed.

(** The tick, from its readings. *)
Definition tick_on (now : Z) (d : string) (inst : Z) (r : f64 * f64 * (f64 * f64 * f64 * f64)) (w : C * power_server C P) : C * power_server C P :=
  let '(c, s) := w in
  let '((v, i), (e, o, vCmd, iLim)) := r in
  let pTarget := vget s d 2035 inst zero in
  if negb (feq e zero) then (c, stand_by now d inst (of_int 2) (vset d 2035 inst zero s))
  else if negb (feq o (of_int 1)) || SFltb i (decimal 5 100) then (c, stand_by now d inst zero s)
  else
    let '(s, (rc, n, bad)) := track_resistance now d inst (fdiv v i) s in
    if SFleb pTarget zero then (c, setPowerControlStatus now d inst zero s)
    else if 3 <=? n then (c, setPowerControlStatus now d inst (of_int 2) s)
    else if bad then (c, setPowerControlStatus now d inst (of_int 1) s)
    else
      let s := setPowerControlStatus now d inst (of_int 1) s in
      match next_setpoints pTarget rc vCmd iLim with
      | None => (c, s)
      | Some (vNext, iNext) => write_setpoints catalogue_parameters Close now writer d inst vNext iNext (c, s)
      end.
Definition tick (now : Z) (d : string) (inst : Z) (h : list powerControlSample) (w : C * power_server C P) : C * power_server C P :=
  runChannelPowerControl catalogue_parameters Close now writer d inst h w.
Lemma tick_readings now d inst h c s :
  tick now d inst h (c, s) =
  match readings inst h c with (c', Some r) => tick_on now d inst r (c', s) | (c', None) => (c', s) end.
Proof.
  unfold tick, runChannelPowerControl, readings. destruct (measure inst h c) as [c1 [[v i]|]]; [|done].
  destruct (read_setpoints inst c1) as [c2 [[[[e o] vc] il]|]]; done.
Qed.

Lemma write_setpoint_spec d inst p kept v c s : in_int kept → in_int inst →
  let '(w, _) := write_setpoint catalogue_parameters writer d inst p kept v (c, s) in
  (∀ i, i ≠ inst → device w.1 i = device c i) ∧ changes [kept] d inst s w.2.
Proof using writes_local.
  intros Hk Hi. unfold write_setpoint. pose proof (writes_local p inst (to_f32 v) c) as Hw.
  destruct (wc_WriteFloat32 writer p inst (to_f32 v) c) as [c' r]. simpl in *. split; [done|].
  set (s1 := recordPowerControlWriteActivity _ _ _ _ _ _ _).
  assert (Hs : ∀ ps, changes ps d inst s s1) by (unfold s1, recordPowerControlWriteActivity; intros ps ? p' ? def' ???; by repeat case_match).
  destruct r; [|apply Hs]. apply (changes_trans [] [kept] _ _ _ s1); [apply Hs|by apply changes_vset].
Qed.

Lemma write_setpoints_spec now d inst vN iN c s : in_int inst →
  let w := write_setpoints catalogue_parameters Close now writer d inst vN iN (c, s) in
  (∀ i, i ≠ inst → device w.1 i = device c i) ∧ changes [2041; 2042; 2038] d inst s w.2.
Proof using reads_preserve writes_local close_preserve.
  intros Hi. unfold write_setpoints.
  pose proof (write_setpoint_spec d inst 2021 2041 vN c s ltac:(done) Hi) as H1.
  destruct (write_setpoint _ _ _ _ _ _ _ _) as [[c1 s1] r1].
  pose proof (write_setpoint_spec d inst 2030 2042 iN c1 s1 ltac:(done) Hi) as H2.
  destruct (write_setpoint _ _ _ _ _ _ _ _) as [[c2 s2] r2]. simpl in *.
  destruct H1 as [Hd1 Hc1], H2 as [Hd2 Hc2].
  assert (Hd : ∀ i, i ≠ inst → device c2 i = device c i) by (intros i Hne; rewrite Hd2, Hd1 by done; done).
  assert (Hc : changes [2041; 2042] d inst s s2) by exact (changes_trans [2041] [2042] _ _ _ _ _ Hc1 Hc2).
  assert (Hst : changes [2041; 2042; 2038] d inst s (setPowerControlStatus now d inst (of_int 2) s2))
    by exact (changes_trans [2041; 2042] [2038] _ _ _ _ _ Hc (changes_status _ _ _ _ _ Hi)).
  assert (Hreset : ∀ e, let w := reset_binding Close d e (c2, setPowerControlStatus now d inst (of_int 2) s2) in
    (∀ i, i ≠ inst → device w.1 i = device c i) ∧ changes [2041; 2042; 2038] d inst s w.2).
  { intros e. simpl. split; [intros i Hne; rewrite close_preserve; by apply Hd|].
    intros d' p i def Hp Hin Hn. rewrite <-(Hst d' p i def) by done. unfold vget, getVirtualParam. simpl. by rewrite virtual_reset. }
  destruct r1 as [|e1], r2 as [|e2].
  - split; [done|]. eapply changes_mono; [exact Hc|set_solver].
  - destruct (shouldResetDeviceBinding e2); [apply Hreset|by split].
  - destruct (shouldResetDeviceBinding e1); [apply Hreset|by split].
  - destruct (shouldResetDeviceBinding e1); [apply Hreset|]. destruct (shouldResetDeviceBinding e2); [apply Hreset|by split].
Qed.

Lemma stand_by_spec now d inst st s : in_int inst →
  changes [2036; 2038; 2043] d inst s (stand_by now d inst st s) ∧
  (∀ def, vget (stand_by now d inst st s) d 2043 inst def = zero).
Proof.
  intros Hi. split; [|intros def; apply vget_vset]. unfold stand_by.
  eapply (changes_trans [2036] [2038; 2043]); [by apply changes_vset|].
  eapply (changes_trans [] [2038; 2043]); [apply changes_record|].
  eapply (changes_trans [2038] [2043]); [by apply changes_status|by apply changes_vset].
Qed.

Lemma track_resistance_spec now d inst r s : in_int inst →
  let '(s', (rc, n, bad)) := track_resistance now d inst r s in
  let prev := vget s d 2037 inst zero in
  bad = non_ohmic r prev ∧ rc = filtered_resistance r prev ∧
  n = (if bad then int_of_float (vget s d 2043 inst zero) + 1 else 0) ∧
  changes [2043; 2036; 2037] d inst s s' ∧ (∀ def, vget s' d 2043 inst def = of_int n) ∧
  (bad = true → vget s' d 2037 inst zero = prev).
Proof.
  intros Hi. unfold track_resistance. set (prev := vget s d 2037 inst zero).
  assert (Hk : ∀ p, 0 ≤ p < 2 ^ 63 → in_int p) by done.
  destruct (non_ohmic r prev); (split_and!; [done..| | |]).
  - eapply (changes_trans [2043] [2036; 2037]); [by apply changes_vset|].
    eapply (changes_trans [2036] [2037]); [by apply changes_vset|apply changes_record].
  - intros def. rewrite vget_record, (changes_vset d 2036 inst _ _ ltac:(done) Hi d 2043 inst) by (done || set_solver).
    apply vget_vset.
  - intros _. rewrite vget_record, (changes_vset d 2036 inst _ _ ltac:(done) Hi d 2037 inst) by (done || set_solver).
    by rewrite (changes_vset d 2043 inst _ _ ltac:(done) Hi d 2037 inst) by (done || set_solver).
  - eapply (changes_trans [2043] [2036; 2037]); [by apply changes_vset|].
    eapply (changes_trans [2036] [2037]); [by apply changes_vset|].
    eapply (changes_trans [] [2037]); [apply changes_record|by apply changes_vset].
  - intros def. rewrite (changes_vset d 2037 inst _ _ ltac:(done) Hi d 2043 inst) by (done || set_solver).
    rewrite vget_record, (changes_vset d 2036 inst _ _ ltac:(done) Hi d 2043 inst) by (done || set_solver).
    rewrite vget_vset. done.
  - done.
Qed.

Definition tick_params : list Z := [2043; 2036; 2037; 2038; 2041; 2042].
Definition reports_error (r : f64 * f64 * (f64 * f64 * f64 * f64)) : bool := let '(_, (e, _, _, _)) := r in negb (feq e zero).

Lemma tick_on_spec now d inst r c s : in_int inst →
  let w := tick_on now d inst r (c, s) in
  (∀ i, i ≠ inst → device w.1 i = device c i) ∧
  (SFleb (vget s d 2035 inst zero) zero = true → w.1 = c) ∧
  if reports_error r then w.1 = c ∧ changes (2035 :: tick_params) d inst s w.2 ∧ ∀ def, vget w.2 d 2035 inst def = zero
  else changes tick_params d inst s w.2.
Proof using reads_preserve writes_local close_preserve.
  intros Hi. destruct r as [[v i] [[[e o] vCmd] iLim]]. unfold tick_on, reports_error.
  destruct (negb (feq e zero)).
  { pose proof (stand_by_spec now d inst (of_int 2) (vset d 2035 inst zero s) Hi) as [Hc _]. simpl. split_and!; try done.
    - eapply changes_mono; [eapply (changes_trans [2035] [2036; 2038; 2043]); [by apply changes_vset|exact Hc]|set_solver].
    - intros def. rewrite Hc by (done || set_solver). apply vget_vset. }
  destruct (negb (feq o (of_int 1)) || SFltb i (decimal 5 100)).
  { pose proof (stand_by_spec now d inst zero s Hi) as [Hc _]. split_and!; try done.
    eapply changes_mono; [exact Hc|unfold tick_params; set_solver]. }
  pose proof (track_resistance_spec now d inst (fdiv v i) s Hi) as Ht.
  destruct (track_resistance _ _ _ _ s) as [s1 [[rc n] bad]]. destruct Ht as (_ & _ & _ & Hc & _).
  assert (Hst : ∀ v, changes tick_params d inst s (setPowerControlStatus now d inst v s1)).
  { intros v0. eapply changes_mono; [eapply (changes_trans _ [2038]); [exact Hc|by apply changes_status]|unfold tick_params; set_solver]. }
  destruct (SFleb _ zero); [split_and!; try done; apply Hst|].
  destruct (3 <=? n); [split_and!; try done; apply Hst|]. destruct bad; [split_and!; try done; apply Hst|].
  destruct (next_setpoints _ _ _ _) as [[vN iN]|]; [|split_and!; try done; apply Hst].
  pose proof (write_setpoints_spec now d inst vN iN c (setPowerControlStatus now d inst (of_int 1) s1) Hi) as [Hd Hw].
  split_and!; [done|done|]. eapply changes_mono; [eapply changes_trans; [apply (Hst (of_int 1))|exact Hw]|unfold tick_params; set_solver].
Qed.

(** *** Counting *)
Lemma is_inf_of_int z : - 2 ^ 53 < z < 2 ^ 53 → is_inf (of_int z) = false.
Proof.
  intros Hz. pose proof (of_int_to_int z Hz) as Hi. destruct (of_int z) as [| | |] eqn:E; try done.
  simpl in Hi. subst z. vm_compute in E. done.
Qed.
Lemma int_of_float_of_int z : 0 ≤ z < 2 ^ 53 → int_of_float (of_int z) = z.
Proof.
  intros Hz. unfold int_of_float. rewrite of_int_not_nan, is_inf_of_int by lia. unfold int64_of_float.
  rewrite of_int_to_int by lia. unfold minInt, maxInt. destruct (Z.leb_spec (- 2 ^ 63) z), (Z.leb_spec z (2 ^ 63 - 1)); (done || lia).
Qed.

(** A sample that does not look like a resistance, given the last estimate. *)
Definition implausible (prev : f64) (r : f64 * f64 * (f64 * f64 * f64 * f64)) : Prop :=
  let '((v, i), (e, o, _, _)) := r in
  feq e zero = true ∧ feq o (of_int 1) = true ∧ SFltb i (decimal 5 100) = false ∧ non_ohmic (fdiv v i) prev = true.
Definition grace_status (target : f64) (k : Z) : f64 := if SFleb target zero then zero else if 3 <=? k then of_int 2 else of_int 1.

Lemma tick_on_implausible now d inst r c s k : in_int inst → implausible (vget s d 2037 inst zero) r →
  0 ≤ k < 2 ^ 53 - 1 → vget s d 2043 inst zero = of_int k →
  let w := tick_on now d inst r (c, s) in
  w.1 = c ∧ changes [2043; 2036; 2037; 2038] d inst s w.2 ∧ vget w.2 d 2043 inst zero = of_int (k + 1) ∧
  vget w.2 d 2037 inst zero = vget s d 2037 inst zero ∧
  vget w.2 d 2038 inst zero = grace_status (vget s d 2035 inst zero) (k + 1).
Proof.
  intros Hi Himp Hk Hcount. destruct r as [[v i] [[[e o] vCmd] iLim]]. destruct Himp as (He & Ho & Hcur & Hbad).
  unfold tick_on. rewrite He, Ho, Hcur. cbn [negb orb].
  pose proof (track_resistance_spec now d inst (fdiv v i) s Hi) as Ht.
  destruct (track_resistance _ _ _ _ s) as [s1 [[rc n] bad]]. cbv zeta in Ht. rewrite Hbad, Hcount, int_of_float_of_int in Ht by lia.
  destruct Ht as (-> & _ & -> & Hc & Hn & Hprev).
  assert (Hst : ∀ st, changes [2043; 2036; 2037; 2038] d inst s (setPowerControlStatus now d inst st s1) ∧
    vget (setPowerControlStatus now d inst st s1) d 2043 inst zero = of_int (k + 1) ∧
    vget (setPowerControlStatus now d inst st s1) d 2037 inst zero = vget s d 2037 inst zero ∧
    vget (setPowerControlStatus now d inst st s1) d 2038 inst zero = st).
  { intros st. split_and!.
    - exact (changes_trans _ [2038] _ _ _ _ _ Hc (changes_status _ _ _ _ _ Hi)).
    - rewrite (changes_status now d inst st s1 Hi d 2043 inst) by (done || set_solver). apply Hn.
    - rewrite (changes_status now d inst st s1 Hi d 2037 inst) by (done || set_solver). by apply Hprev.
    - unfold setPowerControlStatus. rewrite vget_record. apply vget_vset. }
  unfold grace_status. destruct (SFleb _ zero); [split; [done|apply Hst]|].
  destruct (3 <=? k + 1); (split; [done|apply Hst]).
Qed.

(** ** Runs *)
(** A tick of a channel of the device, and a new target of a channel. *)
Inductive power_event : Type :=
  | Tick (now inst : Z) (h : list powerControlSample)
  | Target (d : string) (inst : Z) (v : f64).
Definition event_channel (e : power_event) : Z := match e with Tick _ i _ => i | Target _ i _ => i end.
Definition run_event (d : string) (w : C * power_server C P) (e : power_event) : C * power_server C P :=
  match e with Tick now inst h => tick now d inst h w | Target d' inst v => (w.1, vset d' 2035 inst v w.2) end.
Definition targets (d : string) (inst : Z) (e : power_event) : Prop :=
  match e with Target d' i _ => d' = d ∧ i = inst | Tick _ _ _ => False end.

(** An event of another channel leaves a channel alone. *)
Lemma other_event d inst e c s : in_int inst → in_int (event_channel e) →
  match e with Tick _ i _ => i ≠ inst | Target d' i _ => ¬ (d' = d ∧ i = inst) end →
  let w := run_event d (c, s) e in
  device w.1 inst = device c inst ∧ ∀ p def, in_int p → vget w.2 d p inst def = vget s d p inst def.
Proof using reads_preserve writes_local close_preserve.
  intros Hi He Hother. destruct e as [now i h|d' i v]; cbn [run_event event_channel] in *.
  - rewrite tick_readings. pose proof (readings_device i h c inst) as Hr. destruct (readings i h c) as [c1 [r|]]; [|done].
    pose proof (tick_on_spec now d i r c1 s He) as (Hd & _ & Hc). simpl in Hr. split; [rewrite Hd by done; done|].
    intros p def Hp. destruct (reports_error r); [destruct Hc as (_ & Hc & _)|]; apply Hc; try done; naive_solver.
  - split; [done|]. intros p def Hp. apply (changes_vset d' 2035 i v s); [done..|]. set_solver.
Qed.

Lemma idle_event d inst e c s : in_int inst → in_int (event_channel e) → ¬ targets d inst e →
  vget s d 2035 inst zero = zero →
  let w := run_event d (c, s) e in device w.1 inst = device c inst ∧ vget w.2 d 2035 inst zero = zero.
Proof using reads_preserve writes_local close_preserve.
  intros Hi He Hn Hz.
  assert (Hother : match e with Tick _ i _ => i ≠ inst | Target d' i _ => ¬ (d' = d ∧ i = inst) end →
    let w := run_event d (c, s) e in device w.1 inst = device c inst ∧ vget w.2 d 2035 inst zero = zero).
  { intros Ho. destruct (other_event d inst e c s Hi He Ho) as [Hd Hv]. split; [done|]. by rewrite Hv. }
  destruct e as [now i h|d' i v]; [|by apply Hother]. destruct (decide (i = inst)) as [->|Hne]; [|by apply Hother].
  cbn [run_event]. rewrite tick_readings. pose proof (readings_device inst h c inst) as Hr.
  destruct (readings inst h c) as [c1 [r|]]; [|done]. simpl in Hr.
  pose proof (tick_on_spec now d inst r c1 s Hi) as (_ & Hidle & Hc). rewrite Hz in Hidle.
  cbv zeta in *. split; [by rewrite Hidle|]. destruct (reports_error r); [apply Hc|].
  rewrite Hc; [done..|]. intros (_ & _ & Hin). exact (bool_decide_eq_false_1 (2035 ∈ tick_params) eq_refl Hin).
Qed.

(** C5: a device error switches the power control of a channel off until somebody
    switches it on again.  If a tick reads an error number other than zero, nothing
    is written to the channel by that tick or any later one, and its target stays
    zero, whatever the device reads later, whatever ticks and new targets its other
    channels get in between and new targets other devices, and however writes to those
    channels end, until the channel is given a new target. *)
Theorem error_stops_channel (now : Z) (d : string) (inst : Z) (h : list powerControlSample) (c : C) (s : power_server C P)
    (es : list power_event) : in_int inst → Forall (λ e, in_int (event_channel e)) es →
  (∃ r, (readings inst h c).2 = Some r ∧ reports_error r = true) → Forall (λ e, ¬ targets d inst e) es →
  let w := fold_left (run_event d) es (tick now d inst h (c, s)) in
  device w.1 inst = device c inst ∧ vget w.2 d 2035 inst zero = zero.
Proof using reads_preserve writes_local close_preserve.
  intros Hi Hes (r & Hr & Herr) Hn.
  assert (Hstart : let w := tick now d inst h (c, s) in device w.1 inst = device c inst ∧ vget w.2 d 2035 inst zero = zero).
  { rewrite tick_readings. pose proof (readings_device inst h c inst) as Hdev.
    destruct (readings inst h c) as [c1 o]. simpl in Hr, Hdev. subst o.
    pose proof (tick_on_spec now d inst r c1 s Hi) as (_ & _ & Hc). rewrite Herr in Hc. destruct Hc as (Hc1 & _ & Hz).
    cbv zeta. by rewrite Hc1, Hz. }
  revert Hstart. generalize (tick now d inst h (c, s)) as w. induction es as [|e es IH]; intros [c1 s1] [H1 H2]; [done|].
  apply Forall_cons in Hes as [He Hes], Hn as [Hne Hn]. cbn [fold_left]. apply IH; [done..|].
  destruct (idle_event d inst e c1 s1 Hi He Hne H2) as [H1' H2']. split; [by rewrite H1'|done].
Qed.

(** The ticks of a channel in a run. *)
Fixpoint ticks_of (inst : Z) (es : list power_event) : Z :=
  match es with
  | [] => 0
  | Tick _ i _ :: es => (if decide (i = inst) then 1 else 0) + ticks_of inst es
  | Target _ _ _ :: es => ticks_of inst es
  end.
Lemma ticks_of_nonneg inst es : 0 ≤ ticks_of inst es.
Proof. induction es as [|[] es IH]; cbn [ticks_of]; [lia| |done]. case_decide; lia. Qed.
(** Every tick of the channel reads something that is not a plausible resistance. *)
Fixpoint all_implausible (d : string) (inst : Z) (prev : f64) (es : list power_event) (w : C * power_server C P) : Prop :=
  match es with
  | [] => True
  | e :: es =>
      match e with
      | Tick _ i h => i = inst → ∃ r, (readings inst h w.1).2 = Some r ∧ implausible prev r
      | Target _ _ _ => True
      end ∧ all_implausible d inst prev es (run_event d w e)
  end.

Lemma implausible_run d inst k es c s : in_int inst → Forall (λ e, in_int (event_channel e) ∧ ¬ targets d inst e) es →
  0 ≤ k → k + ticks_of inst es < 2 ^ 53 → vget s d 2043 inst zero = of_int k →
  (k = 0 ∨ vget s d 2038 inst zero = grace_status (vget s d 2035 inst zero) k) →
  all_implausible d inst (vget s d 2037 inst zero) es (c, s) →
  let w := fold_left (run_event d) es (c, s) in
  device w.1 inst = device c inst ∧ vget w.2 d 2043 inst zero = of_int (k + ticks_of inst es) ∧
  vget w.2 d 2037 inst zero = vget s d 2037 inst zero ∧
  (k + ticks_of inst es = 0 ∨ vget w.2 d 2038 inst zero = grace_status (vget s d 2035 inst zero) (k + ticks_of inst es)).
Proof using reads_preserve writes_local close_preserve.
  intros Hi Hes. revert k c s. induction Hes as [|e es [He Hn] Hes IH]; intros k c s Hk Hmax Hcount Hst Himp.
  { cbn [ticks_of] in *. by rewrite Z.add_0_r. }
  destruct Himp as [Himp1 Himp]. cbn [fold_left].
  assert (Hpos : 0 ≤ ticks_of inst es) by apply ticks_of_nonneg.
  assert (Hother : match e with Tick _ i _ => i ≠ inst | Target d' i _ => ¬ (d' = d ∧ i = inst) end →
    let w := fold_left (run_event d) es (run_event d (c, s) e) in
    device w.1 inst = device c inst ∧ vget w.2 d 2043 inst zero = of_int (k + ticks_of inst (e :: es)) ∧
    vget w.2 d 2037 inst zero = vget s d 2037 inst zero ∧
    (k + ticks_of inst (e :: es) = 0 ∨ vget w.2 d 2038 inst zero = grace_status (vget s d 2035 inst zero) (k + ticks_of inst (e :: es)))).
  { intros Ho. assert (Hsame : ticks_of inst (e :: es) = ticks_of inst es) by (destruct e; cbn [ticks_of]; [by rewrite decide_False|done]).
    rewrite Hsame in *. destruct (other_event d inst e c s Hi He Ho) as [Hd Hv]. destruct (run_event d (c, s) e) as [c1 s1].
    simpl in Hd, Hv. specialize (IH k c1 s1). rewrite !Hv in IH by done. rewrite Hd in IH. by apply IH. }
  destruct e as [now i h|d' i v]; [|by apply Hother]. destruct (decide (i = inst)) as [->|Hne]; [|by apply Hother].
  destruct (Himp1 eq_refl) as (r & Hr & Hr'). cbn [ticks_of] in *. rewrite decide_True in * by done.
  cbn [run_event] in *. rewrite tick_readings in *. pose proof (readings_device inst h c inst) as Hdev.
  simpl in Hr. destruct (readings inst h c) as [c1 o]. simpl in Hr, Hdev. subst o.
  pose proof (tick_on_implausible now d inst r c1 s k Hi Hr' ltac:(lia) Hcount) as (Hc & Hch & H43 & H37 & H38).
  destruct (tick_on now d inst r (c1, s)) as [c2 s2]. simpl in Hc, Hch, H43, H37, H38. subst c2.
  assert (H35 : vget s2 d 2035 inst zero = vget s d 2035 inst zero) by (apply Hch; [done..|set_solver]).
  specialize (IH (k + 1) c1 s2). rewrite H35, H37 in IH. rewrite Hdev in IH. rewrite Z.add_assoc. apply IH; try done; try lia.
  by right.
Qed.

(** Samples that do not look like a resistance are tolerated three times.  From a
    state in which none is counted, let every tick of a channel read one, and
    let any other channels and devices have ticks and targets in between.  Then
    nothing is written to the channel and its estimate of the resistance is kept;
    the count is the number of these ticks, and the status says active for the
    first two, and fallback from the third one on, or standby without a target. *)
Theorem implausible_samples_counted (d : string) (inst : Z) (es : list power_event) (c : C) (s : power_server C P) :
  in_int inst → Forall (λ e, in_int (event_channel e) ∧ ¬ targets d inst e) es →
  0 < ticks_of inst es < 2 ^ 53 → vget s d 2043 inst zero = zero →
  all_implausible d inst (vget s d 2037 inst zero) es (c, s) →
  let w := fold_left (run_event d) es (c, s) in
  device w.1 inst = device c inst ∧ vget w.2 d 2037 inst zero = vget s d 2037 inst zero ∧
  vget w.2 d 2043 inst zero = of_int (ticks_of inst es) ∧
  vget w.2 d 2038 inst zero =
    (if SFleb (vget s d 2035 inst zero) zero then zero
     else if ticks_of inst es <? 3 then of_int 1 else of_int 2).
Proof using reads_preserve writes_local close_preserve.
  intros Hi Hes Hn Hz Himp. destruct (implausible_run d inst 0 es c s Hi Hes) as (H1 & H2 & H3 & H4);
    [lia|lia|exact Hz|by left|exact Himp|].
  split_and!; [done..|]. destruct H4 as [|H4]; [lia|]. etransitivity; [exact H4|]. unfold grace_status. rewrite Z.add_0_l.
  destruct (SFleb _ zero); [done|]. destruct (Z.leb_spec 3 (ticks_of inst es)), (Z.ltb_spec (ticks_of inst es) 3); (done || lia).
Qed.
End tick.

(** ** Samples are pairs *)
Section pairs.
Context {P : Type} `{Pyramid P}.
Context (config : list RingCaptureParameter) (deviceID : bytes).

(** Parameter, instance, value and time of a sample of the configured ring. *)
Definition ring_point (r : Z * RingSample) : option (Z * Z * f64 * Z) :=
  let '(now, sample) := r in
  if ConfigIndex sample <? 0 then None
  else p ← config !! Z.to_nat (ConfigIndex sample);
    Some (ID (rcp_Parameter p), Inst (rcp_Parameter p), Value sample, if At sample =? 0 then now else At sample).
Definition receive_run (rs : list (Z * RingSample)) (w : power_history * graphStore P) : power_history * graphStore P :=
  fold_left (λ w r, receive_ring_sample config deviceID r.1 r.2 w) rs w.

Definition paired (points : list (Z * Z * f64 * Z)) (inst : Z) (p : powerControlSample) : Prop :=
  ∃ tv ti, (1021, inst, pc_v p, tv) ∈ points ∧ (1020, inst, pc_i p, ti) ∈ points ∧ Z.abs (tv - ti) < 100 * Millisecond.
Record paired_history (points : list (Z * Z * f64 * Z)) (b : power_history) : Prop := {
  pd_history : ∀ inst h, ph_powerHistory b !! inst = Some h → (length h ≤ 5)%nat ∧ Forall (paired points inst) h;
  pd_voltage : ∀ inst t, ph_latestVTime b !! inst = Some t → ∃ v, ph_latestV b !! inst = Some v ∧ (1021, inst, v, t) ∈ points;
  pd_current : ∀ inst t, ph_latestITime b !! inst = Some t → ∃ i, ph_latestI b !! inst = Some i ∧ (1020, inst, i, t) ∈ points }.

Lemma paired_mono points points' inst p : points ⊆ points' → paired points inst p → paired points' inst p.
Proof. intros Hs (tv & ti & ? & ? & ?). exists tv, ti. auto. Qed.

Lemma paired_history_mono points points' b : points ⊆ points' → paired_history points b → paired_history points' b.
Proof.
  intros Hs [Hh Hv Hi]. split.
  - intros inst h Hl. destruct (Hh inst h Hl) as [? Hp]. split; [done|]. eapply Forall_impl; [exact Hp|]. intros p. by apply paired_mono.
  - intros inst t (v & ? & ?)%Hv. eauto.
  - intros inst t (v & ? & ?)%Hi. eauto.
Qed.

Lemma note_latest_paired points id inst val at_ b : paired_history points b →
  paired_history (points ++ [(id, inst, val, at_)]) (note_latest id inst val at_ b).
Proof.
  intros Hp. apply (paired_history_mono _ (points ++ [(id, inst, val, at_)])) in Hp; [|set_solver].
  unfold note_latest. destruct (Z.eqb_spec id 1021) as [->|]; [|destruct (Z.eqb_spec id 1020) as [->|]; [|done]];
    (destruct Hp as [Hh Hv Hi]; split; [done| |]; cbn [ph_latestV ph_latestI ph_latestVTime ph_latestITime]); try done;
    intros i t; (destruct (decide (inst = i)) as [<-|]; [rewrite !lookup_insert_eq; intros [= <-]; exists val; set_solver|]);
    rewrite !lookup_insert_ne by done; auto.
Qed.

Lemma pair_latest_paired points inst b : paired_history points b → paired_history points (pair_latest inst b).
Proof.
  intros Hp. unfold pair_latest. destruct (ph_latestVTime b !! inst) as [tv|] eqn:Ev; [|done].
  destruct (ph_latestITime b !! inst) as [ti|] eqn:Ei; [|done]. destruct (Z.ltb_spec (Z.abs (tv - ti)) (100 * Millisecond)); [|done].
  destruct Hp as [Hh Hv Hi]. destruct (Hv _ _ Ev) as (v & Hlv & Hv'), (Hi _ _ Ei) as (i & Hli & Hi').
  rewrite Hlv, Hli. cbn [default from_option id]. set (old := default [] _).
  assert (Hold : (length old ≤ 5)%nat ∧ Forall (paired points inst) old).
  { unfold old. destruct (ph_powerHistory b !! inst) as [h|] eqn:E; [by apply Hh|]. split; [simpl; lia|constructor]. }
  set (h := if (5 <? length (old ++ [MkPowerSample v i]))%nat then _ else _).
  assert (Hnew : (length h ≤ 5)%nat ∧ Forall (paired points inst) h).
  { destruct Hold as [Hlen Hf].
    assert (Hall : Forall (paired points inst) (old ++ [MkPowerSample v i])) by (apply Forall_app; split; [done|constructor; [by exists tv, ti|constructor]]).
    unfold h. rewrite length_app. cbn [length]. destruct (Nat.ltb_spec 5 (length old + 1)); rewrite ?length_drop, length_app; cbn [length];
      (split; [lia|]); [by apply Forall_drop|done]. }
  split; cbn [ph_powerHistory ph_latestV ph_latestI ph_latestVTime ph_latestITime].
  - intros j h' Hl. destruct (decide (inst = j)) as [<-|]; [rewrite lookup_insert_eq in Hl; by injection Hl as <-|].
    rewrite lookup_insert_ne in Hl by done. by apply Hh.
  - intros j t Hl. destruct (decide (inst = j)) as [<-|]; [by rewrite lookup_delete_eq in Hl|]. rewrite lookup_delete_ne in Hl by done. by apply Hv.
  - intros j t Hl. destruct (decide (inst = j)) as [<-|]; [by rewrite lookup_delete_eq in Hl|]. rewrite lookup_delete_ne in Hl by done. by apply Hi.
Qed.

Lemma receive_point now sample b st : receive_ring_sample config deviceID now sample (b, st) =
  match ring_point (now, sample) with
  | None => (b, st)
  | Some (id, inst, val, at_) => (pair_latest inst (note_latest id inst val at_ b), recordGraphSample now deviceID id inst val at_ st)
  end.
Proof.
  unfold receive_ring_sample, ring_point. destruct (Z.ltb_spec (ConfigIndex sample) 0); [done|]. cbn [orb].
  destruct (Z.leb_spec (Z.of_nat (length config)) (ConfigIndex sample)).
  - rewrite lookup_ge_None_2 by lia. done.
  - by destruct (config !! Z.to_nat (ConfigIndex sample)).
Qed.

Lemma receive_paired rs st : paired_history (omap ring_point rs) (receive_run rs (new_power_history, st)).1.
Proof.
  unfold receive_run. induction rs as [|[now sample] rs IH] using rev_ind; [by split|].
  rewrite fold_left_app, omap_app. cbn [fold_left fst snd omap list_omap]. destruct (fold_left _ rs _) as [b st'].
  rewrite receive_point. destruct (ring_point (now, sample)) as [[[[id i] val] at_]|]; [|by rewrite app_nil_r].
  by apply pair_latest_paired, note_latest_paired.
Qed.

(** The controller only sees pairs.  Whatever the ring delivers, in whatever order
    and for whatever channels, each channel has at most five samples, and each of
    them is a voltage and a current that the ring delivered for that channel less
    than 100 ms apart. *)
Theorem power_samples_are_pairs (rs : list (Z * RingSample)) (st : graphStore P) (inst : Z) (h : list powerControlSample) :
  ph_powerHistory (receive_run rs (new_power_history, st)).1 !! inst = Some h →
  (length h ≤ 5)%nat ∧ Forall (paired (omap ring_point rs) inst) h.
Proof. apply (pd_history _ _ (receive_paired rs st)). Qed.
End pairs.

(** *** A bench supply *)
(** Its readings, and what was written to it. *)
Record supply := MkSupply { su_error : f64; su_v : f64; su_i : f64; su_vset : f64; su_writes : list (Z * Z * f32) }.
Module Bench.
#[local] Instance supply_ring : RingClient supply := {|
  env_SupportsRingReadout := λ _, false;
  env_ConfigureRingCapture := λ _ _ c, (c, Ok ());
  env_TriggerRingSync := λ c, (c, Ok ());
  env_ReadRingPointer := λ c, (c, Ok 0);
  env_ReadRingChunk := λ _ _ c, (c, Err (Sentinel ErrTransportNotSupported)) |}.
#[local] Instance supply_read : ReadClient supply := {|
  rd_ReadBulk := λ ps c, (c, Ok ((λ p,
    if ID p =? 105 then su_error c else if ID p =? 1021 then su_v c else if ID p =? 1020 then su_i c
    else if ID p =? 2021 then su_vset c else of_int 1) <$> ps)) |}.
Definition supply_writer : WriteClient supply :=
  MkWriteClient supply
    (λ id i v c, (MkSupply (su_error c) (su_v c) (su_i c) (su_vset c) (su_writes c ++ [(id, i, v)]), Ok ()))
    (λ _ _ _ c, (c, Ok ())).
#[local] Instance supply_client : DeviceClient supply := {|
  dc_ReadFloat32 := λ _ _ c, (c, Ok (su_v c));
  dc_ReadInt32 := λ _ _ c, (c, Ok 0);
  dc_WriteClient := Some supply_writer;
  dc_StringWriteClient := None; dc_ControlClient := None; dc_ReadSDORaw := None |}.
Definition channel_writes (c : supply) (i : Z) : list (Z * Z * f32) := filter (λ w, w.1.2 = i) (su_writes c).

Lemma writes_other p j v c i : i ≠ j → channel_writes (wc_WriteFloat32 supply_writer p j v c).1 i = channel_writes c i.
Proof.
  intros Hne. unfold channel_writes. simpl. rewrite filter_app, filter_cons_False by (simpl; congruence).
  by rewrite filter_nil, app_nil_r.
Qed.

Lemma reads_same ps c i : channel_writes (rd_ReadBulk ps c).1 i = channel_writes c i.
Proof. done. Qed.

Definition power_bench : power_server supply (list (Z * f64)) :=
  vset "tec" 2035 2 (of_int 40) (MkPowerServer (MkGateway ∅ ∅ ∅ []) empty_store ∅).
(** Ten volts and one ampere: a tick with a target writes both setpoints. *)
Definition healthy : supply := MkSupply zero (of_int 10) (of_int 1) (of_int 10) [].
Definition failing : supply := MkSupply (of_int 3) (of_int 10) (of_int 1) (of_int 10) [].
Definition shorted : supply := MkSupply zero zero (of_int 1) (of_int 10) [].
Definition bench_tick : supply * power_server supply (list (Z * f64)) → supply * power_server supply (list (Z * f64)) :=
  tick [] id supply_writer 1 "tec" 2 [].

Lemma healthy_writes : (λ w, w.1) <$> su_writes (bench_tick (healthy, power_bench)).1 = [(2021, 2); (2030, 2)].
Proof. vm_compute. reflexivity. Qed.

(** Every element of a list, with one tactic. *)
Ltac by_each tac := repeat (apply Forall_cons_2; [tac|]); apply List.Forall_nil.
Definition later_events : list power_event := [Tick 2 2 []; Target "tec" 4 (of_int 20); Target "tec2" 2 (of_int 20); Tick 3 2 []].
Lemma error_stops_channel_witness :
  let w := fold_left (run_event [] id supply_writer "tec") later_events (bench_tick (failing, power_bench)) in
  channel_writes w.1 2 = [] ∧ vget w.2 "tec" 2035 2 zero = zero.
Proof.
  apply (error_stops_channel (H := supply_client) [] id supply_writer channel_writes reads_same (λ _ _, eq_refl) writes_other
    1 "tec" 2 [] failing power_bench later_events).
  - split; [lia|reflexivity].
  - unfold later_events. by_each ltac:(split; [simpl; lia|reflexivity]).
  - eexists. split; [reflexivity|vm_compute; reflexivity].
  - unfold later_events. by_each ltac:(intros Ht; simpl in Ht; destruct Ht; congruence).
Defined.

Definition three_ticks : list power_event := [Tick 2 2 []; Tick 3 2 []; Target "tec" 4 (of_int 20); Tick 4 2 []].
Lemma implausible_samples_counted_witness :
  let w := fold_left (run_event [] id supply_writer "tec") three_ticks (shorted, power_bench) in
  channel_writes w.1 2 = [] ∧ vget w.2 "tec" 2043 2 zero = of_int 3 ∧ vget w.2 "tec" 2038 2 zero = of_int 2.
Proof.
  assert (H37 : vget power_bench "tec" 2037 2 zero = zero) by (vm_compute; reflexivity).
  destruct (implausible_samples_counted (H := supply_client) [] id supply_writer channel_writes reads_same (λ _ _, eq_refl) writes_other
    "tec" 2 three_ticks shorted power_bench) as (Hw & _ & Hn & Hs).
  - split; [lia|reflexivity].
  - unfold three_ticks. by_each ltac:(split; [split; [simpl; lia|reflexivity]|intros Ht; simpl in Ht; destruct Ht; congruence]).
  - vm_compute. split; reflexivity.
  - vm_compute. reflexivity.
  - rewrite H37. repeat (split; [first [exact I | intros _; eexists; split; [vm_compute; reflexivity|vm_compute; repeat split]]|]).
    exact I.
  - split; [exact Hw|]. split; [exact Hn|]. etransitivity; [exact Hs|]. vm_compute. reflexivity.
Defined.

(** Voltage and current of channel 2, 20 ms apart, and a voltage that finds no
    current. *)
Definition supply_ring_config : list RingCaptureParameter :=
  [MkRingCaptureParameter (bare_param 1021 2) 0; MkRingCaptureParameter (bare_param 1020 2) 0].
Definition ring_run : list (Z * RingSample) :=
  [(1, MkRingSample 0 "" (of_int 10) (100 * Millisecond)); (1, MkRingSample 1 "" (of_int 2) (120 * Millisecond));
   (1, MkRingSample 0 "" (of_int 11) (300 * Millisecond)); (1, MkRingSample 5 "" (of_int 11) (300 * Millisecond))].
Lemma power_samples_are_pairs_witness :
  let h := ph_powerHistory (receive_run (P := list (Z * f64)) supply_ring_config tec ring_run (new_power_history, empty_store)).1 !! 2 in
  h = Some [MkPowerSample (of_int 10) (of_int 2)] ∧
  Forall (paired (omap (ring_point supply_ring_config) ring_run) 2) [MkPowerSample (of_int 10) (of_int 2)].
Proof.
  intros h. assert (Hh : h = Some [MkPowerSample (of_int 10) (of_int 2)]) by (vm_compute; reflexivity).
  split; [exact Hh|]. apply (power_samples_are_pairs supply_ring_config tec ring_run (empty_store (P := list (Z * f64))) 2 _ Hh).
Defined.

(** A setpoint that the device reports as not a number is not noticed: only the
    targets are checked, and what follows from the setpoint is written back. *)
Lemma nan_setpoint_written_back :
  let c := MkSupply zero (of_int 10) (of_int 1) S754_nan [] in
  su_writes (bench_tick (c, power_bench)).1 !! 0%nat = Some (2021, 2, S754_nan).
Proof. vm_compute. reflexivity. Qed.
End Bench.
