(* ===== verification/GatewayPoll.v ===== *)
(** * GatewayPoll: what the gateway reads by itself ([cmd/mecomgw/main.go])

    A few parameters of a device are captured in its ring, and all readout parameters
    take their turn in a slow poll: once a second every device is asked for the
    next eight of its queue, and what it answers goes into the histories.

    The readout parameters of the catalogue are an argument. *)
From stdpp Require Import prelude gmap strings list sorting.
From Stdlib Require Import Strings.Byte Floats.SpecFloat.
From S2P Require Import Prelude Text Floats Protocol PollQueue RingFrames RingReader Readout Endpoint BridgePayload WriteLease Commander GatewayWrite GraphKeys GraphHistory GraphExchange GatewayConfig PowerControl.
Local Open Scope Z_scope.
#[local] Set Warnings "-clear-no-such-hyp".

(** ** What is captured *)
Definition gatewayLazyPollChunk : Z := 8.
Definition gatewayRingCaptureLimit : Z := DefaultRingCaptureLimit.
Definition gatewayRingCaptureParamIDs : list Z := [1000; 1001; 3000; 1020; 1021; 1022].

Definition with_instance (p : Param) (instance : Z) : Param :=
  MkParam (ID p) instance (Name p) (Unit p) (Type_ p) (Writable p) (Role p) (Kind p).
(** The inner loop: [instance] runs to [channels], as long as there is room. *)
Fixpoint capture_instances (fuel : nat) (instance channels : Z) (def : Param) (out : list RingCaptureParameter) : list RingCaptureParameter :=
  match fuel with
  | O => out
  | S fuel =>
      if (instance <=? channels) && (Z.of_nat (length out) <? gatewayRingCaptureLimit) then
        capture_instances fuel (instance + 1) channels def
          (out ++ [MkRingCaptureParameter (with_instance def instance) DefaultRingInhibitTime10us])
      else out
  end.
Definition gatewayRingCaptureParameters (catalogue : list Param) (channels : Z) : list RingCaptureParameter :=
  let channels := if channels <=? 0 then 4 else channels in
  fold_left (λ out id,
    match gatewayParameterByID catalogue id with
    | None => out
    | Some def => capture_instances (Z.to_nat channels) 1 channels def out
    end) gatewayRingCaptureParamIDs [].

(** The first of several parameters with one number and instance. *)
Definition gatewayCatalogueKey (id instance : Z) : bytes := fmtD id ++ ":"%byte :: fmtD instance.
Definition gatewayLazyReadParameters (readout : list Param) : list Param :=
  (fold_left (λ acc param,
     let '(seen, out) := acc in
     let key := gatewayCatalogueKey (ID param) (Inst param) in
     if decide (key ∈ (seen : gset bytes)) then acc else ({[key]} ∪ seen, out ++ [param]))
   readout (∅, [])).2.
Definition gatewayRingCaptureParameterSet (params : list RingCaptureParameter) : gset bytes :=
  list_to_set ((λ p, gatewayCatalogueKey (ID (rcp_Parameter p)) (Inst (rcp_Parameter p))) <$> params).

(** ** The slow poll *)
(** The order of [sort.Strings]. *)
Definition id_le (a b : string) : Prop := bytes_ltb (str b) (str a) = false.
#[export] Instance id_le_dec (a b : string) : Decision (id_le a b).
Proof. unfold id_le. apply _. Defined.

Section poll.
Context {C : Type} `{DeviceClient C} {P : Type} `{Pyramid P}.
Context (error_text : error → string).

Record poll_server := MkPollServer {
  po_gateway : gateway C; po_graph : graphStore P; po_queues : gmap string PollQueue }.
Implicit Types (s : poll_server).

(** The loop over what was read; a value that is missing or not finite is left out. *)
Fixpoint record_values (now : Z) (deviceID : bytes) (params : list Param) (values : list f64) (st : graphStore P) : graphStore P :=
  match params, values with
  | p :: params, v :: values =>
      record_values now deviceID params values
        (if isFiniteFloat v then recordGraphSample now deviceID (ID p) (Inst p) v now st else st)
  | _, _ => st
  end.

(** The round of one device; [observedAt] is the clock after the read. *)
Definition poll_lazy_device (connect : Endpoint → res C) (observedAt : Z) (s : poll_server) (deviceID : string) : poll_server :=
  let '(g, bound) := bind_device connect deviceID (po_gateway s) in
  let s := MkPollServer g (po_graph s) (po_queues s) in
  match bound, po_queues s !! deviceID with
  | Ok client, Some queue =>
      let '(queue, params) := NextChunk queue gatewayLazyPollChunk in
      let s := MkPollServer (po_gateway s) (po_graph s) (<[deviceID := queue]> (po_queues s)) in
      if bool_decide (params = []) then s
      else
        let '(client, read) := rd_ReadBulk params client in
        let g := put_client (po_gateway s) deviceID client in
        let values := match read with Ok vs => vs | Err _ => [] end in
        let err := match read with Ok _ => None | Err e => Some (error_text e) end in
        let queues := <[deviceID := RecordBulk observedAt queue params values observedAt err]> (po_queues s) in
        match read with
        | Err e => MkPollServer (if shouldResetDeviceBinding e then resetDeviceBinding g deviceID e else g) (po_graph s) queues
        | Ok values => MkPollServer g (record_values observedAt (str deviceID) params values (po_graph s)) queues
        end
  | _, _ => s
  end.
Definition device_ids (s : poll_server) : list string := merge_sort id_le ((map_to_list (gw_devices (po_gateway s))).*1).
Definition pollLazyReadoutOnce (connect : Endpoint → res C) (observedAt : Z) (s : poll_server) : poll_server :=
  fold_left (poll_lazy_device connect observedAt) (device_ids s) s.
End poll.
Arguments poll_server : clear implicits.
Arguments MkPollServer {C P}. Arguments po_gateway {C P}. Arguments po_graph {C P}. Arguments po_queues {C P}.

(** ** Turns *)
(** Two queues that differ only in what they know. *)
Definition same_rotation (q q' : PollQueue) : Prop :=
  normal q = normal q' ∧ normalPos q = normalPos q' ∧ front q = front q' ∧ normalSet q = normalSet q' ∧ frontSet q = frontSet q'.
Lemma NextChunk_rotation q q' max : same_rotation q q' →
  (NextChunk q max).2 = (NextChunk q' max).2 ∧ same_rotation (NextChunk q max).1 (NextChunk q' max).1.
Proof.
  intros (Hn & Hp & Hf & Hs & Hfs). unfold NextChunk. rewrite Hn, Hp, Hf, Hs, Hfs. destruct (max <=? 0); [done|].
  destruct (take_front _ _ _ _) as [[fr fset] out]. destruct (length (normal q') =? 0)%nat; [done|].
  by destruct (take_normal _ _ _ _ _) as [pos out'].
Qed.
Lemma chunks_rotation n q q' max : same_rotation q q' → chunks n q max = chunks n q' max.
Proof.
  revert q q'. induction n as [|n IH]; intros q q' Hq; [done|]. cbn [chunks].
  destruct (NextChunk_rotation q q' max Hq) as [Hc Hr].
  destruct (NextChunk q max) as [q1 c1], (NextChunk q' max) as [q2 c2]. simpl in Hc, Hr. subst c2. f_equal. by apply IH.
Qed.
Lemma RecordBulk_rotation now q ps vs t err : same_rotation (RecordBulk now q ps vs t err) q.
Proof.
  unfold RecordBulk. generalize 0%nat. revert q. induction ps as [|p ps IH]; intros q i; [done|]. cbn [record_from].
  by destruct (IH (Record_ now q (MkPollResult p (default (S754_zero false) (vs !! i)) (default ""%string err) t)) (S i)).
Qed.

(** The queue knows a value of the parameter, read at one of the times. *)
Definition sampled (times : list Z) (q : PollQueue) (p : Param) : Prop :=
  ∃ r, Latest q p = Some r ∧ pr_Error r = ""%string ∧ isFiniteFloat (pr_Value r) = true ∧ pr_ObservedAt r ∈ times.
Lemma sampled_mono times times' q p : times ⊆ times' → sampled times q p → sampled times' q p.
Proof. intros Hs (r & ? & ? & ? & ?). exists r. auto. Qed.

Lemma RecordBulk_sampled times now q ps vs t : t ≠ 0 → t ∈ times →
  Forall (λ v, isFiniteFloat v = true) vs → length vs = length ps →
  (∀ p, p ∈ ps → sampled times (RecordBulk now q ps vs t None) p) ∧
  (∀ p, sampled times q p → sampled times (RecordBulk now q ps vs t None) p).
Proof.
  intros Ht Hin Hfin Hlen. unfold RecordBulk. assert (Hoff : length vs = (0 + length ps)%nat) by done. clear Hlen.
  revert q Hoff. generalize 0%nat as i. induction ps as [|p ps IH]; intros i q Hoff; cbn [record_from].
  { split; [|done]. intros p Hp. by apply elem_of_nil in Hp. }
  destruct (lookup_lt_is_Some_2 vs i) as [v Hv]; [simpl in Hoff; lia|]. rewrite Hv. cbn [default from_option id].
  rewrite Forall_forall in Hfin. assert (Hv' : isFiniteFloat v = true) by (apply Hfin; by eapply list_elem_of_lookup_2).
  set (q1 := Record_ now q _). destruct (IH (S i) q1) as [IH1 IH2]; [simpl in Hoff; lia|].
  assert (Hnew : ∀ p', ParameterKey p' = ParameterKey p → sampled times q1 p').
  { intros p' E. unfold sampled, Latest, q1, Record_. destruct (Z.eqb_spec (pr_ObservedAt (MkPollResult p v "" t)) 0) as [|_]; [done|].
    simpl. rewrite E, lookup_insert_eq. by eexists. }
  split.
  - intros p' [->|Hp']%elem_of_cons; [|by apply IH1]. by apply IH2, Hnew.
  - intros p' (r & Hr & Hr'). apply IH2. destruct (decide (ParameterKey p' = ParameterKey p)) as [E|Hne]; [by apply Hnew|].
    exists r. split; [|done]. unfold Latest, q1, Record_. simpl. destruct (t =? 0); simpl; by rewrite lookup_insert_ne.
Qed.

Section rounds.
Context {C : Type} `{DeviceClient C} {P : Type} `{Pyramid P}.
Context (error_text : error → string) (connect : Endpoint → res C).
Implicit Types (s : poll_server C P).

(** A client that answers: every read succeeds with a finite value for each
    parameter, and leaves it answering. *)
Context (answers : C → Prop).
Hypothesis answers_read : ∀ c ps, answers c →
  answers (rd_ReadBulk ps c).1 ∧
  ∃ vs, (rd_ReadBulk ps c).2 = Ok vs ∧ length vs = length ps ∧ Forall (λ v, isFiniteFloat v = true) vs.

Definition step_device := poll_lazy_device (P := P) error_text connect.
Definition has_history (st : graphStore P) (d : string) (p : Param) : Prop := is_Some (gs_raw st !! graphKey (str d) (ID p) (Inst p)).
Definition keeps (st st' : graphStore P) : Prop := ∀ key, is_Some (gs_raw st !! key) → is_Some (gs_raw st' !! key).

Lemma keeps_record now dev p i v at_ (st : graphStore P) : keeps st (recordGraphSample now dev p i v at_ st).
Proof.
  intros key Hk. unfold recordGraphSample. destruct (negb _); [done|]. cbn [gs_raw].
  destruct (decide (graphKey dev p i = key)) as [->|]; [rewrite lookup_insert_eq; by eexists|by rewrite lookup_insert_ne].
Qed.
Lemma record_values_spec now d ps vs (st : graphStore P) :
  keeps st (record_values now (str d) ps vs st) ∧
  (length vs = length ps → Forall (λ v, isFiniteFloat v = true) vs →
   ∀ p, p ∈ ps → has_history (record_values now (str d) ps vs st) d p).
Proof.
  revert vs st. induction ps as [|p ps IH]; intros vs st; cbn [record_values].
  { split; [by intros ?|]. intros _ _ p Hp. by apply elem_of_nil in Hp. }
  destruct vs as [|v vs]; [split; [by intros ?|done]|]. set (st1 := if isFiniteFloat v then _ else st).
  assert (Hk : keeps st st1) by (unfold st1; destruct (isFiniteFloat v); [apply keeps_record|by intros ?]).
  destruct (IH vs st1) as [IH1 IH2]. split; [intros key ?; by apply IH1, Hk|].
  intros [= Hl] [Hv Hvs]%Forall_cons p' [->|Hp']%elem_of_cons; [|by apply IH2].
  apply IH1. unfold st1. rewrite Hv. unfold recordGraphSample. rewrite Hv. cbn [negb gs_raw]. rewrite lookup_insert_eq. by eexists.
Qed.

(** A device with its client and its queue. *)
Definition device_state s (d : string) (c : C) (q : PollQueue) : Prop :=
  ∃ b, gw_devices (po_gateway s) !! d = Some b ∧ gb_client b = Some c ∧ po_queues s !! d = Some q.

Lemma bind_other d d' (g : gateway C) : d ≠ d' → gw_devices (bind_device connect d' g).1 !! d = gw_devices g !! d.
Proof. intros Hne. unfold bind_device. repeat case_match; simpl; rewrite ?lookup_insert_ne by done; done. Qed.
Lemma put_client_other d d' c (g : gateway C) : d ≠ d' → gw_devices (put_client g d' c) !! d = gw_devices g !! d.
Proof. intros Hne. unfold put_client. repeat case_match; simpl; rewrite ?lookup_insert_ne by done; done. Qed.
Lemma reset_other d d' e (g : gateway C) : d ≠ d' → gw_devices (resetDeviceBinding g d' e) !! d = gw_devices g !! d.
Proof. intros Hne. unfold resetDeviceBinding. repeat case_match; simpl; rewrite ?lookup_insert_ne by done; done. Qed.

(** The turn of another device. *)
Lemma step_other now s d d' : d ≠ d' →
  let s' := step_device now s d' in
  gw_devices (po_gateway s') !! d = gw_devices (po_gateway s) !! d ∧ po_queues s' !! d = po_queues s !! d ∧
  keeps (po_graph s) (po_graph s').
Proof.
  intros Hne. unfold step_device, poll_lazy_device. pose proof (bind_other d d' (po_gateway s) Hne) as Hb.
  destruct (bind_device connect d' (po_gateway s)) as [g [client|e]]; simpl in *; [|split_and!; [done|done|by intros ?]].
  destruct (po_queues s !! d') as [queue|]; [|split_and!; [done|done|by intros ?]]. destruct (NextChunk queue gatewayLazyPollChunk) as [q1 params].
  destruct (bool_decide (params = [])); [simpl; rewrite lookup_insert_ne by done; split_and!; [done|done|by intros ?]|].
  destruct (rd_ReadBulk params client) as [c1 [vs|e]]; simpl.
  - rewrite put_client_other, !lookup_insert_ne by done. split_and!; [done|done|]. apply record_values_spec.
  - rewrite !lookup_insert_ne by done. split_and!; [|done|by intros ?].
    destruct (shouldResetDeviceBinding e); rewrite ?reset_other, put_client_other by done; done.
Qed.

(** The turn of the device itself. *)
Lemma step_self now s d c q : 0 < now → answers c → device_state s d c q →
  let s' := step_device now s d in
  ∃ c' q', answers c' ∧ device_state s' d c' q' ∧ same_rotation q' (NextChunk q gatewayLazyPollChunk).1 ∧ (wf q → wf q') ∧
    (∀ p, p ∈ (NextChunk q gatewayLazyPollChunk).2 → has_history (po_graph s') d p ∧ sampled [now] q' p) ∧
    (∀ times p, now ∈ times → sampled times q p → sampled times q' p) ∧ keeps (po_graph s) (po_graph s').
Proof using answers_read.
  intros Hnow Hc (b & Hb & Hcl & Hq). unfold step_device, poll_lazy_device, bind_device. rewrite Hb, Hcl. cbn [po_queues].
  rewrite Hq. assert (Hwf : wf q → wf (NextChunk q gatewayLazyPollChunk).1) by apply NextChunk_wf.
  assert (Hlat : latest (NextChunk q gatewayLazyPollChunk).1 = latest q).
  { unfold NextChunk. repeat case_match; done. }
  destruct (NextChunk q gatewayLazyPollChunk) as [q1 params]. simpl in *.
  destruct (bool_decide_reflect (params = [])) as [->|_].
  { exists c, q1. split_and!; [done| |done|done| |intros times p _; unfold sampled, Latest; by rewrite Hlat|by intros ?].
    - exists b. simpl. by rewrite lookup_insert_eq.
    - intros p Hp. by apply elem_of_nil in Hp. }
  pose proof (answers_read c params Hc) as [Hc' (vs & Hvs & Hlen & Hfin)]. destruct (rd_ReadBulk params c) as [c1 r]. simpl in *. subst r.
  set (q2 := RecordBulk now q1 params vs now None). exists c1, q2.
  destruct (record_values_spec now d params vs (po_graph s)) as [Hk Hh].
  destruct (RecordBulk_sampled [now] now q1 params vs now) as [Hs _]; [lia|set_solver|done|done|].
  split_and!; [done| |apply RecordBulk_rotation| | | |done].
  - destruct b as [cfg cl err]. simpl in Hcl. subst cl. exists (MkGatewayBinding cfg (Some c1) err).
    unfold put_client. rewrite Hb. cbn [po_gateway po_queues with_devices gw_devices gb_client]. by rewrite !lookup_insert_eq.
  - intros Hw. apply RecordBulk_wf. by apply Hwf.
  - intros p Hp. split; [by apply Hh|by apply Hs].
  - intros times p Ht Hp. apply (RecordBulk_sampled times now q1 params vs now); [lia|done..|].
    unfold sampled, Latest in *. by rewrite Hlat.
Qed.

(** A round gives every device one turn. *)
Lemma round_turn now s d c q : 0 < now → answers c → device_state s d c q →
  let s' := pollLazyReadoutOnce error_text connect now s in
  ∃ c' q', answers c' ∧ device_state s' d c' q' ∧ same_rotation q' (NextChunk q gatewayLazyPollChunk).1 ∧ (wf q → wf q') ∧
    (∀ p, p ∈ (NextChunk q gatewayLazyPollChunk).2 → has_history (po_graph s') d p ∧ sampled [now] q' p) ∧
    (∀ times p, now ∈ times → sampled times q p → sampled times q' p) ∧ keeps (po_graph s) (po_graph s').
Proof using answers_read.
  intros Hnow Hc Hs. unfold pollLazyReadoutOnce.
  assert (Hids : d ∈ device_ids s ∧ NoDup (device_ids s)).
  { unfold device_ids. rewrite (merge_sort_Permutation id_le). split; [|apply NoDup_fst_map_to_list].
    destruct Hs as (b & Hb & _). apply list_elem_of_fmap. exists (d, b). split; [done|by apply elem_of_map_to_list]. }
  destruct Hids as [Hin Hnd]. apply list_elem_of_split in Hin as (l1 & l2 & E). rewrite E in *. clear E.
  apply NoDup_app in Hnd as (_ & Hl1 & [Hl2 _]%NoDup_cons). rewrite fold_left_app. cbn [fold_left].
  assert (Hother : ∀ l s, d ∉ l → let s' := fold_left (poll_lazy_device error_text connect now) l s in
    gw_devices (po_gateway s') !! d = gw_devices (po_gateway s) !! d ∧ po_queues s' !! d = po_queues s !! d ∧
    keeps (po_graph s) (po_graph s')).
  { induction l as [|d' l IH]; intros s0 Hd; cbn [fold_left]; [by split_and!; [..|intros ?]|].
    apply not_elem_of_cons in Hd as [Hne Hd]. destruct (step_other now s0 d d' Hne) as (H1 & H2 & H3).
    destruct (IH (step_device now s0 d') Hd) as (H1' & H2' & H3'). cbv zeta.
    split_and!; [by etransitivity|by etransitivity|intros key Hk; by apply H3', H3]. }
  destruct (Hother l1 s) as (Hd1 & Hq1 & Hk1). { intros Hin. apply (Hl1 d Hin). by left. }
  set (s1 := fold_left _ l1 s) in *.
  assert (Hs1 : device_state s1 d c q) by (destruct Hs as (b & Hb & Hcl & Hq); exists b; by rewrite Hd1, Hq1).
  destruct (step_self now s1 d c q Hnow Hc Hs1) as (c' & q' & Hc' & (b' & Hb' & Hcl' & Hq') & Hr & Hw & Hch & Hold & Hk).
  fold (step_device now s1 d). set (s2 := step_device now s1 d) in *.
  destruct (Hother l2 s2 Hl2) as (Hd2 & Hq2 & Hk2). exists c', q'. split_and!; [done| |done|done| |done|].
  - exists b'. by rewrite Hd2, Hq2.
  - intros p Hp. destruct (Hch p Hp) as [Hh Hsm]. split; [|done]. by apply Hk2.
  - intros key Hkey. by apply Hk2, Hk, Hk1.
Qed.

(** C6: the slow poll reaches every parameter of every device that answers, whatever
    the other devices do.  From any state in which a device has a client whose
    reads succeed with finite values, and a queue without manual polls, after enough
    rounds (eight parameters of the device's queue in each) every parameter in the
    queue has a finite value without error, observed in one of these rounds, and a
    history in the gateway; devices that cannot be connected, refuse reads or lose
    their connection do not matter. *)
Theorem lazy_poll_reaches_all (times : list Z) (d : string) (c : C) (q : PollQueue) (s : poll_server C P) :
  Forall (λ t, 0 < t) times → answers c → device_state s d c q → wf q → front q = [] →
  Z.of_nat (length (normal q)) ≤ 8 * Z.of_nat (length times) →
  let s' := fold_left (λ s now, pollLazyReadoutOnce error_text connect now s) times s in
  ∃ c' q', device_state s' d c' q' ∧ ∀ p, p ∈ normal q → sampled times q' p ∧ has_history (po_graph s') d p.
Proof using answers_read.
  intros Hpos Hc Hs Hwf Hfr Hlen.
  assert (Hrun : ∀ ts, Forall (λ t, 0 < t) ts → ts ⊆ times → ∀ c q s, answers c → device_state s d c q → wf q →
    let s' := fold_left (λ s now, pollLazyReadoutOnce error_text connect now s) ts s in
    ∃ c' q', device_state s' d c' q' ∧ keeps (po_graph s) (po_graph s') ∧
      (∀ p, sampled times q p → sampled times q' p) ∧
      ∀ chunk p, chunk ∈ chunks (length ts) q gatewayLazyPollChunk → p ∈ chunk → sampled times q' p ∧ has_history (po_graph s') d p).
  { induction 1 as [|t ts Ht Hts IH]; intros Hsub c0 q0 s0 Hc0 Hs0 Hw0; cbn [fold_left length chunks].
    { exists c0, q0. split_and!; [done|by intros ?|done|]. intros chunk p Hch. by apply elem_of_nil in Hch. }
    destruct (round_turn t s0 d c0 q0 Ht Hc0 Hs0) as (c1 & q1 & Hc1 & Hs1 & Hr1 & Hw1 & Hch1 & Hold1 & Hk1).
    set (s1 := pollLazyReadoutOnce error_text connect t s0) in *.
    destruct (IH ltac:(set_solver) c1 q1 s1 Hc1 Hs1 (Hw1 Hw0)) as (c2 & q2 & Hs2 & Hk2 & Hold2 & Hch2).
    assert (Hin : t ∈ times) by set_solver.
    exists c2, q2. split_and!; [done|intros key ?; by apply Hk2, Hk1|intros p Hp; by apply Hold2, Hold1|].
    intros chunk p. rewrite (chunks_rotation (length ts) q1 (NextChunk q0 gatewayLazyPollChunk).1 _ Hr1) in Hch2.
    destruct (NextChunk q0 gatewayLazyPollChunk) as [q0' c0']. simpl in *. intros [->|Hin']%elem_of_cons Hp; [|by apply (Hch2 chunk)].
    destruct (Hch1 p Hp) as [Hh Hsm]. split; [|by apply Hk2]. apply Hold2. eapply sampled_mono; [|exact Hsm]. set_solver. }
  destruct (Hrun times Hpos ltac:(done) c q s Hc Hs Hwf) as (c' & q' & Hs' & _ & _ & Hch). exists c', q'. split; [done|].
  intros p Hp. destruct (chunks_cover q gatewayLazyPollChunk (length times) p) as (chunk & Hin & Hpc); [done..|unfold gatewayLazyPollChunk; lia|].
  by apply (Hch chunk).
Qed.
End rounds.

(** *** A bench with a broken device *)
Module LazyBench.
#[local] Existing Instance Bench.supply_client.
Definition bench_param (id : Z) : Param := bare_param id 1.
Definition bench_params : list Param := bench_param <$> [1000; 1001; 1020; 1021; 1022; 2010; 2021; 2030; 3000; 105].
Definition lazy_bench : poll_server supply (list (Z * f64)) :=
  MkPollServer
    (MkGateway {["aux"%string := MkGatewayBinding (MkGatewayDevice "aux" [] [] false) None None;
                 "tec"%string := MkGatewayBinding (MkGatewayDevice "tec" [] [] false) (Some Bench.healthy) None]} ∅ ∅ [])
    empty_store
    {["aux"%string := NewPollQueue bench_params; "tec"%string := NewPollQueue bench_params]}.

Lemma healthy_answers (c : supply) ps : c = Bench.healthy →
  (rd_ReadBulk ps c).1 = Bench.healthy ∧
  ∃ vs, (rd_ReadBulk ps c).2 = Ok vs ∧ length vs = length ps ∧ Forall (λ v, isFiniteFloat v = true) vs.
Proof.
  intros ->. split; [done|]. eexists. split; [reflexivity|]. split; [apply length_fmap|]. apply Forall_fmap, Forall_true.
  intros p. simpl. by repeat case_match.
Qed.

Lemma lazy_poll_reaches_all_witness :
  let s' := fold_left (λ s now, pollLazyReadoutOnce (λ _, "error"%string) (λ _, Err (Sentinel ErrUnreachable)) now s) [5; 6] lazy_bench in
  ∃ c' q', device_state s' "tec" c' q' ∧ sampled [5; 6] q' (bench_param 105) ∧ has_history (po_graph s') "tec" (bench_param 105).
Proof.
  destruct (lazy_poll_reaches_all (λ _, "error"%string) (λ _, Err (Sentinel ErrUnreachable)) (λ c, c = Bench.healthy) healthy_answers
    [5; 6] "tec" Bench.healthy (NewPollQueue bench_params) lazy_bench) as (c' & q' & Hs & Hall).
  - repeat (apply Forall_cons_2; [reflexivity|]). apply List.Forall_nil.
  - reflexivity.
  - eexists. split_and!; reflexivity.
  - apply NewPollQueue_wf.
  - reflexivity.
  - vm_compute. discriminate.
  - exists c', q'. split; [exact Hs|]. apply Hall. assert (Hn : normal (NewPollQueue bench_params) = bench_params) by (vm_compute; reflexivity).
    rewrite Hn. unfold bench_params. do 9 right. left.
Defined.
End LazyBench.

(** ** What the ring captures *)
Lemma gatewayParameterByID_id catalogue id p : gatewayParameterByID catalogue id = Some p → ID p = id.
Proof.
  unfold gatewayParameterByID. destruct (Z.eqb_spec id 2035) as [->|]; [by intros [= <-]|].
  destruct (Z.eqb_spec id 2036) as [->|]; [by intros [= <-]|]. destruct (Z.eqb_spec id 2038) as [->|]; [by intros [= <-]|].
  intros Hf%List.find_some. by apply Z.eqb_eq, Hf.
Qed.

Lemma capture_instances_spec fuel i channels def out : (length out ≤ 4)%nat → 
  let r := capture_instances fuel i channels def out in
  ∃ more, r = out ++ more ∧ Forall (λ p, ID (rcp_Parameter p) = ID def) more ∧ (length r ≤ 4)%nat ∧
    ((0 < fuel)%nat → i ≤ channels → (length out < 4)%nat → more ≠ []).
Proof.
  revert i out. induction fuel as [|fuel IH]; intros i out Hlen; cbn [capture_instances].
  { exists []. rewrite app_nil_r. split_and!; [done|done|done|lia]. }
  destruct (Z.leb_spec i channels); cbn [andb]; [|exists []; rewrite app_nil_r; split_and!; (done || lia)].
  unfold gatewayRingCaptureLimit, DefaultRingCaptureLimit in *.
  destruct (Z.ltb_spec (Z.of_nat (length out)) 4); [|exists []; rewrite app_nil_r; split_and!; (done || lia)].
  destruct (IH (i + 1) (out ++ [MkRingCaptureParameter (with_instance def i) DefaultRingInhibitTime10us])) as (more & -> & Hf & Hl & _).
  { rewrite length_app. simpl. lia. }
  rewrite <-app_assoc in *. cbn [app] in *. eexists. split_and!; [done|by constructor|done|done].
Qed.

(** With the catalogue of the devices, the ring has no room for the voltage: the
    limit is four, and temperatures, their target and the current come first. *)
Lemma ring_never_captures_voltage catalogue channels :
  (∀ id, id ∈ [1000; 1001; 3000; 1020] → is_Some (gatewayParameterByID catalogue id)) →
  Forall (λ p, ID (rcp_Parameter p) ∈ [1000; 1001; 3000; 1020]) (gatewayRingCaptureParameters catalogue channels).
Proof.
  intros Hcat. unfold gatewayRingCaptureParameters. set (n := if channels <=? 0 then 4 else channels).
  assert (Hn : 0 < n) by (unfold n; destruct (Z.leb_spec channels 0); lia). clearbody n.
  set (f := λ out id, match gatewayParameterByID catalogue id with None => out | Some def => capture_instances (Z.to_nat n) 1 n def out end).
  assert (Hstep : ∀ k out id, id ∈ [1000; 1001; 3000; 1020] → (length out ≤ 4)%nat → (k `min` 4 ≤ length out)%nat →
    Forall (λ p, ID (rcp_Parameter p) ∈ [1000; 1001; 3000; 1020]) out →
    (length (f out id) ≤ 4)%nat ∧ (S k `min` 4 ≤ length (f out id))%nat ∧
    Forall (λ p, ID (rcp_Parameter p) ∈ [1000; 1001; 3000; 1020]) (f out id)).
  { intros k out id Hid Hlen Hk Hf. unfold f. destruct (Hcat id Hid) as [def Hdef]. rewrite Hdef.
    destruct (capture_instances_spec (Z.to_nat n) 1 n def out Hlen) as (more & -> & Hm & Hl & Hne). rewrite length_app in *.
    split_and!; [lia| |].
    - destruct (decide (length out < 4)%nat); [|lia]. assert (more ≠ []) by (apply Hne; lia). destruct more; [done|]. simpl in *. lia.
    - apply Forall_app. split; [done|]. eapply Forall_impl; [exact Hm|]. intros p ->. by rewrite (gatewayParameterByID_id _ _ _ Hdef). }
  assert (Hfull : ∀ out id, (length out = 4)%nat → f out id = out).
  { intros out id Hlen. unfold f. destruct (gatewayParameterByID catalogue id); [|done]. destruct (Z.to_nat n); [done|]. cbn [capture_instances].
    rewrite Hlen. by rewrite andb_false_r. }
  unfold gatewayRingCaptureParamIDs. cbn [fold_left].
  destruct (Hstep 0%nat [] 1000) as (H1 & H1' & H1''); [set_solver|simpl; lia|simpl; lia|constructor|].
  destruct (Hstep 1%nat _ 1001 ltac:(set_solver) H1 H1' H1'') as (H2 & H2' & H2'').
  destruct (Hstep 2%nat _ 3000 ltac:(set_solver) H2 H2' H2'') as (H3 & H3' & H3'').
  destruct (Hstep 3%nat _ 1020 ltac:(set_solver) H3 H3' H3'') as (H4 & H4' & H4'').
  set (full := f (f (f (f [] 1000) 1001) 3000) 1020) in *. assert (E4 : length full = 4%nat) by lia.
  by rewrite (Hfull full 1021 E4), (Hfull full 1022 E4).
Qed.

(** So the controller never gets a sample from the ring. *)
Lemma ring_never_pairs {P} `{Pyramid P} catalogue channels dev rs (st : graphStore P) inst :
  (∀ id, id ∈ [1000; 1001; 3000; 1020] → is_Some (gatewayParameterByID catalogue id)) →
  smoothSamples (default [] (ph_powerHistory
    (receive_run (gatewayRingCaptureParameters catalogue channels) dev rs (new_power_history, st)).1 !! inst)) = None.
Proof.
  intros Hcat. pose proof (ring_never_captures_voltage catalogue channels Hcat) as Hv.
  pose proof (pd_history _ _ (receive_paired (gatewayRingCaptureParameters catalogue channels) dev rs st) inst) as Hp.
  destruct (ph_powerHistory _ !! inst) as [[|p h]|]; [done| |done]. exfalso.
  destruct (Hp _ eq_refl) as [_ [(tv & ti & Hin & _) _]%Forall_cons].
  apply list_elem_of_omap in Hin as ([now sample] & _ & E). unfold ring_point in E. destruct (ConfigIndex sample <? 0); [done|].
  destruct (gatewayRingCaptureParameters catalogue channels !! Z.to_nat (ConfigIndex sample)) as [cp|] eqn:El; [|done].
  simpl in E. rewrite Forall_forall in Hv. apply list_elem_of_lookup_2, Hv in El. injection E as E _ _ _. rewrite E in El. set_solver.
Qed.
