(* ===== verification/GraphText.v ===== *)
(** * GraphText: labels, axes and colours of a graph tile
      ([cmd/mecomgw/graph_tiles.go])

    The texts a tile shows for its series: short labels of devices and parameters,
    axes by unit, and a colour that only depends on the series. *)
From stdpp Require Import prelude gmap strings list.
From Stdlib Require Import Strings.Byte.
From S2P Require Import Prelude Text Floats Endpoint Protocol BridgePayload WriteLease Commander GatewayWrite GraphKeys.
Local Open Scope Z_scope.
#[local] Set Warnings "-clear-no-such-hyp".

(** ** Devices *)
Definition label_separator (b : byte) : bool := bool_decide (b ∈ ["-"; "_"; " "]%byte).
(** [None]: an index out of range, in Go a panic. *)
Definition compactDeviceLabel (deviceID : bytes) : option bytes :=
  let text := TrimSpace deviceID in
  if bool_decide (text = []) then Some (str "device")
  else
    last_part ← last (FieldsFunc label_separator text);
    Some (match Atoi last_part with Some n => str "SN" ++ fmtD n | None => text end).

(** ** Parameters *)
Definition label_of_id (id : Z) : option string :=
  if id =? 1000 then Some "OT"%string else if id =? 1001 then Some "ST"%string else if id =? 3000 then Some "NOT"%string
  else if id =? 1022 then Some "OP"%string else if id =? 1021 then Some "OV"%string else if id =? 1020 then Some "OC"%string
  else None.
Definition label_of_name (name : bytes) : option string :=
  let exactly (s : string) := bool_decide (name = str s) in
  let has s := has_text s name in
  if exactly "object temperature" then Some "OT"%string
  else if exactly "sink temperature" then Some "ST"%string
  else if exactly "target object temperature" || exactly "nominal object temperature" then Some "NOT"%string
  else if exactly "output power" then Some "OP"%string
  else if exactly "output voltage" then Some "OV"%string
  else if exactly "output current" then Some "OC"%string
  else if has "object temp" && negb (has "target") && negb (has "nominal") then Some "OT"%string
  else if has "sink temp" then Some "ST"%string
  else if has "target" && has "temp" then Some "NOT"%string
  else if has "nominal" && has "temp" then Some "NOT"%string
  else if has "output power" then Some "OP"%string
  else if has "output voltage" then Some "OV"%string
  else if has "output current" then Some "OC"%string
  else None.
Definition as_space (b : byte) : byte := if bool_decide (b ∈ ["_"; "-"; "/"]%byte) then " "%byte else b.
Definition compactParamLabel (def : Param) : bytes :=
  match label_of_id (ID def) with
  | Some l => str l
  | None =>
      let name := ToLower (JoinText (str " ") (Fields (as_space <$> str (Name def)))) in
      match label_of_name name with
      | Some l => str l
      | None =>
          let initials := (λ part, ToUpper (take 1 part)) <$> Fields (str (Name def)) in
          if bool_decide (initials = []) then str "#" ++ fmtD (ID def) else JoinText [] initials
      end
  end.
Definition compactSeriesLabel (deviceID : bytes) (instance : Z) (def : Param) : option bytes :=
  device ← compactDeviceLabel deviceID;
  Some (device ++ str "-ch" ++ fmtD instance ++ str " " ++ compactParamLabel def).
Definition seriesPathLabel (def : Param) : bytes :=
  if bool_decide (Name def = ""%string) then str "#" ++ fmtD (ID def) else str (Name def).
(** The middle dot of a full label. *)
Definition dot : bytes := str " " ++ [xc2; xb7] ++ str " ".
Definition full_label (deviceID : bytes) (paramID instance : Z) (def : Param) : bytes :=
  str "device " ++ deviceID ++ dot ++ str "param " ++ fmtD paramID ++ dot ++ str "instance " ++ fmtD instance ++ dot ++
  seriesPathLabel def.

(** ** Axes *)
Definition unit_text (unit : string) : bytes := ToLower (TrimSpace (str unit)).
Definition graphAxisIDForUnit (unit role : string) : string :=
  let u := unit_text unit in
  let one_of l := bool_decide (u ∈ str <$> l) in
  if one_of ["a"]%string then "current_a"%string
  else if one_of ["v"]%string then "voltage_v"%string
  else if one_of ["w"]%string then "power_w"%string
  else if one_of ["%"; "percent"]%string then "percent"%string
  else if one_of ["ms"]%string then "bus_ms"%string
  else if one_of ["s"; "sec"; "seconds"]%string then "seconds"%string
  else if has_text "deg" u || one_of ["c"; "degc"]%string then "temperature_c"%string
  else if bool_decide (role = "counter"%string) then "counter"%string
  else "generic_numeric"%string.
Definition axisLabelForUnit (unit : string) : bytes :=
  let u := unit_text unit in
  let one_of l := bool_decide (u ∈ str <$> l) in
  if one_of ["degc"; "c"]%string then str "Temperature [" ++ [xc2; xb0] ++ str "C]"
  else if one_of ["v"]%string then str "Voltage [V]"
  else if one_of ["a"]%string then str "Current [A]"
  else if one_of ["w"]%string then str "Power [W]"
  else if one_of ["%"; "percent"]%string then str "Percent [%]"
  else if bool_decide (TrimSpace (str unit) ∈ str <$> [""; "_"]%string) then str "Value"
  else str "Value [" ++ str unit ++ str "]".

Record tileAxis := MkAxis { ax_ID : string; ax_Label : bytes; ax_Unit : string; ax_Side : string }.
(** The first two units have an axis, one on each side. *)
Definition axesFromUnits (units : list string) : list tileAxis :=
  imap (λ i unit, MkAxis (graphAxisIDForUnit unit "") (axisLabelForUnit unit) unit (if (i =? 0)%nat then "left" else "right")%string)
    (take 2 units).
Definition gatewayParameterAxisID (unit : string) : string :=
  if bool_decide (unit ∈ [""; "_"]%string) then "default"%string else ("axis-" +:+ unit)%string.
(** [units]: the distinct units of the series, in the order of the traversal. *)
Definition graphTileAxes (units : list string) : list tileAxis :=
  if bool_decide (units = []) then [MkAxis "default" [] "" "left"]
  else (λ unit, MkAxis (gatewayParameterAxisID unit) [] unit "left"%string) <$> units.

(** ** Colours *)
(** [fnv.New32a]. *)
Definition fnv32a (l : bytes) : Z := fold_left (λ h b, u32 (Z.lxor h (bz b) * 16777619)) l 2166136261.
(** The decimal digits at the end of a text. *)
Fixpoint leading_digits (l : bytes) : bytes :=
  match l with
  | b :: l => if (48 <=? bz b) && (bz b <=? 57) then b :: leading_digits l else []
  | [] => []
  end.
Definition trailing_digits (l : bytes) : bytes := reverse (leading_digits (reverse l)).
Definition gatewayDeviceColorSeed (deviceID : bytes) : Z :=
  match Atoi (trailing_digits deviceID) with
  | Some serial => Z.rem serial 16 * 47
  | None => fnv32a deviceID mod 360
  end.
Definition gatewaySeriesHue (deviceID : bytes) (param : Param) (instance : Z) : Z :=
  let instance := if instance <? 1 then 1 else instance in
  Z.rem (i64 (gatewayDeviceColorSeed deviceID + (instance - 1) * 97 + Z.rem (ID param) 11 * 23)) 360.
Definition gatewaySeriesColor (deviceID : bytes) (param : Param) (instance : Z) : bytes :=
  str "hsl(" ++ fmtD (gatewaySeriesHue deviceID param instance) ++ str " 78% 58%)".

Definition parameter_palette : list string := ["#31d6ff"; "#ffb000"; "#ff5c93"; "#00d084"; "#b079ff"; "#ff7a35"]%string.
Definition gatewayParameterColor (param : Param) : string :=
  let token := ToLower (JoinText (str " ") (str <$> [Name param; Unit param; Role param; Kind param])) in
  let has s := has_text s token in
  if has "fault" || has "error" || has "alarm" then "#ff315f"%string
  else if has "target" || has "setpoint" || has "control" || Writable param then "#ffd400"%string
  else if has "power" || bool_decide (Unit param = "W"%string) then "#ff7a35"%string
  else if has "voltage" || bool_decide (Unit param = "V"%string) then "#7aa2ff"%string
  else if has "current" || bool_decide (Unit param = "A"%string) then "#31d6ff"%string
  else if has "temperature" || has "temp" || bool_decide (Unit param = "degC"%string) then "#00c8ff"%string
  else if has "state" || has "status" then "#8bd3a5"%string
  else if has "counter" || has "count" then "#b8a6ff"%string
  else if ID param <? 0 then "#31d6ff"%string
  else default ""%string (parameter_palette !! Z.to_nat (Z.rem (ID param) 6)).

(** ** Which device identifiers have no label *)
Lemma fields_go_nil sep word l : fields_go sep word l = [] ↔ word = [] ∧ Forall (λ b, sep b = true) l.
Proof.
  revert word. induction l as [|b l IH]; intros word; cbn [fields_go].
  - case_bool_decide as Hw; [by split|]. split; [done|by intros [? _]].
  - rewrite Forall_cons. destruct (sep b) eqn:Eb.
    + case_bool_decide as Hw; cbn [app]; rewrite ?IH; naive_solver.
    + rewrite IH. split; [intros [[? ?]%app_eq_nil _]; done|intros (_ & ? & _); done].
Qed.

(** A device identifier of separators alone makes the request for its tile panic. *)
Lemma compactDeviceLabel_panics d :
  compactDeviceLabel d = None ↔ TrimSpace d ≠ [] ∧ Forall (λ b, label_separator b = true) (TrimSpace d).
Proof.
  unfold compactDeviceLabel. case_bool_decide as Hd; [naive_solver|].
  destruct (last (FieldsFunc label_separator (TrimSpace d))) as [l|] eqn:E; cbn [mbind option_bind].
  - split; [done|]. intros [_ Hall]. assert (Hn : FieldsFunc label_separator (TrimSpace d) = []) by by apply fields_go_nil.
    by rewrite Hn in E.
  - apply last_None in E. apply fields_go_nil in E as [_ E]. done.
Qed.
Lemma separators_panic : compactDeviceLabel (str "--") = None ∧ parseGraphTileSeriesQuery (MkSeriesQuery [str "--:1000:1"] [] [] []) = Ok [MkSeries (str "--") 1000 1].
Proof. vm_compute. done. Qed.
