(* ===== verification/ParamRegistry.v ===== *)
(** * ParamRegistry: the registry of MeCom parameters ([mecomdict/registry.go])

    The program reads the generated Go source of a parameter registry with three
    regular expressions, guesses the device family of each list, merges the lists
    and makes an object dictionary of them.  Each expression is written out here as
    the matcher it is: none of them can match in two ways at one place.  Case
    mapping and trimming are those of [Text.v]; the file is an argument. *)
From stdpp Require Import prelude gmap strings list sorting.
From Stdlib Require Import Strings.Byte.
From S2P Require Import Prelude Text Regex Floats Endpoint GraphKeys GraphText EDS.
Local Open Scope Z_scope.
#[local] Set Warnings "-clear-no-such-hyp".

(** ** Matchers *)
Definition not_quote (b : byte) : bool := negb (bool_decide (b = x22)).
Definition quoted (l : bytes) : option (bytes * bytes) :=
  l ← lit [x22] l; '(p, l) ← some_of not_quote l; l ← lit [x22] l; Some (p, l).
(** The three fields of an entry, number and two quoted texts. *)
Definition match_entry (a b c : string) (l : bytes) : option ((bytes * bytes * bytes) * bytes) :=
  l ← lit (str a) l;
  '(number, l) ← some_of is_digit (spaces l);
  l ← lit [","%byte] l; l ← lit (str b) (spaces l);
  '(first, l) ← quoted (spaces l);
  l ← lit [","%byte] l; l ← lit (str c) (spaces l);
  '(second, l) ← quoted (spaces l);
  l ← lit ["}"%byte] l;
  Some ((number, first, second), l).
Definition parameterRE := match_entry "{ID:" "Name:" "Format:".
Definition errorRE := match_entry "{Code:" "Symbol:" "Description:".
(** Name and body of a list of parameters. *)
Definition parameterBlockRE (l : bytes) : option ((bytes * bytes) * bytes) :=
  l ← lit (str "var") l;
  '(_, l) ← some_of regex_space l;
  '(name, l) ← some_of ident_byte l;
  l ← lit ["="%byte] (spaces l);
  l ← lit (str "[]ParameterDef") (spaces l);
  l ← lit ["{"%byte] (spaces l);
  '(body, l) ← split_at [x0a; "}"%byte] l;
  Some ((name, body), drop 2 l).
(** ** Parameters *)
Record ParameterDef := MkParameterDef {
  pd_ID : Z; pd_Name : bytes; pd_Format : bytes; pd_Enum : gmap Z bytes; pd_Families : list bytes; pd_SourceList : bytes }.
Record parameterBlock := MkParameterBlock { pb_ListName : bytes; pb_Family : bytes; pb_Params : list ParameterDef }.

Definition FamilyTEC : bytes := str "TEC".
Definition FamilyLDD112x : bytes := str "LDD_112x".
Definition FamilyLDD130x : bytes := str "LDD_130x".
Definition FamilyLDD1321 : bytes := str "LDD_1321".

Definition enumsFromRegistry (raw : bytes) : gmap Z (gmap Z bytes) :=
  let errorEnum := fold_left (λ (m : gmap Z bytes) x,
    let '(code, symbol, description) := x in
    match Atoi code with Some code => <[code := symbol ++ str " - " ++ description]> m | None => m end)
    (FindAll errorRE raw) {[0 := str "No error"]} in
  if (1 <? size errorEnum)%nat then {[105 := errorEnum]} else ∅.
Definition two_texts (a b : string) : gmap Z bytes := <[0 := str a]> {[1 := str b]}.
Definition enumFor (id : Z) (name : bytes) (registryEnums : gmap Z (gmap Z bytes)) : gmap Z bytes :=
  let enum := default ∅ (registryEnums !! id) in
  if negb (bool_decide (enum = ∅)) then enum
  else
    let has s := has_text s (ToLower name) in
    if has "enable"%string || has "enabled"%string then two_texts "Disabled" "Enabled"
    else if has "temperature is stable"%string then two_texts "Not stable" "Stable"
    else if has "save data to flash"%string then two_texts "Idle" "Save to flash"
    else if has "flash status"%string then two_texts "Ready" "Busy"
    else ∅.

Definition number_error (list_name : bool) : error :=
  Errorf (if list_name then "mecomdict: parse %s parameter id %q: %w" else "mecomdict: parse parameter id %q: %w") [].
Fixpoint parametersFromBlock (enums : gmap Z (gmap Z bytes)) (listed : bool) (matches : list (bytes * bytes * bytes)) : res (list ParameterDef) :=
  match matches with
  | [] => Ok []
  | (number, name, format) :: matches =>
      match Atoi number with
      | None => Err (number_error listed)
      | Some id =>
          params ← parametersFromBlock enums listed matches;
          Ok (MkParameterDef id name (ToUpper format) (enumFor id name enums) [] [] :: params)
      end
  end.
Definition inferFamily (listName : bytes) (params : list ParameterDef) : bytes :=
  let upper := ToUpper listName in
  if HasPrefix upper (str "TEC_") then FamilyTEC
  else if has_text "LDD_112" upper then FamilyLDD112x
  else if has_text "LDD_130" upper then FamilyLDD130x
  else if has_text "LDD_1321" upper then FamilyLDD1321
  else
    let names := fold_left (λ names param, names ++ x0a :: ToLower (pd_Name param)) params (ToLower listName) in
    let has s := has_text s names in
    if has "actual anode voltage"%string || has "cathode"%string then FamilyLDD1321
    else if has "photodiode input"%string || has "phase current x"%string || has "driver input voltage"%string then FamilyLDD130x
    else if has "laser diode current"%string || has "ldd"%string then FamilyLDD112x
    else if has "object temperature"%string || has "target object temperature"%string || has "sink temperature"%string then FamilyTEC
    else [].
Definition in_list (listName family : bytes) (p : ParameterDef) : ParameterDef :=
  MkParameterDef (pd_ID p) (pd_Name p) (pd_Format p) (pd_Enum p) [family] listName.
Fixpoint parameterBlocks_from (index : Z) (enums : gmap Z (gmap Z bytes)) (matches : list (bytes * bytes)) : res (list parameterBlock) :=
  match matches with
  | [] => Ok []
  | (listName, body) :: matches =>
      params ← parametersFromBlock enums true (FindAll parameterRE body);
      if bool_decide (params = []) then parameterBlocks_from (index + 1) enums matches
      else
        let family := inferFamily listName params in
        let family := if bool_decide (family = []) then str "REGISTRY_" ++ fmtD (index + 1) else family in
        blocks ← parameterBlocks_from (index + 1) enums matches;
        Ok (MkParameterBlock listName family (in_list listName family <$> params) :: blocks)
  end.
Definition parameterBlocks (raw : bytes) (enums : gmap Z (gmap Z bytes)) : res (list parameterBlock) :=
  parameterBlocks_from 0 enums (FindAll parameterBlockRE raw).

Fixpoint fresh_strings (seen : list bytes) (values : list bytes) : list bytes :=
  match values with
  | [] => []
  | value :: values =>
      let value := TrimSpace value in
      if bool_decide (value = []) || bool_decide (value ∈ seen) then fresh_strings seen values
      else value :: fresh_strings (value :: seen) values
  end.
Definition mergeStrings (left_ right_ : list bytes) : list bytes := fresh_strings [] (left_ ++ right_).
Definition merge_source (existing source : bytes) : bytes :=
  if negb (bool_decide (existing = [])) && negb (contains source existing) then existing ++ ","%byte :: source
  else if bool_decide (source = []) then existing else source.
Definition merge_param (seen : gmap Z ParameterDef) (param : ParameterDef) : gmap Z ParameterDef :=
  let param :=
    match seen !! pd_ID param with
    | Some existing =>
        MkParameterDef (pd_ID param) (pd_Name param) (pd_Format param) (pd_Enum param)
          (mergeStrings (pd_Families existing) (pd_Families param)) (merge_source (pd_SourceList existing) (pd_SourceList param))
    | None => param
    end in
  <[pd_ID param := param]> seen.
Definition param_less (a b : ParameterDef) : bool :=
  if pd_ID a =? pd_ID b then bytes_ltb (pd_Name a) (pd_Name b) else pd_ID a <? pd_ID b.
Definition sortedParameters (seen : gmap Z ParameterDef) : list ParameterDef := sort_stable param_less (snd <$> map_to_list seen).
Definition mergeParameterBlocks (blocks : list parameterBlock) : list ParameterDef :=
  sortedParameters (fold_left merge_param (blocks ≫= pb_Params) ∅).

Definition by_id (params : list ParameterDef) : gmap Z ParameterDef := fold_left (λ m p, <[pd_ID p := p]> m) params ∅.
(** [file]: what reading the file gives. *)
Definition LoadParameterRegistry (path : bytes) (file : res bytes) : res (list ParameterDef) :=
  if bool_decide (TrimSpace path = []) then Ok []
  else
    raw ← file;
    let enums := enumsFromRegistry raw in
    blocks ← parameterBlocks raw enums;
    if bool_decide (blocks = []) then params ← parametersFromBlock enums false (FindAll parameterRE raw); Ok (sortedParameters (by_id params))
    else Ok (mergeParameterBlocks blocks).
(** The file is read a second time when it does not tell families apart. *)
Definition LoadParameterRegistryForFamily (path family : bytes) (file again : res bytes) : res (list ParameterDef) :=
  if bool_decide (TrimSpace path = []) then Ok []
  else
    raw ← file;
    blocks ← parameterBlocks raw (enumsFromRegistry raw);
    let family := ToUpper (TrimSpace family) in
    if bool_decide (blocks = []) || bool_decide (family = []) then LoadParameterRegistry path again
    else
      let filtered := filter (λ block, ToUpper (pb_Family block) = family) blocks in
      if bool_decide (filtered = []) then Ok [] else Ok (mergeParameterBlocks filtered).

(** ** What is told of a parameter *)
Definition name_is (name : bytes) (words : list string) : bool := existsb (λ s, has_text s (ToLower name)) words.
Definition UnitForName (name : bytes) : bytes :=
  let is_ s := name_is name [s] in
  if is_ "temperature"%string then str "degC" else if is_ "voltage"%string then str "V" else if is_ "current"%string then str "A"
  else if is_ "power"%string then str "W" else if is_ "frequency"%string then str "Hz" else if is_ "time"%string then str "s" else [].
Definition KindFor (param : ParameterDef) : ValueKind :=
  let format := ToUpper (pd_Format param) in
  if bool_decide (format ∈ str <$> ["FLOAT32"; "FLOAT64"]%string) then ValueKindContinuous
  else if name_is (pd_Name param) ["enable"; "enabled"]%string then ValueKindBoolean
  else if name_is (pd_Name param) ["status"; "state"; "mode"; "error"; "warning"; "event"]%string then ValueKindEnum
  else if has_text "STRING" format then ValueKindString
  else ValueKindContinuous.
Definition kind_text (kind : ValueKind) : bytes :=
  str match kind with
      | ValueKindUnknown => "unknown" | ValueKindContinuous => "continuous" | ValueKindBoolean => "boolean"
      | ValueKindEnum => "enum" | ValueKindString => "string"
      end.
Definition DescriptionFor (param : ParameterDef) : bytes :=
  let name := TrimSpace (pd_Name param) in
  let name := if bool_decide (name = []) then str "Parameter " ++ fmtD (pd_ID param) else name in
  let format := ToUpper (TrimSpace (pd_Format param)) in
  let unit := UnitForName (pd_Name param) in
  JoinText (str "; ")
    ([name] ++ (if bool_decide (unit = []) then [] else [str "unit " ++ unit]) ++
     [if bool_decide (format = []) then str "MeCom " ++ fmtD (pd_ID param) else str "MeCom " ++ fmtD (pd_ID param) ++ " "%byte :: format] ++
     [str "kind " ++ kind_text (KindFor param)] ++
     (if (0 <? size (pd_Enum param))%nat then [str "enumerated values available"] else [])).
Definition CategoryForName (name : bytes) : bytes :=
  let is_ := name_is name in
  if is_ ["temperature"; "temp"]%string then str "Temperature"
  else if is_ ["power"; "current"; "voltage"]%string then str "Power and Output"
  else if is_ ["target"; "limit"; "pid"; "control"; "mode"; "enable"]%string then str "Control"
  else if is_ ["status"; "state"; "error"; "warning"; "event"; "alarm"]%string then str "Status and Events"
  else if is_ ["firmware"; "hardware"; "serial"; "device"; "version"]%string then str "Device Metadata"
  else str "Other Signals".
Definition parameter_object (param : ParameterDef) : Object :=
  let id := str "mecom:" ++ fmtD (pd_ID param) in
  let index := u16 (pd_ID param) in
  MkDictObject id index (pd_Name param)
    [MkDictEntry id index 0 (pd_Name param) (UnitForName (pd_Name param)) (ToUpper (pd_Format param)) (KindFor param) AccessReadWrite None None
       (pd_Enum param) (list_to_map [(str "parameter_id", fmtD (pd_ID param)); (str "category", CategoryForName (pd_Name param))])] ∅.
Definition DictionaryFromParameters (params : list ParameterDef) : Dictionary :=
  MkDictionary 1 ProtocolMeCom (str "mecom-pymecom-parameters")
    (MkDictDevice (str "Meerstetter") [] (str "TEC/LDD controller family") [] []) (parameter_object <$> params)
    {[str "source" := str "pyMeCom parameter registry"]}.

(** ** Matchers on text that is written for them *)
Definition quote_text (text : bytes) : bytes := x22 :: text ++ [x22].
Lemma quoted_app text l : text ≠ [] → x22 ∉ text → quoted (quote_text text ++ l) = Some (text, l).
Proof.
  intros Hne Hq. unfold quoted, quote_text. cbn [app]. rewrite <-app_assoc. cbn [app].
  change (x22 :: text ++ x22 :: l) with ([x22] ++ text ++ x22 :: l). rewrite lit_app. cbn [mbind option_bind].
  rewrite some_of_app; [|done| |done].
  - cbn [mbind option_bind]. change (x22 :: l) with ([x22] ++ l). by rewrite lit_app.
  - apply Forall_forall. intros b Hb. unfold not_quote. apply negb_true_iff, bool_decide_eq_false_2. by intros ->.
Qed.

Definition write_entry (a b c : string) (number first second : bytes) : bytes :=
  str a ++ " "%byte :: number ++ ","%byte :: " "%byte :: str b ++ " "%byte :: quote_text first ++ ","%byte :: " "%byte :: str c ++
  " "%byte :: quote_text second ++ ["}"%byte].
Definition plain_head (s : string) : Prop := ∃ b t, str s = b :: t ∧ regex_space b = false.
Lemma match_entry_app a b c number first second rest :
  plain_head b → plain_head c → number ≠ [] → Forall (λ b, is_digit b = true) number →
  first ≠ [] → x22 ∉ first → second ≠ [] → x22 ∉ second →
  match_entry a b c (write_entry a b c number first second ++ rest) = Some ((number, first, second), rest).
Proof.
  intros (hb & tb & Eb & Hb) (hc & tc & Ec & Hc) Hn Hd Hf Hfq Hs Hsq. unfold match_entry, write_entry.
  rewrite <-!app_assoc. rewrite lit_app. cbn [mbind option_bind].
  assert (Hsp : ∀ l, spaces (" "%byte :: number ++ l) = number ++ l).
  { intros l. destruct number as [|d number]; [done|]. apply Forall_cons in Hd as [Hd _]. apply spaces_one. by apply digit_not_space. }
  cbn [app]. rewrite <-!app_assoc. cbn [app]. rewrite <-!app_assoc. rewrite Hsp, some_of_app by done. cbn [mbind option_bind].
  match goal with |- context [lit [","%byte] (","%byte :: ?l)] => change (","%byte :: l) with ([","%byte] ++ l) end.
  rewrite lit_app. cbn [mbind option_bind].
  assert (Hspb : ∀ l, spaces (" "%byte :: str b ++ l) = str b ++ l) by (intros l; rewrite Eb; by apply spaces_one).
  assert (Hspc : ∀ l, spaces (" "%byte :: str c ++ l) = str c ++ l) by (intros l; rewrite Ec; by apply spaces_one).
  assert (Hspq : ∀ t l, spaces (" "%byte :: quote_text t ++ l) = quote_text t ++ l) by (intros t l; by apply spaces_one).
  cbn [app]. rewrite <-!app_assoc. rewrite Hspb, lit_app. cbn [mbind option_bind app]. rewrite <-!app_assoc.
  rewrite Hspq, quoted_app by done. cbn [mbind option_bind app].
  match goal with |- context [lit [","%byte] (","%byte :: ?l)] => change (","%byte :: l) with ([","%byte] ++ l) end.
  rewrite lit_app. cbn [mbind option_bind app]. rewrite <-?app_assoc. rewrite Hspc, lit_app. cbn [mbind option_bind app]. rewrite <-?app_assoc.
  rewrite Hspq, quoted_app by done. cbn [mbind option_bind app].
  change ("}"%byte :: rest) with (["}"%byte] ++ rest). by rewrite lit_app.
Qed.

(** *** Scanning *)
Lemma entry_head a b c h l : h ≠ "{"%byte → (∃ t, str a = "{"%byte :: t) → match_entry a b c (h :: l) = None.
Proof. intros Hh (t & Ea). unfold match_entry. rewrite Ea, lit_head by done. done. Qed.

(** *** A source file *)
(** Lists of parameters as the generator writes them. *)
Record source_param := MkSourceParam { sp_ID : Z; sp_Name : bytes; sp_Format : bytes }.
Record source_list := MkSourceList { sl_Name : bytes; sl_Params : list source_param }.
Definition write_param (p : source_param) : bytes :=
  write_entry "{ID:" "Name:" "Format:" (fmtD (sp_ID p)) (sp_Name p) (sp_Format p).
Definition write_params (ps : list source_param) : bytes := ps ≫= λ p, x0a :: x09 :: write_param p ++ [","%byte].
Definition list_end : bytes := [x0a; "}"%byte].
Definition write_list (l : source_list) : bytes :=
  str "var " ++ sl_Name l ++ str " = []ParameterDef{" ++ write_params (sl_Params l) ++ list_end ++ [x0a].
Definition write_source (ls : list source_list) : bytes := ls ≫= write_list.

Definition text_ok (t : bytes) : Prop := t ≠ [] ∧ (x22 ∉ t) ∧ (x0a ∉ t) ∧ "{"%byte ∉ t.
Record source_param_ok (p : source_param) : Prop := {
  sp_id : 0 ≤ sp_ID p < 2 ^ 63;
  sp_texts : text_ok (sp_Name p) ∧ text_ok (sp_Format p) }.
Record source_list_ok (l : source_list) : Prop := {
  sl_name : sl_Name l ≠ [] ∧ Forall (λ b, ident_byte b = true) (sl_Name l);
  sl_params : Forall source_param_ok (sl_Params l) }.

Lemma dec_digits_digit fuel z : 0 ≤ z → Forall (λ b, is_digit b = true) (dec_digits fuel z).
Proof.
  assert (Hc : ∀ d, 0 ≤ d < 10 → is_digit (dec_char d) = true).
  { intros d Hd. unfold is_digit, dec_char. rewrite bz_zb_small by lia. apply andb_true_iff. rewrite !Z.leb_le. lia. }
  revert z. induction fuel as [|fuel IH]; intros z Hz; [constructor|]. cbn [dec_digits]. destruct (Z.ltb_spec z 10).
  - apply Forall_singleton, Hc. lia.
  - apply Forall_app. split; [apply IH, Z.div_pos; lia|]. apply Forall_singleton, Hc, Z.mod_pos_bound. lia.
Qed.
Lemma dec_digits_some fuel z : dec_digits (S fuel) z ≠ [].
Proof. cbn [dec_digits]. destruct (z <? 10); [done|]. intros [_ ?]%app_eq_nil. done. Qed.
Lemma fmtD_number z : 0 ≤ z < 2 ^ 63 → fmtD z ≠ [] ∧ Forall (λ b, is_digit b = true) (fmtD z) ∧ Atoi (fmtD z) = Some z.
Proof.
  intros Hz. rewrite fmtD_digits by lia. split_and!.
  - apply (dec_digits_some 18).
  - apply dec_digits_digit. lia.
  - by apply Atoi_dec.
Qed.
Lemma write_param_match p rest : source_param_ok p →
  parameterRE (write_param p ++ rest) = Some ((fmtD (sp_ID p), sp_Name p, sp_Format p), rest).
Proof.
  intros [Hid [(Hn & Hnq & _) (Hf & Hfq & _)]]. destruct (fmtD_number _ Hid) as (Hd & Hdd & _).
  apply match_entry_app; try done; by eexists _, _.
Qed.
Lemma params_scan ps rest ms : Forall source_param_ok ps → scans parameterRE rest ms →
  scans parameterRE (write_params ps ++ rest) (((λ p, (fmtD (sp_ID p), sp_Name p, sp_Format p)) <$> ps) ++ ms).
Proof.
  intros Hps Hrest. induction Hps as [|p ps Hp Hps IH]; [done|]. unfold write_params. rewrite bind_cons, fmap_cons. fold (write_params ps).
  cbn [app]. apply scans_skip; [by apply entry_head; [|eexists]|]. apply scans_skip; [by apply entry_head; [|eexists]|].
  rewrite <-!app_assoc. eapply scans_match; [by apply write_param_match| |].
  - unfold write_param, write_entry. rewrite !length_app. simpl. lia.
  - cbn [app]. apply scans_skip; [by apply entry_head; [|eexists]|exact IH].
Qed.

Lemma split_at_skips sub a l : (∀ b l, b ∈ a → HasPrefix (b :: l) sub = false) →
  split_at sub (a ++ l) = '(before, from) ← split_at sub l; Some (a ++ before, from).
Proof.
  intros Ha. induction a as [|b a IH]; cbn [app]; [by destruct (split_at sub l) as [[? ?]|]|].
  cbn [split_at]. rewrite Ha by (by left). rewrite IH by (intros c k ?; apply Ha; by right). by destruct (split_at sub l) as [[? ?]|].
Qed.
Lemma write_param_line p : source_param_ok p → x0a ∉ write_param p.
Proof.
  intros [Hid [(_ & _ & Hn & _) (_ & _ & Hf & _)]]. destruct (fmtD_number _ Hid) as (_ & Hd & _).
  unfold write_param, write_entry, quote_text. rewrite Forall_forall in Hd.
  assert (Hdn : x0a ∉ fmtD (sp_ID p)) by (intros Hin; by apply Hd in Hin).
  repeat (rewrite not_elem_of_app || rewrite not_elem_of_cons). split_and!; try done; try (by apply (bool_decide_eq_true_1 (_ ∉ _))); apply not_elem_of_nil.
Qed.
Lemma params_end ps rest : Forall source_param_ok ps → split_at list_end (write_params ps ++ list_end ++ rest) = Some (write_params ps, list_end ++ rest).
Proof.
  induction 1 as [|p ps Hp Hps IH]; [done|]. unfold write_params. rewrite bind_cons. fold (write_params ps). rewrite <-!app_assoc.
  cbn [app]. cbn [split_at].
  assert (H2 : ∀ l, HasPrefix (x0a :: x09 :: l) list_end = false) by (intros l; unfold HasPrefix; by apply bool_decide_eq_false_2).
  assert (H1 : ∀ l, HasPrefix (x09 :: l) list_end = false) by (intros l; by apply HasPrefix_head).
  rewrite H2, H1. rewrite <-app_assoc.
  rewrite (app_assoc (write_param p)). rewrite split_at_skips.
  - rewrite IH. cbn [mbind option_bind]. by rewrite <-app_assoc.
  - intros b l Hb. apply HasPrefix_head. intros ->. apply elem_of_app in Hb as [Hb|Hb]; [by apply write_param_line in Hb|].
    apply list_elem_of_singleton in Hb. done.
Qed.

(** *** The lists of a source file *)
Lemma ident_not_space b : ident_byte b = true → regex_space b = false.
Proof.
  intros Hb. pose proof (range_check (λ c, implb (ident_byte (zb c)) (negb (regex_space (zb c)))) 256 eq_refl (bz b) (bz_range b)) as Hc.
  cbv beta in Hc. rewrite zb_bz, Hb in Hc. by apply negb_true_iff in Hc.
Qed.
Lemma ident_not_brace b : ident_byte b = true → b ≠ "{"%byte.
Proof. by intros Hb ->. Qed.
Lemma write_list_match l rest : source_list_ok l →
  parameterBlockRE (write_list l ++ rest) = Some ((sl_Name l, write_params (sl_Params l)), x0a :: rest).
Proof.
  intros [[Hne Hid] Hps]. unfold parameterBlockRE, write_list. rewrite <-!app_assoc.
  change (str "var ") with (str "var" ++ [" "%byte]). rewrite <-app_assoc, lit_app. cbn [mbind option_bind].
  destruct (sl_Name l) as [|h t] eqn:En; [done|]. pose proof Hid as [Hh _]%Forall_cons.
  cbn [app]. change (" "%byte :: h :: ?l) with ([" "%byte] ++ h :: l).
  rewrite (some_of_app regex_space [" "%byte] h) by (done || (by apply Forall_singleton) || by apply ident_not_space). cbn [mbind option_bind].
  change (str " = []ParameterDef{") with (" "%byte :: "="%byte :: " "%byte :: str "[]ParameterDef" ++ ["{"%byte]).
  cbn [app]. match goal with |- context [some_of ident_byte (h :: t ++ ?b :: ?l)] => change (h :: t ++ b :: l) with ((h :: t) ++ b :: l) end.
  rewrite some_of_app by done. cbn [mbind option_bind]. rewrite spaces_one by done.
  match goal with |- context [lit ["="%byte] ("="%byte :: ?l)] => change ("="%byte :: l) with (["="%byte] ++ l) end. rewrite lit_app. cbn [mbind option_bind].
  rewrite <-!app_assoc. assert (Hsp : ∀ l, spaces (" "%byte :: str "[]ParameterDef" ++ l) = str "[]ParameterDef" ++ l) by (intros; by apply spaces_one).
  rewrite Hsp, lit_app. cbn [mbind option_bind app]. rewrite spaces_none by done.
  match goal with |- context [lit ["{"%byte] ("{"%byte :: ?l)] => change ("{"%byte :: l) with (["{"%byte] ++ l) end. rewrite lit_app. cbn [mbind option_bind].
  pose proof (params_end (sl_Params l) ([x0a] ++ rest) Hps) as Hend. unfold list_end in *. cbn [app] in *. rewrite Hend.
  cbn [mbind option_bind drop app]. done.
Qed.
Lemma blocks_scan ls : Forall source_list_ok ls →
  scans parameterBlockRE (write_source ls) ((λ l, (sl_Name l, write_params (sl_Params l))) <$> ls).
Proof.
  induction 1 as [|l ls Hl Hls IH]; [by apply scans_nil|]. unfold write_source. rewrite bind_cons, fmap_cons. fold (write_source ls).
  eapply scans_match; [by apply write_list_match| |].
  - unfold write_list. rewrite !length_app. simpl. lia.
  - apply scans_skip; [|exact IH]. unfold parameterBlockRE. change (str "var") with ("v"%byte :: str "ar"). by rewrite lit_head.
Qed.

(** No error codes in it. *)
Lemma error_head b l : b ≠ "{"%byte → errorRE (b :: l) = None.
Proof. intros Hb. apply entry_head; [done|by eexists]. Qed.
Lemma error_brace b l : b ≠ "C"%byte → errorRE ("{"%byte :: b :: l) = None.
Proof.
  intros Hb. unfold errorRE, match_entry, lit. assert (E : HasPrefix ("{"%byte :: b :: l) (str "{Code:") = false).
  { unfold HasPrefix. apply bool_decide_eq_false_2. cbn. by intros [= ->]. }
  by rewrite E.
Qed.
Lemma error_scan_plain a l : "{"%byte ∉ a → scans errorRE l [] → scans errorRE (a ++ l) [].
Proof. intros Ha. apply scans_skips. intros b k Hb. apply error_head. by intros ->. Qed.
Lemma error_scan_params ps rest : Forall source_param_ok ps → scans errorRE rest [] → scans errorRE (write_params ps ++ rest) [].
Proof.
  intros Hps Hr. induction Hps as [|p ps Hp Hps IH]; [done|]. unfold write_params. rewrite bind_cons. fold (write_params ps). cbn [app].
  do 2 (apply scans_skip; [by apply error_head|]). rewrite <-!app_assoc. unfold write_param, write_entry.
  change (str "{ID:") with ("{"%byte :: "I"%byte :: str "D:"). cbn [app]. apply scans_skip; [by apply error_brace|].
  destruct Hp as [Hid [(_ & _ & _ & Hn) (_ & _ & _ & Hf)]]. destruct (fmtD_number _ Hid) as (_ & Hd & _). rewrite Forall_forall in Hd.
  assert (Hdn : "{"%byte ∉ fmtD (sp_ID p)) by (intros Hin; by apply Hd in Hin).
  assert (Hrest : scans errorRE ([","%byte] ++ write_params ps ++ rest) []) by (by apply error_scan_plain; [apply (bool_decide_eq_true_1 (_ ∉ _))|]).
  match goal with |- scans _ ?l _ => assert (E : l = (str "ID:" ++ " "%byte :: fmtD (sp_ID p) ++ str ", Name: " ++ quote_text (sp_Name p) ++
    str ", Format: " ++ quote_text (sp_Format p) ++ str "}") ++ [","%byte] ++ write_params ps ++ rest) end.
  { cbn. rewrite <-!app_assoc. cbn. by rewrite <-!app_assoc. }
  rewrite E. apply error_scan_plain; [|done]. unfold quote_text.
  repeat (rewrite not_elem_of_app || rewrite not_elem_of_cons). split_and!; try done; by apply (bool_decide_eq_true_1 (_ ∉ _)).
Qed.
Lemma source_errors ls : Forall source_list_ok ls → scans errorRE (write_source ls) [].
Proof.
  induction 1 as [|l ls [[Hne Hid] Hps] Hls IH]; [by apply scans_nil|]. unfold write_source. rewrite bind_cons. fold (write_source ls).
  unfold write_list. change (str " = []ParameterDef{") with (str " = []ParameterDef" ++ ["{"%byte]). rewrite <-!app_assoc.
  apply error_scan_plain; [by apply (bool_decide_eq_true_1 (_ ∉ _))|]. apply error_scan_plain.
  { intros Hin. rewrite Forall_forall in Hid. by apply (ident_not_brace _ (Hid _ Hin)). }
  apply error_scan_plain; [by apply (bool_decide_eq_true_1 (_ ∉ _))|].
  assert (Hend : scans errorRE (list_end ++ [x0a] ++ write_source ls) []).
  { rewrite app_assoc. apply error_scan_plain; [by apply (bool_decide_eq_true_1 (_ ∉ _))|done]. }
  cbn [app]. apply scans_skip; [|by apply error_scan_params]. destruct (sl_Params l); by apply error_brace.
Qed.
Lemma source_enums ls : Forall source_list_ok ls → enumsFromRegistry (write_source ls) = ∅.
Proof.
  intros Hls. unfold enumsFromRegistry. rewrite (scans_FindAll _ _ _ (source_errors ls Hls)). cbn [fold_left].
  by rewrite map_size_singleton.
Qed.

(** *** The blocks of a source file *)
Definition source_def (p : source_param) : ParameterDef :=
  MkParameterDef (sp_ID p) (sp_Name p) (ToUpper (sp_Format p)) (enumFor (sp_ID p) (sp_Name p) ∅) [] [].
(** The family of the list in that place. *)
Definition list_family (index : nat) (l : source_list) : bytes :=
  let family := inferFamily (sl_Name l) (source_def <$> sl_Params l) in
  if bool_decide (family = []) then str "REGISTRY_" ++ fmtD (Z.of_nat index + 1) else family.
Definition list_defs (index : nat) (l : source_list) : list ParameterDef :=
  in_list (sl_Name l) (list_family index l) <$> (source_def <$> sl_Params l).
Definition list_block (index : nat) (l : source_list) : list parameterBlock :=
  if bool_decide (sl_Params l = []) then [] else [MkParameterBlock (sl_Name l) (list_family index l) (list_defs index l)].
Lemma read_params enums listed ps : enums = ∅ → Forall source_param_ok ps →
  parametersFromBlock enums listed ((λ p, (fmtD (sp_ID p), sp_Name p, sp_Format p)) <$> ps) = Ok (source_def <$> ps).
Proof.
  intros ->. induction 1 as [|p ps [Hid _] Hps IH]; [done|]. rewrite !fmap_cons. cbn [parametersFromBlock].
  destruct (fmtD_number _ Hid) as (_ & _ & Ha). by rewrite Ha, IH.
Qed.
Lemma imap_shift {A B} (f : nat → A → B) k l : imap ((λ i, f (k + i)%nat) ∘ S) l = imap (λ i, f (S k + i)%nat) l.
Proof. apply imap_ext. intros i x _. cbn. by rewrite Nat.add_succ_r. Qed.
Lemma read_blocks index ls : Forall source_list_ok ls →
  parameterBlocks_from (Z.of_nat index) ∅ ((λ l, (sl_Name l, write_params (sl_Params l))) <$> ls) =
  Ok (concat (imap (λ i, list_block (index + i)) ls)).
Proof.
  intros Hls. revert index. induction Hls as [|l ls [Hn Hps] Hls IH]; intros index; [done|]. rewrite fmap_cons. cbn [parameterBlocks_from imap concat].
  rewrite <-(app_nil_r (write_params (sl_Params l))), (scans_FindAll _ _ _ (params_scan _ [] [] Hps (scans_nil _ eq_refl))).
  rewrite app_nil_r, read_params by done. cbn [mbind result_bind].
  replace (Z.of_nat index + 1) with (Z.of_nat (S index)) by lia. rewrite IH.
  rewrite (imap_shift list_block index), Nat.add_0_r. destruct (decide (sl_Params l = [])) as [Hp|Hp].
  - assert (Hb : list_block index l = []) by (unfold list_block; by rewrite bool_decide_eq_true_2). by rewrite Hb, Hp, bool_decide_eq_true_2.
  - assert (Hb : list_block index l = [MkParameterBlock (sl_Name l) (list_family index l) (list_defs index l)]).
    { unfold list_block. by rewrite bool_decide_eq_false_2. }
    rewrite Hb, (bool_decide_eq_false_2 (_ <$> _ = [])) by (by destruct (sl_Params l)). cbn [mbind result_bind app].
    unfold list_defs, list_family. by replace (Z.of_nat index + 1) with (Z.of_nat (S index)) by lia.
Qed.

(** *** Merging *)
Lemma fresh_strings_spec seen values :
  NoDup (fresh_strings seen values) ∧
  ∀ v, v ∈ fresh_strings seen values ↔ (v ∉ seen) ∧ v ≠ [] ∧ v ∈ TrimSpace <$> values.
Proof.
  revert seen. induction values as [|w values IH]; intros seen; cbn [fresh_strings].
  { split; [constructor|]. intros v. rewrite fmap_nil, !elem_of_nil. tauto. }
  rewrite fmap_cons. destruct (bool_decide_reflect (TrimSpace w = [])) as [Hw|Hw]; cbn [orb].
  { destruct (IH seen) as [Hnd Hin]. split; [done|]. intros v. rewrite Hin, elem_of_cons. naive_solver congruence. }
  destruct (bool_decide_reflect (TrimSpace w ∈ seen)) as [Hs|Hs].
  { destruct (IH seen) as [Hnd Hin]. split; [done|]. intros v. rewrite Hin, elem_of_cons. naive_solver congruence. }
  destruct (IH (TrimSpace w :: seen)) as [Hnd Hin]. split.
  - constructor; [|done]. rewrite Hin, elem_of_cons. tauto.
  - intros v. rewrite elem_of_cons, Hin, !elem_of_cons. destruct (decide (v = TrimSpace w)) as [->|]; tauto.
Qed.
Definition family_ok (f : bytes) : Prop := f ≠ [] ∧ trimmed f.
Lemma fmap_trimmed l : Forall family_ok l → TrimSpace <$> l = l.
Proof. induction 1 as [|f l [_ Hf] Hl IH]; [done|]. by rewrite fmap_cons, IH, Hf. Qed.
Lemma mergeStrings_spec l r : Forall family_ok l → Forall family_ok r →
  NoDup (mergeStrings l r) ∧ Forall family_ok (mergeStrings l r) ∧ ∀ v, v ∈ mergeStrings l r ↔ v ∈ l ∨ v ∈ r.
Proof.
  intros Hl Hr. unfold mergeStrings. destruct (fresh_strings_spec [] (l ++ r)) as [Hnd Hin].
  assert (Hok : Forall family_ok (l ++ r)) by by apply Forall_app. rewrite fmap_trimmed in Hin by done. rewrite Forall_forall in Hok.
  split_and!; [done| |].
  - apply Forall_forall. intros v (_ & _ & Hv)%Hin. by apply Hok.
  - intros v. rewrite Hin, <-elem_of_app. split; [by intros (_ & _ & ?)|]. intros Hv. split_and!; [apply not_elem_of_nil|by apply Hok|done].
Qed.

(** What is known of a number after the parameters [qs]: the last of them that has
    it tells name, format and values, and the families of all are listed once. *)
Record merged (qs : list ParameterDef) (id : Z) (d : ParameterDef) : Prop := {
  md_id : pd_ID d = id;
  md_last : ∃ before q after, qs = before ++ q :: after ∧ Forall (λ p, pd_ID p ≠ id) after ∧
    pd_ID q = id ∧ pd_Name d = pd_Name q ∧ pd_Format d = pd_Format q ∧ pd_Enum d = pd_Enum q;
  md_families : NoDup (pd_Families d) ∧ Forall family_ok (pd_Families d) ∧
    ∀ f, f ∈ pd_Families d ↔ ∃ q, q ∈ qs ∧ pd_ID q = id ∧ f ∈ pd_Families q }.
Lemma merge_spec qs : Forall (λ q, ∃ f, pd_Families q = [f] ∧ family_ok f) qs →
  ∀ id, match fold_left merge_param qs ∅ !! id with Some d => merged qs id d | None => ∀ q, q ∈ qs → pd_ID q ≠ id end.
Proof.
  induction qs as [|q qs IH] using rev_ind; [intros _ id; cbn [fold_left]; rewrite lookup_empty; by intros q ?%elem_of_nil|].
  intros [Hqs Hq]%Forall_app id. apply Forall_singleton in Hq as (f & Hf & Hfok). specialize (IH Hqs). rewrite fold_left_app. cbn [fold_left].
  set (m := fold_left merge_param qs ∅) in *. unfold merge_param. destruct (decide (pd_ID q = id)) as [<-|Hne].
  - specialize (IH (pd_ID q)). destruct (m !! pd_ID q) as [e|]; cbn [pd_ID]; rewrite lookup_insert_eq.
    + destruct IH as [Hid _ (_ & Hok & Hin)]. destruct (mergeStrings_spec (pd_Families e) (pd_Families q)) as (Hnd' & Hok' & Hin').
      { done. } { rewrite Hf. by apply Forall_singleton. }
      constructor; [done|by eexists qs, q, []|]. split_and!; [done..|]. intros g. cbn [pd_Families]. rewrite Hin', Hin. set_solver.
    + constructor; [done|by eexists qs, q, []|]. rewrite Hf. split_and!; [apply NoDup_singleton|by apply Forall_singleton|].
      intros g. split; [intros Hg; exists q; rewrite Hf; set_solver|]. intros (q' & [Hq'|Hq']%elem_of_app & Hid & Hg); [by apply IH in Hq'|].
      apply list_elem_of_singleton in Hq' as ->. by rewrite Hf in Hg.
  - rewrite lookup_insert_ne by (by destruct (m !! pd_ID q)). specialize (IH id). destruct (m !! id) as [d|].
    + destruct IH as [Hid (before & p & after & -> & Ha & Hl) (Hnd & Hok & Hin)]. constructor; [done| |].
      * exists before, p, (after ++ [q]). rewrite <-app_assoc. split_and!; [done| |apply Hl..]. apply Forall_app. split; [done|]. by apply Forall_singleton.
      * split_and!; [done..|]. intros g. rewrite Hin. apply exist_proper. intros q'. rewrite (elem_of_app _ [q]), list_elem_of_singleton. naive_solver.
    + intros p [Hp|Hp%list_elem_of_singleton]%elem_of_app; [by apply IH|by subst p].
Qed.

Lemma param_less_asym a b : param_less a b = true → param_less b a = false.
Proof.
  unfold param_less. rewrite (Z.eqb_sym (pd_ID b)). destruct (Z.eqb_spec (pd_ID a) (pd_ID b)); [apply bytes_ltb_asym|].
  rewrite Z.ltb_lt, Z.ltb_ge. lia.
Qed.
Lemma param_less_trans a b c : not_after param_less a b → not_after param_less b c → not_after param_less a c.
Proof.
  unfold not_after, param_less. intros Hab Hbc. apply not_true_iff_false. intros Hac. revert Hab Hbc Hac.
  destruct (Z.eqb_spec (pd_ID b) (pd_ID a)), (Z.eqb_spec (pd_ID c) (pd_ID b)), (Z.eqb_spec (pd_ID c) (pd_ID a)); rewrite ?Z.ltb_lt, ?Z.ltb_ge; try lia.
  intros Hab Hbc [Hac|Hac]%(bytes_ltb_split _ (pd_Name b)); congruence.
Qed.
Lemma sortedParameters_spec (m : gmap Z ParameterDef) : (∀ id d, m !! id = Some d → pd_ID d = id) →
  StronglySorted Z.lt (pd_ID <$> sortedParameters m) ∧ ∀ d, d ∈ sortedParameters m ↔ m !! pd_ID d = Some d.
Proof.
  intros Hid. unfold sortedParameters. split.
  - apply sorted_keys.
    + eapply (StronglySorted_weaken (not_after param_less)); [|apply sort_stable_sorted; [apply param_less_asym|apply param_less_trans]].
      intros a b. unfold not_after, param_less. destruct (Z.eqb_spec (pd_ID b) (pd_ID a)); [lia|]. rewrite Z.ltb_ge. lia.
    + rewrite sort_stable_Permutation, <-list_fmap_compose.
      rewrite (list_fmap_ext _ fst); [apply NoDup_fst_map_to_list|]. intros n [id d] Hn%list_elem_of_lookup_2%elem_of_map_to_list. cbn. by apply Hid.
  - intros d. rewrite sort_stable_Permutation, list_elem_of_fmap. split.
    + intros ([id d'] & -> & Hd%elem_of_map_to_list). cbn. by rewrite (Hid _ _ Hd).
    + intros Hd. exists (pd_ID d, d). split; [done|]. by apply elem_of_map_to_list.
Qed.

(** *** All parameters of a source file *)
Definition source_defs (ls : list source_list) : list ParameterDef := concat (imap list_defs ls).
Lemma blocks_params index ls :
  concat (imap (λ i, list_block (index + i)) ls) ≫= pb_Params = concat (imap (λ i, list_defs (index + i)) ls).
Proof.
  revert index. induction ls as [|l ls IH]; intros index; [done|]. cbn [imap concat]. rewrite bind_app. f_equal.
  - unfold list_block. destruct (bool_decide_reflect (sl_Params l = [])) as [E|E].
    + unfold list_defs. by rewrite E.
    + cbn. by rewrite app_nil_r.
  - rewrite (imap_shift list_block index), (imap_shift list_defs index). apply IH.
Qed.
Lemma elem_of_source_defs ls q :
  q ∈ source_defs ls ↔ ∃ i l p, ls !! i = Some l ∧ p ∈ sl_Params l ∧ q = in_list (sl_Name l) (list_family i l) (source_def p).
Proof.
  unfold source_defs. rewrite list_elem_of_In, in_concat. setoid_rewrite <-list_elem_of_In. split.
  - intros (x & Hx & Hq). apply list_elem_of_lookup in Hx as [i Hi]. rewrite list_lookup_imap in Hi. destruct (ls !! i) as [l|] eqn:El; [|done].
    injection Hi as <-. unfold list_defs in Hq. apply list_elem_of_fmap in Hq as (d & -> & (p & -> & Hp)%list_elem_of_fmap). by eexists i, l, p.
  - intros (i & l & p & El & Hp & ->). exists (list_defs i l). split.
    + apply list_elem_of_lookup. exists i. by rewrite list_lookup_imap, El.
    + unfold list_defs. by do 2 apply list_elem_of_fmap_2.
Qed.
(** The same parameter in the source and in the result. *)
Definition reads_as (p : source_param) (q : ParameterDef) : Prop :=
  pd_ID q = sp_ID p ∧ pd_Name q = sp_Name p ∧ pd_Format q = ToUpper (sp_Format p).
Lemma source_defs_read ls : Forall2 reads_as (ls ≫= sl_Params) (source_defs ls).
Proof.
  assert (H : ∀ i l, Forall2 reads_as (sl_Params l) (list_defs i l)).
  { intros i l. unfold list_defs. rewrite <-list_fmap_compose. apply Forall2_fmap_r, Forall_Forall2_diag, Forall_forall. done. }
  unfold source_defs. revert H. generalize list_defs as defs. intros defs H. revert defs H. induction ls as [|l ls IH]; intros defs H; [constructor|]. rewrite bind_cons. cbn [imap concat].
  apply Forall2_app; [apply H|]. apply (IH (defs ∘ S)). intros i l'. apply H.
Qed.
Lemma chars_trimmed l : Forall (λ b, is_space b = false) l → trimmed l.
Proof.
  intros Hl. destruct (decide (l = [])) as [->|Hne]; [done|]. destruct (exists_last Hne) as (a & c & ->). apply trimmed_ends.
  - apply Forall_app in Hl as [_ Hc]. apply (Forall_inv Hc).
  - intros b t E. rewrite E in Hl. apply Forall_cons in Hl as [Hb _]. exact Hb.
Qed.
Lemma list_family_ok i l : family_ok (list_family i l).
Proof.
  unfold list_family. destruct (bool_decide_reflect (inferFamily (sl_Name l) (source_def <$> sl_Params l) = [])) as [E|E].
  - split; [done|]. apply chars_trimmed, Forall_app. split; [by apply (bool_decide_eq_true_1 (Forall _ _))|].
    unfold fmtD. destruct (Z.ltb_spec (Z.of_nat i + 1) 0); [lia|]. eapply Forall_impl; [apply dec_digits_chars; lia|]. by intros b [? _].
  - split; [done|]. unfold inferFamily in *. repeat case_match; done.
Qed.
Lemma merge_source_defs ls :
  let params := sortedParameters (fold_left merge_param (source_defs ls) ∅) in
  StronglySorted Z.lt (pd_ID <$> params) ∧
  (∀ id, id ∈ pd_ID <$> params ↔ ∃ q, q ∈ source_defs ls ∧ pd_ID q = id) ∧
  ∀ d, d ∈ params → merged (source_defs ls) (pd_ID d) d.
Proof.
  intros params. unfold params. clear params.
  assert (Hok : Forall (λ q, ∃ f, pd_Families q = [f] ∧ family_ok f) (source_defs ls)).
  { apply Forall_forall. intros q (i & l & p & _ & _ & ->)%elem_of_source_defs. eexists. split; [done|apply list_family_ok]. }
  pose proof (merge_spec _ Hok) as Hm. set (m := fold_left merge_param _ ∅) in *. destruct (sortedParameters_spec m) as [Hs Hin].
  { intros id d Hd. specialize (Hm id). rewrite Hd in Hm. apply Hm. }
  split_and!; [done| |].
  - intros id. rewrite list_elem_of_fmap. split.
    + intros (d & -> & Hd%Hin). specialize (Hm (pd_ID d)). rewrite Hd in Hm. destruct Hm as [_ (before & q & after & E & _ & Hq & _) _].
      exists q. split; [|done]. rewrite E. apply elem_of_app. right. by left.
    + intros (q & Hq & Hid). specialize (Hm id). destruct (m !! id) as [d|] eqn:Ed; [|by apply Hm in Hq].
      exists d. destruct Hm as [Hd _ _]. split; [done|]. apply Hin. by rewrite Hd.
  - intros d Hd%Hin. specialize (Hm (pd_ID d)). by rewrite Hd in Hm.
Qed.

(** C32: a registry is read back as it is written.  For every file of lists of
    parameters (the lists named by identifiers), with numbers of 63 bits and names and
    formats that are not empty and have no quotes, braces and line ends, one list of
    which is not empty, loading succeeds; the result has every number that is written
    exactly once, in ascending order; its name and format (in capitals) are those of
    the last parameter of the file with that number; and its families are, each once,
    those of the lists that have the number. *)
Theorem registry_read_back (path : bytes) (ls : list source_list) :
  TrimSpace path ≠ [] → Forall source_list_ok ls → (∃ l, l ∈ ls ∧ sl_Params l ≠ []) →
  ∃ params, LoadParameterRegistry path (Ok (write_source ls)) = Ok params ∧
    StronglySorted Z.lt (pd_ID <$> params) ∧
    (∀ id, id ∈ pd_ID <$> params ↔ ∃ l p, l ∈ ls ∧ p ∈ sl_Params l ∧ sp_ID p = id) ∧
    ∀ d, d ∈ params →
      (∃ before p after, ls ≫= sl_Params = before ++ p :: after ∧ Forall (λ p', sp_ID p' ≠ pd_ID d) after ∧ reads_as p d) ∧
      NoDup (pd_Families d) ∧
      ∀ f, f ∈ pd_Families d ↔ ∃ i l p, ls !! i = Some l ∧ p ∈ sl_Params l ∧ sp_ID p = pd_ID d ∧ f = list_family i l.
Proof.
  intros Hpath Hls (l0 & Hl0 & Hp0). unfold LoadParameterRegistry. rewrite bool_decide_eq_false_2 by done. cbn [mbind result_bind].
  cbn zeta. rewrite source_enums by done. unfold parameterBlocks. rewrite (scans_FindAll _ _ _ (blocks_scan ls Hls)).
  rewrite (read_blocks 0) by done. cbn [mbind result_bind]. unfold mergeParameterBlocks. rewrite blocks_params.
  rewrite bool_decide_eq_false_2.
  2: { intros E. apply (f_equal (λ b, b ≫= pb_Params)) in E. rewrite blocks_params in E. destruct (sl_Params l0) as [|p0 ps0] eqn:Eps; [done|].
    apply list_elem_of_lookup in Hl0 as [i Hi]. apply (not_elem_of_nil (in_list (sl_Name l0) (list_family i l0) (source_def p0))).
    change ([] ≫= pb_Params) with (@nil ParameterDef) in E. rewrite <-E. apply elem_of_source_defs. exists i, l0, p0. rewrite Eps. split_and!; [done|by left|done]. }
  destruct (merge_source_defs ls) as (Hs & Hids & Hd). eexists. split; [done|]. split_and!; [exact Hs| |].
  - intros id. etrans; [apply Hids|]. split.
    + intros (q & (i & l & p & Hi & Hp & ->)%elem_of_source_defs & <-). exists l, p. split_and!; [by eapply list_elem_of_lookup_2|done..].
    + intros (l & p & [i Hi]%list_elem_of_lookup & Hp & <-). eexists. split; [apply elem_of_source_defs; by eexists i, l, p|done].
  - intros d Hin. destruct (Hd d Hin) as [_ (before & q & after & E & Ha & Hid & Hn & Hf & _) (Hnd & _ & Hfam)]. split_and!; [|done|].
    + pose proof (source_defs_read ls) as Hr. rewrite E in Hr. apply Forall2_app_inv_r in Hr as (bs & rest & _ & Hr & Els).
      apply Forall2_cons_inv_r in Hr as (p & ps & (Hpi & Hpn & Hpf) & Hps & ->). exists bs, p, ps. split_and!; [done| |].
      * rewrite Forall_forall in Ha. rewrite Forall_forall. intros p' [i Hi]%list_elem_of_lookup. destruct (Forall2_lookup_l _ _ _ _ _ Hps Hi) as (q' & Hq' & Hqi & _).
        rewrite <-Hqi. apply Ha. by eapply list_elem_of_lookup_2.
      * unfold reads_as. by rewrite Hn, Hf, <-Hid.
    + intros f. rewrite Hfam. split.
      * intros (q' & (i & l & p & Hi & Hp & ->)%elem_of_source_defs & Hq' & ->%list_elem_of_singleton). by eexists i, l, p.
      * intros (i & l & p & Hi & Hp & Hpi & ->). eexists. split_and!; [apply elem_of_source_defs; by eexists i, l, p|done|]. by left.
Qed.

(** Two lists of two families that share a number. *)
Definition bench_lists : list source_list :=
  [MkSourceList (str "TEC_PARAMETERS") [MkSourceParam 104 (str "Device Status") (str "int32"); MkSourceParam 1000 (str "Object Temperature") (str "float32")];
   MkSourceList (str "LDD_1321_PARAMETERS") [MkSourceParam 104 (str "Status") (str "INT32")]].
Example registry_read_back_witness :
  ∃ params, LoadParameterRegistry (str "registry.go") (Ok (write_source bench_lists)) = Ok params ∧
    (104 ∈ pd_ID <$> params) ∧ 1000 ∈ pd_ID <$> params.
Proof.
  destruct (registry_read_back (str "registry.go") bench_lists) as (params & E & _ & Hids & _).
  - done.
  - repeat constructor; try done; try (by apply (bool_decide_eq_true_1 (_ ∉ _))); by apply (bool_decide_eq_true_1 (Forall _ _)).
  - eexists. split; [by left|done].
  - exists params. split; [done|]. split; apply Hids.
    + eexists _, _. split_and!; [by left|by left|done].
    + eexists _, _. split_and!; [by left|right; by left|done].
Defined.

(** The names of the lists are joined only where they are not part of each other:
    the name of a list that is part of those before it takes their place. *)
Example source_names_lost : merge_source (str "LDD_1321_PARAMETERS") (str "PARAMETERS") = str "PARAMETERS".
Proof. reflexivity. Qed.
