(* ===== verification/PdoControl.v ===== *)
(** * PdoControl: the PDO tool ([cmd/canpdoctl/main.go])

    The tool reads and writes objects of a CANopen node, sends NMT commands and
    PDOs, and applies a PDO configuration as a plan of writes.  Each command is a
    function of its flags, as the [flag] package parses them; what a run leaves is
    the lines it prints, the bus if it opened one, and its error.  Without -commit no
    interface is opened.  Floats in text and the text of a duration are arguments. *)
From stdpp Require Import prelude gmap strings list.
From Stdlib Require Import Strings.Byte Floats.SpecFloat.
From S2P Require Import Prelude Text Floats Endpoint Literals CanFrame SdoMap CanClients CanMap CanMapLive GraphKeys GraphText.
Local Open Scope Z_scope.
#[local] Set Warnings "-clear-no-such-hyp".

(** ** Values and their text *)
Definition tool_word (s : bytes) : bytes := ToLower (TrimSpace s).
Definition parseUint (s : bytes) (bits : Z) : res Z :=
  let s := TrimSpace s in
  if bool_decide (s = []) then Err (Errorf "%s is required" [])
  else match ParseUint0 s bits with Ok v => Ok v | Err e => Err (Wrapf "parse %s %q: %w" [] e) end.
Definition parseNode (s : bytes) : res Z :=
  v ← parseUint s 7;
  if v =? 0 then Err (Errorf "node 0 is reserved for broadcast NMT; use 1..127" []) else Ok v.
Record objectSpec := MkObjectSpec { os_index : Z; os_subIndex : Z }.
Definition parseObjectSpec (s : bytes) : res objectSpec :=
  match SplitByte ":"%byte (TrimSpace s) with
  | [index; sub] => index ← parseUint index 16; sub ← parseUint sub 8; Ok (MkObjectSpec index sub)
  | _ => Err (Errorf "object must be index:subindex, got %q" [])
  end.
Fixpoint mapping_parts (parts : list bytes) : res (list MapEntry) :=
  match parts with
  | [] => Ok []
  | part :: parts =>
      match SplitByte ":"%byte (TrimSpace part) with
      | [index; sub; bits] =>
          index ← parseUint index 16; sub ← parseUint sub 8; bits ← parseUint bits 8;
          rest ← mapping_parts parts; Ok (MkMapEntry index sub bits "" :: rest)
      | _ => Err (Errorf "mapping entry must be index:subindex:bits, got %q" [])
      end
  end.
Definition parseMappingList (s : bytes) : res (list MapEntry) :=
  let s := TrimSpace s in
  if bool_decide (ToLower s = str "none") then Ok []
  else if bool_decide (s = []) then Err (Errorf "map is required; use -map none to clear the mapping and leave the PDO disabled" [])
  else mapping_parts (SplitByte ","%byte s).

Definition u32_bytes (v : Z) : bytes := le_put 4 v.
Definition u16_bytes (v : Z) : bytes := le_put 2 v.
Definition parseNMTCommand (state : bytes) : res Z :=
  let is_ (l : list string) := bool_decide (tool_word state ∈ str <$> l) in
  if is_ ["preop"; "pre-operational"]%string then Ok NMTEnterPreOperational
  else if is_ ["start"; "operational"]%string then Ok NMTStartRemoteNode
  else if is_ ["stop"; "stopped"]%string then Ok NMTStopRemoteNode
  else if is_ ["reset-node"]%string then Ok NMTResetNode
  else if is_ ["reset-comm"; "reset-communication"]%string then Ok NMTResetCommunication
  else Err (Errorf "unknown NMT state %q" []).
Definition valueLength (kind : bytes) : option nat :=
  let is_ (l : list string) := bool_decide (tool_word kind ∈ str <$> l) in
  if is_ ["byte"]%string then Some 1%nat
  else if is_ ["uint16"]%string then Some 2%nat
  else if is_ ["uint32"; "int32"; "float32"]%string then Some 4%nat
  else None.
Definition validateValueLength (kind value : bytes) : res () :=
  match valueLength kind with
  | None => Err (Errorf "unsupported type %q" [])
  | Some want =>
      if (length value =? want)%nat then Ok ()
      else Err (Errorf "SDO payload has %d bytes, want %d for %s" [Z.of_nat (length value); Z.of_nat want])
  end.

Definition payload_separator (b : byte) : bool := bool_decide (b ∈ [" "%byte; x09; x0a; ","%byte; ":"%byte; "-"%byte; "_"%byte]).
Definition hex_token (field : bytes) : bytes := TrimPrefix (TrimPrefix field (str "0x")) (str "0X").
Fixpoint payload_bytes (fields : list bytes) : res bytes :=
  match fields with
  | [] => Ok []
  | field :: fields =>
      match ParseUint (hex_token field) 16 8 with
      | Ok v => rest ← payload_bytes fields; Ok (zb v :: rest)
      | Err e => Err (Wrapf "parse raw payload byte %q: %w" [] e)
      end
  end.
Definition at_most_8 (payload : bytes) : res bytes :=
  if (8 <? length payload)%nat then Err (Errorf "raw payload is %d bytes, max 8" [Z.of_nat (length payload)]) else Ok payload.
Definition parseRawPayload (s : bytes) : res bytes :=
  let s := TrimSpace s in
  if bool_decide (s = []) then Err (Errorf "raw payload is required" [])
  else
    let fields := FieldsFunc payload_separator s in
    let plain := payload ← payload_bytes fields; at_most_8 payload in
    match fields with
    | [field] =>
        let token := hex_token field in
        if (2 <? length token)%nat then
          if negb (Nat.even (length token)) then Err (Errorf "raw payload hex string must have an even number of digits" [])
          else match DecodeString token with
               | Ok payload => at_most_8 payload
               | Err e => Err (Wrapf "parse raw payload %q: %w" [] e)
               end
        else plain
    | _ => plain
    end.

Section values.
Context (ParseFloat32 : bytes → res f32) (FormatG : f32 → bytes).
Definition encodeValue (kind value : bytes) : res bytes :=
  let is_ (s : string) := bool_decide (tool_word kind = str s) in
  let value := TrimSpace value in
  if is_ "byte" then v ← parseUint value 8; Ok [zb v]
  else if is_ "uint32" then v ← parseUint value 32; Ok (u32_bytes v)
  else if is_ "uint16" then v ← parseUint value 16; Ok (u16_bytes v)
  else if is_ "int32" then
    match ParseInt0 value 32 with Ok v => Ok (u32_bytes (u32 (i32 v))) | Err e => Err (Wrapf "parse int32 value %q: %w" [] e) end
  else if is_ "float32" then
    match ParseFloat32 value with Ok v => Ok (u32_bytes (Float32bits v)) | Err e => Err (Wrapf "parse float32 value %q: %w" [] e) end
  else Err (Errorf "unsupported type %q" []).
(** [% X]. *)
Definition spaced_hex (l : bytes) : bytes := JoinByte " "%byte ((λ b, fmtX 2 (bz b)) <$> l).
Definition formatValue (kind value : bytes) : bytes :=
  let is_ (s : string) := bool_decide (tool_word kind = str s) in
  let or_short (n : nat) (text : bytes) := if (length value <? n)%nat then str "<short>" else text in
  if is_ "byte" then or_short 1%nat (fmtD (le_get (take 1 value)))
  else if is_ "uint32" then or_short 4%nat (str "0x" ++ fmtX 8 (le_get (take 4 value)))
  else if is_ "uint16" then or_short 2%nat (str "0x" ++ fmtX 4 (le_get (take 2 value)))
  else if is_ "int32" then or_short 4%nat (fmtD (i32 (le_get (take 4 value))))
  else if is_ "float32" then or_short 4%nat (FormatG (Float32frombits (le_get (take 4 value))))
  else spaced_hex value.
End values.

(** ** The plan *)
Record pdoPlanInput := MkPlanInput {
  pl_dir : bytes; pl_nodeID : Z; pl_pdoNumber : Z; pl_cobID : Z; pl_transmissionType : Z; pl_setEventTimer : bool;
  pl_eventTimerMS : Z; pl_leaveDisabled : bool; pl_allowSub0Mapping : bool; pl_mapping : list MapEntry }.
Record planStep := MkStep {
  ps_kind : string; ps_nodeID : Z; ps_index : Z; ps_subIndex : Z; ps_valueKind : string; ps_value : bytes }.
Definition nmtStep (kind : string) (node : Z) : planStep := MkStep kind node 0 0 "" [].
Definition sdoStep (node index sub : Z) (kind : string) (value : bytes) : planStep := MkStep "sdo-write" node index sub kind value.

Definition pdoBases (dir : bytes) : res (Z * Z) :=
  if bool_decide (tool_word dir = str "rpdo") then Ok (0x1400, 0x1600)
  else if bool_decide (tool_word dir = str "tpdo") then Ok (0x1800, 0x1A00)
  else Err (Errorf "dir must be rpdo or tpdo" []).
Definition maxCANopenPDORecords : Z := 512.
(** The bits of the mapping, the entries being counted from [i]. *)
Fixpoint plan_bits (allowSub0 : bool) (i : Z) (total : Z) (mapping : list MapEntry) : res Z :=
  match mapping with
  | [] => Ok total
  | entry :: mapping =>
      if (m_SubIndex entry =? 0) && negb allowSub0 then
        Err (Errorf "mapping entry %d uses subindex 0; pass -allow-sub0-map only for a confirmed scalar object" [i + 1])
      else if m_Bits entry =? 0 then Err (Errorf "mapping entry %d has zero bits" [i + 1])
      else plan_bits allowSub0 (i + 1) (total + m_Bits entry) mapping
  end.
Definition map_steps (node mapIndex : Z) (mapping : list MapEntry) : list planStep :=
  imap (λ i entry, sdoStep node mapIndex (u8 (Z.of_nat i + 1)) "uint32" (u32_bytes (Raw entry))) mapping.
Definition disabledCOBID (p : pdoPlanInput) : Z := Z.lor (pl_cobID p) (2 ^ 31).
Definition finalCOBID (p : pdoPlanInput) : Z :=
  if pl_leaveDisabled p || bool_decide (pl_mapping p = []) then disabledCOBID p else pl_cobID p.
Definition plan_steps (p : pdoPlanInput) (commIndex mapIndex : Z) : list planStep :=
  let node := pl_nodeID p in
  [nmtStep "nmt-preop" node;
   sdoStep node commIndex 1 "uint32" (u32_bytes (disabledCOBID p));
   sdoStep node mapIndex 0 "byte" [x00]] ++
  map_steps node mapIndex (pl_mapping p) ++
  [sdoStep node commIndex 2 "byte" [zb (pl_transmissionType p)]] ++
  (if pl_setEventTimer p then [sdoStep node commIndex 5 "uint16" (u16_bytes (pl_eventTimerMS p))] else []) ++
  [sdoStep node mapIndex 0 "byte" [zb (Z.of_nat (length (pl_mapping p)))];
   sdoStep node commIndex 1 "uint32" (u32_bytes (finalCOBID p));
   nmtStep "nmt-start" node].
Definition buildPDOPlan (p : pdoPlanInput) : res (list planStep) :=
  let node := pl_nodeID p in
  if (node =? 0) || (0x7f <? node) then Err (Errorf "node id 0x%02X outside 1..127" [node])
  else if (pl_pdoNumber p <? 1) || (maxCANopenPDORecords <? pl_pdoNumber p) then Err (Errorf "pdo number must be 1..%d" [maxCANopenPDORecords])
  else if (pl_cobID p =? 0) || (0x7ff <? pl_cobID p) then Err (Errorf "cob-id 0x%X outside 1..0x7ff" [pl_cobID p])
  else if (8 <? length (pl_mapping p))%nat then Err (Errorf "mapping has %d entries, max 8" [Z.of_nat (length (pl_mapping p))])
  else
    totalBits ← plan_bits (pl_allowSub0Mapping p) 0 0 (pl_mapping p);
    if 64 <? totalBits then Err (Errorf "mapping is %d bits, max 64" [totalBits])
    else
      '(commBase, mapBase) ← pdoBases (pl_dir p);
      if pl_setEventTimer p && negb (commBase =? 0x1800) then Err (Errorf "event-ms is only valid for TPDO communication objects" [])
      else Ok (plan_steps p (u16 (commBase + u16 (pl_pdoNumber p - 1))) (u16 (mapBase + u16 (pl_pdoNumber p - 1)))).

(** ** Running a plan *)
Definition plan_frame (s : planStep) : res Frame :=
  if bool_decide (ps_kind s = "nmt-preop"%string) then NMTFrame NMTEnterPreOperational (ps_nodeID s)
  else if bool_decide (ps_kind s = "nmt-start"%string) then NMTFrame NMTStartRemoteNode (ps_nodeID s)
  else Err (Errorf "unknown plan step %q" []).
Definition conn_Send (call : Call) (f : Frame) (b : Bus) : Bus * res () :=
  match call_sendErr call with Some e => (b, Err e) | None => (bus_Send f b, Ok ()) end.
(** [client] is the address of the client once there is one; [calls] are those of
    the steps, the first being [i]. *)
Fixpoint execute_from (calls : nat → Call) (i : nat) (client : option Z) (steps : list planStep) (b : Bus) : Bus * res () :=
  match steps with
  | [] => (b, Ok ())
  | s :: steps =>
      if bool_decide (ps_kind s = "sdo-write"%string) then
        let address := default (ps_nodeID s) client in
        let '(c, r) := WriteSDORaw (calls i) (ps_index s) (ps_subIndex s) (ps_value s) (NewCANopenClient b address None) in
        match r with
        | Err e => (bus c, Err (Wrapf "%s: %w" [] e))
        | Ok _ => execute_from calls (S i) (Some address) steps (bus c)
        end
      else
        match plan_frame s with
        | Err e => (b, Err e)
        | Ok f =>
            let '(b, r) := conn_Send (calls i) f b in
            match r with Err e => (b, Err e) | Ok _ => execute_from calls (S i) client steps b end
        end
  end.
Definition executePDOPlan (calls : nat → Call) (steps : list planStep) (b : Bus) : Bus * res () := execute_from calls 0 None steps b.

(** ** The commands *)
(** What a run leaves: the lines printed, the bus if one was opened, the error. *)
Record tool_run := MkRun { tr_lines : list bytes; tr_bus : option Bus; tr_result : res () }.
Definition run_error (e : error) : tool_run := MkRun [] None (Err e).
Definition run_checked {A} (checked : res A) (f : A → tool_run) : tool_run :=
  match checked with Err e => run_error e | Ok a => f a end.
Definition with_bus (lines : list bytes) (open : res Bus) (f : Bus → list bytes * (Bus * res ())) : tool_run :=
  match open with
  | Err e => MkRun lines None (Err e)
  | Ok b => let '(more, (b, r)) := f b in MkRun (lines ++ more) (Some b) r
  end.
Definition dry_run : bytes := str "dry-run: add -commit to transmit".
Definition commit_or_dry (commit : bool) (lines : list bytes) (open : res Bus) (f : Bus → list bytes * (Bus * res ())) : tool_run :=
  if commit then with_bus lines open f else MkRun (lines ++ [dry_run]) None (Ok ()).
(** The last line when all went well. *)
Definition then_say (line : bytes) (out : Bus * res ()) : list bytes * (Bus * res ()) :=
  (match out.2 with Ok _ => [line] | Err _ => [] end, out).

Section commands.
Context (ParseFloat32 : bytes → res f32) (FormatG : f32 → bytes) (DurationText : Z → bytes).
Let format := formatValue FormatG.
Let encode := encodeValue ParseFloat32.
Definition object_text (node : Z) (obj : objectSpec) : bytes :=
  str "node=0x" ++ fmtX 2 node ++ str " object=0x" ++ fmtX 4 (os_index obj) ++ ":"%byte :: fmtX 2 (os_subIndex obj).
Definition typed_value_text (kind value : bytes) : bytes :=
  str " type=" ++ kind ++ str " value=" ++ format kind value ++ str " raw=" ++ spaced_hex value.
Definition step_text (s : planStep) : bytes :=
  if bool_decide (ps_kind s = "sdo-write"%string) then
    str "sdo-write 0x" ++ fmtX 4 (ps_index s) ++ ":"%byte :: fmtX 2 (ps_subIndex s) ++ " "%byte :: str (ps_valueKind s) ++
    " "%byte :: format (str (ps_valueKind s)) (ps_value s)
  else str (ps_kind s).

Definition runSDORead (nodeArg objectArg kind : bytes) (call : Call) (open : res Bus) : tool_run :=
  run_checked (node ← parseNode nodeArg; obj ← parseObjectSpec objectArg; Ok (node, obj)) (λ '(node, obj),
    with_bus [] open (λ b,
      let '(c, r) := ReadSDORaw call (os_index obj) (os_subIndex obj) (NewCANopenClient b node None) in
      match r with
      | Err e => ([], (bus c, Err e))
      | Ok data =>
          match validateValueLength kind data with
          | Err e => ([], (bus c, Err (Wrapf "node=0x%02X object=0x%04X:%02X type=%s: %w" [node; os_index obj; os_subIndex obj] e)))
          | Ok _ => ([object_text node obj ++ typed_value_text kind data], (bus c, Ok ()))
          end
      end)).
Definition runSDOWrite (nodeArg objectArg kind valueArg : bytes) (commit : bool) (call : Call) (open : res Bus) : tool_run :=
  run_checked (node ← parseNode nodeArg; obj ← parseObjectSpec objectArg; value ← encode kind valueArg; Ok (node, obj, value))
    (λ '(node, obj, value),
    commit_or_dry commit [str "sdo-write " ++ object_text node obj ++ typed_value_text kind value] open (λ b,
      let '(c, r) := WriteSDORaw call (os_index obj) (os_subIndex obj) value (NewCANopenClient b node None) in
      then_say (str "ack=ok") (bus c, r))).
Definition nmt_text (node : Z) (state : bytes) (frame : Frame) : bytes :=
  str "nmt node=0x" ++ fmtX 2 node ++ str " state=" ++ state ++ str " frame=" ++ fmtX 3 (f_ID frame) ++ "#"%byte ::
  fmtX 2 (at_ frame 0) ++ fmtX 2 (at_ frame 1).
Definition runNMT (nodeArg state : bytes) (commit : bool) (call : Call) (open : res Bus) : tool_run :=
  run_checked (node ← parseUint nodeArg 7; cmd ← parseNMTCommand state; frame ← NMTFrame cmd node; Ok (node, frame)) (λ '(node, frame),
    commit_or_dry commit [nmt_text node state frame] open (λ b, then_say (str "sent=ok") (conn_Send call frame b))).
Definition runPDOApply (nodeArg dir : bytes) (pdoNumber : Z) (cobArg mapArg transmissionArg : bytes) (eventTimer : Z)
    (disabled allowSub0Mapping commit : bool) (calls : nat → Call) (open : res Bus) : tool_run :=
  let plan :=
    node ← parseNode nodeArg; cob ← parseUint cobArg 11; transmission ← parseUint transmissionArg 8;
    _ ← (if (eventTimer <? -1) || (0xffff <? eventTimer) then Err (Errorf "event-ms must be -1..65535" []) else Ok ());
    mapping ← parseMappingList mapArg;
    buildPDOPlan (MkPlanInput dir node pdoNumber cob transmission (0 <=? eventTimer) (u16 eventTimer) disabled allowSub0Mapping mapping) in
  run_checked plan (λ steps,
    commit_or_dry commit (step_text <$> steps) open (λ b, then_say (str "apply=ok") (executePDOPlan calls steps b))).
(** The sends that remain; nothing happens to the bus in a pause. *)
Fixpoint send_count (calls : nat → Call) (frame : Frame) (i : nat) (todo : nat) (b : Bus) : Bus * res () :=
  match todo with
  | O => (b, Ok ())
  | S todo => match conn_Send (calls i) frame b with
              | (b, Err e) => (b, Err e)
              | (b, Ok _) => send_count calls frame (S i) todo b
              end
  end.
Definition send_text (cob count period : Z) (kind payload : bytes) : bytes :=
  str "pdo-send cob-id=0x" ++ fmtX 3 cob ++ str " type=" ++ kind ++ str " value=" ++ format kind payload ++
  str " count=" ++ fmtD count ++ str " period=" ++ DurationText period ++ str " raw=" ++ spaced_hex payload.
Definition runPDOSend (cobArg kind valueArg rawArg : bytes) (count period : Z) (commit : bool) (calls : nat → Call) (open : res Bus) : tool_run :=
  let is_raw := negb (bool_decide (TrimSpace rawArg = [])) in
  let checked :=
    cob ← parseUint cobArg 11;
    payload ← (if is_raw then parseRawPayload rawArg else encode kind valueArg);
    _ ← (if count <? 1 then Err (Errorf "count must be >= 1" [])
         else if period <? 0 then Err (Errorf "period must be >= 0" [])
         else if (1 <? count) && (period =? 0) then Err (Errorf "period must be > 0 when count > 1" []) else Ok ());
    Ok (cob, payload) in
  run_checked checked (λ '(cob, payload),
    let frame := MkFrame cob (array8 payload) (Z.of_nat (length payload)) in
    commit_or_dry commit [send_text cob count period (if is_raw then str "raw" else kind) payload] open (λ b,
      then_say (str "sent=ok") (send_count calls frame 0 (Z.to_nat count) b))).
End commands.

(** ** What a plan does to the objects of a node *)
Abbreviation objects := (gmap (Z * Z) bytes).
(** A node that has these objects, as a scan reads it. *)
#[export] Instance objects_SDOReader : SDOReader objects := {|
  reader_ReadSDORaw index sub d :=
    (d, match d !! (index, sub) with Some v => Ok v | None => Err (SDOAbortError index sub sdoAbortObjectAbsent) end);
  ctx_Err d := (d, None) |}.
Definition step_write (d : objects) (s : planStep) : objects :=
  if bool_decide (ps_kind s = "sdo-write"%string) then <[(ps_index s, ps_subIndex s) := ps_value s]> d else d.
Definition apply_steps (steps : list planStep) (d : objects) : objects := fold_left step_write steps d.
(** What a node makes of the frames it is sent. *)
Definition serve_frame (node : Z) (d : objects) (f : Frame) : objects :=
  match serve_download node f with Some (index, sub, value) => <[(index, sub) := value]> d | None => d end.
Definition serve_frames (node : Z) (fs : list Frame) (d : objects) : objects := fold_left (serve_frame node) fs d.

(** ** Lemmas: the plan *)
(** A step the tool can send: an NMT step, or a write the frame builder accepts. *)
Record step_ok (node : Z) (s : planStep) : Prop := {
  so_node : ps_nodeID s = node;
  so_kind : ps_kind s = "nmt-preop"%string ∨ ps_kind s = "nmt-start"%string ∨
            (ps_kind s = "sdo-write"%string ∧ 0 ≤ ps_index s < 65536 ∧ 0 ≤ ps_subIndex s < 256 ∧ (1 ≤ length (ps_value s) ≤ 4)%nat) }.
Record plan_typed (p : pdoPlanInput) : Prop := {
  pt_bytes : 0 ≤ pl_nodeID p < 256 ∧ 0 ≤ pl_cobID p < 2 ^ 32 ∧ 0 ≤ pl_transmissionType p < 256 ∧ 0 ≤ pl_eventTimerMS p < 65536;
  pt_mapping : Forall map_entry_typed (pl_mapping p) }.
(** The two records of a PDO, and where they are. *)
(** The two records of the PDO in the object dictionary, by its direction. *)
Definition pdo_at (p : pdoPlanInput) (comm map : Z) : Prop :=
  (tool_word (pl_dir p) = str "rpdo" ∧ (comm, map) = (rpdoCommBase + pl_pdoNumber p - 1, rpdoMapBase + pl_pdoNumber p - 1)) ∨
  (tool_word (pl_dir p) = str "tpdo" ∧ (comm, map) = (tpdoCommBase + pl_pdoNumber p - 1, tpdoMapBase + pl_pdoNumber p - 1)).
Record plan_records (p : pdoPlanInput) (comm map : Z) : Prop := {
  pr_node : 1 ≤ pl_nodeID p ≤ 127;
  pr_number : 1 ≤ pl_pdoNumber p ≤ 512;
  pr_cob : 1 ≤ pl_cobID p ≤ 0x7ff;
  pr_length : (length (pl_mapping p) ≤ 8)%nat;
  pr_where : pdo_at p comm map }.
Lemma build_plan p steps : plan_typed p → buildPDOPlan p = Ok steps →
  ∃ comm map, plan_records p comm map ∧ steps = plan_steps p comm map.
Proof.
  intros [(Hn & Hc & _) _]. unfold buildPDOPlan.
  destruct (Z.eqb_spec (pl_nodeID p) 0); cbn [orb]; [done|]. destruct (Z.ltb_spec 0x7f (pl_nodeID p)); [done|].
  destruct (Z.ltb_spec (pl_pdoNumber p) 1); cbn [orb]; [done|]. destruct (Z.ltb_spec maxCANopenPDORecords (pl_pdoNumber p)) as [|Hm]; [done|].
  destruct (Z.eqb_spec (pl_cobID p) 0); cbn [orb]; [done|]. destruct (Z.ltb_spec 0x7ff (pl_cobID p)); [done|].
  destruct (Nat.ltb_spec 8 (length (pl_mapping p))); [done|].
  destruct (plan_bits _ _ _ _) as [total|e]; cbn [mbind result_bind]; [|done]. destruct (64 <? total); [done|].
  unfold maxCANopenPDORecords in Hm. unfold pdoBases.
  destruct (bool_decide_reflect (tool_word (pl_dir p) = str "rpdo")); [|destruct (bool_decide_reflect (tool_word (pl_dir p) = str "tpdo")); [|done]];
    cbn [mbind result_bind]; (destruct (_ && _); [done|]); intros [= <-]; unfold u16; rewrite !(Z.mod_small (pl_pdoNumber p - 1)) by lia;
    rewrite !Z.mod_small by lia; eexists _, _; (split; [|done]); split; try lia; [left|right]; (split; [done|]); unfold rpdoCommBase, rpdoMapBase, tpdoCommBase, tpdoMapBase;
    f_equal; lia.
Qed.

Lemma plan_records_apart p comm map : plan_records p comm map → 0 ≤ comm < 65536 ∧ 0 ≤ map < 65536 ∧ comm ≠ map.
Proof.
  intros [_ Hn _ _ Hw]. unfold pdo_at, rpdoCommBase, rpdoMapBase, tpdoCommBase, tpdoMapBase in Hw. destruct Hw as [[_ [= -> ->]]|[_ [= -> ->]]]; lia.
Qed.
Lemma map_steps_ok node map mapping : 0 ≤ map < 65536 → Forall (step_ok node) (map_steps node map mapping).
Proof.
  intros Hm. apply Forall_forall. intros s [i Hi]%list_elem_of_lookup. unfold map_steps in Hi. rewrite list_lookup_imap in Hi.
  destruct (mapping !! i) as [e|]; [|done]. injection Hi as <-. split; [done|]. right; right.
  pose proof (Z.mod_pos_bound (Z.of_nat i + 1) 256 ltac:(lia)) as Hu. pose proof (length_le_put 4 (Raw e)) as Hlen.
  unfold sdoStep, u32_bytes, u8. cbn [ps_kind ps_index ps_subIndex ps_value]. rewrite Hlen. change (2 ^ 8) with 256. split_and!; done || lia.
Qed.
Lemma plan_steps_ok p comm map : plan_records p comm map → Forall (step_ok (pl_nodeID p)) (plan_steps p comm map).
Proof.
  intros Hr. destruct (plan_records_apart _ _ _ Hr) as (Hc & Hm & _). unfold plan_steps. rewrite !Forall_app.
  assert (Hsdo : ∀ index sub kind value, 0 ≤ index < 65536 → 0 ≤ sub < 256 → (1 ≤ length value ≤ 4)%nat →
    step_ok (pl_nodeID p) (sdoStep (pl_nodeID p) index sub kind value)) by (intros; split; [done|]; by right; right).
  assert (Hnmt : step_ok (pl_nodeID p) (nmtStep "nmt-preop" (pl_nodeID p)) ∧ step_ok (pl_nodeID p) (nmtStep "nmt-start" (pl_nodeID p))).
  { split; (split; [done|]); [by left|by right; left]. }
  assert (H4 : ∀ v, (1 ≤ length (u32_bytes v) ≤ 4)%nat) by (intros v; unfold u32_bytes; rewrite length_le_put; lia).
  assert (H2 : ∀ v, (1 ≤ length (u16_bytes v) ≤ 4)%nat) by (intros v; unfold u16_bytes; rewrite length_le_put; lia).
  split_and!; [|by apply map_steps_ok| | |].
  - constructor; [apply Hnmt|]. constructor; [apply Hsdo; done || lia|]. apply Forall_singleton, Hsdo; done || (simpl; lia).
  - apply Forall_singleton, Hsdo; done || (simpl; lia).
  - destruct (pl_setEventTimer p); [|constructor]. apply Forall_singleton, Hsdo; done || lia.
  - constructor; [apply Hsdo; done || (simpl; lia)|]. constructor; [apply Hsdo; done || lia|]. apply Forall_singleton, Hnmt.
Qed.

(** ** Lemmas: frames of a plan *)
Definition step_frame (s : planStep) : res Frame :=
  if bool_decide (ps_kind s = "sdo-write"%string) then SDODownloadExpeditedRequest (ps_nodeID s) (ps_index s) (ps_subIndex s) (ps_value s)
  else plan_frame s.
Lemma step_frame_nmt s : ps_kind s ≠ "sdo-write"%string → step_frame s = plan_frame s.
Proof. intros Hk. unfold step_frame. by rewrite bool_decide_eq_false_2. Qed.
Lemma step_frame_sdo s : ps_kind s = "sdo-write"%string →
  step_frame s = SDODownloadExpeditedRequest (ps_nodeID s) (ps_index s) (ps_subIndex s) (ps_value s).
Proof. intros Hk. unfold step_frame. by rewrite bool_decide_eq_true_2. Qed.
Definition step_served (s : planStep) : option (Z * Z * bytes) :=
  if bool_decide (ps_kind s = "sdo-write"%string) then Some (ps_index s, ps_subIndex s, ps_value s) else None.
Lemma step_frame_ok node s : 1 ≤ node ≤ 127 → step_ok node s →
  ∃ f, step_frame s = Ok f ∧ serve_download node f = step_served s.
Proof.
  intros Hn [Hnode Hkind]. unfold step_frame, step_served. rewrite Hnode.
  assert (Hnmt : ∀ cmd, ∃ f, NMTFrame cmd node = Ok f ∧ serve_download node f = None).
  { intros cmd. unfold NMTFrame. destruct (Z.ltb_spec 0x7f node); [lia|]. eexists. split; [done|]. unfold serve_download. cbn [f_ID].
    by destruct (Z.eqb_spec 0 (0x600 + node)); [lia|]. }
  destruct Hkind as [Hk|[Hk|(Hk & Hi & Hs & Hl)]]; rewrite Hk.
  - rewrite !bool_decide_eq_false_2 by done. unfold plan_frame. rewrite Hk, bool_decide_eq_true_2, Hnode by done. apply Hnmt.
  - rewrite !bool_decide_eq_false_2 by done. unfold plan_frame. rewrite Hk, bool_decide_eq_false_2, bool_decide_eq_true_2, Hnode by done. apply Hnmt.
  - rewrite !bool_decide_eq_true_2 by done. destruct (SDO_requests_read node (ps_index s) (ps_subIndex s) (ps_value s)) as (_ & Hreq & _); [lia|done|done|].
    destruct Hreq as (f & -> & _ & Hserve); [done|]. by exists f.
Qed.
Lemma serve_step node f s d : serve_download node f = step_served s → serve_frame node d f = step_write d s.
Proof. intros Hf. unfold serve_frame, step_write. rewrite Hf. unfold step_served. by destruct (bool_decide _). Qed.
(** The frames of a whole plan, and that a node makes of them what the plan says. *)
Lemma plan_frames node steps : 1 ≤ node ≤ 127 → Forall (step_ok node) steps →
  ∃ fs, mapM step_frame steps = Ok fs ∧ Forall2 (λ f s, serve_download node f = step_served s) fs steps.
Proof.
  intros Hn. induction 1 as [|s steps Hs _ (fs & IH1 & IH2)]; [by exists []|]. destruct (step_frame_ok node s Hn Hs) as (f & Hf & Hserve).
  exists (f :: fs). cbn [mapM]. rewrite Hf. cbn [mbind result_bind]. rewrite IH1. split; [done|by constructor].
Qed.
Lemma serve_steps node fs steps d : Forall2 (λ f s, serve_download node f = step_served s) fs steps →
  serve_frames node fs d = apply_steps steps d.
Proof.
  intros Hfs. revert d. induction Hfs as [|f s fs steps Hf _ IH]; intros d; [done|]. unfold serve_frames, apply_steps. cbn [fold_left].
  rewrite (serve_step _ _ _ _ Hf). apply IH.
Qed.
Lemma WriteSDORaw_sends call index sub value b node f : SDODownloadExpeditedRequest node index sub value = Ok f →
  let '(c, r) := WriteSDORaw call index sub value (NewCANopenClient b node None) in
  match call_sendErr call with
  | Some e => bus c = b ∧ r = Err e
  | None => sent (bus c) = sent b ++ [f]
  end.
Proof.
  intros Hf. unfold WriteSDORaw, writeSDO, sdo_request. cbn [CanClients.node Index SubIndex NewCANopenClient bus]. rewrite Hf.
  destruct (call_sendErr call); [done|]. by destruct (recv_loop _ _ _ _).
Qed.

(** Whatever the bus delivers, the frames sent are a prefix of the plan's; the last
    one is not among them if the run fails and it is an NMT frame. *)
Definition ends_nmt (steps : list planStep) : Prop := ∀ s, last steps = Some s → ps_kind s ≠ "sdo-write"%string.
Lemma ends_nmt_cons s steps : ends_nmt (s :: steps) → ends_nmt steps ∧ (ps_kind s = "sdo-write"%string → steps ≠ []).
Proof.
  intros He. split.
  - intros s' Hs'. apply He. destruct steps; [done|]. exact Hs'.
  - intros Hk ->. by apply (He s).
Qed.
Lemma execute_prefix node calls steps i client b : 1 ≤ node ≤ 127 → Forall (step_ok node) steps → ends_nmt steps →
  (client = None ∨ client = Some node) →
  ∃ fs k, mapM step_frame steps = Ok fs ∧
    let '(b', r) := execute_from calls i client steps b in
    sent b' = sent b ++ take k fs ∧ match r with Ok _ => k = length fs | Err _ => (k < length fs)%nat end.
Proof.
  intros Hn Hok. revert i client b. induction Hok as [|s steps Hs Hsteps IH]; intros i client b Hend Hc; cbn [execute_from mapM].
  { exists [], 0%nat. split; [done|]. cbn. by rewrite app_nil_r. }
  apply ends_nmt_cons in Hend as [Hend Hne]. destruct (plan_frames node steps Hn Hsteps) as (fs0 & Hfs0 & Hl0). apply Forall2_length in Hl0.
  destruct (step_frame_ok node s Hn Hs) as (f & Hf & _). destruct (so_kind _ _ Hs) as [Hk|[Hk|(Hk & _)]]; rewrite Hk.
  1, 2: rewrite bool_decide_eq_false_2 by done; rewrite (step_frame_nmt s) in Hf |- * by congruence;
    rewrite Hf; cbn [mbind result_bind]; unfold conn_Send; destruct (call_sendErr (calls i)) as [e|];
    [rewrite Hfs0; exists (f :: fs0), 0%nat; cbn; rewrite app_nil_r; split_and!; done || lia|];
    destruct (IH (S i) client (bus_Send f b) Hend Hc) as (fs & k & -> & Hrun); exists (f :: fs), (S k); split; [done|];
    destruct (execute_from _ _ _ _ _) as [b' r]; destruct Hrun as [Hsent Hr]; cbn [bus_Send sent] in Hsent;
    rewrite Hsent, <-app_assoc; split; [done|]; destruct r; cbn; lia.
  rewrite bool_decide_eq_true_2 by done. rewrite Hf. cbn [mbind result_bind]. rewrite (step_frame_sdo s Hk) in Hf. rewrite (so_node _ _ Hs) in *.
  replace (default node client) with node by (by destruct Hc as [->| ->]).
  pose proof (WriteSDORaw_sends (calls i) _ _ _ b node f Hf) as Hsend. destruct (WriteSDORaw _ _ _ _ _) as [c r].
  assert (length fs0 ≠ 0%nat) by (rewrite Hl0; destruct steps; [by destruct (Hne Hk)|done]).
  destruct (call_sendErr (calls i)) as [e|].
  - destruct Hsend as [<- ->]. exists (f :: fs0), 0%nat. rewrite Hfs0. cbn. rewrite app_nil_r. split_and!; done || lia.
  - destruct r as [u|e]; cycle 1.
    { exists (f :: fs0), 1%nat. rewrite Hfs0. split; [done|]. rewrite Hsend. cbn. split; [done|]. lia. }
    destruct (IH (S i) (Some node) (bus c) Hend ltac:(by right)) as (fs & k & Hfs & Hrun). rewrite Hfs. exists (f :: fs), (S k). split; [done|].
    destruct (execute_from _ _ _ _ _) as [b' r]. destruct Hrun as [Hsent Hr]. rewrite Hsent, Hsend, <-app_assoc. split; [done|].
    destruct r; cbn; lia.
Qed.

(** A node that acknowledges every write of the plan, with other traffic before
    each answer. *)
Inductive plan_acknowledged (node : Z) : list planStep → list BusEvent → Prop :=
  | ack_nil : plan_acknowledged node [] []
  | ack_nmt s steps es : ps_kind s ≠ "sdo-write"%string → plan_acknowledged node steps es → plan_acknowledged node (s :: steps) es
  | ack_sdo s steps ns es : ps_kind s = "sdo-write"%string → Forall (noise node (ps_index s) (ps_subIndex s)) ns → plan_acknowledged node steps es →
      plan_acknowledged node (s :: steps) (ns ++ Recv (Ok (download_answer node (ps_index s) (ps_subIndex s))) :: es).
Lemma WriteSDORaw_acked call index sub value b node f ns es : 1 ≤ node ≤ 127 → 0 ≤ index < 65536 → 0 ≤ sub < 256 →
  SDODownloadExpeditedRequest node index sub value = Ok f → call_sendErr call = None → Forall (noise node index sub) ns →
  events b = ns ++ Recv (Ok (download_answer node index sub)) :: es →
  WriteSDORaw call index sub value (NewCANopenClient b node None) = (MkCANopenClient node None (MkBus es (sent b ++ [f])), Ok ()).
Proof.
  intros Hn Hi Hs Hf Hsend Hns Hev. unfold WriteSDORaw, writeSDO, sdo_request. cbn [CanClients.node Index SubIndex NewCANopenClient bus].
  rewrite Hf, Hsend. unfold bus_Send. cbn [events]. rewrite Hev.
  apply (noise_idle node (MkObject index sub "" true)) in Hns as (Hns & _); [|done]. cbn [Index SubIndex] in Hns.
  rewrite recv_loop_idle by done. cbn [recv_loop]. by rewrite write_accept_ack.
Qed.
Lemma execute_acked node calls steps es : 1 ≤ node ≤ 127 → Forall (step_ok node) steps → plan_acknowledged node steps es →
  (∀ i, call_sendErr (calls i) = None) → ∀ i client b rest, client = None ∨ client = Some node → events b = es ++ rest →
  ∃ fs, mapM step_frame steps = Ok fs ∧ execute_from calls i client steps b = (MkBus rest (sent b ++ fs), Ok ()).
Proof.
  intros Hn Hok Hack Hcalls. revert Hok. induction Hack as [|s steps es Hk Hack IH|s steps ns es Hk Hns Hack IH]; intros Hok i client b rest Hc Hev;
    cbn [execute_from mapM].
  - exists []. split; [done|]. rewrite app_nil_r. destruct b as [evs snt]. cbn in *. by rewrite Hev.
  - apply Forall_cons in Hok as [Hs Hsteps]. destruct (step_frame_ok node s Hn Hs) as (f & Hf & _). rewrite bool_decide_eq_false_2 by done.
    rewrite (step_frame_nmt s Hk) in Hf |- *. rewrite Hf. cbn [mbind result_bind]. unfold conn_Send. rewrite Hcalls.
    destruct (IH Hsteps (S i) client (bus_Send f b) rest Hc Hev) as (fs & -> & ->). exists (f :: fs). split; [done|].
    cbn [bus_Send sent]. by rewrite <-app_assoc.
  - apply Forall_cons in Hok as [Hs Hsteps]. destruct (step_frame_ok node s Hn Hs) as (f & Hf & _). rewrite bool_decide_eq_true_2 by done.
    rewrite Hf. cbn [mbind result_bind]. rewrite (step_frame_sdo s Hk), (so_node _ _ Hs) in Hf. rewrite (so_node _ _ Hs).
    replace (default node client) with node by (by destruct Hc as [->| ->]).
    destruct (so_kind _ _ Hs) as [Hk'|[Hk'|(_ & Hi & Hsub & _)]]; [congruence..|].
    rewrite (WriteSDORaw_acked _ _ _ _ b node f ns (es ++ rest)) by (done || (rewrite Hev; by rewrite <-app_assoc)). cbn [bus].
    destruct (IH Hsteps (S i) (Some node) (MkBus (es ++ rest) (sent b ++ [f])) rest ltac:(by right) eq_refl) as (fs & -> & ->).
    exists (f :: fs). split; [done|]. cbn [sent]. by rewrite <-app_assoc.
Qed.

(** ** Lemmas: the objects after a plan *)
Lemma apply_app a b d : apply_steps (a ++ b) d = apply_steps b (apply_steps a d).
Proof. apply fold_left_app. Qed.
(** A step writes that object. *)
Definition writes_at (index sub : Z) (s : planStep) : Prop := ps_kind s = "sdo-write"%string ∧ (ps_index s, ps_subIndex s) = (index, sub).
#[export] Instance writes_at_dec index sub s : Decision (writes_at index sub s).
Proof. unfold writes_at. apply _. Defined.
Lemma apply_lookup steps d index sub :
  apply_steps steps d !! (index, sub) =
    match last (filter (writes_at index sub) steps) with Some s => Some (ps_value s) | None => d !! (index, sub) end.
Proof.
  induction steps as [|s steps IH] using rev_ind; [done|]. rewrite apply_app, filter_app, filter_cons, filter_nil. cbn [apply_steps fold_left].
  unfold step_write at 1. destruct (bool_decide_reflect (ps_kind s = "sdo-write"%string)) as [Hk|Hk].
  - destruct (decide (writes_at index sub s)) as [[_ Hw]|Hw].
    + by rewrite last_snoc, Hw, lookup_insert_eq.
    + rewrite app_nil_r, lookup_insert_ne; [exact IH|]. intros Heq. by apply Hw.
  - destruct (decide (writes_at index sub s)) as [[? _]|_]; [done|]. by rewrite app_nil_r.
Qed.
Lemma apply_untouched steps d index sub : Forall (λ s, ¬ writes_at index sub s) steps → apply_steps steps d !! (index, sub) = d !! (index, sub).
Proof. intros Hs. rewrite apply_lookup. by rewrite filter_none. Qed.
Lemma step_write_sdo node index sub kind value d : step_write d (sdoStep node index sub kind value) = <[(index, sub) := value]> d.
Proof. done. Qed.
Lemma map_steps_snoc node map mapping e :
  map_steps node map (mapping ++ [e]) =
  map_steps node map mapping ++ [sdoStep node map (u8 (Z.of_nat (length mapping) + 1)) "uint32" (u32_bytes (Raw e))].
Proof. unfold map_steps. rewrite imap_app. cbn [imap]. by rewrite Nat.add_0_r. Qed.
Lemma map_steps_untouched node map mapping index sub : (length mapping ≤ 254)%nat → index ≠ map ∨ sub = 0 →
  Forall (λ s, ¬ writes_at index sub s) (map_steps node map mapping).
Proof.
  intros Hlen Hkey. apply Forall_forall. intros s [i Hi]%list_elem_of_lookup. unfold map_steps in Hi. rewrite list_lookup_imap in Hi.
  destruct (mapping !! i) as [e|] eqn:E; [|done]. apply lookup_lt_Some in E. injection Hi as <-. intros [_ [= -> Hu]].
  unfold u8 in Hu. rewrite Z.mod_small in Hu by lia. destruct Hkey as [?| ->]; [done|lia].
Qed.
Lemma map_steps_entry node map mapping d k e : (length mapping ≤ 254)%nat → mapping !! k = Some e →
  apply_steps (map_steps node map mapping) d !! (map, Z.of_nat k + 1) = Some (u32_bytes (Raw e)).
Proof.
  induction mapping as [|e' mapping IH] using rev_ind; intros Hlen Hk; [done|]. rewrite length_app in Hlen. cbn in Hlen.
  rewrite map_steps_snoc, apply_app. cbn [apply_steps fold_left]. rewrite step_write_sdo. unfold u8. rewrite Z.mod_small by lia.
  apply lookup_app_Some in Hk as [Hk|[Hk1 Hk2]].
  - pose proof (lookup_lt_Some _ _ _ Hk). rewrite lookup_insert_ne by (intros [= ?]; lia). apply IH; [lia|done].
  - apply list_lookup_singleton_Some in Hk2 as [Hk2 <-]. replace k with (length mapping) by lia. by rewrite lookup_insert_eq.
Qed.

(** What the two records hold after the plan. *)
Record plan_configured (p : pdoPlanInput) (comm map : Z) (d : objects) : Prop := {
  cf_cob : d !! (comm, 1) = Some (u32_bytes (finalCOBID p));
  cf_transmission : d !! (comm, 2) = Some [zb (pl_transmissionType p)];
  cf_event : pl_setEventTimer p = true → d !! (comm, 5) = Some (u16_bytes (pl_eventTimerMS p));
  cf_count : d !! (map, 0) = Some [zb (Z.of_nat (length (pl_mapping p)))];
  cf_entries : ∀ k e, pl_mapping p !! k = Some e → d !! (map, Z.of_nat k + 1) = Some (u32_bytes (Raw e)) }.
(** The writes after the mapping. *)
Definition plan_tail (p : pdoPlanInput) (comm map : Z) : list planStep :=
  [sdoStep (pl_nodeID p) comm 2 "byte" [zb (pl_transmissionType p)]] ++
  (if pl_setEventTimer p then [sdoStep (pl_nodeID p) comm 5 "uint16" (u16_bytes (pl_eventTimerMS p))] else []) ++
  [sdoStep (pl_nodeID p) map 0 "byte" [zb (Z.of_nat (length (pl_mapping p)))]].
Definition plan_head (p : pdoPlanInput) (comm : Z) : list planStep :=
  [nmtStep "nmt-preop" (pl_nodeID p); sdoStep (pl_nodeID p) comm 1 "uint32" (u32_bytes (disabledCOBID p))].
Definition plan_end (p : pdoPlanInput) (comm : Z) : list planStep :=
  [sdoStep (pl_nodeID p) comm 1 "uint32" (u32_bytes (finalCOBID p)); nmtStep "nmt-start" (pl_nodeID p)].
Lemma plan_steps_split p comm map :
  plan_steps p comm map = plan_head p comm ++
    ([sdoStep (pl_nodeID p) map 0 "byte" [x00]] ++ map_steps (pl_nodeID p) map (pl_mapping p) ++ plan_tail p comm map) ++ plan_end p comm.
Proof. unfold plan_steps, plan_head, plan_tail, plan_end. cbn [app]. rewrite <-!app_assoc. cbn [app]. by rewrite <-!app_assoc. Qed.

Lemma plan_configures p comm map d : plan_records p comm map → plan_configured p comm map (apply_steps (plan_steps p comm map) d).
Proof.
  intros Hr. destruct (plan_records_apart _ _ _ Hr) as (_ & _ & Hne). pose proof (pr_length _ _ _ Hr) as Hlen.
  rewrite plan_steps_split, !apply_app. set (d0 := apply_steps (plan_head p comm) d).
  set (d1 := apply_steps [sdoStep _ map 0 _ _] d0). set (d2 := apply_steps (map_steps _ _ _) d1).
  assert (Hk : ∀ i s i' s' : Z, i ≠ i' ∨ s ≠ s' → (i, s) ≠ (i', s')) by (intros ? ? ? ? [?|?] [= ? ?]; done).
  unfold plan_tail, plan_end. rewrite !apply_app. cbn [apply_steps fold_left]. rewrite !step_write_sdo.
  change (step_write ?x (nmtStep "nmt-start" ?n)) with x.
  assert (Hevent : ∀ index sub, (index, sub) ≠ (comm, 5) →
    apply_steps (if pl_setEventTimer p then [sdoStep (pl_nodeID p) comm 5 "uint16" (u16_bytes (pl_eventTimerMS p))] else [])
      (<[(comm, 2) := [zb (pl_transmissionType p)]]> d2) !! (index, sub) = <[(comm, 2) := [zb (pl_transmissionType p)]]> d2 !! (index, sub)).
  { intros index sub Hi. destruct (pl_setEventTimer p); [|done]. cbn [apply_steps fold_left]. rewrite step_write_sdo. by rewrite lookup_insert_ne. }
  split.
  - by rewrite lookup_insert_eq.
  - rewrite !lookup_insert_ne by (apply Hk; lia). rewrite Hevent by (apply Hk; lia). by rewrite lookup_insert_eq.
  - intros He. rewrite !lookup_insert_ne by (apply Hk; lia). rewrite He. cbn [apply_steps fold_left]. rewrite step_write_sdo. by rewrite lookup_insert_eq.
  - rewrite lookup_insert_ne by (apply Hk; lia). by rewrite lookup_insert_eq.
  - intros k e Hke. rewrite !lookup_insert_ne by (apply Hk; lia). rewrite Hevent by (apply Hk; lia). rewrite lookup_insert_ne by (apply Hk; lia).
    apply map_steps_entry; [lia|done].
Qed.

(** The PDO is disabled whenever its mapping is written, and its mapping empty
    whenever an entry is. *)
Lemma plan_disabled p comm map d n s : plan_records p comm map → plan_steps p comm map !! n = Some s → ps_index s = map →
  let before := apply_steps (take n (plan_steps p comm map)) d in
  before !! (comm, 1) = Some (u32_bytes (disabledCOBID p)) ∧ (ps_subIndex s ≠ 0 → before !! (map, 0) = Some [x00]).
Proof.
  intros Hr Hs Hi. destruct (plan_records_apart _ _ _ Hr) as (Hc & Hm & Hne). pose proof (pr_length _ _ _ Hr) as Hlen.
  assert (Hm0 : map ≠ 0) by (destruct (pr_where _ _ _ Hr) as [[_ [= _ ->]]|[_ [= _ ->]]], (pr_number _ _ _ Hr); unfold rpdoMapBase, tpdoMapBase; lia).
  rewrite plan_steps_split in *. set (body := _ ++ map_steps _ _ _ ++ _) in *.
  destruct n as [|[|n]]; [by injection Hs as <-|by injection Hs as <-|].
  rewrite lookup_app_r in Hs by (simpl; lia). change (S (S n) - length (plan_head p comm))%nat with (n - 0)%nat in Hs. rewrite Nat.sub_0_r in Hs.
  cbn [plan_head app take].
  change (nmtStep ?k ?m :: sdoStep ?a ?b ?c ?e ?f :: ?l) with ([nmtStep k m; sdoStep a b c e f] ++ l). rewrite apply_app.
  set (d0 := apply_steps [_; _] d). assert (Hd0 : d0 !! (comm, 1) = Some (u32_bytes (disabledCOBID p))) by (unfold d0; cbn [apply_steps fold_left]; by rewrite step_write_sdo, lookup_insert_eq).
  assert (Hn : (n < length body)%nat).
  { destruct (Nat.lt_ge_cases n (length body)) as [|Hge]; [done|]. exfalso. rewrite lookup_app_r in Hs by done.
    destruct (n - length body)%nat as [|[|?]]; cbn in Hs; [by injection Hs as <-|by injection Hs as <-|done]. }
  rewrite take_app_le by lia. rewrite lookup_app_l in Hs by done.
  assert (Hbody : Forall (λ s, ¬ writes_at comm 1 s) body).
  { unfold body, plan_tail. rewrite !Forall_app. split_and!; try (apply Forall_singleton; by intros [_ [= ?]]).
    - apply map_steps_untouched; [lia|by left].
    - destruct (pl_setEventTimer p); constructor; [by intros [_ [= ?]]|constructor]. }
  split; [rewrite apply_untouched; [done|by apply Forall_take]|].
  intros Hsub. destruct n as [|n]; [by injection Hs as <-|]. unfold body in Hs |- *.
  rewrite lookup_app_r in Hs by (simpl; lia). change (S n - length [_])%nat with (n - 0)%nat in Hs. rewrite Nat.sub_0_r in Hs. cbn [app take].
  change (sdoStep ?a ?b ?c ?e ?f :: ?l) with ([sdoStep a b c e f] ++ l). rewrite apply_app.
  assert (Hmap : (n < length (map_steps (pl_nodeID p) map (pl_mapping p)))%nat).
  { destruct (Nat.lt_ge_cases n (length (map_steps (pl_nodeID p) map (pl_mapping p)))) as [|Hge]; [done|]. exfalso. rewrite lookup_app_r in Hs by done.
    apply list_elem_of_lookup_2 in Hs. unfold plan_tail in Hs. rewrite !elem_of_app, !list_elem_of_singleton in Hs.
    destruct Hs as [->|[Hs| ->]]; [done| |done]. destruct (pl_setEventTimer p); [|by apply elem_of_nil in Hs]. by apply list_elem_of_singleton in Hs as ->. }
  rewrite take_app_le by lia. rewrite apply_untouched.
  - cbn [apply_steps fold_left]. by rewrite step_write_sdo, lookup_insert_eq.
  - apply Forall_take, map_steps_untouched; [lia|by right].
Qed.

(** ** Reading back what was configured *)
Definition unnamed (e : MapEntry) : MapEntry := MkMapEntry (m_Index e) (m_SubIndex e) (m_Bits e) "".
Definition pdo_observation (p : pdoPlanInput) : ObservedPDO :=
  MkObservedPDO (pl_pdoNumber p) (pl_cobID p) (negb (pl_leaveDisabled p || bool_decide (pl_mapping p = []))) (pl_transmissionType p)
    (unnamed <$> pl_mapping p).
Lemma read_present (d : objects) index sub v : d !! (index, sub) = Some v → readSDO index sub d = (d, Ok v).
Proof. intros Hd. unfold readSDO, sdoReadAttempts. cbn. by rewrite Hd. Qed.
Lemma leUint32_put v : 0 ≤ v < 2 ^ 32 → leUint32 (u32_bytes v) = v.
Proof.
  intros Hv. unfold leUint32, u32_bytes. rewrite take_app_le, take_ge by (rewrite length_le_put; lia). by rewrite le_get_put_small by (simpl; lia).
Qed.
Lemma read_back_entries (d : objects) index s l acc errs : (s + length l ≤ 254)%nat → Forall map_entry_typed l →
  (∀ k e, l !! k = Some e → d !! (index, Z.of_nat (s + k)) = Some (u32_bytes (Raw e))) →
  read_entries index s (length l) acc errs d = (d, (acc ++ (unnamed <$> l), errs)).
Proof.
  intros Hlen Hl. revert s acc Hlen. induction Hl as [|e l He Hl IH]; intros s acc Hlen Hd; cbn [length read_entries].
  { by rewrite app_nil_r. }
  cbn [length] in Hlen. pose proof (Hd 0%nat e eq_refl) as H0. rewrite Nat.add_0_r in H0. unfold u8. rewrite Z.mod_small by lia.
  rewrite (read_present _ _ _ _ H0), leUint32_put, Decode_Raw by (done || by apply Raw_range). rewrite IH.
  - by rewrite <-app_assoc.
  - lia.
  - intros k e' Hk. rewrite <-(Hd (S k) e' Hk). do 2 f_equal. lia.
Qed.
Lemma cob_bits c : 0 ≤ c < 2048 →
  Z.lor c (2 ^ 31) = c + 2 ^ 31 ∧ Z.ldiff (c + 2 ^ 31) (2 ^ 31) = c ∧ Z.ldiff c (2 ^ 31) = c ∧ Z.land c (2 ^ 31) = 0 ∧ Z.land (c + 2 ^ 31) (2 ^ 31) = 2 ^ 31.
Proof.
  intros Hc. pose proof (range_check (λ c, (Z.lor c (2 ^ 31) =? c + 2 ^ 31) && (Z.ldiff (c + 2 ^ 31) (2 ^ 31) =? c) && (Z.ldiff c (2 ^ 31) =? c) &&
    (Z.land c (2 ^ 31) =? 0) && (Z.land (c + 2 ^ 31) (2 ^ 31) =? 2 ^ 31)) 2048 eq_refl c Hc) as H. cbv beta in H.
  rewrite !andb_true_iff, !Z.eqb_eq in H. tauto.
Qed.
Lemma read_configured p comm map d errs : plan_records p comm map → plan_typed p → plan_configured p comm map d →
  read_pdo comm map (Z.to_nat (pl_pdoNumber p - 1)) (u32_bytes (finalCOBID p)) errs d = (d, (pdo_observation p, errs)).
Proof.
  intros [_ Hn Hcob Hlen _] [(_ & _ & Ht & _) Hmap] [_ Htr _ Hcount Hent]. unfold read_pdo. rewrite (read_present _ _ _ _ Htr).
  unfold read_mapping. rewrite (read_present _ _ _ _ Hcount). rewrite bz_zb_small by lia. rewrite Nat2Z.id.
  destruct (Nat.ltb_spec 8 (length (pl_mapping p))); [lia|]. rewrite read_back_entries; [|lia|done|].
  2: { intros k e Hk. rewrite <-(Hent k e Hk). do 2 f_equal. lia. }
  destruct (cob_bits (pl_cobID p)) as (H1 & H2 & H3 & H4 & H5); [lia|]. cbn [app].
  rewrite leUint32_put. 2: { unfold finalCOBID, disabledCOBID. rewrite H1. destruct (_ || _); lia. }
  unfold pdo_observation, cobIDInvalidBit, finalCOBID, disabledCOBID. rewrite H1. do 2 f_equal.
  rewrite Z2Nat.id by lia. rewrite bz_zb_small by lia.
  destruct (pl_leaveDisabled p || bool_decide (pl_mapping p = [])); cbn [negb]; rewrite ?H2, ?H3, ?H4, ?H5; f_equal; lia.
Qed.

(** C36: applying a plan configures the PDO.  For every input the planner accepts and
    every node that acknowledges the writes, whatever other traffic there is, the
    run succeeds, on the records of the PDO's direction and number; whenever a frame
    changes the mapping record the PDO is disabled, and an entry is only written
    while the mapping is empty; and the scan of the signal registry ([canmap]) then
    reads from the node exactly the number, identifier, transmission type and mapping
    that were asked for, and a PDO that is enabled unless it was to be left disabled
    or has no mapping. *)
Theorem plan_configures_node (p : pdoPlanInput) (steps : list planStep) (calls : nat → Call) (b : Bus) (es rest : list BusEvent) (d : objects) :
  plan_typed p → buildPDOPlan p = Ok steps → plan_acknowledged (pl_nodeID p) steps es → (∀ i, call_sendErr (calls i) = None) →
  events b = es ++ rest →
  ∃ comm map fs, pdo_at p comm map ∧ executePDOPlan calls steps b = (MkBus rest (sent b ++ fs), Ok ()) ∧
    (∀ n f sub v, fs !! n = Some f → serve_download (pl_nodeID p) f = Some (map, sub, v) →
       let before := serve_frames (pl_nodeID p) (take n fs) d in
       (∃ cob, before !! (comm, 1) = Some (u32_bytes cob) ∧ Z.testbit cob 31 = true) ∧ (sub ≠ 0 → before !! (map, 0) = Some [x00])) ∧
    let after := serve_frames (pl_nodeID p) fs d in
    ∃ raw, readSDO comm 1 after = (after, Ok raw) ∧
      read_pdo comm map (Z.to_nat (pl_pdoNumber p - 1)) raw [] after = (after, (pdo_observation p, [])).
Proof.
  intros Htyped Hbuild Hack Hcalls Hev. destruct (build_plan p steps Htyped Hbuild) as (comm & map & Hr & ->).
  pose proof (plan_steps_ok p comm map Hr) as Hok. destruct (plan_frames _ _ (pr_node _ _ _ Hr) Hok) as (fs & Hfs & Hserve).
  exists comm, map, fs. split; [apply Hr|]. split_and!.
  - unfold executePDOPlan. destruct (execute_acked _ calls _ es (pr_node _ _ _ Hr) Hok Hack Hcalls 0 None b rest ltac:(by left) Hev) as (fs' & Hfs' & ->).
    rewrite Hfs in Hfs'. by injection Hfs' as <-.
  - intros n f sub v Hf Hsub. cbn zeta. rewrite (serve_steps _ _ (take n (plan_steps p comm map))) by by apply Forall2_take.
    destruct (Forall2_lookup_l _ _ _ _ _ Hserve Hf) as (s & Hs & Hfs'). rewrite Hsub in Hfs'. unfold step_served in Hfs'.
    destruct (bool_decide _); [|done]. injection Hfs' as Hi Hsi _. destruct (plan_disabled p comm map d n s) as [Hcob Hcount]; [done..|]. rewrite <-Hsi in Hcount.
    split; [|exact Hcount]. eexists. split; [exact Hcob|]. unfold disabledCOBID. by rewrite Z.lor_spec, orb_true_r.
  - cbn zeta. rewrite (serve_steps _ _ _ _ Hserve). pose proof (plan_configures p comm map d Hr) as Hc. eexists. split.
    + apply read_present, Hc.
    + by apply read_configured.
Qed.

(** A plan is sent in order and no further than it is accepted.  Whatever the
    bus delivers and whichever sends fail, the frames of a run are the first ones of
    the plan; all of them are sent if the run succeeds, and if it fails the last one,
    which starts the node again, is not. *)
Theorem plan_sent_in_order (p : pdoPlanInput) (steps : list planStep) (calls : nat → Call) (b : Bus) :
  plan_typed p → buildPDOPlan p = Ok steps →
  ∃ fs start k, mapM step_frame steps = Ok (fs ++ [start]) ∧ NMTFrame NMTStartRemoteNode (pl_nodeID p) = Ok start ∧
    let '(b', r) := executePDOPlan calls steps b in
    sent b' = sent b ++ take k (fs ++ [start]) ∧ match r with Ok _ => k = S (length fs) | Err _ => (k ≤ length fs)%nat end.
Proof.
  intros Htyped Hbuild. destruct (build_plan p steps Htyped Hbuild) as (comm & map & Hr & ->). pose proof (plan_steps_ok p comm map Hr) as Hok.
  assert (Hlast : ∃ steps, plan_steps p comm map = steps ++ [nmtStep "nmt-start" (pl_nodeID p)]).
  { rewrite plan_steps_split. unfold plan_end. change (sdoStep ?a ?b ?c ?e ?f :: ?l) with ([sdoStep a b c e f] ++ l). rewrite !app_assoc. by eexists. }
  destruct (execute_prefix (pl_nodeID p) calls _ 0 None b (pr_node _ _ _ Hr) Hok) as (all & k & Hall & Hrun); [|by left|].
  { destruct Hlast as [steps ->]. intros s. rewrite last_snoc. by intros [= <-]. }
  destruct Hlast as [steps Hsteps]. pose proof Hall as Hsplit. rewrite Hsteps in Hsplit. apply mapM_app_Ok in Hsplit as (fs & ends & _ & Hend & ->).
  cbn [mapM] in Hend. destruct (step_frame (nmtStep "nmt-start" (pl_nodeID p))) as [start|e] eqn:Es; [|done]. injection Hend as <-.
  exists fs, start, k. split; [done|]. split; [by rewrite <-Es|]. unfold executePDOPlan. destruct (execute_from _ _ _ _ _) as [b' r].
  rewrite length_app in Hrun. cbn [length] in Hrun. destruct Hrun as [Hsent Hk]. split; [done|]. destruct r; lia.
Qed.

(** A value the tool encodes has the length of its type. *)
Lemma encoded_length ParseFloat32 kind text value :
  encodeValue ParseFloat32 kind text = Ok value → validateValueLength kind value = Ok ().
Proof.
  unfold encodeValue, validateValueLength, valueLength.
  assert (Hone : ∀ s, bool_decide (tool_word kind ∈ str <$> [s]) = bool_decide (tool_word kind = str s)).
  { intros s. apply bool_decide_ext. cbn. by rewrite list_elem_of_singleton. }
  rewrite !Hone.
  destruct (bool_decide_reflect (tool_word kind = str "byte")) as [E|E1].
  { destruct (parseUint _ 8); cbn [mbind result_bind]; [|done]. by intros [= <-]. }
  destruct (bool_decide_reflect (tool_word kind = str "uint32")) as [E|E2].
  { rewrite E. destruct (parseUint _ 32); cbn [mbind result_bind]; [|done]. intros [= <-]. unfold u32_bytes. by rewrite length_le_put. }
  destruct (bool_decide_reflect (tool_word kind = str "uint16")) as [E|E3].
  { destruct (parseUint _ 16); cbn [mbind result_bind]; [|done]. intros [= <-]. unfold u16_bytes. by rewrite length_le_put. }
  destruct (bool_decide_reflect (tool_word kind = str "int32")) as [E|E4].
  { rewrite E. destruct (ParseInt0 _ 32); [|done]. intros [= <-]. unfold u32_bytes. by rewrite length_le_put. }
  destruct (bool_decide_reflect (tool_word kind = str "float32")) as [E|E5]; [|done].
  rewrite E. destruct (ParseFloat32 _); [|done]. intros [= <-]. unfold u32_bytes. by rewrite length_le_put.
Qed.
(** Without -commit nothing is opened. *)
Lemma dry_run_opens_nothing lines open f : tr_bus (commit_or_dry false lines open f) = None.
Proof. done. Qed.

(** ** On a bench *)
Definition bench_plan : pdoPlanInput :=
  MkPlanInput (str "RPDO") 0x51 1 0x1B8 0xFE false 0 false false [MkMapEntry 0x3201 1 32 "ch1"; MkMapEntry 0x3201 2 32 "ch2"].
Definition bench_steps : list planStep := plan_steps bench_plan 0x1400 0x1600.
Lemma bench_built : buildPDOPlan bench_plan = Ok bench_steps.
Proof. reflexivity. Qed.
Lemma bench_typed : plan_typed bench_plan.
Proof. split; [cbn; lia|]. repeat constructor; cbn; lia. Qed.
Fixpoint acks (node : Z) (steps : list planStep) : list BusEvent :=
  match steps with
  | [] => []
  | s :: steps =>
      if bool_decide (ps_kind s = "sdo-write"%string) then Recv (Ok (download_answer node (ps_index s) (ps_subIndex s))) :: acks node steps
      else acks node steps
  end.
Lemma acks_acknowledged node steps : plan_acknowledged node steps (acks node steps).
Proof.
  induction steps as [|s steps IH]; cbn [acks]; [constructor|].
  destruct (bool_decide_reflect (ps_kind s = "sdo-write"%string)); [by apply (ack_sdo node s steps [])|by apply ack_nmt].
Qed.
Definition bench_bus : Bus := MkBus (acks 0x51 bench_steps) [].
Lemma plan_configures_node_witness :
  ∃ fs, executePDOPlan (λ _, plain_call) bench_steps bench_bus = (MkBus [] fs, Ok ()) ∧
    o_Enabled (pdo_observation bench_plan) = true ∧ length (o_Mapping (pdo_observation bench_plan)) = 2%nat.
Proof.
  destruct (plan_configures_node bench_plan bench_steps (λ _, plain_call) bench_bus (acks 0x51 bench_steps) [] ∅) as (comm & map & fs & _ & Hrun & _).
  - apply bench_typed.
  - apply bench_built.
  - apply acks_acknowledged.
  - done.
  - by rewrite app_nil_r.
  - exists fs. by split_and!.
Defined.
Lemma plan_sent_in_order_witness :
  ∃ fs k, (let '(b', r) := executePDOPlan (λ _, plain_call) bench_steps (MkBus [] []) in sent b' = take k fs ∧ is_Ok r = false) ∧ (k < length fs)%nat.
Proof.
  destruct (plan_sent_in_order bench_plan bench_steps (λ _, plain_call) (MkBus [] []) bench_typed bench_built) as (fs & start & k & _ & _ & Hrun).
  exists (fs ++ [start]), k. assert (Hr : ∃ e, (executePDOPlan (λ _, plain_call) bench_steps (MkBus [] [])).2 = Err e) by (eexists; reflexivity).
  destruct Hr as [e Hr]. destruct (executePDOPlan _ _ _) as [b' r]. cbn in Hr. subst r. destruct Hrun as [Hsent Hk]. split; [done|].
  rewrite length_app. cbn. lia.
Defined.
(** A PDO may be sent with identifier 0, which is a command to the nodes. *)
Lemma pdo_send_commands ParseFloat32 FormatG DurationText b :
  tr_bus (runPDOSend ParseFloat32 FormatG DurationText (str "0") (str "float32") [] (str "01 00") 1 0 true (λ _, plain_call) (Ok b)) =
  match NMTFrame NMTStartRemoteNode 0 with Ok f => Some (bus_Send f b) | Err _ => None end.
Proof. reflexivity. Qed.
