(* ===== verification/GraphTile.v ===== *)
(** * GraphTile: graph tiles ([cmd/mecomgw/graph_tiles.go])

    A tile is the answer to a request for some series over a time range: for each
    series its points with label, colour, axis, quality and whether it is shown.  The
    range is that of a level, which ends now or, for a whole session, with the newest
    sample; or it is given by the request.

    Texts of times are arguments, as in [GraphExchange.v].  A live read uses the
    client of the device.  [None] stands for a panic. *)
From stdpp Require Import prelude gmap strings list sorting.
From Stdlib Require Import Strings.Byte Floats.SpecFloat.
From S2P Require Import Prelude Text Floats Endpoint Protocol RingReader Readout BridgePayload WriteLease Commander GatewayWrite GraphKeys GraphHistory GraphExchange GatewayConfig GraphText.
Local Open Scope Z_scope.
#[local] Set Warnings "-clear-no-such-hyp".

(** ** Data *)
Record graphTileItemDiag := MkItemDiag {
  id_Status : string; id_HistoryPoints : Z; id_LiveRead : string; id_Message : string; id_SuppressedOpenSensorPoints : Z }.
Record graphTileItem := MkItem {
  it_SeriesID : bytes; it_TargetID : bytes; it_Label : bytes; it_FullLabel : bytes; it_Color : bytes; it_Unit : string;
  it_History : list (bytes * f64); it_Role : string; it_Kind : string; it_AxisID : string; it_Source : graphTileSource;
  it_Quality : string; it_DefaultVisible : bool; it_VisibilityReason : string; it_Diagnostics : graphTileItemDiag;
  it_Points : list (bytes * f64) }.
Record graphTileDiag := MkTileDiag {
  td_Status : string; td_SeriesCount : Z; td_PointCount : Z; td_Decimation : string; td_TileLevel : string;
  td_TileSource : string; td_SuppressedOpenSensorPoints : Z }.
Record graphTileResponse := MkTile {
  ti_ID : bytes; ti_Level : string; ti_T0 : bytes; ti_T1 : bytes; ti_RequestedT0 : bytes; ti_RequestedT1 : bytes;
  ti_GeneratedAt : bytes; ti_Title : bytes; ti_TimeWindowMs : Z; ti_Axes : list tileAxis; ti_Diagnostics : graphTileDiag;
  ti_Series : list graphTileItem }.
Record tileFile := MkTileFile { tf_Level : string; tf_TimeWindowMs : Z }.

Definition defaultGraphTileLevel : string := "session".
Definition graphTileFiles : list tileFile :=
  [MkTileFile "session" (defaultGraphHistoryRetention / Millisecond); MkTileFile "live" 90000; MkTileFile "minute" (6 * 60000);
   MkTileFile "hour" (60 * 60000); MkTileFile "three_hour" (3 * 60 * 60000); MkTileFile "day" (24 * 60 * 60000);
   MkTileFile "three_day" (3 * 24 * 60 * 60000)].

(** ** Which series *)
Definition effectiveChannelCount (values : list Z) : Z :=
  match List.find (λ v, negb (v <=? 0)) values with Some v => if 255 <? v then 255 else v | None => 4 end.
Definition defaultGraphTileKind (tileID : bytes) : string :=
  let id := ToLower (TrimSpace tileID) in
  if has_text "voltage" id then "voltage"%string
  else if has_text "current" id then "current"%string
  else if has_text "supply" id || has_text "power" id then "power"%string
  else "temperature"%string.
Definition kind_parameter (kind : string) : Z * string :=
  if bool_decide (kind = "power"%string) then (1022, "supply"%string)
  else if bool_decide (kind = "voltage"%string) then (1021, "supply"%string)
  else if bool_decide (kind = "current"%string) then (1020, "supply"%string)
  else (1000, "temp"%string).
Definition defaultGraphTileInstances (cfg : DeviceConfig) (fallbackCount : Z) (role : string) : list Z :=
  filter (λ i, role = ""%string ∨ (effectiveDeviceChannelRole cfg i).1 = str role)
    (seqZ 1 (effectiveChannelCount [dc_ChannelCount cfg; fallbackCount])).

(** The order of the devices: the default one first, then by identifier. *)
Definition device_less (defaultDeviceID : bytes) (a b : DeviceConfig) : bool :=
  let ra := deviceSortRank defaultDeviceID (str (dc_ID a)) in
  let rb := deviceSortRank defaultDeviceID (str (dc_ID b)) in
  if negb (ra =? rb) then ra <? rb else bytes_ltb (str (dc_ID a)) (str (dc_ID b)).
(** [devices]: the devices of the map, in the order of the traversal. *)
Definition orderedDeviceBindings (defaultDeviceID : bytes) (devices : list DeviceConfig) : list DeviceConfig :=
  sort_stable (device_less defaultDeviceID) devices.

(** What a tile uses of the server besides the histories and the clients. *)
Record tile_config := MkTileConfig {
  tc_Devices : list DeviceConfig; tc_ChannelCount : Z; tc_DefaultDeviceID : bytes; tc_Catalogue : list Param;
  tc_Entries : list Param }.
(** Role and kind by the entries of the TEC catalogue ([mecom/catalogue.go]). *)
Definition RoleForParam (entries : list Param) (id : Z) : string :=
  match List.find (λ p, ID p =? id) entries with Some p => Role p | None => "aux" end.
Definition KindForParam (entries : list Param) (id : Z) : string :=
  match List.find (λ p, ID p =? id) entries with Some p => Kind p | None => "continuous" end.
Definition defaultGraphTileSeries (cfg : tile_config) (tileID : bytes) : list graphTileRequestSeries :=
  let '(paramID, role) := kind_parameter (defaultGraphTileKind tileID) in
  orderedDeviceBindings (tc_DefaultDeviceID cfg) (tc_Devices cfg) ≫= λ d,
    (λ instance, MkSeries (str (dc_ID d)) paramID instance) <$> defaultGraphTileInstances d (tc_ChannelCount cfg) role.
Definition requested_series (cfg : tile_config) (tileID : bytes) (req : list graphTileRequestSeries) : list graphTileRequestSeries :=
  if bool_decide (req = []) then defaultGraphTileSeries cfg tileID else req.
Definition graphHistoryEndpoint (cfg : tile_config) (deviceID : bytes) : bytes :=
  match List.find (λ d, bool_decide (str (dc_ID d) = deviceID)) (tc_Devices cfg) with Some d => dc_Endpoint d | None => [] end.

(** ** Texts of a tile *)
Definition statusForSeries (seriesCount : Z) : string := if 0 <? seriesCount then "ok" else "empty".
Definition sourceForWindow (window : Z) : string :=
  if graphRangeUsesHotBuffer window then "bounded-gateway-hot-buffer" else "bounded-gateway-history-cache".
Definition decimationForWindow (window : Z) : string :=
  if graphRangeUsesHotBuffer window then "raw hot buffer" else "SignalForge bucket mean LOD".
Definition graphTileSeriesDefaultVisibility (quality : string) (diag : graphTileItemDiag) : bool * string :=
  if bool_decide (quality ∈ [""%string; gatewayQualityOK]) then (true, ""%string)
  else if bool_decide (quality = gatewayQualityMissing) then
    (false, "hidden by default because no live value or history is available"%string)
  else if bool_decide (quality = gatewayQualityDetached) then
    if negb (bool_decide (id_Message diag = ""%string)) then (false, ("hidden by default because " +:+ id_Message diag)%string)
    else (false, "hidden by default because the measured temperature is below the detached-sensor floor"%string)
  else (false, ("hidden by default because source quality is " +:+ quality)%string).
Definition seriesLatestPointIsDetached (unit : string) (values : list f64) : bool :=
  match last values with
  | None => false
  | Some v => bool_decide (unit = "degC"%string) && SFltb v (of_int (-100))
  end.

Section tile.
Context {C : Type} `{DeviceClient C} {P : Type} `{Pyramid P}.
Context (Parse : bytes → option Z) (Format : Z → bytes).
Context (connect : Endpoint → res C) (cfg : tile_config).

Record tile_server := MkTileServer { ts_gateway : gateway C; ts_graph : graphStore P }.
Implicit Types (s : tile_server).

(** ** Ranges *)
Definition bounds_step (s : tile_server) (acc : Z * Z) (item : graphTileRequestSeries) : Z * Z :=
  match graphHistoryBounds (se_DeviceID item) (se_ParamID item) (se_Instance item) (ts_graph s) with
  | Some (e, l) => (earlier acc.1 e, later acc.2 l)
  | None => acc
  end.
Definition graphSeriesBounds (tileID : bytes) (req : list graphTileRequestSeries) s : option (Z * Z) :=
  let '(earliest, latest) := fold_left (bounds_step s) (requested_series cfg tileID req) (0, 0) in
  if negb (earliest =? 0) && negb (latest =? 0) then Some (earliest, latest) else None.
Definition graphTileTimeRange (tileID : bytes) (level : string) (windowMs : Z) (req : list graphTileRequestSeries)
    (now : Z) s : Z * Z * Z :=
  let window := windowMs * Millisecond in
  let window := if window <=? 0 then defaultGraphHistoryRetention else window in
  let result t0 t1 := (t0, t1, Z.quot (t1 - t0) Millisecond) in
  if negb (bool_decide (level = "session"%string)) then result (now - window) now
  else
    match graphSeriesBounds tileID req s with
    | None => result (now - window) now
    | Some (earliest, latest) =>
        let t1 := if negb (latest =? 0) && (5 * GMinute <? now - latest) then latest else now in
        let t0 := t1 - defaultGraphHistoryRetention in
        let t0 := if negb (earliest =? 0) && (earliest <? t0) then earliest else t0 in
        let t0 := if t0 <? t1 then t0 else t1 - defaultGraphHistoryRetention in
        result t0 t1
    end.

(** ** Series *)
Definition readLiveSample (now : Z) (item : graphTileRequestSeries) s : tile_server * option f64 :=
  let deviceID := String.string_of_list_byte (se_DeviceID item) in
  let '(g, bound) := bind_device connect deviceID (ts_gateway s) in
  let s := MkTileServer g (ts_graph s) in
  match bound, gatewayParameterByID (tc_Catalogue cfg) (se_ParamID item) with
  | Ok client, Some def =>
      let def := MkParam (ID def) (se_Instance item) (Name def) (Unit def) (Type_ def) (Writable def) (Role def) (Kind def) in
      let '(client, values) := rd_ReadBulk [def] client in
      let s := MkTileServer (put_client (ts_gateway s) deviceID client) (ts_graph s) in
      match values with
      | Ok [v] =>
          if isFiniteFloat v then
            (MkTileServer (ts_gateway s)
               (recordGraphSample now (se_DeviceID item) (se_ParamID item) (se_Instance item) v now (ts_graph s)), Some v)
          else (s, None)
      | _ => (s, None)
      end
  | _, _ => (s, None)
  end.

Definition point_text (p : Z * f64) : bytes * f64 := (Format p.1, p.2).
(** One point alone is drawn as a short line. *)
Definition duplicateSingleGraphPoint (point : bytes * f64) (now : Z) : (bytes * f64) * (bytes * f64) :=
  let '(at_, point) :=
    match parseGraphHistoryTimestamp Parse point.1 with
    | Some at_ => if at_ =? 0 then (now, (Format now, point.2)) else (at_, point)
    | None => (now, (Format now, point.2))
    end in
  ((Format (at_ - GSecond), point.2), point).

(** The points of a series, what is said about them, and the server after a live
    read. *)
Definition tile_points (now : Z) (level : string) (t0 t1 : Z) (item : graphTileRequestSeries) s :
    tile_server * (list (bytes * f64) * graphTileItemDiag) :=
  let history := point_text <$> lookupGraphRange (se_DeviceID item) (se_ParamID item) (se_Instance item) t0 t1 (ts_graph s) in
  let live := bool_decide (level = "live"%string) in
  let '(s, history, read) :=
    if bool_decide (history = []) && live then
      match readLiveSample now item s with
      | (s, Some v) => (s, [(Format (t1 - GSecond), v); (Format t1, v)], "ok"%string)
      | (s, None) => (s, [], ""%string)
      end
    else (s, history, ""%string) in
  (s, match history with
      | [] =>
          ([], if live then MkItemDiag "missing" 0 "unavailable" "no history and live read unavailable" 0
               else MkItemDiag "missing" 0 "not_attempted" "no archive history for selected tile level" 0)
      | [point] => let '(before, point) := duplicateSingleGraphPoint point t1 in ([before; point], MkItemDiag "ok" 2 read "" 0)
      | _ => (history, MkItemDiag "ok" (Z.of_nat (length history)) read "" 0)
      end).

Definition tile_quality (item : graphTileRequestSeries) (unit : string) (points : list (bytes * f64)) (diag : graphTileItemDiag) :
    string * graphTileItemDiag :=
  if bool_decide (points = []) then (gatewayQualityMissing, diag)
  else
    let values := snd <$> points in
    let detachedPoints := countDetachedTemperaturePoints (se_ParamID item) unit values in
    let diag := MkItemDiag (id_Status diag) (id_HistoryPoints diag) (id_LiveRead diag) (id_Message diag) (Z.of_nat detachedPoints) in
    if seriesLatestPointIsDetached unit values || (detachedPoints =? length points)%nat then
      (gatewayQualityDetached,
       MkItemDiag gatewayQualityDetached (id_HistoryPoints diag) (id_LiveRead diag)
         "measured temperature is below the detached-sensor floor" (id_SuppressedOpenSensorPoints diag))
    else (gatewayQualityOK, diag).

Definition tile_unit (def : Param) : string := if bool_decide (Unit def = ""%string) then "_" else Unit def.
Definition tile_item (now : Z) (level : string) (t0 t1 : Z) (item : graphTileRequestSeries) s :
    option (tile_server * graphTileItem) :=
  let def := parameter_or_zero (tc_Catalogue cfg) (se_ParamID item) in
  let unit := tile_unit def in
  let '(s, (points, diag)) := tile_points now level t0 t1 item s in
  let '(quality, diag) := tile_quality item unit points diag in
  let '(visible, reason) := graphTileSeriesDefaultVisibility quality diag in
  label ← compactSeriesLabel (se_DeviceID item) (se_Instance item) def;
  Some (s,
    MkItem (tileSeriesKeyFromRequest item) [] label
      (full_label (se_DeviceID item) (se_ParamID item) (se_Instance item) def)
      (gatewaySeriesColor (se_DeviceID item) def (se_Instance item)) unit points (Role def) (Kind def)
      (graphAxisIDForUnit unit "")
      (MkSource (se_DeviceID item) (se_Instance item) (se_ParamID item) (signalIDForParam def) [])
      quality visible reason diag points).

(** The loop over the sorted series. *)
Fixpoint tile_items (now : Z) (level : string) (t0 t1 : Z) (series : list graphTileRequestSeries) s :
    option (tile_server * list graphTileItem) :=
  match series with
  | [] => Some (s, [])
  | item :: series =>
      '(s, it) ← tile_item now level t0 t1 item s;
      '(s, its) ← tile_items now level t0 t1 series s;
      Some (s, it :: its)
  end.
Definition add_unit (units : list string) (unit : string) : list string :=
  if bool_decide (unit ∈ units) then units else units ++ [unit].
Definition units_of (items : list graphTileItem) : list string := fold_left add_unit (it_Unit <$> items) [].
Definition graphTileSeries (now : Z) (tileID : bytes) (req : list graphTileRequestSeries) (level : string) (t0 t1 : Z) s :
    option (tile_server * (list graphTileItem * list string)) :=
  let sorted := sort_series (tc_DefaultDeviceID cfg) (requested_series cfg tileID req) in
  '(s, items) ← tile_items now level t0 t1 sorted s;
  Some (s, (items, units_of items)).

(** ** Tiles *)
Definition extent_add (acc : Z * Z) (raw : bytes) : Z * Z :=
  match parseGraphHistoryTimestamp Parse raw with
  | Some at_ => if at_ =? 0 then acc else (earlier acc.1 at_, later acc.2 at_)
  | None => acc
  end.
Definition item_times (item : graphTileItem) : list bytes := (fst <$> it_History item) ++ (fst <$> it_Points item).
Definition graphTileDataExtent (series : list graphTileItem) : option (Z * Z) :=
  let '(t0, t1) := fold_left extent_add (series ≫= item_times) (0, 0) in
  if (t0 =? 0) || (t1 =? 0) then None else Some (t0, t1).
(** The extent as text, at least a millisecond long. *)
Definition extent_text (series : list graphTileItem) : bytes * bytes :=
  match graphTileDataExtent series with
  | None => ([], [])
  | Some (t0, t1) => (Format t0, Format (if t0 <? t1 then t1 else t0 + Millisecond))
  end.
Definition sum_over (f : graphTileItem → Z) (series : list graphTileItem) : Z := foldr Z.add 0 (f <$> series).

Definition buildGraphTile (now : Z) (tileID : bytes) (level : string) (seriesReq : list graphTileRequestSeries) s :
    option (tile_server * graphTileResponse) :=
  let '(level, window) := default ("session"%string, defaultGraphHistoryRetention / Millisecond) (graphTileLevel level) in
  let '(t0, t1, window) := graphTileTimeRange tileID level window seriesReq now s in
  '(s, (series, units)) ← graphTileSeries now tileID seriesReq level t0 t1 s;
  let '(T0, T1) := extent_text series in
  let title := if bool_decide (tileID = []) then str "graph tile" else tileID in
  let n := Z.of_nat (length series) in
  Some (s,
    MkTile tileID level T0 T1 (Format t0) (Format t1) (Format now) title window (axesFromUnits units)
      (MkTileDiag (statusForSeries n) n (sum_over (λ it, Z.of_nat (length (it_Points it))) series) (decimationForWindow (t1 - t0)) level
         (sourceForWindow (t1 - t0)) (sum_over (λ it, id_SuppressedOpenSensorPoints (it_Diagnostics it)) series))
      series).

Definition range_item (t0 t1 : Z) s (r : graphTileRequestSeries) : graphTileItem :=
  let param := parameter_or_zero (tc_Catalogue cfg) (se_ParamID r) in
  MkItem (tileSeriesKeyFromRequest r) (se_DeviceID r) (str (Name param)) (se_DeviceID r ++ str " / " ++ str (Name param))
    (gatewaySeriesColor (se_DeviceID r) param (se_Instance r)) (Unit param)
    (point_text <$> lookupGraphRange (se_DeviceID r) (se_ParamID r) (se_Instance r) t0 t1 (ts_graph s))
    (RoleForParam (tc_Entries cfg) (ID param)) (KindForParam (tc_Entries cfg) (ID param)) (gatewayParameterAxisID (Unit param))
    (MkSource (se_DeviceID r) (se_Instance r) (se_ParamID r) (signalIDForParam param) (graphHistoryEndpoint cfg (se_DeviceID r)))
    "" true "" (MkItemDiag "" 0 "" "" 0) [].
Definition graphTileSeriesRange (tileID : bytes) (req : list graphTileRequestSeries) (t0 t1 : Z) s : list graphTileItem :=
  range_item t0 t1 s <$> requested_series cfg tileID req.
(** The axes come from a traversal of a map: any order of the units. *)
Definition buildGraphTileRange (now : Z) (tileID : bytes) (t0 t1 : Z) (req : list graphTileRequestSeries)
    (traversal : list string → list string) s : graphTileResponse :=
  let series := graphTileSeriesRange tileID req t0 t1 s in
  let '(T0, T1) := extent_text series in
  let n := Z.of_nat (length series) in
  MkTile tileID "range" T0 T1 (Format t0) (Format t1) (Format now) (str "Telemetry: " ++ tileID) (Z.quot (t1 - t0) Millisecond)
    (graphTileAxes (traversal (units_of series)))
    (MkTileDiag "ok" n (sum_over (λ it, Z.of_nat (length (it_History it))) series) (decimationForWindow (t1 - t0)) "range"
       (sourceForWindow (t1 - t0)) 0)
    series.

(** The two kinds of request: a range, if both its ends are given and readable, or a
    level. *)
Definition handleGraphTile (now : Z) (tileID : bytes) (level : string) (query : series_query) (t0Raw t1Raw : bytes)
    (traversal : list string → list string) s : option (tile_server * result error graphTileResponse) :=
  match parseGraphTileSeriesQuery query with
  | Err e => Some (s, Err e)
  | Ok reqSeries =>
      let level := if bool_decide (level = ""%string) then defaultGraphTileLevel else level in
      let given := negb (bool_decide (t0Raw = [])) && negb (bool_decide (t1Raw = [])) in
      match given, parseGraphHistoryTimestamp Parse t0Raw, parseGraphHistoryTimestamp Parse t1Raw with
      | true, Some t0, Some t1 => Some (s, Ok (buildGraphTileRange now tileID t0 t1 reqSeries traversal s))
      | _, _, _ => '(s, tile) ← buildGraphTile now tileID level reqSeries s; Some (s, Ok tile)
      end
  end.

(** ** What a tile says *)
(** A series and its item: points in both forms, never one alone, a quality that
    says whether there are any, and shown if and only if it is good. *)
Record item_ok (r : graphTileRequestSeries) (it : graphTileItem) : Prop := {
  io_id : it_SeriesID it = tileSeriesKeyFromRequest r;
  io_label : compactSeriesLabel (se_DeviceID r) (se_Instance r) (parameter_or_zero (tc_Catalogue cfg) (se_ParamID r)) = Some (it_Label it);
  io_points : it_History it = it_Points it ∧ length (it_Points it) ≠ 1%nat;
  io_count : id_HistoryPoints (it_Diagnostics it) = Z.of_nat (length (it_Points it));
  io_missing : it_Quality it = gatewayQualityMissing ↔ it_Points it = [];
  io_suppressed : 0 ≤ id_SuppressedOpenSensorPoints (it_Diagnostics it) ≤ Z.of_nat (length (it_Points it));
  io_visible : it_DefaultVisible it = true ↔ it_Quality it = gatewayQualityOK }.

Lemma tile_points_spec now level t0 t1 r s :
  let '(_, (points, diag)) := tile_points now level t0 t1 r s in
  length points ≠ 1%nat ∧ id_HistoryPoints diag = Z.of_nat (length points) ∧ id_SuppressedOpenSensorPoints diag = 0.
Proof.
  unfold tile_points. destruct (if bool_decide _ && _ then _ else _) as [[s' history] read].
  destruct history as [|p [|p' history]]; [by destruct (bool_decide _)| |done].
  by destruct (duplicateSingleGraphPoint p t1).
Qed.

Lemma tile_quality_spec r unit points diag : id_SuppressedOpenSensorPoints diag = 0 →
  let '(quality, diag') := tile_quality r unit points diag in
  id_HistoryPoints diag' = id_HistoryPoints diag ∧ (quality = gatewayQualityMissing ↔ points = []) ∧
  0 ≤ id_SuppressedOpenSensorPoints diag' ≤ Z.of_nat (length points) ∧
  ((graphTileSeriesDefaultVisibility quality diag').1 = true ↔ quality = gatewayQualityOK).
Proof.
  intros Hz. unfold tile_quality. case_bool_decide as Hp; [subst points; split_and!; (done || (simpl; lia))|].
  assert (Hc : (countDetachedTemperaturePoints (se_ParamID r) unit (snd <$> points) ≤ length points)%nat).
  { unfold countDetachedTemperaturePoints. rewrite <-(length_fmap snd points). apply length_filter. }
  destruct (seriesLatestPointIsDetached _ _ || _); cbn [id_HistoryPoints id_SuppressedOpenSensorPoints];
    (split_and!; [done| |lia|lia|done]); by split.
Qed.

Lemma tile_item_spec now level t0 t1 r s :
  match tile_item now level t0 t1 r s with
  | Some (_, it) => item_ok r it
  | None => compactDeviceLabel (se_DeviceID r) = None
  end.
Proof.
  unfold tile_item. pose proof (tile_points_spec now level t0 t1 r s) as Hp.
  destruct (tile_points _ _ _ _ _ _) as [s' [points diag]]. destruct Hp as (Hne & Hn & Hz).
  set (unit := tile_unit _). pose proof (tile_quality_spec r unit points diag Hz) as Hq.
  destruct (tile_quality _ _ _ _) as [quality diag']. destruct Hq as (Hn' & Hm & Hs & Hv).
  destruct (graphTileSeriesDefaultVisibility quality diag') as [visible reason].
  destruct (compactSeriesLabel _ _ _) as [label|] eqn:El; cbn [mbind option_bind].
  - split; simpl; try done. congruence.
  - unfold compactSeriesLabel in El. by destruct (compactDeviceLabel _).
Qed.

Lemma tile_items_spec now level t0 t1 series s :
  match tile_items now level t0 t1 series s with
  | Some (_, items) => Forall2 item_ok series items
  | None => ∃ r, r ∈ series ∧ compactDeviceLabel (se_DeviceID r) = None
  end.
Proof.
  revert s. induction series as [|r series IH]; intros s; cbn [tile_items]; [constructor|].
  pose proof (tile_item_spec now level t0 t1 r s) as Hi. destruct (tile_item _ _ _ _ r s) as [[s1 it]|]; cbn [mbind option_bind].
  2: { exists r. split; [by left|done]. }
  specialize (IH s1). destruct (tile_items _ _ _ _ series s1) as [[s2 items]|]; cbn [mbind option_bind].
  - by constructor.
  - destruct IH as (r' & ? & ?). exists r'. split; [by right|done].
Qed.

(** The order of the series of a tile: those of the default device first, then by
    device, parameter and instance.  Without a configured default it is [tec-76]. *)
Definition default_device (d : bytes) : bytes := if decide (d = []) then str "tec-76" else d.
Definition bytes_le (a b : bytes) : Prop := a = b ∨ bytes_ltb a b = true.
Definition series_le (d : bytes) (a b : graphTileRequestSeries) : Prop :=
  if decide (se_DeviceID a = se_DeviceID b) then
    if decide (se_ParamID a = se_ParamID b) then se_Instance a ≤ se_Instance b else se_ParamID a ≤ se_ParamID b
  else if decide (se_DeviceID a = default_device d) then True
  else se_DeviceID b ≠ default_device d ∧ bytes_le (se_DeviceID a) (se_DeviceID b).

Lemma deviceSortRank_default d id : deviceSortRank d id = if decide (id = default_device d) then 0 else 1.
Proof.
  unfold deviceSortRank, default_device. destruct (decide (d = [])) as [->|Hd].
  - cbn [negb andb bool_decide]. rewrite (bool_decide_eq_true_2 ([] = [])) by done. cbn [negb andb].
    destruct (decide (id = str "tec-76")); [by rewrite bool_decide_eq_true_2|by rewrite bool_decide_eq_false_2].
  - rewrite (bool_decide_eq_false_2 (d = [])) by done. cbn [negb andb].
    destruct (decide (id = d)); [by rewrite bool_decide_eq_true_2|by rewrite bool_decide_eq_false_2].
Qed.
Lemma not_ltb_le a b : bytes_ltb b a = false ↔ bytes_le a b.
Proof.
  unfold bytes_le. split.
  - intros Hba. destruct (bytes_ltb a b) eqn:E; [by right|left]. by apply bytes_ltb_total.
  - intros [->|Hab]; [apply bytes_ltb_irrefl|by apply bytes_ltb_asym].
Qed.
Lemma series_less_le d a b : not_after (series_less d) a b ↔ series_le d a b.
Proof.
  unfold not_after, series_less, series_le. rewrite !deviceSortRank_default.
  destruct (decide (se_DeviceID a = se_DeviceID b)) as [E|N].
  - rewrite E. rewrite Z.eqb_refl. cbn [negb]. rewrite (bool_decide_eq_true_2 (se_DeviceID b = se_DeviceID b)) by done. cbn [negb].
    destruct (Z.eqb_spec (se_ParamID b) (se_ParamID a)), (decide (se_ParamID a = se_ParamID b)); try congruence; cbn [negb]; rewrite Z.ltb_ge; lia.
  - rewrite (bool_decide_eq_false_2 (se_DeviceID b = se_DeviceID a)) by congruence.
    destruct (decide (se_DeviceID b = default_device d)) as [Hb|Hb], (decide (se_DeviceID a = default_device d)) as [Ha|Ha]; cbn [negb Z.eqb Z.ltb Z.compare].
    + congruence.
    + split; [done|tauto].
    + by split.
    + change (negb (1 =? 1)%positive) with false. cbv iota. rewrite not_ltb_le. tauto.
Qed.
Lemma series_le_trans d a b c : series_le d a b → series_le d b c → series_le d a c.
Proof.
  unfold series_le, bytes_le. intros Hab Hbc.
  destruct (decide (se_DeviceID a = se_DeviceID b)) as [Eab|Nab], (decide (se_DeviceID b = se_DeviceID c)) as [Ebc|Nbc].
  - rewrite (decide_True _ _ (eq_trans Eab Ebc)). repeat destruct (decide (se_ParamID _ = se_ParamID _)); lia || congruence.
  - rewrite Eab. by rewrite decide_False.
  - rewrite <-Ebc. by rewrite decide_False.
  - destruct (decide (se_DeviceID a = default_device d)) as [Ha|Ha].
    + destruct (decide (se_DeviceID a = se_DeviceID c)) as [Eac|]; [|done]. exfalso.
      rewrite decide_False in Hbc by congruence. destruct Hbc as [Hbc _]. congruence.
    + destruct Hab as [Hb Hab]. rewrite decide_False in Hbc by done. destruct Hbc as [Hc Hbc].
      destruct Hab as [|Hab]; [done|]. destruct Hbc as [|Hbc]; [done|].
      destruct (decide (se_DeviceID a = se_DeviceID c)) as [Eac|_].
      * rewrite Eac in Hab. by rewrite (bytes_ltb_asym _ _ Hab) in Hbc.
      * split; [done|]. right. by eapply bytes_ltb_trans.
Qed.
Lemma sort_series_Permutation d l : sort_series d l ≡ₚ l.
Proof. apply sort_stable_Permutation. Qed.
Lemma sort_series_sorted d l : StronglySorted (series_le d) (sort_series d l).
Proof.
  eapply (StronglySorted_weaken (not_after (series_less d))); [intros a b; apply series_less_le|]. apply sort_stable_sorted.
  - intros a b Hab. destruct (series_less d b a) eqn:Hba; [|done]. exfalso. revert Hab Hba. unfold series_less. cbn zeta.
    rewrite (Z.eqb_sym (deviceSortRank d (se_DeviceID b))), (bool_decide_ext (se_DeviceID b = se_DeviceID a) (se_DeviceID a = se_DeviceID b)), (Z.eqb_sym (se_ParamID b)) by (split; congruence).
    destruct (Z.eqb_spec (deviceSortRank d (se_DeviceID a)) (deviceSortRank d (se_DeviceID b))); cbn [negb]; [|rewrite !Z.ltb_lt; lia].
    destruct (negb _); [intros Hab; by rewrite (bytes_ltb_asym _ _ Hab)|]. destruct (negb _); rewrite !Z.ltb_lt; lia.
  - intros a b c. rewrite !series_less_le. apply series_le_trans.
Qed.

(** The extent of times: the earliest and the latest that can be read. *)
Lemma extent_fold raws acc : 
  let r := fold_left extent_add raws acc in
  let readable t raw := parseGraphHistoryTimestamp Parse raw = Some t ∧ t ≠ 0 in
  (acc = (0, 0) ∨ (acc.1 ≠ 0 ∧ acc.2 ≠ 0 ∧ acc.1 ≤ acc.2)) →
  ((r = (0, 0) ∧ acc = (0, 0) ∧ ∀ raw t, raw ∈ raws → ¬ readable t raw) ∨
   (r.1 ≠ 0 ∧ r.2 ≠ 0 ∧ r.1 ≤ r.2 ∧ (acc = (0, 0) ∨ (r.1 ≤ acc.1 ∧ acc.2 ≤ r.2)) ∧
    ∀ raw t, raw ∈ raws → readable t raw → r.1 ≤ t ≤ r.2)).
Proof.
  cbv zeta. revert acc. induction raws as [|raw raws IH]; intros acc Hacc; cbn [fold_left].
  { destruct Hacc as [->|Hacc]; [left; split_and!; [done..|]; intros raw t Hin; by apply elem_of_nil in Hin|right].
    split_and!; try tauto; try lia. intros raw t Hin. by apply elem_of_nil in Hin. }
  assert (Hskip : extent_add acc raw = acc → (∀ t, ¬ (parseGraphHistoryTimestamp Parse raw = Some t ∧ t ≠ 0)) →
    let r := fold_left extent_add raws (extent_add acc raw) in
    (r = (0, 0) ∧ acc = (0, 0) ∧ ∀ raw' t, raw' ∈ raw :: raws → ¬ (parseGraphHistoryTimestamp Parse raw' = Some t ∧ t ≠ 0)) ∨
    (r.1 ≠ 0 ∧ r.2 ≠ 0 ∧ r.1 ≤ r.2 ∧ (acc = (0, 0) ∨ (r.1 ≤ acc.1 ∧ acc.2 ≤ r.2)) ∧
     ∀ raw' t, raw' ∈ raw :: raws → parseGraphHistoryTimestamp Parse raw' = Some t ∧ t ≠ 0 → r.1 ≤ t ≤ r.2)).
  { intros -> Hno. destruct (IH acc Hacc) as [(? & ? & Hn)|(? & ? & ? & ? & Hb)]; [left|right]; (split_and!; [done..|]).
    - intros raw' t [->|Hin]%elem_of_cons; [apply Hno|by apply Hn].
    - intros raw' t [->|Hin]%elem_of_cons Hr; [by destruct (Hno t)|by apply (Hb raw')]. }
  destruct (parseGraphHistoryTimestamp Parse raw) as [t|] eqn:Et.
  2: { apply Hskip; [unfold extent_add; by rewrite Et|]. by intros t [? _]. }
  destruct (Z.eqb_spec t 0) as [->|Ht].
  { apply Hskip; [unfold extent_add; by rewrite Et|]. intros t [[= <-] ?]. done. }
  clear Hskip. assert (E : extent_add acc raw = (earlier acc.1 t, later acc.2 t)).
  { unfold extent_add. rewrite Et. by destruct (Z.eqb_spec t 0). }
  assert (Hnew : earlier acc.1 t ≠ 0 ∧ later acc.2 t ≠ 0 ∧ earlier acc.1 t ≤ t ≤ later acc.2 t ∧
    (acc = (0, 0) ∨ (earlier acc.1 t ≤ acc.1 ∧ acc.2 ≤ later acc.2 t))).
  { unfold earlier, later. destruct Hacc as [->|(Ha & Hb & Hab)]; simpl; [split_and!; try lia; by left|].
    destruct (Z.eqb_spec acc.1 0), (Z.eqb_spec acc.2 0); try done. cbn [orb].
    destruct (Z.ltb_spec t acc.1), (Z.ltb_spec acc.2 t); (split_and!; [lia..|right; lia]). }
  destruct Hnew as (H1 & H2 & H3 & H4). rewrite E.
  destruct (IH (earlier acc.1 t, later acc.2 t)) as [(_ & E0 & _)|(Hr1 & Hr2 & Hle & Hacc' & Hb)].
  { right. simpl. split_and!; [done|done|lia]. }
  { injection E0 as E0 _. congruence. }
  destruct Hacc' as [E0|Hacc']; [injection E0 as E0 _; congruence|]. simpl in Hacc'. right.
  split_and!; [done|done|done| |].
  - destruct H4 as [->|H4]; [by left|right; lia].
  - intros raw' t' [->|Hin]%elem_of_cons [Hr Hz]; [|by apply (Hb raw')]. rewrite Et in Hr. injection Hr as <-. lia.
Qed.

Lemma sum_points items : sum_over (λ it, Z.of_nat (length (it_Points it))) items = Z.of_nat (length (items ≫= it_Points)).
Proof.
  induction items as [|it items IH]; [done|]. rewrite bind_cons, length_app, Nat2Z.inj_add, <-IH. done.
Qed.

(** C13: a tile is consistent.  A request is answered unless the label of one of its
    devices panics.  The tile has one item per requested series (per default
    series of the tile, if the request has none), those of the default device
    ([tec-76] if none is configured) first and then by device, parameter and
    instance; each item has its points in both forms and never a single one, its
    quality is missing exactly if it has none, it is shown exactly if its quality is
    good, and its diagnostics count its points and at most as many suppressed ones.
    The counts of the tile are those of its items, and its extent is empty exactly if
    no point has a readable time; otherwise its start is before its end and it covers
    every readable time. *)
Theorem tile_consistent (now : Z) (tileID : bytes) (level : string) (req : list graphTileRequestSeries) (s : tile_server) :
  match buildGraphTile now tileID level req s with
  | None => ∃ r, r ∈ requested_series cfg tileID req ∧ compactDeviceLabel (se_DeviceID r) = None
  | Some (_, tile) =>
      let items := ti_Series tile in
      let readable t := ∃ it raw, it ∈ items ∧ raw ∈ fst <$> it_Points it ∧ parseGraphHistoryTimestamp Parse raw = Some t ∧ t ≠ 0 in
      (∃ series, series ≡ₚ requested_series cfg tileID req ∧ StronglySorted (series_le (tc_DefaultDeviceID cfg)) series ∧
         Forall2 item_ok series items) ∧
      td_SeriesCount (ti_Diagnostics tile) = Z.of_nat (length (requested_series cfg tileID req)) ∧
      td_PointCount (ti_Diagnostics tile) = Z.of_nat (length (items ≫= it_Points)) ∧
      ((ti_T0 tile = [] ∧ ti_T1 tile = [] ∧ ∀ t, ¬ readable t) ∨
       ∃ e l, ti_T0 tile = Format e ∧ ti_T1 tile = Format l ∧ e < l ∧ ∀ t, readable t → e ≤ t ≤ l)
  end.
Proof.
  unfold buildGraphTile. destruct (default _ (graphTileLevel level)) as [level' window].
  destruct (graphTileTimeRange _ _ _ _ _ _) as [[t0 t1] window']. unfold graphTileSeries.
  set (series := sort_series _ _). pose proof (tile_items_spec now level' t0 t1 series s) as Hi.
  destruct (tile_items _ _ _ _ series s) as [[s' items]|]; cbn [mbind option_bind].
  2: { destruct Hi as (r & Hr & Hl). exists r. split; [|done]. unfold series in Hr. by rewrite sort_series_Permutation in Hr. }
  assert (Hlen : length items = length (requested_series cfg tileID req)).
  { rewrite <-(Forall2_length _ _ _ Hi). unfold series. by rewrite sort_series_Permutation. }
  assert (Hext : ∀ it raw, it ∈ items → raw ∈ fst <$> it_Points it → raw ∈ items ≫= item_times).
  { intros it raw Hit Hraw. apply list_elem_of_bind. exists it. split; [|done]. apply elem_of_app. by right. }
  unfold extent_text, graphTileDataExtent. pose proof (extent_fold (items ≫= item_times) (0, 0) ltac:(by left)) as He.
  cbv zeta in He. destruct (fold_left extent_add _ (0, 0)) as [e l]. simpl in He.
  destruct (if (e =? 0) || (l =? 0) then None else Some (e, l)) as [[e' l']|] eqn:Eel; cbn [ti_Series ti_Diagnostics ti_T0 ti_T1 td_SeriesCount td_PointCount].
  all: split_and!; [exists series; split_and!; [apply sort_series_Permutation|apply sort_series_sorted|done]| | |].
  all: try (f_equal; exact Hlen).
  all: try apply sum_points.
  - right. destruct (Z.eqb_spec e 0), (Z.eqb_spec l 0); try done. injection Eel as <- <-.
    destruct He as [([= -> _] & _)|(_ & _ & Hle & _ & Hb)]; [done|]. do 2 eexists. split_and!; [done|done| |].
    + destruct (Z.ltb_spec e l); unfold Millisecond; lia.
    + intros t (it & raw & Hit & Hraw & Ht). pose proof (Hb raw t (Hext it raw Hit Hraw) Ht).
      destruct (Z.ltb_spec e l); unfold Millisecond; lia.
  - left. split_and!; [done|done|]. intros t (it & raw & Hit & Hraw & Ht).
    destruct He as [(_ & _ & Hn)|(He1 & He2 & _)].
    + by apply (Hn raw t (Hext it raw Hit Hraw)).
    + destruct (Z.eqb_spec e 0), (Z.eqb_spec l 0); done.
Qed.
End tile.
Arguments tile_server : clear implicits.
Arguments MkTileServer {C P}. Arguments ts_gateway {C P}. Arguments ts_graph {C P}.
