(* ===== verification/GatewayHTTP.v ===== *)
(** * GatewayHTTP: who gets to which handler ([cmd/mecomgw/handlers.go])

    A request passes the origin headers, the access token gate, the multiplexer of
    [net/http] and the dispatcher of the device paths, in this order, before a
    handler sees it.  A request is its method, its path, the first value of each
    query parameter, its headers and its access cookie.

    The multiplexer redirects a path that is not as [path.Clean] leaves it; whether
    it is, is part of the request here. *)
From stdpp Require Import prelude gmap strings list.
From Stdlib Require Import Strings.Byte.
From S2P Require Import Prelude Text Floats Endpoint Protocol BridgePayload WriteLease Commander GatewayWrite GraphKeys.
Local Open Scope Z_scope.
#[local] Set Warnings "-clear-no-such-hyp".

(** ** Requests *)
Record http_request := MkRequest {
  rq_Method : string; rq_Path : bytes; rq_Clean : bool; rq_Query : gmap string bytes; rq_Header : gmap string bytes;
  rq_Cookie : option bytes; rq_TLS : bool }.
Definition query_get (rq : http_request) (key : string) : bytes := default [] (rq_Query rq !! key).
Definition header_get (rq : http_request) (key : string) : bytes := default [] (rq_Header rq !! key).

Record access_config := MkAccess { ac_Token : bytes; ac_Origins : list bytes; ac_UI : bool }.

Inductive device_action : Type := LeaseAcquire | LeaseRelease | DeviceWrite | DeviceRead | DevicePoll | DeviceTile.
Inductive api_route : Type :=
  | Health | Settings | Devices | Catalogue | Commands | HistoryExport | HistoryImport | Availability | LogExport | LogImport
  | Sparklines | Tiles (rest : bytes) | Canmap | CanmapExport | CanmapImport | Leases | Device (id : bytes) (action : device_action)
  | UIFiles | UIRedirect | MethodNotAllowed | RouteNotFound.
Record access_cookie := MkCookie { ck_Value : bytes; ck_Secure : bool }.
(** What becomes of a request before a handler: answered, or handed on. *)
Inductive http_answer : Type :=
  | NoContent
  | Unauthorized (message : string)
  | RedirectClean (cookie : access_cookie)
  | RedirectPath
  | Served (cookie : option access_cookie) (r : api_route).

(** ** The device paths *)
(** [strings.SplitN(rest, "/", 2)]. *)
Fixpoint split_slash (l : bytes) : bytes * option bytes :=
  match l with
  | [] => ([], None)
  | b :: l => if bool_decide (b = "/"%byte) then ([], Some l) else let '(p, r) := split_slash l in (b :: p, r)
  end.
Definition is_method (rq : http_request) (m : string) : bool := bool_decide (rq_Method rq = m).
Definition handleDeviceGraphRoot (rq : http_request) (deviceID : bytes) : api_route :=
  let rest := TrimPrefix (rq_Path rq) (str "/api/devices/" ++ deviceID ++ str "/graph/") in
  if bool_decide (rest = []) then RouteNotFound
  else if bool_decide ((split_slash rest).1 = str "tiles") then Device deviceID DeviceTile else RouteNotFound.
Definition handleDeviceRoot (rq : http_request) : api_route :=
  let rest := TrimPrefix (rq_Path rq) (str "/api/devices/") in
  if bool_decide (rest = []) then RouteNotFound
  else
    let '(deviceID, sub) := split_slash rest in
    let sub := default [] sub in
    let only m action := if is_method rq m then Device deviceID action else MethodNotAllowed in
    if bool_decide (sub = str "lease") then
      if is_method rq "POST" then Device deviceID LeaseAcquire
      else if is_method rq "DELETE" then Device deviceID LeaseRelease else MethodNotAllowed
    else if bool_decide (sub = str "write") then only "POST"%string DeviceWrite
    else if bool_decide (sub = str "read") then only "GET"%string DeviceRead
    else if bool_decide (sub = str "poll") then only "GET"%string DevicePoll
    else if bool_decide (sub = str "graph") then handleDeviceGraphRoot rq deviceID
    else RouteNotFound.

(** ** The multiplexer *)
Definition exact_routes : list (string * api_route) :=
  [("/api/healthz", Health); ("/api/health", Health); ("/api/settings", Settings); ("/api/devices", Devices);
   ("/api/catalogue", Catalogue); ("/api/commands", Commands); ("/api/graph/history/export", HistoryExport);
   ("/api/graph/history/import", HistoryImport); ("/api/graph/availability", Availability); ("/api/log/export", LogExport);
   ("/api/log/import", LogImport); ("/api/graph/sparklines", Sparklines); ("/api/canmap", Canmap);
   ("/api/canmap/export", CanmapExport); ("/api/canmap/import", CanmapImport); ("/api/leases", Leases)]%string.
Definition mux (cfg : access_config) (rq : http_request) : api_route :=
  let path := rq_Path rq in
  match List.find (λ r, bool_decide (path = str r.1)) exact_routes with
  | Some (_, r) => r
  | None =>
      if HasPrefix path (str "/api/graph/tiles/") then Tiles (TrimPrefix path (str "/api/graph/tiles/"))
      else if HasPrefix path (str "/api/devices/") then handleDeviceRoot rq
      else if ac_UI cfg && HasPrefix path (str "/ui/") then UIFiles
      else if ac_UI cfg && bool_decide (path = str "/") then UIRedirect
      else RouteNotFound
  end.
(** A path that is a registered one but for its last slash is redirected to it. *)
Definition lacks_slash (cfg : access_config) (path : bytes) : bool :=
  bool_decide (path = str "/api/graph/tiles") || ac_UI cfg && bool_decide (path = str "/ui").
Definition serve_mux (cfg : access_config) (cookie : option access_cookie) (rq : http_request) : http_answer :=
  if (negb (is_method rq "CONNECT") && negb (rq_Clean rq)) || lacks_slash cfg (rq_Path rq) then RedirectPath
  else Served cookie (mux cfg rq).

(** ** The access token *)
Definition gatewayAccessRequired (path : bytes) : bool :=
  bool_decide (path = str "/") || HasPrefix path (str "/ui/") || HasPrefix path (str "/api/").
Definition gatewayAccessTokenFromQuery (rq : http_request) : bytes :=
  let token := TrimSpace (query_get rq "access_token") in
  if bool_decide (token = []) then TrimSpace (query_get rq "t") else token.
Definition shouldCleanGatewayAccessToken (rq : http_request) : bool :=
  is_method rq "GET" && (bool_decide (rq_Path rq = str "/") || HasPrefix (rq_Path rq) (str "/ui/")).
Definition validAccessToken (cfg : access_config) (token : bytes) : bool :=
  let token := TrimSpace token in negb (bool_decide (token = [])) && bool_decide (token = ac_Token cfg).
Definition validAccessCookie (cfg : access_config) (rq : http_request) : bool :=
  match rq_Cookie rq with Some v => validAccessToken cfg v | None => false end.
Definition setAccessCookie (rq : http_request) (token : bytes) : access_cookie :=
  MkCookie token (rq_TLS rq || bool_decide (ToLower (header_get rq "X-Forwarded-Proto") = str "https")).
Definition withAccessToken (cfg : access_config) (rq : http_request) : http_answer :=
  if bool_decide (ac_Token cfg = []) then serve_mux cfg None rq
  else if is_method rq "OPTIONS" || negb (gatewayAccessRequired (rq_Path rq)) then serve_mux cfg None rq
  else
    let token := gatewayAccessTokenFromQuery rq in
    if negb (bool_decide (token = [])) then
      if validAccessToken cfg token then
        let cookie := setAccessCookie rq token in
        if shouldCleanGatewayAccessToken rq then RedirectClean cookie else serve_mux cfg (Some cookie) rq
      else Unauthorized "invalid gateway access token"
    else if validAccessToken cfg (header_get rq "X-Gateway-Token") || validAccessCookie cfg rq then serve_mux cfg None rq
    else Unauthorized "gateway access token required".

(** ** Origins *)
Definition originAllowed (cfg : access_config) (origin : bytes) : bool :=
  if bool_decide (origin = []) then false
  else existsb (λ allowed, bool_decide (allowed = str "*") || bool_decide (allowed = origin)) (ac_Origins cfg).
(** The answer, and the origin that may read it. *)
Definition serve (cfg : access_config) (rq : http_request) : http_answer * option bytes :=
  if bool_decide (ac_Origins cfg = []) then (withAccessToken cfg rq, None)
  else
    let origin := header_get rq "Origin" in
    (if is_method rq "OPTIONS" then NoContent else withAccessToken cfg rq,
     if originAllowed cfg origin then Some origin else None).

(** ** Lists *)
Definition handleLeasesList {C} (now : Z) (s : gateway C) : gateway C * list Lease :=
  let '(leases, l) := List_ now (gw_leases s) in (put_leases s leases, l).
Definition handleCommandsList {C} (raw : bytes) (s : gateway C) : list gatewayCommandActivity :=
  let raw := TrimSpace raw in
  let limit := match Atoi raw with
               | Some n => if bool_decide (raw = []) || (n <=? 0) then 100 else if 100 <? n then 100 else n
               | None => 100
               end in
  lastn (Z.to_nat limit) (gw_commandLog s).

(** ** Access *)
(** The token a request offers: the query comes first, then the header or the
    cookie. *)
Definition offers_token (cfg : access_config) (rq : http_request) : bool :=
  let token := gatewayAccessTokenFromQuery rq in
  if bool_decide (token = []) then
    existsb (λ t, bool_decide (TrimSpace t = ac_Token cfg)) (header_get rq "X-Gateway-Token" :: option_list (rq_Cookie rq))
  else bool_decide (TrimSpace token = ac_Token cfg).

Lemma validAccessToken_spec cfg token : ac_Token cfg ≠ [] →
  validAccessToken cfg token = bool_decide (TrimSpace token = ac_Token cfg).
Proof.
  intros Ht. unfold validAccessToken. cbn zeta. repeat case_bool_decide; try done. congruence.
Qed.

Lemma withAccessToken_spec cfg rq : ac_Token cfg ≠ [] → rq_Method rq ≠ "OPTIONS"%string →
  gatewayAccessRequired (rq_Path rq) = true →
  if offers_token cfg rq
  then ∃ cookie, withAccessToken cfg rq = serve_mux cfg cookie rq ∨
                 (shouldCleanGatewayAccessToken rq = true ∧ gatewayAccessTokenFromQuery rq ≠ [] ∧
                  withAccessToken cfg rq = RedirectClean (setAccessCookie rq (gatewayAccessTokenFromQuery rq)))
  else ∃ message, withAccessToken cfg rq = Unauthorized message.
Proof.
  intros Ht Hm Hp. unfold offers_token, withAccessToken, validAccessCookie, is_method. cbn zeta.
  rewrite (bool_decide_eq_false_2 _ Ht), (bool_decide_eq_false_2 _ Hm), Hp. cbn [orb negb].
  case_bool_decide; cbn [negb existsb].
  - rewrite validAccessToken_spec by done.
    replace (match rq_Cookie rq with Some v => validAccessToken cfg v | None => false end)
      with (existsb (λ t, bool_decide (TrimSpace t = ac_Token cfg)) (option_list (rq_Cookie rq)))
      by (destruct (rq_Cookie rq); cbn; [by rewrite orb_false_r, validAccessToken_spec|done]).
    destruct (_ || _); eauto.
  - rewrite validAccessToken_spec by done. case_bool_decide; [|eauto].
    destruct (shouldCleanGatewayAccessToken rq) eqn:Hc; [|eauto]. exists None. by right.
Qed.

Lemma HasPrefix_nested l p q : HasPrefix l (p ++ q) = true → HasPrefix l p = true.
Proof. intros ->%HasPrefix_inv. rewrite <- app_assoc. apply HasPrefix_app. Qed.

(** Every route but the pages not found lies behind the token. *)
Lemma routes_are_gated cfg rq : gatewayAccessRequired (rq_Path rq) = false → mux cfg rq = RouteNotFound.
Proof.
  unfold gatewayAccessRequired. intros [[Hr%bool_decide_eq_false Hu]%orb_false_iff Ha]%orb_false_iff.
  unfold mux. cbn zeta.
  destruct (List.find _ exact_routes) as [[p r]|] eqn:Hf.
  { apply find_some in Hf as [Hin Hp%bool_decide_eq_true]. cbn [fst] in Hp. rewrite Hp in Ha. exfalso.
    assert (forallb (λ r, HasPrefix (str r.1) (str "/api/")) exact_routes = true) as Hall by (vm_compute; reflexivity).
    rewrite forallb_forall in Hall. specialize (Hall _ Hin). cbn [fst] in *. congruence. }
  destruct (HasPrefix (rq_Path rq) (str "/api/graph/tiles/")) eqn:E1.
  { rewrite (HasPrefix_nested _ (str "/api/") (str "graph/tiles/")) in Ha by exact E1. done. }
  destruct (HasPrefix (rq_Path rq) (str "/api/devices/")) eqn:E2.
  { rewrite (HasPrefix_nested _ (str "/api/") (str "devices/")) in Ha by exact E2. done. }
  rewrite Hu, (bool_decide_eq_false_2 _ Hr), !andb_false_r. done.
Qed.

Lemma serve_other cfg rq : rq_Method rq ≠ "OPTIONS"%string → (serve cfg rq).1 = withAccessToken cfg rq.
Proof.
  intros Hm. unfold serve, is_method. cbn zeta. rewrite (bool_decide_eq_false_2 _ Hm). by case_bool_decide.
Qed.

(** C4: with an access token configured, a request (other than an OPTIONS request)
    for a path that has a route is answered with 401 and goes no further unless it
    offers the token: in the query or, when the query has none, in the header or the
    cookie.  A request that does is never refused: it gets its route, except that a
    page of the front end asked for with the token in its address is redirected to
    the address without it, and that the multiplexer redirects paths that are not
    in their clean form. *)
Theorem api_needs_token (cfg : access_config) (rq : http_request) :
  ac_Token cfg ≠ [] → rq_Method rq ≠ "OPTIONS"%string → mux cfg rq ≠ RouteNotFound →
  if offers_token cfg rq
  then ∃ cookie, (serve cfg rq).1 = serve_mux cfg cookie rq ∨
                 (shouldCleanGatewayAccessToken rq = true ∧ gatewayAccessTokenFromQuery rq ≠ [] ∧
                  (serve cfg rq).1 = RedirectClean (setAccessCookie rq (gatewayAccessTokenFromQuery rq)))
  else ∃ message, (serve cfg rq).1 = Unauthorized message.
Proof.
  intros Ht Hm Hr. rewrite serve_other by done.
  apply withAccessToken_spec; [done..|]. destruct (gatewayAccessRequired _) eqn:E; [done|].
  by destruct Hr; apply routes_are_gated.
Qed.

(** ** What the gate does not cover *)
(** Without configured origins an OPTIONS request goes to its handler, whose method
    is often not looked at, without a token. *)
Lemma options_need_no_token cfg rq : ac_Origins cfg = [] → rq_Method rq = "OPTIONS"%string →
  serve cfg rq = (serve_mux cfg None rq, None).
Proof.
  intros Ho Hm. unfold serve, withAccessToken, is_method. rewrite Ho, Hm. cbn. by case_bool_decide.
Qed.

(** Whoever may list the leases may use them: the list carries the token of every
    running lease, and the device it is for. *)
Lemma listed_tokens_are_valid {C} now (s s' : gateway C) leases l :
  (∀ d l, gw_leases s !! d = Some l → DeviceID l = d) →
  handleLeasesList now s = (s', leases) → l ∈ leases →
  (WriteLease.Validate now (DeviceID l) (Token l) (gw_leases s)).2 = Ok ().
Proof.
  unfold handleLeasesList, List_. intros Hd [= <- <-] Hl.
  rewrite sort_leases_perm in Hl. apply list_elem_of_fmap in Hl as ([d l'] & -> & Hl).
  apply elem_of_map_to_list in Hl as Hlive. cbn [snd].
  apply live_lookup in Hlive as [Hs Ha]. rewrite (Hd _ _ Hs).
  unfold WriteLease.Validate. rewrite Hs, Ha. cbn [negb]. cbn zeta. by rewrite bool_decide_eq_true_2.
Qed.

(** No path reaches the tiles of a device through the dispatcher of the device
    paths: it looks for [graph] and nothing after it, the second one for more. *)
Lemma split_slash_spec l : match split_slash l with
                           | (p, Some r) => l = p ++ "/"%byte :: r
                           | (p, None) => l = p
                           end.
Proof.
  induction l as [|b l IH]; [done|]. cbn [split_slash]. case_bool_decide as Hb; [by rewrite Hb|].
  destruct (split_slash l) as [p [r|]]; cbn; by rewrite IH at 1.
Qed.

Lemma device_graph_not_found rq d : rq_Path rq = str "/api/devices/" ++ d ++ str "/graph" →
  handleDeviceGraphRoot rq d = RouteNotFound.
Proof.
  intros Hp. unfold handleDeviceGraphRoot, TrimPrefix. cbn zeta.
  assert (HasPrefix (rq_Path rq) (str "/api/devices/" ++ d ++ str "/graph/") = false) as ->.
  { apply bool_decide_eq_false_2. intros E%(f_equal length). revert E. rewrite Hp, length_take, !length_app. cbn. lia. }
  rewrite Hp. reflexivity.
Qed.

Lemma device_graph_unreachable cfg rq id : mux cfg rq ≠ Device id DeviceTile.
Proof.
  unfold mux. cbn zeta. destruct (List.find _ exact_routes) as [[p r]|] eqn:Hf.
  { apply find_some in Hf as [Hin _].
    assert (Forall (λ r, match r.2 with Device _ _ => False | _ => True end) exact_routes) as Hall by (repeat constructor).
    rewrite List.Forall_forall in Hall. specialize (Hall _ Hin). by destruct r. }
  destruct (HasPrefix (rq_Path rq) (str "/api/graph/tiles/")); [done|].
  destruct (HasPrefix (rq_Path rq) (str "/api/devices/")) eqn:Hp; [|by repeat case_match].
  unfold handleDeviceRoot, TrimPrefix. rewrite Hp. apply HasPrefix_inv in Hp.
  set (rest := drop _ _) in *. cbn zeta. case_bool_decide; [done|].
  pose proof (split_slash_spec rest) as Hs. destruct (split_slash rest) as [d [sub|]]; cbn [default];
    [|by repeat (case_bool_decide || destruct (is_method rq _))].
  repeat (case_bool_decide || destruct (is_method rq _)); try done.
  rewrite device_graph_not_found; [done|]. rewrite Hp, Hs. by simplify_eq/=.
Qed.

(** ** The gate at work *)
Module Bench.
Definition cfg := MkAccess (str "s3cret") [] true.
Definition request (method path : string) (query : list (string * bytes)) : http_request :=
  MkRequest method (str path) true (list_to_map query) ∅ None false.

Example with_token : (serve cfg (request "GET" "/api/leases" [("t", str " s3cret ")])).1
  = Served (Some (MkCookie (str "s3cret") false)) Leases.
Proof. vm_compute. reflexivity. Qed.
Example page_with_token : (serve cfg (request "GET" "/ui/index.html" [("access_token", str "s3cret")])).1
  = RedirectClean (MkCookie (str "s3cret") false).
Proof. vm_compute. reflexivity. Qed.
Example without_token : (serve cfg (request "POST" "/api/devices/tec/write" [])).1 = Unauthorized "gateway access token required".
Proof. vm_compute. reflexivity. Qed.
Example listed_without_token : (serve cfg (request "OPTIONS" "/api/leases" [])).1 = Served None Leases.
Proof. vm_compute. reflexivity. Qed.
Example device_write : mux cfg (request "POST" "/api/devices/tec/write" []) = Device (str "tec") DeviceWrite.
Proof. vm_compute. reflexivity. Qed.

Lemma api_needs_token_witness :
  (∃ cookie, (serve cfg (request "POST" "/api/devices/tec/write" [("t", str "s3cret")])).1
             = serve_mux cfg cookie (request "POST" "/api/devices/tec/write" [("t", str "s3cret")])) ∧
  ∃ message, (serve cfg (request "POST" "/api/devices/tec/write" [("t", str "guess")])).1 = Unauthorized message.
Proof.
  assert (∀ q, mux cfg (request "POST" "/api/devices/tec/write" q) ≠ RouteNotFound) as Hr.
  { intros q. unfold request. cbn. discriminate. }
  split.
  - destruct (api_needs_token cfg (request "POST" "/api/devices/tec/write" [("t", str "s3cret")])) as [c [H|(Hc & _)]];
      [done|done|apply Hr|by exists c|discriminate Hc].
  - apply (api_needs_token cfg (request "POST" "/api/devices/tec/write" [("t", str "guess")])); [done|done|apply Hr].
Defined.
End Bench.
