(* ===== verification/GatewayRead.v ===== *)
(** * GatewayRead: values over HTTP ([cmd/mecomgw/handlers.go])

    A read asks the device for all its parameters at once; if the device refuses
    that, for one after the other.  A stream does the same again and again with the
    subscriber of [Subscriber.v], whose client answers the gateway's own parameters
    from the gateway.  What was read goes into the histories.

    A request reads the clock once here.  The object map that a request may select is
    the one of the client.  [time.ParseDuration] is an argument. *)
From stdpp Require Import prelude gmap strings list.
From Stdlib Require Import Strings.Byte Floats.SpecFloat.
From S2P Require Import Prelude Text Floats Endpoint Protocol RingReader Readout BridgePayload WriteLease Commander GatewayWrite GraphKeys GraphHistory GraphExchange GraphTile Channels Subscriber.
Local Open Scope Z_scope.
#[local] Set Warnings "-clear-no-such-hyp".

(** ** The parameters of a request *)
Section parse.
Context (catalogue : list Param).
Definition param_error (what : string) : error := Errorf what [].
(** [strings.IndexByte] and the two sides of it. *)
Fixpoint cut_byte (c : byte) (l : bytes) : option (bytes * bytes) :=
  match l with
  | [] => None
  | b :: l => if bool_decide (b = c) then Some ([], l) else '(before, after) ← cut_byte c l; Some (b :: before, after)
  end.
Definition parse_param (part : bytes) : res Param :=
  match cut_byte ":"%byte part with
  | None => Err (param_error "param %q must be ID:INSTANCE")
  | Some (before, after) =>
      match Atoi (TrimSpace before) with
      | None => Err (param_error "param %q: invalid id: %v")
      | Some id =>
          match Atoi (TrimSpace after) with
          | None => Err (param_error "param %q: invalid instance: %v")
          | Some instance =>
              if (instance <? 1) || (255 <? instance) then Err (param_error "param %q: instance must be in range 1..255")
              else
                match gatewayParameterByID catalogue id with
                | None => Err (param_error "param %q: unknown id")
                | Some param => Ok (MkParam (ID param) instance (Name param) (Unit param) (Type_ param) (Writable param) (Role param) (Kind param))
                end
          end
      end
  end.
Fixpoint parse_parts (parts : list bytes) : res (list Param) :=
  match parts with
  | [] => Ok []
  | part :: parts =>
      let part := TrimSpace part in
      if bool_decide (part = []) then parse_parts parts
      else p ← parse_param part; ps ← parse_parts parts; Ok (p :: ps)
  end.
Definition parseParamsQuery (raw : bytes) : res (list Param) :=
  let raw := TrimSpace raw in
  if bool_decide (raw = []) then Err (param_error "params query is required, e.g. ?params=1000:1,3000:1")
  else
    out ← parse_parts (SplitByte ","%byte raw);
    if bool_decide (out = []) then Err (param_error "no params parsed") else Ok out.
End parse.

(** ** Values *)
Definition gatewayQualityNaN : string := "nan".
Record gatewayReadValue := MkReadValue {
  rv_ID : Z; rv_Instance : Z; rv_Value : option f64; rv_Quality : string; rv_At : option bytes; rv_AgeMS : option Z }.
Definition gatewayValueFromFloat (p : Param) (value : f64) : gatewayReadValue :=
  if is_nan value || is_inf value then MkReadValue (ID p) (Inst p) None gatewayQualityNaN None None
  else MkReadValue (ID p) (Inst p) (Some value) (gatewayQualityForFloat p value) None None.
Definition missing_value (p : Param) : gatewayReadValue := MkReadValue (ID p) (Inst p) None gatewayQualityMissing None None.
(** Empty when the numbers differ. *)
Definition gatewayValuesFromFloats (params : list Param) (values : list f64) : list gatewayReadValue :=
  if bool_decide (length values = length params) then zip_with gatewayValueFromFloat params values else [].

Section read.
Context {C : Type} `{DeviceClient C} {P : Type} `{Pyramid P}.
Context (catalogue : list Param) (Format : Z → bytes) (connect : Endpoint → res C).
Implicit Types (s : tile_server C P).

Definition stampGatewayReadValues (values : list gatewayReadValue) (at_ now : Z) : list gatewayReadValue :=
  if at_ =? 0 then values
  else
    let age := Z.max 0 (Z.quot (now - at_) Millisecond) in
    (λ v, match rv_Value v with
          | None => v
          | Some _ => MkReadValue (rv_ID v) (rv_Instance v) (rv_Value v) (rv_Quality v) (Some (Format at_)) (Some age)
          end) <$> values.
Definition recordGatewayReadSamples (now : Z) (deviceID : string) (values : list gatewayReadValue) (at_ : Z) (st : graphStore P) : graphStore P :=
  fold_left (λ st v, match rv_Value v with
                     | None => st
                     | Some x => recordGraphSample now (str deviceID) (rv_ID v) (rv_Instance v) x at_ st
                     end) values st.

(** One parameter after the other. *)
Fixpoint read_singles (params : list Param) (client : C) : C * list (gatewayReadValue * bool) :=
  match params with
  | [] => (client, [])
  | p :: params =>
      let '(client, single) := rd_ReadBulk [p] client in
      let v := match single with Ok [x] => (gatewayValueFromFloat p x, true) | _ => (missing_value p, false) end in
      let '(client, vs) := read_singles params client in
      (client, v :: vs)
  end.
Definition readGatewayValues (readAt : Z) (deviceID : string) (client : C) (params : list Param) (st : graphStore P) :
    C * graphStore P * res (list gatewayReadValue) :=
  let finish client out :=
    let out := stampGatewayReadValues out readAt readAt in
    (client, recordGatewayReadSamples readAt deviceID out readAt st, Ok out) in
  let fall_back client bulkErr :=
    if shouldResetDeviceBinding bulkErr then (client, st, Err bulkErr)
    else
      let '(client, out) := read_singles params client in
      if existsb snd out then finish client out.*1 else (client, st, Err bulkErr) in
  match rd_ReadBulk params client with
  | (client, Ok values) =>
      if bool_decide (length values = length params) then finish client (gatewayValuesFromFloats params values)
      else fall_back client (Errorf "read returned %d values for %d parameters" [Z.of_nat (length values); Z.of_nat (length params)])
  | (client, Err e) => fall_back client e
  end.

Inductive read_reply : Type := ReadValues (values : list gatewayReadValue) | ReadRefused (status : Z) (e : error).
Definition handleRead (readAt : Z) (deviceID : string) (raw : bytes) s : tile_server C P * read_reply :=
  let '(g, bound) := bind_device connect deviceID (ts_gateway s) in
  let s := MkTileServer g (ts_graph s) in
  match bound with
  | Err f => (s, ReadRefused (bindStatusForError f) (bind_error_value f))
  | Ok client =>
      match parseParamsQuery catalogue raw with
      | Err e => (s, ReadRefused 400 e)
      | Ok params =>
          let '(client, graph, out) := readGatewayValues readAt deviceID client params (ts_graph s) in
          let g := put_client (ts_gateway s) deviceID client in
          match out with
          | Ok out => (MkTileServer g graph, ReadValues out)
          | Err e =>
              (MkTileServer (if shouldResetDeviceBinding e then resetDeviceBinding g deviceID e else g) graph,
               ReadRefused (httpStatusForError e) e)
          end
      end
  end.

(** ** Streams *)
Definition isVirtualParam (id : Z) : bool := (id =? 2035) || (id =? 2036) || (id =? 2038).

(** The client of a stream: the one its device was bound to when the stream began,
    and whether it still is. *)
Record gatewayResetReadClient := MkResetClient {
  rr_DeviceID : string; rr_Client : C; rr_Current : bool; rr_Server : tile_server C P }.
Implicit Types (c : gatewayResetReadClient).
Definition used c (client : C) : gatewayResetReadClient :=
  MkResetClient (rr_DeviceID c) client (rr_Current c)
    (if rr_Current c then MkTileServer (put_client (ts_gateway (rr_Server c)) (rr_DeviceID c) client) (ts_graph (rr_Server c)) else rr_Server c).
(** [resetDeviceBinding] for a client that is not the bound one does nothing. *)
Definition reset_stream c (e : error) : gatewayResetReadClient :=
  if shouldResetDeviceBinding e && rr_Current c then
    MkResetClient (rr_DeviceID c) (rr_Client c) false
      (MkTileServer (resetDeviceBinding (ts_gateway (rr_Server c)) (rr_DeviceID c) e) (ts_graph (rr_Server c)))
  else c.
Definition virtual_value c (p : Param) : f64 :=
  getVirtualParam (ts_gateway (rr_Server c)) (rr_DeviceID c) (ID p) (Inst p) (S754_zero false).
(** The values in the order of the parameters; [None] is an index out of range. *)
Fixpoint merge_values c (params : list Param) (physical : list f64) : option (list f64) :=
  match params with
  | [] => Some []
  | p :: params =>
      if isVirtualParam (ID p) then vs ← merge_values c params physical; Some (virtual_value c p :: vs)
      else
        match physical with
        | [] => None
        | v :: physical => vs ← merge_values c params physical; Some (v :: vs)
        end
  end.
Definition physical_params (params : list Param) : list Param := filter (λ p, isVirtualParam (ID p) = false) params.
Definition stream_values (now : Z) c (params : list Param) (physical : list f64) : option (gatewayResetReadClient * list f64) :=
  values ← merge_values c params physical;
  Some (MkResetClient (rr_DeviceID c) (rr_Client c) (rr_Current c)
          (MkTileServer (ts_gateway (rr_Server c))
             (recordGatewayReadSamples now (rr_DeviceID c) (gatewayValuesFromFloats params values) now (ts_graph (rr_Server c)))),
        values).
(** [None] is a panic. *)
Definition reset_ReadBulk (now : Z) (params : list Param) c : option (gatewayResetReadClient * res (list f64)) :=
  if bool_decide (physical_params params = []) then '(c, vs) ← stream_values now c params []; Some (c, Ok vs)
  else
    let '(client, read) := rd_ReadBulk (physical_params params) (rr_Client c) in
    let c := used c client in
    match read with
    | Err e => Some (reset_stream c e, Err e)
    | Ok physical => '(c, vs) ← stream_values now c params physical; Some (c, Ok vs)
    end.
Definition reset_ReadFloat32 (paramID instance : Z) c : gatewayResetReadClient * res f64 :=
  if isVirtualParam paramID then
    (c, Ok (getVirtualParam (ts_gateway (rr_Server c)) (rr_DeviceID c) paramID instance (S754_zero false)))
  else
    let '(client, v) := dc_ReadFloat32 paramID instance (rr_Client c) in
    let c := used c client in
    match v with Err e => (reset_stream c e, Err e) | Ok v => (c, Ok v) end.
Definition reset_ReadInt32 (paramID instance : Z) c : gatewayResetReadClient * res Z :=
  if isVirtualParam paramID then
    (c, Ok (int32_of_float (getVirtualParam (ts_gateway (rr_Server c)) (rr_DeviceID c) paramID instance (S754_zero false))))
  else
    let '(client, v) := dc_ReadInt32 paramID instance (rr_Client c) in
    let c := used c client in
    match v with Err e => (reset_stream c e, Err e) | Ok v => (c, Ok v) end.

(** The loop over the channel: what cannot be encoded as JSON ends the answer. *)
Definition encodable (tm : Telemetry) : bool := match tm_Value tm with Some v => isFiniteFloat v | None => true end.
Fixpoint stream_output (tms : list Telemetry) : list Telemetry :=
  match tms with
  | [] => []
  | tm :: tms => if encodable tm then tm :: stream_output tms else []
  end.

(** How a stream begins: the configuration of its subscriber, or a refusal. *)
Definition handlePollSSE (ParseDuration : bytes → res Z) (deviceID : string) (raw interval : bytes) s :
    tile_server C P * result (Z * error) (gatewayResetReadClient * SubscriberConfig) :=
  let '(g, bound) := bind_device connect deviceID (ts_gateway s) in
  let s := MkTileServer g (ts_graph s) in
  (s,
   match bound with
   | Err f => Err (bindStatusForError f, bind_error_value f)
   | Ok client =>
       match parseParamsQuery catalogue raw with
       | Err e => Err (400, e)
       | Ok params =>
           match (if bool_decide (interval = []) then Ok (2 * GSecond) else ParseDuration interval) with
           | Err _ => Err (400, Errorf "invalid interval: " [])
           | Ok interval => Ok (MkResetClient deviceID client true s, MkSubscriberConfig deviceID "" params interval 0)
           end
       end
   end).

(** The stream's client is what the subscriber reads from; a panic ends the
    stream. *)
Definition stream_ring : RingClient gatewayResetReadClient := {|
  env_SupportsRingReadout := λ _, true;
  env_ConfigureRingCapture := λ id ps c, let '(client, r) := env_ConfigureRingCapture id ps (rr_Client c) in (used c client, r);
  env_TriggerRingSync := λ c, let '(client, r) := env_TriggerRingSync (rr_Client c) in (used c client, r);
  env_ReadRingPointer := λ c, let '(client, r) := env_ReadRingPointer (rr_Client c) in (used c client, r);
  env_ReadRingChunk := λ start max c, let '(client, r) := env_ReadRingChunk start max (rr_Client c) in (used c client, r) |}.
Definition stream_client (now : Z) : ReadClient gatewayResetReadClient := {|
  rd_ring := stream_ring;
  rd_ReadBulk := λ ps c, default (c, Err (Errorf "panic: index out of range" [])) (reset_ReadBulk now ps c) |}.
End read.
Arguments gatewayResetReadClient : clear implicits.

(** ** What a request says *)
(** The text of a request for parameters by number and instance. *)
Definition pair_text (q : Z * Z) : bytes := fmtD q.1 ++ ":"%byte :: fmtD q.2.
Definition query_text (qs : list (Z * Z)) : bytes := JoinByte ","%byte (pair_text <$> qs).
Definition with_inst (param : Param) (instance : Z) : Param :=
  MkParam (ID param) instance (Name param) (Unit param) (Type_ param) (Writable param) (Role param) (Kind param).

Lemma cut_byte_app c l r : c ∉ l → cut_byte c (l ++ c :: r) = Some (l, r).
Proof.
  induction l as [|b l IH]; cbn [cut_byte app]; [by rewrite bool_decide_eq_true_2|].
  intros [Hb Hl]%not_elem_of_cons. rewrite bool_decide_eq_false_2 by congruence. by rewrite IH.
Qed.

Lemma dec_digits_range fuel z : 0 ≤ z → Forall (λ b, 48 ≤ bz b ≤ 57) (dec_digits fuel z).
Proof.
  revert z. induction fuel as [|fuel IH]; intros z Hz; [constructor|]. cbn [dec_digits].
  assert (Hd : ∀ d, 0 ≤ d < 10 → 48 ≤ bz (dec_char d) ≤ 57).
  { intros d Hd. assert (H : d = 0 ∨ d = 1 ∨ d = 2 ∨ d = 3 ∨ d = 4 ∨ d = 5 ∨ d = 6 ∨ d = 7 ∨ d = 8 ∨ d = 9) by lia.
    by repeat (destruct H as [->|H]; [done|]); subst. }
  destruct (Z.ltb_spec z 10); [repeat constructor; apply Hd; lia|].
  apply Forall_app. split; [apply IH, Z.div_pos; lia|]. repeat constructor; apply Hd, Z.mod_pos_bound; lia.
Qed.

Lemma pair_text_chars q : 0 ≤ q.1 → 0 ≤ q.2 → Forall (λ b, is_space b = false ∧ b ≠ ","%byte) (pair_text q).
Proof.
  intros H1 H2. unfold pair_text. rewrite !fmtD_digits by done.
  assert (Hd : ∀ z, 0 ≤ z → Forall (λ b, is_space b = false ∧ b ≠ ","%byte) (dec_digits 19 z)).
  { intros z Hz. eapply Forall_impl; [by apply dec_digits_range|]. simpl. intros b Hb. split.
    { unfold is_space. cbv zeta. rewrite (proj2 (Z.eqb_neq (bz b) 32)) by lia. destruct (Z.leb_spec (bz b) 13); [lia|]. by rewrite andb_false_r. }
    intros ->. by destruct Hb as [[] _]. }
  apply Forall_app. split; [by apply Hd|]. constructor; [done|by apply Hd].
Qed.

Lemma Forall_Join (Q : byte → Prop) c parts : Q c → Forall (Forall Q) parts → Forall Q (JoinByte c parts).
Proof.
  intros Hc. induction 1 as [|p parts Hp Hps IH]; [constructor|]. destruct parts as [|p' parts]; [done|].
  change (JoinByte c (p :: p' :: parts)) with (p ++ c :: JoinByte c (p' :: parts)).
  apply Forall_app. split; [done|]. by constructor.
Qed.

(** A request by number and instance is read as the parameters of the catalogue. *)
Definition requestable (catalogue : list Param) (q : Z * Z) (p : Param) : Prop :=
  0 ≤ q.1 < 2 ^ 63 ∧ 1 ≤ q.2 ≤ 255 ∧ ∃ def, gatewayParameterByID catalogue q.1 = Some def ∧ p = with_inst def q.2.
Lemma parse_pair catalogue q p : requestable catalogue q p → parse_param catalogue (pair_text q) = Ok p.
Proof.
  intros (Hid & Hi & def & Hdef & ->). unfold parse_param, pair_text. rewrite cut_byte_app.
  - rewrite !Atoi_fmtD by lia. rewrite (proj2 (Z.ltb_ge q.2 1)), (proj2 (Z.ltb_ge 255 q.2)) by lia. cbn [orb]. by rewrite Hdef.
  - rewrite fmtD_digits by lia. apply dec_digits_no_colon. lia.
Qed.
Lemma parse_query catalogue qs ps : qs ≠ [] → Forall2 (requestable catalogue) qs ps →
  parseParamsQuery catalogue (query_text qs) = Ok ps.
Proof.
  intros Hne Hall.
  assert (Hchars : Forall (Forall (λ b, is_space b = false ∧ b ≠ ","%byte)) (pair_text <$> qs)).
  { apply Forall_fmap, Forall_forall. intros q Hq. apply list_elem_of_lookup in Hq as [i Hq].
    destruct (Forall2_lookup_l _ _ _ _ _ Hall Hq) as (p & _ & ? & ? & _). apply pair_text_chars; lia. }
  assert (Hparts : Forall (λ part, TrimSpace part = part) (pair_text <$> qs)).
  { eapply Forall_impl; [exact Hchars|]. intros part Hp. apply TrimSpace_no_space. eapply Forall_impl; [exact Hp|]. by intros b [? ?]. }
  unfold parseParamsQuery, query_text.
  rewrite (TrimSpace_no_space (JoinByte _ _)).
  2: { apply Forall_Join; [done|]. eapply Forall_impl; [exact Hchars|]. intros part Hp. eapply Forall_impl; [exact Hp|]. by intros b [? ?]. }
  rewrite Split_Join.
  3: { eapply Forall_impl; [exact Hchars|]. intros part Hp Hin. rewrite Forall_forall in Hp. by apply Hp in Hin as [_ Hin]. }
  2: { by destruct qs. }
  assert (Hparse : parse_parts catalogue (pair_text <$> qs) = Ok ps).
  { clear Hne Hchars. induction Hall as [|q p qs ps Hq Hall IH]; [done|]. cbn [fmap list_fmap parse_parts] in *.
    apply Forall_cons in Hparts as [Ht Hparts]. rewrite Ht, bool_decide_eq_false_2.
    - rewrite (parse_pair _ _ _ Hq). cbn [mbind result_bind]. by rewrite IH.
    - unfold pair_text. by destruct (fmtD q.1). }
  rewrite bool_decide_eq_false_2.
  - rewrite Hparse. cbn [mbind result_bind]. rewrite bool_decide_eq_false_2; [done|]. intros ->. by inversion Hall; subst.
  - destruct qs as [|q [|q' qs]]; [done| |]; unfold pair_text; cbn; by destruct (fmtD q.1).
Qed.

(** ** What is served *)
Lemma mapM_Ok_lookup {E A B} (f : A → result E B) l bs i b : mapM f l = Ok bs → l !! i = Some b →
  ∃ v, f b = Ok v ∧ bs !! i = Some v.
Proof.
  revert bs i. induction l as [|a l IH]; intros bs i Hm Hi; [done|]. cbn [mapM] in Hm.
  apply bind_Ok_inv in Hm as (v & Hv & Hm). apply bind_Ok_inv in Hm as (bs' & Hbs & Hm). injection Hm as <-.
  destruct i as [|i]; [injection Hi as ->; by exists v|]. by apply (IH bs' i).
Qed.

Section registers.
Context {C : Type} `{DeviceClient C} {P : Type} `{Pyramid P}.
Context (catalogue : list Param) (Format : Z → bytes) (connect : Endpoint → res C).
(** A client of a device that answers reads of its registers: all of them, or the
    error of the first that cannot be read. *)
Context (reads : C → Prop) (reg : Param → res f64).
Hypothesis reads_registers : ∀ c ps, reads c → reads (rd_ReadBulk ps c).1 ∧ (rd_ReadBulk ps c).2 = mapM reg ps.

Definition register_readable (p : Param) : bool := match reg p with Ok _ => true | Err _ => false end.
Definition register_value (p : Param) : gatewayReadValue :=
  match reg p with Ok v => gatewayValueFromFloat p v | Err _ => missing_value p end.
Definition record_registers (now : Z) (deviceID : string) (params : list Param) (st : graphStore P) : graphStore P :=
  fold_left (λ st p, match reg p with
                     | Ok v => recordGraphSample now (str deviceID) (ID p) (Inst p) v now st
                     | Err _ => st
                     end) params st.

Lemma mapM_registers ps vs : mapM reg ps = Ok vs →
  length vs = length ps ∧ zip_with gatewayValueFromFloat ps vs = register_value <$> ps.
Proof.
  revert vs. induction ps as [|p ps IH]; intros vs Hm; cbn [mapM] in Hm; [by injection Hm as <-|].
  unfold register_value at 1. cbn [fmap list_fmap]. destruct (reg p) as [v|] eqn:E; cbn [mbind result_bind] in Hm; [|done].
  destruct (mapM reg ps) as [vs'|]; cbn [mbind result_bind] in Hm; [|done]. injection Hm as <-.
  destruct (IH vs' eq_refl) as [Hl Hz]. split; [simpl; by rewrite Hl|]. cbn [zip_with]. by rewrite Hz.
Qed.

Lemma read_singles_registers ps c : reads c →
  ∃ c', read_singles ps c = (c', (λ p, (register_value p, register_readable p)) <$> ps) ∧ reads c'.
Proof using reads_registers.
  revert c. induction ps as [|p ps IH]; intros c Hc; cbn [read_singles fmap list_fmap]; [by exists c|].
  destruct (reads_registers c [p] Hc) as [Hc1 Hr]. destruct (rd_ReadBulk [p] c) as [c1 r]. simpl in Hc1, Hr. subst r.
  destruct (IH c1 Hc1) as (c2 & -> & Hc2). exists c2. split; [|done]. cbn [mapM].
  unfold register_value, register_readable. by destruct (reg p); cbn [mbind result_bind].
Qed.

Lemma fold_left_through {A B D} (f : A → B → A) (h : A → D → A) (g : D → B) l a :
  (∀ a x, f a (g x) = h a x) → fold_left f (g <$> l) a = fold_left h l a.
Proof. intros Hf. revert a. induction l as [|x l IH]; intros a; [done|]. cbn [fmap list_fmap fold_left]. by rewrite Hf. Qed.

Lemma record_registers_spec now d ps st : now ≠ 0 →
  recordGatewayReadSamples now d (stampGatewayReadValues Format (register_value <$> ps) now now) now st = record_registers now d ps st.
Proof.
  intros Hnow. unfold recordGatewayReadSamples, record_registers, stampGatewayReadValues.
  rewrite (proj2 (Z.eqb_neq now 0)) by done. rewrite <-list_fmap_compose. apply fold_left_through. intros st' p. simpl.
  unfold register_value. destruct (reg p) as [v|e]; [|done]. unfold gatewayValueFromFloat.
  destruct (is_nan v || is_inf v) eqn:Ev; [|done]. simpl. unfold recordGraphSample, isFiniteFloat. by rewrite <-negb_orb, Ev.
Qed.

Lemma readGatewayValues_registers now d c params st : now ≠ 0 → reads c →
  ∃ c', reads c' ∧
    let serves := readGatewayValues Format now d c params st =
      (c', record_registers now d params st, Ok (stampGatewayReadValues Format (register_value <$> params) now now)) in
    match mapM reg params with
    | Ok _ => serves
    | Err e =>
        if shouldResetDeviceBinding e || forallb (λ p, negb (register_readable p)) params
        then readGatewayValues Format now d c params st = (c', st, Err e)
        else serves
    end.
Proof using reads_registers.
  intros Hnow Hc. unfold readGatewayValues. destruct (reads_registers c params Hc) as [Hc1 Hr].
  destruct (rd_ReadBulk params c) as [c1 r]. simpl in Hc1, Hr. subst r. destruct (mapM reg params) as [vs|e] eqn:Em.
  - exists c1. split; [done|]. cbv zeta. destruct (mapM_registers params vs Em) as [Hl Hz].
    unfold gatewayValuesFromFloats. by rewrite !bool_decide_eq_true_2, Hz, record_registers_spec.
  - destruct (read_singles_registers params c1 Hc1) as (c2 & -> & Hc2).
    destruct (shouldResetDeviceBinding e); cbn [orb]; [by exists c1|]. exists c2. split; [done|].
    assert (Hex : existsb snd ((λ p, (register_value p, register_readable p)) <$> params) = negb (forallb (λ p, negb (register_readable p)) params)).
    { clear. induction params as [|p params IH]; [done|]. cbn [fmap list_fmap existsb forallb snd]. rewrite IH. by destruct (register_readable p). }
    rewrite Hex, <-list_fmap_compose. destruct (forallb _ params); [done|]. cbv zeta. cbn [negb].
    rewrite (list_fmap_ext _ register_value) by done. by rewrite record_registers_spec.
Qed.

(** A device with the client that is bound to it. *)
Definition bound_to (s : tile_server C P) (d : string) (c : option C) : Prop :=
  ∃ b, gw_devices (ts_gateway s) !! d = Some b ∧ gb_client b = c.

(** C3: a read over HTTP serves the registers of the device.  When the request names
    known parameters and the device is connected, the answer has one value per
    parameter, in the order of the request: the register's value, with its quality
    and the time of the read, [nan] without a value for one that is not finite, and
    [missing] for one that the device refuses to read; and exactly the finite values
    have been added to the histories.  Refused is only a read whose error speaks for
    the connection, which is then closed, and one of which the device reads
    nothing; it has the status of the first error and leaves the histories
    alone. *)
Theorem read_serves_registers (now : Z) (d : string) (qs : list (Z * Z)) (params : list Param) (c : C) (s : tile_server C P) :
  now ≠ 0 → qs ≠ [] → Forall2 (requestable catalogue) qs params → bound_to s d (Some c) → reads c →
  let '(s', reply) := handleRead catalogue Format connect now d (query_text qs) s in
  ∃ c', reads c' ∧
    let serves :=
      reply = ReadValues (stampGatewayReadValues Format (register_value <$> params) now now) ∧
      ts_graph s' = record_registers now d params (ts_graph s) ∧ bound_to s' d (Some c') in
    match mapM reg params with
    | Ok _ => serves
    | Err e =>
        if shouldResetDeviceBinding e || forallb (λ p, negb (register_readable p)) params
        then reply = ReadRefused (httpStatusForError e) e ∧ ts_graph s' = ts_graph s ∧
             bound_to s' d (if shouldResetDeviceBinding e then None else Some c')
        else serves
    end.
Proof using reads_registers.
  intros Hnow Hne Hqs (b & Hb & Hcl) Hc. unfold handleRead, bind_device. rewrite Hb, Hcl.
  rewrite (parse_query catalogue qs params Hne Hqs). cbn [ts_graph ts_gateway].
  destruct (readGatewayValues_registers now d c params (ts_graph s) Hnow Hc) as (c' & Hc' & Hread).
  assert (Hput : bound_to (MkTileServer (put_client (ts_gateway s) d c') (ts_graph s)) d (Some c')).
  { destruct b as [cfg cl err]. simpl in Hcl. subst cl. exists (MkGatewayBinding cfg (Some c') err).
    unfold put_client. rewrite Hb. cbn [ts_gateway with_devices gw_devices gb_client]. by rewrite lookup_insert_eq. }
  cbv zeta in Hread. destruct (mapM reg params) as [vs|e].
  { rewrite Hread. exists c'. split; [done|]. cbv zeta. split_and!; [done|done|exact Hput]. }
  destruct (shouldResetDeviceBinding e || _) eqn:Hf; rewrite Hread; exists c'; (split; [done|]); cbv zeta.
  2: by split_and!; [..|exact Hput].
  split_and!; [done|done|]. destruct (shouldResetDeviceBinding e); [|exact Hput].
  destruct Hput as (b' & Hb' & _). cbn [ts_gateway] in Hb'. unfold bound_to, resetDeviceBinding. cbn [ts_gateway]. rewrite Hb'.
  eexists. cbn [with_devices gw_devices]. by rewrite lookup_insert_eq.
Qed.

(** *** Streams *)
Abbreviation gateway_stream := (gatewayResetReadClient C P).
Implicit Types (r : gateway_stream).
(** What a stream serves for a parameter: the gateway's own ones are its own. *)
Definition stream_value r (p : Param) : res f64 := if isVirtualParam (ID p) then Ok (virtual_value r p) else reg p.

Lemma virtual_used r client p : virtual_value (used r client) p = virtual_value r p.
Proof.
  unfold virtual_value, used, getVirtualParam. cbn [rr_Server rr_DeviceID]. destruct (rr_Current r); [|done].
  cbn [ts_gateway]. by rewrite virtual_put.
Qed.
Lemma stream_virtual r p : isVirtualParam (ID p) = true → stream_value r p = Ok (virtual_value r p).
Proof. intros Hv. unfold stream_value. by rewrite Hv. Qed.
Lemma stream_physical r p : isVirtualParam (ID p) = false → stream_value r p = reg p.
Proof. intros Hv. unfold stream_value. by rewrite Hv. Qed.
Lemma stream_values_spec now r ps vs : mapM reg (physical_params ps) = Ok vs →
  ∃ r' ws, stream_values now r ps vs = Some (r', ws) ∧ mapM (stream_value r) ps = Ok ws ∧
    rr_Client r' = rr_Client r ∧ rr_Current r' = rr_Current r ∧ ∀ p, virtual_value r' p = virtual_value r p.
Proof.
  intros Hm. assert (Hmerge : ∃ ws, merge_values r ps vs = Some ws ∧ mapM (stream_value r) ps = Ok ws).
  { unfold physical_params in Hm. revert vs Hm. induction ps as [|p ps IH]; intros vs Hm; [by eexists|]. cbn [merge_values mapM].
    destruct (isVirtualParam (ID p)) eqn:Ev.
    - rewrite (stream_virtual r p Ev). rewrite filter_cons_False in Hm by congruence. destruct (IH vs Hm) as (ws & -> & ->). by eexists.
    - rewrite (stream_physical r p Ev). rewrite filter_cons_True in Hm by done. cbn [mapM] in Hm. destruct (reg p) as [v|]; cbn [mbind result_bind] in Hm; [|done].
      destruct (mapM reg (filter _ ps)) as [vs'|] eqn:E; cbn [mbind result_bind] in Hm; [|done]. injection Hm as <-.
      destruct (IH vs' eq_refl) as (ws & -> & ->). by eexists. }
  destruct Hmerge as (ws & Hw & Hws). unfold stream_values. rewrite Hw. by do 2 eexists.
Qed.
Lemma physical_error r ps e : mapM reg (physical_params ps) = Err e → mapM (stream_value r) ps = Err e.
Proof.
  unfold physical_params. induction ps as [|p ps IH]; [done|]. cbn [mapM].
  destruct (isVirtualParam (ID p)) eqn:Ev.
  - rewrite (stream_virtual r p Ev). rewrite filter_cons_False by congruence. intros Hm. cbn [mbind result_bind]. by rewrite IH.
  - rewrite (stream_physical r p Ev). rewrite filter_cons_True by done. cbn [mapM]. destruct (reg p) as [v|]; cbn [mbind result_bind]; [|done].
    destruct (mapM reg (filter _ ps)) as [vs'|]; cbn [mbind result_bind]; [done|]. intros Hm. by rewrite IH.
Qed.

(** The client of a stream answers like the device, with the gateway's own
    parameters on top, and lets go of a broken connection. *)
Lemma stream_reads now r ps : reads (rr_Client r) →
  ∃ r', reset_ReadBulk now ps r = Some (r', mapM (stream_value r) ps) ∧ reads (rr_Client r') ∧
    (∀ p, virtual_value r' p = virtual_value r p) ∧
    rr_Current r' = rr_Current r && match mapM (stream_value r) ps with Err e => negb (shouldResetDeviceBinding e) | Ok _ => true end.
Proof using reads_registers.
  intros Hc. unfold reset_ReadBulk. case_bool_decide as Hp.
  { destruct (stream_values_spec now r ps []) as (r' & ws & -> & Hws & Hcl & Hcur & Hv); [by rewrite Hp|]. rewrite Hws. exists r'.
    cbn [mbind option_bind]. split_and!; [done|by rewrite Hcl|done|by rewrite andb_true_r]. }
  destruct (reads_registers (rr_Client r) (physical_params ps) Hc) as [Hc1 Hr].
  destruct (rd_ReadBulk (physical_params ps) (rr_Client r)) as [c1 res]. simpl in Hc1, Hr. subst res.
  assert (Hsv : mapM (stream_value (used r c1)) ps = mapM (stream_value r) ps).
  { assert (Hpt : ∀ p, stream_value (used r c1) p = stream_value r p) by (intros p; unfold stream_value; by rewrite virtual_used).
    clear -Hpt. induction ps as [|p ps IH]; [done|]. cbn [mapM]. by rewrite Hpt, IH. }
  destruct (mapM reg (physical_params ps)) as [vs|e] eqn:Em.
  - destruct (stream_values_spec now (used r c1) ps vs Em) as (r' & ws & -> & Hws & Hcl & Hcur & Hv). rewrite Hsv in Hws. rewrite Hws.
    exists r'. cbn [mbind option_bind]. split_and!; [done|by rewrite Hcl| |by rewrite andb_true_r, Hcur].
    intros p. by rewrite Hv, virtual_used.
  - rewrite (physical_error r ps e Em). eexists. split; [done|]. unfold reset_stream. cbn [used rr_Current].
    destruct (shouldResetDeviceBinding e); cbn [andb negb]; [destruct (rr_Current r) eqn:Ecur|]; rewrite ?Ecur, ?andb_true_r, ?andb_false_r;
      (split_and!; [done| |done]); intros p; [|apply virtual_used..].
    rewrite <-(virtual_used r c1). unfold virtual_value, getVirtualParam. cbn [rr_Server ts_gateway rr_DeviceID used].
    by rewrite virtual_reset.
Qed.

(** C14: a stream of telemetry serves the registers of the device and the parameters
    of the gateway.  In every cycle, with the device answering, a value per
    parameter goes out in the order of the request, as long as the consumer is not
    too slow for it: the gateway's own parameters (power target, resistance,
    status) as the gateway holds them, the others as the device does, in spite of
    the device being asked only for the latter.  If one of these cannot be read,
    every value of the cycle is marked unreachable with the first error; one that
    speaks for the connection closes it. *)
Theorem stream_serves (RFC3339Nano : Z → string) (now : Z) (schedule : nat → list (bool * nat) * bool) (s : Subscriber gateway_stream)
    (received sent : list Telemetry) :
  undisturbed schedule → (0 < ch_cap (su_out s))%nat → sees (ch_cap (su_out s)) (ch_items (su_out s)) received sent →
  reads (rr_Client (su_client s)) →
  ∃ s' got cycle, pollOnce (H := stream_client now) RFC3339Nano now schedule s = Some (s', got) ∧
    sees (ch_cap (su_out s)) (ch_items (su_out s')) (received ++ got) (sent ++ cycle) ∧
    reads (rr_Client (su_client s')) ∧ tm_Name <$> cycle = Name <$> sb_Parameters (su_cfg s) ∧
    let value := stream_value (su_client s) in
    rr_Current (su_client s') = rr_Current (su_client s) &&
      match mapM value (sb_Parameters (su_cfg s)) with Err e => negb (shouldResetDeviceBinding e) | Ok _ => true end ∧
    ∀ i p, sb_Parameters (su_cfg s) !! i = Some p → ∃ tm, cycle !! i = Some tm ∧
      match mapM value (sb_Parameters (su_cfg s)) with
      | Err e => tm_Quality tm = "unreachable"%string ∧ tm_Error tm = Some e ∧ tm_Value tm = None
      | Ok _ => tm_Error tm = None ∧
                tm_Value tm = match value p with Ok v => if is_nan v then None else Some v | Err _ => None end
      end.
Proof using reads_registers.
  intros Hsch Hcap Hs Hc. destruct (stream_reads now (su_client s) (sb_Parameters (su_cfg s)) Hc) as (r' & Hread & Hc' & _ & Hcur).
  destruct (subscriber_cycle (H := stream_client now) RFC3339Nano now schedule s received sent Hsch Hcap Hs) as (s' & got & cycle & Hp & Hs' & Hn & Hv).
  exists s', got, cycle. cbn [rd_ReadBulk stream_client] in Hv. rewrite Hread in Hv. cbn [default from_option id snd] in Hv.
  assert (Hcl : su_client s' = r').
  { revert Hp. unfold pollOnce. cbn [rd_ReadBulk stream_client]. rewrite Hread. cbn [default from_option id].
    destruct (emit_all _ _ _ _) as [[out rec]|]; [|done]. by intros [= <- _]. }
  split_and!; [done|done|by rewrite Hcl|done|]. cbv zeta. split; [by rewrite Hcl|]. intros i p Hi. destruct (Hv i p Hi) as (tm & Htm & _ & Hres).
  exists tm. split; [done|]. destruct (mapM _ _) as [vs|e] eqn:Em; [|done]. destruct Hres as (? & Hval & _). split; [done|].
  rewrite Hval. apply mapM_Ok_lookup with (i := i) (b := p) in Em as (v & Ev & Hvi); [|done]. by rewrite Hvi, Ev.
Qed.
End registers.

(** ** A device *)
Module Bench.
(** The object temperature, a sink temperature that is not there, a current whose
    reading is out of range, and a supply that has stopped to answer. *)
Definition reg (p : Param) : res f64 :=
  if ID p =? 1000 then Ok (of_int 25)
  else if ID p =? 1020 then Ok (S754_infinity false)
  else if ID p =? 1021 then Err (Sentinel ErrTimeout)
  else Err (Sentinel ErrUnknownParameter).
#[local] Instance counting_client : DeviceClient Z := {|
  dc_read := {|
    rd_ring := {|
      env_SupportsRingReadout := λ _, true;
      env_ConfigureRingCapture := λ _ _ c, (c, Ok ());
      env_TriggerRingSync := λ c, (c, Ok ());
      env_ReadRingPointer := λ c, (c, Err (Sentinel ErrTimeout));
      env_ReadRingChunk := λ _ _ c, (c, Err (Sentinel ErrTimeout)) |};
    rd_ReadBulk := λ ps c, (c + 1, mapM reg ps) |};
  dc_ReadFloat32 := λ id i c, (c + 1, reg (MkParam id i "" "" DataTypeFloat32 false "" ""));
  dc_ReadInt32 := λ _ _ c, (c, Ok 0);
  dc_WriteClient := None; dc_StringWriteClient := None; dc_ControlClient := None; dc_ReadSDORaw := None |}.
Definition bench_named (id : Z) (name unit : string) : Param := MkParam id 1 name unit DataTypeFloat32 false "" "".
Definition catalogue : list Param :=
  [bench_named 1000 "Object Temperature" "degC"; bench_named 1001 "Sink Temperature" "degC"; bench_named 1020 "Output Current" "A"; bench_named 1021 "Output Voltage" "V"].
Definition server : tile_server Z (list (Z * f64)) :=
  MkTileServer
    (setVirtualParam (MkGateway {["tec"%string := MkGatewayBinding (MkGatewayDevice "tec" [] [] true) (Some 0) None]} ∅ ∅ [])
       "tec" 2035 1 (of_int 40))
    empty_store.
Definition read (raw : string) := (handleRead catalogue (λ _, str "now") (λ _, Err (Sentinel ErrUnreachable)) 7 "tec" (str raw) server).2.

Example refused_parameter_missing : read "1000:2, 1001:1" = ReadValues
  [MkReadValue 1000 2 (Some (of_int 25)) "ok" (Some (str "now")) (Some 0); MkReadValue 1001 1 None "missing" None None].
Proof. vm_compute. reflexivity. Qed.
Example infinite_value : read "1020:1" = ReadValues [MkReadValue 1020 1 None "nan" None None].
Proof. vm_compute. reflexivity. Qed.
Example lost_connection : read "1000:1,1021:1" = ReadRefused 504 (Sentinel ErrTimeout).
Proof. vm_compute. reflexivity. Qed.
(** A read asks the device for the power target; a stream knows it. *)
Example target_of_a_read : read "1000:1,2035:1" = ReadValues
  [MkReadValue 1000 1 (Some (of_int 25)) "ok" (Some (str "now")) (Some 0); MkReadValue 2035 1 None "missing" None None].
Proof. vm_compute. reflexivity. Qed.
Definition bench_stream : gatewayResetReadClient Z (list (Z * f64)) := MkResetClient "tec" 0 true server.
Example target_of_a_stream : stream_value reg bench_stream parameter_2035 = Ok (of_int 40).
Proof. vm_compute. reflexivity. Qed.

Lemma read_serves_registers_witness :
  (handleRead catalogue (λ _, str "now") (λ _, Err (Sentinel ErrUnreachable)) 7 "tec" (query_text [(1000, 2); (1001, 1)]) server).2
  = ReadValues [MkReadValue 1000 2 (Some (of_int 25)) "ok" (Some (str "now")) (Some 0); MkReadValue 1001 1 None "missing" None None].
Proof.
  pose proof (read_serves_registers (H := counting_client) catalogue (λ _, str "now") (λ _, Err (Sentinel ErrUnreachable))
    (λ _, True) reg (λ _ _ _, conj I eq_refl) 7 "tec" [(1000, 2); (1001, 1)]
    [with_inst (bench_named 1000 "Object Temperature" "degC") 2; with_inst (bench_named 1001 "Sink Temperature" "degC") 1] 0 server) as Hr.
  destruct (handleRead _ _ _ _ _ _ _) as [s' r].
  destruct Hr as (c' & _ & Hserves & _).
  - done.
  - done.
  - repeat constructor; simpl; try lia; by eexists.
  - eexists. split; reflexivity.
  - exact I.
  - simpl. rewrite Hserves. reflexivity.
Defined.

Definition bench_config : SubscriberConfig :=
  MkSubscriberConfig "tec" "" [with_inst (bench_named 1000 "Object Temperature" "degC") 1; parameter_2035] 1 0.
Definition bench_subscriber : Subscriber (gatewayResetReadClient Z (list (Z * f64))) := NewSubscriber bench_stream bench_config.
Lemma stream_serves_witness :
  ∃ s' got cycle, pollOnce (H := stream_client 7) (λ _, "now"%string) 7 (λ _, ([(false, 0%nat); (false, 0%nat)], false)) bench_subscriber
    = Some (s', got) ∧ rr_Current (su_client s') = true ∧ tm_Value <$> cycle = [Some (of_int 25); Some (of_int 40)].
Proof.
  destruct (stream_serves (H := counting_client) (λ _, True) reg (λ _ _ _, conj I eq_refl) (λ _, "now"%string) 7
    (λ _, ([(false, 0%nat); (false, 0%nat)], false)) bench_subscriber [] []) as (s' & got & cycle & Hp & _ & _ & Hn & Hcur & Hv).
  - intros i. by exists 0%nat, 0%nat, [].
  - vm_compute. lia.
  - constructor; [apply sublist_nil_l|vm_compute; lia|reflexivity].
  - exact I.
  - exists s', got, cycle. split; [exact Hp|].
    assert (E : mapM (stream_value reg (su_client bench_subscriber)) (sb_Parameters (su_cfg bench_subscriber)) = Ok [of_int 25; of_int 40])
      by (vm_compute; reflexivity).
    split; [rewrite Hcur, E; vm_compute; reflexivity|].
    apply (f_equal length) in Hn. rewrite !length_fmap in Hn. destruct cycle as [|t0 [|t1 [|? ?]]]; try discriminate Hn.
    destruct (Hv 0%nat (with_inst (bench_named 1000 "Object Temperature" "degC") 1) eq_refl) as (tm0 & [= <-] & H0). rewrite E in H0.
    destruct (Hv 1%nat parameter_2035 eq_refl) as (tm1 & [= <-] & H1). rewrite E in H1. destruct H0 as [_ H0], H1 as [_ H1].
    cbn [fmap list_fmap]. rewrite H0, H1. vm_compute. reflexivity.
Defined.

(** An infinite value ends a stream: it is sent on as good, and not encodable. *)
Example infinite_value_ends_stream :
  let tms := imap (telemetry_of (λ _, "now"%string) bench_config 7 (Ok [of_int 25; S754_infinity false; of_int 40]))
    [bench_named 1000 "T" ""; bench_named 1020 "I" ""; parameter_2035] in
  tm_Quality <$> tms = ["ok"; "ok"; "ok"]%string ∧ length (stream_output tms) = 1%nat.
Proof. vm_compute. split; reflexivity. Qed.
End Bench.
