(* ===== verification/Catalogue.v ===== *)
(** * Catalogue: the parameter catalogue of a device family ([mecom/catalogue.go])

    A catalogue is a document with the parameters of a family; from it come the
    readout plan of a device, its writable parameters, the entries the gateway
    shows, and the rows of a graph source.  The document is as [encoding/json]
    decodes it; where the program puts JSON text into metadata, the text is an
    argument, and so are the constants of the graph library. *)
From stdpp Require Import prelude gmap strings list.
From Stdlib Require Import Strings.Byte.
From S2P Require Import Prelude Text Floats Protocol PollQueue RingReader Readout Endpoint SdoMap.
Local Open Scope Z_scope.
#[local] Set Warnings "-clear-no-such-hyp".

(** ** Text *)
Definition ReplaceChar (old new : byte) (s : string) : string :=
  to_str ((λ b, if bool_decide (b = old) then new else b) <$> str s).
Definition compactStrings (values : list string) : list string := filter (λ v, v ≠ ""%string) values.
Definition first_non_empty (values : list string) : string :=
  default ""%string (List.find (λ v, negb (bool_decide (trim v = ""%string))) values).
(** [%02d]. *)
Definition fmt02d (z : Z) : string := to_str (if (0 <=? z) && (z <? 10) then "0"%byte :: fmtD z else fmtD z).
Fixpoint drop_dots (l : bytes) : bytes :=
  match l with b :: l' => if bool_decide (b = "."%byte) then drop_dots l' else l | [] => [] end.
Definition TrimRightDots (s : string) : string := to_str (reverse (drop_dots (reverse (str s)))).
Definition itoa (z : Z) : string := to_str (fmtD z).

(** ** Data *)
Record TECCatalogueTreePath := MkTreePath { tp_ID : string; tp_Label : string; tp_Path : list string; tp_Default : bool }.
Record mecomTECParameter := MkTEC {
  tec_ID : Z; tec_Suffix : string; tec_RawName : string; tec_Display : string; tec_Unit : string; tec_ValueType : string;
  tec_Category : string; tec_Role : string; tec_SemanticRole : string; tec_SourceParameterName : string; tec_Help : string;
  tec_Visibility : string; tec_SourceEvidence : list string; tec_Priority : string; tec_PreferredReadout : string;
  tec_PriorityComponent : string; tec_Aliases : list string; tec_Writable : bool; tec_Access : string; tec_Group : string;
  tec_Subgroup : string; tec_TreePath : list string; tec_TreePaths : list TECCatalogueTreePath;
  tec_ApplicableModes : list string; tec_Command : string; tec_Minimum : option f64; tec_Maximum : option f64;
  tec_DefaultValue : option string; tec_Enum : gmap string string; tec_Dangerous : bool; tec_TransportSupport : list string;
  tec_Counterparts : gmap string (list Z) }.
Record mecomTECDerivedParameter := MkDerived {
  de_Suffix : string; de_RawName : string; de_Display : string; de_SemanticRole : string; de_SourceParameters : string;
  de_Group : string; de_Subgroup : string; de_TreePath : list string; de_TreePaths : list TECCatalogueTreePath }.
Record tecCatalogueJSON := MkCatalogueJSON {
  cj_SchemaVersion : string; cj_ReadoutParameters : list mecomTECParameter; cj_WriteParameters : list mecomTECParameter;
  cj_DerivedParameters : list mecomTECDerivedParameter }.
Record mecomTECHelpParameter := MkHelp {
  he_MeParID : Z; he_Name : string; he_Group : string; he_Visibility : string; he_Help : string;
  he_SourceEvidence : list string; he_SourceAccess : string; he_SafetyNote : string }.
Record mecomTECHelpSourceJSON := MkHelpSource { hs_SchemaVersion : string; hs_Parameters : gmap string mecomTECHelpParameter }.
Record TECCatalogueEntry := MkEntry {
  ce_ID : Z; ce_Instance : Z; ce_DisplayName : string; ce_RawName : string; ce_Unit : string; ce_Type : string;
  ce_Role : string; ce_Group : string; ce_Subgroup : string; ce_Category : string; ce_Kind : string; ce_Access : string;
  ce_SemanticRole : string; ce_SourceParameterName : string; ce_Help : string; ce_Visibility : string; ce_SafetyNote : string;
  ce_SourceStatus : string; ce_SourceEvidence : list string; ce_ReadoutPriority : string; ce_PreferredReadout : string;
  ce_Command : string; ce_ApplicableModes : list string; ce_Min : option f64; ce_Max : option f64;
  ce_DefaultValue : option string; ce_Enum : gmap string string; ce_Dangerous : bool; ce_TransportSupport : list string;
  ce_Counterparts : gmap string (list Z); ce_TreePath : list string; ce_TreePaths : list TECCatalogueTreePath;
  ce_Metadata : gmap string string }.

(** ** A parameter *)
Definition mecomReadoutPriorityHigh : string := "high".
Definition mecomReadoutPriorityBackground : string := "background".
Definition mecomRingReadout : string := "mecom_crtvstream_ring_buffer".
Definition mecomBackgroundReadout : string := "mecom_vx_round_robin_queue".
Definition mecomDerivedReadout : string := "mecom_derived_channel_model".
Definition mecomRingReduction : string := "mean_stddev_window_to_consumer_rate".

Definition effectiveValueType (p : mecomTECParameter) : string :=
  if bool_decide (tec_ValueType p = ""%string) then "float32" else tec_ValueType p.
Definition dataType (p : mecomTECParameter) : DataType :=
  if bool_decide (effectiveValueType p ∈ ["int"; "int32"]%string) then DataTypeInt32
  else if bool_decide (effectiveValueType p ∈ ["latin1"; "string"]%string) then DataTypeLatin1
  else DataTypeFloat32.
Definition graphValueType (p : mecomTECParameter) : string :=
  if bool_decide (effectiveValueType p ∈ ["int"; "int32"]%string) then "int"
  else if bool_decide (effectiveValueType p ∈ ["latin1"; "string"]%string) then "string"
  else "float".
Definition param_access (p : mecomTECParameter) : string :=
  if bool_decide (tec_Access p = ""%string) then (if tec_Writable p then "write" else "read")%string else tec_Access p.
Definition readoutPriority (p : mecomTECParameter) : string :=
  if bool_decide (tec_Priority p = ""%string) then mecomReadoutPriorityBackground else tec_Priority p.
Definition effectivePreferredReadout (p : mecomTECParameter) : string :=
  if bool_decide (tec_PreferredReadout p = ""%string) then
    if bool_decide (readoutPriority p = mecomReadoutPriorityHigh) then mecomRingReadout else mecomBackgroundReadout
  else tec_PreferredReadout p.

(** ** Loading *)
Definition catalogue_error (what : string) : error := Errorf what [].
Fixpoint validateCatalogueTreePath (path : list string) : res () :=
  match path with
  | [] => Ok ()
  | part :: path =>
      if bool_decide (trim part = ""%string) then Err (catalogue_error "%s tree_path part %d is empty")
      else validateCatalogueTreePath path
  end.
Fixpoint validate_projections (seen : list string) (defaults : Z) (paths : list TECCatalogueTreePath) : res () :=
  match paths with
  | [] => if 1 <? defaults then Err (catalogue_error "%s tree_paths must have at most one default projection") else Ok ()
  | projection :: paths =>
      let id := trim (tp_ID projection) in
      if bool_decide (id = ""%string) then Err (catalogue_error "%s tree_paths[%d] missing id")
      else if bool_decide (id ∈ seen) then Err (catalogue_error "%s tree_paths duplicate id %q")
      else if bool_decide (tp_Path projection = []) then Err (catalogue_error "%s tree_paths[%q] path must not be empty")
      else
        _ ← validateCatalogueTreePath (tp_Path projection);
        validate_projections (id :: seen) (if tp_Default projection then defaults + 1 else defaults) paths
  end.
Definition validateCatalogueTreePaths (paths : list TECCatalogueTreePath) : res () := validate_projections [] 0 paths.

Definition validate_tec (param : mecomTECParameter) : res () :=
  if tec_ID param <=? 0 then Err (catalogue_error "catalogue parameter %q has invalid id %d")
  else if bool_decide (tec_Suffix param = ""%string) then Err (catalogue_error "catalogue parameter %d missing sid")
  else if bool_decide (effectiveValueType param = ""%string) then Err (catalogue_error "catalogue parameter %d missing type")
  else if bool_decide (dataType param = ""%string) then Err (catalogue_error "catalogue parameter %d has unsupported type %q")
  else _ ← validateCatalogueTreePath (tec_TreePath param); validateCatalogueTreePaths (tec_TreePaths param).
Definition validate_derived (param : mecomTECDerivedParameter) : res () :=
  _ ← validateCatalogueTreePath (de_TreePath param); validateCatalogueTreePaths (de_TreePaths param).
Fixpoint validate_each {A} (f : A → res ()) (l : list A) : res () :=
  match l with [] => Ok () | a :: l => _ ← f a; validate_each f l end.
(** [None]: the text is not JSON for a catalogue. *)
Definition loadTECCatalogueJSON (raw : option tecCatalogueJSON) : res tecCatalogueJSON :=
  match raw with
  | None => Err (catalogue_error "json")
  | Some catalogue =>
      if bool_decide (cj_SchemaVersion catalogue = ""%string) then Err (catalogue_error "missing schema_version")
      else if bool_decide (length (cj_ReadoutParameters catalogue) = 0%nat) then Err (catalogue_error "readout_parameters must not be empty")
      else if bool_decide (length (cj_DerivedParameters catalogue) = 0%nat) then Err (catalogue_error "derived_parameters must not be empty")
      else
        _ ← validate_each validate_tec (cj_ReadoutParameters catalogue ++ cj_WriteParameters catalogue);
        _ ← validate_each validate_derived (cj_DerivedParameters catalogue);
        Ok catalogue
  end.
Definition loadTECHelpSourceJSON (raw : option mecomTECHelpSourceJSON) : res mecomTECHelpSourceJSON :=
  match raw with
  | None => Err (catalogue_error "json")
  | Some help => if bool_decide (hs_SchemaVersion help = ""%string) then Err (catalogue_error "missing TEC help schema_version") else Ok help
  end.

(** ** Tree paths *)
Definition normalizeCatalogueTreeProjection (projection : TECCatalogueTreePath) : option TECCatalogueTreePath :=
  let id := trim (tp_ID projection) in
  let label := trim (tp_Label projection) in
  let path := compactStrings (tp_Path projection) in
  if bool_decide (id = ""%string) || bool_decide (path = []) then None
  else Some (MkTreePath id (if bool_decide (label = ""%string) then id else label) path (tp_Default projection)).
Fixpoint add_generated (seen : list string) (generated : list TECCatalogueTreePath) : list TECCatalogueTreePath :=
  match generated with
  | [] => []
  | projection :: generated =>
      match normalizeCatalogueTreeProjection projection with
      | None => add_generated seen generated
      | Some normalized =>
          if bool_decide (tp_ID normalized ∈ seen) then add_generated seen generated
          else normalized :: add_generated (tp_ID normalized :: seen) generated
      end
  end.
Definition effectiveCatalogueTreePaths (single : list string) (projections generated : list TECCatalogueTreePath) :
    list TECCatalogueTreePath :=
  let out := omap normalizeCatalogueTreeProjection projections in
  if bool_decide (out = []) && negb (bool_decide (single = [])) then
    let operator := option_list (normalizeCatalogueTreeProjection (MkTreePath "operator" "Operator" (compactStrings single) true)) in
    operator ++ add_generated (tp_ID <$> operator) generated
  else out.
Definition effectiveOperatorTreePath (treePath : list string) (group subgroup display : string) : list string :=
  if bool_decide (treePath = []) then compactStrings [group; subgroup; display] else treePath.
Definition effectiveProtocolTreePath (p : mecomTECParameter) : TECCatalogueTreePath :=
  let name := if bool_decide (tec_RawName p = ""%string) then tec_Suffix p else tec_RawName p in
  MkTreePath "protocol" "MeCom protocol" (compactStrings ["MeCom protocol"; "Parameter " +:+ itoa (tec_ID p); name]%string) false.
Definition effectiveTreePaths (p : mecomTECParameter) : list TECCatalogueTreePath :=
  effectiveCatalogueTreePaths (effectiveOperatorTreePath (tec_TreePath p) (tec_Group p) (tec_Subgroup p) (tec_Display p))
    (tec_TreePaths p) [effectiveProtocolTreePath p].
Definition derived_TreePaths (p : mecomTECDerivedParameter) : list TECCatalogueTreePath :=
  effectiveCatalogueTreePaths (effectiveOperatorTreePath (de_TreePath p) (de_Group p) (de_Subgroup p) (de_Display p)) (de_TreePaths p) [].
Definition catalogueTreePath (path : list string) : string :=
  String.concat " / " (filter (λ part, part ≠ ""%string) (trim <$> path)).
Definition addCatalogueTreePathMetadata (Marshal_paths : list TECCatalogueTreePath → string) (metadata : gmap string string)
    (paths : list TECCatalogueTreePath) : gmap string string :=
  match paths with
  | [] => metadata
  | first :: _ =>
      let metadata := <["ui_tree_paths"%string := Marshal_paths paths]> metadata in
      let projection := default first (List.find tp_Default paths) in
      let metadata := if bool_decide (tp_ID projection = ""%string) then metadata
                      else <["ui_tree_projection"%string := tp_ID projection]> metadata in
      let text := catalogueTreePath (tp_Path projection) in
      if bool_decide (text = ""%string) then metadata else <["ui_tree_path"%string := text]> metadata
  end.

(** ** Definitions of device families *)
Record MeComCatalogueDefinition := MkDefinition {
  df_DefinitionID : string; df_System : string; df_Family : string; df_SubFamily : string; df_Variant : string; df_Version : string;
  df_SourceFamily : string; df_DefaultSourceID : string; df_DisplayName : string; df_TracePrefix : string;
  df_readoutParameters : list mecomTECParameter; df_writeParameters : list mecomTECParameter;
  df_derivedParameters : list mecomTECDerivedParameter }.
Definition no_definition : MeComCatalogueDefinition := MkDefinition "" "" "" "" "" "" "" "" "" "" [] [] [].

Definition MeComDefinitionSystem : string := "mecom".
Definition MeerstetterDefinitionFamily : string := "meerstetter".
Definition MeerstetterSubFamilyTEC : string := "tec".
Definition MeerstetterSubFamilyLDD : string := "ldd".
Definition MeerstetterSubFamilyDAQ : string := "daq".
Definition MeerstetterSubFamilyRMM : string := "rmm".
Definition MeerstetterVariantLDD130x : string := "ldd_130x".
Definition MeerstetterVariantLDD1321 : string := "ldd_1321".
Definition MeerstetterVariantRMM1182 : string := "rmm_1182".
Definition DefaultMeComTECCatalogueSourceID : string := "mecom_tec".

(** The catalogue and the help texts of the TEC family, as loaded at start. *)
Section definitions.
Context (defaultTECCatalogue : tecCatalogueJSON) (defaultTECHelpSource : mecomTECHelpSourceJSON).

Definition DefaultTECCatalogueDefinition : MeComCatalogueDefinition :=
  MkDefinition "meerstetter.tec.v632" MeComDefinitionSystem MeerstetterDefinitionFamily MeerstetterSubFamilyTEC MeerstetterSubFamilyTEC
    "v632" DefaultMeComTECCatalogueSourceID DefaultMeComTECCatalogueSourceID "MeCom TEC controller bank" "mecom.tec"
    (cj_ReadoutParameters defaultTECCatalogue) (cj_WriteParameters defaultTECCatalogue) (cj_DerivedParameters defaultTECCatalogue).
Definition DefaultLDDCatalogueDefinition : MeComCatalogueDefinition :=
  MkDefinition "meerstetter.ldd.v1" MeComDefinitionSystem MeerstetterDefinitionFamily MeerstetterSubFamilyLDD MeerstetterSubFamilyLDD ""
    "mecom_ldd" "mecom_ldd" "MeCom LDD controller bank" "mecom.ldd" [] [] [].
Definition DefaultLDD130xCatalogueDefinition : MeComCatalogueDefinition :=
  MkDefinition "meerstetter.ldd_130x.v221" MeComDefinitionSystem MeerstetterDefinitionFamily MeerstetterSubFamilyLDD MeerstetterVariantLDD130x
    "v221" "mecom_ldd_130x" "mecom_ldd_130x" "MeCom LDD-130x controller bank" "mecom.ldd_130x" [] [] [].
Definition ldd_1321_definition : MeComCatalogueDefinition :=
  MkDefinition "meerstetter.ldd_1321.v1" MeComDefinitionSystem MeerstetterDefinitionFamily MeerstetterSubFamilyLDD MeerstetterVariantLDD1321
    "" "mecom_ldd_1321" "mecom_ldd_1321" "MeCom LDD-1321 controller bank" "mecom.ldd_1321" [] [] [].
Definition DefaultDAQCatalogueDefinition : MeComCatalogueDefinition :=
  MkDefinition "meerstetter.daq.v1" MeComDefinitionSystem MeerstetterDefinitionFamily MeerstetterSubFamilyDAQ MeerstetterSubFamilyDAQ ""
    "mecom_daq" "mecom_daq" "MeCom DAQ controller bank" "mecom.daq" [] [] [].
Definition DefaultRMM1182CatalogueDefinition : MeComCatalogueDefinition :=
  MkDefinition "meerstetter.rmm_1182.v100" MeComDefinitionSystem MeerstetterDefinitionFamily MeerstetterSubFamilyRMM MeerstetterVariantRMM1182
    "v100" "mecom_rmm_1182" "mecom_rmm_1182" "MeCom RMM-1182 measurement module" "mecom.rmm_1182" [] [] [].

Definition normalizeDefinitionToken (value : string) : string := ReplaceChar "-"%byte "_"%byte (trim (lower value)).
Definition or_default (value fallback : string) : string := if bool_decide (value = ""%string) then fallback else value.
Definition ResolveMeComCatalogueDefinition (system family subFamily : string) : option MeComCatalogueDefinition :=
  let system := or_default (normalizeDefinitionToken system) MeComDefinitionSystem in
  let family := or_default (normalizeDefinitionToken family) MeerstetterDefinitionFamily in
  let subFamily := or_default (normalizeDefinitionToken subFamily) MeerstetterSubFamilyTEC in
  let one_of l := bool_decide (subFamily ∈ l) in
  if negb (bool_decide (system = MeComDefinitionSystem)) || negb (bool_decide (family = MeerstetterDefinitionFamily)) then None
  else if one_of [MeerstetterSubFamilyTEC] then Some DefaultTECCatalogueDefinition
  else if one_of [MeerstetterSubFamilyLDD] then Some DefaultLDDCatalogueDefinition
  else if one_of ["ldd_130x"; "ldd130x"]%string then Some DefaultLDD130xCatalogueDefinition
  else if one_of ["ldd_1321"; "ldd1321"]%string then Some ldd_1321_definition
  else if one_of [MeerstetterSubFamilyDAQ] then Some DefaultDAQCatalogueDefinition
  else if one_of [MeerstetterSubFamilyRMM; "rmm_1182"; "rmm1182"]%string then Some DefaultRMM1182CatalogueDefinition
  else None.

Definition normalizedDefinition (d : MeComCatalogueDefinition) : MeComCatalogueDefinition :=
  if bool_decide (Forall (λ s, s = ""%string)
       [df_DefinitionID d; df_System d; df_Family d; df_SubFamily d; df_TracePrefix d; df_SourceFamily d])
  then DefaultTECCatalogueDefinition
  else
    let system := or_default (df_System d) MeComDefinitionSystem in
    let family := or_default (df_Family d) MeerstetterDefinitionFamily in
    let subFamily := or_default (df_SubFamily d) MeerstetterSubFamilyTEC in
    let sourceFamily := or_default (df_SourceFamily d) (String.concat "_" (compactStrings [system; subFamily])) in
    MkDefinition
      (or_default (df_DefinitionID d) (String.concat "." (compactStrings [family; subFamily; df_Variant d; df_Version d])))
      system family subFamily (df_Variant d) (df_Version d) sourceFamily (or_default (df_DefaultSourceID d) sourceFamily)
      (or_default (df_DisplayName d) (String.concat " " (compactStrings [family; subFamily; df_Variant d])))
      (or_default (df_TracePrefix d) (String.concat "." (compactStrings [system; subFamily])))
      (df_readoutParameters d) (df_writeParameters d) (df_derivedParameters d).
Definition TraceID (d : MeComCatalogueDefinition) (instance : Z) (suffix : string) : string :=
  let prefix := TrimRightDots (df_TracePrefix (normalizedDefinition d)) in
  (or_default prefix "mecom.tec" +:+ "_" +:+ fmt02d instance +:+ "." +:+ suffix)%string.
Definition DefaultTECTraceID (instance : Z) (suffix : string) : string := TraceID DefaultTECCatalogueDefinition instance suffix.
Definition add_text (key value : string) (metadata : gmap string string) : gmap string string :=
  if bool_decide (value = ""%string) then metadata else <[key := value]> metadata.
Definition Metadata (d : MeComCatalogueDefinition) : gmap string string :=
  let d := normalizedDefinition d in
  add_text "definition_version" (df_Version d) (add_text "definition_variant" (df_Variant d)
    (list_to_map [("definition_ref", df_DefinitionID d); ("definition_system", df_System d); ("definition_family", df_Family d);
                  ("definition_sub_family", df_SubFamily d)]%string)).
(** Every text of the definition that is not empty, over what is there. *)
Definition addMeComDefinitionMetadata (d : MeComCatalogueDefinition) (metadata : gmap string string) : gmap string string :=
  filter (λ kv, kv.2 ≠ ""%string) (Metadata d) ∪ metadata.

(** ** Help *)
Definition tecHelpForParameter (param : mecomTECParameter) : mecomTECHelpParameter :=
  match hs_Parameters defaultTECHelpSource !! itoa (tec_ID param) with
  | None => MkHelp (tec_ID param) "" "" (tec_Visibility param) (tec_Help param) (tec_SourceEvidence param) "" ""
  | Some source =>
      MkHelp (tec_ID param) (he_Name source) (he_Group source) (or_default (tec_Visibility param) (he_Visibility source))
        (or_default (tec_Help param) (he_Help source))
        (if bool_decide (tec_SourceEvidence param = []) then he_SourceEvidence source else tec_SourceEvidence param)
        (he_SourceAccess source) (he_SafetyNote source)
  end.
Definition addTECHelpMetadata (help : mecomTECHelpParameter) (metadata : gmap string string) : gmap string string :=
  let metadata := add_text "safety_note" (he_SafetyNote help) (add_text "source_access" (he_SourceAccess help)
                    (add_text "visibility" (he_Visibility help) (add_text "help" (he_Help help) metadata))) in
  if bool_decide (he_SourceEvidence help = []) then metadata
  else <["source_evidence"%string := String.concat ";" (he_SourceEvidence help)]> metadata.

(** ** Plans and entries *)
Definition channel_numbers (channels : Z) : list Z := seqZ 1 channels.
Definition DefaultMeComReadoutParameters (d : MeComCatalogueDefinition) (channels : Z) : list ReadoutParameter :=
  let d := normalizedDefinition d in
  let channels := if channels <=? 0 then 8 else channels in
  channel_numbers channels ≫= λ ch,
    (λ param, MkReadoutParameter
       (MkParam (tec_ID param) ch (tec_Suffix param) (tec_Unit param) (dataType param) (tec_Writable param) "" "")
       (TraceID d ch (tec_Suffix param))
       (bool_decide (readoutPriority param = mecomReadoutPriorityHigh))) <$> df_readoutParameters d.
Definition DefaultTECReadoutParameters (channels : Z) : list ReadoutParameter :=
  DefaultMeComReadoutParameters DefaultTECCatalogueDefinition channels.
Definition DefaultTECWriteParameters (channels : Z) : list Param :=
  let channels := if channels <=? 0 then 8 else channels in
  channel_numbers channels ≫= λ ch,
    (λ param, MkParam (tec_ID param) ch (tec_Suffix param) (tec_Unit param) (dataType param) true "" "")
      <$> cj_WriteParameters defaultTECCatalogue.
Definition TECParameterWritable (id : Z) : bool :=
  match List.find (λ p, tec_ID p =? id) (cj_ReadoutParameters defaultTECCatalogue) with
  | Some p => tec_Writable p
  | None => existsb (λ p, tec_ID p =? id) (cj_WriteParameters defaultTECCatalogue)
  end.
(** [None]: the capacity of the result is negative, in Go a panic. *)
Definition DefaultMeComSignalNames (d : MeComCatalogueDefinition) (channels : Z) : option (list string) :=
  let d := normalizedDefinition d in
  let params := DefaultMeComReadoutParameters d channels in
  if Z.of_nat (length params) + channels * Z.of_nat (length (df_derivedParameters d)) <? 0 then None
  else Some ((Sensor <$> params) ++
             (channel_numbers channels ≫= λ ch, (λ param, TraceID d ch (de_Suffix param)) <$> df_derivedParameters d)).
Definition DefaultTECSignalNames (channels : Z) : option (list string) := DefaultMeComSignalNames DefaultTECCatalogueDefinition channels.
Definition DefaultTECUnits : list string :=
  fold_left (λ units p, if bool_decide (tec_Unit p = ""%string) || bool_decide (tec_Unit p ∈ units) then units else units ++ [tec_Unit p])
    (cj_ReadoutParameters defaultTECCatalogue) [].

Section entries.
Context (Marshal_paths : list TECCatalogueTreePath → string) (Marshal_counterparts : gmap string (list Z) → string).
Definition add_json {A} (key : string) (Marshal : A → string) (empty : bool) (value : A) (metadata : gmap string string) : gmap string string :=
  if empty then metadata else <[key := Marshal value]> metadata.
Definition is_empty_map {A} (m : gmap string A) : bool := bool_decide (size m = 0%nat).
Definition tecCatalogueEntryFromParameter (instance : Z) (param : mecomTECParameter) : TECCatalogueEntry :=
  let help := tecHelpForParameter param in
  let metadata := list_to_map [("semantic_role", tec_SemanticRole param); ("source_parameter_name", tec_SourceParameterName param);
                               ("readout_priority", readoutPriority param); ("preferred_readout", effectivePreferredReadout param)]%string in
  let metadata := addMeComDefinitionMetadata DefaultTECCatalogueDefinition metadata in
  let metadata := addTECHelpMetadata help metadata in
  let metadata := add_text "command" (tec_Command param) metadata in
  let metadata := match tec_DefaultValue param with Some v => <["default_value"%string := v]> metadata | None => metadata end in
  let metadata := if bool_decide (tec_TreePath param = []) then metadata
                  else <["tree_path"%string := catalogueTreePath (tec_TreePath param)]> metadata in
  let metadata := add_json "tree_paths" Marshal_paths (bool_decide (length (tec_TreePaths param) = 0%nat)) (tec_TreePaths param) metadata in
  let metadata := add_json "counterparts" Marshal_counterparts (is_empty_map (tec_Counterparts param)) (tec_Counterparts param) metadata in
  MkEntry (tec_ID param) instance (tec_Display param) (tec_RawName param) (tec_Unit param) (effectiveValueType param) (tec_Role param)
    (tec_Group param) (tec_Subgroup param) (tec_Category param) "continuous" (param_access param) (tec_SemanticRole param)
    (tec_SourceParameterName param) (he_Help help) (he_Visibility help) (he_SafetyNote help) "definition_catalogue"
    (he_SourceEvidence help) (readoutPriority param) (effectivePreferredReadout param) (tec_Command param) (tec_ApplicableModes param)
    (tec_Minimum param) (tec_Maximum param) (tec_DefaultValue param) (tec_Enum param) (tec_Dangerous param) (tec_TransportSupport param)
    (tec_Counterparts param) (tec_TreePath param) (tec_TreePaths param) metadata.
Definition DefaultTECCatalogueEntries (channels : Z) : list TECCatalogueEntry :=
  let channels := if channels <=? 0 then 8 else channels in
  channel_numbers channels ≫= λ ch,
    tecCatalogueEntryFromParameter ch <$> (cj_ReadoutParameters defaultTECCatalogue ++ cj_WriteParameters defaultTECCatalogue).

(** ** Rows of a graph source *)
(** The constants of the graph library. *)
Context (CurrentSourceCatalogueSchemaVersion CategoryPower KindContinuous RoleMonitor HintLine : string).
Record SourceCatalogueRow := MkRow {
  sr_TraceID : string; sr_RawName : string; sr_DisplayName : string; sr_Unit : string; sr_ValueType : string; sr_Access : string;
  sr_GraphSource : string; sr_GraphType : string; sr_Category : string; sr_Kind : string; sr_Role : string; sr_DefaultHint : string;
  sr_SemanticStatus : string; sr_SourceSubject : string; sr_Metadata : gmap string string }.
Record SourceCatalogue := MkSource {
  sc_SchemaVersion : string; sc_SourceID : string; sc_SourceFamily : string; sc_DisplayName : string;
  sc_Entries : list SourceCatalogueRow; sc_MaxSignals : Z; sc_LiveSubjects : list string }.
Record MeComCatalogueConfig := MkCatalogueConfig {
  cc_Definition : MeComCatalogueDefinition; cc_SourceID : string; cc_DisplayName : string; cc_ChannelCount : Z;
  cc_SourceSubject : string; cc_ControllerAddress : Z; cc_FixtureProvenance : string }.

Definition row_origin (cfg : MeComCatalogueConfig) (ch : Z) (metadata : gmap string string) : gmap string string :=
  let metadata := if 0 <? cc_ControllerAddress cfg then <["controller_address"%string := itoa (cc_ControllerAddress cfg)]> metadata else metadata in
  if bool_decide (cc_FixtureProvenance cfg = ""%string) then metadata
  else <["dut_id"%string := ("OH" +:+ itoa ch)%string]> (<["fixture_provenance"%string := cc_FixtureProvenance cfg]> metadata).
Definition row_name (ch : Z) (name : string) : string := ("TEC_CH" +:+ itoa ch +:+ "_" +:+ name)%string.
Definition row_display (ch : Z) (display : string) : string :=
  ("Spot " +:+ fmt02d ch +:+ " / " +:+ "OH" +:+ itoa ch +:+ " " +:+ display)%string.
Definition mecomTECDerivedRow (cfg : MeComCatalogueConfig) (d : MeComCatalogueDefinition) (ch : Z) (param : mecomTECDerivedParameter) :
    SourceCatalogueRow :=
  let metadata := list_to_map
    [("channel_index", itoa ch); ("semantic_role", de_SemanticRole param); ("physical_spot", "spot_" +:+ fmt02d ch);
     ("derived_signal", "true"); ("mecom_instance", itoa ch); ("source_parameters", de_SourceParameters param);
     ("readout_priority", mecomReadoutPriorityHigh); ("preferred_readout", mecomDerivedReadout); ("source_readout", mecomRingReadout);
     ("ring_reduction", mecomRingReduction); ("consumer_rate_policy", "publish_reduced_windows_at_requested_rate");
     ("manual_poll_policy", "source_parameters_enqueue_front_return_derived_when_polled");
     ("single_read_policy", "not_applicable_derived_from_measured_values");
     ("channel_mode_policy", "mode_aware_no_thermal_inference_for_power_supply");
     ("calculation_boundary", "edge_estimate_requires_channel_mode_and_optional_module_data")]%string in
  let metadata := row_origin cfg ch (addMeComDefinitionMetadata d metadata) in
  let metadata := addCatalogueTreePathMetadata Marshal_paths metadata (derived_TreePaths param) in
  MkRow (TraceID d ch (de_Suffix param)) (row_name ch (de_RawName param)) (row_display ch (de_Display param)) "W" "float" "subscribe"
    "nats_edge" "line" CategoryPower KindContinuous RoleMonitor HintLine "backend_semantic_mapping" (cc_SourceSubject cfg) metadata.
Definition mecomTECRow (cfg : MeComCatalogueConfig) (d : MeComCatalogueDefinition) (ch : Z) (param : mecomTECParameter) : SourceCatalogueRow :=
  let help := tecHelpForParameter param in
  let metadata := list_to_map
    [("channel_index", itoa ch); ("semantic_role", tec_SemanticRole param); ("physical_spot", "spot_" +:+ fmt02d ch);
     ("mecom_parameter_id", itoa (tec_ID param)); ("mecom_instance", itoa ch);
     ("raw_numeric_fallback", "param_" +:+ itoa (tec_ID param) +:+ ".instance_" +:+ itoa ch);
     ("source_parameter_name", tec_SourceParameterName param); ("readout_priority", readoutPriority param);
     ("preferred_readout", effectivePreferredReadout param); ("background_readout", mecomBackgroundReadout);
     ("manual_poll_policy", "enqueue_front_return_latest_when_polled"); ("single_read_policy", "compatibility_only")]%string in
  let metadata := addTECHelpMetadata help (addMeComDefinitionMetadata d metadata) in
  let metadata :=
    if bool_decide (readoutPriority param = mecomReadoutPriorityHigh) then
      <["consumer_rate_policy"%string := "publish_reduced_windows_at_requested_rate"%string]> (<["ring_reduction"%string := mecomRingReduction]> metadata)
    else <["consumer_rate_policy"%string := "publish_latest_when_round_robin_queue_updates"%string]> metadata in
  let metadata :=
    if bool_decide (tec_PriorityComponent param = ""%string) then metadata
    else <["drive_component"%string := tec_PriorityComponent param]> (<["priority_group"%string := "drive_telemetry"%string]> metadata) in
  let metadata := if bool_decide (tec_Aliases param = []) then metadata
                  else <["aliases"%string := String.concat "," (tec_Aliases param)]> metadata in
  let metadata := add_json "counterparts" Marshal_counterparts (is_empty_map (tec_Counterparts param)) (tec_Counterparts param) metadata in
  let metadata := addCatalogueTreePathMetadata Marshal_paths (row_origin cfg ch metadata) (effectiveTreePaths param) in
  MkRow (TraceID d ch (tec_Suffix param)) (row_name ch (tec_RawName param)) (row_display ch (tec_Display param)) (tec_Unit param)
    (graphValueType param) "subscribe" "nats_edge" "line" (tec_Category param) KindContinuous (tec_Role param) HintLine
    "backend_semantic_mapping" (cc_SourceSubject cfg) metadata.
Definition BuildMeComCatalogue (cfg : MeComCatalogueConfig) : SourceCatalogue :=
  let d := normalizedDefinition (cc_Definition cfg) in
  let cfg := MkCatalogueConfig (cc_Definition cfg) (or_default (cc_SourceID cfg) (df_DefaultSourceID d))
               (or_default (cc_DisplayName cfg) (df_DisplayName d)) (if cc_ChannelCount cfg <=? 0 then 8 else cc_ChannelCount cfg)
               (cc_SourceSubject cfg) (cc_ControllerAddress cfg) (cc_FixtureProvenance cfg) in
  let entries := channel_numbers (cc_ChannelCount cfg) ≫= λ ch,
    (mecomTECRow cfg d ch <$> df_readoutParameters d) ++ (mecomTECDerivedRow cfg d ch <$> df_derivedParameters d) in
  MkSource CurrentSourceCatalogueSchemaVersion (cc_SourceID cfg) (df_SourceFamily d) (cc_DisplayName cfg) entries
    (Z.of_nat (length entries)) (compactStrings [cc_SourceSubject cfg]).
Definition BuildMeComTECCatalogue (cfg : MeComCatalogueConfig) : SourceCatalogue :=
  BuildMeComCatalogue (MkCatalogueConfig DefaultTECCatalogueDefinition (cc_SourceID cfg) (cc_DisplayName cfg) (cc_ChannelCount cfg)
    (cc_SourceSubject cfg) (cc_ControllerAddress cfg) (cc_FixtureProvenance cfg)).
End entries.
End definitions.

(** ** What a loaded catalogue guarantees *)
Definition blank (s : string) : Prop := trim s = ""%string.
Definition path_ok (path : list string) : Prop := Forall (λ part, ¬ blank part) path.
Record projections_ok (paths : list TECCatalogueTreePath) : Prop := {
  po_ids : NoDup (trim ∘ tp_ID <$> paths);
  po_named : Forall (λ t, ¬ blank (tp_ID t)) paths;
  po_paths : Forall (λ t, tp_Path t ≠ [] ∧ path_ok (tp_Path t)) paths;
  po_default : (length (filter (λ t, tp_Default t = true) paths) ≤ 1)%nat }.
Definition tec_ok (p : mecomTECParameter) : Prop :=
  0 < tec_ID p ∧ tec_Suffix p ≠ ""%string ∧ path_ok (tec_TreePath p) ∧ projections_ok (tec_TreePaths p).
Definition derived_ok (p : mecomTECDerivedParameter) : Prop := path_ok (de_TreePath p) ∧ projections_ok (de_TreePaths p).
Definition catalogue_ok (c : tecCatalogueJSON) : Prop :=
  cj_SchemaVersion c ≠ ""%string ∧ cj_ReadoutParameters c ≠ [] ∧ cj_DerivedParameters c ≠ [] ∧
  Forall tec_ok (cj_ReadoutParameters c ++ cj_WriteParameters c) ∧ Forall derived_ok (cj_DerivedParameters c).

Lemma validate_path_spec path : validateCatalogueTreePath path = Ok () ↔ path_ok path.
Proof.
  unfold path_ok. induction path as [|part path IH]; cbn [validateCatalogueTreePath]; [by split|].
  rewrite Forall_cons. unfold blank at 1. case_bool_decide as Hb; [|rewrite IH; tauto].
  split; [done|]. by intros [? _].
Qed.

Lemma bind_unit_Ok {E A} (r : result E ()) (k : result E A) a : (r ≫= λ _, k) = Ok a ↔ r = Ok () ∧ k = Ok a.
Proof. destruct r as [[]|e]; cbn [mbind result_bind]; naive_solver. Qed.

Lemma validate_projections_spec seen defaults paths :
  validate_projections seen defaults paths = Ok () ↔
  NoDup (trim ∘ tp_ID <$> paths) ∧ Forall (λ t, ¬ blank (tp_ID t) ∧ trim (tp_ID t) ∉ seen) paths ∧
  Forall (λ t, tp_Path t ≠ [] ∧ path_ok (tp_Path t)) paths ∧
  defaults + Z.of_nat (length (filter (λ t, tp_Default t = true) paths)) ≤ 1.
Proof.
  revert seen defaults. induction paths as [|t paths IH]; intros seen defaults; cbn [validate_projections].
  { rewrite filter_nil. cbn [length fmap list_fmap]. destruct (Z.ltb_spec 1 defaults); split; try done; [|by intros; split_and!; [constructor..|lia]].
    intros (_ & _ & _ & ?). lia. }
  cbn zeta. rewrite !Forall_cons, fmap_cons, NoDup_cons. unfold blank at 1.
  case_bool_decide as Hb; [split; [done|naive_solver]|]. case_bool_decide as Hs; [split; [done|naive_solver]|].
  case_bool_decide as Hp; [split; [done|naive_solver]|]. rewrite bind_unit_Ok, validate_path_spec, IH.
  assert (Hdef : ∀ d, (if tp_Default t then defaults + 1 else defaults) + d =
    defaults + (if tp_Default t then 1 + d else d)) by (intros d; destruct (tp_Default t); lia). rewrite Hdef.
  assert (Hlen : Z.of_nat (length (filter (λ t, tp_Default t = true) (t :: paths))) =
    let d := Z.of_nat (length (filter (λ t, tp_Default t = true) paths)) in if tp_Default t then 1 + d else d).
  { rewrite filter_cons. destruct (tp_Default t); simpl; [|done]. lia. }
  rewrite Hlen. cbn zeta.
  assert (Hseen : Forall (λ t', ¬ blank (tp_ID t') ∧ trim (tp_ID t') ∉ trim (tp_ID t) :: seen) paths ↔
    Forall (λ t', ¬ blank (tp_ID t') ∧ trim (tp_ID t') ∉ seen) paths ∧ (trim ∘ tp_ID) t ∉ (trim ∘ tp_ID <$> paths)).
  { rewrite !Forall_forall. setoid_rewrite not_elem_of_cons. rewrite list_elem_of_fmap. unfold compose. naive_solver. }
  rewrite Hseen. tauto.
Qed.

Lemma validate_each_spec {A} (f : A → res ()) (Q : A → Prop) l : (∀ a, f a = Ok () ↔ Q a) → validate_each f l = Ok () ↔ Forall Q l.
Proof.
  intros Hf. induction l as [|a l IH]; cbn [validate_each]; [by split|]. by rewrite bind_unit_Ok, Forall_cons, Hf, IH.
Qed.

Lemma validate_paths_spec paths : validateCatalogueTreePaths paths = Ok () ↔ projections_ok paths.
Proof.
  unfold validateCatalogueTreePaths. rewrite validate_projections_spec. split.
  - intros (? & Hn & ? & ?). split; [done| |done|lia]. eapply Forall_impl; [exact Hn|]. by intros t [? _].
  - intros [? Hn ? ?]. split_and!; [done| |done|lia]. eapply Forall_impl; [exact Hn|]. intros t ?. split; [done|]. apply not_elem_of_nil.
Qed.
Lemma validate_tec_spec p : validate_tec p = Ok () ↔ tec_ok p.
Proof.
  unfold validate_tec, tec_ok. destruct (Z.leb_spec (tec_ID p) 0); [split; [done|lia]|]. case_bool_decide; [split; [done|tauto]|].
  assert (Ht : effectiveValueType p ≠ ""%string) by (unfold effectiveValueType; by case_bool_decide).
  assert (Hd : dataType p ≠ ""%string) by (unfold dataType; by repeat case_bool_decide).
  rewrite (bool_decide_eq_false_2 _ Ht), (bool_decide_eq_false_2 _ Hd), bind_unit_Ok, validate_path_spec, validate_paths_spec. naive_solver lia.
Qed.
Lemma validate_derived_spec p : validate_derived p = Ok () ↔ derived_ok p.
Proof. unfold validate_derived, derived_ok. by rewrite bind_unit_Ok, validate_path_spec, validate_paths_spec. Qed.

(** A catalogue is loaded as it is, or not at all. *)
Lemma load_spec c c' : loadTECCatalogueJSON (Some c) = Ok c' ↔ c' = c ∧ catalogue_ok c.
Proof.
  unfold loadTECCatalogueJSON, catalogue_ok. case_bool_decide as Hs; [split; [done|tauto]|].
  rewrite <-!length_zero_iff_nil.
  case_bool_decide as Hr; [split; [done|tauto]|]. case_bool_decide as Hd; [split; [done|tauto]|].
  rewrite !bind_unit_Ok, (validate_each_spec _ tec_ok), (validate_each_spec _ derived_ok) by (apply validate_tec_spec || apply validate_derived_spec).
  split; [intros (? & ? & [= <-]); tauto|]. intros (-> & ? & ? & ? & ? & ?). done.
Qed.

(** ** Tree paths *)
Record projection_ready (t : TECCatalogueTreePath) : Prop := {
  pr_id : tp_ID t ≠ ""%string;
  pr_label : tp_Label t ≠ ""%string;
  pr_path : tp_Path t ≠ [] ∧ Forall (λ part, part ≠ ""%string) (tp_Path t) }.

Lemma trim_empty : trim "" = ""%string.
Proof. done. Qed.
Lemma compact_ok path : path_ok path → compactStrings path = path.
Proof.
  unfold path_ok, compactStrings. induction 1 as [|part path Hb Hp IH]; [done|].
  rewrite filter_cons_True; [by rewrite IH|]. intros ->. by apply Hb.
Qed.
Lemma compact_parts path : Forall (λ part, part ≠ ""%string) (compactStrings path).
Proof. apply Forall_forall. intros part Hp. by apply list_elem_of_filter in Hp as [? _]. Qed.

Lemma normalize_ready t t' : normalizeCatalogueTreeProjection t = Some t' → projection_ready t'.
Proof.
  unfold normalizeCatalogueTreeProjection. cbn zeta. destruct (_ || _) eqn:E; [done|]. intros [= <-].
  apply orb_false_iff in E as [Hid%bool_decide_eq_false Hp%bool_decide_eq_false].
  split; simpl; [done|by case_bool_decide|]. split; [done|apply compact_parts].
Qed.
Lemma normalize_valid t : ¬ blank (tp_ID t) → tp_Path t ≠ [] → path_ok (tp_Path t) →
  ∃ t', normalizeCatalogueTreeProjection t = Some t' ∧ tp_ID t' = trim (tp_ID t) ∧ tp_Path t' = tp_Path t ∧ tp_Default t' = tp_Default t.
Proof.
  intros Hid Hne Hp. unfold normalizeCatalogueTreeProjection. cbn zeta. rewrite (compact_ok _ Hp).
  rewrite (bool_decide_eq_false_2 _ Hid), (bool_decide_eq_false_2 _ Hne). by eexists.
Qed.

(** The projections of a loaded parameter are all kept, in their order. *)
Lemma normalize_all paths : projections_ok paths →
  let out := omap normalizeCatalogueTreeProjection paths in
  Forall projection_ready out ∧ tp_ID <$> out = trim ∘ tp_ID <$> paths ∧ tp_Path <$> out = tp_Path <$> paths ∧
  tp_Default <$> out = tp_Default <$> paths.
Proof.
  intros [_ Hn Hp _]. cbn zeta. induction paths as [|t paths IH]; [done|].
  apply Forall_cons in Hn as [Ht Hn], Hp as [[Hne Hpt] Hp]. destruct (IH Hn Hp) as (Hr & Hi & Hpath & Hd).
  destruct (normalize_valid t Ht Hne Hpt) as (t' & E & Hi' & Hp' & Hd'). cbn [omap list_omap]. rewrite E.
  rewrite !fmap_cons. split_and!; [constructor; [by apply (normalize_ready t)|done]|unfold compose at 1; by rewrite Hi', Hi|by rewrite Hp', Hpath|by rewrite Hd', Hd].
Qed.

Lemma filter_default (l l' : list TECCatalogueTreePath) : tp_Default <$> l = tp_Default <$> l' →
  length (filter (λ t, tp_Default t = true) l) = length (filter (λ t, tp_Default t = true) l').
Proof.
  revert l'. induction l as [|t l IH]; intros [|t' l'] E; try done. rewrite !fmap_cons in E. injection E as Et E.
  rewrite !filter_cons, Et. destruct (decide _); simpl; by rewrite (IH l' E).
Qed.

Record navigation_ok (paths : list TECCatalogueTreePath) : Prop := {
  na_some : paths ≠ [];
  na_ids : NoDup (tp_ID <$> paths);
  na_ready : Forall projection_ready paths;
  na_default : (length (filter (λ t, tp_Default t = true) paths) ≤ 1)%nat }.

(** What is shown of a parameter with a path of its own, or one made of its group and
    name ([single]), and projections: the projections in their order, or else the
    path under the name of the operator. *)
Record shown (single : list string) (projections out : list TECCatalogueTreePath) : Prop := {
  sh_navigation : navigation_ok out;
  sh_projections : projections ≠ [] →
    tp_ID <$> out = trim ∘ tp_ID <$> projections ∧ tp_Path <$> out = tp_Path <$> projections ∧ tp_Default <$> out = tp_Default <$> projections;
  sh_operator : projections = [] →
    ∃ rest, out = MkTreePath "operator" "Operator" single true :: rest ∧ Forall (λ t, tp_Default t = false) rest }.

Lemma compact_twice l : compactStrings (compactStrings l) = compactStrings l.
Proof.
  unfold compactStrings. induction l as [|x l IH]; [done|]. rewrite !filter_cons. destruct (decide (x ≠ ""%string)); [|done].
  rewrite filter_cons_True by done. by rewrite IH.
Qed.
Lemma operator_normal single : compactStrings single = single → single ≠ [] →
  normalizeCatalogueTreeProjection (MkTreePath "operator" "Operator" (compactStrings single) true) = Some (MkTreePath "operator" "Operator" single true).
Proof.
  intros Hc Hne. unfold normalizeCatalogueTreeProjection. cbn [tp_ID tp_Label tp_Path tp_Default]. rewrite !Hc. cbn zeta.
  rewrite (bool_decide_eq_false_2 (single = [])) by done. reflexivity.
Qed.
Lemma effective_paths_shown single projections generated : projections_ok projections → compactStrings single = single →
  (single ≠ [] ∨ projections ≠ []) →
  (∀ g, g ∈ generated → tp_Default g = false ∧ trim (tp_ID g) = "protocol"%string) → (length generated ≤ 1)%nat →
  shown single projections (effectiveCatalogueTreePaths single projections generated).
Proof.
  intros Hok Hcs Hsome Hgen Hlen. destruct (normalize_all _ Hok) as (Hr & Hi & Hp & Hd). destruct Hok as [Hids _ _ Hdef].
  unfold effectiveCatalogueTreePaths. cbn zeta. set (out := omap normalizeCatalogueTreeProjection projections) in *.
  destruct (decide (out = [])) as [Ho|Ho].
  - assert (Hproj : projections = []). { destruct projections; [done|]. exfalso. by rewrite Ho in Hp. }
    destruct Hsome as [Hne|]; [|done].
    rewrite (bool_decide_eq_true_2 (out = [])), (bool_decide_eq_false_2 (single = [])), operator_normal by done. cbn [negb andb].
    change (option_list (Some ?o)) with [o]. rewrite fmap_cons, fmap_nil. cbn [tp_ID].
    assert (Hrest : ∃ rest, add_generated ["operator"%string] generated = rest ∧ Forall projection_ready rest ∧ Forall (λ t, tp_Default t = false) rest ∧
      NoDup ("operator"%string :: (tp_ID <$> rest))).
    { destruct generated as [|g [|? ?]]; [|clear Hlen|simpl in Hlen; lia].
      - exists []. split_and!; [done|constructor|constructor|apply NoDup_singleton].
      - destruct (Hgen g) as [Hgd Hgi]; [by left|]. cbn [add_generated].
        destruct (normalizeCatalogueTreeProjection g) as [t|] eqn:Eg; [|exists []; split_and!; [done|constructor|constructor|apply NoDup_singleton]].
        apply normalize_ready in Eg as Hready. revert Eg. unfold normalizeCatalogueTreeProjection. cbn zeta. rewrite Hgi.
        destruct (_ || _); [done|]. intros [= <-]. cbn [tp_ID]. rewrite bool_decide_eq_false_2 by (rewrite list_elem_of_singleton; done).
        eexists. split; [reflexivity|]. split_and!; [by constructor|by constructor|]. cbn. repeat constructor; rewrite ?list_elem_of_singleton; done || apply not_elem_of_nil. }
    destruct Hrest as (rest & -> & Hready & Hnd & Hdup). cbn [app]. split.
    + split; [done|exact Hdup| |].
      * constructor; [|done]. split; [done|done|]. cbn. split; [done|]. rewrite <-Hcs. apply compact_parts.
      * rewrite filter_cons_True by done. cbn [length app]. rewrite (filter_none _ rest); [done|].
        eapply Forall_impl; [exact Hnd|]. cbn. by intros t ->.
    + done.
    + intros _. by exists rest.
  - rewrite (bool_decide_eq_false_2 (out = [])) by done. cbn [andb].
    assert (Hproj : projections ≠ []) by (by intros ->). split; [|by intros _; split_and!|done].
    split; [done|by rewrite Hi|done|]. by rewrite (filter_default out projections).
Qed.
(** The path of a parameter: its own, or group, subgroup and name where it has them. *)
Lemma operator_path_compact treePath group subgroup display : path_ok treePath →
  compactStrings (effectiveOperatorTreePath treePath group subgroup display) = effectiveOperatorTreePath treePath group subgroup display.
Proof.
  intros Hok. unfold effectiveOperatorTreePath. case_bool_decide; [apply compact_twice|by apply compact_ok].
Qed.
Lemma operator_path_none treePath group subgroup display :
  effectiveOperatorTreePath treePath group subgroup display = [] ↔ treePath = [] ∧ group = ""%string ∧ subgroup = ""%string ∧ display = ""%string.
Proof.
  unfold effectiveOperatorTreePath, compactStrings. case_bool_decide as Ht; [|by split; [|intros [? _]]].
  split; [|by intros (_ & -> & -> & ->)]. intros Hn.
  assert (Hall : ∀ x, x ∈ [group; subgroup; display] → x = ""%string).
  { intros x Hx. destruct (decide (x = ""%string)) as [|Hne]; [done|]. exfalso.
    apply (not_elem_of_nil x). rewrite <-Hn. by apply list_elem_of_filter. }
  split_and!; [done|apply Hall; set_solver..].
Qed.
Definition tec_path (p : mecomTECParameter) : list string := effectiveOperatorTreePath (tec_TreePath p) (tec_Group p) (tec_Subgroup p) (tec_Display p).
Definition derived_path (p : mecomTECDerivedParameter) : list string := effectiveOperatorTreePath (de_TreePath p) (de_Group p) (de_Subgroup p) (de_Display p).
(** A parameter without a place: nothing says where it belongs. *)
Definition has_place (treePath : list string) (treePaths : list TECCatalogueTreePath) (group subgroup display : string) : Prop :=
  treePath ≠ [] ∨ treePaths ≠ [] ∨ group ≠ ""%string ∨ subgroup ≠ ""%string ∨ display ≠ ""%string.
Lemma has_place_path treePath treePaths group subgroup display : has_place treePath treePaths group subgroup display ↔
  effectiveOperatorTreePath treePath group subgroup display ≠ [] ∨ treePaths ≠ [].
Proof.
  rewrite operator_path_none. unfold has_place. split.
  - intros [?|[?|[?|[?|?]]]]; [left; tauto|by right|left; tauto..].
  - intros [Hn|?]; [|tauto]. destruct (decide (treePath = [])), (decide (group = ""%string)), (decide (subgroup = ""%string)), (decide (display = ""%string)); tauto.
Qed.

(** C30: the loader accepts exactly the valid catalogues and changes nothing in them:
    with a version, with readout and derived parameters, positive numbers, names,
    and tree paths without blank parts, with distinct names and at most one default
    among them.  And what it has accepted can be shown: every parameter to be read or
    written and every derived one that has a place in the tree (a path or projections
    of its own, a group, a subgroup or a name) has at least one projection, under
    distinct names, each with a label and a path without empty parts, at most one of
    them the default: its own projections in their order if it has any, and else its
    path, or its group and name, as the default for the operator. *)
Theorem catalogue_accepted (c c' : tecCatalogueJSON) :
  (loadTECCatalogueJSON (Some c) = Ok c' ↔ c' = c ∧ catalogue_ok c) ∧
  (loadTECCatalogueJSON (Some c) = Ok c' →
   (∀ p, p ∈ cj_ReadoutParameters c' ++ cj_WriteParameters c' →
      has_place (tec_TreePath p) (tec_TreePaths p) (tec_Group p) (tec_Subgroup p) (tec_Display p) →
      shown (tec_path p) (tec_TreePaths p) (effectiveTreePaths p)) ∧
   ∀ p, p ∈ cj_DerivedParameters c' →
      has_place (de_TreePath p) (de_TreePaths p) (de_Group p) (de_Subgroup p) (de_Display p) →
      shown (derived_path p) (de_TreePaths p) (derived_TreePaths p)).
Proof.
  split; [apply load_spec|]. intros [-> (_ & _ & _ & Hall & Hder)]%load_spec. rewrite Forall_forall in Hall. rewrite Forall_forall in Hder. split; intros p Hp Hplace%has_place_path.
  - destruct (Hall p Hp) as (_ & _ & Hpath & Hok). apply effective_paths_shown; [done|by apply operator_path_compact|done| |simpl; lia].
    by intros g ->%list_elem_of_singleton.
  - destruct (Hder p Hp) as (Hpath & Hok). apply effective_paths_shown; [done|by apply operator_path_compact|done| |simpl; lia].
    by intros g ?%elem_of_nil.
Qed.

(** A small catalogue: one parameter with a place of its own in two views, one
    parameter that can only be written. *)
Definition bench_parameter : mecomTECParameter :=
  MkTEC 1000 "object_temp_c" "ObjectTemp" "object temperature" "degC" "float32" "thermal" "monitor" "" "" "" "" [] "high" "" "" [] false ""
    "Thermal" "Object" [] [MkTreePath "operator" "" ["Thermal"; "Object"]%string true; MkTreePath "service" "Service" ["All"]%string false]
    [] "" None None None ∅ false [] ∅.
Definition bench_write_parameter : mecomTECParameter :=
  MkTEC 2010 "output_enable" "" "output enable" "" "int32" "control" "control" "" "" "" "" [] "" "" "" [] true "" "" "" [] [] [] ""
    None None None ∅ false [] ∅.
Definition bench_catalogue : tecCatalogueJSON :=
  MkCatalogueJSON "v1" [bench_parameter] [bench_write_parameter] [MkDerived "heat_w" "Heat" "heat" "heat" "1020,1021" "Power" "Derived" [] []].
Lemma catalogue_accepted_witness :
  catalogue_ok bench_catalogue ∧ tp_ID <$> effectiveTreePaths bench_parameter = ["operator"; "service"]%string ∧
  (∃ rest, effectiveTreePaths bench_write_parameter = MkTreePath "operator" "Operator" ["output enable"%string] true :: rest) ∧
  Forall (λ d, navigation_ok (derived_TreePaths d)) (cj_DerivedParameters bench_catalogue).
Proof.
  assert (H : loadTECCatalogueJSON (Some bench_catalogue) = Ok bench_catalogue) by reflexivity.
  destruct (catalogue_accepted bench_catalogue bench_catalogue) as [[H1 _] H2]. destruct (H2 H) as [Ht Hd]. split_and!.
  - apply (H1 H).
  - destruct (Ht bench_parameter) as [_ Hs _]; [by left|by right; left|]. apply Hs. done.
  - destruct (Ht bench_write_parameter) as [_ _ Hs]; [by right; left|by right; right; right; right|]. destruct (Hs eq_refl) as (rest & E & _). by exists rest.
  - apply Forall_singleton. apply Hd; [by left|]. by right; right; left.
Defined.

(** ** The plan *)
Section plan.
Context (tec : tecCatalogueJSON).
Definition plan_channels (channels : Z) : Z := if channels <=? 0 then 8 else channels.

Lemma plan_spec d channels rp : rp ∈ DefaultMeComReadoutParameters tec d channels ↔
  ∃ ch param, 1 ≤ ch ≤ plan_channels channels ∧ param ∈ df_readoutParameters (normalizedDefinition tec d) ∧
    rp = MkReadoutParameter
           (MkParam (tec_ID param) ch (tec_Suffix param) (tec_Unit param) (dataType param) (tec_Writable param) "" "")
           (TraceID tec (normalizedDefinition tec d) ch (tec_Suffix param)) (bool_decide (readoutPriority param = mecomReadoutPriorityHigh)).
Proof.
  unfold DefaultMeComReadoutParameters, channel_numbers. fold (plan_channels channels). rewrite list_elem_of_bind. split.
  - intros (ch & (param & -> & Hp)%list_elem_of_fmap & Hch%elem_of_seqZ). exists ch, param. split_and!; [lia..|done|done].
  - intros (ch & param & Hch & Hp & ->). exists ch. rewrite list_elem_of_fmap, elem_of_seqZ. split; [by exists param|lia].
Qed.

Lemma NoDup_bind_fmap {A B D} (f : A → B → D) (ls : list A) (l : list B) :
  NoDup ls → NoDup l → (∀ a b a' b', f a b = f a' b' → a = a' ∧ b = b') → NoDup (ls ≫= λ a, f a <$> l).
Proof.
  intros Hls Hl Hinj. induction Hls as [|a ls Ha Hls IH]; [constructor|]. rewrite bind_cons. apply NoDup_app. split_and!.
  - apply NoDup_fmap_2_strong; [|done]. intros b b' _ _ E. by apply Hinj in E as [_ ?].
  - intros x (b & -> & _)%list_elem_of_fmap (a' & (b' & E & _)%list_elem_of_fmap & Ha')%list_elem_of_bind. apply Hinj in E as [-> _]. done.
  - exact IH.
Qed.
(** Every parameter has its place in the plan once. *)
Lemma plan_NoDup d channels : NoDup (tec_ID <$> df_readoutParameters (normalizedDefinition tec d)) →
  NoDup ((λ rp, (ID (rp_Parameter rp), Inst (rp_Parameter rp))) <$> DefaultMeComReadoutParameters tec d channels).
Proof.
  intros Hid. unfold DefaultMeComReadoutParameters, channel_numbers. fold (plan_channels channels).
  assert (E : (λ rp, (ID (rp_Parameter rp), Inst (rp_Parameter rp))) <$>
    (seqZ 1 (plan_channels channels) ≫= λ ch, (λ param, MkReadoutParameter
       (MkParam (tec_ID param) ch (tec_Suffix param) (tec_Unit param) (dataType param) (tec_Writable param) "" "")
       (TraceID tec (normalizedDefinition tec d) ch (tec_Suffix param)) (bool_decide (readoutPriority param = mecomReadoutPriorityHigh)))
         <$> df_readoutParameters (normalizedDefinition tec d))
    = seqZ 1 (plan_channels channels) ≫= λ ch, (λ id, (id, ch)) <$> (tec_ID <$> df_readoutParameters (normalizedDefinition tec d))).
  { induction (seqZ 1 _) as [|ch chs IH]; [done|]. rewrite !bind_cons, fmap_app, IH. f_equal. by rewrite <-!list_fmap_compose. }
  rewrite E. apply NoDup_bind_fmap; [apply NoDup_seqZ|done|]. by intros a b a' b' [= -> ->].
Qed.

Lemma normalized_twice d : df_readoutParameters (normalizedDefinition tec (normalizedDefinition tec d)) = df_readoutParameters (normalizedDefinition tec d).
Proof.
  assert (Hs : df_System (normalizedDefinition tec d) ≠ ""%string).
  { unfold normalizedDefinition. case_bool_decide; [done|]. cbn [df_System]. unfold or_default. by case_bool_decide. }
  unfold normalizedDefinition at 1. rewrite bool_decide_eq_false_2; [done|]. intros Hall. by apply Forall_cons in Hall as [_ [? _]%Forall_cons].
Qed.

(** A negative number of channels is taken for eight, but not everywhere. *)
Lemma negative_channels_panic d channels :
  let readouts := Z.of_nat (length (df_readoutParameters (normalizedDefinition tec d))) in
  let derived := Z.of_nat (length (df_derivedParameters (normalizedDefinition tec d))) in
  channels <= 0 → 8 * readouts < - channels * derived → DefaultMeComSignalNames tec d channels = None.
Proof.
  cbn zeta. intros Hch Hlt. unfold DefaultMeComSignalNames. cbn zeta.
  assert (Hl : Z.of_nat (length (DefaultMeComReadoutParameters tec (normalizedDefinition tec d) channels)) =
    8 * Z.of_nat (length (df_readoutParameters (normalizedDefinition tec d)))).
  { unfold DefaultMeComReadoutParameters. rewrite normalized_twice. destruct (Z.leb_spec channels 0); [|lia].
    change (channel_numbers 8) with [1; 2; 3; 4; 5; 6; 7; 8]. rewrite !bind_cons. cbn [mbind list_bind]. rewrite !length_app, !length_fmap. cbn [length]. lia. }
  rewrite Hl. destruct (Z.ltb_spec (8 * Z.of_nat (length (df_readoutParameters (normalizedDefinition tec d))) +
    channels * Z.of_nat (length (df_derivedParameters (normalizedDefinition tec d)))) 0); [done|lia].
Qed.
End plan.
