(* ===== verification/Peltier.v ===== *)
(** * Peltier: derived values of the channels
      ([mecom/peltier_model.go], [mecom/readout_derived.go])

    From what one poll has read of a channel, an estimator computes its power, and,
    as far as the mode of the channel and the data of its module allow, its heat
    flows; four values per channel are appended to the batch.  A copy of the module
    data is the data: nothing writes to it afterwards. *)
From stdpp Require Import prelude gmap strings list.
From Stdlib Require Import Strings.Byte Floats.SpecFloat.
From S2P Require Import Prelude Floats Protocol Reduction RingReader Readout Catalogue.
Local Open Scope Z_scope.
#[local] Set Warnings "-clear-no-such-hyp".

(** ** The model of a channel ([peltier_model.go]) *)
Definition ChannelDriveMode := string.
Definition ChannelModeUnknown : ChannelDriveMode := "unknown".
Definition ChannelModeResistor : ChannelDriveMode := "resistor".
Definition ChannelModePowerSupply : ChannelDriveMode := "power_supply".
Definition ChannelModePeltierDriver : ChannelDriveMode := "peltier_driver".

Record DerivedValue := MkDerivedValue { dl_Value : f64; dl_Valid : bool; dl_Confidence : f64; dl_Source : string }.
Record PeltierModulePoint := MkPoint { mp_DeltaT : f64; mp_CurrentAmpere : f64; mp_VoltageVolt : f64; mp_HeatPumpedWatt : f64 }.
Record PeltierModuleData := MkModuleData { md_ModuleID : string; md_Source : string; md_Points : list PeltierModulePoint }.
Record PeltierChannelInput := MkChannelInput {
  pi_ControllerAddress : Z; pi_Channel : Z; pi_DriveMode : ChannelDriveMode; pi_ColdTemperatureC : f64; pi_HotTemperatureC : f64;
  pi_CurrentAmpere : f64; pi_VoltageVolt : f64 }.
Record PeltierChannelEstimate := MkEstimate {
  pe_ControllerAddress : Z; pe_Channel : Z; pe_DriveMode : ChannelDriveMode; pe_DeltaTC : f64; pe_ElectricalInputWatt : f64;
  pe_HeatPumpedFromItemWatt : DerivedValue; pe_ResistiveHeatWatt : DerivedValue; pe_HotSideDissipatedWatt : DerivedValue;
  pe_Confidence : f64; pe_Source : string }.
Record PeltierGlobalEstimate := MkGlobal {
  pg_ChannelCount : Z; pg_ElectricalInputWatt : f64; pg_HeatPumpedFromItemWatt : f64; pg_ResistiveHeatWatt : f64;
  pg_HotSideDissipatedWatt : f64; pg_ValidPeltierChannels : Z; pg_ValidResistorChannels : Z; pg_PowerSupplyChannels : Z;
  pg_UnknownModeChannels : Z; pg_MinimumThermalConfidence : f64 }.

Definition f0 : f64 := S754_zero false.
Definition f1 : f64 := of_int 1.
Definition no_derived_value : DerivedValue := MkDerivedValue f0 false f0 "".
(** The data of the modules, by the address of their controller. *)
Definition PeltierEstimator := gmap Z PeltierModuleData.
Definition NewPeltierEstimator (moduleData : gmap Z PeltierModuleData) : PeltierEstimator := moduleData.

Definition NormalizeChannelDriveMode (mode : ChannelDriveMode) : ChannelDriveMode :=
  if bool_decide (mode ∈ [ChannelModeResistor; ChannelModePowerSupply; ChannelModePeltierDriver]) then mode else ChannelModeUnknown.

Definition peltierPointDistance (point : PeltierModulePoint) (deltaT currentAmpere : f64) : f64 :=
  let deltaTScale := fmax f1 (SFabs (mp_DeltaT point)) in
  let currentScale := fmax f1 (SFabs (mp_CurrentAmpere point)) in
  let dt := fdiv (fsub (mp_DeltaT point) deltaT) deltaTScale in
  let current := fdiv (fsub (SFabs (mp_CurrentAmpere point)) currentAmpere) currentScale in
  fadd (fmul dt dt) (fmul current current).
Definition nearest_step (deltaT currentAmpere : f64) (acc : PeltierModulePoint * f64) (point : PeltierModulePoint) : PeltierModulePoint * f64 :=
  let distance := peltierPointDistance point deltaT currentAmpere in
  if SFltb distance acc.2 then (point, distance) else acc.
Definition nearestPeltierPoint (first : PeltierModulePoint) (rest : list PeltierModulePoint) (deltaT currentAmpere : f64) : PeltierModulePoint :=
  (fold_left (nearest_step deltaT currentAmpere) rest (first, peltierPointDistance first deltaT currentAmpere)).1.
Definition nonzero (x : f64) : bool := negb (feq x f0).
Definition peltierPointConfidence (point : PeltierModulePoint) (input : PeltierChannelInput) : f64 :=
  if nonzero (mp_VoltageVolt point) && nonzero (pi_VoltageVolt input) then
    let relativeVoltageError :=
      fdiv (SFabs (fsub (SFabs (pi_VoltageVolt input)) (SFabs (mp_VoltageVolt point)))) (SFabs (mp_VoltageVolt point)) in
    if SFleb relativeVoltageError (decimal 1 10) then decimal 95 100
    else if SFleb relativeVoltageError (decimal 1 4) then decimal 3 4
    else if SFleb relativeVoltageError (decimal 1 2) then decimal 1 2
    else decimal 1 4
  else decimal 3 4.

Definition EstimateChannel (e : PeltierEstimator) (input : PeltierChannelInput) : PeltierChannelEstimate :=
  let mode := NormalizeChannelDriveMode (pi_DriveMode input) in
  let electrical := SFabs (fmul (pi_CurrentAmpere input) (pi_VoltageVolt input)) in
  let deltaT := fsub (pi_HotTemperatureC input) (pi_ColdTemperatureC input) in
  let estimate pumped resistive hot confidence source :=
    MkEstimate (pi_ControllerAddress input) (pi_Channel input) mode deltaT electrical pumped resistive hot confidence source in
  let only source := estimate no_derived_value no_derived_value no_derived_value f0 source in
  if bool_decide (mode = ChannelModeResistor) then
    estimate no_derived_value (MkDerivedValue electrical true f1 "resistor_mode_electrical_input") no_derived_value f1
      "resistor_mode_electrical_input"
  else if bool_decide (mode = ChannelModePowerSupply) then only "power_supply_mode_electrical_only"%string
  else if bool_decide (mode = ChannelModePeltierDriver) then
    match e !! pi_ControllerAddress input with
    | Some (MkModuleData _ src (first :: rest)) =>
        let point := nearestPeltierPoint first rest deltaT (SFabs (pi_CurrentAmpere input)) in
        let confidence := peltierPointConfidence point input in
        let source := if bool_decide (src = ""%string) then "peltier_module_data"%string else src in
        estimate (MkDerivedValue (mp_HeatPumpedWatt point) true confidence source) no_derived_value
          (MkDerivedValue (fadd electrical (mp_HeatPumpedWatt point)) true confidence source) confidence source
    | _ => only "peltier_mode_missing_module_data"%string
    end
  else only "unknown_mode_electrical_only"%string.

Definition add_valid (sum : f64) (v : DerivedValue) : f64 := if dl_Valid v then fadd sum (dl_Value v) else sum.
Definition global_step (acc : PeltierGlobalEstimate * bool) (estimate : PeltierChannelEstimate) : PeltierGlobalEstimate * bool :=
  let '(MkGlobal count electrical pumped resistive hot peltiers resistors supplies unknowns minimum, seen) := acc in
  let electrical := fadd electrical (pe_ElectricalInputWatt estimate) in
  let mode := pe_DriveMode estimate in
  if bool_decide (mode = ChannelModePeltierDriver) then
    let pumped := add_valid pumped (pe_HeatPumpedFromItemWatt estimate) in
    let v := pe_HotSideDissipatedWatt estimate in
    if dl_Valid v then
      (MkGlobal count electrical pumped resistive (fadd hot (dl_Value v)) (peltiers + 1) resistors supplies unknowns
         (fmin minimum (dl_Confidence v)), true)
    else (MkGlobal count electrical pumped resistive hot peltiers resistors supplies unknowns minimum, seen)
  else if bool_decide (mode = ChannelModeResistor) then
    let v := pe_ResistiveHeatWatt estimate in
    if dl_Valid v then
      (MkGlobal count electrical pumped (fadd resistive (dl_Value v)) hot peltiers (resistors + 1) supplies unknowns
         (fmin minimum (dl_Confidence v)), true)
    else (MkGlobal count electrical pumped resistive hot peltiers resistors supplies unknowns minimum, seen)
  else if bool_decide (mode = ChannelModePowerSupply) then
    (MkGlobal count electrical pumped resistive hot peltiers resistors (supplies + 1) unknowns minimum, seen)
  else (MkGlobal count electrical pumped resistive hot peltiers resistors supplies (unknowns + 1) minimum, seen).
Definition EstimatePeltierGlobal (estimates : list PeltierChannelEstimate) : PeltierGlobalEstimate :=
  let '(g, seen) := fold_left global_step estimates (MkGlobal (Z.of_nat (length estimates)) f0 f0 f0 f0 0 0 0 0 f1, false) in
  if seen then g
  else MkGlobal (pg_ChannelCount g) (pg_ElectricalInputWatt g) (pg_HeatPumpedFromItemWatt g) (pg_ResistiveHeatWatt g)
         (pg_HotSideDissipatedWatt g) (pg_ValidPeltierChannels g) (pg_ValidResistorChannels g) (pg_PowerSupplyChannels g)
         (pg_UnknownModeChannels g) f0.

(** ** The derived values of a batch ([readout_derived.go]) *)
Definition TECParamObjectTemperature : Z := 1000.
Definition TECParamSinkTemperature : Z := 1001.
Definition TECParamOutputCurrent : Z := 1020.
Definition TECParamOutputVoltage : Z := 1021.
Definition TECParamDerivedBase : Z := 900000.
Definition derived_inputs : list Z := [TECParamObjectTemperature; TECParamSinkTemperature; TECParamOutputCurrent; TECParamOutputVoltage].
Definition derivedElectricalInputOffset : Z := 1.
Definition derivedHeatPumpedFromItemOffset : Z := 2.
Definition derivedResistiveHeatOffset : Z := 3.
Definition derivedHotSideDissipatedOffset : Z := 4.
Definition derivedElectricalInputName : string := "electrical_input_w".
Definition derivedHeatPumpedFromItemName : string := "heat_pumped_from_item_w".
Definition derivedResistiveHeatName : string := "resistive_heat_w".
Definition derivedHotSideDissipatedName : string := "hot_side_dissipated_w".
Definition derivedElectricalInputDisplayUnit : string := "W".
Definition ReadoutDerivedChannelModel : string := "mecom_derived_channel_model".

Record derivedReadout := MkDerivedReadout {
  dr_controllerAddress : Z; dr_channelModes : gmap Z ChannelDriveMode; dr_estimator : PeltierEstimator }.
Definition newDerivedReadout (controllerAddress : Z) (channelModes : gmap Z ChannelDriveMode) (estimator : option PeltierEstimator) : derivedReadout :=
  MkDerivedReadout controllerAddress (NormalizeChannelDriveMode <$> channelModes) (default (NewPeltierEstimator ∅) estimator).

(** What a poll leaves: the batch, the derived values, the estimates. *)
Record derived_batch := MkDerivedBatch {
  db_Batch : ReadoutBatch; db_DerivedValues : list ReadoutValue; db_DerivedEstimates : list PeltierChannelEstimate }.
Definition optionalDerivedValue (value : DerivedValue) : f64 := if dl_Valid value then dl_Value value else S754_nan.

Section append.
Context (tec : tecCatalogueJSON).
Definition derived_sample (observedAt channel offset : Z) (name : string) (value : f64) : ReadoutValue :=
  MkReadoutValue
    (MkParam (TECParamDerivedBase + channel * 10 + offset) channel name derivedElectricalInputDisplayUnit DataTypeFloat32 false "" "")
    (DefaultTECTraceID tec channel name) value observedAt ReadoutDerivedChannelModel None.
Definition appendValue (observedAt channel offset : Z) (name : string) (value : f64) (b : derived_batch) : derived_batch :=
  let sample := derived_sample observedAt channel offset name value in
  MkDerivedBatch
    (MkBatch (Values (db_Batch b) ++ [sample]) (RingValues (db_Batch b)) (BackgroundValues (db_Batch b)) (Errors (db_Batch b)))
    (db_DerivedValues b ++ [sample]) (db_DerivedEstimates b).
Definition append_four (observedAt channel : Z) (electrical pumped resistive hot : f64) (b : derived_batch) : derived_batch :=
  appendValue observedAt channel derivedHotSideDissipatedOffset derivedHotSideDissipatedName hot
    (appendValue observedAt channel derivedResistiveHeatOffset derivedResistiveHeatName resistive
      (appendValue observedAt channel derivedHeatPumpedFromItemOffset derivedHeatPumpedFromItemName pumped
        (appendValue observedAt channel derivedElectricalInputOffset derivedElectricalInputName electrical b))).
Definition appendEstimateValues (observedAt : Z) (estimate : PeltierChannelEstimate) (b : derived_batch) : derived_batch :=
  append_four observedAt (pe_Channel estimate) (pe_ElectricalInputWatt estimate)
    (optionalDerivedValue (pe_HeatPumpedFromItemWatt estimate)) (optionalDerivedValue (pe_ResistiveHeatWatt estimate))
    (optionalDerivedValue (pe_HotSideDissipatedWatt estimate)) b.
Definition appendUnavailableValues (observedAt channel : Z) (b : derived_batch) : derived_batch :=
  append_four observedAt channel S754_nan S754_nan S754_nan S754_nan b.

(** The values of the four parameters, by channel; a later one replaces an earlier. *)
Definition input_step (inputs : gmap Z (gmap Z f64)) (value : ReadoutValue) : gmap Z (gmap Z f64) :=
  let p := rv_Parameter value in
  if Inst p <=? 0 then inputs
  else if bool_decide (ID p ∈ derived_inputs) then
    <[Inst p := <[ID p := rv_Value value]> (default ∅ (inputs !! Inst p))]> inputs
  else inputs.
Definition derived_channel_inputs (values : list ReadoutValue) : gmap Z (gmap Z f64) := fold_left input_step values ∅.
Definition maxDerivedChannel (inputs : gmap Z (gmap Z f64)) : Z := map_fold (λ channel _ m, if m <? channel then channel else m) 0 inputs.

Definition channel_input (d : derivedReadout) (channel : Z) (values : gmap Z f64) (current voltage : f64) : PeltierChannelInput :=
  MkChannelInput (dr_controllerAddress d) channel (default ""%string (dr_channelModes d !! channel))
    (default f0 (values !! TECParamObjectTemperature)) (default f0 (values !! TECParamSinkTemperature)) current voltage.
Definition append_channel (d : derivedReadout) (observedAt : Z) (inputs : gmap Z (gmap Z f64)) (b : derived_batch) (channel : Z) : derived_batch :=
  match inputs !! channel with
  | None => b
  | Some values =>
      match values !! TECParamOutputCurrent, values !! TECParamOutputVoltage with
      | Some current, Some voltage =>
          if is_nan current || is_nan voltage then appendUnavailableValues observedAt channel b
          else
            let estimate := EstimateChannel (dr_estimator d) (channel_input d channel values current voltage) in
            appendEstimateValues observedAt estimate
              (MkDerivedBatch (db_Batch b) (db_DerivedValues b) (db_DerivedEstimates b ++ [estimate]))
      | _, _ => appendUnavailableValues observedAt channel b
      end
  end.
Definition AppendDerived (d : derivedReadout) (observedAt : Z) (b : derived_batch) : derived_batch :=
  let inputs := derived_channel_inputs (Values (db_Batch b)) in
  fold_left (append_channel d observedAt inputs) (seqZ 1 (maxDerivedChannel inputs)) b.

(** A poll with the derived values configured ([Readout.Poll]). *)
Definition derived_poll {C W} `{ReadClient C} `{Reduction.Window W} (error_text : error → string) (d : option derivedReadout)
    (observedAt : Z) (c : C) (r : Readout) : C * Readout * derived_batch :=
  let '(c, r, batch) := Poll error_text observedAt c r in
  let b := MkDerivedBatch batch [] [] in
  (c, r, match d with Some d => AppendDerived d observedAt b | None => b end).
End append.

(** ** The nearest point of a module *)
Lemma nearest_fold deltaT current rest acc :
  acc.2 = peltierPointDistance acc.1 deltaT current →
  let best := fold_left (nearest_step deltaT current) rest acc in
  best.2 = peltierPointDistance best.1 deltaT current ∧ best.1 ∈ acc.1 :: rest ∧
  SFltb acc.2 best.2 = false ∧ Forall (λ p, SFltb (peltierPointDistance p deltaT current) best.2 = false) rest ∧
  (best.2 = acc.2 ∨ SFltb best.2 acc.2 = true).
Proof.
  revert acc. induction rest as [|p rest IH]; intros acc Hacc; cbn [fold_left].
  { split_and!; [done|by left| |done|by left]. by destruct (SFltb acc.2 acc.2) eqn:E; [apply SFltb_irrefl in E|]. }
  change (nearest_step deltaT current acc p) with
    (if SFltb (peltierPointDistance p deltaT current) acc.2 then (p, peltierPointDistance p deltaT current) else acc).
  destruct (SFltb (peltierPointDistance p deltaT current) acc.2) eqn:Ep.
  - destruct (IH (p, peltierPointDistance p deltaT current) eq_refl) as (Hd & Hin & Hp & Hrest & Hle). cbn [fst snd] in *. split_and!.
    + done.
    + by right.
    + apply not_true_is_false. intros Hlt. destruct Hle as [Hle|Hle].
      * rewrite Hle in Hlt. by apply (SFltb_irrefl acc.2), (SFltb_trans _ _ _ Hlt).
      * by apply (SFltb_irrefl acc.2), (SFltb_trans _ _ _ Hlt), (SFltb_trans _ _ _ Hle).
    + by constructor.
    + right. destruct Hle as [->|Hle]; [done|by apply (SFltb_trans _ _ _ Hle)].
  - destruct (IH acc Hacc) as (Hd & Hin & Hp & Hrest & Hle). split_and!; [done| |done| |done].
    + apply elem_of_cons in Hin as [->|Hin]; [by left|by right; right].
    + constructor; [|done]. apply not_true_is_false. intros Hlt. destruct Hle as [Hle|Hle]; [by rewrite Hle, Ep in Hlt|].
      pose proof (SFltb_trans _ _ _ Hlt Hle). congruence.
Qed.

Lemma nearest_spec first rest deltaT current :
  let best := nearestPeltierPoint first rest deltaT current in
  best ∈ first :: rest ∧
  Forall (λ p, SFltb (peltierPointDistance p deltaT current) (peltierPointDistance best deltaT current) = false) (first :: rest).
Proof.
  cbn zeta. unfold nearestPeltierPoint.
  destruct (nearest_fold deltaT current rest (first, peltierPointDistance first deltaT current) eq_refl) as (Hd & Hin & Hf & Hrest & _).
  rewrite <-Hd. split; [done|]. by constructor.
Qed.

(** ** What is measured of a channel *)
Definition reading (id c : Z) (v : ReadoutValue) : Prop := Inst (rv_Parameter v) = c ∧ ID (rv_Parameter v) = id.
#[export] Instance reading_dec id c v : Decision (reading id c v).
Proof. unfold reading. apply _. Defined.
Definition last_value (vs : list ReadoutValue) (c id : Z) : option f64 := rv_Value <$> last (filter (reading id c) vs).
Definition has_input (vs : list ReadoutValue) (c : Z) : Prop :=
  0 < c ∧ ∃ v, v ∈ vs ∧ Inst (rv_Parameter v) = c ∧ ID (rv_Parameter v) ∈ derived_inputs.

Lemma inputs_snoc vs v : derived_channel_inputs (vs ++ [v]) = input_step (derived_channel_inputs vs) v.
Proof. unfold derived_channel_inputs. by rewrite fold_left_app. Qed.
Lemma last_value_snoc vs v c id :
  last_value (vs ++ [v]) c id = if decide (reading id c v) then Some (rv_Value v) else last_value vs c id.
Proof.
  unfold last_value. rewrite filter_app, filter_cons, filter_nil. destruct (decide _); [by rewrite last_snoc|by rewrite app_nil_r].
Qed.
Lemma inputs_value vs c id : 0 < c → id ∈ derived_inputs → derived_channel_inputs vs !! c ≫= (.!! id) = last_value vs c id.
Proof.
  intros Hc Hid. induction vs as [|v vs IH] using rev_ind; [done|]. rewrite inputs_snoc, last_value_snoc. unfold input_step. cbn zeta.
  destruct (Z.leb_spec (Inst (rv_Parameter v)) 0).
  { rewrite decide_False; [exact IH|]. intros [? _]. lia. }
  case_bool_decide as Hin; [|rewrite decide_False; [exact IH|]; by intros [_ <-]].
  destruct (decide (Inst (rv_Parameter v) = c)) as [Ec|Nc].
  - rewrite Ec, lookup_insert_eq. cbn [mbind option_bind]. destruct (decide (ID (rv_Parameter v) = id)) as [Ei|Ni].
    + rewrite Ei, lookup_insert_eq. by rewrite decide_True.
    + rewrite lookup_insert_ne by done. rewrite decide_False by (by intros [_ ?]). rewrite <-IH.
      by destruct (derived_channel_inputs vs !! c).
  - rewrite lookup_insert_ne by done. rewrite decide_False by (by intros [? _]). exact IH.
Qed.
Lemma inputs_some vs c : is_Some (derived_channel_inputs vs !! c) ↔ has_input vs c.
Proof.
  induction vs as [|v vs IH] using rev_ind.
  { split; [by intros [? ?]|]. by intros [_ (v & ?%elem_of_nil & _)]. }
  assert (Hsnoc : has_input (vs ++ [v]) c ↔ has_input vs c ∨ (0 < c ∧ Inst (rv_Parameter v) = c ∧ ID (rv_Parameter v) ∈ derived_inputs)).
  { unfold has_input. setoid_rewrite elem_of_app. setoid_rewrite list_elem_of_singleton. naive_solver. }
  rewrite inputs_snoc, Hsnoc, <-IH. unfold input_step. cbn zeta.
  destruct (Z.leb_spec (Inst (rv_Parameter v)) 0); [split; [by left|intros [?|?]; [done|lia]]|].
  case_bool_decide as Hin; [|tauto]. rewrite lookup_insert_is_Some'. naive_solver.
Qed.
Lemma max_channel inputs c : is_Some (inputs !! c) → c ≤ maxDerivedChannel inputs.
Proof.
  unfold maxDerivedChannel. revert c.
  apply (map_fold_weak_ind (λ r (m : gmap Z (gmap Z f64)), ∀ c, is_Some (m !! c) → c ≤ r)); [by intros c [? ?]|].
  intros i x m r _ IH c. rewrite lookup_insert_is_Some'. intros [->|Hc]; [destruct (Z.ltb_spec r c); lia|].
  specialize (IH c Hc). destruct (Z.ltb_spec r i); lia.
Qed.

(** The channels of a batch, in their order. *)
Definition channels_of (vs : list ReadoutValue) : list Z :=
  let inputs := derived_channel_inputs vs in filter (λ c, is_Some (inputs !! c)) (seqZ 1 (maxDerivedChannel inputs)).
Lemma channels_spec vs c : c ∈ channels_of vs ↔ has_input vs c.
Proof.
  unfold channels_of. cbn zeta. rewrite list_elem_of_filter, inputs_some, elem_of_seqZ. split; [by intros [? _]|].
  intros Hc. split; [done|]. split; [by destruct Hc as [? _]; lia|]. apply inputs_some, max_channel in Hc. lia.
Qed.

Section derived.
Context (tec : tecCatalogueJSON) (d : derivedReadout) (t : Z).
(** The input of the estimator, when the channel is measured. *)
Definition measured (vs : list ReadoutValue) (c : Z) : option PeltierChannelInput :=
  current ← last_value vs c TECParamOutputCurrent;
  voltage ← last_value vs c TECParamOutputVoltage;
  if is_nan current || is_nan voltage then None
  else Some (MkChannelInput (dr_controllerAddress d) c (default ""%string (dr_channelModes d !! c))
               (default f0 (last_value vs c TECParamObjectTemperature)) (default f0 (last_value vs c TECParamSinkTemperature)) current voltage).
Definition estimate_of (vs : list ReadoutValue) (c : Z) : option PeltierChannelEstimate := EstimateChannel (dr_estimator d) <$> measured vs c.
Definition watts (e : option PeltierChannelEstimate) : f64 * f64 * f64 * f64 :=
  match e with
  | Some e => (pe_ElectricalInputWatt e, optionalDerivedValue (pe_HeatPumpedFromItemWatt e),
               optionalDerivedValue (pe_ResistiveHeatWatt e), optionalDerivedValue (pe_HotSideDissipatedWatt e))
  | None => (S754_nan, S754_nan, S754_nan, S754_nan)
  end.
Definition four_samples (c : Z) (w : f64 * f64 * f64 * f64) : list ReadoutValue :=
  let '(electrical, pumped, resistive, hot) := w in
  [derived_sample tec t c 1 "electrical_input_w" electrical; derived_sample tec t c 2 "heat_pumped_from_item_w" pumped;
   derived_sample tec t c 3 "resistive_heat_w" resistive; derived_sample tec t c 4 "hot_side_dissipated_w" hot].
Definition with_derived (b : derived_batch) (values : list ReadoutValue) (estimates : list PeltierChannelEstimate) : derived_batch :=
  MkDerivedBatch (MkBatch (Values (db_Batch b) ++ values) (RingValues (db_Batch b)) (BackgroundValues (db_Batch b)) (Errors (db_Batch b)))
    (db_DerivedValues b ++ values) (db_DerivedEstimates b ++ estimates).

Lemma with_derived_nil b : with_derived b [] [] = b.
Proof. destruct b as [[]]. unfold with_derived. simpl. by rewrite !app_nil_r. Qed.
Lemma with_derived_app b l1 e1 l2 e2 : with_derived (with_derived b l1 e1) l2 e2 = with_derived b (l1 ++ l2) (e1 ++ e2).
Proof. unfold with_derived. simpl. by rewrite <-!app_assoc. Qed.
Lemma append_four_spec c w b :
  append_four tec t c w.1.1.1 w.1.1.2 w.1.2 w.2 b = with_derived b (four_samples c w) [].
Proof.
  destruct w as [[[e p] r] h]. unfold append_four, appendValue, with_derived. simpl. by rewrite app_nil_r, <-!app_assoc.
Qed.
Lemma EstimateChannel_channel e input : pe_Channel (EstimateChannel e input) = pi_Channel input.
Proof. unfold EstimateChannel. cbn zeta. by repeat case_match. Qed.

Lemma append_channel_spec vs c b : has_input vs c →
  append_channel tec d t (derived_channel_inputs vs) b c =
  with_derived b (four_samples c (watts (estimate_of vs c))) (option_list (estimate_of vs c)).
Proof.
  intros Hc. pose proof (proj2 (inputs_some vs c) Hc) as [values Hv]. destruct Hc as [Hc _]. unfold append_channel. rewrite Hv.
  assert (Hl : ∀ id, id ∈ derived_inputs → values !! id = last_value vs c id).
  { intros id Hid. rewrite <-(inputs_value vs c id Hc Hid), Hv. done. }
  assert (Hnone : appendUnavailableValues tec t c b = with_derived b (four_samples c (watts None)) (option_list None)).
  { unfold appendUnavailableValues. exact (append_four_spec c (S754_nan, S754_nan, S754_nan, S754_nan) b). }
  rewrite (Hl TECParamOutputCurrent), (Hl TECParamOutputVoltage) by (unfold derived_inputs; set_solver). unfold estimate_of, measured.
  destruct (last_value vs c TECParamOutputCurrent) as [i|]; [|done]. destruct (last_value vs c TECParamOutputVoltage) as [u|]; [|done].
  cbn [mbind option_bind]. destruct (is_nan i || is_nan u); [done|]. cbn [fmap option_fmap option_map]. unfold channel_input.
  rewrite (Hl TECParamObjectTemperature), (Hl TECParamSinkTemperature) by (unfold derived_inputs; set_solver).
  set (e := EstimateChannel _ _). unfold appendEstimateValues. assert (Hpe : pe_Channel e = c) by apply EstimateChannel_channel. rewrite Hpe.
  rewrite (append_four_spec c (watts (Some e))). unfold with_derived. simpl. by rewrite app_nil_r.
Qed.
Lemma append_channels_spec vs cs b :
  fold_left (append_channel tec d t (derived_channel_inputs vs)) cs b =
  let cs := filter (λ c, is_Some (derived_channel_inputs vs !! c)) cs in
  with_derived b (cs ≫= λ c, four_samples c (watts (estimate_of vs c))) (omap (estimate_of vs) cs).
Proof.
  cbn zeta. revert b. induction cs as [|c cs IH]; intros b; cbn [fold_left]; [by rewrite filter_nil, with_derived_nil|].
  rewrite IH, filter_cons. destruct (decide (is_Some _)) as [Hs|Hs].
  - rewrite append_channel_spec by (by apply inputs_some). rewrite with_derived_app, bind_cons. f_equal. cbn [omap list_omap].
    by destruct (estimate_of vs c).
  - unfold append_channel. apply eq_None_not_Some in Hs. by rewrite Hs.
Qed.

(** The numbers of the derived values. *)
Lemma derived_ids cs f : NoDup cs → NoDup (ID ∘ rv_Parameter <$> (cs ≫= λ c, four_samples c (f c))).
Proof.
  induction 1 as [|c cs Hc Hcs IH]; [constructor|]. rewrite bind_cons, fmap_app. apply NoDup_app. split_and!; [| |done].
  - destruct (f c) as [[[e p] r] h]. cbn. repeat (apply NoDup_cons; split; [rewrite ?not_elem_of_cons; split_and?; try apply not_elem_of_nil; unfold compose; simpl; lia|]).
    constructor.
  - intros id Hin (v & -> & (c' & Hv & Hc')%list_elem_of_bind)%list_elem_of_fmap.
    assert (Hid : ∀ c v, v ∈ four_samples c (f c) → 900000 + c * 10 < ID (rv_Parameter v) < 900000 + c * 10 + 5).
    { clear. intros c v. destruct (f c) as [[[e p] r] h]. unfold four_samples. intros Hv.
      repeat (apply elem_of_cons in Hv as [->|Hv]; [simpl; unfold TECParamDerivedBase; lia|]). by apply elem_of_nil in Hv. }
    apply list_elem_of_fmap in Hin as (v' & E & Hv'). apply Hid in Hv, Hv'. unfold compose in E. assert (c = c') by lia. congruence.
Qed.

(** C34: the derived values of a poll.  For every channel of which one of the four
    parameters was read, in ascending order, four values are appended, to the batch
    and to the derived values alike, under numbers of their own and the trace names
    of the channel: computed from the last values read when current and voltage are
    there and not NaN, else NaN, all four; and the estimates are those of the
    channels with current and voltage.  Nothing else of the batch changes. *)
Theorem derived_values_spec (b : derived_batch) :
  let vs := Values (db_Batch b) in
  ∃ channels n, (∀ c, c ∈ channels ↔ has_input vs c) ∧ channels `sublist_of` seqZ 1 n ∧
    AppendDerived tec d t b =
      with_derived b (channels ≫= λ c, four_samples c (watts (estimate_of vs c))) (omap (estimate_of vs) channels) ∧
    NoDup (ID ∘ rv_Parameter <$> (channels ≫= λ c, four_samples c (watts (estimate_of vs c)))).
Proof.
  cbn zeta. set (vs := Values (db_Batch b)). exists (channels_of vs), (maxDerivedChannel (derived_channel_inputs vs)). split_and!.
  - intros c. apply channels_spec.
  - apply sublist_filter.
  - unfold AppendDerived. fold vs. apply append_channels_spec.
  - apply derived_ids. unfold channels_of. apply NoDup_filter, NoDup_seqZ.
Qed.
End derived.

(** What the estimator claims.  Thermal values are valid only as the mode of the
    channel allows: of a power supply and of a channel of unknown mode none, of a
    resistor its heat, which is all its electrical power; of a Peltier driver with
    data of its module the pumped heat of a point of the data than which no point is
    nearer, and on the hot side that heat and the electrical power together; without
    data none. *)
Theorem estimate_by_mode (e : PeltierEstimator) (input : PeltierChannelInput) :
  let mode := NormalizeChannelDriveMode (pi_DriveMode input) in
  let estimate := EstimateChannel e input in
  let electrical := pe_ElectricalInputWatt estimate in
  let pumped := pe_HeatPumpedFromItemWatt estimate in
  let hot := pe_HotSideDissipatedWatt estimate in
  let resistive := pe_ResistiveHeatWatt estimate in
  electrical = SFabs (fmul (pi_CurrentAmpere input) (pi_VoltageVolt input)) ∧
  (dl_Valid resistive = true ↔ mode = ChannelModeResistor) ∧ (dl_Valid resistive = true → dl_Value resistive = electrical) ∧
  dl_Valid pumped = dl_Valid hot ∧
  (dl_Valid hot = true ↔ mode = ChannelModePeltierDriver ∧ ∃ data, e !! pi_ControllerAddress input = Some data ∧ md_Points data ≠ []) ∧
  (dl_Valid hot = true → ∃ data p, e !! pi_ControllerAddress input = Some data ∧ p ∈ md_Points data ∧
     let distance q := peltierPointDistance q (pe_DeltaTC estimate) (SFabs (pi_CurrentAmpere input)) in
     Forall (λ q, SFltb (distance q) (distance p) = false) (md_Points data) ∧
     dl_Value pumped = mp_HeatPumpedWatt p ∧ dl_Value hot = fadd electrical (mp_HeatPumpedWatt p)).
Proof.
  cbn zeta. unfold EstimateChannel. cbn zeta. set (mode := NormalizeChannelDriveMode _).
  case_bool_decide as Hr; [rewrite Hr; split_and!; try done; split; [done|by intros [? _]]|].
  case_bool_decide as Hs; [rewrite Hs; split_and!; try done; split; [done|by intros [? _]]|].
  case_bool_decide as Hp; [|split_and!; try done; split; [done|by intros [? _]]].
  destruct (e !! pi_ControllerAddress input) as [[id src [|first rest]]|] eqn:E.
  - split_and!; try done. split; [done|]. intros [_ (data & [= <-] & Hd)]. by destruct Hd.
  - split_and!; try done.
    + split; [|done]. intros _. split; [done|]. by eexists.
    + intros _. destruct (nearest_spec first rest (fsub (pi_HotTemperatureC input) (pi_ColdTemperatureC input))
        (SFabs (pi_CurrentAmpere input))) as [Hin Hall]. eexists _, _. split; [done|]. split; [exact Hin|]. by split_and!.
  - split_and!; try done. split; [done|]. by intros [_ (data & ? & _)].
Qed.

(** Without temperatures a channel is taken for one without a difference of
    temperatures, although its module is never at that point. *)
Definition bench_point : PeltierModulePoint := MkPoint (of_int 30) (of_int 2) (of_int 12) (of_int 5).
Definition rest_point : PeltierModulePoint := MkPoint f0 (of_int 2) (of_int 10) (of_int 19).
Definition bench_reading (id : Z) (value : f64) : ReadoutValue :=
  MkReadoutValue (MkParam id 1 "" "" DataTypeFloat32 false "" "") "" value 0 "" None.
Definition bench_readout : derivedReadout :=
  newDerivedReadout 7 {[1 := ChannelModePeltierDriver]} (Some {[7 := MkModuleData "m" "" [bench_point; rest_point]]}).
Lemma missing_temperature_is_zero :
  (λ e, dl_Value (pe_HeatPumpedFromItemWatt e)) <$>
    estimate_of bench_readout [bench_reading 1000 (of_int (-5)); bench_reading 1001 (of_int 25); bench_reading 1020 (of_int 2); bench_reading 1021 (of_int 12)] 1
    = Some (of_int 5) ∧
  (λ e, dl_Value (pe_HeatPumpedFromItemWatt e)) <$>
    estimate_of bench_readout [bench_reading 1020 (of_int 2); bench_reading 1021 (of_int 12)] 1 = Some (of_int 19).
Proof. split; vm_compute; reflexivity. Qed.
