(* ===== verification/PollingCapacity.v ===== *)
(** * PollingCapacity: how much polling a bus can carry ([mecom/polling_capacity.go])

    From the numbers of controllers, instances and parameters, and what a frame
    costs, the program estimates the load of the bus.  The text of a number with
    one or two decimals ([fmt]) is an argument; numbers are small enough not to
    overflow. *)
From stdpp Require Import prelude gmap strings list.
From Stdlib Require Import Strings.Byte Floats.SpecFloat.
From S2P Require Import Prelude Floats Protocol RingReader Readout Endpoint SdoMap Catalogue.
Local Open Scope Z_scope.

Definition DefaultCANBitrateBitPerSecond : Z := 1000000.
Definition DefaultConservativeCANFrameBits : Z := 160.
Definition DefaultPollingMaxBusUtilization : f64 := decimal 1 2.
Definition DefaultRingReadPeriod : Z := 100 * 1000000.
Definition DefaultBackgroundBulkPollHz : f64 := of_int 2.
Definition DefaultBulkRequestFrames : Z := 1.
Definition DefaultBulkResponseFramesPerParam : Z := 1.
Definition DefaultRingRequestFrames : Z := 2.
Definition DefaultRingResponseFramesPerSignal : Z := 1.

Record PollingCapacityInput := MkCapacityInput {
  ci_Controllers : Z; ci_InstancesPerController : Z; ci_HighPriorityPerInstance : Z; ci_BackgroundPerInstance : Z;
  ci_RingCaptureLimit : Z; ci_RingReadPeriod : Z; ci_BulkChunk : Z; ci_BulkPollHz : f64;
  ci_CANBitrateBitPerSecond : Z; ci_FrameBits : Z; ci_MaxBusUtilization : f64;
  ci_BulkRequestFrames : Z; ci_BulkResponseFramesPerParam : Z; ci_RingRequestFrames : Z; ci_RingResponseFramesPerSignal : Z }.
Record PollingCapacityEstimate := MkCapacityEstimate {
  cp_Controllers : Z; cp_InstancesPerController : Z; cp_HighPriorityPerController : Z; cp_BackgroundPerController : Z;
  cp_TotalHighPriority : Z; cp_TotalBackground : Z; cp_RingCaptureSlotsPerController : Z; cp_RingCaptureSlotsTotal : Z;
  cp_HighPriorityOverflow : Z; cp_RoundRobinQueueTotal : Z; cp_RingReadHz : f64; cp_RingValuesPerSecond : f64;
  cp_BulkParamsPerSecond : f64; cp_RoundRobinCycleSeconds : f64; cp_EstimatedFramesPerSecond : f64; cp_EstimatedBitsPerSecond : f64;
  cp_EstimatedBusUtilization : f64; cp_CanKeepAllHighPriorityInRing : bool; cp_CanSustainBudget : bool; cp_Recommendation : string }.

Section capacity.
Context (tec : tecCatalogueJSON) (Fixed1 Fixed2 : f64 → string).

Definition countTECReadoutPriorities (instances : Z) : Z * Z :=
  fold_left (λ acc param, if HighPriority param then (acc.1 + 1, acc.2) else (acc.1, acc.2 + 1))
    (DefaultTECReadoutParameters tec instances) (0, 0).
Definition DefaultTECPollingCapacityInput (controllers instancesPerController : Z) : PollingCapacityInput :=
  let controllers := if controllers <=? 0 then 4 else controllers in
  let instancesPerController := if instancesPerController <=? 0 then 4 else instancesPerController in
  let '(high, background) := countTECReadoutPriorities instancesPerController in
  MkCapacityInput controllers instancesPerController (high ÷ instancesPerController) (background ÷ instancesPerController)
    DefaultRingCaptureLimit DefaultRingReadPeriod 8 DefaultBackgroundBulkPollHz DefaultCANBitrateBitPerSecond
    DefaultConservativeCANFrameBits DefaultPollingMaxBusUtilization DefaultBulkRequestFrames DefaultBulkResponseFramesPerParam
    DefaultRingRequestFrames DefaultRingResponseFramesPerSignal.

Definition positive_or (z fallback : Z) : Z := if z <=? 0 then fallback else z.
Definition normalizePollingCapacityInput (input : PollingCapacityInput) : PollingCapacityInput :=
  let instances := positive_or (ci_InstancesPerController input) 4 in
  let '(high, background) := countTECReadoutPriorities instances in
  let limit := positive_or (ci_RingCaptureLimit input) DefaultRingCaptureLimit in
  MkCapacityInput (positive_or (ci_Controllers input) 4) instances
    (positive_or (ci_HighPriorityPerInstance input) (high ÷ instances))
    (positive_or (ci_BackgroundPerInstance input) (background ÷ instances))
    (if RingCaptureLimit <? limit then RingCaptureLimit else limit)
    (positive_or (ci_RingReadPeriod input) DefaultRingReadPeriod) (positive_or (ci_BulkChunk input) 8)
    (if SFleb (ci_BulkPollHz input) (of_int 0) then DefaultBackgroundBulkPollHz else ci_BulkPollHz input)
    (positive_or (ci_CANBitrateBitPerSecond input) DefaultCANBitrateBitPerSecond)
    (positive_or (ci_FrameBits input) DefaultConservativeCANFrameBits)
    (if SFleb (ci_MaxBusUtilization input) (of_int 0) || SFltb (of_int 1) (ci_MaxBusUtilization input)
     then DefaultPollingMaxBusUtilization else ci_MaxBusUtilization input)
    (positive_or (ci_BulkRequestFrames input) DefaultBulkRequestFrames)
    (positive_or (ci_BulkResponseFramesPerParam input) DefaultBulkResponseFramesPerParam)
    (positive_or (ci_RingRequestFrames input) DefaultRingRequestFrames)
    (positive_or (ci_RingResponseFramesPerSignal input) DefaultRingResponseFramesPerSignal).

(** [time.Duration.Seconds]. *)
Definition Seconds (period : Z) : f64 :=
  fadd (of_int (period ÷ 1000000000)) (fdiv (of_int (Z.rem period 1000000000)) (of_int 1000000000)).
Definition percent (x : f64) : string := Fixed1 (fmul x (of_int 100)).
Definition pollingCapacityRecommendation (e : PollingCapacityEstimate) (input : PollingCapacityInput) : string :=
  let load := (percent (cp_EstimatedBusUtilization e), percent (ci_MaxBusUtilization input)) in
  let slots :=
    if cp_CanKeepAllHighPriorityInRing e then "all high-priority catalogue values fit in the controller ring capture slots"%string
    else (itoa (cp_HighPriorityOverflow e) +:+ " high-priority values overflow ring slots; keep the most important temperature/electrical signals in ring capture and send overflow through round-robin bulk reads")%string in
  let budget :=
    if cp_CanSustainBudget e then
      ("estimated CAN load " +:+ load.1 +:+ "% is within the " +:+ load.2 +:+ "% planning cap")%string
    else
      ("estimated CAN load " +:+ load.1 +:+ "% exceeds the " +:+ load.2 +:+ "% planning cap; reduce background poll rate first, then lengthen ring read period under congestion")%string in
  let cycle :=
    if SFltb (of_int 0) (cp_RoundRobinCycleSeconds e) && negb (bool_decide (cp_RoundRobinCycleSeconds e = S754_infinity false))
    then [("round-robin queue cycle is " +:+ Fixed2 (cp_RoundRobinCycleSeconds e) +:+ "s for " +:+ itoa (cp_RoundRobinQueueTotal e) +:+
           " queued values")%string]
    else [] in
  String.concat "; " ([slots; budget] ++ cycle).

Definition with_recommendation (e : PollingCapacityEstimate) (text : string) : PollingCapacityEstimate :=
  MkCapacityEstimate (cp_Controllers e) (cp_InstancesPerController e) (cp_HighPriorityPerController e) (cp_BackgroundPerController e)
    (cp_TotalHighPriority e) (cp_TotalBackground e) (cp_RingCaptureSlotsPerController e) (cp_RingCaptureSlotsTotal e)
    (cp_HighPriorityOverflow e) (cp_RoundRobinQueueTotal e) (cp_RingReadHz e) (cp_RingValuesPerSecond e) (cp_BulkParamsPerSecond e)
    (cp_RoundRobinCycleSeconds e) (cp_EstimatedFramesPerSecond e) (cp_EstimatedBitsPerSecond e) (cp_EstimatedBusUtilization e)
    (cp_CanKeepAllHighPriorityInRing e) (cp_CanSustainBudget e) text.
Definition EstimateTECPollingCapacity (input : PollingCapacityInput) : PollingCapacityEstimate :=
  let input := normalizePollingCapacityInput input in
  let controllers := ci_Controllers input in
  let highPerController := i64 (ci_HighPriorityPerInstance input * ci_InstancesPerController input) in
  let backgroundPerController := i64 (ci_BackgroundPerInstance input * ci_InstancesPerController input) in
  let totalHigh := i64 (highPerController * controllers) in
  let totalBackground := i64 (backgroundPerController * controllers) in
  let ringSlotsPerController := Z.min (ci_RingCaptureLimit input) highPerController in
  let ringSlotsTotal := i64 (ringSlotsPerController * controllers) in
  let overflow := Z.max 0 (i64 (totalHigh - ringSlotsTotal)) in
  let roundRobinTotal := i64 (totalBackground + overflow) in
  let ringHz := fdiv (of_int 1) (Seconds (ci_RingReadPeriod input)) in
  let ringValuesPerSecond := fmul (of_int ringSlotsTotal) ringHz in
  let bulkParamsPerSecond := fmul (of_int (i64 (controllers * ci_BulkChunk input))) (ci_BulkPollHz input) in
  let roundRobinCycleSeconds :=
    if roundRobinTotal =? 0 then of_int 0
    else if SFltb (of_int 0) bulkParamsPerSecond then fdiv (of_int roundRobinTotal) bulkParamsPerSecond
    else S754_infinity false in
  let ringFramesPerControllerRead := i64 (ci_RingRequestFrames input + ringSlotsPerController * ci_RingResponseFramesPerSignal input) in
  let ringFramesPerSecond := fmul (fmul (of_int controllers) ringHz) (of_int ringFramesPerControllerRead) in
  let bulkParamsPerController := Z.min (ci_BulkChunk input) (Z.max 0 (roundRobinTotal ÷ controllers)) in
  let bulkFramesPerControllerRead := i64 (ci_BulkRequestFrames input + bulkParamsPerController * ci_BulkResponseFramesPerParam input) in
  let bulkFramesPerSecond := fmul (fmul (of_int controllers) (ci_BulkPollHz input)) (of_int bulkFramesPerControllerRead) in
  let framesPerSecond := fadd ringFramesPerSecond bulkFramesPerSecond in
  let bitsPerSecond := fmul framesPerSecond (of_int (ci_FrameBits input)) in
  let utilization := fdiv bitsPerSecond (of_int (ci_CANBitrateBitPerSecond input)) in
  let estimate :=
    MkCapacityEstimate controllers (ci_InstancesPerController input) highPerController backgroundPerController totalHigh totalBackground
      ringSlotsPerController ringSlotsTotal overflow roundRobinTotal ringHz ringValuesPerSecond bulkParamsPerSecond
      roundRobinCycleSeconds framesPerSecond bitsPerSecond utilization (overflow =? 0) (SFleb utilization (ci_MaxBusUtilization input)) "" in
  with_recommendation estimate (pollingCapacityRecommendation estimate input).

(** ** Nothing is lost between the ring and the queue *)
Lemma count_priorities instances :
  let '(high, background) := countTECReadoutPriorities instances in
  0 ≤ high ∧ 0 ≤ background ∧ high + background = Z.of_nat (length (DefaultTECReadoutParameters tec instances)).
Proof.
  unfold countTECReadoutPriorities. generalize (DefaultTECReadoutParameters tec instances) as ps. intros ps.
  assert (H : ∀ h b, 0 ≤ h → 0 ≤ b →
    let '(high, background) := fold_left (λ acc param, if HighPriority param then (acc.1 + 1, acc.2) else (acc.1, acc.2 + 1)) ps (h, b) in
    0 ≤ high ∧ 0 ≤ background ∧ high + background = h + b + Z.of_nat (length ps)).
  { induction ps as [|p ps IH]; intros h b Hh Hb; cbn [fold_left]; [simpl; lia|].
    destruct (HighPriority p); cbn [fst snd length]; [specialize (IH (h + 1) b)|specialize (IH h (b + 1))];
      destruct (fold_left _ _ _); lia. }
  specialize (H 0 0). destruct (fold_left _ _ _). lia.
Qed.

Record input_ok (input : PollingCapacityInput) : Prop := {
  io_counts : 0 < ci_Controllers input ∧ 0 < ci_InstancesPerController input ∧ 0 ≤ ci_HighPriorityPerInstance input ∧
              0 ≤ ci_BackgroundPerInstance input;
  io_ring : 1 ≤ ci_RingCaptureLimit input ≤ RingCaptureLimit ∧ 0 < ci_RingReadPeriod input;
  io_bus : 0 < ci_BulkChunk input ∧ 0 < ci_CANBitrateBitPerSecond input ∧ 0 < ci_FrameBits input;
  io_frames : 0 < ci_BulkRequestFrames input ∧ 0 < ci_BulkResponseFramesPerParam input ∧ 0 < ci_RingRequestFrames input ∧
              0 < ci_RingResponseFramesPerSignal input;
  io_rates : (is_nan (ci_BulkPollHz input) = true ∨ SFltb (of_int 0) (ci_BulkPollHz input) = true) ∧
             (is_nan (ci_MaxBusUtilization input) = true ∨
              SFltb (of_int 0) (ci_MaxBusUtilization input) = true ∧ SFleb (ci_MaxBusUtilization input) (of_int 1) = true) }.
(** Nothing to normalise. *)
Record input_in_range (input : PollingCapacityInput) : Prop := {
  ir_ok : input_ok input;
  ir_values : 0 < ci_HighPriorityPerInstance input ∧ 0 < ci_BackgroundPerInstance input }.

Lemma positive_or_pos z fallback : 0 < fallback → 0 < positive_or z fallback.
Proof. unfold positive_or. destruct (Z.leb_spec z 0); lia. Qed.
Lemma positive_or_nonneg z fallback : 0 ≤ fallback → 0 ≤ positive_or z fallback.
Proof. unfold positive_or. destruct (Z.leb_spec z 0); lia. Qed.
Lemma positive_or_id z fallback : 0 < z → positive_or z fallback = z.
Proof. unfold positive_or. destruct (Z.leb_spec z 0); lia. Qed.

Lemma normalize_ok input : input_ok (normalizePollingCapacityInput input).
Proof.
  unfold normalizePollingCapacityInput. cbn zeta.
  pose proof (count_priorities (positive_or (ci_InstancesPerController input) 4)) as Hc.
  pose proof (positive_or_pos (ci_InstancesPerController input) 4 ltac:(lia)) as Hi.
  destruct (countTECReadoutPriorities _) as [high background]. destruct Hc as (Hh & Hb & _).
  split; cbn.
  - split_and!; [by apply positive_or_pos|done|apply positive_or_nonneg, Z.quot_pos; lia|apply positive_or_nonneg, Z.quot_pos; lia].
  - pose proof (positive_or_pos (ci_RingCaptureLimit input) DefaultRingCaptureLimit ltac:(done)).
    split; [|by apply positive_or_pos]. unfold RingCaptureLimit. destruct (Z.ltb_spec 16 (positive_or (ci_RingCaptureLimit input) DefaultRingCaptureLimit)); lia.
  - split_and!; by apply positive_or_pos.
  - split_and!; by apply positive_or_pos.
  - split.
    + destruct (SFleb (ci_BulkPollHz input) _) eqn:E; [by right|]. by apply not_leb_ltb in E.
    + destruct (SFleb (ci_MaxBusUtilization input) _) eqn:E1; cbn [orb]; [by right|].
      destruct (SFltb _ (ci_MaxBusUtilization input)) eqn:E2; [by right|].
      apply not_leb_ltb in E1 as [E1|E1]; [by left| |done]. apply not_ltb_leb in E2 as [E2|E2]; [by left|by right|done].
Qed.
(** An input in range is left alone. *)
Lemma normalize_id input : input_in_range input → normalizePollingCapacityInput input = input.
Proof.
  intros [[(Hc & Hi & _ & _) [[Hl1 Hl2] Hp] (Hb1 & Hb2 & Hb3) (Hf1 & Hf2 & Hf3 & Hf4) [Hhz Hmax]] [Hh Hb]].
  unfold normalizePollingCapacityInput. cbn zeta. destruct (countTECReadoutPriorities _) as [high background].
  rewrite !positive_or_id by lia. destruct (Z.ltb_spec RingCaptureLimit (ci_RingCaptureLimit input)); [lia|].
  assert (SFleb (ci_BulkPollHz input) (of_int 0) = false) as -> by (destruct Hhz; [by apply nan_leb|by apply ltb_not_leb]).
  assert (SFleb (ci_MaxBusUtilization input) (of_int 0) = false) as -> by (destruct Hmax as [?|[? _]]; [by apply nan_leb|by apply ltb_not_leb]).
  assert (SFltb (of_int 1) (ci_MaxBusUtilization input) = false) as -> by (destruct Hmax as [?|[_ ?]]; [by apply nan_ltb|by apply leb_not_ltb]).
  by destruct input.
Qed.

(** The numbers of values fit an [int]. *)
Definition fits (i : PollingCapacityInput) : Prop :=
  (ci_HighPriorityPerInstance i + ci_BackgroundPerInstance i) * ci_InstancesPerController i * ci_Controllers i < 2 ^ 63.

(** C35: the estimate accounts for every value.  Whatever the input, the normalised
    one has positive numbers (numbers of values that are not negative), at most sixteen
    slots in a ring, a rate that is positive and a planning cap of more than zero and at
    most one, unless they are not numbers; an input in range is left alone.  And if the
    numbers of values fit an [int], every high-priority value is either in a slot or
    in the round-robin queue, where all the others are too; the slots that a ring uses
    are the smaller of its limit and the high-priority values of its controller; the
    estimate says that all fit exactly when these do not exceed the limit; each
    controller's share of the queue is exact; and an empty queue takes no time. *)
Theorem capacity_accounts (input : PollingCapacityInput) :
  let i := normalizePollingCapacityInput input in
  let e := EstimateTECPollingCapacity input in
  input_ok i ∧ (input_in_range input → i = input) ∧ (fits i →
  cp_RingCaptureSlotsTotal e + cp_RoundRobinQueueTotal e = cp_TotalHighPriority e + cp_TotalBackground e ∧
  cp_TotalHighPriority e = ci_HighPriorityPerInstance i * ci_InstancesPerController i * ci_Controllers i ∧
  cp_TotalBackground e = ci_BackgroundPerInstance i * ci_InstancesPerController i * ci_Controllers i ∧
  cp_HighPriorityPerController e = ci_HighPriorityPerInstance i * ci_InstancesPerController i ∧
  cp_RingCaptureSlotsPerController e = Z.min (ci_RingCaptureLimit i) (cp_HighPriorityPerController e) ∧
  cp_RingCaptureSlotsTotal e = cp_RingCaptureSlotsPerController e * ci_Controllers i ∧
  0 ≤ cp_HighPriorityOverflow e ≤ cp_RoundRobinQueueTotal e ∧
  (cp_CanKeepAllHighPriorityInRing e = true ↔ cp_HighPriorityPerController e ≤ ci_RingCaptureLimit i) ∧
  cp_RoundRobinQueueTotal e ÷ ci_Controllers i * ci_Controllers i = cp_RoundRobinQueueTotal e ∧
  (cp_RoundRobinQueueTotal e = 0 → cp_RoundRobinCycleSeconds e = of_int 0)).
Proof.
  cbn zeta. pose proof (normalize_ok input) as Hok. split; [done|]. split; [apply normalize_id|]. unfold EstimateTECPollingCapacity, fits. cbn zeta.
  set (i := normalizePollingCapacityInput input) in *. unfold with_recommendation. cbn -[Z.pow]. intros Hfits.
  destruct (io_counts i Hok) as (Hc & Hn & Hh & Hb), (io_ring i Hok) as [[Hl1 Hl2] _].
  assert (Hp : ∀ v, 0 ≤ v → v ≤ ci_HighPriorityPerInstance i + ci_BackgroundPerInstance i →
    0 ≤ v * ci_InstancesPerController i ≤ v * ci_InstancesPerController i * ci_Controllers i ∧
    v * ci_InstancesPerController i * ci_Controllers i < 2 ^ 63).
  { intros v Hv Hle. assert (0 ≤ v * ci_InstancesPerController i) by nia. split; [nia|]. eapply Z.le_lt_trans; [|exact Hfits].
    do 2 (apply Z.mul_le_mono_nonneg_r; [lia|]). done. }
  destruct (Hp (ci_HighPriorityPerInstance i)) as [Hh1 Hh2], (Hp (ci_BackgroundPerInstance i)) as [Hb1 Hb2]; [lia..|]. clear Hp.
  set (high := ci_HighPriorityPerInstance i * ci_InstancesPerController i) in *.
  set (back := ci_BackgroundPerInstance i * ci_InstancesPerController i) in *.
  assert (Hsum : high * ci_Controllers i + back * ci_Controllers i < 2 ^ 63) by (unfold high, back; lia).
  assert (Hs : 0 ≤ Z.min (ci_RingCaptureLimit i) high * ci_Controllers i ≤ high * ci_Controllers i) by nia.
  rewrite (i64_id high), (i64_id back) by lia. rewrite (i64_id (high * _)), (i64_id (back * _)), (i64_id (Z.min _ _ * _)) by lia.
  rewrite (i64_id (_ - _)) by lia. rewrite (i64_id (_ + Z.max _ _)) by lia.
  assert (Hq : back * ci_Controllers i + Z.max 0 (high * ci_Controllers i - Z.min (ci_RingCaptureLimit i) high * ci_Controllers i) =
    (back + (high - Z.min (ci_RingCaptureLimit i) high)) * ci_Controllers i) by nia.
  split; [nia|]. split; [done|]. split; [done|]. split; [done|]. split; [done|]. split; [done|]. split; [nia|]. split; [rewrite Z.eqb_eq; nia|].
  split; [|by intros ->]. rewrite Hq. by rewrite Z.quot_mul by lia.
Qed.
End capacity.

(** Four controllers of four channels, with the defaults for the rest. *)
Definition bench_input : PollingCapacityInput :=
  MkCapacityInput 4 4 6 20 0 0 0 (of_int 0) 0 0 (of_int 0) 0 0 0 0.
Example capacity_accounts_witness :
  let e := EstimateTECPollingCapacity bench_catalogue (λ _, ""%string) (λ _, ""%string) bench_input in
  cp_RingCaptureSlotsTotal e = 16 ∧ cp_RoundRobinQueueTotal e = 400 ∧ cp_RingCaptureSlotsTotal e + cp_RoundRobinQueueTotal e = 26 * 16.
Proof.
  cbn zeta. destruct (capacity_accounts bench_catalogue (λ _, ""%string) (λ _, ""%string) bench_input) as (_ & _ & H).
  destruct H as (H & H1 & H2 & _); [vm_compute; done|]. split_and!; [vm_compute; done..|]. rewrite H, H1, H2. vm_compute. done.
Defined.
