(* ===== verification/ParamSetter.v ===== *)
(** * ParamSetter: the parameter tool ([cmd/mecomset/main.go])

    The tool writes a list of parameters to each of its targets, reads them back if
    asked to, and then saves and resets.  What a run prints is given as data: an
    outcome per parameter, and those of save and reset.  Parsing a [float32] and the
    catalogue of the TEC are arguments; a call's environment is an [exchange]. *)
From stdpp Require Import prelude gmap strings list.
From Stdlib Require Import Strings.Byte Floats.SpecFloat.
From S2P Require Import Prelude Text Floats Protocol Client RingReader Readout Endpoint GraphKeys Catalogue.
Local Open Scope Z_scope.
#[local] Set Warnings "-clear-no-such-hyp".

(** ** What to set *)
Record setSpec := MkSetSpec { ss_ParamID : Z; ss_Instance : Z; ss_Type : DataType; ss_IntValue : Z; ss_FloatValue : f32 }.
Definition setValueKind := string.
Definition setKindAuto : setValueKind := "".
Definition setKindInt32 : setValueKind := "int32".
Definition setKindFloat32 : setValueKind := "float32".
Definition setError (format : string) : error := Errorf format [].

Definition splitList (value : bytes) : list bytes :=
  filter (λ part, part ≠ []) (TrimSpace <$> SplitByte ","%byte value).
(** [strconv.ParseInt(s, 10, 32)]. *)
Definition ParseInt32 (raw : bytes) : option Z :=
  v ← Atoi raw; if (- 2 ^ 31 <=? v) && (v <? 2 ^ 31) then Some v else None.
Definition in_limits (lo hi : Z) (text : bytes) : option Z :=
  v ← Atoi text; if (v <? lo) || (hi <? v) then None else Some v.

Section specs.
Context (tec : tecCatalogueJSON) (ParseFloat32 : bytes → option f32).
Definition tecParameterByID (paramID : Z) : option Param :=
  match List.find (λ p, ID p =? paramID) (DefaultTECWriteParameters tec 1) with
  | Some p => Some p
  | None => List.find (λ p, ID p =? paramID) (rp_Parameter <$> DefaultTECReadoutParameters tec 1)
  end.
Definition inferSetDataType (paramID : Z) (raw : bytes) : DataType :=
  let guess := if existsb (λ b, bool_decide (b ∈ ["."%byte; "e"%byte; "E"%byte])) raw then DataTypeFloat32 else DataTypeInt32 in
  match tecParameterByID paramID with
  | Some param => if bool_decide (Type_ param = ""%string) then guess else Type_ param
  | None => guess
  end.
Definition parseSetValue (paramID instance : Z) (raw : bytes) (kind : setValueKind) : res setSpec :=
  let dataType := if bool_decide (kind = setKindAuto) then inferSetDataType paramID raw else kind in
  if bool_decide (dataType = DataTypeFloat32) then
    match ParseFloat32 raw with
    | None => Err (setError "mecomset: invalid FLOAT32 value %q")
    | Some value => Ok (MkSetSpec paramID instance DataTypeFloat32 0 value)
    end
  else if bool_decide (dataType ∈ [DataTypeInt32; ""%string]) then
    match ParseInt32 raw with
    | None => Err (setError "mecomset: invalid INT32 value %q")
    | Some value => Ok (MkSetSpec paramID instance DataTypeInt32 value (S754_zero false))
    end
  else Err (setError "mecomset: unsupported write type %q for parameter %d").
Definition parse_part (kind : setValueKind) (part : bytes) : res setSpec :=
  let '(lhs, rhs) := cut_at "="%byte part in
  let value_text := TrimSpace (default [] rhs) in
  if bool_decide (rhs = None) || bool_decide (TrimSpace lhs = []) || bool_decide (value_text = []) then
    Err (setError "mecomset: invalid -set %q, expected param[:instance]=value")
  else
    let '(paramPart, instancePart) := cut_at ":"%byte (TrimSpace lhs) in
    match in_limits 1 65535 paramPart with
    | None => Err (setError "mecomset: invalid parameter id %q")
    | Some paramID =>
        match match instancePart with Some text => in_limits 0 255 text | None => Some 1 end with
        | None => Err (setError "mecomset: invalid instance %q")
        | Some instance => parseSetValue paramID instance value_text kind
        end
    end.
Definition parseSetSpecsWithKind (values : list bytes) (kind : setValueKind) : res (list setSpec) :=
  mapM (parse_part kind) (values ≫= splitList).
Definition at_least_one (specs : list setSpec) : res (list setSpec) :=
  if bool_decide (specs = []) then Err (setError "mecomset: at least one -set is required") else Ok specs.
Definition parseSetSpecs (values : list bytes) : res (list setSpec) :=
  specs ← parseSetSpecsWithKind values setKindAuto; at_least_one specs.
Definition parseAllSetSpecs (sets intSets floatSets : list bytes) : res (list setSpec) :=
  a ← parseSetSpecsWithKind sets setKindAuto; b ← parseSetSpecsWithKind intSets setKindInt32;
  c ← parseSetSpecsWithKind floatSets setKindFloat32; at_least_one (a ++ b ++ c).
End specs.

(** ** A target *)
Definition writeSetSpec (x : exchange) (spec : setSpec) (c : Client) : Client * res () :=
  if bool_decide (ss_Type spec = DataTypeFloat32) then WriteFloat32 (ss_ParamID spec) (ss_Instance spec) (ss_FloatValue spec) x c
  else if bool_decide (ss_Type spec ∈ [DataTypeInt32; ""%string]) then WriteInt32 (ss_ParamID spec) (ss_Instance spec) (ss_IntValue spec) x c
  else (c, Err (Errorf "unsupported write type %q for parameter %d" [ss_ParamID spec])).
Definition readSetSpec (x : exchange) (spec : setSpec) (c : Client) : Client * res f64 :=
  if bool_decide (ss_Type spec = DataTypeFloat32) then ReadFloat32 (ss_ParamID spec) (ss_Instance spec) x c
  else if bool_decide (ss_Type spec ∈ [DataTypeInt32; ""%string]) then
    let '(c, v) := ReadInt32 (ss_ParamID spec) (ss_Instance spec) x c in (c, of_int <$> v)
  else (c, Err (Errorf "unsupported verify type %q for parameter %d" [ss_ParamID spec])).
Definition setSpecMatches (spec : setSpec) (got : f64) : bool :=
  if bool_decide (ss_Type spec = DataTypeFloat32) then
    let want := to_f64 (ss_FloatValue spec) in
    let tolerance := fmax (decimal 1 10000) (fmul (SFabs want) (decimal 1 100000)) in
    negb (is_nan got) && SFleb (SFabs (fsub got want)) tolerance
  else if bool_decide (ss_Type spec ∈ [DataTypeInt32; ""%string]) then int32_of_float (Round got) =? ss_IntValue spec
  else false.

(** What the line of a parameter says. *)
Inductive set_outcome :=
  | WriteError (e : error) | Wrote | VerifyError (e : error) | VerifyMismatch (got : f64) | WroteVerified (got : f64).
Definition set_good (o : set_outcome) : bool := match o with Wrote | WroteVerified _ => true | _ => false end.
(** The exchanges of one parameter: its write, and its reading back. *)
Definition set_one (verify : bool) (x : exchange * exchange) (spec : setSpec) (c : Client) : Client * set_outcome :=
  let '(c, r) := writeSetSpec x.1 spec c in
  match r with
  | Err e => (c, WriteError e)
  | Ok _ =>
      if verify then
        let '(c, got) := readSetSpec x.2 spec c in
        (c, match got with
            | Err e => VerifyError e
            | Ok got => if setSpecMatches spec got then WroteVerified got else VerifyMismatch got
            end)
      else (c, Wrote)
  end.
Fixpoint set_all (verify : bool) (xs : nat → exchange * exchange) (i : nat) (specs : list setSpec) (c : Client) : Client * list set_outcome :=
  match specs with
  | [] => (c, [])
  | spec :: specs =>
      let '(c, o) := set_one verify (xs i) spec c in
      let '(c, os) := set_all verify xs (S i) specs c in (c, o :: os)
  end.
(** What a target leaves: outcomes, save and reset if they were tried, failures. *)
Record target_run := MkTargetRun {
  tg_outcomes : list set_outcome; tg_save : option (res ()); tg_reset : option (res ()); tg_failures : Z }.
Definition optional_step (wanted : bool) (op : Client → Client * res ()) (c : Client) : Client * option (res ()) :=
  if wanted then let '(c, r) := op c in (c, Some r) else (c, None).
Definition step_failed (r : option (res ())) : bool := match r with Some (Err _) => true | _ => false end.
Definition count_failed (os : list set_outcome) : Z := Z.of_nat (length (filter (λ o, set_good o = false) os)).
(** [conn]: what dialling gives; [close]: the error of closing it. *)
Definition runTarget (conn : res Conn) (close : option error) (address : Z) (specs : list setSpec) (verify save reset : bool)
    (xs : nat → exchange * exchange) (xsave xreset : exchange) : option Client * target_run :=
  match conn with
  | Err _ => (None, MkTargetRun [] None None 1)
  | Ok conn =>
      let '(c, os) := set_all verify xs 0 specs (NewClient conn address) in
      let bad := existsb (λ o, negb (set_good o)) os in
      let '(c, saved) := optional_step (negb bad && save) (SaveToFlash xsave) c in
      let '(c, was_reset) := optional_step (negb bad && negb (step_failed saved) && reset) (Reset_ xreset) c in
      (Some c, MkTargetRun os saved was_reset
         (count_failed os + Z.b2z (step_failed saved) + Z.b2z (step_failed was_reset) + (if close is Some _ then 1 else 0)))
  end.
Definition run_targets (failures : list Z) : res () :=
  let failures := foldr Z.add 0 failures in
  if 0 <? failures then Err (Errorf "mecomset: %d operation(s) failed" [failures]) else Ok ().

(** ** What happens on the connection *)
(** The next frame that the connection delivers answers the one that is sent. *)
Definition exchanged (c c' : Client) (frame raw : bytes) : Prop :=
  address c' = address c ∧ written (rw c') = written (rw c) ++ [frame] ∧ readFrame (incoming (rw c)) = (raw, None, incoming (rw c')).
(** At most one frame is sent, and it is of that kind. *)
Definition wrote_at_most (c c' : Client) (frame : Z → bytes) : Prop :=
  address c' = address c ∧ ∃ fs, written (rw c') = written (rw c) ++ fs ∧ (fs = [] ∨ ∃ s, fs = [frame s]).
(** A frame of that kind is sent and acknowledged. *)
Definition acked (c c' : Client) (frame : Z → bytes) : Prop :=
  ∃ s raw, exchanged c c' (frame s) raw ∧ ParseWriteResponseForRequest raw (frame s) = Ok ().

Lemma wrote_nothing c frame : wrote_at_most c c frame.
Proof. split; [done|]. exists []. split; [by rewrite app_nil_r|by left]. Qed.
Lemma roundTrip_cases x (frame : Z → bytes) c :
  match roundTripWithRequest x (λ s, Ok (frame s)) c with
  | (c', Ok (request, raw)) => ∃ s, request = frame s ∧ exchanged c c' (frame s) raw
  | (c', Err _) => wrote_at_most c c' frame
  end.
Proof.
  unfold roundTripWithRequest, nextSeqLocked. set (s := if u16 (seq c + 1) =? 0 then 1 else u16 (seq c + 1)).
  assert (Hnone : ∃ fs, written (rw c) = written (rw c) ++ fs ∧ (fs = [] ∨ ∃ s, fs = [frame s])).
  { exists []. split; [by rewrite app_nil_r|by left]. }
  assert (Hsome : ∃ fs, written (rw c) ++ [frame s] = written (rw c) ++ fs ∧ (fs = [] ∨ ∃ s, fs = [frame s])).
  { exists [frame s]. split; [done|]. right. by exists s. }
  unfold roundTripRaw, wrote_at_most. destruct (ctxErr x); [by split|]. destruct (writeErr x); [by split|].
  destruct (deadlineErr x); [by split|]. cbn [rw incoming written address].
  destruct (readFrame (incoming (rw c))) as [[raw oerr] rest] eqn:E. destruct oerr as [e|]; [|by exists s].
  destruct (ctxErrAfter x); [by split|]. by destruct (is_net_timeout e).
Qed.
Lemma acknowledged_cases x (frame : Z → bytes) c :
  match acknowledged x (λ s, Ok (frame s)) c with (c', Ok _) => acked c c' frame | (c', Err _) => wrote_at_most c c' frame end.
Proof.
  unfold acknowledged. pose proof (roundTrip_cases x frame c) as Hr. destruct (roundTripWithRequest _ _ _) as [c' [[request raw]|e]]; [|done].
  destruct Hr as (s & -> & Ha). cbn [mbind result_bind]. destruct (ParseWriteResponseForRequest raw (frame s)) as [[]|e] eqn:E.
  - by exists s, raw.
  - destruct Ha as (Haddr & Hw & _). split; [done|]. exists [frame s]. split; [done|]. right. by exists s.
Qed.

(** *** A parameter *)
Definition write_frame (addr : Z) (spec : setSpec) (s : Z) : bytes :=
  if decide (ss_Type spec = DataTypeFloat32) then BuildWriteFloat32Frame addr s (ss_ParamID spec) (ss_Instance spec) (ss_FloatValue spec)
  else BuildWriteInt32Frame addr s (ss_ParamID spec) (ss_Instance spec) (ss_IntValue spec).
Definition read_frame (addr : Z) (spec : setSpec) (s : Z) : bytes := BuildSingleGetFrame addr s (ss_ParamID spec) (ss_Instance spec).
(** The value that an answer to the read has, of the type that was written. *)
Definition read_value (spec : setSpec) (raw : bytes) (got : f64) : Prop :=
  if decide (ss_Type spec = DataTypeFloat32) then ParseSingleResponse raw DataTypeFloat32 = Ok got
  else ∃ v, ParseSingleResponse raw DataTypeInt32 = Ok v ∧ got = of_int (to_int v).
Definition read_back (c c' : Client) (spec : setSpec) (got : f64) : Prop :=
  ∃ s raw, exchanged c c' (read_frame (address c) spec s) raw ∧ read_value spec raw got.

Lemma writeSetSpec_cases x spec c :
  match writeSetSpec x spec c with
  | (c', Ok _) => acked c c' (write_frame (address c) spec)
  | (c', Err _) => wrote_at_most c c' (write_frame (address c) spec)
  end.
Proof.
  unfold writeSetSpec, write_frame, WriteFloat32, WriteInt32, validated. destruct (decide (ss_Type spec = DataTypeFloat32)) as [E|E].
  - rewrite bool_decide_eq_true_2 by done. destruct (validateParameterAddress _ _); [apply acknowledged_cases|apply wrote_nothing].
  - rewrite bool_decide_eq_false_2 by done. destruct (bool_decide _); [|apply wrote_nothing].
    destruct (validateParameterAddress _ _); [apply acknowledged_cases|apply wrote_nothing].
Qed.
Lemma readNumeric_cases paramID instance t x c :
  match readNumeric paramID instance t x c with
  | (c', Ok v) => ∃ s raw, exchanged c c' (BuildSingleGetFrame (address c) s paramID instance) raw ∧ ParseSingleResponse raw t = Ok v
  | (c', Err _) => wrote_at_most c c' (λ s, BuildSingleGetFrame (address c) s paramID instance)
  end.
Proof.
  unfold readNumeric, roundTrip. destruct (validateParameterAddress _ _); [|apply wrote_nothing].
  pose proof (roundTrip_cases x (λ s, BuildSingleGetFrame (address c) s paramID instance) c) as Hr.
  destruct (roundTripWithRequest _ _ _) as [c' [[request raw]|e]]; cbn [fmap result_fmap mbind result_bind snd]; [|done].
  destruct Hr as (s & -> & Ha). destruct (ParseSingleResponse raw t) as [v|e] eqn:E; [by exists s, raw|].
  destruct Ha as (Haddr & Hw & _). split; [done|]. eexists. split; [done|]. right. by exists s.
Qed.
Lemma readSetSpec_cases x spec c :
  match readSetSpec x spec c with
  | (c', Ok got) => read_back c c' spec got
  | (c', Err _) => wrote_at_most c c' (read_frame (address c) spec)
  end.
Proof.
  unfold readSetSpec, read_back, read_value, ReadFloat32, ReadInt32. destruct (decide (ss_Type spec = DataTypeFloat32)) as [E|E].
  - rewrite bool_decide_eq_true_2 by done. apply readNumeric_cases.
  - rewrite bool_decide_eq_false_2 by done. destruct (bool_decide _); [|apply wrote_nothing].
    pose proof (readNumeric_cases (ss_ParamID spec) (ss_Instance spec) DataTypeInt32 x c) as Hr.
    destruct (readNumeric _ _ _ _ _) as [c' [v|e]]; cbn [mbind result_bind fmap result_fmap]; [|done].
    destruct Hr as (s & raw & Ha & Hp). exists s, raw. split; [done|]. by exists v.
Qed.

(** What has happened to a parameter of an outcome. *)
Definition param_run (verify : bool) (spec : setSpec) (o : set_outcome) (c c' : Client) : Prop :=
  match o with
  | WriteError _ => wrote_at_most c c' (write_frame (address c) spec)
  | Wrote => verify = false ∧ acked c c' (write_frame (address c) spec)
  | VerifyError _ => verify = true ∧ ∃ c1, acked c c1 (write_frame (address c) spec) ∧ wrote_at_most c1 c' (read_frame (address c) spec)
  | VerifyMismatch got =>
      verify = true ∧ ∃ c1, acked c c1 (write_frame (address c) spec) ∧ read_back c1 c' spec got ∧ setSpecMatches spec got = false
  | WroteVerified got =>
      verify = true ∧ ∃ c1, acked c c1 (write_frame (address c) spec) ∧ read_back c1 c' spec got ∧ setSpecMatches spec got = true
  end.
(** The parameters of a list, one after another. *)
Inductive params_run (verify : bool) : list setSpec → list set_outcome → Client → Client → Prop :=
  | params_none c : params_run verify [] [] c c
  | params_next spec specs o os c c1 c' :
      param_run verify spec o c c1 → params_run verify specs os c1 c' → params_run verify (spec :: specs) (o :: os) c c'.
(** An operation that is done if it is wanted. *)
Definition step_run (wanted : Prop) (frame : Z → bytes) (r : option (res ())) (c c' : Client) : Prop :=
  match r with
  | None => ¬ wanted ∧ c' = c
  | Some (Ok _) => wanted ∧ acked c c' frame
  | Some (Err _) => wanted ∧ wrote_at_most c c' frame
  end.

Lemma acked_address c c' frame : acked c c' frame → address c' = address c.
Proof. by intros (s & raw & [Ha _] & _). Qed.
Lemma set_one_spec verify x spec c : let '(c', o) := set_one verify x spec c in param_run verify spec o c c' ∧ address c' = address c.
Proof.
  unfold set_one. pose proof (writeSetSpec_cases x.1 spec c) as Hw. destruct (writeSetSpec _ _ _) as [c1 [u|e]].
  2: { split; [done|apply Hw]. }
  destruct verify; [|split; [done|by apply acked_address in Hw]]. apply acked_address in Hw as Ha1.
  pose proof (readSetSpec_cases x.2 spec c1) as Hr. destruct (readSetSpec _ _ _) as [c2 [got|e]].
  - assert (Ha2 : address c2 = address c) by (destruct Hr as (? & ? & [? _] & _); congruence).
    destruct (setSpecMatches spec got) eqn:E; (split; [|done]); (split; [done|]); by exists c1.
  - split; [|destruct Hr; congruence]. split; [done|]. exists c1. by rewrite Ha1 in Hr.
Qed.
Lemma set_all_spec verify xs i specs c : let '(c', os) := set_all verify xs i specs c in params_run verify specs os c c' ∧ address c' = address c.
Proof.
  revert i c. induction specs as [|spec specs IH]; intros i c; cbn [set_all]; [by split; [constructor|]|].
  pose proof (set_one_spec verify (xs i) spec c) as H1. destruct (set_one _ _ _ _) as [c1 o]. destruct H1 as [H1 Ha].
  specialize (IH (S i) c1). destruct (set_all _ _ _ _ _) as [c2 os]. destruct IH as [H2 Ha2]. split; [by econstructor|congruence].
Qed.
Lemma optional_step_spec (wanted : bool) (Q : Prop) (op : Client → Client * res ()) (frame : Z → bytes) c : (wanted = true ↔ Q) →
  match op c with (c', Ok _) => acked c c' frame | (c', Err _) => wrote_at_most c c' frame end →
  let '(c', r) := optional_step wanted op c in step_run Q frame r c c' ∧ address c' = address c.
Proof.
  intros HQ Hop. unfold optional_step. destruct wanted; [|split; [split; [intros Hq; by apply HQ in Hq|done]|done]].
  destruct (op c) as [c' [u|e]]; split.
  - split; [by apply HQ|done].
  - by apply acked_address in Hop.
  - split; [by apply HQ|done].
  - apply Hop.
Qed.
Lemma none_failed os : existsb (λ o, negb (set_good o)) os = false ↔ Forall (λ o, set_good o = true) os.
Proof.
  induction os as [|o os IH]; [done|]. cbn [existsb]. rewrite orb_false_iff, IH, negb_false_iff, Forall_cons. done.
Qed.
Lemma none_counted os : count_failed os = 0 ↔ Forall (λ o, set_good o = true) os.
Proof.
  unfold count_failed. induction os as [|o os IH]; [done|]. rewrite Forall_cons, filter_cons, <-IH.
  destruct (decide (set_good o = false)) as [E|E]; [rewrite E; split; [simpl; lia|by intros [? _]]|]. apply not_false_is_true in E. tauto.
Qed.
Definition step_error (r : option (res ())) : Prop := ∃ e, r = Some (Err e).
Lemma step_failed_spec r : step_failed r = true ↔ step_error r.
Proof. unfold step_error. destruct r as [[u|e]|]; cbn; split; (done || by intros [? [=]] || by intros _; exists e). Qed.

(** C37: the tool saves and resets a target only after success.  Whatever the target
    answers, a run first takes the parameters one after another: each is written at
    most once, and an outcome that is not a write error means that the write was sent
    and the next frame from the target accepted as its acknowledgement; with
    verification the parameter is then read, and the outcome tells the value of the
    answer and whether it matches the one written.  Then the target is saved (and the
    save reported as done only if its acknowledgement was accepted) exactly if that was
    asked for and every parameter was written, and verified if asked for; and it is
    reset, likewise, exactly if that was asked for and besides no save has failed.
    Nothing else is sent, and the run counts no failure exactly if every parameter is
    good, no step has failed and closing the connection succeeded. *)
Theorem flash_needs_success (conn : Conn) (close : option error) (addr : Z) (specs : list setSpec) (verify save reset : bool)
    (xs : nat → exchange * exchange) (xsave xreset : exchange) :
  match runTarget (Ok conn) close addr specs verify save reset xs xsave xreset with
  | (None, _) => False
  | (Some c, run) =>
      let good := Forall (λ o, set_good o = true) (tg_outcomes run) in
      (∃ c1 c2, params_run verify specs (tg_outcomes run) (NewClient conn addr) c1 ∧
         step_run (good ∧ save = true) (BuildSaveToFlashFrame addr) (tg_save run) c1 c2 ∧
         step_run (good ∧ ¬ step_error (tg_save run) ∧ reset = true) (BuildResetFrame addr) (tg_reset run) c2 c) ∧
      (tg_failures run = 0 ↔ good ∧ ¬ step_error (tg_save run) ∧ ¬ step_error (tg_reset run) ∧ close = None)
  end.
Proof.
  unfold runTarget. pose proof (set_all_spec verify xs 0 specs (NewClient conn addr)) as Hall.
  destruct (set_all _ _ _ _ _) as [c1 os]. destruct Hall as [Hrun Ha1]. cbn [NewClient address] in Ha1.
  set (bad := existsb _ os). assert (Hbad : negb bad = true ↔ Forall (λ o, set_good o = true) os) by (rewrite negb_true_iff; apply none_failed).
  assert (Hs : negb bad && save = true ↔ Forall (λ o, set_good o = true) os ∧ save = true) by (by rewrite andb_true_iff, Hbad).
  pose proof (optional_step_spec _ _ (SaveToFlash xsave) _ c1 Hs (acknowledged_cases _ _ _)) as Hsave. rewrite Ha1 in Hsave.
  destruct (optional_step _ (SaveToFlash xsave) c1) as [c2 saved]. destruct Hsave as [Hsave Ha2].
  assert (Hr : negb bad && negb (step_failed saved) && reset = true ↔ Forall (λ o, set_good o = true) os ∧ ¬ step_error saved ∧ reset = true).
  { rewrite !andb_true_iff, Hbad, negb_true_iff, <-not_true_iff_false, step_failed_spec. tauto. }
  pose proof (optional_step_spec _ _ (Reset_ xreset) _ c2 Hr (acknowledged_cases _ _ _)) as Hreset. rewrite Ha2 in Hreset.
  destruct (optional_step _ (Reset_ xreset) c2) as [c3 was_reset]. destruct Hreset as [Hreset _].
  cbn [tg_outcomes tg_save tg_reset tg_failures]. cbv zeta. split; [by exists c1, c2|].
  rewrite <-none_counted, <-!step_failed_spec, !not_true_iff_false.
  assert (0 ≤ count_failed os) by (unfold count_failed; lia).
  destruct (step_failed saved), (step_failed was_reset), close; cbn [Z.b2z]; intuition (try done; try lia).
Qed.

(** Two acknowledgements: the parameter is written and the target saved.  With a
    refusal for the first, nothing is saved. *)
Definition bench_conn (answers : list bytes) : Conn := MkConn ((λ b, (Some b, None)) <$> mjoin answers) [].
Definition bench_spec : setSpec := MkSetSpec 2010 1 DataTypeInt32 1 (S754_zero false).
Example one_written_and_saved :
  let header := str "050001" in
  let run answers := (runTarget (Ok (bench_conn answers)) None 5 [bench_spec] false true false (λ _, (quiet, quiet)) quiet quiet).2 in
  run [response header []; response (str "050002") []] = MkTargetRun [Wrote] (Some (Ok ())) None 0 ∧
  tg_save (run [response header (str "-05"); response (str "050002") []]) = None.
Proof. by vm_compute. Qed.

(** Instance 0 passes the parser, and fails when its turn comes to be written. *)
Lemma instance_zero_fails_late ParseFloat32 x c :
  parse_part bench_catalogue ParseFloat32 setKindInt32 (str "2010:0=1") = Ok (MkSetSpec 2010 0 DataTypeInt32 1 (S754_zero false)) ∧
  (writeSetSpec x (MkSetSpec 2010 0 DataTypeInt32 1 (S754_zero false)) c).1 = c ∧
  is_Ok (writeSetSpec x (MkSetSpec 2010 0 DataTypeInt32 1 (S754_zero false)) c).2 = false.
Proof. by split_and!. Qed.
