(* ===== verification/TecCatalogue.v ===== *)
(** * TecCatalogue: the TEC catalogue that ships with the program
      ([mecom/catalogues/tec.json])

    The document as [encoding/json] decodes it, and what the functions of
    [Catalogue.v] and the gateway make of it. *)
From stdpp Require Import prelude gmap strings list.
From Stdlib Require Import Strings.Byte.
From S2P Require Import Prelude Text Floats Protocol PollQueue RingFrames RingReader Readout Catalogue.
Local Open Scope Z_scope.
#[local] Set Warnings "-clear-no-such-hyp".

Local Open Scope string_scope.
Definition tec_readout_parameters : list mecomTECParameter := [
  MkTEC
    1000 "object_temp_c" "ObjectTemp" "object temperature" "degC" "float32" "thermal" "monitor" "test_spot_temperature"
    "Object Temperature" "" ""
    ["catalogues/sources/tec_parameter_overview.v632.json#parameters.1000"; "catalogues/sources/canopen_eds.v632.json#objects.2100"]
    "high" "mecom_crtvstream_ring_buffer" "celsius" [] false "" "Thermal" "Object" [] [] ["temp"] "" None None None ∅ false
    ["mecom_serial"; "mecom_can"; "canopen_sdo"; "canopen_tpdo"]
    (list_to_map [("setpoint", [3000%Z]); ("stable", [1200%Z]); ("cascade_target", [53123%Z]); ("object_external_input", [52200%Z]); ("object_source_selection", [6300%Z])]);
  MkTEC
    1001 "sink_temp_c" "SinkTemp" "sink temperature" "degC" "float32" "thermal" "monitor" "tec_sink_temperature"
    "Sink Temperature" "" ""
    ["catalogues/sources/tec_parameter_overview.v632.json#parameters.1001"; "catalogues/sources/canopen_eds.v632.json#objects.2101"]
    "high" "mecom_crtvstream_ring_buffer" "celsius" [] false "" "Thermal" "Sink" [] [] ["temp"; "supply"] "" None None None ∅
    false ["mecom_serial"; "mecom_can"; "canopen_sdo"; "canopen_tpdo"]
    (list_to_map [("fixed_sink_input", [52201%Z]); ("sink_source_selection", [6304%Z])]);
  MkTEC
    52200 "cascade_temp_c" "CascadeTemp" "cascade temperature" "degC" "float32" "thermal" "monitor" "cascade_temperature"
    "External Object Temperature" "" ""
    ["catalogues/sources/tec_parameter_overview.v632.json#parameters.52200"; "catalogues/sources/canopen_eds.v632.json#objects.4200"; "catalogues/sources/tec_metadata_index.v632.json#pdo_model.external_temperature_bindings.52200"]
    "high" "mecom_crtvstream_ring_buffer" "celsius" ["external_object_temp_c"] true "read_write" "Thermal" "Cascade" [] []
    ["temp"] "write_float32" None None None ∅ true ["mecom_serial"; "mecom_can"; "canopen_sdo"; "canopen_rpdo"]
    (list_to_map [("setpoint", [53123%Z]); ("enable", [53120%Z]); ("selection", [53121%Z]); ("sync", [53122%Z]); ("source_selection", [6300%Z]); ("measured", [1000%Z])]);
  MkTEC
    52201 "fixed_sink_temp_c" "FixedSinkTemp" "fixed sink temperature" "degC" "float32" "thermal" "monitor"
    "fixed_sink_temperature" "Fixed Sink Temperature" "" ""
    ["catalogues/sources/tec_parameter_overview.v632.json#parameters.52201"; "catalogues/sources/canopen_eds.v632.json#objects.4201"; "catalogues/sources/tec_metadata_index.v632.json#pdo_model.external_temperature_bindings.52201"]
    "high" "mecom_crtvstream_ring_buffer" "celsius" [] true "read_write" "Thermal" "Sink" [] [] ["temp"] "write_float32" None
    None (Some "25") ∅ true ["mecom_serial"; "mecom_can"; "canopen_sdo"; "canopen_rpdo"]
    (list_to_map [("source_selection", [6304%Z]); ("measured", [1001%Z])]);
  MkTEC
    3000 "target_object_temp_c" "TargetObjectTemp" "target object temperature" "degC" "float32" "thermal" "monitor"
    "target_object_temperature" "Target Object Temperature" "" "" [] "high" "mecom_crtvstream_ring_buffer" "celsius" [] true
    "" "Control" "Temperature setpoint" [] [] ["temp"] "write_float32" (Some (of_int (-40))) (Some (of_int 150)) None ∅ false
    [] (list_to_map [("measured", [1000%Z]); ("stable", [1200%Z]); ("cascade_target", [53123%Z])]);
  MkTEC
    1011 "ramp_object_temp_c" "RampObjectTemp" "ramp object temperature" "degC" "float32" "thermal" "monitor"
    "ramp_object_temperature" "Ramp Object Temperature" "" "" [] "high" "mecom_crtvstream_ring_buffer" "celsius" [] false ""
    "Thermal" "Ramp" [] [] ["temp"] "" None None None ∅ false [] ∅;
  MkTEC
    1020 "output_current_a" "OutputCurrent" "output current" "A" "float32" "electrical" "monitor" "drive_current"
    "Actual Output Current" "" "" [] "high" "mecom_crtvstream_ring_buffer" "ampere" [] false "" "Power" "Output" [] []
    ["temp"; "supply"] "" None None None ∅ false []
    (list_to_map [("command", [2020%Z]); ("limit", [2030%Z]); ("error_threshold", [2032%Z]); ("enable", [2010%Z]); ("mode", [2040%Z]); ("power", [1022%Z])]);
  MkTEC
    1021 "output_voltage_v" "OutputVoltage" "output voltage" "V" "float32" "electrical" "monitor" "drive_voltage"
    "Actual Output Voltage" "" "" [] "high" "mecom_crtvstream_ring_buffer" "voltage" [] false "" "Power" "Output" [] []
    ["temp"; "supply"] "" None None None ∅ false []
    (list_to_map [("command", [2021%Z]); ("limit", [2031%Z]); ("error_threshold", [2033%Z]); ("enable", [2010%Z]); ("mode", [2040%Z]); ("power", [1022%Z])]);
  MkTEC
    1022 "output_power_w" "OutputPower" "output power" "W" "float32" "power" "monitor" "drive_power" "Actual Output Power" ""
    "" [] "high" "mecom_crtvstream_ring_buffer" "watt" [] false "" "Power" "Output" [] [] ["temp"; "supply"] "" None None
    None ∅ false []
    (list_to_map [("source", [1020%Z; 1021%Z]); ("command", [2020%Z; 2021%Z]); ("limit", [2030%Z; 2031%Z]); ("enable", [2010%Z]); ("mode", [2040%Z])]);
  MkTEC
    40000 "output_stage_temp_c" "OutputStageTemp" "output stage temperature" "degC" "float32" "thermal" "monitor"
    "output_stage_temperature" "Output Stage Temperature" "" "" [] "high" "mecom_crtvstream_ring_buffer" "celsius"
    ["stage_temp_c"] false "" "Thermal" "Output stage" ["Thermal"; "Output stage"; "Output Stage Temperature"]
    [MkTreePath "operator" "Operator" ["Thermal"; "Output stage"; "Output Stage Temperature"] true; MkTreePath "protocol" "MeCom protocol" ["Readout"; "Parameter 40000"; "OutputStageTemp"] false; MkTreePath "graph" "Graph wall" ["Temperature"; "Output stage"; "Output Stage Temperature"] false]
    ["temp"; "supply"] "" None None None ∅ false ["mecom_serial"; "mecom_tcp"] ∅;
  MkTEC
    1200 "temperature_stable" "TemperatureStable" "temperature stable" "" "int32" "thermal" "monitor" "temperature_stable"
    "Temperature is Stable" "" "" [] "background" "mecom_vx_round_robin_queue" "" [] false "" "Status" "Stability" [] [] []
    "" None None None (list_to_map [("0", "Drifting"); ("1", "Stable")]) false [] ∅;
  MkTEC
    2036 "measured_resistance_ohm" "MeasuredResistance" "third-party measured resistance" "Ohm" "float32" "electrical"
    "monitor" "third_party_measured_resistance" "Third-Party Measured Resistance" "" "" [] "high" "" "resistance" [] false ""
    "Power" "Output" [] [] ["temp"; "supply"] "" None None None ∅ false [] (list_to_map [("setpoint", [2035%Z])]);
  MkTEC
    2038 "power_control_status" "PowerControlStatus" "third-party power control status" "" "float32" "electrical" "monitor"
    "third_party_power_control_status" "Third-Party Power Control Status" "" "" [] "high" "" "" [] false "" "Power" "Output"
    [] [] ["temp"; "supply"] "" None None None ∅ false [] ∅].
Definition tec_write_parameters : list mecomTECParameter := [
  MkTEC
    120 "user_notes" "UserNotes" "user notes" "" "latin1" "control" "control" "controller_user_note" "User Notes" "" "" [] ""
    "" "" [] true "" "Metadata" "Identity" [] [] ["temp"; "supply"] "write_big_data_string" None None None ∅ true
    ["mecom_serial"; "mecom_tcp"] ∅;
  MkTEC
    3000 "target_object_temp_c" "TargetObjectTemp" "target object temperature" "degC" "float32" "control" "control"
    "target_object_temperature" "Target Object Temperature" "" "" [] "" "" "" [] true "" "Control" "Temperature setpoint" []
    [] ["temp"] "write_float32" (Some (of_int (-40))) (Some (of_int 150)) None ∅ false []
    (list_to_map [("measured", [1000%Z]); ("stable", [1200%Z]); ("cascade_target", [53123%Z])]);
  MkTEC
    2010 "output_stage_enable" "OutputStageEnable" "output stage enable" "" "int32" "control" "control" "output_stage_enable"
    "Output Stage Enable" "" "" [] "" "" "" [] true "" "Control" "Stage" [] [] ["temp"; "supply"] "write_int32" None None
    None (list_to_map [("0", "Static OFF"); ("1", "Static ON"); ("2", "Live OFF"); ("3", "Hardware control")]) true []
    (list_to_map [("measured", [1020%Z; 1021%Z; 1022%Z; 40000%Z]); ("mode", [2040%Z]); ("command", [2020%Z; 2021%Z; 2030%Z; 2031%Z])]);
  MkTEC
    2020 "fixed_output_current_a" "FixedOutputCurrent" "fixed output current" "A" "float32" "control" "control"
    "fixed_output_current" "Fixed Output Current" "" "" [] "" "" "" [] true "" "Control" "Output stage" [] []
    ["temp"; "supply"] "write_float32" (Some (of_int 0)) (Some (of_int 20)) None ∅ false []
    (list_to_map [("measured", [1020%Z]); ("limit", [2030%Z]); ("enable", [2010%Z]); ("mode", [2040%Z]); ("power", [1022%Z])]);
  MkTEC
    2021 "fixed_output_voltage_v" "FixedOutputVoltage" "fixed output voltage" "V" "float32" "control" "control"
    "fixed_output_voltage" "Fixed Output Voltage" "" "" [] "" "" "" [] true "" "Control" "Output stage" [] []
    ["temp"; "supply"] "write_float32" (Some (of_int 0)) (Some (of_int 60)) None ∅ false []
    (list_to_map [("measured", [1021%Z]); ("limit", [2031%Z]); ("enable", [2010%Z]); ("mode", [2040%Z]); ("power", [1022%Z])]);
  MkTEC
    2030 "output_current_limit_a" "OutputCurrentLimitation" "output current limitation" "A" "float32" "control" "control"
    "output_current_limit" "Output Current Limitation" "" "" [] "" "" "" [] true "" "Control" "Output limits" [] []
    ["temp"; "supply"] "write_float32" (Some (of_int 0)) (Some (of_int 20)) None ∅ false []
    (list_to_map [("measured", [1020%Z]); ("command", [2020%Z]); ("enable", [2010%Z]); ("mode", [2040%Z]); ("power", [1022%Z])]);
  MkTEC
    2031 "output_voltage_limit_v" "OutputVoltageLimitation" "output voltage limitation" "V" "float32" "control" "control"
    "output_voltage_limit" "Output Voltage Limitation" "" "" [] "" "" "" [] true "" "Control" "Output limits" [] []
    ["temp"; "supply"] "write_float32" (Some (of_int 0)) (Some (of_int 60)) None ∅ false []
    (list_to_map [("measured", [1021%Z]); ("command", [2021%Z]); ("enable", [2010%Z]); ("mode", [2040%Z]); ("power", [1022%Z])]);
  MkTEC
    2032 "output_current_error_threshold_a" "OutputCurrentErrorThreshold" "output current error threshold" "A" "float32"
    "control" "control" "output_current_error_threshold" "Output Current Error Threshold" "" "" [] "" "" "" [] true ""
    "Control" "Output limits" [] [] ["temp"; "supply"] "write_float32" (Some (of_int 0)) (Some (of_int 20)) None ∅ false []
    (list_to_map [("measured", [1020%Z]); ("limit", [2030%Z])]);
  MkTEC
    2033 "output_voltage_error_threshold_v" "OutputVoltageErrorThreshold" "output voltage error threshold" "V" "float32"
    "control" "control" "output_voltage_error_threshold" "Output Voltage Error Threshold" "" "" [] "" "" "" [] true ""
    "Control" "Output limits" [] [] ["temp"; "supply"] "write_float32" (Some (of_int 0)) (Some (of_int 60)) None ∅ false []
    (list_to_map [("measured", [1021%Z]); ("limit", [2031%Z])]);
  MkTEC
    2040 "operating_mode" "OperatingMode" "operating mode" "" "int32" "control" "control" "operating_mode" "Operating Mode"
    "" "" [] "" "" "" [] true "" "Control" "Mode" [] [] ["temp"; "supply"] "write_int32" None None None
    (list_to_map [("0", "Off"); ("1", "TEC closed-loop"); ("2", "Power supply constant voltage"); ("3", "Power supply constant current")])
    true []
    (list_to_map [("measured", [1020%Z; 1021%Z; 1022%Z]); ("command", [2020%Z; 2021%Z; 2030%Z; 2031%Z]); ("enable", [2010%Z])]);
  MkTEC
    52200 "external_object_temp_c" "ExternalObjectTemp" "external object temperature" "degC" "float32" "control" "control"
    "external_object_temperature_input" "External Object Temperature" "" ""
    ["catalogues/sources/tec_parameter_overview.v632.json#parameters.52200"; "catalogues/sources/canopen_eds.v632.json#objects.4200"; "catalogues/sources/tec_metadata_index.v632.json#pdo_model.external_temperature_bindings.52200"]
    "" "" "" [] true "read_write" "Control" "Temperature source" [] [] ["temp"] "write_float32" None None None ∅ true
    ["mecom_serial"; "mecom_can"; "canopen_sdo"; "canopen_rpdo"]
    (list_to_map [("source_selection", [6300%Z]); ("measured", [1000%Z])]);
  MkTEC
    52201 "fixed_sink_temp_c" "FixedSinkTemp" "fixed sink temperature" "degC" "float32" "control" "control"
    "fixed_sink_temperature_input" "Fixed Sink Temperature" "" ""
    ["catalogues/sources/tec_parameter_overview.v632.json#parameters.52201"; "catalogues/sources/canopen_eds.v632.json#objects.4201"; "catalogues/sources/tec_metadata_index.v632.json#pdo_model.external_temperature_bindings.52201"]
    "" "" "" [] true "read_write" "Control" "Temperature source" [] [] ["temp"] "write_float32" None None (Some "25") ∅ true
    ["mecom_serial"; "mecom_can"; "canopen_sdo"; "canopen_rpdo"]
    (list_to_map [("source_selection", [6304%Z]); ("measured", [1001%Z])]);
  MkTEC
    6300 "object_temperature_source_selection" "ObjectTemperatureSourceSelection" "object temperature source selection" ""
    "int32" "control" "control" "object_temperature_source_selection" "Object Temperature Source Selection" "" ""
    ["catalogues/sources/tec_parameter_overview.v632.json#parameters.6300"; "catalogues/sources/canopen_eds.v632.json#objects.3300"; "catalogues/sources/pdf_extracted_metadata.json#parameters.6300"]
    "" "" "" [] true "read_write" "Control" "Temperature source" [] [] ["temp"] "write_int32" None None (Some "HR 1")
    (list_to_map [("0", "HR 1"); ("1", "HR 2"); ("2", "LR 1"); ("3", "LR 2"); ("4", "LR 3"); ("5", "LR 4"); ("6", "Device"); ("7", "External (From ID 52200)"); ("8", "Estimator 1"); ("9", "Estimator 2")])
    true ["mecom_serial"; "mecom_can"; "canopen_sdo"] (list_to_map [("external_value", [52200%Z]); ("measured", [1000%Z])]);
  MkTEC
    6304 "sink_temperature_source_selection" "SinkTemperatureSourceSelection" "sink temperature source selection" "" "int32"
    "control" "control" "sink_temperature_source_selection" "Sink Temperature Source Selection" "" ""
    ["catalogues/sources/tec_parameter_overview.v632.json#parameters.6304"; "catalogues/sources/canopen_eds.v632.json#objects.3304"; "catalogues/sources/pdf_extracted_metadata.json#parameters.6304"]
    "" "" "" [] true "read_write" "Control" "Temperature source" [] [] ["temp"] "write_int32" None None (Some "Fixed")
    (list_to_map [("0", "HR 1"); ("1", "HR 2"); ("2", "LR 1"); ("3", "LR 2"); ("4", "LR 3"); ("5", "LR 4"); ("6", "Device"); ("7", "Fixed (From ID 52201)")])
    true ["mecom_serial"; "mecom_can"; "canopen_sdo"] (list_to_map [("fixed_value", [52201%Z]); ("measured", [1001%Z])]);
  MkTEC
    53120 "cascade_enable" "CascadeEnable" "cascade enable" "" "int32" "control" "control" "cascade_enable"
    "Cascade Temperature Enable" "" "" [] "" "" "" [] true "" "Control" "Cascade" [] [] ["temp"] "write_int32" None None None
    (list_to_map [("0", "Off"); ("1", "On")]) true []
    (list_to_map [("measured", [52200%Z]); ("setpoint", [53123%Z]); ("selection", [53121%Z]); ("sync", [53122%Z]); ("control_loop_target", [3000%Z])]);
  MkTEC
    53121 "cascade_temp_selection" "CascadeTemperatureSelection" "cascade temperature selection" "" "int32" "control"
    "control" "cascade_temperature_selection" "Cascade Temperature Selection" "" "" [] "" "" "" [] true "" "Control"
    "Cascade" [] [] ["temp"] "write_int32" None None None (list_to_map [("0", "Object"); ("1", "Sink"); ("2", "External")])
    false [] (list_to_map [("measured", [52200%Z]); ("enable", [53120%Z]); ("setpoint", [53123%Z])]);
  MkTEC
    53122 "cascade_sync_channel" "CascadeSyncRunWithChannel" "cascade sync run-with channel" "" "int32" "control" "control"
    "cascade_sync_run_with_channel" "Cascade Sync Run With Channel" "" "" [] "" "" "" [] true "" "Control" "Cascade" [] []
    ["temp"] "write_int32" (Some (of_int 0)) (Some (of_int 4)) None ∅ false []
    (list_to_map [("measured", [52200%Z]); ("enable", [53120%Z]); ("setpoint", [53123%Z])]);
  MkTEC
    53123 "cascade_target_temp_c" "CascadeTargetTemperature" "cascade target temperature" "degC" "float32" "control"
    "control" "cascade_target_temperature" "Cascade Target Temperature" "" "" [] "" "" "" [] true "" "Control" "Cascade" []
    [] ["temp"] "write_float32" (Some (of_int (-40))) (Some (of_int 150)) None ∅ false []
    (list_to_map [("measured", [52200%Z]); ("enable", [53120%Z]); ("selection", [53121%Z]); ("control_loop_target", [3000%Z])]);
  MkTEC
    2035 "power_control_target_w" "PowerControlTarget" "third-party power control target" "W" "float32" "control" "control"
    "third_party_power_control_target" "Third-Party Power Control Target" "" "" [] "" "" "" [] true "" "Control"
    "Output limits" [] [] ["temp"; "supply"] "write_float32" (Some (of_int 0)) (Some (of_int 500)) None ∅ false []
    (list_to_map [("measured", [1022%Z]); ("voltage", [1021%Z]); ("current", [1020%Z]); ("resistance", [2036%Z])])].
Definition tec_derived_parameters : list mecomTECDerivedParameter := [
  MkDerived
    "electrical_input_w" "ElectricalInput" "electrical input" "electrical_input_power" "1020,1021" "Power" "Derived" [] [];
  MkDerived
    "heat_pumped_from_item_w" "HeatPumpedFromItem" "heat pumped from item" "heat_pumped_from_item" "1000,1001,1020,1021"
    "Power" "Derived" [] [];
  MkDerived
    "resistive_heat_w" "ResistiveHeat" "resistive heat" "resistive_heat" "1020,1021" "Power" "Derived" [] [];
  MkDerived
    "hot_side_dissipated_w" "HotSideDissipated" "hot-side dissipated heat" "hot_side_dissipated_heat" "1000,1001,1020,1021"
    "Power" "Derived" [] []].
Definition tec_json : tecCatalogueJSON :=
  MkCatalogueJSON "mecom_tec_catalogue.v1" tec_readout_parameters tec_write_parameters tec_derived_parameters.
Local Close Scope string_scope.

(** The program starts: the document is accepted as it is. *)
Lemma tec_json_loads : loadTECCatalogueJSON (Some tec_json) = Ok tec_json.
Proof. vm_compute. reflexivity. Qed.
