(* ===== verification/CatalogueLDD.v ===== *)
(** * CatalogueLDD: the catalogue of the LDD-130x ([mecom/catalogue.go])

    The LDD-130x has no list of parameters of its own: its entries come from the
    default configuration and from the labels of its service software, joined by
    key, and get a number from the protocol, from the CANopen index, or from a
    counter.  The three documents are as [encoding/json] decodes them. *)
From stdpp Require Import prelude gmap strings list sorting.
From Stdlib Require Import Strings.Byte.
From S2P Require Import Prelude Text Floats Protocol PollQueue RingReader Readout Endpoint SdoMap WriteLease Catalogue GraphText.
Local Open Scope Z_scope.
#[local] Set Warnings "-clear-no-such-hyp".

(** ** Documents *)
Record ldd130xDefaultParam := MkLddParam {
  lp_Key : string; lp_LabelKey : string; lp_Group : string; lp_Visibility : string; lp_DefaultValueText : string;
  lp_ValueKind : string; lp_SafetyNote : string; lp_SourceEvidence : list string }.
Definition no_param_130x : ldd130xDefaultParam := MkLddParam "" "" "" "" "" "" "" [].
Record ldd130xUIContext := MkLddContext {
  lc_Key : string; lc_LabelKey : string; lc_PrimaryDisplayCandidate : string; lc_ContextStack : list string;
  lc_SourceEvidence : list string; lc_ProtocolStatus : string; lc_ProtocolIDs : list string; lc_CANopenIndices : list string }.
Definition no_context_130x : ldd130xUIContext := MkLddContext "" "" "" [] [] "" [] [].
Record ldd130xCrossCheck := MkCrossCheck {
  xc_ID : string; xc_Status : string; xc_Summary : string; xc_SourceEvidence : list string; xc_DefaultKey : string;
  xc_UIKey : string; xc_ProtocolName : string }.
Definition no_check : ldd130xCrossCheck := MkCrossCheck "" "" "" [] "" "" "".
Record ldd130xDefaultConfigSource := MkLddConfig {
  ld_SchemaVersion : string; ld_DefinitionRef : string; ld_Parameters : gmap string ldd130xDefaultParam }.
Record ldd130xUIMetadataSource := MkLddMetadata {
  lm_SchemaVersion : string; lm_DefinitionRef : string; lm_ResourceStringEncoding : string; lm_StringsOutputEncoding : string;
  lm_ParameterContexts : gmap string ldd130xUIContext }.
Record ldd130xMetadataIndexSource := MkLddIndex {
  li_SchemaVersion : string; li_DefinitionRef : string; li_SafetyPolicy : string; li_Checks : list ldd130xCrossCheck }.

Definition loadLDD130xConfigJSON (raw : option ldd130xDefaultConfigSource) : res ldd130xDefaultConfigSource :=
  match raw with
  | None => Err (catalogue_error "json")
  | Some source =>
      if bool_decide (ld_SchemaVersion source = ""%string) then Err (catalogue_error "missing LDD default config schema_version")
      else if bool_decide (ld_DefinitionRef source = ""%string) then Err (catalogue_error "missing LDD default config definition_ref")
      else if is_empty_map (ld_Parameters source) then Err (catalogue_error "LDD default config parameters must not be empty")
      else Ok source
  end.
Definition loadLDD130xUIMetadataJSON (raw : option ldd130xUIMetadataSource) : res ldd130xUIMetadataSource :=
  match raw with
  | None => Err (catalogue_error "json")
  | Some source =>
      if bool_decide (lm_SchemaVersion source = ""%string) then Err (catalogue_error "missing LDD UI metadata schema_version")
      else if bool_decide (lm_DefinitionRef source = ""%string) then Err (catalogue_error "missing LDD UI metadata definition_ref")
      else if is_empty_map (lm_ParameterContexts source) then Err (catalogue_error "LDD UI parameter_contexts must not be empty")
      else Ok source
  end.
Definition loadLDD130xMetadataIndexJSON (raw : option ldd130xMetadataIndexSource) : res ldd130xMetadataIndexSource :=
  match raw with
  | None => Err (catalogue_error "json")
  | Some source =>
      if bool_decide (li_SchemaVersion source = ""%string) then Err (catalogue_error "missing LDD metadata index schema_version")
      else if bool_decide (li_DefinitionRef source = ""%string) then Err (catalogue_error "missing LDD metadata index definition_ref")
      else Ok source
  end.

(** ** Texts *)
Definition firstString (values : list string) : string :=
  default ""%string (List.find (λ v, negb (bool_decide (v = ""%string))) (trim <$> values)).
Definition ldd130xUnit (label : string) : string :=
  match last_index "["%byte (str label), last_index "]"%byte (str label) with
  | Some start, Some end_ =>
      if (end_ <=? start)%nat then ""
      else
        let unit := TrimSpace (slice (str label) (start + 1) end_) in
        if bool_decide (unit = [xc2; xb0; "C"%byte]) then "degC" else to_str unit
  | _, _ => ""
  end.
Definition title_word (word : bytes) : bytes := ToUpper (take 1 word) ++ drop 1 word.
Definition titleFromKey (value : string) : string :=
  to_str (JoinText (str " ") (title_word <$> Fields (ToLower (str (ReplaceChar "_"%byte " "%byte value))))).
Definition ldd130xCANopenHexList (values : list string) : list string :=
  omap (λ value,
    let value := TrimSpace (ToUpper (str value)) in
    if bool_decide (value = []) then None else Some ("0x" +:+ to_str (TrimPrefix value (str "0X")))%string) values.

Definition ldd130xContextFromDefault (key : string) (param : ldd130xDefaultParam) : ldd130xUIContext :=
  let label := or_default (trim (lp_Key param)) key in
  MkLddContext key (lp_LabelKey param) (titleFromKey label) (compactStrings ["Default Config"; lp_Group param]%string)
    (lp_SourceEvidence param) "default_config_only" [] [].
Definition ldd130xDefaultLabelKey (param : option ldd130xDefaultParam) : string :=
  match param with None => "" | Some p => lp_LabelKey p end.
Definition ldd130xValueType (param : option ldd130xDefaultParam) (ctx : ldd130xUIContext) : string :=
  let kind := match param with Some p => lower (trim (lp_ValueKind p)) | None => ""%string end in
  let one_of l := bool_decide (kind ∈ l) in
  if one_of ["integer"; "bool"; "boolean"]%string then "int32"
  else if one_of ["number"; "float"]%string then "float32"
  else if one_of ["text"]%string then "string"
  else if bool_decide (ldd130xUnit (lc_PrimaryDisplayCandidate ctx) = ""%string) then "string" else "float32".
Definition service_software_only (ctx : ldd130xUIContext) : bool := bool_decide (lc_ProtocolStatus ctx = "service_software_only"%string).
Definition ldd130xRole (param : option ldd130xDefaultParam) (ctx : ldd130xUIContext) : string :=
  if service_software_only ctx then "metadata"
  else match param with
       | Some p => if bool_decide (lp_Visibility p = "operator"%string) then "control" else "monitor"
       | None => "monitor"
       end.
Definition ldd130xKind (param : option ldd130xDefaultParam) (ctx : ldd130xUIContext) : string :=
  if service_software_only ctx || bool_decide (ldd130xValueType param ctx = "string"%string) then "metadata" else "continuous".
Definition ldd130xVisibility (param : option ldd130xDefaultParam) : string :=
  match param with
  | Some p => if bool_decide (trim (lp_Visibility p) = ""%string) then "advanced" else lp_Visibility p
  | None => "advanced"
  end.
Definition ldd130xDefaultValue (param : option ldd130xDefaultParam) : option string :=
  match param with
  | Some p => if bool_decide (trim (lp_DefaultValueText p) = ""%string) then None else Some (lp_DefaultValueText p)
  | None => None
  end.
Definition ldd130xApplicableModes (ctx : ldd130xUIContext) : list string :=
  if service_software_only ctx then ["metadata"%string] else ["ldd"%string].
Definition appendLDDEvidence (param : option ldd130xDefaultParam) (ctx : ldd130xUIContext) (check : ldd130xCrossCheck) : list string :=
  compactStrings (match param with Some p => lp_SourceEvidence p | None => [] end ++ lc_SourceEvidence ctx ++ xc_SourceEvidence check).

(** ** Numbers *)
(** [strconv.ParseInt(s, 16, 64)]. *)
Definition ParseInt16 (l : bytes) : option Z :=
  let magnitude l := match ParseUint l 16 64 with Ok v => Some v | Err _ => None end in
  match l with
  | "-"%byte :: l => v ← magnitude l; if 2 ^ 63 <? v then None else Some (- v)
  | "+"%byte :: l => v ← magnitude l; if 2 ^ 63 <=? v then None else Some v
  | _ => v ← magnitude l; if 2 ^ 63 <=? v then None else Some v
  end.
Definition hex_index (raw : string) : option Z :=
  ParseInt16 (TrimPrefix (TrimPrefix (TrimSpace (str raw)) (str "0x")) (str "0X")).
(** The first positive number that is not taken. *)
Definition first_free (used : gset Z) (numbers : list (option Z)) : option Z :=
  List.find (λ id, (0 <? id) && negb (bool_decide (id ∈ used))) (omap id numbers).
(** The loop over the counter; the numbers in use are fuel enough. *)
Fixpoint synthetic_id (fuel : nat) (used : gset Z) (synthetic : Z) : option (Z * Z) :=
  match fuel with
  | O => None
  | S fuel => if bool_decide (synthetic ∈ used) then synthetic_id fuel used (synthetic + 1) else Some (synthetic, synthetic + 1)
  end.
(** The number, the numbers in use and the counter. *)
Definition ldd130xCatalogueID (ctx : ldd130xUIContext) (used : gset Z) (synthetic : Z) : option (Z * gset Z * Z) :=
  match first_free used ((λ raw, Atoi (TrimSpace (str raw))) <$> lc_ProtocolIDs ctx) with
  | Some id => Some (id, {[id]} ∪ used, synthetic)
  | None =>
      match first_free used (hex_index <$> lc_CANopenIndices ctx) with
      | Some id => Some (id, {[id]} ∪ used, synthetic)
      | None => '(id, synthetic) ← synthetic_id (S (size used)) used synthetic; Some (id, {[id]} ∪ used, synthetic)
      end
  end.

(** ** Entries *)
Section entries.
Context (defaultLDD130xConfig : ldd130xDefaultConfigSource) (defaultLDD130xUIMetadata : ldd130xUIMetadataSource)
  (defaultLDD130xMetadataIndex : ldd130xMetadataIndexSource).
Context (defaultTECCatalogue : tecCatalogueJSON) (Marshal_paths : list TECCatalogueTreePath → string).

Definition ldd130xCrossCheckByKey (key : string) : ldd130xCrossCheck :=
  default no_check (List.find (λ c, bool_decide (xc_DefaultKey c = key) || bool_decide (xc_UIKey c = key)) (li_Checks defaultLDD130xMetadataIndex)).
Definition ldd130xCrossCheckByID (id : string) : ldd130xCrossCheck :=
  default no_check (List.find (λ c, bool_decide (xc_ID c = id)) (li_Checks defaultLDD130xMetadataIndex)).
Definition ldd130xSafetyNote (param : option ldd130xDefaultParam) (ctx : ldd130xUIContext) : string :=
  let software := if service_software_only ctx then li_SafetyPolicy defaultLDD130xMetadataIndex else ""%string in
  match param with
  | Some p => if bool_decide (trim (lp_SafetyNote p) = ""%string) then software else lp_SafetyNote p
  | None => software
  end.
Definition ldd130xHelp (label : string) (ctx : ldd130xUIContext) (param : option ldd130xDefaultParam) (check : ldd130xCrossCheck) : string :=
  let ids :=
    (if bool_decide (lc_ProtocolIDs ctx = []) then [] else ["MeCom " +:+ String.concat ", " (lc_ProtocolIDs ctx)]%string) ++
    (if bool_decide (lc_CANopenIndices ctx = []) then []
     else ["CANopen " +:+ String.concat ", " (ldd130xCANopenHexList (lc_CANopenIndices ctx))]%string) in
  let text s := if bool_decide (s = ""%string) then [] else [s] in
  String.concat " "
    (text label ++
     (if bool_decide (lc_ContextStack ctx = []) then []
      else ["Context: " +:+ String.concat " / " (compactStrings (lc_ContextStack ctx))]%string) ++
     (if bool_decide (lc_ProtocolStatus ctx = ""%string) then [] else ["Protocol status: " +:+ lc_ProtocolStatus ctx]%string) ++
     (if bool_decide (ids = []) then [] else [String.concat "; " ids]) ++
     text (xc_Summary check) ++ text (ldd130xSafetyNote param ctx)).

Definition add_check (check : ldd130xCrossCheck) (metadata : gmap string string) : gmap string string :=
  if bool_decide (xc_ID check = ""%string) then metadata
  else <["documentation_cross_check_status"%string := xc_Status check]> (<["documentation_cross_check"%string := xc_ID check]> metadata).
Definition ldd130xCatalogueEntryFromContext (instance id : Z) (key : string) (ctx : ldd130xUIContext)
    (defaultParam : option ldd130xDefaultParam) : TECCatalogueEntry :=
  let label := first_non_empty [lc_PrimaryDisplayCandidate ctx; titleFromKey key] in
  let status := first_non_empty [lc_ProtocolStatus ctx; "software_label"%string] in
  let check := ldd130xCrossCheckByKey key in
  let help := ldd130xHelp label ctx defaultParam check in
  let treePath := compactStrings ((["Meerstetter"; "LDD"; "LDD-130x"]%string ++ lc_ContextStack ctx) ++ [label]) in
  let treePaths :=
    [MkTreePath "ldd-130x-ui" "LDD-130x" treePath true;
     MkTreePath "protocol" "LDD protocol"
       (compactStrings ["LDD protocol"%string; first_non_empty [firstString (lc_ProtocolIDs ctx); "software metadata"%string]; label]) false] in
  let metadata : gmap string string := list_to_map
    [("ldd_key", key); ("label_key", first_non_empty [lc_LabelKey ctx; ldd130xDefaultLabelKey defaultParam]);
     ("protocol_status", status); ("source_text_encoding", lm_StringsOutputEncoding defaultLDD130xUIMetadata);
     ("resource_string_encoding", lm_ResourceStringEncoding defaultLDD130xUIMetadata); ("preferred_readout", "definition_catalogue");
     ("readout_priority", "metadata")]%string in
  let metadata := addMeComDefinitionMetadata defaultTECCatalogue DefaultLDD130xCatalogueDefinition metadata in
  let metadata := add_json "protocol_ids" (String.concat ",") (bool_decide (lc_ProtocolIDs ctx = [])) (lc_ProtocolIDs ctx) metadata in
  let metadata := add_json "canopen_indices" (String.concat ",") (bool_decide (lc_CANopenIndices ctx = []))
                    (ldd130xCANopenHexList (lc_CANopenIndices ctx)) metadata in
  let metadata := add_json "context_stack" (String.concat " / ") (bool_decide (lc_ContextStack ctx = []))
                    (compactStrings (lc_ContextStack ctx)) metadata in
  let metadata := match defaultParam with Some p => add_text "default_value" (lp_DefaultValueText p) metadata | None => metadata end in
  let metadata := <["tree_paths"%string := Marshal_paths treePaths]> (add_check check metadata) in
  MkEntry id instance label key (ldd130xUnit label) (ldd130xValueType defaultParam ctx) (ldd130xRole defaultParam ctx) "LDD-130x"
    (first_non_empty [firstString (lc_ContextStack ctx); "Definition metadata"%string]) "auxiliary" (ldd130xKind defaultParam ctx) "metadata"
    (lower (ReplaceChar "_"%byte "."%byte key)) key help (ldd130xVisibility defaultParam) (ldd130xSafetyNote defaultParam ctx) status
    (appendLDDEvidence defaultParam ctx check) "metadata" "definition_catalogue" "" (ldd130xApplicableModes ctx) None None
    (ldd130xDefaultValue defaultParam) ∅ false ["mecom_serial"; "mecom_can"; "canopen"]%string ∅ treePath treePaths metadata.
Definition ldd130xFeatureKeyStoreEntry (check : ldd130xCrossCheck) : TECCatalogueEntry :=
  let metadata : gmap string string := list_to_map
    [("protocol_status", "protocol_documented"); ("documentation_cross_check", xc_ID check);
     ("documentation_cross_check_status", xc_Status check); ("source_text_encoding", lm_StringsOutputEncoding defaultLDD130xUIMetadata);
     ("resource_string_encoding", lm_ResourceStringEncoding defaultLDD130xUIMetadata); ("preferred_readout", "definition_catalogue");
     ("readout_priority", "metadata")]%string in
  let path := ["Meerstetter"; "LDD"; "LDD-130x"; "Feature Licenses"; "Feature Key Store"]%string in
  MkEntry 54000 1 (first_non_empty [xc_ProtocolName check; "Feature Key Store"%string]) "FEATURE_KEY_STORE" "" "string" "metadata" "LDD-130x"
    "Feature Licenses" "auxiliary" "metadata" "metadata" "feature.key.store" "FEATURE_KEY_STORE" (xc_Summary check) "advanced" ""
    "protocol_documented" (xc_SourceEvidence check) "metadata" "definition_catalogue" "" ["ldd"%string] None None None ∅ false
    ["mecom_serial"; "mecom_can"; "canopen"]%string ∅ path [MkTreePath "ldd-130x-ui" "LDD-130x" path true]
    (addMeComDefinitionMetadata defaultTECCatalogue DefaultLDD130xCatalogueDefinition metadata).

Definition key_le (a b : string) : Prop := String.leb a b = true.
#[local] Instance key_le_dec a b : Decision (key_le a b).
Proof. unfold key_le. apply _. Defined.
Definition ldd130xCatalogueKeys : list string :=
  merge_sort key_le (elements (dom (ld_Parameters defaultLDD130xConfig) ∪ dom (lm_ParameterContexts defaultLDD130xUIMetadata))).
Definition entry_context (key : string) : ldd130xUIContext :=
  let ctx := default no_context_130x (lm_ParameterContexts defaultLDD130xUIMetadata !! key) in
  if bool_decide (lc_Key ctx = ""%string)
  then ldd130xContextFromDefault key (default no_param_130x (ld_Parameters defaultLDD130xConfig !! key)) else ctx.
(** The loop over the keys; [None] cannot happen ([synthetic_id_some]). *)
Fixpoint ldd_entries (keys : list string) (used : gset Z) (synthetic : Z) : option (list TECCatalogueEntry * gset Z) :=
  match keys with
  | [] => Some ([], used)
  | key :: keys =>
      let ctx := entry_context key in
      '(id, used, synthetic) ← ldd130xCatalogueID ctx used synthetic;
      '(entries, used) ← ldd_entries keys used synthetic;
      Some (ldd130xCatalogueEntryFromContext 1 id key ctx (ld_Parameters defaultLDD130xConfig !! key) :: entries, used)
  end.
Definition entry_less (a b : TECCatalogueEntry) : bool :=
  if negb (bool_decide (ce_Group a = ce_Group b)) then String.ltb (ce_Group a) (ce_Group b)
  else if negb (bool_decide (ce_Subgroup a = ce_Subgroup b)) then String.ltb (ce_Subgroup a) (ce_Subgroup b)
  else if negb (ce_ID a =? ce_ID b) then ce_ID a <? ce_ID b
  else String.ltb (ce_RawName a) (ce_RawName b).
Definition DefaultLDD130xCatalogueEntries : option (list TECCatalogueEntry) :=
  '(out, used) ← ldd_entries ldd130xCatalogueKeys ∅ 930000;
  let feature := ldd130xCrossCheckByID "feature_unlock_license_metadata" in
  let out := if negb (bool_decide (xc_ID feature = ""%string)) && negb (bool_decide (54000 ∈ used))
             then out ++ [ldd130xFeatureKeyStoreEntry feature] else out in
  Some (sort_stable entry_less out).

(** The entries of a definition; only the families that are named have their own. *)
Definition DefaultMeComCatalogueEntries (defaultTECHelpSource : mecomTECHelpSourceJSON)
    (Marshal_counterparts : gmap string (list Z) → string) (d : MeComCatalogueDefinition) (channels : Z) :
    option (list TECCatalogueEntry) :=
  let d := normalizedDefinition defaultTECCatalogue d in
  if bool_decide (df_SubFamily d = MeerstetterSubFamilyLDD) then
    if bool_decide (df_Variant d = MeerstetterVariantLDD130x) || has_text "ldd_130x" (str (df_DefinitionID d))
    then DefaultLDD130xCatalogueEntries else Some []
  else if bool_decide (df_SubFamily d = MeerstetterSubFamilyDAQ) then Some []
  else Some (DefaultTECCatalogueEntries defaultTECCatalogue defaultTECHelpSource Marshal_paths Marshal_counterparts channels).
End entries.

(** ** Every entry has a number of its own *)
Lemma find_first_spec {A} (f : A → bool) l a : List.find f l = Some a → f a = true ∧ a ∈ l.
Proof. intros [Hin Hf]%find_some. split; [done|by apply list_elem_of_In]. Qed.
Lemma first_free_spec used numbers id : first_free used numbers = Some id → 0 < id ∧ id ∉ used.
Proof.
  unfold first_free. intros [[Hpos%Z.ltb_lt Hfree%negb_true_iff%bool_decide_eq_false]%andb_true_iff _]%find_first_spec. done.
Qed.

(** The counter finds a free number: each round that does not passes one of the
    finitely many numbers in use. *)
Definition ahead (used : gset Z) (s : Z) : gset Z := filter (λ z, s ≤ z) used.
Lemma synthetic_id_some fuel used s : (size (ahead used s) < fuel)%nat →
  ∃ id, synthetic_id fuel used s = Some (id, id + 1) ∧ (id ∉ used) ∧ s ≤ id.
Proof.
  revert s. induction fuel as [|fuel IH]; intros s Hf; [lia|]. cbn [synthetic_id]. case_bool_decide as Hs.
  - destruct (IH (s + 1)) as (id & -> & ? & ?); [|exists id; split_and!; [done..|lia]].
    assert (size (ahead used (s + 1)) < size (ahead used s))%nat; [|lia]. apply subset_size. apply strict_spec_alt. split.
    + unfold ahead. intros z. rewrite !elem_of_filter. intros [? ?]. split; [lia|done].
    + intros E. assert (Hin : s ∈ ahead used s) by (unfold ahead; rewrite elem_of_filter; split; [lia|done]).
      rewrite <-E in Hin. unfold ahead in Hin. rewrite elem_of_filter in Hin. lia.
  - exists s. split_and!; [done..|lia].
Qed.
Lemma catalogue_id_spec ctx used syn : 0 < syn →
  ∃ id syn', ldd130xCatalogueID ctx used syn = Some (id, {[id]} ∪ used, syn') ∧ 0 < id ∧ (id ∉ used) ∧ syn ≤ syn'.
Proof.
  intros Hsyn. unfold ldd130xCatalogueID. destruct (first_free used (_ <$> lc_ProtocolIDs ctx)) as [id|] eqn:E1.
  { apply first_free_spec in E1 as [? ?]. by exists id, syn. }
  destruct (first_free used (hex_index <$> lc_CANopenIndices ctx)) as [id|] eqn:E2.
  { apply first_free_spec in E2 as [? ?]. by exists id, syn. }
  destruct (synthetic_id_some (S (size used)) used syn) as (id & -> & Hfree & Hle).
  { pose proof (subseteq_size (ahead used syn) used ltac:(unfold ahead; set_solver)). lia. }
  exists id, (id + 1). split_and!; [done|lia|done|lia].
Qed.

Section ldd_entries.
Context (config : ldd130xDefaultConfigSource) (labels : ldd130xUIMetadataSource) (index : ldd130xMetadataIndexSource).
Context (tec : tecCatalogueJSON) (Marshal_paths : list TECCatalogueTreePath → string).

Lemma ldd_entries_spec keys used syn : 0 < syn →
  ∃ es used', ldd_entries config labels index tec Marshal_paths keys used syn = Some (es, used') ∧
    NoDup (ce_ID <$> es) ∧ Forall (λ e, 0 < ce_ID e ∧ ce_ID e ∉ used) es ∧ used' ≡ used ∪ list_to_set (ce_ID <$> es) ∧
    ce_RawName <$> es = keys.
Proof.
  revert used syn. induction keys as [|key keys IH]; intros used syn Hsyn; cbn [ldd_entries].
  { exists [], used. split_and!; [done|constructor|done|set_solver|done]. }
  destruct (catalogue_id_spec (entry_context config labels key) used syn Hsyn) as (id & syn' & -> & Hid & Hfree & Hle). cbn [mbind option_bind].
  destruct (IH ({[id]} ∪ used) syn' ltac:(lia)) as (es & used' & -> & Hnd & Hall & Hused & Hraw). cbn [mbind option_bind].
  do 2 eexists. split; [done|]. rewrite !fmap_cons. cbn [ce_ID ce_RawName ldd130xCatalogueEntryFromContext]. split_and!.
  - constructor; [|done]. intros (e & -> & He)%list_elem_of_fmap. rewrite Forall_forall in Hall. destruct (Hall e He) as [_ Hn]. set_solver.
  - constructor; [done|]. eapply Forall_impl; [exact Hall|]. intros e [? ?]. split; [done|set_solver].
  - rewrite Hused. set_solver.
  - by rewrite Hraw.
Qed.

Lemma ldd_list_some : ∃ es, DefaultLDD130xCatalogueEntries config labels index tec Marshal_paths = Some es.
Proof.
  unfold DefaultLDD130xCatalogueEntries.
  destruct (ldd_entries_spec (ldd130xCatalogueKeys config labels) ∅ 930000 ltac:(lia)) as (es & used & -> & _).
  cbn [mbind option_bind]. by eexists.
Qed.

(** The order of the entries. *)
Lemma lex_trans (x y z : string) (r1 r2 r3 : Prop) : (r1 → r2 → r3) →
  (if decide (x = y) then r1 else String.le x y) → (if decide (y = z) then r2 else String.le y z) →
  if decide (x = z) then r3 else String.le x z.
Proof.
  intros Hr H1 H2. destruct (decide (x = y)) as [->|Hxy]; [destruct (decide (y = z)); [by apply Hr|done]|].
  destruct (decide (y = z)) as [<-|Hyz]; [by destruct (decide (x = y))|].
  destruct (decide (x = z)) as [->|_]; [by destruct Hxy; apply (anti_symm String.le)|by trans y].
Qed.
Definition entry_le (a b : TECCatalogueEntry) : Prop :=
  if decide (ce_Group a = ce_Group b) then
    if decide (ce_Subgroup a = ce_Subgroup b) then
      if decide (ce_ID a = ce_ID b) then String.le (ce_RawName a) (ce_RawName b) else ce_ID a ≤ ce_ID b
    else String.le (ce_Subgroup a) (ce_Subgroup b)
  else String.le (ce_Group a) (ce_Group b).
Lemma string_less a b : String.ltb b a = false ↔ String.le a b.
Proof. rewrite ltb_leb, negb_false_iff. unfold String.le. by destruct (String.leb a b). Qed.
Lemma entry_less_le a b : not_after entry_less a b ↔ entry_le a b.
Proof.
  unfold not_after, entry_less, entry_le.
  rewrite (bool_decide_ext (ce_Group b = ce_Group a) (ce_Group a = ce_Group b)) by (split; congruence).
  rewrite (bool_decide_ext (ce_Subgroup b = ce_Subgroup a) (ce_Subgroup a = ce_Subgroup b)) by (split; congruence).
  destruct (decide (ce_Group a = ce_Group b)) as [Eg|Ng]; [rewrite (bool_decide_eq_true_2 _ Eg)|rewrite (bool_decide_eq_false_2 _ Ng); apply string_less].
  destruct (decide (ce_Subgroup a = ce_Subgroup b)) as [Es|Ns]; [rewrite (bool_decide_eq_true_2 _ Es)|rewrite (bool_decide_eq_false_2 _ Ns); apply string_less].
  cbn [negb]. destruct (Z.eqb_spec (ce_ID b) (ce_ID a)), (decide (ce_ID a = ce_ID b)); try congruence; cbn [negb]; [apply string_less|].
  rewrite Z.ltb_ge. lia.
Qed.
Lemma entry_le_trans a b c : entry_le a b → entry_le b c → entry_le a c.
Proof.
  unfold entry_le. apply lex_trans. apply lex_trans.
  destruct (decide (ce_ID a = ce_ID b)), (decide (ce_ID b = ce_ID c)), (decide (ce_ID a = ce_ID c)); try lia; try congruence.
  intros ? ?. by trans (ce_RawName b).
Qed.
Lemma entry_le_total a b : entry_le a b ∨ entry_le b a.
Proof.
  unfold entry_le.
  destruct (decide (ce_Group a = ce_Group b)), (decide (ce_Group b = ce_Group a)); try congruence; [|apply (total String.le)].
  destruct (decide (ce_Subgroup a = ce_Subgroup b)), (decide (ce_Subgroup b = ce_Subgroup a)); try congruence; [|apply (total String.le)].
  destruct (decide (ce_ID a = ce_ID b)), (decide (ce_ID b = ce_ID a)); try congruence; [apply (total String.le)|lia].
Qed.

(** C31: the entries of the LDD-130x.  The list is always produced (the counter finds
    a free number); every key of the configuration and of the labels has exactly
    one entry, and besides there is at most the one for the feature keys; all
    numbers are positive and no two entries share one; and the entries are in the
    order of group, subgroup, number and name. *)
Theorem ldd_entries_distinct :
  ∃ es, DefaultLDD130xCatalogueEntries config labels index tec Marshal_paths = Some es ∧
    NoDup (ce_ID <$> es) ∧ Forall (λ e, 0 < ce_ID e) es ∧ StronglySorted entry_le es ∧
    ∃ extra, extra ⊆ ["FEATURE_KEY_STORE"%string] ∧ (length extra ≤ 1)%nat ∧
      ce_RawName <$> es ≡ₚ elements (dom (ld_Parameters config) ∪ dom (lm_ParameterContexts labels)) ++ extra.
Proof.
  unfold DefaultLDD130xCatalogueEntries.
  destruct (ldd_entries_spec (ldd130xCatalogueKeys config labels) ∅ 930000 ltac:(lia)) as (es & used & -> & Hnd & Hall & Hused & Hraw).
  cbn [mbind option_bind]. set (check := ldd130xCrossCheckByID index _).
  set (out := if negb _ && negb _ then es ++ _ else es). eexists. split; [done|].
  assert (Hsorted : StronglySorted entry_le (sort_stable entry_less out)).
  { eapply (StronglySorted_weaken (not_after entry_less)); [|apply sort_stable_sorted].
    - intros a b. apply entry_less_le.
    - intros a b Hab. apply entry_less_le. destruct (entry_le_total a b) as [?|Hba]; [done|]. apply entry_less_le in Hba. unfold not_after in Hba. congruence.
    - intros a b c. rewrite !entry_less_le. apply entry_le_trans. }
  assert (Hkeys : ce_RawName <$> es ≡ₚ elements (dom (ld_Parameters config) ∪ dom (lm_ParameterContexts labels))).
  { rewrite Hraw. apply merge_sort_Permutation. }
  assert (Hpos : Forall (λ e, 0 < ce_ID e) es) by (eapply Forall_impl; [exact Hall|]; by intros e [? _]).
  assert (Hout : NoDup (ce_ID <$> out) ∧ Forall (λ e, 0 < ce_ID e) out ∧ ∃ extra, extra ⊆ ["FEATURE_KEY_STORE"%string] ∧ (length extra ≤ 1)%nat ∧
      ce_RawName <$> out ≡ₚ elements (dom (ld_Parameters config) ∪ dom (lm_ParameterContexts labels)) ++ extra).
  { unfold out. destruct (negb _ && negb _) eqn:Ef.
    - apply andb_true_iff in Ef as [_ Hfree%negb_true_iff%bool_decide_eq_false]. split_and!.
      + rewrite fmap_app. apply NoDup_app. split_and!; [done| |apply NoDup_singleton].
        intros id Hid Hin. apply list_elem_of_singleton in Hin as ->. set_solver.
      + apply Forall_app. split; [done|]. by apply Forall_singleton.
      + exists ["FEATURE_KEY_STORE"%string]. rewrite fmap_app, Hkeys. split_and!; [set_solver|simpl; lia|done].
    - split_and!; [done..|]. exists []. rewrite Hkeys, app_nil_r. split_and!; [set_solver|simpl; lia|done]. }
  destruct Hout as (Hid & Hp & extra & Hsub & Hlen & Hperm). split_and!.
  - by rewrite sort_stable_Permutation.
  - by rewrite sort_stable_Permutation.
  - done.
  - exists extra. by rewrite sort_stable_Permutation.
Qed.
End ldd_entries.
