(* ===== verification/GatewayViews.v ===== *)
(** * GatewayViews: what the gateway tells about itself ([cmd/mecomgw/handlers.go])

    The devices with their routes and channels, the settings, and the catalogue of
    parameters as the browser gets it. *)
From stdpp Require Import prelude gmap strings list sorting.
From Stdlib Require Import Strings.Byte.
From S2P Require Import Prelude Text Floats Endpoint Protocol SdoMap Readout WriteLease Commander GatewayWrite GraphKeys GraphText GatewayConfig GraphTile GatewayHTTP Catalogue TecCatalogue CatalogueLDD.
Local Open Scope Z_scope.
#[local] Set Warnings "-clear-no-such-hyp".

(** ** Routes *)
Record deviceRouteView := MkRouteView {
  rv_Role : bytes; rv_Name : bytes; rv_Endpoint : bytes; rv_Transport : bytes; rv_State : bytes; rv_Active : bool }.
Definition routeTransportFromEndpoint (endpoint : bytes) : bytes :=
  let has p := HasPrefix endpoint (str p) in
  if has "tcp:"%string then str "tcp" else if has "serial:"%string then str "serial"
  else if has "serial+can:"%string then str "serial+can" else if has "can:"%string then str "can"
  else if has "canopen:"%string then str "canopen" else [].
Definition activeState (active : bool) : bytes := if active then str "active" else [].
Definition route_is (endpoint : bytes) (route : RouteConfig) : bool := bool_decide (TrimSpace (rc_Endpoint route) = TrimSpace endpoint).
Definition route_transport (route : RouteConfig) : bytes := firstNonEmpty [rc_Transport route; routeTransportFromEndpoint (rc_Endpoint route)].
Definition activeDeviceRouteView (cfg : DeviceConfig) : deviceRouteView :=
  match List.find (route_is (dc_Endpoint cfg)) (dc_Routes cfg) with
  | Some route => MkRouteView (rc_Role route) (rc_Name route) (rc_Endpoint route) (route_transport route) (str "active") true
  | None => MkRouteView (str "hot") (str "configured") (dc_Endpoint cfg) (routeTransportFromEndpoint (dc_Endpoint cfg)) (str "active") true
  end.
Definition candidate_view (active : deviceRouteView) (route : RouteConfig) : deviceRouteView :=
  let isActive := route_is (rv_Endpoint active) route in
  MkRouteView (rc_Role route) (rc_Name route) (rc_Endpoint route) (route_transport route)
    (firstNonEmpty [activeState isActive; rc_State route]) isActive.
Definition deviceRouteCandidatesView (cfg : DeviceConfig) : list deviceRouteView :=
  let active := activeDeviceRouteView cfg in
  let out := candidate_view active <$> dc_Routes cfg in
  if existsb (route_is (rv_Endpoint active)) (dc_Routes cfg) then out else active :: out.

(** ** Channels *)
Record channelView := MkChannelView {
  cv_Instance : Z; cv_Role : bytes; cv_RoleSource : string; cv_Label : bytes; cv_UserNote : bytes; cv_HasCascade : bool;
  cv_PowerControlEnabled : bool }.
Definition no_channel : ChannelConfig := MkChannelConfig 0 [] [] [] false.
Definition channel_view (cfg : DeviceConfig) (channelCount instance : Z) : option channelView :=
  let ch := deviceChannelConfig cfg instance in
  match ch with
  | Some c => if (ch_Instance c <? 1) || (channelCount <? ch_Instance c) then None else Some ()
  | None => Some ()
  end ≫= λ _,
  let c := default no_channel ch in
  let '(role, source) := effectiveDeviceChannelRole cfg instance in
  Some (MkChannelView instance role source (ch_Label c) (ch_UserNote c) (ch_HasCascade c) (dc_PowerControlEnabled cfg)).
Definition deviceChannelsView (cfg : DeviceConfig) (channelCount : Z) : list channelView :=
  omap (channel_view cfg channelCount) (seqZ 1 channelCount).

(** ** Devices and settings *)
Record deviceView := MkDeviceView {
  dv_ID : string; dv_Label : bytes; dv_Endpoint : bytes; dv_ActiveRoute : deviceRouteView; dv_RouteCandidates : list deviceRouteView;
  dv_Address : Z; dv_ChannelCount : Z; dv_Channels : list channelView; dv_Bound : bool; dv_PowerControlEnabled : bool;
  dv_LastErr : option error }.
Record gatewayRouteSetting := MkRouteSetting { gs_DeviceID : string; gs_Address : Z; gs_Route : deviceRouteView }.
Record gatewaySettingsView := MkSettings { gv_Bridge : BridgeConfig; gv_Routes : list gatewayRouteSetting }.

Section views.
Context {C : Type}.
Definition device_view (cfg : tile_config) (g : gateway C) (d : DeviceConfig) : deviceView :=
  let channelCount := effectiveChannelCount [dc_ChannelCount d; tc_ChannelCount cfg] in
  let binding := gw_devices g !! dc_ID d in
  MkDeviceView (dc_ID d) (dc_Label d) (dc_Endpoint d) (activeDeviceRouteView d) (deviceRouteCandidatesView d) (dc_Address d)
    channelCount (deviceChannelsView d channelCount) (match binding ≫= gb_client with Some _ => true | None => false end)
    (dc_PowerControlEnabled d) (binding ≫= gb_lastErr).
Definition handleDevices (cfg : tile_config) (g : gateway C) : list deviceView :=
  device_view cfg g <$> orderedDeviceBindings (tc_DefaultDeviceID cfg) (tc_Devices cfg).
End views.

Definition same_endpoint (a b : bytes) : bool := bool_decide (TrimSpace a = TrimSpace b).
Definition device_settings (d : DeviceConfig) : list gatewayRouteSetting :=
  let active := activeDeviceRouteView d in
  let row := MkRouteSetting (dc_ID d) (dc_Address d) in
  row active :: (row <$> filter (λ route, rv_Active route && same_endpoint (rv_Endpoint route) (rv_Endpoint active) = false)
                           (deviceRouteCandidatesView d)).
Definition gatewayRouteSettings (cfg : tile_config) : list gatewayRouteSetting :=
  orderedDeviceBindings (tc_DefaultDeviceID cfg) (tc_Devices cfg) ≫= device_settings.
(** [None]: 405. *)
Definition handleSettings (method : string) (bridge : BridgeConfig) (cfg : tile_config) : option gatewaySettingsView :=
  if bool_decide (method = "GET"%string) then Some (MkSettings bridge (gatewayRouteSettings cfg)) else None.
Definition catalogueChannelCount (cfg : tile_config) : Z :=
  effectiveChannelCount [foldr (λ d m, Z.max (dc_ChannelCount d) m) (tc_ChannelCount cfg) (tc_Devices cfg); 4].

(** ** The catalogue *)
Record gatewayCatalogueEntry := MkCatalogueEntry {
  ge_Entry : TECCatalogueEntry; ge_Sensor : string; ge_HighPri : bool; ge_Writable : bool; ge_RouteSupport : list string;
  ge_TelemetryCounterparts : gmap string (list Z); ge_TelecommandCounterparts : gmap string (list Z); ge_WriteSemantics : string }.
Definition all_routes : list string := ["serial"; "can"; "serial+can"; "canopen"; "tcp"].
Definition route_of_support (support : string) : option string :=
  let is_ s := bool_decide (support = s) in
  if is_ "mecom_serial"%string then Some "serial"%string else if is_ "mecom_can"%string then Some "can"%string
  else if is_ "mecom_serial_can"%string then Some "serial+can"%string else if is_ "mecom_tcp"%string then Some "tcp"%string
  else if is_ "canopen"%string then Some "canopen"%string else None.
Definition gatewayCatalogueRouteSupport (transportSupport : list string) : list string :=
  let out := omap route_of_support transportSupport in
  if bool_decide (out = []) then all_routes else out.
Definition gatewayCatalogueWriteSemantics (access command : string) : string :=
  if bool_decide (access = "metadata"%string) then "metadata"
  else if bool_decide (access = "write"%string) then (if bool_decide (command = ""%string) then "write" else command)
  else "read_only".

Section catalogue.
Context (tec : tecCatalogueJSON) (help : mecomTECHelpSourceJSON).
Context (config : ldd130xDefaultConfigSource) (labels : ldd130xUIMetadataSource) (index : ldd130xMetadataIndexSource).
Context (Marshal_paths : list TECCatalogueTreePath → string) (Marshal_counterparts : gmap string (list Z) → string).
Context (defaultCANopenSDOMap lddCANopenSDOMap : CANopenSDOMap).

Definition ResolveCANopenSDOMap (subFamily variant : string) : option CANopenSDOMap :=
  if bool_decide (lower subFamily = MeerstetterSubFamilyTEC) then Some defaultCANopenSDOMap
  else if bool_decide (lower subFamily = MeerstetterSubFamilyLDD) then
    if has_text "130x" (ToLower (str variant)) || bool_decide (variant = ""%string) then Some lddCANopenSDOMap else None
  else None.
Definition CANopenMappedParameterWritability : gmap Z bool := ParameterWritability defaultCANopenSDOMap.
Definition gatewayCatalogueWritable (d : MeComCatalogueDefinition) (id : Z) : bool :=
  if bool_decide (df_SubFamily d = MeerstetterSubFamilyTEC) then TECParameterWritable tec id
  else
    match ResolveCANopenSDOMap (df_SubFamily d) (df_Variant d) ≫= λ m, ParameterWritability m !! id with
    | Some writable => writable
    | None => default false (CANopenMappedParameterWritability !! id)
    end.

Definition request_text (rq : http_request) (key : string) : string := to_str (query_get rq key).
Definition definition_by_ref (ref : string) : option MeComCatalogueDefinition :=
  let has s := has_text s (str ref) in
  if bool_decide (ref = ""%string) then None
  else if has "ldd_130x"%string then Some DefaultLDD130xCatalogueDefinition
  else if has "ldd_1321"%string then ResolveMeComCatalogueDefinition tec "" "" "ldd_1321"
  else if has "ldd"%string then Some DefaultLDDCatalogueDefinition
  else if has "daq"%string then Some DefaultDAQCatalogueDefinition
  else if has "tec"%string then Some (DefaultTECCatalogueDefinition tec)
  else None.
Definition gatewayCatalogueDefinitionFromRequest (rq : http_request) : MeComCatalogueDefinition :=
  let get := request_text rq in
  let ref := normalizeDefinitionToken (first_non_empty [get "definition"; get "definition_ref"; get "definitionRef"]%string) in
  match definition_by_ref ref with
  | Some d => d
  | None =>
      default (DefaultTECCatalogueDefinition tec)
        (ResolveMeComCatalogueDefinition tec (get "system"%string) (get "family"%string)
           (first_non_empty [get "sub_family"; get "subFamily"; get "variant"]%string))
  end.

Definition gateway_entry (d : MeComCatalogueDefinition) (p : TECCatalogueEntry) : gatewayCatalogueEntry :=
  MkCatalogueEntry p (TraceID tec d (ce_Instance p) (ce_RawName p)) (bool_decide (ce_ReadoutPriority p = "high"%string))
    (gatewayCatalogueWritable d (ce_ID p)) (gatewayCatalogueRouteSupport (ce_TransportSupport p)) (ce_Counterparts p) (ce_Counterparts p)
    (gatewayCatalogueWriteSemantics (ce_Access p) (ce_Command p)).
Definition write_only_entry (p : Param) : gatewayCatalogueEntry :=
  MkCatalogueEntry
    (MkEntry (ID p) (Inst p) (Name p) (Name p) (Unit p) (Type_ p) "" "" "" "" "continuous" "write" "" "" "" "" "" "" [] "background"
       "mecom_vx_round_robin_queue" "" [] None None None ∅ false [] ∅ [] [] ∅)
    (TraceID tec (DefaultTECCatalogueDefinition tec) (Inst p) (Name p)) false (Writable p) all_routes ∅ ∅ "write".
Definition gatewayWriteOnlyCatalogueEntries (channels : Z) : list gatewayCatalogueEntry :=
  write_only_entry <$> DefaultTECWriteParameters tec channels.
Definition entry_key (e : gatewayCatalogueEntry) : Z * Z := (ce_ID (ge_Entry e), ce_Instance (ge_Entry e)).
(** The second loop: the entries whose key was not seen. *)
Fixpoint add_unseen (seen : gset (Z * Z)) (entries : list gatewayCatalogueEntry) : list gatewayCatalogueEntry :=
  match entries with
  | [] => []
  | e :: entries =>
      if bool_decide (entry_key e ∈ seen) then add_unseen seen entries
      else e :: add_unseen ({[entry_key e]} ∪ seen) entries
  end.
Definition handleCatalogue (cfg : tile_config) (rq : http_request) : option (gmap string string * list gatewayCatalogueEntry) :=
  let channels := catalogueChannelCount cfg in
  let d := gatewayCatalogueDefinitionFromRequest rq in
  params ← DefaultMeComCatalogueEntries config labels index tec Marshal_paths help Marshal_counterparts d channels;
  let out := gateway_entry d <$> params in
  let out := if bool_decide (df_SubFamily d = MeerstetterSubFamilyTEC)
             then out ++ add_unseen (list_to_set (entry_key <$> out)) (gatewayWriteOnlyCatalogueEntries channels) else out in
  Some (Metadata tec d, out).
(** The parameter that the other handlers know by a number. *)
Definition gatewayCatalogueParameter (p : TECCatalogueEntry) : Param :=
  MkParam (ce_ID p) (ce_Instance p) (ce_RawName p) (ce_Unit p) (ce_Type p)
    (gatewayCatalogueWritable (DefaultTECCatalogueDefinition tec) (ce_ID p)) (ce_Role p) (ce_Kind p).
Definition gateway_parameters : list Param :=
  gatewayCatalogueParameter <$> DefaultTECCatalogueEntries tec help Marshal_paths Marshal_counterparts 1.
End catalogue.

(** ** Every route is shown, one of each device as the active one *)
Lemma active_endpoint d : TrimSpace (rv_Endpoint (activeDeviceRouteView d)) = TrimSpace (dc_Endpoint d).
Proof.
  unfold activeDeviceRouteView. destruct (List.find _ _) as [route|] eqn:E; [|done]. cbn [rv_Endpoint].
  apply find_some in E as [_ E]. by apply bool_decide_eq_true in E.
Qed.
Lemma active_is_active d : rv_Active (activeDeviceRouteView d) = true.
Proof. unfold activeDeviceRouteView. by destruct (List.find _ _). Qed.
Lemma route_is_active d route : route_is (rv_Endpoint (activeDeviceRouteView d)) route = route_is (dc_Endpoint d) route.
Proof. unfold route_is. by rewrite active_endpoint. Qed.

(** The other routes of a device. *)
Definition standby (d : DeviceConfig) : list RouteConfig := filter (λ route, route_is (dc_Endpoint d) route = false) (dc_Routes d).
Definition settings_row (d : DeviceConfig) : deviceRouteView → gatewayRouteSetting := MkRouteSetting (dc_ID d) (dc_Address d).

Lemma candidates_spec d :
  deviceRouteCandidatesView d =
    (if existsb (route_is (dc_Endpoint d)) (dc_Routes d) then [] else [activeDeviceRouteView d]) ++
    (candidate_view (activeDeviceRouteView d) <$> dc_Routes d).
Proof.
  unfold deviceRouteCandidatesView.
  assert (E : existsb (route_is (rv_Endpoint (activeDeviceRouteView d))) (dc_Routes d) = existsb (route_is (dc_Endpoint d)) (dc_Routes d)).
  { induction (dc_Routes d) as [|route routes IH]; [done|]. cbn [existsb]. by rewrite IH, route_is_active. }
  cbn zeta. rewrite E. destruct (existsb (route_is (dc_Endpoint d)) (dc_Routes d)); reflexivity.
Qed.
Lemma candidate_active d route : rv_Active (candidate_view (activeDeviceRouteView d) route) = route_is (dc_Endpoint d) route.
Proof. apply route_is_active. Qed.
Lemma candidate_same d route :
  same_endpoint (rv_Endpoint (candidate_view (activeDeviceRouteView d) route)) (rv_Endpoint (activeDeviceRouteView d)) =
  route_is (dc_Endpoint d) route.
Proof. unfold same_endpoint, route_is. cbn [rv_Endpoint candidate_view]. by rewrite active_endpoint. Qed.

Lemma device_settings_spec d :
  device_settings d =
    settings_row d (activeDeviceRouteView d) :: (settings_row d ∘ candidate_view (activeDeviceRouteView d) <$> standby d).
Proof.
  unfold device_settings, settings_row. cbn zeta. f_equal. rewrite list_fmap_compose. f_equal. rewrite candidates_spec, filter_app.
  assert (Ha : filter (λ route, rv_Active route && same_endpoint (rv_Endpoint route) (rv_Endpoint (activeDeviceRouteView d)) = false)
    (if existsb (route_is (dc_Endpoint d)) (dc_Routes d) then [] else [activeDeviceRouteView d]) = []).
  { destruct (existsb _ _); [done|]. rewrite filter_cons_False; [done|]. rewrite active_is_active. unfold same_endpoint.
    by rewrite bool_decide_eq_true_2. }
  rewrite Ha. clear Ha. cbn [app]. unfold standby. induction (dc_Routes d) as [|route routes IH]; [done|]. rewrite fmap_cons.
  destruct (route_is (dc_Endpoint d) route) eqn:E.
  - rewrite filter_cons_False by (by rewrite candidate_active, candidate_same, E). rewrite (filter_cons_False _ route); [exact IH|by rewrite E].
  - rewrite filter_cons_True by (by rewrite candidate_active, candidate_same, E). rewrite (filter_cons_True _ route) by done.
    rewrite fmap_cons. by f_equal.
Qed.

Lemma settings_active d : gs_Route <$> filter (λ row, rv_Active (gs_Route row) = true) (device_settings d) = [activeDeviceRouteView d].
Proof.
  rewrite device_settings_spec, filter_cons_True by apply active_is_active. rewrite fmap_cons. f_equal.
  unfold standby. induction (dc_Routes d) as [|route routes IH]; [done|]. rewrite filter_cons. destruct (decide _) as [E|_]; [|exact IH].
  rewrite fmap_cons. rewrite filter_cons_False; [exact IH|]. unfold compose. cbn [gs_Route settings_row]. by rewrite candidate_active, E.
Qed.

Lemma ordered_Permutation id ds : orderedDeviceBindings id ds ≡ₚ ds.
Proof. apply sort_stable_Permutation. Qed.

(** What the gateway shows of its devices.  Every configured device is listed
    once, with a number of channels from 1 to 255 and, for each, the role that the
    poller uses; its candidates are the configured routes, in their order, preceded
    by its own endpoint when that is not among them; and its settings start with the
    route in use, which is at the endpoint of the device and the only active one of
    its rows, followed by the routes that lead elsewhere. *)
Theorem views_show_routes {C} (cfg : tile_config) (g : gateway C) :
  dv_ID <$> handleDevices cfg g ≡ₚ dc_ID <$> tc_Devices cfg ∧
  gatewayRouteSettings cfg = orderedDeviceBindings (tc_DefaultDeviceID cfg) (tc_Devices cfg) ≫= (λ d,
    settings_row d (activeDeviceRouteView d) :: (settings_row d ∘ candidate_view (activeDeviceRouteView d) <$> standby d)) ∧
  ∀ d, let v := device_view cfg g d in let active := activeDeviceRouteView d in
    1 ≤ dv_ChannelCount v ≤ 255 ∧
    rv_Endpoint <$> dv_RouteCandidates v =
      (if existsb (route_is (dc_Endpoint d)) (dc_Routes d) then [] else [dc_Endpoint d]) ++ (rc_Endpoint <$> dc_Routes d) ∧
    TrimSpace (rv_Endpoint active) = TrimSpace (dc_Endpoint d) ∧ rv_Active active = true ∧
    gs_Route <$> filter (λ row, rv_Active (gs_Route row) = true) (device_settings d) = [active] ∧
    Forall (λ c, (cv_Role c, cv_RoleSource c) = effectiveDeviceChannelRole d (cv_Instance c) ∧ 1 ≤ cv_Instance c ≤ dv_ChannelCount v)
      (dv_Channels v).
Proof.
  split_and!.
  - unfold handleDevices. rewrite <-list_fmap_compose. by rewrite ordered_Permutation.
  - unfold gatewayRouteSettings. induction (orderedDeviceBindings _ _) as [|d ds IH]; [done|]. by rewrite !bind_cons, device_settings_spec, IH.
  - intros d. cbn zeta. cbn [device_view dv_ChannelCount dv_RouteCandidates dv_Channels]. split_and!.
    + unfold effectiveChannelCount. destruct (List.find _ _) as [v|] eqn:E; [|lia].
      apply find_some in E as [_ E%negb_true_iff%Z.leb_gt]. destruct (Z.ltb_spec 255 v); lia.
    + unfold effectiveChannelCount. destruct (List.find _ _) as [v|] eqn:E; [|lia]. destruct (Z.ltb_spec 255 v); lia.
    + rewrite candidates_spec, fmap_app, <-list_fmap_compose. f_equal. destruct (existsb _ _) eqn:E; [done|]. cbn [fmap list_fmap].
      unfold activeDeviceRouteView. destruct (List.find _ _) as [route|] eqn:Ef; [|done].
      apply find_some in Ef as [Hin Hr]. assert (existsb (route_is (dc_Endpoint d)) (dc_Routes d) = true) by (apply existsb_exists; eauto). congruence.
    + apply active_endpoint.
    + apply active_is_active.
    + apply settings_active.
    + apply Forall_forall. intros c (i & Hi%elem_of_seqZ & Hc)%list_elem_of_omap. unfold channel_view in Hc.
      destruct (match deviceChannelConfig d i with Some _ => _ | None => _ end) as [[]|] eqn:Ed; [|done]. cbn [mbind option_bind] in Hc.
      destruct (effectiveDeviceChannelRole d i) as [role source] eqn:Er. injection Hc as <-. cbn [cv_Role cv_RoleSource cv_Instance].
      split; [done|lia].
Qed.

(** ** The catalogue *)
Lemma route_support_spec supports :
  gatewayCatalogueRouteSupport supports ≠ [] ∧ gatewayCatalogueRouteSupport supports ⊆ all_routes.
Proof.
  unfold gatewayCatalogueRouteSupport. cbn zeta. case_bool_decide as E; [done|]. split; [done|].
  intros r (s & _ & Hr)%list_elem_of_omap. unfold route_of_support in Hr. cbn zeta in Hr. unfold all_routes.
  repeat (case_bool_decide; [injection Hr as <-; by repeat constructor|]). done.
Qed.
(** The CANopen kinds of transport count for nothing. *)
Lemma canopen_route_needs_plain_name supports :
  "canopen"%string ∈ gatewayCatalogueRouteSupport supports → "canopen"%string ∈ supports ∨ omap route_of_support supports = [].
Proof.
  unfold gatewayCatalogueRouteSupport. cbn zeta. case_bool_decide as E; [by right|]. left.
  apply list_elem_of_omap in H as (s & Hs & Hr). unfold route_of_support in Hr. cbn zeta in Hr.
  repeat (case_bool_decide; [first [done|by subst s]|]). done.
Qed.

Lemma add_unseen_none seen entries : Forall (λ e, entry_key e ∈ seen) entries → add_unseen seen entries = [].
Proof. induction 1 as [|e entries He Hes IH]; [done|]. cbn [add_unseen]. by rewrite bool_decide_eq_true_2. Qed.

Section answer.
Context (help : mecomTECHelpSourceJSON).
Context (config : ldd130xDefaultConfigSource) (labels : ldd130xUIMetadataSource) (index : ldd130xMetadataIndexSource).
Context (Marshal_paths : list TECCatalogueTreePath → string) (Marshal_counterparts : gmap string (list Z) → string).
Context (defaultCANopenSDOMap lddCANopenSDOMap : CANopenSDOMap).
Abbreviation entries_of tec := (DefaultTECCatalogueEntries tec help Marshal_paths Marshal_counterparts).
Abbreviation show tec := (gateway_entry tec defaultCANopenSDOMap lddCANopenSDOMap).

Lemma entries_spec tec channels p : 0 < channels → p ∈ entries_of tec channels ↔
  ∃ ch param, 1 ≤ ch ≤ channels ∧ param ∈ cj_ReadoutParameters tec ++ cj_WriteParameters tec ∧
    p = tecCatalogueEntryFromParameter tec help Marshal_paths Marshal_counterparts ch param.
Proof.
  intros Hpos. unfold DefaultTECCatalogueEntries, channel_numbers. destruct (Z.leb_spec channels 0); [lia|]. rewrite list_elem_of_bind. split.
  - intros (ch & (param & -> & Hp)%list_elem_of_fmap & Hch%elem_of_seqZ). exists ch, param. split_and!; [lia..|done|done].
  - intros (ch & param & Hch & Hp & ->). exists ch. rewrite list_elem_of_fmap, elem_of_seqZ. split; [by exists param|lia].
Qed.
(** Every write-only entry is there already. *)
Lemma write_only_seen tec d channels : 0 < channels →
  add_unseen (list_to_set (entry_key <$> (show tec d <$> entries_of tec channels)))
    (gatewayWriteOnlyCatalogueEntries tec channels) = [].
Proof.
  intros Hpos. apply add_unseen_none, Forall_forall. intros e (p & -> & Hp)%list_elem_of_fmap.
  unfold DefaultTECWriteParameters, channel_numbers in Hp. destruct (Z.leb_spec channels 0); [lia|].
  apply list_elem_of_bind in Hp as (ch & (param & -> & Hparam)%list_elem_of_fmap & Hch).
  apply elem_of_list_to_set. apply list_elem_of_fmap.
  exists (show tec d (tecCatalogueEntryFromParameter tec help Marshal_paths Marshal_counterparts ch param)). split; [done|].
  apply list_elem_of_fmap. eexists. split; [done|]. apply entries_spec; [done|]. exists ch, param. apply elem_of_seqZ in Hch.
  split_and!; [lia..| |done]. apply elem_of_app. by right.
Qed.
Lemma channels_positive cfg : 1 ≤ catalogueChannelCount cfg ≤ 255.
Proof.
  unfold catalogueChannelCount, effectiveChannelCount. destruct (List.find _ _) as [v|] eqn:E; [|lia].
  apply find_some in E as [_ E%negb_true_iff%Z.leb_gt]. destruct (Z.ltb_spec 255 v); lia.
Qed.

(** Of the shipped catalogue: writable is what a write request may name. *)
Definition write_accepted (id : Z) : bool := bool_decide (is_Some (gatewayWriteParameterByID (DefaultTECWriteParameters tec_json 1) id)).
Lemma shipped_writable param : param ∈ cj_ReadoutParameters tec_json ++ cj_WriteParameters tec_json →
  TECParameterWritable tec_json (tec_ID param) = write_accepted (tec_ID param).
Proof.
  assert (E : forallb (λ p, Bool.eqb (TECParameterWritable tec_json (tec_ID p)) (write_accepted (tec_ID p)))
    (cj_ReadoutParameters tec_json ++ cj_WriteParameters tec_json) = true) by (vm_compute; reflexivity).
  intros Hp. apply eqb_true_iff. apply (proj1 (forallb_forall _ _) E). by apply list_elem_of_In.
Qed.

(** The catalogue as the browser gets it, from the tables that ship with the
    program.  Every request for it is answered.  For the TEC family, every readout
    and write parameter is listed for every channel, and nothing else (the entries
    that are added for parameters that can only be written are all there already);
    and an entry is marked writable exactly if a write request may name its
    parameter.  Every entry of any family has at least one route, out of five. *)
Theorem catalogue_shows_parameters (cfg : tile_config) (rq : http_request) :
  let d := gatewayCatalogueDefinitionFromRequest tec_json rq in
  ∃ out, handleCatalogue tec_json help config labels index Marshal_paths Marshal_counterparts defaultCANopenSDOMap lddCANopenSDOMap
           cfg rq = Some (Metadata tec_json d, out) ∧
    (df_SubFamily d = MeerstetterSubFamilyTEC →
       (∀ id ch, (id, ch) ∈ entry_key <$> out ↔
          1 ≤ ch ≤ catalogueChannelCount cfg ∧ id ∈ tec_ID <$> (cj_ReadoutParameters tec_json ++ cj_WriteParameters tec_json)) ∧
       Forall (λ e, ge_Writable e = write_accepted (ce_ID (ge_Entry e))) out) ∧
    Forall (λ e, ge_RouteSupport e ≠ [] ∧ ge_RouteSupport e ⊆ all_routes) out.
Proof.
  cbn zeta. unfold handleCatalogue. cbn zeta. set (d := gatewayCatalogueDefinitionFromRequest tec_json rq). clearbody d.
  pose proof (channels_positive cfg) as Hch. set (n := catalogueChannelCount cfg) in *.
  assert (Hroutes : ∀ l, Forall (λ e, ge_RouteSupport e ≠ [] ∧ ge_RouteSupport e ⊆ all_routes) (show tec_json d <$> l)).
  { intros l. apply Forall_forall. intros e (p & -> & _)%list_elem_of_fmap. apply route_support_spec. }
  case_bool_decide as Ht.
  - assert (E : DefaultMeComCatalogueEntries config labels index tec_json Marshal_paths help Marshal_counterparts d n = Some (entries_of tec_json n)).
    { unfold DefaultMeComCatalogueEntries. cbn zeta. assert (Hn : df_SubFamily (normalizedDefinition tec_json d) = MeerstetterSubFamilyTEC).
      { unfold normalizedDefinition. case_bool_decide; [done|]. cbn zeta. cbn [df_SubFamily]. by rewrite Ht. }
      rewrite Hn. done. }
    rewrite E. cbn [mbind option_bind]. rewrite write_only_seen by lia. rewrite app_nil_r. eexists. split_and!; [done| |apply Hroutes].
    intros _. split.
    + intros id ch. rewrite list_elem_of_fmap. split.
      * intros (e & Ek & (p & -> & (ch' & param & Hch' & Hp & ->)%entries_spec)%list_elem_of_fmap); [|lia].
        injection Ek as -> ->. split; [done|]. rewrite list_elem_of_fmap. by exists param.
      * intros [Hc (param & -> & Hp)%list_elem_of_fmap].
        exists (show tec_json d (tecCatalogueEntryFromParameter tec_json help Marshal_paths Marshal_counterparts ch param)). split; [done|].
        apply list_elem_of_fmap. eexists. split; [done|]. apply entries_spec; [lia|]. by exists ch, param.
    + apply Forall_forall. intros e (p & -> & (ch' & param & Hch' & Hp & ->)%entries_spec)%list_elem_of_fmap; [|lia].
      cbn [gateway_entry ge_Writable ge_Entry tecCatalogueEntryFromParameter ce_ID]. unfold gatewayCatalogueWritable.
      rewrite (bool_decide_eq_true_2 _ Ht). by apply shipped_writable.
  - assert (∃ ps, DefaultMeComCatalogueEntries config labels index tec_json Marshal_paths help Marshal_counterparts d n = Some ps) as [ps ->].
    { unfold DefaultMeComCatalogueEntries. cbn zeta. repeat case_match; try (by eexists). apply ldd_list_some. }
    cbn [mbind option_bind]. eexists. split_and!; [done|done|apply Hroutes].
Qed.

(** The measurement module has no catalogue of its own and gets that of the TEC. *)
Lemma rmm_gets_tec_catalogue channels :
  DefaultMeComCatalogueEntries config labels index tec_json Marshal_paths help Marshal_counterparts DefaultRMM1182CatalogueDefinition channels =
  Some (entries_of tec_json channels).
Proof. done. Qed.
End answer.

(** A gateway without devices, asked for its catalogue. *)
Definition catalogue_request : http_request := MkRequest "GET" (str "/api/catalogue") true ∅ ∅ None false.
Definition bare_config : tile_config := MkTileConfig [] 0 [] [] [].
Definition bare_map : CANopenSDOMap := MkSDOMap ∅ ∅ ∅ ∅ ∅.
Lemma catalogue_shows_parameters_witness :
  ∃ out, handleCatalogue tec_json (MkHelpSource "v1" ∅) (MkLddConfig "v1" "ldd" ∅) (MkLddMetadata "v1" "ldd" "" "" ∅)
           (MkLddIndex "v1" "ldd" "" []) (λ _, ""%string) (λ _, ""%string) bare_map bare_map bare_config catalogue_request =
         Some (Metadata tec_json (DefaultTECCatalogueDefinition tec_json), out) ∧
    (2010, 4) ∈ entry_key <$> out ∧ ¬ (2010, 5) ∈ entry_key <$> out.
Proof.
  destruct (catalogue_shows_parameters (MkHelpSource "v1" ∅) (MkLddConfig "v1" "ldd" ∅) (MkLddMetadata "v1" "ldd" "" "" ∅)
    (MkLddIndex "v1" "ldd" "" []) (λ _, ""%string) (λ _, ""%string) bare_map bare_map bare_config catalogue_request) as (out & E & H & _).
  exists out. assert (Hd : gatewayCatalogueDefinitionFromRequest tec_json catalogue_request = DefaultTECCatalogueDefinition tec_json) by reflexivity.
  rewrite Hd in E. rewrite Hd in H. destruct (H eq_refl) as [Hk _]. split_and!; [exact E| |].
  - apply Hk. split; [vm_compute; split; discriminate|]. apply (bool_decide_eq_true_1 (2010 ∈ _)). vm_compute. reflexivity.
  - intros [[_ Hc] _]%Hk. vm_compute in Hc. by apply Hc.
Defined.
